(* ===== verification/_CoqProject ===== *)
-Q . S2P
Prelude.v
Vmem.v
VmemSpec.v
VmemProofs.v
VmemAlloc.v
VmemFree.v
VmemTheorems.v
Rcu.v
Sched.v
SchedProofs.v
Dispatch.v
DispatchProofs.v
WaitProofs.v
TimerProofs.v
DispatchTheorems.v
MsgqProofs.v
Calendar.v
Pte.v
PteAmd64.v
PteAarch64.v
PteRiscv64.v
PteM68k.v
Resident.v
Tables.v
PageAlloc.v
BuddyProofs.v
BuddyAlloc.v
BuddyFree.v
BuddyTheorems.v
PageAccounts.v
Walk.v
PageTree.v
WalkTheorems.v
Wsl.v
WslProofs.v
WslOps.v
WslTheorems.v
PrivateMem.v
Libkern.v
LibkernProofs.v
Ninep.v
Bits.v
Objman.v
Objtab.v
ObjtabProofs.v
File.v
Idalloc.v
Iop.v
IopProofs.v
Kmem.v
KmemInv.v
KmemSlab.v
KmemAlloc.v
KmemMag.v
KmemHeap.v
KmemSizes.v
KmemStart.v
KmemTheorems.v
Vfs.v
VfsInv.v
VfsNames.v
VfsLookup.v
VfsVnodes.v
Lookup.v
LookupTheorems.v
VfsTheorems.v
Epoll.v
EpollInv.v
EpollWatch.v
Kconsole.v
EpollTheorems.v
ConsoleTheorems.v
Aspace.v
VmMap.v
VmMapProofs.v
Fault.v
FaultMaps.v
VmMapTheorems.v
FaultTheorems.v
