(* ===== verification/Prelude.v ===== *)
(** * A verification of parts of the Keyronex kernel

    Keyronex is an operating system kernel in C and Objective-C (src/kernel).  Its parts
    build on one another:

    - kern/ has processors, threads, the scheduler, deferred procedure calls, RCU, and
      the dispatcher objects (semaphores, mutexes, events, queues, ports, timers) threads
      wait for;
    - vm/ has physical pages, page tables, working sets, and the VMem allocator that hands
      out ranges of kernel addresses;
    - executive/ has reference-counted objects, descriptor tables, files and processes;
    - vfs/ has names, vnodes and path look-up;
    - dev/ has I/O packets and the drivers; fs/ has the 9p file system;
    - libkern/ has the C library routines all of these use.

    ** How code becomes definitions

    A C function is a Rocq function of the same name in the monad [kern S] of this file: it
    takes the state [S] explicitly and ends in [Ok] with a result and a new state, in
    [Fatal] where the source panics, fails an assertion or would follow a pointer to
    nothing, or in [Spin] where a loop has used up its fuel.  Structures are records,
    enumerations are inductive types, integers are [Z] with the wrap-around of their width
    written out ([u64], [u32], [i16] and so on).  Linked queues are lists of pointers; a
    pointer is a number that indexes a map of structures.  [wp m Q s] says that [m], run
    in [s], ends in [Ok] and satisfies [Q]: theorems stated with it exclude panics and
    non-termination.  [wlp] is its partial form.

    A lock section of the source is one step.  Where threads interleave (RCU, waiting on a
    semaphore) a step relation lists the lock sections, and theorems hold in every
    reachable state, for any number of threads and processors.

    ** Files

    - Prelude.v: outcomes, the monad, its program logic, machine integers, lists.
    - VMem (kernel/vm/vmem.c, kdk/vmem.h, kdk/vmem_impl.h): Vmem.v has the segments, free
      lists, hash table and every operation; VmemSpec.v the abstract view, spans tiled by
      segments; VmemProofs.v the representation invariant; VmemAlloc.v and
      VmemFree.v the lemmas; VmemTheorems.v the results: allocation gives a range that is
      aligned, within the bounds asked for, and disjoint from every live one; freeing undoes
      it; the invariant holds in every reachable state.
    - RCU (kernel/kern/rcu.c): Rcu.v.  Callbacks that got their generation number while no
      generation was in progress are retired only after every processor has passed a
      quiescent state; a run ([rcu_early_callback]) shows that others can run too early.
    - Scheduler (kernel/kern/sched.c): Sched.v, SchedProofs.v.  Rescheduling, waking a
      thread, idle processors, deferred procedure calls.
    - Dispatcher objects (kernel/kern/wait.c, semaphore.c, mutex.c, msgqueue.c, port.c,
      timer.c, clock.c): Dispatch.v; DispatchProofs.v, WaitProofs.v, DispatchTheorems.v,
      TimerProofs.v, MsgqProofs.v.  Waiters are served in order.  For
      threads that wait on one semaphore without a timeout, under every interleaving of lock
      sections, the semaphore never admits more threads than it was released for, no wake-up
      is lost, and the code does not panic; a mutex is handed over; a message queue is a
      bounded queue; timers fire when they are due and wake the threads that wait.  DispatchTheorems.v ends with runs
      in which the code fails.
    - Calendar.v: dates and times of kernel/kern/clock.c.
    - Page table entries (kernel/vm/amd64/vmp_amd64.h and the other three ports): Pte.v has
      the interface [PteFormat] with its laws [PteLaws], which the page table code is
      verified against; PteAmd64.v, PteAarch64.v, PteRiscv64.v, PteM68k.v the formats.
    - Resident pages (kernel/vm/resident.c): Resident.v and PageAlloc.v have the page
      database, the buddy allocator and the life of a page; BuddyProofs.v, BuddyAlloc.v,
      BuddyFree.v and BuddyTheorems.v show that the allocator refines a set of
      free pages; PageAccounts.v that the counters of pages always add up.
    - Page tables (kernel/vm/tables.c, kernel/vm/amd64/vm_amd64.c): Tables.v has the counts of
      a table page, Walk.v looking an entry up and making the missing tables; PageTree.v
      has the trees of tables, the invariant that every count of a table is exact, and what
      making and giving back a table does to it; WalkTheorems.v shows that the walk finds the
      right entry and disturbs no other, and that releasing it undoes it and leaves no table
      empty.
    - Working sets (kernel/vm/ws.c): Wsl.v, WslProofs.v, WslOps.v, WslTheorems.v.  Inserting a
      page keeps the list, its free entries and its hash table consistent, and evicts one
      page at most; the hash table may have one slot that names the wrong entry, since
      [vmp_wsl_init] leaves one, and removing a page is correct where probing does not meet it.
    - Private memory (kernel/vm/ws.c, fault.c): PrivateMem.v has which page holds each page of
      a process, that no other process has it, and what evicting and entering pages do to it.
    - Address spaces (kernel/vm/map.c, vmp.h): Aspace.v has the state of processes, mappings
      and mappable objects, with their locks; VmMap.v mapping and unmapping; VmMapProofs.v,
      FaultMaps.v and VmMapTheorems.v show that the mappings of a process, its arena of
      addresses and the lists of the objects agree in every state that creating processes,
      mapping, unmapping and page faults reach.  What other threads do while one waits is the
      interface [VmEnv] with its laws [VmEnvOk]: they keep this, and leave alone the mappings
      of a process whose map lock the thread holds.
    - Page faults (kernel/vm/fault.c): Fault.v has all branches of the handler;
      FaultTheorems.v shows that a fault on private memory that is not swapped out maps the
      page and cannot be noticed: no word of any process's private memory changes.
    - Kernel memory (kernel/vm/kmem_cache.c, the STAILQ macros of kdk/queue.h): Kmem.v has
      slabs, their control structures, magazines and the allocators on top.  Pages come
      from the interface [PageSource] with its laws [PageLaws].  KmemInv.v and KmemSlab.v
      have the invariant of slabs and how taking and giving back a buffer keep it;
      KmemAlloc.v the slab layer; KmemMag.v the magazines; KmemHeap.v both together;
      KmemSizes.v the choice of a cache; KmemStart.v start-up; KmemTheorems.v the variants
      clients use and the results: any sequence of requests is served, memory
      in use never overlaps, and resizing keeps what memory holds.
    - C library (kernel/libkern/libkern.c, murmurhash.c): Libkern.v, LibkernProofs.v.
    - 9p messages (kernel/fs/9p/9p_buf.c): Ninep.v.  Memory comes from the
      interface [Kmem] with its laws.
    - Executive: Bits.v has bit maps in general; Objman.v objects (objman.c); Objtab.v and
      ObjtabProofs.v descriptor tables (objtab.c); File.v file objects and
      services (file.c) on top of both; Idalloc.v identifiers (idalloc.c).
    - Names, vnodes and paths (kernel/vfs/namecache.c, vfs.c, lookup.c): Vfs.v has the name
      cache, counts of vnodes and file systems, and iteration over vnodes; file systems are
      the interface [VnodeOps] with its laws [VnodeLaws].  VfsInv.v has the invariant of the
      cache and freeing a node, VfsNames.v references and trimming, VfsLookup.v look-ups and
      their agreement with the file system, VfsVnodes.v removal of a file system and
      iteration.  Lookup.v has paths, in memory, on top of the C library and the cache;
      LookupTheorems.v shows that a path is cut into its components and
      leads where the directories lead.  VfsTheorems.v has the results and their limits.
    - I/O packets (kernel/dev/iop.c): Iop.v, IopProofs.v.
    - Polling (kernel/executive/epoll.c): Epoll.v has epoll instances, their entries and the
      services; files are the interface [PollDev] with its laws [PollLaws].  EpollInv.v has
      the invariant, EpollWatch.v adding and removing a watch; EpollTheorems.v has the scan
      for events and shows that under every interleaving of lock
      sections no wake-up is lost, and a run that stalls.
    - System console (kernel/executive/kconsole.c): Kconsole.v has the ring of input and its
      vnode operations, an instance of [PollDev]; ConsoleTheorems.v shows that the ring is a
      queue and that input wakes the poller of the console.

    ** Fuel and bounds

    Loops over a C array or a linked queue recurse on the array or queue.  The others have
    fuel: the searches of VMem and the scans of working sets have as much as the structure
    has elements; string routines have a parameter, and the theorems on them hold for any
    fuel above the length of the string; the loop of an I/O packet has a parameter, and its
    theorem gives an amount that is enough; a descriptor look-up retries only when it races
    with another thread, so one round is enough; an allocation from a cache of large slabs
    allocates from the caches of control structures, whose slabs are small, so a depth of
    one is enough; the loop that unmaps has one round more than there are pages, and a walk
    of page tables may wait 64 times; the walk of a queue of slabs has as much as there are slabs; the loops
    over the name cache have as much as there are nodes.  The buddy
    allocator and the page walks recurse on orders and levels.  Theorems on reference
    counts and table counts assume that these are far from the limit of their type, as explicit bounds.

    ** Not modelled

    Locks, memory barriers, interrupt priority levels and translation buffers have no
    effect on the modelled state, except where address spaces and faults drop locks and take
    them again.  Fork, the file cache and page writers, futexes and programs are not modelled.  Drivers, platforms, traps and context switches are device registers and
    assembly; the Objective-C classes depend on a runtime that is not part of the sources.
    Drivers' routines, vnode operations and the kernel's allocator are parameters of the
    definitions that call them. *)
From Stdlib Require Export ZArith Lia.
From stdpp Require Export base tactics option numbers strings gmap list list_numbers.

(** * Outcomes of kernel code

    [kfatal] and a failed [kassert] stop the machine, and so does (at best) a
    dereference of NULL or of an element that is not linked on the queue it is
    removed from.  All of these are [Fatal].  A loop the source does not bound
    is given fuel, and [Spin] is the outcome of running out of it. *)
Inductive outcome (A : Type) : Type :=
  | Ok (a : A)
  | Fatal (why : string)
  | Spin.
Global Arguments Ok {A} a.
Global Arguments Fatal {A} why.
Global Arguments Spin {A}.

(** Kernel code over a state [S]: the state is passed explicitly. *)
Definition kern (S A : Type) : Type := S → outcome (A * S).

Global Instance kern_ret S : MRet (kern S) := λ A a s, Ok (a, s).
Global Instance kern_bind S : MBind (kern S) := λ A B f m s,
  match m s with
  | Ok (a, s') => f a s'
  | Fatal why => Fatal why
  | Spin => Spin
  end.
Global Instance kern_fmap S : FMap (kern S) := λ A B f m, a ← m; mret (f a).

Section primitives.
Context {S : Type}.

Definition get : kern S S := λ s, Ok (s, s).
Definition put (s : S) : kern S () := λ _, Ok ((), s).
Definition gets {A} (f : S → A) : kern S A := λ s, Ok (f s, s).
Definition modify (f : S → S) : kern S () := λ s, Ok ((), f s).
Definition fatal {A} (why : string) : kern S A := λ _, Fatal why.
Definition spin {A} : kern S A := λ _, Spin.
(** [kassert(b)] *)
Definition kassert (why : string) (b : bool) : kern S () :=
  if b then mret () else fatal why.
(** A dereference: [None] is a dangling or NULL pointer. *)
Definition deref {A} (why : string) (o : option A) : kern S A :=
  match o with Some a => mret a | None => fatal why end.
(** [if (b) m;] *)
Definition when (b : bool) (m : kern S ()) : kern S () := if b then m else mret ().
End primitives.

(** * Weakest preconditions

    [wp m Q s]: run from [s], [m] returns (no panic, no fuel exhaustion) with a
    result and a state satisfying [Q]. *)
Definition wp {S A} (m : kern S A) (Q : A → S → Prop) (s : S) : Prop :=
  match m s with Ok (a, s') => Q a s' | _ => False end.

Section wp.
Context {S : Type}.
Implicit Types s : S.

Lemma wp_ok {A} (m : kern S A) Q s :
  wp m Q s ↔ ∃ a s', m s = Ok (a, s') ∧ Q a s'.
Proof. unfold wp. destruct (m s) as [[a s']| |]; naive_solver. Qed.

Lemma wp_mono {A} (m : kern S A) (Q Q' : A → S → Prop) s :
  wp m Q s → (∀ a s', Q a s' → Q' a s') → wp m Q' s.
Proof. rewrite !wp_ok. naive_solver. Qed.

Lemma wp_ret {A} (a : A) Q s : wp (mret a) Q s ↔ Q a s.
Proof. done. Qed.

Lemma wp_bind {A B} (m : kern S A) (f : A → kern S B) Q s :
  wp (m ≫= f) Q s ↔ wp m (λ a s', wp (f a) Q s') s.
Proof. unfold wp, mbind, kern_bind. by destruct (m s) as [[a s']| |]. Qed.

Lemma wp_gets {A} (f : S → A) Q s : wp (gets f) Q s ↔ Q (f s) s.
Proof. done. Qed.

Lemma wp_get Q s : wp get Q s ↔ Q s s.
Proof. done. Qed.

Lemma wp_put s0 (Q : () → S → Prop) s : wp (put s0) Q s ↔ Q () s0.
Proof. done. Qed.

Lemma wp_modify f (Q : () → S → Prop) s : wp (modify f) Q s ↔ Q () (f s).
Proof. done. Qed.

Lemma wp_kassert why b (Q : () → S → Prop) s :
  wp (kassert why b) Q s ↔ b = true ∧ Q () s.
Proof. unfold wp, kassert. destruct b; naive_solver. Qed.

Lemma wp_deref {A} why (o : option A) Q s :
  wp (deref why o) Q s ↔ ∃ a, o = Some a ∧ Q a s.
Proof. unfold wp, deref. destruct o; naive_solver. Qed.

Lemma wp_when b (m : kern S ()) (Q : () → S → Prop) s :
  wp (when b m) Q s ↔ if b then wp m Q s else Q () s.
Proof. by destruct b. Qed.

Lemma wp_run {A} (m : kern S A) Q s a s' : wp m Q s → m s = Ok (a, s') → Q a s'.
Proof. unfold wp. intros Hw Hm. by rewrite Hm in Hw. Qed.

(** The state after running [m], for concrete runs. *)
Definition final {A} (m : kern S A) (s : S) : S :=
  match m s with Ok (_, s') => s' | _ => s end.
Lemma wp_final {A} (m : kern S A) (Q : A → S → Prop) s : wp m Q s → ∃ a, Q a (final m s).
Proof. unfold wp, final. destruct (m s) as [[a s']| |]; [eauto|done..]. Qed.

(** That it returns at all. *)
Definition returns {A} (m : kern S A) (s : S) : bool := match m s with Ok _ => true | _ => false end.
Lemma final_run (m : kern S ()) s : returns m s = true → m s = Ok ((), final m s).
Proof. unfold returns, final. by destruct (m s) as [[[] s']| |]. Qed.

(** Straight-line code followed by a continuation. *)
Lemma wp_seq3 {A} (m1 m2 m3 : kern S ()) (k : kern S A) Q s :
  wp (m1;; m2;; m3) (λ _ s', wp k Q s') s → wp (m1;; m2;; m3;; k) Q s.
Proof.
  unfold wp, mbind, kern_bind. destruct (m1 s) as [[[] s1]| |]; [|done..].
  destruct (m2 s1) as [[[] s2]| |]; [|done..]. by destruct (m3 s2) as [[[] s3]| |].
Qed.
Lemma wp_seq4 {A} (m1 m2 m3 m4 : kern S ()) (k : kern S A) Q s :
  wp (m1;; m2;; m3;; m4) (λ _ s', wp k Q s') s → wp (m1;; m2;; m3;; m4;; k) Q s.
Proof.
  rewrite !(wp_bind m1). intros Hm. eapply wp_mono; [done|]. intros [] s'. apply wp_seq3.
Qed.
End wp.

(** * Partial correctness

    [wlp m Q s]: if [m] returns from [s], it is with [Q]. *)
Definition wlp {S A} (m : kern S A) (Q : A → S → Prop) (s : S) : Prop :=
  match m s with Ok (a, s') => Q a s' | _ => True end.

Section wlp.
Context {S : Type}.
Implicit Types s : S.

Lemma wlp_run {A} (m : kern S A) (Q : A → S → Prop) s : wlp m Q s ↔ ∀ a s', m s = Ok (a, s') → Q a s'.
Proof. unfold wlp. destruct (m s) as [[a s']| |]; [|done..]. split; [by intros ? ? ? [= <- <-]|eauto]. Qed.
Lemma wlp_mono {A} (m : kern S A) (Q Q' : A → S → Prop) s : wlp m Q s → (∀ a s', Q a s' → Q' a s') → wlp m Q' s.
Proof. rewrite !wlp_run. eauto. Qed.
Lemma wlp_bind {A B} (m : kern S A) (f : A → kern S B) Q s : wlp (m ≫= f) Q s ↔ wlp m (λ a s', wlp (f a) Q s') s.
Proof. unfold wlp, mbind, kern_bind. by destruct (m s) as [[a s']| |]. Qed.
Lemma wlp_ret {A} (a : A) (Q : A → S → Prop) s : wlp (mret a) Q s ↔ Q a s.
Proof. done. Qed.
Lemma wlp_get (Q : S → S → Prop) s : wlp get Q s ↔ Q s s.
Proof. done. Qed.
Lemma wlp_gets {A} (f : S → A) Q s : wlp (gets f) Q s ↔ Q (f s) s.
Proof. done. Qed.
Lemma wlp_modify f (Q : () → S → Prop) s : wlp (modify f) Q s ↔ Q () (f s).
Proof. done. Qed.
Lemma wlp_kassert why b (Q : () → S → Prop) s : wlp (kassert why b) Q s ↔ (b = true → Q () s).
Proof. unfold wlp, kassert. destruct b; simpl; naive_solver. Qed.
Lemma wlp_deref {A} why (o : option A) Q s : wlp (deref why o) Q s ↔ ∀ a, o = Some a → Q a s.
Proof. unfold wlp, deref. destruct o; simpl; naive_solver. Qed.
Lemma wlp_when b (m : kern S ()) (Q : () → S → Prop) s : wlp (when b m) Q s ↔ if b then wlp m Q s else Q () s.
Proof. by destruct b. Qed.
Lemma wlp_fatal {A} why (Q : A → S → Prop) s : wlp (fatal why) Q s ↔ True.
Proof. done. Qed.
Lemma wlp_spin {A} (Q : A → S → Prop) s : wlp spin Q s ↔ True.
Proof. done. Qed.
End wlp.

(** Running code of a component on its part of a larger state. *)
Definition zoom {S T A} (view : S → T) (upd : T → S → S) (m : kern T A) : kern S A := λ s,
  match m (view s) with
  | Ok (a, t) => Ok (a, upd t s)
  | Fatal why => Fatal why
  | Spin => Spin
  end.
Lemma wp_zoom {S T A} (view : S → T) (upd : T → S → S) (m : kern T A) Q s :
  wp (zoom view upd m) Q s ↔ wp m (λ a t, Q a (upd t s)) (view s).
Proof. unfold wp, zoom. by destruct (m (view s)) as [[a t]| |]. Qed.

Create Rewrite HintDb wpdb.
#[export] Hint Rewrite @wp_bind @wp_ret @wp_gets @wp_get @wp_put @wp_modify @wp_kassert
  @wp_deref @wp_when @wp_zoom : wpdb.

(** Push [wp] through straight-line code. *)
Ltac wp_simp := autorewrite with wpdb.

(** Expose the cases of a run in a hypothesis. *)
Ltac run_unfold H :=
  unfold mbind, kern_bind, mret, kern_ret, get, put, gets, modify, deref, kassert, fatal, when in H.

(** * Queues of <sys/queue.h>

    A TAILQ, LIST or STAILQ whose elements are distinct is the list of its
    elements, head first.  Removal of, or insertion next to, an element that is
    not on the queue is [None] (in C it follows stale link pointers). *)
Section queues.
Context `{EqDecision A}.
Implicit Types (x y : A) (q : list A).

(** [TAILQ_REMOVE(q, x)] *)
Fixpoint q_remove x q : option (list A) :=
  match q with
  | [] => None
  | y :: q' => if decide (x = y) then Some q' else cons y <$> q_remove x q'
  end.
(** [TAILQ_INSERT_BEFORE(y, x)] *)
Fixpoint q_insert_before y x q : option (list A) :=
  match q with
  | [] => None
  | z :: q' =>
      if decide (y = z) then Some (x :: z :: q') else cons z <$> q_insert_before y x q'
  end.
(** [TAILQ_INSERT_AFTER(q, y, x)] *)
Fixpoint q_insert_after y x q : option (list A) :=
  match q with
  | [] => None
  | z :: q' =>
      if decide (y = z) then Some (z :: x :: q') else cons z <$> q_insert_after y x q'
  end.
(** [TAILQ_NEXT(x)] and [TAILQ_PREV(x)]; [None] is NULL. *)
Fixpoint q_next x q : option A :=
  match q with
  | [] => None
  | y :: q' => if decide (x = y) then head q' else q_next x q'
  end.
Fixpoint q_prev_from (p : option A) x q : option A :=
  match q with
  | [] => None
  | y :: q' => if decide (x = y) then p else q_prev_from (Some y) x q'
  end.
Definition q_prev x q : option A := q_prev_from None x q.

Lemma q_remove_mid x q1 q2 : x ∉ q1 → q_remove x (q1 ++ x :: q2) = Some (q1 ++ q2).
Proof.
  induction q1 as [|y q1 IH]; simpl; intros Hx.
  - by rewrite decide_True.
  - apply not_elem_of_cons in Hx as [??]. rewrite decide_False by done. by rewrite IH.
Qed.
Lemma q_remove_Some x q q' :
  q_remove x q = Some q' → ∃ q1 q2, x ∉ q1 ∧ q = q1 ++ x :: q2 ∧ q' = q1 ++ q2.
Proof.
  revert q'. induction q as [|y q IH]; simpl; intros q' Hq; [done|].
  case_decide; simplify_eq/=.
  - exists [], q'. set_solver.
  - apply fmap_Some in Hq as (q0 & (q1 & q2 & ? & -> & ->)%IH & ->).
    exists (y :: q1), q2. set_solver.
Qed.
Lemma q_remove_None x q : q_remove x q = None ↔ x ∉ q.
Proof.
  induction q as [|y q IH]; simpl; [set_solver|].
  case_decide; [set_solver|]. rewrite fmap_None, IH. set_solver.
Qed.
Lemma q_insert_before_mid y x q1 q2 :
  y ∉ q1 → q_insert_before y x (q1 ++ y :: q2) = Some (q1 ++ x :: y :: q2).
Proof.
  induction q1 as [|z q1 IH]; simpl; intros Hx.
  - by rewrite decide_True.
  - apply not_elem_of_cons in Hx as [??]. rewrite decide_False by done. by rewrite IH.
Qed.
Lemma q_insert_after_mid y x q1 q2 :
  y ∉ q1 → q_insert_after y x (q1 ++ y :: q2) = Some (q1 ++ y :: x :: q2).
Proof.
  induction q1 as [|z q1 IH]; simpl; intros Hx.
  - by rewrite decide_True.
  - apply not_elem_of_cons in Hx as [??]. rewrite decide_False by done. by rewrite IH.
Qed.
Lemma q_next_mid x q1 q2 : x ∉ q1 → q_next x (q1 ++ x :: q2) = head q2.
Proof.
  induction q1 as [|z q1 IH]; simpl; intros Hx.
  - by rewrite decide_True.
  - apply not_elem_of_cons in Hx as [??]. rewrite decide_False by done. by apply IH.
Qed.
Lemma q_prev_from_mid p x q1 q2 :
  x ∉ q1 → q_prev_from p x (q1 ++ x :: q2) = from_option Some p (last q1).
Proof.
  revert p. induction q1 as [|z q1 IH]; simpl; intros p Hx.
  - by rewrite decide_True.
  - apply not_elem_of_cons in Hx as [??]. rewrite decide_False by done.
    rewrite IH by done. destruct q1 as [|w q1]; [done|].
    change (last (z :: w :: q1)) with (last (w :: q1)).
    by destruct (last (w :: q1)) eqn:E; [|apply last_None in E].
Qed.
Lemma q_prev_mid x q1 q2 : x ∉ q1 → q_prev x (q1 ++ x :: q2) = last q1.
Proof.
  intros. unfold q_prev. rewrite q_prev_from_mid by done. by destruct (last q1).
Qed.
Lemma q_remove_perm x q q' : q_remove x q = Some q' → q ≡ₚ x :: q'.
Proof. intros (q1 & q2 & _ & -> & ->)%q_remove_Some. by rewrite Permutation_middle. Qed.
Lemma q_remove_elem x q : x ∈ q → is_Some (q_remove x q).
Proof.
  intros Hx. destruct (q_remove x q) eqn:E; [eauto|].
  by apply q_remove_None in E.
Qed.
End queues.

(** Cutting a list where its filtered image is cut. *)
Lemma filter_split {A} (P : A → Prop) `{∀ x, Decision (P x)} (q l1 l2 : list A) :
  filter P q = l1 ++ l2 →
  ∃ q1 q2, q = q1 ++ q2 ∧ filter P q1 = l1 ∧ filter P q2 = l2 ∧ head q2 = head l2.
Proof.
  revert l1. induction q as [|x q IH]; intros l1 Hq.
  { symmetry in Hq. apply app_nil in Hq as [-> ->]. by exists [], []. }
  destruct (decide (P x)) as [Hx|Hx].
  - rewrite filter_cons_True in Hq by done. destruct l1 as [|y l1]; simplify_eq/=.
    + exists [], (x :: q). rewrite filter_cons_True by done. split_and!; done.
    + destruct (IH l1) as (q1 & q2 & -> & <- & <- & Hh); [done|]. exists (y :: q1), q2.
      rewrite filter_cons_True by done. done.
  - rewrite filter_cons_False in Hq by done. destruct (IH _ Hq) as (q1 & q2 & -> & <- & <- & Hh).
    exists (x :: q1), q2. rewrite filter_cons_False by done. done.
Qed.

Lemma filter_all {A} (P : A → Prop) `{∀ x, Decision (P x)} (l : list A) :
  (∀ x, x ∈ l → P x) → filter P l = l.
Proof.
  induction l as [|x l IH]; intros Hl; [done|]. rewrite filter_cons_True by (apply Hl; set_solver).
  f_equal. apply IH. set_solver.
Qed.
Lemma filter_none {A} (P : A → Prop) `{∀ x, Decision (P x)} (l : list A) :
  (∀ x, x ∈ l → ¬ P x) → filter P l = [].
Proof.
  induction l as [|x l IH]; intros Hl; [done|]. rewrite filter_cons_False by (apply Hl; set_solver).
  apply IH. set_solver.
Qed.
(** Removing an element that occurs once. *)
Lemma filter_ne_length `{EqDecision A} (t : A) (l : list A) :
  NoDup l → t ∈ l → S (length (filter (.≠ t) l)) = length l.
Proof.
  induction 1 as [|x l Hx Hnd IH]; intros Ht; [by apply not_elem_of_nil in Ht|].
  destruct (decide (x = t)) as [->|Hne].
  - rewrite filter_cons_False by tauto. simpl. rewrite filter_all; [done|]. by intros y Hy ->.
  - rewrite filter_cons_True by done. simpl. rewrite IH by set_solver. done.
Qed.

Lemma alter_as_insert `{Countable K} {A} (f : A → A) (m : gmap K A) i x :
  m !! i = Some x → alter f i m = <[i := f x]> m.
Proof.
  intros Hi. apply map_eq. intros k. destruct (decide (k = i)) as [->|Hne].
  - by rewrite lookup_alter_eq, lookup_insert_eq, Hi.
  - by rewrite lookup_alter_ne, lookup_insert_ne.
Qed.

(** * Machine integers *)
Definition u64 (x : Z) : Z := x mod 2 ^ 64.
Definition u32 (x : Z) : Z := x mod 2 ^ 32.
(** Conversion to [int] (two's complement, as the compilers used define it). *)
Definition i32 (x : Z) : Z := (x + 2 ^ 31) mod 2 ^ 32 - 2 ^ 31.
(** [ROUNDUP] and [ROUNDDOWN] of kern.h, on [uintptr_t]. *)
Definition ROUNDUP (addr align : Z) : Z := Z.land (u64 (addr + align - 1)) (Z.lnot (align - 1)).
Definition ROUNDDOWN (addr align : Z) : Z := Z.land (u64 addr) (Z.lnot (align - 1)).

Lemma u64_small x : (0 ≤ x < 2 ^ 64)%Z → u64 x = x.
Proof. apply Z.mod_small. Qed.
Lemma u64_range x : (0 ≤ u64 x < 2 ^ 64)%Z.
Proof. apply Z.mod_pos_bound. lia. Qed.
Lemma u32_small x : (0 ≤ x < 2 ^ 32)%Z → u32 x = x.
Proof. apply Z.mod_small. Qed.
Lemma u32_range x : (0 ≤ u32 x < 2 ^ 32)%Z.
Proof. apply Z.mod_pos_bound. lia. Qed.

Lemma i32_small x : (- 2 ^ 31 ≤ x < 2 ^ 31)%Z → i32 x = x.
Proof. intros. unfold i32. rewrite Z.mod_small; lia. Qed.

(** [__builtin_ctz], defined for nonzero arguments. *)
Fixpoint ctz_pos (p : positive) : nat :=
  match p with xO p' => S (ctz_pos p') | _ => O end.
Definition ctz (x : Z) : nat := match x with Zpos p => ctz_pos p | _ => O end.

(** Clearing the low bits is subtraction of the remainder. *)
Lemma land_lnot_pow2 x k : (0 ≤ k)%Z → Z.land x (Z.lnot (2 ^ k - 1)) = (x - x mod 2 ^ k)%Z.
Proof.
  intros Hk. rewrite <-Z.ldiff_land.
  replace (2 ^ k - 1)%Z with (Z.ones k) by (rewrite Z.ones_equiv; lia).
  rewrite Z.ldiff_ones_r, Z.shiftr_div_pow2, Z.shiftl_mul_pow2 by done.
  pose proof (Z.div_mod x (2 ^ k) ltac:(lia)). lia.
Qed.

Lemma ROUNDUP_pow2 addr k :
  (0 ≤ k)%Z → (0 ≤ addr)%Z → (addr + 2 ^ k ≤ 2 ^ 64)%Z →
  (addr ≤ ROUNDUP addr (2 ^ k) < addr + 2 ^ k)%Z ∧ (ROUNDUP addr (2 ^ k) mod 2 ^ k = 0)%Z.
Proof.
  intros Hk Ha Hb. unfold ROUNDUP. assert (0 < 2 ^ k)%Z by lia.
  rewrite u64_small, land_lnot_pow2 by lia.
  set (y := (addr + 2 ^ k - 1)%Z).
  pose proof (Z.mod_pos_bound y (2 ^ k) ltac:(lia)).
  pose proof (Z.div_mod y (2 ^ k) ltac:(lia)).
  split; [lia|]. rewrite Zminus_mod_idemp_r, Z.sub_diag. by apply Z.mod_0_l; lia.
Qed.
