(* ===== verification/Vmem.v ===== *)
(** The VMem resource allocator: kernel/vm/vmem.c, kernel/include/kdk/vmem.h
    and vmem_impl.h.

    A segment structure is a [nat] pointer into the map [segs]; the queues,
    freelists, hash buckets and the global pool of spare structures are lists of
    such pointers, as in the C code. *)
From S2P Require Import Prelude.
Local Open Scope Z_scope.

Module Vmem.

(** ** Data *)

(** [vmem_flag_t] *)
Definition kVMemSleep : Z := 1.
Definition kVMemExact : Z := 2.
Definition kVMemBootstrap : Z := 4.
Definition kVMemPFNDBHeld : Z := 8.
Definition has_flag (flags bit : Z) : bool := negb (Z.land flags bit =? 0).

Definition ERESOURCEEXHAUSTED : Z := 1200.
Definition kNFreeLists : nat := 64.
Definition kNHashBuckets : nat := 16.

Inductive seg_type :=
  | kVMemSegFree
  | kVMemSegAllocated
  | kVMemSegSpan
  | kVMemSegSpanImported.
Global Instance seg_type_eq_dec : EqDecision seg_type.
Proof. solve_decision. Defined.

Record vmem_seg := Seg { type : seg_type; base : Z; size : Z }.
Global Instance vmem_seg_eq_dec : EqDecision vmem_seg.
Proof. solve_decision. Defined.

Notation segptr := nat (only parsing).

(** An arena together with the pool of segment structures.  [kpages] counts the
    wired pages [vm_kalloc] can still provide before it panics; [next_seg] is
    the first segment structure not carved from a page yet; [source] is the
    state behind the import functions. *)
Record vmem (Src : Type) := Vm {
  vbase : Z;
  vsize : Z;
  quantum : Z;
  vflags : Z;
  used : Z;
  segs : gmap segptr vmem_seg;
  segqueue : list segptr;
  freelists : list (list segptr);
  hashtab : list (list segptr);
  spanlist : list segptr;
  free_segs : list segptr;
  nfreesegs : Z;
  next_seg : segptr;
  kpages : nat;
  source : Src
}.
Global Arguments Vm {Src}.
Global Arguments vbase {Src}.
Global Arguments vsize {Src}.
Global Arguments quantum {Src}.
Global Arguments vflags {Src}.
Global Arguments used {Src}.
Global Arguments segs {Src}.
Global Arguments segqueue {Src}.
Global Arguments freelists {Src}.
Global Arguments hashtab {Src}.
Global Arguments spanlist {Src}.
Global Arguments free_segs {Src}.
Global Arguments nfreesegs {Src}.
Global Arguments next_seg {Src}.
Global Arguments kpages {Src}.
Global Arguments source {Src}.

Section arena.
Context {Src : Type}.
(** [vmem->allocfn] returns a code and an address; [vmem->freefn] gives a span
    back.  Both are supplied by the arena's creator. *)
Context (allocfn : option (Z → Z → Src → Z * Z * Src)).
Context (freefn : Z → Z → Z → Src → Src).

Implicit Types (vm : vmem Src) (p : segptr).

Definition set_used (x : Z) vm : vmem Src :=
  Vm (vbase vm) (vsize vm) (quantum vm) (vflags vm) x (segs vm) (segqueue vm) (freelists vm)
    (hashtab vm) (spanlist vm) (free_segs vm) (nfreesegs vm) (next_seg vm) (kpages vm) (source vm).
Definition set_segs (x : gmap segptr vmem_seg) vm : vmem Src :=
  Vm (vbase vm) (vsize vm) (quantum vm) (vflags vm) (used vm) x (segqueue vm) (freelists vm)
    (hashtab vm) (spanlist vm) (free_segs vm) (nfreesegs vm) (next_seg vm) (kpages vm) (source vm).
Definition set_segqueue (x : list segptr) vm : vmem Src :=
  Vm (vbase vm) (vsize vm) (quantum vm) (vflags vm) (used vm) (segs vm) x (freelists vm)
    (hashtab vm) (spanlist vm) (free_segs vm) (nfreesegs vm) (next_seg vm) (kpages vm) (source vm).
Definition set_freelists (x : list (list segptr)) vm : vmem Src :=
  Vm (vbase vm) (vsize vm) (quantum vm) (vflags vm) (used vm) (segs vm) (segqueue vm) x
    (hashtab vm) (spanlist vm) (free_segs vm) (nfreesegs vm) (next_seg vm) (kpages vm) (source vm).
Definition set_hashtab (x : list (list segptr)) vm : vmem Src :=
  Vm (vbase vm) (vsize vm) (quantum vm) (vflags vm) (used vm) (segs vm) (segqueue vm) (freelists vm)
    x (spanlist vm) (free_segs vm) (nfreesegs vm) (next_seg vm) (kpages vm) (source vm).
Definition set_spanlist (x : list segptr) vm : vmem Src :=
  Vm (vbase vm) (vsize vm) (quantum vm) (vflags vm) (used vm) (segs vm) (segqueue vm) (freelists vm)
    (hashtab vm) x (free_segs vm) (nfreesegs vm) (next_seg vm) (kpages vm) (source vm).
Definition set_free_segs (x : list segptr) (n : Z) vm : vmem Src :=
  Vm (vbase vm) (vsize vm) (quantum vm) (vflags vm) (used vm) (segs vm) (segqueue vm) (freelists vm)
    (hashtab vm) (spanlist vm) x n (next_seg vm) (kpages vm) (source vm).
Definition set_supply (n : segptr) (k : nat) vm : vmem Src :=
  Vm (vbase vm) (vsize vm) (quantum vm) (vflags vm) (used vm) (segs vm) (segqueue vm) (freelists vm)
    (hashtab vm) (spanlist vm) (free_segs vm) (nfreesegs vm) n k (source vm).
Definition set_source (x : Src) vm : vmem Src :=
  Vm (vbase vm) (vsize vm) (quantum vm) (vflags vm) (used vm) (segs vm) (segqueue vm) (freelists vm)
    (hashtab vm) (spanlist vm) (free_segs vm) (nfreesegs vm) (next_seg vm) (kpages vm) x.

(** ** Access to segment structures *)

Definition seg_at (p : segptr) : kern (vmem Src) vmem_seg :=
  vm ← get; deref "segment" (segs vm !! p).
(** Assignments to the fields of [*p]. *)
Definition seg_set (p : segptr) (g : vmem_seg) : kern (vmem Src) () :=
  modify (λ vm, set_segs (<[p := g]> (segs vm)) vm).

(** [LIST_REMOVE(p, seglist)]: unlink [p] from whichever list its [seglist]
    field links. *)
Definition unlink (p : segptr) (l : list segptr) : list segptr := filter (.≠ p) l.
Definition on_seglist (p : segptr) vm : bool :=
  bool_decide (p ∈ concat (freelists vm) ++ concat (hashtab vm) ++ spanlist vm ++ free_segs vm).
Definition seglist_remove (p : segptr) : kern (vmem Src) () :=
  vm ← get;
  if on_seglist p vm then
    modify (λ vm,
      set_freelists (unlink p <$> freelists vm)
        (set_hashtab (unlink p <$> hashtab vm)
          (set_spanlist (unlink p (spanlist vm))
            (set_free_segs (unlink p (free_segs vm)) (nfreesegs vm) vm))))
  else fatal "LIST_REMOVE of an unlinked segment".

(** ** Freelists and hash buckets *)

(** [__builtin_clzl], defined for nonzero arguments. *)
Definition clzl (x : Z) : Z := 63 - Z.log2 x.

Definition freelist (size : Z) : nat := Z.to_nat (64 - clzl size - 1).

Definition freelist_insert (p : segptr) : kern (vmem Src) () :=
  g ← seg_at p;
  modify (λ vm, set_freelists (alter (cons p) (freelist (size g)) (freelists vm)) vm).

Definition murmur64 (h0 : Z) : Z :=
  let h1 := Z.lxor h0 (Z.shiftr h0 33) in
  let h2 := u64 (h1 * 0xff51afd7ed558ccd) in
  let h3 := Z.lxor h2 (Z.shiftr h2 33) in
  let h4 := u64 (h3 * 0xc4ceb9fe1a85ec53) in
  Z.lxor h4 (Z.shiftr h4 33).

Definition hashbucket_for_addr (addr : Z) : nat :=
  Z.to_nat (murmur64 addr mod Z.of_nat kNHashBuckets).

Definition hashtab_insert (p : segptr) : kern (vmem Src) () :=
  g ← seg_at p;
  modify (λ vm, set_hashtab (alter (cons p) (hashbucket_for_addr (base g)) (hashtab vm)) vm).

(** ** The pool of segment structures *)

Definition seg_alloc : kern (vmem Src) segptr :=
  vm ← get;
  match free_segs vm with
  | [] => fatal "kassert(!LIST_EMPTY(&free_segs))"
  | p :: rest => put (set_free_segs rest (nfreesegs vm - 1) vm);; mret p
  end.

Definition seg_free (p : segptr) : kern (vmem Src) () :=
  modify (λ vm, set_free_segs (p :: free_segs vm) (nfreesegs vm + 1) vm).

(** The structures of one page ([elementsof(block->_chunks)] is 63), zeroed. *)
Definition block_elems : nat := 63.
Fixpoint seg_block_free (n : nat) : kern (vmem Src) () :=
  match n with
  | O => mret ()
  | S n' =>
      vm ← get;
      let p := next_seg vm in
      seg_set p (Seg kVMemSegFree 0 0);;
      modify (λ vm, set_supply (S p) (kpages vm) vm);;
      seg_free p;;
      seg_block_free n'
  end.

(** [vm_kalloc(1, flags)]: one wired page, or the kernel panics. *)
Definition vm_kalloc_page : kern (vmem Src) () :=
  vm ← get;
  match kpages vm with
  | O => fatal "vm_kalloc"
  | S k => put (set_supply (next_seg vm) k vm)
  end.

Definition seg_refill : kern (vmem Src) () :=
  vm ← get;
  if 128 <=? nfreesegs vm then mret ()
  else vm_kalloc_page;; seg_block_free block_elems.

(** ** Spans *)

(** The last span before [base], by the order of the span list. *)
Fixpoint last_span_before (m : gmap segptr vmem_seg) (b : Z) (after : option segptr)
    (l : list segptr) : option (option segptr) :=
  match l with
  | [] => Some after
  | p :: l' =>
      match m !! p with
      | None => None
      | Some g => if b <=? base g then Some after else last_span_before m b (Some p) l'
      end
  end.

Definition segqueue_update (f : list segptr → option (list segptr)) : kern (vmem Src) () :=
  vm ← get;
  q ← deref "segqueue" (f (segqueue vm));
  put (set_segqueue q vm).

Definition spanlist_update (f : list segptr → option (list segptr)) : kern (vmem Src) () :=
  vm ← get;
  q ← deref "spanlist" (f (spanlist vm));
  put (set_spanlist q vm).

Definition vmem_add_internal (spantype : seg_type) (b sz : Z) : kern (vmem Src) (Z * segptr) :=
  vm ← get;
  afterspan ← deref "spanlist" (last_span_before (segs vm) b None (spanlist vm));
  newspan ← seg_alloc;
  seg_set newspan (Seg spantype b sz);;
  newfree ← seg_alloc;
  seg_set newfree (Seg kVMemSegFree b sz);;
  match afterspan with
  | Some a =>
      let nextspan := q_next a (spanlist vm) in
      spanlist_update (q_insert_after a newspan);;
      match nextspan with
      | Some n => segqueue_update (q_insert_before n newspan)
      | None => segqueue_update (λ q, Some (q ++ [newspan]))
      end
  | None =>
      spanlist_update (λ l, Some (newspan :: l));;
      segqueue_update (λ q, Some (newspan :: q))
  end;;
  segqueue_update (q_insert_after newspan newfree);;
  freelist_insert newfree;;
  mret (0, newfree).

Definition vmem_init (b sz quant flags : Z) (has_source : bool) : kern (vmem Src) () :=
  modify (λ vm,
    Vm b sz quant (Z.land flags (Z.lnot (Z.lor kVMemBootstrap kVMemPFNDBHeld))) 0
      (segs vm) [] (replicate kNFreeLists []) (replicate kNHashBuckets []) []
      (free_segs vm) (nfreesegs vm) (next_seg vm) (kpages vm) (source vm));;
  if negb (sz =? 0) && negb has_source
  then vmem_add_internal kVMemSegSpan b sz;; mret ()
  else mret ().

Definition vmem_add (b sz : Z) : kern (vmem Src) Z :=
  '(r, _) ← vmem_add_internal kVMemSegSpan b sz; mret r.

(** ** Allocation *)

Definition split_seg (p left right : segptr) (addr sz : Z) : kern (vmem Src) () :=
  g ← seg_at p;
  kassert "seg->type == kVMemSegFree" (bool_decide (type g = kVMemSegFree));;
  seglist_remove p;;
  (if base g <? addr then
     seg_set left (Seg kVMemSegFree (base g) (u64 (addr - base g)));;
     segqueue_update (q_insert_before p left);;
     freelist_insert left
   else seg_free left);;
  (if u64 (addr + sz) <? u64 (base g + size g) then
     seg_set right (Seg kVMemSegFree (u64 (addr + sz))
                      (u64 (u64 (base g + size g) - u64 (addr + sz))));;
     segqueue_update (q_insert_after p right);;
     freelist_insert right
   else seg_free right);;
  seg_set p (Seg kVMemSegAllocated addr sz);;
  hashtab_insert p.

Definition prev_seg (p : segptr) : kern (vmem Src) (option segptr) :=
  gets (λ vm, q_prev p (segqueue vm)).
Definition next_seg_of (p : segptr) : kern (vmem Src) (option segptr) :=
  gets (λ vm, q_next p (segqueue vm)).

Definition try_import (sz flags : Z) : kern (vmem Src) (Z * option segptr) :=
  match allocfn with
  | None => mret (- ERESOURCEEXHAUSTED, None)
  | Some alloc =>
      vm ← get;
      let '(r, addr, src') := alloc sz flags (source vm) in
      put (set_source src' vm);;
      if r <? 0 then mret (r, None)
      else
        '(r, seg) ← vmem_add_internal kVMemSegSpanImported addr sz;
        when (r <? 0) (modify (λ vm, set_source (freefn addr sz flags (source vm)) vm));;
        mret (r, Some seg)
  end.

(** Where an allocation would go in free segment [g], if it fits there: the body
    of the [LIST_FOREACH] in [vmem_xalloc]. *)
Definition place (g : vmem_seg) (sz align min flags : Z) : option Z :=
  let start :=
    if base g <=? min then Some min
    else if has_flag flags kVMemExact && (min <? base g) then None
    else Some (base g) in
  match start with
  | None => None
  | Some a =>
      let addr := if align =? 0 then a else ROUNDUP a align in
      if u64 (base g + size g) <? u64 (addr + sz) then None else Some addr
  end.

Fixpoint search_list (m : gmap segptr vmem_seg) (sz align min flags : Z) (l : list segptr)
    : option (option (segptr * Z)) :=
  match l with
  | [] => Some None
  | p :: l' =>
      match m !! p with
      | None => None
      | Some g =>
          match place g sz align min flags with
          | Some addr => Some (Some (p, addr))
          | None => search_list m sz align min flags l'
          end
      end
  end.

(** The freelists [idx], [idx + 1], ..., [n] of them. *)
Fixpoint search (sz align min flags : Z) (idx n : nat) : kern (vmem Src) (option (segptr * Z)) :=
  match n with
  | O => mret None
  | S n' =>
      vm ← get;
      r ← deref "freelist" (search_list (segs vm) sz align min flags (freelists vm !!! idx));
      match r with
      | Some pa => mret (Some pa)
      | None => search sz align min flags (S idx) n'
      end
  end.

(** [vmem_xalloc]: [inl] is a negative error code, [inr] the address stored to
    [*out]. *)
Definition vmem_xalloc (sz align phase nocross min max flags : Z) : kern (vmem Src) (Z + Z) :=
  kassert "phase == 0" (phase =? 0);;
  kassert "min == 0 || exact" ((min =? 0) || has_flag flags kVMemExact);;
  kassert "max == 0" (max =? 0);;
  when (negb (has_flag flags kVMemBootstrap)) seg_refill;;
  kassert "size != 0" (negb (sz =? 0));;
  newlseg ← seg_alloc;
  newrseg ← seg_alloc;
  found ← search sz align min flags (freelist sz) (kNFreeLists - freelist sz);
  let finish p addr :=
    split_seg p newlseg newrseg addr sz;;
    modify (λ vm, set_used (u64 (used vm + sz)) vm);;
    mret (inr addr) in
  match found with
  | Some (p, addr) => finish p addr
  | None =>
      '(r, o) ← try_import sz flags;
      if r <? 0 then mret (inl r)
      else
        p ← deref "import" o;
        g ← seg_at p;
        finish p (base g)
  end.

(** ** Freeing *)

Definition freeseg_resize (p : segptr) (newbase newsize : Z) : kern (vmem Src) () :=
  g ← seg_at p;
  let oldfreelist := freelist (size g) in
  seg_set p (Seg (type g) newbase newsize);;
  if decide (freelist newsize ≠ oldfreelist)
  then seglist_remove p;; freelist_insert p
  else mret ().

Fixpoint find_by_base (m : gmap segptr vmem_seg) (addr : Z) (l : list segptr)
    : option (option segptr) :=
  match l with
  | [] => Some None
  | p :: l' =>
      match m !! p with
      | None => None
      | Some g => if base g =? addr then Some (Some p) else find_by_base m addr l'
      end
  end.

Definition is_free_seg (o : option vmem_seg) : bool :=
  match o with Some g => bool_decide (type g = kVMemSegFree) | None => false end.

(** The coalescing to the left: returns the segment now standing for the freed
    range, and whether it is on a freelist. *)
Definition coalesce_left (p : segptr) : kern (vmem Src) (segptr * bool) :=
  g ← seg_at p;
  ol ← prev_seg p;
  l ← deref "left" ol;
  lg ← seg_at l;
  if bool_decide (type lg = kVMemSegFree) then
    freeseg_resize l (base lg) (u64 (size lg + size g));;
    segqueue_update (q_remove p);;
    seg_free p;;
    mret (l, true)
  else mret (p, false).

(** The coalescing to the right, of segment [p] (already on a freelist when
    [listed]). *)
Definition coalesce_right (p : segptr) (listed : bool) : kern (vmem Src) (segptr * bool) :=
  g ← seg_at p;
  or ← next_seg_of p;
  match or with
  | None => mret (p, listed)
  | Some r =>
      rg ← seg_at r;
      if bool_decide (type rg = kVMemSegFree) then
        freeseg_resize r (base g) (u64 (size rg + size g));;
        segqueue_update (q_remove p);;
        when listed (seglist_remove p);;
        seg_free p;;
        mret (r, true)
      else mret (p, listed)
  end.

(** Give an imported span that became wholly free back to the source. *)
Definition release_span (p : segptr) (coalesced : bool) (flags : Z) : kern (vmem Src) bool :=
  g ← seg_at p;
  ol ← prev_seg p;
  l ← deref "left" ol;
  lg ← seg_at l;
  if bool_decide (type lg = kVMemSegSpanImported) && (size g =? size lg) then
    or ← next_seg_of p;
    vm ← get;
    kassert "!right || right->type == kVMemSegSpanImported"
      (match or with
       | None => true
       | Some r => match segs vm !! r with
                   | Some rg => bool_decide (type rg = kVMemSegSpanImported)
                   | None => false
                   end
       end);;
    modify (λ vm, set_source (freefn (base lg) (size lg) flags (source vm)) vm);;
    when coalesced (seglist_remove p);;
    segqueue_update (q_remove p);;
    seg_free p;;
    seglist_remove l;;
    segqueue_update (q_remove l);;
    seg_free l;;
    mret true
  else mret coalesced.

Definition vmem_xfree (addr sz flags : Z) : kern (vmem Src) Z :=
  vm ← get;
  op ← deref "hashtab" (find_by_base (segs vm) addr (hashtab vm !!! hashbucket_for_addr addr));
  p ← deref "vmem_xfree: segment at address doesn't exist" op;
  g ← seg_at p;
  kassert "vmem_xfree: mismatched size" ((sz =? 0) || (size g =? sz));;
  let sz := size g in
  seglist_remove p;;
  '(p1, coalesced_left) ← coalesce_left p;
  '(p2, coalesced) ← coalesce_right p1 coalesced_left;
  coalesced ← release_span p2 coalesced flags;
  when (negb coalesced) (
    g2 ← seg_at p2;
    seg_set p2 (Seg kVMemSegFree (base g2) (size g2));;
    freelist_insert p2);;
  modify (λ vm, set_used (u64 (used vm - sz)) vm);;
  mret (i32 sz).

(** ** Reallocation *)

Fixpoint find_by_base_size (m : gmap segptr vmem_seg) (addr oldsize : Z) (l : list segptr)
    : option (option segptr) :=
  match l with
  | [] => Some None
  | p :: l' =>
      match m !! p with
      | None => None
      | Some g =>
          if (base g =? addr) && (size g =? oldsize) then Some (Some p)
          else find_by_base_size m addr oldsize l'
      end
  end.

(** [vmem_xrealloc].  The second component is what was stored to [*out], if
    anything was. *)
Definition vmem_xrealloc (addr oldsize newsize flags : Z) : kern (vmem Src) (Z * option Z) :=
  kassert "!(flags & kVMemBootstrap)" (negb (has_flag flags kVMemBootstrap));;
  if oldsize =? 0 then
    kassert "newsize != 0" (negb (newsize =? 0));;
    r ← vmem_xalloc newsize 0 0 0 0 0 flags;
    mret (match r with inl e => e | inr _ => 0 end, None)
  else if newsize =? 0 then
    r ← vmem_xfree addr oldsize flags;
    mret (r, None)
  else
    vm ← get;
    op ← deref "hashtab"
      (find_by_base_size (segs vm) addr oldsize (hashtab vm !!! hashbucket_for_addr addr));
    p ← deref "vmem_xrealloc: segment doesn't exist" op;
    g ← seg_at p;
    if newsize =? oldsize then mret (0, Some addr)
    else if newsize <? oldsize then
      let size_diff := oldsize - newsize in
      seg_set p (Seg (type g) (base g) newsize);;
      or ← next_seg_of p;
      vm ← get;
      (if is_free_seg (or ≫= λ r, segs vm !! r) then
         r ← deref "right" or;
         rg ← seg_at r;
         seg_set r (Seg (type rg) (u64 (base rg - size_diff)) (u64 (size rg + size_diff)))
       else
         newseg ← seg_alloc;
         seg_set newseg (Seg kVMemSegFree (u64 (addr + newsize)) size_diff);;
         segqueue_update (q_insert_after p newseg);;
         freelist_insert newseg);;
      mret (0, Some addr)
    else
      let size_diff := newsize - oldsize in
      or ← next_seg_of p;
      vm ← get;
      match or, or ≫= (λ r, segs vm !! r) with
      | Some r, Some rg =>
          if bool_decide (type rg = kVMemSegFree) && (size_diff <=? size rg) then
            seg_set p (Seg (type g) (base g) newsize);;
            (if size_diff <? size rg then
               freeseg_resize r (u64 (base rg + size_diff)) (size rg - size_diff)
             else
               seglist_remove r;;
               segqueue_update (q_remove r);;
               seg_free r);;
            mret (0, Some addr)
          else
            q ← vmem_xalloc newsize 0 0 0 0 0 flags;
            match q with
            | inl _ => mret (- ERESOURCEEXHAUSTED, None)
            | inr new_addr => vmem_xfree addr oldsize flags;; mret (0, Some new_addr)
            end
      | _, _ =>
          q ← vmem_xalloc newsize 0 0 0 0 0 flags;
          match q with
          | inl _ => mret (- ERESOURCEEXHAUSTED, None)
          | inr new_addr => vmem_xfree addr oldsize flags;; mret (0, Some new_addr)
          end
      end.

(** ** Start and end *)

(** The 128 static segments are the first structures of the pool. *)
Definition vmem_earlyinit : kern (vmem Src) () := seg_block_free 128.

Fixpoint seg_free_all (l : list segptr) : kern (vmem Src) () :=
  match l with [] => mret () | p :: l' => seg_free p;; seg_free_all l' end.

Definition vmem_destroy : kern (vmem Src) () :=
  vm ← get;
  kassert "LIST_EMPTY(&vmem->hashtab[i])" (bool_decide (concat (hashtab vm) = []));;
  seg_free_all (segqueue vm).

End arena.

(** An empty pool, with [k] pages behind it, over source state [src]. *)
Definition pool0 {Src} (k : nat) (src : Src) : vmem Src :=
  Vm 0 0 0 0 0 ∅ [] [] [] [] [] 0 0 k src.

(** The kernel's arenas import nothing. *)
Definition no_alloc : option (Z → Z → () → Z * Z * ()) := None.
Definition no_free : Z → Z → Z → () → () := λ _ _ _ s, s.

Definition seg_view {Src} (vm : vmem Src) : list (option vmem_seg) :=
  (λ p, segs vm !! p) <$> segqueue vm.

End Vmem.
