(* ===== verification/VmemSpec.v ===== *)
(** What a VMem arena promises, on the list of its segments.

    [layout] is the abstract view of an arena's segment queue: every span marker
    is followed by segments that tile the span exactly, free segments are never
    adjacent, and spans are disjoint and in address order.  The lemmas say how
    splitting a free segment and coalescing a freed one act on layouts; Vmem's
    operations are proved against them in VmemProofs. *)
From S2P Require Import Prelude Vmem.
Import Vmem.
Local Open Scope Z_scope.

Definition is_span (g : vmem_seg) : bool :=
  match type g with kVMemSegSpan | kVMemSegSpanImported => true | _ => false end.
Definition is_free (g : vmem_seg) : bool := bool_decide (type g = kVMemSegFree).
Definition is_alloc (g : vmem_seg) : bool := bool_decide (type g = kVMemSegAllocated).

(** Scanning state: the next address to be tiled, the end of the current span,
    and whether the last segment was free. *)
Record scan := Scan { pos : Z; lim : Z; lastfree : bool }.

(** [top] bounds every span, strictly below [2 ^ 64]. *)
Definition scan_step (top : Z) (st : scan) (g : vmem_seg) : option scan :=
  if is_span g then
    if (pos st =? lim st) && (lim st <=? base g) && (0 <? size g) && (base g + size g <=? top)
    then Some (Scan (base g) (base g + size g) false) else None
  else
    if (base g =? pos st) && (0 <? size g) && (pos st + size g <=? lim st)
       && negb (lastfree st && is_free g)
    then Some (Scan (pos st + size g) (lim st) (is_free g)) else None.

Fixpoint scan_list (top : Z) (st : scan) (l : list vmem_seg) : option scan :=
  match l with
  | [] => Some st
  | g :: l' => scan_step top st g ≫= λ st', scan_list top st' l'
  end.

Definition scan0 : scan := Scan 0 0 false.

(** A well-formed segment queue. *)
Definition layout (top : Z) (l : list vmem_seg) : Prop :=
  ∃ st, scan_list top scan0 l = Some st ∧ pos st = lim st.

Fixpoint alloc_bytes (l : list vmem_seg) : Z :=
  match l with
  | [] => 0
  | g :: l' => (if is_alloc g then size g else 0) + alloc_bytes l'
  end.

(** The pieces around an allocation of [addr, addr + sz) in free segment [g]. *)
Definition piece_left (g : vmem_seg) (addr : Z) : list vmem_seg :=
  if base g <? addr then [Seg kVMemSegFree (base g) (addr - base g)] else [].
Definition piece_right (g : vmem_seg) (addr sz : Z) : list vmem_seg :=
  if addr + sz <? base g + size g
  then [Seg kVMemSegFree (addr + sz) (base g + size g - (addr + sz))] else [].
Definition split_pieces (g : vmem_seg) (addr sz : Z) : list vmem_seg :=
  piece_left g addr ++ Seg kVMemSegAllocated addr sz :: piece_right g addr sz.

Lemma scan_list_app top st l1 l2 :
  scan_list top st (l1 ++ l2) = scan_list top st l1 ≫= λ st', scan_list top st' l2.
Proof.
  revert st. induction l1 as [|g l1 IH]; intros st; simpl; [done|].
  destruct (scan_step top st g); simpl; [apply IH|done].
Qed.

Lemma scan_step_nonspan top st g st' :
  is_span g = false →
  scan_step top st g = Some st' ↔
    base g = pos st ∧ 0 < size g ∧ pos st + size g ≤ lim st ∧
    ¬ (lastfree st = true ∧ is_free g = true) ∧
    st' = Scan (pos st + size g) (lim st) (is_free g).
Proof.
  intros Hs. unfold scan_step. rewrite Hs.
  destruct (lastfree st), (is_free g); simpl;
    repeat case_match; naive_solver lia.
Qed.

Lemma scan_step_span top st g st' :
  is_span g = true →
  scan_step top st g = Some st' ↔
    pos st = lim st ∧ lim st ≤ base g ∧ 0 < size g ∧ base g + size g ≤ top ∧
    st' = Scan (base g) (base g + size g) false.
Proof.
  intros Hs. unfold scan_step. rewrite Hs. repeat case_match; naive_solver lia.
Qed.

Definition closed (st : scan) : Prop := pos st = lim st.
Definition scan_ok (top : Z) (st : scan) (l : list vmem_seg) : Prop :=
  ∃ st', scan_list top st l = Some st' ∧ closed st'.

Lemma layout_app top l1 l2 :
  layout top (l1 ++ l2) ↔ ∃ st, scan_list top scan0 l1 = Some st ∧ scan_ok top st l2.
Proof.
  unfold layout, scan_ok. rewrite scan_list_app.
  destruct (scan_list top scan0 l1); simpl; naive_solver.
Qed.

Lemma scan_ok_cons top st g l :
  scan_ok top st (g :: l) ↔ ∃ st', scan_step top st g = Some st' ∧ scan_ok top st' l.
Proof. unfold scan_ok. simpl. destruct (scan_step top st g); simpl; naive_solver. Qed.

(** Forgetting that the last segment was free keeps the rest acceptable. *)
Lemma scan_ok_unfree top p m b l :
  scan_ok top (Scan p m b) l → scan_ok top (Scan p m false) l.
Proof.
  destruct b; [|done]. destruct l as [|g l].
  { unfold scan_ok, closed. simpl. naive_solver. }
  rewrite !scan_ok_cons. intros (st' & Hs & Hok). exists st'. split; [|done].
  destruct (is_span g) eqn:Eg.
  - rewrite scan_step_span in * by done. naive_solver.
  - rewrite scan_step_nonspan in * by done. naive_solver.
Qed.

Definition nofree_head (l : list vmem_seg) : Prop :=
  match l with [] => True | g :: _ => is_free g = false end.

(** If the rest does not start with a free segment, the flag may be set. *)
Lemma scan_ok_setfree top p m b l :
  nofree_head l → scan_ok top (Scan p m b) l → scan_ok top (Scan p m true) l.
Proof.
  destruct l as [|g l].
  { unfold scan_ok, closed. simpl. naive_solver. }
  simpl. intros Hg.
  rewrite !scan_ok_cons. intros (st' & Hs & Hok). exists st'. split; [|done].
  destruct (is_span g) eqn:Eg.
  - rewrite scan_step_span in * by done. naive_solver.
  - rewrite scan_step_nonspan in * by done. rewrite Hg in *. naive_solver.
Qed.

Lemma scan_ok_nonspan top p m b g l :
  is_span g = false →
  scan_ok top (Scan p m b) (g :: l) ↔
    base g = p ∧ 0 < size g ∧ p + size g ≤ m ∧ (b = true → is_free g = false) ∧
    scan_ok top (Scan (p + size g) m (is_free g)) l.
Proof.
  intros Hns. rewrite scan_ok_cons. split.
  - intros (st' & Hs & Hok). rewrite scan_step_nonspan in Hs by done. simpl in Hs.
    destruct Hs as (? & ? & ? & Hf & ->). split_and!; try done.
    intros ->. destruct (is_free g); naive_solver.
  - intros (? & ? & ? & Hf & Hok). eexists. split; [|done].
    rewrite scan_step_nonspan by done. simpl. split_and!; try done.
    intros [? ?]. rewrite Hf in *; done.
Qed.

Lemma free_nonspan g : is_free g = true → is_span g = false.
Proof.
  unfold is_span, is_free. intros ->%bool_decide_eq_true_1. done.
Qed.
Lemma alloc_nonspan g : is_alloc g = true → is_span g = false.
Proof.
  unfold is_span, is_alloc. intros ->%bool_decide_eq_true_1. done.
Qed.
Lemma alloc_nonfree g : is_alloc g = true → is_free g = false.
Proof. unfold is_alloc, is_free. intros ->%bool_decide_eq_true_1. done. Qed.

(** Splitting a free segment. *)
Lemma scan_ok_split top p m b g addr sz l :
  is_free g = true → base g ≤ addr → 0 < sz → addr + sz ≤ base g + size g →
  scan_ok top (Scan p m b) (g :: l) → scan_ok top (Scan p m b) (split_pieces g addr sz ++ l).
Proof.
  intros Hfree Hlo Hsz Hhi. rewrite scan_ok_nonspan by (by apply free_nonspan).
  intros (Hb & Hp & Hl & Hf & Hok). rewrite Hfree in *.
  assert (b = false) as -> by (destruct b; naive_solver).
  assert (∀ b', (addr + sz <? base g + size g) = true ∧ b' = false ∨
                (addr + sz <? base g + size g) = false →
    scan_ok top (Scan (addr + sz) m b') (piece_right g addr sz ++ l)) as Hright.
  { intros b' Hb'. unfold piece_right. destruct (addr + sz <? base g + size g) eqn:E; simpl.
    - rewrite scan_ok_nonspan by done. destruct Hb' as [[_ ->]|]; [|done]. simpl.
      split_and!; try done; try lia.
      replace (addr + sz + _) with (p + size g) by lia. done.
    - replace (addr + sz) with (p + size g) by lia.
      destruct b'; [done|]. by apply scan_ok_unfree in Hok. }
  assert (scan_ok top (Scan addr m (base g <? addr))
            (Seg kVMemSegAllocated addr sz :: piece_right g addr sz ++ l)) as Hmid.
  { rewrite scan_ok_nonspan by done. simpl. split_and!; try done; try lia.
    apply Hright. destruct (addr + sz <? base g + size g); naive_solver. }
  unfold split_pieces, piece_left. rewrite <-app_assoc. simpl.
  destruct (base g <? addr) eqn:E; simpl.
  - rewrite scan_ok_nonspan by done. simpl. split_and!; try done; try lia.
    replace (p + (addr - base g)) with addr by lia. done.
  - replace p with addr by lia. done.
Qed.

(** The merged segment that replaces a freed one: [l] and [r] are the free
    neighbours it absorbs. *)
Definition merged (lo ro : option vmem_seg) (g : vmem_seg) : vmem_seg :=
  Seg kVMemSegFree (from_option base (base g) lo)
    (from_option size 0 lo + size g + from_option size 0 ro).

(** Freeing an allocated segment, with its free neighbours absorbed. *)
Lemma scan_ok_merge top p m b lo ro g l :
  is_alloc g = true →
  (∀ x, lo = Some x → is_free x = true) → (∀ x, ro = Some x → is_free x = true) →
  (lo = None → b = false) → (ro = None → nofree_head l) →
  scan_ok top (Scan p m b) (option_list lo ++ g :: option_list ro ++ l) →
  scan_ok top (Scan p m b) (merged lo ro g :: l).
Proof.
  intros Hg Hlo Hro Hb Hl Hok.
  assert (is_span (merged lo ro g) = false) by done.
  assert (is_free (merged lo ro g) = true) as Hm by done.
  assert (∀ q c, scan_ok top (Scan q m c) (g :: option_list ro ++ l) →
    base g = q ∧ 0 < size g ∧ q + size g + from_option size 0 ro ≤ m ∧
    0 ≤ from_option size 0 ro ∧
    scan_ok top (Scan (q + size g + from_option size 0 ro) m true) l) as Hg'.
  { intros q c. rewrite scan_ok_nonspan by (by apply alloc_nonspan).
    intros (Hbq & Hsz & Hle & _ & Hok'). rewrite alloc_nonfree in Hok' by done.
    destruct ro as [r|]; simpl in *.
    - specialize (Hro r eq_refl). rewrite scan_ok_nonspan in Hok' by (by apply free_nonspan).
      destruct Hok' as (? & ? & ? & ? & Hok'). rewrite Hro in Hok'. split_and!; try done; lia.
    - rewrite Z.add_0_r. split_and!; try done. eapply scan_ok_setfree; eauto. }
  rewrite scan_ok_nonspan by done. rewrite Hm. simpl.
  destruct lo as [x|]; simpl in *.
  - specialize (Hlo x eq_refl). rewrite scan_ok_nonspan in Hok by (by apply free_nonspan).
    destruct Hok as (Hbx & Hsx & Hlex & Hfx & Hok).
    apply Hg' in Hok as (Hbg & Hsg & Hle & Hr0 & Hok).
    split_and!; try done; try lia.
    + intros Hbt. specialize (Hfx Hbt). congruence.
    + by replace (p + (size x + size g + from_option size 0 ro))
        with (p + size x + size g + from_option size 0 ro) by lia.
  - specialize (Hb eq_refl). subst b. apply Hg' in Hok as (Hbg & Hsg & Hle & Hr0 & Hok).
    split_and!; try done; try lia.
    by replace (p + (0 + size g + from_option size 0 ro))
      with (p + size g + from_option size 0 ro) by lia.
Qed.

(** ** Layouts *)

Lemma scan_list_last top st l st' g :
  scan_list top st l = Some st' → last l = Some g → lastfree st' = is_free g.
Proof.
  intros Hs (l' & ->)%last_Some. rewrite scan_list_app in Hs.
  destruct (scan_list top st l') as [st1|]; simpl in Hs; [|done].
  destruct (scan_step top st1 g) eqn:E; simplify_eq/=.
  unfold scan_step in E. destruct (is_span g) eqn:Eg; repeat case_match; simplify_eq/=; [|done].
  symmetry. unfold is_free, is_span in *. by destruct (type g).
Qed.

Lemma scan_list_lastfree top l st :
  scan_list top scan0 l = Some st → lastfree st = from_option is_free false (last l).
Proof.
  intros Hs. destruct (last l) as [g|] eqn:E; simpl.
  - by eapply scan_list_last.
  - apply last_None in E as ->. by simplify_eq/=.
Qed.

Lemma layout_split top V1 g V2 addr sz :
  is_free g = true → base g ≤ addr → 0 < sz → addr + sz ≤ base g + size g →
  layout top (V1 ++ g :: V2) → layout top (V1 ++ split_pieces g addr sz ++ V2).
Proof.
  intros ????. rewrite !layout_app. intros ([p m b] & Hs & Hok).
  eexists. split; [done|]. by apply scan_ok_split.
Qed.

Lemma layout_merge top V1 lo g ro V2 :
  is_alloc g = true →
  (∀ x, lo = Some x → is_free x = true) → (∀ x, ro = Some x → is_free x = true) →
  (lo = None → from_option is_free false (last V1) = false) → (ro = None → nofree_head V2) →
  layout top (V1 ++ option_list lo ++ g :: option_list ro ++ V2) →
  layout top (V1 ++ merged lo ro g :: V2).
Proof.
  intros Hg Hlo Hro Hb Hl. rewrite !layout_app. intros ([p m b] & Hs & Hok).
  eexists. split; [done|]. eapply scan_ok_merge; eauto.
  intros Hn. apply scan_list_lastfree in Hs. simpl in Hs. rewrite Hs. by apply Hb.
Qed.

(** What the scan knows at a non-span segment of a layout. *)
Lemma scan_range top l st :
  scan_list top scan0 l = Some st → 0 ≤ top →
  0 ≤ pos st ≤ lim st ∧ lim st ≤ top.
Proof.
  assert (∀ st0, 0 ≤ pos st0 ≤ lim st0 ∧ lim st0 ≤ top →
    scan_list top st0 l = Some st → 0 ≤ pos st ≤ lim st ∧ lim st ≤ top) as Hgen.
  { induction l as [|g l IH]; simpl; intros st0 H0 Hs; simplify_eq; [done|].
    apply bind_Some in Hs as (st1 & Hg & Hs). eapply IH; [|done].
    destruct (is_span g) eqn:Eg.
    - rewrite scan_step_span in Hg by done. destruct Hg as (?&?&?&?&->); simpl; lia.
    - rewrite scan_step_nonspan in Hg by done. destruct Hg as (?&?&?&?&->); simpl; lia. }
  intros Hs Ht. eapply Hgen; [|done]. simpl. lia.
Qed.

Lemma layout_seg_range top V1 g V2 :
  layout top (V1 ++ g :: V2) → 0 ≤ top → 0 ≤ base g ∧ 0 < size g ∧ base g + size g ≤ top.
Proof.
  rewrite layout_app. intros (st & Hs & Hok) Ht. apply scan_range in Hs; [|done].
  apply scan_ok_cons in Hok as (st' & Hg & _). destruct (is_span g) eqn:Eg.
  - rewrite scan_step_span in Hg by done. lia.
  - rewrite scan_step_nonspan in Hg by done. lia.
Qed.

(** Anything after a scanned prefix lies at or beyond the scan position. *)
Lemma scan_ok_after top st l1 g l2 :
  pos st ≤ lim st → scan_ok top st (l1 ++ g :: l2) → is_span g = false → pos st ≤ base g.
Proof.
  revert st. induction l1 as [|h l1 IH]; intros st Hle; simpl; rewrite scan_ok_cons;
    intros (st' & Hh & Hok) Hg.
  - rewrite scan_step_nonspan in Hh by done. lia.
  - destruct (is_span h) eqn:Eh.
    + rewrite scan_step_span in Hh by done. destruct Hh as (?&?&?&?&->).
      apply IH in Hok; simpl in *; try done; lia.
    + rewrite scan_step_nonspan in Hh by done. destruct Hh as (?&?&?&?&->).
      apply IH in Hok; simpl in *; try done; lia.
Qed.

(** Segments of a layout do not overlap: the later one starts at or after the
    end of the earlier one. *)
Lemma layout_disjoint top V1 g V2 h V3 :
  layout top (V1 ++ g :: V2 ++ h :: V3) → 0 ≤ top → is_span g = false → is_span h = false →
  base g + size g ≤ base h.
Proof.
  rewrite layout_app. intros (st & Hs & Hok) Ht Hg Hh. apply scan_range in Hs; [|done].
  apply scan_ok_cons in Hok as (st' & Hstep & Hok).
  rewrite scan_step_nonspan in Hstep by done. destruct Hstep as (?&?&?&?&->).
  apply scan_ok_after in Hok; simpl in *; try done; lia.
Qed.

(** A segment that is not a span marker has a predecessor. *)
Lemma layout_pred top V1 g V2 :
  layout top (V1 ++ g :: V2) → is_span g = false → V1 ≠ [].
Proof.
  intros (st & Hs & _) Hg ->. simpl in Hs. apply bind_Some in Hs as (st' & Hs & _).
  rewrite scan_step_nonspan in Hs by done. simpl in Hs. lia.
Qed.

Lemma alloc_bytes_app l1 l2 : alloc_bytes (l1 ++ l2) = alloc_bytes l1 + alloc_bytes l2.
Proof. induction l1; simpl; lia. Qed.

Lemma alloc_bytes_split g addr sz : alloc_bytes (split_pieces g addr sz) = sz.
Proof.
  unfold split_pieces, piece_left, piece_right.
  repeat case_match; simpl; lia.
Qed.

(** Splitting and merging back restores the free segment. *)
Lemma merged_split g addr sz :
  is_free g = true → base g ≤ addr → addr + sz ≤ base g + size g →
  merged (head (piece_left g addr)) (head (piece_right g addr sz)) (Seg kVMemSegAllocated addr sz) = g.
Proof.
  intros Hf%bool_decide_eq_true_1 ??. destruct g as [t b s]. simpl in *. subst t.
  unfold merged, piece_left, piece_right. simpl.
  destruct (b <? addr) eqn:?, (addr + sz <? b + s) eqn:?; simpl; f_equal; lia.
Qed.

(** ** Allocation requests *)

(** A request an arena below [top] can be asked for without address overflow:
    the alignment is a power of two or zero. *)
Definition align_ok (align : Z) : Prop := align = 0 ∨ ∃ k, 0 ≤ k ∧ align = 2 ^ k.
Definition request_ok (top sz align min : Z) : Prop :=
  0 < sz ∧ 0 ≤ min ∧ align_ok align ∧ top + sz + align < 2 ^ 64 ∧ min + sz + align < 2 ^ 64.

Definition align_up (a align : Z) : Z := if align =? 0 then a else ROUNDUP a align.

(** [a] is an acceptable answer in free segment [g]. *)
Definition fits (g : vmem_seg) (sz align min flags a : Z) : Prop :=
  base g ≤ a ∧ a + sz ≤ base g + size g ∧ (align ≠ 0 → a mod align = 0) ∧
  (has_flag flags kVMemExact = true → base g ≤ min ∧ a = align_up min align).

Lemma align_up_spec a align :
  0 ≤ a → align_ok align → a + align ≤ 2 ^ 64 →
  a ≤ align_up a align ≤ a + align ∧ (align ≠ 0 → align_up a align mod align = 0) ∧
  ∀ a', a ≤ a' → (align ≠ 0 → a' mod align = 0) → align_up a align ≤ a'.
Proof.
  intros Ha Hal Hb. unfold align_up. destruct Hal as [->|(k & Hk & ->)]; simpl.
  { split_and!; try lia. }
  assert (0 < 2 ^ k) by lia. replace (2 ^ k =? 0) with false by lia.
  destruct (ROUNDUP_pow2 a k) as [Hr Hm]; try lia.
  split_and!; try lia. intros a' Ha' Hm'. specialize (Hm' ltac:(lia)).
  set (r := ROUNDUP a (2 ^ k)) in *.
  pose proof (Z.div_mod r (2 ^ k) ltac:(lia)). pose proof (Z.div_mod a' (2 ^ k) ltac:(lia)).
  assert (r / 2 ^ k <= a' / 2 ^ k); nia.
Qed.

Lemma place_spec top g sz align min flags :
  0 ≤ base g → 0 < size g → base g + size g ≤ top → request_ok top sz align min →
  (min = 0 ∨ has_flag flags kVMemExact = true) →
  match place g sz align min flags with
  | Some a => fits g sz align min flags a
  | None => ∀ a, ¬ fits g sz align min flags a
  end.
Proof.
  intros Hb Hs Ht (Hsz & Hmin & Hal & Hov1 & Hov2) Hex.
  assert (0 ≤ align) by (destruct Hal as [->|(k & ? & ->)]; lia).
  unfold place, fits. destruct (base g <=? min) eqn:E1; cbn [andb].
  - destruct (align_up_spec min align) as (Hr & Hm & Hleast); try done; try lia.
    fold (align_up min align). rewrite (u64_small (base g + _)), u64_small by lia.
    destruct (base g + size g <? align_up min align + sz) eqn:E2.
    + intros a (Ha1 & Ha2 & Ha3 & Ha4).
      destruct Hex as [->|Hex]; [|destruct (Ha4 Hex); lia].
      specialize (Hleast a ltac:(lia) Ha3). lia.
    + split_and!; try done; try lia.
  - destruct (has_flag flags kVMemExact) eqn:E3; cbn [andb].
    { replace (min <? base g) with true by lia. intros a (_ & _ & _ & Ha). destruct (Ha eq_refl). lia. }
    destruct (align_up_spec (base g) align) as (Hr & Hm & Hleast); try done; try lia.
    fold (align_up (base g) align). rewrite (u64_small (base g + _)), u64_small by lia.
    destruct (base g + size g <? align_up (base g) align + sz) eqn:E2.
    + intros a (Ha1 & Ha2 & Ha3 & _). specialize (Hleast a Ha1 Ha3). lia.
    + split_and!; try done; lia.
Qed.

(** A segment on a lower freelist is too small. *)
Lemma small_no_fit g sz align min flags a :
  0 < size g → (freelist (size g) < freelist sz)%nat → ¬ fits g sz align min flags a.
Proof.
  intros Hs Hlt (Hlo & Hhi & _). assert (sz ≤ size g) as Hle by lia.
  apply Z.log2_le_mono in Hle. unfold freelist, clzl in Hlt. lia.
Qed.

(** What an allocation of [a, a + sz) does to the segments. *)
Inductive alloc_step (sz align min flags a : Z) : list vmem_seg → list vmem_seg → Prop :=
  | alloc_step_intro V1 g V2 :
      is_free g = true → fits g sz align min flags a →
      alloc_step sz align min flags a (V1 ++ g :: V2) (V1 ++ split_pieces g a sz ++ V2).

(** No free segment can take the request. *)
Definition nothing_fits (sz align min flags : Z) (V : list vmem_seg) : Prop :=
  ∀ g a, g ∈ V → is_free g = true → ¬ fits g sz align min flags a.

(** An imported span, allocated whole. *)
Inductive import_step (sz a : Z) : list vmem_seg → list vmem_seg → Prop :=
  | import_step_intro V1 V2 :
      import_step sz a (V1 ++ V2)
        (V1 ++ [Seg kVMemSegSpanImported a sz; Seg kVMemSegAllocated a sz] ++ V2).

(** A range that meets no span of the arena. *)
Definition span_room (b sz : Z) (l : list vmem_seg) : Prop :=
  ∀ g, g ∈ l → is_span g = true → base g + size g ≤ b ∨ b + sz ≤ base g.

(** An imported span that is wholly free can be taken out. *)
Lemma layout_drop_span top V1 s g V2 :
  is_span s = true → is_free g = true → size g = size s →
  layout top (V1 ++ s :: g :: V2) → layout top (V1 ++ V2).
Proof.
  intros Hs Hg Hsz. rewrite !layout_app. intros (st & Hst & Hok). exists st. split; [done|].
  apply scan_ok_cons in Hok as (st1 & Hs1 & Hok). rewrite scan_step_span in Hs1 by done.
  destruct Hs1 as (Hc & Hle & Hpos & Htop & ->).
  rewrite scan_ok_nonspan in Hok by (by apply free_nonspan). destruct Hok as (_ & _ & _ & _ & Hok).
  rewrite Hsz in Hok. destruct V2 as [|h V2]; [by exists st|].
  apply scan_ok_cons in Hok as (st2 & Hh & Hok). apply scan_ok_cons. exists st2. split; [|done].
  destruct (is_span h) eqn:Eh.
  - rewrite scan_step_span in * by done. simpl in Hh. split_and!; try done; try tauto. lia.
  - rewrite scan_step_nonspan in Hh by done. simpl in Hh. lia.
Qed.

(** Neighbours in a layout. *)
Lemma layout_adjacent top V1 x y V2 :
  layout top (V1 ++ x :: y :: V2) → is_span y = false →
  (is_span x = false → base y = base x + size x) ∧ (is_free x = true → is_free y = false).
Proof.
  rewrite layout_app. intros ([p m b] & _ & Hok) Hy. destruct (is_span x) eqn:Ex.
  { split; [done|]. intros Hf. apply free_nonspan in Hf. congruence. }
  rewrite scan_ok_nonspan in Hok by done. destruct Hok as (? & ? & ? & ? & Hok).
  rewrite scan_ok_nonspan in Hok by done. destruct Hok as (? & ? & ? & Hf & _).
  split; [lia|done].
Qed.

Lemma layout_full_span top V1 s g h V2 :
  layout top (V1 ++ s :: g :: h :: V2) → is_span s = true → is_span g = false → size g = size s →
  is_span h = true.
Proof.
  rewrite layout_app. intros (st & _ & Hok) Hs Hg Hsz.
  apply scan_ok_cons in Hok as (st1 & Hs1 & Hok). rewrite scan_step_span in Hs1 by done.
  destruct Hs1 as (_ & _ & _ & _ & ->). rewrite scan_ok_nonspan in Hok by done.
  destruct Hok as (? & _ & _ & _ & Hok). destruct (is_span h) eqn:Eh; [done|].
  rewrite scan_ok_nonspan in Hok by done. lia.
Qed.

(** Two segments of a layout that overlap are the same one. *)
Lemma layout_overlap top V g h a :
  layout top V → 0 ≤ top → g ∈ V → h ∈ V → is_span g = false → is_span h = false →
  base g ≤ a < base g + size g → base h ≤ a < base h + size h → g = h.
Proof.
  intros Hl Ht (V1 & V2 & ->)%list_elem_of_split Hh Hg Hhs Hga Hha.
  apply elem_of_app in Hh as [(W1 & W2 & ->)%list_elem_of_split|[->|(W1 & W2 & ->)%list_elem_of_split]%elem_of_cons];
    [|done|].
  - rewrite <-app_assoc in Hl. simpl in Hl. apply layout_disjoint in Hl; try done. lia.
  - apply layout_disjoint in Hl; try done. lia.
Qed.

(** All spans are of one kind: an arena either imports its spans or is given them. *)
Definition uniform_spans (V : list vmem_seg) : Prop :=
  ∀ s t, s ∈ V → t ∈ V → is_span s = true → is_span t = true → type s = type t.

(** [V] with the allocation [g] at [addr] and its free neighbours [lo], [ro] singled out. *)
Record free_at (addr : Z) (V V1 : list vmem_seg) (lo : option vmem_seg) (g : vmem_seg)
    (ro : option vmem_seg) (V2 : list vmem_seg) : Prop := FreeAt {
  fa_split : V = V1 ++ option_list lo ++ g :: option_list ro ++ V2;
  fa_alloc : is_alloc g = true;
  fa_base : base g = addr;
  fa_lo : ∀ x, lo = Some x → is_free x = true;
  fa_ro : ∀ x, ro = Some x → is_free x = true;
  fa_left : from_option is_free false (last V1) = false;
  fa_right : nofree_head V2
}.

(** The effect of [vmem_xfree] on the segments and the source: the segment and
    its free neighbours become one free segment, and an imported span that is
    then wholly free is given back. *)
Inductive freed {Src} (freefn : Z → Z → Z → Src → Src) (addr flags : Z) (V : list vmem_seg) (src : Src)
    : list vmem_seg → Src → Prop :=
  | freed_kept V1 lo g ro V2 :
      free_at addr V V1 lo g ro V2 →
      (∀ s, last V1 = Some s → type s = kVMemSegSpanImported → size (merged lo ro g) ≠ size s) →
      freed freefn addr flags V src (V1 ++ merged lo ro g :: V2) src
  | freed_released V1 s lo g ro V2 :
      free_at addr V (V1 ++ [s]) lo g ro V2 →
      type s = kVMemSegSpanImported → size (merged lo ro g) = size s →
      freed freefn addr flags V src (V1 ++ V2) (freefn (base s) (size s) flags src).
