(* ===== verification/VmemProofs.v ===== *)
(** The representation invariant of a VMem arena: the segment structures, the
    segment queue, the freelists, the hash table, the span list and the pool of
    spare structures fit together, and the queue is a layout (VmemSpec). *)
From S2P Require Import Prelude Vmem VmemSpec.
Import Vmem.
Local Open Scope Z_scope.

(** ** The segments along a queue *)

Definition vview (m : gmap nat vmem_seg) (q : list nat) : list vmem_seg := omap (λ p, m !! p) q.
Global Arguments vview : simpl never.

Lemma vview_app m q1 q2 : vview m (q1 ++ q2) = vview m q1 ++ vview m q2.
Proof. apply omap_app. Qed.
Lemma vview_cons m p g q : m !! p = Some g → vview m (p :: q) = g :: vview m q.
Proof. intros Hp. unfold vview. simpl. by rewrite Hp. Qed.
Lemma vview_step m p q :
  vview m (p :: q) = match m !! p with Some g => g :: vview m q | None => vview m q end.
Proof. unfold vview. simpl. by destruct (m !! p). Qed.
Lemma vview_insert_ne m p g q : p ∉ q → vview (<[p:=g]> m) q = vview m q.
Proof.
  induction q as [|x q IH]; intros Hp; [done|]. apply not_elem_of_cons in Hp as [??].
  rewrite !vview_step, lookup_insert_ne by done. by rewrite IH.
Qed.

Definition at_seg (m : gmap nat vmem_seg) (P : vmem_seg → bool) (p : nat) : Prop :=
  ∃ g, m !! p = Some g ∧ P g = true.

Global Instance at_seg_dec m P p : Decision (at_seg m P p).
Proof.
  refine (match m !! p as o return m !! p = o → Decision (at_seg m P p) with
          | Some g => λ H, if decide (P g = true) then left _ else right _
          | None => λ H, right _
          end eq_refl); unfold at_seg; naive_solver.
Defined.

Lemma at_seg_insert_ne m P p g x : x ≠ p → at_seg (<[p:=g]> m) P x ↔ at_seg m P x.
Proof. intros. unfold at_seg. by rewrite lookup_insert_ne by done. Qed.
Lemma at_seg_insert_eq m P p g : at_seg (<[p:=g]> m) P p ↔ P g = true.
Proof. unfold at_seg. rewrite lookup_insert_eq. naive_solver. Qed.

(** ** Bucket arrays: the freelists and the hash table *)

(** [bs] is an array of [n] lists in which each structure satisfying [F] is
    linked once, in the bucket of its key. *)
Record bucket_ok (n : nat) (key : vmem_seg → nat) (F : nat → Prop) (m : gmap nat vmem_seg)
    (bs : list (list nat)) : Prop := BucketOk {
  bucket_len : length bs = n;
  bucket_mem : ∀ k p,
    p ∈ bs !!! k ↔ F p ∧ ∃ g, m !! p = Some g ∧ key g = k ∧ (k < n)%nat;
  bucket_nodup : ∀ k, NoDup (bs !!! k)
}.

Lemma unlink_elem p l x : x ∈ unlink p l ↔ x ∈ l ∧ x ≠ p.
Proof. unfold unlink. rewrite list_elem_of_filter. naive_solver. Qed.
Lemma unlink_notin p l : p ∉ l → unlink p l = l.
Proof.
  unfold unlink. induction l as [|x l IH]; [done|]. intros [??]%not_elem_of_cons.
  rewrite filter_cons_True by done. by rewrite IH.
Qed.
Lemma unlink_total p (bs : list (list nat)) k : (unlink p <$> bs) !!! k = unlink p (bs !!! k).
Proof.
  rewrite !list_lookup_total_alt, list_lookup_fmap. by destruct (bs !! k).
Qed.

Lemma bucket_unlink n key F m bs p :
  bucket_ok n key F m bs → bucket_ok n key (λ x, F x ∧ x ≠ p) m (unlink p <$> bs).
Proof.
  intros [Hl Hm Hn]. split.
  - by rewrite length_fmap.
  - intros k x. rewrite unlink_total, unlink_elem, Hm. naive_solver.
  - intros k. rewrite unlink_total. by apply NoDup_filter.
Qed.

Lemma bucket_notin n key F m bs p : bucket_ok n key F m bs → ¬ F p → unlink p <$> bs = bs.
Proof.
  intros [Hl Hm Hn] Hp. rewrite <-(list_fmap_id bs) at 2. apply list_fmap_ext.
  intros k l Hk. apply unlink_notin. intros Hin. apply Hp.
  assert (bs !!! k = l) as Hkl by (rewrite list_lookup_total_alt, Hk; done).
  by apply (Hm k p); rewrite Hkl.
Qed.

Lemma bucket_insert n key F m bs p g :
  bucket_ok n key F m bs → ¬ F p → m !! p = Some g → (key g < n)%nat →
  bucket_ok n key (λ x, F x ∨ x = p) m (alter (cons p) (key g) bs).
Proof.
  intros [Hl Hm Hn] Hp Hg Hk.
  assert (∀ k, alter (cons p) (key g) bs !!! k =
    if decide (k = key g) then p :: (bs !!! k) else bs !!! k) as Halter.
  { intros k. rewrite !list_lookup_total_alt. case_decide as Hdec.
    - subst k. rewrite list_lookup_alter_eq.
      destruct (lookup_lt_is_Some_2 bs (key g)) as [l ->]; [lia|done].
    - by rewrite list_lookup_alter_ne by done. }
  split.
  - by rewrite length_alter.
  - intros k x. rewrite Halter. case_decide; [rewrite elem_of_cons|]; rewrite Hm; naive_solver.
  - intros k. rewrite Halter. case_decide; [|done]. constructor; [|done]. rewrite Hm. naive_solver.
Qed.

Lemma bucket_iff n key F F' m bs :
  (∀ p, F p ↔ F' p) → bucket_ok n key F m bs → bucket_ok n key F' m bs.
Proof. intros HF [Hl Hm Hn]. split; [done| |done]. intros k p. by rewrite Hm, HF. Qed.

(** Assigning to a structure that is not linked, or keeping its key. *)
Lemma bucket_seg_set n key F m bs p g :
  bucket_ok n key F m bs → (F p → ∃ g0, m !! p = Some g0 ∧ key g0 = key g) →
  bucket_ok n key F (<[p:=g]> m) bs.
Proof.
  intros [Hl Hm Hn] Hp. split; [done| |done]. intros k x. rewrite Hm.
  destruct (decide (x = p)) as [->|Hne].
  - rewrite lookup_insert_eq. naive_solver.
  - by rewrite lookup_insert_ne by done.
Qed.

Lemma bucket_concat n key F m bs p g :
  bucket_ok n key F m bs → F p → m !! p = Some g → (key g < n)%nat → p ∈ concat bs.
Proof.
  intros [Hl Hm Hn] HF Hg Hk. assert (p ∈ bs !!! key g) as Hin by (apply Hm; eauto).
  destruct (lookup_lt_is_Some_2 bs (key g)) as [l Hkl]; [lia|].
  rewrite list_lookup_total_alt, Hkl in Hin. simpl in Hin.
  apply list_elem_of_In, in_concat. exists l. split; [|by apply list_elem_of_In].
  apply list_elem_of_In. by eapply list_elem_of_lookup_2.
Qed.

Lemma freelist_log2 s : freelist s = Z.to_nat (Z.log2 s).
Proof. unfold freelist, clzl. f_equal. lia. Qed.
Lemma freelist_bound s : 0 < s < 2 ^ 64 → (freelist s < kNFreeLists)%nat.
Proof.
  intros [Hlo Hhi]. rewrite freelist_log2. unfold kNFreeLists.
  pose proof (Z.log2_nonneg s). assert (Z.log2 s < 64) by (apply Z.log2_lt_pow2; lia). lia.
Qed.
Lemma hashbucket_bound a : (hashbucket_for_addr a < kNHashBuckets)%nat.
Proof.
  unfold hashbucket_for_addr, kNHashBuckets. pose proof (Z.mod_pos_bound (murmur64 a) 16 ltac:(lia)).
  change (Z.of_nat 16) with 16. lia.
Qed.

Definition fl_key (g : vmem_seg) : nat := freelist (size g).
Definition ht_key (g : vmem_seg) : nat := hashbucket_for_addr (base g).

(** ** The invariant *)

(** The pointers fit together.  [F] and [H] are the structures linked on the
    freelists and in the hash table; [limbo] are the structures taken from the
    pool and not linked anywhere. *)
Record linked {Src} (F H : nat → Prop) (limbo : list nat) (vm : vmem Src) : Prop := Linked {
  lk_fl : bucket_ok kNFreeLists fl_key F (segs vm) (freelists vm);
  lk_ht : bucket_ok kNHashBuckets ht_key H (segs vm) (hashtab vm);
  lk_nodup : NoDup (segqueue vm ++ limbo ++ free_segs vm);
  lk_live : ∀ p, p ∈ segqueue vm → is_Some (segs vm !! p);
  lk_fresh : ∀ p, p ∈ segqueue vm ++ limbo ++ free_segs vm → (p < next_seg vm)%nat;
  lk_npool : nfreesegs vm = Z.of_nat (length (free_segs vm))
}.

Definition free_set {Src} (vm : vmem Src) (p : nat) : Prop :=
  p ∈ segqueue vm ∧ at_seg (segs vm) is_free p.
Definition alloc_set {Src} (vm : vmem Src) (p : nat) : Prop :=
  p ∈ segqueue vm ∧ at_seg (segs vm) is_alloc p.
Definition span_ptrs (m : gmap nat vmem_seg) (q : list nat) : list nat :=
  filter (λ p, at_seg m is_span p) q.
(** The segments of the arena, in queue order. *)
Definition segments {Src} (vm : vmem Src) : list vmem_seg := vview (segs vm) (segqueue vm).

Record arena_ok {Src} (top : Z) (limbo : list nat) (vm : vmem Src) : Prop := ArenaOk {
  ok_top : 0 ≤ top < 2 ^ 64;
  ok_linked : linked (free_set vm) (alloc_set vm) limbo vm;
  ok_spans : spanlist vm = span_ptrs (segs vm) (segqueue vm);
  ok_layout : layout top (segments vm)
}.

(** [vmem->used] counts the allocated bytes. *)
Definition used_ok {Src} (vm : vmem Src) : Prop := used vm = u64 (alloc_bytes (segments vm)).

(** ** What the primitive operations do to the links *)
Section primitives.
Context {Src : Type}.
Implicit Types (vm : vmem Src) (F H : nat → Prop) (L : list nat).

Lemma linked_iff F H F' H' L vm :
  (∀ p, F p ↔ F' p) → (∀ p, H p ↔ H' p) → linked F H L vm → linked F' H' L vm.
Proof. intros HF HH []. split; try done; by eapply bucket_iff. Qed.

Lemma seglist_remove_ok F H L vm p :
  linked F H L vm → p ∈ concat (freelists vm) ++ concat (hashtab vm) →
  p ∉ spanlist vm → p ∉ free_segs vm →
  wp (seglist_remove p) (λ _ vm', linked (λ x, F x ∧ x ≠ p) (λ x, H x ∧ x ≠ p) L vm' ∧
    ∃ fl ht, vm' = set_freelists fl (set_hashtab ht vm)) vm.
Proof.
  intros Hl Hin Hsp Hfs. unfold seglist_remove. wp_simp.
  assert (on_seglist p vm = true) as ->.
  { unfold on_seglist. apply bool_decide_eq_true. set_solver. }
  wp_simp. destruct vm; simpl in *. unfold set_freelists, set_hashtab, set_spanlist, set_free_segs. simpl.
  rewrite !unlink_notin by done. destruct Hl; simpl in *. split; [|eauto].
  split; simpl; try done; by apply bucket_unlink.
Qed.

Lemma freelist_insert_ok F H L vm p g :
  linked F H L vm → ¬ F p → segs vm !! p = Some g → 0 < size g < 2 ^ 64 →
  wp (freelist_insert p) (λ _ vm', linked (λ x, F x ∨ x = p) H L vm' ∧
    ∃ fl, vm' = set_freelists fl vm) vm.
Proof.
  intros Hl Hp Hg Hs. unfold freelist_insert, seg_at. wp_simp. exists g. split; [done|].
  wp_simp. split; [|eauto]. destruct Hl. split; simpl; try done.
  apply (bucket_insert _ fl_key); try done. by apply freelist_bound.
Qed.

Lemma hashtab_insert_ok F H L vm p g :
  linked F H L vm → ¬ H p → segs vm !! p = Some g →
  wp (hashtab_insert p) (λ _ vm', linked F (λ x, H x ∨ x = p) L vm' ∧
    ∃ ht, vm' = set_hashtab ht vm) vm.
Proof.
  intros Hl Hp Hg. unfold hashtab_insert, seg_at. wp_simp. exists g. split; [done|].
  wp_simp. split; [|eauto]. destruct Hl. split; simpl; try done.
  apply (bucket_insert _ ht_key); try done. apply hashbucket_bound.
Qed.

Lemma linked_seg_set F H L vm p g :
  linked F H L vm →
  (F p → ∃ g0, segs vm !! p = Some g0 ∧ fl_key g0 = fl_key g) →
  (H p → ∃ g0, segs vm !! p = Some g0 ∧ ht_key g0 = ht_key g) →
  linked F H L (set_segs (<[p := g]> (segs vm)) vm).
Proof.
  intros [] HF HH. split; simpl; try done; try by apply bucket_seg_set.
  intros x Hx. destruct (decide (x = p)) as [->|]; [rewrite lookup_insert_eq|rewrite lookup_insert_ne]; eauto.
Qed.

Lemma linked_queue_in F H L vm p q :
  linked F H (p :: L) vm → segqueue vm ++ [p] ≡ₚ q → is_Some (segs vm !! p) →
  linked F H L (set_segqueue q vm).
Proof.
  intros [] Hq Hp.
  assert (q ++ L ++ free_segs vm ≡ₚ segqueue vm ++ (p :: L) ++ free_segs vm) as Hperm.
  { rewrite <-Hq, <-app_assoc. done. }
  split; simpl; try done.
  - by rewrite Hperm.
  - intros x Hx. rewrite <-Hq in Hx. set_solver.
  - intros x. rewrite Hperm. auto.
Qed.

Lemma linked_queue_out F H L vm p q :
  linked F H L vm → segqueue vm ≡ₚ p :: q → linked F H (p :: L) (set_segqueue q vm).
Proof.
  intros [] Hq.
  assert (q ++ (p :: L) ++ free_segs vm ≡ₚ segqueue vm ++ L ++ free_segs vm) as Hperm.
  { rewrite Hq. simpl. by rewrite <-Permutation_middle. }
  split; simpl; try done.
  - by rewrite Hperm.
  - intros x Hx. apply lk_live0. rewrite Hq. set_solver.
  - intros x. rewrite Hperm. auto.
Qed.

Lemma seg_free_ok F H L vm p :
  linked F H (p :: L) vm →
  wp (seg_free p) (λ _ vm', linked F H L vm' ∧
    vm' = set_free_segs (p :: free_segs vm) (nfreesegs vm + 1) vm) vm.
Proof.
  intros []. unfold seg_free. wp_simp. split; [|done].
  assert (segqueue vm ++ L ++ p :: free_segs vm ≡ₚ segqueue vm ++ (p :: L) ++ free_segs vm) as Hperm.
  { simpl. by rewrite <-Permutation_middle. }
  split; simpl; try done.
  - by rewrite Hperm.
  - intros x. rewrite Hperm. auto.
  - rewrite lk_npool0. lia.
Qed.

Lemma seg_alloc_ok F H L vm :
  linked F H L vm → (0 < length (free_segs vm))%nat →
  wp seg_alloc (λ p vm', linked F H (p :: L) vm' ∧
    ∃ rest, free_segs vm = p :: rest ∧ vm' = set_free_segs rest (nfreesegs vm - 1) vm) vm.
Proof.
  intros [] Hlen. unfold seg_alloc. wp_simp.
  destruct (free_segs vm) as [|p rest] eqn:E; simpl in Hlen; [lia|].
  unfold wp. simpl. split; [|eauto].
  assert (segqueue vm ++ (p :: L) ++ rest ≡ₚ segqueue vm ++ L ++ p :: rest) as Hperm.
  { apply Permutation_app_head, Permutation_middle. }
  split; simpl; try done.
  - by rewrite Hperm.
  - intros x. rewrite Hperm. auto.
  - rewrite lk_npool0. simpl. lia.
Qed.
End primitives.

(** Correctness of the VMem operations: every operation keeps the arena's
    invariant and acts on its segments as VmemSpec says. *)
Import Vmem.

Section proofs.
Context {Src : Type}.
Implicit Types (vm : vmem Src) (F H : nat → Prop) (L q : list nat).

Definition agree (m m' : gmap nat vmem_seg) (q : list nat) : Prop :=
  ∀ p, p ∈ q → m' !! p = m !! p.

Lemma vview_agree m m' q : agree m m' q → vview m' q = vview m q.
Proof.
  intros Ha. induction q as [|p q IH]; [done|]. rewrite !vview_step, Ha by set_solver.
  rewrite IH; [done|]. intros x Hx. apply Ha. set_solver.
Qed.
Lemma at_seg_agree m m' q P p : agree m m' q → p ∈ q → at_seg m' P p ↔ at_seg m P p.
Proof. intros Ha Hp. unfold at_seg. by rewrite Ha. Qed.
Lemma span_ptrs_agree m m' q : agree m m' q → span_ptrs m' q = span_ptrs m q.
Proof.
  intros Ha. unfold span_ptrs. induction q as [|p q IH]; [done|].
  assert (agree m m' q) by (intros x Hx; apply Ha; set_solver).
  destruct (decide (at_seg m is_span p)) as [Hs|Hs].
  - rewrite !filter_cons_True; [by rewrite IH|done|].
    apply (at_seg_agree m m' (p :: q)); [done|set_solver|done].
  - rewrite !filter_cons_False; [by rewrite IH|done|].
    rewrite (at_seg_agree m m' (p :: q)); [done|done|set_solver].
Qed.
Lemma span_ptrs_nil m q : (∀ p, p ∈ q → ¬ at_seg m is_span p) → span_ptrs m q = [].
Proof.
  intros Hq. unfold span_ptrs. induction q as [|p q IH]; [done|].
  rewrite filter_cons_False by (apply Hq; set_solver). apply IH. set_solver.
Qed.
Lemma span_ptrs_app m q1 q2 : span_ptrs m (q1 ++ q2) = span_ptrs m q1 ++ span_ptrs m q2.
Proof. apply filter_app. Qed.

(** Replacing a stretch of the queue. *)
Lemma arena_splice top L vm vm' q1 qold q2 qnew F' H' L' :
  arena_ok top L vm → segqueue vm = q1 ++ qold ++ q2 → segqueue vm' = q1 ++ qnew ++ q2 →
  agree (segs vm) (segs vm') (q1 ++ q2) →
  spanlist vm' = span_ptrs (segs vm) q1 ++ span_ptrs (segs vm') qnew ++ span_ptrs (segs vm) q2 →
  linked F' H' L' vm' →
  (∀ x, F' x ↔ (x ∈ q1 ++ q2 ∧ at_seg (segs vm) is_free x) ∨ (x ∈ qnew ∧ at_seg (segs vm') is_free x)) →
  (∀ x, H' x ↔ (x ∈ q1 ++ q2 ∧ at_seg (segs vm) is_alloc x) ∨ (x ∈ qnew ∧ at_seg (segs vm') is_alloc x)) →
  layout top (vview (segs vm) q1 ++ vview (segs vm') qnew ++ vview (segs vm) q2) →
  arena_ok top L' vm' ∧
    segments vm' = vview (segs vm) q1 ++ vview (segs vm') qnew ++ vview (segs vm) q2.
Proof.
  intros [Ht Hl Hs Hlay] Hq Hq' Ha Hsl Hlk HF HH Hlay'.
  assert (segments vm' = vview (segs vm) q1 ++ vview (segs vm') qnew ++ vview (segs vm) q2) as Hseg.
  { unfold segments. rewrite Hq', !vview_app.
    rewrite (vview_agree (segs vm) (segs vm') q1), (vview_agree (segs vm) (segs vm') q2); [done|..];
      intros x Hx; apply Ha; set_solver. }
  split; [|done]. split; [done| | |by rewrite Hseg].
  - eapply linked_iff; [..|done]; intros x; [rewrite HF|rewrite HH];
      unfold free_set, alloc_set; rewrite Hq'; split.
    1,3: intros [[Hx Hat]|[Hx Hat]]; [split; [set_solver|by rewrite (at_seg_agree (segs vm) _ (q1 ++ q2))]|set_solver].
    all: intros [Hx Hat]; destruct (decide (x ∈ q1 ++ q2));
      [left; split; [done|by rewrite <-(at_seg_agree _ (segs vm') (q1 ++ q2))]|right; set_solver].
  - rewrite Hsl, Hq', !span_ptrs_app.
    rewrite (span_ptrs_agree (segs vm) (segs vm') q1), (span_ptrs_agree (segs vm) (segs vm') q2); [done|..];
      intros x Hx; apply Ha; set_solver.
Qed.

(** Setting up a spare structure as a free segment and linking it. *)
Lemma link_free_ok F H L vm (f : list nat → option (list nat)) q' l b s :
  linked F H (l :: L) vm → f (segqueue vm) = Some q' → segqueue vm ++ [l] ≡ₚ q' →
  ¬ F l → ¬ H l → 0 < s < 2 ^ 64 →
  wp (seg_set l (Seg kVMemSegFree b s);; segqueue_update f;; freelist_insert l)
    (λ _ vm', linked (λ x, F x ∨ x = l) H L vm' ∧
      ∃ fl, vm' = set_freelists fl (set_segqueue q'
              (set_segs (<[l := Seg kVMemSegFree b s]> (segs vm)) vm))) vm.
Proof.
  intros Hl Hf Hq HF HH Hs. unfold seg_set, segqueue_update. wp_simp.
  exists q'. split; [done|]. unfold wp at 1. simpl.
  eapply wp_mono; [eapply freelist_insert_ok|].
  - eapply linked_queue_in; [apply linked_seg_set; [done|..]|..]; try done.
    simpl. rewrite lookup_insert_eq. eauto.
  - done.
  - simpl. by rewrite lookup_insert_eq.
  - done.
  - simpl. intros _ vm' [Hlk [fl ->]]. eauto.
Qed.

Lemma queue_notin F H L vm q1 p q2 :
  linked F H L vm → segqueue vm = q1 ++ p :: q2 → p ∉ q1 ∧ p ∉ q2 ∧ p ∉ L ∧ p ∉ free_segs vm.
Proof.
  intros Hlk Hq. pose proof (lk_nodup _ _ _ _ Hlk) as Hnd. rewrite Hq in Hnd.
  assert (q1 ++ p :: q2 ≡ₚ p :: q1 ++ q2) as Hp by solve_Permutation.
  rewrite Hp in Hnd. simpl in Hnd. inversion Hnd. set_solver.
Qed.

Lemma limbo_notin F H L vm l : linked F H L vm → l ∈ L → l ∉ segqueue vm ∧ l ∉ free_segs vm.
Proof.
  intros Hlk Hl. apply lk_nodup, NoDup_app in Hlk as (_ & Hd & Hnd).
  apply NoDup_app in Hnd as (_ & Hd' & _). set_solver.
Qed.

(** Fields the linking operations leave alone. *)
Definition same_rest vm vm' : Prop :=
  spanlist vm' = spanlist vm ∧ used vm' = used vm ∧ source vm' = source vm ∧
  next_seg vm' = next_seg vm ∧ kpages vm' = kpages vm.

(** One of the two pieces of a split: linked as a free segment when the test
    succeeds, returned to the pool otherwise. *)
Lemma piece_ok F H L vm (f : list nat → option (list nat)) (test : bool) q' l b s :
  linked F H (l :: L) vm → f (segqueue vm) = Some q' → segqueue vm ++ [l] ≡ₚ q' →
  ¬ F l → ¬ H l → (test = true → 0 < s < 2 ^ 64) →
  wp (if test then (seg_set l (Seg kVMemSegFree b s);; segqueue_update f;; freelist_insert l)
      else seg_free l)
    (λ _ vm', let ql := if test then [l] else [] in
      linked (λ x, F x ∨ x ∈ ql) H L vm' ∧
      segqueue vm' = (if test then q' else segqueue vm) ∧
      (∀ x, x ∈ ql → segs vm' !! x = Some (Seg kVMemSegFree b s)) ∧
      (∀ x, x ≠ l → segs vm' !! x = segs vm !! x) ∧ same_rest vm vm') vm.
Proof.
  intros Hlk Hf Hq HF HH Hs. destruct test; simpl.
  - eapply wp_mono; [eapply link_free_ok; eauto|]. simpl. intros _ vm' (Hlk' & fl & ->).
    split_and!; simpl; try done.
    + eapply linked_iff; [..|done]; set_solver.
    + intros x ->%list_elem_of_singleton. by rewrite lookup_insert_eq.
    + intros x Hx. by rewrite lookup_insert_ne.
  - eapply wp_mono; [by eapply seg_free_ok|]. simpl. intros _ vm' (Hlk' & ->).
    split_and!; try done; [|set_solver]. eapply linked_iff; [..|done]; set_solver.
Qed.

(** A state whose queue differs from [vm]'s by the split of [p] is an arena. *)
Lemma split_finish top L vm vm' q1 p q2 g ql qr addr sz L' :
  arena_ok top L vm → segqueue vm = q1 ++ p :: q2 → segs vm !! p = Some g →
  is_free g = true → base g ≤ addr → 0 < sz → addr + sz ≤ base g + size g →
  segqueue vm' = q1 ++ (ql ++ p :: qr) ++ q2 → agree (segs vm) (segs vm') (q1 ++ q2) →
  spanlist vm' = spanlist vm →
  segs vm' !! p = Some (Seg kVMemSegAllocated addr sz) →
  (∀ x, x ∈ ql → segs vm' !! x = Some (Seg kVMemSegFree (base g) (addr - base g))) →
  (∀ x, x ∈ qr → segs vm' !! x = Some (Seg kVMemSegFree (addr + sz) (base g + size g - (addr + sz)))) →
  length ql = length (piece_left g addr) → length qr = length (piece_right g addr sz) →
  linked (λ x, (free_set vm x ∧ x ≠ p) ∨ x ∈ ql ∨ x ∈ qr)
         (λ x, (alloc_set vm x ∧ x ≠ p) ∨ x = p) L' vm' →
  arena_ok top L' vm' ∧
    segments vm' = vview (segs vm) q1 ++ split_pieces g addr sz ++ vview (segs vm) q2.
Proof.
  intros Hok Hq Hg Hfree Hlo Hsz Hhi Hq' Hag Hspl Hp Hl Hr Hll Hlr Hlk.
  pose proof Hok as [Ht Hlk0 ok_spans0 Hlay].
  destruct (queue_notin _ _ _ _ _ _ _ Hlk0 Hq) as (Hp1 & Hp2 & _).
  unfold segments in Hlay. rewrite Hq, vview_app, (vview_cons _ _ g) in Hlay by done.
  assert (vview (segs vm') (ql ++ p :: qr) = split_pieces g addr sz) as Hview.
  { unfold split_pieces. rewrite vview_app, (vview_cons _ p _ _ Hp). f_equal; [|f_equal].
    - unfold piece_left in *. destruct (base g <? addr), ql as [|x [|y ys]]; simplify_eq/=; try done.
      by rewrite (vview_cons _ _ _ _ (Hl x ltac:(set_solver))).
    - unfold piece_right in *. destruct (addr + sz <? _), qr as [|x [|y ys]]; simplify_eq/=; try done.
      by rewrite (vview_cons _ _ _ _ (Hr x ltac:(set_solver))). }
  assert (∀ P x, x ∈ ql ++ p :: qr → at_seg (segs vm') P x →
    (x ∈ ql ∨ x ∈ qr) ∧ (∃ b s, P (Seg kVMemSegFree b s) = true) ∨
    x = p ∧ P (Seg kVMemSegAllocated addr sz) = true) as Hat.
  { intros P x Hx (gx & Hgx & HP). apply elem_of_app in Hx as [Hx|[->|Hx]%elem_of_cons];
      [rewrite (Hl x Hx) in Hgx|rewrite Hp in Hgx|rewrite (Hr x Hx) in Hgx]; naive_solver. }
  rewrite <-Hview.
  eapply (arena_splice top L vm vm' q1 [p] q2); try done.
  - rewrite Hspl, ok_spans0, Hq, (span_ptrs_app _ q1 (p :: q2)), (span_ptrs_app _ [p] q2 : span_ptrs _ (p :: q2) = _).
    rewrite (span_ptrs_nil (segs vm) [p]), (span_ptrs_nil (segs vm') (ql ++ p :: qr)); [done|..].
    + intros x Hx Hs. apply Hat in Hs; naive_solver.
    + intros x ->%list_elem_of_singleton (g' & Hg' & Hs'). simplify_eq. by rewrite free_nonspan in Hs'.
  - intros x. unfold free_set. rewrite Hq. split.
    + intros [[[Hx Hf] Hne]|Hx]; [left; set_solver|right]. split; [set_solver|].
      destruct Hx as [Hx|Hx]; [exists (Seg kVMemSegFree (base g) (addr - base g))|eexists]; split; eauto.
    + intros [[Hx Hf]|[Hx Hf]]; [left; set_solver|]. apply Hat in Hf; naive_solver.
  - intros x. unfold alloc_set. rewrite Hq. split.
    + intros [[[Hx Hf] Hne]| ->]; [left; set_solver|right]. split; [set_solver|]. eexists; eauto.
    + intros [[Hx Hf]|[Hx Hf]]; [left; set_solver|]. apply Hat in Hf; naive_solver.
  - rewrite Hview. by apply layout_split.
Qed.

Lemma split_seg_ok top L vm q1 p q2 g l r addr sz :
  arena_ok top (l :: r :: L) vm → segqueue vm = q1 ++ p :: q2 → segs vm !! p = Some g →
  is_free g = true → base g ≤ addr → 0 < sz → addr + sz ≤ base g + size g →
  wp (split_seg p l r addr sz) (λ _ vm',
    arena_ok top L vm' ∧
    segments vm' = vview (segs vm) q1 ++ split_pieces g addr sz ++ vview (segs vm) q2 ∧
    used vm' = used vm ∧ source vm' = source vm) vm.
Proof.
  intros Hok Hq Hg Hfree Hlo Hsz Hhi. pose proof Hok as [Ht Hlk Hsp Hlay].
  unfold segments in Hlay. rewrite Hq, vview_app, (vview_cons _ _ g) in Hlay by done.
  destruct (layout_seg_range _ _ _ _ Hlay) as (Hb0 & Hs0 & Htop); [lia|].
  assert (¬ at_seg (segs vm) is_span p) as Hnsp.
  { intros (g' & Hg' & Hsp'). simplify_eq. by rewrite free_nonspan in Hsp'. }
  destruct (queue_notin _ _ _ _ _ _ _ Hlk Hq) as (Hp1 & Hp2 & HpL & Hpf).
  destruct (limbo_notin _ _ _ _ l Hlk) as (Hlq & Hlf); [set_solver|].
  destruct (limbo_notin _ _ _ _ r Hlk) as (Hrq & Hrf); [set_solver|].
  assert (l ≠ r) as Hlr.
  { pose proof (lk_nodup _ _ _ _ Hlk) as Hnd. apply NoDup_app in Hnd as (_ & _ & Hnd). inversion Hnd; set_solver. }
  rewrite Hq in Hlq, Hrq.
  unfold split_seg. wp_simp. unfold seg_at at 1. wp_simp. exists g. split; [done|].
  wp_simp. split; [exact Hfree|].
  rewrite !(u64_small) by lia.
  eapply wp_mono; [eapply seglist_remove_ok; [done|..]|].
  { apply elem_of_app. left. destruct Hlk. eapply bucket_concat; [done| |done|].
    - split; [rewrite Hq; set_solver|by exists g].
    - apply freelist_bound. lia. }
  { rewrite Hsp. unfold span_ptrs. rewrite list_elem_of_filter. naive_solver. }
  { done. }
  simpl. intros _ vm1 (Hlk1 & fl1 & ht1 & ->).
  (* the left piece *)
  rewrite wp_bind. eapply wp_mono.
  { eapply (piece_ok _ _ (r :: L) _ (q_insert_before p l) _ (q1 ++ l :: p :: q2)); [done|..]; simpl.
    - rewrite Hq. by apply q_insert_before_mid.
    - rewrite Hq. solve_Permutation.
    - unfold free_set. rewrite Hq. naive_solver.
    - unfold alloc_set. rewrite Hq. naive_solver.
    - intros. lia. }
  cbn zeta. simpl. intros _ vm2 (Hlk2 & Hq2 & Hv2 & Hag2 & Hrest2).
  set (ql := if base g <? addr then [l] else []) in *.
  assert (segqueue vm2 = (q1 ++ ql) ++ p :: q2) as Hq2'.
  { rewrite Hq2. subst ql. destruct (base g <? addr); simpl; rewrite <-?app_assoc; done. }
  (* the right piece *)
  rewrite wp_bind. eapply wp_mono.
  { eapply (piece_ok _ _ L _ (q_insert_after p r) _ ((q1 ++ ql) ++ p :: r :: q2)); [done|..]; simpl.
    - rewrite Hq2'. apply q_insert_after_mid. subst ql. destruct (base g <? addr); set_solver.
    - rewrite Hq2'. solve_Permutation.
    - unfold free_set. rewrite Hq. subst ql. destruct (base g <? addr); set_solver.
    - unfold alloc_set. rewrite Hq. naive_solver.
    - intros. lia. }
  cbn zeta. simpl. intros _ vm3 (Hlk3 & Hq3 & Hv3 & Hag3 & Hrest3).
  set (qr := if addr + sz <? base g + size g then [r] else []) in *.
  assert (segqueue vm3 = q1 ++ (ql ++ p :: qr) ++ q2) as Hq3'.
  { rewrite Hq3, Hq2'. subst qr. destruct (addr + sz <? base g + size g); simpl;
      rewrite <-!app_assoc; done. }
  (* the allocated segment *)
  unfold seg_set. wp_simp.
  eapply wp_mono; [eapply hashtab_insert_ok|].
  { apply linked_seg_set; [done| |]; simpl.
    - intros [[?|Hx]|Hx]; exfalso; [naive_solver|..];
        [subst ql; destruct (base g <? addr)|subst qr; destruct (addr + sz <? base g + size g)]; set_solver.
    - naive_solver. }
  { simpl. naive_solver. }
  { simpl. by rewrite lookup_insert_eq. }
  simpl. intros _ vm4 (Hlk4 & ht4 & Hvm4).
  assert (∀ x, x ∈ ql → x = l) as Hql by (subst ql; destruct (base g <? addr); set_solver).
  assert (∀ x, x ∈ qr → x = r) as Hqr
    by (subst qr; destruct (addr + sz <? base g + size g); set_solver).
  destruct Hrest2 as (Hr2a & Hr2b & Hr2c & _), Hrest3 as (Hr3a & Hr3b & Hr3c & _). simpl in *.
  destruct (split_finish top (l :: r :: L) vm vm4 q1 p q2 g ql qr addr sz L)
    as [Ha Hb]; try done.
  - subst vm4. done.
  - intros x Hx. subst vm4. simpl. rewrite lookup_insert_ne, Hag3, Hag2 by set_solver. done.
  - subst vm4. simpl. congruence.
  - subst vm4. simpl. by rewrite lookup_insert_eq.
  - intros x Hx. rewrite <-(Hv2 x Hx). apply Hql in Hx as ->. subst vm4. simpl.
    rewrite lookup_insert_ne, Hag3 by set_solver. done.
  - intros x Hx. rewrite <-(Hv3 x Hx). apply Hqr in Hx as ->. subst vm4. simpl.
    rewrite lookup_insert_ne by set_solver. done.
  - unfold piece_left. subst ql. by destruct (base g <? addr).
  - unfold piece_right. subst qr. by destruct (addr + sz <? base g + size g).
  - eapply linked_iff; [..|exact Hlk4]; tauto.
  - subst vm4. simpl in *. split_and!; try done; congruence.
Qed.
End proofs.
