(* ===== verification/VmemAlloc.v ===== *)
(** Allocation from a VMem arena: the freelist search, the refill of the segment
    pool, the insertion of spans, and [vmem_xalloc]. *)
From S2P Require Import Prelude Vmem VmemSpec VmemProofs.
Import Vmem.
Local Open Scope Z_scope.

(** ** The search of the freelists *)

Lemma search_list_spec top m sz align min flags l :
  (∀ p, p ∈ l → ∃ g, m !! p = Some g ∧ 0 ≤ base g ∧ 0 < size g ∧ base g + size g ≤ top) →
  request_ok top sz align min → (min = 0 ∨ has_flag flags kVMemExact = true) →
  match search_list m sz align min flags l with
  | Some (Some (p, a)) => p ∈ l ∧ ∃ g, m !! p = Some g ∧ fits g sz align min flags a
  | Some None => ∀ p g a, p ∈ l → m !! p = Some g → ¬ fits g sz align min flags a
  | None => False
  end.
Proof.
  intros Hl Hr Hex. induction l as [|p l IH]; simpl; [set_solver|].
  destruct (Hl p) as (g & Hg & Hb & Hs & Ht); [set_solver|]. rewrite Hg.
  pose proof (place_spec top g sz align min flags Hb Hs Ht Hr Hex) as Hp.
  destruct (place g sz align min flags) as [a|]; [set_solver|].
  assert (∀ p, p ∈ l → ∃ g, m !! p = Some g ∧ 0 ≤ base g ∧ 0 < size g ∧ base g + size g ≤ top)
    as Hl' by set_solver.
  specialize (IH Hl').
  destruct (search_list m sz align min flags l) as [[[p' a]|]|]; [set_solver| |done].
  intros p' g' a [->|Hin]%elem_of_cons Hg'; [simplify_eq; apply Hp|eauto].
Qed.

(** ** Where a span goes *)

Lemma last_span_before_spec m b after l :
  (∀ p, p ∈ l → is_Some (m !! p)) →
  ∃ l1 l2, l = l1 ++ l2 ∧
    last_span_before m b after l = Some (from_option Some after (last l1)) ∧
    (∀ p g, p ∈ l1 → m !! p = Some g → base g < b) ∧
    (∀ n g, head l2 = Some n → m !! n = Some g → b ≤ base g).
Proof.
  revert after. induction l as [|p l IH]; intros after Hl; simpl.
  { exists [], []. set_solver. }
  destruct (Hl p) as [g Hg]; [set_solver|]. rewrite Hg. destruct (b <=? base g) eqn:E.
  - exists [], (p :: l). split_and!; simpl; [done|done|set_solver|].
    intros n g' ? ?. simplify_eq. lia.
  - destruct (IH (Some p)) as (l1 & l2 & -> & Hlast & Hlt & Hge); [set_solver|].
    exists (p :: l1), l2. split_and!; [done| | |done].
    + rewrite Hlast. f_equal. destruct l1 as [|x l1]; [done|].
      rewrite (last_cons p). destruct (last (x :: l1)) eqn:El; [done|]. by apply last_None in El.
    + intros p' g' [->|Hp']%elem_of_cons Hg'; [|eauto]. simplify_eq. lia.
Qed.

(** The end of the last span of a scanned prefix. *)
Lemma scan_lim top l st st' :
  scan_list top st l = Some st' →
  lim st' = from_option (λ g, base g + size g) (lim st) (last (filter (λ g, is_span g = true) l)).
Proof.
  revert st. induction l as [|g l IH]; intros st; simpl; [naive_solver|].
  intros (st1 & Hg & Hl)%bind_Some. rewrite (IH _ Hl). destruct (is_span g) eqn:Eg.
  - rewrite scan_step_span in Hg by done. destruct Hg as (_ & _ & _ & _ & ->).
    rewrite filter_cons_True, last_cons by done. by destruct (last (filter _ l)).
  - rewrite scan_step_nonspan in Hg by done. destruct Hg as (_ & _ & _ & _ & ->).
    rewrite filter_cons_False by (by rewrite Eg). done.
Qed.

Lemma layout_add_span top V1 V2 t b sz :
  layout top (V1 ++ V2) → 0 ≤ b → 0 < sz → b + sz ≤ top → is_span (Seg t b sz) = true →
  span_room b sz (V1 ++ V2) →
  (∀ g, g ∈ V1 → is_span g = true → base g < b) →
  (∀ g, head V2 = Some g → is_span g = true ∧ b ≤ base g) →
  layout top (V1 ++ Seg t b sz :: Seg kVMemSegFree b sz :: V2).
Proof.
  intros Hlay Hb Hsz Htop Ht Hroom HV1 HV2. apply layout_app in Hlay as (st & Hs & Hok).
  apply layout_app. exists st. split; [done|].
  pose proof (scan_range _ _ _ Hs ltac:(lia)) as Hr.
  assert (lim st ≤ b) as Hlim.
  { rewrite (scan_lim _ _ _ _ Hs). destruct (last _) as [g|] eqn:E; simpl; [|lia].
    apply last_Some_elem_of in E. rewrite list_elem_of_filter in E. destruct E as [Hg Hin].
    specialize (HV1 g Hin Hg). destruct (Hroom g ltac:(set_solver) Hg); lia. }
  assert (pos st = lim st) as Hclosed.
  { destruct V2 as [|g V2]; [by destruct Hok as (? & [= <-] & ?)|].
    destruct (HV2 g eq_refl) as [Hg _]. apply scan_ok_cons in Hok as (st' & Hst' & _).
    rewrite scan_step_span in Hst' by done. lia. }
  apply scan_ok_cons. eexists. rewrite scan_step_span by done. simpl.
  split; [split_and!; done|]. rewrite scan_ok_nonspan by done. simpl. split_and!; try done; try lia.
  destruct V2 as [|g V2]; [by eexists|]. destruct (HV2 g eq_refl) as [Hg Hge].
  destruct (Hroom g ltac:(set_solver) Hg) as [Hr'|Hr'].
  all: apply scan_ok_cons in Hok as (st' & Hst' & Hok); rewrite scan_step_span in Hst' by done.
  all: apply scan_ok_cons; exists st'; rewrite scan_step_span by done; simpl; split; [|done].
  all: split_and!; try tauto; lia.
Qed.

Section alloc.
Context {Src : Type}.
Implicit Types (vm : vmem Src) (L q : list nat).

Lemma arena_seg top L vm p :
  arena_ok top L vm → p ∈ segqueue vm →
  ∃ q1 q2 g, segqueue vm = q1 ++ p :: q2 ∧ segs vm !! p = Some g ∧
    segments vm = vview (segs vm) q1 ++ g :: vview (segs vm) q2 ∧
    0 ≤ base g ∧ 0 < size g ∧ base g + size g ≤ top.
Proof.
  intros [Ht Hlk Hsp Hlay] Hp. destruct (lk_live _ _ _ _ Hlk p Hp) as [g Hg].
  apply list_elem_of_split in Hp as (q1 & q2 & Hq). exists q1, q2, g.
  assert (segments vm = vview (segs vm) q1 ++ g :: vview (segs vm) q2) as Hseg.
  { unfold segments. by rewrite Hq, vview_app, (vview_cons _ _ g). }
  split_and!; try done; rewrite Hseg in Hlay; apply layout_seg_range in Hlay; lia.
Qed.

Lemma segments_elem vm g : g ∈ segments vm ↔ ∃ p, p ∈ segqueue vm ∧ segs vm !! p = Some g.
Proof. unfold segments, vview. by rewrite list_elem_of_omap. Qed.

Lemma search_spec top L vm sz align min flags idx n :
  arena_ok top L vm → request_ok top sz align min → (min = 0 ∨ has_flag flags kVMemExact = true) →
  wp (search sz align min flags idx n) (λ r vm', vm' = vm ∧
    match r with
    | Some (p, a) => free_set vm p ∧ ∃ g, segs vm !! p = Some g ∧ fits g sz align min flags a
    | None => ∀ p g a, free_set vm p → segs vm !! p = Some g →
                (idx ≤ fl_key g < idx + n)%nat → ¬ fits g sz align min flags a
    end) vm.
Proof.
  intros Hok Hr Hex. revert idx. induction n as [|n IH]; intros idx; simpl.
  { wp_simp. split; [done|]. intros. lia. }
  wp_simp. pose proof (search_list_spec top (segs vm) sz align min flags (freelists vm !!! idx)) as Hs.
  pose proof (lk_fl _ _ _ _ (ok_linked _ _ _ Hok)) as Hfl.
  specialize (Hs ltac:(intros p Hp; apply (bucket_mem _ _ _ _ _ Hfl) in Hp as ((Hp & _) & _);
    destruct (arena_seg _ _ _ _ Hok Hp) as (q1 & q2 & g & _ & ? & _ & ?); eauto) Hr Hex).
  destruct (search_list _ _ _ _ _ _) as [[[p a]|]|]; [..|done]; eexists; (split; [done|]); wp_simp.
  - split; [done|]. destruct Hs as (Hp & g & Hg & Hf).
    apply (bucket_mem _ _ _ _ _ Hfl) in Hp as [Hp _]. eauto.
  - eapply wp_mono; [apply IH|]. simpl. intros r vm' [-> Hr']. split; [done|].
    destruct r as [[p a]|]; [done|]. intros p g a Hp Hg Hk.
    destruct (decide (fl_key g = idx)) as [Heq|]; [|apply (Hr' p g a); try done; lia].
    apply (Hs p g a); [|done]. apply (bucket_mem _ _ _ _ _ Hfl). split; [done|]. exists g.
    split_and!; try done. rewrite <-Heq.
    destruct (arena_seg _ _ _ _ Hok (proj1 Hp)) as (q1 & q2 & g' & _ & ? & _ & ? & ? & ?).
    simplify_eq. apply freelist_bound. pose proof (ok_top _ _ _ Hok). lia.
Qed.

(** ** The segment pool *)

(** Only structures outside the queue changed. *)
Lemma arena_same top L L' vm vm' :
  arena_ok top L vm → segqueue vm' = segqueue vm → agree (segs vm) (segs vm') (segqueue vm) →
  spanlist vm' = spanlist vm → linked (free_set vm) (alloc_set vm) L' vm' →
  arena_ok top L' vm' ∧ segments vm' = segments vm.
Proof.
  intros Hok Hq Ha Hs Hlk. pose proof Hok as [Ht Hlk0 Hsp Hlay].
  destruct (arena_splice top L vm vm' (segqueue vm) [] [] [] (free_set vm) (alloc_set vm) L')
    as [Hok' Hseg]; rewrite ?app_nil_r; try done.
  - congruence.
  - unfold free_set. set_solver.
  - unfold alloc_set. set_solver.
  - split; [done|]. rewrite Hseg. unfold vview at 2 3. simpl. by rewrite !app_nil_r.
Qed.

Definition pool_step vm vm' : Prop :=
  segments vm' = segments vm ∧ used vm' = used vm ∧ source vm' = source vm.

Lemma seg_alloc_arena top L vm :
  arena_ok top L vm → 0 < nfreesegs vm →
  wp seg_alloc (λ p vm', arena_ok top (p :: L) vm' ∧ pool_step vm vm' ∧
    nfreesegs vm' = nfreesegs vm - 1 ∧ kpages vm' = kpages vm) vm.
Proof.
  intros Hok Hn. pose proof (ok_linked _ _ _ Hok) as Hlk.
  eapply wp_mono; [eapply seg_alloc_ok; [done|]|].
  { rewrite (lk_npool _ _ _ _ Hlk) in Hn. lia. }
  simpl. intros p vm' (Hlk' & rest & Hrest & ->).
  destruct (arena_same top L (p :: L) vm (set_free_segs rest (nfreesegs vm - 1) vm)); done.
Qed.

Lemma seg_block_free_ok top L vm n :
  arena_ok top L vm →
  wp (seg_block_free n) (λ _ vm', arena_ok top L vm' ∧ pool_step vm vm' ∧
    nfreesegs vm' = nfreesegs vm + Z.of_nat n ∧ kpages vm' = kpages vm) vm.
Proof.
  revert vm. induction n as [|n IH]; intros vm Hok; simpl.
  { wp_simp. split_and!; try done. lia. }
  unfold seg_set, seg_free. wp_simp. simpl.
  match goal with |- wp _ _ ?v => set (vm1 := v) end.
  destruct (arena_same top L L vm vm1) as [Hok1 Hseg1]; try done.
  - intros p Hp. simpl. apply lookup_insert_ne.
    pose proof (lk_fresh _ _ _ _ (ok_linked _ _ _ Hok) p ltac:(set_solver)). lia.
  - pose proof (ok_linked _ _ _ Hok) as Hlk. pose proof (lk_fresh _ _ _ _ Hlk) as Hfr.
    assert (next_seg vm ∉ segqueue vm ++ L ++ free_segs vm) as Hnew by (intros Hx; apply Hfr in Hx; lia).
    assert (segqueue vm ++ L ++ next_seg vm :: free_segs vm ≡ₚ
            next_seg vm :: segqueue vm ++ L ++ free_segs vm) as Hperm by solve_Permutation.
    destruct (linked_seg_set _ _ L vm (next_seg vm) (Seg kVMemSegFree 0 0) Hlk).
    { intros [Hx _]. set_solver. }
    { intros [Hx _]. set_solver. }
    split; simpl in *; try done.
    + rewrite Hperm. by constructor.
    + intros p. rewrite Hperm. intros [->|Hp]%elem_of_cons; [lia|]. apply Hfr in Hp. lia.
    + lia.
  - eapply wp_mono; [by apply IH|]. simpl. intros _ vm' (? & (? & ? & ?) & Hn & ?).
    subst vm1. simpl in *. unfold pool_step. split_and!; try congruence. lia.
Qed.

(** The pool can be refilled: it is well stocked, or a page is available. *)
Definition can_refill vm : Prop := 128 ≤ nfreesegs vm ∨ (0 < kpages vm)%nat.

Lemma seg_refill_ok top L vm :
  arena_ok top L vm → can_refill vm →
  wp seg_refill (λ _ vm', arena_ok top L vm' ∧ pool_step vm vm' ∧ 63 ≤ nfreesegs vm') vm.
Proof.
  intros Hok Hc. unfold seg_refill. wp_simp. destruct (128 <=? nfreesegs vm) eqn:E.
  { wp_simp. split_and!; try done. lia. }
  unfold vm_kalloc_page. wp_simp. destruct Hc as [|Hk]; [lia|].
  destruct (kpages vm) as [|k] eqn:Ek; [lia|]. wp_simp.
  pose proof (ok_linked _ _ _ Hok) as Hlk.
  destruct (arena_same top L L vm (set_supply (next_seg vm) k vm) Hok eq_refl ltac:(done) eq_refl)
    as [Hok' _].
  { destruct Hlk. by split. }
  eapply wp_mono; [by apply seg_block_free_ok|]. simpl. intros _ vm' (? & ? & Hn & ?).
  split_and!; try done. rewrite Hn, (lk_npool _ _ _ _ Hlk). unfold block_elems. lia.
Qed.

(** ** Adding a span *)

Lemma linked_limbo F H L L' vm : L ≡ₚ L' → linked F H L vm → linked F H L' vm.
Proof.
  intros Hp []. assert (segqueue vm ++ L' ++ free_segs vm ≡ₚ segqueue vm ++ L ++ free_segs vm)
    as Hperm by (by rewrite Hp).
  split; try done; [by rewrite Hperm|]. intros p. rewrite Hperm. auto.
Qed.

(** The links of a new span marker. *)
Lemma span_link_ok vm q1 q2 l1 l2 n :
  segqueue vm = q1 ++ q2 → spanlist vm = l1 ++ l2 → head q2 = head l2 → (l1 = [] → q1 = []) →
  NoDup (l1 ++ l2) → NoDup (q1 ++ q2) →
  wp (match last l1 with
      | Some a =>
          spanlist_update (q_insert_after a n);;
          match q_next a (l1 ++ l2) with
          | Some x => segqueue_update (q_insert_before x n)
          | None => segqueue_update (λ q, Some (q ++ [n]))
          end
      | None =>
          spanlist_update (λ l, Some (n :: l));; segqueue_update (λ q, Some (n :: q))
      end) (λ _ vm', vm' = set_segqueue (q1 ++ n :: q2) (set_spanlist (l1 ++ n :: l2) vm)) vm.
Proof.
  intros Hq Hl Hh Hnil Hnd Hndq. unfold spanlist_update, segqueue_update.
  destruct (last l1) as [a|] eqn:E.
  - apply last_Some in E as (l1' & ->). rewrite <-app_assoc in *. simpl in *.
    apply NoDup_app in Hnd as (_ & Hdis & _). specialize (λ H, Hdis a H ltac:(set_solver)).
    rewrite q_next_mid by auto. wp_simp. rewrite Hl. eexists.
    split; [by apply q_insert_after_mid; auto|]. wp_simp. destruct l2 as [|x l2]; simpl.
    + wp_simp. simpl. rewrite Hq.
      destruct q2; [|done]. by rewrite app_nil_r, <-app_assoc.
    + wp_simp. simpl. rewrite Hq. destruct q2 as [|y q2]; simplify_eq/=.
      eexists. split; [|by wp_simp; rewrite <-app_assoc]. apply q_insert_before_mid.
      apply NoDup_app in Hndq as (_ & Hd & _). intros Hx. apply (Hd _ Hx). set_solver.
  - apply last_None in E as ->. rewrite (Hnil eq_refl) in *. wp_simp. rewrite Hl. eexists.
    split; [done|]. wp_simp. simpl. rewrite Hq. eexists. split; [done|]. by wp_simp.
Qed.

(** A new span marker and the free segment after it, linked into the queue. *)
Lemma add_finish top L vm vm' q1 q2 n f t b sz L' :
  arena_ok top L vm → segqueue vm = q1 ++ q2 → 0 ≤ b → 0 < sz → b + sz ≤ top →
  is_span (Seg t b sz) = true → span_room b sz (segments vm) →
  (∀ p g, p ∈ span_ptrs (segs vm) q1 → segs vm !! p = Some g → base g < b) →
  (∀ p g, head q2 = Some p → segs vm !! p = Some g → is_span g = true ∧ b ≤ base g) →
  segqueue vm' = q1 ++ [n; f] ++ q2 → agree (segs vm) (segs vm') (q1 ++ q2) →
  spanlist vm' = span_ptrs (segs vm) q1 ++ n :: span_ptrs (segs vm) q2 →
  segs vm' !! n = Some (Seg t b sz) → segs vm' !! f = Some (Seg kVMemSegFree b sz) →
  linked (λ x, free_set vm x ∨ x = f) (alloc_set vm) L' vm' →
  arena_ok top L' vm' ∧
    segments vm' = vview (segs vm) q1 ++ [Seg t b sz; Seg kVMemSegFree b sz] ++ vview (segs vm) q2.
Proof.
  intros Hok Hq Hb Hsz Htop Ht Hroom HV1 HV2 Hq' Hag Hspl Hn Hf Hlk.
  assert (vview (segs vm') [n; f] = [Seg t b sz; Seg kVMemSegFree b sz]) as Hview.
  { by rewrite (vview_cons _ n _ _ Hn), (vview_cons _ f _ _ Hf). }
  assert (span_ptrs (segs vm') [n; f] = [n]) as Hspan.
  { unfold span_ptrs. rewrite filter_cons_True, filter_cons_False; [done|..].
    - intros (g & Hg & Hs). simplify_eq.
    - by exists (Seg t b sz). }
  assert (¬ is_free (Seg t b sz) = true ∧ ¬ is_alloc (Seg t b sz) = true) as [Hnf Hna].
  { split; intros Hx; [apply free_nonspan in Hx|apply alloc_nonspan in Hx]; congruence. }
  pose proof Hok as [_ Hlk0 _ Hlay].
  rewrite <-Hview. eapply (arena_splice top L vm vm' q1 [] q2 [n; f]); try done.
  - by rewrite Hspan.
  - intros x. unfold free_set. rewrite Hq. split.
    + intros [?| ->]; [by left|]. right. split; [set_solver|by eexists].
    + intros [?|[Hx Hat]]; [by left|]. right. destruct Hat as (g & Hg & Hfr).
      apply elem_of_cons in Hx as [->|Hx]; [|set_solver]. simplify_eq.
  - intros x. unfold alloc_set. rewrite Hq. split; [by left|].
    intros [?|[Hx (g & Hg & Hfr)]]; [done|].
    apply elem_of_cons in Hx as [->|Hx]; [|apply list_elem_of_singleton in Hx as ->]; simplify_eq.
  - rewrite Hview. unfold segments in *. rewrite Hq, vview_app in *. simpl.
    apply layout_add_span; try done.
    + intros g (p & Hp & Hg)%list_elem_of_omap Hs. apply (HV1 p g); [|done].
      unfold span_ptrs. rewrite list_elem_of_filter. split; [by exists g|done].
    + intros g Hg. destruct q2 as [|p q2]; [done|].
      destruct (lk_live _ _ _ _ Hlk0 p) as [g' Hg']; [rewrite Hq; set_solver|].
      rewrite (vview_cons _ p _ _ Hg') in Hg. simplify_eq/=. by apply (HV2 p).
Qed.

(** Where the code looks for the place of a span [b, ...). *)
Lemma span_place top L vm b :
  arena_ok top L vm →
  ∃ q1 q2, segqueue vm = q1 ++ q2 ∧
    last_span_before (segs vm) b None (spanlist vm) = Some (last (span_ptrs (segs vm) q1)) ∧
    head q2 = head (span_ptrs (segs vm) q2) ∧ (span_ptrs (segs vm) q1 = [] → q1 = []) ∧
    (∀ p g, p ∈ span_ptrs (segs vm) q1 → segs vm !! p = Some g → base g < b) ∧
    (∀ p g, head q2 = Some p → segs vm !! p = Some g → is_span g = true ∧ b ≤ base g).
Proof.
  intros [Ht Hlk Hsp Hlay].
  destruct (last_span_before_spec (segs vm) b None (spanlist vm)) as (l1 & l2 & Hl & Hlast & Hlt & Hge).
  { intros p. rewrite Hsp. unfold span_ptrs. rewrite list_elem_of_filter. intros [(g & Hg & _) _]. eauto. }
  rewrite Hlast. rewrite Hl in Hsp. symmetry in Hsp. unfold span_ptrs in *.
  apply filter_split in Hsp as (q1 & q2 & Hq & <- & <- & Hh). exists q1, q2. split_and!; try done.
  - by destruct (last _).
  - intros Hnil. destruct q1 as [|p q1]; [done|]. exfalso.
    destruct (lk_live _ _ _ _ Hlk p) as [g Hg]; [rewrite Hq; set_solver|].
    destruct (is_span g) eqn:Eg.
    { rewrite filter_cons_True in Hnil; [done|by exists g]. }
    unfold segments in Hlay. rewrite Hq, vview_app, (vview_cons _ _ g), <-app_comm_cons in Hlay by done.
    by apply (layout_pred _ []) in Hlay.
  - intros p g Hp Hg. split; [|apply (Hge p); congruence].
    assert (p ∈ filter (λ p, at_seg (segs vm) is_span p) q2) as Hin.
    { rewrite Hp in Hh. destruct (filter _ q2); simplify_eq/=. set_solver. }
    apply list_elem_of_filter in Hin as [(g' & Hg' & ?) _]. by simplify_eq.
Qed.

Lemma spans_nodup top L vm : arena_ok top L vm → NoDup (spanlist vm).
Proof.
  intros [_ Hlk -> _]. apply NoDup_filter. by apply lk_nodup, NoDup_app in Hlk as (? & _).
Qed.

Lemma vmem_add_internal_ok top L vm t b sz :
  arena_ok top L vm → 2 ≤ nfreesegs vm → 0 ≤ b → 0 < sz → b + sz ≤ top →
  is_span (Seg t b sz) = true → span_room b sz (segments vm) →
  wp (vmem_add_internal t b sz) (λ r vm', r.1 = 0 ∧ arena_ok top L vm' ∧
    (∃ q1 q2 n, segments vm = vview (segs vm') q1 ++ vview (segs vm') q2 ∧
      segqueue vm' = q1 ++ [n; r.2] ++ q2 ∧
      segs vm' !! n = Some (Seg t b sz) ∧ segs vm' !! r.2 = Some (Seg kVMemSegFree b sz)) ∧
    used vm' = used vm ∧ source vm' = source vm) vm.
Proof.
  intros Hok Hn Hb Hsz Htop Ht Hroom. pose proof Hok as [_ Hlk Hsp Hlay].
  destruct (span_place top L vm b Hok) as (q1 & q2 & Hq & Hlast & Hh & Hnil & HV1 & HV2).
  rewrite Hq, span_ptrs_app in Hsp.
  unfold vmem_add_internal, seg_set. wp_simp. rewrite Hlast. eexists. split; [done|].
  rewrite wp_bind. eapply wp_mono.
  { apply seg_alloc_ok; [done|]. rewrite (lk_npool _ _ _ _ Hlk) in Hn. lia. }
  simpl. intros n vm1 (Hlk1 & rest1 & Hr1 & ->). wp_simp.
  assert (n ∉ q1 ++ q2) as Hnq.
  { rewrite <-Hq. apply (limbo_notin _ _ _ _ n Hlk1). set_solver. }
  eapply wp_mono.
  { eapply seg_alloc_ok; [eapply linked_seg_set; [exact Hlk1|..]|]; simpl.
    - intros [Hx _]. by rewrite Hq in Hx.
    - intros [Hx _]. by rewrite Hq in Hx.
    - rewrite (lk_npool _ _ _ _ Hlk), Hr1 in Hn. simpl in Hn. lia. }
  simpl. intros f vm2 (Hlk2 & rest2 & Hr2 & ->). wp_simp. simpl.
  assert (f ∉ q1 ++ q2 ∧ f ≠ n) as [Hfq Hfn].
  { rewrite <-Hq. split; [apply (limbo_notin _ _ _ _ f Hlk2); set_solver|].
    apply lk_nodup, NoDup_app in Hlk2 as (_ & _ & Hnd). apply NoDup_app in Hnd as (Hnd & _).
    inversion Hnd; set_solver. }
  match goal with |- wp _ _ ?v => set (vm3 := v) end.
  rewrite Hsp. eapply wp_mono.
  { apply (span_link_ok vm3 q1 q2 (span_ptrs (segs vm) q1) (span_ptrs (segs vm) q2)); try done.
    - rewrite <-Hsp. by eapply spans_nodup.
    - rewrite <-Hq. by apply lk_nodup, NoDup_app in Hlk as (? & _). }
  simpl. intros _ vm4 ->. unfold segqueue_update. wp_simp. eexists.
  split; [apply q_insert_after_mid; set_solver|]. wp_simp.
  match goal with |- wp _ _ ?v => set (vm5 := v) end.
  assert (linked (free_set vm) (alloc_set vm) L vm5) as Hlk5.
  { eapply (linked_iff _ _ (free_set vm) (alloc_set vm)) in Hlk2; try done.
    eapply (linked_seg_set _ _ _ _ f (Seg kVMemSegFree b sz)) in Hlk2; [|intros [Hx _]; by rewrite Hq in Hx..].
    destruct Hlk2. simpl in *.
    assert ((q1 ++ n :: f :: q2) ++ L ++ rest2 ≡ₚ segqueue vm ++ f :: n :: L ++ rest2) as Hperm.
    { rewrite Hq. solve_Permutation. }
    split; simpl; try done; [by rewrite Hperm| |by intros x; rewrite Hperm; auto].
    intros x. rewrite elem_of_app, !elem_of_cons. intros [Hx|[->|[->|Hx]]].
    1,4: apply lk_live; rewrite Hq; set_solver.
    - rewrite lookup_insert_ne, lookup_insert_eq by done. eauto.
    - rewrite lookup_insert_eq. eauto. }
  eapply wp_mono.
  { eapply (freelist_insert_ok _ _ _ _ _ (Seg kVMemSegFree b sz)); [exact Hlk5|..]; simpl.
    - intros [Hx _]. rewrite Hq in Hx. done.
    - by rewrite lookup_insert_eq.
    - pose proof (ok_top _ _ _ Hok). lia. }
  simpl. intros _ vm6 (Hlk6 & fl & Hvm6). wp_simp. simpl.
  destruct (add_finish top L vm vm6 q1 q2 n f t b sz L) as [Hok6 Hseg6]; subst vm6; try done; simpl.
  - intros x Hx. by rewrite !lookup_insert_ne by set_solver.
  - by rewrite lookup_insert_ne, lookup_insert_eq by done.
  - by rewrite lookup_insert_eq.
  - split_and!; try done. exists q1, q2, n. split_and!; try done.
    + rewrite !vview_insert_ne by set_solver. unfold segments. by rewrite Hq, vview_app.
    + by rewrite lookup_insert_ne, lookup_insert_eq by done.
    + by rewrite lookup_insert_eq.
Qed.

(** ** [vmem_xalloc] *)

Definition supply_ok (flags : Z) vm : Prop :=
  if has_flag flags kVMemBootstrap then 4 ≤ nfreesegs vm else can_refill vm.

(** What [vmem->allocfn] owes the arena: a successful import is a range below
    [top] that meets no span the arena has. *)
Definition import_ok (top sz flags : Z) (allocfn : option (Z → Z → Src → Z * Z * Src)) vm : Prop :=
  ∀ alloc r a s', allocfn = Some alloc → alloc sz flags (source vm) = (r, a, s') → 0 ≤ r →
    0 ≤ a ∧ a + sz ≤ top ∧ span_room a sz (segments vm).

(** The outcome of [vmem_xalloc] on [vm]. *)
Definition alloc_outcome (top : Z) L (allocfn : option (Z → Z → Src → Z * Z * Src))
    (sz align min flags : Z) vm (res : Z + Z) vm' : Prop :=
  match res with
  | inr a =>
      arena_ok top L vm' ∧ used vm' = u64 (used vm + sz) ∧
      (alloc_step sz align min flags a (segments vm) (segments vm') ∧ source vm' = source vm ∨
       nothing_fits sz align min flags (segments vm) ∧
       import_step sz a (segments vm) (segments vm') ∧
       ∃ alloc r, allocfn = Some alloc ∧ 0 ≤ r ∧ alloc sz flags (source vm) = (r, a, source vm'))
  | inl e =>
      e < 0 ∧ nothing_fits sz align min flags (segments vm) ∧
      segments vm' = segments vm ∧ used vm' = used vm ∧ (∃ l r, arena_ok top (l :: r :: L) vm') ∧
      match allocfn with
      | None => e = - ERESOURCEEXHAUSTED ∧ source vm' = source vm
      | Some alloc => ∃ a, alloc sz flags (source vm) = (e, a, source vm')
      end
  end.

(** The pool before an allocation holds the structures it may need. *)
Lemma refill_ok top L flags vm :
  arena_ok top L vm → supply_ok flags vm →
  wp (when (negb (has_flag flags kVMemBootstrap)) seg_refill)
    (λ _ vm', arena_ok top L vm' ∧ pool_step vm vm' ∧ 4 ≤ nfreesegs vm') vm.
Proof.
  unfold supply_ok. intros Hok Hs. destruct (has_flag flags kVMemBootstrap); simpl.
  - by wp_simp.
  - wp_simp. eapply wp_mono; [by apply seg_refill_ok|]. simpl. intros _ vm1 (? & ? & ?).
    split_and!; try done. lia.
Qed.

Lemma pool_step_trans vm vm1 vm2 : pool_step vm vm1 → pool_step vm1 vm2 → pool_step vm vm2.
Proof. unfold pool_step. intros (? & ? & ?) (? & ? & ?). split_and!; congruence. Qed.

Lemma arena_limbo top L L' vm : L ≡ₚ L' → arena_ok top L vm → arena_ok top L' vm.
Proof. intros HL [? Hlk ? ?]. split; try done. by eapply linked_limbo. Qed.

(** The end of [vmem_xalloc]: split, count, return. *)
Lemma xalloc_finish top L vm q1 p q2 g l r a sz :
  arena_ok top (l :: r :: L) vm → segqueue vm = q1 ++ p :: q2 → segs vm !! p = Some g → is_free g = true →
  base g ≤ a → 0 < sz → a + sz ≤ base g + size g →
  wp (split_seg p l r a sz;; modify (λ vm, set_used (u64 (used vm + sz)) vm);; mret (inr a : Z + Z))
    (λ res vm', res = inr a ∧ arena_ok top L vm' ∧ used vm' = u64 (used vm + sz) ∧
      source vm' = source vm ∧
      segments vm' = vview (segs vm) q1 ++ split_pieces g a sz ++ vview (segs vm) q2) vm.
Proof.
  intros Hok Hq Hg Hf Hlo Hsz Hhi.
  rewrite wp_bind. eapply wp_mono; [by eapply split_seg_ok|]. simpl.
  intros _ vm1 (Hok1 & Hseg1 & Hu1 & Hs1). wp_simp. simpl. split_and!; try done.
  - destruct Hok1 as [? [] ? ?]. split; done.
  - by rewrite Hu1.
Qed.

Lemma xalloc_ok top L allocfn freefn vm sz align nocross min flags :
  arena_ok top L vm → request_ok top sz align min →
  (min = 0 ∨ has_flag flags kVMemExact = true) → supply_ok flags vm →
  import_ok top sz flags allocfn vm →
  wp (vmem_xalloc allocfn freefn sz align 0 nocross min 0 flags)
    (alloc_outcome top L allocfn sz align min flags vm) vm.
Proof.
  intros Hok Hreq Hex Hsup Himp. pose proof Hreq as (Hsz & _).
  unfold vmem_xalloc. rewrite wp_bind, wp_kassert. split; [done|]. rewrite wp_bind, wp_kassert.
  split; [by destruct Hex as [->| ->]; rewrite ?orb_true_r|]. rewrite wp_bind, wp_kassert.
  split; [done|]. rewrite wp_bind. eapply wp_mono; [by apply refill_ok|].
  simpl. intros _ vm1 (Hok1 & Hst1 & Hn1). wp_simp. split; [lia|].
  eapply wp_mono; [apply seg_alloc_arena; [done|lia]|].
  simpl. intros l vm2 (Hok2 & Hst2 & Hn2 & _). rewrite wp_bind.
  eapply wp_mono; [apply seg_alloc_arena; [done|lia]|].
  simpl. intros r vm3 (Hok3 & Hst3 & Hn3 & _).
  apply (arena_limbo _ _ (l :: r :: L)) in Hok3; [|solve_Permutation].
  destruct (pool_step_trans _ _ _ (pool_step_trans _ _ _ Hst1 Hst2) Hst3) as (Hseg & Hused & Hsrc).
  rewrite wp_bind. eapply wp_mono; [by eapply search_spec|]. simpl. intros found vm4 [-> Hfound].
  destruct found as [[p a]|].
  - destruct Hfound as ((Hp & g' & Hg' & Hf) & g & Hg & Hfits). simplify_eq.
    destruct (arena_seg _ _ _ _ Hok3 Hp) as (q1 & q2 & g2 & Hq & ? & Hseg3 & _). simplify_eq.
    pose proof Hfits as (? & ? & _). eapply wp_mono; [by eapply xalloc_finish|].
    simpl. intros res vm' (-> & Hok' & Hu' & Hs' & HV'). unfold alloc_outcome.
    split_and!; [done|congruence|]. left. split; [|congruence].
    rewrite <-Hseg, Hseg3, HV'. by constructor.
  - assert (nothing_fits sz align min flags (segments vm)) as Hnone.
    { rewrite <-Hseg. intros g a (p & Hp & Hg)%segments_elem Hf Hfits.
      destruct (arena_seg _ _ _ _ Hok3 Hp) as (_ & _ & g' & _ & ? & _ & ? & ? & ?). simplify_eq.
      destruct (decide (freelist sz ≤ fl_key g)%nat).
      - apply (Hfound p g a); [split; [done|by exists g]|done| |done]. split; [done|].
        pose proof (freelist_bound (size g)). pose proof (ok_top _ _ _ Hok).
        unfold fl_key in *. lia.
      - apply (small_no_fit g sz align min flags a); [done|unfold fl_key in *; lia|done]. }
    unfold try_import. destruct allocfn as [alloc|]; wp_simp; simpl.
    + rewrite Hsrc. destruct (alloc sz flags (source vm)) as [[rc a] s'] eqn:Ealloc. wp_simp.
      destruct (rc <? 0) eqn:Erc; wp_simp; simpl.
      * rewrite Erc. wp_simp. unfold alloc_outcome. split_and!; try done; [lia| |by eauto].
        exists l, r. destruct Hok3 as [? [] ? ?]. split; done.
      * destruct (Himp alloc rc a s' eq_refl Ealloc ltac:(lia)) as (Ha & Hatop & Hroom).
        eapply wp_mono.
        { apply (vmem_add_internal_ok top (l :: r :: L)); try done; simpl.
          - destruct Hok3 as [? [] ? ?]. split; done.
          - lia.
          - change (segments (set_source s' vm3)) with (segments vm3). by rewrite Hseg. }
        simpl. intros [r1 p] vm5 (Hr1 & Hok5 & (q1 & q2 & n & HV & Hq5 & Hn & Hp) & Hu5 & Hs5).
        simpl in *. subst r1. wp_simp. simpl. wp_simp. unfold seg_at. cbn [Z.ltb Z.compare]. wp_simp.
        eexists. split; [done|]. wp_simp. eexists. split; [done|]. simpl.
        eapply wp_mono; [eapply (xalloc_finish top L vm5 (q1 ++ [n]) p q2); try done; simpl; try lia|].
        { by rewrite Hq5, <-app_assoc. }
        simpl. intros res vm' (-> & Hok' & Hu' & Hs' & HW). unfold alloc_outcome.
        split_and!; [done|congruence|]. right. split; [done|].
        split; [|exists alloc, rc; split_and!; try done; [lia|congruence]].
        rewrite <-Hseg. change (segments vm3) with (segments (set_source s' vm3)). rewrite HV, HW.
        rewrite vview_app, (vview_cons _ n _ _ Hn), <-app_assoc.
        replace (split_pieces _ a sz) with [Seg kVMemSegAllocated a sz]; [constructor|].
        unfold split_pieces, piece_left, piece_right. simpl. by rewrite !Z.ltb_irrefl.
    + unfold alloc_outcome. split_and!; try done. eauto.
Qed.
End alloc.
