(* ===== verification/VmemFree.v ===== *)
(** Freeing into a VMem arena: coalescing with both neighbours, the release of
    imported spans that became wholly free, and [vmem_xfree]. *)
From S2P Require Import Prelude Vmem VmemSpec VmemProofs VmemAlloc.
Import Vmem.
Local Open Scope Z_scope.

Section free.
Context {Src : Type}.
Implicit Types (vm : vmem Src) (F H : nat → Prop) (L q : list nat).

(** ** Resizing a free segment *)

(** Unlinking does not read the structures. *)
Lemma seglist_remove_segs p m vm (Q : () → vmem Src → Prop) :
  wp (seglist_remove p) (λ a vm', Q a (set_segs m vm')) vm →
  wp (seglist_remove p) Q (set_segs m vm).
Proof.
  unfold seglist_remove. wp_simp. unfold on_seglist. simpl. by destruct (bool_decide _).
Qed.

Lemma freeseg_resize_ok F H L vm p g b s :
  linked F H L vm → F p → ¬ H p → segs vm !! p = Some g → 0 < size g < 2 ^ 64 →
  p ∉ spanlist vm → p ∉ free_segs vm → 0 < s < 2 ^ 64 →
  wp (freeseg_resize p b s) (λ _ vm', linked F H L vm' ∧
    ∃ fl ht, vm' = set_freelists fl (set_hashtab ht
               (set_segs (<[p := Seg (type g) b s]> (segs vm)) vm))) vm.
Proof.
  intros Hlk HF HH Hg Hsg Hsp Hfs Hs. unfold freeseg_resize, seg_at, seg_set. wp_simp.
  exists g. split; [done|]. wp_simp. case_decide as Hkey; wp_simp.
  - apply seglist_remove_segs. eapply wp_mono; [eapply seglist_remove_ok; try done|].
    { apply elem_of_app. left. destruct Hlk. eapply bucket_concat; [done..|]. by apply freelist_bound. }
    simpl. intros _ vm1 (Hlk1 & fl & ht & ->).
    eapply wp_mono; [eapply (freelist_insert_ok _ _ _ _ _ (Seg (type g) b s))|].
    + apply (linked_seg_set _ _ _ _ p (Seg (type g) b s)) in Hlk1; [exact Hlk1|naive_solver..].
    + naive_solver.
    + simpl. by rewrite lookup_insert_eq.
    + done.
    + simpl. intros _ vm' (Hlk' & fl' & ->). split; [|by exists fl', ht].
      eapply linked_iff; [..|exact Hlk'].
      * intros x. destruct (decide (x = p)); naive_solver.
      * intros x. destruct (decide (x = p)); naive_solver.
  - split.
    + apply linked_seg_set; [done| |done]. intros _. exists g. split; [done|].
      unfold fl_key. simpl. destruct (decide (freelist s = freelist (size g))); [done|].
      by destruct Hkey.
    + exists (freelists vm), (hashtab vm). by destruct vm.
Qed.

(** ** The state between unlinking the freed segment and relinking it *)

(** Segment [p] (with contents [g]) stands for the freed range between [q1] and
    [q2]; the rest of the queue is as in [vm0].  [listed]: [p] is on a freelist. *)
Record freeing (vm0 : vmem Src) L (q1 : list nat) (p : nat) (q2 : list nat) (g : vmem_seg)
    (listed : bool) vm : Prop := Freeing {
  fr_queue : segqueue vm = q1 ++ p :: q2;
  fr_seg : segs vm !! p = Some g;
  fr_size : 0 < size g < 2 ^ 64;
  fr_agree : agree (segs vm0) (segs vm) (q1 ++ q2);
  fr_spans : spanlist vm = spanlist vm0;
  fr_nospan : p ∉ spanlist vm0;
  fr_used : used vm = used vm0;
  fr_source : source vm = source vm0;
  fr_free : listed = true → type g = kVMemSegFree;
  fr_linked : linked
    (λ x, (x ∈ q1 ++ q2 ∧ at_seg (segs vm0) is_free x) ∨ (listed = true ∧ x = p))
    (λ x, x ∈ q1 ++ q2 ∧ at_seg (segs vm0) is_alloc x) L vm
}.

Lemma freeing_notin vm0 L q1 p q2 g b vm :
  freeing vm0 L q1 p q2 g b vm →
  p ∉ q1 ++ q2 ∧ NoDup (q1 ++ p :: q2) ∧ ∀ x, x ∈ q1 ++ p :: q2 → x ∉ free_segs vm.
Proof.
  intros Hf. pose proof (queue_notin _ _ _ _ _ _ _ (fr_linked _ _ _ _ _ _ _ _ Hf)
    (fr_queue _ _ _ _ _ _ _ _ Hf)) as (? & ? & _ & _).
  pose proof (lk_nodup _ _ _ _ (fr_linked _ _ _ _ _ _ _ _ Hf)) as Hnd.
  rewrite (fr_queue _ _ _ _ _ _ _ _ Hf) in Hnd. apply NoDup_app in Hnd as (? & Hd & _).
  split_and!; [set_solver|done|set_solver].
Qed.

(** Absorbing the neighbour [x] (a free segment of [vm0]) on either side. *)
Lemma absorb_ok vm0 L q1 q2 qa qb p x g xg listed b vm :
  freeing vm0 L q1 p q2 g listed vm →
  q1 ++ q2 ≡ₚ x :: qa ++ qb → q_remove p (q1 ++ p :: q2) = Some (qa ++ x :: qb) →
  segs vm0 !! x = Some xg → is_free xg = true → x ∉ spanlist vm0 →
  0 < size xg < 2 ^ 64 → size xg + size g < 2 ^ 64 →
  wp (freeseg_resize x b (u64 (size xg + size g));;
      segqueue_update (q_remove p);;
      when listed (seglist_remove p);;
      seg_free p)
    (λ _ vm', freeing vm0 L qa x qb (Seg kVMemSegFree b (size xg + size g)) true vm') vm.
Proof.
  intros Hf Hperm Hrem Hx Hxf Hxs Hxsz Hsum. pose proof Hf as [Hq Hp Hsz Hag Hspn Hns Hu Hsrc Hfr Hlk].
  destruct (freeing_notin _ _ _ _ _ _ _ _ Hf) as (Hpn & Hnd & Hfs).
  assert (x ∈ q1 ++ q2) as Hxin by (rewrite Hperm; set_solver).
  assert (NoDup (x :: qa ++ qb)) as Hnd'.
  { rewrite <-Hperm. apply (NoDup_app q1 q2). apply NoDup_app in Hnd as (? & Hd & Hn2).
    inversion Hn2; subst. split_and!; [done|set_solver|done]. }
  assert (x ≠ p) as Hxp by set_solver.
  rewrite u64_small by lia. rewrite wp_bind. eapply wp_mono.
  { eapply (freeseg_resize_ok _ _ _ _ _ xg); try done.
    - left. split; [done|by exists xg].
    - intros [_ (g' & Hg' & Ha)]. simplify_eq. by rewrite alloc_nonfree in Hxf.
    - by rewrite (Hag x Hxin).
    - by rewrite Hspn.
    - apply Hfs. set_solver.
    - lia. }
  simpl. intros _ vm1 (Hlk1 & fl & ht & ->). rewrite wp_bind. unfold segqueue_update.
  rewrite wp_bind, wp_get, wp_bind, wp_deref. simpl. rewrite Hq. eexists. split; [done|].
  rewrite wp_put, wp_bind.
  apply (linked_queue_out _ _ _ _ p (qa ++ x :: qb)) in Hlk1.
  2: { simpl. rewrite Hq. rewrite <-(q_remove_perm _ _ _ Hrem). done. }
  match type of Hlk1 with linked _ _ _ ?v => set (vm2 := v) in * end.
  assert (wp (when listed (seglist_remove p)) (λ _ vm3,
    linked (λ y, y ∈ q1 ++ q2 ∧ at_seg (segs vm0) is_free y)
      (λ y, y ∈ q1 ++ q2 ∧ at_seg (segs vm0) is_alloc y) (p :: L) vm3 ∧
    ∃ fl ht, vm3 = set_freelists fl (set_hashtab ht vm2)) vm2) as Hun.
  { wp_simp. destruct listed.
    - eapply wp_mono; [eapply seglist_remove_ok; [done|..]|].
      + apply elem_of_app. left. eapply bucket_concat; [apply (lk_fl _ _ _ _ Hlk1)|by right|..].
        * simpl. by rewrite lookup_insert_ne by done.
        * by apply freelist_bound.
      + simpl. by rewrite Hspn.
      + simpl. apply Hfs. set_solver.
      + simpl. intros _ vm3 (Hlk3 & Heq). split; [|done].
        eapply linked_iff; [..|exact Hlk3]; intros y; destruct (decide (y = p)); naive_solver.
    - split; [|by exists (freelists vm2), (hashtab vm2)].
      eapply linked_iff; [..|exact Hlk1]; intros y; naive_solver. }
  eapply wp_mono; [exact Hun|]. simpl. intros _ vm3 (Hlk3 & fl3 & ht3 & ->).
  eapply wp_mono; [by eapply seg_free_ok|]. simpl. intros _ vm4 (Hlk4 & ->).
  split; simpl; try done; try lia.
  - rewrite lookup_insert_eq. f_equal. apply bool_decide_eq_true_1 in Hxf. by rewrite Hxf.
  - intros y Hy. inversion Hnd'. rewrite lookup_insert_ne by set_solver.
    apply Hag. rewrite Hperm. set_solver.
  - eapply linked_iff; [..|exact Hlk4]; intros y; setoid_rewrite Hperm.
    + split; [|intros [[??]|[_ ->]]; (split; [set_solver|]); [done|by exists xg]].
      intros [[->|?]%elem_of_cons ?]; [by right|by left].
    + split; [|intros [??]; split; [by right|done]].
      intros [[->|?]%elem_of_cons (xg' & ? & Ha)]; [|split; [done|by exists xg']].
      simplify_eq. by rewrite alloc_nonfree in Hxf.
Qed.

(** A neighbour of the freed segment, as the layout of [vm0] has it. *)
Definition live_seg vm0 (x : nat) (xg : vmem_seg) : Prop :=
  segs vm0 !! x = Some xg ∧ (is_free xg = true → x ∉ spanlist vm0) ∧ 0 < size xg < 2 ^ 64.

Lemma coalesce_left_ok vm0 L q1 l p q2 g lg vm :
  freeing vm0 L (q1 ++ [l]) p q2 g false vm → live_seg vm0 l lg → (is_free lg = true → size lg + size g < 2 ^ 64) →
  wp (coalesce_left p) (λ r vm',
    if is_free lg
    then r = (l, true) ∧
         freeing vm0 L q1 l q2 (Seg kVMemSegFree (base lg) (size lg + size g)) true vm'
    else r = (p, false) ∧ vm' = vm) vm.
Proof.
  intros Hf (Hl & Hls & Hlsz) Hsum. pose proof Hf as [Hq Hp Hsz Hag _ _ _ _ _ _].
  destruct (freeing_notin _ _ _ _ _ _ _ _ Hf) as (Hpn & _).
  unfold coalesce_left, prev_seg, seg_at. wp_simp. eexists. split; [done|]. wp_simp.
  rewrite Hq, q_prev_mid, last_snoc by set_solver. eexists. split; [done|]. wp_simp.
  exists lg. split; [by rewrite (Hag l) by set_solver|]. unfold is_free in *.
  destruct (bool_decide (type lg = kVMemSegFree)) eqn:Efree; [|by wp_simp].
  specialize (Hsum eq_refl). apply (wp_seq4 _ _ (when false (seglist_remove p))).
  eapply wp_mono.
  { eapply (absorb_ok vm0 L (q1 ++ [l]) q2 q1 q2); try done; [..|auto].
    - solve_Permutation.
    - rewrite q_remove_mid by set_solver. by rewrite <-app_assoc. }
  simpl. intros _ vm' Hf'. wp_simp. auto.
Qed.

Lemma coalesce_right_ok vm0 L q1 p q2 g listed vm :
  freeing vm0 L q1 p q2 g listed vm →
  (∀ r, head q2 = Some r → ∃ rg, live_seg vm0 r rg ∧ (is_free rg = true → size rg + size g < 2 ^ 64)) →
  wp (coalesce_right p listed) (λ res vm',
    match head q2 ≫= λ r, segs vm0 !! r with
    | Some rg =>
        if is_free rg
        then ∃ r, head q2 = Some r ∧ res = (r, true) ∧
          freeing vm0 L q1 r (tail q2) (Seg kVMemSegFree (base g) (size rg + size g)) true vm'
        else res = (p, listed) ∧ vm' = vm
    | None => res = (p, listed) ∧ vm' = vm
    end) vm.
Proof.
  intros Hf Hr. pose proof Hf as [Hq Hp Hsz Hag _ _ _ _ _ _].
  destruct (freeing_notin _ _ _ _ _ _ _ _ Hf) as (Hpn & _).
  unfold coalesce_right, next_seg_of, seg_at. wp_simp. eexists. split; [done|]. wp_simp.
  rewrite Hq, q_next_mid by set_solver. destruct q2 as [|r q2]; simpl; [by wp_simp|].
  destruct (Hr r eq_refl) as (rg & (Hrg & Hrs & Hrsz) & Hsum). wp_simp.
  exists rg. split; [by rewrite (Hag r) by set_solver|]. rewrite Hrg. unfold is_free in *.
  destruct (bool_decide (type rg = kVMemSegFree)) eqn:Efree; [|by wp_simp].
  specialize (Hsum eq_refl). apply (wp_seq4 _ _ (when listed (seglist_remove p))). eapply wp_mono.
  { eapply (absorb_ok vm0 L q1 (r :: q2) q1 q2); try done; [..|auto].
    - solve_Permutation.
    - apply q_remove_mid. set_solver. }
  simpl. intros _ vm' Hf'. wp_simp. eauto.
Qed.

(** ** Putting the freed range back *)

Lemma relist_ok vm0 L q1 p q2 g vm :
  freeing vm0 L q1 p q2 g false vm →
  wp (seg_set p (Seg kVMemSegFree (base g) (size g));; freelist_insert p)
    (λ _ vm', freeing vm0 L q1 p q2 (Seg kVMemSegFree (base g) (size g)) true vm') vm.
Proof.
  intros Hf. destruct (freeing_notin _ _ _ _ _ _ _ _ Hf) as (Hpn & _).
  destruct Hf as [Hq Hp Hsz Hag Hspn Hns Hu Hsrc _ Hlk]. unfold seg_set. wp_simp.
  eapply wp_mono.
  { eapply (freelist_insert_ok _ _ _ _ _ (Seg kVMemSegFree (base g) (size g))).
    - eapply linked_seg_set; [exact Hlk|..]; naive_solver.
    - naive_solver.
    - simpl. by rewrite lookup_insert_eq.
    - done. }
  simpl. intros _ vm' (Hlk' & fl & ->). split; simpl; try done.
  - by rewrite lookup_insert_eq.
  - intros x Hx. rewrite lookup_insert_ne by set_solver. by apply Hag.
  - eapply linked_iff; [..|exact Hlk']; naive_solver.
Qed.

Lemma free_finish top vm0 L q1 qold p q2 g vm :
  arena_ok top L vm0 → segqueue vm0 = q1 ++ qold ++ q2 → span_ptrs (segs vm0) qold = [] →
  freeing vm0 L q1 p q2 g true vm →
  layout top (vview (segs vm0) q1 ++ g :: vview (segs vm0) q2) →
  arena_ok top L vm ∧ segments vm = vview (segs vm0) q1 ++ g :: vview (segs vm0) q2.
Proof.
  intros Hok Hq0 Hold [Hq Hp Hsz Hag Hspn Hns Hu Hsrc Hfr Hlk] Hlay.
  assert (vview (segs vm) [p] = [g]) as Hview by (by rewrite (vview_cons _ _ _ _ Hp)).
  assert (is_free g = true) as Hgf by (apply bool_decide_eq_true; auto).
  change (g :: vview (segs vm0) q2) with ([g] ++ vview (segs vm0) q2). rewrite <-Hview.
  eapply (arena_splice top L vm0 vm q1 qold q2 [p]); try done.
  - rewrite Hspn, (ok_spans _ _ _ Hok), Hq0, !span_ptrs_app, Hold.
    rewrite (span_ptrs_nil (segs vm) [p]); [done|].
    intros x ->%list_elem_of_singleton (g' & ? & Hs). simplify_eq. by rewrite free_nonspan in Hs.
  - intros x. split.
    + intros [?|[_ ->]]; [by left|right]. split; [set_solver|by exists g].
    + intros [?|[->%list_elem_of_singleton _]]; [by left|by right].
  - intros x. split; [by left|]. intros [?|[->%list_elem_of_singleton (g' & ? & Ha)]]; [done|].
    simplify_eq. by rewrite alloc_nonfree in Hgf.
  - by rewrite Hview.
Qed.

Lemma span_remove_ok F H L vm l :
  linked F H L vm → ¬ F l → ¬ H l → l ∈ spanlist vm → l ∉ free_segs vm →
  wp (seglist_remove l) (λ _ vm', vm' = set_spanlist (unlink l (spanlist vm)) vm) vm.
Proof.
  intros Hlk HF HH Hl Hfs. unfold seglist_remove. wp_simp.
  assert (on_seglist l vm = true) as ->.
  { unfold on_seglist. apply bool_decide_eq_true. set_solver. }
  wp_simp. rewrite (bucket_notin _ _ _ _ _ _ (lk_fl _ _ _ _ Hlk) HF),
    (bucket_notin _ _ _ _ _ _ (lk_ht _ _ _ _ Hlk) HH), (unlink_notin _ (free_segs vm)) by done.
  by destruct vm.
Qed.

(** Unlinking the free segment [p] of an imported span. *)
Lemma release_seg_ok vm0 L q1 p q2 g listed vm :
  freeing vm0 L q1 p q2 g listed vm →
  wp (when listed (seglist_remove p);; segqueue_update (q_remove p);; seg_free p)
    (λ _ vm', segqueue vm' = q1 ++ q2 ∧ segs vm' = segs vm ∧ spanlist vm' = spanlist vm0 ∧
      used vm' = used vm ∧ source vm' = source vm ∧
      (∀ x, x ∈ q1 ++ q2 → x ∉ free_segs vm') ∧
      linked (λ x, x ∈ q1 ++ q2 ∧ at_seg (segs vm0) is_free x)
        (λ x, x ∈ q1 ++ q2 ∧ at_seg (segs vm0) is_alloc x) L vm') vm.
Proof.
  intros Hf. destruct (freeing_notin _ _ _ _ _ _ _ _ Hf) as (Hpn & Hnd & Hfs).
  destruct Hf as [Hq Hp Hsz Hag Hspn Hns Hu Hsrc _ Hlk].
  rewrite wp_bind. eapply (wp_mono _ (λ _ vm1,
    linked (λ x, x ∈ q1 ++ q2 ∧ at_seg (segs vm0) is_free x)
      (λ x, x ∈ q1 ++ q2 ∧ at_seg (segs vm0) is_alloc x) L vm1 ∧
    ∃ fl ht, vm1 = set_freelists fl (set_hashtab ht vm))).
  { rewrite wp_when. destruct listed.
    - eapply wp_mono; [eapply seglist_remove_ok; [done|..]|].
      + apply elem_of_app. left. eapply bucket_concat; [apply (lk_fl _ _ _ _ Hlk)|by right|done|].
        by apply freelist_bound.
      + by rewrite Hspn.
      + apply Hfs. set_solver.
      + simpl. intros _ vm1 (Hlk1 & Heq). split; [|done].
        eapply linked_iff; [..|exact Hlk1]; intros y; destruct (decide (y = p)); naive_solver.
    - split; [|exists (freelists vm), (hashtab vm); by destruct vm].
      eapply linked_iff; [..|exact Hlk]; naive_solver. }
  simpl. intros _ vm1 (Hlk1 & fl & ht & ->). unfold segqueue_update. wp_simp. simpl.
  rewrite Hq. eexists. split; [by apply q_remove_mid; set_solver|]. wp_simp.
  apply (linked_queue_out _ _ _ _ p (q1 ++ q2)) in Hlk1; [|simpl; rewrite Hq; solve_Permutation].
  eapply wp_mono; [by eapply seg_free_ok|]. simpl. intros _ vm2 (Hlk2 & ->). simpl.
  split_and!; try done. intros x Hx. apply not_elem_of_cons. split; [set_solver|].
  apply Hfs. set_solver.
Qed.

(** Unlinking the span marker [l]. *)
Lemma release_marker_ok vm L q1 l q2 lg F H :
  linked F H L vm → ¬ F l → ¬ H l → segqueue vm = q1 ++ l :: q2 → l ∉ q1 →
  l ∈ spanlist vm → l ∉ free_segs vm → segs vm !! l = Some lg →
  wp (seglist_remove l;; segqueue_update (q_remove l);; seg_free l;; mret true)
    (λ res vm', res = true ∧ segqueue vm' = q1 ++ q2 ∧ segs vm' = segs vm ∧
      spanlist vm' = unlink l (spanlist vm) ∧ used vm' = used vm ∧ source vm' = source vm ∧
      linked F H L vm') vm.
Proof.
  intros Hlk HF HH Hq Hl1 Hls Hlf Hlg. rewrite wp_bind.
  eapply wp_mono; [by eapply span_remove_ok|]. simpl. intros _ vm1 ->.
  assert (linked F H L (set_spanlist (unlink l (spanlist vm)) vm)) as Hlk1 by (destruct Hlk; by split).
  unfold segqueue_update. wp_simp. simpl. rewrite Hq. eexists. split; [by apply q_remove_mid|].
  wp_simp. apply (linked_queue_out _ _ _ _ l (q1 ++ q2)) in Hlk1; [|simpl; rewrite Hq; solve_Permutation].
  eapply wp_mono; [by eapply seg_free_ok|]. simpl. intros _ vm2 (Hlk2 & ->). wp_simp. done.
Qed.

Lemma unlink_mid l1 (x : nat) l2 : NoDup (l1 ++ x :: l2) → unlink x (l1 ++ x :: l2) = l1 ++ l2.
Proof.
  intros Hnd. unfold unlink. rewrite filter_app, filter_cons_False by auto.
  apply NoDup_app in Hnd as (_ & Hd & Hn). inversion Hn; subst.
  fold (unlink x l1) (unlink x l2). rewrite !unlink_notin; set_solver.
Qed.

Lemma release_finish top vm0 L q1 l qold q2 lg g vm :
  arena_ok top L vm0 → segqueue vm0 = (q1 ++ [l]) ++ qold ++ q2 → span_ptrs (segs vm0) qold = [] →
  segs vm0 !! l = Some lg → is_span lg = true → is_free g = true → size g = size lg →
  layout top (vview (segs vm0) (q1 ++ [l]) ++ g :: vview (segs vm0) q2) →
  segqueue vm = q1 ++ q2 → agree (segs vm0) (segs vm) (q1 ++ q2) →
  spanlist vm = unlink l (spanlist vm0) →
  linked (λ x, x ∈ (q1 ++ [l]) ++ q2 ∧ at_seg (segs vm0) is_free x)
    (λ x, x ∈ (q1 ++ [l]) ++ q2 ∧ at_seg (segs vm0) is_alloc x) L vm →
  arena_ok top L vm ∧ segments vm = vview (segs vm0) q1 ++ vview (segs vm0) q2.
Proof.
  intros Hok Hq0 Hold Hl Hls Hgf Hsz Hlay Hq Hag Hspn Hlk.
  assert (∀ P, at_seg (segs vm0) P l → P lg = true) as Hat by (intros P (? & ? & ?); by simplify_eq).
  eapply (arena_splice top L vm0 vm q1 (l :: qold) q2 []); try done.
  - by rewrite Hq0, <-!app_assoc.
  - rewrite Hspn. pose proof (spans_nodup _ _ _ Hok) as Hnd.
    assert (spanlist vm0 = span_ptrs (segs vm0) q1 ++ l :: span_ptrs (segs vm0) q2) as Hs0.
    { rewrite (ok_spans _ _ _ Hok), Hq0, !span_ptrs_app, Hold, <-app_assoc. f_equal.
      unfold span_ptrs at 1. by rewrite filter_cons_True by (by exists lg). }
    rewrite Hs0 in *. by rewrite unlink_mid.
  - intros x. split; [|set_solver]. intros [Hx Hf]. left. split; [|done].
    rewrite !elem_of_app in *. destruct Hx as [[?| ->%list_elem_of_singleton]|?]; [by left| |by right].
    apply Hat, free_nonspan in Hf. congruence.
  - intros x. split; [|set_solver]. intros [Hx Hf]. left. split; [|done].
    rewrite !elem_of_app in *. destruct Hx as [[?| ->%list_elem_of_singleton]|?]; [by left| |by right].
    apply Hat, alloc_nonspan in Hf. congruence.
  - rewrite vview_app, (vview_cons _ l _ _ Hl), <-app_assoc in Hlay.
    by eapply layout_drop_span in Hlay.
Qed.

Lemma release_span_ok top vm0 L q1 l qold p q2 g lg listed vm freefn flags :
  arena_ok top L vm0 → segqueue vm0 = (q1 ++ [l]) ++ qold ++ q2 → span_ptrs (segs vm0) qold = [] →
  segs vm0 !! l = Some lg → freeing vm0 L (q1 ++ [l]) p q2 g listed vm →
  layout top (vview (segs vm0) (q1 ++ [l]) ++ Seg kVMemSegFree (base g) (size g) :: vview (segs vm0) q2) →
  (type lg = kVMemSegSpanImported → size g = size lg →
   ∀ r, head q2 = Some r → ∃ rg, segs vm0 !! r = Some rg ∧ type rg = kVMemSegSpanImported) →
  wp (release_span freefn p listed flags) (λ res vm',
    if bool_decide (type lg = kVMemSegSpanImported) && (size g =? size lg)
    then res = true ∧ arena_ok top L vm' ∧
         segments vm' = vview (segs vm0) q1 ++ vview (segs vm0) q2 ∧ used vm' = used vm0 ∧
         source vm' = freefn (base lg) (size lg) flags (source vm0)
    else res = listed ∧ vm' = vm) vm.
Proof.
  intros Hok Hq0 Hold Hl Hf Hlay Hright. pose proof Hf as [Hq Hp Hsz Hag Hspn Hns Hu Hsrc _ _].
  destruct (freeing_notin _ _ _ _ _ _ _ _ Hf) as (Hpn & Hnd & _).
  unfold release_span, prev_seg, next_seg_of, seg_at. wp_simp. exists g. split; [done|]. wp_simp.
  rewrite Hq, q_prev_mid, last_snoc by set_solver. eexists. split; [done|]. wp_simp.
  exists lg. split; [by rewrite (Hag l) by set_solver|].
  destruct (bool_decide_reflect (type lg = kVMemSegSpanImported)) as [Himp|]; simpl; [|by wp_simp].
  destruct (Z.eqb_spec (size g) (size lg)) as [Hsize|]; [|by wp_simp].
  rewrite wp_bind, wp_gets, wp_bind, wp_get, wp_bind, wp_kassert. rewrite Hq, q_next_mid by set_solver.
  split.
  { destruct (head q2) as [r|] eqn:Eh; [|done]. destruct (Hright Himp Hsize r eq_refl) as (rg & Hrg & Ht).
    rewrite (Hag r), Hrg; [by apply bool_decide_eq_true|]. destruct q2; simplify_eq/=. set_solver. }
  rewrite wp_bind, wp_modify.
  assert (freeing vm0 L (q1 ++ [l]) p q2 g listed vm) as [_ _ _ _ _ _ _ _ Hfree Hlk] by done.
  match goal with |- wp _ _ ?v => set (vm1 := v) end.
  assert (wp (when listed (seglist_remove p);; segqueue_update (q_remove p);; seg_free p)
    (λ _ vm2, segqueue vm2 = (q1 ++ [l]) ++ q2 ∧ segs vm2 = segs vm1 ∧ spanlist vm2 = spanlist vm0 ∧
      used vm2 = used vm1 ∧ source vm2 = source vm1 ∧
      (∀ x, x ∈ (q1 ++ [l]) ++ q2 → x ∉ free_segs vm2) ∧
      linked (λ x, x ∈ (q1 ++ [l]) ++ q2 ∧ at_seg (segs vm0) is_free x)
        (λ x, x ∈ (q1 ++ [l]) ++ q2 ∧ at_seg (segs vm0) is_alloc x) L vm2) vm1) as Hrel.
  { apply (release_seg_ok (set_source (source vm1) vm0) L (q1 ++ [l]) p q2 g listed vm1).
    split; simpl; try done. destruct Hlk; by split. }
  apply wp_seq3. eapply wp_mono; [exact Hrel|]. simpl.
  intros _ vm2 (Hq2 & Hsegs2 & Hsp2 & Hu2 & Hsrc2 & Hfs2 & Hlk2).
  assert (is_span lg = true) as Hlspan by (unfold is_span; by rewrite Himp).
  eapply wp_mono.
  { eapply (release_marker_ok vm2 L q1 l q2 lg); try done.
    - intros [_ (g' & ? & Hx)]. simplify_eq. apply free_nonspan in Hx. congruence.
    - intros [_ (g' & ? & Hx)]. simplify_eq. apply alloc_nonspan in Hx. congruence.
    - by rewrite Hq2, <-app_assoc.
    - apply NoDup_app in Hnd as (Hnd & _). apply NoDup_app in Hnd as (_ & Hd & _). set_solver.
    - rewrite Hsp2, (ok_spans _ _ _ Hok), Hq0. unfold span_ptrs. rewrite list_elem_of_filter.
      split; [by exists lg|set_solver].
    - apply Hfs2. set_solver.
    - rewrite Hsegs2. simpl. by rewrite (Hag l) by set_solver. }
  simpl. intros res vm3 (-> & Hq3 & Hsegs3 & Hsp3 & Hu3 & Hsrc3 & Hlk3).
  destruct (release_finish top vm0 L q1 l qold q2 lg (Seg kVMemSegFree (base g) (size g)) vm3)
    as [Hok3 Hseg3]; try done.
  - rewrite Hsegs3, Hsegs2. intros x Hx. apply Hag. set_solver.
  - congruence.
  - split_and!; try done; simpl in *; congruence.
Qed.

(** ** The two coalescing steps together *)

Lemma span_ptrs_nonspan m q :
  (∀ p, p ∈ q → is_Some (m !! p)) → (∀ g, g ∈ vview m q → is_span g = false) → span_ptrs m q = [].
Proof.
  intros Hl Hv. apply span_ptrs_nil. intros p Hp (g & Hg & Hs).
  rewrite Hv in Hs; [done|]. unfold vview. rewrite list_elem_of_omap. eauto.
Qed.

(** A pointer of the queue as a neighbour. *)
Lemma arena_live_seg top L vm x :
  arena_ok top L vm → x ∈ segqueue vm →
  ∃ xg, live_seg vm x xg ∧ 0 ≤ base xg ∧ base xg + size xg ≤ top.
Proof.
  intros Hok Hx. destruct (arena_seg _ _ _ _ Hok Hx) as (q1 & q2 & g & _ & Hg & _ & ? & ? & ?).
  pose proof (ok_top _ _ _ Hok). exists g. unfold live_seg. split_and!; try done; [|lia].
  intros Hf. rewrite (ok_spans _ _ _ Hok). unfold span_ptrs. rewrite list_elem_of_filter.
  intros [(g' & ? & Hs) _]. simplify_eq. by rewrite free_nonspan in Hs.
Qed.

Lemma queue_pred top L vm q1 p q2 g :
  arena_ok top L vm → segqueue vm = q1 ++ p :: q2 → segs vm !! p = Some g → is_span g = false →
  ∃ q l lg, q1 = q ++ [l] ∧ live_seg vm l lg ∧ 0 ≤ base lg ∧
    (is_span lg = false → base g = base lg + size lg) ∧ (is_free g = true → is_free lg = false).
Proof.
  intros Hok Hq Hg Hns. pose proof (ok_layout _ _ _ Hok) as Hlay. unfold segments in Hlay.
  rewrite Hq, vview_app, (vview_cons _ _ g) in Hlay by done.
  destruct (exists_last (l := q1)) as (q & l & ->).
  { intros ->. by apply layout_pred in Hlay. }
  destruct (arena_live_seg _ _ _ l Hok) as (lg & Hl & ? & _); [rewrite Hq; set_solver|].
  exists q, l, lg. split_and!; try done.
  all: rewrite vview_app, (vview_cons _ l lg), <-app_assoc in Hlay by apply Hl.
  all: apply layout_adjacent in Hlay as [Hb Hf]; [|done].
  { done. }
  intros Hgf. destruct (is_free lg); [|done]. specialize (Hf eq_refl). congruence.
Qed.

Lemma queue_succ top L vm q1 p q2 g :
  arena_ok top L vm → segqueue vm = q1 ++ p :: q2 → segs vm !! p = Some g → is_span g = false →
  ∀ r, head q2 = Some r → ∃ rg, live_seg vm r rg ∧ base rg + size rg ≤ top ∧
    (is_span rg = false → base rg = base g + size g) ∧ (is_free g = true → is_free rg = false).
Proof.
  intros Hok Hq Hg Hns r Hr. destruct q2 as [|r' q2]; simplify_eq/=.
  destruct (arena_live_seg _ _ _ r Hok) as (rg & Hl & _ & ?); [rewrite Hq; set_solver|].
  exists rg. pose proof (ok_layout _ _ _ Hok) as Hlay. unfold segments in Hlay.
  rewrite Hq, vview_app, (vview_cons _ _ g), (vview_cons _ r rg) in Hlay by (done || apply Hl).
  split_and!; try done.
  - intros Hrs. by apply layout_adjacent in Hlay as [? _]; auto.
  - intros Hgf. destruct (is_span rg) eqn:E; [|by apply layout_adjacent in Hlay as [_ ?]; auto].
    destruct (is_free rg) eqn:E2; [|done]. apply free_nonspan in E2. congruence.
Qed.

(** [lo] and [ro] are the free neighbours absorbed so far. *)
Record coalesced vm0 L (g : vmem_seg) (lo ro : option vmem_seg) (qa : list nat) (l : nat)
    (qold qb : list nat) (p2 : nat) (g2 : vmem_seg) (listed : bool) vm : Prop := Coalesced {
  co_queue : segqueue vm0 = (qa ++ [l]) ++ qold ++ qb;
  co_old : vview (segs vm0) qold = option_list lo ++ g :: option_list ro;
  co_lo : ∀ x, lo = Some x → is_free x = true;
  co_ro : ∀ x, ro = Some x → is_free x = true;
  co_left : ∃ lg, segs vm0 !! l = Some lg ∧ is_free lg = false;
  co_g2 : Seg kVMemSegFree (base g2) (size g2) = merged lo ro g;
  co_freeing : freeing vm0 L (qa ++ [l]) p2 qb g2 listed vm
}.

Lemma coalesce_left_spec top L vm0 q1 p q2 g vm :
  arena_ok top L vm0 → segqueue vm0 = q1 ++ p :: q2 → segs vm0 !! p = Some g → is_alloc g = true →
  freeing vm0 L q1 p q2 g false vm →
  wp (coalesce_left p) (λ res vm', ∃ lo qa l qold g1,
    coalesced vm0 L g lo None qa l qold q2 res.1 g1 res.2 vm' ∧ last qold = Some p ∧
    0 ≤ base g1 ∧ base g1 + size g1 = base g + size g) vm.
Proof.
  intros Hok Hq Hg Ha Hf. pose proof (ok_top _ _ _ Hok) as Htop.
  assert (0 ≤ base g ∧ base g + size g ≤ top) as [Hb0 Hbt].
  { destruct (arena_live_seg _ _ _ p Hok) as (g' & (Hg' & _) & ?); [rewrite Hq; set_solver|].
    by simplify_eq. }
  destruct (queue_pred _ _ _ _ _ _ _ Hok Hq Hg (alloc_nonspan _ Ha))
    as (qa & l & lg & -> & Hl & Hlb & Hadj & _).
  eapply wp_mono; [eapply (coalesce_left_ok _ _ _ _ _ _ _ _ _ Hf Hl)|].
  { intros Hlf. specialize (Hadj (free_nonspan _ Hlf)). lia. }
  simpl. intros res vm' Hres. destruct (is_free lg) eqn:Elf.
  - destruct Hres as [-> Hf']. specialize (Hadj (free_nonspan _ Elf)).
    rewrite <-app_assoc in Hq. simpl in Hq.
    destruct (queue_pred _ _ _ _ _ _ _ Hok Hq (proj1 Hl) (free_nonspan _ Elf))
      as (qa' & l' & lg' & -> & Hl' & _ & _ & Hnf).
    exists (Some lg), qa', l', [l; p], (Seg kVMemSegFree (base lg) (size lg + size g)).
    split_and!; simpl; try done; [|lia]. split; try done.
    + by rewrite (vview_cons _ l lg), (vview_cons _ p g) by (done || apply Hl).
    + naive_solver.
    + exists lg'. split; [apply Hl'|auto].
    + unfold merged. simpl. f_equal. lia.
  - destruct Hres as [-> ->]. exists None, qa, l, [p], g. split_and!; simpl; try done. split; try done.
    + by rewrite (vview_cons _ p g) by done.
    + exists lg. split; [apply Hl|done].
    + unfold merged. simpl. f_equal. lia.
Qed.

Lemma coalesce_right_spec top L vm0 q1 p q2 g lo qa l qold g1 p1 listed vm :
  arena_ok top L vm0 → segqueue vm0 = q1 ++ p :: q2 → segs vm0 !! p = Some g → is_alloc g = true →
  coalesced vm0 L g lo None qa l qold q2 p1 g1 listed vm →
  0 ≤ base g1 → base g1 + size g1 = base g + size g →
  wp (coalesce_right p1 listed) (λ res vm', ∃ ro qold' qb g2,
    coalesced vm0 L g lo ro qa l qold' qb res.1 g2 res.2 vm' ∧
    nofree_head (vview (segs vm0) qb)) vm.
Proof.
  intros Hok Hq Hg Ha [Hq0 Hold Hlo _ Hleft Hg1 Hf] Hb Hsum. pose proof (ok_top _ _ _ Hok) as Htop.
  pose proof (queue_succ _ _ _ _ _ _ _ Hok Hq Hg (alloc_nonspan _ Ha)) as Hsucc.
  eapply wp_mono; [apply (coalesce_right_ok _ _ _ _ _ _ _ _ Hf)|].
  { intros r Hr. destruct (Hsucc r Hr) as (rg & Hrl & ? & Hadj & _). exists rg. split; [done|].
    intros Hrf. specialize (Hadj (free_nonspan _ Hrf)). lia. }
  simpl. intros res vm' Hres. destruct q2 as [|r q2]; simpl in Hres.
  { destruct Hres as [-> ->]. exists None, qold, [], g1. by split; [split|]. }
  destruct (Hsucc r eq_refl) as (rg & Hrl & ? & Hadj & _). pose proof (proj1 Hrl) as Hrg.
  rewrite Hrg in Hres. destruct (is_free rg) eqn:Erf.
  - destruct Hres as (r' & [= <-] & -> & Hf').
    exists (Some rg), (qold ++ [r]), q2, (Seg kVMemSegFree (base g1) (size rg + size g1)). split.
    + split; simpl; try done.
      * rewrite Hq0. by rewrite <-!app_assoc.
      * rewrite vview_app, Hold, (vview_cons _ r rg), <-app_assoc by done. done.
      * naive_solver.
      * unfold merged in *. simplify_eq/=. f_equal; [done|lia].
    + destruct q2 as [|r2 q2]; [done|].
      destruct (queue_succ top L vm0 (q1 ++ [p]) r (r2 :: q2) rg) with (r := r2)
        as (rg2 & Hr2 & _ & _ & Hnf); try done.
      * by rewrite Hq, <-app_assoc.
      * by apply free_nonspan.
      * rewrite (vview_cons _ r2 rg2) by apply Hr2. simpl. auto.
  - destruct Hres as [-> ->]. exists None, qold, (r :: q2), g1. split; [by split|].
    by rewrite (vview_cons _ r rg).
Qed.

(** ** [vmem_xfree] *)

Lemma find_by_base_spec m addr l :
  (∀ p, p ∈ l → is_Some (m !! p)) →
  match find_by_base m addr l with
  | Some (Some p) => p ∈ l ∧ ∃ g, m !! p = Some g ∧ base g = addr
  | Some None => ∀ p g, p ∈ l → m !! p = Some g → base g ≠ addr
  | None => False
  end.
Proof.
  intros Hl. induction l as [|p l IH]; simpl; [set_solver|].
  destruct (Hl p) as [g Hg]; [set_solver|]. rewrite Hg. destruct (Z.eqb_spec (base g) addr).
  - split; [set_solver|eauto].
  - specialize (IH ltac:(set_solver)). destruct (find_by_base m addr l) as [[p'|]|]; [set_solver| |done].
    intros p' g' [->|Hp']%elem_of_cons Hg'; [congruence|eauto].
Qed.

(** Looking up an address in the hash table. *)
Lemma hashtab_lookup top L vm addr :
  arena_ok top L vm →
  match find_by_base (segs vm) addr (hashtab vm !!! hashbucket_for_addr addr) with
  | Some (Some p) => alloc_set vm p ∧ ∃ g, segs vm !! p = Some g ∧ is_alloc g = true ∧ base g = addr
  | Some None => ∀ g, g ∈ segments vm → is_alloc g = true → base g ≠ addr
  | None => False
  end.
Proof.
  intros Hok. pose proof (lk_ht _ _ _ _ (ok_linked _ _ _ Hok)) as Hht.
  pose proof (find_by_base_spec (segs vm) addr (hashtab vm !!! hashbucket_for_addr addr)) as Hfind.
  specialize (Hfind ltac:(intros p (_ & g & -> & _)%(bucket_mem _ _ _ _ _ Hht); eauto)).
  destruct (find_by_base _ _ _) as [[p|]|]; [..|done].
  - destruct Hfind as (Hp & g & Hg & Hb). apply (bucket_mem _ _ _ _ _ Hht) in Hp as ([Hq Ha] & _).
    split; [done|]. destruct Ha as (g' & ? & ?). simplify_eq. eauto.
  - intros g (p & Hp & Hg)%segments_elem Ha Hb. apply (Hfind p g); [|done|done].
    apply (bucket_mem _ _ _ _ _ Hht). split; [split; [done|by exists g]|]. exists g.
    split_and!; [done|by unfold ht_key; rewrite Hb|apply hashbucket_bound].
Qed.

Lemma xfree_start top L vm q1 p q2 g :
  arena_ok top L vm → segqueue vm = q1 ++ p :: q2 → segs vm !! p = Some g → is_alloc g = true →
  wp (seglist_remove p) (λ _ vm', freeing vm L q1 p q2 g false vm') vm.
Proof.
  intros Hok Hq Hg Ha. pose proof Hok as [Ht Hlk Hsp _].
  destruct (queue_notin _ _ _ _ _ _ _ Hlk Hq) as (Hp1 & Hp2 & _ & Hpf).
  destruct (arena_live_seg _ _ _ p Hok) as (g' & (Hg' & _ & Hsz) & _); [rewrite Hq; set_solver|].
  simplify_eq. assert (p ∉ spanlist vm) as Hns.
  { rewrite Hsp. unfold span_ptrs. rewrite list_elem_of_filter.
    intros [(g2 & ? & Hs) _]. simplify_eq. by rewrite alloc_nonspan in Hs. }
  eapply wp_mono; [eapply seglist_remove_ok; try done|].
  { apply elem_of_app. right. eapply bucket_concat; [apply (lk_ht _ _ _ _ Hlk)| |done|apply hashbucket_bound].
    split; [rewrite Hq; set_solver|by eexists]. }
  simpl. intros _ vm' (Hlk' & fl & ht & ->). split; simpl; try done.
  eapply linked_iff; [..|exact Hlk']; unfold free_set, alloc_set; rewrite Hq; intros x; split.
  - intros [[Hx Hf] Hne]. left. split; [set_solver|done].
  - intros [[Hx Hf]|[??]]; [|done]. split; [split; [set_solver|done]|set_solver].
  - intros [[Hx Hf] Hne]. split; [set_solver|done].
  - intros [Hx Hf]. split; [split; [set_solver|done]|set_solver].
Qed.

(** What the coalesced state says of the segments. *)
Lemma coalesced_layout top L vm0 g lo ro qa l qold qb p2 g2 listed vm :
  arena_ok top L vm0 → is_alloc g = true →
  coalesced vm0 L g lo ro qa l qold qb p2 g2 listed vm → nofree_head (vview (segs vm0) qb) →
  free_at (base g) (segments vm0) (vview (segs vm0) (qa ++ [l])) lo g ro (vview (segs vm0) qb) ∧
  layout top (vview (segs vm0) (qa ++ [l]) ++ merged lo ro g :: vview (segs vm0) qb) ∧
  span_ptrs (segs vm0) qold = [].
Proof.
  intros Hok Ha [Hq0 Hold Hlo Hro (lg & Hlg & Hlf) _ _] Hnf.
  assert (segments vm0 = vview (segs vm0) (qa ++ [l]) ++ option_list lo ++ g :: option_list ro ++ vview (segs vm0) qb)
    as Hseg0.
  { unfold segments. rewrite Hq0, !(vview_app _ (qa ++ [l])), (vview_app _ qold), Hold.
    by rewrite <-!app_assoc. }
  assert (free_at (base g) (segments vm0) (vview (segs vm0) (qa ++ [l])) lo g ro (vview (segs vm0) qb)) as Hat.
  { split; try done. rewrite vview_app, (vview_cons _ l lg) by done.
    unfold vview at 2. simpl. by rewrite last_snoc. }
  split_and!; [done|..].
  - apply layout_merge; try done; [|by rewrite <-Hseg0; apply Hok]. intros _. apply Hat.
  - apply span_ptrs_nonspan.
    + intros x Hx. apply (lk_live _ _ _ _ (ok_linked _ _ _ Hok)). rewrite Hq0. set_solver.
    + intros x. rewrite Hold. rewrite elem_of_app, elem_of_cons.
      intros [Hx|[->|Hx]]; [|by apply alloc_nonspan|]; apply free_nonspan.
      * destruct lo; simpl in Hx; [apply list_elem_of_singleton in Hx as ->; auto|set_solver].
      * destruct ro; simpl in Hx; [apply list_elem_of_singleton in Hx as ->; auto|set_solver].
Qed.

Lemma relist_when_ok vm0 L q1 p q2 g listed vm :
  freeing vm0 L q1 p q2 g listed vm →
  wp (when (negb listed) (g ← seg_at p; seg_set p (Seg kVMemSegFree (base g) (size g));; freelist_insert p))
    (λ _ vm', freeing vm0 L q1 p q2 (Seg kVMemSegFree (base g) (size g)) true vm') vm.
Proof.
  intros Hf. rewrite wp_when. destruct listed; simpl.
  - pose proof (fr_free _ _ _ _ _ _ _ _ Hf eq_refl) as Ht. by destruct g; simpl in *; subst.
  - unfold seg_at. wp_simp. exists g. split; [apply (fr_seg _ _ _ _ _ _ _ _ Hf)|].
    by apply relist_ok.
Qed.

(** From the coalesced state to the end of [vmem_xfree]. *)
Lemma xfree_end top L vm0 g lo ro qa l qold qb p2 g2 listed vm freefn flags :
  arena_ok top L vm0 → uniform_spans (segments vm0) → is_alloc g = true →
  coalesced vm0 L g lo ro qa l qold qb p2 g2 listed vm → nofree_head (vview (segs vm0) qb) →
  wp (coalesced ← release_span freefn p2 listed flags;
      when (negb coalesced) (
        g2 ← seg_at p2;
        seg_set p2 (Seg kVMemSegFree (base g2) (size g2));;
        freelist_insert p2))
    (λ _ vm', arena_ok top L vm' ∧ used vm' = used vm0 ∧
      freed freefn (base g) flags (segments vm0) (source vm0) (segments vm') (source vm')) vm.
Proof.
  intros Hok Huni Ha Hco Hnf.
  destruct (coalesced_layout _ _ _ _ _ _ _ _ _ _ _ _ _ _ Hok Ha Hco Hnf) as (Hat & Hlay & Hspn).
  destruct Hco as [Hq0 _ _ _ (lg & Hlg & _) Hg2 Hf].
  assert (size g2 = size (merged lo ro g)) as Hsz2 by (by rewrite <-Hg2).
  rewrite wp_bind. eapply wp_mono.
  { eapply (release_span_ok top vm0 L qa l qold p2 qb g2 lg listed); try done; [by rewrite Hg2|].
    intros Himp Hsize r Hr. destruct qb as [|r' qb]; simplify_eq/=.
    assert (is_Some (segs vm0 !! r)) as [rg Hrg].
    { apply (lk_live _ _ _ _ (ok_linked _ _ _ Hok)). rewrite Hq0. set_solver. }
    exists rg. split; [done|]. assert (is_span lg = true) by (unfold is_span; by rewrite Himp).
    rewrite vview_app, (vview_cons _ l lg), (vview_cons _ r rg), <-app_assoc in Hlay by done.
    apply layout_full_span in Hlay; [|done..|simpl in *; lia]. rewrite <-Himp.
    apply Huni; try done; apply segments_elem; rewrite Hq0; [exists r|exists l]; set_solver. }
  simpl. intros c vm1 Hc.
  destruct (bool_decide (type lg = kVMemSegSpanImported) && (size g2 =? size lg)) eqn:Erel.
  - destruct Hc as (-> & Hok1 & Hseg1 & Hu1 & Hs1). wp_simp. simpl. split_and!; try done.
    apply andb_true_iff in Erel as [Himp%bool_decide_eq_true_1 Hsize%Z.eqb_eq].
    rewrite Hseg1, Hs1. apply (freed_released _ _ _ _ _ _ lg lo g ro); [|done|congruence].
    by rewrite vview_app, (vview_cons _ l lg) in Hat by done.
  - destruct Hc as [-> ->]. eapply wp_mono; [by apply relist_when_ok|].
    simpl. intros _ vm2 Hf2. rewrite Hg2 in Hf2.
    destruct (free_finish top vm0 L (qa ++ [l]) qold p2 qb (merged lo ro g) vm2) as [Hok2 Hseg2]; try done.
    split_and!; [done|apply Hf2|]. rewrite Hseg2, (fr_source _ _ _ _ _ _ _ _ Hf2).
    constructor; [done|]. rewrite vview_app, (vview_cons _ l lg) by done.
    unfold vview at 2. simpl. rewrite last_snoc. intros ? [= <-] Himp Hsize.
    rewrite Himp, bool_decide_eq_true_2 in Erel by done. simpl in *. lia.
Qed.

Lemma arena_set_used top L x vm : arena_ok top L vm → arena_ok top L (set_used x vm).
Proof. intros [? [] ? ?]. split; done. Qed.

(** An address has at most one allocation. *)
Lemma arena_alloc_unique top L vm g h :
  arena_ok top L vm → g ∈ segments vm → h ∈ segments vm →
  is_alloc g = true → is_alloc h = true → base g = base h → g = h.
Proof.
  intros Hok Hg Hh Hga Hha Hb. pose proof (ok_top _ _ _ Hok).
  assert (∀ x, x ∈ segments vm → 0 < size x) as Hpos.
  { intros x (p & Hp & Hx)%segments_elem.
    destruct (arena_seg _ _ _ _ Hok Hp) as (_ & _ & x' & _ & ? & _ & _ & ? & _). by simplify_eq. }
  pose proof (Hpos g Hg). pose proof (Hpos h Hh).
  eapply (layout_overlap top _ _ _ (base g)); [apply Hok|lia|done|done|by apply alloc_nonspan..|lia|lia].
Qed.

Lemma xfree_ok top L vm freefn addr sz flags g :
  arena_ok top L vm → uniform_spans (segments vm) →
  g ∈ segments vm → is_alloc g = true → base g = addr → sz = 0 ∨ sz = size g →
  wp (vmem_xfree freefn addr sz flags) (λ r vm', r = i32 (size g) ∧ arena_ok top L vm' ∧
    used vm' = u64 (used vm - size g) ∧
    freed freefn addr flags (segments vm) (source vm) (segments vm') (source vm')) vm.
Proof.
  intros Hok Huni Hg Ha Hb Hsz. unfold vmem_xfree. rewrite wp_bind, wp_get, wp_bind, wp_deref.
  pose proof (hashtab_lookup _ _ _ addr Hok) as Hfind.
  destruct (find_by_base _ _ _) as [[p|]|]; [|by destruct (Hfind g)|done].
  destruct Hfind as ([Hp _] & g' & Hpg & Ha' & Hb').
  destruct (arena_seg _ _ _ _ Hok Hp) as (q1 & q2 & g0 & Hq & ? & Hseg & Hrange). simplify_eq.
  assert (g' = g) as ->.
  { eapply arena_alloc_unique; try done. apply segments_elem. eauto. }
  eexists. split; [done|]. rewrite wp_bind, wp_deref. eexists. split; [done|].
  rewrite wp_bind. unfold seg_at at 1. rewrite wp_bind, wp_get, wp_deref. exists g. split; [done|].
  rewrite wp_bind, wp_kassert. split; [destruct Hsz; subst; simpl; lia|].
  rewrite wp_bind. eapply wp_mono; [by eapply xfree_start|]. simpl. intros _ vm1 Hf.
  rewrite wp_bind. eapply wp_mono; [by eapply coalesce_left_spec|].
  simpl. intros [p1 c1] vm2 (lo & qa & l & qold & g1 & Hco & _ & Hg1 & Hsum). simpl in Hco.
  rewrite wp_bind. eapply wp_mono; [by eapply coalesce_right_spec|].
  simpl. intros [p2 c2] vm3 (ro & qold' & qb & g2 & Hco2 & Hnf). simpl in Hco2.
  pose proof (xfree_end _ _ _ _ _ _ _ _ _ _ _ _ _ _ freefn flags Hok Huni Ha Hco2 Hnf) as Hend.
  rewrite wp_bind in Hend. rewrite wp_bind. eapply wp_mono; [exact Hend|]. simpl. intros c vm4 Hend'.
  rewrite wp_bind. eapply wp_mono; [exact Hend'|]. simpl. intros _ vm5 (Hok5 & Hu5 & Hfreed).
  wp_simp. simpl. split_and!; try done; [by apply arena_set_used|congruence].
Qed.

(** Freeing what is not allocated stops the machine. *)
Lemma xfree_bad_addr top L vm freefn addr sz flags :
  arena_ok top L vm → (∀ g, g ∈ segments vm → is_alloc g = true → base g ≠ addr) →
  ∃ why, vmem_xfree freefn addr sz flags vm = Fatal why.
Proof.
  intros Hok Hno. pose proof (hashtab_lookup _ _ _ addr Hok) as Hfind.
  unfold vmem_xfree, mbind, kern_bind, get, deref at 1. cbn -[find_by_base].
  destruct (find_by_base _ _ _) as [[p|]|]; [..|done].
  - destruct Hfind as ([Hp _] & g & Hg & Ha & Hb). exfalso. apply (Hno g); try done.
    apply segments_elem. eauto.
  - simpl. eauto.
Qed.

(** So does freeing with the wrong size. *)
Lemma xfree_bad_size top L vm freefn addr sz flags g :
  arena_ok top L vm → g ∈ segments vm → is_alloc g = true → base g = addr →
  sz ≠ 0 → sz ≠ size g → ∃ why, vmem_xfree freefn addr sz flags vm = Fatal why.
Proof.
  intros Hok Hg Ha Hb Hsz0 Hsz. pose proof (hashtab_lookup _ _ _ addr Hok) as Hfind.
  unfold vmem_xfree, mbind, kern_bind, get, deref at 1. cbn -[find_by_base].
  destruct (find_by_base _ _ _) as [[p|]|]; [|by destruct (Hfind g)|done].
  destruct Hfind as ([Hp _] & g' & Hg' & Ha' & Hb').
  assert (g' = g) as ->.
  { apply (arena_alloc_unique top L vm); try done; [|congruence]. apply segments_elem. eauto. }
  unfold seg_at, mbind, kern_bind, get, deref. simpl. rewrite Hg'. simpl. unfold kassert.
  replace ((sz =? 0) || (size g =? sz)) with false by lia. simpl. eauto.
Qed.
End free.
