(* ===== verification/VmemTheorems.v ===== *)
(** What a VMem arena promises its clients (kernel/vm/vmem.c): the arena as a
    set of live, disjoint ranges; allocation and freeing refine that view; the
    invariant holds in every reachable state. *)
From S2P Require Import Prelude Vmem VmemSpec VmemProofs VmemAlloc VmemFree.
Import Vmem.
Local Open Scope Z_scope.

(** ** The abstract view: the live allocations *)

Definition live (V : list vmem_seg) : list (Z * Z) :=
  (λ g, (base g, size g)) <$> filter (λ g, is_alloc g = true) V.

Definition disjoint_from (a sz : Z) (R : list (Z * Z)) : Prop :=
  ∀ b s, (b, s) ∈ R → b + s ≤ a ∨ a + sz ≤ b.

Lemma live_app V1 V2 : live (V1 ++ V2) = live V1 ++ live V2.
Proof. unfold live. by rewrite filter_app, fmap_app. Qed.
Lemma live_alloc g V : is_alloc g = true → live (g :: V) = (base g, size g) :: live V.
Proof. intros Hg. unfold live. by rewrite filter_cons_True. Qed.
Lemma live_other g V : is_alloc g = false → live (g :: V) = live V.
Proof. intros Hg. unfold live. rewrite filter_cons_False; [done|]. by rewrite Hg. Qed.
Lemma live_elem b s V : (b, s) ∈ live V ↔ ∃ g, g ∈ V ∧ is_alloc g = true ∧ base g = b ∧ size g = s.
Proof.
  unfold live. rewrite list_elem_of_fmap. setoid_rewrite list_elem_of_filter. naive_solver.
Qed.
Lemma free_not_alloc g : is_free g = true → is_alloc g = false.
Proof. unfold is_free, is_alloc. by intros ->%bool_decide_eq_true_1. Qed.

Lemma live_split g a sz : live (split_pieces g a sz) = [(a, sz)].
Proof.
  unfold split_pieces, piece_left, piece_right. rewrite live_app, live_alloc by done.
  by destruct (base g <? a), (a + sz <? base g + size g).
Qed.

Lemma live_alloc_step sz align min flags a V V' :
  alloc_step sz align min flags a V V' → live V' ≡ₚ (a, sz) :: live V.
Proof.
  intros [V1 g V2 Hf _]. rewrite !live_app, live_split, (live_other g) by by apply free_not_alloc.
  simpl. by rewrite Permutation_middle.
Qed.
Lemma live_import_step sz a V V' : import_step sz a V V' → live V' ≡ₚ (a, sz) :: live V.
Proof.
  intros [V1 V2]. rewrite !live_app. change (live [_; _]) with [(a, sz)].
  simpl. by rewrite Permutation_middle.
Qed.
Lemma live_opt_free (o : option vmem_seg) :
  (∀ x, o = Some x → is_free x = true) → live (option_list o) = [].
Proof. destruct o as [x|]; [|done]. intros Hx. apply live_other, free_not_alloc. auto. Qed.

Lemma live_freed {Src} freefn addr flags V (src : Src) V' src' :
  freed freefn addr flags V src V' src' →
  ∃ g, g ∈ V ∧ is_alloc g = true ∧ base g = addr ∧ live V ≡ₚ (addr, size g) :: live V'.
Proof.
  assert (∀ V1 lo g ro V2, free_at addr V V1 lo g ro V2 →
    g ∈ V ∧ is_alloc g = true ∧ base g = addr ∧ live V ≡ₚ (addr, size g) :: live V1 ++ live V2) as Hat.
  { intros V1 lo g ro V2 [-> Ha <- Hlo Hro _ _]. split_and!; try done.
    { rewrite !elem_of_app, elem_of_cons. auto. }
    rewrite !live_app, live_alloc, live_app, !live_opt_free by done. simpl.
    by rewrite Permutation_middle. }
  intros [V1 lo g ro V2 H _|V1 s lo g ro V2 H Ht _]; exists g;
    destruct (Hat _ _ _ _ _ H) as (? & ? & ? & HP); split_and!; try done; rewrite HP, !live_app.
  - by rewrite live_other.
  - rewrite (live_other s []) by (unfold is_alloc; by rewrite Ht). by rewrite app_nil_r.
Qed.

Lemma alloc_bytes_live V : alloc_bytes V = foldr (λ r acc, r.2 + acc) 0 (live V).
Proof.
  induction V as [|g V IH]; [done|]. simpl. destruct (is_alloc g) eqn:E.
  - rewrite live_alloc by done. simpl. lia.
  - rewrite live_other by done. lia.
Qed.

(** Total size of the live ranges, permutation invariant. *)
Definition total (R : list (Z * Z)) : Z := foldr (λ r acc, r.2 + acc) 0 R.
Global Instance total_perm : Proper ((≡ₚ) ==> (=)) total.
Proof. intros R R'. induction 1; simpl in *; lia. Qed.

(** ** Disjointness *)

Lemma live_disjoint top V1 g V2 :
  layout top (V1 ++ g :: V2) → 0 ≤ top → is_span g = false →
  disjoint_from (base g) (size g) (live (V1 ++ V2)).
Proof.
  intros Hl Ht Hg b s (h & Hh & Ha & <- & <-)%live_elem. apply alloc_nonspan in Ha.
  apply elem_of_app in Hh as [(W1 & W2 & ->)%list_elem_of_split|(W1 & W2 & ->)%list_elem_of_split].
  - rewrite <-app_assoc in Hl. simpl in Hl. apply layout_disjoint in Hl; try done. by left.
  - apply layout_disjoint in Hl; try done. by right.
Qed.

(** No two live ranges overlap. *)
Fixpoint pairwise_disjoint (R : list (Z * Z)) : Prop :=
  match R with
  | [] => True
  | (b, s) :: R' => disjoint_from b s R' ∧ pairwise_disjoint R'
  end.

Lemma layout_live_pairwise top V : layout top V → 0 ≤ top → pairwise_disjoint (live V).
Proof.
  intros Hl Ht. change V with ([] ++ V) in Hl. revert Hl. generalize (@nil vmem_seg) as V1.
  induction V as [|g V IH]; intros V1 Hl; [done|]. destruct (is_alloc g) eqn:E.
  - rewrite live_alloc by done. split.
    + apply live_disjoint in Hl; [|done|by apply alloc_nonspan]. intros b s Hb. apply Hl.
      rewrite live_app. set_solver.
    + apply (IH (V1 ++ [g])). by rewrite <-app_assoc.
  - rewrite live_other by done. apply (IH (V1 ++ [g])). by rewrite <-app_assoc.
Qed.

Lemma alloc_step_disjoint top sz align min flags a V V' :
  alloc_step sz align min flags a V V' → layout top V' → 0 ≤ top → disjoint_from a sz (live V).
Proof.
  intros [V1 g V2 Hf _] Hl Ht. unfold split_pieces in Hl. rewrite <-app_assoc, (app_assoc V1) in Hl.
  apply (live_disjoint _ _ (Seg kVMemSegAllocated a sz)) in Hl; [|done..].
  intros b s Hb. apply Hl. rewrite !live_app in *. rewrite (live_other g) in Hb by by apply free_not_alloc.
  set_solver.
Qed.
Lemma import_step_disjoint top sz a V V' :
  import_step sz a V V' → layout top V' → 0 ≤ top → disjoint_from a sz (live V).
Proof.
  intros [V1 V2] Hl Ht. change ([?x; ?y] ++ V2) with ([x] ++ y :: V2) in Hl.
  rewrite app_assoc in Hl. apply live_disjoint in Hl; [|done..].
  intros b s Hb. apply Hl. rewrite !live_app in *. set_solver.
Qed.
Lemma alloc_step_aligned sz align min flags a V V' :
  alloc_step sz align min flags a V V' → align ≠ 0 → a mod align = 0.
Proof. intros [V1 g V2 _ (_ & _ & Hal & _)]. done. Qed.

Lemma alloc_step_elem sz align min flags a V V' :
  alloc_step sz align min flags a V V' → Seg kVMemSegAllocated a sz ∈ V'.
Proof. intros [V1 g V2 _ _]. unfold split_pieces. rewrite !elem_of_app, elem_of_cons. auto. Qed.

Section theorems.
Context {Src : Type}.
Implicit Types vm : vmem Src.

Lemma used_grows vm vm' a sz :
  used_ok vm → used vm' = u64 (used vm + sz) →
  live (segments vm') ≡ₚ (a, sz) :: live (segments vm) → used_ok vm'.
Proof.
  unfold used_ok. rewrite !alloc_bytes_live. fold (total (live (segments vm))) (total (live (segments vm'))).
  intros Hu -> ->. rewrite Hu. simpl. unfold u64. rewrite Zplus_mod_idemp_l. f_equal. lia.
Qed.
Lemma used_shrinks vm vm' a sz :
  used_ok vm → used vm' = u64 (used vm - sz) →
  live (segments vm) ≡ₚ (a, sz) :: live (segments vm') → used_ok vm'.
Proof.
  unfold used_ok. rewrite !alloc_bytes_live. fold (total (live (segments vm))) (total (live (segments vm'))).
  intros Hu -> Hp. rewrite Hu, Hp. simpl. unfold u64. rewrite Zminus_mod_idemp_l. f_equal. lia.
Qed.

(** ** Creating an arena *)

(** The pool of spare structures is in order. *)
Definition pool_ok vm : Prop :=
  NoDup (free_segs vm) ∧ (∀ p, p ∈ free_segs vm → (p < next_seg vm)%nat) ∧
  nfreesegs vm = Z.of_nat (length (free_segs vm)).

(** An arena without segments over a pool in order. *)
Lemma empty_arena_ok top vm :
  0 ≤ top < 2 ^ 64 → pool_ok vm → segqueue vm = [] → spanlist vm = [] →
  freelists vm = replicate kNFreeLists [] → hashtab vm = replicate kNHashBuckets [] →
  arena_ok top [] vm.
Proof.
  intros Ht (Hnd & Hlt & Hn) Hq Hs Hf Hh.
  assert (∀ n key F, (∀ p, ¬ F p) → bucket_ok n key F (segs vm) (replicate n [])) as Hb.
  { intros n key F HF. assert (∀ k, replicate n (@nil nat) !!! k = []) as Hrep.
    { intros k. rewrite list_lookup_total_alt. destruct (replicate n [] !! k) eqn:E; [|done].
      by apply lookup_replicate in E as [-> _]. }
    split; [by rewrite length_replicate|..]; intros k; rewrite Hrep; [|constructor].
    intros p. split; [set_solver|]. intros [Hp _]. by destruct (HF p). }
  split; [done|split|..].
  - rewrite Hf. apply Hb. intros p [Hp _]. rewrite Hq in Hp. set_solver.
  - rewrite Hh. apply Hb. intros p [Hp _]. rewrite Hq in Hp. set_solver.
  - by rewrite Hq.
  - rewrite Hq. set_solver.
  - by rewrite Hq.
  - done.
  - by rewrite Hs, Hq.
  - unfold segments. rewrite Hq. by eexists.
Qed.

Lemma seg_block_free_pool n vm :
  pool_ok vm → wp (seg_block_free n) (λ _ vm', pool_ok vm' ∧
    nfreesegs vm' = nfreesegs vm + Z.of_nat n) vm.
Proof.
  revert vm. induction n as [|n IH]; intros vm Hp; simpl.
  { wp_simp. split; [done|lia]. }
  unfold seg_set, seg_free. wp_simp. simpl.
  match goal with |- wp _ _ ?v => set (vm1 := v) end. destruct Hp as (Hnd & Hlt & Hn).
  assert (pool_ok vm1) as Hp1.
  { split_and!; simpl; [|intros p [->|Hp]%elem_of_cons; [lia|]; apply Hlt in Hp; lia|lia].
    constructor; [|done]. intros Hin. apply Hlt in Hin. lia. }
  eapply wp_mono; [by apply IH|]. simpl. intros _ vm' [Hp' Hn']. split; [done|].
  rewrite Hn'. subst vm1. simpl. lia.
Qed.

Lemma vmem_init_ok top b sz quant flags vm :
  0 ≤ top < 2 ^ 64 → pool_ok vm → 2 ≤ nfreesegs vm → 0 ≤ b → 0 < sz → b + sz ≤ top →
  wp (vmem_init b sz quant flags false) (λ _ vm', arena_ok top [] vm' ∧ used vm' = 0 ∧
    segments vm' = [Seg kVMemSegSpan b sz; Seg kVMemSegFree b sz]) vm.
Proof.
  intros Ht Hp Hn Hb Hsz Hbt. unfold vmem_init. wp_simp.
  replace (negb (sz =? 0) && negb false) with true by lia. wp_simp.
  match goal with |- wp _ _ ?v => set (vm1 := v) end.
  eapply wp_mono; [apply (vmem_add_internal_ok top []); try done|].
  - by apply empty_arena_ok.
  - intros g Hg. set_solver.
  - simpl. intros r vm' (_ & Hok & (q1 & q2 & n & Hseg & Hq & Hn' & Hf) & Hu & _). wp_simp.
    split_and!; try done. unfold segments.
    rewrite Hq, vview_app, (vview_cons _ _ _ _ Hn'), (vview_cons _ _ _ _ Hf).
    symmetry in Hseg. by apply app_nil in Hseg as [-> ->].
Qed.

(** ** Freeing undoes allocating *)

(** A cut of a layout at an allocation is determined by the address. *)
Lemma layout_cut_unique top X g Y X' g' Y' :
  layout top (X ++ g :: Y) → 0 ≤ top → X ++ g :: Y = X' ++ g' :: Y' →
  is_span g = false → is_span g' = false → base g = base g' → X = X' ∧ g = g' ∧ Y = Y'.
Proof.
  intros Hl Ht Heq Hg Hg' Hb.
  apply app_eq_inv in Heq as [(W & HX & HW)|(W & HX & HW)]; destruct W as [|h W]; simplify_eq/=.
  1, 3: by rewrite app_nil_r.
  - rewrite <-app_assoc in Hl. simpl in Hl. pose proof Hl as Hr. apply layout_disjoint in Hl; try done.
    apply layout_seg_range in Hr; [|done]. lia.
  - pose proof Hl as Hr. apply layout_disjoint in Hl; try done.
    apply layout_seg_range in Hr; [|done]. lia.
Qed.

Definition all_free (o : option vmem_seg) : Prop := ∀ x, o = Some x → is_free x = true.

Lemma cut_left V W x y :
  V ++ option_list x = W ++ option_list y → all_free x → all_free y →
  from_option is_free false (last V) = false → from_option is_free false (last W) = false →
  V = W ∧ x = y.
Proof.
  unfold all_free. destruct x as [x|], y as [y|]; simpl; rewrite ?app_nil_r.
  - intros [-> ?]%app_inj_tail. naive_solver.
  - intros <- Hx _ _. rewrite last_snoc. simpl. rewrite Hx; done.
  - intros -> _ Hy. rewrite last_snoc. simpl. rewrite Hy; done.
  - done.
Qed.
Lemma cut_right V W x y :
  option_list x ++ V = option_list y ++ W → all_free x → all_free y →
  nofree_head V → nofree_head W → V = W ∧ x = y.
Proof.
  unfold all_free. destruct x as [x|], y as [y|]; simpl.
  - naive_solver.
  - intros <- Hx _ _. simpl. rewrite Hx; done.
  - intros -> _ Hy. simpl. rewrite Hy; done.
  - done.
Qed.

Lemma layout_free_neighbours top V1 g V2 :
  layout top (V1 ++ g :: V2) → is_free g = true →
  from_option is_free false (last V1) = false ∧ nofree_head V2.
Proof.
  intros Hl Hg. pose proof (free_nonspan _ Hg) as Hns. split.
  - destruct (last V1) as [x|] eqn:E; [|done]. simpl. apply last_Some in E as (V & ->).
    rewrite <-app_assoc in Hl. apply layout_adjacent in Hl as [_ Hf]; [|done].
    destruct (is_free x); [|done]. specialize (Hf eq_refl). congruence.
  - destruct V2 as [|y V2]; [done|]. simpl. destruct (is_free y) eqn:E; [|done].
    apply layout_adjacent in Hl as [_ Hf]; [|by apply free_nonspan]. rewrite Hf in E; done.
Qed.

Lemma freed_alloc_step {T} freefn top sz align min flags flags' a V V' W (src src' : T) :
  layout top V → layout top V' → 0 ≤ top → 0 < sz → alloc_step sz align min flags a V V' →
  (∀ s, s ∈ V → type s ≠ kVMemSegSpanImported) →
  freed freefn a flags' V' src W src' → W = V ∧ src' = src.
Proof.
  intros Hl Hl' Ht Hsz Hstep Himp Hfreed. inversion Hstep as [V1 g V2 Hf (Hlo & Hhi & _)]; subst V V'.
  assert (∀ W1 lo h ro W2, free_at a (V1 ++ split_pieces g a sz ++ V2) W1 lo h ro W2 →
    W1 = V1 ∧ W2 = V2 ∧ merged lo ro h = g) as Hat.
  { intros W1 lo h ro W2 [Heq Ha Hb Hlof Hrof Hleft Hright].
    destruct (layout_free_neighbours _ _ _ _ Hl Hf) as [HlV HrV].
    unfold split_pieces in *. rewrite <-app_assoc, app_assoc, (app_assoc W1) in Heq.
    rewrite <-app_assoc, app_assoc in Hl'. simpl in *.
    apply (layout_cut_unique top) in Heq as (HX & <- & HY); try done; [|by apply alloc_nonspan].
    replace (piece_left g a) with (option_list (head (piece_left g a))) in HX
      by (unfold piece_left; by destruct (base g <? a)).
    replace (piece_right g a sz) with (option_list (head (piece_right g a sz))) in HY
      by (unfold piece_right; by destruct (a + sz <? base g + size g)).
    apply cut_left in HX as [-> <-]; try done.
    2: { unfold piece_left. destruct (base g <? a); [|done]. by intros ? [= <-]. }
    apply cut_right in HY as [-> <-]; try done.
    2: { unfold piece_right. destruct (a + sz <? _); [|done]. by intros ? [= <-]. }
    split_and!; try done. by apply merged_split. }
  destruct Hfreed as [W1 lo h ro W2 Hfa _|W1 s lo h ro W2 Hfa Hs _].
  - by destruct (Hat _ _ _ _ _ Hfa) as (-> & -> & ->).
  - destruct (Hat _ _ _ _ _ Hfa) as (<- & _). destruct (Himp s); [set_solver|done].
Qed.

(** ** The theorems *)

(** C1. [vmem_xalloc], in a well-formed arena with segment structures in supply, returns.
    On success the arena's invariant holds, the live allocations are the old ones plus
    [a, a + sz), that range meets no live allocation, and it was taken from a free
    segment at an address the request accepts (aligned, and the requested one under
    [kVMemExact]).  When no free segment could take it, it is from a span imported for it,
    and then the alignment and the address that were asked for play no part.  On failure no
    free segment could take the request and the segments are unchanged; the two segment
    structures [l] and [r], which were taken for a split, are lost.  The [used] counter
    stays exact. *)
Theorem vmem_xalloc_correct top L allocfn freefn vm sz align nocross min flags :
  arena_ok top L vm → used_ok vm → request_ok top sz align min →
  (min = 0 ∨ has_flag flags kVMemExact = true) → supply_ok flags vm →
  import_ok top sz flags allocfn vm →
  wp (vmem_xalloc allocfn freefn sz align 0 nocross min 0 flags) (λ res vm',
    used_ok vm' ∧
    match res with
    | inr a =>
        arena_ok top L vm' ∧ live (segments vm') ≡ₚ (a, sz) :: live (segments vm) ∧
        disjoint_from a sz (live (segments vm)) ∧
        (alloc_step sz align min flags a (segments vm) (segments vm') ∨
         allocfn ≠ None ∧ nothing_fits sz align min flags (segments vm) ∧
         import_step sz a (segments vm) (segments vm'))
    | inl e =>
        e < 0 ∧ nothing_fits sz align min flags (segments vm) ∧
        segments vm' = segments vm ∧ ∃ l r, arena_ok top (l :: r :: L) vm'
    end) vm.
Proof.
  intros Hok Hu Hreq Hex Hs Hi. eapply wp_mono; [by eapply xalloc_ok|]. simpl.
  intros [e|a] vm'; simpl.
  - intros (? & ? & Hseg & Hu' & ? & _). split; [|done]. unfold used_ok in *. congruence.
  - intros (Hok' & Hu' & Hstep). pose proof (ok_top _ _ _ Hok) as Ht.
    destruct Hstep as [[Hstep _]|(Hno & Hstep & alloc & r & -> & _)].
    + pose proof (live_alloc_step _ _ _ _ _ _ _ Hstep).
      split; [by eapply used_grows|]. split_and!; try done; [|by left].
      eapply alloc_step_disjoint; [done|apply Hok'|lia].
    + pose proof (live_import_step _ _ _ _ Hstep).
      split; [by eapply used_grows|]. split_and!; try done; [|by right].
      eapply import_step_disjoint; [done|apply Hok'|lia].
Qed.

(** C2. [vmem_xfree] of a live allocation always returns its size (as an [int]),
    keeps the invariant, removes exactly that allocation from the live ones, and
    coalesces it with both free neighbours, giving an imported span that became
    wholly free back to the source.  The [used] counter stays exact. *)
Theorem vmem_xfree_correct top L vm freefn addr sz flags g :
  arena_ok top L vm → used_ok vm → uniform_spans (segments vm) →
  g ∈ segments vm → is_alloc g = true → base g = addr → sz = 0 ∨ sz = size g →
  wp (vmem_xfree freefn addr sz flags) (λ r vm',
    r = i32 (size g) ∧ arena_ok top L vm' ∧ used_ok vm' ∧
    live (segments vm) ≡ₚ (addr, size g) :: live (segments vm') ∧
    freed freefn addr flags (segments vm) (source vm) (segments vm') (source vm')) vm.
Proof.
  intros Hok Hu Huni Hg Ha Hb Hsz. eapply wp_mono; [by eapply xfree_ok|]. simpl.
  intros r vm' (-> & Hok' & Hu' & Hfreed).
  assert (live (segments vm) ≡ₚ (addr, size g) :: live (segments vm')) as Hlive.
  { destruct (live_freed _ _ _ _ _ _ _ Hfreed) as (g' & Hg' & Ha' & Hb' & Hp).
    assert (g' = g) as ->; [|done]. apply (arena_alloc_unique top L vm); try done. congruence. }
  split_and!; try done. by eapply used_shrinks.
Qed.
End theorems.

(** ** Round trip and reachable states *)

Definition not_imported (V : list vmem_seg) : Prop := ∀ s, s ∈ V → type s ≠ kVMemSegSpanImported.

Lemma not_imported_uniform V : not_imported V → uniform_spans V.
Proof.
  intros Hn s t Hs Ht. specialize (Hn s Hs) as Hs'. specialize (Hn t Ht) as Ht'.
  unfold is_span. by destruct (type s), (type t).
Qed.
Lemma not_imported_alloc sz align min flags a V V' :
  alloc_step sz align min flags a V V' → not_imported V → not_imported V'.
Proof.
  intros [V1 g V2 _ _] Hn s Hs. rewrite !elem_of_app in Hs.
  destruct Hs as [?|[Hs|?]]; [apply Hn; set_solver| |apply Hn; set_solver].
  unfold split_pieces, piece_left, piece_right in Hs.
  destruct (base g <? a), (a + sz <? base g + size g); simpl in Hs;
    repeat (apply elem_of_cons in Hs as [->|Hs]; [done|]); by apply not_elem_of_nil in Hs.
Qed.
Lemma not_imported_freed {Src} freefn addr flags V (src : Src) V' src' :
  freed freefn addr flags V src V' src' → not_imported V → not_imported V'.
Proof.
  intros [V1 lo g ro V2 [-> _ _ _ _ _ _] _|V1 s lo g ro V2 [-> _ _ _ _ _ _] _ _] Hn x Hx.
  - rewrite elem_of_app, elem_of_cons in Hx. destruct Hx as [?|[->|?]]; [|done|]; apply Hn; set_solver.
  - apply Hn. set_solver.
Qed.

(** C9. Freeing an allocation right after making it restores the arena's segments
    exactly, and its [used] counter. *)
Theorem vmem_alloc_free_roundtrip top L (vm : vmem ()) sz align nocross min flags flags' :
  arena_ok top L vm → used vm = u64 (used vm) → not_imported (segments vm) →
  request_ok top sz align min → (min = 0 ∨ has_flag flags kVMemExact = true) → supply_ok flags vm →
  wp (vmem_xalloc no_alloc no_free sz align 0 nocross min 0 flags) (λ res vm1,
    ∀ a, res = inr a →
      wp (vmem_xfree no_free a sz flags') (λ _ vm2,
        segments vm2 = segments vm ∧ used vm2 = used vm ∧ arena_ok top L vm2) vm1) vm.
Proof.
  intros Hok Hu Hn Hreq Hex Hs. pose proof (ok_top _ _ _ Hok) as Ht. pose proof Hreq as (Hsz & _).
  eapply wp_mono; [by eapply (xalloc_ok top L no_alloc)|]. simpl.
  intros res vm1 Hres a ->. simpl in Hres.
  destruct Hres as (Hok1 & Hu1 & [[Hstep _]|(_ & _ & alloc & _ & Hx & _)]); [|done].
  pose proof (not_imported_alloc _ _ _ _ _ _ _ Hstep Hn) as Hn1.
  eapply wp_mono.
  { apply (xfree_ok top L vm1 no_free a sz flags' (Seg kVMemSegAllocated a sz)); try done.
    - by apply not_imported_uniform.
    - by eapply alloc_step_elem.
    - by right. }
  simpl. intros r vm2 (_ & Hok2 & Hu2 & Hfreed). split_and!; [| |done].
  - apply (freed_alloc_step no_free top sz align min flags flags' a (segments vm) (segments vm1) _ (source vm1) (source vm2))
      in Hfreed as [? _]; try done; [apply Hok|apply Hok1|lia].
  - rewrite Hu2, Hu1, Hu. unfold u64. rewrite Zminus_mod_idemp_l.
    replace (used vm mod 2 ^ 64 + sz - sz) with (used vm mod 2 ^ 64) by lia.
    by rewrite Z.mod_mod by lia.
Qed.

(** The states of an arena that is created over a fresh pool and then added to,
    allocated from and freed into, with requests that respect [top]. *)
Inductive vmem_reach (top : Z) : vmem () → Prop :=
  | reach_init k b sz quant flags vm :
      0 ≤ b → 0 < sz → b + sz ≤ top → top < 2 ^ 64 →
      (vmem_earlyinit;; vmem_init b sz quant flags false) (pool0 k ()) = Ok ((), vm) →
      vmem_reach top vm
  | reach_add b sz r vm vm' :
      vmem_reach top vm → 0 ≤ b → 0 < sz → b + sz ≤ top → span_room b sz (segments vm) →
      2 ≤ nfreesegs vm → vmem_add b sz vm = Ok (r, vm') → vmem_reach top vm'
  | reach_alloc sz align nocross min flags r vm vm' :
      vmem_reach top vm → request_ok top sz align min → (min = 0 ∨ has_flag flags kVMemExact = true) →
      supply_ok flags vm →
      vmem_xalloc no_alloc no_free sz align 0 nocross min 0 flags vm = Ok (r, vm') → vmem_reach top vm'
  | reach_free addr sz flags r vm vm' :
      vmem_reach top vm → vmem_xfree no_free addr sz flags vm = Ok (r, vm') → vmem_reach top vm'.

Definition arena_inv (top : Z) (vm : vmem ()) : Prop :=
  (∃ L, arena_ok top L vm) ∧ used_ok vm ∧ not_imported (segments vm).

Lemma inv_init top k b sz quant flags :
  0 ≤ b → 0 < sz → b + sz ≤ top → top < 2 ^ 64 →
  wp (vmem_earlyinit;; vmem_init b sz quant flags false) (λ _ vm', arena_ok top [] vm' ∧ used vm' = 0 ∧
    segments vm' = [Seg kVMemSegSpan b sz; Seg kVMemSegFree b sz]) (pool0 k ()).
Proof.
  intros ????. unfold vmem_earlyinit. rewrite wp_bind. eapply wp_mono.
  { apply seg_block_free_pool. split_and!; simpl; [constructor|set_solver|done]. }
  intros _ vm [Hp Hn]. change (nfreesegs (pool0 k ())) with 0 in Hn. apply vmem_init_ok; try done; lia.
Qed.

Lemma inv_add top b sz vm :
  arena_inv top vm → 0 ≤ b → 0 < sz → b + sz ≤ top → span_room b sz (segments vm) → 2 ≤ nfreesegs vm →
  wp (vmem_add b sz) (λ r vm', r = 0 ∧ arena_inv top vm' ∧ live (segments vm') = live (segments vm)) vm.
Proof.
  intros ((L & Hok) & Hu & Hn) Hb Hsz Ht Hroom Hns. unfold vmem_add. wp_simp.
  eapply wp_mono; [by apply (vmem_add_internal_ok top L)|]. simpl.
  intros [r p] vm' (? & Hok' & (q1 & q2 & n & Hseg & Hq & Hpn & Hpf) & Hu' & _). wp_simp. simpl in *.
  assert (segments vm' = vview (segs vm') q1 ++ [Seg kVMemSegSpan b sz; Seg kVMemSegFree b sz] ++
    vview (segs vm') q2) as Hseg'.
  { unfold segments. by rewrite Hq, vview_app, (vview_cons _ _ _ _ Hpn), (vview_cons _ _ _ _ Hpf). }
  assert (live (segments vm') = live (segments vm)) as Hlive by (by rewrite Hseg', Hseg, !live_app).
  unfold arena_inv. split_and!; try done; [by exists L|..].
  - unfold used_ok in *. rewrite alloc_bytes_live in *. congruence.
  - rewrite Hseg'. intros s. rewrite !elem_of_app, !elem_of_cons. rewrite Hseg in Hn.
    intros [?|[[->|[->|?]]|?]]; [apply Hn; set_solver|done|done|set_solver|apply Hn; set_solver].
Qed.

Lemma inv_alloc top vm sz align nocross min flags :
  arena_inv top vm → request_ok top sz align min → (min = 0 ∨ has_flag flags kVMemExact = true) →
  supply_ok flags vm →
  wp (vmem_xalloc no_alloc no_free sz align 0 nocross min 0 flags) (λ _ vm', arena_inv top vm') vm.
Proof.
  intros ((L & Hok) & Hu & Hn) Hreq Hex Hs.
  eapply wp_mono; [by eapply (xalloc_ok top L no_alloc)|]. simpl. intros [e|a] vm'; simpl.
  - intros (_ & _ & Hseg & Hu' & (l & r & Hok') & _). unfold arena_inv, used_ok in *. rewrite Hseg.
    split_and!; [by eexists|congruence|done].
  - intros (Hok' & Hu' & [[Hstep _]|(_ & _ & alloc & _ & Hx & _)]); [|done].
    split_and!; [by exists L| |by eapply not_imported_alloc].
    eapply used_grows; [done..|]. by eapply live_alloc_step.
Qed.

Lemma inv_free top vm addr sz flags r vm' :
  arena_inv top vm → vmem_xfree no_free addr sz flags vm = Ok (r, vm') → arena_inv top vm'.
Proof.
  intros ((L & Hok) & Hu & Hn) Hrun.
  destruct (decide (Exists (λ g, is_alloc g = true ∧ base g = addr) (segments vm))) as [Hex|Hex].
  2: { destruct (xfree_bad_addr top L vm no_free addr sz flags Hok) as (why & Hw); [|congruence].
       intros g Hg Ha Hb. apply Hex, Exists_exists. eauto. }
  apply Exists_exists in Hex as (g & Hg & Ha & Hb).
  destruct (decide (sz = 0 ∨ sz = size g)) as [Hsz|Hsz].
  - pose proof (wp_run _ _ _ _ _ (xfree_ok _ _ _ no_free addr sz flags g Hok
      (not_imported_uniform _ Hn) Hg Ha Hb Hsz) Hrun) as (_ & Hok' & Hu' & Hfreed).
    split_and!; [by exists L| |by eapply not_imported_freed].
    destruct (live_freed _ _ _ _ _ _ _ Hfreed) as (g' & Hg' & Ha' & Hb' & Hp).
    assert (g' = g) as -> by (apply (arena_alloc_unique top L vm); try done; congruence).
    by eapply used_shrinks.
  - by destruct (xfree_bad_size top L vm no_free addr sz flags g Hok Hg Ha Hb) as (why & Hw);
      [tauto..|congruence].
Qed.

(** C3. In every reachable state of an arena the structures fit together
    ([arena_ok]), the live allocations are pairwise disjoint, and [used] is the
    number of allocated bytes. *)
Theorem vmem_reach_invariant top vm :
  vmem_reach top vm →
  (∃ L, arena_ok top L vm) ∧ used_ok vm ∧ pairwise_disjoint (live (segments vm)).
Proof.
  intros Hr. assert (arena_inv top vm) as ((L & Hok) & Hu & _).
  { induction Hr as [k b sz quant flags vm Hb Hsz Hbt Ht Hrun|b sz r vm vm' _ IH Hb Hsz Hbt Hroom Hn Hrun
      |sz align nocross min flags r vm vm' _ IH Hreq Hex Hs Hrun|addr sz flags r vm vm' _ IH Hrun].
    - destruct (wp_run _ _ _ _ _ (inv_init top k b sz quant flags Hb Hsz Hbt Ht) Hrun) as (Hok & Hu & Hseg).
      clear Hrun. unfold arena_inv, used_ok. rewrite Hu, Hseg. split_and!; [by eexists|done|].
      by intros s [->|[->|?%not_elem_of_nil]%elem_of_cons]%elem_of_cons.
    - by apply (wp_run _ _ _ _ _ (inv_add top b sz vm IH Hb Hsz Hbt Hroom Hn) Hrun).
    - by apply (wp_run _ _ _ _ _ (inv_alloc top vm sz align nocross min flags IH Hreq Hex Hs) Hrun).
    - by eapply inv_free. }
  split_and!; [by exists L|done|]. eapply layout_live_pairwise; [apply Hok|]. apply (ok_top _ _ _ Hok).
Qed.

(** Freeing an address with no allocation, or an allocation with the wrong
    size, stops the machine before anything is changed. *)
Theorem vmem_xfree_rejects {Src} top L (vm : vmem Src) freefn addr sz flags :
  arena_ok top L vm →
  (∀ s, (addr, s) ∈ live (segments vm) → sz ≠ 0 ∧ sz ≠ s) →
  ∃ why, vmem_xfree freefn addr sz flags vm = Fatal why.
Proof.
  intros Hok Hbad.
  destruct (decide (Exists (λ g, is_alloc g = true ∧ base g = addr) (segments vm))) as [Hex|Hex].
  - apply Exists_exists in Hex as (g & Hg & Ha & Hb).
    destruct (Hbad (size g)); [apply live_elem; eauto|].
    by eapply xfree_bad_size.
  - eapply xfree_bad_addr; [done|]. intros g Hg Ha Hb. apply Hex, Exists_exists. eauto.
Qed.

(** ** A concrete arena *)

Definition demo : vmem () :=
  final (vmem_earlyinit;; vmem_init 4096 65536 4096 0 false) (pool0 1 ()).
Definition demo1 : vmem () := final (vmem_xalloc no_alloc no_free 8192 4096 0 0 0 0 0) demo.

Lemma demo_ok : arena_ok 131072 [] demo ∧ used demo = 0 ∧
  segments demo = [Seg kVMemSegSpan 4096 65536; Seg kVMemSegFree 4096 65536].
Proof.
  pose proof (inv_init 131072 1 4096 65536 4096 0 ltac:(lia) ltac:(lia) ltac:(lia) ltac:(lia)) as Hw.
  by apply wp_final in Hw as [_ Hw].
Qed.
Lemma demo_used : used_ok demo.
Proof. destruct demo_ok as (_ & Hu & Hs). unfold used_ok. by rewrite Hu, Hs. Qed.
Lemma demo_request : request_ok 131072 8192 4096 0.
Proof. unfold request_ok, align_ok. split_and!; try lia. right. by exists 12. Qed.
Lemma demo_supply : supply_ok 0 demo.
Proof. right. vm_compute. lia. Qed.

Lemma demo_not_imported : not_imported (segments demo).
Proof.
  rewrite (proj2 (proj2 demo_ok)). intros s Hs.
  by apply elem_of_cons in Hs as [->|[->|?%not_elem_of_nil]%elem_of_cons].
Qed.

Lemma demo1_ok : arena_ok 131072 [] demo1 ∧ used_ok demo1 ∧ not_imported (segments demo1) ∧
  Seg kVMemSegAllocated 4096 8192 ∈ segments demo1.
Proof.
  assert (vmem_xalloc no_alloc no_free 8192 4096 0 0 0 0 0 demo = Ok (inr 4096, demo1)) as Hrun
    by (vm_compute; reflexivity).
  pose proof (wp_run _ _ _ _ _ (xalloc_ok 131072 [] no_alloc no_free demo 8192 4096 0 0 0 (proj1 demo_ok)
    demo_request (or_introl eq_refl) demo_supply ltac:(done)) Hrun) as (Hok & Hu & [[Hstep _]|(_ & _ & ? & _ & ? & _)]);
    [|done].
  clear Hrun. split_and!; [exact Hok| | |exact (alloc_step_elem _ _ _ _ _ _ _ Hstep)].
  - eapply used_grows; [apply demo_used|exact Hu|]. exact (live_alloc_step _ _ _ _ _ _ _ Hstep).
  - eapply not_imported_alloc; [exact Hstep|]. apply demo_not_imported.
Qed.

Lemma vmem_xalloc_correct_witness :
  wp (vmem_xalloc no_alloc no_free 8192 4096 0 0 0 0 0) (λ _ vm', used_ok vm') demo.
Proof.
  eapply wp_mono.
  - apply (vmem_xalloc_correct 131072 [] no_alloc no_free demo 8192 4096 0 0 0).
    + apply demo_ok.
    + apply demo_used.
    + apply demo_request.
    + by left.
    + apply demo_supply.
    + done.
  - intros res vm' [Hu _]. exact Hu.
Defined.

Lemma vmem_xfree_correct_witness :
  wp (vmem_xfree no_free 4096 8192 0) (λ r vm', r = 8192 ∧ used_ok vm') demo1.
Proof.
  eapply wp_mono.
  - apply (vmem_xfree_correct 131072 [] demo1 no_free 4096 8192 0 (Seg kVMemSegAllocated 4096 8192)).
    + apply demo1_ok.
    + apply demo1_ok.
    + apply not_imported_uniform, demo1_ok.
    + apply demo1_ok.
    + reflexivity.
    + reflexivity.
    + by right.
  - intros r vm' (Hr & _ & Hu & _). split; [rewrite Hr; reflexivity|exact Hu].
Defined.

Lemma vmem_alloc_free_roundtrip_witness :
  wp (vmem_xalloc no_alloc no_free 8192 4096 0 0 0 0 0) (λ res vm1, ∀ a, res = inr a →
    wp (vmem_xfree no_free a 8192 0) (λ _ vm2, segments vm2 = segments demo) vm1) demo.
Proof.
  eapply wp_mono.
  - apply (vmem_alloc_free_roundtrip 131072 [] demo 8192 4096 0 0 0 0).
    + apply demo_ok.
    + by rewrite (proj1 (proj2 demo_ok)).
    + apply demo_not_imported.
    + apply demo_request.
    + by left.
    + apply demo_supply.
  - intros res vm1 Hfree a Ha. eapply wp_mono; [apply (Hfree a Ha)|]. intros _ vm2 (H & _). exact H.
Defined.

Lemma vmem_reach_invariant_witness : used_ok demo ∧ pairwise_disjoint (live (segments demo)).
Proof.
  apply (vmem_reach_invariant 131072 demo).
  apply (reach_init 131072 1 4096 65536 4096 0); [lia..|]. vm_compute. reflexivity.
Defined.

Lemma vmem_xfree_rejects_witness : ∃ why, vmem_xfree no_free 4096 0 0 demo = Fatal why.
Proof.
  apply (vmem_xfree_rejects 131072 [] demo no_free 4096 0 0).
  - apply demo_ok.
  - rewrite (proj2 (proj2 demo_ok)).
    intros s Hs. by apply not_elem_of_nil in Hs.
Defined.
