(* ===== verification/Rcu.v ===== *)
(** Read-copy-update: kernel/kern/rcu.c.

    The state is the global [struct rcu_state] and one [ki_rcu_per_cpu_data] per
    CPU; callbacks are numbered.  [ki_rcu_quiet] also tells whether it enqueued
    the CPU's [past_callbacks_dpc]. *)
From S2P Require Import Prelude.
Local Open Scope Z_scope.

Module Rcu.

Record ki_rcu_per_cpu_data := Rcpu {
  cgeneration : Z;
  past_callbacks : list nat;
  current_callbacks : list nat;
  next_callbacks : list nat
}.

Record rcu_state := Rcu {
  quiesced : Z;
  generation : Z;
  highest_generation : Z;
  rcpus : list ki_rcu_per_cpu_data
}.

Definition ncpus (s : rcu_state) : nat := length (rcpus s).

Definition set_global (q g h : Z) (s : rcu_state) : rcu_state := Rcu q g h (rcpus s).
Definition set_rcpu (c : nat) (d : ki_rcu_per_cpu_data) (s : rcu_state) : rcu_state :=
  Rcu (quiesced s) (generation s) (highest_generation s) (<[c := d]> (rcpus s)).

(** [1 << n], an [int], as an operand of [uint64_t] type. *)
Definition int_bit (n : nat) : Z := u64 (i32 (2 ^ Z.of_nat n)).

Definition start_generation : kern rcu_state () :=
  modify (λ s,
    let g := u64 (generation s + 1) in
    set_global (u64 (2 ^ Z.of_nat (ncpus s)) - 1) g g s).

(** Clearing this CPU's bit; the last one ends the generation. *)
Definition quiet_report (c : nat) : kern rcu_state () :=
  s ← get;
  if negb (Z.land (quiesced s) (int_bit c) =? 0) then
    let q := Z.land (quiesced s) (Z.lnot (2 ^ Z.of_nat c)) in
    put (set_global q (generation s) (highest_generation s) s);;
    if q =? 0 then
      let g := u64 (generation s + 1) in
      put (set_global q g (highest_generation s) s);;
      if g <=? highest_generation s then start_generation else mret ()
    else mret ()
  else mret ().

(** Retiring the current callbacks when their generation has passed. *)
Definition quiet_retire (c : nat) : kern rcu_state bool :=
  s ← get;
  d ← deref "curcpu" (rcpus s !! c);
  if bool_decide (current_callbacks d ≠ []) && (cgeneration d <? generation s) then
    put (set_rcpu c (Rcpu (cgeneration d) (past_callbacks d ++ current_callbacks d) []
                       (next_callbacks d)) s);;
    mret true
  else mret false.

(** Moving the next callbacks to the current list, with a generation number. *)
Definition quiet_advance (c : nat) : kern rcu_state () :=
  s ← get;
  d ← deref "curcpu" (rcpus s !! c);
  if bool_decide (current_callbacks d = []) && bool_decide (next_callbacks d ≠ []) then
    let g := u64 (generation s + 1) in
    put (set_rcpu c (Rcpu g (past_callbacks d) (next_callbacks d) []) s);;
    if negb (quiesced s =? 0) then
      kassert "rcu.highest_generation <= rcpu->generation" (highest_generation s <=? g);;
      modify (λ s, set_global (quiesced s) (generation s) (u64 (g + 1)) s)
    else start_generation
  else mret ().

Definition ki_rcu_quiet (c : nat) : kern rcu_state bool :=
  quiet_report c;;
  dpc ← quiet_retire c;
  quiet_advance c;;
  mret dpc.

(** Runs the past callbacks in order; returns them. *)
Definition process_past_callbacks (c : nat) : kern rcu_state (list nat) :=
  s ← get;
  d ← deref "arg" (rcpus s !! c);
  put (set_rcpu c (Rcpu (cgeneration d) [] (current_callbacks d) (next_callbacks d)) s);;
  mret (past_callbacks d).

Definition ki_rcu_per_cpu_init : ki_rcu_per_cpu_data := Rcpu 0 [] [] [].

Definition ke_rcu_call (c cb : nat) : kern rcu_state () :=
  s ← get;
  d ← deref "curcpu" (rcpus s !! c);
  put (set_rcpu c (Rcpu (cgeneration d) (past_callbacks d) (current_callbacks d)
                     (next_callbacks d ++ [cb])) s).

Definition rcu_init (n : nat) : rcu_state := Rcu 0 0 0 (replicate n ki_rcu_per_cpu_init).

(** ** Runs *)

Inductive event :=
  | Quiet (c : nat)         (* a context switch on [c] *)
  | Call (c cb : nat)       (* [ke_rcu_call] on [c] *)
  | Process (c : nat).      (* [c]'s DPC *)

(** Callbacks run by an event. *)
Definition do_event (e : event) : kern rcu_state (list nat) :=
  match e with
  | Quiet c => ki_rcu_quiet c;; mret []
  | Call c cb => ke_rcu_call c cb;; mret []
  | Process c => process_past_callbacks c
  end.

Fixpoint run (es : list event) : kern rcu_state (list nat) :=
  match es with
  | [] => mret []
  | e :: es' => l ← do_event e; l' ← run es'; mret (l ++ l')
  end.

End Rcu.

(** Grace periods of kernel/kern/rcu.c: a batch of callbacks that gets its
    generation number while no generation is in progress is retired only after
    every CPU has quiesced, under every interleaving of the CPUs; a batch that
    gets it during a generation may be retired earlier. *)
Import Rcu.

(** ** Bits *)

Lemma int_bit_small c : (c < 31)%nat → int_bit c = 2 ^ Z.of_nat c.
Proof.
  intros Hc. unfold int_bit. assert (0 < 2 ^ Z.of_nat c < 2 ^ 31).
  { split; [lia|]. apply Z.pow_lt_mono_r; lia. }
  rewrite i32_small, u64_small; lia.
Qed.

Lemma land_bit q c : Z.land q (2 ^ Z.of_nat c) =? 0 = negb (Z.testbit q (Z.of_nat c)).
Proof.
  rewrite <-(Z.shiftl_1_l (Z.of_nat c)). destruct (Z.testbit q (Z.of_nat c)) eqn:E; simpl.
  - apply Z.eqb_neq. intros H0. assert (Z.testbit (Z.land q (Z.shiftl 1 (Z.of_nat c))) (Z.of_nat c) = false) as Hf
      by (rewrite H0; apply Z.bits_0).
    rewrite Z.land_spec, E, Z.shiftl_1_l, Z.pow2_bits_true in Hf by lia. done.
  - apply Z.eqb_eq, Z.bits_inj'. intros k Hk. rewrite Z.land_spec, Z.bits_0, Z.shiftl_1_l.
    destruct (decide (k = Z.of_nat c)) as [->|Hne]; [by rewrite E|].
    rewrite Z.pow2_bits_false by lia. apply andb_false_r.
Qed.

Lemma clear_bit q c k :
  0 ≤ k → Z.testbit (Z.land q (Z.lnot (2 ^ Z.of_nat c))) k =
    Z.testbit q k && negb (bool_decide (k = Z.of_nat c)).
Proof.
  intros Hk. rewrite Z.land_spec, Z.lnot_spec by done. f_equal. f_equal. case_bool_decide as Hd.
  - subst k. by apply Z.pow2_bits_true.
  - apply Z.pow2_bits_false. lia.
Qed.

Lemma all_bits n k : (k < n)%nat → Z.testbit (2 ^ Z.of_nat n - 1) (Z.of_nat k) = true.
Proof.
  intros Hk. replace (2 ^ Z.of_nat n - 1) with (Z.ones (Z.of_nat n)) by (rewrite Z.ones_equiv; lia).
  apply Z.ones_spec_low. lia.
Qed.

(** ** The machine: each lock section is a step *)

(** [G !! c] is the set of CPUs that have not quiesced since [c]'s current batch
    got its generation number, for a batch that got it while none was in
    progress. *)
Notation ghost := (gmap nat (gset nat)).

Inductive step : rcu_state * ghost → rcu_state * ghost → Prop :=
  | step_report c s s' G :
      (c < ncpus s)%nat → generation s + 2 < 2 ^ 64 →
      quiet_report c s = Ok ((), s') →
      step (s, G) (s', (.∖ {[c]}) <$> G)
  | step_retire c s s' b G :
      quiet_retire c s = Ok (b, s') →
      step (s, G) (s', if b : bool then delete c G else G)
  | step_advance_idle c s s' d G :
      generation s + 2 < 2 ^ 64 → quiesced s = 0 →
      rcpus s !! c = Some d → current_callbacks d = [] → next_callbacks d ≠ [] →
      quiet_advance c s = Ok ((), s') →
      step (s, G) (s', <[c := set_seq 0 (ncpus s)]> G)
  | step_advance_busy c s s' d G :
      generation s + 2 < 2 ^ 64 → quiesced s ≠ 0 →
      rcpus s !! c = Some d → current_callbacks d = [] → next_callbacks d ≠ [] →
      quiet_advance c s = Ok ((), s') →
      step (s, G) (s', delete c G)
  | step_advance_none c s s' d G :
      rcpus s !! c = Some d → ¬ (current_callbacks d = [] ∧ next_callbacks d ≠ []) →
      quiet_advance c s = Ok ((), s') →
      step (s, G) (s', G)
  | step_call c cb s s' G :
      ke_rcu_call c cb s = Ok ((), s') → step (s, G) (s', G)
  | step_process c l s s' G :
      process_past_callbacks c s = Ok (l, s') → step (s, G) (s', G).

Inductive reach (n : nat) : rcu_state * ghost → Prop :=
  | reach_init : reach n (rcu_init n, ∅)
  | reach_step x y : reach n x → step x y → reach n y.

(** ** The invariant *)

Definition batch_ok (s : rcu_state) (c : nat) (P : gset nat) : Prop :=
  ∃ d, rcpus s !! c = Some d ∧ current_callbacks d ≠ [] ∧
    ((generation s = cgeneration d ∧
      ∀ k, k ∈ P → Z.testbit (quiesced s) (Z.of_nat k) = true) ∨
     (cgeneration d < generation s ∧ P = ∅)).

Record inv (n : nat) (s : rcu_state) (G : ghost) : Prop := Inv {
  inv_n : ncpus s = n;
  inv_gen : 0 ≤ generation s;
  inv_batch : ∀ c P, G !! c = Some P → batch_ok s c P
}.

Lemma start_generation_run s :
  start_generation s =
    Ok ((), set_global (u64 (2 ^ Z.of_nat (ncpus s)) - 1) (u64 (generation s + 1)) (u64 (generation s + 1)) s).
Proof. done. Qed.

(** Ending the generation satisfies every batch. *)
Lemma batch_end s s' c P :
  batch_ok s c P → rcpus s' = rcpus s → generation s < generation s' →
  (∀ k, k ∈ P → Z.testbit (quiesced s) (Z.of_nat k) = false) → batch_ok s' c P.
Proof.
  intros (d & Hd & Hc & Hb) Hr Hg Hq. exists d. rewrite Hr. split_and!; try done. right.
  destruct Hb as [[Heq Hbits]|[Hlt ->]]; [|split; [lia|done]]. split; [lia|].
  apply elem_of_equiv_empty_L. intros k Hk. specialize (Hbits k Hk). rewrite Hq in Hbits; done.
Qed.

Lemma quiet_report_spec c s s' :
  (c < 31)%nat → 0 ≤ generation s → generation s + 2 < 2 ^ 64 → quiet_report c s = Ok ((), s') →
  let q := Z.land (quiesced s) (Z.lnot (2 ^ Z.of_nat c)) in
  rcpus s' = rcpus s ∧
  ((Z.testbit (quiesced s) (Z.of_nat c) = false ∧ s' = s) ∨
   (quiesced s' = q ∧ generation s' = generation s) ∨
   (q = 0 ∧ generation s < generation s')).
Proof.
  intros Hc Hg0 Hg Hrun q. unfold quiet_report in Hrun. run_unfold Hrun.
  rewrite int_bit_small, land_bit, negb_involutive in Hrun by done.
  destruct (Z.testbit (quiesced s) (Z.of_nat c)); [|by simplify_eq/=; auto].
  fold q in Hrun. simpl in Hrun. destruct (q =? 0) eqn:Eq; simpl in Hrun.
  - rewrite u64_small in Hrun by lia. destruct (generation s + 1 <=? highest_generation s).
    + rewrite start_generation_run in Hrun. simplify_eq/=. rewrite (u64_small (generation s + 1 + 1)) by lia.
      split; [done|]. right; right. lia.
    + simplify_eq/=. split; [done|]. right; right. lia.
  - simplify_eq/=. split; [done|]. by right; left.
Qed.

Lemma rcu_inv_report n c s s' G :
  inv n s G → (n ≤ 31)%nat → (c < n)%nat → generation s + 2 < 2 ^ 64 →
  quiet_report c s = Ok ((), s') → inv n s' ((.∖ {[c]}) <$> G).
Proof.
  intros [Hn Hg Hb] Hn31 Hc Hov Hrun.
  destruct (quiet_report_spec c s s' ltac:(lia) Hg Hov Hrun) as (Hr & Hcase).
  split; [by unfold ncpus in *; rewrite Hr| |].
  { destruct Hcase as [[_ ->]|[[_ ->]|[_ ?]]]; lia. }
  intros c' P' HP'. rewrite lookup_fmap in HP'. apply fmap_Some in HP' as (P & HP & ->).
  specialize (Hb c' P HP). destruct Hcase as [[Hbit ->]|[[Hq Hgen]|[Hq Hgen]]].
  - destruct Hb as (d & Hd & Hcb & [[??]|[? ->]]); exists d; split_and!; try done; [left|right].
    + split; [done|]. set_solver.
    + split; [done|set_solver].
  - destruct Hb as (d & Hd & Hcb & [[Heq Hbits]|[? ->]]); exists d; rewrite Hr; split_and!; try done; [left|right].
    + split; [congruence|]. intros k Hk. rewrite Hq, clear_bit by lia. rewrite Hbits by set_solver.
      rewrite bool_decide_eq_false_2; [done|]. set_solver by lia.
    + split; [lia|set_solver].
  - destruct Hb as (d & Hd & Hcb & Hbits). exists d. rewrite Hr. split_and!; try done. right.
    destruct Hbits as [[Heq Hbits]|[? ->]]; (split; [lia|]); [|set_solver].
    apply elem_of_equiv_empty_L. intros k [Hk Hkc]%elem_of_difference.
    assert (Z.testbit 0 (Z.of_nat k) = true) as Hk0; [|by rewrite Z.bits_0 in Hk0].
    rewrite <-Hq, clear_bit, Hbits, bool_decide_eq_false_2; [done| |done|lia]. set_solver by lia.
Qed.

Lemma batch_same s s' c P :
  batch_ok s c P → quiesced s' = quiesced s → generation s' = generation s →
  (∀ d, rcpus s !! c = Some d → ∃ d', rcpus s' !! c = Some d' ∧
    cgeneration d' = cgeneration d ∧ current_callbacks d' = current_callbacks d) →
  batch_ok s' c P.
Proof.
  intros (d & Hd & Hc & Hb) Hq Hg Hr. destruct (Hr d Hd) as (d' & Hd' & Hcg & Hcc).
  exists d'. rewrite Hq, Hg, Hcg, Hcc. done.
Qed.

(** Replacing a CPU's record, keeping its current batch and generation. *)
Lemma rcpu_keep s c d d' c' d0 :
  rcpus s !! c = Some d → cgeneration d' = cgeneration d →
  current_callbacks d' = current_callbacks d → rcpus s !! c' = Some d0 →
  ∃ d1, rcpus (set_rcpu c d' s) !! c' = Some d1 ∧
    cgeneration d1 = cgeneration d0 ∧ current_callbacks d1 = current_callbacks d0.
Proof.
  intros Hd Hg Hc Hd0. simpl. destruct (decide (c = c')) as [<-|Hne].
  - exists d'. rewrite list_lookup_insert_eq by (by eapply lookup_lt_Some). by simplify_eq.
  - exists d0. by rewrite list_lookup_insert_ne.
Qed.
Lemma rcpu_other s c d' c' : c ≠ c' → rcpus (set_rcpu c d' s) !! c' = rcpus s !! c'.
Proof. intros. simpl. by rewrite list_lookup_insert_ne. Qed.

Lemma rcu_inv_retire n c b s s' G :
  inv n s G → quiet_retire c s = Ok (b, s') → inv n s' (if b : bool then delete c G else G).
Proof.
  intros [Hn Hg Hb] Hrun. unfold quiet_retire in Hrun. run_unfold Hrun.
  destruct (rcpus s !! c) as [d|] eqn:Ed; [|done]. simpl in Hrun.
  destruct (_ && _); simplify_eq/=; [|by split]. split; simpl; try done.
  - unfold ncpus in *. simpl. by rewrite length_insert.
  - intros c' P [Hne HP]%lookup_delete_Some. eapply batch_same; [by apply Hb|done|done|].
    intros d0 Hd0. exists d0. by rewrite (rcpu_other s c) by done.
Qed.

Lemma rcu_inv_advance_idle n c s s' d G :
  inv n s G → (n ≤ 31)%nat → generation s + 2 < 2 ^ 64 → quiesced s = 0 →
  rcpus s !! c = Some d → current_callbacks d = [] → next_callbacks d ≠ [] →
  quiet_advance c s = Ok ((), s') → inv n s' (<[c := set_seq 0 (ncpus s)]> G).
Proof.
  intros [Hn Hg Hb] Hn31 Hov Hq Hd Hcur Hnext Hrun. unfold quiet_advance in Hrun. run_unfold Hrun.
  rewrite Hd in Hrun. simpl in Hrun. rewrite !bool_decide_eq_true_2, Hq in Hrun by done.
  simpl in Hrun. rewrite start_generation_run in Hrun. injection Hrun as <-.
  set (s' := set_global _ _ _ _).
  assert (generation s' = generation s + 1) as Hg' by (simpl; apply u64_small; lia).
  assert (quiesced s' = 2 ^ Z.of_nat n - 1) as Hq'.
  { simpl. unfold ncpus in *. simpl. rewrite length_insert, Hn. rewrite u64_small; [done|].
    split; [lia|]. apply Z.pow_lt_mono_r; lia. }
  split.
  - unfold ncpus in *. simpl. by rewrite length_insert.
  - lia.
  - intros c' P HP. destruct (decide (c' = c)) as [->|Hne].
    + rewrite lookup_insert_eq in HP. simplify_eq. eexists. split; [|split].
      * simpl. by rewrite list_lookup_insert_eq by (by eapply lookup_lt_Some).
      * done.
      * left. split; [done|]. intros k Hk%elem_of_set_seq. rewrite Hq'. apply all_bits. lia.
    + rewrite lookup_insert_ne in HP by done. specialize (Hb _ _ HP).
      apply (batch_end (set_rcpu c (Rcpu (u64 (generation s + 1)) (past_callbacks d) (next_callbacks d) []) s)).
      * eapply batch_same; [done..|]. intros d0 Hd0. exists d0. by rewrite rcpu_other.
      * done.
      * simpl in *. lia.
      * intros k _. simpl. rewrite Hq. apply Z.bits_0.
Qed.

Lemma rcu_inv_advance_busy n c s s' d G :
  inv n s G → quiesced s ≠ 0 →
  rcpus s !! c = Some d → current_callbacks d = [] → next_callbacks d ≠ [] →
  quiet_advance c s = Ok ((), s') → inv n s' (delete c G).
Proof.
  intros [Hn Hg Hb] Hq Hd Hcur Hnext Hrun. unfold quiet_advance in Hrun. run_unfold Hrun.
  rewrite Hd in Hrun. simpl in Hrun. rewrite !bool_decide_eq_true_2 in Hrun by done.
  replace (quiesced s =? 0) with false in Hrun by lia. simpl in Hrun.
  destruct (highest_generation s <=? _); [|done]. simplify_eq/=. split; simpl; try done.
  - unfold ncpus in *. simpl. by rewrite length_insert.
  - intros c' P [Hne HP]%lookup_delete_Some. eapply batch_same; [by apply Hb|done|done|].
    intros d0 Hd0. exists d0. simpl. by rewrite list_lookup_insert_ne.
Qed.

Lemma rcu_inv_step n x y : inv n x.1 x.2 → (n ≤ 31)%nat → step x y → inv n y.1 y.2.
Proof.
  intros Hi Hn Hs. destruct Hs as [c s s' G Hc Hov Hrun|c s s' b G Hrun|c s s' d G ? ? ? ? ? Hrun
    |c s s' d G ? ? ? ? ? Hrun|c s s' d G Hd Hno Hrun|c cb s s' G Hrun|c l s s' G Hrun]; simpl in *.
  - eapply rcu_inv_report; try done. by rewrite <-(inv_n _ _ _ Hi).
  - by eapply rcu_inv_retire.
  - by eapply rcu_inv_advance_idle.
  - by eapply rcu_inv_advance_busy.
  - unfold quiet_advance in Hrun. run_unfold Hrun. rewrite Hd in Hrun. simpl in Hrun.
    destruct (bool_decide_reflect (current_callbacks d = [])),
      (bool_decide_reflect (next_callbacks d ≠ [])); simpl in Hrun; simplify_eq; try done; naive_solver.
  - unfold ke_rcu_call in Hrun. run_unfold Hrun. destruct (rcpus s !! c) eqn:Ed; simplify_eq/=.
    destruct Hi as [? ? Hb]. split; [unfold ncpus in *; simpl; by rewrite length_insert|done|].
    intros c' P HP. eapply batch_same; [by apply Hb|done|done|]. by intros; eapply rcpu_keep.
  - unfold process_past_callbacks in Hrun. run_unfold Hrun. destruct (rcpus s !! c) eqn:Ed; simplify_eq/=.
    destruct Hi as [? ? Hb]. split; [unfold ncpus in *; simpl; by rewrite length_insert|done|].
    intros c' P HP. eapply batch_same; [by apply Hb|done|done|]. by intros; eapply rcpu_keep.
Qed.

Lemma rcu_reach_inv n x : reach n x → (n ≤ 31)%nat → inv n x.1 x.2.
Proof.
  intros Hr Hn. induction Hr as [|x y _ IH Hs]; [|by eapply rcu_inv_step].
  split; simpl; [unfold ncpus; apply length_replicate|done|done].
Qed.

(** C17. Grace period: under every interleaving of the lock sections of the CPUs,
    when [ki_rcu_quiet] retires a CPU's current callbacks (makes them runnable)
    and that batch had been given its generation number while no generation was
    in progress, every CPU has passed through a quiescent state since. *)
Theorem rcu_grace_period n s G c P b s' :
  reach n (s, G) → (n ≤ 31)%nat → G !! c = Some P →
  quiet_retire c s = Ok (b, s') → b = true → P = ∅.
Proof.
  intros Hr Hn HP Hrun ->. destruct (rcu_reach_inv _ _ Hr Hn) as [_ _ Hb]. simpl in Hb.
  destruct (Hb _ _ HP) as (d & Hd & _ & Hcase). unfold quiet_retire in Hrun. run_unfold Hrun.
  rewrite Hd in Hrun. simpl in Hrun.
  destruct (bool_decide _), (Z.ltb_spec (cgeneration d) (generation s)); simplify_eq/=.
  destruct Hcase as [[? _]|[_ ?]]; [lia|done].
Qed.

(** One CPU: a callback is registered, given a generation, and the CPU quiesces. *)
Definition rcu_demo1 : rcu_state := final (ke_rcu_call 0 7) (rcu_init 1).
Definition rcu_demo2 : rcu_state := final (quiet_advance 0) rcu_demo1.
Definition rcu_demo3 : rcu_state := final (quiet_report 0) rcu_demo2.

Lemma rcu_grace_period_witness :
  quiet_retire 0 rcu_demo3 = Ok (true, final (quiet_retire 0) rcu_demo3) ∧ set_seq 0 1 ∖ {[0%nat]} = (∅ : gset nat).
Proof.
  split; [reflexivity|].
  refine (rcu_grace_period 1 rcu_demo3 (((.∖ {[0%nat]}) <$> <[0%nat := set_seq 0 1]> (∅ : ghost))) 0 _
            true (final (quiet_retire 0) rcu_demo3) _ _ _ _ _).
  - apply (reach_step 1 (rcu_demo2, <[0%nat := set_seq 0 1]> (∅ : ghost))).
    + apply (reach_step 1 (rcu_demo1, ∅)).
      * apply (reach_step 1 (rcu_init 1, ∅)); [apply reach_init|]. by apply (step_call 0 7).
      * by apply (step_advance_idle 0 rcu_demo1 rcu_demo2 (Rcpu 0 [] [] [7%nat])).
    + apply (step_report 0); [vm_compute; lia|reflexivity|reflexivity].
  - lia.
  - reflexivity.
  - reflexivity.
  - reflexivity.
Defined.

(** With three CPUs a callback can run although CPU 1 has not quiesced since the
    callback was registered: registered while a generation is in progress that
    CPU 1 has already passed. *)
Definition early_before : list event := [Call 2 1; Quiet 2; Quiet 1; Quiet 0].
Definition early_after : list event := [Call 0 7; Quiet 0; Quiet 2; Quiet 0; Process 0].

Theorem rcu_early_callback :
  Quiet 1 ∉ early_after ∧
  ∃ s, run (early_before ++ early_after) (rcu_init 3) = Ok ([7%nat], s).
Proof. split; [set_solver|]. eexists. vm_compute. reflexivity. Qed.

(** Two CPUs that register callbacks during one generation trip the assertion in
    [ki_rcu_quiet]. *)
Theorem rcu_assertion_fails :
  ∃ why, run [Call 2 1; Quiet 2; Quiet 0; Call 0 7; Quiet 0; Quiet 1; Call 1 8; Quiet 1] (rcu_init 3) = Fatal why.
Proof. eexists. vm_compute. reflexivity. Qed.
