(* ===== verification/Sched.v ===== *)
(** The scheduler and deferred procedure calls: kernel/kern/sched.c.

    Threads, CPUs and DPCs are numbered.  A function that the source runs on the
    current CPU takes that CPU's number.  The spinlocks make each function one
    step; they are not part of the state.  [dpc_irq] is the DPC interrupt that
    [md_raise_dpc_interrupt] or [md_send_dpc_ipi] requested. *)
From S2P Require Import Prelude Rcu.
Local Open Scope Z_scope.

Module Sched.

Inductive kthread_state :=
  | kThreadStateInitial
  | kThreadStateRunnable
  | kThreadStateRunning
  | kThreadStateWaiting
  | kThreadStateDone.
Global Instance kthread_state_eq_dec : EqDecision kthread_state.
Proof. solve_decision. Defined.

Inductive kinternalwaitstatus :=
  | kInternalWaitStatusPreparing
  | kInternalWaitStatusWaiting
  | kInternalWaitStatusSatisfied.
Global Instance kinternalwaitstatus_eq_dec : EqDecision kinternalwaitstatus.
Proof. solve_decision. Defined.

Definition kIPL0 : Z := 0.
Definition kIPLDPC : Z := 2.
Definition kIPLHigh : Z := 15.

Record kthread := Thread {
  state : kthread_state;
  wait_status : kinternalwaitstatus;
  timeslice : Z;
  last_cpu : nat;
  process : nat
}.

Record kcpu := Cpu {
  runqueue : list nat;
  curthread : nat;
  old_thread : option nat;
  idle_thread : nat;
  resched : bool;               (* reschedule_reason != kRescheduleReasonNone *)
  dpc_queue : list nat;
  timer_queue : list nat;
  nanos : Z;
  ipl : Z;
  dpc_irq : bool
}.

Record kprocess := Process {
  thread_count : Z;
  terminated : bool;            (* state == kProcessStateTerminated *)
  thread_list : list nat
}.

Record sched := Sched {
  threads : gmap nat kthread;
  cpus : list kcpu;
  idle_mask : Z;
  done_queue : list nat;
  dpc_cpu : gmap nat nat;       (* kdpc_t::cpu, absent when NULL *)
  procs : gmap nat kprocess;
  rcu : Rcu.rcu_state
}.

Definition set_threads x s := Sched x (cpus s) (idle_mask s) (done_queue s) (dpc_cpu s) (procs s) (rcu s).
Definition set_cpus x s := Sched (threads s) x (idle_mask s) (done_queue s) (dpc_cpu s) (procs s) (rcu s).
Definition set_idle_mask x s := Sched (threads s) (cpus s) x (done_queue s) (dpc_cpu s) (procs s) (rcu s).
Definition set_done_queue x s := Sched (threads s) (cpus s) (idle_mask s) x (dpc_cpu s) (procs s) (rcu s).
Definition set_dpc_cpu x s := Sched (threads s) (cpus s) (idle_mask s) (done_queue s) x (procs s) (rcu s).
Definition set_procs x s := Sched (threads s) (cpus s) (idle_mask s) (done_queue s) (dpc_cpu s) x (rcu s).
Definition set_rcu x s := Sched (threads s) (cpus s) (idle_mask s) (done_queue s) (dpc_cpu s) (procs s) x.

Definition with_runqueue x c := Cpu x (curthread c) (old_thread c) (idle_thread c) (resched c)
  (dpc_queue c) (timer_queue c) (nanos c) (ipl c) (dpc_irq c).
Definition with_current cur old r c := Cpu (runqueue c) cur old (idle_thread c) r
  (dpc_queue c) (timer_queue c) (nanos c) (ipl c) (dpc_irq c).
Definition with_resched r c := Cpu (runqueue c) (curthread c) (old_thread c) (idle_thread c) r
  (dpc_queue c) (timer_queue c) (nanos c) (ipl c) (dpc_irq c).
Definition with_dpc_queue x c := Cpu (runqueue c) (curthread c) (old_thread c) (idle_thread c) (resched c)
  x (timer_queue c) (nanos c) (ipl c) (dpc_irq c).
Definition with_timer_queue x c := Cpu (runqueue c) (curthread c) (old_thread c) (idle_thread c) (resched c)
  (dpc_queue c) x (nanos c) (ipl c) (dpc_irq c).
Definition with_nanos x c := Cpu (runqueue c) (curthread c) (old_thread c) (idle_thread c) (resched c)
  (dpc_queue c) (timer_queue c) x (ipl c) (dpc_irq c).
Definition with_ipl x c := Cpu (runqueue c) (curthread c) (old_thread c) (idle_thread c) (resched c)
  (dpc_queue c) (timer_queue c) (nanos c) x (dpc_irq c).
Definition with_irq x c := Cpu (runqueue c) (curthread c) (old_thread c) (idle_thread c) (resched c)
  (dpc_queue c) (timer_queue c) (nanos c) (ipl c) x.

Definition with_state st t := Thread st (wait_status t) (timeslice t) (last_cpu t) (process t).
Definition with_timeslice n t := Thread (state t) (wait_status t) n (last_cpu t) (process t).
Definition with_wait_status w t := Thread (state t) w (timeslice t) (last_cpu t) (process t).

(** ** Access *)

Definition cpu_at (c : nat) : kern sched kcpu := s ← get; deref "cpu" (cpus s !! c).
Definition cpu_upd (c : nat) (f : kcpu → kcpu) : kern sched () :=
  x ← cpu_at c; modify (λ s, set_cpus (<[c := f x]> (cpus s)) s).
Definition thread_at (t : nat) : kern sched kthread := s ← get; deref "thread" (threads s !! t).
Definition thread_upd (t : nat) (f : kthread → kthread) : kern sched () :=
  x ← thread_at t; modify (λ s, set_threads (<[t := f x]> (threads s)) s).

(** [splget], [splraise] and [splx] on CPU [c]. *)
Definition splget (c : nat) : kern sched Z := x ← cpu_at c; mret (ipl x).
Definition splraise (c : nat) (l : Z) : kern sched Z :=
  x ← cpu_at c; cpu_upd c (with_ipl l);; mret (ipl x).
Definition splx (c : nat) (l : Z) : kern sched () := cpu_upd c (with_ipl l).

Definition md_raise_dpc_interrupt (c : nat) : kern sched () := cpu_upd c (with_irq true).

(** ** Deferred procedure calls *)

Section dpc.
(** The DPCs' callbacks. *)
Context (callback : nat → kern sched ()).

Definition ke_dpc_init (d : nat) : kern sched () :=
  modify (λ s, set_dpc_cpu (delete d (dpc_cpu s)) s).

Definition ke_dpc_enqueue (c d : nat) : kern sched () :=
  i ← splget c;
  if i <? kIPLDPC then
    old ← splraise c kIPLDPC;
    callback d;;
    splx c old
  else
    old ← splraise c kIPLHigh;
    s ← get;
    match dpc_cpu s !! d with
    | None =>
        put (set_dpc_cpu (<[d := c]> (dpc_cpu s)) s);;
        cpu_upd c (λ x, with_dpc_queue (dpc_queue x ++ [d]) x);;
        md_raise_dpc_interrupt c
    | Some _ => mret ()
    end;;
    splx c old.

(** The loop of [ki_dispatch_dpcs]; a callback may enqueue further DPCs. *)
Fixpoint dispatch_loop (fuel c : nat) : kern sched () :=
  match fuel with
  | O => spin
  | S fuel' =>
      x ← cpu_at c;
      match dpc_queue x with
      | [] => mret ()
      | d :: rest =>
          cpu_upd c (with_dpc_queue rest);;
          modify (λ s, set_dpc_cpu (delete d (dpc_cpu s)) s);;
          callback d;;
          dispatch_loop fuel' c
      end
  end.
End dpc.

(** ** Scheduling *)

Definition next_thread (x : kcpu) : nat * kcpu :=
  match runqueue x with
  | [] => (idle_thread x, x)
  | t :: rest => (t, with_runqueue rest x)
  end.

(** The CPU's [done_thread_dpc], [timer_expiry_dpc] and RCU DPC have numbers of
    their own. *)
Definition done_thread_dpc_of (c : nat) : nat := 3 * c.
Definition past_callbacks_dpc_of (c : nat) : nat := 3 * c + 1.
Definition timer_expiry_dpc_of (c : nat) : nat := 3 * c + 2.

Definition ki_rcu_quiet (callback : nat → kern sched ()) (c : nat) : kern sched () :=
  dpc ← zoom rcu set_rcu (Rcu.ki_rcu_quiet c);
  when dpc (ke_dpc_enqueue callback c (past_callbacks_dpc_of c)).

(** Where the thread leaving the CPU goes. *)
Definition put_old_thread (callback : nat → kern sched ()) (c old : nat) : kern sched () :=
  x ← cpu_at c;
  t ← thread_at old;
  if decide (old = idle_thread x) then
    kassert "old_thread->state == kThreadStateRunning" (bool_decide (state t = kThreadStateRunning))
  else
    match state t with
    | kThreadStateRunning =>
        thread_upd old (with_state kThreadStateRunnable);;
        cpu_upd c (λ x, with_runqueue (runqueue x ++ [old]) x)
    | kThreadStateDone =>
        modify (λ s, set_done_queue (done_queue s ++ [old]) s);;
        ke_dpc_enqueue callback c (done_thread_dpc_of c)
    | _ => mret ()
    end.

(** [ki_reschedule] up to [md_switch]: returns the thread the CPU switches to. *)
Definition ki_reschedule (callback : nat → kern sched ()) (c : nat) : kern sched nat :=
  x0 ← cpu_at c;
  let old := curthread x0 in
  kassert "splget() == kIPLDPC" (ipl x0 =? kIPLDPC);;
  put_old_thread callback c old;;
  x ← cpu_at c;
  let (next, x') := next_thread x in
  cpu_upd c (λ _, x');;
  thread_upd next (λ t, Thread kThreadStateRunning (wait_status t) 5 c (process t));;
  cpu_upd c (with_current next (Some old) false);;
  ki_rcu_quiet callback c;;
  when (negb (bool_decide (old = next)))
    (modify (λ s, set_idle_mask
      (if decide (next = idle_thread x) then Z.lor (idle_mask s) (Rcu.int_bit c)
       else Z.land (idle_mask s) (u64 (Z.lnot (i32 (2 ^ Z.of_nat c))))) s));;
  mret next.

(** The CPU a resumed thread is given to. *)
Definition choose_cpu (me : nat) (idle : Z) : nat :=
  if negb (Z.land idle (Rcu.int_bit me) =? 0) then me
  else if negb (idle =? 0) then ctz (u32 idle)
  else me.

Definition ki_thread_resume_locked (me t : nat) : kern sched () :=
  i ← splget me;
  kassert "splget() == kIPLDPC" (i =? kIPLDPC);;
  s ← get;
  let chosen := choose_cpu me (idle_mask s) in
  cpu_upd chosen (λ x, with_resched true (with_runqueue (t :: runqueue x) x));;
  cpu_upd chosen (with_irq true).

Definition ke_thread_resume (me t : nat) : kern sched () :=
  old ← splraise me kIPLDPC;
  ki_thread_resume_locked me t;;
  splx me old.

Definition ki_dispatch_dpcs (callback : nat → kern sched ()) (fuel c : nat) : kern sched () :=
  i ← splget c;
  kassert "splget() == kIPLDPC" (i =? kIPLDPC);;
  dispatch_loop callback fuel c;;
  x ← cpu_at c;
  when (resched x) (_ ← ki_reschedule callback c; mret ()).

(** [ki_cpu_init] of CPU [c], apart from the machine-dependent state; its DPCs are
    not queued. *)
Definition ki_cpu_init (c idle_thread : nat) : kern sched () :=
  cpu_upd c (λ x, Cpu [] idle_thread (old_thread x) idle_thread false [] [] 0 (ipl x) (dpc_irq x));;
  modify (λ s, set_dpc_cpu (delete (timer_expiry_dpc_of c) (delete (done_thread_dpc_of c) (dpc_cpu s))) s);;
  modify (λ s, set_rcu (Rcu.set_rcpu c Rcu.ki_rcu_per_cpu_init (rcu s)) s).

(** ** Threads and processes *)

Definition proc_upd (p : nat) (f : kprocess → kprocess) : kern sched () :=
  s ← get; x ← deref "process" (procs s !! p); modify (λ s, set_procs (<[p := f x]> (procs s)) s).

Definition ke_process_init (p : nat) : kern sched () :=
  modify (λ s, set_procs (<[p := Process 0 false []]> (procs s)) s).

Definition ki_thread_common_init (t c p : nat) : kern sched () :=
  x ← thread_at t;
  modify (λ s, set_threads (<[t := Thread (state x) (wait_status x) 5 c p]> (threads s)) s);;
  proc_upd p (λ x, Process (u32 (thread_count x + 1)) (terminated x) (t :: thread_list x)).

Definition ke_thread_deinit (t : nat) : kern sched () :=
  x ← thread_at t;
  kassert "thread->state == kThreadStateDone" (bool_decide (state x = kThreadStateDone));;
  s ← get;
  p ← deref "process" (procs s !! process x);
  l ← deref "thread_list" (q_remove t (thread_list p));
  let n := u32 (thread_count p - 1) in
  put (set_procs (<[process x := Process n (terminated p || (n =? 0)) l]> (procs s)) s).

(** [done_thread_dpc] gives every exited thread to [obj_release]; returns them. *)
Definition done_thread_dpc : kern sched (list nat) :=
  s ← get;
  put (set_done_queue [] s);;
  mret (done_queue s).

End Sched.
