(* ===== verification/SchedProofs.v ===== *)
(** Correctness of the scheduler (kernel/kern/sched.c): no thread is on two
    queues, [ki_reschedule] picks the head of the run queue or the idle thread,
    and the idle mask says which CPUs are idle. *)
From S2P Require Import Prelude Rcu Sched.
Import Sched.
Local Open Scope Z_scope.

(** ** The invariant *)

(** What scheduling reads of a CPU. *)
Record core := Core { rq : list nat; cur : nat; idle : nat }.
Definition core_of (x : kcpu) : core := Core (runqueue x) (curthread x) (idle_thread x).
Definition cores (s : sched) : list core := core_of <$> cpus s.

Definition queued (cs : list core) : list nat := concat (rq <$> cs).

(** No thread is on two run queues or twice on one, nor both queued and running;
    an idle thread is never queued and runs on its own CPU only; queued threads
    are runnable. *)
Record sched_inv (T : gmap nat kthread) (cs : list core) : Prop := SchedInv {
  so_nodup : NoDup (queued cs ++ (cur <$> cs));
  so_idle : ∀ c x, cs !! c = Some x → idle x ∉ queued cs ∧
    ∀ c' x', cs !! c' = Some x' → cur x' = idle x → c' = c;
  so_idle_inj : ∀ c c' x x', cs !! c = Some x → cs !! c' = Some x' → idle x = idle x' → c = c';
  so_live : ∀ c x, cs !! c = Some x → is_Some (T !! idle x) ∧ is_Some (T !! cur x);
  so_queued : ∀ t, t ∈ queued cs → ∃ th, T !! t = Some th ∧
    (state th = kThreadStateRunnable ∨ state th = kThreadStateInitial);
  so_running : ∀ c x th, cs !! c = Some x → cur x = idle x → T !! idle x = Some th →
    state th = kThreadStateRunning
}.
Definition sched_ok (s : sched) : Prop := sched_inv (threads s) (cores s).

(** The idle mask is accurate. *)
Definition mask_ok (s : sched) : Prop :=
  ∀ c x, cores s !! c = Some x →
    Z.testbit (idle_mask s) (Z.of_nat c) = bool_decide (cur x = idle x).

(** ** What DPCs do to scheduling: nothing *)

(** States that differ in DPC and RCU bookkeeping only. *)
Definition same_core (s s' : sched) : Prop :=
  threads s' = threads s ∧ idle_mask s' = idle_mask s ∧ done_queue s' = done_queue s ∧
  procs s' = procs s ∧ cores s' = cores s ∧ (ipl <$> cpus s') = (ipl <$> cpus s) ∧
  resched <$> cpus s' = resched <$> cpus s.

Lemma same_core_refl s : same_core s s.
Proof. by split_and!. Qed.
Lemma same_core_trans s1 s2 s3 : same_core s1 s2 → same_core s2 s3 → same_core s1 s3.
Proof. unfold same_core. intros (?&?&?&?&?&?&?) (?&?&?&?&?&?&?). split_and!; congruence. Qed.

Lemma fmap_insert_same {A B} (f : A → B) (l : list A) i x y :
  l !! i = Some x → f y = f x → f <$> <[i := y]> l = f <$> l.
Proof.
  intros Hi Hf. rewrite list_fmap_insert, Hf. apply list_insert_id. by rewrite list_lookup_fmap, Hi.
Qed.

Lemma wp_cpu_at c Q s : wp (cpu_at c) Q s ↔ ∃ x, cpus s !! c = Some x ∧ Q x s.
Proof. unfold cpu_at. by wp_simp. Qed.
Lemma wp_cpu_upd c f (Q : () → sched → Prop) s :
  wp (cpu_upd c f) Q s ↔ ∃ x, cpus s !! c = Some x ∧ Q () (set_cpus (<[c := f x]> (cpus s)) s).
Proof. unfold cpu_upd. by rewrite wp_bind, wp_cpu_at. Qed.
Lemma wp_thread_at t Q s : wp (thread_at t) Q s ↔ ∃ x, threads s !! t = Some x ∧ Q x s.
Proof. unfold thread_at. by wp_simp. Qed.
Lemma wp_thread_upd t f (Q : () → sched → Prop) s :
  wp (thread_upd t f) Q s ↔
    ∃ x, threads s !! t = Some x ∧ Q () (set_threads (<[t := f x]> (threads s)) s).
Proof. unfold thread_upd. by rewrite wp_bind, wp_thread_at. Qed.

#[export] Hint Rewrite wp_cpu_at wp_cpu_upd wp_thread_at wp_thread_upd : wpdb.

(** One access to a CPU that has just been written. *)
Ltac cpu_step :=
  wp_simp; simpl; rewrite ?list_insert_insert_eq, ?list_lookup_insert_eq by done;
  eexists; split; [done|].

(** At DPC level or above a DPC is queued (once). *)
Lemma dpc_enqueue_ok callback c d x s :
  cpus s !! c = Some x → kIPLDPC ≤ ipl x →
  wp (ke_dpc_enqueue callback c d) (λ _ s', same_core s s' ∧ rcu s' = rcu s) s.
Proof.
  intros Hx Hipl. pose proof (lookup_lt_Some _ _ _ Hx) as Hlt.
  unfold ke_dpc_enqueue, splget, splraise, splx, md_raise_dpc_interrupt.
  wp_simp. exists x. split; [done|]. wp_simp. replace (ipl x <? kIPLDPC) with false by lia. wp_simp.
  exists x. split; [done|]. wp_simp. exists x. split; [done|]. wp_simp. simpl.
  destruct (dpc_cpu s !! d); repeat cpu_step.
  all: unfold same_core, cores; simpl; rewrite ?list_insert_insert_eq, !(fmap_insert_same _ _ _ x); done.
Qed.

(** ** Rescheduling, on cores *)

Lemma queued_insert cs c x x' :
  cs !! c = Some x →
  queued (<[c := x']> cs) ++ rq x ≡ₚ queued cs ++ rq x'.
Proof.
  intros Hc. unfold queued. pose proof (take_drop_middle _ _ _ Hc) as Hcs.
  rewrite <-Hcs at 2. rewrite insert_take_drop by (by eapply lookup_lt_Some).
  rewrite !fmap_app, !fmap_cons, !concat_app. simpl. solve_Permutation.
Qed.
Lemma cur_insert cs c x x' :
  cs !! c = Some x → (cur <$> <[c := x']> cs) ++ [cur x] ≡ₚ (cur <$> cs) ++ [cur x'].
Proof.
  intros Hc. pose proof (take_drop_middle _ _ _ Hc) as Hcs.
  rewrite <-Hcs at 2. rewrite insert_take_drop by (by eapply lookup_lt_Some).
  rewrite !fmap_app, !fmap_cons. solve_Permutation.
Qed.
Lemma queued_elem cs t : t ∈ queued cs ↔ ∃ c x, cs !! c = Some x ∧ t ∈ rq x.
Proof.
  unfold queued. rewrite list_elem_of_In, in_concat. setoid_rewrite <-list_elem_of_In.
  setoid_rewrite list_elem_of_fmap. split.
  - intros (l & (x & -> & Hx) & Ht). apply list_elem_of_lookup in Hx as [c Hc]. eauto.
  - intros (c & x & Hc & Ht). exists (rq x). split; [exists x|done]. split; [done|].
    by eapply list_elem_of_lookup_2.
Qed.

(** The run queue [ki_reschedule] picks from, and its choice. *)
Definition requeues (x : core) (th : kthread) : bool :=
  bool_decide (cur x ≠ idle x) && bool_decide (state th = kThreadStateRunning).
Definition rq_after (x : core) (th : kthread) : list nat :=
  rq x ++ (if requeues x th then [cur x] else []).
Definition pick (x : core) (th : kthread) : nat := default (idle x) (head (rq_after x th)).
Definition core_after (x : core) (th : kthread) : core :=
  Core (tail (rq_after x th)) (pick x th) (idle x).

Lemma resched_perm cs c x th :
  cs !! c = Some x →
  (queued (<[c := core_after x th]> cs) ++ (cur <$> <[c := core_after x th]> cs)) ++ rq x ++ [cur x] ≡ₚ
  (queued cs ++ (cur <$> cs)) ++ tail (rq_after x th) ++ [pick x th].
Proof.
  intros Hc. pose proof (queued_insert cs c x (core_after x th) Hc) as Hq.
  pose proof (cur_insert cs c x (core_after x th) Hc) as Hb. simpl in *.
  transitivity ((queued (<[c:=core_after x th]> cs) ++ rq x) ++ ((cur <$> <[c:=core_after x th]> cs) ++ [cur x])).
  { solve_Permutation. }
  rewrite Hq, Hb. solve_Permutation.
Qed.

(** The new queues hold the old ones' threads, the idle thread at most added. *)
Lemma resched_nodup T cs c x th :
  sched_inv T cs → cs !! c = Some x →
  NoDup (queued (<[c := core_after x th]> cs) ++ (cur <$> <[c := core_after x th]> cs)).
Proof.
  intros [Hnd Hidle _ _ _ _] Hc. pose proof (resched_perm cs c x th Hc) as Hp.
  destruct (Hidle c x Hc) as [Hiq Hic].
  unfold rq_after, pick in Hp. destruct (requeues x th) eqn:E.
  - assert (tail (rq x ++ [cur x]) ++ [default (idle x) (head (rq x ++ [cur x]))] ≡ₚ rq x ++ [cur x]) as Hpick.
    { destruct (rq x); simpl; solve_Permutation. }
    unfold rq_after in Hp. rewrite E, Hpick in Hp. apply Permutation_app_inv_r in Hp. by rewrite Hp.
  - unfold rq_after in Hp. rewrite E, app_nil_r in Hp. destruct (rq x) as [|t r] eqn:Er; simpl in Hp.
    + destruct (decide (cur x = idle x)) as [Heq|Hne].
      { rewrite Heq in Hp. apply Permutation_app_inv_r in Hp. by rewrite Hp. }
      eapply (NoDup_app _ [cur x]). rewrite Hp. apply NoDup_app. split_and!; [done| |apply NoDup_singleton].
      intros y Hy ->%list_elem_of_singleton. apply elem_of_app in Hy as [|Hy]; [done|].
      apply list_elem_of_fmap in Hy as (x' & Hx' & [c' Hc']%list_elem_of_lookup). symmetry in Hx'.
      specialize (Hic c' x' Hc' Hx') as ->. simplify_eq.
    + assert (r ++ [t] ≡ₚ t :: r) as Hrt by solve_Permutation. rewrite Hrt in Hp.
      assert (t :: r ++ [cur x] ≡ₚ [cur x] ++ t :: r) as Hrc by solve_Permutation. rewrite Hrc, app_assoc in Hp.
      apply Permutation_app_inv_r in Hp. eapply (NoDup_app _ [cur x]). by rewrite Hp.
Qed.

Definition run_on (c : nat) (t : kthread) : kthread :=
  Thread kThreadStateRunning (wait_status t) 5 c (process t).
Definition threads_after (T : gmap nat kthread) (c : nat) (x : core) (th : kthread) : gmap nat kthread :=
  alter (run_on c) (pick x th)
    (if requeues x th then <[cur x := with_state kThreadStateRunnable th]> T else T).

Lemma pick_cases x th :
  (pick x th ∈ rq x) ∨ (requeues x th = true ∧ pick x th = cur x) ∨ pick x th = idle x.
Proof.
  unfold pick, rq_after. destruct (rq x) as [|t r]; simpl; [|left; set_solver].
  destruct (requeues x th); simpl; auto.
Qed.
Lemma tail_cases x th t :
  t ∈ tail (rq_after x th) → t ∈ rq x ∨ (requeues x th = true ∧ t = cur x).
Proof.
  unfold rq_after. destruct (rq x) as [|u r], (requeues x th); simpl; set_solver.
Qed.
Lemma requeues_ne x th : requeues x th = true → cur x ≠ idle x.
Proof. unfold requeues. intros [?%bool_decide_eq_true_1 _]%andb_true_iff. done. Qed.

(** Looking up a CPU after the switch on [c]. *)
Lemma cores_after (cs : list core) c x x' c1 x1 :
  cs !! c = Some x → <[c := x']> cs !! c1 = Some x1 → (c1 = c ∧ x1 = x') ∨ (c1 ≠ c ∧ cs !! c1 = Some x1).
Proof.
  intros Hc H1. destruct (decide (c1 = c)) as [->|Hne].
  - rewrite list_lookup_insert_eq in H1 by (by eapply lookup_lt_Some). left. by simplify_eq.
  - rewrite list_lookup_insert_ne in H1 by done. by right.
Qed.

Lemma queued_after cs c x th t :
  cs !! c = Some x → t ∈ queued (<[c := core_after x th]> cs) →
  t ∈ queued cs ∨ (requeues x th = true ∧ t = cur x).
Proof.
  intros Hc. rewrite !queued_elem. intros (c1 & x1 & H1 & Ht).
  destruct (cores_after _ _ _ _ _ _ Hc H1) as [[-> ->]|[_ H1']]; [|left; eauto].
  apply tail_cases in Ht as [?|?]; [left; eauto|by right].
Qed.

Lemma threads_after_ne T c x th t :
  t ≠ pick x th → (requeues x th = true → t ≠ cur x) → threads_after T c x th !! t = T !! t.
Proof.
  intros Hp Hr. unfold threads_after. rewrite lookup_alter_ne by done.
  destruct (requeues x th); [|done]. by rewrite lookup_insert_ne by (symmetry; auto).
Qed.

Lemma resched_idle T cs c x th :
  sched_inv T cs → cs !! c = Some x →
  ∀ c1 x1, <[c := core_after x th]> cs !! c1 = Some x1 →
    idle x1 ∉ queued (<[c := core_after x th]> cs) ∧
    ∀ c2 x2, <[c := core_after x th]> cs !! c2 = Some x2 → cur x2 = idle x1 → c2 = c1.
Proof.
  intros [_ Hidle Hinj _ _ _] Hc c1 x1 H1.
  assert (∃ y, cs !! c1 = Some y ∧ idle y = idle x1) as (y & Hy & <-).
  { destruct (cores_after _ _ _ _ _ _ Hc H1) as [[-> ->]|[_ ?]]; eauto. }
  destruct (Hidle c1 y Hy) as [Hiq Hic]. split.
  - intros [?|[Hr Heq]]%(queued_after _ _ _ _ _ Hc); [done|].
    symmetry in Heq. specialize (Hic c x Hc Heq) as ->. simplify_eq. by apply requeues_ne in Hr.
  - intros c2 x2 H2 Hcur. destruct (cores_after _ _ _ _ _ _ Hc H2) as [[-> ->]|[_ H2']]; [|eauto].
    simpl in Hcur. destruct (pick_cases x th) as [Hp|[[_ Hp]|Hp]].
    + destruct Hiq. apply queued_elem. rewrite <-Hcur. eauto.
    + apply (Hic c x Hc). congruence.
    + apply (Hinj _ _ x y); try done. congruence.
Qed.

Lemma resched_inv T cs c x th :
  sched_inv T cs → cs !! c = Some x → T !! cur x = Some th →
  sched_inv (threads_after T c x th) (<[c := core_after x th]> cs).
Proof.
  intros Hi Hc Hth. pose proof (resched_nodup T cs c x th Hi Hc) as Hnd'.
  pose proof (resched_idle T cs c x th Hi Hc) as Hidle'. pose proof Hi as [Hnd Hidle Hinj Hlive Hq Hrun].
  assert (<[c := core_after x th]> cs !! c = Some (core_after x th)) as Hc'
    by (rewrite list_lookup_insert_eq by (by eapply lookup_lt_Some); done).
  split; try done.
  - intros c1 c2 x1 x2 H1 H2.
    destruct (cores_after _ _ _ _ _ _ Hc H1) as [[-> ->]|[_ ?]], (cores_after _ _ _ _ _ _ Hc H2) as [[-> ->]|[_ ?]];
      simpl; eauto.
  - assert (∀ t, is_Some (T !! t) → is_Some (threads_after T c x th !! t)) as Hsome.
    { intros t Ht. unfold threads_after. rewrite lookup_alter_is_Some.
      destruct (requeues x th); [|done]. rewrite lookup_insert_is_Some'. auto. }
    intros c1 x1 H1. destruct (cores_after _ _ _ _ _ _ Hc H1) as [[-> ->]|[_ H1']]; simpl.
    + destruct (Hlive c x Hc). split; [auto|]. apply Hsome.
      destruct (pick_cases x th) as [Hp|[[_ ->]| ->]]; [|done|done].
      destruct (Hq (pick x th)) as (? & ? & _); [apply queued_elem; eauto|by eexists].
    + destruct (Hlive c1 x1 H1'). auto.
  - intros t Ht. assert (t ≠ pick x th) as Hne.
    { apply NoDup_app in Hnd' as (_ & Hd & _). intros ->. apply (Hd _ Ht).
      apply list_elem_of_fmap. exists (core_after x th). split; [done|]. by eapply list_elem_of_lookup_2. }
    destruct (decide (requeues x th = true ∧ t = cur x)) as [[Hr ->]|Hno].
    + exists (with_state kThreadStateRunnable th). split; [|by left].
      unfold threads_after. rewrite lookup_alter_ne, Hr by done. by rewrite lookup_insert_eq.
    + rewrite threads_after_ne by (try done; intros ? ->; by apply Hno). apply Hq.
      by destruct (queued_after _ _ _ _ _ Hc Ht).
  - intros c1 x1 th1 H1 Hcur Hth1. destruct (cores_after _ _ _ _ _ _ Hc H1) as [[-> ->]|[Hne H1']].
    + simpl in *. unfold threads_after in Hth1. rewrite Hcur, lookup_alter_eq in Hth1.
      apply fmap_Some in Hth1 as (? & _ & ->). done.
    + assert (idle x1 ≠ pick x th) as Hp.
      { intros Heq. destruct (Hidle' c1 x1 H1) as [_ Hu]. by destruct Hne; rewrite (Hu c (core_after x th)). }
      rewrite threads_after_ne in Hth1; [by eapply Hrun|done|].
      intros _ Heq. destruct (Hidle c1 x1 H1') as [_ Hu]. by destruct Hne; rewrite (Hu c x).
Qed.

(** ** [ki_reschedule] *)

Lemma cores_lookup s c x : cpus s !! c = Some x → cores s !! c = Some (core_of x).
Proof. intros Hx. unfold cores. by rewrite list_lookup_fmap, Hx. Qed.
Lemma cpus_lookup s c y : cores s !! c = Some y → ∃ x, cpus s !! c = Some x ∧ core_of x = y.
Proof. unfold cores. rewrite list_lookup_fmap. intros (x & ? & ->)%fmap_Some. eauto. Qed.

Lemma same_core_cpu s s' c x :
  same_core s s' → cpus s !! c = Some x →
  ∃ x', cpus s' !! c = Some x' ∧ core_of x' = core_of x ∧ ipl x' = ipl x.
Proof.
  intros (_ & _ & _ & _ & Hc & Hi & _) Hx.
  destruct (cpus_lookup s' c (core_of x)) as (x' & Hx' & Hcore); [rewrite Hc; by apply cores_lookup|].
  exists x'. split_and!; try done.
  assert (ipl <$> cpus s' !! c = ipl <$> cpus s !! c) as Heq by (by rewrite <-!list_lookup_fmap, Hi).
  rewrite Hx, Hx' in Heq. by simplify_eq/=.
Qed.

(** The exited thread, if the one leaving has exited. *)
Definition exited (x : core) (th : kthread) : list nat :=
  if bool_decide (cur x ≠ idle x) && bool_decide (state th = kThreadStateDone) then [cur x] else [].

Lemma put_old_ok callback c x th s :
  sched_ok s → cpus s !! c = Some x → ipl x = kIPLDPC → threads s !! curthread x = Some th →
  wp (put_old_thread callback c (curthread x)) (λ _ s1,
    threads s1 = (if requeues (core_of x) th
                  then <[curthread x := with_state kThreadStateRunnable th]> (threads s) else threads s) ∧
    cores s1 = <[c := Core (rq_after (core_of x) th) (curthread x) (idle_thread x)]> (cores s) ∧
    idle_mask s1 = idle_mask s ∧ done_queue s1 = done_queue s ++ exited (core_of x) th ∧
    rcu s1 = rcu s ∧ ipl <$> cpus s1 = ipl <$> cpus s ∧ ∃ x1, cpus s1 !! c = Some x1 ∧ ipl x1 = kIPLDPC ∧
      core_of x1 = Core (rq_after (core_of x) th) (curthread x) (idle_thread x)) s.
Proof.
  intros Hok Hx Hipl Hth. pose proof (lookup_lt_Some _ _ _ Hx) as Hlt.
  assert (requeues (core_of x) th = false → <[c := Core (rq_after (core_of x) th) (curthread x) (idle_thread x)]> (cores s)
    = cores s ∧ core_of x = Core (rq_after (core_of x) th) (curthread x) (idle_thread x)) as Hkeep.
  { intros Hr. unfold rq_after. rewrite Hr, app_nil_r. split; [|done].
    apply list_insert_id. by apply cores_lookup. }
  unfold put_old_thread. wp_simp. exists x. split; [done|]. wp_simp. exists th. split; [done|].
  case_decide as Hidle.
  - wp_simp. split.
    { apply bool_decide_eq_true. eapply (so_running _ _ Hok c (core_of x)); [by apply cores_lookup|done|].
      simpl. by rewrite <-Hidle. }
    assert (requeues (core_of x) th = false) as Hr by (unfold requeues; simpl; rewrite Hidle; by rewrite bool_decide_eq_false_2 by auto).
    unfold exited. simpl. rewrite Hr, (bool_decide_eq_false_2 (curthread x ≠ _)), app_nil_r by auto.
    destruct (Hkeep Hr) as [-> ?]. split_and!; try done. by exists x.
  - unfold exited, requeues in *. simpl in *. rewrite (bool_decide_eq_true_2 (curthread x ≠ _)) in * by done.
    destruct (state th) eqn:Est; simpl in *.
    1, 2, 4: wp_simp; rewrite app_nil_r; destruct (Hkeep eq_refl) as [-> ?]; split_and!; try done; by exists x.
    + wp_simp. exists th. split; [done|]. wp_simp. simpl. exists x. split; [done|]. simpl.
      assert (core_of (with_runqueue (runqueue x ++ [curthread x]) x) =
        Core (rq_after (core_of x) th) (curthread x) (idle_thread x)) as Hcore.
      { unfold rq_after, requeues. simpl. by rewrite Est, (bool_decide_eq_true_2 (curthread x ≠ _)) by done. }
      rewrite app_nil_r. split_and!; try done.
      * unfold cores. simpl. by rewrite list_fmap_insert, Hcore.
      * by apply (fmap_insert_same _ _ _ x).
      * rewrite list_lookup_insert_eq by done. by eexists.
    + wp_simp. eapply wp_mono; [eapply dpc_enqueue_ok; [done|lia]|]. simpl.
      intros _ s1 [Hsame Hrcu]. destruct (same_core_cpu _ _ _ x Hsame Hx) as (x1 & Hx1 & Hc1 & Hi1).
      destruct Hsame as (HT & Hm & Hd & Hp & Hcs & Hi & Hr). destruct (Hkeep eq_refl) as [-> Hcore].
      split_and!; try done. exists x1. split_and!; try done; congruence.
Qed.

Lemma next_thread_spec x :
  next_thread x = (default (idle_thread x) (head (runqueue x)), with_runqueue (tail (runqueue x)) x).
Proof. unfold next_thread. destruct x as [[|t r]]; done. Qed.

Lemma rcu_quiet_ok callback c x s b r :
  cpus s !! c = Some x → kIPLDPC ≤ ipl x → Rcu.ki_rcu_quiet c (rcu s) = Ok (b, r) →
  wp (ki_rcu_quiet callback c) (λ _ s', same_core s s' ∧ rcu s' = r) s.
Proof.
  intros Hx Hi Hr. unfold ki_rcu_quiet. rewrite wp_bind, wp_zoom. unfold wp at 1. rewrite Hr.
  rewrite wp_when. destruct b; [|by split; [split_and!|]].
  eapply wp_mono; [by eapply dpc_enqueue_ok|]. simpl. intros _ s' [(?&?&?&?&?&?&?) Hr']. by split; [split_and!|].
Qed.

Definition mask_after (c : nat) (is_idle : bool) (m : Z) : Z :=
  if is_idle then Z.lor m (Rcu.int_bit c) else Z.land m (u64 (Z.lnot (i32 (2 ^ Z.of_nat c)))).

Lemma mask_after_bit c is_idle m k :
  (c < 31)%nat → (k < 31)%nat →
  Z.testbit (mask_after c is_idle m) (Z.of_nat k) =
    if decide (k = c) then is_idle else Z.testbit m (Z.of_nat k).
Proof.
  intros Hc Hk. assert (0 < 2 ^ Z.of_nat c < 2 ^ 31).
  { split; [lia|]. apply Z.pow_lt_mono_r; lia. }
  unfold mask_after. destruct is_idle.
  - rewrite int_bit_small, Z.lor_spec by done. case_decide as Hd.
    + subst. rewrite Z.pow2_bits_true by lia. apply orb_true_r.
    + rewrite Z.pow2_bits_false by lia. apply orb_false_r.
  - rewrite i32_small by lia. unfold u64. rewrite Z.land_spec, Z.mod_pow2_bits_low, Z.lnot_spec by lia.
    case_decide as Hd.
    + subst. rewrite Z.pow2_bits_true by lia. apply andb_false_r.
    + rewrite Z.pow2_bits_false by lia. apply andb_true_r.
Qed.

Lemma mask_after_ok s m c y y' :
  mask_ok s → (length (cpus s) ≤ 31)%nat → cores s !! c = Some y →
  m = (if bool_decide (cur y = cur y') then idle_mask s else mask_after c (bool_decide (cur y' = idle y')) (idle_mask s)) →
  idle y' = idle y →
  ∀ c1 x1, <[c := y']> (cores s) !! c1 = Some x1 → Z.testbit m (Z.of_nat c1) = bool_decide (cur x1 = idle x1).
Proof.
  intros Hm Hlen Hy -> Hidle c1 x1 H1.
  assert (c < 31 ∧ c1 < 31)%nat as [Hc31 H131].
  { apply lookup_lt_Some in H1, Hy. rewrite length_insert in H1. unfold cores in *. rewrite length_fmap in *. lia. }
  destruct (cores_after _ _ _ _ _ _ Hy H1) as [[-> ->]|[Hne H1']]; case_bool_decide as Hcur.
  - rewrite (Hm c y Hy). by rewrite Hcur, Hidle.
  - rewrite mask_after_bit, decide_True by done. done.
  - by apply Hm.
  - rewrite mask_after_bit, decide_False by done. by apply Hm.
Qed.

(** The end of [ki_reschedule]: the idle mask. *)
Lemma resched_finish c x th s s2 r :
  sched_ok s → mask_ok s → (length (cpus s) ≤ 31)%nat → cores s !! c = Some (core_of x) →
  threads s !! curthread x = Some th →
  threads s2 = threads_after (threads s) c (core_of x) th →
  cores s2 = <[c := core_after (core_of x) th]> (cores s) → idle_mask s2 = idle_mask s →
  done_queue s2 = done_queue s ++ exited (core_of x) th →
  ipl <$> cpus s2 = ipl <$> cpus s → rcu s2 = r →
  wp (when (negb (bool_decide (curthread x = pick (core_of x) th)))
        (modify (λ s, set_idle_mask
          (if decide (pick (core_of x) th = idle_thread x) then Z.lor (idle_mask s) (Rcu.int_bit c)
           else Z.land (idle_mask s) (u64 (Z.lnot (i32 (2 ^ Z.of_nat c))))) s));;
      mret (pick (core_of x) th)) (λ next s',
    next = pick (core_of x) th ∧ sched_ok s' ∧ mask_ok s' ∧
    cores s' = <[c := core_after (core_of x) th]> (cores s) ∧
    threads s' = threads_after (threads s) c (core_of x) th ∧
    done_queue s' = done_queue s ++ exited (core_of x) th ∧
    ipl <$> cpus s' = ipl <$> cpus s ∧ rcu s' = r) s2.
Proof.
  intros Hok Hm Hlen Hcx Hth HT Hcs Hms Hd Hip Hr.
  pose proof (resched_inv _ _ c (core_of x) th Hok Hcx Hth) as Hok'.
  assert (∀ m, m = (if bool_decide (curthread x = pick (core_of x) th) then idle_mask s
    else mask_after c (bool_decide (pick (core_of x) th = idle_thread x)) (idle_mask s)) →
    sched_ok (set_idle_mask m s2) ∧ mask_ok (set_idle_mask m s2)) as Hfin.
  { intros m Hmm. split; [unfold sched_ok, cores in *; simpl; by rewrite HT, Hcs|].
    unfold mask_ok, cores in *. simpl. rewrite Hcs.
    by apply (mask_after_ok s m c (core_of x) (core_after (core_of x) th)). }
  destruct (Hfin _ eq_refl) as [Hso Hmo].
  destruct (bool_decide (curthread x = pick (core_of x) th)); simpl; wp_simp.
  - rewrite <-Hms in Hso, Hmo. destruct s2. by split_and!.
  - unfold mask_after in Hso, Hmo. rewrite <-Hms in Hso, Hmo. case_decide as Hp.
    + rewrite bool_decide_eq_true_2 in Hso, Hmo by done. by split_and!.
    + rewrite bool_decide_eq_false_2 in Hso, Hmo by done. by split_and!.
Qed.

Lemma ki_reschedule_ok callback c x th s b r :
  sched_ok s → mask_ok s → (length (cpus s) ≤ 31)%nat →
  cpus s !! c = Some x → ipl x = kIPLDPC → threads s !! curthread x = Some th →
  Rcu.ki_rcu_quiet c (rcu s) = Ok (b, r) →
  wp (ki_reschedule callback c) (λ next s',
    next = pick (core_of x) th ∧ sched_ok s' ∧ mask_ok s' ∧
    cores s' = <[c := core_after (core_of x) th]> (cores s) ∧
    threads s' = threads_after (threads s) c (core_of x) th ∧
    done_queue s' = done_queue s ++ exited (core_of x) th ∧
    ipl <$> cpus s' = ipl <$> cpus s ∧ rcu s' = r) s.
Proof.
  intros Hok Hm Hlen Hx Hipl Hth Hrcu. pose proof (cores_lookup _ _ _ Hx) as Hcx.
  pose proof (resched_inv _ _ c (core_of x) th Hok Hcx Hth) as Hok'.
  unfold ki_reschedule. rewrite wp_bind, wp_cpu_at. exists x. split; [done|].
  rewrite wp_bind, wp_kassert. split; [by rewrite Hipl|].
  rewrite wp_bind. eapply wp_mono; [by eapply put_old_ok|]. simpl.
  intros _ s1 (HT1 & Hc1 & Hm1 & Hd1 & Hr1 & Hip1 & x1 & Hx1 & Hi1 & Hcore1).
  pose proof (lookup_lt_Some _ _ _ Hx1) as Hlt1.
  pose proof (f_equal rq Hcore1) as Hrq1. pose proof (f_equal idle Hcore1) as Hid1. simpl in Hrq1, Hid1.
  rewrite wp_bind, wp_cpu_at. exists x1. split; [done|].
  rewrite next_thread_spec.
  assert (default (idle_thread x1) (head (runqueue x1)) = pick (core_of x) th) as ->.
  { unfold pick. simpl. by rewrite Hrq1, Hid1. }
  rewrite wp_bind, wp_cpu_upd. exists x1. split; [done|]. rewrite wp_bind, wp_thread_upd. simpl.
  destruct (so_live _ _ Hok' c (core_after (core_of x) th)) as [_ [tn Htn]].
  { by rewrite list_lookup_insert_eq by (by eapply lookup_lt_Some). }
  simpl in Htn. unfold threads_after in Htn. simpl in Htn. rewrite <-HT1, lookup_alter_eq in Htn.
  apply fmap_Some in Htn as (t0 & Ht0 & ->). exists t0. split; [done|].
  rewrite wp_bind, wp_cpu_upd. simpl. rewrite list_lookup_insert_eq by done.
  eexists. split; [done|]. rewrite wp_bind. simpl. rewrite list_insert_insert_eq.
  eapply wp_mono; [eapply rcu_quiet_ok; [simpl; by rewrite list_lookup_insert_eq by done| |simpl; rewrite Hr1; done]|].
  { simpl. lia. }
  simpl. intros _ s2 [(HT2 & Hm2 & Hd2 & _ & Hc2 & Hip2 & _) Hr2]. simpl in *. rewrite Hid1.
  eapply resched_finish; try done.
  - rewrite HT2. unfold threads_after. simpl. rewrite <-HT1. by rewrite (alter_as_insert _ _ _ t0).
  - rewrite Hc2. unfold cores at 1. simpl. rewrite list_fmap_insert. fold (cores s1).
    rewrite Hc1, list_insert_insert_eq. unfold core_after, core_of. simpl. by rewrite Hrq1, Hid1.
  - congruence.
  - congruence.
  - rewrite Hip2, <-Hip1. by apply (fmap_insert_same _ _ _ x1).
Qed.

(** C22. [ki_reschedule] never panics at DPC level.  The CPU switches to the thread
    at the head of its run queue, after a thread that was still running has been
    put at the tail, or to its idle thread if the queue is empty; the chosen
    thread is running with a full time slice.  No thread is ever on two queues,
    other CPUs are untouched, an exited thread is queued for deletion, and the
    idle mask stays accurate. *)
Theorem ki_reschedule_correct callback c x th s b r :
  sched_ok s → mask_ok s → (length (cpus s) ≤ 31)%nat →
  cpus s !! c = Some x → ipl x = kIPLDPC → threads s !! curthread x = Some th →
  Rcu.ki_rcu_quiet c (rcu s) = Ok (b, r) →
  wp (ki_reschedule callback c) (λ next s',
    next = pick (core_of x) th ∧ sched_ok s' ∧ mask_ok s' ∧
    cores s' = <[c := core_after (core_of x) th]> (cores s) ∧
    threads s' = threads_after (threads s) c (core_of x) th ∧
    done_queue s' = done_queue s ++ exited (core_of x) th) s.
Proof.
  intros. eapply wp_mono; [by eapply ki_reschedule_ok|]. simpl. intros next s' (?&?&?&?&?&?&_). by split_and!.
Qed.

(** ** Resuming a thread *)

Lemma ctz_bit x : 0 < x → Z.testbit x (Z.of_nat (ctz x)) = true.
Proof.
  destruct x as [|p|p]; [lia| |lia]. intros _. simpl.
  induction p as [p IH|p IH|]; simpl ctz_pos; [done| |done].
  replace (Z.pos p~0) with (2 * Z.pos p) by lia. rewrite Nat2Z.inj_succ.
  by rewrite Z.double_bits_succ.
Qed.

Lemma choose_cpu_idle me m n :
  0 ≤ m < 2 ^ Z.of_nat n → (n ≤ 31)%nat → (me < n)%nat →
  (choose_cpu me m < n)%nat ∧ (m ≠ 0 → Z.testbit m (Z.of_nat (choose_cpu me m)) = true).
Proof.
  intros Hm Hn Hme. unfold choose_cpu. rewrite int_bit_small, land_bit, negb_involutive by lia.
  destruct (Z.testbit m (Z.of_nat me)) eqn:E; [split; [done|]; done|].
  destruct (Z.eqb_spec m 0) as [->|Hne]; simpl; [done|].
  assert (m < 2 ^ 32) by (transitivity (2 ^ Z.of_nat n); [lia|]; apply Z.pow_lt_mono_r; lia).
  rewrite u32_small by lia. pose proof (ctz_bit m ltac:(lia)) as Hb. split; [|done].
  destruct (decide (ctz m < n)%nat); [done|]. exfalso.
  rewrite (Z.bits_above_log2 m) in Hb; [done|lia|].
  assert (Z.log2 m < Z.of_nat n); [|lia]. apply Z.log2_lt_pow2; lia.
Qed.

(** A thread that can be resumed: alive, and neither queued nor running. *)
Definition resumable (s : sched) (t : nat) : Prop :=
  (∃ th, threads s !! t = Some th ∧ (state th = kThreadStateRunnable ∨ state th = kThreadStateInitial)) ∧
  t ∉ queued (cores s) ++ (cur <$> cores s) ++ (idle <$> cores s).

Lemma resume_inv T cs c x t th :
  sched_inv T cs → cs !! c = Some x → T !! t = Some th →
  (state th = kThreadStateRunnable ∨ state th = kThreadStateInitial) →
  t ∉ queued cs ++ (cur <$> cs) ++ (idle <$> cs) →
  sched_inv T (<[c := Core (t :: rq x) (cur x) (idle x)]> cs).
Proof.
  intros [Hnd Hidle Hinj Hlive Hq Hrun] Hc Hth Hst Ht. set (x' := Core _ _ _).
  assert (cur <$> <[c := x']> cs = cur <$> cs) as Hcur by (by apply (fmap_insert_same _ _ _ x)).
  assert (queued (<[c := x']> cs) ≡ₚ t :: queued cs) as Hqp.
  { pose proof (queued_insert cs c x x' Hc) as Hp. simpl in Hp.
    apply (Permutation_app_inv_r (rq x)). rewrite Hp. solve_Permutation. }
  assert (∀ c1 x1, <[c := x']> cs !! c1 = Some x1 → ∃ y, cs !! c1 = Some y ∧ cur x1 = cur y ∧ idle x1 = idle y) as Hback.
  { intros c1 x1 H1. destruct (cores_after _ _ _ _ _ _ Hc H1) as [[-> ->]|[_ ?]]; eauto. }
  split.
  - rewrite Hcur, Hqp. simpl. constructor; [|done]. set_solver.
  - intros c1 x1 H1. destruct (Hback _ _ H1) as (y & Hy & _ & ->). destruct (Hidle c1 y Hy) as [Hi1 Hi2]. split.
    + rewrite Hqp. intros [Heq|?]%elem_of_cons; [|done]. apply Ht. rewrite !elem_of_app. right; right.
      apply list_elem_of_fmap. exists y. split; [done|]. by eapply list_elem_of_lookup_2.
    + intros c2 x2 H2. destruct (Hback _ _ H2) as (y2 & Hy2 & -> & _). by apply Hi2.
  - intros c1 c2 x1 x2 H1 H2. destruct (Hback _ _ H1) as (? & ? & _ & ->), (Hback _ _ H2) as (? & ? & _ & ->). eauto.
  - intros c1 x1 H1. destruct (Hback _ _ H1) as (? & ? & -> & ->). eauto.
  - intros t'. rewrite Hqp. intros [->|?]%elem_of_cons; eauto.
  - intros c1 x1 th1 H1. destruct (Hback _ _ H1) as (? & ? & -> & ->). eauto.
Qed.

(** Resuming a thread puts it at the head of exactly one run queue, that of an
    idle CPU if the idle mask has one; that CPU is told to reschedule and gets a
    DPC interrupt.  The invariant of the run queues and the mask are kept. *)
Theorem ki_thread_resume_correct me x t s :
  sched_ok s → mask_ok s → (length (cpus s) ≤ 31)%nat → 0 ≤ idle_mask s < 2 ^ Z.of_nat (length (cpus s)) →
  cpus s !! me = Some x → ipl x = kIPLDPC → resumable s t →
  wp (ki_thread_resume_locked me t) (λ _ s', sched_ok s' ∧ mask_ok s' ∧
    ∃ c y y', cpus s !! c = Some y ∧ cpus s' !! c = Some y' ∧
      runqueue y' = t :: runqueue y ∧ resched y' = true ∧ dpc_irq y' = true ∧
      cores s' = <[c := core_of y']> (cores s) ∧
      (idle_mask s ≠ 0 → curthread y = idle_thread y)) s.
Proof.
  intros Hok Hm Hlen Hmask Hx Hipl [(th & Hth & Hst) Ht].
  destruct (choose_cpu_idle me (idle_mask s) (length (cpus s)) Hmask Hlen (lookup_lt_Some _ _ _ Hx)) as [Hlt Hidle].
  unfold ki_thread_resume_locked, splget. wp_simp. exists x. split; [done|]. wp_simp. split; [by rewrite Hipl|].
  destruct (lookup_lt_is_Some_2 _ _ Hlt) as [y Hy]. wp_simp. exists y. split; [done|]. cpu_step.
  rewrite list_insert_insert_eq. set (y' := with_irq _ _).
  pose proof (cores_lookup _ _ _ Hy) as Hcy.
  match goal with |- sched_ok ?v ∧ _ =>
    assert (cores v = <[choose_cpu me (idle_mask s) := core_of y']> (cores s)) as Hcs
      by (unfold cores; simpl; by rewrite list_fmap_insert)
  end.
  split_and!.
  - unfold sched_ok. rewrite Hcs. by eapply (resume_inv _ _ _ (core_of y)).
  - unfold mask_ok. rewrite Hcs. simpl. intros c1 x1 H1.
    destruct (cores_after _ _ _ _ _ _ Hcy H1) as [[-> ->]|[_ ?]]; [by apply (Hm _ (core_of y))|by apply Hm].
  - exists (choose_cpu me (idle_mask s)), y, y'. simpl. rewrite list_lookup_insert_eq by done.
    split_and!; try done. intros Hne. specialize (Hidle Hne). rewrite (Hm _ _ Hcy) in Hidle.
    by apply bool_decide_eq_true_1 in Hidle.
Qed.

(** ** A concrete machine: CPU 0 runs thread 10 with 11 queued, CPU 1 is idle *)

Definition demo_thread (st : kthread_state) : kthread := Thread st kInternalWaitStatusSatisfied 5 0 0.
Definition sched_demo : sched :=
  Sched (list_to_map [(0%nat, demo_thread kThreadStateRunning); (1%nat, demo_thread kThreadStateRunning);
                      (10%nat, demo_thread kThreadStateRunning); (11%nat, demo_thread kThreadStateRunnable);
                      (12%nat, demo_thread kThreadStateRunnable)])
    [Cpu [11%nat] 10 None 0 true [] [] 0 kIPLDPC true; Cpu [] 1 None 1 false [] [] 0 kIPL0 false]
    2 [] ∅ ∅ (Rcu.rcu_init 2).

Ltac each_cpu c := destruct c as [|[|c]]; simplify_eq/=.

Lemma sched_demo_ok : sched_ok sched_demo ∧ mask_ok sched_demo.
Proof.
  split; [split|]; unfold cores, queued; simpl.
  - repeat constructor; set_solver.
  - intros c x Hc. each_cpu c; (split; [set_solver|]); intros c' x' Hc' Hx'; each_cpu c'; done.
  - intros c c' x x' Hc Hc' Hx. each_cpu c; each_cpu c'; done.
  - intros c x Hc. each_cpu c; split; by eexists.
  - intros t Ht. apply list_elem_of_singleton in Ht as ->. eexists. split; [reflexivity|]. by left.
  - intros c x th Hc Hx Hth. each_cpu c; vm_compute in Hth; by simplify_eq/=.
  - unfold mask_ok, cores. simpl. intros c x Hc. by each_cpu c.
Qed.

Lemma ki_reschedule_correct_witness :
  wp (ki_reschedule (λ _, mret ()) 0) (λ next s', next = 11%nat ∧ sched_ok s') sched_demo.
Proof.
  eapply wp_mono.
  - eapply (ki_reschedule_correct (λ _, mret ()) 0 _ (demo_thread kThreadStateRunning) sched_demo).
    + apply sched_demo_ok.
    + apply sched_demo_ok.
    + simpl. lia.
    + reflexivity.
    + reflexivity.
    + reflexivity.
    + vm_compute. reflexivity.
  - simpl. intros next s' (-> & Hok & _). split; [reflexivity|exact Hok].
Defined.

Lemma ki_thread_resume_correct_witness :
  wp (ki_thread_resume_locked 0 12) (λ _ s', sched_ok s' ∧ mask_ok s') sched_demo.
Proof.
  eapply wp_mono.
  - eapply (ki_thread_resume_correct 0 _ 12 sched_demo).
    + apply sched_demo_ok.
    + apply sched_demo_ok.
    + simpl. lia.
    + simpl. lia.
    + reflexivity.
    + reflexivity.
    + split; [eexists; split; [reflexivity|by left]|]. unfold cores, queued. simpl. set_solver.
  - simpl. intros [] s' (H1 & H2 & _). split; [exact H1|exact H2].
Defined.
