(* ===== verification/Dispatch.v ===== *)
(** Dispatcher objects: waiting and signalling (kernel/kern/wait.c), semaphores
    (semaphore.c), mutexes (mutex.c), events and message queues (msgqueue.c),
    ports (port.c) and timers (timer.c, clock.c).

    Objects, wait blocks and threads are numbered.  [ke_wait_multi] gives up the
    CPU in the middle, so it is split at its lock sections: [wait_section] is the
    code between two points where other CPUs can act, and says where the thread
    goes next. *)
From S2P Require Import Prelude Rcu Sched.
Import Sched.
Local Open Scope Z_scope.

Module Dispatch.

(** ** Data *)

Inductive kdispatchobjecttype :=
  | kDispatchMutex
  | kDispatchSemaphore
  | kDispatchTimer
  | kDispatchMsgQueue
  | kDispatchEvent
  | kDispatchPort.
Global Instance kdispatchobjecttype_eq_dec : EqDecision kdispatchobjecttype.
Proof. solve_decision. Defined.

Inductive kwaitblockstatus :=
  | kWaitBlockStatusActive
  | kWaitBlockStatusDeactivated
  | kWaitBlockStatusAcquired.
Global Instance kwaitblockstatus_eq_dec : EqDecision kwaitblockstatus.
Proof. solve_decision. Defined.

(** [kdispatchheader_t]; [owner] is the [kmutex_t] field. *)
Record kdispatchheader := Hdr {
  htype : kdispatchobjecttype;
  signalled : Z;
  waitblock_queue : list nat;
  owner : option nat
}.

(** [waiter_status] always points to the thread's [wait_status]. *)
Record kwaitblock := Wb {
  block_status : kwaitblockstatus;
  wobject : nat;
  wthread : nat
}.

Record kport := Port { pqueue : list nat; n_processing : Z; max_n_processing : Z }.

Record kmsgqueue := MsgQueue {
  msize : Z; writehead : Z; readhead : Z; msem : nat; messages : list Z
}.

Inductive ktimer_state := kTimerDisabled | kTimerInQueue | kTimerExecuting.
Global Instance ktimer_state_eq_dec : EqDecision ktimer_state.
Proof. solve_decision. Defined.
Record ktimer := Timer { tmstate : ktimer_state; deadline : Z; tmcpu : option nat; tmdpc : option nat }.

Record kst := Kst {
  sch : sched;
  hdrs : gmap nat kdispatchheader;
  wbs : gmap nat kwaitblock;
  ports : gmap nat kport;
  tport : gmap nat nat;         (* kthread_t::port, absent when NULL *)
  tport_msg : gmap nat nat;     (* kthread_t::port_msg *)
  msgqs : gmap nat kmsgqueue;
  timers : gmap nat ktimer
}.

Definition set_sch x s := Kst x (hdrs s) (wbs s) (ports s) (tport s) (tport_msg s) (msgqs s) (timers s).
Definition set_hdrs x s := Kst (sch s) x (wbs s) (ports s) (tport s) (tport_msg s) (msgqs s) (timers s).
Definition set_wbs x s := Kst (sch s) (hdrs s) x (ports s) (tport s) (tport_msg s) (msgqs s) (timers s).
Definition set_ports x s := Kst (sch s) (hdrs s) (wbs s) x (tport s) (tport_msg s) (msgqs s) (timers s).
Definition set_tport x y s := Kst (sch s) (hdrs s) (wbs s) (ports s) x y (msgqs s) (timers s).
Definition set_msgqs x s := Kst (sch s) (hdrs s) (wbs s) (ports s) (tport s) (tport_msg s) x (timers s).
Definition set_timers x s := Kst (sch s) (hdrs s) (wbs s) (ports s) (tport s) (tport_msg s) (msgqs s) x.

Definition hdr_at (o : nat) : kern kst kdispatchheader := s ← get; deref "object" (hdrs s !! o).
Definition hdr_set (o : nat) (h : kdispatchheader) : kern kst () :=
  modify (λ s, set_hdrs (<[o := h]> (hdrs s)) s).
Definition wb_at (w : nat) : kern kst kwaitblock := s ← get; deref "waitblock" (wbs s !! w).
Definition wb_set (w : nat) (b : kwaitblock) : kern kst () := modify (λ s, set_wbs (<[w := b]> (wbs s)) s).
Definition in_sched {A} (m : kern sched A) : kern kst A := zoom sch set_sch m.

Definition set_signalled (n : Z) (h : kdispatchheader) := Hdr (htype h) n (waitblock_queue h) (owner h).
Definition set_queue (q : list nat) (h : kdispatchheader) := Hdr (htype h) (signalled h) q (owner h).
Definition set_owner (t : option nat) (h : kdispatchheader) := Hdr (htype h) (signalled h) (waitblock_queue h) t.

(** ** Waking *)

(** Executed on CPU [me]. *)
Definition ki_wake_waiter (me t : nat) : kern kst () :=
  th ← in_sched (thread_at t);
  kassert "thread->state == kThreadStateWaiting && satisfied"
    (bool_decide (state th = kThreadStateWaiting) &&
     bool_decide (wait_status th = kInternalWaitStatusSatisfied));;
  in_sched (thread_upd t (with_state kThreadStateRunnable);; ki_thread_resume_locked me t).

Fixpoint ki_wake_waiters (me : nat) (queue : list nat) : kern kst () :=
  match queue with
  | [] => mret ()
  | w :: queue' => b ← wb_at w; ki_wake_waiter me (wthread b);; ki_wake_waiters me queue'
  end.

(** ** Signalling *)

Definition ki_object_acquire (o t : nat) : kern kst () :=
  h ← hdr_at o;
  match htype h with
  | kDispatchSemaphore => hdr_set o (set_signalled (signalled h - 1) h)
  | kDispatchMutex => hdr_set o (set_owner (Some t) (set_signalled (signalled h - 1) h))
  | kDispatchTimer => mret ()
  | kDispatchEvent | kDispatchMsgQueue => mret ()
  | kDispatchPort => fatal "Invalid kernel object type"
  end.

Inductive ki_satisfy_attempt_result :=
  | kDidSatisfyPreWait
  | kDidSatisfyWait
  | kWasAlreadySatisfied.

(** The two compare-and-exchanges and the load see the same status: nobody else
    changes it from Satisfied, and the loop body handles all three values. *)
Definition ki_waitblock_try_to_satisfy (w : nat) : kern kst ki_satisfy_attempt_result :=
  b ← wb_at w;
  th ← in_sched (thread_at (wthread b));
  match wait_status th with
  | kInternalWaitStatusPreparing =>
      in_sched (thread_upd (wthread b) (with_wait_status kInternalWaitStatusSatisfied));;
      wb_set w (Wb kWaitBlockStatusAcquired (wobject b) (wthread b));;
      mret kDidSatisfyPreWait
  | kInternalWaitStatusWaiting =>
      in_sched (thread_upd (wthread b) (with_wait_status kInternalWaitStatusSatisfied));;
      wb_set w (Wb kWaitBlockStatusAcquired (wobject b) (wthread b));;
      mret kDidSatisfyWait
  | kInternalWaitStatusSatisfied =>
      wb_set w (Wb kWaitBlockStatusDeactivated (wobject b) (wthread b));;
      mret kWasAlreadySatisfied
  end.

(** The loop of [ki_signal] over the object's queue [q]; returns [wakeQueue]. *)
Fixpoint signal_loop (o : nat) (q wake : list nat) : kern kst (list nat) :=
  match q with
  | [] => mret wake
  | w :: q' =>
      h ← hdr_at o;
      if 0 <? signalled h then
        hdr_set o (set_queue q' h);;
        b ← wb_at w;
        r ← ki_waitblock_try_to_satisfy w;
        match r with
        | kDidSatisfyWait => ki_object_acquire o (wthread b);; signal_loop o q' (wake ++ [w])
        | kDidSatisfyPreWait => ki_object_acquire o (wthread b);; signal_loop o q' wake
        | kWasAlreadySatisfied => signal_loop o q' wake
        end
      else mret wake
  end.
Definition ki_signal (o : nat) : kern kst (list nat) := h ← hdr_at o; signal_loop o (waitblock_queue h) [].

(** ** Semaphores, mutexes, events *)

Definition ke_semaphore_init (o : nat) (count : Z) : kern kst () :=
  hdr_set o (Hdr kDispatchSemaphore (i32 count) [] None).
Definition ke_semaphore_reset (o : nat) (count : Z) : kern kst () :=
  h ← hdr_at o; hdr_set o (set_signalled (i32 count) h).

(** The part of [ke_semaphore_release] under the object's lock. *)
Definition semaphore_release_locked (o : nat) (adjustment : Z) : kern kst (list nat) :=
  h ← hdr_at o;
  hdr_set o (set_signalled (i32 (signalled h + adjustment)) h);;
  ki_signal o.
Definition ke_semaphore_release (me o : nat) (adjustment : Z) : kern kst () :=
  old ← in_sched (splraise me kIPLDPC);
  queue ← semaphore_release_locked o adjustment;
  ki_wake_waiters me queue;;
  in_sched (splx me old).
Definition ke_semaphore_release_maxone (me o : nat) : kern kst () :=
  old ← in_sched (splraise me kIPLDPC);
  h ← hdr_at o;
  when (signalled h =? 0) (hdr_set o (set_signalled 1 h));;
  queue ← ki_signal o;
  ki_wake_waiters me queue;;
  in_sched (splx me old).

Definition ke_mutex_init (o : nat) : kern kst () :=
  s ← get;
  hdr_set o (Hdr kDispatchMutex 1 [] (hdrs s !! o ≫= owner)).
(** The part of [ke_mutex_release] under the object's lock, by thread [t]. *)
Definition mutex_release_locked (o t : nat) : kern kst (list nat) :=
  h ← hdr_at o;
  kassert "mtx->owner == curthread()" (bool_decide (owner h = Some t));;
  hdr_set o (set_owner None (set_signalled (signalled h + 1) h));;
  kassert "mtx->hdr.signalled <= 1" (signalled h + 1 <=? 1);;
  ki_signal o.
Definition ke_mutex_release (me o : nat) : kern kst () :=
  old ← in_sched (splraise me kIPLDPC);
  x ← in_sched (cpu_at me);
  queue ← mutex_release_locked o (curthread x);
  ki_wake_waiters me queue;;
  in_sched (splx me old).

Definition ke_event_init (o : nat) (sig : bool) : kern kst () :=
  hdr_set o (Hdr kDispatchEvent (Z.b2z sig) [] None).
Definition event_signal_locked (o : nat) : kern kst (list nat) :=
  h ← hdr_at o; hdr_set o (set_signalled 1 h);; ki_signal o.
Definition ke_event_signal (me o : nat) : kern kst () :=
  old ← in_sched (splraise me kIPLDPC);
  queue ← event_signal_locked o;
  ki_wake_waiters me queue;;
  in_sched (splx me old).
Definition ke_event_clear (o : nat) : kern kst bool :=
  h ← hdr_at o;
  hdr_set o (set_signalled 0 h);;
  mret (negb (signalled h =? 0)).

(** ** Ports *)

Definition port_at (o : nat) : kern kst kport := s ← get; deref "port" (ports s !! o).
Definition port_set (o : nat) (p : kport) : kern kst () := modify (λ s, set_ports (<[o := p]> (ports s)) s).

Definition ke_port_init (o : nat) : kern kst () :=
  hdr_set o (Hdr kDispatchPort 0 [] None);;
  port_set o (Port [] 0 1).

(** [TAILQ_FIRST] and [TAILQ_REMOVE] on the port's message queue. *)
Definition port_take (o : nat) : kern kst nat :=
  p ← port_at o;
  match pqueue p with
  | [] => fatal "TAILQ_REMOVE(NULL)"
  | m :: q' => port_set o (Port q' (n_processing p) (max_n_processing p));; mret m
  end.

Definition do_port_acquire (o : nat) (msg : option nat) (t : nat) : kern kst nat :=
  m ← match msg with
      | Some m => mret m
      | None =>
          m ← port_take o;
          h ← hdr_at o;
          hdr_set o (set_signalled (signalled h - 1) h);;
          mret m
      end;
  modify (λ s, set_tport (<[t := o]> (tport s)) (<[t := m]> (tport_msg s)) s);;
  p ← port_at o;
  port_set o (Port (pqueue p) (u64 (n_processing p + 1)) (max_n_processing p));;
  mret m.

(** The loop of [do_release_threads]; each round removes a wait block, so [fuel]
    is the length of the queue.  Returns [did_release] and the wake queue. *)
Fixpoint release_loop (fuel o : nat) (msg : option nat) (did : bool) (wake : list nat)
    : kern kst (bool * list nat) :=
  match fuel with
  | O => mret (did, wake)
  | S fuel' =>
      h ← hdr_at o;
      p ← port_at o;
      match last (waitblock_queue h) with
      | None => mret (did, wake)
      | Some w =>
          if bool_decide (msg = None) && bool_decide (pqueue p = []) then mret (did, wake)
          else if max_n_processing p <=? n_processing p then mret (did, wake)
          else
            q' ← deref "waitblock_queue" (q_remove w (waitblock_queue h));
            hdr_set o (set_queue q' h);;
            b ← wb_at w;
            r ← ki_waitblock_try_to_satisfy w;
            match r with
            | kWasAlreadySatisfied => release_loop fuel' o msg did wake
            | _ =>
                m ← match msg with Some m => mret m | None => port_take o end;
                _ ← do_port_acquire o (Some m) (wthread b);
                release_loop fuel' o None true
                  (match r with kDidSatisfyWait => wake ++ [w] | _ => wake end)
            end
      end
  end.
Definition do_release_threads (o : nat) (msg : option nat) : kern kst (bool * list nat) :=
  h ← hdr_at o; release_loop (length (waitblock_queue h)) o msg false [].

(** [kport] may be NULL. *)
Definition ki_port_thread_release (kport : option nat) : kern kst (bool * list nat) :=
  o ← deref "kport" kport; do_release_threads o None.

Definition ke_port_enqueue (me o msg : nat) : kern kst () :=
  old ← in_sched (splraise me kIPLDPC);
  '(did, wake) ← do_release_threads o (Some msg);
  (if did : bool then ki_wake_waiters me wake
   else
     h ← hdr_at o;
     hdr_set o (set_signalled (signalled h + 1) h);;
     p ← port_at o;
     port_set o (Port (pqueue p ++ [msg]) (n_processing p) (max_n_processing p)));;
  in_sched (splx me old).

(** [ke_port_dequeue] by thread [t] with wait block [w] on CPU [me], entered at IPL
    [old]: up to the point where it has a message or has queued its wait block. *)
Definition port_dequeue_begin (me o t w : nat) : kern kst (option nat) :=
  old ← in_sched (splraise me kIPLDPC);
  in_sched (thread_upd t (with_wait_status kInternalWaitStatusPreparing));;
  s ← get;
  when (negb (bool_decide (tport s !! t = Some o)))
    ('(_, wake) ← ki_port_thread_release (tport s !! t); ki_wake_waiters me wake);;
  s ← get;
  when (bool_decide (tport s !! t = Some o))
    (p ← port_at o; port_set o (Port (pqueue p) (u64 (n_processing p - 1)) (max_n_processing p)));;
  h ← hdr_at o;
  p ← port_at o;
  if (0 <? signalled h) && (n_processing p <? max_n_processing p) then
    m ← do_port_acquire o None t;
    in_sched (splx me old);;
    modify (λ s, set_tport (tport s) (delete t (tport_msg s)) s);;
    mret (Some m)
  else
    wb_set w (Wb kWaitBlockStatusActive o t);;
    hdr_set o (set_queue (waitblock_queue h ++ [w]) h);;
    mret None.

(** It goes to sleep unless a message came in the meantime. *)
Definition port_dequeue_sleep (callback : nat → kern sched ()) (me t : nat) (old : Z) : kern kst () :=
  th ← in_sched (thread_at t);
  if decide (wait_status th = kInternalWaitStatusPreparing) then
    kassert "ipl < kIPLDPC" (old <? kIPLDPC);;
    in_sched (thread_upd t
      (λ x, with_state kThreadStateWaiting (with_wait_status kInternalWaitStatusWaiting x)));;
    _ ← in_sched (ki_reschedule callback me);
    mret ()
  else mret ().

(** Running again, it takes the message it was given. *)
Definition port_dequeue_end (me t w : nat) (old : Z) : kern kst (option nat) :=
  th ← in_sched (thread_at t);
  kassert "status == kInternalWaitStatusSatisfied"
    (bool_decide (wait_status th = kInternalWaitStatusSatisfied));;
  b ← wb_at w;
  kassert "wb->block_status == kWaitBlockStatusAcquired"
    (bool_decide (block_status b = kWaitBlockStatusAcquired));;
  in_sched (splx me old);;
  s ← get;
  modify (λ s, set_tport (tport s) (delete t (tport_msg s)) s);;
  mret (tport_msg s !! t).

(** ** Timers *)

Definition timer_at (m : nat) : kern kst ktimer := s ← get; deref "timer" (timers s !! m).
Definition timer_set (m : nat) (x : ktimer) : kern kst () := modify (λ s, set_timers (<[m := x]> (timers s)) s).
Definition with_tmstate st x := Timer st (deadline x) (tmcpu x) (tmdpc x).

(** A timer's number is also its header's. *)
Definition ke_timer_init (m : nat) : kern kst () :=
  hdr_set m (Hdr kDispatchTimer 0 [] None);;
  s ← get;
  timer_set m (Timer kTimerDisabled (default 0 (deadline <$> timers s !! m)) None None).

(** The position of a timer in its CPU's queue: before the first one that expires
    later. *)
Fixpoint timer_insert (tms : gmap nat ktimer) (m : nat) (d : Z) (q : list nat) : list nat :=
  match q with
  | [] => [m]
  | x :: q' =>
      if bool_decide (is_Some (tms !! x)) && (d <? default 0 (deadline <$> tms !! x)) then m :: x :: q'
      else x :: timer_insert tms m d q'
  end.

Definition ki_timer_enqueue_locked (me m : nat) : kern kst () :=
  x ← timer_at m;
  timer_set m (Timer kTimerInQueue (deadline x) (Some me) (tmdpc x));;
  s ← get;
  in_sched (cpu_upd me (λ c, with_timer_queue (timer_insert (timers s) m (deadline x) (timer_queue c)) c)).

Definition ki_timer_dequeue_locked (m : nat) : kern kst bool :=
  x ← timer_at m;
  match tmstate x with
  | kTimerDisabled => mret true
  | kTimerExecuting => mret false
  | kTimerInQueue =>
      c ← deref "callout->cpu" (tmcpu x);
      y ← in_sched (cpu_at c);
      q ← deref "TAILQ_REMOVE(timer_queue)" (q_remove m (timer_queue y));
      in_sched (cpu_upd c (with_timer_queue q));;
      timer_set m (with_tmstate kTimerDisabled x);;
      mret true
  end.

(** A timer being executed by its CPU is waited for. *)
Definition ke_timer_set (me m : nat) (nanosecs : Z) : kern kst () :=
  x ← timer_at m;
  match tmstate x with
  | kTimerExecuting => spin
  | kTimerInQueue => r ← ki_timer_dequeue_locked m; if r : bool then mret () else spin
  | kTimerDisabled => mret ()
  end;;
  x ← timer_at m;
  kassert "timer->state == kTimerDisabled" (bool_decide (tmstate x = kTimerDisabled));;
  c ← in_sched (cpu_at me);
  timer_set m (Timer (tmstate x) (u64 (nanos c + nanosecs)) (Some me) (tmdpc x));;
  ki_timer_enqueue_locked me m.

Definition ke_timer_cancel (m : nat) : kern kst () :=
  x ← timer_at m;
  match tmstate x with
  | kTimerExecuting => spin
  | kTimerInQueue => r ← ki_timer_dequeue_locked m; if r : bool then mret () else spin
  | kTimerDisabled => mret ()
  end;;
  x ← timer_at m;
  kassert "timer->state == kTimerDisabled" (bool_decide (tmstate x = kTimerDisabled)).

Section expiry.
(** The DPCs' callbacks, and the ticks per second. *)
Context (callback : nat → kern sched ()) (KERN_HZ : Z).

Definition NS_PER_S : Z := 1000000000.

(** [int8_t] arithmetic. *)
Definition i8 (x : Z) : Z := (x + 2 ^ 7) mod 2 ^ 8 - 2 ^ 7.

(** [#if PORT == virt68k] compares two names that are not macros, so both are 0 and the first
    branch is compiled for every port. *)
Definition ki_cpu_hardclock (me : nat) : kern kst () :=
  old ← in_sched (splraise me kIPLHigh);
  c ← in_sched (cpu_at me);
  let now := u64 (nanos c + NS_PER_S / KERN_HZ) in
  in_sched (cpu_upd me (with_nanos now));;
  th ← in_sched (thread_at (curthread c));
  in_sched (thread_upd (curthread c) (with_timeslice (i8 (timeslice th - 1))));;
  when (timeslice th <=? 0)
    (in_sched (cpu_upd me (with_resched true);; md_raise_dpc_interrupt me));;
  s ← get;
  let want_timers :=
    match timer_queue c with
    | co :: _ => match timers s !! co with Some x => deadline x <=? now | None => false end
    | [] => false
    end in
  when want_timers (in_sched (ke_dpc_enqueue callback me (timer_expiry_dpc_of me)));;
  in_sched (splx me old).

(** The work for one expired timer, which has left the queue. *)
Definition timer_expire (me m : nat) (x : ktimer) : kern kst () :=
  h ← hdr_at m;
  hdr_set m (set_signalled 1 h);;
  wake ← ki_signal m;
  h ← hdr_at m;
  hdr_set m (set_signalled 0 h);;
  match tmdpc x with
  | Some d => in_sched (ke_dpc_enqueue callback me d)
  | None => mret ()
  end;;
  ki_wake_waiters me wake;;
  x ← timer_at m;
  timer_set m (with_tmstate kTimerDisabled x).

(** The loop of [timer_expiry_dpc]. *)
Fixpoint expiry_loop (fuel me : nat) : kern kst () :=
  match fuel with
  | O => spin
  | S fuel' =>
      c ← in_sched (cpu_at me);
      match timer_queue c with
      | [] => mret ()
      | m :: q =>
          x ← timer_at m;
          if nanos c <? deadline x then mret ()
          else if decide (tmstate x = kTimerInQueue) then
            timer_set m (with_tmstate kTimerExecuting x);;
            in_sched (cpu_upd me (with_timer_queue q));;
            timer_expire me m x;;
            expiry_loop fuel' me
          else expiry_loop fuel' me
      end
  end.
(** Every round takes a timer off the queue. *)
Definition timer_expiry_dpc (me : nat) : kern kst () :=
  c ← in_sched (cpu_at me); expiry_loop (S (length (timer_queue c))) me.
End expiry.

(** ** Waiting *)

(** A call of [ke_wait_multi]: the objects waited on with their wait blocks, the
    timeout timer and its block included, and whether the timeout is zero. *)
Record wait_call := WaitCall {
  caller : nat;
  objects : list nat;
  waitblocks : list nat;
  orignobjects : nat;
  timeout : option Z;           (* nanoseconds; None is forever *)
  entry_ipl : Z                 (* the IPL [spldpc] returned *)
}.
Definition timeout_zero (wc : wait_call) : bool := bool_decide (timeout wc = Some 0).
(** The timer of a finite timeout, and its length. *)
Definition wait_timer (wc : wait_call) : option (nat * Z) :=
  match timeout wc with
  | Some n => if n =? 0 then None else m ← objects wc !! orignobjects wc; Some (m, n)
  | None => None
  end.

(** Where the caller is. *)
Inductive wait_pc :=
  | Begin
  | Setup (i : nat)
  | Early (i limit : nat) (satisfier : option nat)
  | Commit
  | Asleep
  | Finish (i : nat) (satisfier : option nat)
  | Returned (r : Z).
Global Instance wait_pc_eq_dec : EqDecision wait_pc.
Proof. solve_decision. Defined.

Definition kKernWaitStatusTimedOut : Z := -1.

(** After the set-up loop. *)
Definition after_setup (wc : wait_call) (satisfier : option nat) : wait_pc :=
  match satisfier with
  | Some n => Early 0 n satisfier
  | None => if timeout_zero wc then Early 0 (length (objects wc)) None else Commit
  end.

(** The body of the set-up loop for object [i]. *)
Definition wait_setup (wc : wait_call) (i : nat) : kern kst wait_pc :=
  match objects wc !! i, waitblocks wc !! i with
  | Some o, Some w =>
      h ← hdr_at o;
      th ← in_sched (thread_at (caller wc));
      if 0 <? signalled h then
        match wait_status th with
        | kInternalWaitStatusPreparing =>
            in_sched (thread_upd (caller wc) (with_wait_status kInternalWaitStatusSatisfied));;
            ki_object_acquire o (caller wc);;
            mret (after_setup wc (Some i))
        | st =>
            kassert "status == kInternalWaitStatusSatisfied"
              (bool_decide (st = kInternalWaitStatusSatisfied));;
            mret (after_setup wc None)
        end
      else
        wb_set w (Wb kWaitBlockStatusActive o (caller wc));;
        hdr_set o (set_queue (waitblock_queue h ++ [w]) h);;
        mret (Setup (S i))
  | _, _ => mret (after_setup wc None)
  end.

(** Taking back the wait blocks when the wait ended during set-up. *)
Definition wait_early (me : nat) (wc : wait_call) (i limit : nat) (satisfier : option nat) : kern kst wait_pc :=
  if decide (i < limit)%nat then
    o ← deref "objects" (objects wc !! i);
    w ← deref "waitblocks" (waitblocks wc !! i);
    h ← hdr_at o;
    b ← wb_at w;
    wb_set w (Wb kWaitBlockStatusDeactivated (wobject b) (wthread b));;
    q ← deref "TAILQ_REMOVE(waitblock_queue)" (q_remove w (waitblock_queue h));
    hdr_set o (set_queue q h);;
    mret (Early (S i) limit satisfier)
  else
    in_sched (splx me (entry_ipl wc));;
    mret (Returned (match satisfier with None => kKernWaitStatusTimedOut | Some n => Z.of_nat n end)).

(** Committing to sleep, on the caller's CPU [me]. *)
Definition wait_commit (callback : nat → kern sched ()) (me : nat) (wc : wait_call) : kern kst wait_pc :=
  match wait_timer wc with Some (m, n) => ke_timer_set me m n | None => mret () end;;
  th ← in_sched (thread_at (caller wc));
  if decide (wait_status th = kInternalWaitStatusPreparing) then
    kassert "ipl < kIPLDPC" (entry_ipl wc <? kIPLDPC);;
    in_sched (thread_upd (caller wc)
      (λ t, with_state kThreadStateWaiting (with_wait_status kInternalWaitStatusWaiting t)));;
    s ← get;
    match tport s !! caller wc with
    | Some p => '(_, wake) ← ki_port_thread_release (Some p); ki_wake_waiters me wake
    | None => mret ()
    end;;
    _ ← in_sched (ki_reschedule callback me);
    mret Asleep
  else mret Asleep.

(** The caller is running again, or never slept. *)
Definition wait_awake (wc : wait_call) : kern kst wait_pc :=
  match wait_timer wc with Some (m, _) => ke_timer_cancel m | None => mret () end;;
  th ← in_sched (thread_at (caller wc));
  kassert "status == kInternalWaitStatusSatisfied"
    (bool_decide (wait_status th = kInternalWaitStatusSatisfied));;
  mret (Finish 0 None).

(** The loop that finds the object that satisfied the wait. *)
Definition wait_finish (me : nat) (wc : wait_call) (i : nat) (satisfier : option nat) : kern kst wait_pc :=
  match objects wc !! i, waitblocks wc !! i with
  | Some o, Some w =>
      h ← hdr_at o;
      b ← wb_at w;
      match block_status b with
      | kWaitBlockStatusActive =>
          q ← deref "TAILQ_REMOVE(waitblock_queue)" (q_remove w (waitblock_queue h));
          hdr_set o (set_queue q h);;
          mret (Finish (S i) satisfier)
      | kWaitBlockStatusAcquired =>
          kassert "satisfier == -1" (bool_decide (satisfier = None));;
          mret (Finish (S i) (Some i))
      | kWaitBlockStatusDeactivated => mret (Finish (S i) satisfier)
      end
  | _, _ =>
      n ← deref "kassert(satisfier != -1)" satisfier;
      in_sched (splx me (entry_ipl wc));;
      mret (Returned (if decide (n = orignobjects wc) then kKernWaitStatusTimedOut else Z.of_nat n))
  end.

(** One section of [ke_wait_multi].  A sleeping caller continues once it has been
    made runnable. *)
Definition wait_section (callback : nat → kern sched ()) (me : nat) (wc : wait_call) (pc : wait_pc)
    : kern kst wait_pc :=
  match pc with
  | Begin =>
      _ ← in_sched (splraise me kIPLDPC);
      match wait_timer wc with Some (m, _) => ke_timer_init m | None => mret () end;;
      in_sched (thread_upd (caller wc) (with_wait_status kInternalWaitStatusPreparing));;
      mret (Setup 0)
  | Setup i => wait_setup wc i
  | Early i limit sat => wait_early me wc i limit sat
  | Commit => wait_commit callback me wc
  | Asleep =>
      th ← in_sched (thread_at (caller wc));
      if decide (state th = kThreadStateWaiting) then mret Asleep else wait_awake wc
  | Finish i sat => wait_finish me wc i sat
  | Returned r => mret (Returned r)
  end.

(** ** Message queues *)

Definition msgq_at (o : nat) : kern kst kmsgqueue := s ← get; deref "msgqueue" (msgqs s !! o).
Definition msgq_set (o : nat) (q : kmsgqueue) : kern kst () := modify (λ s, set_msgqs (<[o := q]> (msgqs s)) s).

(** [sem] is the number of the queue's semaphore. *)
Definition ke_msgqueue_init (o sem : nat) (count : Z) : kern kst () :=
  hdr_set o (Hdr kDispatchMsgQueue 0 [] None);;
  msgq_set o (MsgQueue count 0 0 sem (replicate (Z.to_nat count) 0));;
  ke_semaphore_init sem count.

(** [ke_msgq_post] once it has taken the semaphore: the part under the lock. *)
Definition msgq_post_locked (o : nat) (msg : Z) : kern kst (list nat) :=
  q ← msgq_at o;
  kassert "messages[writehead]" (bool_decide (Z.to_nat (writehead q) < length (messages q))%nat);;
  let w := if writehead q + 1 =? msize q then 0 else writehead q + 1 in
  msgq_set o (MsgQueue (msize q) w (readhead q) (msem q) (<[Z.to_nat (writehead q) := msg]> (messages q)));;
  kassert "msgq->writehead != msgq->readhead" (negb (w =? readhead q));;
  h ← hdr_at o;
  hdr_set o (set_signalled 1 h);;
  ki_signal o.

(** [ke_msgq_read]: [None] is the return value -1. *)
Definition ke_msgq_read (me o : nat) : kern kst (option Z) :=
  q ← msgq_at o;
  if writehead q =? readhead q then mret None
  else
    msg ← deref "messages[readhead]" (messages q !! Z.to_nat (readhead q));
    let r := if readhead q + 1 =? msize q then 0 else readhead q + 1 in
    msgq_set o (MsgQueue (msize q) (writehead q) r (msem q) (messages q));;
    when (writehead q =? r) (h ← hdr_at o; hdr_set o (set_signalled 0 h));;
    ke_semaphore_release me (msem q) 1;;
    mret (Some msg).

End Dispatch.
