(* ===== verification/DispatchProofs.v ===== *)
(** Signalling (kernel/kern/wait.c): [ki_signal] serves the wait blocks in order
    of arrival and never leaves a waiter queued on a signalled object. *)
From S2P Require Import Prelude Rcu Sched SchedProofs Dispatch.
Import Sched Dispatch.
Local Open Scope Z_scope.

(** ** Access to the parts of the state *)

Definition thr (s : kst) : gmap nat kthread := threads (sch s).
Definition set_thr (T : gmap nat kthread) (s : kst) : kst := set_sch (set_threads T (sch s)) s.

Lemma wp_hdr_at o Q s : wp (hdr_at o) Q s ↔ ∃ h, hdrs s !! o = Some h ∧ Q h s.
Proof. unfold hdr_at. by wp_simp. Qed.
Lemma wp_hdr_set o h (Q : () → kst → Prop) s : wp (hdr_set o h) Q s ↔ Q () (set_hdrs (<[o := h]> (hdrs s)) s).
Proof. done. Qed.
Lemma wp_wb_at w Q s : wp (wb_at w) Q s ↔ ∃ b, wbs s !! w = Some b ∧ Q b s.
Proof. unfold wb_at. by wp_simp. Qed.
Lemma wp_wb_set w b (Q : () → kst → Prop) s : wp (wb_set w b) Q s ↔ Q () (set_wbs (<[w := b]> (wbs s)) s).
Proof. done. Qed.
Lemma set_sch_sch s : set_sch (sch s) s = s.
Proof. by destruct s. Qed.
Lemma wp_thread_get t Q s : wp (in_sched (thread_at t)) Q s ↔ ∃ th, thr s !! t = Some th ∧ Q th s.
Proof. unfold in_sched. rewrite wp_zoom, wp_thread_at. by rewrite set_sch_sch. Qed.
Lemma wp_thread_set t f (Q : () → kst → Prop) s :
  wp (in_sched (thread_upd t f)) Q s ↔ ∃ th, thr s !! t = Some th ∧ Q () (set_thr (<[t := f th]> (thr s)) s).
Proof. unfold in_sched. by rewrite wp_zoom, wp_thread_upd. Qed.
#[export] Hint Rewrite wp_hdr_at wp_hdr_set wp_wb_at wp_wb_set wp_thread_get wp_thread_set : wpdb.

(** ** [ki_signal] *)

(** Acquiring takes a unit from a semaphore or mutex, nothing from the others. *)
Definition consumes (ty : kdispatchobjecttype) : bool :=
  match ty with kDispatchSemaphore | kDispatchMutex => true | _ => false end.

(** The wait status of the thread behind a wait block. *)
Definition status_of (s : kst) (w : nat) : option kinternalwaitstatus :=
  b ← wbs s !! w; th ← thr s !! wthread b; Some (wait_status th).

Definition unsatisfied (s : kst) (w : nat) : bool :=
  match status_of s w with
  | Some kInternalWaitStatusPreparing | Some kInternalWaitStatusWaiting => true
  | _ => false
  end.
Definition asleep (s : kst) (w : nat) : bool :=
  match status_of s w with Some kInternalWaitStatusWaiting => true | _ => false end.

(** What serving wait block [w] does to it and to its thread. *)
Definition serve_wb (s : kst) (w : nat) (b : kwaitblock) : kwaitblock :=
  Wb (if unsatisfied s w then kWaitBlockStatusAcquired else kWaitBlockStatusDeactivated) (wobject b) (wthread b).
Definition satisfy (th : kthread) : kthread := with_wait_status kInternalWaitStatusSatisfied th.

(** The wait blocks of [q] are set up, for distinct threads. *)
Record queue_live (s : kst) (q : list nat) : Prop := QueueLive {
  ql_nodup : NoDup q;
  ql_wb : ∀ w, w ∈ q → ∃ b th, wbs s !! w = Some b ∧ thr s !! wthread b = Some th;
  ql_inj : ∀ w w' b b', w ∈ q → w' ∈ q → wbs s !! w = Some b → wbs s !! w' = Some b' →
    wthread b = wthread b' → w = w'
}.

(** Everything but headers, wait blocks and threads is the same. *)
Definition same_others (s s' : kst) : Prop :=
  ports s' = ports s ∧ tport s' = tport s ∧ tport_msg s' = tport_msg s ∧ msgqs s' = msgqs s ∧
  timers s' = timers s ∧ set_threads ∅ (sch s') = set_threads ∅ (sch s).
Lemma same_others_trans s1 s2 s3 : same_others s1 s2 → same_others s2 s3 → same_others s1 s3.
Proof. unfold same_others. intros (?&?&?&?&?&?) (?&?&?&?&?&?). split_and!; congruence. Qed.

(** [s'] is [s] after the blocks [l] were served. *)
Record served (s s' : kst) (l : list nat) : Prop := Served {
  sv_wbs : ∀ w, wbs s' !! w = if decide (w ∈ l) then serve_wb s w <$> wbs s !! w else wbs s !! w;
  sv_thr : ∀ t, thr s' !! t =
    if decide (Exists (λ w, wthread <$> wbs s !! w = Some t) l) then satisfy <$> thr s !! t else thr s !! t;
  sv_rest : same_others s s'
}.

Lemma satisfy_done th : wait_status th = kInternalWaitStatusSatisfied → satisfy th = th.
Proof. destruct th. simpl. by intros ->. Qed.

Lemma try_satisfy_ok s w b th :
  wbs s !! w = Some b → thr s !! wthread b = Some th →
  wp (ki_waitblock_try_to_satisfy w) (λ r s',
    s' = set_wbs (<[w := serve_wb s w b]> (wbs s)) (set_thr (<[wthread b := satisfy th]> (thr s)) s) ∧
    r = match wait_status th with
        | kInternalWaitStatusPreparing => kDidSatisfyPreWait
        | kInternalWaitStatusWaiting => kDidSatisfyWait
        | kInternalWaitStatusSatisfied => kWasAlreadySatisfied
        end) s.
Proof.
  intros Hb Hth. unfold ki_waitblock_try_to_satisfy. wp_simp. exists b. split; [done|]. wp_simp.
  exists th. split; [done|]. unfold serve_wb, unsatisfied, status_of. rewrite Hb. simpl. rewrite Hth. simpl.
  destruct (wait_status th) eqn:E.
  1, 2: wp_simp; exists th; split; [done|]; wp_simp; done.
  wp_simp. split; [|done]. rewrite satisfy_done by done.
  unfold set_wbs, set_thr, set_sch, set_threads, thr. simpl. rewrite (insert_id (threads (sch s))) by exact Hth. by destruct s as [[]].
Qed.

Lemma serve_wb_thread s w b : wthread (serve_wb s w b) = wthread b.
Proof. done. Qed.

(** Serving [w] does not change the status behind another block of the queue. *)
Lemma status_of_other s w b th q s1 w' :
  queue_live s (w :: q) → wbs s !! w = Some b → w' ∈ q →
  wbs s1 = <[w := serve_wb s w b]> (wbs s) → thr s1 = <[wthread b := satisfy th]> (thr s) →
  status_of s1 w' = status_of s w'.
Proof.
  intros [Hnd Hwb Hinj] Hb Hw' Hs1 Ht1. inversion Hnd; subst.
  assert (w' ≠ w) by set_solver. unfold status_of. rewrite Hs1, Ht1, lookup_insert_ne by done.
  destruct (Hwb w') as (b' & th' & Hb' & Hth'); [set_solver|]. rewrite Hb'. simpl.
  rewrite lookup_insert_ne; [done|]. intros Heq.
  assert (w = w') by (eapply Hinj; eauto; set_solver). done.
Qed.

Lemma queue_live_tail s w q b th s1 :
  queue_live s (w :: q) → wbs s !! w = Some b →
  wbs s1 = <[w := serve_wb s w b]> (wbs s) → thr s1 = <[wthread b := satisfy th]> (thr s) →
  queue_live s1 q.
Proof.
  intros [Hnd Hwb Hinj] Hb Hs1 Ht1. inversion Hnd; subst.
  assert (∀ w', w' ∈ q → wbs s1 !! w' = wbs s !! w') as Hsame.
  { intros w' Hw'. rewrite Hs1, lookup_insert_ne; [done|]. set_solver. }
  split; [done|..].
  - intros w' Hw'. destruct (Hwb w') as (b' & th' & Hb' & Hth'); [set_solver|]. exists b'.
    rewrite Hsame by done. rewrite Ht1. destruct (decide (wthread b = wthread b')) as [Heq|Hne].
    + rewrite Heq, lookup_insert_eq. eauto.
    + rewrite lookup_insert_ne by done. eauto.
  - intros w1 w2 b1 b2 Hw1 Hw2. rewrite !Hsame by done. apply Hinj; set_solver.
Qed.

Lemma served_nil s : served s s [].
Proof.
  split; [done| |by split_and!]. intros t. rewrite decide_False; [done|]. by intros ?%Exists_nil.
Qed.

Lemma served_cons s s1 s' w b th l :
  queue_live s (w :: l) → wbs s !! w = Some b → thr s !! wthread b = Some th →
  wbs s1 = <[w := serve_wb s w b]> (wbs s) → thr s1 = <[wthread b := satisfy th]> (thr s) →
  same_others s s1 →
  served s1 s' l → served s s' (w :: l).
Proof.
  intros Hlive Hb Hth Hs1 Ht1 Hr1 [Hw Ht Hr]. pose proof Hlive as [Hnd Hwb Hinj]. inversion Hnd; subst. split.
  - intros w'. rewrite Hw. destruct (decide (w' = w)) as [->|Hne].
    + rewrite decide_False by done. rewrite decide_True by set_solver. rewrite Hs1, lookup_insert_eq, Hb. done.
    + destruct (decide (w' ∈ l)) as [Hin|Hin].
      * rewrite decide_True by set_solver. rewrite Hs1, lookup_insert_ne by done.
        destruct (wbs s !! w') as [b'|]; [|done]. simpl. f_equal. unfold serve_wb, unsatisfied.
        by rewrite (status_of_other s w b th l s1).
      * rewrite decide_False by set_solver. by rewrite Hs1, lookup_insert_ne.
  - intros t. rewrite Ht. assert (Exists (λ w', wthread <$> wbs s1 !! w' = Some t) l ↔
      Exists (λ w', wthread <$> wbs s !! w' = Some t) l) as Hex.
    { rewrite !Exists_exists. split; intros (w' & Hin & Heq); exists w'; (split; [done|]).
      all: rewrite Hs1, lookup_insert_ne in * by set_solver; done. }
    rewrite (decide_ext _ _ _ _ Hex), Ht1. destruct (decide (t = wthread b)) as [->|Hne].
    + rewrite lookup_insert_eq, Hth. rewrite (decide_True (P := Exists _ (w :: l))).
      2: { left. by rewrite Hb. }
      case_decide; done.
    + rewrite lookup_insert_ne by done. case_decide as Hd.
      * rewrite decide_True; [done|by right].
      * rewrite decide_False; [done|]. intros [Heq|?]%Exists_cons; [|done]. rewrite Hb in Heq. by simplify_eq/=.
  - by eapply same_others_trans.
Qed.

Definition acquire_hdr (t : nat) (h : kdispatchheader) : kdispatchheader :=
  match htype h with
  | kDispatchSemaphore => set_signalled (signalled h - 1) h
  | kDispatchMutex => set_owner (Some t) (set_signalled (signalled h - 1) h)
  | _ => h
  end.
Definition thread_of (s : kst) (w : nat) : nat := default 0%nat (wthread <$> wbs s !! w).
(** The header after the blocks [l] were served. *)
Fixpoint serve_hdr (s : kst) (l : list nat) (h : kdispatchheader) : kdispatchheader :=
  match l with
  | [] => h
  | w :: l' => serve_hdr s l' (if unsatisfied s w then acquire_hdr (thread_of s w) h else h)
  end.

Lemma acquire_hdr_queue t q h : acquire_hdr t (set_queue q h) = set_queue q (acquire_hdr t h).
Proof. unfold acquire_hdr. simpl. by destruct (htype h). Qed.
Lemma serve_hdr_queue s l q h : serve_hdr s l (set_queue q h) = set_queue q (serve_hdr s l h).
Proof.
  revert h. induction l as [|w l IH]; intros h; simpl; [done|].
  destruct (unsatisfied s w); [rewrite acquire_hdr_queue|]; apply IH.
Qed.
Lemma acquire_hdr_type t h : htype (acquire_hdr t h) = htype h.
Proof. unfold acquire_hdr. by destruct (htype h) eqn:E; simpl; rewrite ?E. Qed.
Lemma serve_hdr_ext s s1 l h :
  (∀ w, w ∈ l → status_of s1 w = status_of s w ∧ thread_of s1 w = thread_of s w) →
  serve_hdr s1 l h = serve_hdr s l h.
Proof.
  revert h. induction l as [|w l IH]; intros h Hl; simpl; [done|].
  destruct (Hl w) as [Hs Ht]; [set_solver|]. unfold unsatisfied. rewrite Hs, Ht. apply IH. set_solver.
Qed.
Lemma acquire_hdr_nonneg t h : 0 < signalled h → 0 ≤ signalled (acquire_hdr t h).
Proof. unfold acquire_hdr. destruct (htype h); simpl; lia. Qed.
Lemma filter_asleep_ext s s1 (l : list nat) :
  (∀ w, w ∈ l → status_of s1 w = status_of s w) →
  filter (λ w, asleep s1 w = true) l = filter (λ w, asleep s w = true) l.
Proof.
  intros Hl. induction l as [|w l IH]; [done|]. rewrite !filter_cons.
  assert (asleep s1 w = asleep s w) as -> by (unfold asleep; by rewrite (Hl w) by set_solver).
  by rewrite IH by set_solver.
Qed.

Lemma acquire_ok o t h s :
  hdrs s !! o = Some h → htype h ≠ kDispatchPort →
  wp (ki_object_acquire o t) (λ _ s', s' = set_hdrs (<[o := acquire_hdr t h]> (hdrs s)) s) s.
Proof.
  intros Hh Hp. unfold ki_object_acquire, acquire_hdr. wp_simp. exists h. split; [done|].
  destruct (htype h); try done; wp_simp; rewrite insert_id by done; by destruct s.
Qed.

(** What [ki_signal] promises. *)
Definition signal_post (o : nat) (q wake : list nat) (s : kst) (h : kdispatchheader)
    (wk : list nat) (s' : kst) : Prop :=
  ∃ l rest, q = l ++ rest ∧ served s s' l ∧
    wk = wake ++ filter (λ w, asleep s w = true) l ∧
    hdrs s' = <[o := set_queue rest (serve_hdr s l h)]> (hdrs s) ∧
    (rest = [] ∨ signalled (serve_hdr s l h) ≤ 0) ∧
    (0 ≤ signalled h → 0 ≤ signalled (serve_hdr s l h)) ∧
    (∀ l1 l2, l = l1 ++ l2 → l2 ≠ [] → 0 < signalled (serve_hdr s l1 h)).

Lemma signal_post_stop o q wake s h :
  hdrs s !! o = Some h → waitblock_queue h = q → (q = [] ∨ signalled h ≤ 0) →
  signal_post o q wake s h wake s.
Proof.
  intros Hh Hq Hstop. exists [], q. rewrite app_nil_r.
  assert (hdrs s = <[o := set_queue q h]> (hdrs s)) as Hid.
  { rewrite insert_id; [done|]. rewrite Hh. f_equal. destruct h; simpl in *. by subst. }
  pose proof (served_nil s). split_and!; try done. by intros [] [].
Qed.

(** One more block served first. *)
Lemma signal_post_cons o w q wake s s1 h wk s' b th :
  hdrs s !! o = Some h → queue_live s (w :: q) → 0 < signalled h →
  wbs s !! w = Some b → thr s !! wthread b = Some th →
  wbs s1 = <[w := serve_wb s w b]> (wbs s) → thr s1 = <[wthread b := satisfy th]> (thr s) →
  same_others s s1 →
  let h1 := if unsatisfied s w then acquire_hdr (wthread b) h else h in
  hdrs s1 = <[o := set_queue q h1]> (hdrs s) →
  signal_post o q (wake ++ if asleep s w then [w] else []) s1 (set_queue q h1) wk s' →
  signal_post o (w :: q) wake s h wk s'.
Proof.
  intros Hh Hlive Hsig Hb Hth Hs1 Ht1 Hrest h1 Hh1 (l & rest & Hq & Hserved & Hwk & Hhd & Hstop & Hnn & Hmin).
  assert (∀ w', w' ∈ l → status_of s1 w' = status_of s w' ∧ thread_of s1 w' = thread_of s w') as Hext.
  { intros w' Hw'. assert (w' ∈ q) by set_solver. split; [by eapply status_of_other|].
    unfold thread_of. rewrite Hs1, lookup_insert_ne; [done|]. pose proof (ql_nodup _ _ Hlive) as Hnd.
    inversion Hnd; set_solver. }
  assert (∀ l1 l2, l = l1 ++ l2 → l2 ≠ [] → 0 < signalled (serve_hdr s l1 h1)) as Hmin'.
  { intros l1 l2 Hl Hne. specialize (Hmin l1 l2 Hl Hne). rewrite (serve_hdr_ext s s1) in Hmin by (intros; apply Hext; set_solver).
    by rewrite serve_hdr_queue in Hmin. }
  rewrite (serve_hdr_ext s s1) in Hhd, Hstop, Hnn by done. rewrite serve_hdr_queue in Hhd, Hstop, Hnn. simpl in *.
  assert (serve_hdr s (w :: l) h = serve_hdr s l h1) as Hserve.
  { simpl. unfold thread_of. by rewrite Hb. }
  exists (w :: l), rest. rewrite Hserve. split_and!; try done.
  - by rewrite Hq.
  - eapply served_cons; try done. subst q. destruct Hlive as [Hnd Hwb Hinj]. split.
    + rewrite app_comm_cons in Hnd. by apply NoDup_app in Hnd as (? & _).
    + intros w' Hw'. apply Hwb. set_solver.
    + intros w1 w2 b1 b2 Hw1 Hw2. apply Hinj; set_solver.
  - rewrite Hwk, (filter_asleep_ext s s1) by (intros; by apply Hext). rewrite <-app_assoc. f_equal.
    rewrite filter_cons. by destruct (asleep s w).
  - rewrite Hhd, Hh1, insert_insert_eq. done.
  - intros _. apply Hnn. unfold h1. destruct (unsatisfied s w); [by apply acquire_hdr_nonneg|lia].
  - intros [|w1 l1] l2 Hl Hne; [done|]. injection Hl as <- Hl. specialize (Hmin' l1 l2 Hl Hne). simpl. unfold thread_of.
    by rewrite Hb.
Qed.

(** [ki_signal]'s loop serves a prefix of the queue, in order, and stops when the
    queue is empty or the object is no longer signalled. *)
Lemma signal_loop_spec o q wake s h :
  hdrs s !! o = Some h → htype h ≠ kDispatchPort → waitblock_queue h = q → queue_live s q →
  wp (signal_loop o q wake) (signal_post o q wake s h) s.
Proof.
  revert s h wake. induction q as [|w q IH]; intros s h wake Hh Hp Hq Hlive; simpl.
  { wp_simp. apply signal_post_stop; auto. }
  rewrite wp_bind, wp_hdr_at. exists h. split; [done|].
  destruct (Z.ltb_spec 0 (signalled h)) as [Hsig|Hsig]; [|wp_simp; apply signal_post_stop; auto].
  destruct (ql_wb _ _ Hlive w) as (b & th & Hb & Hth); [set_solver|].
  rewrite wp_bind, wp_hdr_set, wp_bind, wp_wb_at. simpl. exists b. split; [done|].
  rewrite wp_bind. eapply wp_mono; [by eapply try_satisfy_ok|]. simpl. intros r s2 [Hs2 ->].
  remember (if unsatisfied s w then acquire_hdr (wthread b) h else h) as h1 eqn:Hh1.
  assert (∀ wake' s3, wake' = wake ++ (if asleep s w then [w] else []) →
    s3 = set_hdrs (<[o := set_queue q h1]> (hdrs s)) s2 →
    wp (signal_loop o q wake') (signal_post o (w :: q) wake s h) s3) as Hgo.
  { intros wake' s3 -> Hs3. rewrite Hs2 in Hs3. eapply wp_mono.
    - apply (IH _ (set_queue q h1)); [subst s3; simpl; by rewrite lookup_insert_eq| |done|].
      + rewrite Hh1. simpl. destruct (unsatisfied s w); [by rewrite acquire_hdr_type|done].
      + eapply (queue_live_tail s w q b th); [done|done|by rewrite Hs3..].
    - subst h1. intros wk s' Hpost. eapply (signal_post_cons o w q wake s s3 h wk s' b th); try done; by rewrite Hs3. }
  assert (status_of s w = Some (wait_status th)) as Hst by (unfold status_of; rewrite Hb; simpl; by rewrite Hth).
  unfold asleep, unsatisfied in Hgo, Hh1. rewrite Hst in Hgo, Hh1.
  assert (hdrs s2 !! o = Some (set_queue q h)) as Hh2 by (rewrite Hs2; simpl; by rewrite lookup_insert_eq).
  destruct (wait_status th); simpl in *.
  1, 2: rewrite wp_bind; eapply wp_mono; [by eapply acquire_ok|]; simpl; intros _ s3 ->; apply Hgo;
    [by rewrite ?app_nil_r|rewrite acquire_hdr_queue, Hs2, Hh1; simpl; by rewrite insert_insert_eq].
  apply Hgo; [by rewrite app_nil_r|]. by rewrite Hs2, Hh1.
Qed.

(** The scheduler's side of waiting (kernel/kern/sched.c, wait.c): a waiting thread
    is on no run queue and on no CPU, and context switches and wake-ups keep it so. *)
Import Sched Dispatch.

(** The run queues are sound, and a waiting thread is neither queued nor running
    nor an idle thread.  CPU [c] may be about to switch away from one. *)
Record sleep_at (c : option nat) (s : sched) : Prop := SleepOk {
  sl_sched : sched_ok s;
  sl_mask : mask_ok s;
  sl_len : (length (cpus s) ≤ 31)%nat;
  sl_waiting : ∀ t th, threads s !! t = Some th → state th = kThreadStateWaiting →
    t ∉ queued (cores s) ++ (idle <$> cores s) ∧
    ∀ c' x, cores s !! c' = Some x → cur x = t → c = Some c'
}.
Notation sleep_ok := (sleep_at None).

(** The status of a thread, and whether it sleeps. *)
Definition view (th : kthread) : kinternalwaitstatus * bool :=
  (wait_status th, bool_decide (state th = kThreadStateWaiting)).
Definition same_views (T T' : gmap nat kthread) : Prop := ∀ t, view <$> T' !! t = view <$> T !! t.

(** A switch that returns has passed [ki_rcu_quiet]. *)
Lemma resched_rcu callback c x th s n s' :
  sched_ok s → cpus s !! c = Some x → threads s !! curthread x = Some th →
  ki_reschedule callback c s = Ok (n, s') →
  ipl x = kIPLDPC ∧ ∃ b r, Rcu.ki_rcu_quiet c (rcu s) = Ok (b, r).
Proof.
  intros Hok Hx Hth Hrun.
  assert (wp (ki_reschedule callback c) (λ _ _, True) s) as Hw by (unfold wp; by rewrite Hrun).
  unfold ki_reschedule in Hw. rewrite wp_bind, wp_cpu_at in Hw. destruct Hw as (x' & Hx' & Hw). simplify_eq.
  rewrite wp_bind, wp_kassert in Hw. destruct Hw as [Hipl%Z.eqb_eq Hw]. split; [done|].
  rewrite wp_bind in Hw. apply wp_ok in Hw as ([] & s1 & Hput & Hw).
  pose proof (put_old_ok callback c x th s Hok Hx Hipl Hth) as Hp.
  apply (wp_run _ _ _ _ _ Hp) in Hput as (_ & _ & _ & _ & Hr1 & _ & x1 & Hx1 & _).
  rewrite wp_bind, wp_cpu_at in Hw. destruct Hw as (x1' & Hx1' & Hw). rewrite Hx1 in Hx1'. simplify_eq.
  rewrite next_thread_spec in Hw. rewrite wp_bind, wp_cpu_upd in Hw. destruct Hw as (? & _ & Hw).
  rewrite wp_bind, wp_thread_upd in Hw. destruct Hw as (? & _ & Hw). simpl in Hw.
  rewrite wp_bind, wp_cpu_upd in Hw. destruct Hw as (? & _ & Hw). rewrite wp_bind in Hw.
  unfold ki_rcu_quiet in Hw. rewrite wp_bind, wp_zoom in Hw. simpl in Hw. rewrite Hr1 in Hw.
  apply wp_ok in Hw as (b & r & Hq & _). eauto.
Qed.

Lemma cores_elem {A} (f : core → A) s c x : cores s !! c = Some x → f x ∈ (f <$> cores s).
Proof. intros Hc. apply list_elem_of_fmap. exists x. split; [done|]. by eapply list_elem_of_lookup_2. Qed.
Lemma idle_insert (cs : list core) c x x' :
  cs !! c = Some x → idle x' = idle x → idle <$> <[c := x']> cs = idle <$> cs.
Proof. apply fmap_insert_same. Qed.

(** A thread that waits is not the one picked, nor put back on the queue. *)
Lemma waiting_not_picked c s x th t th' :
  sleep_at (Some c) s → cpus s !! c = Some x → threads s !! curthread x = Some th →
  threads s !! t = Some th' → state th' = kThreadStateWaiting →
  t ≠ pick (core_of x) th ∧ (requeues (core_of x) th = true → t ≠ curthread x).
Proof.
  intros [Hok _ _ Hw] Hx Hth Hth' Hst. pose proof (cores_lookup _ _ _ Hx) as Hcx.
  destruct (Hw t th' Hth' Hst) as [Hn Hcur]. apply not_elem_of_app in Hn as [Hq Hi].
  assert (requeues (core_of x) th = true → t ≠ curthread x) as Hr.
  { intros [_ Hrun%bool_decide_eq_true_1]%andb_true_iff ->. congruence. }
  split; [|done]. intros Heq. destruct (pick_cases (core_of x) th) as [Hp|[[Hp1 Hp]|Hp]]; rewrite <-Heq in Hp.
  - apply Hq, queued_elem. eauto.
  - by apply Hr.
  - apply Hi. rewrite Hp. by eapply cores_elem.
Qed.

Lemma run_on_view T c x th t :
  T !! cur x = Some th →
  (∀ th', T !! t = Some th' → state th' = kThreadStateWaiting →
    t ≠ pick x th ∧ (requeues x th = true → t ≠ cur x)) →
  view <$> threads_after T c x th !! t = view <$> T !! t.
Proof.
  intros Hth Hw.
  assert (view <$> (if requeues x th then <[cur x := with_state kThreadStateRunnable th]> T else T) !! t = view <$> T !! t) as H1.
  { destruct (requeues x th) eqn:Hr; [|done]. destruct (decide (t = cur x)) as [->|Hne]; [|by rewrite lookup_insert_ne].
    rewrite lookup_insert_eq, Hth. simpl. unfold view. simpl. rewrite (bool_decide_eq_false_2 (state th = _)); [done|].
    intros Hst. by apply (Hw th Hth Hst). }
  unfold threads_after. destruct (decide (t = pick x th)) as [->|Hne]; [|by rewrite lookup_alter_ne].
  rewrite <-H1, lookup_alter_eq. destruct (_ !! pick x th) as [th1|] eqn:E1 at 1 2; [|done]. simpl. f_equal.
  unfold view at 1 2. simpl. f_equal. rewrite E1 in H1. simpl in H1. symmetry in H1.
  apply fmap_Some in H1 as (th' & Hth' & Hv). injection Hv as Hv1 Hv2. rewrite Hv2. symmetry.
  apply bool_decide_eq_false_2. intros Hst. by destruct (Hw th' Hth' Hst).
Qed.

(** The thread a CPU runs, and its IPL. *)
Definition face (x : kcpu) : nat * Z := (curthread x, ipl x).
Lemma face_other s s' c c' y :
  cores s' = <[c := y]> (cores s) → ipl <$> cpus s' = ipl <$> cpus s → c' ≠ c →
  face <$> cpus s' !! c' = face <$> cpus s !! c'.
Proof.
  intros Hcs Hi Hne. pose proof (f_equal (.!! c') Hcs) as H1. pose proof (f_equal (.!! c') Hi) as H2.
  simpl in H1, H2. rewrite list_lookup_insert_ne in H1 by done. unfold cores in H1.
  rewrite !list_lookup_fmap in H1. rewrite !list_lookup_fmap in H2.
  destruct (cpus s' !! c') as [x'|], (cpus s !! c') as [x|]; try done. simpl in *. unfold face.
  injection H1 as _ -> _. by injection H2 as ->.
Qed.

(** A switch on [c] leaves every thread's status and sleep alone, and what the other
    CPUs run. *)
Lemma resched_run callback c x th s n s' :
  sleep_at (Some c) s → cpus s !! c = Some x → threads s !! curthread x = Some th →
  ki_reschedule callback c s = Ok (n, s') →
  sleep_ok s' ∧ same_views (threads s) (threads s') ∧ idle <$> cores s' = idle <$> cores s ∧
  (∀ c', c' ≠ c → face <$> cpus s' !! c' = face <$> cpus s !! c') ∧ ∃ b, Rcu.ki_rcu_quiet c (rcu s) = Ok (b, rcu s').
Proof.
  intros Hs Hx Hth Hrun. pose proof Hs as [Hok Hm Hlen Hw]. pose proof (cores_lookup _ _ _ Hx) as Hcx.
  destruct (resched_rcu callback c x th s n s' Hok Hx Hth Hrun) as (Hipl & b & r & Hrcu).
  pose proof (ki_reschedule_ok callback c x th s b r Hok Hm Hlen Hx Hipl Hth Hrcu) as Hpost.
  apply (wp_run _ _ _ _ _ Hpost) in Hrun as (_ & Hok' & Hm' & Hcs & HT & _ & Hip & Hr'). clear Hpost.
  assert (idle <$> cores s' = idle <$> cores s) as Hidle by (rewrite Hcs; by eapply idle_insert).
  assert (same_views (threads s) (threads s')) as Hviews.
  { intros t. rewrite HT. apply run_on_view; [done|]. intros. by eapply waiting_not_picked. }
  split_and!; [|done|done|intros c' Hne; by eapply face_other|exists b; by rewrite Hr']. split; [done|done|..].
  { apply (f_equal length) in Hcs. unfold cores in Hcs. rewrite length_insert, !length_fmap in Hcs. by rewrite Hcs. }
  intros t th2 Ht Hst. assert (∃ th', threads s !! t = Some th' ∧ state th' = kThreadStateWaiting) as (th' & Ht' & Hst').
  { specialize (Hviews t). rewrite Ht in Hviews. symmetry in Hviews. apply fmap_Some in Hviews as (th' & Hth' & Hv).
    exists th'. split; [done|]. injection Hv as _ Hv. rewrite bool_decide_eq_true_2 in Hv by done.
    symmetry in Hv. by apply bool_decide_eq_true_1 in Hv. }
  destruct (waiting_not_picked c s x th t th' Hs Hx Hth Ht' Hst') as [Hnp Hnr].
  destruct (Hw t th' Ht' Hst') as [Hn Hcur]. rewrite Hidle, Hcs. split.
  - rewrite not_elem_of_app in Hn |- *. destruct Hn as [Hq Hi]. split; [|done].
    intros [?|[Hr Heq]]%(queued_after _ _ _ _ _ Hcx); [done|]. by apply Hnr in Hr.
  - intros c' y Hy Hcy. destruct (cores_after _ _ _ _ _ _ Hcx Hy) as [[-> ->]|[Hne Hy']]; [done|].
    specialize (Hcur c' y Hy' Hcy). congruence.
Qed.

(** Updating a thread that is neither queued nor an idle thread. *)
Lemma sched_inv_upd T cs t th :
  sched_inv T cs → t ∉ queued cs ++ (idle <$> cs) → sched_inv (<[t := th]> T) cs.
Proof.
  intros [Hnd Hidle Hinj Hlive Hq Hrun] Ht. apply not_elem_of_app in Ht as [Hnq Hni].
  assert (∀ c x, cs !! c = Some x → t ≠ idle x) as Hne.
  { intros c x Hc ->. apply Hni. apply list_elem_of_fmap. exists x. split; [done|]. by eapply list_elem_of_lookup_2. }
  split; try done.
  - intros c x Hc. destruct (Hlive c x Hc). rewrite !lookup_insert_is_Some'. auto.
  - intros t' Ht'. rewrite lookup_insert_ne by (intros ->; done). by apply Hq.
  - intros c x th' Hc Hcur. rewrite lookup_insert_ne by (by eapply Hne). by eapply Hrun.
Qed.

(** Only the IPL and the like of CPUs changed. *)
Lemma sleep_same_cores c s s' :
  threads s' = threads s → cores s' = cores s → idle_mask s' = idle_mask s → sleep_at c s → sleep_at c s'.
Proof.
  intros HT Hcs Hm [Hok Hmask Hlen Hw]. split; unfold sched_ok, mask_ok in *; rewrite ?HT, ?Hcs, ?Hm; try done.
  apply (f_equal length) in Hcs. unfold cores in Hcs. rewrite !length_fmap in Hcs. by rewrite Hcs.
Qed.

(** Changing no thread's state; putting the one that runs
    on [c] to sleep; and making a waiting one runnable on [c]. *)
Lemma sleep_states c s s' :
  (∀ t, state <$> threads s' !! t = state <$> threads s !! t) → cores s' = cores s → idle_mask s' = idle_mask s →
  sleep_at c s → sleep_at c s'.
Proof.
  intros HT Hcs Hms [Hok Hm Hlen Hw].
  assert (∀ t th', threads s' !! t = Some th' → ∃ th, threads s !! t = Some th ∧ state th = state th') as Hback.
  { intros t th' Ht. specialize (HT t). rewrite Ht in HT. symmetry in HT. apply fmap_Some in HT as (th & ? & ?). eauto. }
  assert (∀ t th, threads s !! t = Some th → ∃ th', threads s' !! t = Some th' ∧ state th' = state th) as Hforw.
  { intros t th Ht. specialize (HT t). rewrite Ht in HT. apply fmap_Some in HT as (th' & ? & ?). eauto. }
  split.
  - destruct Hok as [Hnd Hidle Hinj Hlive Hq Hrun]. split; rewrite ?Hcs; try done.
    + intros c1 x Hc. destruct (Hlive c1 x Hc) as [[? (? & ? & _)%Hforw] [? (? & ? & _)%Hforw]]. eauto.
    + intros t Ht. destruct (Hq t Ht) as (th & (th' & ? & Heq)%Hforw & ?). exists th'. by rewrite Heq.
    + intros c1 x th' Hc Hcur (th & Hth & <-)%Hback. by eapply Hrun.
  - unfold mask_ok. by rewrite Hcs, Hms.
  - apply (f_equal length) in Hcs. unfold cores in Hcs. rewrite !length_fmap in Hcs. by rewrite Hcs.
  - rewrite Hcs. intros t th' (th & Hth & <-)%Hback. by apply Hw.
Qed.
Lemma sleep_upd c s t th th' :
  threads s !! t = Some th → state th' = state th →
  sleep_at c s → sleep_at c (set_threads (<[t := th']> (threads s)) s).
Proof.
  intros Ht Heq. apply sleep_states; [|done..]. intros t'. simpl.
  destruct (decide (t' = t)) as [->|Hne]; [|by rewrite lookup_insert_ne].
  rewrite lookup_insert_eq, Ht. simpl. by rewrite Heq.
Qed.

Lemma sleep_commit c s x t th' :
  sleep_ok s → cores s !! c = Some x → cur x = t → t ∉ (idle <$> cores s) →
  sleep_at (Some c) (set_threads (<[t := th']> (threads s)) s).
Proof.
  intros [Hok Hm Hlen Hw] Hx Hcur Hni. assert (t ∉ queued (cores s)) as Hnq.
  { pose proof (so_nodup _ _ Hok) as Hnd. apply NoDup_app in Hnd as (_ & Hd & _). intros Hq.
    apply (Hd t Hq). rewrite <-Hcur. by eapply cores_elem. }
  split; try done.
  - apply sched_inv_upd; [done|]. by rewrite not_elem_of_app.
  - simpl. intros t' th1 Ht' Hst. destruct (decide (t' = t)) as [->|Hne].
    + split; [by rewrite not_elem_of_app|]. intros c' y Hy Hcy. f_equal.
      pose proof (so_nodup _ _ Hok) as Hnd. apply NoDup_app in Hnd as (_ & _ & Hnd).
      eapply (NoDup_lookup _ _ _ t Hnd); rewrite list_lookup_fmap.
      * rewrite Hx. simpl. by rewrite Hcur.
      * change (cores s !! c' = Some y) in Hy. rewrite Hy. simpl. by rewrite Hcy.
    + rewrite lookup_insert_ne in Ht' by done. destruct (Hw t' th1 Ht' Hst) as [? Hc]. split; [done|].
      intros c' y Hy Hcy. by specialize (Hc c' y Hy Hcy).
Qed.

Definition runnable (th : kthread) : kthread := with_state kThreadStateRunnable th.

Lemma sleep_resume c s s' t th y :
  sleep_ok s → threads s !! t = Some th → state th = kThreadStateWaiting →
  cores s !! c = Some y → threads s' = <[t := runnable th]> (threads s) →
  cores s' = <[c := Core (t :: rq y) (cur y) (idle y)]> (cores s) → idle_mask s' = idle_mask s → sleep_ok s'.
Proof.
  intros [Hok Hm Hlen Hw] Hth Hst Hy HT Hcs Hms. destruct (Hw t th Hth Hst) as [[Hnq Hni]%not_elem_of_app Hcur].
  assert (t ∉ (cur <$> cores s)) as Hnc.
  { intros (z & Hz & [c' Hc']%list_elem_of_lookup)%list_elem_of_fmap. by specialize (Hcur c' z Hc' (eq_sym Hz)). }
  split.
  - unfold sched_ok. rewrite Hcs, HT. eapply resume_inv; [|done|apply lookup_insert_eq|by left|].
    + apply sched_inv_upd; [done|]. by rewrite not_elem_of_app.
    + by rewrite !not_elem_of_app.
  - unfold mask_ok. rewrite Hcs, Hms. intros c1 x1 H1.
    destruct (cores_after _ _ _ _ _ _ Hy H1) as [[-> ->]|[_ ?]]; [by apply (Hm _ y)|by apply Hm].
  - apply (f_equal length) in Hcs. unfold cores in Hcs. rewrite length_insert, !length_fmap in Hcs. by rewrite Hcs.
  - rewrite Hcs, HT. intros t1 th1 Ht1 Hst1. assert (t1 ≠ t) as Hne.
    { intros ->. rewrite lookup_insert_eq in Ht1. by injection Ht1 as <-. }
    rewrite lookup_insert_ne in Ht1 by done. destruct (Hw t1 th1 Ht1 Hst1) as [[Hn1 Hn2]%not_elem_of_app Hcur1].
    rewrite (idle_insert _ _ y) by done. split.
    + rewrite not_elem_of_app. split; [|done]. intros (c2 & x2 & H2 & Hin)%queued_elem. apply Hn1, queued_elem.
      destruct (cores_after _ _ _ _ _ _ Hy H2) as [[-> ->]|[_ ?]]; [|eauto].
      exists c, y. split; [done|]. simpl in Hin. set_solver.
    + intros c2 x2 H2. destruct (cores_after _ _ _ _ _ _ Hy H2) as [[-> ->]|[_ ?]]; [|eauto].
      intros Heq. by eapply (Hcur1 c y).
Qed.

(** Waking a thread. *)
Lemma wake_run me t s s' :
  sleep_ok (sch s) → ki_wake_waiter me t s = Ok ((), s') →
  ∃ th, thr s !! t = Some th ∧ state th = kThreadStateWaiting ∧ wait_status th = kInternalWaitStatusSatisfied ∧
    thr s' = <[t := runnable th]> (thr s) ∧ sleep_ok (sch s') ∧
    idle <$> cores (sch s') = idle <$> cores (sch s) ∧ hdrs s' = hdrs s ∧ wbs s' = wbs s ∧ tport s' = tport s ∧
    face <$> cpus (sch s') = face <$> cpus (sch s) ∧ rcu (sch s') = rcu (sch s).
Proof.
  intros Hs Hrun. assert (wp (ki_wake_waiter me t) (λ _ s1, s1 = s') s) as Hwp by (unfold wp; by rewrite Hrun).
  unfold ki_wake_waiter in Hwp. rewrite wp_bind, wp_thread_get in Hwp. destruct Hwp as (th & Hth & Hwp).
  rewrite wp_bind, wp_kassert in Hwp.
  destruct Hwp as [[Hst%bool_decide_eq_true_1 Hws%bool_decide_eq_true_1]%andb_true_iff Hwp].
  unfold in_sched in Hwp. rewrite wp_zoom, wp_bind, wp_thread_upd in Hwp. destruct Hwp as (th' & Hth' & Hwp).
  unfold thr in Hth. rewrite Hth in Hth'. injection Hth' as <-. unfold ki_thread_resume_locked, splget in Hwp.
  rewrite !wp_bind, wp_cpu_at in Hwp. destruct Hwp as (x & Hx & Hwp). rewrite wp_ret, wp_bind, wp_kassert in Hwp.
  destruct Hwp as [_ Hwp]. rewrite wp_bind, wp_get, wp_bind, wp_cpu_upd in Hwp. simpl in Hwp.
  destruct Hwp as (y & Hy & Hwp). rewrite wp_cpu_upd in Hwp. destruct Hwp as (y' & Hy' & <-).
  pose proof (lookup_lt_Some _ _ _ Hy) as Hlt. simpl in Hy'.
  rewrite list_lookup_insert_eq in Hy' by done. injection Hy' as <-. simpl. rewrite list_insert_insert_eq.
  exists th. split_and!; try done.
  - eapply (sleep_resume _ _ _ t th (core_of y)); [done|done|done|by apply cores_lookup|done| |done].
    unfold cores. simpl. by rewrite list_fmap_insert.
  - unfold cores. simpl. rewrite list_fmap_insert. by eapply idle_insert; [by apply cores_lookup|].
  - simpl. by apply (fmap_insert_same _ _ _ y).
Qed.

(** Other threads' queues, the clock and the DPCs of every CPU are left alone. *)
Definition on_queue (s : sched) (t : nat) : Prop := ∃ c x, cpus s !! c = Some x ∧ t ∈ runqueue x.
Definition clock_of (x : kcpu) : list nat * Z * Z * list nat := (timer_queue x, nanos x, ipl x, dpc_queue x).
Record woke (s s' : sched) : Prop := Woke {
  wk_mask : idle_mask s' = idle_mask s;
  wk_dpc : dpc_cpu s' = dpc_cpu s;
  wk_len : length (cpus s') = length (cpus s);
  wk_cpu : ∀ c x, cpus s !! c = Some x → ∃ x', cpus s' !! c = Some x' ∧ clock_of x' = clock_of x ∧
    ∀ t, t ∈ runqueue x → t ∈ runqueue x'
}.
Lemma woke_refl s : woke s s.
Proof. split; try done. intros c x Hx. by exists x. Qed.
Lemma woke_trans s1 s2 s3 : woke s1 s2 → woke s2 s3 → woke s1 s3.
Proof.
  intros [? ? ? H1] [? ? ? H2]. split; [congruence..|]. intros c x Hx. destruct (H1 c x Hx) as (x2 & Hx2 & ? & ?).
  destruct (H2 c x2 Hx2) as (x3 & ? & ? & ?). exists x3. split_and!; [done|congruence|auto].
Qed.
Lemma woke_queue s s' t : woke s s' → on_queue s t → on_queue s' t.
Proof. intros Hw (c & x & Hx & Ht). destruct (wk_cpu _ _ Hw c x Hx) as (x' & ? & _ & ?). exists c, x'. auto. Qed.

(** On a CPU at DPC level it returns, and the thread is on a run queue. *)
Lemma wake_one me x t th s :
  cpus (sch s) !! me = Some x → ipl x = kIPLDPC → thr s !! t = Some th →
  state th = kThreadStateWaiting → wait_status th = kInternalWaitStatusSatisfied →
  (length (cpus (sch s)) ≤ 31)%nat → 0 ≤ idle_mask (sch s) < 2 ^ Z.of_nat (length (cpus (sch s))) →
  wp (ki_wake_waiter me t) (λ _ s',
    hdrs s' = hdrs s ∧ wbs s' = wbs s ∧ timers s' = timers s ∧ thr s' = <[t := runnable th]> (thr s) ∧
    woke (sch s) (sch s') ∧ on_queue (sch s') t) s.
Proof.
  intros Hx Hipl Hth Hst Hws Hlen Hmask.
  destruct (choose_cpu_idle me (idle_mask (sch s)) _ Hmask Hlen (lookup_lt_Some _ _ _ Hx)) as [Hlt _].
  destruct (lookup_lt_is_Some_2 _ _ Hlt) as [y Hy].
  unfold ki_wake_waiter. rewrite wp_bind, wp_thread_get. exists th. split; [done|].
  rewrite wp_bind, wp_kassert. split; [by rewrite Hst, Hws, !bool_decide_eq_true_2|].
  unfold in_sched. rewrite wp_zoom, wp_bind, wp_thread_upd. exists th. split; [done|].
  unfold ki_thread_resume_locked, splget. rewrite !wp_bind, wp_cpu_at. exists x. split; [done|].
  rewrite wp_ret, wp_bind, wp_kassert. split; [by rewrite Hipl|].
  rewrite wp_bind, wp_get, wp_bind, wp_cpu_upd. exists y. split; [done|]. rewrite wp_cpu_upd. simpl.
  rewrite list_lookup_insert_eq by done. eexists. split; [done|]. rewrite list_insert_insert_eq.
  split_and!; try done.
  - split; simpl; try done; [by rewrite length_insert|]. intros c z Hz.
    destruct (decide (c = choose_cpu me (idle_mask (sch s)))) as [->|Hne].
    + rewrite list_lookup_insert_eq by done. rewrite Hy in Hz. injection Hz as <-. eexists. split_and!; [done|done|].
      simpl. set_solver.
    + rewrite list_lookup_insert_ne by done. by exists z.
  - exists (choose_cpu me (idle_mask (sch s))). simpl. rewrite list_lookup_insert_eq by done. eexists. split; [done|]. simpl. set_solver.
Qed.
Lemma wake_runs me x t th s :
  cpus (sch s) !! me = Some x → ipl x = kIPLDPC → thr s !! t = Some th →
  state th = kThreadStateWaiting → wait_status th = kInternalWaitStatusSatisfied →
  (length (cpus (sch s)) ≤ 31)%nat → 0 ≤ idle_mask (sch s) < 2 ^ Z.of_nat (length (cpus (sch s))) →
  ∃ s', ki_wake_waiter me t s = Ok ((), s').
Proof.
  intros. assert (wp (ki_wake_waiter me t) (λ _ _, True) s) as Hw by (eapply wp_mono; [by eapply wake_one|done]).
  apply wp_ok in Hw as ([] & s' & ? & _). eauto.
Qed.
