(* ===== verification/WaitProofs.v ===== *)
(** Waiting on a semaphore (kernel/kern/wait.c, semaphore.c, with the scheduler of
    sched.c): any number of threads wait for one semaphore, without a timeout and for
    nothing else, while others release it.  The steps of the machine are the lock sections
    of the code, and they interleave in any order. *)
From S2P Require Import Prelude Rcu Sched SchedProofs Dispatch DispatchProofs.
Import Sched Dispatch.
Local Open Scope Z_scope.

(** ** The machine *)

Section machine.
(** The semaphore, the IPL [ke_wait] is called at, and the DPCs' callbacks. *)
Context (o : nat) (lvl : Z) (callback : nat → kern sched ()).

(** [ke_wait(o, ..., -1)] by thread [t], with its first built-in wait block. *)
Definition call (t : nat) : wait_call := WaitCall t [o] [t] 1 None lvl.

(** [pcs] are the threads inside [ke_wait]; [pending] the wait blocks a releaser
    has yet to wake.  The rest is bookkeeping: [held] are the threads that were
    granted a unit and have not returned yet. *)
Record mst := Mst {
  ks : kst;
  pcs : gmap nat wait_pc;
  pending : list nat;
  held : list nat;
  released : Z;
  returned : Z
}.

Definition queue_of (s : kst) : list nat := default [] (waitblock_queue <$> hdrs s !! o).

(** The wait blocks granted between two states. *)
Definition granted (s s' : kst) : list nat :=
  filter (λ w, unsatisfied s w = true ∧ unsatisfied s' w = false) (queue_of s).

Definition runs_on (s : kst) (me t : nat) : Prop :=
  ∃ x, cpus (sch s) !! me = Some x ∧ curthread x = t.

(** The machine after thread [t] went from [pc] to [pc']. *)
Definition moved (m : mst) (t : nat) (pc pc' : wait_pc) (s' : kst) : mst :=
  match pc' with
  | Returned _ => Mst s' (delete t (pcs m)) (pending m) (filter (.≠ t) (held m)) (released m) (returned m + 1)
  | Early _ _ _ =>
      Mst s' (<[t := pc']> (pcs m)) (pending m)
        (match pc with Setup _ => t :: held m | _ => held m end) (released m) (returned m)
  | _ => Mst s' (<[t := pc']> (pcs m)) (pending m) (held m) (released m) (returned m)
  end.
Definition with_ks (s' : kst) (m : mst) : mst :=
  Mst s' (pcs m) (pending m) (held m) (released m) (returned m).

Definition ipl_of (s : kst) (c : nat) : option Z := ipl <$> cpus (sch s) !! c.
(** The thread that runs on CPU [c] is not inside [ke_wait]. *)
Definition outside (m : mst) (c : nat) : Prop := ∀ x, cpus (sch (ks m)) !! c = Some x → pcs m !! curthread x = None.

(** A thread that runs at [lvl] (and is on no port) calls [ke_wait]; it executes its next
    section; somebody releases the semaphore; a releaser wakes one of the threads that are
    to be woken; a CPU reschedules, or changes its IPL, while its thread is outside
    [ke_wait], which runs at DPC level. *)
Inductive mstep : mst → mst → Prop :=
  | m_start me t m :
      pcs m !! t = None → runs_on (ks m) me t → ipl_of (ks m) me = Some lvl → t ∉ (idle <$> cores (sch (ks m))) →
      tport (ks m) !! t = None →
      mstep m (Mst (ks m) (<[t := Begin]> (pcs m)) (pending m) (held m) (released m) (returned m))
  | m_section me t pc pc' s' m :
      pcs m !! t = Some pc → runs_on (ks m) me t →
      wait_section callback me (call t) pc (ks m) = Ok (pc', s') →
      mstep m (moved m t pc pc' s')
  | m_release n wk s' h m :
      0 < n → hdrs (ks m) !! o = Some h → signalled h + n < 2 ^ 31 →
      semaphore_release_locked o n (ks m) = Ok (wk, s') →
      mstep m (Mst s' (pcs m) (pending m ++ wk) (held m ++ granted (ks m) s') (released m + n) (returned m))
  | m_wake me w b l1 l2 s' m :
      pending m = l1 ++ w :: l2 → wbs (ks m) !! w = Some b →
      ki_wake_waiter me (wthread b) (ks m) = Ok ((), s') →
      mstep m (Mst s' (pcs m) (l1 ++ l2) (held m) (released m) (returned m))
  | m_resched c n s' m :
      outside m c →
      in_sched (ki_reschedule callback c) (ks m) = Ok (n, s') →
      mstep m (with_ks s' m)
  | m_spl c l s' m :
      outside m c →
      in_sched (splx c l) (ks m) = Ok ((), s') →
      mstep m (with_ks s' m).

(** From a semaphore with [n0] units that nobody waits for. *)
Inductive mreach (s0 : kst) (n0 : Z) : mst → Prop :=
  | mreach_init : mreach s0 n0 (Mst s0 ∅ [] [] n0 0)
  | mreach_step m m' : mreach s0 n0 m → mstep m m' → mreach s0 n0 m'.

(** ** The invariant *)

(** What the protocol reads of a thread: its status and whether it sleeps, its wait
    block, and whether it is queued, yet to be woken, and granted a unit. *)
Record tfacts := Facts {
  f_view : option (kinternalwaitstatus * bool);
  f_wb : option (kwaitblockstatus * nat);
  f_queued : bool;
  f_pending : bool;
  f_held : bool
}.
Definition facts (m : mst) (t : nat) : tfacts :=
  Facts (view <$> thr (ks m) !! t) ((λ b, (block_status b, wthread b)) <$> wbs (ks m) !! t)
    (bool_decide (t ∈ queue_of (ks m))) (bool_decide (t ∈ pending m)) (bool_decide (t ∈ held m)).

(** Thread [t] not in [ke_wait], or at each place in it. *)
Definition waiter_ok (t : nat) (pc : option wait_pc) (f : tfacts) : Prop :=
  let wb st := Some (st, t) in
  match pc with
  | None => f_queued f = false ∧ f_pending f = false ∧ f_held f = false
  | Some Begin =>
      ∃ st, f_view f = Some (st, false) ∧ f_queued f = false ∧ f_pending f = false ∧ f_held f = false
  | Some (Setup O) =>
      f_view f = Some (kInternalWaitStatusPreparing, false) ∧
      f_queued f = false ∧ f_pending f = false ∧ f_held f = false
  | Some (Setup 1) | Some Commit =>
      f = Facts (Some (kInternalWaitStatusPreparing, false)) (wb kWaitBlockStatusActive) true false false ∨
      f = Facts (Some (kInternalWaitStatusSatisfied, false)) (wb kWaitBlockStatusAcquired) false false true
  | Some Asleep =>
      f = Facts (Some (kInternalWaitStatusWaiting, true)) (wb kWaitBlockStatusActive) true false false ∨
      ∃ sl, f = Facts (Some (kInternalWaitStatusSatisfied, sl)) (wb kWaitBlockStatusAcquired) false sl true
  | Some (Early O O (Some O)) =>
      f_view f = Some (kInternalWaitStatusSatisfied, false) ∧
      f_queued f = false ∧ f_pending f = false ∧ f_held f = true
  | Some (Finish O None) | Some (Finish 1 (Some O)) =>
      f = Facts (Some (kInternalWaitStatusSatisfied, false)) (wb kWaitBlockStatusAcquired) false false true
  | _ => False
  end.

(** The semaphore: never signalled while somebody is queued, and every unit is
    free, granted or returned with. *)
Definition sem_ok (m : mst) (h : kdispatchheader) : Prop :=
  htype h = kDispatchSemaphore ∧ 0 ≤ signalled h ∧ (0 < signalled h → waitblock_queue h = []) ∧
  signalled h + Z.of_nat (length (held m)) + returned m = released m.

Record minv (m : mst) : Prop := Minv {
  mi_sem : ∃ h, hdrs (ks m) !! o = Some h ∧ sem_ok m h;
  mi_count : 0 ≤ returned m;
  mi_queue : NoDup (queue_of (ks m));
  mi_pend : NoDup (pending m);
  mi_held : NoDup (held m);
  mi_sleep : sleep_ok (sch (ks m));
  mi_idle : ∀ t, is_Some (pcs m !! t) → t ∉ (idle <$> cores (sch (ks m))) ∧ tport (ks m) !! t = None;
  mi_waiter : ∀ t, waiter_ok t (pcs m !! t) (facts m t)
}.

(** Between raising the IPL and switching away. *)
Definition at_dpc (pc : wait_pc) : Prop := match pc with Setup _ | Commit => True | _ => False end.
(** What a section of thread [t] on CPU [me] does to the CPUs and to RCU. *)
Definition tame (me t : nat) (pc pc' : wait_pc) (s s' : kst) : Prop :=
  (∀ c, c ≠ me → face <$> cpus (sch s') !! c = face <$> cpus (sch s) !! c) ∧
  (at_dpc pc' → face <$> cpus (sch s') !! me = Some (t, kIPLDPC) ∨ at_dpc pc ∧ cpus (sch s') = cpus (sch s)) ∧
  (rcu (sch s') = rcu (sch s) ∨ ∃ b, Rcu.ki_rcu_quiet me (rcu (sch s)) = Ok (b, rcu (sch s'))).
Definition stepped (m : mst) (me t : nat) (pc pc' : wait_pc) (s' : kst) : Prop :=
  minv (moved m t pc pc' s') ∧ tame me t pc pc' (ks m) s'.

Lemma tame_same me t pc pc' s s' :
  cpus (sch s') = cpus (sch s) → rcu (sch s') = rcu (sch s) → (at_dpc pc' → at_dpc pc) → tame me t pc pc' s s'.
Proof. intros Hc Hr Hp. split_and!; [by rewrite Hc|auto|by left]. Qed.
Lemma tame_ipl me t x l pc pc' s s' :
  cpus (sch s) !! me = Some x → curthread x = t → cpus (sch s') = <[me := with_ipl l x]> (cpus (sch s)) →
  rcu (sch s') = rcu (sch s) → (at_dpc pc' → l = kIPLDPC) → tame me t pc pc' s s'.
Proof.
  intros Hx Hcur Hc Hr Hp. split_and!; [|intros ->%Hp; left|by left].
  - intros c Hne. by rewrite Hc, list_lookup_insert_ne.
  - rewrite Hc, list_lookup_insert_eq by (by eapply lookup_lt_Some). simpl. unfold face. simpl. by rewrite Hcur.
Qed.

(** ** Steps of one thread *)

(** [m'] differs from [m] in thread [t] only. *)
Lemma minv_at m m' t h :
  minv m → hdrs (ks m') !! o = Some h → sem_ok m' h → 0 ≤ returned m' →
  NoDup (queue_of (ks m')) → NoDup (pending m') → NoDup (held m') →
  sleep_ok (sch (ks m')) → idle <$> cores (sch (ks m')) = idle <$> cores (sch (ks m)) →
  tport (ks m') = tport (ks m) →
  (is_Some (pcs m' !! t) → t ∉ (idle <$> cores (sch (ks m))) ∧ tport (ks m) !! t = None) →
  (∀ t', t' ≠ t → pcs m' !! t' = pcs m !! t' ∧ facts m' t' = facts m t') →
  waiter_ok t (pcs m' !! t) (facts m' t) → minv m'.
Proof.
  intros [_ _ _ _ _ _ Hi Hw] Hh Hsem Hcnt Hq Hp Hd Hsl Hid Htp Hit Hoth Ht. split; eauto.
  - intros t' Ht'. rewrite Hid, Htp. destruct (decide (t' = t)) as [->|Hne]; [by apply Hit|].
    apply Hi. by destruct (Hoth t' Hne) as [<- _].
  - intros t'. destruct (decide (t' = t)) as [->|Hne]; [done|]. destruct (Hoth t' Hne) as [-> ->]. apply Hw.
Qed.

Lemma view_thr m t st sl :
  f_view (facts m t) = Some (st, sl) →
  ∃ th, thr (ks m) !! t = Some th ∧ wait_status th = st ∧ bool_decide (state th = kThreadStateWaiting) = sl.
Proof. simpl. intros (th & Hth & [= -> ->])%fmap_Some. eauto. Qed.

Lemma wp_splraise_k me l Q s :
  wp (in_sched (splraise me l)) Q s ↔ ∃ x, cpus (sch s) !! me = Some x ∧
    Q (ipl x) (set_sch (set_cpus (<[me := with_ipl l x]> (cpus (sch s))) (sch s)) s).
Proof.
  unfold in_sched, splraise. rewrite wp_zoom, wp_bind, wp_cpu_at. split.
  - intros (x & Hx & Hw). rewrite wp_bind, wp_cpu_upd in Hw. destruct Hw as (y & Hy & Hw).
    rewrite Hx in Hy. injection Hy as <-. exists x. by split.
  - intros (x & Hx & Hw). exists x. split; [done|]. rewrite wp_bind, wp_cpu_upd. exists x. by split.
Qed.
Lemma wp_splx_k me l (Q : () → kst → Prop) s :
  wp (in_sched (splx me l)) Q s ↔ ∃ x, cpus (sch s) !! me = Some x ∧
    Q () (set_sch (set_cpus (<[me := with_ipl l x]> (cpus (sch s))) (sch s)) s).
Proof. unfold in_sched, splx. by rewrite wp_zoom, wp_cpu_upd. Qed.
Lemma cores_ipl s me x l : cpus s !! me = Some x → cores (set_cpus (<[me := with_ipl l x]> (cpus s)) s) = cores s.
Proof. intros Hx. unfold cores. simpl. by apply (fmap_insert_same _ _ _ x). Qed.
Lemma sleep_ipl c s me x l :
  cpus s !! me = Some x → sleep_at c s → sleep_at c (set_cpus (<[me := with_ipl l x]> (cpus s)) s).
Proof. intros Hx. apply sleep_same_cores; [done|by apply cores_ipl|done]. Qed.

(** Looking at the other threads' facts. *)
Ltac others :=
  intros t' Hne; split;
  [by rewrite ?lookup_insert_ne, ?lookup_delete_ne by done
  |unfold facts, queue_of, thr; simpl; by rewrite ?lookup_insert_ne by done].

Lemma begin_ok me m t :
  minv m → pcs m !! t = Some Begin → runs_on (ks m) me t →
  wp (wait_section callback me (call t) Begin) (stepped m me t Begin) (ks m).
Proof.
  intros Hi Hpc (x & Hx & Hcur). pose proof (mi_waiter _ Hi t) as Hw. rewrite Hpc in Hw.
  destruct Hw as (st & (th & Hth & <- & Hsl)%view_thr & Hq & Hp & Hh).
  destruct (mi_sem _ Hi) as (h & Hhd & Hsem). simpl. rewrite wp_bind, wp_splraise_k. exists x. split; [done|].
  rewrite wp_bind, wp_ret, wp_bind, wp_thread_set. exists th. split; [done|]. rewrite wp_ret.
  split; [|by eapply tame_ipl].
  eapply (minv_at m _ t h); simpl; try apply Hi; try done.
  - eapply sleep_upd; [done|done|]. apply sleep_ipl; [done|apply Hi].
  - exact (f_equal (fmap idle) (cores_ipl _ me x kIPLDPC Hx)).
  - intros _. apply Hi. by rewrite Hpc.
  - others.
  - rewrite lookup_insert_eq. simpl. unfold thr. simpl. rewrite lookup_insert_eq. simpl in *. unfold view. simpl.
    by rewrite Hsl.
Qed.

Lemma not_held m t : f_held (facts m t) = false → t ∉ held m.
Proof. apply bool_decide_eq_false_1. Qed.
Lemma not_queued m t : f_queued (facts m t) = false → t ∉ queue_of (ks m).
Proof. apply bool_decide_eq_false_1. Qed.
Lemma queue_of_at s h : hdrs s !! o = Some h → queue_of s = waitblock_queue h.
Proof. intros Hh. unfold queue_of. by rewrite Hh. Qed.

(** A unit is taken at once. *)
Lemma take_ok m t th h s' :
  minv m → pcs m !! t = Some (Setup 0) → hdrs (ks m) !! o = Some h → thr (ks m) !! t = Some th →
  0 < signalled h →
  s' = set_hdrs (<[o := set_signalled (signalled h - 1) h]> (hdrs (ks m))) (set_thr (<[t := satisfy th]> (thr (ks m))) (ks m)) →
  minv (moved m t (Setup 0) (Early 0 0 (Some 0%nat)) s').
Proof.
  intros Hi Hpc Hhd Hth Hsig ->. pose proof (mi_waiter _ Hi t) as Hw. rewrite Hpc in Hw.
  destruct Hw as ((th' & Hth' & Hst & Hsl)%view_thr & Hq & Hp & Hh). rewrite Hth in Hth'. injection Hth' as <-.
  destruct (mi_sem _ Hi) as (h' & Hhd' & Hty & Hnn & Hempty & Hsum). rewrite Hhd in Hhd'. injection Hhd' as <-.
  set (s' := set_hdrs _ _). assert (queue_of s' = queue_of (ks m)) as Hqq.
  { rewrite (queue_of_at (ks m) h) by done. rewrite (queue_of_at s' (set_signalled (signalled h - 1) h)); [done|].
    apply lookup_insert_eq. }
  eapply (minv_at m _ t (set_signalled (signalled h - 1) h)); simpl; try apply Hi; try done.
  - apply lookup_insert_eq.
  - unfold sem_ok. simpl. rewrite Hempty by done. split_and!; [done|lia|done|lia].
  - rewrite Hqq. apply Hi.
  - constructor; [by apply not_held|apply Hi].
  - eapply sleep_upd; [done|done|apply Hi].
  - intros _. apply Hi. by rewrite Hpc.
  - intros t' Hne. split; [by rewrite lookup_insert_ne by done|]. unfold facts. simpl. rewrite Hqq. f_equal.
    + unfold thr. simpl. by rewrite lookup_insert_ne.
    + apply bool_decide_ext. set_solver.
  - rewrite lookup_insert_eq. simpl. unfold thr. simpl. rewrite lookup_insert_eq. simpl. unfold view. simpl.
    rewrite Hsl, Hqq. split_and!; [done..|by apply bool_decide_eq_true_2; set_solver].
Qed.

(** The wait block joins the queue. *)
Lemma enqueue_ok m t th h s' :
  minv m → pcs m !! t = Some (Setup 0) → hdrs (ks m) !! o = Some h → thr (ks m) !! t = Some th →
  signalled h ≤ 0 →
  s' = set_hdrs (<[o := set_queue (waitblock_queue h ++ [t]) h]> (hdrs (ks m)))
         (set_wbs (<[t := Wb kWaitBlockStatusActive o t]> (wbs (ks m))) (ks m)) →
  minv (moved m t (Setup 0) (Setup 1) s').
Proof.
  intros Hi Hpc Hhd Hth Hsig ->. pose proof (mi_waiter _ Hi t) as Hw. rewrite Hpc in Hw.
  destruct Hw as ((th' & Hth' & Hst & Hsl)%view_thr & Hq & Hp & Hh). rewrite Hth in Hth'. injection Hth' as <-.
  destruct (mi_sem _ Hi) as (h' & Hhd' & Hty & Hnn & Hempty & Hsum). rewrite Hhd in Hhd'. injection Hhd' as <-.
  set (s' := set_hdrs _ _). assert (queue_of s' = queue_of (ks m) ++ [t]) as Hqq.
  { rewrite (queue_of_at (ks m) h) by done. rewrite (queue_of_at s' (set_queue (waitblock_queue h ++ [t]) h)); [done|].
    apply lookup_insert_eq. }
  eapply (minv_at m _ t (set_queue (waitblock_queue h ++ [t]) h)); simpl; try apply Hi; try done.
  - apply lookup_insert_eq.
  - unfold sem_ok. simpl. split_and!; [done|lia|lia|lia].
  - rewrite Hqq. apply NoDup_app. split_and!; [apply Hi| |apply NoDup_singleton].
    intros w Hw ->%list_elem_of_singleton. by apply not_queued in Hq.
  - intros _. apply Hi. by rewrite Hpc.
  - intros t' Hne. split; [by rewrite lookup_insert_ne by done|]. unfold facts. simpl. rewrite Hqq. f_equal.
    + by rewrite lookup_insert_ne.
    + apply bool_decide_ext. set_solver.
  - rewrite lookup_insert_eq. simpl. left. unfold facts. simpl. rewrite Hqq. unfold thr in *. simpl. rewrite Hth. simpl.
    unfold view. rewrite Hst, Hsl, lookup_insert_eq. simpl in *. rewrite Hp, Hh. f_equal.
    apply bool_decide_eq_true_2. set_solver.
Qed.

Lemma setup_ok me m t :
  minv m → pcs m !! t = Some (Setup 0) → 
  wp (wait_section callback me (call t) (Setup 0)) (stepped m me t (Setup 0)) (ks m).
Proof.
  intros Hi Hpc. pose proof (mi_waiter _ Hi t) as Hw. rewrite Hpc in Hw.
  destruct Hw as ((th & Hth & Hst & _)%view_thr & _). destruct (mi_sem _ Hi) as (h & Hhd & Hty & _).
  simpl. unfold wait_setup. simpl. rewrite wp_bind, wp_hdr_at. exists h. split; [done|].
  rewrite wp_bind, wp_thread_get. exists th. split; [done|].
  destruct (Z.ltb_spec 0 (signalled h)) as [Hsig|Hsig].
  - rewrite Hst, wp_bind, wp_thread_set. exists th. split; [done|]. rewrite wp_bind.
    eapply wp_mono; [eapply acquire_ok; [done|by rewrite Hty]|]. simpl. intros [] s1 ->. rewrite wp_ret.
    split; [|by apply tame_same]. eapply take_ok; try done. unfold acquire_hdr. by rewrite Hty.
  - rewrite wp_bind, wp_wb_set, wp_bind, wp_hdr_set, wp_ret.
    split; [|by apply tame_same]. by eapply enqueue_ok.
Qed.

(** Leaving [ke_wait] with a unit. *)
Lemma return_ok me m t pc r :
  minv m → runs_on (ks m) me t →
  f_queued (facts m t) = false → f_pending (facts m t) = false → f_held (facts m t) = true →
  wp (in_sched (splx me lvl);; mret (Returned r)) (stepped m me t pc) (ks m).
Proof.
  intros Hi (x & Hx & Hcur) Hq Hp Hh. destruct (mi_sem _ Hi) as (h & Hhd & Hty & Hnn & Hempty & Hsum).
  apply bool_decide_eq_true_1 in Hh. rewrite wp_bind, wp_splx_k. exists x. split; [done|]. rewrite wp_ret.
  split; [|by eapply tame_ipl].
  eapply (minv_at m _ t h); simpl; try apply Hi; try done.
  - pose proof (filter_ne_length t (held m) (mi_held _ Hi) Hh). unfold sem_ok. simpl. split_and!; try done; lia.
  - pose proof (mi_count _ Hi). lia.
  - apply NoDup_filter, Hi.
  - apply sleep_ipl; [done|apply Hi].
  - exact (f_equal (fmap idle) (cores_ipl _ me x lvl Hx)).
  - rewrite lookup_delete_eq. by intros [].
  - intros t' Hne. split; [by rewrite lookup_delete_ne by done|]. unfold facts. simpl. f_equal.
    apply bool_decide_ext. rewrite list_elem_of_filter. tauto.
  - rewrite lookup_delete_eq. simpl. split_and!; [done..|]. apply bool_decide_eq_false_2.
    rewrite list_elem_of_filter. tauto.
Qed.

(** Moves that touch nothing but the place of [t]. *)
Lemma move_ok m t pc pc' :
  minv m → is_Some (pcs m !! t) → (∀ r, pc' ≠ Returned r) → (∀ i l s, pc' ≠ Early i l s) →
  waiter_ok t (Some pc') (facts m t) → minv (moved m t pc pc' (ks m)).
Proof.
  intros Hi Hpc Hr He Hw. destruct (mi_sem _ Hi) as (h & Hhd & Hsem).
  assert (moved m t pc pc' (ks m) = Mst (ks m) (<[t := pc']> (pcs m)) (pending m) (held m) (released m) (returned m))
    as -> by (destruct pc'; naive_solver).
  eapply (minv_at m _ t h); simpl; try apply Hi; try done.
  - intros _. by apply Hi.
  - others.
  - by rewrite lookup_insert_eq.
Qed.

Lemma setup_done me m t :
  minv m → pcs m !! t = Some (Setup 1) →
  wp (wait_section callback me (call t) (Setup 1)) (stepped m me t (Setup 1)) (ks m).
Proof.
  intros Hi Hpc. pose proof (mi_waiter _ Hi t) as Hw. rewrite Hpc in Hw. simpl. unfold wait_setup. simpl.
  rewrite wp_ret. split; [|by apply tame_same]. apply move_ok; try done; by rewrite Hpc.
Qed.

Lemma early_ok me m t :
  minv m → pcs m !! t = Some (Early 0 0 (Some 0%nat)) → runs_on (ks m) me t →
  wp (wait_section callback me (call t) (Early 0 0 (Some 0%nat)))
    (stepped m me t (Early 0 0 (Some 0%nat))) (ks m).
Proof.
  intros Hi Hpc Hrun. pose proof (mi_waiter _ Hi t) as Hw. rewrite Hpc in Hw. destruct Hw as (_ & Hq & Hp & Hh).
  by apply return_ok.
Qed.

Lemma asleep_ok me m t :
  minv m → pcs m !! t = Some Asleep → runs_on (ks m) me t →
  wp (wait_section callback me (call t) Asleep) (stepped m me t Asleep) (ks m).
Proof.
  intros Hi Hpc (x & Hx & Hcur). pose proof (mi_waiter _ Hi t) as Hw. rewrite Hpc in Hw. simpl.
  assert (∀ th, thr (ks m) !! t = Some th → state th ≠ kThreadStateWaiting) as Hnw.
  { intros th Hth Hst. destruct (sl_waiting _ _ (mi_sleep _ Hi) t th Hth Hst) as [_ Hn].
    by specialize (Hn me (core_of x) (cores_lookup _ _ _ Hx) Hcur). }
  assert (∃ th, thr (ks m) !! t = Some th ∧ wait_status th = kInternalWaitStatusSatisfied ∧
    facts m t = Facts (Some (kInternalWaitStatusSatisfied, false)) (Some (kWaitBlockStatusAcquired, t)) false false true)
    as (th & Hth & Hst & Hf).
  { destruct Hw as [Hf|[sl Hf]]; pose proof (f_equal f_view Hf) as Hv; apply view_thr in Hv as (th & Hth & Hst & Hsl).
    - apply bool_decide_eq_true_1 in Hsl. by destruct (Hnw th Hth).
    - exists th. rewrite Hf, <-Hsl, bool_decide_eq_false_2 by (by apply Hnw). by rewrite Hst. }
  rewrite wp_bind, wp_thread_get. exists th. split; [done|]. rewrite decide_False by (by apply Hnw).
  unfold wait_awake. simpl. rewrite wp_bind, wp_ret, wp_bind, wp_thread_get. exists th. split; [done|].
  rewrite wp_bind, wp_kassert. split; [by apply bool_decide_eq_true_2|]. rewrite wp_ret.
  split; [|by apply tame_same]. apply move_ok; try done; by rewrite Hpc.
Qed.

Lemma finish0_ok me m t :
  minv m → pcs m !! t = Some (Finish 0 None) →
  wp (wait_section callback me (call t) (Finish 0 None)) (stepped m me t (Finish 0 None)) (ks m).
Proof.
  intros Hi Hpc. pose proof (mi_waiter _ Hi t) as Hw. rewrite Hpc in Hw. simpl in Hw.
  destruct (mi_sem _ Hi) as (h & Hhd & _). simpl. unfold wait_finish. simpl.
  rewrite wp_bind, wp_hdr_at. exists h. split; [done|]. pose proof (f_equal f_wb Hw) as Hb. simpl in Hb.
  apply fmap_Some in Hb as (b & Hb & Hbs). injection Hbs as Hbs Hbt. rewrite wp_bind, wp_wb_at. exists b. split; [done|].
  rewrite <-Hbs. rewrite wp_bind, !wp_ret.
  split; [|by apply tame_same]. apply move_ok; try done; by rewrite Hpc.
Qed.

Lemma finish1_ok me m t :
  minv m → pcs m !! t = Some (Finish 1 (Some 0%nat)) → runs_on (ks m) me t →
  wp (wait_section callback me (call t) (Finish 1 (Some 0%nat)))
    (stepped m me t (Finish 1 (Some 0%nat))) (ks m).
Proof.
  intros Hi Hpc Hrun. pose proof (mi_waiter _ Hi t) as Hw. rewrite Hpc in Hw. simpl in Hw. simpl. unfold wait_finish. simpl.
  rewrite wp_bind, wp_ret. apply return_ok; try done; by rewrite Hw.
Qed.

(** A thread falls asleep on CPU [me]. *)
Lemma sleep_run me m t th n s1 s' :
  minv m → pcs m !! t = Some Commit → runs_on (ks m) me t → thr (ks m) !! t = Some th →
  facts m t = Facts (Some (kInternalWaitStatusPreparing, false)) (Some (kWaitBlockStatusActive, t)) true false false →
  s1 = set_thr (<[t := with_state kThreadStateWaiting (with_wait_status kInternalWaitStatusWaiting th)]> (thr (ks m))) (ks m) →
  in_sched (ki_reschedule callback me) s1 = Ok (n, s') → stepped m me t Commit Asleep s'.
Proof.
  intros Hi Hpc (x & Hx & Hcur) Hth Hf Hs1 Hrun. unfold in_sched, zoom in Hrun.
  destruct (ki_reschedule callback me (sch s1)) as [[n' sc]| |] eqn:E; try done. injection Hrun as <- <-.
  destruct (mi_idle _ Hi t) as [Hni Htp]; [by rewrite Hpc|]. destruct (mi_sem _ Hi) as (h & Hhd & Hsem).
  assert (sleep_at (Some me) (sch s1)) as Hsl1.
  { rewrite Hs1. eapply (sleep_commit me _ (core_of x)); [apply Hi|by apply cores_lookup|done|done]. }
  eapply resched_run in E as (Hsl & Hviews & Hid & Hface & Hrcu); [|done|by rewrite Hs1|rewrite Hs1; simpl; rewrite Hcur; apply lookup_insert_eq].
  split; [|subst s1; split_and!; [done|done|by right]].
  eapply (minv_at m _ t h); subst s1; simpl in *; try apply Hi; try done.
  - intros t' Hne. split; [by rewrite lookup_insert_ne|]. unfold facts. simpl. unfold thr at 1. simpl.
    by rewrite (Hviews t'), lookup_insert_ne.
  - rewrite lookup_insert_eq. simpl. left. unfold facts in *. simpl. unfold thr at 1. simpl. rewrite (Hviews t), lookup_insert_eq.
    injection Hf as _ Hwb Hq Hp Hh. rewrite Hwb, Hp, Hh. by f_equal.
Qed.

(** Going to sleep, or finding the wait already satisfied. *)
Lemma commit_run me m t pc' s' :
  minv m → pcs m !! t = Some Commit → runs_on (ks m) me t →
  wait_section callback me (call t) Commit (ks m) = Ok (pc', s') → stepped m me t Commit pc' s'.
Proof.
  intros Hi Hpc Hon Hrun. pose proof (mi_waiter _ Hi t) as Hw. rewrite Hpc in Hw. simpl in Hw.
  assert (wp (wait_commit callback me (call t)) (λ p s1, p = pc' ∧ s1 = s') (ks m)) as Hwp by (unfold wp; simpl in Hrun; by rewrite Hrun).
  clear Hrun. unfold wait_commit in Hwp. simpl in Hwp.
  rewrite wp_bind, wp_ret, wp_bind, wp_thread_get in Hwp. destruct Hwp as (th & Hth & Hwp).
  assert (is_Some (pcs m !! t)) as Hsome by (by rewrite Hpc).
  destruct Hw as [Hf|Hf]; pose proof (f_equal f_view Hf) as Hv; apply view_thr in Hv as (th' & Hth' & Hst & Hsl);
    rewrite Hth in Hth'; injection Hth' as <-.
  2: { rewrite decide_False in Hwp by congruence. rewrite wp_ret in Hwp. destruct Hwp as [<- <-].
       split; [|by apply tame_same]. apply move_ok; try done. right. by exists false. }
  rewrite decide_True in Hwp by done. rewrite wp_bind, wp_kassert in Hwp. destruct Hwp as [_ Hwp].
  rewrite wp_bind, wp_thread_set in Hwp. destruct Hwp as (th' & Hth' & Hwp). rewrite Hth in Hth'. injection Hth' as <-.
  rewrite wp_bind, wp_get in Hwp. simpl in Hwp.
  destruct (mi_idle _ Hi t Hsome) as [_ Htp]. rewrite Htp, wp_bind, wp_ret, wp_bind in Hwp.
  apply wp_ok in Hwp as (n & s2 & Hrun & Hwp). rewrite wp_ret in Hwp. destruct Hwp as [<- <-].
  by eapply sleep_run.
Qed.

(** Every section of [ke_wait] but the one that switches away returns. *)
Lemma section_ok me m t pc :
  minv m → pcs m !! t = Some pc → runs_on (ks m) me t → pc ≠ Commit →
  wp (wait_section callback me (call t) pc) (stepped m me t pc) (ks m).
Proof.
  intros Hi Hpc Hon Hnc. pose proof (mi_waiter _ Hi t) as Hw. rewrite Hpc in Hw.
  destruct pc as [|[|[]]|[] [] [[]|]| | |[|[]] [[]|]|]; try done.
  - by apply begin_ok.
  - by apply setup_ok.
  - by apply setup_done.
  - by apply early_ok.
  - by apply asleep_ok.
  - by apply finish0_ok.
  - by apply finish1_ok.
Qed.

(** ** Steps of the others *)

Lemma start_ok me m t :
  minv m → pcs m !! t = None → runs_on (ks m) me t → t ∉ (idle <$> cores (sch (ks m))) → tport (ks m) !! t = None →
  minv (Mst (ks m) (<[t := Begin]> (pcs m)) (pending m) (held m) (released m) (returned m)).
Proof.
  intros Hi Hpc (x & Hx & Hcur) Hni Htp. destruct (mi_sem _ Hi) as (h & Hhd & Hsem).
  pose proof (mi_waiter _ Hi t) as Hw. rewrite Hpc in Hw. pose proof (cores_lookup _ _ _ Hx) as Hcx.
  destruct (so_live _ _ (sl_sched _ _ (mi_sleep _ Hi)) me _ Hcx) as [_ [th Hth]]. simpl in Hth. rewrite Hcur in Hth.
  eapply (minv_at m _ t h); simpl; try apply Hi; try done.
  - others.
  - rewrite lookup_insert_eq. simpl. exists (wait_status th). split; [|done].
    unfold thr. rewrite Hth. simpl. unfold view. rewrite bool_decide_eq_false_2; [done|]. intros Hst.
    destruct (sl_waiting _ _ (mi_sleep _ Hi) t th Hth Hst) as [_ Hn]. by specialize (Hn me (core_of x) Hcx Hcur).
Qed.

(** The scheduler moves threads without changing their status or sleep. *)
Lemma env_ok m s' :
  minv m → hdrs s' = hdrs (ks m) → wbs s' = wbs (ks m) → tport s' = tport (ks m) →
  sleep_ok (sch s') → idle <$> cores (sch s') = idle <$> cores (sch (ks m)) →
  same_views (thr (ks m)) (thr s') → minv (with_ks s' m).
Proof.
  intros [Hsem Hcnt Hq Hp Hh Hsl Hid Hw] Hhd Hwb Htp Hsl' Hid' Hv. unfold queue_of in *.
  split; simpl; rewrite ?Hhd, ?Hid', ?Htp; try done; [by unfold queue_of; rewrite Hhd|].
  intros t. specialize (Hw t). unfold facts in *. simpl. unfold queue_of. by rewrite (Hv t), Hwb, Hhd.
Qed.

Lemma sleep_any c s : sleep_ok s → sleep_at (Some c) s.
Proof.
  intros [? ? ? Hw]. split; try done. intros t th' Ht Hst. destruct (Hw t th' Ht Hst) as [? Hn].
  split; [done|]. intros c' y Hy Hcy. by specialize (Hn c' y Hy Hcy).
Qed.
Lemma resched_ok c n m s' :
  minv m → in_sched (ki_reschedule callback c) (ks m) = Ok (n, s') → minv (with_ks s' m).
Proof.
  intros Hi Hrun. unfold in_sched, zoom in Hrun.
  destruct (ki_reschedule callback c (sch (ks m))) as [[n' sc]| |] eqn:E; try done. injection Hrun as <- <-.
  pose proof (mi_sleep _ Hi) as Hsl. assert (∃ x, cpus (sch (ks m)) !! c = Some x) as [x Hx].
  { assert (wp (ki_reschedule callback c) (λ _ _, True) (sch (ks m))) as Hw by (unfold wp; by rewrite E).
    unfold ki_reschedule in Hw. rewrite wp_bind, wp_cpu_at in Hw. destruct Hw as (x & Hx & _). eauto. }
  destruct (so_live _ _ (sl_sched _ _ Hsl) c _ (cores_lookup _ _ _ Hx)) as [_ [th Hth]].
  pose proof (sleep_any c _ Hsl) as Hsl1. eapply resched_run in E as (? & ? & ? & _); [|done..]. by apply env_ok.
Qed.

Lemma spl_ok c l m s' : minv m → in_sched (splx c l) (ks m) = Ok ((), s') → minv (with_ks s' m).
Proof.
  intros Hi Hrun. assert (wp (in_sched (splx c l)) (λ _ s1, s1 = s') (ks m)) as Hw by (unfold wp; by rewrite Hrun).
  rewrite wp_splx_k in Hw. destruct Hw as (x & Hx & <-). apply env_ok; try done.
  - apply sleep_ipl; [done|apply Hi].
  - exact (f_equal (fmap idle) (cores_ipl _ c x l Hx)).
Qed.

(** What being queued, or yet to be woken, says of a thread. *)
Definition pending_fact (t : nat) : tfacts :=
  Facts (Some (kInternalWaitStatusSatisfied, true)) (Some (kWaitBlockStatusAcquired, t)) false true true.
Definition queued_fact (t : nat) (st : kinternalwaitstatus) (sl : bool) : tfacts :=
  Facts (Some (st, sl)) (Some (kWaitBlockStatusActive, t)) true false false.
Definition granted_fact (t : nat) (sl : bool) : tfacts :=
  Facts (Some (kInternalWaitStatusSatisfied, sl)) (Some (kWaitBlockStatusAcquired, t)) false sl true.

Ltac waiter_cases pc :=
  destruct pc as [[|[|[]]|[] [] [[]|]| | |[|[]] [[]|]|]|]; simpl in *; try done;
  repeat match goal with
  | H : _ ∧ _ |- _ => destruct H
  | H : _ ∨ _ |- _ => destruct H
  | H : ∃ _, _ |- _ => destruct H
  end; subst; simpl in *; try congruence.

Lemma waiter_pending t pc f :
  waiter_ok t pc f → f_pending f = true → pc = Some Asleep ∧ f = pending_fact t.
Proof. intros Hw Hp. waiter_cases pc. by subst. Qed.
Lemma waiter_queued t pc f :
  waiter_ok t pc f → f_queued f = true →
  ∃ st sl, f = queued_fact t st sl ∧ waiter_ok t pc (granted_fact t sl) ∧
    st ≠ kInternalWaitStatusSatisfied ∧ (sl = true ↔ st = kInternalWaitStatusWaiting).
Proof. intros Hw Hp. waiter_cases pc; do 2 eexists; (split; [done|]); split_and!; eauto; done. Qed.
Lemma waiter_woken t : waiter_ok t (Some Asleep) (granted_fact t false).
Proof. right. by exists false. Qed.

Lemma wake_ok me w b l1 l2 m s' :
  minv m → pending m = l1 ++ w :: l2 → wbs (ks m) !! w = Some b →
  ki_wake_waiter me (wthread b) (ks m) = Ok ((), s') →
  minv (Mst s' (pcs m) (l1 ++ l2) (held m) (released m) (returned m)).
Proof.
  intros Hi Hp Hb Hrun. pose proof (mi_waiter _ Hi w) as Hw.
  apply waiter_pending in Hw as [Hpc Hf]; [|apply bool_decide_eq_true_2; rewrite Hp; set_solver].
  assert (wthread b = w) as Hbw by (pose proof (f_equal f_wb Hf) as Hwb; simpl in Hwb; rewrite Hb in Hwb; by injection Hwb).
  rewrite Hbw in Hrun. apply wake_run in Hrun as (th & Hth & Hst & Hws & HT & Hsl & Hid & Hhd & Hwbs & Htp & _); [|apply Hi].
  pose proof (mi_pend _ Hi) as Hnd. rewrite Hp, <-Permutation_middle in Hnd. apply NoDup_cons in Hnd as [Hnw Hnd']. subst w.
  destruct (mi_sem _ Hi) as (h & Hh & Hsem). unfold facts in Hf. injection Hf as _ Hf1 Hf2 _ Hf4.
  eapply (minv_at m _ (wthread b) h); simpl; try apply Hi; try done.
  - by rewrite Hhd.
  - unfold queue_of. rewrite Hhd. apply Hi.
  - intros t' Hne. split; [done|]. unfold facts, queue_of. simpl. rewrite HT, Hwbs, Hhd, lookup_insert_ne by done.
    f_equal. apply bool_decide_ext. rewrite Hp. set_solver.
  - rewrite Hpc. unfold facts, queue_of. simpl. rewrite HT, Hwbs, Hhd, lookup_insert_eq. right. exists false.
    unfold queue_of in Hf2. simpl. unfold view. simpl. rewrite Hws, Hf1, Hf2, Hf4. f_equal. by apply bool_decide_eq_false_2.
Qed.

(** *** Releasing *)

Lemma queued_waiter m w :
  minv m → w ∈ queue_of (ks m) → ∃ st sl, facts m w = queued_fact w st sl ∧
    waiter_ok w (pcs m !! w) (granted_fact w sl) ∧ st ≠ kInternalWaitStatusSatisfied ∧
    (sl = true ↔ st = kInternalWaitStatusWaiting).
Proof. intros Hi Hw. apply waiter_queued; [apply Hi|]. by apply bool_decide_eq_true_2. Qed.

(** A queued wait block, its thread and its status. *)
Lemma queued_block m w st sl :
  facts m w = queued_fact w st sl →
  (∃ b th, wbs (ks m) !! w = Some b ∧ wthread b = w ∧ block_status b = kWaitBlockStatusActive ∧
    thr (ks m) !! w = Some th ∧ view th = (st, sl)) ∧ status_of (ks m) w = Some st ∧ w ∉ pending m ∧ w ∉ held m.
Proof.
  intros Hf. injection Hf as Hv Hb _ Hp Hh. apply fmap_Some in Hv as (th & Hth & Hv).
  apply fmap_Some in Hb as (b & Hb & [= Hbs Hbt]). apply bool_decide_eq_false_1 in Hp, Hh.
  split_and!; [|unfold status_of; rewrite Hb; simpl; rewrite <-Hbt, Hth; by injection Hv as ->|done|done].
  exists b, th. by split_and!.
Qed.

(** The machine after the units of [s1], the semaphore with them added, were given
    to the first [l] of the queue. *)
Record gave (m : mst) (h : kdispatchheader) (n : Z) (l rest wk : list nat) (s' : kst) : Prop := Gave {
  gv_queue : waitblock_queue h = l ++ rest;
  gv_hdr : hdrs s' !! o = Some (set_queue rest (set_signalled (signalled h + n - Z.of_nat (length l)) h));
  gv_wk : ∀ w, w ∈ wk ↔ w ∈ l ∧ status_of (ks m) w = Some kInternalWaitStatusWaiting;
  gv_nodup : NoDup wk;
  gv_stop : rest = [] ∨ signalled h + n - Z.of_nat (length l) ≤ 0;
  gv_nonneg : 0 ≤ signalled h + n - Z.of_nat (length l);
  gv_thr : ∀ t, thr s' !! t = if decide (t ∈ l) then satisfy <$> thr (ks m) !! t else thr (ks m) !! t;
  gv_wbs : ∀ w, wbs s' !! w = if decide (w ∈ l)
    then (λ b, Wb kWaitBlockStatusAcquired (wobject b) (wthread b)) <$> wbs (ks m) !! w else wbs (ks m) !! w;
  gv_tport : tport s' = tport (ks m);
  gv_sched : cores (sch s') = cores (sch (ks m)) ∧ idle_mask (sch s') = idle_mask (sch (ks m));
  gv_cpus : cpus (sch s') = cpus (sch (ks m)) ∧ rcu (sch s') = rcu (sch (ks m))
}.

Lemma serve_hdr_all s l h :
  htype h = kDispatchSemaphore → (∀ w, w ∈ l → unsatisfied s w = true) →
  serve_hdr s l h = set_signalled (signalled h - Z.of_nat (length l)) h.
Proof.
  revert h. induction l as [|w l IH]; intros h Hty Hl; simpl.
  { rewrite Z.sub_0_r. by destruct h. }
  rewrite (Hl w) by set_solver. unfold acquire_hdr. rewrite Hty. rewrite IH; [|done|set_solver].
  unfold set_signalled. cbn [htype signalled waitblock_queue owner].
  by replace (signalled h - 1 - Z.of_nat (length l)) with (signalled h - Z.of_nat (S (length l))) by lia.
Qed.

(** The release returns, and what it did. *)
Lemma release_post m h n :
  minv m → 0 < n → hdrs (ks m) !! o = Some h → signalled h + n < 2 ^ 31 →
  let h1 := set_signalled (signalled h + n) h in
  let s1 := set_hdrs (<[o := h1]> (hdrs (ks m))) (ks m) in
  queue_live s1 (waitblock_queue h) ∧
  wp (semaphore_release_locked o n) (signal_post o (waitblock_queue h) [] s1 h1) (ks m).
Proof.
  intros Hi Hn Hh Hov h1 s1. destruct (mi_sem _ Hi) as (h0 & Hh0 & Hty & Hnn & _). rewrite Hh in Hh0. injection Hh0 as <-.
  assert (queue_live s1 (waitblock_queue h)) as Hlive.
  { assert (waitblock_queue h = queue_of (ks m)) as Hq by (by rewrite (queue_of_at _ h)).
    split; [rewrite Hq; apply Hi|..]; rewrite Hq.
    - intros w (st & sl & ((b & th & Hb & Hbt & _ & Hth & _) & _)%queued_block & _)%(queued_waiter _ _ Hi).
      exists b, th. by rewrite Hbt.
    - intros w w' b b' (? & ? & ((b1 & ? & Hb1 & Ht1 & _) & _)%queued_block & _)%(queued_waiter _ _ Hi)
        (? & ? & ((b2 & ? & Hb2 & Ht2 & _) & _)%queued_block & _)%(queued_waiter _ _ Hi) Hb Hb' Heq. simpl in *. congruence. }
  split; [done|]. unfold semaphore_release_locked, ki_signal. rewrite wp_bind, wp_hdr_at. exists h. split; [done|].
  rewrite i32_small by lia. rewrite wp_bind, wp_hdr_set, wp_bind, wp_hdr_at. exists h1. split; [apply lookup_insert_eq|].
  apply signal_loop_spec; [apply lookup_insert_eq|by simpl; rewrite Hty|done|done].
Qed.
Lemma release_runs m n :
  minv m → 0 < n → released m + n < 2 ^ 31 → ∃ wk s', semaphore_release_locked o n (ks m) = Ok (wk, s').
Proof.
  intros Hi Hn Hov. destruct (mi_sem _ Hi) as (h & Hh & _ & Hnn & _ & Hsum). pose proof (mi_count _ Hi).
  destruct (release_post m h n Hi Hn Hh) as [_ Hw]; [lia|]. apply wp_ok in Hw as (wk & s' & ? & _). eauto.
Qed.

Lemma release_gave m h n wk s' :
  minv m → 0 < n → hdrs (ks m) !! o = Some h → signalled h + n < 2 ^ 31 →
  semaphore_release_locked o n (ks m) = Ok (wk, s') → ∃ l rest, gave m h n l rest wk s'.
Proof.
  intros Hi Hn Hh Hov Hrun. destruct (mi_sem _ Hi) as (h0 & Hh0 & Hty & Hnn & _). rewrite Hh in Hh0. injection Hh0 as <-.
  destruct (release_post m h n Hi Hn Hh Hov) as [Hlive Hpost].
  set (h1 := set_signalled (signalled h + n) h) in *. set (s1 := set_hdrs (<[o := h1]> (hdrs (ks m))) (ks m)) in *.
  assert (∀ w, w ∈ waitblock_queue h → ∃ st sl, facts m w = queued_fact w st sl ∧ st ≠ kInternalWaitStatusSatisfied) as Hw.
  { intros w Hw. rewrite <-(queue_of_at _ h Hh) in Hw. destruct (queued_waiter m w Hi Hw) as (st & sl & ? & _ & ? & _). eauto. }
  apply (wp_run _ _ _ _ _ Hpost) in Hrun as (l & rest & Hl & [Hwbs Hthr (_ & Htp & _ & _ & _ & Hsc)] & Hwk & Hhd & Hstop & Hge & _).
  assert (∀ w, w ∈ l → unsatisfied s1 w = true) as Hun.
  { intros w Hwl. destruct (Hw w) as (st & sl & (_ & Hst & _)%queued_block & Hne); [rewrite Hl; set_solver|].
    unfold unsatisfied. change (status_of s1 w) with (status_of (ks m) w). rewrite Hst. by destruct st. }
  rewrite serve_hdr_all in Hhd, Hstop, Hge by done. simpl in *.
  exists l, rest. split; try done.
  - by rewrite Hhd, lookup_insert_eq.
  - intros w. rewrite Hwk, list_elem_of_filter. unfold asleep. change (status_of s1 w) with (status_of (ks m) w).
    destruct (status_of (ks m) w) as [[]|]; naive_solver.
  - rewrite Hwk. apply NoDup_filter. pose proof (ql_nodup _ _ Hlive) as Hnd. rewrite Hl in Hnd. by apply NoDup_app in Hnd as (? & _).
  - lia.
  - intros t. rewrite Hthr. apply decide_ext. rewrite Exists_exists. split.
    + intros (w & Hwl & Heq). destruct (Hw w) as (? & ? & ((b & ? & Hb & Hbt & _) & _)%queued_block & _); [rewrite Hl; set_solver|].
      simpl in Heq. rewrite Hb in Heq. simpl in Heq. congruence.
    + intros Htl. exists t. split; [done|].
      destruct (Hw t) as (? & ? & ((b & ? & Hb & Hbt & _) & _)%queued_block & _); [rewrite Hl; set_solver|].
      simpl. rewrite Hb. simpl. congruence.
  - intros w. rewrite Hwbs. case_decide as Hin; [|done]. simpl. unfold serve_wb. by rewrite (Hun w Hin).
  - unfold cores. split; [exact (f_equal (fmap core_of ∘ cpus) Hsc)|exact (f_equal idle_mask Hsc)].
  - split; [exact (f_equal cpus Hsc)|exact (f_equal rcu Hsc)].
Qed.

Section given.
Context (m : mst) (h : kdispatchheader) (n : Z) (l rest wk : list nat) (s' : kst).
Context (Hi : minv m) (Hh : hdrs (ks m) !! o = Some h) (Hg : gave m h n l rest wk s').

Lemma given_queue : queue_of (ks m) = l ++ rest ∧ queue_of s' = rest.
Proof.
  split; [rewrite (queue_of_at _ h) by done; apply Hg|].
  rewrite (queue_of_at s' _ (gv_hdr _ _ _ _ _ _ _ Hg)). done.
Qed.
Lemma given_disjoint w : w ∈ l → w ∉ rest.
Proof.
  pose proof (mi_queue _ Hi) as Hnd. destruct given_queue as [Hq _]. rewrite Hq in Hnd. apply NoDup_app in Hnd as (_ & Hd & _). apply Hd.
Qed.

(** The blocks granted are those of [l]. *)
Lemma given_status w :
  w ∈ l ++ rest → unsatisfied (ks m) w = true ∧ unsatisfied s' w = bool_decide (w ∉ l).
Proof.
  intros Hw. destruct given_queue as [Hq _]. rewrite <-Hq in Hw.
  destruct (queued_waiter m w Hi Hw) as (st & sl & Hf & _ & Hst & _).
  apply queued_block in Hf as ((b & th & Hb & Hbt & _ & Hth & Hv) & Hs & _). injection Hv as Hv _.
  assert (∀ x : option kinternalwaitstatus, x = Some st →
    match x with Some kInternalWaitStatusPreparing | Some kInternalWaitStatusWaiting => true | _ => false end = true) as Hm
    by (intros ? ->; by destruct st).
  split; [by apply Hm|]. unfold unsatisfied, status_of. rewrite (gv_wbs _ _ _ _ _ _ _ Hg), Hb. case_decide as Hin; simpl.
  - rewrite (gv_thr _ _ _ _ _ _ _ Hg), Hbt, decide_True by done. rewrite Hth. simpl. by rewrite bool_decide_eq_false_2 by tauto.
  - rewrite (gv_thr _ _ _ _ _ _ _ Hg), Hbt, decide_False by done. rewrite Hth. simpl. rewrite bool_decide_eq_true_2 by done.
    apply (Hm (Some _)). congruence.
Qed.
Lemma given_granted : granted (ks m) s' = l.
Proof.
  unfold granted. destruct given_queue as [-> _]. rewrite filter_app, filter_all, filter_none, app_nil_r; [done|..].
  - intros w Hw [_ Hu]. destruct (given_status w) as [_ Hs]; [set_solver|]. rewrite Hs in Hu.
    apply bool_decide_eq_false_1 in Hu. apply Hu. intros Hl. by apply (given_disjoint w).
  - intros w Hw. destruct (given_status w) as [-> ->]; [set_solver|]. by rewrite bool_decide_eq_false_2 by tauto.
Qed.

Definition given_mst : mst :=
  Mst s' (pcs m) (pending m ++ wk) (held m ++ l) (released m + n) (returned m).

Lemma given_fact_in w : w ∈ l → waiter_ok w (pcs m !! w) (facts given_mst w).
Proof.
  intros Hw. destruct given_queue as [Hq Hq']. destruct (queued_waiter m w Hi) as (st & sl & Hf & Hok & Hst & Hsl); [rewrite Hq; set_solver|].
  apply queued_block in Hf as ((b & th & Hb & Hbt & _ & Hth & Hv) & Hs & Hp & Hhd).
  enough (facts given_mst w = granted_fact w sl) as -> by done. unfold facts, given_mst, granted_fact. simpl.
  rewrite (gv_thr _ _ _ _ _ _ _ Hg), (gv_wbs _ _ _ _ _ _ _ Hg), !decide_True by done. rewrite Hth, Hb. simpl.
  rewrite Hbt, Hq'. injection Hv as _ Hv. unfold view. simpl. rewrite Hv. f_equal.
  - apply bool_decide_eq_false_2. by apply given_disjoint.
  - assert (w ∈ pending m ++ wk ↔ sl = true) as Hiff.
    { rewrite elem_of_app, (gv_wk _ _ _ _ _ _ _ Hg), Hs, Hsl. naive_solver. }
    rewrite (bool_decide_ext _ _ Hiff). by destruct sl.
  - apply bool_decide_eq_true_2. set_solver.
Qed.
Lemma given_fact_out w : w ∉ l → facts given_mst w = facts m w.
Proof.
  intros Hw. destruct given_queue as [Hq Hq']. unfold facts, given_mst. simpl.
  rewrite (gv_thr _ _ _ _ _ _ _ Hg), (gv_wbs _ _ _ _ _ _ _ Hg), !decide_False by done. f_equal.
  - apply bool_decide_ext. rewrite Hq, Hq'. set_solver.
  - apply bool_decide_ext. rewrite elem_of_app, (gv_wk _ _ _ _ _ _ _ Hg). tauto.
  - apply bool_decide_ext. set_solver.
Qed.

Lemma given_sleep : sleep_ok (sch s').
Proof.
  destruct (gv_sched _ _ _ _ _ _ _ Hg) as [Hcs Hms]. eapply sleep_states; [|exact Hcs|exact Hms|apply Hi].
  intros t. fold (thr s') (thr (ks m)). rewrite (gv_thr _ _ _ _ _ _ _ Hg). case_decide; [|done]. by destruct (thr (ks m) !! t).
Qed.
Lemma given_nodup (L l' : list nat) :
  NoDup L → NoDup l' → (∀ w, w ∈ l' → w ∈ l) → (∀ w, w ∈ L → w ∈ held m ∨ w ∈ pending m) → NoDup (L ++ l').
Proof.
  intros HL Hl' Hsub Hin. apply NoDup_app. split_and!; [done| |done]. intros w HwL Hw%Hsub. destruct given_queue as [Hq _].
  destruct (queued_waiter m w Hi) as (st & sl & Hf & _); [rewrite Hq; set_solver|].
  apply queued_block in Hf as (_ & _ & Hp & Hhd). by destruct (Hin w HwL).
Qed.

Lemma given_ok : minv given_mst.
Proof.
  destruct (mi_sem _ Hi) as (h0 & Hh0 & Hty & Hnn & _ & Hsum). rewrite Hh in Hh0. injection Hh0 as <-.
  destruct given_queue as [Hq Hq']. pose proof (mi_queue _ Hi) as Hnd. rewrite Hq in Hnd. apply NoDup_app in Hnd as (Hnl & _ & Hnr).
  destruct (gv_sched _ _ _ _ _ _ _ Hg) as [Hcs _]. split; simpl.
  - eexists. split; [apply Hg|]. unfold sem_ok, given_mst. simpl. rewrite length_app.
    pose proof (gv_nonneg _ _ _ _ _ _ _ Hg). destruct (gv_stop _ _ _ _ _ _ _ Hg); split_and!; try done; try lia; done.
  - apply Hi.
  - by rewrite Hq'.
  - apply given_nodup; [apply Hi|apply Hg| |auto]. intros w. rewrite (gv_wk _ _ _ _ _ _ _ Hg). tauto.
  - apply given_nodup; [apply Hi|done|done|auto].
  - apply given_sleep.
  - rewrite Hcs, (gv_tport _ _ _ _ _ _ _ Hg). apply Hi.
  - intros t. destruct (decide (t ∈ l)) as [Hl|Hl]; [by apply given_fact_in|]. rewrite given_fact_out by done. apply Hi.
Qed.
End given.

(** ** The invariant holds in every reachable state *)

Lemma mstep_inv m m' : minv m → mstep m m' → minv m'.
Proof.
  intros Hi Hstep. destruct Hstep as [me t m|me t pc pc' s' m Hpc Hon Hrun|n wk s' h m Hn Hh Hov Hrun|? ? ? ? ? ? m|? ? ? m|? ? ? m].
  - by eapply start_ok.
  - destruct (decide (pc = Commit)) as [->|Hne]; [by eapply commit_run in Hrun as []|].
    by apply (wp_run _ _ _ _ _ (section_ok me m t pc Hi Hpc Hon Hne)) in Hrun as [].
  - destruct (release_gave m h n wk s' Hi Hn Hh Hov Hrun) as (l & rest & Hg).
    rewrite (given_granted m h n l rest wk s' Hi Hh Hg). by eapply given_ok.
  - by eapply wake_ok.
  - by eapply resched_ok.
  - by eapply spl_ok.
Qed.


(** A semaphore with [n0] units nobody waits for, on a sound scheduler. *)
Definition sem_start (s0 : kst) (n0 : Z) : Prop :=
  (∃ h, hdrs s0 !! o = Some h ∧ htype h = kDispatchSemaphore ∧ signalled h = n0 ∧ waitblock_queue h = []) ∧
  0 ≤ n0 ∧ sleep_ok (sch s0).

Lemma start_inv s0 n0 : sem_start s0 n0 → minv (Mst s0 ∅ [] [] n0 0).
Proof.
  intros [(h & Hh & Hty & Hs & Hq) [Hn Hsl]]. assert (queue_of s0 = []) as Hq0 by (by rewrite (queue_of_at _ h)).
  split; simpl; try done; [|by rewrite Hq0; constructor|constructor|constructor| |].
  - exists h. split; [done|]. unfold sem_ok. simpl. split_and!; try done; lia.
  - intros t [? Ht]. by rewrite lookup_empty in Ht.
  - intros t. rewrite lookup_empty. simpl. by rewrite Hq0.
Qed.

Lemma mreach_inv s0 n0 m : sem_start s0 n0 → mreach s0 n0 m → minv m.
Proof.
  intros Hs. induction 1 as [|m m' _ IH Hstep]; [by apply start_inv|]. by eapply mstep_inv.
Qed.

(** ** The IPL, and RCU *)

(** A thread about to switch away runs on a CPU at DPC level. *)
Definition calm (m : mst) : Prop :=
  ∀ t pc, pcs m !! t = Some pc → at_dpc pc → ∃ c, face <$> cpus (sch (ks m)) !! c = Some (t, kIPLDPC).

Lemma face_lookup s c t l : face <$> cpus s !! c = Some (t, l) → ∃ x, cpus s !! c = Some x ∧ curthread x = t ∧ ipl x = l.
Proof. intros (x & Hx & [= -> ->])%fmap_Some. eauto. Qed.

(** A thread runs on one CPU. *)
Lemma runs_once s c c' x x' :
  sched_ok s → cpus s !! c = Some x → cpus s !! c' = Some x' → curthread x = curthread x' → c = c'.
Proof.
  intros Hok Hx Hx' Heq. pose proof (so_nodup _ _ Hok) as (_ & _ & Hnd)%NoDup_app.
  apply (NoDup_lookup (cur <$> cores s) c c' (curthread x)); [done|..];
    rewrite list_lookup_fmap; [by rewrite (cores_lookup _ _ _ Hx)|rewrite (cores_lookup _ _ _ Hx')].
  simpl. by rewrite Heq.
Qed.

(** A step that touches no CPU but [c], whose thread is outside [ke_wait]. *)
Lemma calm_other m s' c p h rl rt :
  calm m → (∀ x, cpus (sch (ks m)) !! c = Some x → pcs m !! curthread x = None) →
  (∀ c', c' ≠ c → face <$> cpus (sch s') !! c' = face <$> cpus (sch (ks m)) !! c') → calm (Mst s' (pcs m) p h rl rt).
Proof.
  intros Hc Hout Hf t pc Hpc Hat. destruct (Hc t pc Hpc Hat) as [c' Hc']. exists c'. simpl. rewrite Hf; [done|].
  intros ->. apply face_lookup in Hc' as (x & Hx & Hcur & _). simpl in Hpc. by rewrite <-Hcur, (Hout x Hx) in Hpc.
Qed.
Lemma calm_same m s' p h rl rt :
  calm m → face <$> cpus (sch s') = face <$> cpus (sch (ks m)) → calm (Mst s' (pcs m) p h rl rt).
Proof.
  intros Hc Hf t pc Hpc Hat. destruct (Hc t pc Hpc Hat) as [c' Hc']. exists c'.
  simpl. by rewrite <-list_lookup_fmap, Hf, list_lookup_fmap.
Qed.

Lemma moved_ks m t pc pc' s' : ks (moved m t pc pc' s') = s'.
Proof. by destruct pc'. Qed.
Lemma moved_other m t t' pc pc' s' : t' ≠ t → pcs (moved m t pc pc' s') !! t' = pcs m !! t'.
Proof. intros Hne. destruct pc'; simpl; by rewrite ?lookup_insert_ne, ?lookup_delete_ne by done. Qed.
Lemma moved_at m t pc pc' p s' : pcs (moved m t pc pc' s') !! t = Some p → p = pc'.
Proof. destruct pc'; simpl; rewrite ?lookup_insert_eq, ?lookup_delete_eq; naive_solver. Qed.

Lemma calm_section m me t pc pc' s' :
  calm m → pcs m !! t = Some pc → runs_on (ks m) me t → tame me t pc pc' (ks m) s' → calm (moved m t pc pc' s').
Proof.
  intros Hc Hpc (x & Hx & Hcur) (Hoth & Hme & _) t' p Hp Hat. rewrite moved_ks.
  destruct (decide (t' = t)) as [->|Hne].
  - apply moved_at in Hp as ->. destruct (Hme Hat) as [?|[Hat' ->]]; eauto.
  - rewrite moved_other in Hp by done. destruct (Hc t' p Hp Hat) as [c Hf]. exists c. rewrite Hoth; [done|].
    intros ->. rewrite Hx in Hf. injection Hf as Hf _. congruence.
Qed.

Lemma section_tame me m t pc pc' s' :
  minv m → pcs m !! t = Some pc → runs_on (ks m) me t →
  wait_section callback me (call t) pc (ks m) = Ok (pc', s') → stepped m me t pc pc' s'.
Proof.
  intros Hi Hpc Hon Hrun. destruct (decide (pc = Commit)) as [->|Hne]; [by eapply commit_run|].
  by apply (wp_run _ _ _ _ _ (section_ok me m t pc Hi Hpc Hon Hne)) in Hrun.
Qed.

Lemma in_sched_run {A} (f : kern sched A) s a s' :
  in_sched f s = Ok (a, s') → f (sch s) = Ok (a, sch s').
Proof. unfold in_sched, zoom. destruct (f (sch s)) as [[]| |]; naive_solver. Qed.

Lemma resched_other c n s s' :
  sleep_ok (sch s) → in_sched (ki_reschedule callback c) s = Ok (n, s') →
  ∃ x, cpus (sch s) !! c = Some x ∧ (∀ c', c' ≠ c → face <$> cpus (sch s') !! c' = face <$> cpus (sch s) !! c') ∧
  ∃ b, Rcu.ki_rcu_quiet c (rcu (sch s)) = Ok (b, rcu (sch s')).
Proof.
  intros Hsl Hrun%in_sched_run. assert (∃ x, cpus (sch s) !! c = Some x) as [x Hx].
  { assert (wp (ki_reschedule callback c) (λ _ _, True) (sch s)) as Hw by (unfold wp; by rewrite Hrun).
    unfold ki_reschedule in Hw. rewrite wp_bind, wp_cpu_at in Hw. destruct Hw as (x & Hx & _). eauto. }
  destruct (so_live _ _ (sl_sched _ _ Hsl) c _ (cores_lookup _ _ _ Hx)) as [_ [th Hth]].
  exists x. split; [done|]. by eapply resched_run in Hrun as (_ & _ & _ & ? & ?); [|by apply sleep_any|done|done].
Qed.

Lemma spl_other c l s s' :
  in_sched (splx c l) s = Ok ((), s') →
  ∃ x, cpus (sch s) !! c = Some x ∧ (∀ c', c' ≠ c → face <$> cpus (sch s') !! c' = face <$> cpus (sch s) !! c') ∧
    rcu (sch s') = rcu (sch s).
Proof.
  intros Hrun. assert (wp (in_sched (splx c l)) (λ _ s1, s1 = s') s) as Hw by (unfold wp; by rewrite Hrun).
  rewrite wp_splx_k in Hw. destruct Hw as (x & Hx & <-). exists x. split_and!; [done| |done]. intros c' Hne. simpl. by rewrite list_lookup_insert_ne.
Qed.

(** How a step changes RCU. *)
Definition rcu_move (s s' : kst) : Prop :=
  (length (cpus (sch s')) ≤ length (cpus (sch s)))%nat ∧
  (rcu (sch s') = rcu (sch s) ∨ ∃ c b, Rcu.ki_rcu_quiet c (rcu (sch s)) = Ok (b, rcu (sch s'))).
Lemma face_length (l l' : list kcpu) c x :
  l !! c = Some x → (∀ c', c' ≠ c → face <$> l' !! c' = face <$> l !! c') → (length l' ≤ length l)%nat.
Proof.
  intros Hx Hf. destruct (decide (length l' ≤ length l)%nat); [done|].
  assert (length l ≠ c) as Hne by (apply lookup_lt_Some in Hx; lia). specialize (Hf _ Hne).
  rewrite (lookup_ge_None_2 l) in Hf by lia. destruct (lookup_lt_is_Some_2 l' (length l)) as [y Hy]; [lia|]. by rewrite Hy in Hf.
Qed.
(** No RCU callback is registered. *)
Definition no_callbacks (r : Rcu.rcu_state) : Prop :=
  Forall (λ d, Rcu.current_callbacks d = [] ∧ Rcu.next_callbacks d = []) (Rcu.rcpus r).
Definition rcu_idle (s : kst) : Prop :=
  (length (cpus (sch s)) ≤ length (Rcu.rcpus (rcu (sch s))))%nat ∧ no_callbacks (rcu (sch s)).

Lemma quiet_report_idle c r : wp (Rcu.quiet_report c) (λ _ r', Rcu.rcpus r' = Rcu.rcpus r) r.
Proof. unfold Rcu.quiet_report, Rcu.start_generation. wp_simp. repeat (case_match; wp_simp); done. Qed.
Lemma quiet_idle c r :
  no_callbacks r → (c < length (Rcu.rcpus r))%nat →
  wp (Rcu.ki_rcu_quiet c) (λ _ r', Rcu.rcpus r' = Rcu.rcpus r) r.
Proof.
  intros Hr Hc. unfold Rcu.ki_rcu_quiet. rewrite wp_bind.
  eapply wp_mono; [exact (quiet_report_idle c r)|]. intros [] r1 Hr1. destruct (lookup_lt_is_Some_2 _ _ Hc) as [d Hd].
  destruct (Forall_lookup_1 _ _ _ _ Hr Hd) as [Hcur Hnext].
  unfold Rcu.quiet_retire, Rcu.quiet_advance. wp_simp. exists d. rewrite Hr1, Hcur, Hnext. split; [done|]. simpl.
  wp_simp. exists d. rewrite Hr1, Hcur, Hnext. by split.
Qed.
Lemma quiet_out c r b r' : Rcu.ki_rcu_quiet c r = Ok (b, r') → (c < length (Rcu.rcpus r))%nat.
Proof.
  intros Hrun. assert (wp (Rcu.ki_rcu_quiet c) (λ _ _, True) r) as Hw by (unfold wp; by rewrite Hrun).
  unfold Rcu.ki_rcu_quiet in Hw. rewrite wp_bind in Hw. apply wp_ok in Hw as ([] & r1 & Hr1 & Hw).
  apply (wp_run _ _ _ _ _ (quiet_report_idle c r)) in Hr1. unfold Rcu.quiet_retire in Hw. rewrite !wp_bind, wp_get, wp_bind, wp_deref in Hw.
  destruct Hw as (d & Hd%lookup_lt_Some & _). by rewrite Hr1 in Hd.
Qed.
Lemma rcu_idle_move s s' : rcu_move s s' → rcu_idle s → rcu_idle s'.
Proof.
  unfold rcu_idle, no_callbacks. intros [Hlen [->|(c & b & Hq)]] [Hl Hi]; [split; [lia|done]|].
  pose proof (wp_run _ _ _ _ _ (quiet_idle c _ Hi (quiet_out _ _ _ _ Hq)) Hq) as ->. split; [lia|done].
Qed.

Lemma mstep_calm m m' : minv m → calm m → mstep m m' → calm m' ∧ rcu_move (ks m) (ks m').
Proof.
  intros Hi Hc Hstep. destruct Hstep as [me t m Hn|me t pc pc' s' m Hpc Hon Hrun|n wk s' h m Hn Hh Hov Hrun
    |me w b l1 l2 s' m _ _ Hrun|c n s' m Hout Hrun|c l s' m Hout Hrun].
  - split; [|by split; [|left]]. intros t' p Hp Hat. simpl in *. destruct (decide (t' = t)) as [->|Hne].
    + rewrite lookup_insert_eq in Hp. by injection Hp as <-.
    + rewrite lookup_insert_ne in Hp by done. by eapply Hc.
  - destruct (section_tame _ _ _ _ _ _ Hi Hpc Hon Hrun) as [_ Ht]. split; [by eapply calm_section|].
    rewrite moved_ks. destruct Hon as (x & Hx & _), Ht as (Hf & _ & Hr).
    split; [by eapply face_length|]. destruct Hr as [?|[b ?]]; [by left|right; eauto].
  - destruct (release_gave m h n wk s' Hi Hn Hh Hov Hrun) as (l & rest & Hg). destruct (gv_cpus _ _ _ _ _ _ _ Hg) as [Hcp Hr].
    split; [apply calm_same; [done|by rewrite Hcp]|]. split; [simpl; by rewrite Hcp|by left].
  - apply wake_run in Hrun as (? & _ & _ & _ & _ & _ & _ & _ & _ & _ & Hf & Hr); [|apply Hi].
    split; [by apply calm_same|]. split; [|by left]. apply (f_equal length) in Hf. rewrite !length_fmap in Hf. simpl. lia.
  - apply resched_other in Hrun as (x & Hx & Hf & b & Hr); [|apply Hi].
    split; [by eapply calm_other|]. split; [by eapply face_length|right; eauto].
  - apply spl_other in Hrun as (x & Hx & Hf & Hr). split; [by eapply calm_other|]. split; [by eapply face_length|by left].
Qed.

Lemma mreach_calm s0 n0 m :
  sem_start s0 n0 → mreach s0 n0 m → calm m ∧ (rcu_idle s0 → rcu_idle (ks m)).
Proof.
  intros Hs. induction 1 as [|m m' Hm [IHc IHr] Hstep].
  { split; [|done]. intros t pc Hpc. simpl in Hpc. by rewrite lookup_empty in Hpc. }
  destruct (mstep_calm m m' (mreach_inv _ _ _ Hs Hm) IHc Hstep) as [Hc Hr]. split; [done|].
  intros Hi. apply (rcu_idle_move _ _ Hr). auto.
Qed.

(** Going to sleep returns, if the RCU code does. *)
Lemma commit_returns me m t :
  minv m → calm m → pcs m !! t = Some Commit → runs_on (ks m) me t → lvl < kIPLDPC →
  (∃ b r, Rcu.ki_rcu_quiet me (rcu (sch (ks m))) = Ok (b, r)) →
  ∃ pc' s', wait_section callback me (call t) Commit (ks m) = Ok (pc', s').
Proof.
  intros Hi Hc Hpc (x & Hx & Hcur) Hlvl (b & r & Hq).
  enough (wp (wait_section callback me (call t) Commit) (λ _ _, True) (ks m)) as Hw by (apply wp_ok in Hw as (? & ? & ? & _); eauto).
  pose proof (mi_waiter _ Hi t) as Hw. rewrite Hpc in Hw. simpl in Hw. simpl. unfold wait_commit. simpl.
  destruct (Hc t Commit Hpc I) as (c & (x' & Hx' & Hcur' & Hipl)%face_lookup).
  destruct (mi_idle _ Hi t) as [Hni Htp]; [by rewrite Hpc|].
  assert (c = me) as -> by (eapply runs_once; [apply (mi_sleep _ Hi)|done|done|congruence]). rewrite Hx in Hx'. injection Hx' as <-.
  assert (∃ th, thr (ks m) !! t = Some th) as [th Hth].
  { destruct Hw as [Hf|Hf]; pose proof (f_equal f_view Hf) as (th & ? & _)%view_thr; eauto. }
  rewrite wp_bind, wp_ret, wp_bind, wp_thread_get. exists th. split; [done|]. case_decide; [|by rewrite wp_ret].
  rewrite wp_bind, wp_kassert. split; [by apply Z.ltb_lt|]. rewrite wp_bind, wp_thread_set. exists th. split; [done|].
  rewrite wp_bind, wp_get. simpl. rewrite Htp, wp_bind, wp_ret, wp_bind. unfold in_sched. rewrite wp_zoom.
  assert (sleep_at (Some me) (set_threads (<[t := with_state kThreadStateWaiting (with_wait_status kInternalWaitStatusWaiting th)]>
    (threads (sch (ks m)))) (sch (ks m)))) as [Hok Hm Hlen _].
  { eapply (sleep_commit me _ (core_of x)); [apply Hi|by apply cores_lookup|done|done]. }
  eapply wp_mono; [eapply (ki_reschedule_ok callback me x); try done; simpl; rewrite Hcur; apply lookup_insert_eq|done].
Qed.
End machine.

(** C13. Waiting on a semaphore loses no wake-up and no unit.  The threads are any
    number, and each waits for this semaphore alone and without a timeout; the sections of
    [ke_wait], the releases, the wake-ups in any order, the context switches and the
    changes of IPL of threads outside [ke_wait] interleave in any way.  Nobody is queued
    while a unit is free; the free units, those granted to threads still on their way out
    and those returned with add up to those there ever were; no thread holds two; and a
    thread asleep in [ke_wait] is either queued, or has its unit and is one of those a
    releaser is about to wake. *)
Theorem semaphore_wait_safe o lvl callback s0 n0 m :
  sem_start o s0 n0 → mreach o lvl callback s0 n0 m →
  ∃ h, hdrs (ks m) !! o = Some h ∧ 0 ≤ signalled h ∧ (waitblock_queue h ≠ [] → signalled h = 0) ∧
    NoDup (held m) ∧ signalled h + Z.of_nat (length (held m)) + returned m = released m ∧
    ∀ t th, pcs m !! t = Some Asleep → thr (ks m) !! t = Some th → state th = kThreadStateWaiting →
      (t ∈ waitblock_queue h ∧ t ∉ held m) ∨ (t ∈ pending m ∧ t ∈ held m).
Proof.
  intros Hs Hm. pose proof (mreach_inv _ _ _ _ _ _ Hs Hm) as Hi. destruct (mi_sem _ _ Hi) as (h & Hh & _ & Hnn & He & Hsum).
  exists h. split_and!; [done|done| |apply Hi|done|].
  - intros Hq. destruct (decide (0 < signalled h)) as [Hp|Hp]; [by rewrite He in Hq|lia].
  - intros t th Hpc Hth Hst. pose proof (mi_waiter _ _ Hi t) as Hw. rewrite Hpc in Hw. rewrite <-(queue_of_at _ _ _ Hh).
    destruct Hw as [Hf|[sl Hf]]; unfold facts in Hf; rewrite Hth in Hf; injection Hf as _ Hsl _ Hq Hp Hd.
    + left. by apply bool_decide_eq_true_1 in Hq; apply bool_decide_eq_false_1 in Hd.
    + right. rewrite bool_decide_eq_true_2 in Hsl by done. subst sl.
      by apply bool_decide_eq_true_1 in Hp; apply bool_decide_eq_true_1 in Hd.
Qed.

(** C14. No assertion of the wait and release code fails and no queue removal goes wrong.
    In every state the machine of the waiters of one semaphore reaches (as above, with
    [ke_wait] called below DPC level), each section of [ke_wait] returns; so does the one
    that switches away, unless the RCU code it calls stops at its own assertion, which it
    does not while no RCU callback is registered.  The release returns, and so does waking
    any thread a releaser is about to wake, on a CPU at DPC level. *)
Theorem semaphore_wait_no_panic o lvl callback s0 n0 m :
  sem_start o s0 n0 → lvl < kIPLDPC → mreach o lvl callback s0 n0 m →
  (∀ me t pc, pcs m !! t = Some pc → runs_on (ks m) me t →
    (pc = Commit → rcu_idle s0 ∨ ∃ b r, Rcu.ki_rcu_quiet me (rcu (sch (ks m))) = Ok (b, r)) →
    ∃ pc' s', wait_section callback me (call o lvl t) pc (ks m) = Ok (pc', s')) ∧
  (∀ n, 0 < n → released m + n < 2 ^ 31 → ∃ wk s', semaphore_release_locked o n (ks m) = Ok (wk, s')) ∧
  (∀ w, w ∈ pending m → ∃ b, wbs (ks m) !! w = Some b ∧
    ∀ me x, cpus (sch (ks m)) !! me = Some x → ipl x = kIPLDPC →
      0 ≤ idle_mask (sch (ks m)) < 2 ^ Z.of_nat (length (cpus (sch (ks m)))) →
      ∃ s', ki_wake_waiter me (wthread b) (ks m) = Ok ((), s')).
Proof.
  intros Hs Hlvl Hm. pose proof (mreach_inv _ _ _ _ _ _ Hs Hm) as Hi. destruct (mreach_calm _ _ _ _ _ _ Hs Hm) as [Hc Hr].
  split_and!.
  - intros me t pc Hpc Hon Hrcu. destruct (decide (pc = Commit)) as [->|Hne].
    + apply commit_returns; try done. destruct (Hrcu eq_refl) as [[Hl Hn]%Hr|?]; [|done]. destruct Hon as (x & Hx & _).
      pose proof (quiet_idle me _ Hn) as Hq. apply wp_ok in Hq as (b & r & ? & _); [by exists b, r|].
      apply lookup_lt_Some in Hx. lia.
    + pose proof (section_ok o lvl callback me m t pc Hi Hpc Hon Hne) as Hw. apply wp_ok in Hw as (pc' & s' & Hrun & _). eauto.
  - intros n Hn Hov. apply release_runs; done.
  - intros w Hw. pose proof (mi_waiter _ _ Hi w) as Hok.
    apply waiter_pending in Hok as [_ Hf]; [|by apply bool_decide_eq_true_2].
    unfold facts in Hf. injection Hf as Hv Hb _ _ _. apply fmap_Some in Hb as (b & Hb & [= _ Hbt]).
    apply fmap_Some in Hv as (th & Hth & [= Hst Hsl]). exists b. split; [done|]. intros me x Hx Hipl Hmask.
    symmetry in Hsl. apply bool_decide_eq_true_1 in Hsl. rewrite <-Hbt. eapply wake_runs; try done. apply Hi.
Qed.

(** ** A run: thread 10 sleeps on semaphore 100 on CPU 0, and is woken *)

Definition wait_demo : kst :=
  Kst (final (splx 0 kIPL0) sched_demo) {[100%nat := Hdr kDispatchSemaphore 0 [] None]} ∅ ∅ ∅ ∅ ∅ ∅.

Lemma wait_demo_start : sem_start 100 wait_demo 0.
Proof.
  split; [by eexists|]. split; [done|]. split; [exact (proj1 sched_demo_ok)|exact (proj2 sched_demo_ok)|simpl; lia|].
  intros t th Ht Hst. exfalso. simpl in Ht.
  repeat (rewrite lookup_insert_Some in Ht; destruct Ht as [[_ <-]|[_ Ht]]; [done|]). by rewrite lookup_empty in Ht.
Qed.

Definition no_dpc : nat → kern sched () := λ _, mret ().
Definition demo_section (pc : wait_pc) : kern kst wait_pc := wait_section no_dpc 0 (call 100 kIPL0 10) pc.
Definition wait_demo_1 : kst := final (demo_section Begin) wait_demo.
Definition wait_demo_2 : kst := final (demo_section (Setup 0)) wait_demo_1.
Definition wait_demo_4 : kst := final (demo_section Commit) wait_demo_2.
Definition wait_demo_5 : kst := final (semaphore_release_locked 100 1) wait_demo_4.

(** Thread 10 is about to switch away. *)
Lemma wait_demo_commit : mreach 100 kIPL0 no_dpc wait_demo 0 (Mst wait_demo_2 {[10%nat := Commit]} [] [] 0 0).
Proof.
  eapply (mreach_step _ _ _ _ _ (Mst wait_demo_2 {[10%nat := Setup 1]} [] [] 0 0)).
  2: { refine (m_section 100 kIPL0 no_dpc 0 10 (Setup 1) Commit wait_demo_2 (Mst wait_demo_2 {[10%nat := Setup 1]} [] [] 0 0) _ _ _);
       [reflexivity|by eexists|vm_compute; reflexivity]. }
  eapply (mreach_step _ _ _ _ _ (Mst wait_demo_1 {[10%nat := Setup 0]} [] [] 0 0)).
  2: { refine (m_section 100 kIPL0 no_dpc 0 10 (Setup 0) (Setup 1) wait_demo_2 (Mst wait_demo_1 {[10%nat := Setup 0]} [] [] 0 0) _ _ _);
       [reflexivity|by eexists|vm_compute; reflexivity]. }
  eapply (mreach_step _ _ _ _ _ (Mst wait_demo {[10%nat := Begin]} [] [] 0 0)).
  2: { refine (m_section 100 kIPL0 no_dpc 0 10 Begin (Setup 0) wait_demo_1 (Mst wait_demo {[10%nat := Begin]} [] [] 0 0) _ _ _);
       [reflexivity|by eexists|vm_compute; reflexivity]. }
  eapply mreach_step; [apply mreach_init|].
  refine (m_start 100 kIPL0 no_dpc 0 10 (Mst wait_demo ∅ [] [] 0 0) _ _ _ _ _); [reflexivity|by eexists|reflexivity| |reflexivity].
  unfold cores. simpl. set_solver.
Qed.

(** Thread 10 sleeps, has been granted the unit, and is about to be woken. *)
Lemma wait_demo_reach :
  mreach 100 kIPL0 no_dpc wait_demo 0 (Mst wait_demo_5 {[10%nat := Asleep]} [10%nat] [10%nat] 1 0).
Proof.
  eapply (mreach_step _ _ _ _ _ (Mst wait_demo_4 {[10%nat := Asleep]} [] [] 0 0)).
  2: { refine (m_release 100 kIPL0 no_dpc 1 [10%nat] wait_demo_5 _ (Mst wait_demo_4 {[10%nat := Asleep]} [] [] 0 0) _ _ _ _);
       [lia|reflexivity|simpl; lia|vm_compute; reflexivity]. }
  eapply mreach_step; [apply wait_demo_commit|].
  refine (m_section 100 kIPL0 no_dpc 0 10 Commit Asleep wait_demo_4 (Mst wait_demo_2 {[10%nat := Commit]} [] [] 0 0) _ _ _);
    [reflexivity|by eexists|vm_compute; reflexivity].
Qed.

Lemma semaphore_wait_safe_witness :
  ∃ m h, mreach 100 kIPL0 no_dpc wait_demo 0 m ∧ pending m = [10%nat] ∧ hdrs (ks m) !! 100%nat = Some h ∧
    signalled h + 1 + returned m = released m.
Proof.
  destruct (semaphore_wait_safe 100 kIPL0 no_dpc wait_demo 0 _ wait_demo_start wait_demo_reach) as (h & Hh & _ & _ & _ & Hs & _).
  eexists _, h. split; [exact wait_demo_reach|]. split; [reflexivity|]. split; [exact Hh|exact Hs].
Defined.

Lemma semaphore_wait_no_panic_witness :
  rcu_idle wait_demo ∧ ∃ pc s', wait_section no_dpc 0 (call 100 kIPL0 10) Commit wait_demo_2 = Ok (pc, s').
Proof.
  assert (rcu_idle wait_demo) as Hr.
  { split; [simpl; lia|]. vm_compute. repeat constructor. }
  split; [exact Hr|].
  destruct (semaphore_wait_no_panic 100 kIPL0 no_dpc wait_demo 0 _ wait_demo_start eq_refl wait_demo_commit) as (Hw & _).
  apply (Hw 0%nat 10%nat Commit); [reflexivity|eexists; split; reflexivity|left; exact Hr].
Defined.
