(* ===== verification/TimerProofs.v ===== *)
(** Timers (kernel/kern/clock.c, timer.c): a CPU's timer queue is sorted by
    deadline, and its expiry DPC fires the timers that are due and no other. *)
From stdpp Require Import sorting.
From S2P Require Import Prelude Rcu Sched SchedProofs Dispatch DispatchProofs.
Import Sched Dispatch.
Local Open Scope Z_scope.

(** ** Insertion *)

Definition due_at (tms : gmap nat ktimer) (m : nat) : Z := default 0 (deadline <$> tms !! m).
(** Deadlines ascend, and every element is a timer. *)
Definition timers_sorted (tms : gmap nat ktimer) (q : list nat) : Prop :=
  StronglySorted (λ a b, due_at tms a ≤ due_at tms b) q ∧ ∀ m, m ∈ q → is_Some (tms !! m).

(** [timer_insert] goes after the timers that expire no later. *)
Lemma timer_insert_split tms m d q :
  (∀ x, x ∈ q → is_Some (tms !! x)) →
  ∃ q1 q2, q = q1 ++ q2 ∧ timer_insert tms m d q = q1 ++ m :: q2 ∧
    (∀ x, x ∈ q1 → due_at tms x ≤ d) ∧ (∀ x, head q2 = Some x → d < due_at tms x).
Proof.
  induction q as [|x q IH]; intros Hq; simpl.
  { exists [], []. split_and!; try done. intros x Hx. by apply not_elem_of_nil in Hx. }
  rewrite bool_decide_eq_true_2 by (apply Hq; set_solver). simpl. fold (due_at tms x).
  destruct (Z.ltb_spec d (due_at tms x)) as [Hlt|Hge].
  - exists [], (x :: q). split_and!; try done; [intros y Hy; by apply not_elem_of_nil in Hy|].
    intros y [= <-]. done.
  - destruct IH as (q1 & q2 & -> & -> & H1 & H2); [set_solver|]. exists (x :: q1), q2. split_and!; try done.
    intros y [->|Hy]%elem_of_cons; [done|auto].
Qed.

Lemma sorted_insert (tms : gmap nat ktimer) m q1 q2 :
  StronglySorted (λ a b, due_at tms a ≤ due_at tms b) (q1 ++ q2) →
  (∀ x, x ∈ q1 → due_at tms x ≤ due_at tms m) → (∀ x, head q2 = Some x → due_at tms m < due_at tms x) →
  StronglySorted (λ a b, due_at tms a ≤ due_at tms b) (q1 ++ m :: q2) ∧ ∀ x, x ∈ q2 → due_at tms m < due_at tms x.
Proof.
  intros Hs H1 H2. assert (∀ x, x ∈ q2 → due_at tms m < due_at tms x) as H2'.
  { destruct q2 as [|y q2]; [intros x Hx; by apply not_elem_of_nil in Hx|]. specialize (H2 y eq_refl).
    apply StronglySorted_app in Hs as (_ & _ & Hy). inversion Hy as [|? ? _ Hall]; subst. rewrite Forall_forall in Hall.
    intros x [->|Hx]%elem_of_cons; [done|]. specialize (Hall x Hx). lia. }
  split; [|done]. apply StronglySorted_app in Hs as (Hc & Hs1 & Hs2). apply StronglySorted_app. split_and!; try done.
  - intros a b Ha [->|Hb]%elem_of_cons; [auto|by apply Hc].
  - constructor; [done|]. apply Forall_forall. intros x Hx. specialize (H2' x Hx). lia.
Qed.
Lemma due_at_insert tms m x y k :
  tms !! m = Some x → deadline y = deadline x → due_at (<[m := y]> tms) k = due_at tms k.
Proof.
  intros Hx Hd. unfold due_at. destruct (decide (k = m)) as [->|Hne]; [|by rewrite lookup_insert_ne].
  rewrite lookup_insert_eq, Hx. simpl. done.
Qed.
Lemma sorted_ext (tms tms' : gmap nat ktimer) q :
  (∀ k, due_at tms' k = due_at tms k) → StronglySorted (λ a b, due_at tms a ≤ due_at tms b) q →
  StronglySorted (λ a b, due_at tms' a ≤ due_at tms' b) q.
Proof.
  intros Hext. induction 1 as [|a q Hs IH Hall]; constructor; [done|].
  eapply Forall_impl; [done|]. simpl. intros b. by rewrite !Hext.
Qed.

Lemma wp_timer_at m Q s : wp (timer_at m) Q s ↔ ∃ x, timers s !! m = Some x ∧ Q x s.
Proof. unfold timer_at. by wp_simp. Qed.
Lemma wp_timer_set m x (Q : () → kst → Prop) s :
  wp (timer_set m x) Q s ↔ Q () (set_timers (<[m := x]> (timers s)) s).
Proof. done. Qed.
Lemma wp_cpu_get c Q s : wp (in_sched (cpu_at c)) Q s ↔ ∃ x, cpus (sch s) !! c = Some x ∧ Q x s.
Proof. unfold in_sched. rewrite wp_zoom, wp_cpu_at. by rewrite set_sch_sch. Qed.
Lemma wp_cpu_set c f (Q : () → kst → Prop) s :
  wp (in_sched (cpu_upd c f)) Q s ↔ ∃ x, cpus (sch s) !! c = Some x ∧
    Q () (set_sch (set_cpus (<[c := f x]> (cpus (sch s))) (sch s)) s).
Proof. unfold in_sched. by rewrite wp_zoom, wp_cpu_upd. Qed.

(** Setting a timer keeps its CPU's queue sorted by deadline: the timer goes
    behind every timer that expires at the same time or earlier and before every
    one that expires later, nothing else moves, and it is marked queued on this
    CPU. *)
Theorem timer_enqueue_sorted me m x c s :
  timers s !! m = Some x → cpus (sch s) !! me = Some c → timers_sorted (timers s) (timer_queue c) →
  wp (ki_timer_enqueue_locked me m) (λ _ s', ∃ q1 q2 c',
    timer_queue c = q1 ++ q2 ∧ cpus (sch s') !! me = Some c' ∧ timer_queue c' = q1 ++ m :: q2 ∧
    timers_sorted (timers s') (timer_queue c') ∧
    (∀ k, k ∈ q1 → due_at (timers s) k ≤ deadline x) ∧ (∀ k, k ∈ q2 → deadline x < due_at (timers s) k) ∧
    timers s' = <[m := Timer kTimerInQueue (deadline x) (Some me) (tmdpc x)]> (timers s)) s.
Proof.
  intros Hx Hc [Hs Hq]. unfold ki_timer_enqueue_locked. rewrite wp_bind, wp_timer_at. exists x. split; [done|].
  rewrite wp_bind, wp_timer_set, wp_bind, wp_get, wp_cpu_set. exists c. split; [done|]. simpl.
  set (tms := <[m := _]> (timers s)). assert (∀ k, due_at tms k = due_at (timers s) k) as Hdue by (by intros; eapply due_at_insert).
  assert (due_at (timers s) m = deadline x) as Hm by (unfold due_at; by rewrite Hx).
  assert (∀ k, k ∈ timer_queue c → is_Some (tms !! k)) as Hq'.
  { intros k Hk. unfold tms. rewrite lookup_insert_is_Some'. auto. }
  destruct (timer_insert_split tms m (deadline x) (timer_queue c) Hq') as (q1 & q2 & Hsp & -> & H1 & H2).
  destruct (sorted_insert (timers s) m q1 q2) as [Hs' H2'].
  { by rewrite <-Hsp. } { intros k Hk. rewrite Hm, <-Hdue. auto. } { intros k Hk. rewrite Hm, <-Hdue. auto. }
  exists q1, q2. eexists. split; [done|]. split; [by apply list_lookup_insert_eq, lookup_lt_Some with c|]. simpl. split_and!; try done.
  - split; [by eapply sorted_ext|]. intros k Hk. destruct (decide (k = m)) as [->|Hne].
    + unfold tms. rewrite lookup_insert_eq. eauto.
    + apply Hq'. rewrite Hsp. set_solver.
  - intros k Hk. rewrite <-Hdue. auto.
  - intros k Hk. rewrite <-Hm. auto.
Qed.

(** ** Expiry *)

(** A timer on the queue, with threads that wait on it. *)
Definition timer_live (s : kst) (m : nat) : Prop :=
  ∃ x h, timers s !! m = Some x ∧ tmstate x = kTimerInQueue ∧
    hdrs s !! m = Some h ∧ htype h = kDispatchTimer ∧ queue_live s (waitblock_queue h).

(** The threads that wait on [m]. *)
Definition waiters (s : kst) (m : nat) : list nat :=
  thread_of s <$> default [] (waitblock_queue <$> hdrs s !! m).
(** What the expiry does to a waiting thread, and to the timer's header. *)
Definition woken (th : kthread) : kthread :=
  match wait_status th with kInternalWaitStatusWaiting => runnable (satisfy th) | _ => satisfy th end.
Definition fired_hdr (h : kdispatchheader) : kdispatchheader := set_signalled 0 (set_queue [] h).

Definition dpc_of (tms : gmap nat ktimer) (m : nat) : option nat := x ← tms !! m; tmdpc x.
(** The DPCs of [ds] that get queued, in order: a queued one is not queued again. *)
Fixpoint new_dpcs (queued : gmap nat nat) (me : nat) (ds : list nat) : list nat :=
  match ds with
  | [] => []
  | d :: ds' => match queued !! d with
                | Some _ => new_dpcs queued me ds'
                | None => d :: new_dpcs (<[d := me]> queued) me ds'
                end
  end.

(** Queueing a DPC at DPC level. *)
Definition enqueued (me d : nat) (x : kcpu) (s : sched) : sched :=
  match dpc_cpu s !! d with
  | Some _ => s
  | None => set_cpus (<[me := with_irq true (with_dpc_queue (dpc_queue x ++ [d]) x)]> (cpus s))
              (set_dpc_cpu (<[d := me]> (dpc_cpu s)) s)
  end.
Lemma dpc_enqueue_precise callback me d x s :
  cpus s !! me = Some x → kIPLDPC ≤ ipl x →
  wp (ke_dpc_enqueue callback me d) (λ _ s', s' = enqueued me d x s) s.
Proof.
  intros Hx Hipl. pose proof (lookup_lt_Some _ _ _ Hx) as Hlt.
  unfold ke_dpc_enqueue, splget, splraise, splx, md_raise_dpc_interrupt, enqueued.
  rewrite !wp_bind, wp_cpu_at. exists x. split; [done|]. rewrite wp_ret. replace (ipl x <? kIPLDPC) with false by lia.
  rewrite !wp_bind, wp_cpu_at. exists x. split; [done|]. rewrite wp_bind, wp_cpu_upd. exists x. split; [done|]. rewrite wp_ret.
  rewrite wp_bind, wp_get, wp_bind. simpl. destruct (dpc_cpu s !! d).
  - rewrite wp_ret, wp_cpu_upd. simpl. rewrite list_lookup_insert_eq by done. eexists. split; [done|].
    rewrite list_insert_insert_eq. unfold set_cpus. simpl. rewrite list_insert_id; [by destruct s|]. rewrite Hx. by destruct x.
  - rewrite wp_bind, wp_put, wp_bind, wp_cpu_upd. simpl. rewrite list_lookup_insert_eq by done. eexists. split; [done|].
    rewrite wp_cpu_upd. simpl. rewrite list_insert_insert_eq, list_lookup_insert_eq by done. eexists. split; [done|].
    rewrite wp_cpu_upd. simpl. rewrite list_insert_insert_eq, list_lookup_insert_eq by done. eexists. split; [done|].
    rewrite list_insert_insert_eq. unfold set_cpus, set_dpc_cpu. simpl. by destruct x.
Qed.

(** Threads can be woken from CPU [me]: those whose wait has begun are asleep. *)
Record wakes (s : kst) (me : nat) : Prop := Wakes {
  wa_ipl : ∃ x, cpus (sch s) !! me = Some x ∧ ipl x = kIPLDPC;
  wa_len : (length (cpus (sch s)) ≤ 31)%nat;
  wa_mask : 0 ≤ idle_mask (sch s) < 2 ^ Z.of_nat (length (cpus (sch s)));
  wa_asleep : ∀ t th, thr s !! t = Some th → wait_status th = kInternalWaitStatusWaiting → state th = kThreadStateWaiting
}.

(** Waking the threads of the wait blocks [l], which are satisfied and asleep. *)
Lemma wake_all me : ∀ l s,
  (∃ x, cpus (sch s) !! me = Some x ∧ ipl x = kIPLDPC) → (length (cpus (sch s)) ≤ 31)%nat →
  0 ≤ idle_mask (sch s) < 2 ^ Z.of_nat (length (cpus (sch s))) → NoDup (thread_of s <$> l) →
  (∀ w, w ∈ l → ∃ b th, wbs s !! w = Some b ∧ thr s !! wthread b = Some th ∧
    state th = kThreadStateWaiting ∧ wait_status th = kInternalWaitStatusSatisfied) →
  wp (ki_wake_waiters me l) (λ _ s', hdrs s' = hdrs s ∧ wbs s' = wbs s ∧ timers s' = timers s ∧
    (∀ t, thr s' !! t = if decide (t ∈ thread_of s <$> l) then runnable <$> thr s !! t else thr s !! t) ∧
    woke (sch s) (sch s') ∧ ∀ t, t ∈ thread_of s <$> l → on_queue (sch s') t) s.
Proof.
  induction l as [|w l IH]; intros s (x & Hx & Hipl) Hlen Hmask Hnd Hl; cbn [ki_wake_waiters].
  { rewrite wp_ret. split_and!; try done; [apply woke_refl|]. intros t []%not_elem_of_nil. }
  destruct (Hl w) as (b & th & Hb & Hth & Hst & Hws); [set_solver|]. rewrite wp_bind, wp_wb_at. exists b. split; [done|].
  assert (thread_of s w = wthread b) as Hw by (unfold thread_of; by rewrite Hb). rewrite fmap_cons, Hw in *.
  apply NoDup_cons in Hnd as [Hnw Hnd]. rewrite wp_bind. eapply wp_mono; [by eapply (wake_one me x)|]. simpl.
  intros [] s1 (Hhd & Hwb & Htm & Hthr & Hwk & Hon).
  assert (∀ k : list nat, thread_of s1 <$> k = thread_of s <$> k) as Hto by (intros; unfold thread_of; by rewrite Hwb).
  destruct (wk_cpu _ _ Hwk me x Hx) as (x1 & Hx1 & Hc1 & _). injection Hc1 as _ _ Hi1 _.
  eapply wp_mono; [apply IH|].
  - exists x1. split; [done|congruence].
  - by rewrite (wk_len _ _ Hwk).
  - by rewrite (wk_len _ _ Hwk), (wk_mask _ _ Hwk).
  - by rewrite Hto.
  - intros w' Hw'. destruct (Hl w') as (b' & th' & Hb' & Hth' & ?); [set_solver|]. exists b', th'. rewrite Hwb, Hthr.
    split_and!; [done| |tauto..]. rewrite lookup_insert_ne; [done|]. intros Heq. apply Hnw. rewrite Heq.
    apply list_elem_of_fmap. exists w'. split; [|done]. unfold thread_of. by rewrite Hb'.
  - intros [] s2 (Hhd2 & Hwb2 & Htm2 & Hthr2 & Hwk2 & Hon2). rewrite Hto in Hthr2, Hon2. split_and!; try congruence.
    + intros t. rewrite Hthr2, Hthr. destruct (decide (t = wthread b)) as [->|Hne].
      * rewrite decide_False, lookup_insert_eq by done. rewrite decide_True by set_solver. by rewrite Hth.
      * rewrite lookup_insert_ne by done. apply decide_ext. set_solver.
    + by eapply woke_trans.
    + intros t [->|Ht]%elem_of_cons; [by eapply woke_queue|auto].
Qed.

(** A timer is signalled: every waiter is served. *)
Lemma timer_signal_ok m h s :
  hdrs s !! m = Some h → htype h = kDispatchTimer → 0 < signalled h → queue_live s (waitblock_queue h) →
  wp (ki_signal m) (λ wk s', served s s' (waitblock_queue h) ∧
    wk = filter (λ w, asleep s w = true) (waitblock_queue h) ∧ hdrs s' = <[m := set_queue [] h]> (hdrs s)) s.
Proof.
  intros Hh Hty Hsig Hlive. unfold ki_signal. rewrite wp_bind, wp_hdr_at. exists h. split; [done|].
  eapply wp_mono; [by apply (signal_loop_spec m (waitblock_queue h) [] s h); [|rewrite Hty| |]|].
  intros wk s' (l & rest & Hl & Hsv & Hwk & Hhd & Hstop & _).
  assert (∀ l h', htype h' = kDispatchTimer → serve_hdr s l h' = h') as Hsame.
  { intros k. induction k as [|w k IH]; intros h' Hh'; simpl; [done|]. unfold acquire_hdr. rewrite Hh'. by destruct (unsatisfied s w); apply IH. }
  rewrite Hsame in Hhd, Hstop by done. destruct Hstop as [->|]; [|lia]. rewrite app_nil_r in Hl. subst l. by split_and!.
Qed.

(** The DPC of an expiring timer. *)
Definition fire_dpc (me : nat) (x : ktimer) (c : kcpu) (s : sched) : sched :=
  match tmdpc x with Some d => enqueued me d c s | None => s end.
Lemma fire_dpc_ok callback me x c s :
  cpus (sch s) !! me = Some c → kIPLDPC ≤ ipl c →
  wp (match tmdpc x with Some d => in_sched (ke_dpc_enqueue callback me d) | None => mret () end)
    (λ _ s', s' = set_sch (fire_dpc me x c (sch s)) s) s.
Proof.
  intros Hc Hipl. unfold fire_dpc. destruct (tmdpc x) as [d|]; [|rewrite wp_ret; symmetry; apply set_sch_sch].
  unfold in_sched. rewrite wp_zoom. eapply wp_mono; [by apply dpc_enqueue_precise|]. simpl. by intros _ ? ->.
Qed.
Lemma fire_dpc_cpu me x c s : cpus s !! me = Some c →
  ∃ c', cpus (fire_dpc me x c s) !! me = Some c' ∧ timer_queue c' = timer_queue c ∧ nanos c' = nanos c ∧ ipl c' = ipl c ∧
    length (cpus (fire_dpc me x c s)) = length (cpus s) ∧ idle_mask (fire_dpc me x c s) = idle_mask s ∧
    (∀ t, on_queue s t → on_queue (fire_dpc me x c s) t) ∧
    ∀ ds, dpc_queue c' ++ new_dpcs (dpc_cpu (fire_dpc me x c s)) me ds =
      dpc_queue c ++ new_dpcs (dpc_cpu s) me (option_list (tmdpc x) ++ ds).
Proof.
  intros Hc. pose proof (lookup_lt_Some _ _ _ Hc) as Hlt. unfold fire_dpc, enqueued.
  destruct (tmdpc x) as [d|]; [|by exists c]. simpl. destruct (dpc_cpu s !! d) eqn:E; [by exists c|]. simpl.
  rewrite list_lookup_insert_eq by done. eexists. split; [done|]. split_and!; try done; [by rewrite length_insert| |].
  - intros t (c0 & y & Hy & Ht). destruct (decide (c0 = me)) as [->|Hne].
    + exists me. eexists. split; [by apply list_lookup_insert_eq|]. rewrite Hc in Hy. by injection Hy as <-.
    + exists c0, y. simpl. by rewrite list_lookup_insert_ne.
  - intros ds. simpl. by rewrite <-app_assoc.
Qed.


(** The waiters of a queue that is served, then woken if they were asleep. *)
Lemma waiter_block s q t :
  queue_live s q → t ∈ thread_of s <$> q → ∃ w b th, w ∈ q ∧ wbs s !! w = Some b ∧ wthread b = t ∧ thr s !! t = Some th.
Proof.
  intros Hlive (w & -> & Hw)%list_elem_of_fmap. destruct (ql_wb _ _ Hlive w Hw) as (b & th & Hb & Hth).
  exists w, b, th. unfold thread_of. by rewrite Hb.
Qed.
Lemma waiter_in s (q : list nat) w b : w ∈ q → wbs s !! w = Some b → wthread b ∈ thread_of s <$> q.
Proof. intros Hw Hb. apply list_elem_of_fmap. exists w. split; [|done]. unfold thread_of. by rewrite Hb. Qed.
Lemma waiters_nodup s q (P : nat → Prop) `{!∀ w, Decision (P w)} :
  queue_live s q → NoDup (thread_of s <$> filter P q).
Proof.
  intros Hlive. apply NoDup_fmap_2_strong; [|apply NoDup_filter, Hlive].
  intros w w' [_ Hw]%list_elem_of_filter [_ Hw']%list_elem_of_filter Heq.
  destruct (ql_wb _ _ Hlive w Hw) as (b & _ & Hb & _), (ql_wb _ _ Hlive w' Hw') as (b' & _ & Hb' & _).
  eapply (ql_inj _ _ Hlive); try done. unfold thread_of in Heq. by rewrite Hb, Hb' in Heq.
Qed.
Lemma asleep_status s w b th :
  wbs s !! w = Some b → thr s !! wthread b = Some th →
  asleep s w = true ↔ wait_status th = kInternalWaitStatusWaiting.
Proof. intros Hb Hth. unfold asleep, status_of. rewrite Hb. simpl. rewrite Hth. simpl. by destruct (wait_status th). Qed.

Lemma served_waiters s s' q t :
  queue_live s q → served s s' q →
  thr s' !! t = if decide (t ∈ thread_of s <$> q) then satisfy <$> thr s !! t else thr s !! t.
Proof.
  intros Hlive Hsv. rewrite (sv_thr _ _ _ Hsv). apply decide_ext. rewrite Exists_exists. split.
  - intros (w & Hw & (b & Hb & ->)%fmap_Some). by eapply waiter_in.
  - intros (w & b & _ & Hw & Hb & <- & _)%(waiter_block _ _ _ Hlive). exists w. split; [done|]. by rewrite Hb.
Qed.
Lemma served_thread_of s s' q w : served s s' q → wthread <$> wbs s' !! w = wthread <$> wbs s !! w.
Proof. intros Hsv. rewrite (sv_wbs _ _ _ Hsv). case_decide; [|done]. by destruct (wbs s !! w). Qed.

Lemma woken_waiters s q t (T : gmap nat kthread) :
  queue_live s q →
  (∀ t, T !! t = if decide (t ∈ thread_of s <$> q) then satisfy <$> thr s !! t else thr s !! t) →
  (if decide (t ∈ thread_of s <$> filter (λ w, asleep s w = true) q) then runnable <$> T !! t else T !! t) =
  if decide (t ∈ thread_of s <$> q) then woken <$> thr s !! t else thr s !! t.
Proof.
  intros Hlive HT. rewrite HT. destruct (decide (t ∈ thread_of s <$> q)) as [Hin|Hin].
  - destruct (waiter_block _ _ _ Hlive Hin) as (w & b & th & Hw & Hb & <- & Hth). rewrite Hth. simpl.
    assert (wthread b ∈ thread_of s <$> filter (λ w, asleep s w = true) q ↔ wait_status th = kInternalWaitStatusWaiting) as Hiff.
    { rewrite <-(asleep_status s w b th) by done. split.
      - intros (w' & Heq & [Ha Hw']%list_elem_of_filter)%list_elem_of_fmap. destruct (ql_wb _ _ Hlive w' Hw') as (b' & _ & Hb' & _).
        assert (w' = w) as ->; [|done]. eapply (ql_inj _ _ Hlive); try done. unfold thread_of in Heq. by rewrite Hb' in Heq.
      - intros Ha. eapply waiter_in; [|done]. by apply list_elem_of_filter. }
    unfold woken. case_decide as Hd; [rewrite (proj1 Hiff Hd); done|]. rewrite Hiff in Hd. by destruct (wait_status th).
  - rewrite decide_False; [done|]. intros (w & -> & [_ Hw]%list_elem_of_filter)%list_elem_of_fmap. apply Hin.
    by apply list_elem_of_fmap_2.
Qed.

Lemma woke_ext s s1 s' :
  idle_mask s1 = idle_mask s → dpc_cpu s1 = dpc_cpu s → cpus s1 = cpus s → woke s1 s' → woke s s'.
Proof. intros Hm Hd Hc [? ? ? ?]. split; by rewrite <-?Hm, <-?Hd, <-?Hc. Qed.
Lemma enqueued_same me d c s s1 :
  set_threads ∅ s1 = set_threads ∅ s → set_threads ∅ (enqueued me d c s1) = set_threads ∅ (enqueued me d c s).
Proof.
  intros Hs. pose proof (f_equal dpc_cpu Hs) as Hd. simpl in Hd. unfold enqueued. rewrite Hd. destruct (dpc_cpu s !! d); [done|].
  pose proof (f_equal cpus Hs) as Hc. simpl in Hc. rewrite Hc.
  exact (f_equal (λ s0, set_cpus _ (set_dpc_cpu _ s0)) Hs).
Qed.

(** What the expiry of one timer does. *)
Lemma timer_expire_ok callback me m x x' c s h :
  hdrs s !! m = Some h → htype h = kDispatchTimer → queue_live s (waitblock_queue h) → timers s !! m = Some x' →
  cpus (sch s) !! me = Some c → wakes s me →
  wp (timer_expire callback me m x) (λ _ s',
    woke (fire_dpc me x c (sch s)) (sch s') ∧
    hdrs s' = <[m := fired_hdr h]> (hdrs s) ∧
    timers s' = <[m := with_tmstate kTimerDisabled x']> (timers s) ∧
    (∀ w, wthread <$> wbs s' !! w = wthread <$> wbs s !! w) ∧
    (∀ t, thr s' !! t = if decide (t ∈ waiters s m) then woken <$> thr s !! t else thr s !! t) ∧
    (∀ t th, t ∈ waiters s m → thr s !! t = Some th → wait_status th = kInternalWaitStatusWaiting → on_queue (sch s') t)) s.
Proof.
  intros Hh Hty Hlive Hx Hc Hwa. unfold timer_expire. rewrite wp_bind, wp_hdr_at. exists h. split; [done|].
  rewrite wp_bind, wp_hdr_set. set (h1 := set_signalled 1 h). set (s1 := set_hdrs (<[m := h1]> (hdrs s)) s).
  assert (queue_live s1 (waitblock_queue h1)) as Hlive1 by (destruct Hlive; by split).
  rewrite wp_bind. eapply wp_mono; [apply (timer_signal_ok m h1 s1); [apply lookup_insert_eq|done|done|done]|].
  intros wk s2 (Hsv & -> & Hhd). rewrite wp_bind, wp_hdr_at. exists (set_queue [] h1). split; [rewrite Hhd; apply lookup_insert_eq|].
  rewrite wp_bind, wp_hdr_set. set (s3 := set_hdrs _ s2).
  destruct (sv_rest _ _ _ Hsv) as (_ & _ & _ & _ & Htm & Hsc).
  assert (cpus (sch s3) = cpus (sch s)) as Hcp by exact (f_equal cpus Hsc).
  assert (cpus (sch s3) !! me = Some c) as Hc3 by (by rewrite Hcp).
  assert (ipl c = kIPLDPC) as Hipl by (destruct (wa_ipl _ _ Hwa) as (c' & Hc' & ?); congruence).
  rewrite wp_bind. eapply wp_mono; [by apply (fire_dpc_ok callback me x c s3); [|lia]|]. simpl. intros [] s4 ->.
  assert (set_threads ∅ (fire_dpc me x c (sch s3)) = set_threads ∅ (fire_dpc me x c (sch s))) as Hfd
    by (unfold fire_dpc; destruct (tmdpc x); [by apply enqueued_same|done]).
  destruct (fire_dpc_cpu me x c (sch s3) Hc3) as (c4 & Hc4 & _ & _ & Hi4 & Hl4 & Hm4 & _).
  assert (∀ w, wthread <$> wbs s2 !! w = wthread <$> wbs s !! w) as Hto by (intros w; exact (served_thread_of _ _ _ _ Hsv)).
  assert (∀ w, thread_of s2 w = thread_of s w) as Hto' by (intros w; unfold thread_of; by rewrite Hto).
  set (s4 := set_sch _ s3). assert (∀ l : list nat, thread_of s4 <$> l = thread_of s <$> l) as Hto4
    by (intros l; apply list_fmap_ext; intros; apply Hto').
  assert (thr s4 = thr s2) as Ht4.
  { unfold s4, thr. simpl. unfold fire_dpc, enqueued. destruct (tmdpc x) as [d|]; [|done]. by destruct (dpc_cpu _ !! d). }
  rewrite wp_bind. eapply wp_mono; [apply (wake_all me _ s4)|].
  - exists c4. split; [done|congruence].
  - change (sch s4) with (fire_dpc me x c (sch s3)). rewrite Hl4, Hcp. apply Hwa.
  - change (sch s4) with (fire_dpc me x c (sch s3)). rewrite Hl4, Hm4, Hcp.
    assert (idle_mask (sch s3) = idle_mask (sch s)) as -> by exact (f_equal idle_mask Hsc). apply Hwa.
  - rewrite Hto4. by apply (waiters_nodup s1).
  - intros w [Ha Hw]%list_elem_of_filter. destruct (ql_wb _ _ Hlive1 w Hw) as (b & th & Hb & Hth).
    apply (asleep_status s1 w b th Hb Hth) in Ha as Hws.
    specialize (Hto w). change (wbs s) with (wbs s1) in Hto. rewrite Hb in Hto. apply fmap_Some in Hto as (b' & Hb' & Hbt).
    exists b', (satisfy th). rewrite Ht4, (served_waiters s1 s2 _ _ Hlive1 Hsv), <-Hbt, decide_True by (by eapply waiter_in).
    rewrite Hth. split_and!; [done|done| |done]. exact (wa_asleep _ _ Hwa (wthread b) th Hth Hws).
  - intros [] s5 (Hhd5 & Hwb5 & Htm5 & Hthr5 & Hwk5 & Hon5). rewrite wp_bind, wp_timer_at. exists x'.
    split; [by rewrite Htm5; simpl; rewrite Htm|]. rewrite wp_timer_set. rewrite Hto4 in Hthr5, Hon5. rewrite Ht4 in Hthr5.
    assert (waiters s m = thread_of s1 <$> waitblock_queue h1) as Hwt by (unfold waiters; by rewrite Hh). rewrite Hwt. split_and!.
    + eapply woke_ext; [..|exact Hwk5]; [exact (f_equal idle_mask Hfd)|exact (f_equal dpc_cpu Hfd)|exact (f_equal cpus Hfd)].
    + simpl. rewrite Hhd5. unfold s4, s3. simpl. rewrite Hhd. simpl. by rewrite !insert_insert_eq.
    + simpl. rewrite Htm5. simpl. by rewrite Htm.
    + intros w. simpl. by rewrite Hwb5.
    + intros t. change (thr (set_timers _ s5)) with (thr s5). rewrite Hthr5. apply (woken_waiters s1); [done|].
      intros t'. by apply served_waiters.
    + intros t th Ht Hth Hws. apply Hon5. destruct (waiter_block _ _ _ Hlive1 Ht) as (w & b & th' & Hw & Hb & <- & Hth').
      assert (th' = th) as -> by (change (thr s1) with (thr s) in Hth'; congruence).
      eapply (waiter_in s1); [|done]. apply list_elem_of_filter. split; [|done]. by apply (asleep_status s1 w b th).
Qed.

(** The queue and the clock of [me]. *)
Record expiry_pre (s : kst) (me : nat) (c : kcpu) (due later : list nat) : Prop := ExpiryPre {
  ep_cpu : cpus (sch s) !! me = Some c;
  ep_queue : timer_queue c = due ++ later;
  ep_nodup : NoDup (due ++ later);
  ep_due : ∀ m, m ∈ due → due_at (timers s) m ≤ nanos c;
  ep_later : ∀ m, head later = Some m → nanos c < due_at (timers s) m;
  ep_live : ∀ m, m ∈ due ++ later → timer_live s m;
  ep_wakes : wakes s me
}.

(** The timers [due] have fired: they are disabled, their DPCs are queued in order, and
    every thread that waited on one of them has its wait satisfied and is on a run queue if
    it slept; [later] is what is left. *)
Record expiry_post (s : kst) (me : nat) (c : kcpu) (due later : list nat) (s' : kst) : Prop := ExpiryPost {
  ex_cpu : ∃ c', cpus (sch s') !! me = Some c' ∧ timer_queue c' = later ∧ nanos c' = nanos c ∧
    dpc_queue c' = dpc_queue c ++ new_dpcs (dpc_cpu (sch s)) me (omap (dpc_of (timers s)) due);
  ex_timers : ∀ m, timers s' !! m = if decide (m ∈ due) then with_tmstate kTimerDisabled <$> timers s !! m else timers s !! m;
  ex_hdrs : ∀ m, hdrs s' !! m = if decide (m ∈ due) then fired_hdr <$> hdrs s !! m else hdrs s !! m;
  ex_thr : ∀ t, thr s' !! t = if decide (t ∈ due ≫= waiters s) then woken <$> thr s !! t else thr s !! t;
  ex_woken : ∀ t th, t ∈ due ≫= waiters s → thr s !! t = Some th → wait_status th = kInternalWaitStatusWaiting →
    on_queue (sch s') t;
  ex_queued : ∀ t, on_queue (sch s) t → on_queue (sch s') t
}.

Lemma expiry_stop s me c later : expiry_pre s me c [] later → expiry_post s me c [] later s.
Proof.
  intros [Hc Hq _ _ _ _ _]. split; try done; [exists c; split_and!; try done; by rewrite app_nil_r|].
  intros t th []%not_elem_of_nil.
Qed.

Lemma woken_idem th : woken (woken th) = woken th.
Proof. unfold woken. destruct (wait_status th) eqn:E; simpl; rewrite ?E; done. Qed.

(** What one expiry leaves to be said of the others. *)
Record fired (s : kst) (me : nat) (c : kcpu) (m : nat) (x : ktimer) (h : kdispatchheader) (c1 : kcpu) (s1 : kst) : Prop := Fired {
  fi_cpu : cpus (sch s1) !! me = Some c1;
  fi_nanos : nanos c1 = nanos c;
  fi_dpc : ∀ ds, dpc_queue c1 ++ new_dpcs (dpc_cpu (sch s1)) me ds =
         dpc_queue c ++ new_dpcs (dpc_cpu (sch s)) me (option_list (tmdpc x) ++ ds);
  fi_timers : timers s1 = <[m := with_tmstate kTimerDisabled x]> (timers s);
  fi_hdrs : hdrs s1 = <[m := fired_hdr h]> (hdrs s);
  fi_wbs : ∀ w, wthread <$> wbs s1 !! w = wthread <$> wbs s !! w;
  fi_thr : ∀ t, thr s1 !! t = if decide (t ∈ waiters s m) then woken <$> thr s !! t else thr s !! t;
  fi_woken : ∀ t th, t ∈ waiters s m → thr s !! t = Some th → wait_status th = kInternalWaitStatusWaiting →
    on_queue (sch s1) t;
  fi_queued : ∀ t, on_queue (sch s) t → on_queue (sch s1) t
}.

Section fired.
Context (s : kst) (me : nat) (c : kcpu) (m : nat) (x : ktimer) (h : kdispatchheader) (c1 : kcpu) (s1 : kst).
Context (Hx : timers s !! m = Some x) (Hh : hdrs s !! m = Some h) (Hf : fired s me c m x h c1 s1).

Lemma fired_waiters k : k ≠ m → waiters s1 k = waiters s k.
Proof.
  intros Hne. unfold waiters. rewrite (fi_hdrs _ _ _ _ _ _ _ _ Hf), lookup_insert_ne by done.
  apply list_fmap_ext. intros _ w _. unfold thread_of. by rewrite (fi_wbs _ _ _ _ _ _ _ _ Hf).
Qed.
Lemma fired_bind due : m ∉ due → due ≫= waiters s1 = due ≫= waiters s.
Proof.
  intros Hm. induction due as [|k due IH]; [done|]. rewrite !bind_cons, IH by set_solver.
  by rewrite fired_waiters by set_solver.
Qed.

(** One timer fires, then the rest. *)
Lemma expiry_step due later s' :
  m ∉ due → expiry_post s1 me c1 due later s' → expiry_post s me c (m :: due) later s'.
Proof.
  intros Hm [(c' & Hc' & Hq' & Hn' & Hdq) Htm Hhd Hthr Hwk Hon]. rewrite fired_bind in Hthr, Hwk by done. split.
  - exists c'. split_and!; try done; [by rewrite Hn'; apply Hf|]. rewrite Hdq, (fi_dpc _ _ _ _ _ _ _ _ Hf). f_equal. f_equal.
    simpl. unfold dpc_of at 2. rewrite Hx. simpl.
    assert (omap (dpc_of (timers s1)) due = omap (dpc_of (timers s)) due) as ->; [|by destruct (tmdpc x)].
    apply list_omap_ext, Forall_Forall2_diag, Forall_forall. intros k Hk. unfold dpc_of.
    rewrite (fi_timers _ _ _ _ _ _ _ _ Hf), lookup_insert_ne; [done|]. by intros ->.
  - intros k. rewrite Htm, (fi_timers _ _ _ _ _ _ _ _ Hf). destruct (decide (k = m)) as [->|Hne].
    + rewrite decide_False, lookup_insert_eq by done. rewrite decide_True by set_solver. by rewrite Hx.
    + rewrite lookup_insert_ne by done. apply decide_ext. set_solver.
  - intros k. rewrite Hhd, (fi_hdrs _ _ _ _ _ _ _ _ Hf). destruct (decide (k = m)) as [->|Hne].
    + rewrite decide_False, lookup_insert_eq by done. rewrite decide_True by set_solver. by rewrite Hh.
    + rewrite lookup_insert_ne by done. apply decide_ext. set_solver.
  - intros t. rewrite Hthr, (fi_thr _ _ _ _ _ _ _ _ Hf), bind_cons.
    destruct (decide (t ∈ waiters s m)) as [Hw|Hw].
    + rewrite (decide_True (P := t ∈ waiters s m ++ _)) by set_solver. case_decide; [|done].
      destruct (thr s !! t); simpl; [by rewrite woken_idem|done].
    + apply decide_ext. set_solver.
  - intros t th. rewrite bind_cons. intros Hin Hth Hws. destruct (decide (t ∈ waiters s m)) as [Hw|Hw].
    + apply Hon. by eapply Hf.
    + apply (Hwk t th); [set_solver| |done]. by rewrite (fi_thr _ _ _ _ _ _ _ _ Hf), decide_False.
  - intros t Ht. apply Hon. by apply Hf.
Qed.

Lemma fired_live k : k ≠ m → timer_live s k → timer_live s1 k.
Proof.
  intros Hne (y & g & Hy & Hst & Hg & Hty & [Hnd Hwb Hinj]). exists y, g.
  rewrite (fi_timers _ _ _ _ _ _ _ _ Hf), (fi_hdrs _ _ _ _ _ _ _ _ Hf), !lookup_insert_ne by done.
  assert (∀ w b, wbs s1 !! w = Some b → ∃ b', wbs s !! w = Some b' ∧ wthread b' = wthread b) as Hback.
  { intros w b Hb. pose proof (fi_wbs _ _ _ _ _ _ _ _ Hf w) as Heq. rewrite Hb in Heq. symmetry in Heq.
    apply fmap_Some in Heq as (b' & Hb' & Heq). eauto. }
  split_and!; try done. split; [done|..].
  - intros w Hw. destruct (Hwb w Hw) as (b & th & Hb & Hth).
    pose proof (fi_wbs _ _ _ _ _ _ _ _ Hf w) as Heq. rewrite Hb in Heq. apply fmap_Some in Heq as (b' & Hb' & Heq).
    exists b'. rewrite <-Heq, (fi_thr _ _ _ _ _ _ _ _ Hf), Hth. case_decide; simpl; eauto.
  - intros w w' b b' Hw Hw' Hb Hb' Heq. destruct (Hback w b Hb) as (b1 & ? & ?), (Hback w' b' Hb') as (b2 & ? & ?).
    eapply Hinj; eauto. congruence.
Qed.
End fired.

(** The first timer of the queue leaves it and fires. *)
Lemma expire_first callback me c s m due later x h :
  expiry_pre s me c (m :: due) later → timers s !! m = Some x → hdrs s !! m = Some h →
  htype h = kDispatchTimer → queue_live s (waitblock_queue h) →
  wp (timer_set m (with_tmstate kTimerExecuting x);; in_sched (cpu_upd me (with_timer_queue (due ++ later)));;
      timer_expire callback me m x) (λ _ s2, ∃ c2, fired s me c m x h c2 s2 ∧ timer_queue c2 = due ++ later ∧ wakes s2 me) s.
Proof.
  intros [Hc Hq _ _ _ _ Hwa] Hx Hh Hty Hlive. rewrite wp_bind, wp_timer_set, wp_bind, wp_cpu_set. simpl. exists c. split; [done|].
  match goal with |- wp _ _ ?v => set (s1 := v) end. set (c1 := with_timer_queue (due ++ later) c).
  assert (me < length (cpus (sch s)))%nat as Hlt by (by eapply lookup_lt_Some).
  assert (cpus (sch s1) !! me = Some c1) as Hc1 by (by apply list_lookup_insert_eq).
  assert (length (cpus (sch s1)) = length (cpus (sch s))) as Hl1 by apply length_insert.
  destruct Hwa as [(c0 & Hc0 & Hipl) Hlen Hmask Has]. rewrite Hc in Hc0. injection Hc0 as <-.
  eapply wp_mono; [apply (timer_expire_ok callback me m x (with_tmstate kTimerExecuting x) c1 s1 h); try done|].
  { destruct Hlive; by split. } { apply lookup_insert_eq. }
  { split; [by exists c1|by rewrite Hl1|by rewrite Hl1|exact Has]. }
  intros [] s2 (Hwk & Hhd & Htm & Hwb & Hthr & Hwoken).
  destruct (fire_dpc_cpu me x c1 (sch s1) Hc1) as (c3 & Hc3 & Hq3 & Hn3 & Hi3 & Hl3 & Hm3 & Hon3 & Hd3).
  destruct (wk_cpu _ _ Hwk me c3 Hc3) as (c2 & Hc2 & Hcl & _). injection Hcl as Hq2 Hn2 Hi2 Hd2.
  exists c2. split; [|split; [by rewrite Hq2, Hq3|]].
  - split; try done; [by rewrite Hn2, Hn3|..].
    + intros ds. rewrite Hd2, (wk_dpc _ _ Hwk), Hd3. done.
    + rewrite Htm. unfold s1. simpl. by rewrite insert_insert_eq.
    + intros t (k & y & Hy & Ht). apply (woke_queue _ _ _ Hwk), Hon3. destruct (decide (k = me)) as [->|Hne].
      * exists me, c1. split; [done|]. rewrite Hc in Hy. by injection Hy as <-.
      * exists k, y. simpl. by rewrite list_lookup_insert_ne.
  - split; [exists c2; split; [done|by rewrite Hi2, Hi3]|by rewrite (wk_len _ _ Hwk), Hl3, Hl1| |].
    + by rewrite (wk_len _ _ Hwk), (wk_mask _ _ Hwk), Hl3, Hm3, Hl1.
    + intros t th. rewrite Hthr. case_decide; [|apply Has]. change (thr s1) with (thr s).
      intros (th' & Hth' & ->)%fmap_Some. unfold woken. by destruct (wait_status th').
Qed.

Lemma expiry_loop_ok callback me due : ∀ fuel s c later,
  expiry_pre s me c due later → (length due < fuel)%nat →
  wp (expiry_loop callback fuel me) (λ _ s', expiry_post s me c due later s') s.
Proof.
  induction due as [|m due IH]; intros [|fuel] s c later Hpre Hfuel; simpl in Hfuel; try lia; simpl;
    pose proof Hpre as [Hc Hq Hnd Hdue Hlat Hlive _]; rewrite wp_bind, wp_cpu_get; exists c; (split; [done|]); rewrite Hq.
  - destruct later as [|m later]; simpl; [by rewrite wp_ret; apply expiry_stop|].
    destruct (Hlive m) as (x & h & Hx & _); [set_solver|]. rewrite wp_bind, wp_timer_at. exists x. split; [done|].
    specialize (Hlat m eq_refl). unfold due_at in Hlat. rewrite Hx in Hlat. simpl in Hlat.
    replace (nanos c <? deadline x) with true by lia. rewrite wp_ret. by apply expiry_stop.
  - simpl in Hq, Hnd. destruct (Hlive m) as (x & h & Hx & Hst & Hh & Hty & Hwq); [set_solver|].
    simpl. rewrite wp_bind, wp_timer_at. exists x. split; [done|].
    assert (due_at (timers s) m = deadline x) as Hdx by (unfold due_at; by rewrite Hx).
    pose proof (Hdue m ltac:(set_solver)) as Hdm. replace (nanos c <? deadline x) with false by lia. rewrite decide_True by done.
    pose proof (expire_first callback me c s m due later x h Hpre Hx Hh Hty Hwq) as Hfirst.
    rewrite !wp_bind in Hfirst. rewrite !wp_bind. eapply wp_mono; [exact Hfirst|]. simpl. intros [] s1 Hs1. rewrite wp_bind in *.
    eapply wp_mono; [exact Hs1|]. simpl. intros [] s2 Hs2. rewrite wp_bind.
    eapply wp_mono; [exact Hs2|]. simpl. intros [] s3 (c3 & Hf & Hq3 & Hwa). apply NoDup_cons in Hnd as [Hm Hnd].
    assert (∀ j, due_at (timers s3) j = due_at (timers s) j) as Hdue3
      by (intros; rewrite (fi_timers _ _ _ _ _ _ _ _ Hf); by eapply due_at_insert).
    eapply wp_mono; [apply (IH fuel s3 c3 later); [|lia]|].
    + split; rewrite ?(fi_nanos _ _ _ _ _ _ _ _ Hf); try done; [apply Hf|..].
      * intros j Hj. rewrite Hdue3. apply Hdue. set_solver.
      * intros j Hj. rewrite Hdue3. by apply Hlat.
      * intros j Hj. eapply fired_live; [done|by intros ->|]. apply Hlive. set_solver.
    + intros [] s4 Hpost. eapply (expiry_step s me c m x h c3 s3); try done. set_solver.
Qed.

Lemma sorted_due (tms : gmap nat ktimer) now q :
  StronglySorted (λ a b, due_at tms a ≤ due_at tms b) q →
  q = filter (λ m, due_at tms m ≤ now) q ++ filter (λ m, now < due_at tms m) q.
Proof.
  induction 1 as [|m q Hs IH Hall]; [done|]. rewrite Forall_forall in Hall. destruct (decide (due_at tms m ≤ now)) as [Hd|Hd].
  - rewrite filter_cons_True, filter_cons_False by lia. simpl. by rewrite <-IH.
  - rewrite filter_cons_False, filter_cons_True by lia. rewrite filter_none, (filter_all _ q); [done|..].
    + intros k Hk. specialize (Hall k Hk). lia.
    + intros k Hk. specialize (Hall k Hk). lia.
Qed.

(** C24. The expiry DPC, run at DPC level, returns, and fires exactly the timers of its
    CPU that are due.  Afterwards the queue holds those whose deadline has not been
    reached, in order; every due timer is disabled and the others are untouched; the DPCs
    of the due timers are queued in the order of their deadlines, none twice.  Every thread
    that waited on a due timer, alone or among other objects, has its wait satisfied, and is
    runnable and on a run queue if it was asleep; no other thread is touched; and the due
    timers' queues are empty and their headers not signalled. *)
Theorem timer_expiry_fires_due callback me c s :
  cpus (sch s) !! me = Some c → NoDup (timer_queue c) → timers_sorted (timers s) (timer_queue c) →
  (∀ m, m ∈ timer_queue c → timer_live s m) → wakes s me →
  let due := filter (λ m, due_at (timers s) m ≤ nanos c) (timer_queue c) in
  wp (timer_expiry_dpc callback me) (λ _ s',
    (∃ c', cpus (sch s') !! me = Some c' ∧
      timer_queue c' = filter (λ m, nanos c < due_at (timers s) m) (timer_queue c) ∧
      dpc_queue c' = dpc_queue c ++ new_dpcs (dpc_cpu (sch s)) me (omap (dpc_of (timers s)) due)) ∧
    (∀ m, timers s' !! m = if decide (m ∈ due) then with_tmstate kTimerDisabled <$> timers s !! m else timers s !! m) ∧
    (∀ m, hdrs s' !! m = if decide (m ∈ due) then fired_hdr <$> hdrs s !! m else hdrs s !! m) ∧
    (∀ t, thr s' !! t = if decide (t ∈ due ≫= waiters s) then woken <$> thr s !! t else thr s !! t) ∧
    (∀ t th, t ∈ due ≫= waiters s → thr s !! t = Some th → wait_status th = kInternalWaitStatusWaiting →
      on_queue (sch s') t)) s.
Proof.
  intros Hc Hnd [Hs _] Hlive Hwa due. set (later := filter (λ m, nanos c < due_at (timers s) m) (timer_queue c)).
  pose proof (sorted_due (timers s) (nanos c) _ Hs) as Hsplit. fold due later in Hsplit.
  unfold timer_expiry_dpc. rewrite wp_bind, wp_cpu_get. exists c. split; [done|].
  eapply wp_mono; [apply (expiry_loop_ok callback me due _ s c later)|].
  - split; rewrite <-?Hsplit; try done.
    + intros m [? _]%list_elem_of_filter. done.
    + intros m Hm. apply head_Some_elem_of, list_elem_of_filter in Hm as [? _]. done.
  - rewrite Hsplit, length_app. lia.
  - intros [] s' [(c' & ? & ? & _ & ?) Ht Hh Hthr Hw _]. split; [by exists c'|]. by split_and!.
Qed.

(** ** A CPU with two timers, one due, on which thread 12 sleeps *)

Definition timer_demo (q : list nat) : kst :=
  Kst (set_threads (<[12%nat := Thread kThreadStateWaiting kInternalWaitStatusWaiting 5 0 0]> (threads sched_demo))
        (set_cpus (alter (with_timer_queue q) 0%nat (cpus sched_demo)) sched_demo))
    {[ 200%nat := Hdr kDispatchTimer 0 [12%nat] None; 201%nat := Hdr kDispatchTimer 0 [] None ]}
    {[ 12%nat := Wb kWaitBlockStatusActive 200 12 ]} ∅ ∅ ∅ ∅
    {[ 200%nat := Timer kTimerInQueue 0 (Some 0%nat) (Some 50%nat);
       201%nat := Timer kTimerInQueue 100 (Some 0%nat) (Some 51%nat) ]}.
Lemma timer_demo_live q m : m ∈ [200%nat; 201%nat] → timer_live (timer_demo q) m.
Proof.
  intros [->|[->|[]%not_elem_of_nil]%elem_of_cons]%elem_of_cons; do 2 eexists; (split_and!; [reflexivity..|]).
  - split; [repeat constructor; set_solver| |].
    + intros w ->%list_elem_of_singleton. do 2 eexists. split; reflexivity.
    + intros w w' b b' ->%list_elem_of_singleton ->%list_elem_of_singleton. done.
  - split; [constructor| |]; [intros w []%not_elem_of_nil|intros w w' b b' []%not_elem_of_nil].
Qed.
Lemma timer_demo_wakes q : wakes (timer_demo q) 0.
Proof.
  split; [by eexists|simpl; lia|simpl; lia|]. intros t th Ht Hw. unfold thr in Ht. simpl in Ht.
  apply lookup_insert_Some in Ht as [[_ <-]|[_ Ht]]; [done|].
  repeat (rewrite lookup_insert_Some in Ht; destruct Ht as [[_ <-]|[_ Ht]]; [done|]). by rewrite lookup_empty in Ht.
Qed.

Lemma timer_enqueue_sorted_witness :
  wp (ki_timer_enqueue_locked 0 200) (λ _ s', ∃ c', cpus (sch s') !! 0%nat = Some c' ∧
    timers_sorted (timers s') (timer_queue c')) (timer_demo [201%nat]).
Proof.
  eapply wp_mono.
  - eapply (timer_enqueue_sorted 0 200 _ _ (timer_demo [201%nat])); [reflexivity|reflexivity|].
    split; [repeat constructor|]. simpl. intros m ->%list_elem_of_singleton. by eexists.
  - simpl. intros _ s' (q1 & q2 & c' & _ & Hc & _ & Hs & _). exists c'. split; [exact Hc|exact Hs].
Defined.

Lemma timer_expiry_fires_due_witness :
  wp (timer_expiry_dpc (λ _, mret ()) 0) (λ _ s', (∃ c', cpus (sch s') !! 0%nat = Some c' ∧
    timer_queue c' = [201%nat] ∧ dpc_queue c' = [50%nat]) ∧
    thr s' !! 12%nat = Some (Thread kThreadStateRunnable kInternalWaitStatusSatisfied 5 0 0) ∧ on_queue (sch s') 12)
    (timer_demo [200%nat; 201%nat]).
Proof.
  eapply wp_mono.
  - eapply (timer_expiry_fires_due (λ _, mret ()) 0 _ (timer_demo [200%nat; 201%nat])).
    + reflexivity.
    + simpl. repeat constructor; set_solver.
    + split; [repeat constructor; vm_compute; intros [=]|]. simpl.
      intros m [->|[->|[]%not_elem_of_nil]%elem_of_cons]%elem_of_cons; by eexists.
    + intros m Hm. exact (timer_demo_live _ m Hm).
    + apply timer_demo_wakes.
  - intros _ s' ((c' & Hc & Hq & Hd) & _ & _ & Ht & Hw). split; [|split].
    + exists c'. split; [exact Hc|]. split; [exact Hq|exact Hd].
    + rewrite Ht. vm_compute. reflexivity.
    + apply (Hw 12%nat (Thread kThreadStateWaiting kInternalWaitStatusWaiting 5 0 0)); [|reflexivity|reflexivity].
      vm_compute. left.
Defined.
