(* ===== verification/DispatchTheorems.v ===== *)
(** What the dispatcher objects promise (kernel/kern/wait.c, mutex.c, msgqueue.c,
    clock.c): signalling is first come first served, a released mutex is handed to
    its first waiter, a message queue is a bounded FIFO, and the timer queue is
    sorted by deadline. *)
From S2P Require Import Prelude Rcu Sched SchedProofs Dispatch DispatchProofs TimerProofs.
Import Sched Dispatch.
Local Open Scope Z_scope.

(** ** Signalling *)

(** C15. [ki_signal] serves the waiters of an object in order of arrival, and only
    as many as the object has units for: it takes a prefix [l] of the queue off,
    each block of which found the object still signalled; blocks whose thread had
    no object yet get this one, the others are deactivated; the threads already
    asleep are exactly those in the wake queue, in order; and no waiter is left
    queued while the object is signalled. *)
Theorem ki_signal_correct o s h :
  hdrs s !! o = Some h → htype h ≠ kDispatchPort → queue_live s (waitblock_queue h) →
  wp (ki_signal o) (λ wk s', ∃ l rest,
    waitblock_queue h = l ++ rest ∧ served s s' l ∧
    wk = filter (λ w, asleep s w = true) l ∧
    hdrs s' = <[o := set_queue rest (serve_hdr s l h)]> (hdrs s) ∧
    (rest = [] ∨ signalled (serve_hdr s l h) ≤ 0) ∧
    (∀ l1 l2, l = l1 ++ l2 → l2 ≠ [] → 0 < signalled (serve_hdr s l1 h))) s.
Proof.
  intros Hh Hty Hlive. unfold ki_signal. rewrite wp_bind, wp_hdr_at. exists h. split; [done|].
  eapply wp_mono; [by apply signal_loop_spec|]. simpl.
  intros wk s' (l & rest & ? & ? & ? & ? & ? & _ & ?). exists l, rest. by split_and!.
Qed.

(** ** Mutexes *)

Lemma serve_stale s l h : (∀ w, w ∈ l → unsatisfied s w = false) → serve_hdr s l h = h.
Proof.
  induction l as [|w l IH]; intros Hl; simpl; [done|]. rewrite (Hl w) by set_solver. apply IH. set_solver.
Qed.
Lemma serve_app s l1 l2 h : serve_hdr s (l1 ++ l2) h = serve_hdr s l2 (serve_hdr s l1 h).
Proof. revert h. induction l1 as [|w l1 IH]; intros h; simpl; [done|]. apply IH. Qed.

(** One unit goes to the first block whose thread still waits. *)
Lemma serve_first s stale w rest l rest' h :
  (∀ w', w' ∈ stale → unsatisfied s w' = false) → unsatisfied s w = true →
  htype h = kDispatchMutex → signalled h = 1 → stale ++ w :: rest = l ++ rest' →
  (rest' = [] ∨ signalled (serve_hdr s l h) ≤ 0) →
  (∀ l1 l2, l = l1 ++ l2 → l2 ≠ [] → 0 < signalled (serve_hdr s l1 h)) →
  l = stale ++ [w] ∧ rest' = rest.
Proof.
  intros Hst Hw Hty Hs Hq Hstop Hmin. apply app_eq_app in Hq as (k & [[-> Hk]|[-> Hk]]).
  - rewrite serve_stale in Hstop by set_solver. destruct Hstop as [Hn|]; [|lia]. rewrite Hn in Hk. by destruct k.
  - destruct k as [|w1 k]; simpl in Hk.
    + rewrite app_nil_r, serve_stale in Hstop by done. destruct Hstop as [Hn|]; [by rewrite Hn in Hk|lia].
    + injection Hk as <- ->. destruct k as [|w2 k]; [done|]. exfalso.
      specialize (Hmin (stale ++ [w]) (w2 :: k)). rewrite serve_app, (serve_stale s stale) in Hmin by done. simpl in Hmin.
      rewrite Hw in Hmin. unfold acquire_hdr in Hmin. rewrite Hty in Hmin. simpl in Hmin.
      rewrite <-app_assoc in Hmin. specialize (Hmin eq_refl). naive_solver lia.
Qed.

(** C23. A contended mutex is handed over, not freed: its owner's release makes the
    first thread that still waits the owner, so no third thread can slip in
    between; that thread's wait is satisfied, and it is woken if it was asleep.
    Wait blocks of threads another object has satisfied are passed over.  A
    release by any other thread is caught. *)
Theorem mutex_release_hands_over o t s h stale w rest b :
  hdrs s !! o = Some h → htype h = kDispatchMutex → signalled h = 0 →
  waitblock_queue h = stale ++ w :: rest → queue_live s (waitblock_queue h) →
  (∀ w', w' ∈ stale → unsatisfied s w' = false) → unsatisfied s w = true → wbs s !! w = Some b →
  (owner h = Some t → wp (mutex_release_locked o t) (λ wk s',
    hdrs s' !! o = Some (Hdr kDispatchMutex 0 rest (Some (wthread b))) ∧
    (wait_status <$> thr s' !! wthread b) = Some kInternalWaitStatusSatisfied ∧
    (block_status <$> wbs s' !! w) = Some kWaitBlockStatusAcquired ∧
    wk = if asleep s w then [w] else []) s) ∧
  (owner h ≠ Some t → mutex_release_locked o t s = Fatal "mtx->owner == curthread()").
Proof.
  intros Hh Hty Hs Hq Hlive Hst Hw Hb. unfold mutex_release_locked. split; intros Ho.
  2: { cbv beta iota delta [hdr_at mbind kern_bind get deref]. rewrite Hh.
       cbv beta iota delta [mret kern_ret kassert]. by rewrite bool_decide_eq_false_2. }
  set (h1 := set_owner None (set_signalled (signalled h + 1) h)).
  set (s1 := set_hdrs (<[o := h1]> (hdrs s)) s). assert (queue_live s1 (waitblock_queue h)) as Hlive1 by (destruct Hlive; by split).
  rewrite wp_bind, wp_hdr_at. exists h. split; [done|]. rewrite wp_bind, wp_kassert. split; [by apply bool_decide_eq_true_2|].
  rewrite wp_bind, wp_hdr_set, wp_bind, wp_kassert. split; [by rewrite Hs|]. unfold ki_signal. rewrite wp_bind, wp_hdr_at.
  exists h1. split; [apply lookup_insert_eq|]. eapply wp_mono; [apply (signal_loop_spec o (waitblock_queue h) [] s1 h1)|]; try done.
  { apply lookup_insert_eq. } { by simpl; rewrite Hty. }
  intros wk s' (l & rest' & Hl & [Hwbs Hthr _] & Hwk & Hhd & Hstop & _ & Hmin).
  assert (∀ w', unsatisfied s1 w' = unsatisfied s w') as Hun by done. rewrite Hq in Hl.
  destruct (serve_first s1 stale w rest l rest' h1) as [-> ->]; try done; [by simpl; rewrite Hs|].
  assert (serve_hdr s1 (stale ++ [w]) h1 = acquire_hdr (wthread b) h1) as Hsv.
  { rewrite serve_app, (serve_stale s1 stale) by done. simpl. rewrite Hun, Hw. unfold thread_of. simpl. by rewrite Hb. }
  destruct (ql_wb _ _ Hlive w) as (b' & th & Hb' & Hth); [rewrite Hq; set_solver|]. rewrite Hb in Hb'. injection Hb' as <-.
  split_and!.
  - rewrite Hhd, lookup_insert_eq, Hsv. unfold acquire_hdr, set_queue, set_owner, set_signalled. simpl.
    rewrite Hty. simpl. by rewrite Hs.
  - rewrite Hthr, decide_True; [change (thr s1) with (thr s); by rewrite Hth|]. apply Exists_exists. exists w. split; [set_solver|]. simpl. by rewrite Hb.
  - rewrite Hwbs, decide_True by set_solver. simpl. rewrite Hb. simpl. unfold serve_wb. by rewrite Hun, Hw.
  - rewrite Hwk, filter_app, filter_none. 2: { intros w' Hw' Ha. apply Hst in Hw'. unfold asleep, unsatisfied in *.
      change (status_of s1 w') with (status_of s w') in Ha. by destruct (status_of s w') as [[]|]. }
    rewrite filter_cons, filter_nil. change (asleep s1 w) with (asleep s w). simpl. by destruct (asleep s w).
Qed.

(** ** Witnesses: thread 10 sleeps on object 100, 11 is about to *)

Definition queue_demo (ty : kdispatchobjecttype) (n : Z) (own : option nat) : kst :=
  Kst (set_threads (<[10%nat := Thread kThreadStateWaiting kInternalWaitStatusWaiting 5 0 0]>
        (<[11%nat := Thread kThreadStateRunning kInternalWaitStatusPreparing 5 0 0]> (threads sched_demo))) sched_demo)
    {[100%nat := Hdr ty n [10%nat; 11%nat] own]}
    {[10%nat := Wb kWaitBlockStatusActive 100 10; 11%nat := Wb kWaitBlockStatusActive 100 11]} ∅ ∅ ∅ ∅ ∅.
Lemma queue_demo_live ty n own : queue_live (queue_demo ty n own) [10%nat; 11%nat].
Proof.
  split.
  - repeat constructor; set_solver.
  - intros w [->|[->|[]%not_elem_of_nil]%elem_of_cons]%elem_of_cons; do 2 eexists; split; reflexivity.
  - intros w w' b b' [->|[->|[]%not_elem_of_nil]%elem_of_cons]%elem_of_cons
      [->|[->|[]%not_elem_of_nil]%elem_of_cons]%elem_of_cons Hb Hb' Heq; simpl in *; by simplify_map_eq.
Qed.

Lemma ki_signal_correct_witness :
  wp (ki_signal 100) (λ wk s', ∃ l rest, [10%nat; 11%nat] = l ++ rest ∧ wk = filter (λ w, asleep (queue_demo kDispatchSemaphore 1 None) w = true) l)
    (queue_demo kDispatchSemaphore 1 None).
Proof.
  eapply wp_mono.
  - eapply (ki_signal_correct 100); [reflexivity|done|apply queue_demo_live].
  - intros wk s' (l & rest & Hl & _ & Hwk & _). exists l, rest. split; [exact Hl|exact Hwk].
Defined.

Lemma mutex_release_hands_over_witness :
  wp (mutex_release_locked 100 12) (λ wk s', hdrs s' !! 100%nat = Some (Hdr kDispatchMutex 0 [11%nat] (Some 10%nat)) ∧ wk = [10%nat])
    (queue_demo kDispatchMutex 0 (Some 12%nat)).
Proof.
  eapply wp_mono.
  - eapply (mutex_release_hands_over 100 12 _ _ [] 10 [11%nat]); try reflexivity.
    + apply queue_demo_live.
    + intros w' []%not_elem_of_nil.
  - intros wk s' (Hh & _ & _ & Hwk). split; [exact Hh|exact Hwk].
Defined.

(** Runs in which the dispatcher code (kernel/kern/wait.c, port.c, clock.c) does not
    do what it means to: races between [ke_wait_multi] and [ki_signal], the first
    dequeue from a port, and a timer that fires before it is waited for. *)
Import Sched Dispatch.

Section runs.
(** [ke_wait_multi] by thread 10 on CPU 0; wait block 20 for object 100, 21 for 101. *)
Definition no_callback : nat → kern sched () := λ _, mret ().
Definition section (wc : wait_call) (pc : wait_pc) : kern kst wait_pc := wait_section no_callback 0 wc pc.
Definition wait_both : wait_call := WaitCall 10 [100%nat; 101%nat] [20%nat; 21%nat] 2 None kIPL0.
Definition poll_one : wait_call := WaitCall 10 [100%nat] [20%nat] 1 (Some 0) kIPL0.
Definition two_semaphores (n0 n1 : Z) : kst :=
  Kst sched_demo {[100%nat := Hdr kDispatchSemaphore n0 [] None; 101%nat := Hdr kDispatchSemaphore n1 [] None]}
    {[20%nat := Wb kWaitBlockStatusActive 100 10; 21%nat := Wb kWaitBlockStatusActive 101 10]} ∅ ∅ ∅ ∅ ∅.

(** The second object is free, so the thread takes it and goes back to unlink its
    first wait block; but the first object was signalled in between, and
    [ki_signal] has already unlinked the block. *)
Theorem wait_early_removes_twice :
  (pc ← section wait_both Begin; pc ← section wait_both pc; pc ← section wait_both pc;
   _ ← semaphore_release_locked 100 1;
   section wait_both pc) (two_semaphores 0 1) = Fatal "TAILQ_REMOVE(waitblock_queue)".
Proof. vm_compute. reflexivity. Qed.

(** Polling: the unit released during the poll was already given to the thread,
    which unlinks its block a second time on its way to returning "timed out". *)
Theorem wait_poll_removes_twice :
  (pc ← section poll_one Begin; pc ← section poll_one pc;
   _ ← semaphore_release_locked 100 1;
   pc ← section poll_one pc;
   section poll_one pc) (two_semaphores 0 0) = Fatal "TAILQ_REMOVE(waitblock_queue)".
Proof. vm_compute. reflexivity. Qed.

(** The first object satisfies the wait while the second is being set up; the
    second is signalled too, so its wait block is never filled in, but the final
    loop unlinks it if its status is left over as Active. *)
Theorem wait_finish_reads_stale_block :
  (pc ← section wait_both Begin; pc ← section wait_both pc;
   _ ← semaphore_release_locked 100 1;
   pc ← section wait_both pc; pc ← section wait_both pc; pc ← section wait_both pc;
   pc ← section wait_both pc;
   section wait_both pc) (two_semaphores 0 1) = Fatal "TAILQ_REMOVE(waitblock_queue)".
Proof. vm_compute. reflexivity. Qed.

(** A thread's first [ke_port_dequeue] dereferences its NULL port. *)
Theorem port_first_dequeue_faults me o t w s c th :
  cpus (sch s) !! me = Some c → thr s !! t = Some th → tport s !! t = None →
  port_dequeue_begin me o t w s = Fatal "kport".
Proof.
  intros Hc Hth Hp. unfold port_dequeue_begin, splraise, cpu_upd, cpu_at, thread_upd, thread_at, thr in *.
  cbv beta iota delta [mbind kern_bind get deref in_sched zoom modify]. rewrite Hc. cbv beta iota delta [mret kern_ret].
  rewrite Hc. simpl. rewrite Hth. simpl. unfold when. rewrite Hp. by rewrite bool_decide_eq_false_2.
Qed.

(** A timer that fires before anybody waits on it is not signalled afterwards, so
    the wait that follows queues its block on a timer that will not fire again. *)
Theorem timer_early_expiry_lost :
  (timer_expiry_dpc no_callback 0;;
   pc ← section (WaitCall 10 [200%nat] [20%nat] 1 None kIPL0) Begin;
   pc ← section (WaitCall 10 [200%nat] [20%nat] 1 None kIPL0) pc;
   h ← hdr_at 200;
   x ← timer_at 200;
   mret (pc, signalled h, waitblock_queue h, tmstate x)) (timer_demo [200%nat; 201%nat])
  = Ok (Setup 1, 0, [20%nat], kTimerDisabled, final (timer_expiry_dpc no_callback 0;;
      pc ← section (WaitCall 10 [200%nat] [20%nat] 1 None kIPL0) Begin;
      section (WaitCall 10 [200%nat] [20%nat] 1 None kIPL0) pc) (timer_demo [200%nat; 201%nat])).
Proof. vm_compute. reflexivity. Qed.
End runs.
