(* ===== verification/MsgqProofs.v ===== *)
(** Message queues (kernel/kern/msgqueue.c): the ring buffer holds the messages
    posted and not yet read, in order, and at most one fewer than it has slots. *)
From S2P Require Import Prelude Rcu Sched SchedProofs Dispatch DispatchProofs.
Import Sched Dispatch.
Local Open Scope Z_scope.

(** ** The ring as a list *)

Record msgq_ok (q : kmsgqueue) : Prop := MsgqOk {
  mq_size : 0 < msize q;
  mq_length : Z.of_nat (length (messages q)) = msize q;
  mq_write : 0 ≤ writehead q < msize q;
  mq_read : 0 ≤ readhead q < msize q
}.
Definition slot (q : kmsgqueue) (i : Z) : Z := default 0 (messages q !! Z.to_nat i).
Definition count (q : kmsgqueue) : Z := (writehead q - readhead q) mod msize q.
(** The messages in the queue, oldest first. *)
Definition contents (q : kmsgqueue) : list Z :=
  (λ i, slot q ((readhead q + i) mod msize q)) <$> seqZ 0 (count q).

Lemma next_index n i : 0 < n → 0 ≤ i < n → (if i + 1 =? n then 0 else i + 1) = (i + 1) mod n.
Proof.
  intros Hn Hi. destruct (Z.eqb_spec (i + 1) n) as [->|Hne]; [by rewrite Z.mod_same by lia|].
  rewrite Z.mod_small; lia.
Qed.
Lemma next_range n i : 0 < n → 0 ≤ (i + 1) mod n < n.
Proof. intros. by apply Z.mod_pos_bound. Qed.

Lemma count_post w r n : 0 < n → (w - r) mod n < n - 1 → ((w + 1) mod n - r) mod n = (w - r) mod n + 1.
Proof.
  intros Hn Hlt. pose proof (Z.mod_pos_bound (w - r) n Hn). rewrite Zminus_mod_idemp_l.
  replace (w + 1 - r) with (w - r + 1) by lia. rewrite <-Zplus_mod_idemp_l. apply Z.mod_small. lia.
Qed.
Lemma count_full w r n : 0 < n → (w - r) mod n = n - 1 → 0 ≤ r < n → (w + 1) mod n = r.
Proof.
  intros Hn Hf Hr. replace (w + 1) with (r + ((w - r) + 1)) by lia. rewrite <-Zplus_mod_idemp_r, <-(Zplus_mod_idemp_l (w - r)), Hf.
  replace (n - 1 + 1) with n by lia. rewrite Z.mod_same, Z.add_0_r by lia. by apply Z.mod_small.
Qed.
Lemma count_read w r n : 0 < n → (w - r) mod n ≠ 0 → (w - (r + 1) mod n) mod n = (w - r) mod n - 1.
Proof.
  intros Hn Hne. pose proof (Z.mod_pos_bound (w - r) n Hn). rewrite Zminus_mod_idemp_r.
  replace (w - (r + 1)) with (w - r - 1) by lia. rewrite <-Zminus_mod_idemp_l. apply Z.mod_small. lia.
Qed.
(** The slot [i] places after the read head is not the one written, while [i] is
    below the count. *)
Lemma slot_ne w r n i : 0 < n → 0 ≤ w < n → 0 ≤ i < (w - r) mod n → (r + i) mod n ≠ w.
Proof.
  intros Hn Hw Hi Heq. assert ((w - r) mod n = i); [|lia]. rewrite <-Heq, Zminus_mod_idemp_l.
  replace (r + i - r) with i by lia. apply Z.mod_small. pose proof (Z.mod_pos_bound (w - r) n Hn). lia.
Qed.
Lemma slot_last w r n : 0 < n → 0 ≤ w < n → (r + (w - r) mod n) mod n = w.
Proof. intros Hn Hw. rewrite Zplus_mod_idemp_r. replace (r + (w - r)) with w by lia. by apply Z.mod_small. Qed.

(** ** Posting and reading, on the ring *)

Definition posted (q : kmsgqueue) (msg : Z) : kmsgqueue :=
  MsgQueue (msize q) ((writehead q + 1) mod msize q) (readhead q) (msem q)
    (<[Z.to_nat (writehead q) := msg]> (messages q)).
Definition popped (q : kmsgqueue) : kmsgqueue :=
  MsgQueue (msize q) (writehead q) ((readhead q + 1) mod msize q) (msem q) (messages q).

Lemma posted_ok q msg : msgq_ok q → msgq_ok (posted q msg).
Proof. intros [? ? ? ?]. split; simpl; rewrite ?length_insert; try done. by apply next_range. Qed.
Lemma popped_ok q : msgq_ok q → msgq_ok (popped q).
Proof. intros [? ? ? ?]. split; simpl; try done. by apply next_range. Qed.

Lemma contents_posted q msg :
  msgq_ok q → count q < msize q - 1 → contents (posted q msg) = contents q ++ [msg].
Proof.
  intros [Hn Hl Hw Hr] Hc. unfold contents. simpl. assert (0 ≤ count q) by (by apply Z.mod_pos_bound).
  assert (count (posted q msg) = count q + 1) as -> by (by apply count_post).
  rewrite seqZ_app, fmap_app by lia. rewrite (seqZ_cons _ 1), Z.add_0_l by lia. simpl. f_equal.
  - apply list_fmap_ext. intros k i Hi. apply list_elem_of_lookup_2, elem_of_seqZ in Hi.
    unfold slot. simpl. rewrite list_lookup_insert_ne; [done|]. intros Heq.
    pose proof (Z.mod_pos_bound (readhead q + i) (msize q) Hn).
    apply (slot_ne (writehead q) (readhead q) (msize q) i); [done|done|unfold count in *; lia|]. lia.
  - f_equal. unfold slot. simpl. unfold count. rewrite slot_last by done. rewrite list_lookup_insert_eq by lia. done.
Qed.
Lemma contents_popped q :
  msgq_ok q → count q ≠ 0 → contents q = slot q (readhead q) :: contents (popped q).
Proof.
  intros [Hn Hl Hw Hr] Hc. assert (0 ≤ count q) by (by apply Z.mod_pos_bound). unfold contents.
  assert (count (popped q) = count q - 1) as Hp by (by apply count_read). rewrite seqZ_cons by lia. simpl. f_equal.
  - rewrite Z.add_0_r, Z.mod_small by done. done.
  - rewrite Hp. replace (Z.pred (count q)) with (count q - 1) by lia.
    replace (seqZ (Z.succ 0) (count q - 1)) with (Z.add 1 <$> seqZ 0 (count q - 1)) by (by rewrite fmap_add_seqZ).
    rewrite <-list_fmap_compose. apply list_fmap_ext. intros k i _. simpl. unfold slot. simpl. do 3 f_equal.
    rewrite Zplus_mod_idemp_l. f_equal. lia.
Qed.
Lemma contents_length q : msgq_ok q → Z.of_nat (length (contents q)) = count q.
Proof.
  intros [Hn _ _ _]. unfold contents. rewrite length_fmap, length_seqZ, Z2Nat.id; [done|]. by apply Z.mod_pos_bound.
Qed.
Lemma contents_nil q : msgq_ok q → contents q = [] ↔ writehead q = readhead q.
Proof.
  intros Hok. pose proof Hok as [Hn Hl Hw Hr]. rewrite <-length_zero_iff_nil. pose proof (contents_length q Hok) as Hc.
  unfold count in Hc. split.
  - intros Hz. pose proof (slot_last (writehead q) (readhead q) (msize q) Hn Hw) as Hs.
    rewrite <-Hc, Hz, Z.add_0_r, Z.mod_small in Hs; lia.
  - intros Heq. rewrite Heq, Z.sub_diag, Z.mod_0_l in Hc by lia. lia.
Qed.

(** ** The operations *)

Lemma wp_msgq_at o Q s : wp (msgq_at o) Q s ↔ ∃ q, msgqs s !! o = Some q ∧ Q q s.
Proof. unfold msgq_at. by wp_simp. Qed.
Lemma wp_msgq_set o q (Q : () → kst → Prop) s : wp (msgq_set o q) Q s ↔ Q () (set_msgqs (<[o := q]> (msgqs s)) s).
Proof. done. Qed.

Lemma serve_msgq s l h : htype h = kDispatchMsgQueue → serve_hdr s l h = h.
Proof.
  intros Hty. induction l as [|w l IH]; simpl; [done|]. unfold acquire_hdr. rewrite Hty. by destruct (unsatisfied s w).
Qed.

(** Posting appends to the queue: the ring then holds the old messages and the
    new one after them, the queue is signalled, and every thread that waited for a
    message is let go. *)
Theorem msgq_post_appends o msg s h q :
  msgqs s !! o = Some q → msgq_ok q → hdrs s !! o = Some h → htype h = kDispatchMsgQueue →
  queue_live s (waitblock_queue h) → Z.of_nat (length (contents q)) < msize q - 1 →
  wp (msgq_post_locked o msg) (λ wk s', ∃ q',
    msgqs s' !! o = Some q' ∧ msgq_ok q' ∧ contents q' = contents q ++ [msg] ∧
    hdrs s' !! o = Some (Hdr kDispatchMsgQueue 1 [] (owner h)) ∧
    (∀ w, w ∈ waitblock_queue h → unsatisfied s w = true →
      (block_status <$> wbs s' !! w) = Some kWaitBlockStatusAcquired ∧
      ∃ b, wbs s !! w = Some b ∧ (wait_status <$> thr s' !! wthread b) = Some kInternalWaitStatusSatisfied) ∧
    wk = filter (λ w, asleep s w = true) (waitblock_queue h)) s.
Proof.
  intros Hq Hok Hh Hty Hlive Hlen. rewrite contents_length in Hlen by done. pose proof Hok as [Hn Hl Hw Hr].
  unfold msgq_post_locked. rewrite wp_bind, wp_msgq_at. exists q. split; [done|].
  rewrite wp_bind, wp_kassert. split; [apply bool_decide_eq_true_2; lia|]. rewrite next_index by done.
  rewrite wp_bind, wp_msgq_set, wp_bind, wp_kassert. fold (posted q msg). split.
  { apply negb_true_iff, Z.eqb_neq. intros Heq. assert (count (posted q msg) = count q + 1) as Hc by (by apply count_post).
    unfold count at 1 in Hc. simpl in Hc. rewrite Heq, Z.sub_diag, Z.mod_0_l in Hc by lia.
    assert (0 ≤ count q) by (by apply Z.mod_pos_bound). lia. }
  rewrite wp_bind, wp_hdr_at. exists h. split; [done|]. rewrite wp_bind, wp_hdr_set. simpl. unfold ki_signal.
  rewrite wp_bind, wp_hdr_at. simpl. exists (set_signalled 1 h). split; [apply lookup_insert_eq|].
  match goal with |- wp _ _ ?v => set (s1 := v) end.
  eapply wp_mono; [apply (signal_loop_spec o (waitblock_queue h) [] s1 (set_signalled 1 h))|]; try done.
  { apply lookup_insert_eq. } { by simpl; rewrite Hty. } { destruct Hlive; by split. }
  simpl. intros wk s' (l & rest & Hsp & [Hsv1 Hsv2 Hsv3] & Hwk & Hhd & Hstop & _).
  rewrite serve_msgq in Hhd, Hstop by done. destruct Hstop as [->|]; [|simpl in *; lia].
  rewrite app_nil_r in Hsp. subst l. exists (posted q msg). pose proof (posted_ok q msg Hok). split_and!; try done.
  - destruct Hsv3 as (_ & _ & _ & -> & _). apply lookup_insert_eq.
  - by apply contents_posted.
  - rewrite Hhd, lookup_insert_eq. unfold set_queue, set_signalled. simpl. by rewrite Hty.
  - intros w Hw' Hu. destruct (ql_wb _ _ Hlive w Hw') as (b & th & Hb & Hth). split.
    + rewrite Hsv1, decide_True by done. simpl. rewrite Hb. simpl. unfold serve_wb.
      change (unsatisfied s1 w) with (unsatisfied s w). by rewrite Hu.
    + exists b. split; [done|]. rewrite Hsv2, decide_True; [change (thr s1) with (thr s); by rewrite Hth|].
      apply Exists_exists. exists w. split; [done|]. simpl. by rewrite Hb.
Qed.

(** Releasing a semaphore nobody waits on, at any IPL. *)
Lemma release_idle me sem c h s :
  cpus (sch s) !! me = Some c → hdrs s !! sem = Some h → htype h = kDispatchSemaphore → waitblock_queue h = [] →
  wp (ke_semaphore_release me sem 1) (λ _ s',
    hdrs s' = <[sem := set_signalled (i32 (signalled h + 1)) h]> (hdrs s) ∧ msgqs s' = msgqs s ∧ thr s' = thr s) s.
Proof.
  intros Hc Hh Hty Hq. pose proof (lookup_lt_Some _ _ _ Hc) as Hlt.
  unfold ke_semaphore_release, semaphore_release_locked, ki_signal, in_sched, splraise, splx.
  rewrite wp_bind, wp_zoom, wp_bind, wp_cpu_at. exists c. split; [done|]. rewrite wp_bind, wp_cpu_upd. exists c. split; [done|].
  rewrite wp_ret, !wp_bind, wp_hdr_at. simpl. exists h. split; [done|]. rewrite wp_bind, wp_hdr_set, wp_bind, wp_hdr_at. simpl.
  exists (set_signalled (i32 (signalled h + 1)) h). split; [apply lookup_insert_eq|]. simpl. rewrite Hq. simpl.
  rewrite wp_ret. simpl. rewrite wp_bind, wp_ret. rewrite wp_zoom, wp_cpu_upd. simpl.
  eexists. split; [by apply list_lookup_insert_eq|]. done.
Qed.

(** The read message, and the state afterwards. *)
Definition read_post (o : nat) (h hs : kdispatchheader) (q : kmsgqueue) (s s' : kst) (r : option Z) : Prop :=
  r = head (contents q) ∧ (contents q = [] → s' = s) ∧
  (contents q ≠ [] → ∃ q',
    msgqs s' !! o = Some q' ∧ msgq_ok q' ∧ contents q' = tail (contents q) ∧
    hdrs s' !! o = Some (set_signalled (if decide (contents q' = []) then 0 else 1) h) ∧
    hdrs s' !! msem q = Some (set_signalled (i32 (signalled hs + 1)) hs)).

Lemma read_finish me o s s2 h hs q c :
  msgq_ok q → contents q = slot q (readhead q) :: contents (popped q) →
  hdrs s !! msem q = Some hs → htype hs = kDispatchSemaphore → waitblock_queue hs = [] → msem q ≠ o →
  cpus (sch s) !! me = Some c →
  hdrs s2 = <[o := set_signalled (if decide (contents (popped q) = []) then 0 else 1) h]> (hdrs s) →
  msgqs s2 = <[o := popped q]> (msgqs s) → sch s2 = sch s →
  wp (ke_semaphore_release me (msem q) 1;; mret (Some (slot q (readhead q)))) (λ r s', read_post o h hs q s s' r) s2.
Proof.
  intros Hok Hpop Hhs Hty Hwq Hne Hc Hhd2 Hmq2 Hsch2. pose proof (popped_ok q Hok).
  rewrite wp_bind. eapply wp_mono; [eapply (release_idle me (msem q) c hs s2)|]; try done.
  { by rewrite Hsch2. } { by rewrite Hhd2, lookup_insert_ne. }
  simpl. intros _ s' (Hhd' & Hmq' & _). rewrite wp_ret. unfold read_post. rewrite Hpop. split_and!; try done.
  intros _. exists (popped q).
  rewrite Hmq', Hmq2, Hhd', Hhd2, lookup_insert_eq, lookup_insert_ne, !lookup_insert_eq by done. by split_and!.
Qed.

(** Reading takes the oldest message off the queue, or finds it empty: a
    non-empty queue gives its first message and keeps the rest in order, stays
    signalled just while messages remain, and gives the slot back to the posters'
    semaphore; an empty one gives nothing and changes nothing. *)
Theorem msgq_read_takes_first me o s h hs q c :
  msgqs s !! o = Some q → msgq_ok q → hdrs s !! o = Some h → signalled h = (if decide (contents q = []) then 0 else 1) →
  hdrs s !! msem q = Some hs → htype hs = kDispatchSemaphore → waitblock_queue hs = [] → msem q ≠ o →
  cpus (sch s) !! me = Some c →
  wp (ke_msgq_read me o) (λ r s',
    r = head (contents q) ∧
    (contents q = [] → s' = s) ∧
    (contents q ≠ [] → ∃ q',
      msgqs s' !! o = Some q' ∧ msgq_ok q' ∧ contents q' = tail (contents q) ∧
      hdrs s' !! o = Some (set_signalled (if decide (contents q' = []) then 0 else 1) h) ∧
      hdrs s' !! msem q = Some (set_signalled (i32 (signalled hs + 1)) hs))) s.
Proof.
  intros Hq Hok Hh Hsig Hhs Hty Hwq Hne Hc. pose proof Hok as [Hn Hl Hw Hr]. pose proof (contents_nil q Hok) as Hnil.
  change (wp (ke_msgq_read me o) (λ r s', read_post o h hs q s s' r) s).
  unfold ke_msgq_read. rewrite wp_bind, wp_msgq_at. exists q. split; [done|].
  destruct (Z.eqb_spec (writehead q) (readhead q)) as [Heq|Hwr].
  { rewrite wp_ret. unfold read_post. assert (contents q = []) as -> by tauto. by split_and!. }
  assert (contents q ≠ []) as Hcn by tauto. pose proof (popped_ok q Hok) as Hok'. pose proof (contents_nil _ Hok') as Hnil'. simpl in Hnil'.
  assert (contents q = slot q (readhead q) :: contents (popped q)) as Hpop.
  { apply contents_popped; [done|]. rewrite <-contents_length by done. by destruct (contents q). }
  rewrite wp_bind, wp_deref. exists (slot q (readhead q)). split.
  { unfold slot. destruct (lookup_lt_is_Some_2 (messages q) (Z.to_nat (readhead q))) as [x Hx]; [lia|]. by rewrite Hx. }
  rewrite next_index by done. rewrite wp_bind, wp_msgq_set. fold (popped q). rewrite wp_bind, wp_when.
  destruct (Z.eqb_spec (writehead q) ((readhead q + 1) mod msize q)) as [Heq|Hw'].
  - rewrite wp_bind, wp_hdr_at. exists h. split; [done|]. rewrite wp_hdr_set. eapply read_finish; try done. simpl.
    by rewrite decide_True by tauto.
  - eapply read_finish; try done. simpl. rewrite decide_False by tauto. rewrite decide_False in Hsig by done.
    rewrite insert_id; [done|]. rewrite Hh. f_equal. destruct h; simpl in *. by rewrite Hsig.
Qed.

(** A queue made for [n] messages panics on the [n]th: the posters' semaphore lets
    [n] of them through, but the ring is full with [n - 1], and the write head then
    meets the read head. *)
Theorem msgq_post_full o msg s q :
  msgqs s !! o = Some q → msgq_ok q → Z.of_nat (length (contents q)) = msize q - 1 →
  msgq_post_locked o msg s = Fatal "msgq->writehead != msgq->readhead".
Proof.
  intros Hq Hok Hlen. rewrite contents_length in Hlen by done. pose proof Hok as [Hn Hl Hw Hr].
  unfold msgq_post_locked, msgq_at, msgq_set, modify. cbv beta iota delta [mbind kern_bind get deref].
  rewrite Hq. cbv beta iota delta [mret kern_ret kassert]. rewrite bool_decide_eq_true_2 by lia.
  rewrite next_index by done. rewrite (count_full (writehead q) (readhead q) (msize q)) by done.
  by rewrite Z.eqb_refl.
Qed.

(** ** A queue of three slots *)

Definition msgq_empty : kst :=
  final (ke_msgqueue_init 300 301 3) (Kst sched_demo ∅ ∅ ∅ ∅ ∅ ∅ ∅).
Definition msgq_one : kst := final (msgq_post_locked 300 7) msgq_empty.

Lemma msgq_post_appends_witness :
  wp (msgq_post_locked 300 7) (λ _ s', ∃ q', msgqs s' !! 300%nat = Some q' ∧ contents q' = [7]) msgq_empty.
Proof.
  eapply wp_mono.
  - eapply (msgq_post_appends 300 7 msgq_empty); [reflexivity|..].
    + split; simpl; lia.
    + reflexivity.
    + reflexivity.
    + split; simpl; [constructor|..]; intros w; set_solver.
    + vm_compute. reflexivity.
  - intros _ s' (q' & Hq & _ & Hc & _). exists q'. split; [exact Hq|exact Hc].
Defined.

Lemma msgq_read_takes_first_witness :
  wp (ke_msgq_read 0 300) (λ r s', r = Some 7) msgq_one.
Proof.
  eapply wp_mono.
  - eapply (msgq_read_takes_first 0 300 msgq_one); try reflexivity.
    + split; vm_compute; try done; by split.
    + done.
  - intros r s' [Hr _]. rewrite Hr. reflexivity.
Defined.
