(* ===== verification/Calendar.v ===== *)
(** Calendar time: kernel/kern/clock.c, [civil_from_days], [weekday_from_days] and
    the fields [ke_format_time] prints.  [int] divisions truncate ([Z.quot]);
    unsigned ones are [Z.div]. *)
From S2P Require Import Prelude.
Local Open Scope Z_scope.

Module Calendar.

Definition NS_PER_S : Z := 1000000000.

(** Year, month (1 to 12) and day of day [z] since 1970-01-01. *)
Definition civil_from_days (z : Z) : Z * Z * Z :=
  let z := z + 719468 in
  let era := Z.quot (if 0 <=? z then z else z - 146096) 146097 in
  let doe := u32 (z - era * 146097) in
  let yoe := u32 (doe - doe / 1460 + doe / 36524 - doe / 146096) / 365 in
  let y := i32 yoe + era * 400 in
  let doy := u32 (doe - u32 (365 * yoe + yoe / 4 - yoe / 100)) in
  let mp := u32 (5 * doy + 2) / 153 in
  let d := u32 (doy - u32 (153 * mp + 2) / 5 + 1) in
  let m := if mp <? 10 then u32 (mp + 3) else u32 (mp - 9) in
  (y + Z.b2z (m <=? 2), m, d).

(** 0 is Sunday. *)
Definition weekday_from_days (z : Z) : Z :=
  u32 (if -4 <=? z then Z.rem (z + 4) 7 else Z.rem (z + 5) 7 + 6).

(** The values [ke_format_time] gives to [npf_snprintf]. *)
Record formatted := Formatted {
  fday : Z; fmonth : Z; fyear : Z; fhour : Z; fminute : Z; fsecond : Z; fmilli : Z
}.
Definition ke_format_time (nanosecs : Z) : formatted :=
  let unix_time := nanosecs / NS_PER_S in
  let days_since_epoch := i32 (unix_time / 60 / 60 / 24) in
  let '(year, month, day) := civil_from_days days_since_epoch in
  Formatted day month year (unix_time / 60 / 60 mod 24) (unix_time / 60 mod 60) (unix_time mod 60)
    (nanosecs mod NS_PER_S / 1000000).

End Calendar.
Import Calendar.

(** ** The Gregorian calendar *)

Definition leap (y : Z) : bool := ((y mod 4 =? 0) && negb (y mod 100 =? 0)) || (y mod 400 =? 0).
Definition month_days (y m : Z) : Z :=
  if m =? 2 then (if leap y then 29 else 28)
  else if (m =? 4) || (m =? 6) || (m =? 9) || (m =? 11) then 30 else 31.
Definition next_day (date : Z * Z * Z) : Z * Z * Z :=
  let '(y, m, d) := date in
  if d <? month_days y m then (y, m, d + 1)
  else if m <? 12 then (y, m + 1, 1) else (y + 1, 1, 1).

(** ** The algorithm, in terms of the year that starts in March *)

(** The year of era of day [doe] of an era. *)
Definition yoe_of (doe : Z) : Z := (doe - doe / 1460 + doe / 36524 - doe / 146096) / 365.
(** The first day of year [yoe] of an era. *)
Definition year_start (yoe : Z) : Z := 365 * yoe + yoe / 4 - yoe / 100.

Lemma yoe_mono_step a : 0 ≤ a → yoe_of a ≤ yoe_of (a + 1).
Proof. intros Ha. unfold yoe_of. apply Z.div_le_mono; [lia|]. Z.div_mod_to_equations. lia. Qed.
Lemma yoe_mono a b : 0 ≤ a ≤ b → yoe_of a ≤ yoe_of b.
Proof.
  intros [Ha Hab]. replace b with (a + Z.of_nat (Z.to_nat (b - a))) by lia. generalize (Z.to_nat (b - a)) as n. clear Hab.
  induction n as [|n IH]; [rewrite Z.add_0_r; lia|]. etrans; [exact IH|].
  replace (a + Z.of_nat (S n)) with (a + Z.of_nat n + 1) by lia. apply yoe_mono_step. lia.
Qed.

(** The length of year [yoe], March to February. *)
Definition year_days (yoe : Z) : Z := 365 + Z.b2z (leap (yoe + 1)).
Lemma years_check :
  forallb (λ y, (yoe_of (year_start y) =? y) && (yoe_of (year_start y + year_days y - 1) =? y) &&
    (year_start (y + 1) =? year_start y + year_days y - Z.b2z (y =? 399))) (seqZ 0 400) = true.
Proof. vm_compute. reflexivity. Qed.
Lemma year_check y : 0 ≤ y < 400 →
  yoe_of (year_start y) = y ∧ yoe_of (year_start y + year_days y - 1) = y ∧
  year_start (y + 1) = year_start y + year_days y - Z.b2z (y =? 399).
Proof.
  intros Hy. pose proof years_check as Hc. rewrite forallb_forall in Hc.
  specialize (Hc y). rewrite !andb_true_iff, !Z.eqb_eq in Hc. destruct Hc as [[? ?] ?]; [|done].
  apply list_elem_of_In, elem_of_seqZ. lia.
Qed.
Lemma year_exists n doe : (n ≤ 400)%nat → 0 ≤ doe → (0 < n)%nat →
  doe < year_start (Z.of_nat n - 1) + year_days (Z.of_nat n - 1) →
  ∃ y, 0 ≤ y < Z.of_nat n ∧ year_start y ≤ doe < year_start y + year_days y.
Proof.
  induction n as [|n IH]; intros Hn Hd Hpos Hlt; [lia|]. replace (Z.of_nat (S n) - 1) with (Z.of_nat n) in Hlt by lia.
  destruct (decide (year_start (Z.of_nat n) ≤ doe)) as [Hge|Hge]; [exists (Z.of_nat n); lia|].
  destruct n as [|n]; [by destruct Hge|]. destruct IH as (y & ? & ?); [lia|lia|lia| |exists y; lia].
  destruct (year_check (Z.of_nat (S n) - 1)) as (_ & _ & Hs); [lia|].
  replace (Z.of_nat (S n) - 1 + 1) with (Z.of_nat (S n)) in Hs by lia.
  destruct (Z.eqb_spec (Z.of_nat (S n) - 1) 399); [lia|]. change (Z.b2z false) with 0 in Hs. lia.
Qed.
Lemma year_days_range y : 365 ≤ year_days y ≤ 366.
Proof. unfold year_days. destruct (leap (y + 1)); simpl; lia. Qed.

(** The year of era is the one the day falls in. *)
Lemma yoe_spec doe : 0 ≤ doe < 146097 →
  0 ≤ yoe_of doe < 400 ∧ year_start (yoe_of doe) ≤ doe < year_start (yoe_of doe) + year_days (yoe_of doe).
Proof.
  intros [H0 H1]. destruct (year_exists 400 doe) as (y & Hy & Hd); [done|done|lia|exact H1|].
  destruct (year_check y) as (Ha & Hb & _); [lia|]. assert (yoe_of doe = y) as ->; [|done].
  assert (0 ≤ year_start y) by (unfold year_start; Z.div_mod_to_equations; lia).
  pose proof (yoe_mono (year_start y) doe). pose proof (yoe_mono doe (year_start y + year_days y - 1)). lia.
Qed.
(** The next day is in the same year, or the first of the next. *)
Lemma yoe_unique doe y : 0 ≤ y < 400 → year_start y ≤ doe < year_start y + year_days y → yoe_of doe = y.
Proof.
  intros Hy Hd. destruct (year_check y) as (Ha & Hb & _); [lia|].
  assert (0 ≤ year_start y) by (unfold year_start; Z.div_mod_to_equations; lia).
  pose proof (yoe_mono (year_start y) doe). pose proof (yoe_mono doe (year_start y + year_days y - 1)). lia.
Qed.

(** Month and day of day [doy] of a year that starts in March. *)
Definition month_of (doy : Z) : Z := let mp := (5 * doy + 2) / 153 in if mp <? 10 then mp + 3 else mp - 9.
Definition mday_of (doy : Z) : Z := doy - (153 * ((5 * doy + 2) / 153) + 2) / 5 + 1.
Definition feb_days (lp : bool) (m : Z) : Z := if m =? 2 then (if lp then 29 else 28) else month_days 1 m.

(** The civil date of day [doy] of year [y]. *)
Definition civil (y doy : Z) : Z * Z * Z := (y + Z.b2z (month_of doy <=? 2), month_of doy, mday_of doy).

Definition day_check (lp : bool) (doy : Z) : bool :=
  let m := month_of doy in let d := mday_of doy in
  let m' := month_of (doy + 1) in let d' := mday_of (doy + 1) in
  (1 <=? m) && (m <=? 12) && (1 <=? d) && (d <=? feb_days lp m) &&
  (if doy + 1 <? 365 + Z.b2z lp then
     if d <? feb_days lp m then (m' =? m) && (d' =? d + 1)
     else if m <? 12 then (m' =? m + 1) && (d' =? 1) && Bool.eqb (m' <=? 2) (m <=? 2)
     else (m' =? 1) && (d' =? 1)
   else (m =? 2) && (d =? feb_days lp m)).
Lemma days_check lp : forallb (day_check lp) (seqZ 0 (365 + Z.b2z lp)) = true.
Proof. destruct lp; vm_compute; reflexivity. Qed.
Lemma day_checked lp doy : 0 ≤ doy < 365 + Z.b2z lp → day_check lp doy = true.
Proof.
  intros Hd. pose proof (days_check lp) as Hc. rewrite forallb_forall in Hc. apply Hc.
  apply list_elem_of_In, elem_of_seqZ. lia.
Qed.

Lemma month_days_feb y m : month_days y m = feb_days (leap y) m.
Proof. unfold feb_days, month_days. by destruct (m =? 2). Qed.

(** The date after [civil y doy] is the one of the next day of the year, or the
    first of March of the next year. *)
Lemma civil_next y doy : 0 ≤ doy < year_days y →
  next_day (civil y doy) = (if doy + 1 <? year_days y then civil y (doy + 1) else civil (y + 1) 0).
Proof.
  intros Hd. unfold year_days in *. pose proof (day_checked (leap (y + 1)) doy Hd) as Hc. unfold day_check in Hc.
  rewrite !andb_true_iff in Hc. destruct Hc as [[[[Hm1 Hm2] Hd1] Hd2] Hc].
  assert (month_days (y + Z.b2z (month_of doy <=? 2)) (month_of doy) = feb_days (leap (y + 1)) (month_of doy)) as Hmd.
  { rewrite month_days_feb. unfold feb_days. destruct (Z.eqb_spec (month_of doy) 2) as [->|]; done. }
  unfold next_day, civil. rewrite Hmd. destruct (Z.ltb_spec (doy + 1) (365 + Z.b2z (leap (y + 1)))) as [Hlt|Hge].
  - destruct (Z.ltb_spec (mday_of doy) (feb_days (leap (y + 1)) (month_of doy))).
    + apply andb_true_iff in Hc as [->%Z.eqb_eq ->%Z.eqb_eq]. done.
    + destruct (Z.ltb_spec (month_of doy) 12).
      * rewrite !andb_true_iff in Hc. destruct Hc as [[Hm'%Z.eqb_eq ->%Z.eqb_eq] Hb%eqb_prop]. by rewrite <-Hb, Hm'.
      * apply andb_true_iff in Hc as [->%Z.eqb_eq ->%Z.eqb_eq]. destruct (Z.leb_spec (month_of doy) 2); [lia|]. f_equal. f_equal. simpl. lia.
  - apply andb_true_iff in Hc as [Hm%Z.eqb_eq Hdd%Z.eqb_eq]. rewrite Hdd, Z.ltb_irrefl, Hm. f_equal. f_equal. simpl. lia.
Qed.
Lemma civil_valid y doy : 0 ≤ doy < year_days y →
  let '(Y, m, d) := civil y doy in 1 ≤ m ≤ 12 ∧ 1 ≤ d ≤ month_days Y m.
Proof.
  intros Hd. unfold year_days in *. pose proof (day_checked (leap (y + 1)) doy Hd) as Hc. unfold day_check in Hc.
  rewrite !andb_true_iff, !Z.leb_le in Hc. destruct Hc as [[[[Hm1 Hm2] Hd1] Hd2] _]. unfold civil. split; [lia|].
  rewrite month_days_feb. unfold feb_days in *. destruct (Z.eqb_spec (month_of doy) 2) as [->|]; simpl; lia.
Qed.

(** ** The code computes it *)

Definition EPOCH : Z := 719468.
(** The era, the year of it and the day of that year. *)
Definition era_of (n : Z) : Z := n / 146097.
Definition doy_of (n : Z) : Z := n mod 146097 - year_start (yoe_of (n mod 146097)).
Definition year_of (n : Z) : Z := yoe_of (n mod 146097) + 400 * era_of n.

Lemma quot_floor n : Z.quot (if 0 <=? n then n else n - 146096) 146097 = n / 146097.
Proof.
  destruct (Z.leb_spec 0 n); [by rewrite Z.quot_div_nonneg by lia|].
  Z.quot_rem_to_equations. Z.div_mod_to_equations. lia.
Qed.
Lemma leap_period y k : leap (y + 400 * k) = leap y.
Proof.
  unfold leap. replace (y + 400 * k) with (y + (100 * k) * 4) at 1 by lia. replace (y + 400 * k) with (y + (4 * k) * 100) at 1 by lia.
  replace (y + 400 * k) with (y + k * 400) by lia. by rewrite !Z.mod_add by lia.
Qed.
Lemma year_days_period y k : year_days (y + 400 * k) = year_days y.
Proof. unfold year_days. replace (y + 400 * k + 1) with (y + 1 + 400 * k) by lia. by rewrite leap_period. Qed.

Lemma doy_range n : 0 ≤ doy_of n < year_days (year_of n).
Proof.
  unfold year_of. rewrite year_days_period. unfold doy_of.
  destruct (yoe_spec (n mod 146097)) as [_ ?]; [apply Z.mod_pos_bound; lia|lia].
Qed.

Lemma civil_from_days_spec z :
  - 2 ^ 31 ≤ z → z + EPOCH < 2 ^ 31 → civil_from_days z = civil (year_of (z + EPOCH)) (doy_of (z + EPOCH)).
Proof.
  intros H0 H1. unfold civil_from_days. fold EPOCH. set (n := z + EPOCH) in *. rewrite quot_floor.
  assert (n - n / 146097 * 146097 = n mod 146097) as -> by (Z.div_mod_to_equations; lia).
  unfold year_of, era_of. pose proof (doy_range n) as Hdoy. unfold doy_of in *.
  set (doe := n mod 146097) in *. assert (0 ≤ doe < 146097) as Hdoe by (apply Z.mod_pos_bound; lia).
  rewrite (u32_small doe) by lia. rewrite (u32_small (_ - doe / 146096)) by (Z.div_mod_to_equations; lia).
  fold (yoe_of doe). destruct (yoe_spec doe Hdoe) as [Hy Hd].
  rewrite (i32_small (yoe_of doe)) by lia. pose proof (year_days_range (yoe_of doe)).
  assert (0 ≤ year_start (yoe_of doe)) by (unfold year_start; Z.div_mod_to_equations; lia).
  fold (year_start (yoe_of doe)). rewrite (u32_small (year_start _)) by lia. set (doy := doe - year_start (yoe_of doe)) in *.
  pose proof (year_days_range (year_of n)). assert (0 ≤ doy < 366) as Hdoy' by lia. clearbody doy.
  rewrite (u32_small doy) by lia. rewrite (u32_small (5 * doy + 2)) by lia. set (mp := (5 * doy + 2) / 153).
  assert (0 ≤ mp < 12) as Hmp by (unfold mp; Z.div_mod_to_equations; lia). rewrite (u32_small (153 * mp + 2)) by lia.
  assert (mday_of doy = doy - (153 * mp + 2) / 5 + 1) as Hd' by done.
  assert (1 ≤ mday_of doy ≤ 31) as Hday by (rewrite Hd'; unfold mp; Z.div_mod_to_equations; lia).
  rewrite (u32_small (doy - _ + 1)) by lia. unfold civil, month_of. fold mp. rewrite Hd'.
  destruct (Z.ltb_spec mp 10); rewrite u32_small by lia; f_equal; f_equal; lia.
Qed.

(** The day after has the next date. *)
Lemma civil_succ n : civil (year_of (n + 1)) (doy_of (n + 1)) = next_day (civil (year_of n) (doy_of n)).
Proof.
  rewrite (civil_next _ _ (doy_range n)). unfold year_of, doy_of, era_of. rewrite year_days_period.
  set (doe := n mod 146097). set (era := n / 146097). assert (0 ≤ doe < 146097) as Hdoe by (apply Z.mod_pos_bound; lia).
  destruct (yoe_spec doe Hdoe) as [Hy Hd]. destruct (year_check (yoe_of doe) Hy) as (_ & _ & Hs).
  assert (n = 146097 * era + doe) as Hn by (apply Z.div_mod; lia).
  destruct (decide (doe + 1 < 146097)) as [Hin|Hout].
  - assert ((n + 1) mod 146097 = doe + 1 ∧ (n + 1) / 146097 = era) as [-> ->].
    { split; [symmetry; apply Z.mod_unique_pos with era|symmetry; apply Z.div_unique_pos with (doe + 1)]; lia. }
    destruct (Z.ltb_spec (doe - year_start (yoe_of doe) + 1) (year_days (yoe_of doe))) as [Hlt|Hge].
    + rewrite (yoe_unique (doe + 1) (yoe_of doe)) by lia. f_equal. lia.
    + destruct (Z.eqb_spec (yoe_of doe) 399) as [E|E].
      { exfalso. rewrite E in *. assert (year_start 399 + year_days 399 = 146097) by reflexivity. lia. }
      change (Z.b2z false) with 0 in Hs. pose proof (year_days_range (yoe_of doe + 1)).
      rewrite (yoe_unique (doe + 1) (yoe_of doe + 1)) by lia. f_equal; lia.
  - assert ((n + 1) mod 146097 = 0 ∧ (n + 1) / 146097 = era + 1) as [-> ->].
    { split; [symmetry; apply Z.mod_unique_pos with (era + 1)|symmetry; apply Z.div_unique_pos with 0]; lia. }
    assert (doe = 146096) as -> by lia. change (yoe_of 146096) with 399. change (yoe_of 0) with 0.
    change (146096 - year_start 399 + 1 <? year_days 399) with false. f_equal; simpl; lia.
Qed.

(** C31. [civil_from_days] is the Gregorian calendar: day 0 is 1 January 1970, and
    for every day for which the code's [int] arithmetic does not overflow, the
    date is a valid one and the day after has the date that follows it.  So
    [ke_format_time] prints the right date of every day. *)
Theorem civil_from_days_correct :
  civil_from_days 0 = (1970, 1, 1) ∧
  ∀ z, - 2 ^ 31 ≤ z → z + 1 + 719468 < 2 ^ 31 →
    civil_from_days (z + 1) = next_day (civil_from_days z) ∧
    let '(y, m, d) := civil_from_days z in 1 ≤ m ≤ 12 ∧ 1 ≤ d ≤ month_days y m.
Proof.
  split; [reflexivity|]. intros z H0 H1. rewrite !civil_from_days_spec by (unfold EPOCH; lia). split.
  - rewrite <-civil_succ. f_equal; f_equal; lia.
  - apply civil_valid, doy_range.
Qed.

(** [weekday_from_days] is the day of the week for every [int]: 1 January 1970
    was a Thursday, and the weekdays follow one another, before the epoch too. *)
Theorem weekday_from_days_correct :
  weekday_from_days 0 = 4 ∧
  ∀ z, - 2 ^ 31 ≤ z < 2 ^ 31 - 4 → weekday_from_days z = (z + 4) mod 7.
Proof.
  split; [reflexivity|]. intros z Hz. unfold weekday_from_days. assert (0 ≤ (z + 4) mod 7 < 7) by (apply Z.mod_pos_bound; lia).
  assert ((if -4 <=? z then Z.rem (z + 4) 7 else Z.rem (z + 5) 7 + 6) = (z + 4) mod 7) as ->; [|apply u32_small; lia].
  destruct (Z.leb_spec (-4) z); Z.quot_rem_to_equations; Z.div_mod_to_equations; lia.
Qed.

(** The time of day [ke_format_time] prints is that of the clock: the date's day
    number, hours, minutes, seconds and milliseconds are in range and add up to
    the nanoseconds given, up to the part below a millisecond, for every value of
    the 64-bit clock. *)
Theorem format_time_roundtrip nanosecs :
  0 ≤ nanosecs < 2 ^ 64 →
  let f := ke_format_time nanosecs in
  let days := nanosecs / NS_PER_S / 86400 in
  (fyear f, fmonth f, fday f) = civil_from_days days ∧
  0 ≤ fhour f < 24 ∧ 0 ≤ fminute f < 60 ∧ 0 ≤ fsecond f < 60 ∧ 0 ≤ fmilli f < 1000 ∧
  0 ≤ nanosecs - ((((days * 24 + fhour f) * 60 + fminute f) * 60 + fsecond f) * 1000 + fmilli f) * 1000000 < 1000000.
Proof.
  intros Hn f days. unfold f, ke_format_time.
  assert (nanosecs / NS_PER_S / 60 / 60 / 24 = days) as -> by (unfold days; by rewrite !Z.div_div by (unfold NS_PER_S; lia)).
  rewrite (i32_small days) by (unfold days, NS_PER_S; Z.div_mod_to_equations; lia).
  destruct (civil_from_days days) as [[y m] d]. simpl. split; [done|]. unfold days, NS_PER_S.
  Z.div_mod_to_equations. lia.
Qed.

(** ** Witnesses: leap day 2024, a date before the epoch, a time of day *)

Lemma civil_from_days_correct_witness : civil_from_days (19782 + 1) = next_day (2024, 2, 29).
Proof.
  destruct civil_from_days_correct as [_ H]. destruct (H 19782) as [H1 _]; [lia|lia|].
  rewrite H1. reflexivity.
Defined.
Lemma weekday_from_days_correct_witness : weekday_from_days (-5) = 6.
Proof. destruct weekday_from_days_correct as [_ H]. rewrite (H (-5)); [reflexivity|lia]. Defined.
Lemma format_time_roundtrip_witness : 0 ≤ fhour (ke_format_time 1700000000123456789) < 24.
Proof.
  destruct (format_time_roundtrip 1700000000123456789) as (_ & H & _); [lia|]. exact H.
Defined.
