(* ===== verification/Pte.v ===== *)
(** Page table entries: the formats of kernel/vm/{amd64,aarch64,riscv64,m68k}, as
    words with bit fields, and the interface the rest of the VM uses them by. *)
From S2P Require Import Prelude.
Local Open Scope Z_scope.

(** ** Bit fields *)

Record field := Field { off : Z; len : Z }.
Definition fget (f : field) (x : Z) : Z := Z.land (Z.shiftr x (off f)) (Z.ones (len f)).
Definition fset (f : field) (v x : Z) : Z :=
  Z.lor (Z.ldiff x (Z.shiftl (Z.ones (len f)) (off f))) (Z.shiftl (Z.land v (Z.ones (len f))) (off f)).
Definition fbit (f : field) (x : Z) : bool := negb (fget f x =? 0).

Definition field_ok (f : field) : bool := (0 <=? off f) && (0 <=? len f).
Definition apart (f g : field) : bool :=
  field_ok f && field_ok g && ((off f + len f <=? off g) || (off g + len g <=? off f)).

Lemma fset_testbit f v x i : field_ok f = true → 0 ≤ i →
  Z.testbit (fset f v x) i = if bool_decide (off f ≤ i < off f + len f) then Z.testbit v (i - off f) else Z.testbit x i.
Proof.
  unfold field_ok, fset. rewrite andb_true_iff, !Z.leb_le. intros [? ?] Hi.
  rewrite Z.lor_spec, Z.ldiff_spec, !Z.shiftl_spec by done. case_bool_decide as Hd.
  - rewrite Z.land_spec, !Z.ones_spec_low by lia. simpl. by rewrite andb_true_r, andb_false_r.
  - destruct (decide (i < off f)).
    + rewrite !(Z.testbit_neg_r _ (i - off f)) by lia. simpl. by rewrite andb_true_r, orb_false_r.
    + rewrite Z.land_spec, !Z.ones_spec_high by lia. rewrite andb_false_r. simpl. by rewrite andb_true_r, orb_false_r.
Qed.
Lemma fget_testbit f x i : field_ok f = true → 0 ≤ i →
  Z.testbit (fget f x) i = if bool_decide (i < len f) then Z.testbit x (i + off f) else false.
Proof.
  unfold field_ok, fget. rewrite andb_true_iff, !Z.leb_le. intros [? ?] Hi.
  rewrite Z.land_spec, Z.shiftr_spec by done. case_bool_decide.
  - rewrite Z.ones_spec_low by lia. by rewrite andb_true_r.
  - rewrite Z.ones_spec_high by lia. by rewrite andb_false_r.
Qed.

(** What was stored is read back, and other fields keep their value. *)
Lemma fget_fset f v x : field_ok f = true → fget f (fset f v x) = Z.land v (Z.ones (len f)).
Proof.
  intros Hf. pose proof Hf as Hf'. unfold field_ok in Hf'. rewrite andb_true_iff, !Z.leb_le in Hf'. apply Z.bits_inj'. intros i Hi.
  rewrite fget_testbit, Z.land_spec by done. case_bool_decide.
  - rewrite fset_testbit, bool_decide_true, Z.ones_spec_low by (done || lia). by rewrite Z.add_simpl_r, andb_true_r.
  - rewrite Z.ones_spec_high by lia. by rewrite andb_false_r.
Qed.
Lemma fget_fset_small f v x : field_ok f = true → 0 ≤ v < 2 ^ len f → fget f (fset f v x) = v.
Proof.
  intros Hf Hv. rewrite fget_fset by done. unfold field_ok in Hf. rewrite andb_true_iff, !Z.leb_le in Hf.
  rewrite Z.land_ones by lia. by apply Z.mod_small.
Qed.
Lemma fget_fset_other f g v x : apart f g = true → fget f (fset g v x) = fget f x.
Proof.
  unfold apart. rewrite !andb_true_iff, orb_true_iff, !Z.leb_le. intros [[Hf Hg] Hd].
  apply Z.bits_inj'. intros i Hi. rewrite !fget_testbit by done. case_bool_decide; [|done].
  assert (0 ≤ i + off f) by (unfold field_ok in Hf; rewrite andb_true_iff, !Z.leb_le in Hf; lia).
  rewrite fset_testbit, bool_decide_false by (done || lia). done.
Qed.
Lemma fget_0 f : fget f 0 = 0.
Proof. unfold fget. by rewrite Z.shiftr_0_l, Z.land_0_l. Qed.
Lemma fget_nonzero f x : fget f x ≠ 0 → x ≠ 0.
Proof. intros Hf ->. by rewrite fget_0 in Hf. Qed.
Lemma fbit_fset f v x : field_ok f = true → len f = 1 → fbit f (fset f v x) = Z.odd v.
Proof.
  intros Hf Hl. unfold fbit. rewrite fget_fset, Hl by done. rewrite Z.land_ones by lia. change (2 ^ 1) with 2. rewrite Zmod_odd. by destruct (Z.odd v).
Qed.
Lemma fbit_fset_other f g v x : apart f g = true → fbit f (fset g v x) = fbit f x.
Proof. intros H. unfold fbit. by rewrite fget_fset_other. Qed.
Lemma fget_small f x : field_ok f = true → 0 ≤ fget f x < 2 ^ len f.
Proof.
  unfold field_ok, fget. rewrite andb_true_iff, !Z.leb_le. intros [? ?]. rewrite Z.land_ones by done. apply Z.mod_pos_bound. lia.
Qed.

(** Reads of fields of freshly stored words. *)
Ltac fields :=
  repeat first [rewrite fget_fset_other by reflexivity | rewrite fbit_fset_other by reflexivity
    | rewrite fbit_fset by reflexivity | rewrite fget_fset_small by (reflexivity || (simpl; lia))].

Lemma index_range v n : 0 ≤ Z.land (Z.shiftr v n) 0x1FF < 512.
Proof. change 0x1FF with (Z.ones 9). rewrite Z.land_ones by lia. apply Z.mod_pos_bound. lia. Qed.

(** ** Kinds of entries *)

(** [enum vmp_pte_kind] (kdk/vm.h) *)
Inductive vmp_pte_kind := kPTEKindZero | kPTEKindTrans | kPTEKindSwap | kPTEKindBusy | kPTEKindFork | kPTEKindValid.
Global Instance vmp_pte_kind_eq_dec : EqDecision vmp_pte_kind.
Proof. solve_decision. Defined.

(** [enum software_pte_kind] *)
Inductive software_pte_kind := kSoftPteKindSwap | kSoftPteKindBusy | kSoftPteKindTrans | kSoftPteKindFork.
Definition soft_kind (k : software_pte_kind) : Z :=
  match k with kSoftPteKindSwap => 0 | kSoftPteKindBusy => 1 | kSoftPteKindTrans => 2 | kSoftPteKindFork => 3 end.

Definition VMP_PAGE_SHIFT : Z := 12.
Definition PGSIZE : Z := 2 ^ VMP_PAGE_SHIFT.

(** ** The interface

    What tables.c, resident.c and fault.c use of a 64-bit port's entries: words of
    eight bytes, four levels of tables with 512 entries. *)
Class PteFormat := {
  pfn_bits : Z;
  vmp_md_pte_create_hw : Z → bool → bool → bool → bool → Z;
  vmp_md_pte_create_table : Z → Z;
  vmp_md_pte_create_busy : Z → Z;
  vmp_md_pte_create_trans : Z → Z;
  vmp_md_pte_create_swap : Z → Z;
  vmp_md_pte_create_fork : Z → Z;
  vmp_pte_characterise : Z → vmp_pte_kind;
  vmp_md_soft_pte_pfn : Z → option Z;
  vmp_md_soft_pte_forkpage : Z → option Z;
  vmp_md_pte_hw_pfn : Z → Z;
  vmp_pte_hw_paddr : Z → Z;
  vmp_addr_unpack : Z → nat → Z;
  vmp_md_hw_pte_is_writeable : Z → bool;
  vmp_md_pte_hw_set_readonly : Z → Z
}.
Class PteLaws (F : PteFormat) : Prop := {
  law_bits : 12 ≤ pfn_bits ≤ 52;
  law_paddr : ∀ pte, vmp_pte_hw_paddr pte = u64 (Z.shiftl (vmp_md_pte_hw_pfn pte) VMP_PAGE_SHIFT);
  law_index : ∀ vaddr level, 0 ≤ vmp_addr_unpack vaddr level < 512;
  law_zero : vmp_pte_characterise 0 = kPTEKindZero;
  law_hw : ∀ pfn w x c u, 0 ≤ pfn < 2 ^ pfn_bits →
    let pte := vmp_md_pte_create_hw pfn w x c u in
    vmp_pte_characterise pte = kPTEKindValid ∧ vmp_md_pte_hw_pfn pte = pfn ∧ vmp_md_hw_pte_is_writeable pte = w;
  law_readonly : ∀ pfn w x c u, 0 ≤ pfn < 2 ^ pfn_bits →
    let pte := vmp_md_pte_hw_set_readonly (vmp_md_pte_create_hw pfn w x c u) in
    vmp_pte_characterise pte = kPTEKindValid ∧ vmp_md_pte_hw_pfn pte = pfn ∧ vmp_md_hw_pte_is_writeable pte = false;
  law_table : ∀ pfn, 0 ≤ pfn < 2 ^ pfn_bits →
    vmp_pte_characterise (vmp_md_pte_create_table pfn) = kPTEKindValid ∧
    vmp_md_pte_hw_pfn (vmp_md_pte_create_table pfn) = pfn;
  law_busy : ∀ pfn, 0 ≤ pfn < 2 ^ 61 →
    vmp_pte_characterise (vmp_md_pte_create_busy pfn) = kPTEKindBusy ∧ vmp_md_soft_pte_pfn (vmp_md_pte_create_busy pfn) = Some pfn;
  law_trans : ∀ pfn, 0 ≤ pfn < 2 ^ 61 →
    vmp_pte_characterise (vmp_md_pte_create_trans pfn) = kPTEKindTrans ∧ vmp_md_soft_pte_pfn (vmp_md_pte_create_trans pfn) = Some pfn;
  law_swap : ∀ slot, 0 < slot < 2 ^ 61 →
    vmp_pte_characterise (vmp_md_pte_create_swap slot) = kPTEKindSwap ∧ vmp_md_soft_pte_pfn (vmp_md_pte_create_swap slot) = Some slot;
  (* a page address with its alignment, in the upper half or not *)
  law_fork : ∀ addr, 0 ≤ addr < 2 ^ 64 → addr mod 8 = 0 →
    vmp_pte_characterise (vmp_md_pte_create_fork addr) = kPTEKindFork ∧
    vmp_md_soft_pte_forkpage (vmp_md_pte_create_fork addr) = Some addr;
  law_unpack : ∀ vaddr level, (1 ≤ level ≤ 4)%nat →
    vmp_addr_unpack vaddr level = Z.land (Z.shiftr vaddr (VMP_PAGE_SHIFT + 9 * Z.of_nat (level - 1))) 0x1FF
}.

(** The software format of the three 64-bit ports. *)
Module Soft.
Definition valid := Field 0 1.
Definition data := Field 1 61.
Definition kind := Field 62 2.
(** A word with all three fields stored; the local variable starts uninitialised. *)
Definition pte_sw (uninit : Z) (k : software_pte_kind) (d : Z) : Z :=
  fset kind (soft_kind k) (fset data d (fset valid 0 uninit)).

Lemma pte_sw_uninit a b k d : 0 ≤ a < 2 ^ 64 → 0 ≤ b < 2 ^ 64 → pte_sw a k d = pte_sw b k d.
Proof.
  intros Ha Hb. apply Z.bits_inj'. intros i Hi. unfold pte_sw. rewrite !fset_testbit by done.
  destruct (decide (i < 64)); [simpl; repeat case_bool_decide; (done || lia)|].
  rewrite !bool_decide_false by (simpl; lia). rewrite !Z.bits_above_log2; try done; try lia.
  all: destruct (decide (a = 0)) as [->|]; destruct (decide (b = 0)) as [->|]; simpl; try lia; apply Z.log2_lt_pow2; try lia.
  all: apply Z.lt_le_trans with (2 ^ 64); [lia|]; apply Z.pow_le_mono_r; lia.
Qed.
Lemma sw_valid a k d : fbit valid (pte_sw a k d) = false.
Proof. unfold pte_sw. by fields. Qed.
Lemma sw_kind a k d : fget kind (pte_sw a k d) = soft_kind k.
Proof. unfold pte_sw. apply fget_fset_small; [done|]. destruct k; simpl; lia. Qed.
Lemma sw_data a k d : 0 ≤ d < 2 ^ 61 → fget data (pte_sw a k d) = d.
Proof. intros Hd. unfold pte_sw. by fields. Qed.
Lemma sw_nonzero a k d : soft_kind k ≠ 0 → pte_sw a k d ≠ 0.
Proof. intros Hk. apply (fget_nonzero kind). by rewrite sw_kind. Qed.
Lemma sw_nonzero_data a k d : 0 < d < 2 ^ 61 → pte_sw a k d ≠ 0.
Proof. intros Hd. apply (fget_nonzero data). rewrite sw_data; lia. Qed.
Lemma fork_data addr : 0 ≤ addr < 2 ^ 64 → addr mod 8 = 0 →
  0 ≤ Z.shiftr addr 3 < 2 ^ 61 ∧ u64 (Z.shiftl (Z.shiftr addr 3) 3) = addr.
Proof.
  intros Ha Hm. rewrite Z.shiftr_div_pow2, Z.shiftl_mul_pow2 by lia. change (2 ^ 3) with 8 in *.
  split; [Z.div_mod_to_equations; lia|]. rewrite u64_small; Z.div_mod_to_equations; lia.
Qed.
End Soft.

(** Finishes the laws of software entries, [H] characterising those. *)
Ltac soft_law H :=
  intros; match goal with
  | Ha : 0 ≤ ?a < 2 ^ 64, Hm : ?a mod 8 = 0 |- _ =>
      let Hd := fresh in let He := fresh in destruct (Soft.fork_data a Ha Hm) as [Hd He];
      rewrite H, Soft.sw_data, He by (done || by left); done
  | _ => rewrite H, Soft.sw_data by (lia || (by left) || (by right)); done
  end.
