(* ===== verification/PteAmd64.v ===== *)
(** Page table entries of the amd64 port: kernel/vm/amd64/vmp_amd64.h. *)
From S2P Require Import Prelude Pte.
Import Soft.
Local Open Scope Z_scope.

(** [struct pte_hw] and [struct pte_large] *)
Definition valid := Field 0 1.
Definition writeable := Field 1 1.
Definition user := Field 2 1.
Definition nocache := Field 4 1.
Definition ps := Field 7 1.
Definition pfn := Field 12 40.
Definition pfn_large := Field 13 39.
Definition nx := Field 63 1.

Definition vmp_md_pte_create_hw (f : Z) (w x c u : bool) : Z :=
  let pte := fset pfn f 0 in
  let pte := fset valid 1 pte in
  let pte := fset writeable (Z.b2z w) pte in
  let pte := fset nocache (Z.b2z (negb c)) pte in
  let pte := fset user (Z.b2z u) pte in
  fset nx (Z.b2z (negb x)) pte.
Definition vmp_md_pte_create_hwlarge (f : Z) (w x c u : bool) : Z :=
  let pte := fset pfn_large (Z.shiftr f 1) 0 in
  let pte := fset valid 1 pte in
  let pte := fset writeable (Z.b2z w) pte in
  let pte := fset nocache (Z.b2z (negb c)) pte in
  let pte := fset user (Z.b2z u) pte in
  let pte := fset ps 1 pte in
  fset nx (Z.b2z (negb x)) pte.
(** The entry [vmp_md_setup_table_pointers] makes. *)
Definition table_pointer (f : Z) : Z :=
  fset pfn f (fset user 1 (fset writeable 1 (fset valid 1 0))).

Definition vmp_md_pte_create_busy (pfn : Z) : Z := pte_sw 0 kSoftPteKindBusy pfn.
Definition vmp_md_pte_create_trans (pfn : Z) : Z := pte_sw 0 kSoftPteKindTrans pfn.
Definition vmp_md_pte_create_swap (pfn : Z) : Z := pte_sw 0 kSoftPteKindSwap pfn.
Definition vmp_md_pte_create_fork (forkpage : Z) : Z := pte_sw 0 kSoftPteKindFork (Z.shiftr forkpage 3).
Definition vmp_md_pte_is_empty (pte : Z) : bool := pte =? 0.
Definition vmp_md_pte_is_valid (pte : Z) : bool := fbit valid pte.
Definition vmp_md_hw_pte_is_writeable (pte : Z) : bool := fbit writeable pte.
Definition vmp_md_pte_hw_set_readonly (pte : Z) : Z := fset writeable 0 pte.
(** The assertion on the level is the caller's. *)
Definition vmp_md_pte_hw_is_large (pte : Z) (level : nat) : option bool :=
  if decide (1 < level)%nat then Some (fbit ps pte) else None.
(** Two bits: no other kind of software entry. *)
Definition vmp_pte_characterise (pte : Z) : vmp_pte_kind :=
  if vmp_md_pte_is_empty pte then kPTEKindZero
  else if vmp_md_pte_is_valid pte then kPTEKindValid
  else if fget Soft.kind pte =? soft_kind kSoftPteKindBusy then kPTEKindBusy
  else if fget Soft.kind pte =? soft_kind kSoftPteKindTrans then kPTEKindTrans
  else if fget Soft.kind pte =? soft_kind kSoftPteKindSwap then kPTEKindSwap
  else kPTEKindFork.
Definition vmp_md_soft_pte_pfn (pte : Z) : option Z :=
  match vmp_pte_characterise pte with
  | kPTEKindBusy | kPTEKindTrans | kPTEKindSwap => Some (fget Soft.data pte)
  | _ => None
  end.
Definition vmp_md_soft_pte_forkpage (pte : Z) : option Z :=
  match vmp_pte_characterise pte with
  | kPTEKindFork => Some (u64 (Z.shiftl (fget Soft.data pte) 3))
  | _ => None
  end.
Definition vmp_md_pte_hw_pfn (pte : Z) : Z := fget pfn pte.
Definition vmp_pte_hw_paddr (pte : Z) : Z := u64 (Z.shiftl (fget pfn pte) VMP_PAGE_SHIFT).
(** [unpacked[level]]; element 0 is not written. *)
Definition vmp_addr_unpack (vaddr : Z) (level : nat) : Z :=
  match level with
  | 4%nat => Z.land (Z.shiftr vaddr 39) 0x1FF
  | 3%nat => Z.land (Z.shiftr vaddr 30) 0x1FF
  | 2%nat => Z.land (Z.shiftr vaddr 21) 0x1FF
  | 1%nat => Z.land (Z.shiftr vaddr 12) 0x1FF
  | _ => 0
  end.

Lemma characterise_sw_amd64 k d : soft_kind k ≠ 0 ∨ 0 < d < 2 ^ 61 → vmp_pte_characterise (pte_sw 0 k d) =
  match k with kSoftPteKindSwap => kPTEKindSwap | kSoftPteKindBusy => kPTEKindBusy
             | kSoftPteKindTrans => kPTEKindTrans | kSoftPteKindFork => kPTEKindFork end.
Proof.
  intros Hk. unfold vmp_pte_characterise, vmp_md_pte_is_empty, vmp_md_pte_is_valid. change valid with Soft.valid.
  rewrite Soft.sw_valid, Soft.sw_kind, (proj2 (Z.eqb_neq _ 0)).
  - by destruct k.
  - destruct Hk; [by apply Soft.sw_nonzero|by apply Soft.sw_nonzero_data].
Qed.
Lemma characterise_valid_amd64 pte : fbit valid pte = true → vmp_pte_characterise pte = kPTEKindValid.
Proof.
  intros Hv. unfold vmp_pte_characterise, vmp_md_pte_is_empty, vmp_md_pte_is_valid. rewrite Hv.
  destruct (Z.eqb_spec pte 0) as [->|]; [|done]. unfold fbit in Hv. by rewrite fget_0 in Hv.
Qed.

#[export] Instance amd64_format : PteFormat := {
  pfn_bits := 40;
  vmp_md_pte_create_hw := vmp_md_pte_create_hw;
  vmp_md_pte_create_table := table_pointer;
  vmp_md_pte_create_busy := vmp_md_pte_create_busy;
  vmp_md_pte_create_trans := vmp_md_pte_create_trans;
  vmp_md_pte_create_swap := vmp_md_pte_create_swap;
  vmp_md_pte_create_fork := vmp_md_pte_create_fork;
  vmp_pte_characterise := vmp_pte_characterise;
  vmp_md_soft_pte_pfn := vmp_md_soft_pte_pfn;
  vmp_md_soft_pte_forkpage := vmp_md_soft_pte_forkpage;
  vmp_md_pte_hw_pfn := vmp_md_pte_hw_pfn;
  vmp_pte_hw_paddr := vmp_pte_hw_paddr;
  vmp_addr_unpack := vmp_addr_unpack;
  vmp_md_hw_pte_is_writeable := vmp_md_hw_pte_is_writeable;
  vmp_md_pte_hw_set_readonly := vmp_md_pte_hw_set_readonly
}.

(** The port keeps what the interface promises. *)
#[export] Instance amd64_laws : PteLaws amd64_format.
Proof.
  split; simpl; unfold vmp_md_soft_pte_pfn, vmp_md_soft_pte_forkpage, vmp_md_pte_hw_pfn, vmp_md_hw_pte_is_writeable,
    vmp_md_pte_create_busy, vmp_md_pte_create_trans, vmp_md_pte_create_swap, vmp_md_pte_create_fork.
  - lia.
  - done.
  - intros v [|[|[|[|[|l]]]]]; simpl; first [apply index_range | lia].
  - done.
  - intros f w x c u Hf. unfold vmp_md_pte_create_hw. split_and!; [apply characterise_valid_amd64|..]; fields; by destruct w.
  - intros f w x c u Hf. unfold vmp_md_pte_hw_set_readonly, vmp_md_pte_create_hw. split_and!; [apply characterise_valid_amd64|..]; by fields.
  - intros f Hf. unfold table_pointer. split; [apply characterise_valid_amd64|]; by fields.
  - soft_law characterise_sw_amd64.
  - soft_law characterise_sw_amd64.
  - soft_law characterise_sw_amd64.
  - soft_law characterise_sw_amd64.
  - intros v [|[|[|[|[|l]]]]] Hl; first [reflexivity | lia].
Qed.

(** Bit 12 of a large entry is another field. *)
Lemma large_pfn f : 0 ≤ f < 2 ^ 40 → Z.even f = true → fget pfn (fset pfn_large (Z.shiftr f 1) 0) = f.
Proof.
  intros Hf Hev. apply Z.bits_inj'. intros i Hi. rewrite fget_testbit by done. simpl. case_bool_decide as Hd.
  - rewrite fset_testbit by (done || lia). simpl. case_bool_decide.
    + rewrite Z.shiftr_spec by lia. f_equal. lia.
    + assert (i = 0) as -> by lia. rewrite Z.testbit_0_l, Z.bit0_odd, <-Z.negb_even, Hev. done.
  - symmetry. destruct (decide (f = 0)) as [->|]; [apply Z.testbit_0_l|]. apply Z.bits_above_log2; [lia|].
    apply Z.log2_lt_pow2; [lia|]. apply Z.lt_le_trans with (2 ^ 40); [lia|]. apply Z.pow_le_mono_r; lia.
Qed.

(** An amd64 mapping entry is characterised as valid and gives back the frame
    address, the protection and the cacheability it was made from; a large mapping of
    an even frame gives back its frame and is told apart from a pointer to a table;
    transition, busy and swap entries give back their frame or their (nonzero) slot,
    whatever the uninitialised word held. *)
Theorem amd64_entries_roundtrip f w x c u level slot : 0 ≤ f < 2 ^ 40 → (1 < level)%nat → 0 < slot < 2 ^ 61 →
  (let pte := vmp_md_pte_create_hw f w x c u in
   vmp_pte_characterise pte = kPTEKindValid ∧ vmp_pte_hw_paddr pte = f * PGSIZE ∧ vmp_md_hw_pte_is_writeable pte = w ∧
   fbit user pte = u ∧ fbit nx pte = negb x ∧ fbit nocache pte = negb c) ∧
  (let pte := vmp_md_pte_create_hwlarge f w x c u in Z.even f = true →
   vmp_pte_characterise pte = kPTEKindValid ∧ vmp_md_pte_hw_pfn pte = f ∧ vmp_md_pte_hw_is_large pte level = Some true ∧
   vmp_md_hw_pte_is_writeable pte = w) ∧
  (let pte := table_pointer f in
   vmp_pte_characterise pte = kPTEKindValid ∧ vmp_pte_hw_paddr pte = f * PGSIZE ∧ vmp_md_pte_hw_is_large pte level = Some false) ∧
  (∀ k uninit, 0 ≤ uninit < 2 ^ 64 → pte_sw uninit k f = pte_sw 0 k f) ∧
  vmp_md_soft_pte_pfn (vmp_md_pte_create_busy f) = Some f ∧ vmp_md_soft_pte_pfn (vmp_md_pte_create_trans f) = Some f ∧
  vmp_md_soft_pte_pfn (vmp_md_pte_create_swap slot) = Some slot.
Proof.
  intros Hf Hl Hs. assert (∀ y, fget pfn y = f → vmp_pte_hw_paddr y = f * PGSIZE) as Hpa.
  { intros y Hy. unfold vmp_pte_hw_paddr, PGSIZE, VMP_PAGE_SHIFT. rewrite Hy, Z.shiftl_mul_pow2, u64_small; lia. }
  cbv zeta. refine (conj _ (conj _ (conj _ (conj _ (conj _ (conj _ _)))))).
  - unfold vmp_md_pte_create_hw. split_and!; [apply characterise_valid_amd64; by fields|apply Hpa; by fields|..];
      unfold vmp_md_hw_pte_is_writeable; fields; by destruct w, x, c, u.
  - intros Hev. unfold vmp_md_pte_create_hwlarge. split_and!; [apply characterise_valid_amd64; by fields|..].
    + unfold vmp_md_pte_hw_pfn. fields. by apply large_pfn.
    + unfold vmp_md_pte_hw_is_large. rewrite decide_True by done. by fields.
    + unfold vmp_md_hw_pte_is_writeable. fields. by destruct w.
  - unfold table_pointer. split_and!; [apply characterise_valid_amd64; by fields|apply Hpa; by fields|].
    unfold vmp_md_pte_hw_is_large. rewrite decide_True by done. by fields.
  - intros k uninit Hu. by apply Soft.pte_sw_uninit.
  - apply (law_busy (PteLaws := amd64_laws)); lia.
  - apply (law_trans (PteLaws := amd64_laws)); lia.
  - by apply (law_swap (PteLaws := amd64_laws)).
Qed.
Lemma amd64_entries_roundtrip_witness : vmp_pte_characterise (vmp_md_pte_create_hw 5 true false true true) = kPTEKindValid.
Proof. apply (amd64_entries_roundtrip 5 true false true true 2 1); lia. Defined.
