(* ===== verification/PteAarch64.v ===== *)
(** Page table entries of the aarch64 port: kernel/vm/aarch64/vmp_aarch64.h and
    mmu_regs.h.  Barriers order stores and are not modelled. *)
From S2P Require Import Prelude Pte.
Import Soft.
Local Open Scope Z_scope.

(** [struct pte_hw] and [struct table_entry] (mmu_regs.h) *)
Definition valid := Field 0 1.
Definition reserved_must_be_1_at_l1 := Field 1 1.
Definition attrindx := Field 2 3.
Definition ap := Field 6 2.
Definition sh := Field 8 2.
Definition af := Field 10 1.
Definition pfn := Field 12 36.
Definition pxn := Field 53 1.
Definition uxn := Field 54 1.
Definition is_table := Field 1 1.
Definition next_level := Field 12 36.

Definition vmp_md_pte_create_hw (f : Z) (w x c u : bool) : Z :=
  let pte := fset pfn f 0 in
  let pte := fset valid 1 pte in
  let pte := fset af 1 pte in
  let pte := fset ap (if u then (if w then 1 else 3) else (if w then 0 else 2)) pte in
  let pte := fset sh 3 pte in
  let pte := fset attrindx (if c then 0 else 1) pte in
  let pte := fset reserved_must_be_1_at_l1 1 pte in
  if negb x then fset uxn 1 (fset pxn 1 pte) else fset uxn (Z.b2z (negb u)) pte.
Definition vmp_md_pte_create_hwlarge (f : Z) (w x c u : bool) : Z :=
  let pte := fset pfn f 0 in
  let pte := fset valid 1 pte in
  let pte := fset af 1 pte in
  let pte := fset ap (if u then (if w then 1 else 3) else (if w then 0 else 2)) pte in
  let pte := fset sh 3 pte in
  let pte := fset attrindx (if c then 0 else 1) pte in
  let pte := fset reserved_must_be_1_at_l1 0 pte in
  if negb x then fset uxn 1 (fset pxn 1 pte) else fset uxn (Z.b2z (negb u)) pte.
(** The entry [vmp_md_setup_table_pointers] makes. *)
Definition table_pointer (f : Z) : Z := fset next_level f (fset is_table 1 (fset valid 1 0)).

Definition vmp_md_pte_create_busy (pfn : Z) : Z := pte_sw 0 kSoftPteKindBusy pfn.
Definition vmp_md_pte_create_trans (pfn : Z) : Z := pte_sw 0 kSoftPteKindTrans pfn.
Definition vmp_md_pte_create_swap (pfn : Z) : Z := pte_sw 0 kSoftPteKindSwap pfn.
Definition vmp_md_pte_create_fork (forkpage : Z) : Z := pte_sw 0 kSoftPteKindFork (Z.shiftr forkpage 3).
Definition vmp_md_pte_is_empty (pte : Z) : bool := pte =? 0.
Definition vmp_md_pte_is_valid (pte : Z) : bool := fbit valid pte.
Definition vmp_md_hw_pte_is_writeable (pte : Z) : bool := (fget ap pte =? 0) || (fget ap pte =? 1).
Definition vmp_md_pte_hw_set_readonly (pte : Z) : Z := fset ap (Z.lor (fget ap pte) 2) pte.
Definition vmp_md_pte_hw_is_large (pte : Z) (level : nat) : option bool :=
  if decide (1 < level)%nat then Some (fget is_table pte =? 0) else None.

Definition vmp_pte_characterise (pte : Z) : vmp_pte_kind :=
  if vmp_md_pte_is_empty pte then kPTEKindZero
  else if vmp_md_pte_is_valid pte then kPTEKindValid
  else if fget Soft.kind pte =? soft_kind kSoftPteKindBusy then kPTEKindBusy
  else if fget Soft.kind pte =? soft_kind kSoftPteKindTrans then kPTEKindTrans
  else if fget Soft.kind pte =? soft_kind kSoftPteKindFork then kPTEKindFork
  else kPTEKindSwap.
Definition vmp_md_soft_pte_pfn (pte : Z) : option Z :=
  match vmp_pte_characterise pte with
  | kPTEKindBusy | kPTEKindTrans | kPTEKindSwap => Some (fget Soft.data pte)
  | _ => None
  end.
Definition vmp_md_soft_pte_forkpage (pte : Z) : option Z :=
  match vmp_pte_characterise pte with
  | kPTEKindFork => Some (u64 (Z.shiftl (fget Soft.data pte) 3))
  | _ => None
  end.
Definition vmp_md_pte_hw_pfn (pte : Z) : Z := fget pfn pte.
Definition vmp_pte_hw_paddr (pte : Z) : Z := u64 (Z.shiftl (fget pfn pte) VMP_PAGE_SHIFT).
(** [unpacked[level]]; element 0 is not written. *)
Definition vmp_addr_unpack (vaddr : Z) (level : nat) : Z :=
  match level with
  | 4%nat => Z.land (Z.shiftr vaddr 39) 0x1FF
  | 3%nat => Z.land (Z.shiftr vaddr 30) 0x1FF
  | 2%nat => Z.land (Z.shiftr vaddr 21) 0x1FF
  | 1%nat => Z.land (Z.shiftr vaddr 12) 0x1FF
  | _ => 0
  end.

Lemma characterise_sw_aarch64 k d : soft_kind k ≠ 0 ∨ 0 < d < 2 ^ 61 → vmp_pte_characterise (pte_sw 0 k d) =
  match k with kSoftPteKindSwap => kPTEKindSwap | kSoftPteKindBusy => kPTEKindBusy
             | kSoftPteKindTrans => kPTEKindTrans | kSoftPteKindFork => kPTEKindFork end.
Proof.
  intros Hk. unfold vmp_pte_characterise, vmp_md_pte_is_empty, vmp_md_pte_is_valid. change valid with Soft.valid.
  rewrite Soft.sw_valid, Soft.sw_kind, (proj2 (Z.eqb_neq _ 0)).
  - by destruct k.
  - destruct Hk; [by apply Soft.sw_nonzero|by apply Soft.sw_nonzero_data].
Qed.
Lemma characterise_valid_aarch64 pte : fbit valid pte = true → vmp_pte_characterise pte = kPTEKindValid.
Proof.
  intros Hv. unfold vmp_pte_characterise, vmp_md_pte_is_empty, vmp_md_pte_is_valid. rewrite Hv.
  destruct (Z.eqb_spec pte 0) as [->|]; [|done]. unfold fbit in Hv. by rewrite fget_0 in Hv.
Qed.

#[export] Instance aarch64_format : PteFormat := {
  pfn_bits := 36;
  vmp_md_pte_create_hw := vmp_md_pte_create_hw;
  vmp_md_pte_create_table := table_pointer;
  vmp_md_pte_create_busy := vmp_md_pte_create_busy;
  vmp_md_pte_create_trans := vmp_md_pte_create_trans;
  vmp_md_pte_create_swap := vmp_md_pte_create_swap;
  vmp_md_pte_create_fork := vmp_md_pte_create_fork;
  vmp_pte_characterise := vmp_pte_characterise;
  vmp_md_soft_pte_pfn := vmp_md_soft_pte_pfn;
  vmp_md_soft_pte_forkpage := vmp_md_soft_pte_forkpage;
  vmp_md_pte_hw_pfn := vmp_md_pte_hw_pfn;
  vmp_pte_hw_paddr := vmp_pte_hw_paddr;
  vmp_addr_unpack := vmp_addr_unpack;
  vmp_md_hw_pte_is_writeable := vmp_md_hw_pte_is_writeable;
  vmp_md_pte_hw_set_readonly := vmp_md_pte_hw_set_readonly
}.

(** The access permissions of an entry. *)
Definition permissions (u w : bool) : Z := if u then (if w then 1 else 3) else (if w then 0 else 2).
Lemma hw_fields f w x c u : 0 ≤ f < 2 ^ 36 → let pte := vmp_md_pte_create_hw f w x c u in
  fbit valid pte = true ∧ fget pfn pte = f ∧ fget ap pte = permissions u w ∧ fget is_table pte = 1.
Proof.
  intros Hf. assert (0 ≤ permissions u w < 2 ^ len ap) as Hp by (destruct u, w; simpl; lia). cbv zeta.
  unfold vmp_md_pte_create_hw. fold (permissions u w). change is_table with reserved_must_be_1_at_l1.
  destruct x; cbn [negb]; split_and!; fields; try done; by rewrite fget_fset_small.
Qed.
Lemma large_fields f w x c u : 0 ≤ f < 2 ^ 36 → let pte := vmp_md_pte_create_hwlarge f w x c u in
  fbit valid pte = true ∧ fget pfn pte = f ∧ fget ap pte = permissions u w ∧ fget is_table pte = 0.
Proof.
  intros Hf. assert (0 ≤ permissions u w < 2 ^ len ap) as Hp by (destruct u, w; simpl; lia). cbv zeta.
  unfold vmp_md_pte_create_hwlarge. fold (permissions u w). change is_table with reserved_must_be_1_at_l1.
  destruct x; cbn [negb]; split_and!; fields; try done; by rewrite fget_fset_small.
Qed.

(** The port keeps what the interface promises. *)
#[export] Instance aarch64_laws : PteLaws aarch64_format.
Proof.
  split; cbn [pfn_bits Pte.vmp_md_pte_create_hw Pte.vmp_md_pte_create_table Pte.vmp_md_pte_create_busy Pte.vmp_md_pte_create_trans
    Pte.vmp_md_pte_create_swap Pte.vmp_md_pte_create_fork Pte.vmp_pte_characterise Pte.vmp_md_soft_pte_pfn
    Pte.vmp_md_soft_pte_forkpage Pte.vmp_md_pte_hw_pfn Pte.vmp_pte_hw_paddr Pte.vmp_addr_unpack Pte.vmp_md_hw_pte_is_writeable Pte.vmp_md_pte_hw_set_readonly aarch64_format].
  - lia.
  - done.
  - intros v [|[|[|[|[|l]]]]]; simpl; first [apply index_range | lia].
  - done.
  - intros f w x c u Hf. destruct (hw_fields f w x c u Hf) as (Hv & Hp & Ha & _).
    split_and!; [by apply characterise_valid_aarch64|done|]. unfold vmp_md_hw_pte_is_writeable. rewrite Ha. by destruct u, w.
  - intros f w x c u Hf. destruct (hw_fields f w x c u Hf) as (Hv & Hp & Ha & _).
    unfold vmp_md_pte_hw_set_readonly. rewrite Ha. split_and!; [apply characterise_valid_aarch64; by fields|unfold vmp_md_pte_hw_pfn; by fields|].
    unfold vmp_md_hw_pte_is_writeable. rewrite fget_fset_small; [by destruct u, w|done|destruct u, w; vm_compute; split; (done || discriminate)].
  - intros f Hf. unfold table_pointer, vmp_md_pte_hw_pfn. split; [apply characterise_valid_aarch64|]; by fields.
  - unfold vmp_md_soft_pte_pfn, vmp_md_pte_create_busy. soft_law characterise_sw_aarch64.
  - unfold vmp_md_soft_pte_pfn, vmp_md_pte_create_trans. soft_law characterise_sw_aarch64.
  - unfold vmp_md_soft_pte_pfn, vmp_md_pte_create_swap. soft_law characterise_sw_aarch64.
  - unfold vmp_md_soft_pte_forkpage, vmp_md_pte_create_fork. soft_law characterise_sw_aarch64.
  - intros v [|[|[|[|[|l]]]]] Hl; first [reflexivity | lia].
Qed.

(** An aarch64 mapping entry is characterised as valid and gives back the frame
    address and whether it may be written; entries for large mappings give back their
    frame and are told apart from pointers to tables; making an entry read-only keeps
    its frame; transition, busy and swap entries give back their frame or slot. *)
Theorem aarch64_entries_roundtrip f w x c u level slot : 0 ≤ f < 2 ^ 36 → (1 < level)%nat → 0 < slot < 2 ^ 61 →
  (let pte := vmp_md_pte_create_hw f w x c u in
   vmp_pte_characterise pte = kPTEKindValid ∧ vmp_pte_hw_paddr pte = f * PGSIZE ∧ vmp_md_hw_pte_is_writeable pte = w) ∧
  (let pte := vmp_md_pte_create_hwlarge f w x c u in
   vmp_pte_characterise pte = kPTEKindValid ∧ vmp_pte_hw_paddr pte = f * PGSIZE ∧ vmp_md_hw_pte_is_writeable pte = w ∧
   vmp_md_pte_hw_is_large pte level = Some true) ∧
  (let pte := table_pointer f in
   vmp_pte_characterise pte = kPTEKindValid ∧ vmp_pte_hw_paddr pte = f * PGSIZE ∧ vmp_md_pte_hw_is_large pte level = Some false) ∧
  (let pte := vmp_md_pte_hw_set_readonly (vmp_md_pte_create_hw f w x c u) in
   vmp_pte_characterise pte = kPTEKindValid ∧ vmp_md_pte_hw_pfn pte = f ∧ vmp_md_hw_pte_is_writeable pte = false) ∧
  vmp_md_soft_pte_pfn (vmp_md_pte_create_busy f) = Some f ∧ vmp_md_soft_pte_pfn (vmp_md_pte_create_trans f) = Some f ∧
  vmp_md_soft_pte_pfn (vmp_md_pte_create_swap slot) = Some slot.
Proof.
  intros Hf Hl Hs. assert (∀ y, fget pfn y = f → vmp_pte_hw_paddr y = f * PGSIZE) as Hpa.
  { intros y Hy. unfold vmp_pte_hw_paddr, PGSIZE, VMP_PAGE_SHIFT. rewrite Hy, Z.shiftl_mul_pow2, u64_small; lia. }
  destruct (hw_fields f w x c u Hf) as (Hv & Hp & Ha & _), (large_fields f w x c u Hf) as (Hv' & Hp' & Ha' & Ht').
  cbv zeta. refine (conj _ (conj _ (conj _ (conj _ (conj _ (conj _ _)))))).
  - split_and!; [by apply characterise_valid_aarch64|by apply Hpa|]. unfold vmp_md_hw_pte_is_writeable. rewrite Ha. by destruct u, w.
  - split_and!; [by apply characterise_valid_aarch64|by apply Hpa|unfold vmp_md_hw_pte_is_writeable; rewrite Ha'; by destruct u, w|].
    unfold vmp_md_pte_hw_is_large. by rewrite decide_True, Ht' by done.
  - unfold table_pointer. split_and!; [apply characterise_valid_aarch64; by fields|apply Hpa; by fields|].
    unfold vmp_md_pte_hw_is_large. rewrite decide_True by done. by fields.
  - apply (law_readonly (PteLaws := aarch64_laws)). exact Hf.
  - apply (law_busy (PteLaws := aarch64_laws)). lia.
  - apply (law_trans (PteLaws := aarch64_laws)). lia.
  - by apply (law_swap (PteLaws := aarch64_laws)).
Qed.
Lemma aarch64_entries_roundtrip_witness : vmp_pte_characterise (vmp_md_pte_create_hw 5 true false true true) = kPTEKindValid.
Proof. apply (aarch64_entries_roundtrip 5 true false true true 2 1); lia. Defined.
