(* ===== verification/PteRiscv64.v ===== *)
(** Page table entries of the riscv64 port: kernel/vm/riscv64/vmp_riscv64.h.
    Fences order stores and are not modelled. *)
From S2P Require Import Prelude Pte.
Import Soft.
Local Open Scope Z_scope.

(** [struct pte_hw] *)
Definition valid := Field 0 1.
Definition read := Field 1 1.
Definition write := Field 2 1.
Definition execute := Field 3 1.
Definition user := Field 4 1.
Definition accessed := Field 6 1.
Definition dirty := Field 7 1.
Definition pfn := Field 10 44.

Definition vmp_md_pte_create_hw (f : Z) (w x c u : bool) : Z :=
  let pte := fset pfn f 0 in
  let pte := fset valid 1 pte in
  let pte := fset read 1 (fset accessed 1 pte) in
  let pte := fset write (if w then 1 else 0) (fset dirty (if w then 1 else 0) pte) in
  let pte := fset execute (if x then 1 else 0) pte in
  if u then fset user 1 pte else pte.
(** The entry [vmp_md_setup_table_pointers] makes. *)
Definition table_pointer (f : Z) : Z := fset pfn f (fset valid 1 0).

Definition vmp_md_pte_create_busy (pfn : Z) : Z := pte_sw 0 kSoftPteKindBusy pfn.
Definition vmp_md_pte_create_trans (pfn : Z) : Z := pte_sw 0 kSoftPteKindTrans pfn.
Definition vmp_md_pte_create_swap (pfn : Z) : Z := pte_sw 0 kSoftPteKindSwap pfn.
Definition vmp_md_pte_create_fork (forkpage : Z) : Z := pte_sw 0 kSoftPteKindFork (Z.shiftr forkpage 3).
Definition vmp_md_pte_is_empty (pte : Z) : bool := pte =? 0.
Definition vmp_md_pte_is_valid (pte : Z) : bool := fbit valid pte.
Definition vmp_md_hw_pte_is_writeable (pte : Z) : bool := fget write pte =? 1.
Definition vmp_md_pte_hw_set_readonly (pte : Z) : Z := fset write 0 pte.
Definition vmp_md_pte_hw_is_large (pte : Z) (level : nat) : option bool :=
  if decide (1 < level)%nat
  then Some (fbit valid pte && (fbit read pte || fbit write pte || fbit execute pte)) else None.

Definition vmp_pte_characterise (pte : Z) : vmp_pte_kind :=
  if vmp_md_pte_is_empty pte then kPTEKindZero
  else if vmp_md_pte_is_valid pte then kPTEKindValid
  else if fget Soft.kind pte =? soft_kind kSoftPteKindBusy then kPTEKindBusy
  else if fget Soft.kind pte =? soft_kind kSoftPteKindTrans then kPTEKindTrans
  else if fget Soft.kind pte =? soft_kind kSoftPteKindFork then kPTEKindFork
  else kPTEKindSwap.
Definition vmp_md_soft_pte_pfn (pte : Z) : option Z :=
  match vmp_pte_characterise pte with
  | kPTEKindBusy | kPTEKindTrans | kPTEKindSwap => Some (fget Soft.data pte)
  | _ => None
  end.
Definition vmp_md_soft_pte_forkpage (pte : Z) : option Z :=
  match vmp_pte_characterise pte with
  | kPTEKindFork => Some (u64 (Z.shiftl (fget Soft.data pte) 3))
  | _ => None
  end.
Definition vmp_md_pte_hw_pfn (pte : Z) : Z := fget pfn pte.
Definition vmp_pte_hw_paddr (pte : Z) : Z := u64 (Z.shiftl (fget pfn pte) VMP_PAGE_SHIFT).
(** [unpacked[level]]; element 0 is not written. *)
Definition vmp_addr_unpack (vaddr : Z) (level : nat) : Z :=
  match level with
  | 4%nat => Z.land (Z.shiftr vaddr 39) 0x1FF
  | 3%nat => Z.land (Z.shiftr vaddr 30) 0x1FF
  | 2%nat => Z.land (Z.shiftr vaddr 21) 0x1FF
  | 1%nat => Z.land (Z.shiftr vaddr 12) 0x1FF
  | _ => 0
  end.

Lemma characterise_sw_riscv64 k d : soft_kind k ≠ 0 ∨ 0 < d < 2 ^ 61 → vmp_pte_characterise (pte_sw 0 k d) =
  match k with kSoftPteKindSwap => kPTEKindSwap | kSoftPteKindBusy => kPTEKindBusy
             | kSoftPteKindTrans => kPTEKindTrans | kSoftPteKindFork => kPTEKindFork end.
Proof.
  intros Hk. unfold vmp_pte_characterise, vmp_md_pte_is_empty, vmp_md_pte_is_valid. change valid with Soft.valid.
  rewrite Soft.sw_valid, Soft.sw_kind, (proj2 (Z.eqb_neq _ 0)).
  - by destruct k.
  - destruct Hk; [by apply Soft.sw_nonzero|by apply Soft.sw_nonzero_data].
Qed.
Lemma characterise_valid_riscv64 pte : fbit valid pte = true → vmp_pte_characterise pte = kPTEKindValid.
Proof.
  intros Hv. unfold vmp_pte_characterise, vmp_md_pte_is_empty, vmp_md_pte_is_valid. rewrite Hv.
  destruct (Z.eqb_spec pte 0) as [->|]; [|done]. unfold fbit in Hv. by rewrite fget_0 in Hv.
Qed.

#[export] Instance riscv64_format : PteFormat := {
  pfn_bits := 44;
  vmp_md_pte_create_hw := vmp_md_pte_create_hw;
  vmp_md_pte_create_table := table_pointer;
  vmp_md_pte_create_busy := vmp_md_pte_create_busy;
  vmp_md_pte_create_trans := vmp_md_pte_create_trans;
  vmp_md_pte_create_swap := vmp_md_pte_create_swap;
  vmp_md_pte_create_fork := vmp_md_pte_create_fork;
  vmp_pte_characterise := vmp_pte_characterise;
  vmp_md_soft_pte_pfn := vmp_md_soft_pte_pfn;
  vmp_md_soft_pte_forkpage := vmp_md_soft_pte_forkpage;
  vmp_md_pte_hw_pfn := vmp_md_pte_hw_pfn;
  vmp_pte_hw_paddr := vmp_pte_hw_paddr;
  vmp_addr_unpack := vmp_addr_unpack;
  vmp_md_hw_pte_is_writeable := vmp_md_hw_pte_is_writeable;
  vmp_md_pte_hw_set_readonly := vmp_md_pte_hw_set_readonly
}.

(** The port keeps what the interface promises. *)
#[export] Instance riscv64_laws : PteLaws riscv64_format.
Proof.
  split; simpl; unfold vmp_md_soft_pte_pfn, vmp_md_soft_pte_forkpage, vmp_md_pte_hw_pfn, vmp_md_hw_pte_is_writeable,
    vmp_md_pte_create_busy, vmp_md_pte_create_trans, vmp_md_pte_create_swap, vmp_md_pte_create_fork.
  - lia.
  - done.
  - intros v [|[|[|[|[|l]]]]]; simpl; first [apply index_range | lia].
  - done.
  - intros f w x c u Hf. unfold vmp_md_pte_create_hw. split_and!; [apply characterise_valid_riscv64|..]; destruct u, w; by fields.
  - intros f w x c u Hf. unfold vmp_md_pte_hw_set_readonly, vmp_md_pte_create_hw. split_and!; [apply characterise_valid_riscv64|..]; destruct u; by fields.
  - intros f Hf. unfold table_pointer. split; [apply characterise_valid_riscv64|]; by fields.
  - soft_law characterise_sw_riscv64.
  - soft_law characterise_sw_riscv64.
  - soft_law characterise_sw_riscv64.
  - soft_law characterise_sw_riscv64.
  - intros v [|[|[|[|[|l]]]]] Hl; first [reflexivity | lia].
Qed.

(** A riscv64 mapping entry is characterised as valid, gives back the frame
    address, the protection and whether user code may use it, and, above the last
    level, is told apart from a pointer to a table; making it read-only keeps its
    frame; transition, busy and swap entries give back their frame or slot. *)
Theorem riscv64_entries_roundtrip f w x c u level slot : 0 ≤ f < 2 ^ 44 → (1 < level)%nat → 0 < slot < 2 ^ 61 →
  (let pte := vmp_md_pte_create_hw f w x c u in
   vmp_pte_characterise pte = kPTEKindValid ∧ vmp_pte_hw_paddr pte = f * PGSIZE ∧ vmp_md_hw_pte_is_writeable pte = w ∧
   fbit execute pte = x ∧ fbit user pte = u ∧ vmp_md_pte_hw_is_large pte level = Some true) ∧
  (let pte := table_pointer f in
   vmp_pte_characterise pte = kPTEKindValid ∧ vmp_pte_hw_paddr pte = f * PGSIZE ∧ vmp_md_pte_hw_is_large pte level = Some false) ∧
  (let pte := vmp_md_pte_hw_set_readonly (vmp_md_pte_create_hw f w x c u) in
   vmp_pte_characterise pte = kPTEKindValid ∧ vmp_md_pte_hw_pfn pte = f ∧ vmp_md_hw_pte_is_writeable pte = false) ∧
  vmp_md_soft_pte_pfn (vmp_md_pte_create_busy f) = Some f ∧ vmp_md_soft_pte_pfn (vmp_md_pte_create_trans f) = Some f ∧
  vmp_md_soft_pte_pfn (vmp_md_pte_create_swap slot) = Some slot.
Proof.
  intros Hf Hl Hs. assert (∀ y, fget pfn y = f → vmp_pte_hw_paddr y = f * PGSIZE) as Hpa.
  { intros y Hy. unfold vmp_pte_hw_paddr, PGSIZE, VMP_PAGE_SHIFT. rewrite Hy, Z.shiftl_mul_pow2, u64_small; lia. }
  cbv zeta. refine (conj _ (conj _ (conj _ (conj _ (conj _ _))))).
  - unfold vmp_md_pte_create_hw. split_and!; [apply characterise_valid_riscv64|apply Hpa|..]; unfold vmp_md_hw_pte_is_writeable, vmp_md_pte_hw_is_large;
      rewrite ?decide_True by done; destruct u, w, x; by fields.
  - unfold table_pointer. split_and!; [apply characterise_valid_riscv64; by fields|apply Hpa; by fields|].
    unfold vmp_md_pte_hw_is_large. rewrite decide_True by done. by fields.
  - apply (law_readonly (PteLaws := riscv64_laws)). exact Hf.
  - apply (law_busy (PteLaws := riscv64_laws)). lia.
  - apply (law_trans (PteLaws := riscv64_laws)). lia.
  - by apply (law_swap (PteLaws := riscv64_laws)).
Qed.
Lemma riscv64_entries_roundtrip_witness : vmp_pte_characterise (vmp_md_pte_create_hw 5 true false true true) = kPTEKindValid.
Proof. apply (riscv64_entries_roundtrip 5 true false true true 2 1); lia. Defined.
