(* ===== verification/PteM68k.v ===== *)
(** Page table entries of the m68k port: kernel/vm/m68k/vmp_m68k.h and mmu_040.h.
    Words of 32 bits; the first bit field of a struct is the most significant one. *)
From S2P Require Import Prelude Pte.
Local Open Scope Z_scope.

Definition HIGHER_HALF : Z := 0x80000000.

(** [struct pte_sw] *)
Definition sw_kind := Field 30 2.
Definition sw_data := Field 2 28.
Definition sw_type := Field 0 2.
(** [pml3e_040_t] and [pml2e_040_t] *)
Definition addr := Field 4 28.
Definition table_used := Field 3 1.
Definition table_writeprotect := Field 2 1.
Definition table_type := Field 0 2.
(** [pml1e_040_t] *)
Definition pfn := Field 12 20.
Definition global := Field 10 1.
Definition supervisor := Field 7 1.
Definition cachemode := Field 5 2.
Definition writeprotect := Field 2 1.
Definition type := Field 0 2.
(** [union vaddr_040] *)
Definition l3i := Field 25 7.
Definition l2i := Field 18 7.
Definition l1i := Field 12 6.
Definition pgi := Field 0 12.

Definition vmp_md_pte_is_empty (pte : Z) : bool := pte =? 0.
Definition vmp_md_pte_is_valid (pte : Z) : bool := negb (Z.land pte 0x3 =? 0).
Definition vmp_pte_characterise (pte : Z) : vmp_pte_kind :=
  if vmp_md_pte_is_empty pte then kPTEKindZero
  else if vmp_md_pte_is_valid pte then kPTEKindValid
  else if fget sw_kind pte =? soft_kind kSoftPteKindBusy then kPTEKindBusy
  else if fget sw_kind pte =? soft_kind kSoftPteKindTrans then kPTEKindTrans
  else if fget sw_kind pte =? soft_kind kSoftPteKindFork then kPTEKindFork
  else kPTEKindSwap.

(** [newpte] starts uninitialised, and not all of its fields are stored. *)
Definition vmp_md_pte_create_hw (uninit f : Z) (w x c u : bool) : Z :=
  let pte := fset pfn f uninit in
  let pte := fset cachemode (if c then 1 else 3) pte in
  let pte := fset supervisor (if u then 0 else 1) pte in
  let pte := fset type 3 pte in
  let pte := fset global (Z.b2z (HIGHER_HALF <=? u32 (Z.shiftl f 12))) pte in
  let pte := fset writeprotect (if w then 0 else 1) pte in
  fset type 1 pte.
(** Software entries are stored field by field into the old entry. *)
Definition vmp_md_pte_create_busy (old f : Z) : Z :=
  fset sw_kind (soft_kind kSoftPteKindBusy) (fset sw_data f (fset sw_type 0 old)).
Definition vmp_md_pte_create_trans (old f : Z) : Z :=
  fset sw_kind (soft_kind kSoftPteKindTrans) (fset sw_data f (fset sw_type 0 old)).
Definition vmp_md_pte_create_swap (old swapdesc : Z) : Z :=
  fset sw_kind (soft_kind kSoftPteKindSwap) (fset sw_data swapdesc (fset sw_type 0 old)).
Definition vmp_md_pte_create_fork (old forkpage : Z) : Z :=
  let value := Z.shiftr (u32 (forkpage - HIGHER_HALF)) 3 in
  fset sw_kind (soft_kind kSoftPteKindFork) (fset sw_data value (fset sw_type 0 old)).

(** [None] is the [kfatal] of an unexpected level. *)
Definition vmp_md_pte_hw_pfn (pte : Z) (level : nat) : option Z :=
  match level with
  | 1%nat => Some (fget pfn pte)
  | 2%nat => Some (u32 (Z.shiftl (fget addr pte) 8))
  | 3%nat => Some (u32 (Z.shiftl (fget addr pte) 8))
  | _ => None
  end.
Definition vmp_pte_hw_paddr (pte : Z) (level : nat) : option Z :=
  match level with
  | 1%nat => Some (u32 (Z.shiftl (fget pfn pte) 12))
  | 2%nat => Some (u32 (Z.shiftl (fget addr pte) 4))
  | 3%nat => Some (u32 (Z.shiftl (fget addr pte) 4))
  | _ => None
  end.
Definition vmp_md_hw_pte_is_writeable (pte : Z) : bool := fget writeprotect pte =? 0.
Definition vmp_md_pte_hw_set_readonly (pte : Z) : Z := fset writeprotect 1 pte.
Definition vmp_md_soft_pte_pfn (pte : Z) : option Z :=
  match vmp_pte_characterise pte with
  | kPTEKindBusy | kPTEKindTrans | kPTEKindSwap => Some (fget sw_data pte)
  | _ => None
  end.
Definition vmp_md_soft_pte_forkpage (pte : Z) : option Z :=
  match vmp_pte_characterise pte with
  | kPTEKindFork => Some (u32 (HIGHER_HALF + Z.shiftl (fget sw_data pte) 3))
  | _ => None
  end.
(** [unpacked[level]] *)
Definition vmp_addr_unpack (vaddr : Z) (level : nat) : Z :=
  match level with
  | 0%nat => fget pgi vaddr
  | 1%nat => fget l1i vaddr
  | 2%nat => fget l2i vaddr
  | 3%nat => fget l3i vaddr
  | _ => 0
  end.
(** An entry of [vmp_md_setup_table_pointers] for the table at [phys]. *)
Definition table_pointer (uninit phys : Z) : Z :=
  fset table_type 3 (fset table_writeprotect 0 (fset table_used 0 (fset addr (Z.shiftr phys 4) uninit))).

(** ** Lemmas *)

Lemma is_valid_type pte : vmp_md_pte_is_valid pte = negb (fget type pte =? 0).
Proof. unfold vmp_md_pte_is_valid, fget. simpl. by rewrite Z.shiftr_0_r. Qed.
Lemma m68k_valid pte : fget type pte ≠ 0 → vmp_pte_characterise pte = kPTEKindValid.
Proof.
  intros Ht. unfold vmp_pte_characterise, vmp_md_pte_is_empty. rewrite is_valid_type, (proj2 (Z.eqb_neq _ 0)) by (by eapply fget_nonzero).
  by rewrite (proj2 (Z.eqb_neq _ 0)).
Qed.
Lemma m68k_soft old k d : soft_kind k ≠ 0 ∨ 0 < d < 2 ^ 28 →
  vmp_pte_characterise (fset sw_kind (soft_kind k) (fset sw_data d (fset sw_type 0 old))) =
  match k with kSoftPteKindSwap => kPTEKindSwap | kSoftPteKindBusy => kPTEKindBusy
             | kSoftPteKindTrans => kPTEKindTrans | kSoftPteKindFork => kPTEKindFork end.
Proof.
  intros Hk. set (pte := fset _ _ _). assert (fget sw_kind pte = soft_kind k) as Hkind.
  { unfold pte. apply fget_fset_small; [done|]. destruct k; simpl; lia. }
  assert (fget type pte = 0) as Ht by (unfold pte; change type with sw_type; by fields).
  unfold vmp_pte_characterise, vmp_md_pte_is_empty. rewrite is_valid_type, Ht, Hkind, (proj2 (Z.eqb_neq pte 0)).
  - by destruct k.
  - destruct Hk as [Hk|Hd]; [apply (fget_nonzero sw_kind); congruence|].
    apply (fget_nonzero sw_data). unfold pte. fields. lia.
Qed.
Lemma m68k_data k old d : 0 ≤ d < 2 ^ 28 → fget sw_data (fset sw_kind (soft_kind k) (fset sw_data d (fset sw_type 0 old))) = d.
Proof. intros Hd. by fields. Qed.

(** An m68k mapping entry, whatever its uninitialised bits, is characterised as
    valid and gives back the frame address and whether it may be written; a pointer to
    a table gives back the table's address; software entries stored over any old entry
    give back their frame, slot or fork page; and the indices of an address determine
    it. *)
Theorem m68k_entries_roundtrip old f w x c u slot phys fork vaddr :
  0 ≤ f < 2 ^ 20 → 0 < slot < 2 ^ 28 → 0 ≤ phys < 2 ^ 32 → phys mod 16 = 0 →
  HIGHER_HALF ≤ fork < 2 ^ 32 → fork mod 8 = 0 → 0 ≤ vaddr < 2 ^ 32 →
  (let pte := vmp_md_pte_create_hw old f w x c u in
   vmp_pte_characterise pte = kPTEKindValid ∧ vmp_pte_hw_paddr pte 1 = Some (f * PGSIZE) ∧ vmp_md_hw_pte_is_writeable pte = w ∧
   vmp_md_hw_pte_is_writeable (vmp_md_pte_hw_set_readonly pte) = false) ∧
  (let pte := table_pointer old phys in
   vmp_pte_characterise pte = kPTEKindValid ∧ vmp_pte_hw_paddr pte 2 = Some phys ∧ vmp_pte_hw_paddr pte 3 = Some phys) ∧
  vmp_md_soft_pte_pfn (vmp_md_pte_create_busy old f) = Some f ∧ vmp_md_soft_pte_pfn (vmp_md_pte_create_trans old f) = Some f ∧
  vmp_md_soft_pte_pfn (vmp_md_pte_create_swap old slot) = Some slot ∧
  vmp_md_soft_pte_forkpage (vmp_md_pte_create_fork old fork) = Some fork ∧
  vaddr = ((vmp_addr_unpack vaddr 3 * 128 + vmp_addr_unpack vaddr 2) * 64 + vmp_addr_unpack vaddr 1) * PGSIZE + vmp_addr_unpack vaddr 0.
Proof.
  intros Hf Hs Hp Hp16 Hfk Hfk8 Hv. unfold HIGHER_HALF in Hfk. cbv zeta.
  refine (conj _ (conj _ (conj _ (conj _ (conj _ (conj _ _)))))).
  - unfold vmp_md_pte_create_hw, vmp_md_hw_pte_is_writeable, vmp_md_pte_hw_set_readonly. split_and!.
    + apply m68k_valid. by fields.
    + unfold vmp_pte_hw_paddr. fields. rewrite Z.shiftl_mul_pow2 by lia. unfold PGSIZE, VMP_PAGE_SHIFT. f_equal. apply u32_small. lia.
    + fields. destruct w; by fields.
    + by fields.
  - unfold table_pointer. split_and!; [apply m68k_valid; change type with table_type; by fields|..].
    all: unfold vmp_pte_hw_paddr; rewrite !fget_fset_other by done; rewrite fget_fset_small by (done || (rewrite Z.shiftr_div_pow2 by lia; simpl; Z.div_mod_to_equations; lia)).
    all: f_equal; rewrite Z.shiftl_mul_pow2, Z.shiftr_div_pow2 by lia; change (2 ^ 4) with 16; rewrite u32_small; Z.div_mod_to_equations; lia.
  - unfold vmp_md_soft_pte_pfn, vmp_md_pte_create_busy. rewrite m68k_soft, m68k_data by (lia || by left). done.
  - unfold vmp_md_soft_pte_pfn, vmp_md_pte_create_trans. rewrite m68k_soft, m68k_data by (lia || by left). done.
  - unfold vmp_md_soft_pte_pfn, vmp_md_pte_create_swap. rewrite m68k_soft, m68k_data by (lia || by right). done.
  - unfold vmp_md_soft_pte_forkpage, vmp_md_pte_create_fork, HIGHER_HALF. rewrite u32_small, Z.shiftr_div_pow2 by lia. change (2 ^ 3) with 8.
    assert (0 ≤ (fork - 0x80000000) / 8 < 2 ^ 28) by (Z.div_mod_to_equations; lia).
    rewrite m68k_soft, m68k_data by (lia || by left). f_equal. rewrite Z.shiftl_mul_pow2 by lia. rewrite u32_small; Z.div_mod_to_equations; lia.
  - unfold vmp_addr_unpack, fget, PGSIZE, VMP_PAGE_SHIFT. simpl off. simpl len. rewrite !Z.land_ones, !Z.shiftr_div_pow2 by lia.
    change (2 ^ 0) with 1. change (2 ^ 7) with 128. change (2 ^ 6) with 64. change (2 ^ 12) with 4096. change (2 ^ 18) with 262144. change (2 ^ 25) with 33554432.
    Z.div_mod_to_equations. lia.
Qed.
Lemma m68k_entries_roundtrip_witness : vmp_md_soft_pte_pfn (vmp_md_pte_create_trans 77 5) = Some 5.
Proof. apply (m68k_entries_roundtrip 77 5 true true true true 1 0x1000 0x80000010 0xdeadb00f); unfold HIGHER_HALF; (lia || done). Defined.

(** At the upper levels the frame number is computed with a shift to the left of an
    address that is already shifted to the right by four. *)
Lemma m68k_table_pfn_wrong :
  let pte := table_pointer 0 0x5000 in
  vmp_pte_hw_paddr pte 2 = Some 0x5000 ∧ vmp_md_pte_hw_pfn pte 2 = Some 0x50000.
Proof. by vm_compute. Qed.
