(* ===== verification/Resident.v ===== *)
(** Resident pages: kernel/vm/resident.c.  The PFN database, the buddy allocator,
    and the life of a page: allocated, active, on the modified or standby queue,
    deleted, free.

    A page is its frame number, a pointer to a page table entry is the entry's
    physical address (the direct map is a constant offset), and memory is one 64-bit
    word per aligned physical address.  [vmp_pages_alloc_locked], which steals pages
    from page tables, is in PageAlloc.v. *)
From S2P Require Import Prelude Pte.
Local Open Scope Z_scope.

Module Resident.

Definition BUDDY_ORDERS : nat := 16.

Inductive vm_page_use :=
  | kPageUseDeleted | kPageUsePFNDB | kPageUseFree | kPageUseKWired
  | kPageUseAnonPrivate | kPageUseFileShared | kPageUseAnonShared | kPageUseAnonFork
  | kPageUsePML1 | kPageUsePML2 | kPageUsePML3 | kPageUsePML4
  | kPageUseVPML1 | kPageUseVPML2 | kPageUseVPML3 | kPageUseVPML4.
Global Instance vm_page_use_eq_dec : EqDecision vm_page_use.
Proof. solve_decision. Defined.

Record vm_page := Page {
  order : nat;
  max_order : nat;
  on_freelist : bool;
  use : vm_page_use;
  dirty : bool;
  busy : bool;
  nonzero_ptes : Z;
  noswap_ptes : Z;
  refcnt : Z;
  referent_pte : Z;
  owner : Z;                    (* owner or process; 0 is NULL *)
  drumslot : Z
}.
Definition with_order x p := Page x (max_order p) (on_freelist p) (use p) (dirty p) (busy p)
  (nonzero_ptes p) (noswap_ptes p) (refcnt p) (referent_pte p) (owner p) (drumslot p).
Definition with_max_order x p := Page (order p) x (on_freelist p) (use p) (dirty p) (busy p)
  (nonzero_ptes p) (noswap_ptes p) (refcnt p) (referent_pte p) (owner p) (drumslot p).
Definition with_on_freelist x p := Page (order p) (max_order p) x (use p) (dirty p) (busy p)
  (nonzero_ptes p) (noswap_ptes p) (refcnt p) (referent_pte p) (owner p) (drumslot p).
Definition with_use x p := Page (order p) (max_order p) (on_freelist p) x (dirty p) (busy p)
  (nonzero_ptes p) (noswap_ptes p) (refcnt p) (referent_pte p) (owner p) (drumslot p).
Definition with_refcnt x p := Page (order p) (max_order p) (on_freelist p) (use p) (dirty p) (busy p)
  (nonzero_ptes p) (noswap_ptes p) x (referent_pte p) (owner p) (drumslot p).

Definition with_dirty x p := Page (order p) (max_order p) (on_freelist p) (use p) x (busy p)
  (nonzero_ptes p) (noswap_ptes p) (refcnt p) (referent_pte p) (owner p) (drumslot p).
Definition with_ptes nz ns p := Page (order p) (max_order p) (on_freelist p) (use p) (dirty p) (busy p)
  nz ns (refcnt p) (referent_pte p) (owner p) (drumslot p).
Definition with_referent x p := Page (order p) (max_order p) (on_freelist p) (use p) (dirty p) (busy p)
  (nonzero_ptes p) (noswap_ptes p) (refcnt p) x (owner p) (drumslot p).
Definition with_owner x p := Page (order p) (max_order p) (on_freelist p) (use p) (dirty p) (busy p)
  (nonzero_ptes p) (noswap_ptes p) (refcnt p) (referent_pte p) x (drumslot p).
Definition with_drumslot x p := Page (order p) (max_order p) (on_freelist p) (use p) (dirty p) (busy p)
  (nonzero_ptes p) (noswap_ptes p) (refcnt p) (referent_pte p) (owner p) x.

(** The counters of [struct vm_stat]; [nreservedfree] is signed. *)
Inductive counter :=
  | npwired | nactive | nfree | nmodified | nstandby | ntotal | nreservedfree
  | ndeleted | nanonprivate | nanonfork | nfileshared | nanonshare
  | nprocpgtable | nprotopgtable | nkwired
  | n_table_pageins | n_table_pageouts.
Global Instance counter_eq_dec : EqDecision counter.
Proof. solve_decision. Defined.

Record pst := Pst {
  pfndb : gmap Z vm_page;
  buddy_queue : list (list Z);
  buddy_queue_npages : list Z;
  modified : list Z;            (* vm_pagequeue_modified *)
  standby : list Z;             (* vm_pagequeue_standby *)
  vmstat : counter → Z;
  balance_event : bool;         (* vmp_balance_set_scheduler_event, signalled *)
  writer_event : bool;          (* vmp_writer_event, signalled *)
  mem : Z → Z
}.
Definition set_pfndb x s := Pst x (buddy_queue s) (buddy_queue_npages s) (modified s) (standby s) (vmstat s) (balance_event s) (writer_event s) (mem s).
Definition set_buddy x y s := Pst (pfndb s) x y (modified s) (standby s) (vmstat s) (balance_event s) (writer_event s) (mem s).
Definition set_modified x s := Pst (pfndb s) (buddy_queue s) (buddy_queue_npages s) x (standby s) (vmstat s) (balance_event s) (writer_event s) (mem s).
Definition set_standby x s := Pst (pfndb s) (buddy_queue s) (buddy_queue_npages s) (modified s) x (vmstat s) (balance_event s) (writer_event s) (mem s).
Definition set_vmstat x s := Pst (pfndb s) (buddy_queue s) (buddy_queue_npages s) (modified s) (standby s) x (balance_event s) (writer_event s) (mem s).
Definition set_events b w s := Pst (pfndb s) (buddy_queue s) (buddy_queue_npages s) (modified s) (standby s) (vmstat s) b w (mem s).
Definition set_mem x s := Pst (pfndb s) (buddy_queue s) (buddy_queue_npages s) (modified s) (standby s) (vmstat s) (balance_event s) (writer_event s) x.

(** ** Access *)

Definition page_at (p : Z) : kern pst vm_page := s ← get; deref "page" (pfndb s !! p).
Definition page_set (p : Z) (x : vm_page) : kern pst () := modify (λ s, set_pfndb (<[p := x]> (pfndb s)) s).
Definition page_upd (p : Z) (f : vm_page → vm_page) : kern pst () := x ← page_at p; page_set p (f x).

(** The word at [a], and [memset] of [n] pages to the byte repeated in [v]. *)
Definition word_at (a : Z) : kern pst Z := gets (λ s, mem s a).
Definition word_set (a v : Z) : kern pst () := modify (λ s, set_mem (λ b, if b =? a then v else mem s b) s).
Definition mem_fill (page n v : Z) : kern pst () :=
  modify (λ s, set_mem (λ b, if (page * PGSIZE <=? b) && (b <? (page + n) * PGSIZE) then v else mem s b) s).
Definition vm_paddr_to_page (paddr : Z) : Z := Z.shiftr paddr VMP_PAGE_SHIFT.

(** [vmstat.c += v]; unsigned counters wrap. *)
Definition stat_add (c : counter) (v : Z) : kern pst () :=
  modify (λ s, set_vmstat (λ c', if decide (c' = c)
    then (if decide (c = nreservedfree) then vmstat s c + v else u64 (vmstat s c + v))
    else vmstat s c') s).

(** [buddy_queue[k]] and its count. *)
Definition queue_at (k : nat) : kern pst (list Z) := s ← get; deref "buddy_queue" (buddy_queue s !! k).
Definition queue_set (k : nat) (q : list Z) : kern pst () :=
  modify (λ s, set_buddy (<[k := q]> (buddy_queue s)) (buddy_queue_npages s) s).
Definition npages_add (k : nat) (v : Z) : kern pst () :=
  modify (λ s, set_buddy (buddy_queue s) (alter (λ n, u64 (n + v)) k (buddy_queue_npages s)) s).
Definition queue_insert_head (k : nat) (p : Z) : kern pst () := q ← queue_at k; queue_set k (p :: q).
Definition queue_remove (k : nat) (p : Z) : kern pst () :=
  q ← queue_at k; q' ← deref "TAILQ_REMOVE(buddy_queue)" (q_remove p q); queue_set k q'.

Definition vm_order_to_npages (order : nat) : Z := 2 ^ Z.of_nat order.

(** ** Low memory (vmp_dynamics.h) *)

Definition vmp_free_pages_low (s : pst) : bool := vmstat s nfree <? 64.
Definition vmp_avail_pages_very_low (s : pst) : bool := u64 (vmstat s nfree + vmstat s nstandby) <? 96.
Definition vmp_avail_pages_low (s : pst) : bool := u64 (vmstat s nfree + vmstat s nstandby) <? 168.
Definition vmp_avail_pages_fairly_low (s : pst) : bool :=
  u64 (vmstat s nfree + vmstat s nstandby) <? Z.max 384 (vmstat s ntotal / 256).
Definition vmp_writer_should_run (s : pst) : bool :=
  if (16 <=? vmstat s nmodified) && vmp_avail_pages_fairly_low s then true
  else vmstat s ntotal / 128 <=? vmstat s nmodified.
Definition vmp_update_events : kern pst () :=
  modify (λ s, set_events (vmp_avail_pages_low s || balance_event s) (vmp_writer_should_run s || writer_event s) s).

(** ** Adding memory *)

(** The largest order up to [k] at which a block at address [i] ends by [limit]. *)
Fixpoint fit_order (k : nat) (i limit : Z) : option nat :=
  if i + vm_order_to_npages k * PGSIZE <=? limit then Some k
  else match k with O => None | S k' => fit_order k' i limit end.
Definition block_order (i limit : Z) : option nat :=
  fit_order (Nat.min (BUDDY_ORDERS - 1) (ctz (u32 (Z.shiftr i VMP_PAGE_SHIFT)))) i limit.

Definition blank_page (k : nat) (old : option vm_page) : vm_page :=
  Page k (default O (max_order <$> old)) false kPageUseFree (default false (dirty <$> old)) (default false (busy <$> old))
    0 (default 0 (noswap_ptes <$> old)) 0 0 (default 0 (owner <$> old)) (default 0 (drumslot <$> old)).

(** The first loop of [vm_region_add], [n] pages from address [i]. *)
Fixpoint region_pages (n : nat) (i limit : Z) : kern pst () :=
  match n with
  | O => mret ()
  | S n' =>
      k ← deref "order--" (block_order i limit);
      let pfn := Z.shiftr i VMP_PAGE_SHIFT in
      modify (λ s, set_pfndb (<[pfn := blank_page k (pfndb s !! pfn)]> (pfndb s)) s);;
      region_pages n' (i + PGSIZE) limit
  end.
(** The second: each round advances by a page at least. *)
Fixpoint region_blocks (fuel : nat) (i limit : Z) : kern pst () :=
  if i <? limit then
    match fuel with
    | O => spin
    | S fuel' =>
        let pfn := Z.shiftr i VMP_PAGE_SHIFT in
        x ← page_at pfn;
        queue_insert_head (order x) pfn;;
        npages_add (order x) 1;;
        page_set pfn (with_max_order (order x) (with_on_freelist true x));;
        region_blocks fuel' (i + vm_order_to_npages (order x) * PGSIZE) limit
    end
  else mret ().
Definition vm_region_add (base limit : Z) : kern pst () :=
  if base =? limit then mret ()
  else
    let n := Z.to_nat ((limit - base + PGSIZE - 1) / PGSIZE) in
    region_pages n base limit;;
    region_blocks n base limit;;
    stat_add nfree ((limit - base) / PGSIZE);;
    stat_add ntotal ((limit - base) / PGSIZE).

(** ** Taking a particular block out of the free lists *)

Fixpoint unfree_find (fuel : nat) (p : Z) : kern pst Z :=
  x ← page_at p;
  if on_freelist x then mret p
  else match fuel with O => spin | S fuel' => unfree_find fuel' (p - vm_order_to_npages (order x)) end.
Fixpoint unfree_split (fuel : nat) (initial page : Z) (want : nat) : kern pst Z :=
  x ← page_at initial;
  if decide (order x = want) then mret initial
  else match fuel with
  | O => spin
  | S fuel' =>
      let second := initial + vm_order_to_npages (order x - 1) in
      y ← page_at second;
      let new_order := order y in
      kassert "new_order == initial->order - 1" (bool_decide (new_order = order x - 1)%nat);;
      kassert "initial->on_freelist" (on_freelist x);;
      kassert "!second->on_freelist" (negb (on_freelist y));;
      page_set second (with_on_freelist true y);;
      queue_insert_head new_order second;;
      queue_remove (order x) initial;;
      page_upd initial (with_order new_order);;
      queue_insert_head new_order initial;;
      unfree_split fuel' (if second <=? page then second else initial) page want
  end.
(** The search goes down from [page]. *)
Definition vmp_page_unfree (page : Z) (want : nat) : kern pst () :=
  initial ← unfree_find (Z.to_nat page) page;
  x ← page_at initial;
  kassert "initial->order >= order" (bool_decide (want <= order x)%nat);;
  initial ← unfree_split (order x) initial page want;
  kassert "initial == page" (bool_decide (initial = page));;
  x ← page_at initial;
  kassert "initial->on_freelist" (on_freelist x);;
  queue_remove want page;;
  stat_add nfree (- vm_order_to_npages want);;
  stat_add npwired (vm_order_to_npages want);;
  page_upd initial (with_on_freelist false).

Fixpoint range_unfree (fuel : nat) (i limit : Z) : kern pst () :=
  if i <? limit then
    match fuel with
    | O => spin
    | S fuel' =>
        k ← deref "order--" (block_order i limit);
        vmp_page_unfree (Z.shiftr i VMP_PAGE_SHIFT) k;;
        range_unfree fuel' (i + vm_order_to_npages k * PGSIZE) limit
    end
  else mret ().
Definition vmp_range_unfree (base limit : Z) : kern pst () :=
  let base := ROUNDDOWN base PGSIZE in
  let limit := ROUNDUP limit PGSIZE in
  range_unfree (Z.to_nat ((limit - base) / PGSIZE)) base limit.

(** ** Use counters *)

(** The counter of a use; [None] is [kfatal]. *)
Definition use_counter (u : vm_page_use) : option counter :=
  match u with
  | kPageUseDeleted => Some ndeleted
  | kPageUseAnonShared => Some nanonshare
  | kPageUseAnonPrivate => Some nanonprivate
  | kPageUseAnonFork => Some nanonfork
  | kPageUseFileShared => Some nfileshared
  | kPageUseKWired => Some nkwired
  | kPageUsePML4 | kPageUsePML3 | kPageUsePML2 | kPageUsePML1 => Some nprocpgtable
  | kPageUseVPML4 | kPageUseVPML3 | kPageUseVPML2 | kPageUseVPML1 => Some nprotopgtable
  | kPageUsePFNDB | kPageUseFree => None
  end.
Definition update_page_use_stats (u : vm_page_use) (value : Z) : kern pst () :=
  c ← deref "update_page_use_stats" (use_counter u); stat_add c value.

(** ** Freeing *)

Definition page_buddy (p : Z) (k : nat) : Z :=
  Z.shiftr (Z.lxor (Z.shiftl p VMP_PAGE_SHIFT) (vm_order_to_npages k * PGSIZE)) VMP_PAGE_SHIFT.

(** The loop of [page_free]: [page] grows while its buddy is free.  Every round
    raises its order, so [BUDDY_ORDERS] rounds are enough. *)
Fixpoint page_merge (fuel : nat) (page : Z) : kern pst Z :=
  x ← page_at page;
  if decide (order x < max_order x)%nat then
    let buddy := page_buddy page (order x) in
    y ← page_at buddy;
    if negb (bool_decide (order y = order x)) then mret page
    else if negb (on_freelist y) then mret page
    else match fuel with
    | O => spin
    | S fuel' =>
        queue_remove (order y) buddy;;
        npages_add (order y) (-1);;
        let page := if buddy <? page then buddy else page in
        page_upd page (λ x, with_order (S (order x)) x);;
        page_merge fuel' page
    end
  else mret page.
Definition page_free (page : Z) : kern pst () :=
  page ← page_merge BUDDY_ORDERS page;
  x ← page_at page;
  queue_insert_head (order x) page;;
  npages_add (order x) 1;;
  page_upd page (with_on_freelist true);;
  mem_fill page 1 0x6767676767676767.

Definition vmp_page_free_locked (page : Z) : kern pst () :=
  x ← page_at page;
  let npages := vm_order_to_npages (order x) in
  kassert "page->use == kPageUseDeleted" (bool_decide (use x = kPageUseDeleted));;
  kassert "page->refcnt == 0" (refcnt x =? 0);;
  page_set page (Page (order x) (max_order x) (on_freelist x) kPageUseFree false (busy x)
                   0 (noswap_ptes x) (refcnt x) 0 (owner x) (drumslot x));;
  stat_add nfree npages;;
  stat_add nreservedfree npages;;
  stat_add ndeleted (- npages);;
  page_free page.

(** ** The life of a page *)

Definition modified_remove (p : Z) : kern pst () :=
  s ← get; q ← deref "TAILQ_REMOVE(vm_pagequeue_modified)" (q_remove p (modified s)); modify (set_modified q).
Definition standby_remove (p : Z) : kern pst () :=
  s ← get; q ← deref "TAILQ_REMOVE(vm_pagequeue_standby)" (q_remove p (standby s)); modify (set_standby q).

Definition vmp_page_delete_locked (page : Z) : kern pst () :=
  x ← page_at page;
  let npages := vm_order_to_npages (order x) in
  kassert "page->use != kPageUseDeleted" (negb (bool_decide (use x = kPageUseDeleted)));;
  kassert "!page->busy" (negb (busy x));;
  update_page_use_stats (use x) (- npages);;
  stat_add ndeleted npages;;
  page_set page (with_use kPageUseDeleted x);;
  if (refcnt x =? 0) && dirty x then
    modified_remove page;; stat_add nmodified (- npages);; vmp_page_free_locked page
  else if refcnt x =? 0 then
    standby_remove page;; stat_add nstandby (- npages);; vmp_page_free_locked page
  else mret ().

(** [refcnt] is 16 bits wide. *)
Definition u16 (x : Z) : Z := x mod 2 ^ 16.
Definition vmp_page_retain_locked (page : Z) : kern pst () :=
  x ← page_at page;
  let npages := vm_order_to_npages (order x) in
  page_set page (with_refcnt (u16 (refcnt x + 1)) x);;
  when (refcnt x =? 0)
    (kassert "page->use != kPageUseDeleted" (negb (bool_decide (use x = kPageUseDeleted)));;
     if dirty x then modified_remove page;; stat_add nmodified (- npages);; stat_add nactive npages
     else standby_remove page;; stat_add nstandby (- npages);; stat_add nactive npages;; vmp_update_events).

Section ptes.
Context `{PteFormat}.

(** A page with an owner that maps it must be in transition when its last
    reference goes. *)
Definition referent_check (page : Z) (x : vm_page) : kern pst () :=
  match use x with
  | kPageUsePML1 | kPageUsePML2 | kPageUsePML3 | kPageUseAnonShared | kPageUseAnonPrivate =>
      thepte ← word_at (referent_pte x);
      kassert "vmp_pte_characterise(thepte) == kPTEKindTrans" (bool_decide (vmp_pte_characterise thepte = kPTEKindTrans));;
      pfn ← deref "vmp_md_soft_pte_pfn" (vmp_md_soft_pte_pfn thepte);
      kassert "vmp_md_soft_pte_pfn(thepte) == vm_page_pfn(page)" (pfn =? page)
  | kPageUseAnonFork | kPageUseFileShared => mret ()
  | _ => fatal "Release page of unexpected type"
  end.

Definition vmp_page_release_locked (page : Z) : kern pst () :=
  x ← page_at page;
  let npages := vm_order_to_npages (order x) in
  kassert "page->refcnt > 0" (0 <? refcnt x);;
  page_set page (with_refcnt (refcnt x - 1) x);;
  when (refcnt x =? 1)
    (stat_add nactive (- npages);;
     if decide (use x = kPageUseDeleted) then vmp_page_free_locked page
     else
       referent_check page x;;
       if dirty x then
         modify (λ s, set_modified (modified s ++ [page]) s);; stat_add nmodified npages;; vmp_update_events
       else modify (λ s, set_standby (standby s ++ [page]) s);; stat_add nstandby npages).

End ptes.

(** ** Splitting free blocks *)

(** The first order from [k] on with a free block; [n] orders are left. *)
Fixpoint find_order (n k : nat) : kern pst nat :=
  q ← queue_at k;
  match q with
  | _ :: _ => mret k
  | [] => match n with
          | O | S O => fatal "out of pages"
          | S n' => find_order n' (S k)
          end
  end.
(** Halving the block at the head of queue [k] down to [want]. *)
Fixpoint split_down (k want : nat) : kern pst () :=
  if decide (k = want) then mret ()
  else match k with
  | O => spin
  | S k' =>
      q ← queue_at k;
      page ← deref "TAILQ_FIRST(buddy_queue)" (head q);
      x ← page_at page;
      let buddy := page + Z.quot (vm_order_to_npages (order x)) 2 in
      y ← page_at buddy;
      kassert "buddy->order == page->order - 1" (bool_decide (Z.of_nat (order y) = Z.of_nat (order x) - 1));;
      queue_remove k page;;
      queue_insert_head k' page;;
      queue_insert_head k' buddy;;
      npages_add k (-1);;
      npages_add k' 2;;
      page_set buddy (with_on_freelist true y);;
      page_set page (with_order (order x - 1) x);;
      split_down k' want
  end.
End Resident.
