(* ===== verification/Tables.v ===== *)
(** Page table pages: the accounting of kernel/vm/tables.c, the table pointers of the
    64-bit ports (kernel/vm/amd64/vm_amd64.c and its siblings), and walking the
    tables.  Every page of a table counts its nonzero entries and those that keep it
    in memory; its entry in the table above follows the counts. *)
From S2P Require Import Prelude Pte Resident.
Import Resident.
Local Open Scope Z_scope.

Module Tables.

Definition VMP_TABLE_LEVELS : nat := 4.
Definition i16 (x : Z) : Z := (x + 2 ^ 15) mod 2 ^ 16 - 2 ^ 15.

Definition page_is_root_table (x : vm_page) : bool :=
  bool_decide (use x = kPageUsePML4 ∨ use x = kPageUseVPML4).
Definition use_is_hw_table (u : vm_page_use) : bool :=
  match u with kPageUsePML1 | kPageUsePML2 | kPageUsePML3 | kPageUsePML4 => true | _ => false end.

(** Only the verdict of the check is modelled, not its report. *)
Definition check_page_consistency (x : vm_page) : kern pst () :=
  if (nonzero_ptes x <? 10000) && (refcnt x <? noswap_ptes x) then fatal "Inconsistency in pagetable page!" else mret ().

Inductive vmp_table_old_state := kWasZero | kWasSwap | kWasTrans.
Global Instance vmp_table_old_state_eq_dec : EqDecision vmp_table_old_state.
Proof. solve_decision. Defined.

Section tables.
Context `{PteFormat}.

Definition vmp_pagetable_page_noswap_pte_created (page : Z) (is_new : bool) : kern pst () :=
  x ← page_at page;
  check_page_consistency x;;
  vmp_page_retain_locked page;;
  page_upd page (λ x, with_ptes (if is_new then i16 (nonzero_ptes x + 1) else nonzero_ptes x) (i16 (noswap_ptes x + 1)) x).
Definition vmp_pagetable_page_nonzero_pte_created (page : Z) : kern pst () :=
  x ← page_at page;
  check_page_consistency x;;
  vmp_page_retain_locked page;;
  page_upd page (λ x, with_ptes (i16 (nonzero_ptes x + 1)) (noswap_ptes x) x).

Definition vmp_md_trans_table_pointers (dirpte tablepage : Z) : kern pst () :=
  word_set dirpte (vmp_md_pte_create_trans tablepage).
Definition vmp_md_setup_table_pointers (dirpage tablepage dirpte : Z) (old_state : vmp_table_old_state) : kern pst () :=
  word_set dirpte (vmp_md_pte_create_table tablepage);;
  when (negb (bool_decide (old_state = kWasTrans)))
    (vmp_pagetable_page_noswap_pte_created dirpage (bool_decide (old_state = kWasZero))).
Definition vmp_md_busy_table_pointers (dirpage dirpte tablepage : Z) : kern pst () :=
  word_set dirpte (vmp_md_pte_create_busy tablepage);;
  vmp_pagetable_page_noswap_pte_created dirpage true.

(** The entry that refers to [page], whose last entry that keeps it in memory went. *)
Definition table_to_trans (page : Z) (x : vm_page) : kern pst () :=
  if use_is_hw_table (use x) then vmp_md_trans_table_pointers (referent_pte x) page else fatal "Implement me?".

(** [pte_deleted] is [vmp_pagetable_page_pte_deleted], which calls this for the table above. *)
Definition vmp_md_delete_table_pointers (pte_deleted : Z → bool → kern pst ()) (dirpage dirpte : Z) : kern pst () :=
  word_set dirpte 0;; pte_deleted dirpage false.

(** The recursion goes up a level each time. *)
Fixpoint vmp_pagetable_page_pte_deleted (fuel : nat) (page : Z) (was_swap : bool) : kern pst () :=
  x ← page_at page;
  check_page_consistency x;;
  page_upd page (λ x, with_ptes (i16 (nonzero_ptes x - 1)) (noswap_ptes x) x);;
  if (nonzero_ptes x =? 1) && negb (page_is_root_table x) then
    vmp_page_delete_locked page;;
    y ← page_at page;
    kassert "page->referent_pte != 0" (negb (referent_pte y =? 0));;
    let dirpage := vm_paddr_to_page (referent_pte y) in
    match fuel with
    | O => spin
    | S fuel' =>
        if use_is_hw_table (use x) then
          vmp_md_delete_table_pointers (vmp_pagetable_page_pte_deleted fuel') dirpage (referent_pte y)
        else word_set (referent_pte y) 0;; vmp_pagetable_page_pte_deleted fuel' dirpage false
    end;;
    page_upd page (λ x, with_referent 0 (with_ptes (nonzero_ptes x) 0 x));;
    vmp_page_release_locked page
  else
    when (negb was_swap)
      (page_upd page (λ x, with_ptes (nonzero_ptes x) (i16 (noswap_ptes x - 1)) x);;
       when ((noswap_ptes x =? 1) && negb (page_is_root_table x)) (table_to_trans page x);;
       page_upd page (with_dirty true);;
       vmp_page_release_locked page).
Definition pte_deleted : Z → bool → kern pst () := vmp_pagetable_page_pte_deleted VMP_TABLE_LEVELS.

Definition vmp_pagetable_page_pte_became_swap (page : Z) : kern pst () :=
  x ← page_at page;
  page_upd page (λ x, with_ptes (nonzero_ptes x) (i16 (noswap_ptes x - 1)) x);;
  when ((noswap_ptes x =? 1) && negb (page_is_root_table x))
    (kassert "page->referent_pte != 0" (negb (referent_pte x =? 0));; table_to_trans page x);;
  page_upd page (with_dirty true);;
  vmp_page_release_locked page.
Definition vmp_md_swap_table_pointers (dirpage dirpte drumslot : Z) : kern pst () :=
  word_set dirpte (vmp_md_pte_create_swap drumslot);;
  vmp_pagetable_page_pte_became_swap dirpage.

(** The pages pinned for a walk, the leaf table first; [None] is NULL. *)
Fixpoint wire_state_release (prototype : bool) (pages : list (option Z)) : kern pst () :=
  match pages with
  | [] => mret ()
  | None :: rest => wire_state_release prototype rest
  | Some page :: rest =>
      when (negb prototype) (x ← page_at page; kassert "pgtable_pages[i]->process != NULL" (negb (owner x =? 0)));;
      pte_deleted page false;;
      wire_state_release prototype rest
  end.
Definition vmp_pte_wire_state_release (pages : list (option Z)) (prototype : bool) : kern pst () :=
  wire_state_release prototype (take 4 pages).

(** The entries of a table that was paged in: only swap entries can be there. *)
Fixpoint setup_pte_counts (n : nat) (pte : Z) (page : Z) : kern pst () :=
  match n with
  | O => mret ()
  | S n' =>
      w ← word_at pte;
      match vmp_pte_characterise w with
      | kPTEKindSwap => page_upd page (λ x, with_ptes (i16 (nonzero_ptes x + 1)) (noswap_ptes x) x)
      | kPTEKindZero => mret ()
      | _ => fatal "Unexpected PTE kind in paged-in page!"
      end;;
      setup_pte_counts n' (pte + 8) page
  end.
End tables.
End Tables.
