(* ===== verification/PageAlloc.v ===== *)
(** Page allocation (kernel/vm/resident.c): stealing standby pages and taking a block
    from the buddy allocator; and walking the page tables to a page's entry, making
    the tables that are missing (kernel/vm/tables.c). *)
From S2P Require Import Prelude Pte Resident Tables.
Import Resident Tables.
Local Open Scope Z_scope.

Module PageAlloc.
Section alloc.
Context `{PteFormat}.

(** The entry that refers to a standby page is made to say where the page is now. *)
Definition steal_entry (x : vm_page) : kern pst () :=
  pte ← word_at (referent_pte x);
  let dirpage := vm_paddr_to_page (referent_pte x) in
  match use x with
  | kPageUsePML1 | kPageUsePML2 | kPageUsePML3 =>
      stat_add n_table_pageouts 1;;
      kassert "vmp_pte_characterise(pte) == kPTEKindTrans" (bool_decide (vmp_pte_characterise pte = kPTEKindTrans));;
      kassert "page->process" (negb (owner x =? 0));;
      vmp_md_swap_table_pointers dirpage (referent_pte x) (drumslot x)
  | kPageUseAnonShared | kPageUseAnonPrivate =>
      kassert "vmp_pte_characterise(pte) == kPTEKindTrans" (bool_decide (vmp_pte_characterise pte = kPTEKindTrans));;
      word_set (referent_pte x) (vmp_md_pte_create_swap (drumslot x));;
      kassert "page->process" (negb (owner x =? 0));;
      vmp_pagetable_page_pte_became_swap dirpage
  | kPageUseFileShared =>
      kassert "vmp_pte_characterise(pte) == kPTEKindValid" (bool_decide (vmp_pte_characterise pte = kPTEKindValid));;
      word_set (referent_pte x) 0;;
      pte_deleted dirpage false
  | kPageUseAnonFork =>
      kassert "vmp_pte_characterise(pte) == kPTEKindValid" (bool_decide (vmp_pte_characterise pte = kPTEKindValid));;
      word_set (referent_pte x) (vmp_md_pte_create_swap (drumslot x))
  | _ => fatal "Can't steal page of use"
  end.
Definition vmp_page_steal (page : Z) : kern pst () :=
  x ← page_at page;
  kassert "page->refcnt == 0" (refcnt x =? 0);;
  kassert "!page->dirty" (negb (dirty x));;
  steal_entry x;;
  page_upd page (with_refcnt 1);;
  stat_add nactive 1;;
  stat_add nstandby (-1);;
  vmp_page_delete_locked page;;
  vmp_page_release_locked page.

(** Whether the allocation can go on. *)
Definition reclaim (must : bool) : kern pst bool :=
  s ← get;
  if vmp_avail_pages_very_low s && negb must then mret false
  else if vmp_free_pages_low s then
    match standby s with
    | [] => mret must
    | page :: rest => modify (set_standby rest);; vmp_page_steal page;; mret true
    end
  else mret true.

Definition alloc_page (u : vm_page_use) (x : vm_page) : vm_page :=
  Page (order x) (max_order x) false u false false 0 0 1 0 0 0.

(** [None] is the return value -1. *)
Definition vmp_pages_alloc_locked (want : nat) (u : vm_page_use) (must : bool) : kern pst (option Z) :=
  ok ← reclaim must;
  if ok : bool then
    kassert "order < BUDDY_ORDERS" (bool_decide (want < BUDDY_ORDERS)%nat);;
    k ← find_order (BUDDY_ORDERS - want) want;
    split_down k want;;
    q ← queue_at want;
    page ← deref "TAILQ_FIRST(buddy_queue)" (head q);
    queue_remove want page;;
    npages_add want (-1);;
    x ← page_at page;
    page_set page (alloc_page u x);;
    let npages := vm_order_to_npages want in
    stat_add nfree (- npages);;
    stat_add nreservedfree (- npages);;
    stat_add nactive npages;;
    update_page_use_stats u npages;;
    mem_fill page npages 0;;
    vmp_update_events;;
    mret (Some page)
  else mret None.
Definition vmp_page_alloc_locked (u : vm_page_use) (must : bool) : kern pst (option Z) :=
  vmp_pages_alloc_locked 0 u must.
End alloc.
End PageAlloc.
