(* ===== verification/BuddyProofs.v ===== *)
(** The buddy allocator (kernel/vm/resident.c): the blocks tile the memory, the
    free lists hold exactly the free ones, and splitting, merging, allocating and
    freeing keep it so. *)
From S2P Require Import Prelude Pte Resident.
Import Resident.
Local Open Scope Z_scope.

(** ** Arithmetic of blocks *)

Definition size (k : nat) : Z := 2 ^ Z.of_nat k.
Definition aligned (p : Z) (k : nat) : Prop := (size k | p).
Definition inside (y p : Z) (k : nat) : Prop := p ≤ y < p + size k.

Lemma size_pos k : 0 < size k.
Proof. unfold size. lia. Qed.
Lemma size_S k : size (S k) = 2 * size k.
Proof. unfold size. rewrite Nat2Z.inj_succ, Z.pow_succ_r by lia. done. Qed.
Lemma size_split k m : (k ≤ m)%nat → ∃ c, 0 < c ∧ size m = c * size k.
Proof.
  intros Hkm. exists (2 ^ Z.of_nat (m - k)). split; [lia|]. unfold size. rewrite <-Z.pow_add_r by lia. f_equal. lia.
Qed.
Lemma aligned_le p k m : (k ≤ m)%nat → aligned p m → aligned p k.
Proof. intros Hkm [c ->]. destruct (size_split k m Hkm) as (d & _ & ->). exists (c * d). lia. Qed.

(** Inside an aligned block only its start is aligned as much. *)
Lemma aligned_head h b m k : (m ≤ k)%nat → aligned h m → aligned b k → inside b h m → b = h.
Proof.
  intros Hmk [c ->] Hb [Hl Hu]. apply (aligned_le b m k Hmk) in Hb as [d ->]. pose proof (size_pos m).
  assert (c ≤ d) by nia. assert (d < c + 1) by nia. f_equal. lia.
Qed.
(** The block of order [k] at [p] lies in the block of order [m] it starts in. *)
Lemma aligned_sub h p m k y : (k ≤ m)%nat → aligned h m → aligned p k → inside p h m → inside y p k → inside y h m.
Proof.
  intros Hkm [c ->] Hp [Hl Hu] [Hyl Hyu]. destruct (size_split k m Hkm) as (e & He & Hsz). destruct Hp as [d ->].
  unfold inside. pose proof (size_pos k). rewrite Hsz in *.
  assert (c * e ≤ d) by nia. assert (d + 1 ≤ c * e + e) by nia. nia.
Qed.

(** ** The buddy *)

Lemma page_buddy_xor p k : page_buddy p k = Z.lxor p (size k).
Proof.
  unfold page_buddy, vm_order_to_npages, PGSIZE. rewrite <-Z.shiftl_mul_pow2 by (unfold VMP_PAGE_SHIFT; lia).
  rewrite Z.shiftr_lxor, !Z.shiftr_shiftl_l by (unfold VMP_PAGE_SHIFT; lia).
  by rewrite Z.sub_diag, !Z.shiftl_0_r.
Qed.
(** Even blocks have their buddy above, odd ones below. *)
Lemma buddy_even c k : Z.lxor (2 * c * size k) (size k) = 2 * c * size k + size k.
Proof.
  rewrite <-Z.add_nocarry_lxor; [done|]. unfold size. rewrite <-Z.shiftl_mul_pow2, <-(Z.mul_1_l (2 ^ _)), <-Z.shiftl_mul_pow2 by lia.
  rewrite <-Z.shiftl_land. replace (Z.land (2 * c) 1) with 0; [by rewrite Z.shiftl_0_l|].
  change 1 with (Z.ones 1). rewrite Z.land_ones by lia. change (2 ^ 1) with 2. rewrite Z.mul_comm, Z.mod_mul; lia.
Qed.
Lemma buddy_odd c k : Z.lxor ((2 * c + 1) * size k) (size k) = 2 * c * size k.
Proof.
  replace ((2 * c + 1) * size k) with (2 * c * size k + size k) by lia. rewrite <-buddy_even.
  by rewrite Z.lxor_assoc, Z.lxor_nilpotent, Z.lxor_0_r.
Qed.
Lemma buddy_cases p k : aligned p k →
  (aligned p (S k) ∧ page_buddy p k = p + size k) ∨ (aligned (p - size k) (S k) ∧ page_buddy p k = p - size k).
Proof.
  intros [c ->]. rewrite page_buddy_xor. unfold aligned. rewrite size_S.
  destruct (Z.Even_or_Odd c) as [[d ->]|[d ->]].
  - left. rewrite buddy_even. split; [exists d; lia|lia].
  - right. rewrite buddy_odd. split; [exists d; lia|lia].
Qed.

(** ** Trailing zeros *)

Lemma ctz_div x : 0 < x → ∃ c, x = (2 * c + 1) * size (ctz x).
Proof.
  destruct x as [|p|p]; try lia. intros _. simpl. induction p as [p IH|p IH|]; simpl ctz_pos.
  - exists (Z.pos p). unfold size. simpl. lia.
  - destruct IH as [c Hc]. exists c. rewrite size_S. lia.
  - exists 0. done.
Qed.
Lemma odd_size_inj c d k m : (2 * c + 1) * size k = (2 * d + 1) * size m → k = m.
Proof.
  intros Heq. destruct (Nat.lt_trichotomy k m) as [Hlt|[->|Hlt]]; [|done|]; exfalso.
  - destruct (size_split (S k) m Hlt) as (e & _ & He). rewrite size_S in He. pose proof (size_pos k). rewrite He in Heq.
    assert (2 * c + 1 = 2 * ((2 * d + 1) * e)) by (apply (Z.mul_reg_r _ _ (size k)); lia). lia.
  - destruct (size_split (S m) k Hlt) as (e & _ & He). rewrite size_S in He. pose proof (size_pos m). rewrite He in Heq.
    assert (2 * d + 1 = 2 * ((2 * c + 1) * e)) by (apply (Z.mul_reg_r _ _ (size m)); lia). lia.
Qed.
Lemma ctz_odd c k : 0 < (2 * c + 1) * size k → ctz ((2 * c + 1) * size k) = k.
Proof. intros Hpos. destruct (ctz_div _ Hpos) as [d Hd]. symmetry. by eapply odd_size_inj. Qed.
(** The middle of an aligned block. *)
Lemma ctz_middle p k : 0 ≤ p → aligned p (S k) → ctz (p + size k) = k.
Proof.
  intros Hp [c ->]. rewrite size_S in *. pose proof (size_pos k).
  replace (c * (2 * size k) + size k) with ((2 * c + 1) * size k) by lia. apply ctz_odd. nia.
Qed.

(** ** Blocks *)

(** What a block is: on a free list, allocated, or being freed. *)
Inductive bstate := Free | Alloc | Floating.
(** The blocks by their first page, with order and state. *)
Notation blocks := (gmap Z (nat * bstate)).

Definition covered (B : blocks) (y : Z) : Prop := ∃ p k st, B !! p = Some (k, st) ∧ inside y p k.

(** Frame numbers are below 2^52. *)
Record blocks_ok (B : blocks) : Prop := BlocksOk {
  bk_block : ∀ p k st, B !! p = Some (k, st) → (k < BUDDY_ORDERS)%nat ∧ 0 ≤ p ∧ p + size k ≤ 2 ^ 52 ∧ aligned p k;
  bk_disjoint : ∀ p k st p' k' st', B !! p = Some (k, st) → B !! p' = Some (k', st') → p < p' → p + size k ≤ p'
}.

Definition split_at (B : blocks) (p : Z) (k : nat) (st : bstate) : blocks :=
  <[p := (k, st)]> (<[p + size k := (k, Free)]> B).
Definition merge_at (B : blocks) (p : Z) (k : nat) (st : bstate) : blocks :=
  <[p := (S k, st)]> (delete (p + size k) B).

(** Case analysis on the lookups in the hypotheses. *)
Ltac lookups :=
  repeat match goal with
  | H : <[_ := _]> _ !! _ = Some _ |- _ => apply lookup_insert_Some in H as [[? ?]|[? H]]
  | H : delete _ _ !! _ = Some _ |- _ => apply lookup_delete_Some in H as [? H]
  | H : (_, _) = (_, _) |- _ => first [injection H as ? ?|injection H as ?]; subst
  end.

Lemma block_at B p k st y k' st' :
  blocks_ok B → B !! p = Some (k, st) → B !! y = Some (k', st') → inside y p k → y = p.
Proof.
  intros [_ Hd] Hp Hy [Hl Hu]. destruct (decide (y = p)) as [->|Hne]; [done|].
  pose proof (Hd p k st y k' st' Hp Hy). lia.
Qed.

Lemma split_blocks B p k st st' :
  blocks_ok B → B !! p = Some (S k, st) → blocks_ok (split_at B p k st').
Proof.
  intros Hok Hp. pose proof Hok as [Hb Hd]. pose proof (Hb p _ _ Hp) as (Hk & H0 & H52 & Hal). pose proof (size_pos k) as Hs.
  rewrite size_S in *. assert (aligned p k ∧ aligned (p + size k) k) as [Ha1 Ha2].
  { destruct Hal as [c ->]. rewrite size_S. split; [exists (2 * c); lia|exists (2 * c + 1); lia]. }
  assert (∀ q kq stq, B !! q = Some (kq, stq) → q ≠ p → q + size kq ≤ p ∨ p + 2 * size k ≤ q) as Hoth.
  { intros q kq stq Hq Hne. destruct (Z.lt_trichotomy q p) as [?|[?|?]]; [left; eauto|done|right].
    pose proof (Hd p _ _ q _ _ Hp Hq). rewrite size_S in *. lia. }
  split.
  - intros q kq stq Hq. unfold split_at in Hq. lookups; [split_and!; try done; lia|split_and!; try done; lia|eauto].
  - intros q kq stq q' kq' stq' Hq Hq' Hlt. pose proof (size_pos kq). pose proof (size_pos kq'). unfold split_at in *. lookups; try lia; try (by eauto).
    all: match goal with Hx : _ !! ?x = Some _, Hn : _ ≠ ?x |- _ => destruct (Hoth x _ _ Hx ltac:(done)); lia end.
Qed.
Lemma split_covered B p k st st' y : blocks_ok B → B !! p = Some (S k, st) → covered (split_at B p k st') y ↔ covered B y.
Proof.
  intros Hok Hp. unfold covered, inside. pose proof (size_pos k). split.
  - intros (q & kq & stq & Hq & Hin). unfold split_at in Hq. lookups; [| |by eauto 6].
    + exists q, (S kq), st. rewrite size_S. split; [done|lia].
    + exists p, (S kq), st. rewrite size_S. split; [done|lia].
  - intros (q & kq & stq & Hq & Hin). destruct (decide (q = p)) as [->|Hne].
    + rewrite Hp in Hq. injection Hq as <- <-. rewrite size_S in Hin. unfold split_at. destruct (decide (y < p + size k)).
      * exists p, k, st'. rewrite lookup_insert_eq. split; [done|lia].
      * exists (p + size k), k, Free. rewrite lookup_insert_ne by lia. rewrite lookup_insert_eq. split; [done|lia].
    + exists q, kq, stq. split; [|done]. unfold split_at. rewrite !lookup_insert_ne; [done| |done].
      intros <-. assert (p + size k = p); [|lia]. eapply (block_at B p (S k)); [done..|]. unfold inside. rewrite size_S. lia.
Qed.

Lemma merge_blocks B p k st s1 s2 :
  blocks_ok B → B !! p = Some (k, s1) → B !! (p + size k) = Some (k, s2) → aligned p (S k) → (S k < BUDDY_ORDERS)%nat →
  blocks_ok (merge_at B p k st).
Proof.
  intros [Hb Hd] Hp Hq Hal Hk. pose proof (Hb _ _ _ Hp) as (_ & H0 & _ & _). pose proof (Hb _ _ _ Hq) as (_ & _ & H52 & _).
  pose proof (size_pos k) as Hs. split.
  - intros x kx sx Hx. unfold merge_at in Hx. lookups; [rewrite size_S; split_and!; try done; lia|eauto].
  - intros x kx sx x' kx' sx' Hx Hx' Hlt. unfold merge_at in *. lookups; try lia; eauto.
    pose proof (Hd _ _ _ _ _ _ Hq Hx'). rewrite size_S. pose proof (Hd _ _ _ _ _ _ Hp Hx'). lia.
Qed.
Lemma merge_covered B p k st s1 s2 y :
  blocks_ok B → B !! p = Some (k, s1) → B !! (p + size k) = Some (k, s2) →
  covered (merge_at B p k st) y ↔ covered B y.
Proof.
  intros Hok Hp Hq. unfold covered, inside, merge_at. pose proof (size_pos k). split.
  - intros (x & kx & sx & Hx & Hin). lookups; [|by eauto 6]. rewrite size_S in Hin. destruct (decide (y < x + size k)).
    + exists x, k, s1. split; [done|lia].
    + exists (x + size k), k, s2. split; [done|lia].
  - intros (x & kx & sx & Hx & Hin). destruct (decide (x = p)) as [->|Hne].
    { rewrite Hp in Hx. injection Hx as <- <-. exists p, (S k), st. rewrite lookup_insert_eq, size_S. split; [done|lia]. }
    destruct (decide (x = p + size k)) as [->|Hne2].
    { rewrite Hq in Hx. injection Hx as <- <-. exists p, (S k), st. rewrite lookup_insert_eq, size_S. split; [done|lia]. }
    exists x, kx, sx. rewrite lookup_insert_ne, lookup_delete_ne by done. done.
Qed.
Lemma restate_blocks B p k st st' :
  blocks_ok B → B !! p = Some (k, st) → blocks_ok (<[p := (k, st')]> B).
Proof.
  intros [Hb Hd] Hp. split.
  - intros x kx sx Hx. lookups; eauto.
  - intros x kx sx x' kx' sx' Hx Hx' Hlt. lookups; try lia; eauto.
Qed.
Lemma restate_covered B p k st st' y : B !! p = Some (k, st) → covered (<[p := (k, st')]> B) y ↔ covered B y.
Proof.
  intros Hp. unfold covered. split.
  - intros (x & kx & sx & Hx & Hin). lookups; eauto 6.
  - intros (x & kx & sx & Hx & Hin). destruct (decide (x = p)) as [->|Hne].
    + rewrite Hp in Hx. injection Hx as <- <-. exists p, k, st'. by rewrite lookup_insert_eq.
    + exists x, kx, sx. by rewrite lookup_insert_ne.
Qed.

(** A block next to its buddy's place covers exactly what it should: if the buddy of
    [p] is covered, it starts a block of order at most [k]. *)
Lemma buddy_starts B p k st h m sth :
  blocks_ok B → B !! p = Some (k, st) → B !! h = Some (m, sth) → inside (page_buddy p k) h m → h ≠ p →
  (m ≤ k)%nat → h = page_buddy p k.
Proof.
  intros [Hb Hd] Hp Hh Hin Hne Hmk. destruct (Hb _ _ _ Hp) as (_ & _ & _ & Hal). destruct (Hb _ _ _ Hh) as (_ & _ & _ & Halh).
  symmetry. eapply (aligned_head h _ m k); try done. destruct (buddy_cases p k Hal) as [[_ ->]|[Hs ->]].
  - destruct Hal as [c ->]. exists (c + 1). lia.
  - by apply (aligned_le _ k (S k)); [lia|].
Qed.
Lemma buddy_same_parent B p k st h m sth :
  blocks_ok B → B !! p = Some (k, st) → B !! h = Some (m, sth) → inside (page_buddy p k) h m → (m ≤ k)%nat.
Proof.
  intros Hok Hp Hh Hin. pose proof Hok as [Hb Hd]. destruct (Hb _ _ _ Hp) as (_ & _ & _ & Hal).
  destruct (Hb _ _ _ Hh) as (_ & _ & _ & Halh). destruct (decide (m ≤ k)%nat) as [|Hgt]; [done|]. exfalso.
  pose proof (size_pos k). assert (inside p h m) as Hph.
  { destruct (buddy_cases p k Hal) as [[Hal' Hbd]|[Hal' Hbd]]; rewrite Hbd in Hin.
    - (* the parent block starts at [p] *)
      destruct Halh as [c Hc], Hal' as [d Hd']. destruct (size_split (S k) m) as (e & He & Hsz); [lia|].
      rewrite size_S in *. unfold inside in *. subst h p. rewrite Hsz in *.
      assert (c * e ≤ d) by nia. nia.
    - eapply (aligned_sub h (p - size k) m (S k)); try done; [lia|]. unfold inside. rewrite size_S. lia. }
  assert (p = h) as -> by (by eapply (block_at B h m)). rewrite Hp in Hh. injection Hh as -> ->. lia.
Qed.

(** ** The PFN database and the queues *)

(** The head of a block knows its order and, unless it is being freed, whether it
    is free; the pages inside have the order at which they would be split off. *)
Record pages_ok (B : blocks) (pf : gmap Z vm_page) : Prop := PagesOk {
  pk_head : ∀ p k st, B !! p = Some (k, st) → ∃ x, pf !! p = Some x ∧ order x = k ∧
    (st = Free → on_freelist x = true) ∧ (st = Alloc → on_freelist x = false);
  pk_inner : ∀ p k st y, B !! p = Some (k, st) → p < y < p + size k → ∃ x, pf !! y = Some x ∧ order x = ctz y;
  pk_max : ∀ y x, pf !! y = Some x → covered B y → (max_order x < BUDDY_ORDERS)%nat ∧
    ∃ h, aligned h (max_order x) ∧ inside y h (max_order x) ∧ ∀ z, inside z h (max_order x) → covered B z
}.

(** Queue [k] holds the free blocks of order [k], and its count is right. *)
Record queues_ok (B : blocks) (qs : list (list Z)) (ns : list Z) : Prop := QueuesOk {
  qk_len : length qs = BUDDY_ORDERS;
  qk_queue : ∀ k q, qs !! k = Some q → NoDup q ∧ (∀ p, p ∈ q ↔ B !! p = Some (k, Free)) ∧
    ns !! k = Some (Z.of_nat (length q))
}.

Record buddy_ok (B : blocks) (s : pst) : Prop := BuddyOk {
  bo_blocks : blocks_ok B;
  bo_pages : pages_ok B (pfndb s);
  bo_queues : queues_ok B (buddy_queue s) (buddy_queue_npages s)
}.

(** *** Queues *)

Lemma NoDup_range_length (l : list Z) N : 0 ≤ N → NoDup l → (∀ x, x ∈ l → 0 ≤ x < N) → Z.of_nat (length l) ≤ N.
Proof.
  intros HN Hnd Hin. assert (length l ≤ length (seqZ 0 N))%nat as Hl.
  { apply submseteq_length, NoDup_submseteq; [done|]. intros x Hx. apply elem_of_seqZ. specialize (Hin x Hx). lia. }
  rewrite length_seqZ in Hl. lia.
Qed.
Lemma queue_length B qs ns k q : blocks_ok B → queues_ok B qs ns → qs !! k = Some q → Z.of_nat (length q) ≤ 2 ^ 52.
Proof.
  intros [Hb _] [_ Hq] Hk. destruct (Hq k q Hk) as (Hnd & Hin & _). apply NoDup_range_length; [lia|done|].
  intros x Hx. apply Hin, Hb in Hx as (_ & ? & ? & _). pose proof (size_pos k). lia.
Qed.

(** Removing [p] from queue [k], or adding it, as its block stops or starts to be
    free. *)
Lemma queues_remove B B' qs ns k p q q' :
  blocks_ok B → queues_ok B qs ns → qs !! k = Some q → q_remove p q = Some q' →
  (∀ x j, B' !! x = Some (j, Free) ↔ B !! x = Some (j, Free) ∧ x ≠ p) →
  queues_ok B' (<[k := q']> qs) (alter (λ n, u64 (n + -1)) k ns).
Proof.
  intros Hok Hqs Hk Hrem HB. pose proof (queue_length _ _ _ _ _ Hok Hqs Hk) as Hlen. destruct Hqs as [Hl Hq].
  pose proof (q_remove_perm _ _ _ Hrem) as Hperm. split; [by rewrite length_insert|]. intros j qj Hj.
  destruct (decide (j = k)) as [->|Hne].
  - rewrite list_lookup_insert_eq in Hj by (by eapply lookup_lt_Some). injection Hj as <-.
    destruct (Hq k q Hk) as (Hnd & Hin & Hn). rewrite Hperm in Hnd. apply NoDup_cons in Hnd as [Hnp Hnd]. split_and!; [done|..].
    + intros x. rewrite HB, <-Hin, Hperm. set_solver.
    + rewrite list_lookup_alter_eq, Hn. simpl. rewrite Hperm in *. simpl in *. rewrite u64_small by lia. f_equal. lia.
  - rewrite list_lookup_insert_ne in Hj by done. destruct (Hq j qj Hj) as (Hnd & Hin & Hn). split_and!; [done| |by rewrite list_lookup_alter_ne].
    intros x. rewrite HB, <-Hin. split; [|tauto]. intros Hx. split; [done|]. intros ->.
    destruct (Hq k q Hk) as (_ & Hin' & _). assert (p ∈ q) as Hp by (rewrite Hperm; set_solver).
    apply Hin in Hx. apply Hin' in Hp. congruence.
Qed.
Lemma queues_insert B B' qs ns k p q :
  blocks_ok B' → queues_ok B qs ns → qs !! k = Some q →
  (∀ x j, B' !! x = Some (j, Free) ↔ B !! x = Some (j, Free) ∨ (x = p ∧ j = k)) → (∀ j, B !! p ≠ Some (j, Free)) →
  queues_ok B' (<[k := p :: q]> qs) (alter (λ n, u64 (n + 1)) k ns).
Proof.
  intros Hok [Hl Hq] Hk HB Hp. destruct (Hq k q Hk) as (Hnd & Hin & Hn).
  assert (NoDup (p :: q)) as Hnd' by (constructor; [rewrite Hin; apply Hp|done]).
  assert (∀ x, x ∈ p :: q ↔ B' !! x = Some (k, Free)) as Hin' by (intros x; rewrite elem_of_cons, HB, Hin; tauto).
  assert (Z.of_nat (length (p :: q)) ≤ 2 ^ 52) as Hlen.
  { apply NoDup_range_length; [lia|done|]. intros x Hx. apply Hin', (bk_block _ Hok) in Hx as (_ & ? & ? & _).
    pose proof (size_pos k). lia. }
  split; [by rewrite length_insert|]. intros j qj Hj. destruct (decide (j = k)) as [->|Hne].
  - rewrite list_lookup_insert_eq in Hj by (by eapply lookup_lt_Some). injection Hj as <-. split_and!; [done|done|].
    rewrite list_lookup_alter_eq, Hn. simpl in *. rewrite u64_small by lia. f_equal. lia.
  - rewrite list_lookup_insert_ne in Hj by done. destruct (Hq j qj Hj) as (Hnd2 & Hin2 & Hn2).
    split_and!; [done| |by rewrite list_lookup_alter_ne]. intros x. rewrite HB, <-Hin2. naive_solver.
Qed.

(** *** Pages *)

Lemma block_unique B p k st q m st' y :
  blocks_ok B → B !! p = Some (k, st) → B !! q = Some (m, st') → inside y p k → inside y q m → p = q.
Proof.
  intros [_ Hd] Hp Hq [? ?] [? ?]. destruct (Z.lt_trichotomy p q) as [Hlt|[?|Hlt]]; [|done|].
  - pose proof (Hd _ _ _ _ _ _ Hp Hq Hlt). lia.
  - pose proof (Hd _ _ _ _ _ _ Hq Hp Hlt). lia.
Qed.
Lemma inside_head p k : inside p p k.
Proof. unfold inside. pose proof (size_pos k). lia. Qed.

Lemma max_keep (B B' : blocks) (pf pf' : gmap Z vm_page) :
  pages_ok B pf → (∀ y, covered B' y ↔ covered B y) →
  (∀ y x', pf' !! y = Some x' → ∃ x, pf !! y = Some x ∧ max_order x' = max_order x) →
  ∀ y x, pf' !! y = Some x → covered B' y → (max_order x < BUDDY_ORDERS)%nat ∧
    ∃ h, aligned h (max_order x) ∧ inside y h (max_order x) ∧ ∀ z, inside z h (max_order x) → covered B' z.
Proof.
  intros Hp Hc Hm y x' Hx' Hcy. destruct (Hm y x' Hx') as (x & Hx & ->). apply Hc in Hcy.
  destruct (pk_max _ _ Hp y x Hx Hcy) as (? & h & ? & ? & Hz). split; [done|]. exists h. split_and!; [done..|].
  intros z ?. by apply Hc, Hz.
Qed.

Lemma split_pages B p k pf x y :
  blocks_ok B → pages_ok B pf → B !! p = Some (S k, Free) → pf !! p = Some x → pf !! (p + size k) = Some y →
  pages_ok (split_at B p k Free) (<[p := with_order k x]> (<[p + size k := with_on_freelist true y]> pf)).
Proof.
  intros Hb Hpg Hp Hx Hy. pose proof (size_pos k) as Hs. pose proof (bk_block _ Hb _ _ _ Hp) as (_ & H0 & _ & Hal).
  destruct (pk_head _ _ Hpg _ _ _ Hp) as (x0 & Hx0 & Hox & Hfx & _). rewrite Hx in Hx0. injection Hx0 as <-.
  destruct (pk_inner _ _ Hpg p (S k) Free (p + size k) Hp) as (y0 & Hy0 & Hoy); [rewrite size_S; lia|].
  rewrite Hy in Hy0. injection Hy0 as <-. rewrite ctz_middle in Hoy by done.
  assert (∀ q m st z, B !! q = Some (m, st) → q ≠ p → inside z q m →
    (<[p := with_order k x]> (<[p + size k := with_on_freelist true y]> pf)) !! z = pf !! z) as Hoth.
  { intros q m st z Hq Hne Hin. rewrite !lookup_insert_ne; [done|..]; intros <-; apply Hne;
      eapply (block_unique B q m st p (S k)); try done; unfold inside; rewrite size_S; lia. }
  split.
  - intros q m st Hq. unfold split_at in Hq. lookups.
    + eexists. rewrite lookup_insert_eq. split; [done|]. split_and!; try done; by auto.
    + eexists. rewrite lookup_insert_ne, lookup_insert_eq by lia. by split_and!.
    + rewrite (Hoth q m st); [by eapply pk_head|done|done|apply inside_head].
  - intros q m st z Hq Hz. unfold split_at in Hq. lookups.
    + rewrite !lookup_insert_ne by lia. eapply (pk_inner _ _ Hpg); [done|]. rewrite size_S. lia.
    + rewrite !lookup_insert_ne by lia. eapply (pk_inner _ _ Hpg); [done|]. rewrite size_S. lia.
    + rewrite (Hoth q m st); [by eapply pk_inner|done|done|unfold inside; lia].
  - eapply max_keep; [done|intros; by eapply split_covered|]. intros z z' Hz. lookups; subst; eauto.
Qed.

Lemma merge_pages B l k s1 s2 pf x :
  blocks_ok B → pages_ok B pf → B !! l = Some (k, s1) → B !! (l + size k) = Some (k, s2) → aligned l (S k) →
  pf !! l = Some x → pages_ok (merge_at B l k Floating) (<[l := with_order (S k) x]> pf).
Proof.
  intros Hb Hpg Hl Hu Hal Hx. pose proof (size_pos k) as Hs. pose proof (bk_block _ Hb _ _ _ Hl) as (_ & H0 & _ & _).
  split.
  - intros q m st Hq. unfold merge_at in Hq. lookups.
    + eexists. rewrite lookup_insert_eq. by split_and!.
    + rewrite lookup_insert_ne by done. by eapply pk_head.
  - intros q m st z Hq Hz. unfold merge_at in Hq. lookups.
    + rewrite lookup_insert_ne by lia. rewrite size_S in Hz. destruct (Z.lt_trichotomy z (q + size k)) as [Hlt|[->|Hlt]].
      * eapply (pk_inner _ _ Hpg q k); [done|lia].
      * destruct (pk_head _ _ Hpg _ _ _ Hu) as (y & Hy & Ho & _). exists y. by rewrite ctz_middle.
      * eapply (pk_inner _ _ Hpg (q + size k) k); [done|lia].
    + rewrite lookup_insert_ne; [by eapply pk_inner|]. intros ->.
      assert (q = z); [|lia]. apply (block_unique B q m st z k s1 z); try done; [unfold inside; lia|apply inside_head].
  - eapply max_keep; [done|intros; by eapply merge_covered|]. intros z z' Hz. lookups; subst; eauto.
Qed.

Lemma restate_pages B p k st st' pf x x' :
  blocks_ok B → pages_ok B pf → B !! p = Some (k, st) → pf !! p = Some x → order x' = k → max_order x' = max_order x →
  (st' = Free → on_freelist x' = true) → (st' = Alloc → on_freelist x' = false) →
  pages_ok (<[p := (k, st')]> B) (<[p := x']> pf).
Proof.
  intros Hb Hpg Hp Hx Ho Hm Hf Ha. split.
  - intros q m sq Hq. lookups; [exists x'; by rewrite lookup_insert_eq|]. rewrite lookup_insert_ne by done. by eapply pk_head.
  - intros q m sq z Hq Hz. assert (z ≠ p).
    { intros ->. assert (q = p); [|lia]. lookups; [done|].
      apply (block_unique B q m sq p k st p); try done; [unfold inside; lia|apply inside_head]. }
    rewrite lookup_insert_ne by done. lookups; by eapply pk_inner.
  - eapply max_keep; [done|intros; by eapply restate_covered|]. intros z z' Hz. lookups; subst; eauto.
Qed.

(** ** Weakest preconditions of the accesses *)

Lemma wp_page_at p Q s : wp (page_at p) Q s ↔ ∃ x, pfndb s !! p = Some x ∧ Q x s.
Proof. unfold page_at. by wp_simp. Qed.
Lemma wp_page_set p x (Q : () → pst → Prop) s : wp (page_set p x) Q s ↔ Q () (set_pfndb (<[p := x]> (pfndb s)) s).
Proof. done. Qed.
Lemma wp_page_upd p f (Q : () → pst → Prop) s :
  wp (page_upd p f) Q s ↔ ∃ x, pfndb s !! p = Some x ∧ Q () (set_pfndb (<[p := f x]> (pfndb s)) s).
Proof. unfold page_upd. by rewrite wp_bind, wp_page_at. Qed.
Lemma wp_queue_at k Q s : wp (queue_at k) Q s ↔ ∃ q, buddy_queue s !! k = Some q ∧ Q q s.
Proof. unfold queue_at. by wp_simp. Qed.
Lemma wp_queue_insert_head k p (Q : () → pst → Prop) s :
  wp (queue_insert_head k p) Q s ↔ ∃ q, buddy_queue s !! k = Some q ∧
    Q () (set_buddy (<[k := p :: q]> (buddy_queue s)) (buddy_queue_npages s) s).
Proof. unfold queue_insert_head. by rewrite wp_bind, wp_queue_at. Qed.
Lemma wp_queue_remove k p (Q : () → pst → Prop) s :
  wp (queue_remove k p) Q s ↔ ∃ q, buddy_queue s !! k = Some q ∧ ∃ q', q_remove p q = Some q' ∧
    Q () (set_buddy (<[k := q']> (buddy_queue s)) (buddy_queue_npages s) s).
Proof.
  unfold queue_remove. rewrite wp_bind, wp_queue_at. split; intros (q & Hq & Hw); exists q; (split; [done|]).
  - by rewrite wp_bind, wp_deref in Hw.
  - by rewrite wp_bind, wp_deref.
Qed.
Lemma wp_npages_add k v (Q : () → pst → Prop) s :
  wp (npages_add k v) Q s ↔ Q () (set_buddy (buddy_queue s) (alter (λ n, u64 (n + v)) k (buddy_queue_npages s)) s).
Proof. done. Qed.
Lemma wp_stat_add c v (Q : () → pst → Prop) s :
  wp (stat_add c v) Q s ↔ Q () (set_vmstat (λ c', if decide (c' = c)
    then (if decide (c = nreservedfree) then vmstat s c + v else u64 (vmstat s c + v)) else vmstat s c') s).
Proof. done. Qed.
Lemma wp_mem_fill p n v (Q : () → pst → Prop) s :
  wp (mem_fill p n v) Q s ↔ Q () (set_mem (λ b, if (p * PGSIZE <=? b) && (b <? (p + n) * PGSIZE) then v else mem s b) s).
Proof. done. Qed.

(** Everything but the buddy allocator's state is the same. *)
Definition same_rest (s s' : pst) : Prop :=
  modified s' = modified s ∧ standby s' = standby s ∧ vmstat s' = vmstat s ∧ mem s' = mem s ∧
  balance_event s' = balance_event s ∧ writer_event s' = writer_event s.
Lemma same_rest_trans s1 s2 s3 : same_rest s1 s2 → same_rest s2 s3 → same_rest s1 s3.
Proof. unfold same_rest. intros (?&?&?&?&?&?) (?&?&?&?&?&?). split_and!; congruence. Qed.
(** The page fields other than those of the allocator are the same. *)
Definition same_page (x x' : vm_page) : Prop :=
  use x' = use x ∧ dirty x' = dirty x ∧ busy x' = busy x ∧ refcnt x' = refcnt x ∧
  nonzero_ptes x' = nonzero_ptes x ∧ noswap_ptes x' = noswap_ptes x ∧ referent_pte x' = referent_pte x ∧
  owner x' = owner x ∧ drumslot x' = drumslot x.
Definition same_pages (pf pf' : gmap Z vm_page) : Prop :=
  ∀ p, match pf !! p, pf' !! p with Some x, Some x' => same_page x x' | None, None => True | _, _ => False end.
Lemma same_pages_refl pf : same_pages pf pf.
Proof. intros p. by destruct (pf !! p). Qed.
Lemma same_pages_trans pf1 pf2 pf3 : same_pages pf1 pf2 → same_pages pf2 pf3 → same_pages pf1 pf3.
Proof.
  intros H1 H2 p. specialize (H1 p). specialize (H2 p).
  destruct (pf1 !! p), (pf2 !! p), (pf3 !! p); try done. unfold same_page in *. naive_solver congruence.
Qed.
Lemma same_pages_insert pf p x x' : pf !! p = Some x → same_page x x' → same_pages pf (<[p := x']> pf).
Proof.
  intros Hx Hs q. destruct (decide (q = p)) as [->|Hne]; [by rewrite lookup_insert_eq, Hx|].
  rewrite lookup_insert_ne by done. by destruct (pf !! q).
Qed.
