(* ===== verification/BuddyAlloc.v ===== *)
(** Allocation and freeing of page blocks (kernel/vm/resident.c) against their
    specification: a set of free pages and the allocated blocks. *)
From S2P Require Import Prelude Pte Resident Tables PageAlloc BuddyProofs.
Import Resident Tables PageAlloc.
Local Open Scope Z_scope.

(** ** The specification's view *)

(** Page [y] is free; the block of order [k] at [p] is allocated. *)
Definition free_at (B : blocks) (y : Z) : Prop := ∃ p k, B !! p = Some (k, Free) ∧ inside y p k.
Definition allocated (B : blocks) (p : Z) (k : nat) : Prop := B !! p = Some (k, Alloc).

(** The same for the specification. *)
Definition same_view (B B' : blocks) : Prop :=
  (∀ y, free_at B' y ↔ free_at B y) ∧ (∀ p k, allocated B' p k ↔ allocated B p k) ∧
  (∀ y, covered B' y ↔ covered B y) ∧ (∀ p k, B' !! p = Some (k, Floating) → B !! p = Some (k, Floating)).
Lemma same_view_refl B : same_view B B.
Proof. done. Qed.
Lemma same_view_trans B1 B2 B3 : same_view B1 B2 → same_view B2 B3 → same_view B1 B3.
Proof. intros (H1 & H2 & H3 & H4) (H5 & H6 & H7 & H8). split_and!; intros; [rewrite H5|rewrite H6|rewrite H7|]; auto. Qed.

Lemma split_view B p k : blocks_ok B → B !! p = Some (S k, Free) → same_view B (split_at B p k Free).
Proof.
  intros Hb Hp. pose proof (size_pos k). assert (B !! (p + size k) = None) as Hnone.
  { destruct (B !! (p + size k)) as [[m st]|] eqn:E; [|done]. exfalso.
    assert (p + size k = p); [|lia]. eapply (block_at B p (S k)); try done. unfold inside. rewrite size_S. lia. }
  split_and!; [| |intros; by eapply split_covered|].
  - intros y. unfold free_at, split_at, inside. split.
    + intros (q & m & Hq & Hin). lookups; [| |by eauto].
      * eexists _, _. split; [exact Hp|]. rewrite size_S. lia.
      * eexists _, _. split; [exact Hp|]. rewrite size_S. lia.
    + intros (q & m & Hq & Hin). destruct (decide (q = p)) as [->|Hne].
      * rewrite Hp in Hq. injection Hq as <-. rewrite size_S in Hin. destruct (decide (y < p + size k)).
        -- exists p, k. rewrite lookup_insert_eq. split; [done|lia].
        -- exists (p + size k), k. rewrite lookup_insert_ne, lookup_insert_eq by lia. split; [done|lia].
      * exists q, m. rewrite !lookup_insert_ne; [done| |done]. congruence.
  - intros q m. unfold allocated, split_at. destruct (decide (q = p)) as [->|Hne].
    { rewrite lookup_insert_eq, Hp. split; congruence. }
    destruct (decide (q = p + size k)) as [->|Hne2].
    { rewrite lookup_insert_ne, lookup_insert_eq, Hnone by done. split; congruence. }
    by rewrite !lookup_insert_ne.
  - intros q m Hq. unfold split_at in Hq. apply lookup_insert_Some in Hq as [[_ [=]]|[_ Hq]]. by apply lookup_insert_Some in Hq as [[_ [=]]|[_ Hq]].
Qed.

(** ** Splitting *)

Lemma u64_add2 n : u64 (u64 (n + 1) + 1) = u64 (n + 2).
Proof. unfold u64. rewrite Zplus_mod_idemp_l. f_equal. lia. Qed.
Lemma alter_add2 k (ns : list Z) : alter (λ n, u64 (n + 1)) k (alter (λ n, u64 (n + 1)) k ns) = alter (λ n, u64 (n + 2)) k ns.
Proof.
  apply list_eq. intros i. destruct (decide (i = k)) as [->|Hne]; [|by rewrite !list_lookup_alter_ne].
  rewrite !list_lookup_alter_eq. destruct (ns !! k); [|done]. simpl. by rewrite u64_add2.
Qed.

(** The queues after a split: [p] leaves queue [S k], it and its upper half join
    queue [k]. *)
Lemma split_queues B qs ns p k rest q :
  blocks_ok B → queues_ok B qs ns → B !! p = Some (S k, Free) → qs !! S k = Some (p :: rest) → qs !! k = Some q →
  queues_ok (split_at B p k Free) (<[k := p + size k :: p :: q]> (<[S k := rest]> qs))
    (alter (λ n, u64 (n + 2)) k (alter (λ n, u64 (n + -1)) (S k) ns)).
Proof.
  intros Hb Hqs Hp Hsk Hk. pose proof (size_pos k) as Hs. pose proof (split_blocks B p k Free Free Hb Hp) as Hb'.
  assert (B !! (p + size k) = None) as Hnone.
  { destruct (B !! (p + size k)) as [[m st]|] eqn:E; [|done]. exfalso.
    assert (p + size k = p); [|lia]. eapply (block_at B p (S k)); try done. unfold inside. rewrite size_S. lia. }
  set (B1 := delete p B). set (B2 := <[p := (k, Free)]> B).
  assert (blocks_ok B2) as Hb2.
  { pose proof Hb' as [Hx Hd]. split.
    - intros x kx sx Hx2. unfold B2 in Hx2. lookups; [eapply (Hx x); unfold split_at; by rewrite lookup_insert_eq|by eapply (bk_block _ Hb)].
    - intros x kx sx x' kx' sx' H1 H2. assert (∀ z kz sz, B2 !! z = Some (kz, sz) → split_at B p k Free !! z = Some (kz, sz)) as Hsub.
      { intros z kz sz Hz. unfold B2 in Hz. unfold split_at. lookups; [by rewrite lookup_insert_eq|].
        rewrite !lookup_insert_ne by congruence. done. }
      apply Hsub in H1, H2. by eapply Hd. }
  assert (queues_ok B1 (<[S k := rest]> qs) (alter (λ n, u64 (n + -1)) (S k) ns)) as Hq1.
  { eapply (queues_remove B); [done|done|done|simpl; by rewrite decide_True|]. intros x j. unfold B1. rewrite lookup_delete_Some. naive_solver. }
  rewrite <-alter_add2. rewrite <-(list_insert_insert_eq _ k _ (p :: q)).
  eapply (queues_insert B2 _ _ _ k (p + size k) (p :: q)); [done| |by rewrite list_lookup_insert_eq by (rewrite length_insert; by eapply lookup_lt_Some)|..].
  - eapply (queues_insert B1 B2 _ _ k p q); [done|done|by rewrite list_lookup_insert_ne by lia|..].
    + intros x j. unfold B1, B2. rewrite lookup_insert_Some, lookup_delete_Some. naive_solver.
    + intros j. unfold B1. by rewrite lookup_delete_eq.
  - intros x j. unfold split_at, B2. rewrite !lookup_insert_Some. split.
    + intros [[<- [= <-]]|[? [[<- [= <-]]|[? ?]]]]; [left; by left|by right|left; right; done].
    + intros [[[<- [= <-]]|[? ?]]|[-> ->]]; [by left|right; split; [done|right; split; [congruence|done]]|].
      right. split; [lia|]. by left.
  - intros j. unfold B2. rewrite lookup_insert_ne by lia. by rewrite Hnone.
Qed.

(** One halving. *)
Lemma split_step B s k want p rest Q :
  buddy_ok B s → buddy_queue s !! S k = Some (p :: rest) → S k ≠ want →
  (∀ s', buddy_ok (split_at B p k Free) s' → same_rest s s' → same_pages (pfndb s) (pfndb s') →
    (∃ q, buddy_queue s' !! k = Some q ∧ q ≠ []) → wp (split_down k want) Q s') →
  wp (split_down (S k) want) Q s.
Proof.
  intros [Hb Hpg Hqs] Hsk Hne HQ. pose proof (size_pos k) as Hs.
  destruct (qk_queue _ _ _ Hqs _ _ Hsk) as (_ & Hin & _). assert (B !! p = Some (S k, Free)) as Hp by (apply Hin; set_solver).
  destruct (pk_head _ _ Hpg _ _ _ Hp) as (x & Hx & Hox & _).
  destruct (pk_inner _ _ Hpg p (S k) Free (p + size k) Hp) as (y & Hy & Hoy); [rewrite size_S; lia|].
  pose proof (bk_block _ Hb _ _ _ Hp) as (_ & H0 & _ & Hal). rewrite ctz_middle in Hoy by done.
  destruct (lookup_lt_is_Some_2 (buddy_queue s) k) as [q Hk]; [apply lookup_lt_Some in Hsk; lia|].
  simpl. rewrite decide_False by done. rewrite wp_bind, wp_queue_at. eexists. split; [exact Hsk|].
  rewrite wp_bind, wp_deref. exists p. split; [done|]. rewrite wp_bind, wp_page_at. exists x. split; [done|].
  replace (p + Z.quot (vm_order_to_npages (order x)) 2) with (p + size k).
  2: { rewrite Hox. unfold vm_order_to_npages. fold (size (S k)). rewrite size_S, Z.mul_comm, Z.quot_mul; lia. }
  rewrite wp_bind, wp_page_at. exists y. split; [done|]. rewrite wp_bind, wp_kassert, bool_decide_eq_true.
  split; [lia|]. rewrite wp_bind, wp_queue_remove. eexists. split; [exact Hsk|]. eexists. split; [simpl; by rewrite decide_True|].
  rewrite wp_bind, wp_queue_insert_head. eexists. split; [simpl; by rewrite list_lookup_insert_ne by lia|].
  rewrite wp_bind, wp_queue_insert_head. eexists. split.
  { simpl. apply list_lookup_insert_eq. rewrite length_insert. by eapply lookup_lt_Some. }
  rewrite !wp_bind, !wp_npages_add, !wp_bind, wp_npages_add, wp_bind, wp_page_set, wp_bind, wp_page_set. simpl. apply HQ.
  - split; simpl; [by eapply split_blocks|rewrite Hox; simpl; rewrite Nat.sub_0_r; by apply split_pages|].
    rewrite list_insert_insert_eq. by eapply split_queues.
  - by unfold same_rest.
  - simpl. eapply same_pages_trans; eapply same_pages_insert; [exact Hy|done|rewrite lookup_insert_ne by lia; exact Hx|done].
  - simpl. eexists. split; [apply list_lookup_insert_eq; rewrite !length_insert; by eapply lookup_lt_Some|done].
Qed.

(** Halving down to the wanted order. *)
Lemma split_down_ok B s k want q :
  buddy_ok B s → buddy_queue s !! k = Some q → q ≠ [] → (want ≤ k)%nat →
  wp (split_down k want) (λ _ s', ∃ B', buddy_ok B' s' ∧ same_view B B' ∧ same_rest s s' ∧ same_pages (pfndb s) (pfndb s') ∧
    ∃ q, buddy_queue s' !! want = Some q ∧ q ≠ []) s.
Proof.
  revert B s q. induction k as [|k IH]; intros B s q Hok Hq Hne Hle.
  - simpl. rewrite decide_True by lia. rewrite wp_ret. exists B. replace want with O by lia.
    split_and!; [done|done|done|apply same_pages_refl|eauto].
  - destruct (decide (S k = want)) as [<-|Hkw].
    { simpl. rewrite decide_True by done. rewrite wp_ret. exists B. split_and!; [done|done|done|apply same_pages_refl|eauto]. }
    destruct q as [|p rest]; [done|]. eapply split_step; [done|done|done|]. intros s' Hok' Hr Hsp (q & Hq' & Hne').
    eapply wp_mono; [apply (IH _ _ q Hok' Hq' Hne'); lia|].
    intros [] s2 (B' & Hok2 & Hv & Hr2 & Hsp2 & Hq2). exists B'. split_and!; [done| | | |done].
    + eapply same_view_trans; [|exact Hv]. apply split_view; [by destruct Hok|].
      destruct Hok as [_ _ Hqs]. apply (qk_queue _ _ _ Hqs _ _ Hq). set_solver.
    + by eapply same_rest_trans.
    + by eapply same_pages_trans.
Qed.

(** The search ends at an order with a free block if one is large enough. *)
Lemma find_order_ok B s n k m p :
  buddy_ok B s → B !! p = Some (m, Free) → (k ≤ m < k + n)%nat →
  wp (find_order n k) (λ r s', s' = s ∧ (k ≤ r)%nat ∧ ∃ q, buddy_queue s !! r = Some q ∧ q ≠ []) s.
Proof.
  intros Hok Hp. pose proof Hok as [Hb _ Hqs]. destruct (bk_block _ Hb _ _ _ Hp) as [Hm _]. revert k. induction n as [|n IH]; intros k Hkm; [lia|].
  destruct (lookup_lt_is_Some_2 (buddy_queue s) k) as [q Hk]; [rewrite (qk_len _ _ _ Hqs); lia|].
  simpl. rewrite wp_bind, wp_queue_at. exists q. split; [done|]. destruct q as [|p' q].
  - assert (m ≠ k).
    { intros ->. apply (qk_queue _ _ _ Hqs _ _ Hk) in Hp. set_solver. }
    destruct n as [|n]; [lia|]. eapply wp_mono; [apply (IH (S k)); lia|]. intros r s' (-> & ? & ?). split_and!; [done|lia|done].
  - rewrite wp_ret. split_and!; [done|lia|eauto].
Qed.

(** ** Allocation *)

(** What taking a block of order [k] at [p] does to the specification's state. *)
Record taken (B B' : blocks) (p : Z) (k : nat) : Prop := Taken {
  tk_aligned : aligned p k;
  tk_free : ∀ y, inside y p k → free_at B y;
  tk_left : ∀ y, free_at B' y ↔ free_at B y ∧ ¬ inside y p k;
  tk_allocated : ∀ q m, allocated B' q m ↔ allocated B q m ∨ (q = p ∧ m = k);
  tk_covered : ∀ y, covered B' y ↔ covered B y;
  tk_floating : ∀ q m, B' !! q = Some (m, Floating) → B !! q = Some (m, Floating)
}.
Lemma taken_view B1 B2 B3 p k : same_view B1 B2 → taken B2 B3 p k → taken B1 B3 p k.
Proof.
  intros (H1 & H2 & H3 & H4) [Ha Hf Hl Hal Hc Hfl]. split; [done|..]; intros.
  - by apply H1, Hf.
  - by rewrite Hl, H1.
  - by rewrite Hal, H2.
  - by rewrite Hc, H3.
  - by apply H4, Hfl.
Qed.
Lemma restate_taken B p k : blocks_ok B → B !! p = Some (k, Free) → taken B (<[p := (k, Alloc)]> B) p k.
Proof.
  intros Hb Hp. split.
  - apply (bk_block _ Hb _ _ _ Hp).
  - intros y Hy. by exists p, k.
  - intros y. unfold free_at. split.
    + intros (q & m & Hq & Hin). lookups; [done|]. split; [eauto|]. intros Hin'.
      assert (p = q); [|done]. by eapply (block_unique B p k Free q m Free y).
    + intros [(q & m & Hq & Hin) Hout]. exists q, m. split; [|done]. rewrite lookup_insert_ne; [done|].
      intros <-. rewrite Hp in Hq. by injection Hq as <-.
  - intros q m. unfold allocated. rewrite lookup_insert_Some. split.
    + intros [[<- [= <-]]|[_ ?]]; [by right|by left].
    + intros [Hq|[-> ->]]; [|by left]. right. split; [|done]. intros <-. congruence.
  - intros y. by eapply restate_covered.
  - intros q m Hq. by apply lookup_insert_Some in Hq as [[_ [=]]|[_ Hq]].
Qed.

(** Nothing has to be reclaimed. *)
Definition plenty (s : pst) : Prop := vmp_avail_pages_very_low s = false ∧ vmp_free_pages_low s = false.

Lemma wp_update_events (Q : () → pst → Prop) s : wp vmp_update_events Q s ↔
  Q () (set_events (vmp_avail_pages_low s || balance_event s) (vmp_writer_should_run s || writer_event s) s).
Proof. done. Qed.
Lemma wp_use_stats u v (Q : () → pst → Prop) s : wp (update_page_use_stats u v) Q s ↔ ∃ c, use_counter u = Some c ∧ wp (stat_add c v) Q s.
Proof. unfold update_page_use_stats. by rewrite wp_bind, wp_deref. Qed.
(** The counters of uses are not those of queues. *)
Lemma use_counter_other u c : use_counter u = Some c → c ∉ [nfree; nactive; nmodified; nstandby; npwired; ntotal; nreservedfree].
Proof. intros Hc. rewrite !not_elem_of_cons. destruct u; simpl in Hc; try done; injection Hc as <-; split_and!; try done; apply not_elem_of_nil. Qed.

(** The counters after an allocation. *)
Definition alloc_stats (u : vm_page_use) (n : Z) (st : counter → Z) : counter → Z := λ c,
  if decide (c = nfree) then u64 (st c - n)
  else if decide (c = nreservedfree) then st c - n
  else if decide (c = nactive) then u64 (st c + n)
  else if decide (use_counter u = Some c) then u64 (st c + n)
  else st c.

Section alloc.
Context `{PteFormat}.

(** Taking the first block of queue [want]. *)
Lemma take_block_ok B s want p rest x :
  buddy_ok B s → buddy_queue s !! want = Some (p :: rest) → pfndb s !! p = Some x → B !! p = Some (want, Free) → ∀ u,
  buddy_ok (<[p := (want, Alloc)]> B)
    (set_pfndb (<[p := alloc_page u x]> (pfndb s)) (set_buddy (<[want := rest]> (buddy_queue s)) (alter (λ n, u64 (n + -1)) want (buddy_queue_npages s)) s)).
Proof.
  intros [Hb Hpg Hqs] Hq Hx Hp u. destruct (pk_head _ _ Hpg _ _ _ Hp) as (x' & Hx' & Hox & _). rewrite Hx in Hx'. injection Hx' as <-.
  split; simpl; [by eapply restate_blocks| |].
  - by eapply restate_pages.
  - eapply (queues_remove B); [done|done|done|simpl; by rewrite decide_True|]. intros y j. rewrite lookup_insert_Some.
    split; [intros [[_ [=]]|[? ?]]; done|]. intros [? ?]. by right.
Qed.

(** The counters at the end of an allocation. *)
Lemma alloc_stats_run {A} (K : kern pst A) u n c s (Q : A → pst → Prop) : use_counter u = Some c →
  (∀ st, (∀ d, st d = alloc_stats u n (vmstat s) d) → wp K Q (set_vmstat st s)) →
  wp (stat_add nfree (- n);; stat_add nreservedfree (- n);; stat_add nactive n;; update_page_use_stats u n;; K) Q s.
Proof.
  intros Hc HQ. rewrite wp_bind, wp_stat_add, wp_bind, wp_stat_add, wp_bind, wp_stat_add, wp_bind, wp_use_stats.
  exists c. split; [done|]. rewrite wp_stat_add. apply HQ. intros d. clear HQ.
  destruct u; try done; injection Hc as <-; by destruct d.
Qed.

(** [vmp_pages_alloc_locked] when pages are plentiful and a block is large enough. *)
Lemma pages_alloc_ok B s want u must m p0 c :
  buddy_ok B s → plenty s → use_counter u = Some c → B !! p0 = Some (m, Free) → (want ≤ m)%nat →
  wp (vmp_pages_alloc_locked want u must) (λ r s', ∃ p B' x, r = Some p ∧
    taken B B' p want ∧ buddy_ok B' s' ∧
    pfndb s' !! p = Some (alloc_page u x) ∧ order x = want ∧
    same_pages (delete p (pfndb s)) (delete p (pfndb s')) ∧ modified s' = modified s ∧ standby s' = standby s ∧
    (∀ b, mem s' b = if (p * PGSIZE <=? b) && (b <? (p + size want) * PGSIZE) then 0 else mem s b) ∧
    (∀ d, vmstat s' d = alloc_stats u (size want) (vmstat s) d)) s.
Proof.
  intros Hok [Hl1 Hl2] Hc Hp0 Hm. destruct (bk_block _ (bo_blocks _ _ Hok) _ _ _ Hp0) as [Hm16 _].
  unfold vmp_pages_alloc_locked. rewrite wp_bind. unfold reclaim. rewrite wp_bind, wp_get, Hl1, Hl2. simpl. rewrite wp_ret.
  rewrite wp_bind, wp_kassert, bool_decide_eq_true. split; [lia|]. rewrite wp_bind.
  eapply wp_mono; [apply (find_order_ok B s _ _ m p0 Hok Hp0); lia|]. intros k s0 (-> & Hk & q & Hq & Hne). rewrite wp_bind.
  eapply wp_mono; [by apply (split_down_ok B s k want q)|]. intros [] s1 (B1 & Hok1 & Hv & (Hr1 & Hr2 & Hr3 & Hr4 & _) & Hsp & [|p rest] & Hq1 & Hne1); [done|].
  pose proof Hok1 as [Hb1 Hpg1 Hqs1]. assert (B1 !! p = Some (want, Free)) as Hp by (apply (qk_queue _ _ _ Hqs1 _ _ Hq1); set_solver).
  destruct (pk_head _ _ Hpg1 _ _ _ Hp) as (x & Hx & Hox & _).
  rewrite wp_bind, wp_queue_at. eexists. split; [done|]. rewrite wp_bind, wp_deref. exists p. split; [done|].
  rewrite wp_bind, wp_queue_remove. eexists. split; [done|]. eexists. split; [simpl; by rewrite decide_True|].
  rewrite wp_bind, wp_npages_add, wp_bind, wp_page_at. exists x. split; [done|]. rewrite wp_bind, wp_page_set. simpl.
  pose proof (take_block_ok B1 s1 want p rest x Hok1 Hq1 Hx Hp u) as Htake.
  eapply alloc_stats_run; [done|]. simpl. intros st Hst. rewrite wp_bind, wp_mem_fill, wp_bind, wp_update_events, wp_ret.
  exists p, (<[p := (want, Alloc)]> B1), x. simpl. split_and!; try done.
  - eapply taken_view; [done|]. by apply restate_taken.
  - by destruct Htake.
  - by rewrite lookup_insert_eq.
  - rewrite delete_insert_eq. intros q'. specialize (Hsp q'). destruct (decide (q' = p)) as [->|Hne2].
    + by rewrite !lookup_delete_eq.
    + by rewrite !lookup_delete_ne.
  - intros b. by rewrite Hr4.
  - intros d. by rewrite Hst, Hr3.
Qed.
End alloc.
