(* ===== verification/BuddyFree.v ===== *)
(** Freeing page blocks (kernel/vm/resident.c): a freed block is merged with its
    free buddies, and its pages are free again. *)
From S2P Require Import Prelude Pte Resident BuddyProofs BuddyAlloc.
Import Resident.
Local Open Scope Z_scope.

(** ** Merging *)

(** The block at [p] is the only one being freed. *)
Definition lone (B : blocks) (p : Z) : Prop := ∀ q m, B !! q = Some (m, Floating) → q = p.

(** From one round of merging to the next: the pages free or being freed, the
    allocated blocks and the managed pages stay the same. *)
Record merged (B B' : blocks) (p : Z) (k : nat) (p' : Z) (k' : nat) : Prop := Merged {
  mg_block : B' !! p' = Some (k', Floating);
  mg_lone : lone B' p';
  mg_free : ∀ y, (free_at B' y ∨ inside y p' k') ↔ (free_at B y ∨ inside y p k);
  mg_allocated : ∀ q m, allocated B' q m ↔ allocated B q m;
  mg_covered : ∀ y, covered B' y ↔ covered B y;
  mg_order : (k ≤ k')%nat
}.
Lemma merged_refl B p k : B !! p = Some (k, Floating) → lone B p → merged B B p k p k.
Proof. by split. Qed.
Lemma merged_trans B1 B2 B3 p1 k1 p2 k2 p3 k3 : merged B1 B2 p1 k1 p2 k2 → merged B2 B3 p2 k2 p3 k3 → merged B1 B3 p1 k1 p3 k3.
Proof.
  intros [? ? H1 H2 H3 ?] [? ? H4 H5 H6 ?]. split; try done; [| | |lia]; intros.
  - by rewrite H4, H1.
  - by rewrite H5, H2.
  - by rewrite H6, H3.
Qed.

(** Of a block and its buddy one is the lower half of a block of the next order. *)
Lemma buddy_lower p k : aligned p k → aligned (Z.min p (page_buddy p k)) (S k) ∧
  ((Z.min p (page_buddy p k) = p ∧ page_buddy p k = p + size k) ∨
   (Z.min p (page_buddy p k) = page_buddy p k ∧ p = page_buddy p k + size k)).
Proof.
  intros Hal. pose proof (size_pos k). destruct (buddy_cases p k Hal) as [[Ha Hb]|[Ha Hb]]; rewrite Hb.
  - rewrite Z.min_l by lia. split; [done|]. left. lia.
  - rewrite Z.min_r by lia. split; [done|]. right. lia.
Qed.

Lemma merge_merged B p k :
  blocks_ok B → B !! p = Some (k, Floating) → B !! page_buddy p k = Some (k, Free) → lone B p →
  merged B (merge_at B (Z.min p (page_buddy p k)) k Floating) p k (Z.min p (page_buddy p k)) (S k).
Proof.
  intros Hb Hp Hbd Hl. destruct (buddy_lower p k) as [Hal Hc]; [apply (bk_block _ Hb _ _ _ Hp)|].
  set (l := Z.min p (page_buddy p k)) in *. set (b := page_buddy p k) in *. pose proof (size_pos k) as Hs.
  assert (∃ s1 s2, B !! l = Some (k, s1) ∧ B !! (l + size k) = Some (k, s2)) as (s1 & s2 & Hl1 & Hl2).
  { destruct Hc as [[E1 E2]|[E1 E2]]; [exists Floating, Free|exists Free, Floating]; by rewrite E1, <-E2. }
  assert (∀ q, q ≠ p → q ≠ b → merge_at B l k Floating !! q = B !! q) as Hoth.
  { intros q H1 H2. unfold merge_at. rewrite lookup_insert_ne, lookup_delete_ne; [done|..]; destruct Hc as [[E1 E2]|[E1 E2]]; congruence. }
  assert (∀ q m st, merge_at B l k Floating !! q = Some (m, st) → q ≠ l → B !! q = Some (m, st) ∧ q ≠ p ∧ q ≠ b) as Hinv.
  { intros q m st Hq Hne. unfold merge_at in Hq. lookups; [done|]. split_and!; [done|..]; destruct Hc as [[E1 E2]|[E1 E2]]; congruence. }
  split; [unfold merge_at; by rewrite lookup_insert_eq|..].
  - intros q m Hq. destruct (decide (q = l)) as [->|Hne]; [done|]. destruct (Hinv _ _ _ Hq Hne) as (HB & H1 & _). by apply Hl in HB.
  - intros y. assert (inside y l (S k) ↔ inside y p k ∨ inside y b k) as Hin.
    { unfold inside. rewrite size_S. destruct Hc as [[E1 E2]|[E1 E2]]; lia. }
    rewrite Hin. unfold free_at. split.
    + intros [(q & m & Hq & Hy)|[?|?]]; [|by right|left; eauto]. left. destruct (decide (q = l)) as [->|Hne].
      { unfold merge_at in Hq. by rewrite lookup_insert_eq in Hq. }
      destruct (Hinv _ _ _ Hq Hne) as (HB & _). eauto.
    + intros [(q & m & Hq & Hy)|?]; [|tauto]. destruct (decide (q = b)) as [->|H2].
      { rewrite Hbd in Hq. injection Hq as <-. tauto. }
      left. exists q, m. rewrite Hoth; [done|congruence|done].
  - intros q m. unfold allocated. destruct (decide (q = p)) as [->|H1]; [|destruct (decide (q = b)) as [->|H2]; [|by rewrite Hoth]].
    1, 2: split; [|congruence]; intros Hq; exfalso.
    1, 2: match type of Hq with _ !! ?z = _ => destruct (decide (z = l)) as [Heq|Hne] end.
    1, 3: rewrite Heq in Hq; unfold merge_at in Hq; by rewrite lookup_insert_eq in Hq.
    1, 2: by destruct (Hinv _ _ _ Hq Hne) as (_ & ? & ?).
  - intros y. by eapply merge_covered.
  - lia.
Qed.

(** Below its maximal order a block's buddy is managed, and is a block of at most
    the same order. *)
Lemma buddy_block B s p k st x :
  buddy_ok B s → B !! p = Some (k, st) → pfndb s !! p = Some x → (k < max_order x)%nat →
  ∃ m stb, B !! page_buddy p k = Some (m, stb).
Proof.
  intros [Hb Hpg _] Hp Hx Hlt. pose proof (bk_block _ Hb _ _ _ Hp) as (_ & _ & _ & Hal). pose proof (size_pos k) as Hs.
  destruct (pk_max _ _ Hpg p x Hx) as (_ & h & Hh & Hin & Hcov); [exists p, k, st; split; [done|apply inside_head]|].
  assert (covered B (page_buddy p k)) as (hb & m & stb & Hhb & Hinb).
  { apply Hcov. destruct (buddy_lower p k Hal) as [Hal' Hc].
    eapply (aligned_sub h (Z.min p (page_buddy p k)) (max_order x) (S k)); [lia|done|done| |unfold inside; rewrite size_S; lia].
    destruct Hc as [[-> Hbd]|[Hm Hbd]]; [done|]. rewrite Hm in *.
    destruct Hh as [c ->], Hal' as [d Hd]. destruct (size_split (S k) (max_order x)) as (e & He & Hsz); [lia|].
    unfold inside in *. rewrite size_S in *. rewrite Hsz in *. assert (c * e ≤ d) by nia. nia. }
  assert (hb ≠ p).
  { intros ->. rewrite Hp in Hhb. injection Hhb as <- <-. unfold inside in Hinb. destruct (buddy_cases p k Hal) as [[_ ?]|[_ ?]]; lia. }
  exists m, stb. rewrite <-(buddy_starts B p k st hb m stb); try done. by eapply buddy_same_parent.
Qed.

(** The block at [p] and its buddy become one. *)
Lemma merge_state B s p k q q' :
  let b := page_buddy p k in let l := Z.min p b in
  buddy_ok B s → B !! p = Some (k, Floating) → B !! b = Some (k, Free) → (S k < BUDDY_ORDERS)%nat →
  buddy_queue s !! k = Some q → q_remove b q = Some q' →
  ∃ x, pfndb s !! l = Some x ∧ order x = k ∧
    buddy_ok (merge_at B l k Floating) (set_pfndb (<[l := with_order (S k) x]> (pfndb s))
      (set_buddy (<[k := q']> (buddy_queue s)) (alter (λ n, u64 (n + -1)) k (buddy_queue_npages s)) s)).
Proof.
  intros b l [Hb Hpg Hqs] Hp Hbd Hk Hq Hq'. pose proof (bk_block _ Hb _ _ _ Hp) as (_ & _ & _ & Hal).
  destruct (buddy_lower p k Hal) as [Hal' Hc]. pose proof (size_pos k) as Hs. fold b in Hc, Hal'. fold l in Hc, Hal'.
  assert (∃ s1 s2, B !! l = Some (k, s1) ∧ B !! (l + size k) = Some (k, s2)) as (s1 & s2 & Hl1 & Hl2).
  { destruct Hc as [[E1 E2]|[E1 E2]]; [exists Floating, Free|exists Free, Floating]; by rewrite E1, <-E2. }
  destruct (pk_head _ _ Hpg _ _ _ Hl1) as (x & Hx & Hox & _). exists x. split_and!; [done..|].
  split; simpl; [by eapply merge_blocks|by eapply merge_pages|]. eapply (queues_remove B); [done..|].
  intros z j. unfold merge_at. rewrite lookup_insert_Some, lookup_delete_Some. split.
  - intros [[_ [=]]|(H1 & H2 & H3)]. split; [done|]. destruct Hc as [[E1 E2]|[E1 E2]]; congruence.
  - intros [H1 H2]. right. assert (z ≠ p) by congruence. split_and!; [..|done]; destruct Hc as [[E1 E2]|[E1 E2]]; congruence.
Qed.

(** The whole loop. *)
Lemma page_merge_ok n B s p k :
  buddy_ok B s → B !! p = Some (k, Floating) → lone B p → (BUDDY_ORDERS ≤ S (n + k))%nat →
  wp (page_merge n p) (λ p' s', ∃ B' k', buddy_ok B' s' ∧ merged B B' p k p' k' ∧ same_rest s s' ∧ same_pages (pfndb s) (pfndb s')) s.
Proof.
  revert B s p k. induction n as [|n IH]; intros B s p k Hok Hp Hl Hn; pose proof Hok as [Hb Hpg Hqs];
    destruct (pk_head _ _ Hpg _ _ _ Hp) as (x & Hx & Hox & _); simpl; rewrite wp_bind, wp_page_at; exists x; (split; [done|]).
  all: assert (wp (mret p : kern pst Z) (λ p' s', ∃ B' k', buddy_ok B' s' ∧ merged B B' p k p' k' ∧ same_rest s s' ∧ same_pages (pfndb s) (pfndb s')) s) as Hstop
    by (rewrite wp_ret; exists B, k; split_and!; [done|by apply merged_refl|done|apply same_pages_refl]).
  all: rewrite Hox; case_decide as Hlt; [|exact Hstop].
  all: destruct (pk_max _ _ Hpg p x Hx) as [Hmx _]; [exists p, k, Floating; split; [done|apply inside_head]|].
  { unfold BUDDY_ORDERS in *. lia. }
  destruct (buddy_block B s p k Floating x Hok Hp Hx Hlt) as (m & stb & Hbd).
  destruct (pk_head _ _ Hpg _ _ _ Hbd) as (y & Hy & Hoy & Hfree & Halloc).
  rewrite wp_bind, wp_page_at. exists y. split; [done|]. case_bool_decide as Hom; simpl; [|exact Hstop].
  destruct (on_freelist y) eqn:Hfl; simpl; [|exact Hstop]. assert (m = k) as -> by congruence.
  pose proof (bk_block _ Hb _ _ _ Hp) as (Hk & _ & _ & Hal). pose proof (size_pos k) as Hs.
  assert (stb = Free) as ->.
  { destruct stb; [done|by specialize (Halloc eq_refl)|]. apply Hl in Hbd. destruct (buddy_cases p k Hal) as [[_ ?]|[_ ?]]; lia. }
  destruct (lookup_lt_is_Some_2 (buddy_queue s) k) as [q Hq]; [by rewrite (qk_len _ _ _ Hqs)|].
  destruct (q_remove_elem (page_buddy p k) q) as [q' Hq']; [by apply (qk_queue _ _ _ Hqs _ _ Hq)|].
  destruct (merge_state B s p k q q') as (xl & Hxl & Hoxl & Hok'); [done..|lia|done|done|].
  pose proof (merge_merged B p k Hb Hp Hbd Hl) as Hmg.
  rewrite Hom, wp_bind, wp_queue_remove. exists q. split; [done|]. exists q'. split; [done|].
  replace (if page_buddy p k <? p then page_buddy p k else p) with (Z.min p (page_buddy p k)) by (destruct (Z.ltb_spec (page_buddy p k) p); lia).
  rewrite wp_bind, wp_npages_add, wp_bind, wp_page_upd. exists xl. split; [done|]. rewrite Hoxl. simpl.
  eapply wp_mono; [eapply IH; [exact Hok'|apply Hmg|apply Hmg|lia]|].
  intros p' s' (B' & k' & Hok2 & Hmg' & Hr & Hsp). exists B', k'. split_and!; [done|by eapply merged_trans|done|].
  eapply same_pages_trans; [|exact Hsp]. by eapply same_pages_insert.
Qed.

(** ** Freeing *)

(** What giving back the block of order [k] at [p] does to the specification's
    state. *)
Record given (B B' : blocks) (p : Z) (k : nat) : Prop := Given {
  gv_free : ∀ y, free_at B' y ↔ free_at B y ∨ inside y p k;
  gv_allocated : ∀ q m, allocated B' q m ↔ allocated B q m ∧ q ≠ p;
  gv_covered : ∀ y, covered B' y ↔ covered B y
}.

Definition settled (B : blocks) : Prop := ∀ q m, B !! q ≠ Some (m, Floating).
(** What freeing leaves alone. *)
Record quiet (s s' : pst) : Prop := Quiet {
  qt_modified : modified s' = modified s;
  qt_standby : standby s' = standby s;
  qt_stat : vmstat s' = vmstat s;
  qt_pages : same_pages (pfndb s) (pfndb s')
}.

Lemma page_free_ok B s p k :
  buddy_ok B s → B !! p = Some (k, Floating) → lone B p →
  wp (page_free p) (λ _ s', ∃ B', buddy_ok B' s' ∧ settled B' ∧
    (∀ y, free_at B' y ↔ free_at B y ∨ inside y p k) ∧ (∀ q m, allocated B' q m ↔ allocated B q m) ∧
    (∀ y, covered B' y ↔ covered B y) ∧ quiet s s' ∧
    (∀ b, mem s' b = mem s b ∨ free_at B' (b / PGSIZE))) s.
Proof.
  intros Hok Hp Hl. unfold page_free. rewrite wp_bind. eapply wp_mono; [apply (page_merge_ok _ B s p k Hok Hp Hl); lia|].
  intros p' s1 (B' & k' & Hok' & [Hp' Hl' Hfr Hal Hcov _] & (Hr1 & Hr2 & Hr3 & Hr4 & _) & Hsp). pose proof Hok' as [Hb Hpg Hqs].
  destruct (pk_head _ _ Hpg _ _ _ Hp') as (x & Hx & Hox & _). pose proof (bk_block _ Hb _ _ _ Hp') as (Hk' & _).
  destruct (lookup_lt_is_Some_2 (buddy_queue s1) k') as [q Hq]; [by rewrite (qk_len _ _ _ Hqs)|].
  rewrite wp_bind, wp_page_at. exists x. split; [done|]. rewrite Hox, wp_bind, wp_queue_insert_head. exists q. split; [done|].
  rewrite wp_bind, wp_npages_add, wp_bind, wp_page_upd. exists x. split; [done|]. rewrite wp_mem_fill. simpl.
  assert (∀ y, free_at (<[p' := (k', Free)]> B') y ↔ free_at B' y ∨ inside y p' k') as Hfr'.
  { intros y. unfold free_at. split.
    + intros (z & j & Hz & Hy). lookups; [by right|left; eauto].
    + intros [(z & j & Hz & Hy)|Hy]; [exists z, j|exists p', k'; by rewrite lookup_insert_eq].
      rewrite lookup_insert_ne; [done|congruence]. }
  exists (<[p' := (k', Free)]> B'). split_and!.
  - split; simpl; [by eapply restate_blocks|by eapply restate_pages|].
    eapply (queues_insert B'); [by eapply restate_blocks|done|done| |intros j; congruence].
    intros z j. rewrite lookup_insert_Some. split.
    + intros [[<- [= <-]]|[_ ?]]; [by right|by left].
    + intros [Hz|[-> ->]]; [|by left]. right. split; [congruence|done].
  - intros z j Hz. apply lookup_insert_Some in Hz as [[_ [=]]|[Hne Hz]]. by apply Hl' in Hz.
  - intros y. by rewrite Hfr', Hfr.
  - intros z j. rewrite <-Hal. unfold allocated. destruct (decide (z = p')) as [->|Hne]; [|by rewrite lookup_insert_ne].
    rewrite lookup_insert_eq, Hp'. split; congruence.
  - intros y. rewrite <-Hcov. by eapply restate_covered.
  - split; [done..|]. simpl. eapply same_pages_trans; [exact Hsp|]. by eapply same_pages_insert.
  - intros b. destruct (_ && _) eqn:Hb2; [right|left; by rewrite Hr4]. apply Hfr'. right.
    apply andb_true_iff in Hb2 as [H1 H2]. apply Z.leb_le in H1. apply Z.ltb_lt in H2.
    assert (b / PGSIZE = p') as ->; [|apply inside_head]. unfold PGSIZE, VMP_PAGE_SHIFT in *. change (2 ^ 12) with 4096 in *. Z.div_mod_to_equations. lia.
Qed.

(** The counters after a block of [n] pages was freed. *)
Definition free_stats (n : Z) (st : counter → Z) : counter → Z := λ c,
  if decide (c = nfree) then u64 (st c + n)
  else if decide (c = nreservedfree) then st c + n
  else if decide (c = ndeleted) then u64 (st c - n)
  else st c.

Lemma same_pages_delete pf pf' p : same_pages pf pf' → same_pages (delete p pf) (delete p pf').
Proof.
  intros Hs q. specialize (Hs q). destruct (decide (q = p)) as [->|Hne]; [by rewrite !lookup_delete_eq|by rewrite !lookup_delete_ne].
Qed.
Lemma same_pages_at pf pf' p x : same_pages pf pf' → pf !! p = Some x → ∃ x', pf' !! p = Some x' ∧ same_page x x'.
Proof. intros Hs Hx. specialize (Hs p). rewrite Hx in Hs. destruct (pf' !! p); [eauto|done]. Qed.

(** Starting to free an allocated block. *)
Lemma float_ok B s p k x x' : buddy_ok B s → settled B → B !! p = Some (k, Alloc) → pfndb s !! p = Some x →
  order x' = order x → max_order x' = max_order x → let B1 := <[p := (k, Floating)]> B in
  buddy_ok B1 (set_pfndb (<[p := x']> (pfndb s)) s) ∧ lone B1 p ∧
  (∀ y, free_at B1 y ↔ free_at B y) ∧ (∀ q m, allocated B1 q m ↔ allocated B q m ∧ q ≠ p) ∧ (∀ y, covered B1 y ↔ covered B y).
Proof.
  intros [Hb Hpg Hqs] Hset Hp Hx Ho Hm B1. destruct (pk_head _ _ Hpg _ _ _ Hp) as (x0 & Hx0 & Hox & _). rewrite Hx in Hx0. injection Hx0 as <-.
  assert (∀ z j, B1 !! z = Some (j, Free) ↔ B !! z = Some (j, Free)) as Hfr.
  { intros z j. unfold B1. rewrite lookup_insert_Some. split; [intros [[_ [=]]|[_ ?]]; done|]. intros Hz. right. split; [congruence|done]. }
  split_and!.
  - split; simpl; [by eapply restate_blocks|eapply restate_pages; try done; congruence|].
    destruct Hqs as [Hl Hq]. split; [done|]. intros j q Hj. destruct (Hq j q Hj) as (? & Hin & ?). split_and!; [done| |done].
    intros z. by rewrite Hfr.
  - intros z j Hz. unfold B1 in Hz. apply lookup_insert_Some in Hz as [[? _]|[_ Hz]]; [done|]. by apply Hset in Hz.
  - intros y. unfold free_at. split; intros (z & j & Hz & Hy); exists z, j; (split; [by apply Hfr|done]).
  - intros q m. unfold allocated, B1. rewrite lookup_insert_Some. split.
    + intros [[_ [=]]|[? ?]]; done.
    + intros [? ?]. by right.
  - intros y. by eapply restate_covered.
Qed.

Lemma free_locked_ok B s p k x :
  buddy_ok B s → settled B → B !! p = Some (k, Alloc) → pfndb s !! p = Some x → use x = kPageUseDeleted → refcnt x = 0 →
  wp (vmp_page_free_locked p) (λ _ s', ∃ B' x', given B B' p k ∧ buddy_ok B' s' ∧ settled B' ∧
    pfndb s' !! p = Some x' ∧ use x' = kPageUseFree ∧ same_pages (delete p (pfndb s)) (delete p (pfndb s')) ∧
    modified s' = modified s ∧ standby s' = standby s ∧
    (∀ b, mem s' b = mem s b ∨ free_at B' (b / PGSIZE)) ∧
    (∀ d, vmstat s' d = free_stats (size k) (vmstat s) d)) s.
Proof.
  intros Hok Hset Hp Hx Hu Hr. destruct (pk_head _ _ (bo_pages _ _ Hok) _ _ _ Hp) as (x0 & Hx0 & Hox & _). rewrite Hx in Hx0. injection Hx0 as <-.
  unfold vmp_page_free_locked. rewrite wp_bind, wp_page_at. exists x. split; [done|].
  rewrite wp_bind, wp_kassert, bool_decide_eq_true. split; [done|]. rewrite wp_bind, wp_kassert, Z.eqb_eq. split; [done|].
  rewrite wp_bind, wp_page_set, wp_bind, wp_stat_add, wp_bind, wp_stat_add, wp_bind, wp_stat_add.
  set (x1 := Page _ _ _ _ _ _ _ _ _ _ _ _). set (s1 := set_vmstat _ _).
  destruct (float_ok B s p k x x1 Hok Hset Hp Hx) as (Hok1 & Hl1 & Hfr1 & Hal1 & Hc1); [done..|].
  assert (buddy_ok (<[p := (k, Floating)]> B) s1) as Hok1' by (by destruct Hok1).
  eapply wp_mono; [apply (page_free_ok _ s1 p k Hok1' (lookup_insert_eq _ _ _) Hl1)|].
  intros [] s' (B' & Hok' & Hset' & Hfr & Hal & Hc & [Hm Hst Hvs Hpg] & Hmem). simpl in Hpg.
  destruct (same_pages_at _ _ p x1 Hpg) as (x' & Hx' & Hs'); [by rewrite lookup_insert_eq|].
  exists B', x'. split_and!; try done.
  - split; intros.
    + by rewrite Hfr, Hfr1.
    + by rewrite Hal, Hal1.
    + by rewrite Hc, Hc1.
  - by destruct Hs' as [-> _].
  - apply (same_pages_delete _ _ p) in Hpg. by rewrite delete_insert_eq in Hpg.
  - intros d. rewrite Hvs. unfold s1, free_stats. rewrite Hox. unfold vm_order_to_npages. fold (size k). by destruct d.
Qed.

(** ** Deleting and releasing *)

Lemma upd_page_ok B s p k st x x' : buddy_ok B s → B !! p = Some (k, st) → pfndb s !! p = Some x →
  order x' = order x → max_order x' = max_order x → on_freelist x' = on_freelist x → buddy_ok B (set_pfndb (<[p := x']> (pfndb s)) s).
Proof.
  intros [Hb Hpg Hqs] Hp Hx Ho Hm Hf. split; [done| |done]. simpl.
  destruct (pk_head _ _ Hpg _ _ _ Hp) as (x0 & Hx0 & Hox & H1 & H2). rewrite Hx in Hx0. injection Hx0 as <-.
  rewrite <-(insert_id B p (k, st)) by done. eapply restate_pages; try done; [congruence| |]; rewrite Hf; done.
Qed.

(** The counters after [vmp_page_delete_locked]. *)
Definition delete_stats (c : counter) (n : Z) (st : counter → Z) : counter → Z := λ d,
  if decide (d = ndeleted) then u64 (st d + n) else if decide (d = c) then u64 (st d + - n) else st d.

(** A page that is still referenced is only marked. *)
Lemma delete_referenced B s p k x c :
  buddy_ok B s → B !! p = Some (k, Alloc) → pfndb s !! p = Some x →
  use x ≠ kPageUseDeleted → busy x = false → use_counter (use x) = Some c → refcnt x ≠ 0 →
  wp (vmp_page_delete_locked p) (λ _ s', ∃ st, s' = set_pfndb (<[p := with_use kPageUseDeleted x]> (pfndb s)) (set_vmstat st s) ∧
    buddy_ok B s' ∧ ∀ d, st d = delete_stats c (size k) (vmstat s) d) s.
Proof.
  intros Hok Hp Hx Hu Hbz Hc Hr. destruct (pk_head _ _ (bo_pages _ _ Hok) _ _ _ Hp) as (x0 & Hx0 & Hox & _). rewrite Hx in Hx0. injection Hx0 as <-.
  unfold vmp_page_delete_locked. rewrite wp_bind, wp_page_at. exists x. split; [done|].
  rewrite wp_bind, wp_kassert, bool_decide_false by done. split; [done|]. rewrite wp_bind, wp_kassert, Hbz. split; [done|].
  rewrite wp_bind, wp_use_stats. exists c. split; [done|]. rewrite wp_stat_add, wp_bind, wp_stat_add, wp_bind, wp_page_set.
  rewrite (proj2 (Z.eqb_neq _ 0)) by done. simpl. rewrite wp_ret. eexists. split; [reflexivity|]. split.
  - apply (upd_page_ok B (set_vmstat _ s) p k Alloc x); try done. by destruct Hok.
  - intros d. pose proof (use_counter_other _ _ Hc) as Hot. rewrite !not_elem_of_cons in Hot. destruct Hot as (?&?&?&?&?&?&?&_).
    rewrite Hox. unfold delete_stats, vm_order_to_npages. fold (size k).
    assert (c ≠ ndeleted) by (destruct (use x); simpl in Hc; congruence).
    rewrite (decide_False (P := c = nreservedfree)) by done. destruct (decide (d = ndeleted)) as [->|]; [by rewrite decide_False by done|].
    destruct (decide (d = c)) as [->|]; done.
Qed.

(** The counters after the last reference to a deleted page went. *)
Definition release_stats (n : Z) (st : counter → Z) : counter → Z := λ c,
  if decide (c = nactive) then u64 (st c + - n) else free_stats n st c.

Section release.
Context `{PteFormat}.

Lemma release_deleted B s p k x :
  buddy_ok B s → settled B → B !! p = Some (k, Alloc) → pfndb s !! p = Some x → use x = kPageUseDeleted → refcnt x = 1 →
  wp (vmp_page_release_locked p) (λ _ s', ∃ B' x', given B B' p k ∧ buddy_ok B' s' ∧ settled B' ∧
    pfndb s' !! p = Some x' ∧ use x' = kPageUseFree ∧ same_pages (delete p (pfndb s)) (delete p (pfndb s')) ∧
    modified s' = modified s ∧ standby s' = standby s ∧
    (∀ b, mem s' b = mem s b ∨ free_at B' (b / PGSIZE)) ∧
    (∀ d, vmstat s' d = release_stats (size k) (vmstat s) d)) s.
Proof.
  intros Hok Hset Hp Hx Hu Hr. destruct (pk_head _ _ (bo_pages _ _ Hok) _ _ _ Hp) as (x0 & Hx0 & Hox & _). rewrite Hx in Hx0. injection Hx0 as <-.
  unfold vmp_page_release_locked. rewrite wp_bind, wp_page_at. exists x. split; [done|]. rewrite wp_bind, wp_kassert, Hr. split; [done|].
  rewrite wp_bind, wp_page_set, wp_when. simpl. rewrite wp_bind, wp_stat_add, Hu. simpl. rewrite Hox.
  set (s1 := set_vmstat _ _).
  assert (buddy_ok B s1) as Hok1.
  { pose proof (upd_page_ok B s p k Alloc x (with_refcnt 0 x) Hok Hp Hx eq_refl eq_refl eq_refl) as Hu1. by destruct Hu1. }
  eapply wp_mono; [apply (free_locked_ok B s1 p k (with_refcnt 0 x)); try done; simpl; by rewrite lookup_insert_eq|].
  intros [] s' (B' & x' & Hg & Hok' & Hset' & Hx' & Hu' & Hsp & Hm & Hst & Hmem & Hv). exists B', x'. split_and!; try done.
  - simpl in Hsp. by rewrite delete_insert_eq in Hsp.
  - intros d. rewrite Hv. unfold s1, release_stats, free_stats, vm_order_to_npages. fold (size k). by destruct d.
Qed.
End release.
