(* ===== verification/BuddyTheorems.v ===== *)
(** Adding memory (kernel/vm/resident.c, [vm_region_add]): the region is cut into the
    largest aligned blocks, all free. *)
From S2P Require Import Prelude PteAmd64 Pte Resident Tables PageAlloc BuddyProofs BuddyAlloc BuddyFree.
Import Resident.
Local Open Scope Z_scope.

(** ** Orders *)

Lemma aligned_ctz y k : 0 < y → aligned y k ↔ (k ≤ ctz y)%nat.
Proof.
  intros Hy. destruct (ctz_div y Hy) as [c Hc]. split.
  - intros [d Hd]. destruct (decide (k ≤ ctz y)%nat) as [|Hgt]; [done|]. exfalso.
    destruct (size_split (S (ctz y)) k) as (e & _ & He); [lia|]. rewrite size_S in He. pose proof (size_pos (ctz y)).
    assert (2 * c + 1 = 2 * (d * e)); [|lia]. apply (Z.mul_reg_r _ _ (size (ctz y))); [lia|]. rewrite <-Hc, Hd at 1. rewrite He. lia.
  - intros Hk. apply (aligned_le y k (ctz y) Hk). exists (2 * c + 1). done.
Qed.

Lemma fit_order_spec k y L : y < L → ∃ r, fit_order k (y * PGSIZE) (L * PGSIZE) = Some r ∧ (r ≤ k)%nat ∧ y + size r ≤ L ∧
  ∀ j, (j ≤ k)%nat → y + size j ≤ L → (j ≤ r)%nat.
Proof.
  intros HyL. assert (∀ k, (y * PGSIZE + vm_order_to_npages k * PGSIZE <=? L * PGSIZE) = (y + size k <=? L)) as Hc.
  { intros j. unfold vm_order_to_npages. fold (size j). assert (0 < PGSIZE) by done. destruct (Z.leb_spec (y + size j) L); [apply Z.leb_le|apply Z.leb_gt]; nia. }
  induction k as [|k IH]; simpl; rewrite Hc.
  - exists O. destruct (Z.leb_spec (y + size 0) L) as [Hle|Hgt]; [|unfold size in Hgt; simpl in Hgt; lia].
    split_and!; [done|lia|done|]. intros j ? ?. lia.
  - destruct (Z.leb_spec (y + size (S k)) L) as [Hle|Hgt].
    + exists (S k). split_and!; [done|lia|done|]. intros j ? ?. done.
    + destruct IH as (r & -> & ? & ? & Hmax). exists r. split_and!; [done|lia|done|]. intros j Hj Hfit. apply Hmax; [|done].
      destruct (decide (j = S k)) as [->|]; [lia|lia].
Qed.

(** The order of the block that starts at page [y] of a region that ends at [L]: at
    most 15, aligned, within the region, and the largest such. *)
Definition ord (y L : Z) : nat := default O (block_order (y * PGSIZE) (L * PGSIZE)).
Lemma ord_spec y L : 0 < y < L → L ≤ 2 ^ 32 → block_order (y * PGSIZE) (L * PGSIZE) = Some (ord y L) ∧
  (ord y L < BUDDY_ORDERS)%nat ∧ aligned y (ord y L) ∧ y + size (ord y L) ≤ L ∧
  ∀ j, (j < BUDDY_ORDERS)%nat → aligned y j → y + size j ≤ L → (j ≤ ord y L)%nat.
Proof.
  intros Hy HL. unfold ord, block_order. rewrite Z.shiftr_div_pow2 by done. change (2 ^ VMP_PAGE_SHIFT) with PGSIZE.
  rewrite Z.div_mul by done. rewrite u32_small by lia.
  destruct (fit_order_spec (Nat.min (BUDDY_ORDERS - 1) (ctz y)) y L) as (r & -> & Hr & Hfit & Hmax); [lia|]. simpl.
  unfold BUDDY_ORDERS in *. split_and!; [done|lia|apply aligned_ctz; lia|done|]. intros j Hj Ha Hf. apply Hmax; [|done].
  apply aligned_ctz in Ha; lia.
Qed.
(** Within a block the orders are those of its splitting. *)
Lemma ord_inner y L z : 0 < y < L → L ≤ 2 ^ 32 → y < z < y + size (ord y L) → ord z L = ctz z ∧ z < L.
Proof.
  intros Hy HL Hz. destruct (ord_spec y L Hy HL) as (_ & Hk & Hal & Hfit & _).
  assert (¬ aligned z (ord y L)) as Hna.
  { intros Hza. assert (z = y); [|lia]. eapply (aligned_head y z (ord y L) (ord y L)); try done. unfold inside. lia. }
  rewrite aligned_ctz in Hna by lia. assert (aligned z (ctz z)) as Hza by (apply aligned_ctz; lia).
  assert (inside (z + size (ctz z) - 1) y (ord y L)) as [_ Hin].
  { apply (aligned_sub y z (ord y L) (ctz z)); try done; [lia|unfold inside; lia|]. pose proof (size_pos (ctz z)). unfold inside. lia. }
  destruct (ord_spec z L) as (_ & _ & Hal' & _ & Hmax); [lia|done|]. rewrite aligned_ctz in Hal' by lia.
  assert (ctz z ≤ ord z L)%nat by (apply Hmax; [lia|done|lia]). split; lia.
Qed.

(** ** The PFN database *)

Lemma region_pages_ok n y L s : 0 < y → y + Z.of_nat n = L → L ≤ 2 ^ 32 → (∀ z, y ≤ z < L → pfndb s !! z = None) →
  wp (region_pages n (y * PGSIZE) (L * PGSIZE)) (λ _ s', ∃ pf, s' = set_pfndb pf s ∧
    (∀ z, y ≤ z < L → pf !! z = Some (blank_page (ord z L) None)) ∧ (∀ z, ¬ (y ≤ z < L) → pf !! z = pfndb s !! z)) s.
Proof.
  revert y s. induction n as [|n IH]; intros y s Hy HyL HL Hnone.
  - simpl. rewrite wp_ret. exists (pfndb s). split_and!; [by destruct s|intros z Hz; lia|done].
  - simpl. destruct (ord_spec y L) as (Ho & _); [lia|done|]. rewrite wp_bind, wp_deref. exists (ord y L). split; [done|].
    rewrite wp_bind, wp_modify. rewrite Z.shiftr_div_pow2 by done. change (2 ^ VMP_PAGE_SHIFT) with PGSIZE. rewrite Z.div_mul by done.
    rewrite (Hnone y) by lia. replace (y * PGSIZE + PGSIZE) with ((y + 1) * PGSIZE) by lia.
    eapply wp_mono; [apply IH; [lia|lia|done|]|].
    + intros z Hz. simpl. rewrite lookup_insert_ne by lia. apply Hnone. lia.
    + simpl. intros [] s' (pf & -> & Hin & Hout). exists pf. split_and!; [done|..].
      * intros z Hz. destruct (decide (z = y)) as [->|]; [|apply Hin; lia]. rewrite Hout by lia. by rewrite lookup_insert_eq.
      * intros z Hz. rewrite Hout by lia. by rewrite lookup_insert_ne by lia.
Qed.

(** ** The blocks *)

Lemma add_fresh (B : blocks) y k j st z : (∀ z, inside z y k → ¬ covered B z) → B !! z = Some (j, st) → z + size j ≤ y ∨ y + size k ≤ z.
Proof.
  intros Hnew Hz. destruct (decide (z + size j ≤ y ∨ y + size k ≤ z)) as [|Hov]; [done|]. exfalso.
  pose proof (size_pos j). pose proof (size_pos k). apply (Hnew (Z.max z y)); [unfold inside; lia|].
  exists z, j, st. split; [done|]. unfold inside. lia.
Qed.
Lemma add_covered (B : blocks) y k z : (∀ z, inside z y k → ¬ covered B z) → covered (<[y := (k, Free)]> B) z ↔ covered B z ∨ inside z y k.
Proof.
  intros Hnew. unfold covered. split.
  - intros (p & j & st & Hp & Hin). lookups; [by right|left; eauto].
  - intros [(p & j & st & Hp & Hin)|Hin]; [|exists y, k, Free; by rewrite lookup_insert_eq].
    exists p, j, st. rewrite lookup_insert_ne; [done|]. intros <-. pose proof (size_pos j). pose proof (size_pos k). destruct (add_fresh _ _ _ _ _ _ Hnew Hp); lia.
Qed.

Section add_block.
Context (B : blocks) (s : pst) (y : Z) (k : nat) (x : vm_page) (q : list Z).
Hypothesis (Hok : buddy_ok B s).
Hypothesis (Hk : (k < BUDDY_ORDERS)%nat) (Hy : 0 ≤ y) (H52 : y + size k ≤ 2 ^ 52) (Hal : aligned y k).
Hypothesis (Hnew : ∀ z, inside z y k → ¬ covered B z).
Hypothesis (Hx : pfndb s !! y = Some x) (Hox : order x = k).
Hypothesis (Hinner : ∀ z, y < z < y + size k → ∃ xz, pfndb s !! z = Some xz ∧ order xz = ctz z ∧ max_order xz = O).
Hypothesis (Hq : buddy_queue s !! k = Some q).
Local Notation B' := (<[y := (k, Free)]> B : blocks).

Lemma add_blocks : blocks_ok B'.
Proof.
  destruct (bo_blocks _ _ Hok) as [Hb Hd]. split.
  - intros z j st Hz.  lookups; [done|eauto].
  - intros z j st z' j' st' Hz Hz' Hlt. pose proof (size_pos j). pose proof (size_pos j').  lookups; try lia; try (by eauto).
    all: match goal with Hz : B !! _ = Some _ |- _ => destruct (add_fresh _ _ _ _ _ _ Hnew Hz); lia end.
Qed.
Lemma add_pages : pages_ok B' (<[y := with_max_order k (with_on_freelist true x)]> (pfndb s)).
Proof.
  pose proof (size_pos k) as Hs. destruct Hok as [_ Hpg _]. split.
  - intros p j st Hp.  lookups.
    + eexists. rewrite lookup_insert_eq. split; [done|]. by split_and!.
    + rewrite lookup_insert_ne by done. by eapply pk_head.
  - intros p j st z Hp Hz.  lookups.
    + rewrite lookup_insert_ne by lia. destruct (Hinner z Hz) as (xz & ? & ? & _). eauto.
    + rewrite lookup_insert_ne; [by eapply pk_inner|]. intros ->. destruct (add_fresh _ _ _ _ _ _ Hnew Hp); lia.
  - intros z xz Hz Hcov. apply lookup_insert_Some in Hz as [[<- <-]|[Hne Hz]].
    + split; [done|]. exists y. split_and!; [done|apply inside_head|]. intros w Hw. apply (add_covered _ _ _ _ Hnew). by right.
    + apply (add_covered _ _ _ _ Hnew) in Hcov as [Hcov|Hin].
      * destruct (pk_max _ _ Hpg z xz Hz Hcov) as (? & h & ? & ? & Hw). split; [done|]. exists h. split_and!; [done..|].
        intros w ?. apply (add_covered _ _ _ _ Hnew). left. by apply Hw.
      * destruct (Hinner z) as (xz' & Hz' & _ & Hm); [unfold inside in Hin; lia|]. rewrite Hz in Hz'. injection Hz' as <-. rewrite Hm.
        split; [unfold BUDDY_ORDERS; lia|]. exists z. split_and!; [exists z; unfold size; simpl; lia|apply inside_head|].
        intros w Hw. assert (w = z) as -> by (unfold inside, size in Hw; simpl in Hw; lia). apply (add_covered _ _ _ _ Hnew). by right.
Qed.
Lemma add_ok : buddy_ok B' (set_pfndb (<[y := with_max_order k (with_on_freelist true x)]> (pfndb s))
  (set_buddy (<[k := y :: q]> (buddy_queue s)) (alter (λ n, u64 (n + 1)) k (buddy_queue_npages s)) s)).
Proof.
  assert (∀ j st, B !! y ≠ Some (j, st)) as Hny.
  { intros j st Hby. pose proof (size_pos j). pose proof (size_pos k). destruct (add_fresh _ _ _ _ _ _ Hnew Hby); lia. }
  split; simpl; [apply add_blocks|apply add_pages|]. eapply (queues_insert B); [apply add_blocks|apply Hok|done| |intros j; apply Hny].
  intros z j.  rewrite lookup_insert_Some. split.
  - intros [[<- [= <-]]|[_ ?]]; [by right|by left].
  - intros [Hz|[-> ->]]; [right|by left]. split; [|done]. intros <-. by apply Hny in Hz.
Qed.
End add_block.

(** The blocks of a region. *)
Record region_state (B0 B : blocks) (s : pst) (y0 y L : Z) : Prop := RegionState {
  rs_ok : buddy_ok B s;
  rs_free : ∀ z, free_at B z ↔ free_at B0 z ∨ y0 ≤ z < y;
  rs_alloc : ∀ p m, allocated B p m ↔ allocated B0 p m;
  rs_cov : ∀ z, covered B z ↔ covered B0 z ∨ y0 ≤ z < y;
  rs_settled : ∀ p m, B !! p = Some (m, Floating) → B0 !! p = Some (m, Floating)
}.
Lemma region_state_add B0 B s s' y0 y k L : region_state B0 B s y0 y L → y0 ≤ y → (∀ z, inside z y k → ¬ covered B z) →
  buddy_ok (<[y := (k, Free)]> B) s' → region_state B0 (<[y := (k, Free)]> B) s' y0 (y + size k) L.
Proof.
  intros [Hok Hfr Hall Hcov Hset] Hy0 Hnew Hok'. pose proof (size_pos k) as Hs.
  assert (∀ j st, B !! y ≠ Some (j, st)) as Hny.
  { intros j st Hby. pose proof (size_pos j). destruct (add_fresh _ _ _ _ _ _ Hnew Hby); lia. }
  split; [done|..].
  - intros z. unfold free_at. split.
    + intros (p & j & Hp & Hz). lookups; [right; unfold inside in Hz; lia|].
      assert (free_at B z) as Hf by (exists p, j; done). apply Hfr in Hf as [?|?]; [by left|right; lia].
    + intros Hz. destruct (decide (y ≤ z < y + size k)); [exists y, k; by rewrite lookup_insert_eq|].
      assert (free_at B z) as (p & j & Hp & Hin) by (apply Hfr; destruct Hz; [by left|right; lia]).
      exists p, j. rewrite lookup_insert_ne; [done|]. intros <-. by apply Hny in Hp.
  - intros p m. rewrite <-Hall. unfold allocated. destruct (decide (p = y)) as [->|]; [|by rewrite lookup_insert_ne].
    rewrite lookup_insert_eq. split; [done|]. intros Hp. by apply Hny in Hp.
  - intros z. rewrite (add_covered B y k z Hnew), Hcov. unfold inside. split; [intros [[?|?]|?]; [by left|right; lia|right; lia]|].
    intros [?|?]; [left; by left|]. destruct (decide (z < y)); [left; right; lia|right; lia].
  - intros p m Hp. apply lookup_insert_Some in Hp as [[_ [=]]|[_ Hp]]. by apply Hset.
Qed.
Lemma region_blocks_ok n B0 B s y0 y L :
  region_state B0 B s y0 y L → 0 < y0 ≤ y → y ≤ L ≤ 2 ^ 32 → L - y ≤ Z.of_nat n →
  (∀ z, y ≤ z < L → pfndb s !! z = Some (blank_page (ord z L) None)) → (∀ z, y0 ≤ z < L → ¬ covered B0 z) →
  wp (region_blocks n (y * PGSIZE) (L * PGSIZE)) (λ _ s', ∃ B', region_state B0 B' s' y0 L L ∧
    modified s' = modified s ∧ standby s' = standby s ∧ vmstat s' = vmstat s ∧ mem s' = mem s) s.
Proof.
  revert B s y. induction n as [|n IH]; intros B s y Hrs Hy0 HyL Hn Hpf Hfresh;
    (destruct (decide (y = L)) as [->|Hne]; [simpl; rewrite Z.ltb_irrefl, wp_ret; by exists B|]); [lia|].
  simpl. rewrite (proj2 (Z.ltb_lt _ _)) by (unfold PGSIZE, VMP_PAGE_SHIFT; lia).
  rewrite Z.shiftr_div_pow2 by done. change (2 ^ VMP_PAGE_SHIFT) with PGSIZE. rewrite Z.div_mul by done.
  destruct (ord_spec y L) as (_ & Hk & Hal & Hfit & _); [lia..|]. set (k := ord y L) in *. pose proof (size_pos k) as Hs.
  pose proof Hrs as [Hok _ _ Hcov _].
  destruct (lookup_lt_is_Some_2 (buddy_queue s) k) as [q Hq]; [by rewrite (qk_len _ _ _ (bo_queues _ _ Hok))|].
  assert (pfndb s !! y = Some (blank_page k None)) as Hx by (apply Hpf; lia).
  rewrite wp_bind, wp_page_at. eexists. split; [exact Hx|]. simpl. rewrite wp_bind, wp_queue_insert_head. exists q. split; [done|].
  rewrite wp_bind, wp_npages_add, wp_bind, wp_page_set. simpl. unfold vm_order_to_npages. fold (size k).
  replace (y * PGSIZE + size k * PGSIZE) with ((y + size k) * PGSIZE) by lia.
  assert (∀ z, inside z y k → ¬ covered B z) as Hnew.
  { intros z Hz Hc. unfold inside in Hz. apply Hcov in Hc as [Hc|Hc]; [|lia]. apply (Hfresh z); [lia|done]. }
  assert (∀ z, y < z < y + size k → ∃ xz, pfndb s !! z = Some xz ∧ order xz = ctz z ∧ max_order xz = O) as Hinner.
  { intros z Hz. destruct (ord_inner y L z) as [Ho ?]; [lia|lia|exact Hz|]. exists (blank_page (ord z L) None). split_and!; [apply Hpf; lia|done|done]. }
  eapply wp_mono; [apply (IH (<[y := (k, Free)]> B)); [|lia|lia|lia| |done]|].
  - apply (region_state_add B0 B s); [done|lia|done|]. apply (add_ok B s y k (blank_page k None) q); try done; lia.
  - intros z Hz. simpl. rewrite lookup_insert_ne by lia. apply Hpf. lia.
  - intros [] s' (B' & Hrs' & ? & ? & ? & ?). by exists B'.
Qed.

(** ** The whole region *)

(** A region of whole pages that nothing manages yet. *)
Record new_region (B : blocks) (s : pst) (y L : Z) : Prop := NewRegion {
  nr_range : 0 < y < L ∧ L ≤ 2 ^ 32;
  nr_fresh : ∀ z, y ≤ z < L → ¬ covered B z;
  nr_blank : ∀ z, y ≤ z < L → pfndb s !! z = None
}.

(** Blocks do not depend on unmanaged pages. *)
Lemma buddy_ok_grow B s pf : buddy_ok B s → (∀ z, covered B z → pf !! z = pfndb s !! z) → buddy_ok B (set_pfndb pf s).
Proof.
  intros [Hb [Hh Hi Hm] Hqs] Hsame. assert (∀ p k st z, B !! p = Some (k, st) → inside z p k → pf !! z = pfndb s !! z) as Hin.
  { intros p k st z Hp Hz. apply Hsame. by exists p, k, st. }
  split; [done| |done]. simpl. split.
  - intros p k st Hp. rewrite (Hin p k st); [by eapply Hh|done|apply inside_head].
  - intros p k st z Hp Hz. rewrite (Hin p k st); [by eapply Hi|done|unfold inside; lia].
  - intros z x Hz Hc. rewrite Hsame in Hz by done. by apply Hm.
Qed.

Lemma region_add_ok B s y L : buddy_ok B s → new_region B s y L →
  wp (vm_region_add (y * PGSIZE) (L * PGSIZE)) (λ _ s', ∃ B', region_state B B' s' y L L ∧
    modified s' = modified s ∧ standby s' = standby s ∧
    (∀ d, vmstat s' d = if decide (d = nfree ∨ d = ntotal) then u64 (vmstat s d + (L - y)) else vmstat s d)) s.
Proof.
  intros Hok [[Hy HL] Hfresh Hblank]. unfold vm_region_add. rewrite (proj2 (Z.eqb_neq _ _)) by (unfold PGSIZE, VMP_PAGE_SHIFT; lia).
  replace (L * PGSIZE - y * PGSIZE) with ((L - y) * PGSIZE) by lia. rewrite Z.div_mul by done.
  replace ((L - y) * PGSIZE + PGSIZE - 1) with (PGSIZE - 1 + (L - y) * PGSIZE) by lia.
  rewrite Z.div_add by done. change ((PGSIZE - 1) / PGSIZE) with 0. rewrite Z.add_0_l.
  rewrite wp_bind. eapply wp_mono; [apply region_pages_ok; [lia|lia|lia|done]|].
  intros [] s1 (pf & -> & Hin & Hout). rewrite wp_bind.
  eapply wp_mono; [apply (region_blocks_ok _ B B _ y y L); [|lia|lia|lia|done|done]|].
  - split; [|intros z; split; [by left|intros [?|?]; [done|lia]]|done|intros z; split; [by left|intros [?|?]; [done|lia]]|done].
    apply buddy_ok_grow; [done|]. intros z Hz. apply Hout. intros Hr. by apply (Hfresh z).
  - simpl. intros [] s2 (B' & [Hok' Hf Ha Hc Hs] & Hm & Hst & Hv & _). rewrite wp_bind, !wp_stat_add. exists B'. split_and!; [|done|done|].
    + split; [by destruct Hok'|done..].
    + intros d. rewrite <-Hv. by destruct d.
Qed.

(** The page allocator's theorems: adding memory, allocating, freeing, and the round
    trip through a page's life. *)
Import Resident Tables PageAlloc.

(** ** A machine *)

(** Before any memory is known. *)
Definition boot : pst :=
  Pst ∅ (replicate BUDDY_ORDERS []) (replicate BUDDY_ORDERS 0) [] [] (λ _, 0) false false (λ _, 0).
(** 128 pages from 1 MiB on. *)
Definition demo : pst := final (vm_region_add (256 * PGSIZE) (384 * PGSIZE)) boot.

Lemma boot_ok : buddy_ok ∅ boot.
Proof.
  split; cbn [pfndb buddy_queue buddy_queue_npages boot].
  - split; intros *; by rewrite lookup_empty.
  - split; intros *; [by rewrite lookup_empty..|]. by rewrite lookup_empty.
  - split; [done|]. intros k q Hq. apply lookup_replicate in Hq as [-> Hk]. split_and!; [constructor| |by apply lookup_replicate].
    intros p. rewrite lookup_empty. split; [|done]. intros H. by apply elem_of_nil in H.
Qed.
Lemma boot_region : new_region ∅ boot 256 384.
Proof.
  split; [lia| |done]. intros z _ (p & k & st & Hp & _). by rewrite lookup_empty in Hp.
Qed.
Lemma memory_ok : ∃ B, region_state ∅ B demo 256 384 384.
Proof.
  destruct (wp_final _ _ _ (region_add_ok ∅ boot 256 384 boot_ok boot_region)) as [[] (B & HB & _)]. by exists B.
Qed.
Lemma memory_settled B : region_state ∅ B demo 256 384 384 → settled B.
Proof. intros HB p m Hp. apply (rs_settled _ _ _ _ _ _ HB) in Hp. by rewrite lookup_empty in Hp. Qed.
Lemma memory_free B y : region_state ∅ B demo 256 384 384 → 256 ≤ y < 384 → free_at B y.
Proof. intros HB Hy. apply (rs_free _ _ _ _ _ _ HB). by right. Qed.

(** C25. [vm_region_add] of a page-aligned region that nothing manages yet cuts it into
    aligned blocks on the right free lists: afterwards the allocator's invariant holds
    (blocks tile the managed memory, each free list holds exactly the free blocks of
    its order with its count, the page headers agree), exactly the region's pages have
    become free, allocated blocks are untouched, and the free and total counts have
    grown by the region's size. *)
Theorem vm_region_add_correct B s y L : buddy_ok B s → new_region B s y L →
  wp (vm_region_add (y * PGSIZE) (L * PGSIZE)) (λ _ s', ∃ B', buddy_ok B' s' ∧
    (∀ z, free_at B' z ↔ free_at B z ∨ y ≤ z < L) ∧ (∀ p m, allocated B' p m ↔ allocated B p m) ∧
    (∀ z, covered B' z ↔ covered B z ∨ y ≤ z < L) ∧
    (∀ d, vmstat s' d = if decide (d = nfree ∨ d = ntotal) then u64 (vmstat s d + (L - y)) else vmstat s d)) s.
Proof.
  intros Hok Hnr. eapply wp_mono; [by apply (region_add_ok B s y L)|].
  intros [] s' (B' & [Hok' ? ? ? ?] & _ & _ & ?). by exists B'.
Qed.
Lemma vm_region_add_correct_witness : ∃ B, buddy_ok B demo ∧ free_at B 300 ∧ vmstat demo nfree = 128.
Proof.
  destruct (wp_final _ _ _ (vm_region_add_correct ∅ boot 256 384 boot_ok boot_region)) as [[] (B & Hok & Hf & _ & _ & Hv)].
  exists B. split; [exact Hok|]. split; [apply Hf; right; lia|]. unfold demo. rewrite (Hv nfree). reflexivity.
Defined.

(** C4. With memory plentiful, [vmp_pages_alloc_locked] returns an aligned block of
    2^order pages all of which were free, whenever some free block is large enough;
    exactly these pages stop being free, exactly this block becomes allocated, its
    memory is zero and all other memory unchanged, the page starts with one reference
    and its use, no other page's state changes, and the counters move by the block's
    size. *)
Theorem vmp_pages_alloc_correct `{PteFormat} B s want u must m p0 c :
  buddy_ok B s → plenty s → use_counter u = Some c → B !! p0 = Some (m, Free) → (want ≤ m)%nat →
  wp (vmp_pages_alloc_locked want u must) (λ r s', ∃ p B' x, r = Some p ∧
    aligned p want ∧ (∀ y, inside y p want → free_at B y) ∧
    (∀ y, free_at B' y ↔ free_at B y ∧ ¬ inside y p want) ∧
    (∀ q k, allocated B' q k ↔ allocated B q k ∨ (q = p ∧ k = want)) ∧ buddy_ok B' s' ∧
    pfndb s' !! p = Some (alloc_page u x) ∧ same_pages (delete p (pfndb s)) (delete p (pfndb s')) ∧
    modified s' = modified s ∧ standby s' = standby s ∧
    (∀ b, mem s' b = if (p * PGSIZE <=? b) && (b <? (p + size want) * PGSIZE) then 0 else mem s b) ∧
    (∀ d, vmstat s' d = alloc_stats u (size want) (vmstat s) d)) s.
Proof.
  intros Hok Hpl Hc Hp0 Hm. eapply wp_mono; [by apply (pages_alloc_ok B s want u must m p0 c)|].
  intros r s' (p & B' & x & -> & [? ? ? ? ? ?] & ? & ? & ? & ? & ? & ? & ? & ?). by exists p, B', x.
Qed.
Lemma vmp_pages_alloc_correct_witness : ∃ p, ∃ s', vmp_pages_alloc_locked (H := amd64_format) 0 kPageUseKWired true demo = Ok (Some p, s') ∧ mem s' (p * PGSIZE) = 0.
Proof.
  destruct memory_ok as [B HB]. destruct (memory_free B 256 HB) as (p0 & m & Hp0 & _); [lia|].
  assert (plenty demo) as Hpl by (split; vm_compute; reflexivity).
  pose proof (vmp_pages_alloc_correct (H := amd64_format) B demo 0 kPageUseKWired true m p0 nkwired (rs_ok _ _ _ _ _ _ HB) Hpl eq_refl Hp0 (Nat.le_0_l m)) as Hw.
  destruct (proj1 (wp_ok _ _ _) Hw) as (r & s' & Hrun & p & B' & x & -> & _ & _ & _ & _ & _ & _ & _ & _ & _ & Hmem & _).
  exists p, s'. split; [exact Hrun|]. rewrite Hmem, Z.leb_refl, (proj2 (Z.ltb_lt _ _)); [reflexivity|].
  clear. unfold PGSIZE, VMP_PAGE_SHIFT, size. lia.
Defined.

(** ** The life of a page *)

(** A page (or block) is allocated, deleted and released. *)
Definition page_life `{PteFormat} (want : nat) (u : vm_page_use) : kern pst () :=
  r ← vmp_pages_alloc_locked want u true;
  p ← deref "vmp_pages_alloc_locked" r;
  vmp_page_delete_locked p;;
  vmp_page_release_locked p.

(** The counters hold machine words. *)
Definition words (s : pst) : Prop := ∀ c, c ≠ nreservedfree → 0 ≤ vmstat s c < 2 ^ 64.

Lemma u64_add_sub a n : 0 ≤ a < 2 ^ 64 → u64 (u64 (a - n) + n) = a.
Proof. intros Ha. unfold u64. rewrite Zplus_mod_idemp_l. replace (a - n + n) with a by lia. by apply Z.mod_small. Qed.
Lemma u64_sub_add a n : 0 ≤ a < 2 ^ 64 → u64 (u64 (a + n) + - n) = a.
Proof. intros Ha. unfold u64. rewrite Zplus_mod_idemp_l. replace (a + n + - n) with a by lia. by apply Z.mod_small. Qed.
Lemma u64_add_sub' a n : 0 ≤ a < 2 ^ 64 → u64 (u64 (a + n) - n) = a.
Proof. intros Ha. unfold u64. rewrite Zminus_mod_idemp_l. replace (a + n - n) with a by lia. by apply Z.mod_small. Qed.
(** Allocation, deletion and release cancel out. *)
Lemma stats_cancel u c n st d : (∀ c, c ≠ nreservedfree → 0 ≤ st c < 2 ^ 64) → use_counter u = Some c → u ≠ kPageUseDeleted →
  release_stats n (delete_stats c n (alloc_stats u n st)) d = st d.
Proof.
  intros Hw Hc Hu. unfold release_stats, delete_stats, free_stats, alloc_stats. rewrite Hc.
  destruct d; destruct u; try done; injection Hc as <-; simpl; first [done | lia | apply u64_add_sub | apply u64_sub_add | apply u64_add_sub']; by apply Hw.
Qed.

(** C5. A block that is allocated, deleted while referenced and then released is free
    again: allocated blocks, the set of free pages and every counter are what they
    were before, the allocator's invariant holds, and memory has changed only in free
    pages. *)
Theorem page_life_roundtrip `{PteFormat} B s want u m p0 c :
  buddy_ok B s → settled B → plenty s → words s → use_counter u = Some c → u ≠ kPageUseDeleted →
  B !! p0 = Some (m, Free) → (want ≤ m)%nat →
  wp (page_life want u) (λ _ s', ∃ B', buddy_ok B' s' ∧
    (∀ y, free_at B' y ↔ free_at B y) ∧ (∀ q k, allocated B' q k ↔ allocated B q k) ∧
    (∀ d, vmstat s' d = vmstat s d) ∧ (∀ b, mem s' b = mem s b ∨ free_at B' (b / PGSIZE))) s.
Proof.
  intros Hok Hset Hpl Hw Hc Hu Hp0 Hm. unfold page_life. rewrite wp_bind.
  eapply wp_mono; [by apply (pages_alloc_ok B s want u true m p0 c)|].
  intros r s1 (p & B1 & x & -> & Htk & Hok1 & Hx & Hox & _ & _ & _ & Hmem1 & Hv1).
  assert (B1 !! p = Some (want, Alloc)) as Hp by (apply (tk_allocated _ _ _ _ Htk); by right).
  rewrite wp_bind, wp_deref. exists p. split; [done|]. rewrite wp_bind.
  eapply wp_mono; [eapply (delete_referenced B1 s1 p want (alloc_page u x) c); done|].
  intros [] s2 (st & -> & Hok2 & Hv2). assert (settled B1) as Hset1 by (intros q k Hq; by apply (tk_floating _ _ _ _ Htk), Hset in Hq).
  eapply wp_mono; [eapply (release_deleted B1 _ p want (with_use kPageUseDeleted (alloc_page u x))); try done; simpl; by rewrite lookup_insert_eq|].
  simpl. intros [] s3 (B3 & x' & [Hgf Hga Hgc] & Hok3 & _ & _ & _ & _ & _ & _ & Hmem3 & Hv3). exists B3. split; [done|].
  assert (∀ y, free_at B3 y ↔ free_at B y) as Hfree.
  { intros y. rewrite Hgf, (tk_left _ _ _ _ Htk). pose proof (tk_free _ _ _ _ Htk y). destruct (decide (p ≤ y < p + size want)) as [Hin|Hout];
      [change (inside y p want) in Hin|change (¬ inside y p want) in Hout].
    - split; [tauto|]. intros _. by right.
    - split; [|tauto]. intros [[? _]|?]; done. }
  split_and!; [done|..].
  - intros q k. rewrite Hga, (tk_allocated _ _ _ _ Htk). split; [tauto|]. intros Hq. split; [by left|]. intros ->.
    assert (free_at B p) as (z & j & Hz & Hin) by (apply (tk_free _ _ _ _ Htk), inside_head).
    assert (z = p) as -> by (eapply (block_unique B z j Free p k Alloc p); [apply Hok|done|exact Hq|done|apply inside_head]).
    unfold allocated in Hq. congruence.
  - intros d. rewrite Hv3. unfold release_stats, free_stats. rewrite Hv2. unfold delete_stats. rewrite !Hv1.
    by apply (stats_cancel u c).
  - intros b. destruct (Hmem3 b) as [->|]; [|by right]. rewrite Hmem1. destruct (_ && _) eqn:E; [right|by left].
    apply Hgf. right. apply andb_true_iff in E as [E1%Z.leb_le E2%Z.ltb_lt]. unfold inside, PGSIZE, VMP_PAGE_SHIFT in *.
    change (2 ^ 12) with 4096 in *. Z.div_mod_to_equations. nia.
Qed.
Lemma page_life_roundtrip_witness : ∃ s', page_life (H := amd64_format) 0 kPageUseAnonPrivate demo = Ok ((), s') ∧ vmstat s' nfree = 128.
Proof.
  destruct memory_ok as [B HB]. destruct (memory_free B 256 HB) as (p0 & m & Hp0 & _); [lia|].
  assert (plenty demo) as Hpl by (split; vm_compute; reflexivity).
  assert (words demo) as Hw by (intros c Hc; destruct c; try (by destruct Hc); vm_compute; split; (discriminate || reflexivity)).
  pose proof (page_life_roundtrip (H := amd64_format) B demo 0 kPageUseAnonPrivate m p0 nanonprivate (rs_ok _ _ _ _ _ _ HB) (memory_settled B HB)
    Hpl Hw eq_refl ltac:(discriminate) Hp0 (Nat.le_0_l m)) as Hl.
  destruct (proj1 (wp_ok _ _ _) Hl) as ([] & s' & Hrun & B' & _ & _ & _ & Hv & _).
  exists s'. split; [exact Hrun|]. rewrite Hv. vm_compute. reflexivity.
Defined.
