(* ===== verification/PageAccounts.v ===== *)
(** The page counters: whatever the resident page and page table operations do, free,
    active, modified, standby and wired pages add up to the total. *)
From S2P Require Import Prelude PteAmd64 Pte Resident Tables PageAlloc.
Import Resident Tables PageAlloc.
Local Open Scope Z_scope.

Definition tot (st : counter → Z) : Z :=
  st nfree + st nactive + st nmodified + st nstandby + st npwired - st ntotal.
(** How a counter enters the sum. *)
Definition weight (c : counter) : Z :=
  match c with nfree | nactive | nmodified | nstandby | npwired => 1 | ntotal => -1 | _ => 0 end.

(** [moved d s s']: the sum has changed by [d], as machine words. *)
Definition moved (d : Z) (s s' : pst) : Prop := u64 (tot (vmstat s')) = u64 (tot (vmstat s) + d).
Definition accounted (s : pst) : Prop := u64 (tot (vmstat s)) = 0.

Lemma u64_shift x k : u64 (x + k * 2 ^ 64) = u64 x.
Proof. unfold u64. by rewrite Z_mod_plus_full. Qed.
Lemma u64_eq x y : u64 x = u64 y ↔ ∃ k, x = y + k * 2 ^ 64.
Proof.
  split; [|intros [k ->]; apply u64_shift]. unfold u64. intros Heq. exists (x / 2 ^ 64 - y / 2 ^ 64).
  rewrite (Z.div_mod x (2 ^ 64)) at 1 by done. rewrite (Z.div_mod y (2 ^ 64)) at 1 by done. rewrite Heq. lia.
Qed.
Lemma u64_word x : ∃ k, u64 x = x + k * 2 ^ 64.
Proof. apply u64_eq. unfold u64. by rewrite Z.mod_mod. Qed.

Lemma moved_same s s' : vmstat s' = vmstat s → moved 0 s s'.
Proof. intros Hs. unfold moved. by rewrite Hs, Z.add_0_r. Qed.
Lemma moved_trans d1 d2 d3 s1 s2 s3 : moved d1 s1 s2 → moved d2 s2 s3 → d3 = d1 + d2 → moved d3 s1 s3.
Proof.
  unfold moved. rewrite !u64_eq. intros [k Hk] [j Hj] ->. exists (k + j). lia.
Qed.
Lemma moved_accounted s s' : moved 0 s s' → accounted s → accounted s'.
Proof. unfold moved, accounted. intros -> ?. by rewrite Z.add_0_r. Qed.
Lemma moved_stat c v s :
  moved (weight c * v) s (set_vmstat (λ c', if decide (c' = c)
    then (if decide (c = nreservedfree) then vmstat s c + v else u64 (vmstat s c + v)) else vmstat s c') s).
Proof.
  unfold moved. apply u64_eq. destruct (u64_word (vmstat s c + v)) as [k Hk].
  exists (weight c * k). unfold tot. cbn [vmstat set_vmstat].
  destruct c; cbn [weight]; repeat first [rewrite decide_True by done | rewrite decide_False by done]; rewrite ?Hk; lia.
Qed.

(** [moves d m]: [m] changes the sum by [d] whenever it returns. *)
Definition moves {A} (d : Z) (m : kern pst A) : Prop := ∀ s, wlp m (λ _ s', moved d s s') s.

Section moves.
Context {A B : Type}.
Lemma moves_bind d1 d2 d (m : kern pst A) (f : A → kern pst B) :
  moves d1 m → (∀ a, moves d2 (f a)) → d = d1 + d2 → moves d (m ≫= f).
Proof.
  intros Hm Hf -> s. rewrite wlp_bind. eapply wlp_mono; [apply Hm|]. simpl. intros a s1 H1.
  eapply wlp_mono; [apply Hf|]. simpl. intros b s2 H2. by eapply moved_trans.
Qed.
Lemma moves_ret (a : A) : moves 0 (mret a : kern pst A).
Proof. intros s. by apply moved_same. Qed.
Lemma moves_same (m : kern pst A) : (∀ s, wlp m (λ _ s', vmstat s' = vmstat s) s) → moves 0 m.
Proof. intros Hm s. eapply wlp_mono; [apply Hm|]. intros a s'. apply moved_same. Qed.
Lemma moves_fatal d why : moves d (fatal why : kern pst A).
Proof. done. Qed.
Lemma moves_spin d : moves d (spin : kern pst A).
Proof. done. Qed.
Lemma moves_deref why (o : option A) : moves 0 (deref why o : kern pst A).
Proof. destruct o; [apply moves_ret|done]. Qed.
Lemma moves_if d (b : bool) (m1 m2 : kern pst A) : moves d m1 → moves d m2 → moves d (if b then m1 else m2).
Proof. by destruct b. Qed.
Lemma moves_eq d d' (m : kern pst A) : moves d' m → d = d' → moves d m.
Proof. by intros ? ->. Qed.
End moves.
Lemma moves_when b (m : kern pst ()) : moves 0 m → moves 0 (when b m).
Proof. destruct b; [done|]. intros _. apply moves_ret. Qed.
Lemma moves_kassert why b : moves 0 (kassert why b).
Proof. destruct b; [apply moves_ret|done]. Qed.
Lemma moves_stat c v : moves (weight c * v) (stat_add c v).
Proof. intros s. apply moved_stat. Qed.

(** ** Operations on the allocator's own state *)

Create HintDb moves.
#[export] Hint Resolve moves_ret moves_fatal moves_spin moves_deref moves_when moves_kassert : moves.

Lemma moves_gets {A} (f : pst → A) : moves 0 (gets f).
Proof. by apply moves_same. Qed.
Lemma moves_page_at p : moves 0 (page_at p).
Proof. apply moves_same. intros s. unfold page_at. rewrite wlp_bind, wlp_get, wlp_deref. done. Qed.
Lemma moves_page_set p x : moves 0 (page_set p x).
Proof. by apply moves_same. Qed.
Lemma moves_page_upd p f : moves 0 (page_upd p f).
Proof. eapply moves_bind; [apply moves_page_at|intros x; apply moves_page_set|done]. Qed.
Lemma moves_word_at a : moves 0 (word_at a).
Proof. apply moves_gets. Qed.
Lemma moves_word_set a v : moves 0 (word_set a v).
Proof. by apply moves_same. Qed.
Lemma moves_mem_fill p n v : moves 0 (mem_fill p n v).
Proof. by apply moves_same. Qed.
Lemma moves_queue_at k : moves 0 (queue_at k).
Proof. apply moves_same. intros s. unfold queue_at. rewrite wlp_bind, wlp_get, wlp_deref. done. Qed.
Lemma moves_queue_set k q : moves 0 (queue_set k q).
Proof. by apply moves_same. Qed.
Lemma moves_npages_add k v : moves 0 (npages_add k v).
Proof. by apply moves_same. Qed.
Lemma moves_queue_insert k p : moves 0 (queue_insert_head k p).
Proof. eapply moves_bind; [apply moves_queue_at|intros q; apply moves_queue_set|done]. Qed.
Lemma moves_queue_remove k p : moves 0 (queue_remove k p).
Proof.
  eapply moves_bind; [apply moves_queue_at|intros q|]; [|reflexivity]. eapply moves_bind; [apply moves_deref|intros q'; apply moves_queue_set|done].
Qed.
Lemma moves_update_events : moves 0 vmp_update_events.
Proof. by apply moves_same. Qed.
Lemma moves_modified_remove p : moves 0 (modified_remove p).
Proof. apply moves_same. intros s. unfold modified_remove. rewrite wlp_bind, wlp_get, wlp_bind, wlp_deref. done. Qed.
Lemma moves_standby_remove p : moves 0 (standby_remove p).
Proof. apply moves_same. intros s. unfold standby_remove. rewrite wlp_bind, wlp_get, wlp_bind, wlp_deref. done. Qed.
Lemma moves_use_stats u v : moves 0 (update_page_use_stats u v).
Proof.
  intros s. unfold update_page_use_stats. rewrite wlp_bind, wlp_deref. intros c Hc.
  eapply wlp_mono; [apply moves_stat|]. simpl. intros _ s'. destruct u; simpl in Hc; try done; by injection Hc as <-.
Qed.
#[export] Hint Resolve moves_gets moves_page_at moves_page_set moves_page_upd moves_word_at moves_word_set moves_mem_fill
  moves_queue_at moves_queue_set moves_npages_add moves_queue_insert moves_queue_remove moves_update_events
  moves_modified_remove moves_standby_remove moves_use_stats : moves.

(** Code all of whose steps leave the sum alone. *)
Ltac neutral :=
  repeat first
    [ progress (eauto 1 with moves nocore)
    | match goal with
      | |- moves 0 (_ ≫= _) => eapply (moves_bind 0 0 0); [| |reflexivity]
      | |- ∀ _, _ => intros
      | |- moves _ (if decide _ then _ else _) => case_decide
      | |- moves _ (if ?b then _ else _) => destruct b
      | |- moves _ (match ?x with _ => _ end) => destruct x
      | |- moves _ (let _ := _ in _) => cbv zeta
      end
    | apply moves_when ].

Lemma moves_page_merge n p : moves 0 (page_merge n p).
Proof. revert p. induction n as [|n IH]; intros p; simpl; neutral. Qed.
Lemma moves_page_free p : moves 0 (page_free p).
Proof. unfold page_free. pose proof moves_page_merge. neutral. Qed.
Lemma moves_find_order n k : moves 0 (find_order n k).
Proof. revert k. induction n as [|n IH]; intros k; simpl; neutral. Qed.
Lemma moves_split_down k want : moves 0 (split_down k want).
Proof. induction k as [|k IH]; simpl; neutral. Qed.
#[export] Hint Resolve moves_page_merge moves_page_free moves_find_order moves_split_down : moves.

(** ** The life of a page *)

(** A step that moves [d1], followed by code that moves [d2]. *)
Ltac step d1 d2 :=
  eapply (moves_bind d1 d2); [first [solve [eauto with moves] | eapply moves_eq; [apply moves_stat|cbn [weight]; lia]]|intros []|lia].

(** Freeing adds the block's pages to the free ones; the caller has taken them from
    where they were. *)
Lemma free_moves s p x : pfndb s !! p = Some x →
  wlp (vmp_page_free_locked p) (λ _ s', moved (vm_order_to_npages (order x)) s s') s.
Proof.
  intros Hx. unfold vmp_page_free_locked. rewrite wlp_bind. unfold page_at at 1. rewrite wlp_bind, wlp_get, wlp_deref, Hx. intros ? [= <-].
  rewrite wlp_bind, wlp_kassert. intros _. rewrite wlp_bind, wlp_kassert. intros _.
  assert (∀ y n, moves n (page_set p y;; stat_add nfree n;; stat_add nreservedfree n;; stat_add ndeleted (- n);; page_free p)) as Hm; [|apply Hm].
  intros y n. step 0 n. step n 0. step 0 0. step 0 0. eauto with moves.
Qed.

(** Taking a page off a queue and freeing it. *)
Lemma off_queue_moves (m : kern pst ()) c n s p x : moves 0 m → (∀ s, wlp m (λ _ s', pfndb s' = pfndb s) s) → weight c = 1 →
  pfndb s !! p = Some x → n = vm_order_to_npages (order x) →
  wlp (m;; stat_add c (- n);; vmp_page_free_locked p) (λ _ s', moved 0 s s') s.
Proof.
  intros Hm Hpf Hc Hx ->. rewrite wlp_bind. apply wlp_run. intros [] s1 H1.
  assert (moved 0 s s1) as Hs1 by (specialize (Hm s); rewrite wlp_run in Hm; by eapply Hm).
  assert (pfndb s1 = pfndb s) as Hp1 by (specialize (Hpf s); rewrite wlp_run in Hpf; by eapply Hpf).
  rewrite wlp_bind. pose proof (moved_stat c (- vm_order_to_npages (order x)) s1) as Hs2. unfold stat_add. rewrite wlp_modify.
  eapply wlp_mono; [apply (free_moves _ p x); simpl; by rewrite Hp1|]. simpl. intros _ s3 Hs3.
  eapply moved_trans; [exact Hs1|eapply moved_trans; [exact Hs2|exact Hs3|reflexivity]|]. rewrite Hc. lia.
Qed.
Lemma modified_remove_pfndb p s : wlp (modified_remove p) (λ _ s', pfndb s' = pfndb s) s.
Proof. unfold modified_remove. rewrite wlp_bind, wlp_get, wlp_bind, wlp_deref. done. Qed.
Lemma standby_remove_pfndb p s : wlp (standby_remove p) (λ _ s', pfndb s' = pfndb s) s.
Proof. unfold standby_remove. rewrite wlp_bind, wlp_get, wlp_bind, wlp_deref. done. Qed.

Lemma moves_delete p : moves 0 (vmp_page_delete_locked p).
Proof.
  intros s. unfold vmp_page_delete_locked. rewrite wlp_bind. unfold page_at at 1. rewrite wlp_bind, wlp_get, wlp_deref. intros x Hx.
  rewrite wlp_bind, wlp_kassert. intros _. rewrite wlp_bind, wlp_kassert. intros _. cbv zeta.
  set (n := vm_order_to_npages (order x)). rewrite wlp_bind. apply wlp_run. intros [] s1 H1.
  assert (moved 0 s s1) as Hs1 by (pose proof (moves_use_stats (use x) (- n) s) as Hm; rewrite wlp_run in Hm; by eapply Hm).
  rewrite wlp_bind. unfold stat_add at 1. rewrite wlp_modify. pose proof (moved_stat ndeleted n s1) as Hs2.
  rewrite wlp_bind. unfold page_set. rewrite wlp_modify. set (s3 := set_pfndb _ _).
  assert (moved 0 s s3) as Hs3 by (eapply moved_trans; [exact Hs1|exact Hs2|done]).
  assert (pfndb s3 !! p = Some (with_use kPageUseDeleted x)) as Hx3 by (simpl; by rewrite lookup_insert_eq).
  assert (wlp (mret () : kern pst ()) (λ _ s', moved 0 s s') s3) as Hret by (by rewrite wlp_ret).
  destruct (refcnt x =? 0); simpl; [|exact Hret]. destruct (dirty x); simpl.
  - eapply wlp_mono; [eapply (off_queue_moves _ nmodified n s3 p); [apply moves_modified_remove|intros; apply modified_remove_pfndb|done|exact Hx3|done]|].
    simpl. intros _ s4 Hs4. by eapply moved_trans.
  - eapply wlp_mono; [eapply (off_queue_moves _ nstandby n s3 p); [apply moves_standby_remove|intros; apply standby_remove_pfndb|done|exact Hx3|done]|].
    simpl. intros _ s4 Hs4. by eapply moved_trans.
Qed.
Lemma moves_retain p : moves 0 (vmp_page_retain_locked p).
Proof.
  unfold vmp_page_retain_locked. eapply (moves_bind 0 0 0); [eauto with moves|intros x|done]. cbv zeta. set (n := vm_order_to_npages (order x)).
  eapply (moves_bind 0 0 0); [eauto with moves|intros []|done]. apply moves_when.
  eapply (moves_bind 0 0 0); [eauto with moves|intros []|done]. destruct (dirty x).
  - step 0 0. step (- n) n. eapply moves_eq; [apply moves_stat|cbn [weight]; lia].
  - step 0 0. step (- n) n. step n 0. eauto with moves.
Qed.
#[export] Hint Resolve moves_delete moves_retain : moves.

Section with_format.
Context `{PteFormat}.

Lemma moves_referent_check p x : moves 0 (referent_check p x).
Proof. unfold referent_check. neutral. Qed.
Lemma moves_release p : moves 0 (vmp_page_release_locked p).
Proof.
  intros s. unfold vmp_page_release_locked. rewrite wlp_bind. unfold page_at at 1. rewrite wlp_bind, wlp_get, wlp_deref. intros x Hx.
  rewrite wlp_bind, wlp_kassert. intros _. cbv zeta. set (n := vm_order_to_npages (order x)).
  rewrite wlp_bind. unfold page_set. rewrite wlp_modify. set (s1 := set_pfndb _ _). assert (moved 0 s s1) as Hs1 by (by apply moved_same).
  rewrite wlp_when. destruct (refcnt x =? 1); [|done]. rewrite wlp_bind. unfold stat_add at 1. rewrite wlp_modify.
  pose proof (moved_stat nactive (- n) s1) as Hs2. set (s2 := set_vmstat _ _) in *.
  assert (moved (- n) s s2) as Hs by (eapply moved_trans; [exact Hs1|exact Hs2|cbn [weight]; lia]). clear Hs1 Hs2.
  case_decide as Hu.
  - eapply wlp_mono; [apply (free_moves s2 p (with_refcnt (refcnt x - 1) x)); simpl; by rewrite lookup_insert_eq|].
    simpl. intros _ s3 Hs3. eapply moved_trans; [exact Hs|exact Hs3|unfold n; lia].
  - assert (moves n (referent_check p x;;
      if dirty x then modify (λ s, set_modified (modified s ++ [p]) s);; stat_add nmodified n;; vmp_update_events
      else modify (λ s, set_standby (standby s ++ [p]) s);; stat_add nstandby n)) as Hm.
    { eapply (moves_bind 0 n n); [apply moves_referent_check|intros []|lia]. destruct (dirty x).
      - eapply (moves_bind 0 n); [by apply moves_same|intros []|lia]. step n 0. eauto with moves.
      - eapply (moves_bind 0 n); [by apply moves_same|intros []|lia]. eapply moves_eq; [apply moves_stat|cbn [weight]; lia]. }
    eapply wlp_mono; [apply Hm|]. simpl. intros _ s3 Hs3. eapply moved_trans; [exact Hs|exact Hs3|lia].
Qed.
#[local] Hint Resolve moves_release : moves.

(** ** Page tables *)

Lemma moves_check x : moves 0 (check_page_consistency x).
Proof. unfold check_page_consistency. neutral. Qed.
#[local] Hint Resolve moves_check : moves.
Lemma moves_noswap_created p b : moves 0 (vmp_pagetable_page_noswap_pte_created p b).
Proof. unfold vmp_pagetable_page_noswap_pte_created. neutral. Qed.
Lemma moves_nonzero_created p : moves 0 (vmp_pagetable_page_nonzero_pte_created p).
Proof. unfold vmp_pagetable_page_nonzero_pte_created. neutral. Qed.
Lemma moves_to_trans p x : moves 0 (table_to_trans p x).
Proof. unfold table_to_trans, vmp_md_trans_table_pointers. neutral. Qed.
#[local] Hint Resolve moves_noswap_created moves_nonzero_created moves_to_trans : moves.
Lemma moves_pte_deleted n p b : moves 0 (vmp_pagetable_page_pte_deleted n p b).
Proof. revert p b. induction n as [|n IH]; intros p b; simpl; unfold vmp_md_delete_table_pointers; neutral. Qed.
Lemma moves_became_swap p : moves 0 (vmp_pagetable_page_pte_became_swap p).
Proof. unfold vmp_pagetable_page_pte_became_swap. neutral. Qed.
#[local] Hint Resolve moves_pte_deleted moves_became_swap : moves.
Lemma moves_wire_release pages b : moves 0 (vmp_pte_wire_state_release pages b).
Proof.
  unfold vmp_pte_wire_state_release. generalize (take 4 pages). intros l. induction l as [|[p|] l IH]; simpl; unfold pte_deleted; neutral.
Qed.

(** ** Stealing and allocating *)

Lemma moves_uncounted c v : weight c = 0 → moves 0 (stat_add c v).
Proof. intros Hc. eapply moves_eq; [apply moves_stat|rewrite Hc; lia]. Qed.
Lemma moves_steal_entry x : moves 0 (steal_entry x).
Proof.
  unfold steal_entry, vmp_md_swap_table_pointers, pte_deleted. pose proof (moves_uncounted n_table_pageouts 1 eq_refl). neutral.
Qed.
#[local] Hint Resolve moves_steal_entry : moves.
Lemma moves_steal p : moves 0 (vmp_page_steal p).
Proof.
  unfold vmp_page_steal. eapply (moves_bind 0 0); [eauto with moves|intros x|done]. step 0 0. step 0 0. step 0 0. step 0 0.
  step 1 (-1). step (-1) 0. step 0 0. eauto with moves.
Qed.
Lemma moves_reclaim b : moves 0 (reclaim b).
Proof.
  intros s. unfold reclaim. rewrite wlp_bind, wlp_get. revert s.
  assert (∀ s : pst, moves 0 (if vmp_avail_pages_very_low s && negb b then mret false
    else if vmp_free_pages_low s then match standby s with [] => mret b | page :: rest => modify (set_standby rest);; vmp_page_steal page;; mret true end
    else mret true)) as Hm; [|intros s; apply Hm].
  intros s. pose proof moves_steal. neutral.
Qed.
#[local] Hint Resolve moves_reclaim : moves.
Lemma moves_alloc want u b : moves 0 (vmp_pages_alloc_locked want u b).
Proof.
  unfold vmp_pages_alloc_locked. eapply (moves_bind 0 0); [eauto with moves|intros ok|done]. destruct ok; [|eauto with moves].
  step 0 0. eapply (moves_bind 0 0); [eauto with moves|intros k|done]. step 0 0.
  eapply (moves_bind 0 0); [eauto with moves|intros q|done]. eapply (moves_bind 0 0); [eauto with moves|intros p|done]. step 0 0. step 0 0.
  eapply (moves_bind 0 0); [eauto with moves|intros x|done]. step 0 0. cbv zeta. set (n := vm_order_to_npages want).
  step (- n) n. step 0 n. step n 0. step 0 0. step 0 0. step 0 0. eauto with moves.
Qed.

(** ** Memory added and wired at boot *)

Lemma moves_region_pages n i l : moves 0 (region_pages n i l).
Proof.
  revert i. induction n as [|n IH]; intros i; simpl; [apply moves_ret|]. eapply (moves_bind 0 0); [eauto with moves|intros k|done].
  eapply (moves_bind 0 0); [by apply moves_same|intros []|done]. apply IH.
Qed.
Lemma moves_region_blocks n i l : moves 0 (region_blocks n i l).
Proof. revert i. induction n as [|n IH]; intros i; simpl; neutral. Qed.
Lemma moves_region_add b l : moves 0 (vm_region_add b l).
Proof.
  unfold vm_region_add. destruct (b =? l); [apply moves_ret|]. cbv zeta. eapply (moves_bind 0 0); [apply moves_region_pages|intros []|done].
  eapply (moves_bind 0 0); [apply moves_region_blocks|intros []|done]. step ((l - b) / PGSIZE) (- ((l - b) / PGSIZE)).
  eapply moves_eq; [apply moves_stat|cbn [weight]; lia].
Qed.
Lemma moves_unfree_find n p : moves 0 (unfree_find n p).
Proof. revert p. induction n as [|n IH]; intros p; simpl; neutral. Qed.
Lemma moves_unfree_split n i p w : moves 0 (unfree_split n i p w).
Proof. revert i. induction n as [|n IH]; intros i; simpl; neutral. Qed.
Lemma moves_unfree p k : moves 0 (vmp_page_unfree p k).
Proof.
  unfold vmp_page_unfree. eapply (moves_bind 0 0); [apply moves_unfree_find|intros i|done]. eapply (moves_bind 0 0); [eauto with moves|intros x|done].
  step 0 0. eapply (moves_bind 0 0); [apply moves_unfree_split|intros j|done]. step 0 0. eapply (moves_bind 0 0); [eauto with moves|intros y|done].
  step 0 0. step 0 0. set (n := vm_order_to_npages k). step (- n) n. step n 0. eauto with moves.
Qed.
Lemma moves_range_unfree b l : moves 0 (vmp_range_unfree b l).
Proof.
  unfold vmp_range_unfree. cbv zeta. generalize (ROUNDDOWN b PGSIZE) (ROUNDUP l PGSIZE). intros b' l'.
  generalize (Z.to_nat ((l' - b') / PGSIZE)). intros n. pose proof moves_unfree. revert b'. induction n as [|n IH]; intros i; simpl; neutral.
Qed.

(** ** All operations *)

Inductive pageop :=
  | OpRegionAdd (base limit : Z) | OpRangeUnfree (base limit : Z)
  | OpAlloc (want : nat) (u : vm_page_use) (must : bool)
  | OpDelete (p : Z) | OpRetain (p : Z) | OpRelease (p : Z) | OpSteal (p : Z)
  | OpNoswapCreated (p : Z) (is_new : bool) | OpNonzeroCreated (p : Z)
  | OpPteDeleted (p : Z) (was_swap : bool) | OpBecameSwap (p : Z)
  | OpWireRelease (pages : list (option Z)) (prototype : bool).
Definition pageop_run (o : pageop) : kern pst () :=
  match o with
  | OpRegionAdd b l => vm_region_add b l
  | OpRangeUnfree b l => vmp_range_unfree b l
  | OpAlloc w u m => vmp_pages_alloc_locked w u m;; mret ()
  | OpDelete p => vmp_page_delete_locked p
  | OpRetain p => vmp_page_retain_locked p
  | OpRelease p => vmp_page_release_locked p
  | OpSteal p => vmp_page_steal p
  | OpNoswapCreated p b => vmp_pagetable_page_noswap_pte_created p b
  | OpNonzeroCreated p => vmp_pagetable_page_nonzero_pte_created p
  | OpPteDeleted p b => pte_deleted p b
  | OpBecameSwap p => vmp_pagetable_page_pte_became_swap p
  | OpWireRelease l b => vmp_pte_wire_state_release l b
  end.
Lemma pageop_moves o : moves 0 (pageop_run o).
Proof.
  destruct o; simpl; auto using moves_region_add, moves_range_unfree, moves_delete, moves_retain, moves_release, moves_steal,
    moves_noswap_created, moves_nonzero_created, moves_became_swap, moves_wire_release.
  - eapply (moves_bind 0 0); [apply moves_alloc|intros r; apply moves_ret|done].
  - apply moves_pte_deleted.
Qed.

(** States reached by operations that return. *)
Inductive page_reach (s : pst) : pst → Prop :=
  | reach_here : page_reach s s
  | reach_op o s1 s2 : page_reach s s1 → pageop_run o s1 = Ok ((), s2) → page_reach s s2.

(** C8. No sequence of operations on resident pages and page table pages loses a page
    or counts one twice: starting from a state where free, active, modified, standby
    and wired pages add up to the total (as at boot, when all are zero), they do in
    every state reached by adding and wiring memory, allocating, retaining, releasing,
    deleting and stealing pages, and creating and deleting page table entries. *)
Theorem pages_accounted s s' : accounted s → page_reach s s' → accounted s'.
Proof.
  intros Ha Hr. induction Hr as [|o s1 s2 _ IH Hrun]; [done|]. eapply moved_accounted; [|exact IH].
  pose proof (pageop_moves o s1) as Hm. rewrite wlp_run in Hm. by eapply Hm.
Qed.
End with_format.

Definition accounts_boot : pst :=
  Pst ∅ (replicate BUDDY_ORDERS []) (replicate BUDDY_ORDERS 0) [] [] (λ _, 0) false false (λ _, 0).
Definition accounts_1 : pst := final (pageop_run (OpRegionAdd (256 * PGSIZE) (384 * PGSIZE))) accounts_boot.
Definition accounts_2 : pst := final (pageop_run (OpAlloc 1 kPageUseAnonPrivate true)) accounts_1.
Lemma pages_accounted_witness : accounted accounts_2 ∧ vmstat accounts_2 nactive = 2.
Proof.
  split; [|vm_compute; reflexivity]. apply (pages_accounted accounts_boot accounts_2); [vm_compute; reflexivity|].
  assert (returns (pageop_run (OpRegionAdd (256 * PGSIZE) (384 * PGSIZE))) accounts_boot = true) as H1 by (vm_compute; reflexivity).
  assert (returns (pageop_run (OpAlloc 1 kPageUseAnonPrivate true)) accounts_1 = true) as H2 by (vm_compute; reflexivity).
  exact (reach_op _ _ accounts_1 accounts_2 (reach_op _ _ _ accounts_1 (reach_here _) (final_run _ _ H1)) (final_run _ _ H2)).
Defined.
