(* ===== verification/Walk.v ===== *)
(** Walking page tables (kernel/vm/tables.c): [vmp_fetch_pte], which looks an entry up,
    and [vmp_wire_pte], which pins the tables on the way and makes the missing ones.

    [vmp_wire_pte] may have to wait, for a table that is being read in or that it
    starts to read in; the model returns what it waits for, and [wire_walk] and
    [wire_pagein_done] carry on from there. *)
From S2P Require Import Prelude Pte Resident Tables PageAlloc.
Import Resident Tables PageAlloc.
Local Open Scope Z_scope.

Module Walk.
Section walk.
Context `{PteFormat}.

(** [&table[indexes[level]]] *)
Definition entry (table vaddr : Z) (level : nat) : Z := table + 8 * vmp_addr_unpack vaddr level.

(** The loop of [vmp_fetch_pte]; [None] is the return value -1. *)
Fixpoint fetch_level (level : nat) (table vaddr : Z) : kern pst (option Z) :=
  match level with
  | O => fatal "unreached"
  | S level' =>
      let pte := entry table vaddr level in
      if decide (level' = O) then mret (Some pte)
      else
        w ← word_at pte;
        if negb (bool_decide (vmp_pte_characterise w = kPTEKindValid)) then mret None
        else fetch_level level' (vmp_pte_hw_paddr w) vaddr
  end.
Definition vmp_fetch_pte (table vaddr : Z) : kern pst (option Z) := fetch_level VMP_TABLE_LEVELS table vaddr.

(** What a walk is for: the process (its tables' owner), or the object whose
    prototype tables it walks. *)
Record walk_args := WalkArgs { wa_ps : Z; wa_vaddr : Z; wa_obj : option Z; wa_create : bool }.
Definition is_proto (a : walk_args) : bool := bool_decide (is_Some (wa_obj a)).

Inductive wire_result :=
  | Wired (pte : Z) (pages : list Z)
  | Missing (level : nat)
  | WaitBusy (level : nat) (table : Z) (pages : list Z) (page : Z)
  | WaitPageIn (level : nat) (pages : list Z) (pte page drumslot : Z).

(** [kPageUsePML1 + (level - 2)] or [kPageUseVPML1 + (level - 2)] *)
Definition table_use (a : walk_args) (level : nat) : vm_page_use :=
  if is_proto a then match level with 2%nat => kPageUseVPML1 | 3%nat => kPageUseVPML2 | _ => kPageUseVPML3 end
  else match level with 2%nat => kPageUsePML1 | 3%nat => kPageUsePML2 | _ => kPageUsePML3 end.

(** A new table page: retained once, and pinned by this walk. *)
Definition new_table (a : walk_args) (level : nat) (pte : Z) : kern pst Z :=
  r ← vmp_page_alloc_locked (table_use a level) false;
  page ← deref "r == 0" r;
  page_upd page (λ x, with_referent pte (with_ptes (i16 (nonzero_ptes x + 1)) (i16 (noswap_ptes x + 1))
    (with_owner (default (wa_ps a) (wa_obj a)) x)));;
  mret page.

(** A level above the leaves: [next] walks on from the table below.  [pages] are those
    pinned so far, the last one first. *)
Definition wire_level (next : Z → list Z → kern pst wire_result) (level : nat) (a : walk_args) (table : Z) (pages : list Z) :
    kern pst wire_result :=
  let pte := entry table (wa_vaddr a) level in
  dirpage ← deref "pages[level - 1]" (head pages);
  w ← word_at pte;
  match vmp_pte_characterise w with
  | kPTEKindValid =>
      let page := vm_paddr_to_page (vmp_pte_hw_paddr w) in
      vmp_pagetable_page_noswap_pte_created page true;;
      next (vmp_pte_hw_paddr w) (page :: pages)
  | kPTEKindBusy =>
      page ← deref "vmp_md_soft_pte_pfn" (vmp_md_soft_pte_pfn w);
      mret (WaitBusy level table pages page)
  | kPTEKindTrans =>
      page ← deref "vmp_md_soft_pte_pfn" (vmp_md_soft_pte_pfn w);
      x ← page_at page;
      kassert "page->use != kPageUseFree" (negb (bool_decide (use x = kPageUseFree)));;
      vmp_pagetable_page_noswap_pte_created page true;;
      vmp_md_setup_table_pointers dirpage page pte kWasTrans;;
      w' ← word_at pte;
      next (vmp_pte_hw_paddr w') (page :: pages)
  | kPTEKindSwap =>
      drumslot ← deref "vmp_md_soft_pte_pfn" (vmp_md_soft_pte_pfn w);
      page ← new_table a level pte;
      page_upd page (λ x, with_dirty false (with_drumslot drumslot x));;
      (if is_proto a then fatal "implement" else vmp_md_busy_table_pointers dirpage pte page);;
      stat_add n_table_pageins 1;;
      mret (WaitPageIn level pages pte page drumslot)
  | kPTEKindZero =>
      if negb (wa_create a) then
        vmp_pte_wire_state_release (replicate (level - 1) None ++ map Some pages) (is_proto a);;
        mret (Missing level)
      else
        page ← new_table a level pte;
        (if is_proto a then
           word_set pte (vmp_md_pte_create_hw page true false false false);;
           vmp_pagetable_page_noswap_pte_created dirpage true
         else vmp_md_setup_table_pointers dirpage page pte kWasZero);;
        w' ← word_at pte;
        next (vmp_pte_hw_paddr w') (page :: pages)
  | kPTEKindFork => fatal "Unexpected page table PTE state!"
  end.
Fixpoint wire_walk (level : nat) (a : walk_args) (table : Z) (pages : list Z) : kern pst wire_result :=
  match level with
  | O => fatal "unreached"
  | S level' =>
      if decide (level' = O) then mret (Wired (entry table (wa_vaddr a) level) pages)
      else wire_level (wire_walk level' a) level a table pages
  end.
(** The page of a table has been read in; the locks are held again. *)
Definition wire_pagein_done (level : nat) (a : walk_args) (pages : list Z) (pte page : Z) : kern pst wire_result :=
  dirpage ← deref "pages[level - 1]" (head pages);
  (if is_proto a then
     word_set pte (vmp_md_pte_create_hw page true false false false);;
     vmp_pagetable_page_noswap_pte_created dirpage false
   else vmp_md_setup_table_pointers dirpage page pte kWasTrans);;
  setup_pte_counts 512 (page * PGSIZE) page;;
  w' ← word_at pte;
  wire_walk (level - 1) a (vmp_pte_hw_paddr w') (page :: pages).
Definition vmp_wire_pte (a : walk_args) (root : Z) : kern pst wire_result :=
  let page := vm_paddr_to_page root in
  vmp_pagetable_page_noswap_pte_created page true;;
  wire_walk 4 a root [page].

(** [memcpy] of part of a table. *)
Definition copy_words (dst src n : Z) : kern pst () :=
  modify (λ s, set_mem (λ b, if (dst <=? b) && (b <? dst + n) then mem s (b - dst + src) else mem s b) s).
(** The kernel's entries of level 4 are made at once and are never taken away. *)
Fixpoint preallocate (n : nat) (ps pte : Z) : kern pst () :=
  match n with
  | O => mret ()
  | S n' =>
      w ← word_at pte;
      when (w =? 0)
        (r ← vmp_pages_alloc_locked 0 kPageUsePML3 true;
         pml3_page ← deref "pml3_page" r;
         page_upd pml3_page (λ x, with_refcnt 10000 (with_ptes 10000 10000 (with_owner ps x)));;
         word_set pte (vmp_md_pte_create_hw pml3_page true true true false));;
      preallocate n' ps (pte + 8)
  end.
(** [vmp_md_ps_init] of the kernel's process, with [table] the table of the boot loader, or of
    another, with [table] that of the kernel, whose upper half it shares.  It gives
    [vmps->md.table]; loading the table into the processor is not modelled. *)
Definition vmp_md_ps_init (kernel : bool) (ps table : Z) : kern pst Z :=
  r ← vmp_pages_alloc_locked 0 kPageUsePML4 true;
  table_page ← deref "table_page" r;
  page_upd table_page (with_owner ps);;
  let table_addr := table_page * PGSIZE in
  (if kernel then copy_words table_addr table PGSIZE;; preallocate 256 ps (table_addr + 256 * 8)
   else copy_words (table_addr + PGSIZE / 2) (table + PGSIZE / 2) (PGSIZE / 2));;
  mret table_addr.
End walk.
End Walk.
