(* ===== verification/PageTree.v ===== *)
(** Trees of page tables.  A table page counts its entries; the counts are those of the
    entries that are there, plus one for every pin.  The invariant [tree] says so, and that
    every table but the roots has exactly one entry that refers to it, in the table above.

    Pinning, unpinning and linking a table keep the invariant and every translation. *)
From S2P Require Import Prelude Pte Resident Tables PageAlloc BuddyProofs BuddyAlloc BuddyFree Walk.
Import Resident Tables PageAlloc Walk.
Local Open Scope Z_scope.

(** ** Counting *)

Definition tally (g : Z → bool) (l : list Z) : Z := foldr (λ i n, Z.b2z (g i) + n) 0 l.
Lemma tally_ext g g' l : (∀ i, i ∈ l → g i = g' i) → tally g l = tally g' l.
Proof.
  induction l as [|i l IH]; intros Hg; [done|]. simpl. rewrite (Hg i) by set_solver. f_equal. apply IH. intros j Hj. apply Hg. set_solver.
Qed.
Lemma tally_range g l : 0 ≤ tally g l ≤ Z.of_nat (length l).
Proof. induction l as [|i l IH]; simpl; [lia|]. destruct (g i); simpl; lia. Qed.
Lemma tally_set g g' l i : NoDup l → i ∈ l → (∀ j, j ≠ i → g' j = g j) → tally g' l = tally g l - Z.b2z (g i) + Z.b2z (g' i).
Proof.
  intros Hnd Hi Hg. induction l as [|j l IH]; [by apply elem_of_nil in Hi|]. apply NoDup_cons in Hnd as [Hj Hnd]. simpl.
  destruct (decide (j = i)) as [->|Hne].
  - rewrite (tally_ext g' g l); [lia|]. intros k Hk. apply Hg. by intros ->.
  - rewrite Hg by done. rewrite IH; [lia|done|set_solver].
Qed.
Lemma tally_zero g l : tally g l = 0 ↔ ∀ i, i ∈ l → g i = false.
Proof.
  split.
  - intros H0 i Hi. induction l as [|j l IH]; [by apply elem_of_nil in Hi|]. simpl in H0. pose proof (tally_range g l).
    destruct (g j) eqn:E; simpl in H0; [lia|]. apply elem_of_cons in Hi as [->|Hi]; [done|]. apply IH; [lia|done].
  - intros Hg. rewrite (tally_ext g (λ _, false) l Hg). clear Hg. by induction l.
Qed.
Lemma tally_le g g' l : (∀ i, i ∈ l → g i = true → g' i = true) → tally g l ≤ tally g' l.
Proof.
  induction l as [|i l IH]; intros Hg; [done|]. simpl. assert (tally g l ≤ tally g' l) by (apply IH; intros; apply Hg; [set_solver|done]).
  pose proof (Hg i ltac:(set_solver)) as Hi. destruct (g i), (g' i); simpl; try lia; by specialize (Hi eq_refl).
Qed.

Section tree.
Context `{F : PteFormat} {L : PteLaws F}.

(** ** Entries *)

Notation kind := vmp_pte_characterise.
Notation index := vmp_addr_unpack.

(** The address of entry [i] of table [t]. *)
Definition cell (t i : Z) : Z := t * PGSIZE + 8 * i.
Lemma cell_entry t v l : entry (t * PGSIZE) v l = cell t (index v l).
Proof. done. Qed.
Lemma cell_page t i : 0 ≤ i < 512 → cell t i / PGSIZE = t.
Proof. intros Hi. unfold cell, PGSIZE, VMP_PAGE_SHIFT. change (2 ^ 12) with 4096. Z.div_mod_to_equations. lia. Qed.
Lemma cell_inj t i t' i' : 0 ≤ i < 512 → 0 ≤ i' < 512 → cell t i = cell t' i' → t = t' ∧ i = i'.
Proof.
  intros Hi Hi' Heq. assert (t = t') as -> by (rewrite <-(cell_page t i Hi), Heq; by apply cell_page). unfold cell in Heq. lia.
Qed.
Lemma page_of t : vm_paddr_to_page (t * PGSIZE) = t.
Proof. unfold vm_paddr_to_page. rewrite Z.shiftr_div_pow2 by done. change (2 ^ VMP_PAGE_SHIFT) with PGSIZE. by apply Z.div_mul. Qed.
Lemma page_of_cell t i : 0 ≤ i < 512 → vm_paddr_to_page (cell t i) = t.
Proof. intros Hi. unfold vm_paddr_to_page. rewrite Z.shiftr_div_pow2 by done. by apply cell_page. Qed.
Lemma paddr_of w t : vmp_md_pte_hw_pfn w = t → 0 ≤ t < 2 ^ pfn_bits → vmp_pte_hw_paddr w = t * PGSIZE.
Proof.
  intros Hw Ht. pose proof law_bits as Hb. assert (2 ^ pfn_bits ≤ 2 ^ 52) by (apply Z.pow_le_mono_r; lia).
  rewrite law_paddr, Hw. unfold PGSIZE, VMP_PAGE_SHIFT. rewrite Z.shiftl_mul_pow2 by lia. apply u64_small. lia.
Qed.

(** Entries that are there, entries that keep their table in memory, and the table an entry
    above the leaves refers to. *)
Definition nonzero (w : Z) : bool := negb (bool_decide (kind w = kPTEKindZero)).
Definition noswap (w : Z) : bool := match kind w with kPTEKindValid | kPTEKindTrans | kPTEKindBusy => true | _ => false end.
Definition child (w : Z) : option Z :=
  match kind w with kPTEKindValid => Some (vmp_md_pte_hw_pfn w) | kPTEKindTrans => vmp_md_soft_pte_pfn w | _ => None end.
(** Of the first [n] entries of table [t], how many satisfy [f]. *)
Definition count (f : Z → bool) (n : Z) (m : Z → Z) (t : Z) : Z := tally (λ i, f (m (cell t i))) (seqZ 0 n).

Lemma noswap_nonzero w : noswap w = true → nonzero w = true.
Proof. unfold noswap, nonzero. by destruct (kind w). Qed.
Lemma nonzero_zero w : nonzero w = false ↔ kind w = kPTEKindZero.
Proof. unfold nonzero. by rewrite negb_false_iff, bool_decide_eq_true. Qed.
Lemma child_noswap w c : child w = Some c → noswap w = true.
Proof. unfold child, noswap. by destruct (kind w). Qed.
Lemma child_zero w : kind w = kPTEKindZero → child w = None.
Proof. unfold child. by intros ->. Qed.

Lemma count_range f n m t : 0 ≤ n → 0 ≤ count f n m t ≤ n.
Proof. intros Hn. pose proof (tally_range (λ i, f (m (cell t i))) (seqZ 0 n)) as H. rewrite length_seqZ in H. unfold count. lia. Qed.
Lemma count_ext f n m m' t : (∀ i, 0 ≤ i < n → m (cell t i) = m' (cell t i)) → count f n m t = count f n m' t.
Proof. intros Hm. apply tally_ext. intros i Hi. apply elem_of_seqZ in Hi. by rewrite Hm by lia. Qed.
Lemma count_zero f n m t : count f n m t = 0 ↔ ∀ i, 0 ≤ i < n → f (m (cell t i)) = false.
Proof.
  unfold count. rewrite tally_zero. split; intros H i Hi; apply H; [apply elem_of_seqZ; lia|apply elem_of_seqZ in Hi; lia].
Qed.
Lemma count_le n m t : count noswap n m t ≤ count nonzero n m t.
Proof. apply tally_le. intros. by apply noswap_nonzero. Qed.
Lemma count_some f n m t i : 0 ≤ i < n → f (m (cell t i)) = true → 1 ≤ count f n m t.
Proof.
  intros Hi Hf. pose proof (count_range f n m t). destruct (decide (count f n m t = 0)) as [H0|]; [|lia].
  rewrite count_zero in H0. by rewrite H0 in Hf.
Qed.

(** Storing a word. *)
Definition store (m : Z → Z) (a w : Z) : Z → Z := λ b, if b =? a then w else m b.
Lemma store_eq m a w : store m a w a = w.
Proof. unfold store. by rewrite Z.eqb_refl. Qed.
Lemma store_ne m a w b : b ≠ a → store m a w b = m b.
Proof. intros Hb. unfold store. by rewrite (proj2 (Z.eqb_neq b a)). Qed.
Lemma count_store f n m t i w t' : 0 ≤ i < 512 → n ≤ 512 → (t' = t → i < n) →
  count f n (store m (cell t i) w) t' = count f n m t' + if decide (t' = t) then Z.b2z (f w) - Z.b2z (f (m (cell t i))) else 0.
Proof.
  intros Hi Hn Hin. case_decide as Ht.
  - subst t'. unfold count. rewrite (tally_set (λ i, f (m (cell t i))) _ _ i).
    + rewrite store_eq. lia.
    + apply NoDup_seqZ.
    + apply elem_of_seqZ. specialize (Hin eq_refl). lia.
    + intros j Hj. rewrite store_ne; [done|]. unfold cell. lia.
  - rewrite Z.add_0_r. apply count_ext. intros j Hj. apply store_ne. intros Heq. apply cell_inj in Heq as [-> _]; [done|lia|done].
Qed.

(** ** Translations *)

(** The leaf table for an address, from table [t] of level [l], and the entry in it. *)
Fixpoint leaf_of (m : Z → Z) (l : nat) (t v : Z) : option Z :=
  match l with
  | O => None
  | S O => Some t
  | S l' => match child (m (cell t (index v l))) with Some c => leaf_of m l' c v | None => None end
  end.
Definition present (w : Z) : option Z := if decide (kind w = kPTEKindZero) then None else Some w.
Definition xlate (m : Z → Z) (l : nat) (t v : Z) : option (Z * Z) :=
  c ← leaf_of m l t v; w ← present (m (cell c (index v 1))); Some (cell c (index v 1), w).
Lemma xlate_step m l t v : xlate m (S (S l)) t v = match child (m (cell t (index v (S (S l))))) with Some c => xlate m (S l) c v | None => None end.
Proof. unfold xlate. cbn [leaf_of]. by destruct (child _). Qed.
Lemma xlate_leaf m t v : xlate m 1 t v = w ← present (m (cell t (index v 1))); Some (cell t (index v 1), w).
Proof. done. Qed.
Lemma present_zero w : kind w = kPTEKindZero → present w = None.
Proof. intros Hw. unfold present. by rewrite decide_True. Qed.
Lemma present_some w : kind w ≠ kPTEKindZero → present w = Some w.
Proof. intros Hw. unfold present. by rewrite decide_False. Qed.

(** ** The invariant *)

(** What a table is: its level (1 for leaves, 4 for roots), the process or object it belongs
    to, whether it is a prototype, and how many of its entries are the tree's: some ports
    copy the kernel's entries into the upper half of every root. *)
Record table := Table { t_level : nat; t_owner : Z; t_proto : bool; t_slots : Z }.
Notation tables := (gmap Z table).
Definition down (ti : table) : table := Table (t_level ti - 1) (t_owner ti) (t_proto ti) 512.
Definition level_use (proto : bool) (l : nat) : vm_page_use :=
  if proto then match l with 1%nat => kPageUseVPML1 | 2%nat => kPageUseVPML2 | 3%nat => kPageUseVPML3 | _ => kPageUseVPML4 end
  else match l with 1%nat => kPageUsePML1 | 2%nat => kPageUsePML2 | 3%nat => kPageUsePML3 | _ => kPageUsePML4 end.

(** A table without pins and with no entry that keeps it in memory is idle: it waits on a
    queue to be written out or stolen. *)
Definition idle (s : pst) (t : Z) (x : vm_page) : Prop := if dirty x then t ∈ modified s else t ∈ standby s.
Record table_page (pins : Z → Z) (s : pst) (t : Z) (ti : table) (x : vm_page) : Prop := TablePage {
  tp_use : use x = level_use (t_proto ti) (t_level ti);
  tp_owner : owner x = t_owner ti;
  tp_busy : busy x = false;
  tp_nonzero : nonzero_ptes x = pins t + count nonzero (t_slots ti) (mem s) t;
  tp_noswap : noswap_ptes x = pins t + count noswap (t_slots ti) (mem s) t;
  tp_refcnt : refcnt x = noswap_ptes x + (if decide (t_level ti = 4%nat) then 1 else 0);
  tp_used : t_level ti ≠ 4%nat → 0 < nonzero_ptes x;
  tp_idle : refcnt x = 0 → t_proto ti = false ∧ idle s t x
}.
(** The only entry that refers to a table. *)
Definition linked (T : tables) (s : pst) (t : Z) (ti : table) (x : vm_page) : Prop :=
  ∃ d i di, 0 ≤ i < t_slots di ∧ referent_pte x = cell d i ∧ T !! d = Some di ∧ ti = down di ∧
    child (mem s (cell d i)) = Some t ∧ kind (mem s (cell d i)) = (if decide (refcnt x = 0) then kPTEKindTrans else kPTEKindValid).
Definition entry_ok (T : tables) (s : pst) (d : Z) (di : table) (i : Z) : Prop :=
  kind (mem s (cell d i)) = kPTEKindZero ∨
  ∃ c x, child (mem s (cell d i)) = Some c ∧ T !! c = Some (down di) ∧ pfndb s !! c = Some x ∧ referent_pte x = cell d i.

(** The counts of a page have 16 bits: [PINS] keeps them far from their limit. *)
Definition PINS : Z := 20000.
Record tree (pins : Z → Z) (T : tables) (s : pst) : Prop := Tree {
  tr_info : ∀ t ti, T !! t = Some ti → (1 ≤ t_level ti ≤ 4)%nat ∧ t_owner ti ≠ 0 ∧ 0 < t < 2 ^ pfn_bits ∧ 0 ≤ pins t ≤ PINS;
  tr_page : ∀ t ti, T !! t = Some ti → ∃ x, pfndb s !! t = Some x ∧ table_page pins s t ti x ∧
    (t_level ti ≠ 4%nat → linked T s t ti x);
  tr_entry : ∀ d di i, T !! d = Some di → (2 ≤ t_level di)%nat → 0 ≤ i < t_slots di → entry_ok T s d di i;
  tr_pins : ∀ t, T !! t = None → pins t = 0;
  tr_slots : ∀ t ti, T !! t = Some ti → 0 ≤ t_slots ti ≤ 512 ∧ (t_level ti ≠ 4%nat → t_slots ti = 512)
}.

(** ** What changes of entries do to translations *)

Definition dead (m : Z → Z) (l : nat) (w v : Z) : Prop := match child w with Some c => xlate m l c v = None | None => True end.
(** The entry at [a] of a table of level [l] still leads where it led. *)
Definition same_entry (m m' : Z → Z) (l : nat) (v a : Z) : Prop :=
  if decide (l = 1%nat) then present (m' a) = present (m a)
  else child (m' a) = child (m a) ∨ (dead m (l - 1) (m a) v ∧ dead m' (l - 1) (m' a) v).
Lemma same_entry_refl m m' l v a : m' a = m a → same_entry m m' l v a.
Proof. intros Ha. unfold same_entry. rewrite Ha. case_decide; [done|by left]. Qed.

Lemma entry_child pins T s t ti i c : tree pins T s → T !! t = Some ti → (2 ≤ t_level ti)%nat → 0 ≤ i < t_slots ti →
  child (mem s (cell t i)) = Some c → T !! c = Some (down ti).
Proof.
  intros Htr Ht Hl Hi Hc. destruct (tr_entry _ _ _ Htr t ti i Ht Hl Hi) as [Hz|(c' & x & Hc' & HT & _)].
  - by rewrite child_zero in Hc.
  - congruence.
Qed.
Lemma xlate_same pins T s m' v : tree pins T s →
  (∀ t ti, T !! t = Some ti → same_entry (mem s) m' (t_level ti) v (cell t (index v (t_level ti)))) →
  ∀ l t ti, T !! t = Some ti → t_level ti = l → index v l < t_slots ti → xlate m' l t v = xlate (mem s) l t v.
Proof.
  intros Htr Hsame l. induction l as [|l IH]; intros t ti Ht Hl Hsl; [done|]. pose proof (law_index v (S l)) as Hix. pose proof (Hsame t ti Ht) as He. rewrite Hl in He.
  destruct l as [|l]; [by rewrite !xlate_leaf; unfold same_entry in He; simpl in He; rewrite He|].
  unfold same_entry in He. rewrite decide_False in He by lia. rewrite !xlate_step.
  change (S (S l) - 1)%nat with (S l) in He. destruct He as [He|[H1 H2]].
  - rewrite He. destruct (child (mem s _)) as [c|] eqn:E; [|done]. apply (IH c (down ti)); [|simpl; lia|simpl; apply law_index].
    eapply (entry_child _ _ _ t ti (index v (S (S l)))); [done|done|lia|lia|done].
  - unfold dead in H1, H2. destruct (child (mem s _)), (child (m' _)); congruence.
Qed.

(** A table is on the way of one address only, as far as its place in the tree goes. *)
Lemma parent_unique pins T s c d di i e ei j : tree pins T s → T !! d = Some di → (2 ≤ t_level di)%nat →
  T !! e = Some ei → (2 ≤ t_level ei)%nat → 0 ≤ i < t_slots di → 0 ≤ j < t_slots ei →
  child (mem s (cell d i)) = Some c → child (mem s (cell e j)) = Some c → d = e ∧ i = j.
Proof.
  intros Htr Hd Hld He Hle Hi Hj Hc1 Hc2. destruct (tr_slots _ _ _ Htr d di Hd), (tr_slots _ _ _ Htr e ei He). apply cell_inj; [lia|lia|].
  destruct (tr_entry _ _ _ Htr d di i Hd Hld Hi) as [Hz|(c1 & x1 & Hc1' & _ & Hx1 & Hr1)]; [by rewrite child_zero in Hc1|].
  destruct (tr_entry _ _ _ Htr e ei j He Hle Hj) as [Hz|(c2 & x2 & Hc2' & _ & Hx2 & Hr2)]; [by rewrite child_zero in Hc2|].
  assert (c1 = c ∧ c2 = c) as [-> ->] by (split; congruence). congruence.
Qed.
Lemma leaf_unique pins T s : tree pins T s → ∀ l t ti t' ti' v v' c, T !! t = Some ti → t_level ti = l → T !! t' = Some ti' → t_level ti' = l →
  index v l < t_slots ti → index v' l < t_slots ti' → leaf_of (mem s) l t v = Some c → leaf_of (mem s) l t' v' = Some c → t = t' ∧ ∀ j, (2 ≤ j ≤ l)%nat → index v j = index v' j.
Proof.
  intros Htr l. induction l as [|l IH]; intros t ti t' ti' v v' c Ht Hl Ht' Hl' Hs Hs' H1 H2; [done|].
  pose proof (law_index v (S l)) as Hix. pose proof (law_index v' (S l)) as Hix'. destruct l as [|l].
  { simpl in *. split; [congruence|]. intros. lia. }
  cbn [leaf_of] in H1, H2. destruct (child (mem s (cell t _))) as [d|] eqn:E1; [|done]. destruct (child (mem s (cell t' _))) as [d'|] eqn:E2; [|done].
  assert (T !! d = Some (down ti)) as Hd by (eapply (entry_child _ _ _ t ti (index v (S (S l)))); [done|done|lia|lia|done]).
  assert (T !! d' = Some (down ti')) as Hd' by (eapply (entry_child _ _ _ t' ti' (index v' (S (S l)))); [done|done|lia|lia|done]).
  destruct (IH d (down ti) d' (down ti') v v' c) as [-> Hidx]; try done; [simpl; lia|simpl; lia|simpl; apply law_index|simpl; apply law_index|].
  destruct (parent_unique pins T s d' t ti (index v (S (S l))) t' ti' (index v' (S (S l)))) as [-> Heq]; try done; try lia.
  split; [done|]. intros j Hj. destruct (decide (j = S (S l))) as [->|]; [done|]. apply Hidx. lia.
Qed.
Lemma leaf_level pins T s : tree pins T s → ∀ l t ti v c, T !! t = Some ti → t_level ti = l → index v l < t_slots ti → leaf_of (mem s) l t v = Some c →
  ∃ ci, T !! c = Some ci ∧ t_level ci = 1%nat ∧ t_owner ci = t_owner ti ∧ t_proto ci = t_proto ti.
Proof.
  intros Htr l. induction l as [|l IH]; intros t ti v c Ht Hl Hs H1; [done|]. pose proof (law_index v (S l)) as Hix. destruct l as [|l].
  { simpl in H1. injection H1 as <-. by exists ti. }
  cbn [leaf_of] in H1. destruct (child (mem s (cell t _))) as [d|] eqn:E1; [|done].
  assert (T !! d = Some (down ti)) as Hd by (eapply (entry_child _ _ _ t ti (index v (S (S l)))); [done|done|lia|lia|done]).
  destruct (IH d (down ti) v c Hd) as (ci & ? & ? & ? & ?); [simpl; lia|simpl; apply law_index|done|]. exists ci. split_and!; done.
Qed.

(** ** The state of a walk *)

(** [n] pages can still be allocated without reclaiming any. *)
Record room (n : nat) (B : blocks) (s : pst) : Prop := Room {
  rm_free : ∃ l, NoDup l ∧ (∀ y, y ∈ l ↔ free_at B y) ∧ vmstat s nfree = Z.of_nat (length l) ∧ (96 + n ≤ length l)%nat;
  rm_standby : NoDup (standby s) ∧ (∀ y, y ∈ standby s → allocated B y 0 ∧ ∃ x, pfndb s !! y = Some x ∧ refcnt x = 0 ∧ dirty x = false) ∧
    vmstat s nstandby = Z.of_nat (length (standby s))
}.
(** Pages change that are not on the queue. *)
Lemma room_pages n B s s' : room n B s → standby s' = standby s → vmstat s' nfree = vmstat s nfree → vmstat s' nstandby = vmstat s nstandby →
  (∀ y x, y ∈ standby s → pfndb s !! y = Some x → ∃ x', pfndb s' !! y = Some x' ∧ refcnt x' = refcnt x ∧ dirty x' = dirty x) → room n B s'.
Proof.
  intros [Hf (Hnd & Hs & Hl)] Hst Hnf Hns Hpg. split; [by rewrite Hnf|]. rewrite Hst, Hns. split_and!; [done| |done].
  intros y Hy. destruct (Hs y Hy) as (? & x & Hx & Hr & Hd). split; [done|]. destruct (Hpg y x Hy Hx) as (x' & ? & E1 & E2). exists x'. by rewrite E1, E2.
Qed.
Lemma standby_ref n B s t x : room n B s → pfndb s !! t = Some x → refcnt x ≠ 0 ∨ dirty x = true → t ∉ standby s.
Proof. intros [_ (_ & Hs & _)] Hx Hr Ht. destruct (Hs t Ht) as (_ & y & ? & ? & ?). assert (y = x) as -> by congruence. destruct Hr; congruence. Qed.
Lemma room_upd n B s s' t x : room n B s → t ∉ standby s → standby s' = standby s → vmstat s' nfree = vmstat s nfree → vmstat s' nstandby = vmstat s nstandby →
  pfndb s' = <[t := x]> (pfndb s) → room n B s'.
Proof.
  intros Hroom Ht Hst Hnf Hns Hpf. apply (room_pages n B s); try done. intros y z Hy Hz. exists z. rewrite Hpf, lookup_insert_ne; [done|]. by intros ->.
Qed.
Record wstate (pins : Z → Z) (n : nat) (T : tables) (B : blocks) (s : pst) : Prop := WState {
  ws_buddy : buddy_ok B s;
  ws_settled : settled B;
  ws_tree : tree pins T s;
  ws_alloc : ∀ t ti, T !! t = Some ti → allocated B t 0;
  ws_frames : ∀ y, covered B y → 0 < y < 2 ^ pfn_bits;
  ws_room : room n B s
}.
(** The pages in use that are not tables. *)
Definition out (T : tables) (B : blocks) (y : Z) : Prop := ∃ q k, T !! q = None ∧ allocated B q k ∧ inside y q k.

(** What is promised of a change: pages that are not tables are not touched, and every
    translation stays. *)
Record step (T : tables) (B : blocks) (s : pst) (T' : tables) (B' : blocks) (s' : pst) : Prop := Step {
  sp_block : ∀ q k, T !! q = None → allocated B q k → T' !! q = None ∧ allocated B' q k;
  sp_mem : ∀ a, out T B (a / PGSIZE) → mem s' a = mem s a;
  sp_page : ∀ y x, out T B y → pfndb s !! y = Some x → ∃ x', pfndb s' !! y = Some x' ∧ same_page x x';
  sp_queue : ∀ y, out T B y → (y ∈ modified s → y ∈ modified s') ∧ (y ∈ standby s → y ∈ standby s');
  sp_root : ∀ r ti, T !! r = Some ti → t_level ti = 4%nat → T' !! r = Some ti ∧ ∀ v, index v 4 < t_slots ti → xlate (mem s') 4 r v = xlate (mem s) 4 r v
}.
Lemma same_page_refl x : same_page x x.
Proof. by unfold same_page. Qed.
Lemma same_page_trans x y z : same_page x y → same_page y z → same_page x z.
Proof. unfold same_page. naive_solver congruence. Qed.
Lemma step_refl T B s : step T B s T B s.
Proof. split; try done. intros y x _ Hx. exists x. split; [done|apply same_page_refl]. Qed.
(** No page is lost: a block that is allocated afterwards and holds no table was so before. *)
Definition tight (T : tables) (B : blocks) (T' : tables) (B' : blocks) : Prop :=
  ∀ q k, T' !! q = None → allocated B' q k → T !! q = None ∧ allocated B q k.
Lemma tight_refl T B : tight T B T B.
Proof. done. Qed.
Lemma tight_trans T1 B1 T2 B2 T3 B3 : tight T1 B1 T2 B2 → tight T2 B2 T3 B3 → tight T1 B1 T3 B3.
Proof. intros H1 H2 q k Hq Ha. destruct (H2 q k Hq Ha). by apply H1. Qed.
Lemma step_out T B s T' B' s' y : step T B s T' B' s' → out T B y → out T' B' y.
Proof. intros Hs (q & k & Hq & Hal & Hin). destruct (sp_block _ _ _ _ _ _ Hs q k Hq Hal). by exists q, k. Qed.
Lemma step_trans T1 B1 s1 T2 B2 s2 T3 B3 s3 : step T1 B1 s1 T2 B2 s2 → step T2 B2 s2 T3 B3 s3 → step T1 B1 s1 T3 B3 s3.
Proof.
  intros Hs1 Hs2. assert (∀ y, out T1 B1 y → out T2 B2 y) as Ho by (intros y; by eapply step_out).
  destruct Hs1 as [Hb Hm Hp Hq Hr], Hs2 as [Hb' Hm' Hp' Hq' Hr']. split.
  - intros q k Hq1 Hal. destruct (Hb q k Hq1 Hal). by apply Hb'.
  - intros a Ha. rewrite Hm' by (by apply Ho). by apply Hm.
  - intros y x Hy Hx. destruct (Hp y x Hy Hx) as (x2 & Hx2 & Hs). destruct (Hp' y x2 (Ho y Hy) Hx2) as (x3 & Hx3 & Hs').
    exists x3. split; [done|by eapply same_page_trans].
  - intros y Hy. destruct (Hq y Hy), (Hq' y (Ho y Hy)). split; intros; auto.
  - intros r ti HT Hl. destruct (Hr r ti HT Hl) as [HT2 Hx]. destruct (Hr' r ti HT2 Hl) as [HT3 Hx']. split; [done|].
    intros v Hv. by rewrite Hx', Hx.
Qed.
Lemma out_table T B t ti y : blocks_ok B → allocated B t 0 → T !! t = Some ti → out T B y → y ≠ t.
Proof.
  intros Hb Ht HT (q & k & Hq & Hal & Hin) ->. assert (q = t) as -> by (eapply (block_unique B q k Alloc t 0 Alloc t); try done; apply inside_head).
  congruence.
Qed.
Lemma out_free T B y : blocks_ok B → out T B y → ¬ free_at B y.
Proof.
  intros Hb (q & k & _ & Hal & Hin) (p & m & Hp & Hinp). assert (q = p) as -> by (by eapply (block_unique B q k Alloc p m Free y)).
  unfold allocated in Hal. congruence.
Qed.

(** A change of one table's page: nothing else, not even the other tables, notices. *)
Lemma step_page T B s s' t ti x' : blocks_ok B → allocated B t 0 → T !! t = Some ti → pfndb s' = <[t := x']> (pfndb s) → mem s' = mem s →
  (∀ y, y ≠ t → (y ∈ modified s → y ∈ modified s') ∧ (y ∈ standby s → y ∈ standby s')) → step T B s T B s'.
Proof.
  intros Hb Hal Ht Hpf Hm Hq. split; try done.
  - intros a _. by rewrite Hm.
  - intros y x Hy Hx. assert (y ≠ t) by (by eapply out_table). exists x. rewrite Hpf, lookup_insert_ne by done. split; [done|apply same_page_refl].
  - intros y Hy. apply Hq. by eapply out_table.
  - intros r ri HT _. by rewrite Hm.
Qed.

Definition add_pin (t d : Z) (pins : Z → Z) : Z → Z := λ t', if decide (t' = t) then pins t + d else pins t'.
Lemma add_pin_eq t d pins : add_pin t d pins t = pins t + d.
Proof. unfold add_pin. by rewrite decide_True. Qed.
Lemma add_pin_ne t d pins t' : t' ≠ t → add_pin t d pins t' = pins t'.
Proof. intros Hne. unfold add_pin. by rewrite decide_False. Qed.

(** The pages of tables are the same to the tree, memory of tables too. *)
Lemma table_page_same pins pins' s s' t ti x x' : table_page pins s t ti x → same_page x x' → pins' t = pins t →
  (∀ i, 0 ≤ i < t_slots ti → mem s' (cell t i) = mem s (cell t i)) →
  (t ∈ modified s → t ∈ modified s') → (t ∈ standby s → t ∈ standby s') → table_page pins' s' t ti x'.
Proof.
  intros [H1 H2 H3 H4 H5 H6 H7 H8] (E1 & E2 & E3 & E4 & E5 & E6 & E7 & E8 & E9) Hp Hm Hmod Hst.
  assert (∀ f, count f (t_slots ti) (mem s') t = count f (t_slots ti) (mem s) t) as Hc by (intros f; apply count_ext; done).
  split; rewrite ?E1, ?E2, ?E3, ?E4, ?E5, ?E6, ?E8, ?Hp, ?Hc; try done.
  intros Hr. destruct (H8 Hr) as [? Hi]. split; [done|]. unfold idle in *. rewrite E2. destruct (dirty x); auto.
Qed.
Lemma tree_same pins T s s' : tree pins T s →
  (∀ t ti x, T !! t = Some ti → pfndb s !! t = Some x → ∃ x', pfndb s' !! t = Some x' ∧ same_page x x') →
  (∀ t ti i, T !! t = Some ti → 0 ≤ i < 512 → mem s' (cell t i) = mem s (cell t i)) →
  (∀ t ti, T !! t = Some ti → (t ∈ modified s → t ∈ modified s') ∧ (t ∈ standby s → t ∈ standby s')) → tree pins T s'.
Proof.
  intros [Hi Hp He Hn Hsl] Hpg Hm Hq. split; [done|..|done|done].
  - intros t ti Ht. destruct (Hp t ti Ht) as (x & Hx & Htp & Hl). destruct (Hpg t ti x Ht Hx) as (x' & Hx' & Hs). exists x'. split; [done|].
    destruct (Hq t ti Ht) as [Hq1 Hq2]. split; [eapply table_page_same; try done; intros; eapply Hm; [done|]; destruct (Hsl t ti Ht); lia|].
    intros H4. destruct (Hl H4) as (d & i & di & Hir & Href & Hd & -> & Hc & Hk). exists d, i, di.
    destruct Hs as (_ & _ & _ & -> & _ & _ & -> & _). destruct (Hsl d di Hd). rewrite (Hm d di i) by (done || lia). done.
  - intros d di i Hd Hl Hir. unfold entry_ok. destruct (Hsl d di Hd). rewrite (Hm d di i) by (done || lia). destruct (He d di i Hd Hl Hir) as [?|(c & x & Hc & HT & Hx & Href)]; [by left|].
    right. destruct (Hpg c _ x HT Hx) as (x' & Hx' & Hs). exists c, x'. split_and!; try done. by destruct Hs as (_ & _ & _ & _ & _ & _ & -> & _).
Qed.

(** ** Pins *)

Lemma tree_upd pins pins' T s s' t ti x x' : tree pins T s → T !! t = Some ti → pfndb s !! t = Some x →
  pfndb s' = <[t := x']> (pfndb s) → mem s' = mem s →
  (∀ y, y ≠ t → (y ∈ modified s → y ∈ modified s') ∧ (y ∈ standby s → y ∈ standby s')) →
  (∀ y, y ≠ t → pins' y = pins y) → 0 ≤ pins' t ≤ PINS → table_page pins' s' t ti x' → referent_pte x' = referent_pte x →
  (refcnt x' = 0 ↔ refcnt x = 0) → tree pins' T s'.
Proof.
  intros [Hi Hp He Hn Hsl] Ht Hx Hpf Hm Hq Hpin Hb Htp Href Hr. split; [| | |intros y Hy; rewrite Hpin; [by apply Hn|congruence]|done].
  - intros y yi Hy. destruct (Hi y yi Hy) as (? & ? & ? & ?). do 3 (split; [done|]).
    destruct (decide (y = t)) as [->|]; [done|by rewrite Hpin].
  - intros y yi Hy. destruct (Hp y yi Hy) as (z & Hz & Htz & Hl). rewrite Hpf. unfold linked in *. rewrite Hm.
    destruct (decide (y = t)) as [->|Hne].
    + exists x'. rewrite lookup_insert_eq. split; [done|]. assert (yi = ti) as -> by congruence. assert (z = x) as -> by congruence.
      split; [done|]. rewrite Href. intros H4. destruct (Hl H4) as (d & i & di & ? & ? & ? & ? & ? & Hk). exists d, i, di. do 5 (split; [done|]).
      rewrite Hk. destruct (decide (refcnt x = 0)), (decide (refcnt x' = 0)); tauto.
    + exists z. rewrite lookup_insert_ne by done. split; [done|]. split; [|done]. destruct (Hq y Hne).
      eapply table_page_same; [exact Htz|apply same_page_refl|by apply Hpin|by rewrite Hm|done|done].
  - intros d di i Hd Hl Hir. unfold entry_ok. rewrite Hm, Hpf. destruct (He d di i Hd Hl Hir) as [?|(c & z & ? & ? & Hz & Hrz)]; [by left|right].
    destruct (decide (c = t)) as [->|].
    + exists t, x'. rewrite lookup_insert_eq. split_and!; try done. rewrite Href. congruence.
    + exists c, z. by rewrite lookup_insert_ne.
Qed.

Lemma table_counts pins T s t ti : tree pins T s → T !! t = Some ti → ∃ x, pfndb s !! t = Some x ∧ table_page pins s t ti x ∧
  (t_level ti ≠ 4%nat → linked T s t ti x) ∧ 0 ≤ pins t ≤ PINS ∧
  pins t ≤ noswap_ptes x ≤ nonzero_ptes x ∧ nonzero_ptes x ≤ pins t + 512 ∧ noswap_ptes x ≤ refcnt x ≤ noswap_ptes x + 1 ∧ 0 ≤ refcnt x.
Proof.
  intros Htr Ht. destruct (tr_page _ _ _ Htr t ti Ht) as (x & Hx & Htp & Hl). destruct (tr_info _ _ _ Htr t ti Ht) as (_ & _ & _ & Hpin).
  exists x. pose proof Htp as [_ _ _ H4 H5 H6 _ _]. destruct (tr_slots _ _ _ Htr t ti Ht) as [Hs0 _].
  pose proof (count_range nonzero (t_slots ti) (mem s) t). pose proof (count_range noswap (t_slots ti) (mem s) t). pose proof (count_le (t_slots ti) (mem s) t). repeat (split; [done || lia|]). case_decide; lia.
Qed.
Lemma i16_small x : - 2 ^ 15 ≤ x < 2 ^ 15 → i16 x = x.
Proof. intros Hx. unfold i16. rewrite Z.mod_small; lia. Qed.

(** The page of a table after it was pinned. *)
Definition pinned (x : vm_page) : vm_page := with_ptes (nonzero_ptes x + 1) (noswap_ptes x + 1) (with_refcnt (refcnt x + 1) x).
Lemma created_live pins T s t ti x : tree pins T s → T !! t = Some ti → pins t < PINS → pfndb s !! t = Some x → refcnt x ≠ 0 →
  wp (vmp_pagetable_page_noswap_pte_created t true) (λ _ s', s' = set_pfndb (<[t := pinned x]> (pfndb s)) s) s.
Proof.
  intros Htr Ht Hp Hx Hr. destruct (table_counts pins T s t ti Htr Ht) as (y & Hy & _ & _ & Hc). assert (y = x) as -> by congruence.
  destruct Hc as (? & ? & ? & ? & ?). unfold PINS in *. unfold vmp_pagetable_page_noswap_pte_created, check_page_consistency.
  rewrite wp_bind, wp_page_at. exists x. split; [done|]. rewrite wp_bind, (proj2 (Z.ltb_ge (refcnt x) _)) by lia. rewrite andb_false_r, wp_ret.
  rewrite wp_bind. unfold vmp_page_retain_locked. rewrite wp_bind, wp_page_at. exists x. split; [done|]. rewrite wp_bind, wp_page_set, wp_when.
  rewrite (proj2 (Z.eqb_neq _ 0)) by lia. rewrite wp_page_upd. eexists. split; [simpl; by rewrite lookup_insert_eq|].
  simpl. rewrite insert_insert_eq. unfold pinned. unfold u16. rewrite Z.mod_small by lia. rewrite !i16_small by lia. done.
Qed.
Lemma pinned_page pins s s' t ti x : table_page pins s t ti x → mem s' = mem s → 0 ≤ refcnt x → table_page (add_pin t 1 pins) s' t ti (pinned x).
Proof.
  intros [H1 H2 H3 H4 H5 H6 H7 H8] Hm Hr. split; simpl; rewrite ?add_pin_eq, ?Hm; try done; lia.
Qed.
(** Pages change, the allocator's view of them does not. *)
Lemma wstate_upd pins pins' n T B s t ti x x' : wstate pins n T B s → T !! t = Some ti → pfndb s !! t = Some x → refcnt x ≠ 0 →
  order x' = order x → max_order x' = max_order x → on_freelist x' = on_freelist x →
  let s' := set_pfndb (<[t := x']> (pfndb s)) s in tree pins' T s' → wstate pins' n T B s' ∧ step T B s T B s'.
Proof.
  intros [Hok Hset Htr Hal Hfr Hroom] Ht Hx Hr H1 H2 H3 s' Htr'. specialize (Hal t ti Ht) as Hat. split.
  - split; try done; [by eapply upd_page_ok|]. eapply (room_upd n B s); try done. eapply standby_ref; [done|done|by left].
  - eapply (step_page T B s s' t ti x'); try done. apply Hok.
Qed.
Lemma pin_ok pins n T B s t ti x : wstate pins n T B s → T !! t = Some ti → pins t < PINS → pfndb s !! t = Some x → refcnt x ≠ 0 →
  wp (vmp_pagetable_page_noswap_pte_created t true) (λ _ s', wstate (add_pin t 1 pins) n T B s' ∧ step T B s T B s' ∧ mem s' = mem s) s.
Proof.
  intros Hws Ht Hp Hx Hr. pose proof (ws_tree _ _ _ _ _ Hws) as Htr. eapply wp_mono; [by apply (created_live pins T s t ti x)|].
  intros [] s' ->. destruct (table_counts pins T s t ti Htr Ht) as (y & Hy & Htp & _ & Hpin & _ & _ & _ & Hr0). assert (y = x) as -> by congruence.
  destruct (wstate_upd pins (add_pin t 1 pins) n T B s t ti x (pinned x)) as [? ?]; try done.
  eapply (tree_upd pins _ T s _ t ti x (pinned x)); try done.
  - intros y Hy'. by apply add_pin_ne.
  - rewrite add_pin_eq. lia.
  - apply (pinned_page pins s); [done|done|lia].
  - simpl. lia.
Qed.

(** ** Changes of an entry above the leaves *)

Lemma out_no_table T B y : blocks_ok B → (∀ t ti, T !! t = Some ti → allocated B t 0) → out T B y → T !! y = None.
Proof. intros Hb Hal Ho. destruct (T !! y) as [ti|] eqn:E; [|done]. by destruct (out_table T B y ti y Hb (Hal y ti E) E Ho). Qed.
Lemma step_change pins T B s s' : tree pins T s → blocks_ok B → (∀ t ti, T !! t = Some ti → allocated B t 0) →
  (∀ y, T !! y = None → pfndb s' !! y = pfndb s !! y) → (∀ a, T !! (a / PGSIZE) = None → mem s' a = mem s a) →
  (∀ y, T !! y = None → (y ∈ modified s → y ∈ modified s') ∧ (y ∈ standby s → y ∈ standby s')) →
  (∀ v t ti, T !! t = Some ti → same_entry (mem s) (mem s') (t_level ti) v (cell t (index v (t_level ti)))) → step T B s T B s'.
Proof.
  intros Htr Hb Hal Hpf Hm Hq Hsame. split; [done|..].
  - intros a Ha. apply Hm. by eapply out_no_table.
  - intros y x Hy Hx. exists x. rewrite Hpf by (by eapply out_no_table). split; [done|apply same_page_refl].
  - intros y Hy. apply Hq. by eapply out_no_table.
  - intros r ri Hr Hl. split; [done|]. intros v Hv. eapply (xlate_same pins T s); try done. intros t ti Ht. by apply Hsame.
Qed.
Lemma store_other m d i w a : a / PGSIZE ≠ d → 0 ≤ i < 512 → store m (cell d i) w a = m a.
Proof. intros Ha Hi. apply store_ne. intros ->. by rewrite cell_page in Ha. Qed.

(** A table stops or starts to be idle; its entry in the table above says so. *)
Lemma tree_retype pins pins' T s s' t ti x x' d i di w : tree pins T s → T !! t = Some ti → pfndb s !! t = Some x →
  T !! d = Some di → ti = down di → 0 ≤ i < t_slots di → referent_pte x = cell d i → child (mem s (cell d i)) = Some t →
  pfndb s' = <[t := x']> (pfndb s) → mem s' = store (mem s) (cell d i) w →
  child w = Some t → kind w = (if decide (refcnt x' = 0) then kPTEKindTrans else kPTEKindValid) →
  (∀ y, y ≠ t → (y ∈ modified s → y ∈ modified s') ∧ (y ∈ standby s → y ∈ standby s')) →
  (∀ y, y ≠ t → pins' y = pins y) → 0 ≤ pins' t ≤ PINS → table_page pins' s' t ti x' → referent_pte x' = referent_pte x → tree pins' T s'.
Proof.
  intros Htr Ht Hx Hd -> Hisl Href Hch Hpf Hm Hcw Hkw Hq Hpin Hb Htp Href'. pose proof Htr as [Hinf Hp He Hn Hsl].
  destruct (Hsl d di Hd) as [Hs0 _]. assert (0 ≤ i < 512) as Hi by lia.
  destruct (Hinf t _ Ht) as ((Hl1 & _) & _). simpl in Hl1.
  assert (∀ y yi, T !! y = Some yi → count nonzero (t_slots yi) (mem s') y = count nonzero (t_slots yi) (mem s) y ∧
    count noswap (t_slots yi) (mem s') y = count noswap (t_slots yi) (mem s) y) as Hcnt.
  { intros y yi Hy. destruct (Hsl y yi Hy). assert (y = d → i < t_slots yi) by (intros ->; assert (yi = di) as -> by congruence; lia). rewrite Hm, !count_store by (done || lia). pose proof (child_noswap _ _ Hch) as E1. pose proof (child_noswap _ _ Hcw) as E2.
    rewrite E1, E2, (noswap_nonzero _ E1), (noswap_nonzero _ E2). destruct (decide (y = d)); lia. }
  assert (∀ e j c, 0 ≤ j < 512 → c ≠ t → child (mem s (cell e j)) = Some c → mem s' (cell e j) = mem s (cell e j)) as Hother.
  { intros e j c Hj Hc Hcc. rewrite Hm. apply store_ne. intros Heq. congruence. }
  split; [| | |intros y Hy; rewrite Hpin; [by apply Hn|congruence]|done].
  - intros y yi Hy. destruct (Hinf y yi Hy) as (? & ? & ? & ?). do 3 (split; [done|]). destruct (decide (y = t)) as [->|]; [done|by rewrite Hpin].
  - intros y yi Hy. destruct (Hp y yi Hy) as (z & Hz & [T1 T2 T3 T4 T5 T6 T7 T8] & Hl). rewrite Hpf. destruct (decide (y = t)) as [->|Hne].
    + exists x'. rewrite lookup_insert_eq. split; [done|]. assert (yi = down di) as -> by congruence. split; [done|]. intros _.
      exists d, i, di. rewrite Hm, store_eq. split_and!; try done; try lia.
    + exists z. rewrite lookup_insert_ne by done. split; [done|]. destruct (Hcnt y yi Hy) as [C1 C2]. split.
      * split; rewrite ?C1, ?C2, ?Hpin by done; try done. intros Hr0. destruct (T8 Hr0) as [? Hid]. split; [done|].
        unfold idle in *. destruct (Hq y Hne). destruct (dirty z); auto.
      * intros H4. destruct (Hl H4) as (e & j & ei & ? & ? & ? & ? & Hcc & Hk). exists e, j, ei. destruct (Hsl e ei) as [? _]; [done|]. rewrite (Hother e j y) by (done || lia). done.
  - intros e ei j Hee Hle Hj. destruct (Hsl e ei Hee) as [? _]. unfold entry_ok. rewrite Hpf. destruct (He e ei j Hee Hle Hj) as [Hz|(c & z & Hc & HT & Hz & Hrz)].
    + left. rewrite Hm, store_ne; [done|]. intros Heq. rewrite Heq in Hz. by rewrite child_zero in Hch.
    + right. destruct (decide (c = t)) as [->|Hne].
      * exists t, x'. rewrite lookup_insert_eq. assert (cell e j = cell d i) as Heq by congruence. rewrite Heq, Hm, store_eq. split_and!; try done. congruence.
      * exists c, z. rewrite lookup_insert_ne by done. by rewrite (Hother e j c) by (done || lia).
Qed.
Lemma step_retype pins T B s s' t x' d i di w : tree pins T s → blocks_ok B → (∀ t ti, T !! t = Some ti → allocated B t 0) →
  T !! t ≠ None → T !! d = Some di → (2 ≤ t_level di)%nat → 0 ≤ i < 512 → child (mem s (cell d i)) = Some t → child w = Some t →
  pfndb s' = <[t := x']> (pfndb s) → mem s' = store (mem s) (cell d i) w →
  (∀ y, y ≠ t → (y ∈ modified s → y ∈ modified s') ∧ (y ∈ standby s → y ∈ standby s')) → step T B s T B s'.
Proof.
  intros Htr Hb Hal Ht Hd Hl Hi Hch Hcw Hpf Hm Hq. apply (step_change pins); try done.
  - intros y Hy. rewrite Hpf, lookup_insert_ne; [done|congruence].
  - intros a Ha. rewrite Hm. apply store_other; [congruence|done].
  - intros y Hy. apply Hq. congruence.
  - intros v y yi Hy. rewrite Hm. destruct (decide (cell y (index v (t_level yi)) = cell d i)) as [Heq|Hne].
    + apply cell_inj in Heq as [-> Heq]; [|apply law_index|done]. assert (yi = di) as -> by congruence. rewrite Heq.
      unfold same_entry. rewrite decide_False by lia. left. rewrite store_eq. congruence.
    + apply same_entry_refl. by apply store_ne.
Qed.

(** ** Idle tables come back *)

Lemma standby_bound n B s : (∀ y, covered B y → 0 < y < 2 ^ pfn_bits) → room n B s → Z.of_nat (length (standby s)) ≤ 2 ^ 52.
Proof.
  intros Hfr [_ (Hnd & Hc & _)]. pose proof law_bits as Hb. assert (2 ^ pfn_bits ≤ 2 ^ 52) by (apply Z.pow_le_mono_r; lia).
  apply NoDup_range_length; [lia|done|]. intros y Hy.
  destruct (Hc y Hy) as [Ha _]. enough (0 < y < 2 ^ pfn_bits) by lia. apply Hfr. exists y, O, Alloc. split; [done|apply inside_head].
Qed.
Lemma room_standby n B s s' t : (∀ y, covered B y → 0 < y < 2 ^ pfn_bits) → room n B s → q_remove t (standby s) = Some (standby s') →
  (∀ y x, y ≠ t → pfndb s !! y = Some x → ∃ x', pfndb s' !! y = Some x' ∧ refcnt x' = refcnt x ∧ dirty x' = dirty x) → vmstat s' nfree = vmstat s nfree → vmstat s' nstandby = u64 (vmstat s nstandby - 1) → room n B s'.
Proof.
  intros Hfr Hroom Hq Hpg Hf Hs. pose proof (standby_bound n B s Hfr Hroom) as Hb. destruct Hroom as [Hfree (Hnd & Hc & Hn)].
  apply q_remove_perm in Hq. pose proof (Permutation_length Hq) as Hlen. simpl in Hlen. split; [by rewrite Hf|]. split_and!.
  - rewrite Hq in Hnd. by apply NoDup_cons in Hnd as [_ ?].
  - intros y Hy. destruct (Hc y) as (? & x & Hx & Hr & Hdx); [rewrite Hq; apply elem_of_cons; by right|]. split; [done|].
    destruct (Hpg y x) as (x' & ? & E1 & E2); [intros ->; rewrite Hq in Hnd; by apply NoDup_cons in Hnd as [? _]|done|]. exists x'. by rewrite E1, E2.
  - rewrite Hs, Hn, u64_small by lia. lia.
Qed.
Lemma q_remove_other (t : Z) q q' y : q_remove t q = Some q' → y ≠ t → y ∈ q → y ∈ q'.
Proof. intros Hq Hne Hy. apply q_remove_perm in Hq. rewrite Hq in Hy. by apply elem_of_cons in Hy as [?|?]. Qed.

(** What a change of pages and queues leaves alone. *)
Record queues_move (t : Z) (s s' : pst) : Prop := QueuesMove {
  qm_mem : mem s' = mem s;
  qm_buddy : buddy_queue s' = buddy_queue s ∧ buddy_queue_npages s' = buddy_queue_npages s;
  qm_other : ∀ y, y ≠ t → (y ∈ modified s → y ∈ modified s') ∧ (y ∈ standby s → y ∈ standby s');
  qm_nfree : vmstat s' nfree = vmstat s nfree
}.
(** A page without references, on its queue, is taken off it. *)
Lemma retain_idle n B s t x : (∀ y, covered B y → 0 < y < 2 ^ pfn_bits) → room n B s →
  pfndb s !! t = Some x → order x = O → refcnt x = 0 → use x ≠ kPageUseDeleted → idle s t x →
  wp (vmp_page_retain_locked t) (λ _ s', pfndb s' = <[t := with_refcnt 1 x]> (pfndb s) ∧ queues_move t s s' ∧ room n B s') s.
Proof.
  intros Hfr Hroom Hx Ho Hr Hu Hid. unfold vmp_page_retain_locked. rewrite wp_bind, wp_page_at. exists x. split; [done|].
  rewrite wp_bind, wp_page_set, wp_when, Hr. simpl. rewrite wp_bind, wp_kassert, bool_decide_false by done. split; [done|].
  change (u16 1) with 1. unfold idle in Hid. destruct (dirty x) eqn:Hdx.
  - destruct (q_remove_elem t (modified s) Hid) as [q Hq]. rewrite wp_bind. unfold modified_remove. rewrite wp_bind, wp_get, wp_bind, wp_deref.
    exists q. split; [done|]. rewrite wp_modify, wp_bind, !wp_stat_add. simpl. split; [done|]. split; [split; try done|].
    + intros y Hy. simpl. split; [|done]. by eapply q_remove_other.
    + eapply (room_upd n B s); try done. eapply standby_ref; [done|done|by right].
  - destruct (q_remove_elem t (standby s) Hid) as [q Hq]. rewrite wp_bind. unfold standby_remove. rewrite wp_bind, wp_get, wp_bind, wp_deref.
    exists q. split; [done|]. rewrite wp_modify, wp_bind, wp_stat_add, wp_bind, wp_stat_add, wp_update_events. simpl. split; [done|]. split; [split; try done|].
    + intros y Hy. simpl. split; [done|]. by eapply q_remove_other.
    + eapply (room_standby n B s); try done; [|simpl; by rewrite Ho]. intros y z Hy Hz. exists z. simpl. by rewrite lookup_insert_ne.
Qed.
Lemma created_idle pins n T B s t ti x : wstate pins n T B s → T !! t = Some ti → pins t < PINS → pfndb s !! t = Some x → refcnt x = 0 →
  wp (vmp_pagetable_page_noswap_pte_created t true) (λ _ s', pfndb s' = <[t := pinned x]> (pfndb s) ∧ queues_move t s s' ∧ room n B s') s.
Proof.
  intros [Hok _ Htr Hal Hfr Hroom] Ht Hp Hx Hr. destruct (table_counts pins T s t ti Htr Ht) as (y & Hy & Htp & _ & Hc). assert (y = x) as -> by congruence.
  destruct (pk_head _ _ (bo_pages _ _ Hok) _ _ _ (Hal t ti Ht)) as (y & Hy' & Ho & _). assert (y = x) as -> by congruence.
  destruct Hc as (? & ? & ? & ? & ?). unfold PINS in *. unfold vmp_pagetable_page_noswap_pte_created, check_page_consistency.
  rewrite wp_bind, wp_page_at. exists x. split; [done|]. rewrite wp_bind, (proj2 (Z.ltb_ge (refcnt x) _)) by lia. rewrite andb_false_r, wp_ret.
  rewrite wp_bind. eapply wp_mono; [eapply (retain_idle n B s t x); try done|].
  - rewrite (tp_use _ _ _ _ _ Htp). unfold level_use. destruct (t_proto ti); by destruct (t_level ti) as [|[|[|[|?]]]].
  - by apply (tp_idle _ _ _ _ _ Htp).
  - intros [] s1 (Hpf & [Hm [Hq1 Hq2] Hq Hnf] & Hroom1). rewrite wp_page_upd. eexists. split; [rewrite Hpf; by rewrite lookup_insert_eq|].
    simpl. rewrite Hpf, insert_insert_eq. split; [|split; [split; done|]].
    2: { eapply (room_upd n B s1); try done; [|by rewrite Hpf, insert_insert_eq]. eapply (standby_ref n B s1 t (with_refcnt 1 x)); [done| |by left]. by rewrite Hpf, lookup_insert_eq. }
    unfold pinned. rewrite !i16_small by lia. by rewrite Hr.
Qed.
Lemma revive_ok pins n T B s t ti x d i di : wstate pins n T B s → T !! t = Some ti → pins t < PINS → pfndb s !! t = Some x → refcnt x = 0 →
  T !! d = Some di → ti = down di → 0 ≤ i < t_slots di → referent_pte x = cell d i → child (mem s (cell d i)) = Some t →
  wp (vmp_pagetable_page_noswap_pte_created t true;; vmp_md_setup_table_pointers d t (cell d i) kWasTrans)
    (λ _ s', wstate (add_pin t 1 pins) n T B s' ∧ step T B s T B s' ∧ mem s' = store (mem s) (cell d i) (vmp_md_pte_create_table t)) s.
Proof.
  intros Hws Ht Hp Hx Hr Hd Hti Hi Href Hch. rewrite wp_bind. eapply wp_mono; [by eapply created_idle|].
  intros [] s1 (Hpf & [Hm [Hq1 Hq2] Hq Hnf] & Hroom1). unfold vmp_md_setup_table_pointers. rewrite bool_decide_true by done. simpl.
  rewrite wp_bind. unfold word_set. rewrite wp_modify, wp_ret, Hm. fold (store (mem s) (cell d i) (vmp_md_pte_create_table t)).
  pose proof Hws as [Hok Hset Htr Hal Hfr Hroom]. destruct (tr_info _ _ _ Htr t ti Ht) as ((Hl1 & _) & _ & Hrange & Hpin).
  assert (0 ≤ t < 2 ^ pfn_bits) as Hrange' by lia. destruct (law_table t Hrange') as (Hk & Hpfn). assert (child (vmp_md_pte_create_table t) = Some t) as Hcw by (unfold child; by rewrite Hk, Hpfn).
  destruct (table_counts pins T s t ti Htr Ht) as (y & Hy & Htp & _ & _ & _ & _ & _ & Hr0). assert (y = x) as -> by congruence.
  destruct (pk_head _ _ (bo_pages _ _ Hok) _ _ _ (Hal t ti Ht)) as (y & Hy' & Ho & _). assert (y = x) as -> by congruence.
  set (s2 := set_mem _ s1). assert (2 ≤ t_level di)%nat as Hl2 by (rewrite Hti in Hl1; simpl in Hl1; lia).
  destruct (tr_slots _ _ _ Htr d di Hd) as [Hs0 _]. destruct (tr_slots _ _ _ Htr t ti Ht) as [Hs1 _]. assert (0 ≤ i < 512) as Hi5 by lia.
  assert (t = d → i < t_slots ti) as Hitd by (intros ->; assert (ti = di) as <- by congruence; lia). split; [split; try done|split; [|done]].
  - pose proof (upd_page_ok B s t 0 Alloc x (pinned x) Hok (Hal t ti Ht) Hx eq_refl eq_refl eq_refl) as [? Hpg Hqs]. split; [done|..]; simpl.
    + by rewrite Hpf.
    + by rewrite Hq1, Hq2.
  - eapply (tree_retype pins _ T s s2 t ti x (pinned x) d i di); try done.
    + simpl. rewrite decide_False by lia. done.
    + intros y Hne. by apply add_pin_ne.
    + rewrite add_pin_eq. lia.
    + destruct Htp as [T1 T2 T3 T4 T5 T6 T7 T8].
      assert (∀ f, f (mem s (cell d i)) = f (vmp_md_pte_create_table t) → count f (t_slots ti) (mem s2) t = count f (t_slots ti) (mem s) t) as Hcnt.
      { intros f Hf. simpl. rewrite count_store, Hf by (done || lia). destruct (decide (t = d)); lia. }
      pose proof (child_noswap _ _ Hch) as E1. pose proof (child_noswap _ _ Hcw) as E2.
      assert (count nonzero (t_slots ti) (mem s2) t = count nonzero (t_slots ti) (mem s) t) as C1 by (apply Hcnt; by rewrite !noswap_nonzero).
      assert (count noswap (t_slots ti) (mem s2) t = count noswap (t_slots ti) (mem s) t) as C2 by (apply Hcnt; congruence).
      split; rewrite ?C1, ?C2, ?add_pin_eq; simpl; try done; lia.
  - destruct Hroom1. by split.
  - eapply (step_retype pins T B s s2 t (pinned x) d i di); try done; [apply Hok|congruence].
Qed.

(** ** New pages *)

Definition in_page (p b : Z) : bool := (p * PGSIZE <=? b) && (b <? (p + 1) * PGSIZE).
Lemma in_page_div p b : in_page p b = bool_decide (b / PGSIZE = p).
Proof.
  unfold in_page, PGSIZE, VMP_PAGE_SHIFT. change (2 ^ 12) with 4096.
  destruct (Z.leb_spec (p * 4096) b), (Z.ltb_spec b ((p + 1) * 4096)); simpl; symmetry;
    first [apply bool_decide_eq_true; Z.div_mod_to_equations; lia | apply bool_decide_eq_false; Z.div_mod_to_equations; lia].
Qed.
Lemma in_page_cell p t i : 0 ≤ i < 512 → in_page p (cell t i) = bool_decide (t = p).
Proof. intros Hi. by rewrite in_page_div, cell_page. Qed.

Lemma room_free n B s : (∀ y, covered B y → 0 < y < 2 ^ pfn_bits) → room n B s → 96 + Z.of_nat n ≤ vmstat s nfree ≤ 2 ^ 52.
Proof.
  intros Hfr [(l & Hnd & Hl & -> & Hn) _]. pose proof law_bits as Hb. assert (2 ^ pfn_bits ≤ 2 ^ 52) by (apply Z.pow_le_mono_r; lia).
  split; [lia|]. etrans; [apply (NoDup_range_length l (2 ^ pfn_bits)); [lia|done|]|done]. intros y Hy.
  enough (0 < y < 2 ^ pfn_bits) by lia. apply Hfr. apply Hl in Hy as (p & k & ? & ?). by exists p, k, Free.
Qed.
Lemma room_plenty n B s : (∀ y, covered B y → 0 < y < 2 ^ pfn_bits) → room n B s → plenty s.
Proof.
  intros Hfr Hroom. pose proof (room_free n B s Hfr Hroom). pose proof (standby_bound n B s Hfr Hroom). destruct Hroom as [_ (_ & _ & Hs)].
  unfold plenty, vmp_avail_pages_very_low, vmp_free_pages_low. rewrite u64_small by lia. split; apply Z.ltb_ge; lia.
Qed.
Lemma room_block n B s : room n B s → ∃ p m, B !! p = Some (m, Free).
Proof.
  intros [(l & _ & Hl & _ & Hn) _]. destruct l as [|y l]; [simpl in Hn; lia|]. destruct (proj1 (Hl y)) as (p & m & Hp & _); [set_solver|]. eauto.
Qed.
Lemma room_taken n B B' s s' p u c : (∀ y, covered B y → 0 < y < 2 ^ pfn_bits) → room (S n) B s → taken B B' p 0 →
  (∀ d, vmstat s' d = alloc_stats u (size 0) (vmstat s) d) → use_counter u = Some c → standby s' = standby s → blocks_ok B →
  (∀ y x, y ≠ p → pfndb s !! y = Some x → ∃ x', pfndb s' !! y = Some x' ∧ same_page x x') → room n B' s'.
Proof.
  intros Hfr Hroom [_ Htf Hleft Hta _ _] Hv Hu Hst Hb Hpg. pose proof (room_free _ B s Hfr Hroom) as Hnf. destruct Hroom as [(l & Hnd & Hl & Hlen & Hn) (H1 & H2 & H3)].
  pose proof (use_counter_other _ _ Hu) as Hot. rewrite !not_elem_of_cons in Hot. split.
  - exists (filter (.≠ p) l). assert (p ∈ l) as Hin by (apply Hl, Htf, inside_head). pose proof (filter_ne_length p l Hnd Hin) as Hfl. split_and!.
    + by apply NoDup_filter.
    + intros y. rewrite list_elem_of_filter, Hl, Hleft. unfold inside, size. simpl. split; intros [? ?]; split; try done; lia.
    + rewrite Hv. unfold alloc_stats, size. simpl. rewrite u64_small by lia. lia.
    + lia.
  - rewrite Hst, Hv. split_and!; [done| |].
    { intros y Hy. destruct (H2 y Hy) as (Hya & x & Hx & Hr & Hd). split; [apply Hta; by left|]. destruct (Hpg y x) as (x' & Hx' & Hsp); [|done|].
      - intros ->. destruct (Htf p (inside_head p 0)) as (q & k & Hq & Hin). unfold allocated in Hya.
        assert (q = p) as -> by (eapply (block_unique B q k Free p 0 Alloc p); [done..|apply inside_head]). congruence.
      - exists x'. destruct Hsp as (_ & -> & _ & -> & _). done. }
    unfold alloc_stats. simpl. by rewrite decide_False by (intros ?; simplify_eq; tauto).
Qed.
Lemma alloc_ok pins n T B s u c must : wstate pins (S n) T B s → use_counter u = Some c →
  wp (vmp_page_alloc_locked u must) (λ r s', ∃ p B' x, r = Some p ∧ wstate pins n T B' s' ∧ step T B s T B' s' ∧
    T !! p = None ∧ free_at B p ∧ allocated B' p 0 ∧ (∀ q k, allocated B' q k → allocated B q k ∨ q = p) ∧
    0 < p < 2 ^ pfn_bits ∧ pfndb s' !! p = Some (alloc_page u x) ∧
    ∀ a, mem s' a = if in_page p a then 0 else mem s a) s.
Proof.
  intros [Hok Hset Htr Hal Hfr Hroom] Hc. destruct (room_block _ _ _ Hroom) as (p0 & m & Hp0). unfold vmp_page_alloc_locked.
  eapply wp_mono; [apply (pages_alloc_ok B s 0 u must m p0 c Hok (room_plenty _ _ _ Hfr Hroom) Hc Hp0); lia|].
  intros r s1 (p & B' & x & -> & Htk & Hok1 & Hx & Hox & Hsp & Hmod & Hst & Hmem & Hv). change (∀ a, mem s1 a = if in_page p a then 0 else mem s a) in Hmem.
  assert (free_at B p) as Hfp by (apply (tk_free _ _ _ _ Htk), inside_head).
  assert (allocated B' p 0) as Hap by (apply (tk_allocated _ _ _ _ Htk); by right).
  assert (∀ y, out T B y → y ≠ p) as Hyp by (intros y Hy ->; by eapply out_free in Hy; [|apply Hok]).
  assert (∀ t ti, T !! t = Some ti → t ≠ p) as Htp.
  { intros t ti Ht ->. destruct Hfp as (q & k & Hq & Hin). specialize (Hal p ti Ht). unfold allocated in Hal.
    assert (q = p) as -> by (eapply (block_unique B q k Free p 0 Alloc p); [apply Hok|done|done|done|apply inside_head]). congruence. }
  assert (∀ y z, y ≠ p → pfndb s !! y = Some z → ∃ z', pfndb s1 !! y = Some z' ∧ same_page z z') as Hpg.
  { intros y z Hy Hz. specialize (Hsp y). rewrite !lookup_delete_ne, Hz in Hsp by done. destruct (pfndb s1 !! y) as [z'|]; [by exists z'|done]. }
  assert (T !! p = None) as HTp by (destruct (T !! p) eqn:E; [by apply Htp in E|done]).
  exists p, B', x. assert (∀ t ti i, T !! t = Some ti → 0 ≤ i < 512 → mem s1 (cell t i) = mem s (cell t i)) as Hms.
  { intros t ti i Ht Hi. rewrite Hmem, in_page_cell by done. by rewrite bool_decide_false by (by eapply Htp). }
  split; [done|]. split; [split|split; [split|]]; try done.
  - intros q k Hq. by apply (tk_floating _ _ _ _ Htk), Hset in Hq.
  - eapply tree_same; [done| |done|by rewrite Hmod, Hst]. intros t ti z Ht Hz. apply Hpg; [by eapply Htp|done].
  - intros t ti Ht. apply (tk_allocated _ _ _ _ Htk). left. by eapply Hal.
  - intros y Hy. by apply Hfr, (tk_covered _ _ _ _ Htk).
  - eapply (room_taken n B B' s s1 p u c); try done. apply Hok.
  - intros q k Hq Hqa. split; [done|]. apply (tk_allocated _ _ _ _ Htk). by left.
  - intros a Ha. rewrite Hmem, in_page_div, bool_decide_false by (by apply Hyp). done.
  - intros y z Hy Hz. apply Hpg; [by apply Hyp|done].
  - by rewrite Hmod, Hst.
  - intros r ri Hr Hl. split; [done|]. intros v Hvs. eapply (xlate_same pins T s); try done. intros t ti Ht. apply same_entry_refl. eapply Hms; [done|apply law_index].
  - split; [done|]. split; [done|]. split; [done|]. split; [intros q k Hq; apply (tk_allocated _ _ _ _ Htk) in Hq as [?|[-> _]]; auto|].
    split_and!; try done; apply Hfr, (tk_covered _ _ _ _ Htk); exists p, O, Alloc; (split; [done|apply inside_head]).
Qed.

(** ** New tables *)

(** The page of a table that is new, and pinned. *)
Record fresh_table (di : table) (a : Z) (x : vm_page) : Prop := FreshTable {
  ft_use : use x = level_use (t_proto di) (t_level di - 1);
  ft_owner : owner x = t_owner di;
  ft_busy : busy x = false;
  ft_counts : nonzero_ptes x = 1 ∧ noswap_ptes x = 1 ∧ refcnt x = 1;
  ft_referent : referent_pte x = a
}.
Lemma nonzero_0 : nonzero 0 = false.
Proof. apply nonzero_zero, law_zero. Qed.
Lemma noswap_0 : noswap 0 = false.
Proof. unfold noswap. by rewrite law_zero. Qed.

(** The table [p] is entered into the table [d], in place of one of its pins. *)
Lemma tree_link pins T s s' p d di i w x : tree pins T s → T !! p = None → 0 < p < 2 ^ pfn_bits → T !! d = Some di → (2 ≤ t_level di)%nat →
  0 ≤ i < t_slots di → kind (mem s (cell d i)) = kPTEKindZero → 1 ≤ pins d → pfndb s !! p = Some x → fresh_table di (cell d i) x →
  (∀ a, in_page p a = true → mem s a = 0) → kind w = kPTEKindValid → vmp_md_pte_hw_pfn w = p →
  pfndb s' = pfndb s → mem s' = store (mem s) (cell d i) w → modified s' = modified s → standby s' = standby s →
  tree (add_pin d (-1) (add_pin p 1 pins)) (<[p := down di]> T) s'.
Proof.
  intros Htr HTp Hp Hd Hl Hisl Hz Hpin Hx [F1 F2 F3 (F4 & F5 & F6) F7] Hblank Hk Hw Hpf Hm Hmod Hst. pose proof Htr as [Hinf Hpg He Hn Hsl].
  destruct (Hsl d di Hd) as [Hs0 _]. assert (0 ≤ i < 512) as Hi by lia.
  assert (d ≠ p) as Hdp by congruence. destruct (Hinf d di Hd) as (Hld & Hod & _ & Hpd). assert (child w = Some p) as Hcw by (unfold child; by rewrite Hk, Hw).
  assert (∀ y, y ≠ p → add_pin d (-1) (add_pin p 1 pins) y = add_pin d (-1) pins y) as Hpy.
  { intros y Hy. unfold add_pin. rewrite (decide_False (P := d = p)) by done. by rewrite (decide_False (P := y = p)) by done. }
  assert (∀ y yi, T !! y = Some yi → count nonzero (t_slots yi) (mem s') y = count nonzero (t_slots yi) (mem s) y + (if decide (y = d) then 1 else 0) ∧
    count noswap (t_slots yi) (mem s') y = count noswap (t_slots yi) (mem s) y + (if decide (y = d) then 1 else 0)) as Hcnt.
  { intros y yi Hy. destruct (Hsl y yi Hy). assert (y = d → i < t_slots yi) by (intros ->; assert (yi = di) as -> by congruence; lia). rewrite Hm, !count_store by (done || lia). pose proof (child_noswap _ _ Hcw) as E. pose proof (noswap_nonzero _ E) as E'.
    unfold noswap, nonzero in E, E' |- *. rewrite Hz, E, E'. done. }
  assert (∀ j, 0 ≤ j < 512 → mem s' (cell p j) = 0) as Hb0.
  { intros j Hj. rewrite Hm, store_ne by (intros Heq; by apply cell_inj in Heq as [? _]). apply Hblank. rewrite in_page_cell by done. by apply bool_decide_eq_true. }
  assert (∀ e j c, child (mem s (cell e j)) = Some c → mem s' (cell e j) = mem s (cell e j)) as Hother.
  { intros e j c Hc. rewrite Hm. apply store_ne. intros Heq. rewrite Heq in Hc. by rewrite child_zero in Hc. }
  split.
  - intros y yi Hy. apply lookup_insert_Some in Hy as [[<- <-]|[Hne Hy]].
    + simpl. split; [lia|]. do 2 (split; [done|]). rewrite add_pin_ne, add_pin_eq, Hn by done. unfold PINS. lia.
    + destruct (Hinf y yi Hy) as (? & ? & ? & ?). do 3 (split; [done|]). rewrite Hpy by done. unfold add_pin. destruct (decide (y = d)) as [->|]; lia.
  - intros y yi Hy. rewrite Hpf. apply lookup_insert_Some in Hy as [[<- <-]|[Hne Hy]].
    + exists x. split; [done|]. split.
      * assert (count nonzero 512 (mem s') p = 0 ∧ count noswap 512 (mem s') p = 0) as [C1 C2].
        { split; apply count_zero; intros j Hj; rewrite Hb0 by done; [apply nonzero_0|apply noswap_0]. }
        assert (add_pin d (-1) (add_pin p 1 pins) p = 1) as Hpp by (rewrite add_pin_ne, add_pin_eq, Hn by done; lia).
        split; simpl; rewrite ?C1, ?C2, ?Hpp; try done; simpl; try lia. rewrite decide_False by lia. lia.
      * intros _. exists d, i, di. rewrite lookup_insert_ne by done. rewrite Hm, store_eq, F6, decide_False by done. done.
    + destruct (Hpg y yi Hy) as (z & Hz' & [T1 T2 T3 T4 T5 T6 T7 T8] & Hlk). exists z. split; [done|]. destruct (Hcnt y yi Hy) as [C1 C2]. split.
      * split; rewrite ?C1, ?C2, ?Hpy by done; try done; [unfold add_pin; destruct (decide (y = d)) as [->|]; lia..|].
        intros Hr. destruct (T8 Hr) as [? Hid]. split; [done|]. unfold idle in *. by rewrite Hmod, Hst.
      * intros H4. destruct (Hlk H4) as (e & j & ei & ? & ? & He' & ? & Hc & ?). exists e, j, ei. rewrite (Hother e j y) by done.
        rewrite lookup_insert_ne by congruence. done.
  - intros e ei j He' Hle Hj. unfold entry_ok. rewrite Hpf. apply lookup_insert_Some in He' as [[<- <-]|[Hne He']].
    + left. simpl in Hj. rewrite Hb0 by done. apply law_zero.
    + destruct (decide (cell e j = cell d i)) as [Heq|Hno].
      * right. exists p, x. destruct (Hsl e ei He') as [? _]. apply cell_inj in Heq as [-> ->]; [|lia|lia]. assert (ei = di) as -> by congruence. rewrite Hm, store_eq, lookup_insert_eq. done.
      * rewrite Hm, store_ne by done. destruct (He e ei j He' Hle Hj) as [?|(c & z & ? & HT & ? & ?)]; [by left|right].
        exists c, z. rewrite lookup_insert_ne by congruence. done.
  - intros y Hy. apply lookup_insert_None in Hy as [Hy Hne]. rewrite Hpy by done. rewrite add_pin_ne by congruence. by apply Hn.
  - intros y yi Hy. apply lookup_insert_Some in Hy as [[<- <-]|[Hne Hy]]; [simpl; split; [lia|done]|by eapply Hsl].
Qed.

Lemma tree_ext pins pins' T s : (∀ y, pins' y = pins y) → tree pins T s → tree pins' T s.
Proof.
  intros Hp [Hi Hpg He Hn Hsl]. split; [| |done| |done].
  - intros t ti Ht. rewrite Hp. by apply Hi.
  - intros t ti Ht. destruct (Hpg t ti Ht) as (x & ? & [T1 T2 T3 T4 T5 T6 T7 T8] & ?). exists x. split; [done|]. split; [|done].
    split; rewrite ?Hp; done.
  - intros t Ht. rewrite Hp. by apply Hn.
Qed.
Lemma wstate_ext pins pins' n T B s : (∀ y, pins' y = pins y) → wstate pins n T B s → wstate pins' n T B s.
Proof. intros Hp [? ? ? ? ? ?]. split; try done. by eapply tree_ext. Qed.
Lemma wstate_le pins n m T B s : (m ≤ n)%nat → wstate pins n T B s → wstate pins m T B s.
Proof. intros Hm [? ? ? ? ? [(l & ? & ? & ? & ?) ?]]. split; try done. split; [exists l|done]. split_and!; try done. lia. Qed.

(** Walks only add: tables come to be, and entries above the leaves change only where there
    was none, or an idle table. *)
Record extends (T T' : tables) (s s' : pst) : Prop := Extends {
  ex_tables : T ⊆ T';
  ex_entry : ∀ t ti i, T !! t = Some ti → 0 ≤ i < 512 → mem s' (cell t i) = mem s (cell t i) ∨
    ((2 ≤ t_level ti)%nat ∧ kind (mem s (cell t i)) ≠ kPTEKindValid)
}.
Lemma extends_refl T s s' : mem s' = mem s → extends T T s s'.
Proof. intros Hm. split; [done|]. intros. left. by rewrite Hm. Qed.
Lemma extends_trans T1 T2 T3 s1 s2 s3 : extends T1 T2 s1 s2 → extends T2 T3 s2 s3 → extends T1 T3 s1 s3.
Proof.
  intros [Hl1 He1] [Hl2 He2]. split; [by etrans|]. intros t ti i Ht Hi.
  destruct (He1 t ti i Ht Hi) as [H1|H1]; [|by right]. destruct (He2 t ti i (lookup_weaken _ _ _ _ Ht Hl1) Hi) as [H2|[H2 H3]].
  - left. congruence.
  - right. split; [done|]. congruence.
Qed.

(** The step that makes a table of a page that was free before. *)
Lemma step_link T B s B1 s1 s2 p d di i w pins : step T B s T B1 s1 → tree pins T s1 → blocks_ok B1 → (∀ t ti, T !! t = Some ti → allocated B1 t 0) →
  (∀ y, out T B y → y ≠ p) → allocated B1 p 0 → T !! p = None → T !! d = Some di → (2 ≤ t_level di)%nat → 0 ≤ i < 512 →
  kind (mem s1 (cell d i)) = kPTEKindZero → child w = Some p → (∀ a, in_page p a = true → mem s1 a = 0) →
  (∀ y, y ≠ p → T !! y = None → pfndb s2 !! y = pfndb s1 !! y) → mem s2 = store (mem s1) (cell d i) w → modified s2 = modified s1 → standby s2 = standby s1 →
  step T B s (<[p := down di]> T) B1 s2.
Proof.
  intros Hs1 Htr Hb Hal Hnp Hap HTp Hd Hl Hi Hz Hcw Hblank Hpf Hm2 Hmod Hst.
  assert (∀ y, out T B y → out T B1 y) as Ho by (intros y; by eapply step_out). destruct Hs1 as [Hbl Hm Hp Hq Hr].
  assert (∀ y, out T B y → T !! y = None) as Hnt by (intros y Hy; eapply out_no_table; [done|done|by apply Ho]). split.
  - intros q k Hq0 Hqa. destruct (Hbl q k Hq0 Hqa). split; [|done]. apply lookup_insert_None. split; [done|]. intros <-.
    apply (Hnp p); [|done]. exists p, k. split_and!; [done|done|apply inside_head..].
  - intros a Ha. rewrite Hm2, store_other; [by apply Hm| |done]. intros Heq. apply Hnt in Ha. congruence.
  - intros y x Hy Hx. rewrite Hpf; [by apply Hp|by apply Hnp|by apply Hnt].
  - intros y Hy. rewrite Hmod, Hst. by apply Hq.
  - intros r ri HT H4. destruct (Hr r ri HT H4) as [_ Hx]. split; [rewrite lookup_insert_ne; [done|congruence]|]. intros v Hvs. rewrite <-Hx by done.
    eapply (xlate_same pins T s1); try done. intros t ti Ht. rewrite Hm2. destruct (decide (cell t (index v (t_level ti)) = cell d i)) as [Heq|Hne].
    + apply cell_inj in Heq as [-> Heq]; [|apply law_index|done]. assert (ti = di) as -> by congruence. rewrite Heq.
      unfold same_entry. rewrite decide_False by lia. right. unfold dead. rewrite store_eq, Hcw, child_zero by done. split; [done|].
      assert (∀ j, 0 ≤ j < 512 → store (mem s1) (cell d i) w (cell p j) = 0) as Hb0.
      { intros j Hj. rewrite store_ne by (intros H; apply cell_inj in H as [? _]; congruence). apply Hblank. rewrite in_page_cell by done. by apply bool_decide_eq_true. }
      destruct (t_level di - 1)%nat as [|[|l]]; [done| |].
      * rewrite xlate_leaf, Hb0 by apply law_index. by rewrite present_zero by apply law_zero.
      * rewrite xlate_step, Hb0 by apply law_index. by rewrite child_zero by apply law_zero.
    + apply same_entry_refl. by apply store_ne.
Qed.

(** Making the table below [d] for the address. *)
Definition make_table (a : walk_args) (level : nat) (dirpage pte : Z) : kern pst Z :=
  page ← new_table a level pte;
  (if is_proto a then
     word_set pte (vmp_md_pte_create_hw page true false false false);;
     vmp_pagetable_page_noswap_pte_created dirpage true
   else vmp_md_setup_table_pointers dirpage page pte kWasZero);;
  mret page.
(** The walk is for the tree the table is in. *)
Definition walks (a : walk_args) (ti : table) : Prop := is_proto a = t_proto ti ∧ default (wa_ps a) (wa_obj a) = t_owner ti.
Lemma table_use_level a ti : walks a ti → (2 ≤ t_level ti ≤ 4)%nat → table_use a (t_level ti) = level_use (t_proto ti) (t_level ti - 1).
Proof. intros [Hp _] Hl. unfold table_use, level_use. rewrite Hp. by destruct (t_level ti) as [|[|[|[|[|?]]]]]; try lia. Qed.

Lemma new_table_ok pins n T B s a d di i : wstate pins (S n) T B s → T !! d = Some di → (2 ≤ t_level di)%nat → walks a di →
  wp (new_table a (t_level di) (cell d i)) (λ p s', ∃ B' x, wstate pins n T B' s' ∧ step T B s T B' s' ∧ T !! p = None ∧ free_at B p ∧
    allocated B' p 0 ∧ (∀ q k, allocated B' q k → allocated B q k ∨ q = p) ∧ 0 < p < 2 ^ pfn_bits ∧ pfndb s' !! p = Some x ∧ fresh_table di (cell d i) x ∧
    ∀ a, mem s' a = if in_page p a then 0 else mem s a) s.
Proof.
  intros Hws Hd Hl Hwa. destruct (tr_info _ _ _ (ws_tree _ _ _ _ _ Hws) d di Hd) as (Hl4 & _). unfold new_table. rewrite wp_bind.
  rewrite (table_use_level a di Hwa) by lia.
  assert (∃ c, use_counter (level_use (t_proto di) (t_level di - 1)) = Some c) as [c Hc].
  { unfold level_use. destruct (t_proto di); destruct (t_level di - 1)%nat as [|[|[|[|?]]]]; eauto. }
  eapply wp_mono; [by apply (alloc_ok pins n T B s _ c false)|].
  intros r s1 (p & B' & x & -> & Hws1 & Hst1 & HTp & Hfp & Hap & Honly & Hp & Hx & Hmem). rewrite wp_bind, wp_deref. exists p. split; [done|].
  rewrite wp_bind, wp_page_upd. eexists. split; [done|]. rewrite wp_ret. set (x' := with_referent _ _). set (s2 := set_pfndb _ s1).
  assert (∀ y, y ≠ p → pfndb s2 !! y = pfndb s1 !! y) as Hoth by (intros y Hy; simpl; by rewrite lookup_insert_ne).
  assert (∀ y, out T B y → y ≠ p) as Hnp by (intros y Hy ->; eapply out_free in Hy; [done|apply (ws_buddy _ _ _ _ _ Hws)]).
  exists B', x'. destruct Hws1 as [Hok Hset Htr Hal Hfr Hroom]. split; [split; try done|split; [split|]].
  - by eapply (upd_page_ok B' s1 p 0 Alloc).
  - eapply tree_same; try done. intros t ti z Ht Hz. exists z. rewrite Hoth by congruence. split; [done|apply same_page_refl].
  - eapply (room_upd n B' s1); try done. eapply standby_ref; [done|done|by left].
  - apply Hst1.
  - apply Hst1.
  - intros y z Hy Hz. rewrite Hoth by (by apply Hnp). by apply Hst1.
  - apply Hst1.
  - apply Hst1.
  - split_and!; try done; try lia; [by simpl; rewrite lookup_insert_eq|]. destruct Hwa as [_ Ho]. split; simpl; done.
Qed.
Lemma make_table_ok pins n T B s a d di i : wstate pins (S n) T B s → T !! d = Some di → (2 ≤ t_level di)%nat → walks a di →
  0 ≤ i < t_slots di → 1 ≤ pins d ≤ PINS → kind (mem s (cell d i)) = kPTEKindZero →
  wp (make_table a (t_level di) d (cell d i)) (λ p s', ∃ B', let T' := <[p := down di]> T in wstate (add_pin p 1 pins) n T' B' s' ∧
    step T B s T' B' s' ∧ tight T B T' B' ∧ extends T T' s s' ∧ T !! p = None ∧ pins p = 0 ∧ 0 < p < 2 ^ pfn_bits ∧
    kind (mem s' (cell d i)) = kPTEKindValid ∧ vmp_md_pte_hw_pfn (mem s' (cell d i)) = p) s.
Proof.
  intros Hws Hd Hl Hwa Hisl Hpin Hz. destruct (tr_slots _ _ _ (ws_tree _ _ _ _ _ Hws) d di Hd) as [Hs0 _]. assert (0 ≤ i < 512) as Hi by lia. unfold make_table. rewrite wp_bind. eapply wp_mono; [by apply (new_table_ok pins n T B s a d di i)|].
  intros p s1 (B' & x & Hws1 & Hst1 & HTp & Hfp & Hap & Honly & Hp & Hx & Hft & Hmem). set (T' := <[p := down di]> T).
  assert (∀ y, out T B y → y ≠ p) as Hnp by (intros y Hy ->; eapply out_free in Hy; [done|apply (ws_buddy _ _ _ _ _ Hws)]).
  assert (∀ t ti j, T !! t = Some ti → 0 ≤ j < 512 → mem s1 (cell t j) = mem s (cell t j)) as Hms.
  { intros t ti j Ht Hj. rewrite Hmem, in_page_cell by done. rewrite bool_decide_false; [done|congruence]. }
  assert (∀ b, in_page p b = true → mem s1 b = 0) as Hblank by (intros b Hb; by rewrite Hmem, Hb).
  assert (kind (mem s1 (cell d i)) = kPTEKindZero) as Hz1 by (by rewrite (Hms d di)).
  assert (∀ w, kind w = kPTEKindValid → vmp_md_pte_hw_pfn w = p → wp (word_set (cell d i) w;; vmp_pagetable_page_noswap_pte_created d true)
    (λ _ s', wstate (add_pin p 1 pins) n T' B' s' ∧ step T B s T' B' s' ∧ mem s' = store (mem s1) (cell d i) w) s1) as Hgo.
  { intros w Hk Hw. rewrite wp_bind. unfold word_set. rewrite wp_modify. fold (store (mem s1) (cell d i) w). set (s2 := set_mem _ s1).
    pose proof Hws1 as [Hok Hset Htr Hal Hfr Hroom]. assert (child w = Some p) as Hcw by (unfold child; by rewrite Hk, Hw).
    assert (wstate (add_pin d (-1) (add_pin p 1 pins)) n T' B' s2) as Hws2.
    { split; try done; [by destruct Hok|by eapply (tree_link pins T s1 s2 p d di i w x); try done; lia| |by destruct Hroom].
      intros t ti Ht. apply lookup_insert_Some in Ht as [[<- _]|[_ Ht]]; [done|by eapply Hal]. }
    assert (step T B s T' B' s2) as Hst2 by (by eapply (step_link T B s B' s1 s2 p d di i w pins); try done; apply Hok).
    assert (T' !! d = Some di) as Hd' by (unfold T'; rewrite lookup_insert_ne; [done|congruence]).
    destruct (table_counts _ _ _ _ _ (ws_tree _ _ _ _ _ Hws2) Hd') as (y & Hy & Htp & _ & Hpd & Hc & _).
    eapply wp_mono; [eapply (pin_ok _ n T' B' s2 d di y); try done|].
    - rewrite add_pin_eq, add_pin_ne by congruence. lia.
    - pose proof (tp_noswap _ _ _ _ _ Htp) as Hns. pose proof (tp_refcnt _ _ _ _ _ Htp) as Hrc.
      pose proof (count_some noswap (t_slots di) (mem s2) d i Hisl) as Hcs. simpl in Hcs, Hns. rewrite store_eq in Hcs. specialize (Hcs (child_noswap _ _ Hcw)). case_decide; lia.
    - intros [] s3 (Hws3 & Hst3 & Hm3). split; [|split; [by eapply step_trans|done]]. eapply wstate_ext; [|done].
      intros y0. unfold add_pin. repeat case_decide; simplify_eq; lia. }
  rewrite wp_bind. assert (∃ w, kind w = kPTEKindValid ∧ vmp_md_pte_hw_pfn w = p ∧ (if is_proto a then
     word_set (cell d i) (vmp_md_pte_create_hw p true false false false);; vmp_pagetable_page_noswap_pte_created d true
     else vmp_md_setup_table_pointers d p (cell d i) kWasZero) = (word_set (cell d i) w;; vmp_pagetable_page_noswap_pte_created d true)) as (w & Hk & Hw & ->).
  { assert (0 ≤ p < 2 ^ pfn_bits) as Hp' by lia. destruct (is_proto a); [destruct (law_hw p true false false false Hp') as (? & ? & _)|destruct (law_table p Hp')]; eexists; (split_and!; [done|done|reflexivity]). }
  eapply wp_mono; [by apply Hgo|]. intros [] s' (Hws' & Hst' & Hm'). rewrite wp_ret. exists B'. cbv zeta. fold T'. split; [done|]. split; [done|].
  split; [intros q k Hq Hqa; apply lookup_insert_None in Hq as [Hq Hne]; destruct (Honly q k Hqa); [done|congruence]|].
  split; [split|].
  - by apply insert_subseteq.
  - intros t ti j Ht Hj. rewrite Hm'. destruct (decide (cell t j = cell d i)) as [Heq|Hne]; [|left; rewrite store_ne by done; by eapply Hms].
    right. apply cell_inj in Heq as [-> ->]; [|done..]. assert (ti = di) as -> by congruence. split; [done|congruence].
  - rewrite Hm', store_eq. split_and!; try done; try lia. by apply (tr_pins _ _ _ (ws_tree _ _ _ _ _ Hws)).
Qed.

(** ** Unpinning *)

Definition unpinned (x : vm_page) : vm_page :=
  with_dirty true (with_ptes (nonzero_ptes x - 1) (noswap_ptes x - 1) (with_refcnt (refcnt x - 1) x)).
Lemma root_level pins s t ti x : table_page pins s t ti x → (1 ≤ t_level ti ≤ 4)%nat → page_is_root_table x = bool_decide (t_level ti = 4%nat).
Proof.
  intros Htp Hl. unfold page_is_root_table. rewrite (tp_use _ _ _ _ _ Htp). unfold level_use.
  destruct (t_proto ti); destruct (t_level ti) as [|[|[|[|[|?]]]]]; try lia; reflexivity.
Qed.
(** What is left of a deletion when the table stays. *)
Definition drop_noswap (page : Z) (x : vm_page) : kern pst () :=
  page_upd page (λ x, with_ptes (nonzero_ptes x) (i16 (noswap_ptes x - 1)) x);;
  when ((noswap_ptes x =? 1) && negb (page_is_root_table x)) (table_to_trans page x);;
  page_upd page (with_dirty true);;
  vmp_page_release_locked page.
Lemma drop_live s t x : pfndb s !! t = Some (with_ptes (nonzero_ptes x - 1) (noswap_ptes x) x) → 1 ≤ noswap_ptes x < 2 ^ 15 → 2 ≤ refcnt x →
  (noswap_ptes x =? 1) && negb (page_is_root_table x) = false →
  wp (drop_noswap t x) (λ _ s', s' = set_pfndb (<[t := unpinned x]> (pfndb s)) s) s.
Proof.
  intros Hx Hns Hr Hno. unfold drop_noswap. rewrite wp_bind, wp_page_upd. eexists. split; [done|]. rewrite wp_bind, Hno, wp_when.
  rewrite wp_bind, wp_page_upd. eexists. split; [simpl; by rewrite lookup_insert_eq|]. simpl. unfold vmp_page_release_locked.
  rewrite wp_bind, wp_page_at. eexists. split; [simpl; by rewrite lookup_insert_eq|]. simpl.
  rewrite wp_bind, wp_kassert, (proj2 (Z.ltb_lt 0 _)) by lia. split; [done|].
  rewrite wp_bind, wp_page_set, wp_when, (proj2 (Z.eqb_neq _ 1)) by lia. simpl. rewrite !insert_insert_eq, i16_small by lia. done.
Qed.
Lemma set_pfndb_twice pf pf' s : set_pfndb pf (set_pfndb pf' s) = set_pfndb pf s.
Proof. done. Qed.
(** The last pin of a table with entries that do not keep it in memory. *)
Lemma drop_last s t x : pfndb s !! t = Some (with_ptes (nonzero_ptes x - 1) (noswap_ptes x) x) → noswap_ptes x = 1 → refcnt x = 1 →
  (∃ l, (1 ≤ l ≤ 3)%nat ∧ use x = level_use false l) → 0 ≤ t < 2 ^ 61 →
  wp (drop_noswap t x) (λ _ s', pfndb s' = <[t := unpinned x]> (pfndb s) ∧ mem s' = store (mem s) (referent_pte x) (vmp_md_pte_create_trans t) ∧
    buddy_queue s' = buddy_queue s ∧ buddy_queue_npages s' = buddy_queue_npages s ∧ modified s' = modified s ++ [t] ∧ standby s' = standby s ∧
    vmstat s' nfree = vmstat s nfree ∧ vmstat s' nstandby = vmstat s nstandby) s.
Proof.
  intros Hx Hns Hr (l & Hl & Hu) Ht. assert (page_is_root_table x = false) as Hnr.
  { unfold page_is_root_table. rewrite Hu. by destruct l as [|[|[|[|?]]]]; try lia. }
  assert (use_is_hw_table (use x) = true) as Hhw by (rewrite Hu; by destruct l as [|[|[|[|?]]]]; try lia).
  destruct (law_trans t Ht) as [Hk Hs].
  unfold drop_noswap. rewrite wp_bind, wp_page_upd. eexists. split; [done|]. rewrite wp_bind, Hnr, Hns. simpl. unfold table_to_trans. rewrite Hhw.
  unfold vmp_md_trans_table_pointers, word_set. rewrite wp_modify, wp_bind, wp_page_upd. eexists. split; [simpl; by rewrite lookup_insert_eq|].
  simpl. unfold vmp_page_release_locked. rewrite wp_bind, wp_page_at. eexists. split; [simpl; by rewrite lookup_insert_eq|]. simpl.
  rewrite wp_bind, wp_kassert, Hr. split; [done|]. rewrite wp_bind, wp_page_set, wp_when. simpl. rewrite wp_bind, wp_stat_add. simpl.
  rewrite decide_False by (rewrite Hu; by destruct l as [|[|[|[|?]]]]; try lia). rewrite wp_bind.
  assert (∀ s' Q, mem s' = store (mem s) (referent_pte x) (vmp_md_pte_create_trans t) → Q () s' →
    wp (referent_check t (with_dirty true (with_ptes (nonzero_ptes x - 1) (i16 0) x))) Q s') as Hrc.
  { intros s' Q Hm HQ. unfold referent_check. simpl. rewrite Hu. destruct l as [|[|[|[|?]]]]; try lia; simpl;
      (rewrite wp_bind; unfold word_at; rewrite wp_gets, Hm, store_eq, wp_bind, wp_kassert, Hk; split; [done|];
       rewrite wp_bind, wp_deref; exists t; split; [done|]; rewrite wp_kassert, Z.eqb_refl; done). }
  apply Hrc; [done|]. rewrite wp_bind, wp_modify, wp_bind, wp_stat_add, wp_update_events. simpl. rewrite !insert_insert_eq.
  split_and!; try done. unfold unpinned. by rewrite Hns, Hr.
Qed.

(** The start of a deletion, up to the decision. *)
Lemma deleted_start fuel s t x Q : pfndb s !! t = Some x → noswap_ptes x ≤ refcnt x → 0 < nonzero_ptes x < 2 ^ 15 →
  let s1 := set_pfndb (<[t := with_ptes (nonzero_ptes x - 1) (noswap_ptes x) x]> (pfndb s)) s in
  wp (if (nonzero_ptes x =? 1) && negb (page_is_root_table x) then
    vmp_page_delete_locked t;;
    y ← page_at t;
    kassert "page->referent_pte != 0" (negb (referent_pte y =? 0));;
    let dirpage := vm_paddr_to_page (referent_pte y) in
    match fuel with
    | O => spin
    | S fuel' =>
        if use_is_hw_table (use x) then
          vmp_md_delete_table_pointers (vmp_pagetable_page_pte_deleted fuel') dirpage (referent_pte y)
        else word_set (referent_pte y) 0;; vmp_pagetable_page_pte_deleted fuel' dirpage false
    end;;
    page_upd t (λ x, with_referent 0 (with_ptes (nonzero_ptes x) 0 x));;
    vmp_page_release_locked t
  else drop_noswap t x) Q s1 → wp (vmp_pagetable_page_pte_deleted fuel t false) Q s.
Proof.
  intros Hx Hns Hnz s1 Hw. assert (wp (x ← page_at t; check_page_consistency x;; page_upd t (λ x, with_ptes (i16 (nonzero_ptes x - 1)) (noswap_ptes x) x);;
    if (nonzero_ptes x =? 1) && negb (page_is_root_table x) then
    vmp_page_delete_locked t;;
    y ← page_at t;
    kassert "page->referent_pte != 0" (negb (referent_pte y =? 0));;
    let dirpage := vm_paddr_to_page (referent_pte y) in
    match fuel with
    | O => spin
    | S fuel' =>
        if use_is_hw_table (use x) then
          vmp_md_delete_table_pointers (vmp_pagetable_page_pte_deleted fuel') dirpage (referent_pte y)
        else word_set (referent_pte y) 0;; vmp_pagetable_page_pte_deleted fuel' dirpage false
    end;;
    page_upd t (λ x, with_referent 0 (with_ptes (nonzero_ptes x) 0 x));;
    vmp_page_release_locked t
  else drop_noswap t x) Q s) as Hgoal; [|by destruct fuel].
  rewrite wp_bind, wp_page_at. exists x. split; [done|]. unfold check_page_consistency. rewrite wp_bind, (proj2 (Z.ltb_ge (refcnt x) _)) by done.
  rewrite andb_false_r, wp_ret, wp_bind, wp_page_upd. exists x. split; [done|]. rewrite i16_small by lia. exact Hw.
Qed.
Lemma unpinned_page pins s s' t ti x : table_page pins s t ti x → (t_level ti ≠ 4%nat → nonzero_ptes x ≠ 1) →
  (∀ f, count f (t_slots ti) (mem s') t = count f (t_slots ti) (mem s) t) → (refcnt x = 1 → t_proto ti = false ∧ t ∈ modified s') → table_page (add_pin t (-1) pins) s' t ti (unpinned x).
Proof.
  intros [H1 H2 H3 H4 H5 H6 H7 H8] Hnz Hc Hid. split; simpl; rewrite ?add_pin_eq, ?Hc; try done; try lia.
  intros Hr. destruct Hid as [? ?]; [lia|]. by split.
Qed.
Lemma unpin_keep fuel pins n T B s t ti x : wstate pins n T B s → T !! t = Some ti → pfndb s !! t = Some x → 1 ≤ pins t → t_proto ti = false →
  (t_level ti ≠ 4%nat → nonzero_ptes x ≠ 1) →
  wp (vmp_pagetable_page_pte_deleted fuel t false) (λ _ s', wstate (add_pin t (-1) pins) n T B s' ∧ step T B s T B s') s.
Proof.
  intros Hws Ht Hx Hpin Hproto Hnz. pose proof Hws as [Hok Hset Htr Hal Hfr Hroom].
  destruct (table_counts pins T s t ti Htr Ht) as (y & Hy & Htp & Hlk & Hpb & Hc1 & Hc2 & Hc3 & Hc4). assert (y = x) as -> by congruence.
  destruct (tr_info _ _ _ Htr t ti Ht) as (Hlev & _ & Htr2 & _). unfold PINS in Hpb. apply (deleted_start fuel s t x); [done|lia|lia|].
  rewrite (root_level pins s t ti x Htp Hlev).
  assert ((nonzero_ptes x =? 1) && negb (bool_decide (t_level ti = 4%nat)) = false) as ->.
  { apply andb_false_iff. destruct (decide (t_level ti = 4%nat)) as [?|Hne]; [right; by rewrite bool_decide_true|left]. apply Z.eqb_neq. auto. }
  set (s1 := set_pfndb _ s). assert (pfndb s1 !! t = Some (with_ptes (nonzero_ptes x - 1) (noswap_ptes x) x)) as Hx1 by (simpl; by rewrite lookup_insert_eq).
  pose proof (tp_refcnt _ _ _ _ _ Htp) as Hrc. destruct (decide (2 ≤ refcnt x)) as [Hr2|Hr1].
  - eapply wp_mono; [apply (drop_live s1 t x); [done|lia|done|]|].
    { rewrite (root_level pins s t ti x Htp Hlev). apply andb_false_iff. case_decide; [right; by rewrite bool_decide_true|left; apply Z.eqb_neq; lia]. }
    intros [] s' ->. unfold s1. rewrite set_pfndb_twice. simpl. rewrite insert_insert_eq.
    eapply (wstate_upd pins (add_pin t (-1) pins) n T B s t ti x (unpinned x)); try done; [lia|]. eapply (tree_upd pins _ T s _ t ti x (unpinned x)); try done.
    + intros y Hne. by apply add_pin_ne.
    + rewrite add_pin_eq. unfold PINS. lia.
    + apply (unpinned_page pins s); try done. lia.
    + simpl. lia.
  - case_decide as H4; [lia|]. destruct (Hlk H4) as (d & i & di & Hi & Href & Hd & Hti & Hch & Hk). pose proof law_bits as Hbits.
    destruct (tr_slots _ _ _ Htr d di Hd) as [Hs0 _]. assert (0 ≤ i < 512) as Hi5 by lia.
    assert (2 ^ pfn_bits ≤ 2 ^ 52) by (apply Z.pow_le_mono_r; lia).
    eapply wp_mono; [apply (drop_last s1 t x); [done|lia|lia| |lia]|].
    { exists (t_level ti). split; [lia|]. rewrite (tp_use _ _ _ _ _ Htp). by rewrite Hproto. }
    intros [] s' (Hpf & Hm & Hq1 & Hq2 & Hmod & Hst & Hnf & Hns). simpl in Hpf. rewrite insert_insert_eq in Hpf. rewrite Href in Hm. simpl in Hm.
    destruct (law_trans t) as [Hkw Hsw]; [lia|]. assert (child (vmp_md_pte_create_trans t) = Some t) as Hcw by (unfold child; by rewrite Hkw, Hsw).
    assert (2 ≤ t_level di)%nat as Hl2 by (rewrite Hti in Hlev; simpl in Hlev; lia).
    assert (∀ y, y ≠ t → (y ∈ modified s → y ∈ modified s') ∧ (y ∈ standby s → y ∈ standby s')) as Hq.
    { intros y _. rewrite Hmod, Hst. split; [|done]. intros ?. apply elem_of_app. by left. }
    split; [split; try done|by eapply (step_retype pins T B s s' t (unpinned x) d i di); try done; [apply Hok|congruence]].
    + pose proof (upd_page_ok B s t 0 Alloc x (unpinned x) Hok (Hal t ti Ht) Hx eq_refl eq_refl eq_refl) as [? Hpg Hqs]. split; [done|by rewrite Hpf|by rewrite Hq1, Hq2].
    + eapply (tree_retype pins _ T s s' t ti x (unpinned x) d i di); try done.
      * simpl. by rewrite decide_True by lia.
      * intros y Hne. by apply add_pin_ne.
      * rewrite add_pin_eq. unfold PINS. lia.
      * apply (unpinned_page pins s); [done|done| |].
        -- intros f. destruct (decide (t = d)) as [->|Hne]; [|destruct (tr_slots _ _ _ Htr t ti Ht); destruct (tr_slots _ _ _ Htr d di Hd); rewrite Hm, count_store by (done || lia); rewrite decide_False by done; lia].
           rewrite Hti in Ht. rewrite Hd in Ht. injection Ht as Ht. destruct di as [l ? ? ?]. unfold down in Ht. simpl in *. injection Ht as Ht. lia.
        -- intros _. split; [done|]. rewrite Hmod. apply elem_of_app. right. apply list_elem_of_singleton. done.
    + eapply (room_upd n B s s' t (unpinned x)); try done. eapply standby_ref; [done|done|left; lia].
Qed.

(** The empty table [t] is taken out of the tree; its entry becomes a pin. *)
Lemma tree_unlink pins T s s' t ti x d i di : tree pins T s → T !! t = Some ti → pfndb s !! t = Some x → count nonzero 512 (mem s) t = 0 →
  pins t = 1 → T !! d = Some di → ti = down di → 0 ≤ i < t_slots di → referent_pte x = cell d i → child (mem s (cell d i)) = Some t → pins d < PINS →
  (∀ y, y ≠ t → pfndb s' !! y = pfndb s !! y) → mem s' = store (mem s) (cell d i) 0 → modified s' = modified s → standby s' = standby s →
  tree (add_pin d 1 (add_pin t (-1) pins)) (delete t T) s'.
Proof.
  intros Htr Ht Hx Hnz Hpin Hd -> Hisl Href Hch Hpd Hpf Hm Hmod Hst. pose proof Htr as [Hinf Hpg He Hn Hsl].
  destruct (Hsl d di Hd) as [Hs0 _]. assert (0 ≤ i < 512) as Hi by lia.
  destruct (Hinf t _ Ht) as ((Hl1 & _) & _). simpl in Hl1.
  assert (t ≠ d) as Htd. { intros ->. rewrite Hd in Ht. injection Ht as Ht. destruct di as [l ? ? ?]. unfold down in Ht. simpl in *. injection Ht as Ht. lia. }
  assert (∀ y, y ≠ t → add_pin d 1 (add_pin t (-1) pins) y = add_pin d 1 pins y) as Hpy.
  { intros y Hy. unfold add_pin. rewrite (decide_False (P := d = t)) by done. by rewrite (decide_False (P := y = t)) by done. }
  assert (∀ y yi, T !! y = Some yi → count nonzero (t_slots yi) (mem s') y = count nonzero (t_slots yi) (mem s) y - (if decide (y = d) then 1 else 0) ∧
    count noswap (t_slots yi) (mem s') y = count noswap (t_slots yi) (mem s) y - (if decide (y = d) then 1 else 0)) as Hcnt.
  { intros y yi Hy. destruct (Hsl y yi Hy). assert (y = d → i < t_slots yi) by (intros ->; assert (yi = di) as -> by congruence; lia). rewrite Hm, !count_store by (done || lia). pose proof (child_noswap _ _ Hch) as E. rewrite E, (noswap_nonzero _ E), nonzero_0, noswap_0. simpl. destruct (decide (y = d)); lia. }
  assert (∀ e ei j c, T !! e = Some ei → (2 ≤ t_level ei)%nat → 0 ≤ j < 512 → c ≠ t → child (mem s (cell e j)) = Some c → mem s' (cell e j) = mem s (cell e j)) as Hother.
  { intros e ei j c _ _ Hj Hc Hcc. rewrite Hm. apply store_ne. intros Heq. congruence. }
  split.
  - intros y yi Hy. apply lookup_delete_Some in Hy as [Hne Hy]. destruct (Hinf y yi Hy) as (? & ? & ? & ?). do 3 (split; [done|]).
    rewrite Hpy by done. unfold add_pin. destruct (decide (y = d)) as [->|]; lia.
  - intros y yi Hy. apply lookup_delete_Some in Hy as [Hne Hy]. destruct (Hpg y yi Hy) as (z & Hz & [T1 T2 T3 T4 T5 T6 T7 T8] & Hlk).
    exists z. rewrite Hpf by done. split; [done|]. destruct (Hcnt y yi Hy) as [C1 C2]. split.
    + split; rewrite ?C1, ?C2, ?Hpy by done; try done; [unfold add_pin; destruct (decide (y = d)) as [->|]; lia..|].
      intros Hr. destruct (T8 Hr) as [? Hid]. split; [done|]. unfold idle in *. by rewrite Hmod, Hst.
    + intros H4. destruct (Hlk H4) as (e & j & ei & ? & ? & He' & ? & Hc & ?). exists e, j, ei.
      destruct (Hinf y yi Hy) as ((? & _) & _). assert (2 ≤ t_level ei)%nat by (subst yi; simpl in *; lia). destruct (Hsl e ei He') as [? _]. rewrite (Hother e ei j y) by (done || lia).
      split_and!; try done; try lia. apply lookup_delete_Some. split; [|done]. intros <-.
      (* [t] has no entries *) rewrite count_zero in Hnz. specialize (Hnz j ltac:(lia)). apply nonzero_zero in Hnz. by rewrite child_zero in Hc.
  - intros e ei j He' Hle Hj. unfold entry_ok. apply lookup_delete_Some in He' as [Hne He'].
    destruct (decide (cell e j = cell d i)) as [Heq|Hno]; [left; rewrite Heq, Hm, store_eq; apply law_zero|].
    rewrite Hm, store_ne by done. destruct (He e ei j He' Hle Hj) as [?|(c & z & Hc & HT & Hz & Hrz)]; [by left|right].
    assert (c ≠ t) by (intros ->; congruence). exists c, z. rewrite lookup_delete_ne, Hpf by done. done.
  - intros y Hy. apply lookup_delete_None in Hy as [<-|Hy].
    + rewrite add_pin_ne, add_pin_eq by done. lia.
    + rewrite Hpy by congruence. rewrite add_pin_ne by congruence. by apply Hn.
  - intros y yi Hy. apply lookup_delete_Some in Hy as [_ Hy]. by eapply Hsl.
Qed.
Lemma step_unlink pins T B s s' t d i di : tree pins T s → blocks_ok B → (∀ t ti, T !! t = Some ti → allocated B t 0) → T !! t = Some (down di) →
  (1 ≤ t_level di - 1)%nat → count nonzero 512 (mem s) t = 0 → T !! d = Some di → 0 ≤ i < 512 → child (mem s (cell d i)) = Some t →
  (∀ y, y ≠ t → pfndb s' !! y = pfndb s !! y) → mem s' = store (mem s) (cell d i) 0 → modified s' = modified s → standby s' = standby s →
  step T B s (delete t T) B s'.
Proof.
  intros Htr Hb Hal Ht Hl Hnz Hd Hi Hch Hpf Hm Hmod Hst. assert (∀ y, out T B y → T !! y = None) as Hnt by (intros y; by apply out_no_table). split.
  - intros q k Hq Hqa. split; [|done]. apply lookup_delete_None. by right.
  - intros a Ha. rewrite Hm, store_other; [done| |done]. intros Heq. apply Hnt in Ha. congruence.
  - intros y z Hy Hz. exists z. rewrite Hpf; [split; [done|apply same_page_refl]|]. intros ->. apply Hnt in Hy. congruence.
  - intros y _. by rewrite Hmod, Hst.
  - intros r ri Hr H4. split.
    + apply lookup_delete_Some. split; [|done]. intros <-. assert (ri = down di) as -> by congruence. destruct (tr_info _ _ _ Htr d di Hd) as (? & _). simpl in H4. lia.
    + intros v Hvs. eapply (xlate_same pins T s); try done. intros y yi Hy. rewrite Hm. destruct (decide (cell y (index v (t_level yi)) = cell d i)) as [Heq|Hne].
      * apply cell_inj in Heq as [-> Heq]; [|apply law_index|done]. assert (yi = di) as -> by congruence. rewrite Heq. unfold same_entry.
        rewrite decide_False by lia. right. unfold dead. rewrite store_eq, Hch. rewrite (child_zero 0) by apply law_zero. split; [|done].
        rewrite count_zero in Hnz. assert (∀ j, 0 ≤ j < 512 → kind (mem s (cell t j)) = kPTEKindZero) as Hzz by (intros j Hj; by apply nonzero_zero, Hnz).
        destruct (t_level di - 1)%nat as [|[|l]]; [done| |].
        -- rewrite xlate_leaf, present_zero; [done|]. apply Hzz, law_index.
        -- rewrite xlate_step, child_zero; [done|]. apply Hzz, law_index.
      * apply same_entry_refl. by apply store_ne.
Qed.

(** ** Freeing *)

Lemma room_given n B B' s s' t : (∀ y, covered B y → 0 < y < 2 ^ pfn_bits) → room n B s → given B B' t 0 → ¬ free_at B t →
  vmstat s' nfree = u64 (vmstat s nfree + 1) → vmstat s' nstandby = vmstat s nstandby → standby s' = standby s → t ∉ standby s →
  (∀ y x, y ≠ t → pfndb s !! y = Some x → ∃ x', pfndb s' !! y = Some x' ∧ same_page x x') → room n B' s'.
Proof.
  intros Hfr Hroom [Hgf Hga _] Hnf Hf Hs Hst Hnt Hpg. pose proof (room_free _ B s Hfr Hroom) as Hb. destruct Hroom as [(l & Hnd & Hl & Hlen & Hn) (H1 & H2 & H3)]. split.
  - exists (t :: l). split_and!.
    + apply NoDup_cons. split; [|done]. by rewrite Hl.
    + intros y. rewrite elem_of_cons, Hl, Hgf. unfold inside, size. simpl. split; intros [?|?]; auto; [right|left]; lia.
    + rewrite Hf, u64_small by lia. simpl. lia.
    + simpl. lia.
  - rewrite Hst, Hs. split_and!; [done| |done]. intros y Hy. assert (y ≠ t) as Hyt by (by intros ->). destruct (H2 y Hy) as (Hya & x & Hx & Hr & Hd).
    split; [by apply Hga|]. destruct (Hpg y x Hyt Hx) as (x' & Hx' & Hsp). exists x'. destruct Hsp as (_ & -> & _ & -> & _). done.
Qed.
(** A page that was a table before the steps so far goes back to the allocator. *)
Lemma free_table pins n T0 B0 s0 T B s t x : step T0 B0 s0 T B s → (∀ y, out T0 B0 y → y ≠ t) → (∀ k, ¬ allocated B0 t k ∨ T0 !! t ≠ None) →
  wstate pins n T B s → T !! t = None → allocated B t 0 →
  pfndb s !! t = Some x → use x = kPageUseDeleted → refcnt x = 1 →
  wp (page_upd t (λ x, with_referent 0 (with_ptes (nonzero_ptes x) 0 x));; vmp_page_release_locked t)
    (λ _ s', ∃ B', wstate pins n T B' s' ∧ step T0 B0 s0 T B' s' ∧ ∀ q k, allocated B' q k ↔ allocated B q k ∧ q ≠ t) s.
Proof.
  intros Hs0 Hnt Hnb [Hok Hset Htr Hal Hfr Hroom] HTt Hat Hx Hu Hr. rewrite wp_bind, wp_page_upd. exists x. split; [done|]. set (x1 := with_referent _ _). set (s1 := set_pfndb _ s).
  eapply wp_mono; [apply (release_deleted B s1 t 0 x1); try done|].
  { eapply (upd_page_ok B s t 0 Alloc x); done. }
  { simpl. by rewrite lookup_insert_eq. }
  intros [] s2 (B' & x2 & Hg & Hok2 & Hset2 & _ & _ & Hsp & Hmod & Hst & Hmem & Hv). simpl in Hsp. rewrite delete_insert_eq in Hsp.
  assert (∀ y z, y ≠ t → pfndb s !! y = Some z → ∃ z', pfndb s2 !! y = Some z' ∧ same_page z z') as Hpg.
  { intros y z Hy Hz. specialize (Hsp y). rewrite !lookup_delete_ne, Hz in Hsp by done. destruct (pfndb s2 !! y) as [z'|]; [by exists z'|done]. }
  assert (∀ a k q, allocated B' q k → inside (a / PGSIZE) q k → mem s2 a = mem s a) as Hma.
  { intros a k q Hq Hin. destruct (Hmem a) as [?|Hfa]; [done|]. exfalso. destruct Hfa as (q' & k' & Hq' & Hin').
    assert (q = q') as -> by (eapply (block_unique B' q k Alloc q' k' Free); [apply Hok2|done..]). unfold allocated in Hq. congruence. }
  assert (∀ t' ti i, T !! t' = Some ti → 0 ≤ i < 512 → mem s2 (cell t' i) = mem s (cell t' i)) as Hms.
  { intros t' ti i Ht' Hi. apply (Hma _ O t'); [apply (gv_allocated _ _ _ _ Hg); split; [by eapply Hal|congruence]|]. rewrite cell_page by done. apply inside_head. }
  assert (¬ free_at B t) as Hnf. { apply (out_free T); [apply Hok|]. exists t, O. split_and!; [done|done|apply inside_head..]. }
  assert (∀ y, out T0 B0 y → ∃ q k, allocated B' q k ∧ inside y q k) as Hob.
  { intros y (q & k & Hq & Hqa & Hin). destruct (sp_block _ _ _ _ _ _ Hs0 q k Hq Hqa) as [? ?]. exists q, k. split; [|done].
    apply (gv_allocated _ _ _ _ Hg). split; [done|]. intros ->. destruct (Hnb k); congruence. }
  exists B'. split; [split; try done|split; [|apply Hg]].
  - eapply tree_same; [done| |done|rewrite Hmod, Hst; done]. intros t' ti z Ht' Hz. apply Hpg; [congruence|done].
  - intros t' ti Ht'. apply (gv_allocated _ _ _ _ Hg). split; [by eapply Hal|congruence].
  - intros y Hy. by apply Hfr, (gv_covered _ _ _ _ Hg).
  - eapply (room_given n B B' s s2 t); try done; [by rewrite Hv..|]. eapply standby_ref; [done|done|left; lia].
  - destruct Hs0 as [Hbl Hm0 Hp0 Hq0 Hr0]. split.
    + intros q k Hq Hqa. destruct (Hbl q k Hq Hqa). split; [done|]. apply (gv_allocated _ _ _ _ Hg). split; [done|]. intros ->. destruct (Hnb k); congruence.
    + intros a Ha. destruct (Hob _ Ha) as (q & k & Hq & Hin). rewrite (Hma a k q) by done. by apply Hm0.
    + intros y z Hy Hz. destruct (Hp0 y z Hy Hz) as (z1 & Hz1 & Hs1). destruct (Hpg y z1 (Hnt y Hy) Hz1) as (z2 & Hz2 & Hs2). exists z2. split; [done|by eapply same_page_trans].
    + intros y Hy. rewrite Hmod, Hst. by apply Hq0.
    + intros r ri Hri H4. destruct (Hr0 r ri Hri H4) as [HT Hxl]. split; [done|]. intros v Hvs. rewrite <-Hxl by done. eapply (xlate_same pins T s); try done.
      intros t' ti Ht'. apply same_entry_refl. eapply Hms; [done|apply law_index].
Qed.

(** A pin goes; tables that are empty then go too, up the tree.  Tables that are pinned stay. *)
Lemma unpin_ok fuel pins n T B s t ti : wstate pins n T B s → T !! t = Some ti → 1 ≤ pins t → t_proto ti = false →
  (∀ y, y ≠ t → pins y < PINS) → (4 - t_level ti ≤ fuel)%nat →
  wp (vmp_pagetable_page_pte_deleted fuel t false) (λ _ s', ∃ T' B', let pins' := add_pin t (-1) pins in
    wstate pins' n T' B' s' ∧ step T B s T' B' s' ∧ tight T B T' B' ∧ T' ⊆ T ∧ ∀ y yi, T !! y = Some yi → 0 < pins' y → T' !! y = Some yi) s.
Proof.
  revert pins T B s t ti. induction fuel as [|fuel IH]; intros pins T B s t ti Hws Ht Hpin Hproto Hmax Hfuel;
    (destruct (tr_page _ _ _ (ws_tree _ _ _ _ _ Hws) t ti Ht) as (x & Hx & Htp & Hlk);
     destruct (decide (t_level ti = 4%nat ∨ nonzero_ptes x ≠ 1)) as [Hstay|Hgo];
     [eapply wp_mono; [eapply unpin_keep; try done; tauto|intros [] s' [? ?]; exists T, B; done]|]).
  { destruct (tr_info _ _ _ (ws_tree _ _ _ _ _ Hws) t ti Ht) as ((? & ?) & _). lia. }
  pose proof Hws as [Hok Hset Htr Hal Hfr Hroom]. assert (t_level ti ≠ 4%nat ∧ nonzero_ptes x = 1) as [H4 Hnz] by lia.
  destruct (table_counts pins T s t ti Htr Ht) as (y & Hy & _ & _ & Hpb & Hc1 & Hc2 & Hc3 & Hc4). assert (y = x) as -> by congruence. unfold PINS in Hpb.
  destruct (tr_info _ _ _ Htr t ti Ht) as (Hlev & _ & Htr2 & _). apply (deleted_start (S fuel) s t x); [done|lia|lia|].
  rewrite (root_level pins s t ti x Htp Hlev), bool_decide_false, Hnz by done. simpl.
  destruct (Hlk H4) as (d & i & di & Hi & Href & Hd & Hti & Hch & _). pose proof (tp_nonzero _ _ _ _ _ Htp) as Hnzc. destruct (tr_slots _ _ _ Htr t ti Ht) as [_ Hs5].
  rewrite (Hs5 H4) in Hnzc. pose proof (count_range nonzero 512 (mem s) t). destruct (tr_slots _ _ _ Htr d di Hd) as [Hs0 _]. assert (0 ≤ i < 512) as Hi5 by lia.
  pose proof (tp_noswap _ _ _ _ _ Htp) as Hnsc. pose proof (tp_refcnt _ _ _ _ _ Htp) as Hrc. rewrite decide_False in Hrc by done.
  assert (pins t = 1 ∧ count nonzero 512 (mem s) t = 0 ∧ refcnt x = 1) as (Hp1 & Hcz & Hr1) by lia.
  assert (∃ c, use_counter (use x) = Some c ∧ use x ≠ kPageUseDeleted ∧ use_is_hw_table (use x) = true) as (c & Hc & Hud & Hhw).
  { rewrite (tp_use _ _ _ _ _ Htp), Hproto. unfold level_use. destruct (t_level ti) as [|[|[|[|?]]]]; eauto. }
  set (x1 := with_ptes _ _ x). set (s1 := set_pfndb _ s). rewrite wp_bind.
  eapply wp_mono; [eapply (delete_referenced B s1 t 0 x1 c); try done|].
  { eapply (upd_page_ok B s t 0 Alloc x); try done. by eapply Hal. }
  { by eapply Hal. }
  { simpl. by rewrite lookup_insert_eq. }
  { apply (tp_busy _ _ _ _ _ Htp). }
  { simpl. lia. }
  intros [] s2 (st & -> & Hok2 & Hst2). set (s2 := set_pfndb _ (set_vmstat st s1)) in *. rewrite wp_bind, wp_page_at.
  eexists. split; [simpl; by rewrite lookup_insert_eq|]. simpl. rewrite Href, wp_bind, wp_kassert, page_of_cell, Hhw by done.
  destruct (tr_info _ _ _ Htr d di Hd) as (Hld & _ & Hdr & Hdp). assert (2 ≤ t_level di)%nat as Hl2 by (rewrite Hti in Hlev; simpl in Hlev; lia).
  split; [apply negb_true_iff, Z.eqb_neq; unfold cell, PGSIZE, VMP_PAGE_SHIFT; lia|].
  unfold vmp_md_delete_table_pointers. rewrite wp_bind, wp_bind. unfold word_set. rewrite wp_modify. set (s3 := set_mem _ s2).
  assert (∀ y, y ≠ t → pfndb s3 !! y = pfndb s !! y) as Hpf3 by (intros y Hne; simpl; by rewrite !lookup_insert_ne).
  set (pins1 := add_pin d 1 (add_pin t (-1) pins)). assert (t ≠ d) as Htd by (intros <-; rewrite Hti in Ht; rewrite Hd in Ht; injection Ht as Ht; destruct di; unfold down in Ht; simpl in *; injection Ht as Ht; lia).
  assert (wstate pins1 n (delete t T) B s3) as Hws3.
  { split; try done; [by destruct Hok2|eapply (tree_unlink pins T s s3 t ti x d i di); try done; by apply Hmax| |].
    - intros t' ti' Ht'. apply lookup_delete_Some in Ht' as [_ Ht']. by eapply Hal.
    - pose proof (use_counter_other _ _ Hc) as Hot. rewrite !not_elem_of_cons in Hot. destruct Hot as (? & _ & _ & ? & _).
      eapply (room_upd n B s s3 t); [done|eapply standby_ref; [done|done|left; lia]|done|..|simpl; by rewrite insert_insert_eq];
        simpl; rewrite Hst2; unfold delete_stats; simpl; by rewrite decide_False. }
  assert (step T B s (delete t T) B s3) as Hstep3.
  { rewrite Hti in Ht. eapply (step_unlink pins T B s s3 t d i di); try done; [apply Hok|lia]. }
  eapply wp_mono; [eapply (IH pins1 (delete t T) B s3 d di Hws3)|].
  - by rewrite lookup_delete_ne.
  - unfold pins1. rewrite add_pin_eq, add_pin_ne by done. lia.
  - rewrite Hti in Hproto. exact Hproto.
  - intros y Hyd. unfold pins1. rewrite add_pin_ne by done. unfold add_pin. case_decide; [unfold PINS; lia|by apply Hmax].
  - rewrite Hti in Hfuel. simpl in Hfuel. lia.
  - intros [] s4 (T' & B' & Hws4 & Hst4 & Htg4 & Hsub & Hpinned). cbv zeta in Hws4, Hpinned. destruct (sp_block _ _ _ _ _ _ Hst4 t 0) as [HT't Ha't]; [by rewrite lookup_delete_eq|by eapply Hal|].
    destruct (sp_page _ _ _ _ _ _ Hst4 t (with_use kPageUseDeleted x1)) as (x4 & Hx4 & Hs4); [|simpl; by rewrite lookup_insert_eq|].
    { exists t, O. split_and!; [by rewrite lookup_delete_eq|by eapply Hal|apply inside_head..]. }
    assert (step T B s T' B' s4) as Hst04 by (by eapply step_trans).
    eapply wp_mono; [eapply (free_table (add_pin d (-1) pins1) n T B s T' B' s4 t x4); try done|].
    + intros y Hyo ->. apply (out_no_table T B) in Hyo; [congruence|apply Hok|done].
    + intros k. right. congruence.
    + by destruct Hs4 as (-> & _).
    + destruct Hs4 as (_ & _ & _ & -> & _). exact Hr1.
    + assert (∀ y, add_pin t (-1) pins y = add_pin d (-1) pins1 y) as Hpe.
      { intros y. unfold pins1, add_pin. repeat case_decide; simplify_eq; lia. }
      intros [] s5 (B5 & Hws5 & Hst5 & Ha5). exists T', B5. cbv zeta. split; [by eapply wstate_ext|]. split; [done|].
      split; [intros q k Hq [Hqa Hqt]%Ha5; destruct (Htg4 q k Hq Hqa) as [Hdq ?]; by rewrite lookup_delete_ne in Hdq|]. split; [etrans; [done|apply delete_subseteq]|].
      intros y yi Hyy Hp0. apply Hpinned; [|by rewrite <-Hpe]. apply lookup_delete_Some. split; [|done]. intros <-. rewrite add_pin_eq in Hp0. lia.
Qed.

(** ** Releasing a wired entry *)

Definition add_pins (pages : list Z) (pins : Z → Z) : Z → Z := foldr (λ t, add_pin t 1) pins pages.
Lemma add_pins_ext pages pins pins' : (∀ y, pins' y = pins y) → ∀ y, add_pins pages pins' y = add_pins pages pins y.
Proof. intros Hp. induction pages as [|t pages IH]; intros y; simpl; [done|]. unfold add_pin. by rewrite !IH. Qed.
Lemma add_pins_app l l' pins : add_pins (l ++ l') pins = add_pins l (add_pins l' pins).
Proof. unfold add_pins. by rewrite foldr_app. Qed.
Lemma add_pins_le pages pins y : pins y ≤ add_pins pages pins y.
Proof. induction pages as [|t pages IH]; simpl; [lia|]. unfold add_pin. case_decide; subst; lia. Qed.
Lemma add_pins_in pages pins t : t ∈ pages → pins t < add_pins pages pins t.
Proof.
  induction pages as [|t' pages IH]; intros Ht; [by apply elem_of_nil in Ht|]. simpl. unfold add_pin. pose proof (add_pins_le pages pins t).
  apply elem_of_cons in Ht as [->|Ht]; [rewrite decide_True by done; lia|]. case_decide; [subst; lia|by apply IH].
Qed.
Lemma unwire_ok pages pins n T B s : wstate (add_pins pages pins) n T B s → (∀ t, t ∈ pages → ∃ ti, T !! t = Some ti ∧ t_proto ti = false) →
  (∀ y, 0 ≤ pins y) → (∀ y, add_pins pages pins y < PINS) →
  wp (wire_state_release false (map Some pages)) (λ _ s', ∃ T' B', wstate pins n T' B' s' ∧ step T B s T' B' s' ∧ tight T B T' B' ∧ T' ⊆ T ∧
    ∀ y yi, T !! y = Some yi → 0 < pins y → T' !! y = Some yi) s.
Proof.
  revert T B s. induction pages as [|t pages IH]; intros T B s Hws Hin Hpos Hmax.
  { simpl. rewrite wp_ret. exists T, B. split_and!; try done. apply step_refl. }
  destruct (Hin t) as (ti & Ht & Hpr); [set_solver|]. simpl. pose proof (ws_tree _ _ _ _ _ Hws) as Htr.
  destruct (tr_page _ _ _ Htr t ti Ht) as (x & Hx & Htp & _). destruct (tr_info _ _ _ Htr t ti Ht) as ((Hl1 & Hl4) & Ho & _).
  rewrite wp_bind, wp_bind, wp_page_at. exists x. split; [done|]. rewrite wp_kassert, (tp_owner _ _ _ _ _ Htp). split; [by apply negb_true_iff, Z.eqb_neq|].
  rewrite wp_bind. eapply wp_mono; [eapply (unpin_ok VMP_TABLE_LEVELS _ n T B s t ti Hws Ht); [|done|by intros y _|unfold VMP_TABLE_LEVELS; lia]|].
  { pose proof (add_pins_in (t :: pages) pins t ltac:(set_solver)). specialize (Hpos t). lia. }
  intros [] s1 (T1 & B1 & Hws1 & Hst1 & Htg1 & Hsub1 & Hkeep1). cbv zeta in Hws1, Hkeep1.
  assert (∀ y, add_pin t (-1) (add_pins (t :: pages) pins) y = add_pins pages pins y) as Heq by (intros y; simpl; unfold add_pin; repeat case_decide; simplify_eq; lia).
  eapply wp_mono; [apply (IH T1 B1 s1)|].
  - eapply wstate_ext; [|done]. done.
  - intros t' Ht'. destruct (Hin t') as (ti' & HT' & ?); [set_solver|]. exists ti'. split; [|done]. apply Hkeep1; [done|]. rewrite Heq.
    pose proof (add_pins_in pages pins t' Ht'). specialize (Hpos t'). lia.
  - done.
  - intros y. specialize (Hmax y). simpl in Hmax. unfold add_pin in Hmax. case_decide; subst; lia.
  - intros [] s2 (T2 & B2 & Hws2 & Hst2 & Htg2 & Hsub2 & Hkeep2). exists T2, B2. split_and!; [done|by eapply step_trans|by eapply tight_trans|by etrans|].
    intros y yi Hy Hp. apply Hkeep2; [|done]. apply Hkeep1; [done|]. rewrite Heq. pose proof (add_pins_le pages pins y). lia.
Qed.

(** ** Entries of a tree *)

Lemma child_state pins T s d di i c : tree pins T s → T !! d = Some di → (2 ≤ t_level di)%nat → 0 ≤ i < t_slots di → child (mem s (cell d i)) = Some c →
  ∃ x, T !! c = Some (down di) ∧ pfndb s !! c = Some x ∧ referent_pte x = cell d i ∧ 0 < c < 2 ^ pfn_bits ∧
    kind (mem s (cell d i)) = (if decide (refcnt x = 0) then kPTEKindTrans else kPTEKindValid).
Proof.
  intros Htr Hd Hl Hi Hc. destruct (tr_entry _ _ _ Htr d di i Hd Hl Hi) as [Hz|(c' & x & Hc' & HT & Hx & Href)]; [by rewrite child_zero in Hc|].
  assert (c' = c) as -> by congruence. exists x. destruct (tr_info _ _ _ Htr c _ HT) as (_ & _ & Hr & _). destruct (tr_info _ _ _ Htr d _ Hd) as ((_ & Hl4) & _).
  split_and!; try done; try lia. destruct (tr_page _ _ _ Htr c _ HT) as (y & Hy & _ & Hlk). assert (y = x) as -> by congruence.
  destruct Hlk as (e & j & ei & Hj & Href' & _ & _ & _ & Hk); [simpl; lia|]. rewrite <-Href, Href'. done.
Qed.
End tree.
