(* ===== verification/WalkTheorems.v ===== *)
(** Walking page tables: [vmp_wire_pte] with [create] makes the tables that are missing,
    brings back the idle ones, ends at the entry [vmp_fetch_pte] finds, and keeps every
    translation; releasing what it wired undoes the pins and frees what is empty. *)
From S2P Require Import Prelude PteAmd64 Pte Resident Tables PageAlloc BuddyProofs BuddyAlloc BuddyFree BuddyTheorems Walk PageTree.
Import Resident Tables PageAlloc Walk.
Local Open Scope Z_scope.

Section walk.
Context `{F : PteFormat} {L : PteLaws F}.
Notation tables := (gmap Z table).
Notation kind := vmp_pte_characterise.
Notation index := vmp_addr_unpack.

(** What [vmp_fetch_pte] computes. *)
Fixpoint walk (m : Z → Z) (level : nat) (table vaddr : Z) : option Z :=
  match level with
  | O => None
  | S O => Some (entry table vaddr 1)
  | S level' => let w := m (entry table vaddr level) in
      if decide (kind w = kPTEKindValid) then walk m level' (vmp_pte_hw_paddr w) vaddr else None
  end.
Lemma fetch_walk level table vaddr s : (1 ≤ level)%nat → fetch_level level table vaddr s = Ok (walk (mem s) level table vaddr, s).
Proof.
  revert table. induction level as [|level IH]; intros table Hl; [lia|]. simpl. destruct level as [|level].
  - by rewrite decide_True by done.
  - destruct (decide (S level = O)) as [|_]; [lia|]. unfold mbind, kern_bind, word_at, gets.
    destruct (decide (kind (mem s (entry table vaddr (S (S level)))) = kPTEKindValid)) as [Hc|Hc].
    + rewrite bool_decide_true by done. apply IH. lia.
    + by rewrite bool_decide_false by done.
Qed.
Lemma walk_step m t l v c : kind (m (cell t (index v (S (S l))))) = kPTEKindValid → child (m (cell t (index v (S (S l))))) = Some c → 0 < c < 2 ^ pfn_bits →
  walk m (S (S l)) (t * PGSIZE) v = walk m (S l) (c * PGSIZE) v.
Proof.
  intros Hk Hc Hr. cbn [walk]. rewrite cell_entry, decide_True by done. unfold child in Hc. rewrite Hk in Hc. injection Hc as Hc.
  rewrite (paddr_of _ c Hc) by lia. done.
Qed.
(** A translation the hardware makes goes through the leaf table, and survives. *)
Lemma walk_extends pins T T' s s' v : tree pins T s → extends T T' s s' → ∀ level t ti a, T !! t = Some ti → t_level ti = level →
  index v level < t_slots ti → walk (mem s) level (t * PGSIZE) v = Some a → walk (mem s') level (t * PGSIZE) v = Some a ∧ mem s' a = mem s a.
Proof.
  intros Htr [_ Hex] level. induction level as [|level IH]; intros t ti a Ht Hl Hsl Hw; [done|]. pose proof (law_index v (S level)) as Hix. destruct level as [|level].
  - simpl in Hw. injection Hw as <-. split; [done|]. rewrite cell_entry. destruct (Hex t ti (index v 1) Ht) as [H|[H _]]; [apply law_index|done|lia].
  - assert (kind (mem s (cell t (index v (S (S level))))) = kPTEKindValid) as Hv.
    { cbn [walk] in Hw. rewrite cell_entry in Hw. by case_decide. }
    assert (child (mem s (cell t (index v (S (S level))))) = Some (vmp_md_pte_hw_pfn (mem s (cell t (index v (S (S level))))))) as Hc by (unfold child; by rewrite Hv).
    destruct (child_state pins T s t ti _ _ Htr Ht ltac:(lia) ltac:(split; [apply Hix|exact Hsl]) Hc) as (x & HT & _ & _ & Hr & _).
    rewrite (walk_step _ t level v _ Hv Hc Hr) in Hw. destruct (Hex t ti (index v (S (S level))) Ht (law_index v _)) as [H|[_ H]]; [|done].
    rewrite (walk_step (mem s') t level v _) by (rewrite ?H; done). apply (IH _ (down ti)); [done|simpl; lia|simpl; apply law_index|done].
Qed.

(** ** The walk *)

(** The walk got to the leaf table [c], whose entry it gives; the tables on the way are pinned. *)
Record wired_to (m : nat) (pins : Z → Z) (T : tables) (B : blocks) (s : pst) (t : Z) (ti : table) (v c : Z) (new : list Z) (T' : tables) (B' : blocks) (s' : pst) : Prop := WiredTo {
  wt_state : wstate (add_pins new pins) m T' B' s';
  wt_step : step T B s T' B' s';
  wt_tight : tight T B T' B';
  wt_extends : extends T T' s s';
  wt_leaf : leaf_of (mem s') (t_level ti) t v = Some c;
  wt_walk : walk (mem s') (t_level ti) (t * PGSIZE) v = Some (cell c (index v 1));
  wt_new : ∀ y, y ∈ new → ∃ yi, T' !! y = Some yi ∧ t_owner yi = t_owner ti ∧ t_proto yi = t_proto ti
}.
(** One level: the table below is there and pinned. *)
Lemma wired_step m pins T B s t ti v c new p T1 B1 s1 T2 B2 s2 pins1 : T !! t = Some ti → (2 ≤ t_level ti)%nat →
  step T B s T1 B1 s1 → tight T B T1 B1 → extends T T1 s s1 → tree pins1 T1 s1 → T1 !! p = Some (down ti) → (∀ y, pins1 y = add_pin p 1 pins y) →
  child (mem s1 (cell t (index v (t_level ti)))) = Some p → kind (mem s1 (cell t (index v (t_level ti)))) = kPTEKindValid →
  wired_to m pins1 T1 B1 s1 p (down ti) v c new T2 B2 s2 → wired_to m pins T B s t ti v c (new ++ [p]) T2 B2 s2.
Proof.
  intros Ht Hl Hst1 Htg1 Hex1 Htr1 Hp Hpins Hch Hk [Hws Hst Htg Hex Hleaf Hwalk Hnew]. destruct (tr_info _ _ _ Htr1 p _ Hp) as ((Hl1 & _) & _ & Hr & _).
  assert (T1 !! t = Some ti) as Ht1 by (eapply lookup_weaken, Hex1; done). simpl in Hleaf, Hwalk, Hl1. destruct ti as [lv ow pr sl]. simpl in *.
  destruct lv as [|[|l]]; [lia|lia|]. change (S (S l) - 1)%nat with (S l) in *.
  destruct (ex_entry _ _ _ _ Hex t _ (index v (S (S l))) Ht1 (law_index v _)) as [Hm|[_ ?]]; [|done].
  split.
  - eapply wstate_ext; [|done]. intros y. rewrite add_pins_app. symmetry. by apply add_pins_ext.
  - by eapply step_trans.
  - by eapply tight_trans.
  - by eapply extends_trans.
  - change (t_level (Table (S (S l)) ow pr sl)) with (S (S l)). cbn [leaf_of]. by rewrite Hm, Hch.
  - change (t_level (Table (S (S l)) ow pr sl)) with (S (S l)). rewrite (walk_step _ t l v p) by (rewrite ?Hm; done). done.
  - intros y Hy. apply elem_of_app in Hy as [Hy|Hy]; [by apply Hnew|]. apply list_elem_of_singleton in Hy as ->. eexists. split; [eapply lookup_weaken, Hex; done|done].
Qed.
Lemma wire_walk_ok m level : ∀ pins T B s a t ti rest, wa_create a = true → wstate pins (level - 1 + m) T B s → T !! t = Some ti → t_level ti = level → walks a ti → index (wa_vaddr a) level < t_slots ti →
  1 ≤ pins t → (∀ y, pins y + Z.of_nat level ≤ PINS) →
  wp (wire_walk level a (t * PGSIZE) (t :: rest)) (λ r s', ∃ c new T' B', r = Wired (cell c (index (wa_vaddr a) 1)) (new ++ t :: rest) ∧
    hd t new = c ∧ length new = (level - 1)%nat ∧ wired_to m pins T B s t ti (wa_vaddr a) c new T' B' s') s.
Proof.
  induction level as [|level IH]; intros pins T B s a t ti rest Hcr Hws Ht Hlev Hwa Hvs Hpin Hmax.
  { destruct (tr_info _ _ _ (ws_tree _ _ _ _ _ Hws) t _ Ht) as ((? & _) & _). lia. }
  destruct level as [|level].
  { simpl. rewrite wp_ret. exists t, [], T, B. split; [done|]. split; [done|]. split; [done|]. split; rewrite ?Hlev; try done.
    - apply step_refl.
    - by apply extends_refl.
    - intros y Hy. by apply elem_of_nil in Hy. }
  set (n := (level + m)%nat). change (S (S level) - 1 + m)%nat with (S n) in Hws. set (v := wa_vaddr a). pose proof (ws_tree _ _ _ _ _ Hws) as Htr. pose proof (law_index v (S (S level))) as Hi.
  change (wire_walk (S (S level)) a (t * PGSIZE) (t :: rest)) with (wire_level (wire_walk (S level) a) (S (S level)) a (t * PGSIZE) (t :: rest)).
  unfold wire_level. rewrite wp_bind, wp_deref. exists t. split; [done|].
  rewrite wp_bind. unfold word_at at 1. rewrite wp_gets, cell_entry. change (wa_vaddr a) with v. set (pte := cell t (index v (S (S level)))).
  (* the rest of the walk, from the table below *)
  assert (∀ pins1 T1 B1 s1 p, wstate pins1 n T1 B1 s1 → step T B s T1 B1 s1 → tight T B T1 B1 → extends T T1 s s1 → T1 !! p = Some (down ti) →
    (∀ y, pins1 y = add_pin p 1 pins y) → child (mem s1 pte) = Some p → kind (mem s1 pte) = kPTEKindValid →
    wp (wire_walk (S level) a (p * PGSIZE) (p :: t :: rest)) (λ r s', ∃ c new T' B', r = Wired (cell c (index v 1)) (new ++ t :: rest) ∧
      hd t new = c ∧ length new = S level ∧ wired_to m pins T B s t ti v c new T' B' s') s1) as Hgo.
  { intros pins1 T1 B1 s1 p Hws1 Hst1 Htg1 Hex1 Hp Hpins Hch Hk. pose proof (tr_info _ _ _ (ws_tree _ _ _ _ _ Hws) t _ Ht) as (_ & _ & _ & Hp0).
    assert (0 ≤ pins p) as Hpp.
    { destruct (T !! p) as [pi|] eqn:E; [by apply (tr_info _ _ _ Htr) in E as (_ & _ & _ & ? & _)|]. rewrite (tr_pins _ _ _ Htr p E). lia. }
    eapply wp_mono; [apply (IH pins1 T1 B1 s1 a p (down ti) (t :: rest)); try done; [by replace (S level - 1 + m)%nat with n by lia|simpl; lia|simpl; apply law_index|rewrite Hpins, add_pin_eq; lia|]|].
    { intros y. rewrite Hpins. specialize (Hmax y). unfold add_pin. case_decide; subst; lia. }
    intros r s2 (c & new & T2 & B2 & -> & Hhd & Hlen & Hwt). exists c, (new ++ [p]), T2, B2. split; [by rewrite <-app_assoc|].
    split; [by destruct new|]. split; [rewrite length_app; simpl; lia|]. eapply (wired_step m pins T B s t ti v c new p T1 B1 s1); try done; [lia|by destruct Hws1|by rewrite Hlev..]. }
  destruct (tr_entry _ _ _ Htr t ti (index v (S (S level))) Ht ltac:(lia) ltac:(split; [apply Hi|exact Hvs])) as [Hz|(p & x & Hch & _)].
  - fold pte in Hz. rewrite Hz, Hcr. cbn [negb].
    assert (wp (make_table a (S (S level)) t pte) (λ p s', ∃ B', let T' := <[p := down ti]> T in wstate (add_pin p 1 pins) n T' B' s' ∧
      step T B s T' B' s' ∧ tight T B T' B' ∧ extends T T' s s' ∧ T !! p = None ∧ pins p = 0 ∧ 0 < p < 2 ^ pfn_bits ∧
      kind (mem s' pte) = kPTEKindValid ∧ vmp_md_pte_hw_pfn (mem s' pte) = p) s) as Hmk.
    { rewrite <-Hlev. eapply (make_table_ok pins n T B s a t ti); try done; [lia|split; [apply Hi|exact Hvs]|]. specialize (Hmax t). lia. }
    unfold make_table in Hmk. rewrite wp_bind in Hmk. rewrite wp_bind. eapply wp_mono; [exact Hmk|]. cbv beta. intros p s1 Hmk1.
    rewrite wp_bind in Hmk1. rewrite wp_bind. eapply wp_mono; [exact Hmk1|]. cbv beta. intros [] s2 Hmk2. rewrite wp_ret in Hmk2.
    destruct Hmk2 as (B2 & Hws2 & Hst2 & Htg2 & Hex2 & _ & _ & Hpr & Hk & Hpfn). rewrite wp_bind. unfold word_at. rewrite wp_gets.
    rewrite (paddr_of _ _ Hpfn) by lia. eapply (Hgo _ _ B2 s2); try done; [by rewrite lookup_insert_eq|]. unfold child. by rewrite Hk, Hpfn.
  - destruct (child_state pins T s t ti _ p Htr Ht ltac:(lia) ltac:(split; [apply Hi|exact Hvs]) Hch) as (y & HTp & Hy & Href & Hpr & Hk). fold pte in Hch, Href, Hk.
    pose proof (Hmax p) as Hmp. case_decide as Hr.
    + rewrite Hk. assert (vmp_md_soft_pte_pfn (mem s pte) = Some p) as Hsoft by (unfold child in Hch; by rewrite Hk in Hch).
      rewrite wp_bind, wp_deref. exists p. split; [done|]. rewrite wp_bind, wp_page_at. exists y. split; [done|].
      destruct (tr_page _ _ _ Htr p _ HTp) as (y' & Hy' & Htp & _). assert (y' = y) as -> by congruence.
      rewrite wp_bind, wp_kassert. split.
      { rewrite (tp_use _ _ _ _ _ Htp). unfold level_use. destruct (t_proto (down ti)); by destruct (t_level (down ti)) as [|[|[|[|?]]]]. }
      pose proof (revive_ok pins (S n) T B s p (down ti) y t (index v (S (S level))) ti Hws HTp ltac:(lia) Hy Hr Ht eq_refl ltac:(split; [apply Hi|exact Hvs]) Href Hch) as Hrv.
      fold pte in Hrv. rewrite wp_bind in Hrv. rewrite wp_bind. eapply wp_mono; [exact Hrv|]. cbv beta. intros [] s1 Hrv1. rewrite wp_bind.
      eapply wp_mono; [exact Hrv1|]. cbv beta. intros [] s2 (Hws2 & Hst2 & Hm2). rewrite wp_bind. unfold word_at. rewrite wp_gets.
      assert (0 ≤ p < 2 ^ pfn_bits) as Hpr' by lia. destruct (law_table p Hpr') as [Hkt Hpt].
      assert (mem s2 pte = vmp_md_pte_create_table p) as Hmp2 by (by rewrite Hm2, store_eq). rewrite Hmp2, (paddr_of _ _ Hpt Hpr').
      eapply (Hgo (add_pin p 1 pins) T B s2); try done.
      * eapply wstate_le; [|done]. lia.
      * split; [done|]. intros t' ti' j Ht' Hj. rewrite Hm2. destruct (decide (cell t' j = pte)) as [Heq|Hne]; [|left; by apply store_ne].
        right. rewrite Heq. apply cell_inj in Heq as [-> _]; [|done..]. assert (ti' = ti) as -> by congruence. split; [lia|by rewrite Hk].
      * unfold child. by rewrite Hmp2, Hkt, Hpt.
      * by rewrite Hmp2.
    + rewrite Hk. assert (vmp_md_pte_hw_pfn (mem s pte) = p) as Hpfn by (unfold child in Hch; rewrite Hk in Hch; by injection Hch).
      rewrite (paddr_of _ _ Hpfn) by lia. rewrite page_of, wp_bind.
      eapply wp_mono; [eapply (pin_ok pins (S n) T B s p (down ti) y); try done; lia|]. intros [] s1 (Hws1 & Hst1 & Hm1).
      eapply (Hgo (add_pin p 1 pins) T B s1); try done; [|by apply extends_refl|by rewrite Hm1..]. eapply wstate_le; [|done]. lia.
Qed.
(** ** [vmp_wire_pte] *)

Lemma tree_pins_pos pins T s y : tree pins T s → 0 ≤ pins y.
Proof.
  intros Htr. destruct (T !! y) as [yi|] eqn:E; [by apply (tr_info _ _ _ Htr) in E as (_ & _ & _ & ? & _)|]. rewrite (tr_pins _ _ _ Htr y E). lia.
Qed.
Lemma wire_ok m pins T B s a root ri : wa_create a = true → wstate pins (3 + m) T B s → T !! root = Some ri → t_level ri = 4%nat → walks a ri →
  index (wa_vaddr a) 4 < t_slots ri → (∀ y, pins y ≤ 10000) →
  wp (vmp_wire_pte a (root * PGSIZE)) (λ r s', ∃ c pages T' B', r = Wired (cell c (index (wa_vaddr a) 1)) pages ∧ head pages = Some c ∧ length pages = 4%nat ∧
    wired_to m pins T B s root ri (wa_vaddr a) c pages T' B' s') s.
Proof.
  intros Hcr Hws Hr Hl Hwa Hvs Hmax. unfold vmp_wire_pte. rewrite page_of, wp_bind. pose proof (ws_tree _ _ _ _ _ Hws) as Htr.
  destruct (tr_page _ _ _ Htr root ri Hr) as (x & Hx & Htp & _). pose proof (tp_refcnt _ _ _ _ _ Htp) as Hrc. rewrite decide_True in Hrc by done.
  destruct (table_counts pins T s root ri Htr Hr) as (y & Hy & _ & _ & Hpb & Hc & _). assert (y = x) as -> by congruence.
  pose proof (Hmax root) as Hmr. unfold PINS in *. eapply wp_mono; [eapply (pin_ok pins (3 + m) T B s root ri x); try done; [unfold PINS; lia|lia]|].
  intros [] s1 (Hws1 & Hst1 & Hm1). eapply wp_mono; [eapply (wire_walk_ok m 4 (add_pin root 1 pins) T B s1 a root ri []); try done|].
  - rewrite add_pin_eq. lia.
  - intros z. specialize (Hmax z). unfold add_pin, PINS. case_decide; subst; lia.
  - intros r s2 (c & new & T' & B' & -> & Hhd & Hlen & [W1 W2 Wt W3 W4 W5 W6]). exists c, (new ++ [root]), T', B'. split; [done|]. split; [by destruct new; simplify_eq/=|]. split; [rewrite length_app, Hlen; done|].
    split; try done.
    + rewrite add_pins_app. exact W1.
    + by eapply step_trans.
    + eapply extends_trans; [by apply extends_refl|done].
    + intros z Hz. apply elem_of_app in Hz as [Hz|Hz]; [by apply W6|]. apply list_elem_of_singleton in Hz as ->. exists ri. split; [|done].
      by apply (sp_root _ _ _ _ _ _ W2).
Qed.

(** ** A new process *)

Lemma ps_init_ok pins n T B s ps kt : wstate pins (S n) T B s → ps ≠ 0 →
  wp (vmp_md_ps_init false ps kt) (λ r s', ∃ p B', r = p * PGSIZE ∧ wstate pins n (<[p := Table 4 ps false 256]> T) B' s' ∧ T !! p = None) s.
Proof.
  intros Hws Hps. unfold vmp_md_ps_init. rewrite wp_bind. eapply wp_mono; [eapply (alloc_ok pins n T B s kPageUsePML4 nprocpgtable true Hws); done|].
  intros r s1 (p & B1 & x & -> & [Hok Hset Htr Hal Hfr Hroom] & _ & HTp & _ & Hap & _ & Hp & Hx & Hmem). rewrite wp_bind, wp_deref. exists p. split; [done|].
  rewrite wp_bind, wp_page_upd. eexists. split; [done|]. unfold copy_words. rewrite wp_bind, wp_modify, wp_ret. set (x1 := with_owner ps _). set (s2 := set_mem _ _). exists p, B1. split; [done|].
  assert (∀ t i, t ≠ p → 0 ≤ i < 512 → mem s2 (cell t i) = mem s1 (cell t i)) as Hms.
  { intros t i Hne Hi. simpl. assert (cell t i / PGSIZE = t) as Hd by (by apply cell_page).
    destruct (Z.leb_spec (p * PGSIZE + PGSIZE / 2) (cell t i)), (Z.ltb_spec (cell t i) (p * PGSIZE + PGSIZE / 2 + PGSIZE / 2)); simpl; try done.
    unfold PGSIZE, VMP_PAGE_SHIFT in *. change (2 ^ 12) with 4096 in *. change (4096 / 2) with 2048 in *. exfalso. revert Hd. Z.div_mod_to_equations. lia. }
  assert (∀ i, 0 ≤ i < 256 → mem s2 (cell p i) = 0) as Hz.
  { intros i Hi. simpl. rewrite (proj2 (Z.leb_gt _ _)) by (unfold cell, PGSIZE, VMP_PAGE_SHIFT; change (2 ^ 12) with 4096; change (4096 / 2) with 2048; lia). simpl.
    rewrite Hmem, in_page_cell by lia. by rewrite bool_decide_true. }
  split; [|done]. split; try done.
  - pose proof (upd_page_ok B1 s1 p 0 Alloc _ x1 Hok Hap Hx eq_refl eq_refl eq_refl) as Hu. by destruct Hu.
  - pose proof Htr as [Hinf Hpg He Hn Hsl]. split.
    + intros t ti Ht. apply lookup_insert_Some in Ht as [[<- <-]|[Hne Ht]]; [|by apply Hinf]. simpl. split; [lia|]. split; [done|]. split; [done|]. rewrite Hn by done. unfold PINS. lia.
    + intros t ti Ht. apply lookup_insert_Some in Ht as [[<- <-]|[Hne Ht]].
      * exists x1. simpl. rewrite lookup_insert_eq. split; [done|]. split; [|done].
        assert (count nonzero 256 (mem s2) p = 0 ∧ count noswap 256 (mem s2) p = 0) as [C1 C2].
        { split; apply count_zero; intros i Hi; rewrite Hz by done; [apply nonzero_0|apply noswap_0]. }
        split; simpl t_slots; rewrite ?C1, ?C2, ?(Hn p HTp); try done.
      * destruct (Hpg t ti Ht) as (y & Hy & Htp & Hlk). exists y. simpl. rewrite lookup_insert_ne by done. split; [done|]. split.
        -- eapply table_page_same; [exact Htp|apply same_page_refl|done| |done|done]. intros i Hi. destruct (Hsl t ti Ht). apply Hms; [done|lia].
        -- intros H4. destruct (Hlk H4) as (d & i & di & Hi & ? & Hd & ? & ? & ?). exists d, i, di. destruct (Hsl d di Hd). assert (d ≠ p) by congruence.
           rewrite lookup_insert_ne by done. rewrite (Hms d i) by (done || lia). done.
    + intros d di i Hd Hl Hi. unfold entry_ok. apply lookup_insert_Some in Hd as [[<- <-]|[Hne Hd]].
      * left. rewrite Hz by exact Hi. apply law_zero.
      * destruct (Hsl d di Hd). rewrite (Hms d i) by (done || lia). destruct (He d di i Hd Hl Hi) as [?|(c & y & ? & HT & ? & ?)]; [by left|right].
        exists c, y. simpl. rewrite !lookup_insert_ne by congruence. done.
    + intros t Ht. apply lookup_insert_None in Ht as [Ht _]. by apply Hn.
    + intros t ti Ht. apply lookup_insert_Some in Ht as [[<- <-]|[Hne Ht]]; [simpl; split; [lia|done]|by eapply Hsl].
  - intros t ti Ht. apply lookup_insert_Some in Ht as [[<- <-]|[Hne Ht]]; [done|by eapply Hal].
  - eapply (room_upd n B1 s1); try done. eapply standby_ref; [done|done|by left].
Qed.
End walk.

(** ** The theorems *)

(** C6. [vmp_wire_pte] with [create], in a tree of tables that are all resident and with
    memory plentiful, does not panic or wait: it returns the address of the entry for the
    address, which is the one [vmp_fetch_pte] then finds; each table on the way has one more
    pin and all counts are exact; no translation of any process changes, every address that
    had an entry before still has it, at the same place and with the same contents; and no
    page that is not a table is touched. *)
Theorem vmp_wire_pte_correct {F : PteFormat} {L : PteLaws F} pins T B s a root ri :
  wstate pins 3 T B s → T !! root = Some ri → t_level ri = 4%nat → walks a ri → vmp_addr_unpack (wa_vaddr a) 4 < t_slots ri →
  wa_create a = true → (∀ y, pins y ≤ 10000) →
  wp (vmp_wire_pte a (root * PGSIZE)) (λ r s', ∃ pte pages T' B', r = Wired pte pages ∧
    wstate (add_pins pages pins) 0 T' B' s' ∧ T ⊆ T' ∧ step T B s T' B' s' ∧
    vmp_fetch_pte (root * PGSIZE) (wa_vaddr a) s' = Ok (Some pte, s') ∧
    ∀ v p, vmp_addr_unpack v 4 < t_slots ri → vmp_fetch_pte (root * PGSIZE) v s = Ok (Some p, s) →
      vmp_fetch_pte (root * PGSIZE) v s' = Ok (Some p, s') ∧ mem s' p = mem s p) s.
Proof.
  intros Hws Hr Hl Hwa Hvs Hcr Hmax. eapply wp_mono; [by eapply (wire_ok 0)|].
  intros r s' (c & pages & T' & B' & -> & _ & _ & [W1 W2 Wt W3 W4 W5 W6]). eexists _, pages, T', B'. split; [done|]. split; [done|]. split; [apply W3|].
  split; [done|]. unfold vmp_fetch_pte, VMP_TABLE_LEVELS. rewrite Hl in W5. split; [by rewrite fetch_walk, W5 by lia|].
  intros v p Hv Hf. rewrite fetch_walk in Hf |- * by lia. injection Hf as Hf.
  destruct (walk_extends pins T T' s s' v (ws_tree _ _ _ _ _ Hws) W3 4 root ri p Hr Hl Hv Hf) as [Hw Hm]. by rewrite Hw.
Qed.

(** A table that nobody has pinned has an entry. *)
Lemma table_used {F : PteFormat} {L : PteLaws F} pins n T B s t ti :
  wstate pins n T B s → T !! t = Some ti → t_level ti ≠ 4%nat → pins t = 0 →
  ∃ i, 0 ≤ i < 512 ∧ vmp_pte_characterise (mem s (cell t i)) ≠ kPTEKindZero.
Proof.
  intros Hws Ht H4 Hp. pose proof (ws_tree _ _ _ _ _ Hws) as Htr. destruct (tr_page _ _ _ Htr t ti Ht) as (x & _ & Htp & _).
  destruct (tr_slots _ _ _ Htr t ti Ht) as [_ Hs5]. pose proof (tp_used _ _ _ _ _ Htp H4) as Hu. pose proof (tp_nonzero _ _ _ _ _ Htp) as Hnz.
  rewrite (Hs5 H4), Hp in Hnz.
  destruct (decide (Forall (λ i, nonzero (mem s (cell t i)) = false) (seqZ 0 512))) as [Hall|Hex].
  - rewrite Forall_forall in Hall. assert (count nonzero 512 (mem s) t = 0) as Hc; [|lia]. apply count_zero. intros i Hi. apply Hall, elem_of_seqZ. lia.
  - apply not_Forall_Exists, Exists_exists in Hex as (i & Hi & Hn); [|intros ?; apply _]. apply elem_of_seqZ in Hi. exists i. split; [lia|].
    intros Hk. apply Hn. by apply nonzero_zero.
Qed.

(** Wiring an entry and releasing it. *)
Definition wire_release {F : PteFormat} (a : walk_args) (root : Z) : kern pst () :=
  r ← vmp_wire_pte a root;
  match r with Wired _ pages => vmp_pte_wire_state_release (map Some pages) false | _ => fatal "vmp_wire_pte" end.
Lemma release_take {F : PteFormat} (pages : list Z) : (length pages ≤ 4)%nat → vmp_pte_wire_state_release (map Some pages) false = wire_state_release false (map Some pages).
Proof. intros Hl. unfold vmp_pte_wire_state_release. rewrite firstn_all2; [done|]. by rewrite length_map. Qed.
Lemma add_pins_bound pages pins y b : pins y ≤ b → add_pins pages pins y ≤ b + Z.of_nat (length pages).
Proof. intros Hb. induction pages as [|t pages IH]; simpl; [lia|]. unfold add_pin. case_decide; subst; lia. Qed.

(** C7. Wiring an entry of a process, with tables made on the way, and releasing it at once:
    every pin is gone and every count is exact; no translation of any process has changed,
    and no page that is not a table was touched; every table left but the roots is pinned by
    somebody else or has an entry, so the tables that are empty are gone; and their pages
    are free again, since every page in use afterwards is one of the tables or was in use
    before. *)
Theorem wire_release_roundtrip {F : PteFormat} {L : PteLaws F} pins T B s a root ri :
  wstate pins 3 T B s → T !! root = Some ri → t_level ri = 4%nat → walks a ri → t_proto ri = false → vmp_addr_unpack (wa_vaddr a) 4 < t_slots ri →
  wa_create a = true → (∀ y, pins y ≤ 10000) →
  wp (wire_release a (root * PGSIZE)) (λ _ s', ∃ T' B', wstate pins 0 T' B' s' ∧ step T B s T' B' s' ∧
    (∀ t ti, T' !! t = Some ti → t_level ti ≠ 4%nat → pins t = 0 → ∃ i, 0 ≤ i < 512 ∧ vmp_pte_characterise (mem s' (cell t i)) ≠ kPTEKindZero) ∧
    (∀ q k, T' !! q = None → allocated B' q k → T !! q = None ∧ allocated B q k)) s.
Proof.
  intros Hws Hr Hl Hwa Hpr Hvs Hcr Hmax. unfold wire_release. rewrite wp_bind. eapply wp_mono; [by eapply (wire_ok 0)|].
  intros r s1 (c & pages & T1 & B1 & -> & _ & Hlen & [W1 W2 Wt W3 W4 W5 W6]). rewrite release_take by lia.
  eapply wp_mono; [eapply (unwire_ok pages pins 0 T1 B1 s1 W1)|].
  - intros t Ht. destruct (W6 t Ht) as (ti & ? & _ & Hp). exists ti. split; [done|congruence].
  - intros y. eapply tree_pins_pos, (ws_tree _ _ _ _ _ Hws).
  - intros y. pose proof (add_pins_bound pages pins y 10000 (Hmax y)). unfold PINS. lia.
  - intros [] s2 (T2 & B2 & Hws2 & Hst2 & Htg2 & _). exists T2, B2. split; [done|]. split; [by eapply step_trans|].
    split; [|by eapply tight_trans]. intros t ti Ht H4 Hp0. by eapply table_used.
Qed.

(** ** A process *)

(** 128 pages of memory, one of which is the root table of process 1. *)
Definition with_root : pst := final (vmp_md_ps_init false 1 0) demo.
Lemma demo_wstate : ∃ B, wstate (λ _, 0) 32 ∅ B demo.
Proof.
  destruct memory_ok as [B HB]. exists B.
  assert (vmstat demo nfree = 128) as Hnf by (vm_compute; reflexivity). assert (vmstat demo nstandby = 0) as Hns by (vm_compute; reflexivity).
  assert (standby demo = []) as Hst by (vm_compute; reflexivity). split.
  - exact (rs_ok _ _ _ _ _ _ HB).
  - exact (memory_settled B HB).
  - split; [intros * H; by rewrite lookup_empty in H..|intros; reflexivity|intros * H; by rewrite lookup_empty in H].
  - intros * H. by rewrite lookup_empty in H.
  - intros y Hy. apply (rs_cov _ _ _ _ _ _ HB) in Hy as [(q & k & st & Hq & _)|?]; [by rewrite lookup_empty in Hq|]. simpl. lia.
  - split.
    + exists (seqZ 256 128). split_and!; [apply NoDup_seqZ| |rewrite Hnf, length_seqZ; done|rewrite length_seqZ; lia].
      intros y. rewrite elem_of_seqZ, (rs_free _ _ _ _ _ _ HB). split; [intros ?; right; lia|]. intros [(q & k & Hq & _)|?]; [by rewrite lookup_empty in Hq|lia].
    + rewrite Hst, Hns. split_and!; [constructor| |reflexivity]. intros y Hy. destruct (not_elem_of_nil _ Hy).
Qed.
Lemma with_root_ok : ∃ B root, wstate (λ _, 0) 31 {[root := Table 4 1 false 256]} B with_root.
Proof.
  destruct demo_wstate as [B HB]. destruct (wp_final _ _ _ (ps_init_ok (λ _, 0) 31 ∅ B demo 1 0 HB ltac:(done))) as [r (p & B' & _ & Hws & _)].
  rewrite insert_empty in Hws. exists B', p. exact Hws.
Qed.
Lemma vmp_wire_pte_correct_witness :
  ∃ root pte pages s', vmp_wire_pte (WalkArgs 1 0x7fff12345000 None true) (root * PGSIZE) with_root = Ok (Wired pte pages, s') ∧
    vmp_fetch_pte (root * PGSIZE) 0x7fff12345000 s' = Ok (Some pte, s').
Proof.
  destruct with_root_ok as (B & root & Hws).
  pose proof (vmp_wire_pte_correct (λ _, 0) _ B with_root (WalkArgs 1 0x7fff12345000 None true) root (Table 4 1 false 256)
    (wstate_le _ 31 3 _ _ _ ltac:(lia) Hws) (lookup_singleton_eq _ _) eq_refl (conj eq_refl eq_refl) ltac:(vm_compute; reflexivity) eq_refl ltac:(intros; lia)) as Hw.
  destruct (proj1 (wp_ok _ _ _) Hw) as (r & s' & Hrun & pte & pages & _ & _ & -> & _ & _ & _ & Hf & _).
  exists root, pte, pages, s'. split; [exact Hrun|exact Hf].
Defined.
Lemma wire_release_roundtrip_witness : ∃ root s', wire_release (WalkArgs 1 0x7fff12345000 None true) (root * PGSIZE) with_root = Ok ((), s').
Proof.
  destruct with_root_ok as (B & root & Hws).
  pose proof (wire_release_roundtrip (λ _, 0) _ B with_root (WalkArgs 1 0x7fff12345000 None true) root (Table 4 1 false 256)
    (wstate_le _ 31 3 _ _ _ ltac:(lia) Hws) (lookup_singleton_eq _ _) eq_refl (conj eq_refl eq_refl) eq_refl ltac:(vm_compute; reflexivity) eq_refl ltac:(intros; lia)) as Hw.
  destruct (proj1 (wp_ok _ _ _) Hw) as ([] & s' & Hrun & _). exists root, s'. exact Hrun.
Defined.

(** ** Page-in *)

(** Starting to read a table in replaces a swap entry, which is counted as nonzero already,
    and counts it as nonzero again. *)
Lemma pagein_counts_twice {F : PteFormat} s dirpage dirpte page x :
  pfndb s !! dirpage = Some x → 1 ≤ refcnt x < 30000 → noswap_ptes x ≤ refcnt x → 0 ≤ nonzero_ptes x < 30000 → vmp_pte_characterise (mem s dirpte) = kPTEKindSwap →
  wp (vmp_md_busy_table_pointers dirpage dirpte page) (λ _ s', ∃ x', pfndb s' !! dirpage = Some x' ∧
    nonzero_ptes x' = nonzero_ptes x + 1 ∧ ∀ a, a ≠ dirpte → mem s' a = mem s a) s.
Proof.
  intros Hx Hr Hns Hnz _. unfold vmp_md_busy_table_pointers, word_set. rewrite wp_bind, wp_modify.
  unfold vmp_pagetable_page_noswap_pte_created, check_page_consistency. rewrite wp_bind, wp_page_at. exists x. split; [done|].
  rewrite wp_bind, (proj2 (Z.ltb_ge (refcnt x) _)) by lia. rewrite andb_false_r, wp_ret. rewrite wp_bind. unfold vmp_page_retain_locked.
  rewrite wp_bind, wp_page_at. exists x. split; [done|]. rewrite wp_bind, wp_page_set, wp_when, (proj2 (Z.eqb_neq _ 0)) by lia.
  rewrite wp_page_upd. eexists. split; [simpl; by rewrite lookup_insert_eq|]. simpl. rewrite insert_insert_eq. eexists. rewrite lookup_insert_eq.
  split; [done|]. simpl. rewrite i16_small by lia. split; [done|]. intros a Ha. by rewrite (proj2 (Z.eqb_neq a dirpte)).
Qed.
