(* ===== verification/Wsl.v ===== *)
(** Working set lists: kernel/vm/ws.c.  A process's resident pages are entries of an
    array, the unused ones chained on a free list, the shared ones also in a hash
    table that gives up after four probes.  Insertion into a full list evicts the next
    entry round the array; trimming evicts some.

    Evicting a page rewrites its page table entry and drops the reference the working
    set has to it. *)
From S2P Require Import Prelude Pte Resident Tables PageAlloc Walk.
Import Resident Tables PageAlloc Walk.
Local Open Scope Z_scope.

Module Wsl.

Definition MAX_PROBING_ATTEMPTS : nat := 4.
Definition WS_EXPANSION_COUNT : Z := 16.
Definition WSE_PER_PAGE : Z := 512.
Definition NIL_WSE : Z := 2 ^ 32 - 1.

Record wse := Wse { vpfn : Z; hashed : bool; shared : bool; free : bool }.
Definition with_vpfn x e := Wse x (hashed e) (shared e) (free e).
Definition with_hashed x e := Wse (vpfn e) x (shared e) (free e).
Definition with_shared x e := Wse (vpfn e) (hashed e) x (free e).
Definition with_free x e := Wse (vpfn e) (hashed e) (shared e) x.

(** [struct vmp_wsl]; arrays are lists. *)
Record vmp_wsl := WSL {
  nodes : list wse;
  capacity : Z;
  limit : Z;
  size : Z;
  freelist : Z;
  head : Z;
  hash_size : Z;
  hash : list Z
}.
Definition set_nodes x w := WSL x (capacity w) (limit w) (size w) (freelist w) (head w) (hash_size w) (hash w).
Definition set_limit x w := WSL (nodes w) (capacity w) x (size w) (freelist w) (head w) (hash_size w) (hash w).
Definition set_size x w := WSL (nodes w) (capacity w) (limit w) x (freelist w) (head w) (hash_size w) (hash w).
Definition set_freelist x w := WSL (nodes w) (capacity w) (limit w) (size w) x (head w) (hash_size w) (hash w).
Definition set_head x w := WSL (nodes w) (capacity w) (limit w) (size w) (freelist w) x (hash_size w) (hash w).
Definition set_hash x w := WSL (nodes w) (capacity w) (limit w) (size w) (freelist w) (head w) (hash_size w) x.

(** The working set and the page state it evicts from. *)
Record wst := Wst { wsl : vmp_wsl; pages : pst }.
Definition set_wsl x s := Wst x (pages s).
Definition in_pages {A} (m : kern pst A) : kern wst A := zoom pages (λ p s, Wst (wsl s) p) m.
Definition wsl_upd (f : vmp_wsl → vmp_wsl) : kern wst () := modify (λ s, set_wsl (f (wsl s)) s).

Definition node_at (i : Z) : kern wst wse := s ← get; deref "ws->nodes[i]" (nodes (wsl s) !! Z.to_nat i).
Definition node_upd (i : Z) (f : wse → wse) : kern wst () :=
  e ← node_at i; wsl_upd (λ w, set_nodes (<[Z.to_nat i := f e]> (nodes w)) w).
Definition slot_at (i : Z) : kern wst Z := s ← get; deref "ws->hash[i]" (hash (wsl s) !! Z.to_nat i).
Definition slot_set (i v : Z) : kern wst () :=
  slot_at i;; wsl_upd (λ w, set_hash (<[Z.to_nat i := v]> (hash w)) w).

(** The hash for 64-bit machines. *)
Definition vpfn_hash (key hash_size : Z) : Z :=
  let key := u64 (u64 (Z.lnot key) + u64 (Z.shiftl key 21)) in
  let key := Z.lxor key (Z.shiftr key 24) in
  let key := u64 (u64 (key + u64 (Z.shiftl key 3)) + u64 (Z.shiftl key 8)) in
  let key := Z.lxor key (Z.shiftr key 14) in
  let key := u64 (u64 (key + u64 (Z.shiftl key 2)) + u64 (Z.shiftl key 4)) in
  let key := Z.lxor key (Z.shiftr key 28) in
  let key := u64 (key + u64 (Z.shiftl key 31)) in
  key mod (hash_size - 1).

(** Fresh pages hold zeroes; a page has room for 1024 hash slots.  The loop runs from
    [WSE_PER_PAGE] down to 1. *)
Fixpoint init_entries (i : nat) (w : vmp_wsl) : vmp_wsl :=
  match i with
  | O => w
  | S idx =>
      let w := set_nodes (alter (λ e, with_vpfn (freelist w) (with_free true e)) idx (nodes w)) w in
      let w := set_freelist (Z.of_nat idx) w in
      init_entries idx (set_hash (<[i := NIL_WSE]> (hash w)) w)
  end.
Definition vmp_wsl_init : vmp_wsl :=
  init_entries 512 (WSL (replicate 512 (Wse 0 false false false)) WSE_PER_PAGE 6 0 NIL_WSE 0 WSE_PER_PAGE (replicate 1024 0)).

(** ** The hash table *)

Fixpoint hash_insert_at (n : nat) (hash_index index : Z) : kern wst () :=
  match n with
  | O => node_upd index (with_hashed false)
  | S n' =>
      v ← slot_at hash_index;
      if v =? NIL_WSE then slot_set hash_index index;; node_upd index (with_hashed true)
      else s ← get; hash_insert_at n' ((hash_index + 1) mod hash_size (wsl s)) index
  end.
Definition hash_insert (index : Z) : kern wst () :=
  s ← get;
  e ← node_at index;
  hash_insert_at MAX_PROBING_ATTEMPTS (vpfn_hash (vpfn e) (hash_size (wsl s))) index.

(** [None] is NIL_WSE. *)
Fixpoint hash_probe (n : nat) (hash_index key : Z) (del : bool) : kern wst (option Z) :=
  match n with
  | O => mret None
  | S n' =>
      s ← get;
      idx ← slot_at hash_index;
      hit ← (if idx =? NIL_WSE then mret false else e ← node_at idx; mret (vpfn e =? key));
      if hit : bool then
        when del
          (e ← node_at idx;
           kassert "ws->nodes[idx].hashed" (hashed e);;
           slot_set hash_index NIL_WSE;;
           node_upd idx (with_hashed false));;
        mret (Some idx)
      else hash_probe n' ((hash_index + 1) mod hash_size (wsl s)) key del
  end.
(** The scan of all entries; [n] are left. *)
Fixpoint linear_lookup (n : nat) (idx key : Z) : kern wst (option Z) :=
  match n with
  | O => mret None
  | S n' =>
      e ← node_at idx;
      if (vpfn e =? key) && negb (free e) then
        kassert "!ws->nodes[idx].hashed" (negb (hashed e));;
        mret (Some idx)
      else linear_lookup n' (idx + 1) key
  end.
Definition hash_lookup (key : Z) (del : bool) : kern wst (option Z) :=
  s ← get;
  r ← hash_probe MAX_PROBING_ATTEMPTS (vpfn_hash key (hash_size (wsl s))) key del;
  match r with
  | Some idx => mret (Some idx)
  | None => linear_lookup (Z.to_nat (capacity (wsl s))) 0 key
  end.

Fixpoint hash_remove_at (n : nat) (hash_index index : Z) : kern wst () :=
  match n with
  | O => fatal "unreached"
  | S n' =>
      s ← get;
      v ← slot_at hash_index;
      if v =? index then slot_set hash_index NIL_WSE;; node_upd index (with_hashed false)
      else hash_remove_at n' ((hash_index + 1) mod hash_size (wsl s)) index
  end.
Definition hash_remove (index : Z) : kern wst () :=
  s ← get;
  e ← node_at index;
  hash_remove_at MAX_PROBING_ATTEMPTS (vpfn_hash (vpfn e) (hash_size (wsl s))) index.

Section ws.
Context `{PteFormat} (table : Z).

(** ** Eviction *)

(** TLB and cache maintenance have no effect here. *)
Definition vmp_page_evict (pte pte_page : Z) : kern pst () :=
  w ← word_at pte;
  let page := vm_paddr_to_page (vmp_pte_hw_paddr w) in
  kassert "vmp_pte_characterise(pte) == kPTEKindValid" (bool_decide (vmp_pte_characterise w = kPTEKindValid));;
  page_upd page (λ x, with_dirty (dirty x || vmp_md_hw_pte_is_writeable w) x);;
  x ← page_at page;
  match use x with
  | kPageUseAnonPrivate =>
      kassert "page->referent_pte == V2P(pte)" (referent_pte x =? pte);;
      word_set pte (vmp_md_pte_create_trans page);;
      vmp_page_release_locked page
  | kPageUseAnonShared | kPageUseFileShared =>
      word_set pte 0;;
      pte_deleted pte_page false;;
      vmp_page_release_locked page
  | kPageUseAnonFork =>
      word_set pte (vmp_md_pte_create_fork (owner x));;
      vmp_pagetable_page_pte_became_swap pte_page;;
      vmp_page_release_locked page
  | _ => fatal "Unhandled page use in working set eviction"
  end.
Definition wse_evict (e : wse) : kern wst () :=
  in_pages
    (r ← vmp_fetch_pte table (u64 (Z.shiftl (vpfn e) VMP_PAGE_SHIFT));
     pte ← deref "r == 0" r;
     w ← word_at pte;
     kassert "vmp_md_pte_is_valid(pte)" (bool_decide (vmp_pte_characterise w = kPTEKindValid));;
     vmp_page_evict pte (vm_paddr_to_page (ROUNDDOWN pte PGSIZE))).

Definition ws_expand : kern wst () := fatal "Implement me".
Definition ws_can_expand (s : wst) : bool :=
  negb (limit (wsl s) =? capacity (wsl s)) && negb (vmp_avail_pages_fairly_low (pages s)).

(** The next entry in use, from [iter] on; [capacity] rounds are enough when there is
    one. *)
Fixpoint next_used (fuel : nat) (iter : Z) : kern wst Z :=
  match fuel with
  | O => spin
  | S fuel' =>
      s ← get;
      e ← node_at iter;
      if free e then next_used fuel' ((iter + 1) mod capacity (wsl s)) else mret iter
  end.

(** An entry for a new page: from the free list, or the place of an evicted one. *)
Definition take_free : kern wst Z :=
  s ← get;
  when (size (wsl s) =? limit (wsl s))
    (when (limit (wsl s) =? capacity (wsl s)) ws_expand;;
     wsl_upd (λ w, set_limit (Z.min (u64 (limit w + WS_EXPANSION_COUNT)) (capacity w)) w));;
  wsl_upd (λ w, set_size (u64 (size w + 1)) w);;
  s ← get;
  let idx := freelist (wsl s) in
  kassert "ws->freelist != NIL_WSE" (negb (idx =? NIL_WSE));;
  e ← node_at idx;
  node_upd idx (with_free false);;
  wsl_upd (set_freelist (u32 (vpfn e)));;
  mret idx.
Definition take_evicted : kern wst Z :=
  s ← get;
  kassert "ws->limit != 0" (negb (limit (wsl s) =? 0));;
  idx ← next_used (Z.to_nat (capacity (wsl s))) (head (wsl s));
  wsl_upd (set_head ((idx + 1) mod capacity (wsl s)));;
  e ← node_at idx;
  wse_evict e;;
  when (shared e && hashed e) (hash_remove idx);;
  mret idx.
Definition vmp_wsl_insert (vaddr : Z) (sh : bool) : kern wst Z :=
  let key := Z.shiftr vaddr VMP_PAGE_SHIFT in
  s ← get;
  idx ← (if (size (wsl s) <? limit (wsl s)) || ws_can_expand s then take_free else take_evicted);
  node_upd idx (λ e, with_shared sh (with_vpfn key e));;
  when sh (hash_insert idx);;
  mret 0.

(** An entry goes to the free list. *)
Definition put_free (idx : Z) : kern wst () :=
  s ← get;
  node_upd idx (λ e, with_vpfn (freelist (wsl s)) (with_free true e));;
  wsl_upd (set_freelist idx);;
  wsl_upd (λ w, set_size (u64 (size w - 1)) w).
Definition vmp_wsl_remove (vaddr hint : Z) : kern wst () :=
  let key := Z.shiftr vaddr VMP_PAGE_SHIFT in
  s ← get;
  right ← (if negb (hint =? NIL_WSE) && (hint <? capacity (wsl s)) then e ← node_at hint; mret (vpfn e =? key) else mret false);
  idx ← (if right : bool then mret hint
         else r ← hash_lookup key true; deref "idx != NIL_WSE" r);
  put_free idx.

(** [n] entries are still to be trimmed. *)
Fixpoint vmp_wsl_trim (n : nat) : kern wst () :=
  match n with
  | O => mret ()
  | S n' =>
      s ← get;
      if 0 <? size (wsl s) then
        iter ← next_used (Z.to_nat (capacity (wsl s))) (head (wsl s));
        e ← node_at iter;
        wsl_upd (set_head ((iter + 1) mod capacity (wsl s)));;
        wse_evict e;;
        when (shared e && hashed e) (hash_remove iter);;
        put_free iter;;
        vmp_wsl_trim n'
      else mret ()
  end.
End ws.
End Wsl.
