(* ===== verification/WslProofs.v ===== *)
(** Working set lists: the free list, the hash table and the set of resident pages;
    insertion, look-up and removal keep them consistent. *)
From S2P Require Import Prelude Pte Resident Wsl.
Import Wsl.
Local Open Scope Z_scope.

(** ** Well-formed lists *)

Definition node (w : vmp_wsl) (i : Z) : option wse := nodes w !! Z.to_nat i.
Definition slot (w : vmp_wsl) (i : Z) : option Z := hash w !! Z.to_nat i.
(** The entry [i] is in use, for page [k]. *)
Definition uses (w : vmp_wsl) (i k : Z) : Prop := ∃ e, 0 ≤ i < capacity w ∧ node w i = Some e ∧ free e = false ∧ vpfn e = k.
(** The pages of the working set. *)
Definition resident (w : vmp_wsl) (k : Z) : Prop := ∃ i, uses w i k.

(** The slots tried for [k]: [n] of them, from [h] on. *)
Fixpoint probes (n : nat) (h hs : Z) : list Z :=
  match n with O => [] | S n' => h :: probes n' ((h + 1) mod hs) hs end.
Definition probes_of (w : vmp_wsl) (k : Z) : list Z := probes MAX_PROBING_ATTEMPTS (vpfn_hash k (hash_size w)) (hash_size w).

(** The chain of free entries from [f] on. *)
Fixpoint chain (w : vmp_wsl) (f : Z) (fl : list Z) : Prop :=
  match fl with
  | [] => f = NIL_WSE
  | i :: fl' => f = i ∧ ∃ e, node w i = Some e ∧ chain w (vpfn e) fl'
  end.

Record list_ok (w : vmp_wsl) (fl : list Z) : Prop := ListOk {
  lo_len : Z.of_nat (length (nodes w)) = capacity w;
  lo_cap : 0 < capacity w < NIL_WSE;
  lo_chain : chain w (freelist w) fl;
  lo_nodup : NoDup fl;
  lo_free : ∀ i, i ∈ fl ↔ 0 ≤ i < capacity w ∧ ∃ e, node w i = Some e ∧ free e = true;
  lo_size : size w + Z.of_nat (length fl) = capacity w;
  lo_limit : 0 ≤ size w ≤ limit w ∧ limit w ≤ capacity w;
  lo_head : 0 ≤ head w < capacity w;
  lo_once : ∀ i j k, uses w i k → uses w j k → i = j
}.
(** The hash table.  Its slots name hashed entries, and every hashed entry is named by one
    slot among those tried for its page.  One slot, [stale], may name an entry it should not:
    [vmp_wsl_init] leaves such a slot behind. *)
Record hash_at (stale : option Z) (w : vmp_wsl) : Prop := HashAt {
  ho_len : 2 ≤ hash_size w ≤ Z.of_nat (length (hash w));
  ho_slot : ∀ j i, 0 ≤ j < hash_size w → stale ≠ Some j → slot w j = Some i → i ≠ NIL_WSE →
    ∃ e, 0 ≤ i < capacity w ∧ node w i = Some e ∧ free e = false ∧ hashed e = true ∧ j ∈ probes_of w (vpfn e);
  ho_once : ∀ j j' i, 0 ≤ j < hash_size w → 0 ≤ j' < hash_size w → stale ≠ Some j → stale ≠ Some j' →
    slot w j = Some i → slot w j' = Some i → i ≠ NIL_WSE → j = j';
  ho_hashed : ∀ i e, 0 ≤ i < capacity w → node w i = Some e → hashed e = true →
    ∃ j, 0 ≤ j < hash_size w ∧ stale ≠ Some j ∧ j ∈ probes_of w (vpfn e) ∧ slot w j = Some i;
  ho_shared : ∀ i e, 0 ≤ i < capacity w → node w i = Some e → hashed e = true → shared e = true;
  ho_stale : ∀ j, stale = Some j → 0 ≤ j < hash_size w ∧ ∃ i, 0 ≤ i < capacity w ∧ slot w j = Some i
}.
Definition hash_ok (w : vmp_wsl) : Prop := ∃ stale, hash_at stale w.

Lemma vpfn_hash_range k hs : 2 ≤ hs → 0 ≤ vpfn_hash k hs < hs.
Proof. intros Hh. unfold vpfn_hash. match goal with |- 0 ≤ ?x mod _ < _ => pose proof (Z.mod_pos_bound x (hs - 1)) end. lia. Qed.
Lemma probes_range n h hs j : 0 ≤ h < hs → j ∈ probes n h hs → 0 ≤ j < hs.
Proof.
  revert h. induction n as [|n IH]; intros h Hh Hj; simpl in Hj; [by apply elem_of_nil in Hj|].
  apply elem_of_cons in Hj as [->|Hj]; [done|]. eapply IH; [|done]. apply Z.mod_pos_bound. lia.
Qed.

(** ** Weakest preconditions *)

Lemma wp_node_at i Q s : wp (node_at i) Q s ↔ ∃ e, node (wsl s) i = Some e ∧ Q e s.
Proof. unfold node_at. by wp_simp. Qed.
Lemma wp_node_upd i f (Q : () → wst → Prop) s :
  wp (node_upd i f) Q s ↔ ∃ e, node (wsl s) i = Some e ∧ Q () (set_wsl (set_nodes (<[Z.to_nat i := f e]> (nodes (wsl s))) (wsl s)) s).
Proof. unfold node_upd. by rewrite wp_bind, wp_node_at. Qed.
Lemma wp_slot_at i Q s : wp (slot_at i) Q s ↔ ∃ v, slot (wsl s) i = Some v ∧ Q v s.
Proof. unfold slot_at. by wp_simp. Qed.
Lemma wp_slot_set i v (Q : () → wst → Prop) s :
  wp (slot_set i v) Q s ↔ ∃ u, slot (wsl s) i = Some u ∧ Q () (set_wsl (set_hash (<[Z.to_nat i := v]> (hash (wsl s))) (wsl s)) s).
Proof. unfold slot_set. by rewrite wp_bind, wp_slot_at. Qed.
Lemma wp_wsl_upd f (Q : () → wst → Prop) s : wp (wsl_upd f) Q s ↔ Q () (set_wsl (f (wsl s)) s).
Proof. done. Qed.

Lemma hash_len w : hash_ok w → 2 ≤ hash_size w ≤ Z.of_nat (length (hash w)).
Proof. intros [st Hh]. apply Hh. Qed.
Lemma slot_some w j : hash_ok w → 0 ≤ j < hash_size w → ∃ v, slot w j = Some v.
Proof. intros Hl%hash_len Hj. apply lookup_lt_is_Some_2. lia. Qed.
Lemma slot_range w j i : hash_ok w → 0 ≤ j < hash_size w → slot w j = Some i → i ≠ NIL_WSE → 0 ≤ i < capacity w.
Proof.
  intros [st Ha] Hj Hs Hn. destruct (decide (st = Some j)) as [->|Hne].
  - destruct (ho_stale _ _ Ha j eq_refl) as (_ & i' & Hi & Hs'). congruence.
  - destruct (ho_slot _ _ Ha j i Hj Hne Hs Hn) as (e & ? & _). done.
Qed.
Lemma node_some w fl i : list_ok w fl → 0 ≤ i < capacity w → ∃ e, node w i = Some e.
Proof. intros Hl Hi. apply lookup_lt_is_Some_2. pose proof (lo_len _ _ Hl). lia. Qed.

(** ** Look-up *)

(** The reference: the entry in use for [k]. *)
Definition lookup_spec (w : vmp_wsl) (k : Z) (r : option Z) : Prop :=
  match r with Some i => uses w i k | None => ¬ resident w k end.

Lemma linear_lookup_find w pg fl n idx k : list_ok w fl → 0 ≤ idx → idx + Z.of_nat n = capacity w →
  (∀ i e, uses w i k → node w i = Some e → hashed e = false) → (∀ i, uses w i k → idx ≤ i) →
  wp (linear_lookup n idx k) (λ r s', s' = Wst w pg ∧ lookup_spec w k r) (Wst w pg).
Proof.
  intros Hl. revert idx. induction n as [|n IH]; intros idx H0 Hn Hnh Hge; simpl.
  { rewrite wp_ret. split; [done|]. intros [i Hu]. pose proof (Hge i Hu). destruct Hu as (e & ? & _). lia. }
  destruct (node_some w fl idx Hl) as [e He]; [lia|]. rewrite wp_bind, wp_node_at. exists e. split; [done|].
  destruct ((vpfn e =? k) && negb (free e)) eqn:E.
  - apply andb_true_iff in E as [E1%Z.eqb_eq E2%negb_true_iff]. assert (uses w idx k) as Hu by (exists e; split_and!; (done || lia)).
    rewrite wp_bind, wp_kassert, (Hnh idx e Hu He), wp_ret. by split_and!.
  - eapply IH; [lia|lia|done|]. intros i Hu. pose proof (Hge i Hu). destruct (decide (i = idx)) as [->|]; [|lia].
    destruct Hu as (e' & _ & He' & Hf & Hk). rewrite He in He'. injection He' as <-. rewrite Hk, Hf, Z.eqb_refl in E. done.
Qed.

(** ** Changing an entry *)

Definition put_node (w : vmp_wsl) (i : Z) (e : wse) : vmp_wsl := set_nodes (<[Z.to_nat i := e]> (nodes w)) w.
Lemma node_put w fl i e j : list_ok w fl → 0 ≤ i < capacity w → 0 ≤ j →
  node (put_node w i e) j = if decide (j = i) then Some e else node w j.
Proof.
  intros Hl Hi Hj. unfold node, put_node. simpl. pose proof (lo_len _ _ Hl). case_decide as Hd.
  - subst j. apply list_lookup_insert_eq. lia.
  - apply list_lookup_insert_ne. lia.
Qed.
Lemma chain_put w fl i e f l : list_ok w fl → 0 ≤ i < capacity w → i ∉ l → (∀ j, j ∈ l → 0 ≤ j) → chain w f l → chain (put_node w i e) f l.
Proof.
  intros Hl Hi. revert f. induction l as [|j l IH]; intros f Hni Hpos Hc; simpl in *; [done|].
  destruct Hc as (-> & e' & He' & Hc). split; [done|]. exists e'. rewrite (node_put w fl) by (done || (apply Hpos; set_solver)).
  rewrite decide_False by set_solver. split; [done|]. apply IH; [set_solver|set_solver|done].
Qed.
Lemma chain_same w w' f l : nodes w' = nodes w → chain w f l → chain w' f l.
Proof. intros Hn. revert f. induction l as [|j l IH]; intros f; simpl; [done|]. unfold node. rewrite Hn. naive_solver. Qed.
Lemma fl_pos w fl j : list_ok w fl → j ∈ fl → 0 ≤ j < capacity w.
Proof. intros Hl Hj. by apply (lo_free _ _ Hl) in Hj as [? _]. Qed.

(** An entry in use stays so, for the same page; whether it is hashed changes. *)
Lemma rehash_list w fl i e b : list_ok w fl → 0 ≤ i < capacity w → node w i = Some e → free e = false →
  list_ok (put_node w i (with_hashed b e)) fl ∧ ∀ j k, uses (put_node w i (with_hashed b e)) j k ↔ uses w j k.
Proof.
  intros Hl Hi He Hf. assert (∀ j k, uses (put_node w i (with_hashed b e)) j k ↔ uses w j k) as Hu.
  { intros j k. split; intros (e' & Hj & He' & Hf' & Hk); simpl in Hj.
    - rewrite (node_put w fl) in He' by (done || lia). case_decide; [|by exists e']. injection He' as <-. exists e. by subst j.
    - destruct (decide (j = i)) as [->|Hne].
      + rewrite He in He'. injection He' as <-. exists (with_hashed b e). rewrite (node_put w fl) by (done || lia). rewrite decide_True by done. done.
      + exists e'. rewrite (node_put w fl) by (done || lia). rewrite decide_False by done. done. }
  split; [|done]. destruct Hl as [Hlen Hcap Hch Hnd Hfr Hsz Hlim Hhd Hon]. assert (list_ok w fl) as Hl by done. split; try done.
  - simpl. by rewrite length_insert.
  - simpl. apply (chain_put w fl); try done; [|intros j Hj; pose proof (fl_pos w fl j Hl Hj); lia]. intros Hin. apply Hfr in Hin as (_ & e' & He' & Hf'). congruence.
  - intros j. rewrite Hfr. simpl. split; intros (Hj & e' & He' & Hf'); (split; [done|]).
    + exists e'. rewrite (node_put w fl) by (done || lia). rewrite decide_False by congruence. done.
    + rewrite (node_put w fl) in He' by (done || lia). case_decide; [injection He' as <-; simpl in Hf'; congruence|]. eauto.
  - intros i' j' k. rewrite !Hu. apply Hon.
Qed.

Definition put_slot (w : vmp_wsl) (j v : Z) : vmp_wsl := set_hash (<[Z.to_nat j := v]> (hash w)) w.
Lemma slot_put w j v j' : hash_ok w → 0 ≤ j < hash_size w → 0 ≤ j' → slot (put_slot w j v) j' = if decide (j' = j) then Some v else slot w j'.
Proof.
  intros Hh Hj Hj'. unfold slot, put_slot. simpl. pose proof (hash_len _ Hh). case_decide as Hd.
  - subst j'. apply list_lookup_insert_eq. lia.
  - apply list_lookup_insert_ne. lia.
Qed.
Lemma list_put_slot w fl j v : list_ok w fl → list_ok (put_slot w j v) fl.
Proof. intros [? ? Hc ? ? ? ? ? ?]. split; try done. by apply (chain_same w). Qed.

Section hashing.
Context (w : vmp_wsl) (fl : list Z) (i j : Z) (e : wse).
Hypothesis (Hl : list_ok w fl) (Hh : hash_ok w) (Hi : 0 ≤ i < capacity w) (He : node w i = Some e) (Hf : free e = false).
Hypothesis (Hj : 0 ≤ j < hash_size w).

Lemma hashing_node v b i' : 0 ≤ i' → node (put_node (put_slot w j v) i (with_hashed b e)) i' =
  if decide (i' = i) then Some (with_hashed b e) else node w i'.
Proof using Hl Hi. intros H0. by rewrite (node_put (put_slot w j v) fl) by (done || by apply list_put_slot). Qed.
Lemma hashing_slot v b j' : 0 ≤ j' → slot (put_node (put_slot w j v) i (with_hashed b e)) j' = if decide (j' = j) then Some v else slot w j'.
Proof using Hh Hj. intros H0. rewrite <-slot_put by done. done. Qed.
Lemma hashing_list v b : list_ok (put_node (put_slot w j v) i (with_hashed b e)) fl ∧
  ∀ j' k, uses (put_node (put_slot w j v) i (with_hashed b e)) j' k ↔ uses w j' k.
Proof using Hl Hi He Hf. destruct (rehash_list (put_slot w j v) fl i e b) as [? ?]; try done. by apply list_put_slot. Qed.

Lemma slot_named st : hash_at st w → st ≠ Some j → slot w j = Some i → ∀ j' i', 0 ≤ j' < hash_size w → st ≠ Some j' → j' ≠ j →
  slot w j' = Some i' → i' ≠ NIL_WSE → i' ≠ i.
Proof using Hj. intros Ha Hst Hs j' i' Hj' Hst' Hd Hs' Hn ->. apply Hd. by apply (ho_once _ _ Ha j' j i). Qed.
(** Any slot that names a hashed entry can be cleared when the entry is no longer hashed:
    if it is the stale one, the other becomes stale. *)
Lemma unhash_at st : hash_at st w → hashed e = true → slot w j = Some i →
  hash_ok (put_node (put_slot w j NIL_WSE) i (with_hashed false e)).
Proof using All.
  intros Ha Hhe Hs. assert (i ≠ NIL_WSE) as Hnil by (pose proof (lo_cap _ _ Hl); lia). pose proof Ha as [Hlen Hsl Hon Hha Hsh Hst].
  destruct (Hha i e Hi He Hhe) as (j1 & Hj1 & Hst1 & _ & Hs1).
  assert (∃ st', (∀ j', 0 ≤ j' < hash_size w → st' ≠ Some j' → j' ≠ j → st ≠ Some j' ∧ (slot w j' ≠ Some i)) ∧
    (∀ j', st ≠ Some j' → slot w j' ≠ Some i → st' ≠ Some j') ∧ (∀ j', st' = Some j' → j' ≠ j ∧ 0 ≤ j' < hash_size w ∧
      ∃ i', 0 ≤ i' < capacity w ∧ slot w j' = Some i')) as (st' & Hold & Hnew & Hstale).
  { destruct (decide (st = Some j)) as [->|Hne].
    - exists (Some j1). split_and!.
      + intros j' Hj' Hn Hd. split; [congruence|]. intros Hs'. apply Hn. f_equal. apply (Hon j1 j' i); try done. congruence.
      + intros j' Hn Hs' [= ->]. congruence.
      + intros j' [= <-]. split; [congruence|]. eauto.
    - exists st. split_and!; [|done|].
      + intros j' Hj' Hn Hd. split; [done|]. intros Hs'. by apply (slot_named st Ha Hne Hs j' i Hj').
      + intros j' Hj'. split; [congruence|]. by apply Hst. }
  exists st'. split.
  - simpl. by rewrite length_insert.
  - intros j' i' Hj' Hn' Hs' Hn. change (0 ≤ j' < hash_size w) in Hj'. rewrite hashing_slot in Hs' by lia. case_decide as Hd; [congruence|].
    destruct (Hold j' Hj' Hn' Hd) as [Ho Hni].
    destruct (Hsl j' i' Hj' Ho Hs' Hn) as (e' & ? & ? & ? & ? & ?). exists e'. rewrite hashing_node by lia. rewrite decide_False by congruence. done.
  - intros ja jb i' H1 H2 Hn1 Hn2 Hsa Hsb Hn. change (0 ≤ ja < hash_size w) in H1. change (0 ≤ jb < hash_size w) in H2.
    rewrite hashing_slot in Hsa, Hsb by lia. repeat case_decide; try congruence. by apply (Hon ja jb i'); try done; apply Hold.
  - intros i' e' Hi' He' Hh'. change (0 ≤ i' < capacity w) in Hi'. rewrite hashing_node in He' by lia. case_decide as Hd.
    { injection He' as <-. done. }
    destruct (Hha i' e' Hi' He' Hh') as (j' & Hj' & Hn' & Hp & Hs'). exists j'. rewrite hashing_slot by lia. rewrite decide_False by congruence.
    split; [done|]. split; [apply Hnew; [done|congruence]|done].
  - intros i' e' Hi' He' Hh'. change (0 ≤ i' < capacity w) in Hi'. rewrite hashing_node in He' by lia. case_decide as Hd; [by injection He' as <-|by apply (Hsh i')].
  - intros j' (Hd & Hj' & i' & Hi' & Hs')%Hstale. split; [done|]. exists i'. rewrite hashing_slot by lia. by rewrite decide_False.
Qed.
Lemma enhash_ok : hashed e = false → shared e = true → slot w j = Some NIL_WSE → j ∈ probes_of w (vpfn e) →
  hash_ok (put_node (put_slot w j i) i (with_hashed true e)).
Proof using All.
  intros Hnh Hse Hs Hp. assert (i ≠ NIL_WSE) as Hnil by (pose proof (lo_cap _ _ Hl); lia). destruct Hh as [st Ha]. pose proof Ha as [Hlen Hsl Hon Hha Hsh Hst].
  assert (∀ j' i', 0 ≤ j' < hash_size w → st ≠ Some j' → slot w j' = Some i' → i' ≠ NIL_WSE → i' ≠ i) as Hne.
  { intros j' i' Hj' Hn' Hs' Hn ->. destruct (Hsl j' i Hj' Hn' Hs' Hn) as (e' & _ & He' & _ & Ht & _). congruence. }
  assert (st ≠ Some j) as Hsj.
  { intros ->. destruct (Hst j eq_refl) as (_ & i' & ? & Hs'). pose proof (lo_cap _ _ Hl). assert (i' = NIL_WSE) by congruence. lia. }
  exists st. split.
  - simpl. by rewrite length_insert.
  - intros j' i' Hj' Hn' Hs' Hn. change (0 ≤ j' < hash_size w) in Hj'. rewrite hashing_slot in Hs' by lia. case_decide as Hd.
    + injection Hs' as <-. exists (with_hashed true e). rewrite hashing_node by lia. rewrite decide_True by done. subst j'. done.
    + destruct (Hsl j' i' Hj' Hn' Hs' Hn) as (e' & ? & ? & ? & ? & ?). exists e'. rewrite hashing_node by lia. rewrite decide_False by (by eapply Hne). done.
  - intros j1 j2 i' H1 H2 Hn1 Hn2 Hs1 Hs2 Hn. change (0 ≤ j1 < hash_size w) in H1. change (0 ≤ j2 < hash_size w) in H2.
    rewrite hashing_slot in Hs1 by lia. rewrite hashing_slot in Hs2 by lia.
    destruct (decide (j1 = j)), (decide (j2 = j)); [congruence| | |by apply (Hon j1 j2 i')]; exfalso.
    + by apply (Hne j2 i' H2 Hn2 Hs2 Hn); injection Hs1.
    + by apply (Hne j1 i' H1 Hn1 Hs1 Hn); injection Hs2.
  - intros i' e' Hi' He' Hh'. change (0 ≤ i' < capacity w) in Hi'. rewrite hashing_node in He' by lia. case_decide as Hd.
    + injection He' as <-. exists j. rewrite hashing_slot by lia. rewrite decide_True by done. subst i'. done.
    + destruct (Hha i' e' Hi' He' Hh') as (j' & Hj' & Hn' & Hp' & Hs'). exists j'. rewrite hashing_slot by lia. rewrite decide_False; [done|].
      intros ->. pose proof (lo_cap _ _ Hl). assert (i' = NIL_WSE) by congruence. lia.
  - intros i' e' Hi' He' Hh'. change (0 ≤ i' < capacity w) in Hi'. rewrite hashing_node in He' by lia. case_decide as Hd; [by injection He' as <-|by apply (Hsh i')].
  - intros j' Hj'. destruct (Hst j' Hj') as (Hr & i' & Hi' & Hs'). split; [done|]. exists i'. rewrite hashing_slot by lia. rewrite decide_False by congruence. done.
Qed.
End hashing.

(** ** Look-up for removal *)

Definition unhashed (w : vmp_wsl) (j i : Z) (e : wse) : vmp_wsl := put_node (put_slot w j NIL_WSE) i (with_hashed false e).
(** Same entries in use, same free list; only the hash table may differ. *)
Record rehashed (w w' : vmp_wsl) : Prop := Rehashed {
  rh_uses : ∀ i k, uses w' i k ↔ uses w i k;
  rh_size : size w' = size w;
  rh_limit : limit w' = limit w;
  rh_capacity : capacity w' = capacity w;
  rh_head : head w' = head w
}.
Lemma rehashed_refl w : rehashed w w.
Proof. by split. Qed.
Lemma unhashed_ok w fl j i k e : list_ok w fl → hash_ok w → 0 ≤ j < hash_size w → slot w j = Some i → uses w i k → node w i = Some e → hashed e = true →
  list_ok (unhashed w j i e) fl ∧ hash_ok (unhashed w j i e) ∧ rehashed w (unhashed w j i e) ∧ node (unhashed w j i e) i = Some (with_hashed false e).
Proof.
  intros Hl Hh Hj Hs (e' & Hi & He' & Hf & Hk) He Hhe. rewrite He in He'. injection He' as <-. destruct Hh as [st Ha].
  destruct (hashing_list w fl i j e Hl Hi He Hf NIL_WSE false) as [Hl' Hu]. split_and!; [done|eapply unhash_at; try done; by eexists|by split|].
  unfold unhashed. rewrite (hashing_node w fl) by (done || lia). by rewrite decide_True.
Qed.

(** What probing for [k] finds: an entry that has this page, is in use and is hashed. *)
Definition finds (w : vmp_wsl) (k : Z) (js : list Z) : Prop :=
  ∀ j i e, j ∈ js → slot w j = Some i → node w i = Some e → vpfn e = k → free e = false ∧ hashed e = true.
Lemma hash_probe_delete w pg fl n h k : list_ok w fl → hash_ok w → 0 ≤ h < hash_size w → finds w k (probes n h (hash_size w)) →
  wp (hash_probe n h k true) (λ r s', match r with
    | Some i => ∃ j e, 0 ≤ j < hash_size w ∧ slot w j = Some i ∧ uses w i k ∧ node w i = Some e ∧ hashed e = true ∧ s' = Wst (unhashed w j i e) pg
    | None => s' = Wst w pg ∧ ∀ j i, j ∈ probes n h (hash_size w) → slot w j = Some i → i ≠ NIL_WSE → ∀ e, node w i = Some e → vpfn e ≠ k
    end) (Wst w pg).
Proof.
  intros Hl Hh. revert h. induction n as [|n IH]; intros h Hr Hfi; simpl.
  { rewrite wp_ret. split; [done|]. intros j i Hj. by apply elem_of_nil in Hj. }
  destruct (slot_some w h Hh Hr) as [i Hi]. rewrite wp_bind, wp_get, wp_bind, wp_slot_at. exists i. split; [done|]. rewrite wp_bind.
  assert (0 ≤ (h + 1) mod hash_size w < hash_size w) as Hr' by (apply Z.mod_pos_bound; lia).
  assert (finds w k (probes n ((h + 1) mod hash_size w) (hash_size w))) as Hfi'.
  { intros j i' e' Hj. apply (Hfi j). simpl. by right. }
  destruct (Z.eqb_spec i NIL_WSE) as [Hnil|Hnil].
  - rewrite wp_ret. simpl. eapply wp_mono; [by apply IH|]. intros r s' Hres. destruct r as [i'|]; [done|]. destruct Hres as [-> Hres]. split; [done|].
    intros j i' Hj Hs Hn. apply elem_of_cons in Hj as [->|Hj]; [congruence|]. by apply (Hres j).
  - pose proof (slot_range w h i Hh Hr Hi Hnil) as Hic. destruct (node_some w fl i Hl Hic) as [e He].
    rewrite wp_bind, wp_node_at. exists e. split; [done|]. rewrite wp_ret. destruct (Z.eqb_spec (vpfn e) k) as [Hk|Hk].
    + destruct (Hfi h i e) as [Hfr Hha]; [simpl; by left|done|done|done|].
      rewrite wp_bind. unfold when. rewrite wp_bind, wp_node_at. exists e. split; [done|]. rewrite wp_bind, wp_kassert. split; [done|].
      rewrite wp_bind, wp_slot_set. exists i. split; [done|]. rewrite wp_node_upd. exists e. split; [done|]. rewrite wp_ret.
      exists h, e. split_and!; try done; [lia|lia|by exists e].
    + eapply wp_mono; [by apply IH|]. intros r s' Hres. destruct r as [i'|]; [done|]. destruct Hres as [-> Hres]. split; [done|].
      intros j i' Hj Hs Hn e' He'. apply elem_of_cons in Hj as [->|Hj]; [congruence|]. by eapply (Hres j).
Qed.

Lemma hash_lookup_delete w pg fl k : list_ok w fl → hash_ok w → resident w k → finds w k (probes_of w k) →
  wp (hash_lookup k true) (λ r s', ∃ i w' e, r = Some i ∧ uses w i k ∧ s' = Wst w' pg ∧ list_ok w' fl ∧ hash_ok w' ∧ rehashed w w' ∧
    node w' i = Some e ∧ hashed e = false) (Wst w pg).
Proof.
  intros Hl Hh Hres0 Hfi. unfold hash_lookup. rewrite wp_bind, wp_get, wp_bind.
  eapply wp_mono; [apply (hash_probe_delete w pg fl _ _ k Hl Hh); [apply vpfn_hash_range, (hash_len _ Hh)|done]|]. intros [i|] s'.
  { intros (j & e & Hj & Hs & Hu & He & Hhe & ->). rewrite wp_ret. destruct (unhashed_ok w fl j i k e) as (? & ? & ? & ?); try done. eauto 12. }
  intros [-> Hres].
  assert (∀ i e, uses w i k → node w i = Some e → hashed e = false) as Hnh.
  { intros i e (e' & Hi & He' & Hf & Hk) He. rewrite He in He'. injection He' as <-. destruct (hashed e) eqn:E; [|done]. exfalso.
    destruct Hh as [st Ha]. destruct (ho_hashed _ _ Ha i e Hi He E) as (j & Hj & _ & Hjp & Hs). eapply (Hres j i); try done; [by rewrite <-Hk|].
    intros ->. pose proof (lo_cap _ _ Hl). lia. }
  eapply wp_mono; [apply (linear_lookup_find w pg fl); [done|done|pose proof (lo_cap _ _ Hl); simpl; lia|done|]|].
  - intros i (e & Hi & _). lia.
  - intros [i|] s' [-> Hr]; [|done]. pose proof Hr as (e & _ & He & _). exists i, w, e. split_and!; try done. by eapply Hnh.
Qed.

(** ** The free list *)

Lemma free_unhashed w i e : hash_ok w → 0 ≤ i < capacity w → i ≠ NIL_WSE → node w i = Some e → free e = true → hashed e = false.
Proof.
  intros [st Hh] Hi Hn He Hf. destruct (hashed e) eqn:E; [|done]. destruct (ho_hashed _ _ Hh i e Hi He E) as (j & Hj & Hst & _ & Hs).
  destruct (ho_slot _ _ Hh j i Hj Hst Hs Hn) as (e' & _ & He' & Hf' & _). congruence.
Qed.

Definition freed (w : vmp_wsl) (i : Z) (e : wse) : vmp_wsl :=
  set_size (u64 (size w - 1)) (set_freelist i (put_node w i (with_vpfn (freelist w) (with_free true e)))).
Lemma freed_node w fl i e j : list_ok w fl → 0 ≤ i < capacity w → 0 ≤ j →
  node (freed w i e) j = if decide (j = i) then Some (with_vpfn (freelist w) (with_free true e)) else node w j.
Proof. apply node_put. Qed.
Lemma freed_uses w fl i e j k : list_ok w fl → 0 ≤ i < capacity w → uses (freed w i e) j k ↔ uses w j k ∧ j ≠ i.
Proof.
  intros Hl Hi. unfold uses. split.
  - intros (e' & Hj & He' & Hf & Hk). rewrite (freed_node w fl) in He' by (done || lia). case_decide; [injection He' as <-; done|]. eauto 6.
  - intros [(e' & Hj & He' & Hf & Hk) Hn]. exists e'. rewrite (freed_node w fl) by (done || lia). by rewrite decide_False.
Qed.
Lemma used_pos w fl i k : list_ok w fl → uses w i k → 1 ≤ size w.
Proof.
  intros Hl (e & Hi & He & Hf & _). pose proof (lo_size _ _ Hl) as Hsz. pose proof (lo_limit _ _ Hl).
  assert (NoDup (i :: fl)) as Hnd.
  { apply NoDup_cons. split; [|apply Hl]. intros Hin. apply (lo_free _ _ Hl) in Hin as (_ & e' & ? & ?). congruence. }
  assert ((i :: fl) ⊆ seqZ 0 (capacity w)) as Hsub.
  { intros x Hx. apply elem_of_seqZ. apply elem_of_cons in Hx as [->|Hx]; [lia|]. apply (fl_pos _ _ _ Hl) in Hx. lia. }
  pose proof (submseteq_length _ _ (NoDup_submseteq _ _ Hnd Hsub)) as Hle. rewrite length_seqZ in Hle. simpl in Hle. lia.
Qed.
Lemma freed_ok w fl i k e : list_ok w fl → hash_ok w → uses w i k → node w i = Some e → hashed e = false →
  list_ok (freed w i e) (i :: fl) ∧ hash_ok (freed w i e) ∧ size (freed w i e) = size w - 1.
Proof.
  intros Hl Hh Hu He Hnh. pose proof (used_pos _ _ _ _ Hl Hu) as Hsz. destruct Hu as (e' & Hi & He' & Hf & Hk). rewrite He in He'. injection He' as <-.
  pose proof (lo_cap _ _ Hl) as Hcap. pose proof (lo_limit _ _ Hl) as Hlim.
  assert (i ∉ fl) as Hni by (intros Hin; apply (lo_free _ _ Hl) in Hin as (_ & e' & ? & ?); congruence).
  assert (size (freed w i e) = size w - 1) as Hsize by (simpl; unfold NIL_WSE in *; apply Z.mod_small; lia). split_and!; [| |done].
  - split.
    + simpl. rewrite length_insert. apply Hl.
    + done.
    + simpl. split; [done|]. exists (with_vpfn (freelist w) (with_free true e)). split.
      * rewrite (freed_node w fl) by (done || lia). by rewrite decide_True.
      * simpl. apply (chain_same (put_node w i (with_vpfn (freelist w) (with_free true e)))); [done|].
        apply (chain_put w fl); [done|done|done| |apply Hl]. intros j Hj. apply (fl_pos _ _ _ Hl) in Hj. lia.
    + apply NoDup_cons. split; [done|apply Hl].
    + intros j. rewrite elem_of_cons, (lo_free _ _ Hl). change (capacity (freed w i e)) with (capacity w). split.
      * intros [->|[Hj (e' & He' & Hf')]]; (split; [done|]).
        { exists (with_vpfn (freelist w) (with_free true e)). rewrite (freed_node w fl) by (done || lia). by rewrite decide_True. }
        exists e'. rewrite (freed_node w fl) by (done || lia). rewrite decide_False by congruence. done.
      * intros [Hj (e' & He' & Hf')]. rewrite (freed_node w fl) in He' by (done || lia). case_decide; [by left|right; eauto].
    + rewrite Hsize. simpl. pose proof (lo_size _ _ Hl). lia.
    + rewrite Hsize. simpl. lia.
    + exact (lo_head _ _ Hl).
    + intros a b x Ha Hb. apply (freed_uses w fl) in Ha as [Ha _]; [|done..]. apply (freed_uses w fl) in Hb as [Hb _]; [|done..].
      by apply (lo_once _ _ Hl a b x).
  - destruct Hh as [st [Hlen Hsl Hon Hha Hsh Hst]]. exists st. split; [done| |done| | |done].
    + intros j i' Hj Hn' Hs Hn. destruct (Hsl j i' Hj Hn' Hs Hn) as (e' & ? & He' & ? & ? & ?). exists e'. rewrite (freed_node w fl) by (done || lia).
      rewrite decide_False by congruence. done.
    + intros i' e' Hi' He' Hh'. change (0 ≤ i' < capacity w) in Hi'. rewrite (freed_node w fl) in He' by (done || lia).
      case_decide; [injection He' as <-; simpl in Hh'; congruence|]. by apply Hha.
    + intros i' e' Hi' He' Hh'. change (0 ≤ i' < capacity w) in Hi'. rewrite (freed_node w fl) in He' by (done || lia).
      case_decide; [injection He' as <-; simpl in Hh'; congruence|]. by apply (Hsh i').
Qed.

(** An entry, no longer hashed, goes to the free list, and the page is no longer resident. *)
Lemma put_free_ok w pg fl i k e : list_ok w fl → hash_ok w → uses w i k → node w i = Some e → hashed e = false →
  wp (put_free i) (λ _ s', s' = Wst (freed w i e) pg) (Wst w pg).
Proof.
  intros Hl Hh Hu He Hnh. unfold put_free. rewrite wp_bind, wp_get, wp_bind, wp_node_upd. exists e. split; [done|].
  rewrite wp_bind, wp_wsl_upd, wp_wsl_upd. done.
Qed.
Lemma freed_resident w fl i k e x : list_ok w fl → uses w i k → resident (freed w i e) x ↔ resident w x ∧ x ≠ k.
Proof.
  intros Hl Hu. assert (0 ≤ i < capacity w) as Hi by (by destruct Hu as (? & ? & _)). split.
  - intros [j Hj]. apply (freed_uses w fl) in Hj as [Hj Hn]; [|done..]. split; [by exists j|]. intros ->. apply Hn. by apply (lo_once _ _ Hl j i k).
  - intros [[j Hj] Hn]. exists j. apply (freed_uses w fl); [done..|]. split; [done|]. intros ->.
    destruct Hu as (? & _ & ? & _ & ?), Hj as (? & _ & ? & _ & ?). congruence.
Qed.

(** The state after the entry [i] at the head of the free list is taken for page [k]. *)
Definition taken_for (w : vmp_wsl) (lim i k : Z) (sh : bool) (e : wse) : vmp_wsl :=
  put_node (set_freelist (u32 (vpfn e)) (set_size (size w + 1) (set_limit lim w))) i (Wse k (hashed e) sh false).
Lemma taken_list w fl i k lim sh e : list_ok w (i :: fl) → node w i = Some e → ¬ resident w k → size w < lim ≤ capacity w →
  list_ok (taken_for w lim i k sh e) fl ∧ ∀ j x, uses (taken_for w lim i k sh e) j x ↔ uses w j x ∨ j = i ∧ x = k.
Proof.
  intros Hl He Hk Hlim. assert (0 ≤ i < capacity w) as Hi by (apply (fl_pos w (i :: fl)); [done|set_solver]).
  pose proof (lo_cap _ _ Hl) as Hcap. pose proof (lo_limit _ _ Hl) as Hlim0. pose proof (lo_size _ _ Hl) as Hsz. pose proof (lo_nodup _ _ Hl) as Hnd. apply NoDup_cons in Hnd as [Hni Hnd].
  assert (free e = true) as Hf.
  { assert (i ∈ i :: fl) as Hin by set_solver. apply (lo_free _ _ Hl) in Hin as (_ & e' & ? & ?). congruence. }
  set (w' := taken_for w lim i k sh e).
  assert (∀ j, 0 ≤ j → node w' j = if decide (j = i) then Some (Wse k (hashed e) sh false) else node w j) as Hnode.
  { intros j Hj. exact (node_put w (i :: fl) i _ j Hl Hi Hj). }
  assert (∀ j x, uses w' j x ↔ uses w j x ∨ j = i ∧ x = k) as Hu.
  { intros j x. unfold uses. change (capacity w') with (capacity w). split.
    - intros (e' & Hj & He' & Hf' & Hx). rewrite Hnode in He' by lia. case_decide; [injection He' as <-; auto|left; eauto 6].
    - intros [(e' & Hj & He' & Hf' & Hx)|[-> ->]].
      + exists e'. rewrite Hnode by lia. rewrite decide_False by congruence. done.
      + exists (Wse k (hashed e) sh false). rewrite Hnode by lia. by rewrite decide_True. }
  split; [|done]. pose proof (lo_chain _ _ Hl) as Hc. simpl in Hc. destruct Hc as (_ & e' & He' & Hc). rewrite He in He'. injection He' as <-.
  split; try done.
  - simpl. rewrite length_insert. apply Hl.
  - simpl. assert (u32 (vpfn e) = vpfn e) as ->.
    { apply Z.mod_small. destruct fl as [|j fl]; simpl in Hc; [rewrite Hc; done|]. destruct Hc as [-> _].
      assert (0 ≤ j < capacity w) by (apply (fl_pos w (i :: j :: fl)); [done|set_solver]). unfold NIL_WSE in *. lia. }
    apply (chain_same (put_node w i (Wse k (hashed e) sh false))); [done|]. apply (chain_put w (i :: fl)); [done|done|done| |done].
    intros j Hj. assert (0 ≤ j < capacity w) by (apply (fl_pos w (i :: fl)); [done|set_solver]). lia.
  - intros j. change (capacity w') with (capacity w). transitivity (j ∈ i :: fl ∧ j ≠ i); [set_solver|]. rewrite (lo_free _ _ Hl). split.
    + intros [[Hj (e' & He' & Hf')] Hne]. split; [done|]. exists e'. rewrite Hnode by lia. by rewrite decide_False.
    + intros [Hj (e' & He' & Hf')]. rewrite Hnode in He' by lia. case_decide; [injection He' as <-; done|]. split_and!; try done; eauto; lia.
  - simpl in *. lia.
  - simpl. lia.
  - exact (lo_head _ _ Hl).
  - intros a b x. rewrite !Hu. intros [Ha|[-> ->]] [Hb|[-> Hx]]; [by apply (lo_once _ _ Hl a b x)|subst x|..|done]; exfalso; apply Hk; by eexists.
Qed.
Lemma taken_hash w fl i k lim sh e : list_ok w (i :: fl) → hash_ok w → node w i = Some e →
  hash_ok (taken_for w lim i k sh e).
Proof.
  intros Hl Hh He. assert (i ∈ i :: fl) as Hin by set_solver. apply (lo_free _ _ Hl) in Hin as (Hi & e' & He' & Hf). rewrite He in He'. injection He' as <-.
  pose proof (lo_cap _ _ Hl). assert (hashed e = false) as Hnh by (eapply free_unhashed; try done; lia).
  assert (∀ j, 0 ≤ j → node (taken_for w lim i k sh e) j = if decide (j = i) then Some (Wse k (hashed e) sh false) else node w j) as Hnode.
  { intros j Hj. exact (node_put w (i :: fl) i _ j Hl Hi Hj). }
  destruct Hh as [st [Hlen Hsl Hon Hha Hsh Hst]]. exists st. split; [done| |done| | |done].
  - intros j i' Hj Hn' Hs Hn. destruct (Hsl j i' Hj Hn' Hs Hn) as (e' & ? & He' & ? & ? & ?). exists e'. rewrite Hnode by lia.
    rewrite decide_False by congruence. done.
  - intros i' e' Hi' He' Hh'. change (0 ≤ i' < capacity w) in Hi'. rewrite Hnode in He' by lia. case_decide; [injection He' as <-; simpl in Hh'; congruence|]. by apply Hha.
  - intros i' e' Hi' He' Hh'. change (0 ≤ i' < capacity w) in Hi'. rewrite Hnode in He' by lia. case_decide; [injection He' as <-; simpl in Hh'; congruence|]. by apply (Hsh i').
Qed.
