(* ===== verification/WslOps.v ===== *)
(** Working set lists: what insertion with and without eviction, removal and trimming do. *)
From S2P Require Import Prelude Pte Resident Tables PageAlloc Walk Wsl WslProofs.
Import Resident Wsl.
Local Open Scope Z_scope.

(** ** Hashing an entry, and taking it out *)

Lemma probes_next n h hs : probes (S n) h hs = h :: probes n ((h + 1) mod hs) hs.
Proof. done. Qed.

Lemma hash_insert_at_ok w pg fl n h i k e : list_ok w fl → hash_ok w → uses w i k → node w i = Some e → hashed e = false → shared e = true →
  0 ≤ h < hash_size w → probes n h (hash_size w) ⊆ probes_of w k →
  wp (hash_insert_at n h i) (λ _ s', ∃ w', s' = Wst w' pg ∧ list_ok w' fl ∧ hash_ok w' ∧ rehashed w w') (Wst w pg).
Proof.
  intros Hl Hh Hu He Hnh Hsh. pose proof Hu as (e' & Hi & He' & Hf & Hk). rewrite He in He'. injection He' as <-.
  revert h. induction n as [|n IH]; intros h Hr Hsub; simpl.
  - rewrite wp_node_upd. exists e. split; [done|]. exists w. split_and!; [|done|done|by apply rehashed_refl].
    unfold set_wsl, set_nodes. simpl. rewrite list_insert_id; [by destruct w|]. etrans; [exact He|]. f_equal. unfold with_hashed. rewrite <-Hnh. by destruct e.
  - destruct (slot_some w h Hh Hr) as [v Hv]. rewrite wp_bind, wp_slot_at. exists v. split; [done|]. destruct (Z.eqb_spec v NIL_WSE) as [->|Hne].
    + rewrite wp_bind, wp_slot_set. exists NIL_WSE. split; [done|]. rewrite wp_node_upd. exists e. split; [done|].
      exists (put_node (put_slot w h i) i (with_hashed true e)). destruct (hashing_list w fl i h e Hl Hi He Hf i true) as [Hl' Hu'].
      split_and!; [done|done| |by split]. eapply enhash_ok; try done. rewrite Hk. apply Hsub. rewrite probes_next. set_solver.
    + rewrite wp_bind, wp_get. apply IH; [apply Z.mod_pos_bound; lia|]. intros x Hx. apply Hsub. rewrite probes_next. set_solver.
Qed.
Lemma hash_insert_ok w pg fl i k e : list_ok w fl → hash_ok w → uses w i k → node w i = Some e → hashed e = false → shared e = true →
  wp (hash_insert i) (λ _ s', ∃ w', s' = Wst w' pg ∧ list_ok w' fl ∧ hash_ok w' ∧ rehashed w w') (Wst w pg).
Proof.
  intros Hl Hh Hu He Hnh Hsh. unfold hash_insert. rewrite wp_bind, wp_get, wp_bind, wp_node_at. exists e. split; [done|].
  pose proof Hu as (e' & Hi & He' & Hf & Hk). rewrite He in He'. injection He' as <-.
  eapply hash_insert_at_ok; try done; [apply vpfn_hash_range, (hash_len _ Hh)|]. by rewrite <-Hk.
Qed.

Lemma hash_remove_at_ok w pg n h i e : hash_ok w → node w i = Some e → 0 ≤ h < hash_size w →
  (∃ j, j ∈ probes n h (hash_size w) ∧ slot w j = Some i) →
  wp (hash_remove_at n h i) (λ _ s', ∃ j, 0 ≤ j < hash_size w ∧ slot w j = Some i ∧ s' = Wst (unhashed w j i e) pg) (Wst w pg).
Proof.
  intros Hh He. revert h. induction n as [|n IH]; intros h Hr (j & Hj & Hs); [by apply elem_of_nil in Hj|]. simpl.
  rewrite wp_bind, wp_get. destruct (slot_some w h Hh Hr) as [v Hv]. rewrite wp_bind, wp_slot_at. exists v. split; [done|].
  destruct (Z.eqb_spec v i) as [->|Hne].
  - rewrite wp_bind, wp_slot_set. exists i. split; [done|]. rewrite wp_node_upd. exists e. split; [done|]. by exists h.
  - apply IH; [apply Z.mod_pos_bound; lia|]. rewrite probes_next in Hj. apply elem_of_cons in Hj as [->|Hj]; [congruence|eauto].
Qed.
(** What eviction does to the hash table. *)
Lemma unhash_entry w pg fl i k e : list_ok w fl → hash_ok w → uses w i k → node w i = Some e →
  wp (when (shared e && hashed e) (hash_remove i)) (λ _ s', ∃ w', s' = Wst w' pg ∧ list_ok w' fl ∧ hash_ok w' ∧ rehashed w w' ∧
    node w' i = Some (with_hashed false e)) (Wst w pg).
Proof.
  intros Hl Hh Hu He. pose proof Hu as (e' & Hi & He' & Hf & Hk). rewrite He in He'. injection He' as <-. destruct (hashed e) eqn:Hha.
  - pose proof Hh as [st Ha]. rewrite (ho_shared _ _ Ha i e Hi He Hha). simpl. unfold hash_remove. rewrite wp_bind, wp_get, wp_bind, wp_node_at. exists e. split; [done|].
    destruct (ho_hashed _ _ Ha i e Hi He Hha) as (j0 & _ & _ & Hp & Hs0).
    eapply wp_mono; [apply hash_remove_at_ok; [done|done|apply vpfn_hash_range, (hash_len _ Hh)|by exists j0]|].
    intros _ s' (j & Hj & Hs & ->). destruct (unhashed_ok w fl j i k e) as (? & ? & ? & ?); eauto 8.
  - rewrite andb_false_r. simpl. rewrite wp_ret. exists w. split_and!; try done. rewrite He. f_equal. unfold with_hashed. rewrite <-Hha. by destruct e.
Qed.

(** ** The next entry in use *)

Lemma next_used_ok w pg fl n it : list_ok w fl → 0 ≤ it < capacity w →
  (∃ d i k, 0 ≤ d < Z.of_nat n ∧ uses w i k ∧ i = (it + d) mod capacity w) →
  wp (next_used n it) (λ i s', s' = Wst w pg ∧ ∃ k, uses w i k) (Wst w pg).
Proof.
  intros Hl. revert it. induction n as [|n IH]; intros it Hit (d & i & k & Hd & Hu & Hi); simpl; [lia|].
  rewrite wp_bind, wp_get, wp_bind, wp_node_at. destruct (node_some w fl it Hl Hit) as [e He]. exists e. split; [done|].
  destruct (free e) eqn:Hf; [|rewrite wp_ret; split; [done|]; exists (vpfn e); by exists e].
  pose proof (lo_cap _ _ Hl). apply IH; [apply Z.mod_pos_bound; simpl; lia|]. exists (d - 1), i, k. simpl. split; [|split; [done|]].
  - destruct (decide (d = 0)) as [->|]; [|lia]. rewrite Z.add_0_r, Z.mod_small in Hi by done. subst i. destruct Hu as (e' & _ & He' & Hf' & _). congruence.
  - rewrite Zplus_mod_idemp_l. rewrite Hi. f_equal. lia.
Qed.
(** A full round finds one. *)
Lemma next_used_head w pg fl i k : list_ok w fl → uses w i k →
  wp (next_used (Z.to_nat (capacity w)) (head w)) (λ i s', s' = Wst w pg ∧ ∃ k, uses w i k) (Wst w pg).
Proof.
  intros Hl Hu. pose proof (lo_cap _ _ Hl). pose proof Hu as (_ & Hi & _). eapply next_used_ok; [done|apply (lo_head _ _ Hl)|].
  exists ((i - head w) mod capacity w), i, k. pose proof (Z.mod_pos_bound (i - head w) (capacity w)). split_and!; [lia|lia|done|].
  rewrite Zplus_mod_idemp_r. replace (head w + (i - head w)) with i by lia. by rewrite Z.mod_small.
Qed.

(** ** Replacing the page of an entry *)

Lemma replaced_ok w fl i v k sh e : list_ok w fl → hash_ok w → uses w i v → node w i = Some e → hashed e = false → ¬ resident w k →
  let w' := put_node w i (Wse k false sh false) in
  list_ok w' fl ∧ hash_ok w' ∧ ∀ j x, uses w' j x ↔ uses w j x ∧ j ≠ i ∨ j = i ∧ x = k.
Proof.
  intros Hl Hh Hu He Hnh Hk w'. pose proof Hu as (e' & Hi & He' & Hf & Hv). rewrite He in He'. injection He' as <-.
  assert (∀ j, 0 ≤ j → node w' j = if decide (j = i) then Some (Wse k false sh false) else node w j) as Hnode.
  { intros j Hj. exact (node_put w fl i _ j Hl Hi Hj). }
  assert (i ∉ fl) as Hni by (intros Hin; apply (lo_free _ _ Hl) in Hin as (_ & e' & ? & ?); congruence).
  assert (∀ j x, uses w' j x ↔ uses w j x ∧ j ≠ i ∨ j = i ∧ x = k) as Hus.
  { intros j x. unfold uses. change (capacity w') with (capacity w). split.
    - intros (e' & Hj & He' & Hf' & Hx). rewrite Hnode in He' by lia. case_decide; [injection He' as <-; auto|left; eauto 8].
    - intros [[(e' & Hj & He' & Hf' & Hx) Hn]|[-> ->]].
      + exists e'. rewrite Hnode by lia. by rewrite decide_False.
      + exists (Wse k false sh false). rewrite Hnode by lia. by rewrite decide_True. }
  split_and!; [| |done].
  - pose proof Hl as [Hlen Hcap Hch Hnd Hfr Hsz Hlim Hhd Hon]. split; try done.
    + simpl. by rewrite length_insert.
    + simpl. apply (chain_put w fl); try done. intros j Hj. pose proof (fl_pos w fl j Hl Hj). lia.
    + intros j. change (capacity w') with (capacity w). rewrite Hfr. split; intros (Hj & e' & He' & Hf'); (split; [done|]).
      * exists e'. rewrite Hnode by lia. rewrite decide_False by congruence. done.
      * rewrite Hnode in He' by lia. case_decide; [by injection He' as <-|eauto].
    + intros a b x. rewrite !Hus. intros [[Ha ?]|[-> ->]] [[Hb ?]|[-> Hx]]; [by apply (Hon a b x)|subst x|..|done]; exfalso; apply Hk; by eexists.
  - destruct Hh as [st [Hlen Hsl Hon Hha Hsh Hst]]. exists st. split; [done| |done| | |done].
    + intros j i' Hj Hn' Hs Hn. destruct (Hsl j i' Hj Hn' Hs Hn) as (e' & ? & He' & ? & ? & ?). exists e'. rewrite Hnode by lia.
      rewrite decide_False by congruence. done.
    + intros i' e' Hi' He' Hh'. change (0 ≤ i' < capacity w) in Hi'. rewrite Hnode in He' by lia. case_decide; [by injection He' as <-|by apply Hha].
    + intros i' e' Hi' He' Hh'. change (0 ≤ i' < capacity w) in Hi'. rewrite Hnode in He' by lia. case_decide; [by injection He' as <-|by apply (Hsh i')].
Qed.

Lemma rehashed_resident w w' k : rehashed w w' → resident w' k ↔ resident w k.
Proof. intros Hr. unfold resident. by setoid_rewrite (rh_uses _ _ Hr). Qed.
Lemma list_set_head w fl x : list_ok w fl → list_ok (set_head (x mod capacity w) w) fl.
Proof. intros [? ? Hc ? ? ? ? ? ?]. split; try done; [by apply (chain_same w)|]. simpl. apply Z.mod_pos_bound. lia. Qed.
Lemma hash_set_head w x : hash_ok w → hash_ok (set_head x w).
Proof. intros [st []]. exists st. by split. Qed.

(** ** Eviction *)

Lemma in_pages_returns (m : kern pst ()) w pg : returns (in_pages m) (Wst w pg) = true → ∃ pg', ∀ w', in_pages m (Wst w' pg) = Ok ((), Wst w' pg').
Proof. unfold returns, in_pages, zoom. simpl. destruct (m pg) as [[[] pg']| |]; [by exists pg'|done..]. Qed.

Section evict.
Context `{PteFormat} (table : Z).

(** Evicting the page of [e] returns from the page state [pg], with [pg']. *)
Definition evicts (e : wse) (pg pg' : pst) : Prop := ∀ w, wse_evict table e (Wst w pg) = Ok ((), Wst w pg').
Lemma evict_returns e w pg : returns (wse_evict table e) (Wst w pg) = true → ∃ pg', evicts e pg pg'.
Proof. apply in_pages_returns. Qed.
Lemma wp_evicts e pg pg' (Q : () → wst → Prop) w : evicts e pg pg' → Q () (Wst w pg') → wp (wse_evict table e) Q (Wst w pg).
Proof. intros He HQ. apply wp_ok. exists (), (Wst w pg'). split; [apply He|done]. Qed.
(** Every page of the working set can be evicted. *)
Definition evictable (w : vmp_wsl) (pg : pst) : Prop := ∀ i v e, uses w i v → node w i = Some e → ∃ pg', evicts e pg pg'.

Lemma take_evicted_ok w pg fl i0 v0 : list_ok w fl → hash_ok w → uses w i0 v0 → evictable w pg →
  wp (take_evicted table) (λ i s', ∃ w' pg' v e, s' = Wst w' pg' ∧ uses w i v ∧ node w i = Some e ∧ evicts e pg pg' ∧
    list_ok w' fl ∧ hash_ok w' ∧ (∀ j x, uses w' j x ↔ uses w j x) ∧ size w' = size w ∧ node w' i = Some (with_hashed false e)) (Wst w pg).
Proof.
  intros Hl Hh Hu0 Hev. unfold take_evicted. rewrite wp_bind, wp_get, wp_bind, wp_kassert. pose proof (used_pos _ _ _ _ Hl Hu0). pose proof (lo_limit _ _ Hl).
  split; [apply negb_true_iff, Z.eqb_neq; simpl; lia|]. rewrite wp_bind. eapply wp_mono; [by eapply (next_used_head w pg)|].
  intros i s' [-> [v Hu]]. rewrite wp_bind, wp_wsl_upd, wp_bind, wp_node_at. pose proof Hu as (e & _ & He & _). exists e. split; [done|].
  destruct (Hev i v e Hu He) as [pg' Hpg]. rewrite wp_bind. eapply wp_evicts; [done|]. rewrite wp_bind.
  eapply wp_mono; [apply (unhash_entry _ pg' fl i v e); [by apply list_set_head|by apply hash_set_head|done|done]|].
  intros _ s' (w' & -> & Hl' & Hh' & Hr & He'). rewrite wp_ret. exists w', pg', v, e. split_and!; try done; [apply (rh_uses _ _ Hr)|by rewrite (rh_size _ _ Hr)].
Qed.

(** ** Insertion *)

Lemma take_free_ok w pg fl : list_ok w fl → size w < limit w ∨ limit w ≠ capacity w →
  wp take_free (λ i s', ∃ fl' e lim, fl = i :: fl' ∧ node w i = Some e ∧ size w < lim ≤ capacity w ∧
    s' = Wst (set_freelist (u32 (vpfn e)) (put_node (set_size (size w + 1) (set_limit lim w)) i (with_free false e))) pg) (Wst w pg).
Proof.
  intros Hl Hlt. pose proof (lo_cap _ _ Hl) as Hcap. pose proof (lo_limit _ _ Hl) as Hlim. pose proof (lo_size _ _ Hl) as Hsz.
  unfold NIL_WSE in Hcap. assert (size w < capacity w) as Hroom by lia.
  set (lim := if size w =? limit w then Z.min (u64 (limit w + WS_EXPANSION_COUNT)) (capacity w) else limit w).
  assert (size w < lim ≤ capacity w) as Hl'.
  { unfold lim. destruct (Z.eqb_spec (size w) (limit w)); [|lia]. unfold WS_EXPANSION_COUNT. rewrite u64_small by lia. lia. }
  destruct fl as [|i fl']; [simpl in Hsz; lia|]. pose proof (lo_chain _ _ Hl) as Hc. simpl in Hc. destruct Hc as (Hfr & e & He & _).
  assert (0 ≤ i < capacity w) as Hi by (apply (fl_pos w (i :: fl')); [done|set_solver]).
  unfold take_free. rewrite wp_bind, wp_get, wp_bind.
  assert (wp (when (size w =? limit w) (when (limit w =? capacity w) ws_expand;;
     wsl_upd (λ w, set_limit (Z.min (u64 (limit w + WS_EXPANSION_COUNT)) (capacity w)) w))) (λ _ s', s' = Wst (set_limit lim w) pg) (Wst w pg)) as Hw.
  { unfold lim. rewrite wp_when. destruct (Z.eqb_spec (size w) (limit w)); [|by destruct w].
    rewrite wp_bind, wp_when, (proj2 (Z.eqb_neq (limit w) _)) by lia. done. }
  eapply wp_mono; [exact Hw|]. intros _ s' ->. rewrite wp_bind, wp_wsl_upd, wp_bind, wp_get. cbv zeta.
  rewrite wp_bind, wp_kassert. split; [apply negb_true_iff, Z.eqb_neq; simpl; rewrite Hfr; unfold NIL_WSE; lia|].
  simpl freelist. rewrite Hfr, wp_bind, wp_node_at. exists e. split; [done|]. rewrite wp_bind, wp_node_upd. exists e. split; [done|].
  rewrite wp_bind, wp_wsl_upd, wp_ret. exists fl', e, lim. split_and!; try done; [lia..|]. simpl. unfold put_node. simpl. rewrite u64_small by lia. done.
Qed.

(** The last steps of an insertion. *)
Lemma insert_done w pg fl i k sh : list_ok w fl → hash_ok w → uses w i k → node w i = Some (Wse k false sh false) →
  wp (when sh (hash_insert i);; mret 0) (λ r s', r = 0 ∧ ∃ w', s' = Wst w' pg ∧ list_ok w' fl ∧ hash_ok w' ∧ rehashed w w') (Wst w pg).
Proof.
  intros Hl Hh Hu He. rewrite wp_bind, wp_when. destruct sh.
  - eapply wp_mono; [by eapply hash_insert_ok|]. intros [] s' Hs'. rewrite wp_ret. by split.
  - rewrite wp_ret. split; [done|]. exists w. by split_and!; try apply rehashed_refl.
Qed.

Lemma insert_free_ok w pg fl k sh : list_ok w fl → hash_ok w → size w < limit w ∨ limit w ≠ capacity w → ¬ resident w k →
  wp (i ← take_free; node_upd i (λ e, with_shared sh (with_vpfn k e));; when sh (hash_insert i);; mret 0)
    (λ r s', r = 0 ∧ ∃ w' fl', s' = Wst w' pg ∧ list_ok w' fl' ∧ hash_ok w' ∧ size w' = size w + 1 ∧ ∀ x, resident w' x ↔ resident w x ∨ x = k) (Wst w pg).
Proof.
  intros Hl Hh Hlt Hk. rewrite wp_bind. eapply wp_mono; [by apply take_free_ok|]. intros i s' (fl' & e & lim & -> & He & Hlim & ->).
  assert (i ∈ i :: fl') as Hin by set_solver. apply (lo_free _ _ Hl) in Hin as (Hi & e' & He' & Hf). rewrite He in He'. injection He' as <-.
  pose proof (lo_cap _ _ Hl). assert (hashed e = false) as Hnh by (eapply free_unhashed; try done; lia).
  destruct (taken_list w fl' i k lim sh e Hl He Hk Hlim) as [Hl1 Hu1]. pose proof (taken_hash w fl' i k lim sh e Hl Hh He) as Hh1.
  rewrite wp_bind, wp_node_upd. exists (with_free false e). split.
  { pose proof (node_put w (i :: fl') i (with_free false e) i Hl Hi) as Hp. rewrite decide_True in Hp by done. apply Hp. lia. }
  match goal with |- wp _ _ ?s0 => assert (s0 = Wst (taken_for w lim i k sh e) pg) as -> end.
  { unfold set_wsl, taken_for, put_node, set_nodes. simpl. by rewrite list_insert_insert_eq. }
  eapply wp_mono; [eapply (insert_done _ pg fl' i k sh); [done|done|apply Hu1; by right|]|].
  { pose proof (node_put w (i :: fl') i (Wse k (hashed e) sh false) i Hl Hi) as Hp. rewrite decide_True in Hp by done. rewrite Hnh in Hp at 2. apply Hp. lia. }
  intros r s' (-> & w' & -> & Hl' & Hh' & Hr). split; [done|]. exists w', fl'. split_and!; try done; [by rewrite (rh_size _ _ Hr)|].
  intros x. rewrite (rehashed_resident _ _ x Hr). unfold resident. setoid_rewrite Hu1. naive_solver.
Qed.

Lemma insert_evict_ok w pg fl k sh i0 v0 : list_ok w fl → hash_ok w → uses w i0 v0 → evictable w pg → ¬ resident w k →
  wp (i ← take_evicted table; node_upd i (λ e, with_shared sh (with_vpfn k e));; when sh (hash_insert i);; mret 0)
    (λ r s', r = 0 ∧ ∃ w' pg' v e i, s' = Wst w' pg' ∧ uses w i v ∧ node w i = Some e ∧ evicts e pg pg' ∧ list_ok w' fl ∧ hash_ok w' ∧
      size w' = size w ∧ ∀ x, resident w' x ↔ resident w x ∧ x ≠ v ∨ x = k) (Wst w pg).
Proof.
  intros Hl Hh Hu0 Hev Hk. rewrite wp_bind. eapply wp_mono; [by eapply take_evicted_ok|].
  intros i s' (w1 & pg' & v & e & -> & Hu & He & Hpg & Hl1 & Hh1 & Hu1 & Hsz & He1). pose proof Hu as (e' & Hi & He' & Hf & Hv). rewrite He in He'. injection He' as <-.
  assert (¬ resident w1 k) as Hk1 by (unfold resident; setoid_rewrite Hu1; done). assert (uses w1 i v) as Hui by (by apply Hu1).
  destruct (replaced_ok w1 fl i v k sh _ Hl1 Hh1 Hui He1 eq_refl Hk1) as (Hl2 & Hh2 & Hu2). pose proof Hui as (_ & Hi1 & _).
  rewrite wp_bind, wp_node_upd. exists (with_hashed false e). split; [done|].
  match goal with |- wp _ _ ?s0 => assert (s0 = Wst (put_node w1 i (Wse k false sh false)) pg') as -> end.
  { unfold set_wsl, put_node, with_shared, with_vpfn. simpl. by rewrite Hf. }
  eapply wp_mono; [eapply (insert_done _ pg' fl i k sh); [done|done|apply Hu2; by right|]|].
  { rewrite (node_put w1 fl) by (done || lia). by rewrite decide_True. }
  intros r s' (-> & w' & -> & Hl' & Hh' & Hr). split; [done|]. exists w', pg', v, e, i. split_and!; try done; [by rewrite (rh_size _ _ Hr)|].
  intros x. rewrite (rehashed_resident _ _ x Hr). unfold resident. setoid_rewrite Hu2. setoid_rewrite Hu1. split.
  - intros [j [[Hj Hne]|[-> ->]]]; [left|by right]. split; [eauto|]. intros ->. apply Hne. by apply (lo_once _ _ Hl j i v).
  - intros [[[j Hj] Hne]| ->]; [|eauto]. exists j. left. split; [done|]. intros ->. destruct Hj as (e' & _ & He' & _ & Hx). congruence.
Qed.

(** ** Removal *)

(** What the caller's hint must satisfy. *)
Definition hint_ok (w : vmp_wsl) (k hint : Z) : Prop := hint = NIL_WSE ∨ 0 ≤ hint ∧
  ∀ e, node w hint = Some e → vpfn e = k → free e = false ∧ hashed e = false.
Lemma wsl_remove_ok w pg fl vaddr hint : list_ok w fl → hash_ok w → resident w (Z.shiftr vaddr VMP_PAGE_SHIFT) →
  finds w (Z.shiftr vaddr VMP_PAGE_SHIFT) (probes_of w (Z.shiftr vaddr VMP_PAGE_SHIFT)) → hint_ok w (Z.shiftr vaddr VMP_PAGE_SHIFT) hint →
  wp (vmp_wsl_remove vaddr hint) (λ _ s', ∃ w' fl', s' = Wst w' pg ∧ list_ok w' fl' ∧ hash_ok w' ∧ size w' = size w - 1 ∧
    ∀ x, resident w' x ↔ resident w x ∧ x ≠ Z.shiftr vaddr VMP_PAGE_SHIFT) (Wst w pg).
Proof.
  set (k := Z.shiftr vaddr VMP_PAGE_SHIFT). intros Hl Hh Hres Hfi Hhint. unfold vmp_wsl_remove. fold k. cbv zeta. rewrite wp_bind, wp_get, wp_bind.
  assert (∀ i w1 e, uses w1 i k → list_ok w1 fl → hash_ok w1 → rehashed w w1 → node w1 i = Some e → hashed e = false →
    wp (put_free i) (λ _ s', ∃ w' fl', s' = Wst w' pg ∧ list_ok w' fl' ∧ hash_ok w' ∧ size w' = size w - 1 ∧
      ∀ x, resident w' x ↔ resident w x ∧ x ≠ k) (Wst w1 pg)) as Hput.
  { intros i w1 e Hu Hl1 Hh1 Hr He Hnh. eapply wp_mono; [by eapply put_free_ok|]. intros _ s' ->.
    destruct (freed_ok w1 fl i k e Hl1 Hh1 Hu He Hnh) as (? & ? & Hsz). exists (freed w1 i e), (i :: fl). split_and!; try done.
    - by rewrite Hsz, (rh_size _ _ Hr).
    - intros x. by rewrite (freed_resident w1 fl i k e x Hl1 Hu), (rehashed_resident _ _ x Hr). }
  assert (wp (r ← hash_lookup k true; deref "idx != NIL_WSE" r) (λ i s', wp (put_free i) (λ _ s', ∃ w' fl', s' = Wst w' pg ∧ list_ok w' fl' ∧ hash_ok w' ∧
    size w' = size w - 1 ∧ ∀ x, resident w' x ↔ resident w x ∧ x ≠ k) s') (Wst w pg)) as Hslow.
  { rewrite wp_bind. eapply wp_mono; [by eapply hash_lookup_delete|]. intros r s' (i & w1 & e & -> & Hu & -> & Hl1 & Hh1 & Hr & He & Hnh).
    rewrite wp_deref. exists i. split; [done|]. eapply Hput; try done. by apply (rh_uses _ _ Hr). }
  destruct (negb (hint =? NIL_WSE) && (hint <? capacity w)) eqn:E; simpl in E |- *; rewrite E; [|rewrite wp_ret, wp_bind; exact Hslow].
  apply andb_true_iff in E as [E1%negb_true_iff%Z.eqb_neq E2%Z.ltb_lt]. destruct Hhint as [|[H0 Hhint]]; [done|].
  destruct (node_some w fl hint Hl) as [e He]; [done|]. rewrite wp_bind, wp_node_at. exists e. split; [done|]. rewrite wp_ret, wp_bind.
  destruct (Z.eqb_spec (vpfn e) k) as [Hk|Hk]; [|exact Hslow]. rewrite wp_ret. destruct (Hhint e He Hk) as [Hf Hnh].
  apply (Hput hint w e); try done. by exists e.
Qed.

(** ** Trimming *)

Lemma size_use w fl : list_ok w fl → 0 < size w → ∃ i k, uses w i k.
Proof.
  intros Hl Hs. destruct (decide (Forall (λ i, i ∈ fl) (seqZ 0 (capacity w)))) as [Hall|Hex].
  - pose proof (lo_size _ _ Hl). rewrite Forall_forall in Hall.
    pose proof (submseteq_length _ _ (NoDup_submseteq _ _ (NoDup_seqZ 0 (capacity w)) Hall)) as Hle. rewrite length_seqZ in Hle. lia.
  - apply not_Forall_Exists, Exists_exists in Hex as (i & Hi & Hn); [|intros ?; apply _]. apply elem_of_seqZ in Hi.
    destruct (node_some w fl i Hl) as [e He]; [lia|]. exists i, (vpfn e), e. split_and!; try done; [lia|lia|].
    destruct (free e) eqn:E; [|done]. exfalso. apply Hn, (lo_free _ _ Hl). split; [lia|eauto].
Qed.

(** The page state allows the pages [R] of the working set to be evicted one by one. *)
Definition evicting (I : (Z → Prop) → pst → Prop) : Prop :=
  ∀ R pg e, I R pg → R (vpfn e) → ∃ pg', evicts e pg pg' ∧ ∀ R' : Z → Prop, (∀ x, R' x ↔ R x ∧ x ≠ vpfn e) → I R' pg'.

Lemma trim_one I w pg fl : evicting I → list_ok w fl → hash_ok w → I (resident w) pg → 0 < size w →
  wp (iter ← next_used (Z.to_nat (capacity w)) (head w);
      e ← node_at iter;
      wsl_upd (set_head ((iter + 1) mod capacity w));;
      wse_evict table e;;
      when (shared e && hashed e) (hash_remove iter);;
      put_free iter)
    (λ _ s', ∃ w' pg' fl', s' = Wst w' pg' ∧ list_ok w' fl' ∧ hash_ok w' ∧ size w' = size w - 1 ∧ I (resident w') pg' ∧ ∀ x, resident w' x → resident w x) (Wst w pg).
Proof.
  intros HI Hl Hh HIw Hs. destruct (size_use w fl Hl Hs) as (i0 & k0 & Hu0). rewrite wp_bind. eapply wp_mono; [by eapply (next_used_head w pg)|].
  intros i s' [-> [k Hu]]. rewrite wp_bind, wp_node_at. pose proof Hu as (e & Hi & He & Hf & Hk). exists e. split; [done|]. rewrite wp_bind, wp_wsl_upd, wp_bind.
  destruct (HI (resident w) pg e HIw) as (pg' & Hev & HI'); [exists i; by exists e|]. eapply wp_evicts; [done|]. rewrite wp_bind.
  eapply wp_mono; [apply (unhash_entry _ pg' fl i k e); [by apply list_set_head|by apply hash_set_head|done|done]|].
  intros _ s' (w1 & -> & Hl1 & Hh1 & Hr & He1). assert (uses w1 i k) as Hu1 by (by apply (rh_uses _ _ Hr)).
  eapply wp_mono; [by eapply put_free_ok|]. intros _ s' ->. destruct (freed_ok w1 fl i k _ Hl1 Hh1 Hu1 He1 eq_refl) as (? & ? & Hsz).
  assert (∀ x, resident (freed w1 i (with_hashed false e)) x ↔ resident w x ∧ x ≠ k) as Hres.
  { intros x. rewrite (freed_resident w1 fl i k _ x Hl1 Hu1). by rewrite (rehashed_resident _ _ x Hr). }
  eexists _, pg', (i :: fl). split_and!; try done; [by rewrite Hsz, (rh_size _ _ Hr)| |].
  - apply HI'. intros x. by rewrite Hk.
  - intros x Hx. by apply Hres in Hx as [? _].
Qed.
Lemma trim_ok I n w pg fl : evicting I → list_ok w fl → hash_ok w → I (resident w) pg →
  wp (vmp_wsl_trim table n) (λ _ s', ∃ fl', list_ok (wsl s') fl' ∧ hash_ok (wsl s') ∧ size (wsl s') = Z.max 0 (size w - Z.of_nat n) ∧
    I (resident (wsl s')) (pages s') ∧ ∀ x, resident (wsl s') x → resident w x) (Wst w pg).
Proof.
  intros HI. revert w pg fl. induction n as [|n IH]; intros w pg fl Hl Hh HIw; pose proof (lo_limit _ _ Hl) as Hlim.
  { simpl. rewrite wp_ret. exists fl. split_and!; try done. simpl. lia. }
  cbn [vmp_wsl_trim]. rewrite wp_bind, wp_get. simpl size. destruct (Z.ltb_spec 0 (size w)); [|rewrite wp_ret; exists fl; split_and!; try done; simpl; lia].
  pose proof (trim_one I w pg fl HI Hl Hh HIw ltac:(lia)) as Hone.
  assert (∀ Q, wp (iter ← next_used (Z.to_nat (capacity w)) (head w); e ← node_at iter; wsl_upd (set_head ((iter + 1) mod capacity w));;
    wse_evict table e;; when (shared e && hashed e) (hash_remove iter);; put_free iter) (λ _, wp (vmp_wsl_trim table n) Q) (Wst w pg) →
    wp (iter ← next_used (Z.to_nat (capacity w)) (head w); e ← node_at iter; wsl_upd (set_head ((iter + 1) mod capacity w));;
    wse_evict table e;; when (shared e && hashed e) (hash_remove iter);; put_free iter;; vmp_wsl_trim table n) Q (Wst w pg)) as Hseq.
  { intros Q Hw. rewrite !wp_bind in Hw |- *. eapply wp_mono; [exact Hw|]. intros i s1 H1. rewrite !wp_bind in H1 |- *. eapply wp_mono; [exact H1|].
    intros e s2 H2. rewrite !wp_bind in H2 |- *. eapply wp_mono; [exact H2|]. intros [] s3 H3. rewrite !wp_bind in H3 |- *.
    eapply wp_mono; [exact H3|]. intros [] s4 H4. rewrite !wp_bind in H4 |- *. eapply wp_mono; [exact H4|]. intros [] s5 H5. by rewrite wp_bind. }
  apply Hseq. eapply wp_mono; [exact Hone|]. intros _ s' (w' & pg' & fl' & -> & Hl' & Hh' & Hsz & HI' & Hsub).
  eapply wp_mono; [by eapply IH|]. intros _ s'' (fl'' & ? & ? & Hsz' & ? & Hsub'). exists fl''. split_and!; try done; [lia|eauto].
Qed.
End evict.
