(* ===== verification/WslTheorems.v ===== *)
(** Working set lists: the theorems on initialisation, look-up, insertion, removal and
    trimming, with a process that has one page. *)
From S2P Require Import Prelude PteAmd64 Pte Resident Tables PageAlloc Walk BuddyTheorems WalkTheorems Wsl WslProofs WslOps.
Import Resident Tables PageAlloc Walk Wsl.
Local Open Scope Z_scope.

(** ** Initialisation *)

(** A list with all of its 512 entries free, in order. *)
Record fresh (w : vmp_wsl) : Prop := Fresh {
  fr_nodes : nodes w = (λ i, Wse (if i =? 511 then NIL_WSE else i + 1) false false true) <$> seqZ 0 512;
  fr_capacity : capacity w = 512;
  fr_limit : limit w = 6;
  fr_size : size w = 0;
  fr_freelist : freelist w = 0;
  fr_head : head w = 0;
  fr_hash_size : hash_size w = 512
}.
Lemma fresh_node w i e : fresh w → 0 ≤ i → node w i = Some e → e = Wse (if i =? 511 then NIL_WSE else i + 1) false false true.
Proof.
  intros Hw H0. unfold node. rewrite (fr_nodes _ Hw), list_lookup_fmap. intros He. apply fmap_Some in He as (x & Hx & ->).
  apply lookup_seqZ in Hx as [-> Hx]. by rewrite Z2Nat.id by done.
Qed.
Lemma node_fresh w i : fresh w → 0 ≤ i < 512 → node w i = Some (Wse (if i =? 511 then NIL_WSE else i + 1) false false true).
Proof. intros Hw Hi. unfold node. rewrite (fr_nodes _ Hw), list_lookup_fmap, lookup_seqZ_lt by lia. cbn [fmap option_fmap option_map Z.add]. by rewrite Z2Nat.id by lia. Qed.
Lemma fresh_chain w f n : fresh w → 0 ≤ f → f + Z.of_nat n = 512 → chain w (if decide (n = O) then NIL_WSE else f) (seqZ f (Z.of_nat n)).
Proof.
  intros Hw. revert f. induction n as [|n IH]; intros f H0 Hf; [done|]. rewrite seqZ_cons by lia. cbn [chain]. split; [done|].
  eexists. split; [apply node_fresh; [done|lia]|]. replace (Z.pred (Z.of_nat (S n))) with (Z.of_nat n) by lia. cbn [vpfn].
  specialize (IH (Z.succ f) ltac:(lia) ltac:(lia)).
  destruct (decide (n = O)); [by rewrite (proj2 (Z.eqb_eq f _)) by lia|by rewrite (proj2 (Z.eqb_neq f _)) by lia].
Qed.
Lemma fresh_unused w k : fresh w → ¬ resident w k.
Proof. intros Hw (i & e & Hi & He & Hf & _). by apply fresh_node in He as ->; [|done|lia]. Qed.
Lemma fresh_list w : fresh w → list_ok w (seqZ 0 512).
Proof.
  intros Hw. split; rewrite ?(fr_capacity _ Hw), ?(fr_limit _ Hw), ?(fr_size _ Hw), ?(fr_head _ Hw), ?(fr_freelist _ Hw); try (unfold NIL_WSE; lia).
  - by rewrite (fr_nodes _ Hw), length_fmap, length_seqZ.
  - exact (fresh_chain w 0 512 Hw ltac:(lia) ltac:(lia)).
  - apply NoDup_seqZ.
  - intros i. rewrite elem_of_seqZ. split; [|lia]. intros Hi. split; [lia|]. eexists. split; [apply node_fresh; [done|lia]|done].
  - by rewrite length_seqZ.
  - intros i j k Hu. destruct (fresh_unused w k Hw). by exists i.
Qed.
Lemma init_hash : hash vmp_wsl_init = 0 :: replicate 512 NIL_WSE ++ replicate 511 0.
Proof. vm_compute. reflexivity. Qed.
Lemma init_fresh : fresh vmp_wsl_init.
Proof. split; vm_compute; reflexivity. Qed.

Lemma init_slot j : 0 < j < 512 → slot vmp_wsl_init j = Some NIL_WSE.
Proof.
  intros Hj. unfold slot. rewrite init_hash. replace (Z.to_nat j) with (S (Z.to_nat (j - 1))) by lia.
  rewrite <-lookup_tail. change (tail (?x :: ?l)) with l. rewrite lookup_app_l by (rewrite length_replicate; lia). apply lookup_replicate. split; [done|lia].
Qed.
(** The list of a new process is well formed, but for slot 0. *)
Lemma init_ok : list_ok vmp_wsl_init (seqZ 0 512) ∧ hash_ok vmp_wsl_init.
Proof.
  pose proof init_fresh as Hw. split; [by apply fresh_list|]. exists (Some 0).
  assert (∀ j, 0 ≤ j < 512 → Some 0 ≠ Some j → slot vmp_wsl_init j = Some NIL_WSE) as Hnil.
  { intros j Hj Hn. apply init_slot. assert (j ≠ 0) by congruence. lia. }
  split; rewrite ?(fr_hash_size _ Hw); [rewrite init_hash; vm_compute; split; discriminate|..].
  - intros j i Hj Hn Hi Hne. rewrite (Hnil j Hj Hn) in Hi. congruence.
  - intros j j' i Hj Hj' Hn _ Hi _ Hne. rewrite (Hnil j Hj Hn) in Hi. congruence.
  - intros i e Hi He Hh. by apply fresh_node in He as ->; [|done|lia].
  - intros i e Hi He Hh. by apply fresh_node in He as ->; [|done|lia].
  - intros j [= <-]. split; [lia|]. exists 0. rewrite (fr_capacity _ Hw). split; [lia|]. vm_compute. reflexivity.
Qed.

(** [vmp_wsl_init] chains all 512 entries on the free list and no page is resident;
    but its loop clears the slots 1 to 512 of the hash table instead of 0 to 511.
    Slot 0 refers to entry 0, and so a process whose first page is private, and hashes
    to slot 0, panics when that page is removed from its working set. *)
Theorem vmp_wsl_init_slot_zero `{PteFormat} table pg :
  list_ok vmp_wsl_init (seqZ 0 512) ∧ (∀ k, ¬ resident vmp_wsl_init k) ∧
  slot vmp_wsl_init 0 = Some 0 ∧ (∀ j, 0 < j < 512 → slot vmp_wsl_init j = Some NIL_WSE) ∧
  returns (vmp_wsl_insert table 0x494000 false) (Wst vmp_wsl_init pg) = true ∧
  vmp_wsl_remove 0x494000 NIL_WSE (final (vmp_wsl_insert table 0x494000 false) (Wst vmp_wsl_init pg)) = Fatal "ws->nodes[idx].hashed".
Proof.
  split; [apply fresh_list, init_fresh|]. split; [intros k; apply fresh_unused, init_fresh|]. split; [vm_compute; reflexivity|].
  split; [exact init_slot|split; vm_compute; reflexivity].
Qed.

(** ** Insertion *)

Lemma wsl_insert_ok `{PteFormat} table w pg fl vaddr sh :
  list_ok w fl → hash_ok w → ¬ resident w (Z.shiftr vaddr VMP_PAGE_SHIFT) →
  let room := (size w <? limit w) || ws_can_expand (Wst w pg) in
  (room = false → 0 < limit w ∧ evictable table w pg) →
  wp (vmp_wsl_insert table vaddr sh) (λ r s', r = 0 ∧ ∃ w' pg' fl', s' = Wst w' pg' ∧ list_ok w' fl' ∧ hash_ok w' ∧
    if room then pg' = pg ∧ size w' = size w + 1 ∧ ∀ x, resident w' x ↔ resident w x ∨ x = Z.shiftr vaddr VMP_PAGE_SHIFT
    else size w' = size w ∧ ∃ i v e, uses w i v ∧ node w i = Some e ∧ evicts table e pg pg' ∧
      ∀ x, resident w' x ↔ resident w x ∧ x ≠ v ∨ x = Z.shiftr vaddr VMP_PAGE_SHIFT) (Wst w pg).
Proof.
  intros Hl Hh Hk room Hfull. unfold vmp_wsl_insert. cbv zeta. rewrite wp_bind, wp_get. cbn [wsl]. fold room. destruct room eqn:E.
  - assert (size w < limit w ∨ limit w ≠ capacity w) as Hroom.
    { subst room. unfold ws_can_expand in E. simpl in E. apply orb_true_iff in E as [E%Z.ltb_lt|E]; [by left|right].
      by apply andb_true_iff in E as [E%negb_true_iff%Z.eqb_neq _]. }
    eapply wp_mono; [by apply (insert_free_ok w pg fl)|]. intros r s' (-> & w' & fl' & -> & ? & ? & ? & ?). split; [done|]. by exists w', pg, fl'.
  - destruct (Hfull eq_refl) as [Hlim Hev]. subst room. apply orb_false_iff in E as [E%Z.ltb_ge _].
    destruct (size_use w fl Hl) as (i & v & Hu); [lia|].
    eapply wp_mono; [by eapply (insert_evict_ok table w pg fl)|]. intros r s' (-> & w' & pg' & v' & e & i' & -> & ? & ? & ? & ? & ? & ? & ?).
    split; [done|]. exists w', pg', fl. split_and!; try done. by exists i', v', e.
Qed.

(** C26. The list of a new process is well formed, and inserting a page that is not
    resident keeps a list and its hash table well formed; the hash table has one slot
    that may name the wrong entry, since [vmp_wsl_init] leaves one.  With room, or when the
    list may grow, the insertion takes a free entry, and the page joins the resident ones;
    otherwise it evicts one resident page, whose place the new page takes, provided that
    every resident page can be evicted. *)
Theorem vmp_wsl_insert_correct `{PteFormat} table :
  (list_ok vmp_wsl_init (seqZ 0 512) ∧ hash_ok vmp_wsl_init) ∧
  ∀ w pg fl vaddr sh,
  list_ok w fl → hash_ok w → ¬ resident w (Z.shiftr vaddr VMP_PAGE_SHIFT) →
  let room := (size w <? limit w) || ws_can_expand (Wst w pg) in
  (room = false → 0 < limit w ∧ evictable table w pg) →
  wp (vmp_wsl_insert table vaddr sh) (λ r s', r = 0 ∧ ∃ w' pg' fl', s' = Wst w' pg' ∧ list_ok w' fl' ∧ hash_ok w' ∧
    if room then pg' = pg ∧ size w' = size w + 1 ∧ ∀ x, resident w' x ↔ resident w x ∨ x = Z.shiftr vaddr VMP_PAGE_SHIFT
    else size w' = size w ∧ ∃ i v e, uses w i v ∧ node w i = Some e ∧ evicts table e pg pg' ∧
      ∀ x, resident w' x ↔ resident w x ∧ x ≠ v ∨ x = Z.shiftr vaddr VMP_PAGE_SHIFT) (Wst w pg).
Proof. split; [exact init_ok|]. intros w pg fl vaddr sh. apply wsl_insert_ok. Qed.

(** C27. Removing a resident page frees exactly its entry and keeps the list and its hash
    table well formed, under two conditions the code does not establish: probing the hash
    table for the page finds only entries in use and hashed (the slot [vmp_wsl_init] leaves
    may name another), and the caller's hint is wrong or names an entry in use that is not
    hashed (a hashed one is freed with its slot left behind). *)
Theorem vmp_wsl_remove_correct w pg fl vaddr hint :
  let k := Z.shiftr vaddr VMP_PAGE_SHIFT in
  list_ok w fl → hash_ok w → resident w k → finds w k (probes_of w k) → hint_ok w k hint →
  wp (vmp_wsl_remove vaddr hint) (λ _ s', ∃ w' fl', s' = Wst w' pg ∧ list_ok w' fl' ∧ hash_ok w' ∧ size w' = size w - 1 ∧
    ∀ x, resident w' x ↔ resident w x ∧ x ≠ k) (Wst w pg).
Proof. apply wsl_remove_ok. Qed.

(** Trimming ends: when the pages of the working set can be evicted one by one it
    evicts as many as asked for, or all there are, and keeps the list well formed. *)
Theorem vmp_wsl_trim_correct `{PteFormat} table I n w pg fl : evicting table I → list_ok w fl → hash_ok w → I (resident w) pg →
  wp (vmp_wsl_trim table n) (λ _ s', ∃ fl', list_ok (wsl s') fl' ∧ hash_ok (wsl s') ∧ size (wsl s') = Z.max 0 (size w - Z.of_nat n) ∧
    I (resident (wsl s')) (pages s') ∧ ∀ x, resident (wsl s') x → resident w x) (Wst w pg).
Proof. apply trim_ok. Qed.

(** ** A process with one page *)

(** The page at 0x494000: a private page, mapped. *)
Definition map_page : kern pst () :=
  r ← vmp_wire_pte (WalkArgs 1 0x494000 None true) (383 * PGSIZE);
  match r with
  | Wired pte _ =>
      r ← vmp_pages_alloc_locked 0 kPageUseAnonPrivate true;
      p ← deref "vmp_pages_alloc_locked" r;
      page_upd p (with_referent pte);;
      word_set pte (Pte.vmp_md_pte_create_hw p true false true true);;
      vmp_pagetable_page_noswap_pte_created (vm_paddr_to_page (ROUNDDOWN pte PGSIZE)) true
  | _ => fatal "vmp_wire_pte"
  end.
Definition mapped : pst := final map_page with_root.
Definition one_entry : wse := Wse 0x494 false false false.
Definition one : vmp_wsl := WSL [one_entry] 1 1 1 NIL_WSE 0 2 [NIL_WSE; NIL_WSE].

Lemma one_node i e : 0 ≤ i → node one i = Some e → i = 0 ∧ e = one_entry.
Proof. unfold node. simpl. intros Hi He. destruct (Z.to_nat i) as [|[|n]] eqn:E; simplify_eq/=. split; [lia|done]. Qed.
Lemma one_uses i k : uses one i k ↔ i = 0 ∧ k = 0x494.
Proof.
  split; [|intros [-> ->]; by exists one_entry]. intros (e & Hi & He & _ & Hk). apply one_node in He as [-> ->]; [|lia]. by rewrite <-Hk.
Qed.
Lemma one_list : list_ok one [].
Proof.
  split; try done; [by constructor| |].
  - intros i. split; [by intros ?%elem_of_nil|]. intros (Hi & e & He & Hf). by apply one_node in He as [_ ->]; [|lia].
  - intros i j k. rewrite !one_uses. intros [-> _] [-> _]. done.
Qed.
Lemma one_hash : hash_ok one.
Proof.
  exists None. split; [simpl; lia|..].
  - intros j i Hj _ Hs Hn. exfalso. apply Hn. unfold slot in Hs. destruct (Z.to_nat j) as [|[|n]]; by simplify_eq/=.
  - intros j j' i Hj Hj' _ _ Hs _ Hn. exfalso. apply Hn. unfold slot in Hs. destruct (Z.to_nat j) as [|[|n]]; by simplify_eq/=.
  - intros i e Hi He Hh. by apply one_node in He as [_ ->]; [|lia].
  - intros i e Hi He Hh. by apply one_node in He as [_ ->]; [|lia].
  - done.
Qed.
Lemma one_evicts e : vpfn e = 0x494 → ∃ pg', evicts (383 * PGSIZE) e mapped pg'.
Proof. intros He. apply (evict_returns _ e one). unfold wse_evict. rewrite He. vm_compute. reflexivity. Qed.

(** A new process gets its first page, 0x500. *)
Definition first : wst := final (vmp_wsl_insert (383 * PGSIZE) 0x500000 true) (Wst vmp_wsl_init mapped).
Lemma init_room : (size vmp_wsl_init <? limit vmp_wsl_init) || ws_can_expand (Wst vmp_wsl_init mapped) = true.
Proof. vm_compute. reflexivity. Qed.
Lemma init_empty k : ¬ resident vmp_wsl_init k.
Proof. apply fresh_unused, init_fresh. Qed.
Lemma first_ok : ∃ fl, list_ok (wsl first) fl ∧ hash_ok (wsl first) ∧ pages first = mapped ∧ size (wsl first) = 1 ∧
  ∀ x, resident (wsl first) x ↔ x = 0x500.
Proof.
  destruct init_ok as [Hl Hh]. pose proof (wsl_insert_ok (383 * PGSIZE) vmp_wsl_init mapped _ 0x500000 true Hl Hh (init_empty _)) as Hins.
  cbv zeta in Hins. rewrite init_room in Hins. specialize (Hins ltac:(discriminate)). apply wp_final in Hins.
  destruct Hins as (r & _ & w' & pg' & fl' & Hf & Hl' & Hh' & -> & Hsz & Hres).
  exists fl'. unfold first. rewrite Hf. cbn [wsl pages]. split_and!; [exact Hl'|exact Hh'|reflexivity|rewrite Hsz; vm_compute; reflexivity|].
  intros x. rewrite Hres. split; [intros [Hx|Hx]; [by destruct (init_empty x)|exact Hx]|intros ->; by right].
Qed.
(** It takes the place of 0x494 in the list that is full. *)
Lemma vmp_wsl_insert_correct_witness :
  hash_ok vmp_wsl_init ∧
  wp (vmp_wsl_insert (383 * PGSIZE) 0x500000 true) (λ _ s', ∃ x, resident (wsl s') x) (Wst vmp_wsl_init mapped) ∧
  wp (vmp_wsl_insert (383 * PGSIZE) 0x500000 true) (λ r s', r = 0 ∧ ∀ x, resident (wsl s') x ↔ x = 0x500) (Wst one mapped).
Proof.
  destruct (vmp_wsl_insert_correct (383 * PGSIZE)) as [[Hl Hh] Hins]. split; [exact Hh|]. split.
  - eapply wp_mono; [apply (Hins vmp_wsl_init mapped _ 0x500000 true Hl Hh (init_empty _))|].
    + rewrite init_room. discriminate.
    + cbv zeta. rewrite init_room. intros r s' (_ & w' & pg' & fl' & -> & _ & _ & _ & _ & Hres). eexists. apply Hres. right. reflexivity.
  - assert ((size one <? limit one) || ws_can_expand (Wst one mapped) = false) as Hfull by (vm_compute; reflexivity).
    eapply wp_mono; [apply (Hins one mapped [] 0x500000 true one_list one_hash)|].
    + intros (i & [_ Hk]%one_uses). discriminate Hk.
    + intros _. split; [reflexivity|]. intros i v e [-> _]%one_uses He. apply one_node in He as [_ ->]; [|lia]. by apply one_evicts.
    + rewrite Hfull. intros r s' (-> & w' & pg' & fl' & -> & _ & _ & _ & i & v & e & [-> ->]%one_uses & _ & _ & Hres). split; [done|].
      intros x. cbn [wsl]. rewrite Hres. split; [|by right]. intros [[(j & [_ ->]%one_uses) Hne]|Hx]; [done|exact Hx].
Defined.

Lemma first_finds : finds (wsl first) 0x500 (probes_of (wsl first) 0x500).
Proof.
  assert (hash_size (wsl first) = 512) as Hhs by (vm_compute; reflexivity).
  assert (Forall (λ j, slot (wsl first) j = Some 0 ∨ slot (wsl first) j = Some NIL_WSE) (probes_of (wsl first) 0x500)) as Hall.
  { unfold probes_of. rewrite Hhs. vm_compute. repeat (constructor; [(left; reflexivity) || (right; reflexivity)|]). constructor. }
  intros j i e Hj Hi He Hk. rewrite Forall_forall in Hall. destruct (Hall j Hj) as [Hs|Hs]; rewrite Hs in Hi; injection Hi as <-.
  - assert (node (wsl first) 0 = Some (Wse 0x500 true true false)) as Hn by (vm_compute; reflexivity). rewrite Hn in He. injection He as <-. split; reflexivity.
  - assert (node (wsl first) NIL_WSE = None) as Hn.
    { unfold node. apply lookup_ge_None_2. assert (length (nodes (wsl first)) = 512%nat) as -> by (vm_compute; reflexivity). unfold NIL_WSE. lia. }
    rewrite Hn in He. discriminate He.
Qed.
(** It is removed again. *)
Lemma vmp_wsl_remove_correct_witness :
  wp (vmp_wsl_remove 0x500000 NIL_WSE) (λ _ s', size (wsl s') = 0 ∧ ∀ x, ¬ resident (wsl s') x) (Wst (wsl first) mapped).
Proof.
  destruct first_ok as (fl & Hl & Hh & _ & Hsz & Hres).
  eapply wp_mono; [apply (vmp_wsl_remove_correct (wsl first) mapped fl 0x500000 NIL_WSE Hl Hh)|].
  - apply Hres. reflexivity.
  - exact first_finds.
  - left. reflexivity.
  - intros _ s' (w' & fl' & -> & _ & _ & Hsz' & Hres'). rewrite Hsz in Hsz'. split; [exact Hsz'|]. cbn [wsl]. intros x [Hx Hne]%Hres'. apply Hres in Hx. exact (Hne Hx).
Defined.
Lemma vmp_wsl_trim_correct_witness : wp (vmp_wsl_trim (383 * PGSIZE) 3) (λ _ s', size (wsl s') = 0) (Wst one mapped).
Proof.
  eapply wp_mono; [apply (vmp_wsl_trim_correct (383 * PGSIZE)
    (λ R pg, (pg = mapped ∧ ∀ x, R x → x = 0x494) ∨ ∀ x, ¬ R x) 3 one mapped [])|].
  - intros R pg e [[-> HR]|HR] He; [|by destruct (HR _ He)]. pose proof (HR _ He) as Hk. destruct (one_evicts e Hk) as [pg' Hev]. exists pg'. split; [done|].
    intros R' HR'. right. intros x [Hx Hne]%HR'. apply Hne. by rewrite Hk, (HR x Hx).
  - apply one_list.
  - apply one_hash.
  - left. split; [done|]. by intros x (i & [_ ->]%one_uses).
  - intros _ s' (fl' & _ & _ & Hsz & _). exact Hsz.
Defined.
