(* ===== verification/PrivateMem.v ===== *)
(** The private memory of a process: which page holds each page of its address space, the
    invariant that every such page is in use, mapped or on a queue, by that process alone,
    and what storing an entry, evicting a page and entering one do to it. *)
From S2P Require Import Prelude Pte Resident Tables PageAlloc BuddyProofs BuddyAlloc BuddyFree Walk PageTree WalkTheorems Wsl WslProofs WslOps.
Import Resident Tables PageAlloc Walk Wsl.
Local Open Scope Z_scope.

Section private.
Context `{F : PteFormat} {L : PteLaws F}.
Notation tables := (gmap Z table).
Notation kind := vmp_pte_characterise.
Notation index := vmp_addr_unpack.

(** ** Addresses *)

(** An address is the number of its page, which the four indexes give, and an offset. *)
Lemma index_digit k l : (1 ≤ l ≤ 4)%nat → index (k * PGSIZE) l = (k / 512 ^ Z.of_nat (l - 1)) mod 512.
Proof.
  intros Hl. rewrite law_unpack by done. change 0x1FF with (Z.ones 9). rewrite Z.land_ones by lia. unfold PGSIZE, VMP_PAGE_SHIFT.
  rewrite Z.shiftr_div_pow2 by lia. rewrite Z.pow_add_r, Z.pow_mul_r by lia. rewrite <-Z.div_div by lia. rewrite Z.div_mul by lia. done.
Qed.
Lemma digits k : 0 ≤ k < 2 ^ 36 → k = k mod 512 + 512 * ((k / 512) mod 512 + 512 * ((k / 512 ^ 2) mod 512 + 512 * ((k / 512 ^ 3) mod 512))).
Proof. intros Hk. change (512 ^ 2) with 262144. change (512 ^ 3) with 134217728. Z.div_mod_to_equations. lia. Qed.
Lemma index_inj k k' : 0 ≤ k < 2 ^ 36 → 0 ≤ k' < 2 ^ 36 → (∀ l, (1 ≤ l ≤ 4)%nat → index (k * PGSIZE) l = index (k' * PGSIZE) l) → k = k'.
Proof.
  intros Hk Hk' Heq. rewrite (digits k Hk), (digits k' Hk').
  pose proof (Heq 1%nat ltac:(lia)) as E1. pose proof (Heq 2%nat ltac:(lia)) as E2. pose proof (Heq 3%nat ltac:(lia)) as E3. pose proof (Heq 4%nat ltac:(lia)) as E4.
  rewrite !index_digit in E1, E2, E3, E4 by lia. change (Z.of_nat (1 - 1)) with 0 in E1. change (Z.of_nat (2 - 1)) with 1 in E2.
  change (Z.of_nat (3 - 1)) with 2 in E3. change (Z.of_nat (4 - 1)) with 3 in E4. rewrite Z.pow_0_r, !Z.div_1_r in E1. rewrite Z.pow_1_r in E2. congruence.
Qed.
(** The pages of the address space that are the process's own. *)
Definition user (ri : table) (k : Z) : Prop := 0 ≤ k < 2 ^ 36 ∧ index (k * PGSIZE) 4 < t_slots ri.

(** ** Entries of leaf tables *)

Lemma xlate_some m l t v a w : xlate m l t v = Some (a, w) ↔
  ∃ c, leaf_of m l t v = Some c ∧ a = cell c (index v 1) ∧ w = m a ∧ kind w ≠ kPTEKindZero.
Proof.
  unfold xlate. destruct (leaf_of m l t v) as [c|]; simpl; [|split; [done|by intros (? & ? & _)]].
  unfold present. case_decide as Hk; simpl; split; try done.
  - intros (c' & [= <-] & -> & -> & ?). done.
  - intros [= <- <-]. by exists c.
  - by intros (c' & [= <-] & -> & -> & _).
Qed.
Lemma cell_unique pins T s root ri r ri' k k' c c' : tree pins T s → T !! root = Some ri → t_level ri = 4%nat → T !! r = Some ri' → t_level ri' = 4%nat →
  user ri k → index k' 4 < t_slots ri' → leaf_of (mem s) 4 root (k * PGSIZE) = Some c → leaf_of (mem s) 4 r k' = Some c' →
  cell c (index (k * PGSIZE) 1) = cell c' (index k' 1) → root = r ∧ ∀ l, (1 ≤ l ≤ 4)%nat → index (k * PGSIZE) l = index k' l.
Proof.
  intros Htr Hr Hl Hr' Hl' [_ Hk] Hk' Hc Hc' Heq. apply cell_inj in Heq as [<- Hi]; [|apply law_index..].
  destruct (leaf_unique pins T s Htr 4 root ri r ri' (k * PGSIZE) k' c) as [-> Hix]; try done.
  split; [done|]. intros l Hll. destruct (decide (l = 1%nat)) as [->|]; [done|]. apply Hix. lia.
Qed.
(** The leaf table depends on the tables above the leaves. *)
Lemma leaf_same pins T s m' : tree pins T s → (∀ t ti i, T !! t = Some ti → (2 ≤ t_level ti)%nat → 0 ≤ i < 512 → m' (cell t i) = mem s (cell t i)) →
  ∀ l t ti v, T !! t = Some ti → t_level ti = l → index v l < t_slots ti → leaf_of m' l t v = leaf_of (mem s) l t v.
Proof.
  intros Htr Hm l. induction l as [|l IH]; intros t ti v Ht Hl Hs; [done|]. destruct l as [|l]; [done|]. pose proof (law_index v (S (S l))) as Hix.
  cbn [leaf_of]. rewrite (Hm t ti) by (done || lia).
  destruct (child (mem s (cell t _))) as [d|] eqn:E; [|done]. apply (IH d (down ti)); [|simpl; lia|simpl; apply law_index].
  eapply (entry_child _ _ _ t ti (index v (S (S l)))); [done|done|lia|lia|done].
Qed.
Lemma leaf_store_leaf pins T s c ci i w : tree pins T s → T !! c = Some ci → t_level ci = 1%nat → 0 ≤ i < 512 → ∀ l t ti v, T !! t = Some ti → t_level ti = l →
  index v l < t_slots ti → leaf_of (store (mem s) (cell c i) w) l t v = leaf_of (mem s) l t v.
Proof.
  intros Htr Hc Hc1 Hi. eapply leaf_same; [done|]. intros t ti j Ht Hl Hj. apply store_ne. intros Heq. apply cell_inj in Heq as [-> _]; [|done..].
  assert (ti = ci) as -> by congruence. lia.
Qed.
(** Counting entries that are new as pins less keeps the counts exact. *)
Lemma tree_leaf_store pins T s s' c ci i w d : tree pins T s → T !! c = Some ci → t_level ci = 1%nat → 0 ≤ i < 512 →
  Z.b2z (nonzero w) - Z.b2z (nonzero (mem s (cell c i))) = d → Z.b2z (noswap w) - Z.b2z (noswap (mem s (cell c i))) = d → 0 ≤ pins c - d ≤ PINS →
  pfndb s' = pfndb s → mem s' = store (mem s) (cell c i) w → modified s' = modified s → standby s' = standby s → tree (add_pin c (- d) pins) T s'.
Proof.
  intros Htr Hc Hc1 Hi Hnz Hns Hd Hpf Hm Hmo Hst. pose proof Htr as [Hinf Hpg He Hn Hsl]. destruct (Hsl c ci Hc) as [_ Hs5]. specialize (Hs5 ltac:(lia)).
  assert (∀ t ti j, T !! t = Some ti → t_level ti ≠ 1%nat → 0 ≤ j < 512 → mem s' (cell t j) = mem s (cell t j)) as Hms.
  { intros t ti j Ht Hl Hj. rewrite Hm. apply store_ne. intros Heq. apply cell_inj in Heq as [-> _]; [|done..]. congruence. }
  assert (∀ t ti x, T !! t = Some ti → linked T s t ti x → linked T s' t ti x) as Hlk.
  { intros t ti x Ht (e & j & ei & Hj & ? & He' & -> & Hch & Hk). exists e, j, ei. destruct (Hsl e ei He') as [? _].
    assert (t_level ei ≠ 1%nat) by (destruct (Hinf t _ Ht) as ((Hl1 & _) & _); simpl in Hl1; lia). rewrite (Hms e ei j) by (done || lia). done. }
  split.
  - intros t ti Ht. destruct (Hinf t ti Ht) as (? & ? & ? & ?). do 3 (split; [done|]). unfold add_pin. case_decide; [subst; lia|done].
  - intros t ti Ht. destruct (Hpg t ti Ht) as (x & Hx & Htp & Hl4). exists x. rewrite Hpf. split; [done|]. split; [|intros H4; eapply Hlk; [done|by apply Hl4]].
    destruct (Hsl t ti Ht) as [Hsr _]. assert (t = c → i < t_slots ti) as Hic by (intros ->; assert (ti = ci) as -> by congruence; lia).
    destruct Htp as [T1 T2 T3 T4 T5 T6 T7 T8]. split; try done; [..|by rewrite ?Hmo, ?Hst; intros; destruct T8; unfold idle; rewrite ?Hmo, ?Hst].
    + rewrite T4, Hm, count_store by (done || lia). unfold add_pin. destruct (decide (t = c)) as [->|]; lia.
    + rewrite T5, Hm, count_store by (done || lia). unfold add_pin. destruct (decide (t = c)) as [->|]; lia.
  - intros e ei j He' Hl Hj. unfold entry_ok. destruct (Hsl e ei He') as [? _]. rewrite (Hms e ei j) by (done || lia). rewrite Hpf. by apply He.
  - intros t Ht. rewrite add_pin_ne by congruence. by apply Hn.
  - done.
Qed.

(** The translation of page [k] of [root] becomes [w], all others stay. *)
Record retranslates (T : tables) (root : Z) (ri : table) (k a w : Z) (s s' : pst) : Prop := Retranslates {
  rt_own : ∀ k', user ri k' → xlate (mem s') 4 root (k' * PGSIZE) = if decide (k' = k) then w' ← present w; Some (a, w') else xlate (mem s) 4 root (k' * PGSIZE);
  rt_other : ∀ r ri' v, T !! r = Some ri' → t_level ri' = 4%nat → r ≠ root → index v 4 < t_slots ri' → xlate (mem s') 4 r v = xlate (mem s) 4 r v
}.
Lemma leaf_store_ok pins n T B s root ri k c w d : wstate pins n T B s → T !! root = Some ri → t_level ri = 4%nat → user ri k →
  leaf_of (mem s) 4 root (k * PGSIZE) = Some c → let a := cell c (index (k * PGSIZE) 1) in
  Z.b2z (nonzero w) - Z.b2z (nonzero (mem s a)) = d → Z.b2z (noswap w) - Z.b2z (noswap (mem s a)) = d → 0 ≤ pins c - d ≤ PINS →
  let s' := set_mem (store (mem s) a w) s in wstate (add_pin c (- d) pins) n T B s' ∧ retranslates T root ri k a w s s'.
Proof.
  intros Hws Hr Hl Hk Hc a Hnz Hns Hd s'. pose proof Hws as [Hok Hset Htr Hal Hfr Hroom]. pose proof (law_index (k * PGSIZE) 1) as Hix.
  destruct (leaf_level pins T s Htr 4 root ri (k * PGSIZE) c Hr Hl (proj2 Hk) Hc) as (ci & Hci & Hc1 & _). split.
  - split; try done; [by destruct Hok| |by destruct Hroom]. by eapply (tree_leaf_store pins T s s' c ci).
  - pose proof (leaf_store_leaf pins T s c ci (index (k * PGSIZE) 1) w Htr Hci Hc1 Hix) as Hleaf. fold a in Hleaf. split.
    + intros k' Hk'. unfold xlate. simpl mem. rewrite (Hleaf 4%nat root ri) by (done || apply Hk'). case_decide as Hkk.
      { subst k'. rewrite Hc. cbn [mbind option_bind]. fold a. by rewrite store_eq. }
      destruct (leaf_of (mem s) 4 root (k' * PGSIZE)) as [c'|] eqn:Hc'; [|done]. cbn [mbind option_bind]. rewrite store_ne; [done|].
      intros Heq. apply Hkk. symmetry. apply index_inj; [apply Hk|apply Hk'|].
      eapply (cell_unique pins T s root ri root ri k (k' * PGSIZE) c c'); try done. apply Hk'.
    + intros r ri' v Hr' Hl' Hne Hv. unfold xlate. simpl mem. rewrite (Hleaf 4%nat r ri') by done.
      destruct (leaf_of (mem s) 4 r v) as [c'|] eqn:Hc'; [|done]. cbn [mbind option_bind]. rewrite store_ne; [done|].
      intros Heq. apply Hne. symmetry. by eapply (cell_unique pins T s root ri r ri' k v c c').
Qed.

(** A table with an entry that keeps it in memory is in memory, with all tables above. *)
Lemma table_live pins T s t ti i : tree pins T s → T !! t = Some ti → 0 ≤ i < t_slots ti → noswap (mem s (cell t i)) = true → ∃ x, pfndb s !! t = Some x ∧ refcnt x ≠ 0.
Proof.
  intros Htr Ht Hi Hn. destruct (tr_page _ _ _ Htr t ti Ht) as (x & Hx & [_ _ _ _ T5 T6 _ _] & _). exists x. split; [done|].
  destruct (tr_info _ _ _ Htr t ti Ht) as (_ & _ & _ & Hp). pose proof (count_some noswap (t_slots ti) (mem s) t i Hi Hn). case_decide; lia.
Qed.
Lemma walk_live pins T s v : tree pins T s → ∀ l t ti c, T !! t = Some ti → t_level ti = l → index v l < t_slots ti →
  leaf_of (mem s) l t v = Some c → noswap (mem s (cell c (index v 1))) = true →
  walk (mem s) l (t * PGSIZE) v = Some (cell c (index v 1)) ∧ ∃ i, 0 ≤ i < t_slots ti ∧ noswap (mem s (cell t i)) = true.
Proof.
  intros Htr l. induction l as [|l IH]; intros t ti c Ht Hl Hs Hc Hn; [done|]. pose proof (law_index v (S l)) as Hix. destruct l as [|l].
  { simpl in Hc. injection Hc as <-. split; [simpl; by rewrite cell_entry|]. exists (index v 1). split; [lia|done]. }
  cbn [leaf_of] in Hc. destruct (child (mem s (cell t (index v (S (S l)))))) as [d|] eqn:E; [|done].
  destruct (child_state pins T s t ti _ d Htr Ht ltac:(lia) ltac:(split; [apply Hix|exact Hs]) E) as (x & HT & Hx & _ & Hd & Hk).
  destruct (IH d (down ti) c HT) as (Hw & i & Hi & Hni); [simpl; lia|simpl; apply law_index|done|done|].
  destruct (table_live pins T s d (down ti) i Htr HT Hi Hni) as (x' & Hx' & Hr). assert (x' = x) as -> by congruence. rewrite decide_False in Hk by done.
  split; [by rewrite (walk_step _ t l v d Hk E Hd)|]. exists (index v (S (S l))). split; [lia|by eapply child_noswap].
Qed.
Lemma fetch_live pins T s root ri k a w : tree pins T s → T !! root = Some ri → t_level ri = 4%nat → user ri k → xlate (mem s) 4 root (k * PGSIZE) = Some (a, w) →
  noswap w = true → vmp_fetch_pte (root * PGSIZE) (k * PGSIZE) s = Ok (Some a, s).
Proof.
  intros Htr Hr Hl Hk Hx Hn. apply xlate_some in Hx as (c & Hc & -> & -> & _).
  destruct (walk_live pins T s (k * PGSIZE) Htr 4 root ri c Hr Hl (proj2 Hk) Hc Hn) as [Hw _]. unfold vmp_fetch_pte. change VMP_TABLE_LEVELS with 4%nat. by rewrite fetch_walk, Hw by lia.
Qed.

(** ** Private pages *)

(** Page [q] of process [p] behind the entry [w] at [a]: mapped and in the working set ([R]),
    or in transition and on a queue. *)
Record private_page (p : Z) (T : tables) (B : blocks) (s : pst) (R : Prop) (a w q : Z) (x : vm_page) : Prop := PrivatePage {
  pp_child : child w = Some q;
  pp_out : T !! q = None ∧ allocated B q 0;
  pp_pfn : pfndb s !! q = Some x;
  pp_page : use x = kPageUseAnonPrivate ∧ owner x = p ∧ referent_pte x = a;
  pp_state : if decide (kind w = kPTEKindValid) then refcnt x = 1 ∧ R else refcnt x = 0 ∧ idle s q x ∧ ¬ R
}.
(** All memory of [p], whose tables have the root [root], is private; [res] is its working set. *)
Record private (p root : Z) (ri : table) (res : Z → Prop) (T : tables) (B : blocks) (s : pst) : Prop := Private {
  pv_page : ∀ k a w, user ri k → xlate (mem s) 4 root (k * PGSIZE) = Some (a, w) → ∃ q x, private_page p T B s (res k) a w q x;
  pv_res : ∀ k, res k → user ri k ∧ ∃ a w, xlate (mem s) 4 root (k * PGSIZE) = Some (a, w) ∧ kind w = kPTEKindValid
}.
(** The page that holds page [k] of the address space, and a word of memory. *)
Definition view (m : Z → Z) (root k : Z) : option Z := r ← xlate m 4 root (k * PGSIZE); child r.2.
Definition content (m : Z → Z) (root v : Z) : Z := match view m root (v / PGSIZE) with Some q => m (q * PGSIZE + v mod PGSIZE) | None => 0 end.

Lemma idle_same s s' q x x' : same_page x x' → (q ∈ modified s → q ∈ modified s') → (q ∈ standby s → q ∈ standby s') → idle s q x → idle s' q x'.
Proof. intros (_ & E & _) Hm Hs Hi. unfold idle in *. rewrite E. destruct (dirty x); auto. Qed.
Lemma private_page_same p T B s T' B' s' (R R' : Prop) a w q x x' : private_page p T B s R a w q x → (R ↔ R') → T' !! q = None → allocated B' q 0 →
  pfndb s' !! q = Some x' → same_page x x' → (q ∈ modified s → q ∈ modified s') → (q ∈ standby s → q ∈ standby s') → private_page p T' B' s' R' a w q x'.
Proof.
  intros [P1 P2 P3 P4 P5] HR HT HB Hx Hs Hm Hst. pose proof Hs as (E1 & E2 & E3 & E4 & E5 & E6 & E7 & E8 & E9). split; try done.
  - by rewrite E1, E7, E8.
  - case_decide; rewrite E4, <-HR; [done|]. destruct P5 as (? & ? & ?). split_and!; try done. by eapply idle_same.
Qed.

(** What a fault at page [k0] of [p] may change: pages of others, their translations and the
    contents of all pages in use stay; so do the pages that hold other parts of memory. *)
Record moves (p root : Z) (ri : table) (k0 : Z) (T : tables) (B : blocks) (s : pst) (T' : tables) (B' : blocks) (s' : pst) : Prop := Moves {
  mv_block : ∀ q k, T !! q = None → allocated B q k → T' !! q = None ∧ allocated B' q k;
  mv_mem : ∀ a, out T B (a / PGSIZE) → mem s' a = mem s a;
  mv_page : ∀ y x, out T B y → pfndb s !! y = Some x → owner x ≠ p → ∃ x', pfndb s' !! y = Some x' ∧ same_page x x' ∧
    (y ∈ modified s → y ∈ modified s') ∧ (y ∈ standby s → y ∈ standby s');
  mv_root : ∀ r ti, T !! r = Some ti → t_level ti = 4%nat → T' !! r = Some ti;
  mv_other : ∀ r ti v, T !! r = Some ti → t_level ti = 4%nat → r ≠ root → index v 4 < t_slots ti → xlate (mem s') 4 r v = xlate (mem s) 4 r v;
  mv_view : ∀ k, user ri k → view (mem s) root k ≠ None ∨ k ≠ k0 → view (mem s') root k = view (mem s) root k
}.
Lemma moves_refl p root ri k0 T B s : moves p root ri k0 T B s T B s.
Proof. split; try done. intros y x _ Hx _. by exists x. Qed.
Lemma moves_trans p root ri k0 T1 B1 s1 T2 B2 s2 T3 B3 s3 : moves p root ri k0 T1 B1 s1 T2 B2 s2 → moves p root ri k0 T2 B2 s2 T3 B3 s3 → moves p root ri k0 T1 B1 s1 T3 B3 s3.
Proof.
  intros [A1 A2 A3 A4 A5 A6] [C1 C2 C3 C4 C5 C6]. assert (∀ y, out T1 B1 y → out T2 B2 y) as Ho.
  { intros y (q & k & Hq & Hal & Hin). destruct (A1 q k Hq Hal). by exists q, k. } split.
  - intros q k Hq Hal. destruct (A1 q k Hq Hal). by apply C1.
  - intros a Ha. rewrite C2 by (by apply Ho). by apply A2.
  - intros y x Hy Hx Hp. destruct (A3 y x Hy Hx Hp) as (x2 & Hx2 & Hs & Hq1 & Hq2). destruct (C3 y x2 (Ho y Hy) Hx2) as (x3 & Hx3 & Hs' & Hq3 & Hq4).
    { by destruct Hs as (_ & _ & _ & _ & _ & _ & _ & -> & _). }
    exists x3. split_and!; try tauto. by eapply same_page_trans.
  - intros r ti Hr Hl. apply C4; [by apply A4|done].
  - intros r ti v Hr Hl Hne Hv. rewrite (C5 r ti) by (try done; by apply A4). by apply (A5 r ti).
  - intros k Hk Hv. assert (view (mem s2) root k = view (mem s1) root k) as E by (by apply A6). rewrite C6; [done|done|]. by rewrite E.
Qed.
Lemma step_moves p root ri k0 T B s T' B' s' : T !! root = Some ri → t_level ri = 4%nat → step T B s T' B' s' → moves p root ri k0 T B s T' B' s'.
Proof.
  intros Hr Hl [S1 S2 S3 S4 S5]. split; try done.
  - intros y x Hy Hx _. destruct (S3 y x Hy Hx) as (x' & ? & ?), (S4 y Hy). by exists x'.
  - intros r ti Ht Hl'. by apply S5.
  - intros r ti v Ht Hl' _ Hv. by apply (S5 r ti).
  - intros k Hk _. unfold view. destruct (S5 root ri Hr Hl) as [_ Hx]. by rewrite Hx by apply Hk.
Qed.
Lemma private_ext p root ri (res res' : Z → Prop) T B s : (∀ k, res k ↔ res' k) → private p root ri res T B s → private p root ri res' T B s.
Proof.
  intros He [P1 P2]. split.
  - intros k a w Hk Hx. destruct (P1 k a w Hk Hx) as (q & x & Hp). exists q, x. destruct Hp as [? ? ? ? Hs]. split; try done. case_decide; by rewrite <-He.
  - intros k Hk. by apply P2, He.
Qed.
Lemma head_out T B q : T !! q = None → allocated B q 0 → out T B q.
Proof. intros HT Hal. exists q, O. split_and!; try done. apply inside_head. Qed.
Lemma private_step p root ri res T B s T' B' s' : private p root ri res T B s → T !! root = Some ri → t_level ri = 4%nat → step T B s T' B' s' → private p root ri res T' B' s'.
Proof.
  intros [P1 P2] Hr Hl [S1 S2 S3 S4 S5]. destruct (S5 root ri Hr Hl) as [_ Hxl]. split.
  - intros k a w Hk Hx. rewrite Hxl in Hx by apply Hk. destruct (P1 k a w Hk Hx) as (q & x & Hp). pose proof Hp as [_ [HT Hal] Hxq _ _].
    pose proof (head_out T B q HT Hal) as Ho. destruct (S3 q x Ho Hxq) as (x' & Hx' & Hs), (S4 q Ho), (S1 q O HT Hal). exists q, x'. by eapply private_page_same.
  - intros k Hk. destruct (P2 k Hk) as (Hu & a & w & Hx & Hv). split; [done|]. exists a, w. by rewrite Hxl by apply Hu.
Qed.
Lemma page_off q v : (q * PGSIZE + v mod PGSIZE) / PGSIZE = q.
Proof. unfold PGSIZE, VMP_PAGE_SHIFT. change (2 ^ 12) with 4096. Z.div_mod_to_equations. lia. Qed.
(** The private memory of another process is not noticed. *)
Lemma private_others p root ri k0 p' root' ri' res T B s T' B' s' : moves p root ri k0 T B s T' B' s' → T !! root' = Some ri' → t_level ri' = 4%nat → p' ≠ p → root' ≠ root →
  private p' root' ri' res T B s → private p' root' ri' res T' B' s' ∧ ∀ v, user ri' (v / PGSIZE) → content (mem s') root' v = content (mem s) root' v.
Proof.
  intros [M1 M2 M3 M4 M5 _] Hr Hl Hp Hne [P1 P2].
  assert (∀ k, user ri' k → xlate (mem s') 4 root' (k * PGSIZE) = xlate (mem s) 4 root' (k * PGSIZE)) as Hxl by (intros k Hk; eapply M5; try done; apply Hk).
  split; [split|].
  - intros k a w Hk Hx. rewrite Hxl in Hx by done. destruct (P1 k a w Hk Hx) as (q & x & Hpp). pose proof Hpp as [_ [HT Hal] Hxq (_ & Hown & _) _].
    pose proof (head_out T B q HT Hal) as Ho. destruct (M3 q x Ho Hxq) as (x' & Hx' & Hs & ? & ?); [congruence|]. destruct (M1 q O HT Hal). exists q, x'. by eapply private_page_same.
  - intros k Hk. destruct (P2 k Hk) as (Hu & a & w & Hx & Hv). split; [done|]. exists a, w. by rewrite Hxl.
  - intros v Hv. unfold content, view. rewrite (Hxl _ Hv). destruct (xlate (mem s) 4 root' _) as [[a w]|] eqn:E; [|done]. simpl.
    destruct (P1 _ a w Hv E) as (q & x & [Hc [HT Hal] _ _ _]). rewrite Hc. apply M2. rewrite page_off. by apply head_out.
Qed.

(** ** Changes of a private page *)

Lemma wstate_out pins n T B s s' q x x' : wstate pins n T B s → T !! q = None → allocated B q 0 → pfndb s !! q = Some x →
  order x' = order x → max_order x' = max_order x → on_freelist x' = on_freelist x → pfndb s' = <[q := x']> (pfndb s) →
  queues_move q s s' → room n B s' → wstate pins n T B s'.
Proof.
  intros [Hok Hset Htr Hal Hfr _] HT Hq Hx H1 H2 H3 Hpf [Hm [Hb1 Hb2] Hqu _] Hroom.
  pose proof (upd_page_ok B s q 0 Alloc x x' Hok Hq Hx H1 H2 H3) as [? Hpg Hqs]. split; try done.
  - split; [done|..]; simpl in *; [by rewrite Hpf|by rewrite Hb1, Hb2].
  - eapply tree_same; [done|..].
    + intros t ti y Ht Hy. exists y. rewrite Hpf, lookup_insert_ne by congruence. split; [done|apply same_page_refl].
    + intros t ti i _ _. by rewrite Hm.
    + intros t ti Ht. apply Hqu. congruence.
Qed.
(** One page of the memory of the process changes, with the entry for it. *)
Lemma private_set p root ri (res res' : Z → Prop) T B s s' k a w q x' : private p root ri res T B s → user ri k → retranslates T root ri k a w s s' →
  pfndb s' = <[q := x']> (pfndb s) → (∀ y, y ≠ q → (y ∈ modified s → y ∈ modified s') ∧ (y ∈ standby s → y ∈ standby s')) →
  private_page p T B s' (res' k) a w q x' → (∀ k' a' w', user ri k' → k' ≠ k → xlate (mem s) 4 root (k' * PGSIZE) = Some (a', w') → child w' ≠ Some q) →
  (∀ k', k' ≠ k → res' k' ↔ res k') → (res' k → kind w = kPTEKindValid) → private p root ri res' T B s'.
Proof.
  intros [P1 P2] Hk [Rt _] Hpf Hqu Hpp Hne Hres Hval. assert (kind w ≠ kPTEKindZero) as Hnz by (intros Hz; pose proof (pp_child _ _ _ _ _ _ _ _ _ Hpp) as Hc; by rewrite child_zero in Hc). split.
  - intros k' a' w' Hk' Hx. rewrite (Rt k' Hk') in Hx. destruct (decide (k' = k)) as [->|Hkk].
    { rewrite present_some in Hx by done. simpl in Hx. injection Hx as <- <-. by exists q, x'. }
    destruct (P1 k' a' w' Hk' Hx) as (y & z & Hp'). assert (y ≠ q) as Hyq by (intros ->; by eapply Hne, Hp').
    pose proof Hp' as [_ [? ?] Hz _ _]. destruct (Hqu y Hyq). exists y, z. eapply (private_page_same p T B s T B s' (res k') (res' k') a' w' y z z); try done.
    + symmetry. by apply Hres.
    + by rewrite Hpf, lookup_insert_ne.
  - intros k' Hk'. destruct (decide (k' = k)) as [->|Hkk].
    + split; [done|]. exists a, w. rewrite (Rt k Hk), decide_True by done. rewrite present_some by done. split; [done|by apply Hval].
    + destruct (P2 k') as (Hu & a' & w' & Hx & Hv); [by apply Hres|]. split; [done|]. exists a', w'. by rewrite (Rt k' Hu), decide_False.
Qed.
(** It has an entry of its own. *)
Lemma private_distinct pins p root ri res T B s k a w q k' a' w' : tree pins T s → T !! root = Some ri → t_level ri = 4%nat → private p root ri res T B s →
  user ri k → user ri k' → k' ≠ k → xlate (mem s) 4 root (k * PGSIZE) = Some (a, w) → child w = Some q →
  xlate (mem s) 4 root (k' * PGSIZE) = Some (a', w') → child w' ≠ Some q.
Proof.
  intros Htr Hr Hl [P1 _] Hk Hk' Hne Hx Hc Hx' Hc'. destruct (P1 k a w Hk Hx) as (q1 & x1 & [C1 _ F1 (_ & _ & R1) _]), (P1 k' a' w' Hk' Hx') as (q2 & x2 & [C2 _ F2 (_ & _ & R2) _]).
  assert (q1 = q ∧ q2 = q) as [-> ->] by (split; congruence). assert (x2 = x1) as -> by congruence.
  apply xlate_some in Hx as (c & Hlc & Ha & _ & _), Hx' as (c' & Hlc' & Ha' & _ & _). apply Hne. symmetry. apply index_inj; [apply Hk|apply Hk'|].
  eapply (cell_unique pins T s root ri root ri k (k' * PGSIZE) c c'); try done; [apply Hk'|congruence].
Qed.
(** What such a change does to the rest. *)
Lemma moves_set pins p root ri k0 T B s s' k a w q x x' : tree pins T s → blocks_ok B → (∀ t ti, T !! t = Some ti → allocated B t 0) → T !! root = Some ri → t_level ri = 4%nat →
  user ri k → leaf_of (mem s) 4 root (k * PGSIZE) = Some (a / PGSIZE) → a = cell (a / PGSIZE) (index (k * PGSIZE) 1) → mem s' = store (mem s) a w → retranslates T root ri k a w s s' →
  pfndb s !! q = Some x → owner x = p → pfndb s' = <[q := x']> (pfndb s) → (∀ y, y ≠ q → (y ∈ modified s → y ∈ modified s') ∧ (y ∈ standby s → y ∈ standby s')) →
  child w = Some q → (view (mem s) root k = Some q ∨ (view (mem s) root k = None ∧ k = k0)) → moves p root ri k0 T B s T B s'.
Proof.
  intros Htr Hb Hal Hr Hl Hk Hleaf Ha Hm [Rt Rt'] Hx Hp Hpf Hqu Hc Hv.
  destruct (leaf_level pins T s Htr 4 root ri (k * PGSIZE) (a / PGSIZE) Hr Hl (proj2 Hk) Hleaf) as (ci & Hci & _). split; try done.
  - intros b Hb'. rewrite Hm. apply store_ne. intros ->. apply (out_table T B (a / PGSIZE) ci (a / PGSIZE)) in Hb'; [done|done|by eapply Hal|done].
  - intros y z Hy Hz Hown. assert (y ≠ q) as Hyq by congruence. destruct (Hqu y Hyq). exists z. rewrite Hpf, lookup_insert_ne by done. split_and!; try done.
  - intros k' Hk' Hv'. unfold view. rewrite (Rt k' Hk'). case_decide as Hkk; [subst k'|done].
    rewrite present_some by (intros Hz; by rewrite child_zero in Hc). simpl. destruct Hv as [Hv|[Hv ->]]; [|tauto]. unfold view in Hv. by rewrite Hc, Hv.
Qed.
Lemma retranslates_mem T root ri k a w s1 s1' s2 s2' : retranslates T root ri k a w s1 s1' → mem s2 = mem s1 → mem s2' = mem s1' → retranslates T root ri k a w s2 s2'.
Proof. intros [R1 R2] E1 E2. split; rewrite E1, E2; done. Qed.

(** ** Eviction *)

(** The last reference to a page in transition goes: it goes to a queue. *)
Lemma room_push n B s s' q x : (∀ y, covered B y → 0 < y < 2 ^ pfn_bits) → room n B s → q ∉ standby s → allocated B q 0 → refcnt x = 0 → dirty x = false →
  pfndb s' = <[q := x]> (pfndb s) → standby s' = standby s ++ [q] → vmstat s' nfree = vmstat s nfree → vmstat s' nstandby = u64 (vmstat s nstandby + 1) → room n B s'.
Proof.
  intros Hfr Hroom Hni Hq Hr Hd Hpf Hst Hf Hs. pose proof (standby_bound n B s Hfr Hroom) as Hb. destruct Hroom as [Hfree (Hnd & Hc & Hn)].
  split; [by rewrite Hf|]. rewrite Hst. split_and!.
  - apply NoDup_app. split_and!; [done| |apply NoDup_singleton]. intros y Hy Hyq. by apply list_elem_of_singleton in Hyq as ->.
  - intros y Hy. apply elem_of_app in Hy as [Hy|Hy%list_elem_of_singleton].
    + destruct (Hc y Hy) as (? & z & ? & ? & ?). split; [done|]. exists z. rewrite Hpf, lookup_insert_ne by (by intros ->). done.
    + subst y. split; [done|]. exists x. by rewrite Hpf, lookup_insert_eq.
  - rewrite Hs, Hn, length_app, u64_small by lia. simpl. lia.
Qed.
Lemma page_release_last n B s q x : (∀ y, covered B y → 0 < y < 2 ^ pfn_bits) → room n B s → pfndb s !! q = Some x → allocated B q 0 → order x = O →
  refcnt x = 1 → use x = kPageUseAnonPrivate → mem s (referent_pte x) = vmp_md_pte_create_trans q → 0 ≤ q < 2 ^ 61 →
  wp (vmp_page_release_locked q) (λ _ s', pfndb s' = <[q := with_refcnt 0 x]> (pfndb s) ∧ queues_move q s s' ∧ room n B s' ∧ idle s' q (with_refcnt 0 x)) s.
Proof.
  intros Hfr Hroom Hx Hq Ho Hr Hu Hm Hq61. destruct (law_trans q Hq61) as [Hk Hs]. unfold vmp_page_release_locked. rewrite wp_bind, wp_page_at. exists x. split; [done|].
  rewrite wp_bind, wp_kassert, Hr. split; [done|]. rewrite wp_bind, wp_page_set, wp_when. simpl. rewrite wp_bind, wp_stat_add. rewrite decide_False by (by rewrite Hu).
  rewrite wp_bind. unfold referent_check. rewrite Hu, wp_bind. unfold word_at. rewrite wp_gets. simpl mem. rewrite Hm, wp_bind, wp_kassert, Hk. split; [done|].
  rewrite wp_bind, wp_deref. exists q. split; [done|]. rewrite wp_kassert, Z.eqb_refl. split; [done|].
  assert (q ∉ standby s) as Hni by (eapply standby_ref; [done|done|left; lia]). unfold idle. simpl dirty. destruct (dirty x) eqn:Hd.
  - rewrite wp_bind, wp_modify, wp_bind, wp_stat_add, wp_update_events. simpl. split; [done|]. split_and!; [split; try done| |set_solver].
    + intros y Hy. simpl. split; [|done]. intros ?. apply elem_of_app. by left.
    + by eapply (room_upd n B s).
  - rewrite wp_bind, wp_modify, wp_stat_add. simpl. split; [done|]. split_and!; [split; try done| |set_solver].
    + intros y Hy. simpl. split; [done|]. intros ?. apply elem_of_app. by left.
    + eapply (room_push n B s _ q (with_refcnt 0 x)); try done. simpl. by rewrite Ho.
Qed.
Lemma block_frame pins n T B s q : wstate pins n T B s → allocated B q 0 → 0 ≤ q < 2 ^ pfn_bits ∧ q < 2 ^ 61 ∧ ∀ x, pfndb s !! q = Some x → order x = O.
Proof.
  intros Hws Hq. pose proof law_bits as Hb. assert (2 ^ pfn_bits ≤ 2 ^ 52) by (apply Z.pow_le_mono_r; lia).
  assert (0 < q < 2 ^ pfn_bits) by (apply (ws_frames _ _ _ _ _ Hws); exists q, O, Alloc; split; [done|apply inside_head]). split_and!; [lia..|].
  intros x Hx. destruct (pk_head _ _ (bo_pages _ _ (ws_buddy _ _ _ _ _ Hws)) _ _ _ Hq) as (y & Hy & Ho & _). congruence.
Qed.
Lemma child_valid w q : child w = Some q → kind w = kPTEKindValid → vmp_md_pte_hw_pfn w = q.
Proof. unfold child. intros Hc Hk. rewrite Hk in Hc. by injection Hc. Qed.
Lemma shiftl_page k : 0 ≤ k < 2 ^ 36 → u64 (Z.shiftl k VMP_PAGE_SHIFT) = k * PGSIZE.
Proof. intros Hk. unfold VMP_PAGE_SHIFT, PGSIZE, VMP_PAGE_SHIFT. rewrite Z.shiftl_mul_pow2 by lia. apply u64_small. lia. Qed.

(** Evicting a page of private memory: it is in transition, on a queue, and still the page
    that holds that part of the memory. *)
Lemma page_evict_ok pins n T B s p root ri res k k0 a w pt : wstate pins n T B s → T !! root = Some ri → t_level ri = 4%nat → private p root ri res T B s →
  res k → xlate (mem s) 4 root (k * PGSIZE) = Some (a, w) → kind w = kPTEKindValid →
  wp (vmp_page_evict a pt) (λ _ s', wstate pins n T B s' ∧ private p root ri (λ x, res x ∧ x ≠ k) T B s' ∧ moves p root ri k0 T B s T B s' ∧
    ∀ k', user ri k' → k' ≠ k → xlate (mem s') 4 root (k' * PGSIZE) = xlate (mem s) 4 root (k' * PGSIZE)) s.
Proof.
  intros Hws Hr Hl Hpv Hrk Hxl Hval. destruct (pv_res _ _ _ _ _ _ _ Hpv k Hrk) as [Hk _]. destruct (pv_page _ _ _ _ _ _ _ Hpv k a w Hk Hxl) as (q & x & [Hc [HTq Hq] Hx (Hu & Hown & Href) Hst]).
  rewrite decide_True in Hst by done. destruct Hst as [Hr1 _]. destruct (block_frame pins n T B s q Hws Hq) as (Hqr & Hq61 & Hord). specialize (Hord x Hx).
  pose proof Hxl as (c & Hlc & Ha & Hw & Hnz)%xlate_some. unfold vmp_page_evict. rewrite wp_bind. unfold word_at. rewrite wp_gets, <-Hw.
  rewrite (paddr_of w q (child_valid w q Hc Hval) Hqr), page_of, wp_bind, wp_kassert, bool_decide_true by done. split; [done|].
  rewrite wp_bind, wp_page_upd. exists x. split; [done|]. set (x1 := with_dirty _ x). rewrite wp_bind, wp_page_at. exists x1. split; [simpl; by rewrite lookup_insert_eq|].
  change (use x1) with (use x). rewrite Hu, wp_bind, wp_kassert. change (referent_pte x1) with (referent_pte x). rewrite Href, Z.eqb_refl. split; [done|].
  rewrite wp_bind. unfold word_set. rewrite wp_modify. set (s1 := set_pfndb _ s). fold (store (mem s) a (vmp_md_pte_create_trans q)).
  change (mem s1) with (mem s). destruct (law_trans q ltac:(lia)) as [Hkt Hst].
  assert (child (vmp_md_pte_create_trans q) = Some q) as Hct by (unfold child; by rewrite Hkt). pose proof (child_noswap _ _ Hc) as Hn1. pose proof (child_noswap _ _ Hct) as Hn2.
  assert (q ∉ standby s) as Hni by (eapply standby_ref; [apply Hws|done|left; lia]).
  assert (wstate pins n T B s1) as Hws1 by (eapply (wstate_out pins n T B s s1 q x x1); try done; eapply (room_upd n B s); try done; apply Hws).
  pose proof (tree_pins_pos pins T s c (ws_tree _ _ _ _ _ Hws)) as Hp0. destruct (leaf_level pins T s (ws_tree _ _ _ _ _ Hws) 4 root ri (k * PGSIZE) c Hr Hl (proj2 Hk) Hlc) as (ci & Hci & Hci1 & _).
  destruct (tr_info _ _ _ (ws_tree _ _ _ _ _ Hws) c ci Hci) as (_ & _ & _ & Hp1).
  destruct (leaf_store_ok pins n T B s1 root ri k c (vmp_md_pte_create_trans q) 0 Hws1 Hr Hl Hk Hlc) as [Hws2 Hrt]; [by (change (mem s1) with (mem s); rewrite <-Ha, <-Hw, !noswap_nonzero)|by (change (mem s1) with (mem s); rewrite <-Ha, <-Hw, Hn1, Hn2)|lia|].
  rewrite <-Ha in Hws2, Hrt. change (mem s1) with (mem s) in Hws2, Hrt. set (s2 := set_mem _ s1) in *.
  assert (wstate pins n T B s2) as Hws2' by (eapply wstate_ext; [|exact Hws2]; intros y; unfold add_pin; case_decide; subst; lia).
  eapply wp_mono; [eapply (page_release_last n B s2 q x1); try done; [apply Hws2'|apply Hws2'|simpl; by rewrite lookup_insert_eq|simpl; rewrite Href; by rewrite store_eq|lia]|].
  intros [] s3 (Hpf3 & Hqm3 & Hroom3 & Hidle3). pose proof Hqm3 as [Hm3 _ Hq3 _]. simpl in Hpf3. rewrite insert_insert_eq in Hpf3.
  assert (retranslates T root ri k a (vmp_md_pte_create_trans q) s s3) as Hrt3 by (by eapply retranslates_mem; [exact Hrt| |]).
  assert (leaf_of (mem s) 4 root (k * PGSIZE) = Some (a / PGSIZE) ∧ a = cell (a / PGSIZE) (index (k * PGSIZE) 1)) as [Hleaf Hcell] by (rewrite Ha, cell_page by apply law_index; done).
  split_and!.
  - eapply (wstate_out pins n T B s2 s3 q x1 (with_refcnt 0 x1)); try done; simpl; [by rewrite lookup_insert_eq|by rewrite insert_insert_eq].
  - eapply (private_set p root ri res _ T B s s3 k a (vmp_md_pte_create_trans q) q (with_refcnt 0 x1)); try done.
    + split; try done; [by rewrite Hpf3, lookup_insert_eq|]. rewrite decide_False by (by rewrite Hkt). split_and!; try done. tauto.
    + intros k' a' w' Hk' Hne Hx'. eapply (private_distinct pins p root ri res T B s k a w q k' a' w'); try done. apply Hws.
    + intros k' Hne. tauto.
    + tauto.
  - eapply (moves_set pins p root ri k0 T B s s3 k a (vmp_md_pte_create_trans q) q x); try done; try apply Hws. left. unfold view. by rewrite Hxl.
  - intros k' Hk' Hne. by rewrite (rt_own _ _ _ _ _ _ _ _ Hrt3 k' Hk'), decide_False.
Qed.

(** ** Entering a page *)

Lemma xlate_none m t v c : leaf_of m 4 t v = Some c → xlate m 4 t v = None → kind (m (cell c (index v 1))) = kPTEKindZero.
Proof. intros Hc. unfold xlate. rewrite Hc. cbn [mbind option_bind]. unfold present. by case_decide. Qed.
(** How many entries more page [k] has when page [q] is entered there. *)
Definition enters (s : pst) (root : Z) (ri : table) (k k0 a q d : Z) : Prop :=
  (d = 0 ∧ ∃ w0, xlate (mem s) 4 root (k * PGSIZE) = Some (a, w0) ∧ child w0 = Some q) ∨
  (d = 1 ∧ k = k0 ∧ xlate (mem s) 4 root (k * PGSIZE) = None ∧
    ∀ k' a' w', user ri k' → xlate (mem s) 4 root (k' * PGSIZE) = Some (a', w') → child w' ≠ Some q).
(** The page [q] of the process is mapped at [k]: its description becomes [x'] on the way. *)
Lemma enter_ok pins n T B s s1 p root ri res k k0 c q x x' w d : wstate pins n T B s → wstate pins n T B s1 → T !! root = Some ri → t_level ri = 4%nat →
  private p root ri res T B s → user ri k → leaf_of (mem s) 4 root (k * PGSIZE) = Some c → T !! q = None → allocated B q 0 →
  pfndb s !! q = Some x → owner x = p → pfndb s1 = <[q := x']> (pfndb s) → mem s1 = mem s →
  (∀ y, y ≠ q → (y ∈ modified s → y ∈ modified s1) ∧ (y ∈ standby s → y ∈ standby s1)) → let a := cell c (index (k * PGSIZE) 1) in
  use x' = kPageUseAnonPrivate → owner x' = p → referent_pte x' = a → refcnt x' = 1 → child w = Some q → kind w = kPTEKindValid →
  enters s root ri k k0 a q d → d ≤ pins c → let s2 := set_mem (store (mem s1) a w) s1 in
  wstate (add_pin c (- d) pins) n T B s2 ∧ private p root ri (λ x, res x ∨ x = k) T B s2 ∧ moves p root ri k0 T B s T B s2 ∧
    xlate (mem s2) 4 root (k * PGSIZE) = Some (a, w).
Proof.
  intros Hws Hws1 Hr Hl Hpv Hk Hc HTq Hq Hx Hown Hpf Hm Hqu a Hu' Hown' Href' Hr' Hcw Hv Hen Hd s2. pose proof (ws_tree _ _ _ _ _ Hws) as Htr.
  destruct (leaf_level pins T s Htr 4 root ri (k * PGSIZE) c Hr Hl (proj2 Hk) Hc) as (ci & Hci & _). destruct (tr_info _ _ _ Htr c ci Hci) as (_ & _ & _ & Hp1).
  assert (Z.b2z (nonzero w) - Z.b2z (nonzero (mem s a)) = d ∧ Z.b2z (noswap w) - Z.b2z (noswap (mem s a)) = d ∧ 0 ≤ d ≤ 1) as (D1 & D2 & D3).
  { pose proof (child_noswap _ _ Hcw) as E. rewrite E, (noswap_nonzero _ E). destruct Hen as [(-> & w0 & Hx0 & Hc0)|(-> & _ & Hx0 & _)].
    - apply xlate_some in Hx0 as (c' & _ & _ & <- & _). pose proof (child_noswap _ _ Hc0) as E0. by rewrite E0, (noswap_nonzero _ E0).
    - pose proof (xlate_none _ _ _ _ Hc Hx0) as Hz. fold a in Hz. unfold nonzero, noswap. by rewrite Hz. }
  destruct (leaf_store_ok pins n T B s1 root ri k c w d Hws1 Hr Hl Hk) as [Hws2 Hrt]; [by rewrite Hm|by rewrite Hm|by rewrite Hm|lia|]. fold a s2 in Hws2, Hrt.
  assert (retranslates T root ri k a w s s2) as Hrt2 by (by eapply retranslates_mem; [exact Hrt| |]).
  assert (leaf_of (mem s) 4 root (k * PGSIZE) = Some (a / PGSIZE) ∧ a = cell (a / PGSIZE) (index (k * PGSIZE) 1)) as [Hleaf Hcell] by (unfold a; rewrite cell_page by apply law_index; done).
  split_and!; [done|..].
  - eapply (private_set p root ri res _ T B s s2 k a w q x'); try done.
    + split; try done; [simpl; by rewrite Hpf, lookup_insert_eq|]. rewrite decide_True by done. split; [done|by right].
    + intros k' a' w' Hk' Hne Hx'. destruct Hen as [(-> & w0 & Hx0 & Hc0)|(-> & _ & _ & Hfresh)]; [|by eapply Hfresh].
      by eapply (private_distinct pins p root ri res T B s k a w0 q k' a' w').
    + intros k' Hne. split; [intros [?|?]; done|by left].
  - eapply (moves_set pins p root ri k0 T B s s2 k a w q x x'); try done; try apply Hws; [simpl; by rewrite Hm|].
    destruct Hen as [(-> & w0 & Hx0 & Hc0)|(-> & -> & Hx0 & _)]; unfold view; rewrite Hx0; [by left|by right].
  - rewrite (rt_own _ _ _ _ _ _ _ _ Hrt2 k Hk), decide_True by done. by rewrite present_some by (by rewrite Hv).
Qed.
(** A page that is new. *)
Lemma step_fresh T B s B' s1 q x' : step T B s T B' s1 → ¬ out T B q → step T B s T B' (set_pfndb (<[q := x']> (pfndb s1)) s1).
Proof.
  intros [S1 S2 S3 S4 S5] Hq. split; try done. intros y x Hy Hx. destruct (S3 y x Hy Hx) as (z & Hz & Hs). exists z. simpl.
  rewrite lookup_insert_ne by (by intros ->). done.
Qed.

(** ** Insertion into the working set *)

Lemma wse_evict_ok pins n T B s p root ri res k k0 e : wstate pins n T B s → T !! root = Some ri → t_level ri = 4%nat → private p root ri res T B s → res k → vpfn e = k →
  ∃ s', evicts (root * PGSIZE) e s s' ∧ wstate pins n T B s' ∧ private p root ri (λ x, res x ∧ x ≠ k) T B s' ∧ moves p root ri k0 T B s T B s' ∧
    ∀ k', user ri k' → k' ≠ k → xlate (mem s') 4 root (k' * PGSIZE) = xlate (mem s) 4 root (k' * PGSIZE).
Proof.
  intros Hws Hr Hl Hpv Hrk He. destruct (pv_res _ _ _ _ _ _ _ Hpv k Hrk) as (Hk & a & w & Hx & Hv). pose proof (page_evict_ok pins n T B s p root ri res k k0 a w (vm_paddr_to_page (ROUNDDOWN a PGSIZE)) Hws Hr Hl Hpv Hrk Hx Hv) as Hev.
  apply wp_ok in Hev as ([] & s' & Hev & HQ). exists s'. split; [|exact HQ]. intros w1. unfold wse_evict, in_pages, zoom. simpl.
  assert (noswap w = true) as Hn by (unfold noswap; by rewrite Hv). pose proof (fetch_live pins T s root ri k a w (ws_tree _ _ _ _ _ Hws) Hr Hl Hk Hx Hn) as Hf.
  apply xlate_some in Hx as (c & _ & _ & Hw & _). rewrite He, shiftl_page by apply Hk. unfold mbind, kern_bind. rewrite Hf. unfold deref, word_at, gets. simpl.
  rewrite <-Hw, bool_decide_true by done. simpl. by rewrite Hev.
Qed.
Lemma shiftr_page k : Z.shiftr (k * PGSIZE) VMP_PAGE_SHIFT = k.
Proof. unfold PGSIZE, VMP_PAGE_SHIFT. rewrite Z.shiftr_div_pow2 by lia. apply Z.div_mul. lia. Qed.
(** A page that was mapped joins the working set, in the place of another one when there is
    no room. *)
Lemma wsl_insert_private_ok pins n T B s p root ri w fl k : wstate pins n T B s → T !! root = Some ri → t_level ri = 4%nat → list_ok w fl → hash_ok w → 0 < limit w →
  ¬ resident w k → private p root ri (λ x, resident w x ∨ x = k) T B s →
  wp (vmp_wsl_insert (root * PGSIZE) (k * PGSIZE) false) (λ r s', r = 0 ∧ ∃ w' fl' pg', s' = Wst w' pg' ∧ list_ok w' fl' ∧ hash_ok w' ∧ 0 < limit w' ∧
    wstate pins n T B pg' ∧ private p root ri (resident w') T B pg' ∧ moves p root ri k T B s T B pg' ∧
    xlate (mem pg') 4 root (k * PGSIZE) = xlate (mem s) 4 root (k * PGSIZE)) (Wst w s).
Proof.
  intros Hws Hr Hl Hlo Hho Hlim Hnr Hpv. unfold vmp_wsl_insert. cbv zeta. rewrite shiftr_page, wp_bind, wp_get. cbn [wsl].
  destruct (pv_res _ _ _ _ _ _ _ Hpv k (or_intror eq_refl)) as [Hk _].
  destruct ((size w <? limit w) || ws_can_expand (Wst w s)) eqn:E.
  - assert (size w < limit w ∨ limit w ≠ capacity w) as Hroom.
    { unfold ws_can_expand in E. simpl in E. apply orb_true_iff in E as [E%Z.ltb_lt|E]; [by left|right]. by apply andb_true_iff in E as [E%negb_true_iff%Z.eqb_neq _]. }
    eapply wp_mono; [by apply (insert_free_ok w s fl)|]. intros r s' (-> & w' & fl' & -> & Hlo' & Hho' & Hsz & Hres). split; [done|]. exists w', fl', s.
    pose proof (lo_limit _ _ Hlo). pose proof (lo_limit _ _ Hlo'). split_and!; try done; [lia| |apply moves_refl]. eapply private_ext; [|done]. intros x. by rewrite Hres.
  - apply orb_false_iff in E as [E%Z.ltb_ge _]. destruct (size_use w fl Hlo) as (i & v & Hu); [lia|].
    assert (∀ i v e, uses w i v → node w i = Some e → ∃ s', evicts (root * PGSIZE) e s s' ∧ v ≠ k ∧ wstate pins n T B s' ∧
      private p root ri (λ x, (resident w x ∨ x = k) ∧ x ≠ v) T B s' ∧ moves p root ri k T B s T B s' ∧ xlate (mem s') 4 root (k * PGSIZE) = xlate (mem s) 4 root (k * PGSIZE)) as Hev.
    { intros i' v' e Hu' He. assert (v' ≠ k) as Hne by (intros ->; apply Hnr; by exists i').
      destruct (wse_evict_ok pins n T B s p root ri (λ x, resident w x ∨ x = k) v' k e Hws Hr Hl Hpv) as (s' & ? & ? & ? & ? & Hx); [left; by exists i'| |].
      - destruct Hu' as (e' & _ & He' & _ & <-). congruence.
      - exists s'. split_and!; try done. by apply Hx. }
    eapply wp_mono; [eapply (insert_evict_ok (root * PGSIZE) w s fl); try done|].
    + intros i' v' e Hu' He. destruct (Hev i' v' e Hu' He) as (s' & ? & _). by exists s'.
    + intros r s' (-> & w' & pg' & v' & e & i' & -> & Hu' & He & Hevs & Hlo' & Hho' & Hsz & Hres). split; [done|]. exists w', fl, pg'.
      destruct (Hev i' v' e Hu' He) as (pg2 & Hevs2 & Hvk & Hws2 & Hpv2 & Hmv2 & Hx2). assert (pg2 = pg') as -> by (specialize (Hevs w); specialize (Hevs2 w); congruence).
      pose proof (lo_limit _ _ Hlo'). pose proof (used_pos w fl _ _ Hlo Hu). split_and!; try done; [lia|]. eapply private_ext; [|done].
      intros x. rewrite Hres. split; [intros [[?|?] ?]; [by left|by right]|intros [[? ?]| ->]; [by split; [left|]|by split; [right|]]].
Qed.
End private.
