(* ===== verification/Libkern.v ===== *)
(** The kernel's C library: kernel/libkern/libkern.c and murmurhash.c.

    Memory is a map from addresses to bytes; reading or writing a byte that is not
    there is [Fatal].  A loop that runs to the end of a string is given fuel, which is
    enough when it exceeds the length of the string.  Character constants are written
    as their codes. *)
From S2P Require Import Prelude.
Local Open Scope Z_scope.

Module Libkern.

Notation memory := (gmap Z Z).
Definition load (a : Z) : kern memory Z := m ← get; deref "load" (m !! a).
Definition store (a v : Z) : kern memory () := load a;; modify (<[a := v mod 256]>).

(** ** ctype.h *)

Definition isalpha (c : Z) : bool := (97 <=? c) && (c <=? 122) || (65 <=? c) && (c <=? 90).
Definition isdigit (c : Z) : bool := (48 <=? c) && (c <=? 57).
Definition isspace (c : Z) : bool := (c =? 32) || (c <=? 9) || (c =? 10) || (c =? 13) || (c =? 11) || (c =? 12).
Definition isupper (c : Z) : bool := (65 <=? c) && (c <=? 90).
Definition islower (c : Z) : bool := (97 <=? c) && (c <=? 122).
Definition isxdigit (c : Z) : bool := (48 <=? c) && (c <=? 57) || (97 <=? c) && (c <=? 102) || (65 <=? c) && (c <=? 70).
Definition tolower (c : Z) : Z := if (c <=? 0x7f) && (65 <=? c) && (c <=? 90) then c - 65 + 97 else c.
Definition toupper (c : Z) : Z := if (97 <=? c) && (c <=? 122) then 65 + (c - 97) else c.

(** ** stdlib.h *)

Section chars.
(** Whether [char] is signed is the compiler's choice. *)
Context (char_signed : bool).
Definition char (b : Z) : Z := if char_signed && (128 <=? b) then b - 256 else b.

Fixpoint skip_space (fuel : nat) (s : Z) : kern memory Z :=
  match fuel with
  | O => spin
  | S fuel' => c ← load s; if isspace (char c) then skip_space fuel' (s + 1) else mret s
  end.
(** [n] is computed as a negative number. *)
Fixpoint atoi_digits (fuel : nat) (s n : Z) : kern memory Z :=
  match fuel with
  | O => spin
  | S fuel' =>
      c ← load s;
      if isdigit (char c) then atoi_digits fuel' (s + 1) (i32 (10 * n - (char c - 48))) else mret n
  end.
Definition atoi (fuel : nat) (s : Z) : kern memory Z :=
  s ← skip_space fuel s;
  c ← load s;
  let neg := c =? 45 in
  let s := if (c =? 45) || (c =? 43) then s + 1 else s in
  n ← atoi_digits fuel s 0;
  mret (if neg then n else i32 (- n)).
End chars.

(** ** string.h: memory *)

Fixpoint memcmp (count : nat) (c1 c2 : Z) : kern memory Z :=
  match count with
  | O => mret 0
  | S n =>
      a ← load c1;
      b ← load c2;
      if negb (a =? b) then mret (if a <? b then -1 else 1) else memcmp n (c1 + 1) (c2 + 1)
  end.
(** [copy_up len d s]: bytes are copied in ascending order, [copy_down] in descending
    order from the ends [d] and [s]. *)
Fixpoint copy_up (len : nat) (d s : Z) : kern memory () :=
  match len with
  | O => mret ()
  | S n => b ← load s; store d b;; copy_up n (d + 1) (s + 1)
  end.
Fixpoint copy_down (len : nat) (d s : Z) : kern memory () :=
  match len with
  | O => mret ()
  | S n => b ← load (s - 1); store (d - 1) b;; copy_down n (d - 1) (s - 1)
  end.
Definition memcpy (dst src : Z) (len : nat) : kern memory Z := copy_up len dst src;; mret dst.
Definition memmove (dst src : Z) (len : nat) : kern memory Z :=
  (if src <? dst then copy_down len (dst + Z.of_nat len) (src + Z.of_nat len) else copy_up len dst src);;
  mret dst.
Fixpoint fill (len : nat) (d c : Z) : kern memory () :=
  match len with
  | O => mret ()
  | S n => store d c;; fill n (d + 1) c
  end.
Definition memset (b c : Z) (len : nat) : kern memory Z := fill len b c;; mret b.

(** ** string.h: strings *)

Fixpoint strcmp (fuel : nat) (s1 s2 : Z) : kern memory Z :=
  match fuel with
  | O => spin
  | S fuel' =>
      a ← load s1;
      b ← load s2;
      if a =? b then (if a =? 0 then mret 0 else strcmp fuel' (s1 + 1) (s2 + 1)) else mret (a - b)
  end.
(** The loop, with [n] at least one. *)
Fixpoint strncmp_loop (n : nat) (s1 s2 : Z) : kern memory Z :=
  a ← load s1;
  b ← load s2;
  if negb (a =? b) then mret (a - b)
  else if a =? 0 then mret 0
  else match n with O => mret 0 | S n' => strncmp_loop n' (s1 + 1) (s2 + 1) end.
Definition strncmp (s1 s2 : Z) (n : nat) : kern memory Z :=
  match n with O => mret 0 | S n' => strncmp_loop n' s1 s2 end.

Fixpoint strend (fuel : nat) (s : Z) : kern memory Z :=
  match fuel with
  | O => spin
  | S fuel' => c ← load s; if c =? 0 then mret s else strend fuel' (s + 1)
  end.
Definition strlen (fuel : nat) (str : Z) : kern memory Z := s ← strend fuel str; mret (s - str).
Fixpoint strnend (maxlen : nat) (cp : Z) : kern memory Z :=
  match maxlen with
  | O => mret cp
  | S n => c ← load cp; if c =? 0 then mret cp else strnend n (cp + 1)
  end.
Definition strnlen (str : Z) (maxlen : nat) : kern memory Z := cp ← strnend maxlen str; mret (cp - str).

(** Returns the address after the terminator it has written. *)
Fixpoint strcpy (fuel : nat) (dst src : Z) : kern memory Z :=
  match fuel with
  | O => spin
  | S fuel' =>
      c ← load src;
      store dst c;;
      if c =? 0 then mret (dst + 1) else strcpy fuel' (dst + 1) (src + 1)
  end.
(** The copying loop, with [n] bytes after this one. *)
Fixpoint strncpy_loop (n : nat) (d s : Z) : kern memory () :=
  c ← load s;
  store d c;;
  if c =? 0 then fill n (d + 1) 0
  else match n with O => mret () | S n' => strncpy_loop n' (d + 1) (s + 1) end.
Definition strncpy (dst src : Z) (n : nat) : kern memory Z :=
  match n with O => mret () | S n' => strncpy_loop n' dst src end;; mret dst.

(** [None] is NULL. *)
Fixpoint strchr (fuel : nat) (p ch : Z) : kern memory (option Z) :=
  match fuel with
  | O => spin
  | S fuel' =>
      c ← load p;
      if c =? ch mod 256 then mret (Some p)
      else if c =? 0 then mret None
      else strchr fuel' (p + 1) ch
  end.
(** [p] is the last occurrence seen so far. *)
Fixpoint strrchr_loop (fuel : nat) (str ch : Z) (p : option Z) : kern memory (option Z) :=
  match fuel with
  | O => spin
  | S fuel' =>
      let str := str + 1 in
      c ← load str;
      if c =? ch mod 256 then strrchr_loop fuel' str ch (Some str)
      else if c =? 0 then mret p
      else strrchr_loop fuel' str ch p
  end.
Definition strrchr (fuel : nat) (str c : Z) : kern memory (option Z) := strrchr_loop fuel str c None.

(** [dfuel] is for the scans of [s2]. *)
Definition is_some {A} (o : option A) : bool := if o then true else false.
Fixpoint strspn (dfuel fuel : nat) (s1 s2 : Z) : kern memory Z :=
  match fuel with
  | O => spin
  | S fuel' =>
      c ← load s1;
      if c =? 0 then mret 0
      else
        r ← strchr dfuel s2 c;
        if is_some r then n ← strspn dfuel fuel' (s1 + 1) s2; mret (n + 1) else mret 0
  end.
Fixpoint strcspn (dfuel fuel : nat) (s1 s2 : Z) : kern memory Z :=
  match fuel with
  | O => spin
  | S fuel' =>
      c ← load s1;
      if c =? 0 then mret 0
      else
        r ← strchr dfuel s2 c;
        if is_some r then mret 0 else n ← strcspn dfuel fuel' (s1 + 1) s2; mret (n + 1)
  end.
(** [str] is [None] to go on from [nextp]; the result is the token, if any, and the
    next value of [nextp]. *)
Definition strtok_r (fuel : nat) (str : option Z) (delim nextp : Z) : kern memory (option Z * Z) :=
  let str := default nextp str in
  n ← strspn fuel fuel str delim;
  let str := str + n in
  c ← load str;
  if c =? 0 then mret (None, nextp)
  else
    n ← strcspn fuel fuel str delim;
    let stop := str + n in
    c ← load stop;
    if negb (c =? 0) then store stop 0;; mret (Some str, stop + 1) else mret (Some str, stop).

(** ** MurmurHash64A *)

Definition m : Z := 0xc6a4a7935bd1e995.
Definition mix (k : Z) : Z :=
  let k := u64 (k * m) in
  let k := Z.lxor k (Z.shiftr k 47) in
  u64 (k * m).
Fixpoint le_bytes (l : list Z) : Z := match l with [] => 0 | b :: l' => Z.lor b (Z.shiftl (le_bytes l') 8) end.
(** [n] words of the key, as a little-endian machine reads them. *)
Fixpoint murmur_words (n : nat) (key : list Z) (h : Z) : Z :=
  match n with
  | O => h
  | S n' => murmur_words n' (drop 8 key) (u64 (Z.lxor h (mix (le_bytes (take 8 key))) * m))
  end.
(** The bytes after the last word: the cases of the switch fall through, from the
    highest byte to the lowest. *)
Definition murmur_tail (l : list Z) (h : Z) : Z :=
  match l with [] => h | _ => u64 (foldr (λ '(i, b) h, Z.lxor h (Z.shiftl b (8 * Z.of_nat i))) h (imap pair l) * m) end.
Definition MurmurHash64A (key : list Z) (len seed : Z) : Z :=
  let h := Z.lxor seed (u64 (len * m)) in
  let n := Z.to_nat (Z.quot len 8) in
  let h := murmur_words n key h in
  let h := murmur_tail (take (Z.to_nat (Z.land len 7)) (drop (8 * n) key)) h in
  let h := Z.lxor h (Z.shiftr h 47) in
  let h := u64 (h * m) in
  Z.lxor h (Z.shiftr h 47).
End Libkern.
