(* ===== verification/LibkernProofs.v ===== *)
(** The C library against lists of bytes: strings in memory, comparison, search,
    copying with overlap, tokens, and where the code departs from C. *)
From S2P Require Import Prelude Libkern.
Import Libkern.
Local Open Scope Z_scope.

Lemma load_run m a b : m !! a = Some b → load a m = Ok (b, m).
Proof. intros Hb. unfold load, deref, mbind, kern_bind, get. by rewrite Hb. Qed.
Lemma store_run m a b v : m !! a = Some b → store a v m = Ok ((), <[a := v mod 256]> m).
Proof. intros Hb. unfold store, mbind, kern_bind. by rewrite (load_run m a b). Qed.
Lemma bind_run {A B} (c : kern memory A) (f : A → kern memory B) m a m' : c m = Ok (a, m') → (c ≫= f) m = f a m'.
Proof. intros Hc. unfold mbind, kern_bind. by rewrite Hc. Qed.

(** ** Bytes and strings in memory *)

(** The bytes [l] are at [a]. *)
Fixpoint bytes (m : memory) (a : Z) (l : list Z) : Prop :=
  match l with [] => True | b :: l' => m !! a = Some b ∧ bytes m (a + 1) l' end.
Definition byte (b : Z) : Prop := 0 ≤ b < 256.
(** The string [s], with its terminator, is at [a]. *)
Definition cstr (m : memory) (a : Z) (s : list Z) : Prop := bytes m a (s ++ [0]) ∧ Forall (λ b, 0 < b < 256) s.

Lemma cstr_nil m a : cstr m a [] ↔ m !! a = Some 0.
Proof. unfold cstr. simpl. naive_solver. Qed.
Lemma cstr_cons m a c s : cstr m a (c :: s) ↔ m !! a = Some c ∧ 0 < c < 256 ∧ cstr m (a + 1) s.
Proof. unfold cstr. simpl. rewrite Forall_cons. naive_solver. Qed.
Lemma cstr_app m a s t : cstr m a (s ++ t) → cstr m (a + Z.of_nat (length s)) t.
Proof.
  revert a. induction s as [|c s IH]; intros a; cbn [app length]; [by rewrite Z.add_0_r|]. rewrite cstr_cons. intros (_ & _ & Hs).
  apply IH in Hs. by replace (a + Z.of_nat (S (length s))) with (a + 1 + Z.of_nat (length s)) by lia.
Qed.
Lemma bytes_lookup m a l : bytes m a l ↔ ∀ i b, l !! i = Some b → m !! (a + Z.of_nat i) = Some b.
Proof.
  revert a. induction l as [|c l IH]; intros a; simpl; [done|]. rewrite IH. split.
  - intros [H0 Hl] [|i] b Hi; simpl in Hi; [injection Hi as <-; by rewrite Z.add_0_r|]. rewrite <-(Hl i b Hi). f_equal. lia.
  - intros Hl. split; [specialize (Hl O c eq_refl); by rewrite Z.add_0_r in Hl|]. intros i b Hi. rewrite <-(Hl (S i) b Hi). f_equal. lia.
Qed.

(** ** Length *)

Lemma strend_run m a s fuel : cstr m a s → (length s < fuel)%nat → strend fuel a m = Ok (a + Z.of_nat (length s), m).
Proof.
  revert a s. induction fuel as [|f IH]; intros a s Hs Hf; [lia|]. simpl. destruct s as [|c s].
  - apply cstr_nil in Hs. rewrite (bind_run _ _ _ _ _ (load_run m a 0 Hs)). simpl. by rewrite Z.add_0_r.
  - apply cstr_cons in Hs as (Hc & Hr & Hs). rewrite (bind_run _ _ _ _ _ (load_run m a c Hc)). rewrite (proj2 (Z.eqb_neq c 0)) by lia.
    rewrite (IH _ s) by (done || (simpl in Hf; lia)). do 2 f_equal. simpl. lia.
Qed.
Lemma strlen_run m a s fuel : cstr m a s → (length s < fuel)%nat → strlen fuel a m = Ok (Z.of_nat (length s), m).
Proof. intros Hs Hf. unfold strlen. rewrite (bind_run _ _ _ _ _ (strend_run m a s fuel Hs Hf)). unfold mret, kern_ret. do 2 f_equal. lia. Qed.

(** ** Comparison *)

(** Lexicographic order of strings of unsigned bytes. *)
Fixpoint str_compare (s t : list Z) : comparison :=
  match s, t with
  | [], [] => Eq
  | [], _ => Lt
  | _, [] => Gt
  | a :: s', b :: t' => match a ?= b with Eq => str_compare s' t' | c => c end
  end.
Lemma str_compare_eq s t : str_compare s t = Eq ↔ s = t.
Proof.
  revert t. induction s as [|a s IH]; intros [|b t]; simpl; [done..|]. destruct (Z.compare_spec a b); [subst; rewrite IH|..]; naive_solver lia.
Qed.
Lemma str_compare_antisym s t : str_compare t s = CompOpp (str_compare s t).
Proof. revert t. induction s as [|a s IH]; intros [|b t]; simpl; [done..|]. rewrite Z.compare_antisym. destruct (a ?= b); simpl; [apply IH|done..]. Qed.

(** [strcmp] and [strncmp] decide that order. *)
Definition agrees (r : Z) (c : comparison) : Prop := (r ?= 0) = c.
Lemma agrees_sub a b : agrees (a - b) (a ?= b).
Proof. unfold agrees. destruct (Z.compare_spec a b); [subst; by rewrite Z.sub_diag|apply Z.compare_lt_iff; lia|apply Z.compare_gt_iff; lia]. Qed.
Lemma strcmp_run m a b s t fuel : cstr m a s → cstr m b t → (length s < fuel)%nat → ∃ r, strcmp fuel a b m = Ok (r, m) ∧ agrees r (str_compare s t).
Proof.
  revert a b s t. induction fuel as [|f IH]; intros a b s t Hs Ht Hf; [lia|]. simpl.
  assert (∃ c d s' t', m !! a = Some c ∧ m !! b = Some d ∧ 0 ≤ c ∧ 0 ≤ d ∧ (c = 0 ↔ s = []) ∧ (d = 0 ↔ t = []) ∧
    (c ≠ 0 → s = c :: s' ∧ cstr m (a + 1) s') ∧ (d ≠ 0 → t = d :: t' ∧ cstr m (b + 1) t')) as (c & d & s' & t' & Hc & Hd & Hc0 & Hd0 & Hcn & Hdn & Hcs & Hdt).
  { destruct s as [|c s], t as [|d t]; rewrite ?cstr_nil, ?cstr_cons in *; [exists 0, 0, [], []|exists 0, d, [], t|exists c, 0, s, []|exists c, d, s, t]; naive_solver lia. }
  rewrite (bind_run _ _ _ _ _ (load_run m a c Hc)), (bind_run _ _ _ _ _ (load_run m b d Hd)). destruct (Z.eqb_spec c d) as [<-|Hne].
  - destruct (Z.eqb_spec c 0) as [Hz|Hz].
    + rewrite (proj1 Hcn), (proj1 Hdn) by done. by exists 0.
    + destruct (Hcs Hz) as [-> Hs'], (Hdt Hz) as [-> Ht']. simpl. rewrite Z.compare_refl. apply IH; [done..|]. simpl in Hf. lia.
  - exists (c - d). split; [done|]. destruct (decide (c = 0)) as [->|Hcz], (decide (d = 0)) as [->|Hdz]; [done|..].
    + rewrite (proj1 Hcn) by done. destruct (Hdt Hdz) as [-> _]. simpl. unfold agrees. apply Z.compare_lt_iff. lia.
    + rewrite (proj1 Hdn) by done. destruct (Hcs Hcz) as [-> _]. simpl. unfold agrees. apply Z.compare_gt_iff. lia.
    + destruct (Hcs Hcz) as [-> _], (Hdt Hdz) as [-> _]. simpl. pose proof (agrees_sub c d) as Ha. destruct (Z.compare_spec c d); [done..|]. done.
Qed.

(** ** Search *)

Fixpoint index (c : Z) (s : list Z) : option nat :=
  match s with [] => None | x :: s' => if x =? c then Some O else S <$> index c s' end.
Lemma strchr_run m a s fuel c : cstr m a s → 0 < c < 256 → (length s < fuel)%nat →
  strchr fuel a c m = Ok ((λ i, a + Z.of_nat i) <$> index c s, m).
Proof.
  intros Hs Hc. revert a s Hs. induction fuel as [|f IH]; intros a s Hs Hf; [lia|]. simpl. rewrite (Z.mod_small c) by lia. destruct s as [|x s].
  - apply cstr_nil in Hs. rewrite (bind_run _ _ _ _ _ (load_run m a 0 Hs)). rewrite (proj2 (Z.eqb_neq 0 c)) by lia. done.
  - apply cstr_cons in Hs as (Hx & Hr & Hs). rewrite (bind_run _ _ _ _ _ (load_run m a x Hx)). simpl. destruct (Z.eqb_spec x c).
    + unfold mret, kern_ret. simpl. by rewrite Z.add_0_r.
    + rewrite (proj2 (Z.eqb_neq x 0)) by lia. rewrite (IH (a + 1) s) by (done || (simpl in Hf; lia)). do 2 f_equal.
      destruct (index c s); simpl; [f_equal; lia|done].
Qed.
Lemma index_None c s : index c s = None ↔ c ∉ s.
Proof.
  induction s as [|x s IH]; simpl; [set_solver|]. destruct (Z.eqb_spec x c) as [->|Hne]; [set_solver|]. rewrite fmap_None, IH. set_solver.
Qed.

(** ** Copying *)

(** Memory with the bytes [l] written at [d]. *)
Fixpoint write (m : memory) (d : Z) (l : list Z) : memory :=
  match l with [] => m | b :: l' => <[d := b]> (write m (d + 1) l') end.
Definition mapped (m : memory) (d : Z) (n : nat) : Prop := ∀ a, d ≤ a < d + Z.of_nat n → is_Some (m !! a).

Lemma write_lookup m d l a : write m d l !! a = if decide (d ≤ a < d + Z.of_nat (length l)) then l !! Z.to_nat (a - d) else m !! a.
Proof.
  revert d. induction l as [|b l IH]; intros d; cbn [write length]; [rewrite decide_False by lia; done|].
  destruct (decide (a = d)) as [->|Hne].
  - rewrite lookup_insert_eq, decide_True by lia. by rewrite Z.sub_diag.
  - rewrite lookup_insert_ne, IH by done. destruct (decide (d ≤ a < d + Z.of_nat (S (length l)))).
    + rewrite decide_True by lia. replace (Z.to_nat (a - d)) with (S (Z.to_nat (a - (d + 1)))) by lia. done.
    + by rewrite decide_False by lia.
Qed.
Lemma write_snoc m d l b : write m d (l ++ [b]) = write (<[d + Z.of_nat (length l) := b]> m) d l.
Proof.
  revert d. induction l as [|c l IH]; intros d; cbn [write app length]; [by rewrite Z.add_0_r|]. rewrite IH. do 3 f_equal. lia.
Qed.
Lemma write_insert m d l a b : a < d ∨ d + Z.of_nat (length l) ≤ a → write (<[a := b]> m) d l = <[a := b]> (write m d l).
Proof.
  revert d. induction l as [|c l IH]; intros d Ha; cbn [write length] in *; [done|]. rewrite IH by lia. apply insert_insert_ne. lia.
Qed.
Lemma mapped_insert m d n a b : mapped m d n → mapped (<[a := b]> m) d n.
Proof. intros Hm x Hx. destruct (decide (x = a)) as [->|]; [by rewrite lookup_insert_eq|]. rewrite lookup_insert_ne by done. auto. Qed.
Lemma bytes_insert m s l a b : a < s ∨ s + Z.of_nat (length l) ≤ a → bytes m s l → bytes (<[a := b]> m) s l.
Proof.
  revert s. induction l as [|c l IH]; intros s Ha Hb; cbn [bytes length] in *; [done|]. destruct Hb as [Hc Hb]. split; [|apply IH; [lia|done]].
  rewrite lookup_insert_ne by lia. done.
Qed.
Lemma bytes_app m s l l' : bytes m s (l ++ l') ↔ bytes m s l ∧ bytes m (s + Z.of_nat (length l)) l'.
Proof.
  revert s. induction l as [|c l IH]; intros s; cbn [bytes app length]; [rewrite Z.add_0_r; tauto|]. rewrite IH.
  replace (s + 1 + Z.of_nat (length l)) with (s + Z.of_nat (S (length l))) by lia. tauto.
Qed.

Lemma copy_up_run m d s l : bytes m s l → Forall byte l → mapped m d (length l) → d ≤ s ∨ s + Z.of_nat (length l) ≤ d →
  copy_up (length l) d s m = Ok ((), write m d l).
Proof.
  intros Hs Hb Hm Hd. revert m d s Hs Hm Hd. induction l as [|b l IH]; intros m d s Hs Hm Hd; [done|]. cbn [length copy_up bytes write] in *.
  destruct Hs as [Hc Hs]. apply Forall_cons in Hb as [Hb Hbs]. rewrite (bind_run _ _ _ _ _ (load_run m s b Hc)).
  destruct (Hm d) as [v Hv]; [lia|]. rewrite (bind_run _ _ _ _ _ (store_run m d v b Hv)), (Z.mod_small b) by (unfold byte in Hb; lia).
  rewrite IH; [by rewrite write_insert by lia|done|apply bytes_insert; [lia|done]|apply mapped_insert; intros x Hx; apply Hm; lia|lia].
Qed.
Lemma copy_down_run m d s l : bytes m s l → Forall byte l → mapped m d (length l) → s ≤ d →
  copy_down (length l) (d + Z.of_nat (length l)) (s + Z.of_nat (length l)) m = Ok ((), write m d l).
Proof.
  intros Hs Hb Hm Hd. revert m Hs Hm. induction l as [|b l IH] using rev_ind; intros m Hs Hm; [done|].
  rewrite length_app, Nat.add_1_r in *. cbn [copy_down]. apply Forall_app in Hb as [Hb Hb1]. rewrite Forall_singleton in Hb1. apply bytes_app in Hs as [Hs [Hc _]].
  replace (s + Z.of_nat (S (length l)) - 1) with (s + Z.of_nat (length l)) by lia. replace (d + Z.of_nat (S (length l)) - 1) with (d + Z.of_nat (length l)) by lia.
  rewrite (bind_run _ _ _ _ _ (load_run m _ b Hc)). destruct (Hm (d + Z.of_nat (length l))) as [v Hv]; [lia|].
  rewrite (bind_run _ _ _ _ _ (store_run m _ v b Hv)), (Z.mod_small b) by (unfold byte in Hb1; lia). rewrite write_snoc.
  apply IH; [done|apply bytes_insert; [lia|done]|apply mapped_insert; intros x Hx; apply Hm; lia].
Qed.
Lemma memmove_run m d s l : bytes m s l → Forall byte l → mapped m d (length l) → memmove d s (length l) m = Ok (d, write m d l).
Proof.
  intros Hs Hb Hm. unfold memmove. destruct (Z.ltb_spec s d).
  - by rewrite (bind_run _ _ _ _ _ (copy_down_run m d s l Hs Hb Hm ltac:(lia))).
  - by rewrite (bind_run _ _ _ _ _ (copy_up_run m d s l Hs Hb Hm ltac:(lia))).
Qed.
Lemma memcpy_run m d s l : bytes m s l → Forall byte l → mapped m d (length l) → d ≤ s ∨ s + Z.of_nat (length l) ≤ d →
  memcpy d s (length l) m = Ok (d, write m d l).
Proof. intros Hs Hb Hm Hd. unfold memcpy. by rewrite (bind_run _ _ _ _ _ (copy_up_run m d s l Hs Hb Hm Hd)). Qed.
Lemma fill_run m d n c : mapped m d n → byte c → fill n d c m = Ok ((), write m d (replicate n c)).
Proof.
  intros Hm Hc. revert m d Hm. induction n as [|n IH]; intros m d Hm; [done|]. cbn [fill replicate write].
  destruct (Hm d) as [v Hv]; [lia|]. rewrite (bind_run _ _ _ _ _ (store_run m d v c Hv)), (Z.mod_small c) by (unfold byte in Hc; lia).
  rewrite IH by (apply mapped_insert; intros x Hx; apply Hm; lia). by rewrite write_insert by lia.
Qed.
Lemma write_bytes m d l : bytes (write m d l) d l.
Proof.
  apply bytes_lookup. intros i b Hi. pose proof (lookup_lt_Some _ _ _ Hi). rewrite write_lookup, decide_True by lia.
  by replace (Z.to_nat (d + Z.of_nat i - d)) with i by lia.
Qed.
Lemma strcpy_run m a b s fuel : cstr m b s → mapped m a (S (length s)) → a + Z.of_nat (length s) < b → (length s < fuel)%nat →
  strcpy fuel a b m = Ok (a + Z.of_nat (length s) + 1, write m a (s ++ [0])).
Proof.
  revert m a b s. induction fuel as [|f IH]; intros m a b s [Hs Hr] Hm Hab Hf; [lia|]. cbn [strcpy]. destruct (Hm a) as [v Hv]; [lia|].
  destruct s as [|c s]; cbn [length app bytes write] in *; destruct Hs as [Hc Hs]; rewrite (bind_run _ _ _ _ _ (load_run m b _ Hc)), (bind_run _ _ _ _ _ (store_run m a v _ Hv)).
  - cbn. by rewrite Z.add_0_r.
  - apply Forall_cons in Hr as [Hc' Hr]. rewrite (Z.mod_small c), (proj2 (Z.eqb_neq c 0)) by lia. rewrite (IH (<[a := c]> m) (a + 1) (b + 1) s); [|split; [apply bytes_insert; [lia|done]|done]| |lia|lia].
    + rewrite write_insert by lia. do 2 f_equal. lia.
    + apply mapped_insert. intros x Hx. apply Hm. lia.
Qed.

(** ** Tokens *)

(** How many of the first characters of [s] are, or are not, among [t]. *)
Fixpoint prefix_len (P : Z → bool) (s : list Z) : nat :=
  match s with [] => O | c :: s' => if P c then S (prefix_len P s') else O end.
Definition among (t : list Z) (c : Z) : bool := bool_decide (c ∈ t).

Lemma strchr_among m b t fuel c : cstr m b t → 0 < c < 256 → (length t < fuel)%nat → ∃ r, strchr fuel b c m = Ok (r, m) ∧ is_some r = among t c.
Proof.
  intros Ht Hc Hf. eexists. split; [by apply strchr_run|]. unfold among. destruct (index c t) eqn:E; simpl.
  - symmetry. apply bool_decide_eq_true. destruct (decide (c ∈ t)) as [|Hn]; [done|]. by rewrite (proj2 (index_None c t) Hn) in E.
  - symmetry. apply bool_decide_eq_false. by apply index_None.
Qed.
Lemma strspn_run m a b s t df fuel : cstr m a s → cstr m b t → (length t < df)%nat → (length s < fuel)%nat →
  strspn df fuel a b m = Ok (Z.of_nat (prefix_len (among t) s), m).
Proof.
  intros Hs Ht Hdf. revert a s Hs. induction fuel as [|f IH]; intros a s Hs Hf; [lia|]. cbn [strspn]. destruct s as [|c s].
  - apply cstr_nil in Hs. by rewrite (bind_run _ _ _ _ _ (load_run m a 0 Hs)).
  - apply cstr_cons in Hs as (Hc & Hr & Hs). rewrite (bind_run _ _ _ _ _ (load_run m a c Hc)). rewrite (proj2 (Z.eqb_neq c 0)) by lia.
    destruct (strchr_among m b t df c Ht Hr Hdf) as (r & Hr' & Hin). rewrite (bind_run _ _ _ _ _ Hr'), Hin. cbn [prefix_len]. destruct (among t c); [|done].
    rewrite (bind_run _ _ _ _ _ (IH (a + 1) s Hs ltac:(simpl in Hf; lia))). unfold mret, kern_ret. do 2 f_equal. lia.
Qed.
Lemma strcspn_run m a b s t df fuel : cstr m a s → cstr m b t → (length t < df)%nat → (length s < fuel)%nat →
  strcspn df fuel a b m = Ok (Z.of_nat (prefix_len (λ c, negb (among t c)) s), m).
Proof.
  intros Hs Ht Hdf. revert a s Hs. induction fuel as [|f IH]; intros a s Hs Hf; [lia|]. cbn [strcspn]. destruct s as [|c s].
  - apply cstr_nil in Hs. by rewrite (bind_run _ _ _ _ _ (load_run m a 0 Hs)).
  - apply cstr_cons in Hs as (Hc & Hr & Hs). rewrite (bind_run _ _ _ _ _ (load_run m a c Hc)). rewrite (proj2 (Z.eqb_neq c 0)) by lia.
    destruct (strchr_among m b t df c Ht Hr Hdf) as (r & Hr' & Hin). rewrite (bind_run _ _ _ _ _ Hr'), Hin. cbn [prefix_len]. destruct (among t c); simpl; [done|].
    rewrite (bind_run _ _ _ _ _ (IH (a + 1) s Hs ltac:(simpl in Hf; lia))). unfold mret, kern_ret. do 2 f_equal. lia.
Qed.
Lemma prefix_len_app (P : Z → bool) u s : Forall (λ c, P c = true) u → head s = None ∨ (∃ c, head s = Some c ∧ P c = false) → prefix_len P (u ++ s) = length u.
Proof.
  intros Hu Hs. induction Hu as [|c u Hc Hu IH]; simpl; [|by rewrite Hc, IH].
  destruct s as [|c s]; [done|]. simpl in *. destruct Hs as [?|(c' & [= <-] & ->)]; done.
Qed.
(** A terminator cuts a string. *)
Lemma cstr_cut m a s t : cstr m a (s ++ t) → cstr (<[a + Z.of_nat (length s) := 0]> m) a s.
Proof.
  unfold cstr. rewrite <-app_assoc, !bytes_app. intros [[Hs _] Hf]. apply Forall_app in Hf as [? _]. split_and!; [|simpl; by rewrite lookup_insert_eq|done].
  apply bytes_insert; [lia|done].
Qed.
Lemma cstr_insert m a s x v : x < a ∨ a + Z.of_nat (length s) < x → cstr m a s → cstr (<[x := v]> m) a s.
Proof. intros Hx [Hb Hf]. split; [|done]. apply bytes_insert; [|done]. rewrite length_app. simpl. lia. Qed.

(** The first token of a string, which is made a string of its own; the scan goes on
    with what follows the delimiter. *)
Lemma strtok_run m a b pre tok rest t nextp fuel :
  cstr m a (pre ++ tok ++ rest) → cstr m b t → b + Z.of_nat (length t) < a ∨ a + Z.of_nat (length (pre ++ tok ++ rest)) < b →
  (length t < fuel)%nat → (length (pre ++ tok ++ rest) < fuel)%nat → Forall (.∈ t) pre → tok ≠ [] → Forall (.∉ t) tok →
  (∀ c, head rest = Some c → c ∈ t) →
  ∃ next m', strtok_r fuel (Some a) b nextp m = Ok ((Some (a + Z.of_nat (length pre)), next), m') ∧
    cstr m' (a + Z.of_nat (length pre)) tok ∧ cstr m' next (tail rest) ∧ cstr m' b t ∧
    next = a + Z.of_nat (length (pre ++ tok ++ rest)) - Z.of_nat (length (tail rest)) ∧ ∀ x, x ≠ a + Z.of_nat (length (pre ++ tok)) ∨ rest = [] → m' !! x = m !! x.
Proof.
  intros Hs Ht Hab Hft Hfs Hpre Htok Htk Hrest. unfold strtok_r. cbn [default].
  destruct tok as [|c0 tok']; [done|]. apply Forall_cons in Htk as [Hc0 Htk].
  rewrite (bind_run _ _ _ _ _ (strspn_run m a b _ t fuel fuel Hs Ht Hft Hfs)), (prefix_len_app _ pre).
  2: { eapply Forall_impl; [exact Hpre|]. intros c Hc. by apply bool_decide_eq_true. }
  2: { right. exists c0. split; [done|]. by apply bool_decide_eq_false. }
  pose proof (cstr_app _ _ _ _ Hs) as Hs1. set (p := a + Z.of_nat (length pre)) in *. pose proof Hs1 as Hs1'. cbn [app] in Hs1'. apply cstr_cons in Hs1' as (Hc & Hcr & _).
  rewrite (bind_run _ _ _ _ _ (load_run m p c0 Hc)), (proj2 (Z.eqb_neq c0 0)) by lia. rewrite !length_app in *.
  rewrite (bind_run _ _ _ _ _ (strcspn_run m p b _ t fuel fuel Hs1 Ht Hft ltac:(rewrite length_app; lia))), (prefix_len_app _ (c0 :: tok')).
  2: { apply Forall_cons. split; [|eapply Forall_impl; [exact Htk|]; intros c Hn]; by apply negb_true_iff, bool_decide_eq_false. }
  2: { destruct rest as [|c rest]; [by left|right]. exists c. split; [done|]. apply negb_false_iff, bool_decide_eq_true, Hrest. done. }
  pose proof (cstr_app _ _ _ _ Hs1) as Hs2. set (q := p + Z.of_nat (length (c0 :: tok'))) in *. destruct rest as [|c rest].
  - apply cstr_nil in Hs2 as Hq. rewrite (bind_run _ _ _ _ _ (load_run m q 0 Hq)). simpl. exists q, m. split_and!; try done; [by rewrite app_nil_r in Hs1|unfold q, p; simpl; lia].
  - apply cstr_cons in Hs2 as (Hq & Hqr & Hs2). rewrite (bind_run _ _ _ _ _ (load_run m q c Hq)), (proj2 (Z.eqb_neq c 0)) by lia. cbn [negb].
    rewrite (bind_run _ _ _ _ _ (store_run m q c 0 Hq)). exists (q + 1), (<[q := 0]> m). cbn [length] in *. split_and!; [done| | | | |].
    + by apply (cstr_cut m p (c0 :: tok') (c :: rest)).
    + apply cstr_insert; [lia|done].
    + apply cstr_insert; [|done]. unfold q, p. lia.
    + unfold q, p. cbn [tail]. lia.
    + intros x [Hx|?]; [|done]. apply lookup_insert_ne. unfold q, p. lia.
Qed.

(** ** The theorems *)

(** [memmove] copies any run of bytes to any mapped place, overlapping or not: the
    destination then holds the bytes the source held, and nothing else has changed. *)
Theorem memmove_correct m dst src l : bytes m src l → Forall byte l → mapped m dst (length l) →
  ∃ m', memmove dst src (length l) m = Ok (dst, m') ∧
    ∀ a, m' !! a = if decide (dst ≤ a < dst + Z.of_nat (length l)) then l !! Z.to_nat (a - dst) else m !! a.
Proof. intros Hs Hb Hm. exists (write m dst l). split; [by apply memmove_run|apply write_lookup]. Qed.
(** Moving three bytes up by one. *)
Lemma memmove_correct_witness :
  ∃ m', memmove 1 0 3 {[0 := 7; 1 := 8; 2 := 9; 3 := 0]} = Ok (1, m') ∧ m' !! 3 = Some 9.
Proof.
  destruct (memmove_correct {[0 := 7; 1 := 8; 2 := 9; 3 := 0]} 1 0 [7; 8; 9]) as (m' & Hrun & Hm').
  - by split_and!.
  - repeat constructor; done.
  - intros a Ha. assert (a = 1 ∨ a = 2 ∨ a = 3) as [->|[->| ->]] by (simpl in Ha; lia); vm_compute; eauto.
  - exists m'. split; [exact Hrun|]. rewrite Hm'. reflexivity.
Defined.

(** [strcmp] returns: a number that is zero, negative or positive as the first
    string is equal to, before or after the second in the lexicographic order of
    unsigned bytes. *)
Theorem strcmp_correct m a b s t fuel : cstr m a s → cstr m b t → (length s < fuel)%nat →
  ∃ r, strcmp fuel a b m = Ok (r, m) ∧ (r ?= 0) = str_compare s t ∧ (r = 0 ↔ s = t).
Proof.
  intros Hs Ht Hf. destruct (strcmp_run m a b s t fuel Hs Ht Hf) as (r & Hr & Ha). exists r. split_and!; [done|done|].
  rewrite <-Z.compare_eq_iff, Ha. apply str_compare_eq.
Qed.
Lemma strcmp_correct_witness : ∃ r, strcmp 3 0 3 (list_to_map (zip [0; 1; 2; 3; 4; 5] [97; 98; 0; 97; 200; 0])) =
  Ok (r, list_to_map (zip [0; 1; 2; 3; 4; 5] [97; 98; 0; 97; 200; 0])) ∧ r < 0.
Proof.
  destruct (strcmp_correct (list_to_map (zip [0; 1; 2; 3; 4; 5] [97; 98; 0; 97; 200; 0])) 0 3 [97; 98] [97; 200] 3) as (r & Hr & Hc & _).
  - split; [vm_compute; tauto|]. repeat constructor; lia.
  - split; [vm_compute; tauto|]. repeat constructor; lia.
  - simpl. lia.
  - exists r. split; [exact Hr|]. by apply Z.compare_lt_iff.
Defined.

(** Three departures from the C library: [atoi] of an empty string reads past its
    terminator, since [isspace] accepts NUL; [strrchr] does not see the first
    character of a string; and [strcpy] returns the address after the copy instead of
    its start. *)
Theorem libkern_departures sg :
  (∀ f, (2 ≤ f)%nat → atoi sg f 0 {[0 := 0]} = Fatal "load") ∧
  (strrchr 2 0 47 {[0 := 47; 1 := 0]} = Ok (None, {[0 := 47; 1 := 0]})) ∧
  (∀ m a b s fuel, cstr m b s → mapped m a (S (length s)) → a + Z.of_nat (length s) < b → (length s < fuel)%nat →
    ∃ m', strcpy fuel a b m = Ok (a + Z.of_nat (length s) + 1, m') ∧ cstr m' a s).
Proof.
  split_and!; [|vm_compute; reflexivity|].
  - intros [|[|f]] Hf; [lia..|]. by destruct sg.
  - intros m a b s fuel Hs Hm Hab Hf. eexists. split; [by apply strcpy_run|]. split; [apply write_bytes|apply Hs].
Qed.
