(* ===== verification/Ninep.v ===== *)
(** 9p messages: kernel/fs/9p/9p_buf.c.  A buffer is a block of memory that holds the
    7-byte header of a message and its fields, little-endian on every machine. *)
From S2P Require Import Prelude Libkern LibkernProofs.
Import Libkern.
Local Open Scope Z_scope.

(** What the kernel's memory allocator offers its clients: a block of the size asked for,
    apart from all memory in use, or nothing. *)
Class Kmem := {
  kmem_alloc : Z → kern memory Z;
  kmem_free : Z → Z → kern memory ()
}.
Class KmemLaws (K : Kmem) : Prop := {
  kmem_alloc_fresh n (m : memory) : 0 < n < 2 ^ 20 →
    wp (kmem_alloc n) (λ p m', m ⊆ m' ∧ (∀ a, p ≤ a < p + n → m !! a = None ∧ ∃ b, m' !! a = Some b ∧ 0 ≤ b < 256)) m
}.

Module Ninep.

Definition sizeof_hdr : Z := 7.
Definition sizeof_qid : Z := 13.
Record ninep_qid := Qid { type : Z; version : Z; path : Z }.
Record ninep_buf := Buf { bufsize : Z; offset : Z; data : Z }.
Definition set_offset x b := Buf (bufsize b) x (data b).

(** Little-endian integers of [n] bytes. *)
Fixpoint store_le (n : nat) (a v : Z) : kern memory () :=
  match n with O => mret () | S n' => store a v;; store_le n' (a + 1) (Z.shiftr v 8) end.
Fixpoint load_le (n : nat) (a : Z) : kern memory Z :=
  match n with O => mret 0 | S n' => b ← load a; v ← load_le n' (a + 1); mret (Z.lor b (Z.shiftl v 8)) end.
(** [&buf->data->data[buf->offset]] *)
Definition here (b : ninep_buf) : Z := data b + sizeof_hdr + offset b.

Definition ninep_buf_alloc_bytes `{Kmem} (size : Z) : kern memory ninep_buf :=
  _ ← kmem_alloc 24;
  let bufsize := u64 (size + sizeof_hdr) in
  data ← kmem_alloc bufsize;
  mret (Buf bufsize 0 data).

Fixpoint skip_digits (fuel : nat) (fmt : Z) : kern memory Z :=
  match fuel with
  | O => spin
  | S fuel' => c ← load fmt; if isdigit c then skip_digits fuel' (fmt + 1) else mret fmt
  end.
Section format.
Context (char_signed : bool) (fuel : nat).
(** The size of the fields a format names: Q, l, F, d, h, and S followed by a length. *)
Fixpoint format_size (n : nat) (fmt size : Z) : kern memory Z :=
  match n with
  | O => spin
  | S n' =>
      c ← load fmt;
      let fmt := fmt + 1 in
      if c =? 0 then mret size
      else if c =? 81 then format_size n' fmt (size + sizeof_qid)
      else if c =? 108 then format_size n' fmt (size + 8)
      else if (c =? 70) || (c =? 100) then format_size n' fmt (size + 4)
      else if c =? 104 then format_size n' fmt (size + 2)
      else if c =? 83 then
        d ← load fmt;
        kassert "isdigit( *fmt)" (isdigit d);;
        len ← atoi char_signed fuel fmt;
        kassert "len > 0" (0 <? len);;
        fmt ← skip_digits fuel fmt;
        format_size n' fmt (size + 2 + len)
      else fatal "Bad 9p format"
  end.
Definition ninep_buf_alloc `{Kmem} (fmt : Z) : kern memory ninep_buf :=
  size ← format_size fuel fmt 0; ninep_buf_alloc_bytes size.
End format.
Definition ninep_buf_free `{Kmem} (ptr : Z) (b : ninep_buf) : kern memory () :=
  kmem_free (data b) (bufsize b);; kmem_free ptr 24.

(** ** Adding fields *)

(** An integer of [n] bytes: [ninep_buf_addu16], [addu32] and [addu64]. *)
Definition add_int (n : nat) (b : ninep_buf) (num : Z) : kern memory ninep_buf :=
  let newoff := offset b + Z.of_nat n in
  kassert "newoff <= buf->bufsize - sizeof(struct ninep_hdr)" (u64 newoff <=? u64 (bufsize b - sizeof_hdr));;
  store_le n (here b) num;;
  mret (set_offset newoff b).
Definition ninep_buf_addu16 := add_int 2.
Definition ninep_buf_addu32 := add_int 4.
Definition ninep_buf_addu64 := add_int 8.
Definition ninep_buf_addstr (fuel : nat) (b : ninep_buf) (str : Z) : kern memory ninep_buf :=
  slen ← strlen fuel str;
  let newoff := offset b + 2 + slen in
  kassert "newoff <= buf->bufsize + sizeof(struct ninep_hdr)" (u64 newoff <=? u64 (bufsize b + sizeof_hdr));;
  store_le 2 (here b) slen;;
  let b := set_offset (offset b + 2) b in
  _ ← memcpy (here b) str (Z.to_nat slen);
  mret (set_offset newoff b).
(** The size of the message goes into its header. *)
Definition ninep_buf_close (b : ninep_buf) : kern memory () := store_le 4 (data b) (u32 (offset b + sizeof_hdr)).

(** ** Getting fields *)

Definition get_int (n : nat) (b : ninep_buf) : kern memory (Z * ninep_buf) :=
  v ← load_le n (here b); mret (v, set_offset (offset b + Z.of_nat n) b).
Definition ninep_buf_getu8 := get_int 1.
Definition ninep_buf_getu16 := get_int 2.
(** With NULL for the result the field is skipped. *)
Definition get_opt (n : nat) (want : bool) (b : ninep_buf) : kern memory (option Z * ninep_buf) :=
  if want then '(v, b) ← get_int n b; mret (Some v, b) else mret (None, set_offset (offset b + Z.of_nat n) b).
Definition ninep_buf_getu32 := get_opt 4.
Definition ninep_buf_getu64 := get_opt 8.
Definition ninep_buf_getstr `{Kmem} (b : ninep_buf) : kern memory (Z * ninep_buf) :=
  slen ← load_le 2 (here b);
  let b := set_offset (offset b + 2) b in
  str ← kmem_alloc (slen + 1);
  _ ← memcpy str (here b) (Z.to_nat slen);
  store (str + slen) 0;;
  mret (str, set_offset (offset b + slen) b).
(** [None] is -1. *)
Definition ninep_buf_getqid (want : bool) (b : ninep_buf) : kern memory (option (option ninep_qid * ninep_buf)) :=
  size ← load_le 4 (data b);
  if size <? u64 (offset b + sizeof_hdr + sizeof_qid) then mret None
  else if want then
    '(t, b) ← get_int 1 b;
    '(v, b) ← get_int 4 b;
    '(p, b) ← get_int 8 b;
    mret (Some (Some (Qid t v p), b))
  else mret (Some (None, set_offset (offset b + sizeof_qid) b)).
End Ninep.

(** 9p messages: what is put into a buffer is got back, a buffer allocated for a format
    has room for the fields the format names, and where the bound of a string is wrong. *)
Import Libkern Ninep.

(** ** Little-endian integers *)

Fixpoint le_split (n : nat) (v : Z) : list Z :=
  match n with O => [] | S n' => v mod 256 :: le_split n' (Z.shiftr v 8) end.
Lemma length_le_split n v : length (le_split n v) = n.
Proof. revert v. induction n as [|n IH]; intros v; simpl; [done|by rewrite IH]. Qed.
Lemma le_split_bytes n v : Forall byte (le_split n v).
Proof. revert v. induction n as [|n IH]; intros v; simpl; constructor; [apply Z.mod_pos_bound; lia|done]. Qed.
Lemma le_bytes_split n v : le_bytes (le_split n v) = v mod 2 ^ (8 * Z.of_nat n).
Proof.
  revert v. induction n as [|n IH]; intros v; cbn [le_split le_bytes]; [by rewrite Z.mod_1_r|]. rewrite IH, <-!Z.land_ones by lia. change 256 with (2 ^ 8).
  rewrite <-Z.land_ones by lia. apply Z.bits_inj'. intros i Hi. rewrite Z.lor_spec, Z.shiftl_spec, !Z.land_spec by done.
  destruct (decide (i < 8)) as [Hl|Hl].
  - rewrite (Z.ones_spec_low 8), (Z.ones_spec_low (8 * Z.of_nat (S n))), !(Z.testbit_neg_r _ (i - 8)) by lia. by rewrite !andb_true_r, orb_false_r.
  - rewrite (Z.ones_spec_high 8), Z.shiftr_spec by lia. replace (i - 8 + 8) with i by lia. rewrite andb_false_r, orb_false_l. f_equal.
    destruct (decide (i < 8 * Z.of_nat (S n))); [rewrite !Z.ones_spec_low by lia|rewrite !Z.ones_spec_high by lia]; done.
Qed.

Lemma store_le_run m a n v : mapped m a n → store_le n a v m = Ok ((), write m a (le_split n v)).
Proof.
  revert m a v. induction n as [|n IH]; intros m a v Hm; cbn [store_le le_split write]; [done|]. destruct (Hm a) as [u Hu]; [lia|].
  rewrite (bind_run _ _ _ _ _ (store_run m a u v Hu)), IH; [by rewrite write_insert by lia|]. apply mapped_insert. intros x Hx. apply Hm. lia.
Qed.
Lemma load_le_run m a l : bytes m a l → load_le (length l) a m = Ok (le_bytes l, m).
Proof.
  revert a. induction l as [|b l IH]; intros a Hb; cbn [load_le le_bytes length]; [done|]. destruct Hb as [Hb Hl].
  by rewrite (bind_run _ _ _ _ _ (load_run m a b Hb)), (bind_run _ _ _ _ _ (IH (a + 1) Hl)).
Qed.
Lemma load_le_split m a n v : bytes m a (le_split n v) → 0 ≤ v < 2 ^ (8 * Z.of_nat n) → load_le n a m = Ok (v, m).
Proof. intros Hb Hv. rewrite <-(length_le_split n v) at 1. rewrite (load_le_run m a _ Hb), le_bytes_split, Z.mod_small by done. done. Qed.

(** ** Messages *)

Inductive nfield := FU16 (v : Z) | FU32 (v : Z) | FU64 (v : Z) | FStr (p : Z) (s : list Z).
Definition field_ok (f : nfield) : Prop :=
  match f with
  | FU16 v => 0 ≤ v < 2 ^ 16
  | FU32 v => 0 ≤ v < 2 ^ 32
  | FU64 v => 0 ≤ v < 2 ^ 64
  | FStr _ s => Z.of_nat (length s) < 2 ^ 16
  end.
(** The bytes of a field. *)
Definition encode (f : nfield) : list Z :=
  match f with
  | FU16 v => le_split 2 v
  | FU32 v => le_split 4 v
  | FU64 v => le_split 8 v
  | FStr _ s => le_split 2 (Z.of_nat (length s)) ++ s
  end.
Definition msg_len (fs : list nfield) : Z := Z.of_nat (length (concat (encode <$> fs))).

Section messages.
Context (fuel : nat).
Definition add_field (b : ninep_buf) (f : nfield) : kern memory ninep_buf :=
  match f with
  | FU16 v => ninep_buf_addu16 b v
  | FU32 v => ninep_buf_addu32 b v
  | FU64 v => ninep_buf_addu64 b v
  | FStr p _ => ninep_buf_addstr fuel b p
  end.
Fixpoint add_fields (b : ninep_buf) (fs : list nfield) : kern memory ninep_buf :=
  match fs with [] => mret b | f :: fs' => b ← add_field b f; add_fields b fs' end.
End messages.
Inductive nvalue := VInt (v : Z) | VStr (p : Z).
(** Getting the field that was added as [f]. *)
Definition get_field `{Kmem} (b : ninep_buf) (f : nfield) : kern memory (option nvalue * ninep_buf) :=
  match f with
  | FU16 _ => '(v, b) ← ninep_buf_getu16 b; mret (Some (VInt v), b)
  | FU32 _ => '(v, b) ← ninep_buf_getu32 true b; mret (VInt <$> v, b)
  | FU64 _ => '(v, b) ← ninep_buf_getu64 true b; mret (VInt <$> v, b)
  | FStr _ _ => '(p, b) ← ninep_buf_getstr b; mret (Some (VStr p), b)
  end.
Fixpoint get_fields `{Kmem} (b : ninep_buf) (fs : list nfield) : kern memory (list (option nvalue) * ninep_buf) :=
  match fs with
  | [] => mret ([], b)
  | f :: fs' => '(v, b) ← get_field b f; '(vs, b) ← get_fields b fs'; mret (v :: vs, b)
  end.
(** The value got for [f]. *)
Definition got (m : memory) (f : nfield) (v : option nvalue) : Prop :=
  match f, v with
  | FU16 n, Some (VInt x) | FU32 n, Some (VInt x) | FU64 n, Some (VInt x) => x = n
  | FStr _ s, Some (VStr p) => cstr m p s
  | _, _ => False
  end.

(** The block of a buffer is mapped; the strings to be added are apart from it. *)
Record buf_ok (m : memory) (b : ninep_buf) : Prop := BufOk {
  bo_mapped : mapped m (data b) (Z.to_nat (bufsize b));
  bo_size : sizeof_hdr ≤ bufsize b < 2 ^ 32;
  bo_offset : 0 ≤ offset b
}.
Definition string_ok (m : memory) (b : ninep_buf) (f : nfield) : Prop :=
  match f with FStr p s => cstr m p s ∧ (p + Z.of_nat (length s) < data b ∨ data b + bufsize b ≤ p) | _ => True end.

(** ** Adding *)

Lemma msg_len_cons f fs : msg_len (f :: fs) = Z.of_nat (length (encode f)) + msg_len fs.
Proof. unfold msg_len. rewrite fmap_cons. cbn [concat]. rewrite length_app. lia. Qed.
Lemma encode_bytes m b f : string_ok m b f → Forall byte (encode f).
Proof.
  destruct f as [v|v|v|p s]; cbn [encode string_ok]; [intros _; apply le_split_bytes..|]. intros [[_ Hs] _]. apply Forall_app. split; [apply le_split_bytes|].
  eapply Forall_impl; [exact Hs|]. intros c Hc. simpl in Hc. unfold byte. lia.
Qed.
Lemma write_app m d l l' : write m d (l ++ l') = write (write m (d + Z.of_nat (length l)) l') d l.
Proof. revert d. induction l as [|c l IH]; intros d; cbn [write app length]; [by rewrite Z.add_0_r|]. rewrite IH. do 3 f_equal. lia. Qed.
Lemma write_comm m d l d' l' : d + Z.of_nat (length l) ≤ d' → write (write m d l) d' l' = write (write m d' l') d l.
Proof.
  revert d. induction l as [|c l IH]; intros d Hd; cbn [write length] in *; [done|]. rewrite write_insert, IH by lia. done.
Qed.
Lemma write_app' m d l l' : write m d (l ++ l') = write (write m d l) (d + Z.of_nat (length l)) l'.
Proof. rewrite write_app, <-write_comm; [done|lia]. Qed.
Lemma mapped_write m d n a l : mapped m d n → mapped (write m a l) d n.
Proof. revert a. induction l as [|c l IH]; intros a Hm; cbn [write]; [done|]. by apply mapped_insert, IH. Qed.
Lemma bytes_write m s l a l' : a + Z.of_nat (length l') ≤ s ∨ s + Z.of_nat (length l) ≤ a → bytes m s l → bytes (write m a l') s l.
Proof.
  revert a. induction l' as [|c l' IH]; intros a Ha Hb; cbn [write length] in *; [done|]. apply bytes_insert; [lia|]. apply IH; [lia|done].
Qed.
Lemma cstr_write m a s d l : d + Z.of_nat (length l) ≤ a ∨ a + Z.of_nat (length s) < d → cstr m a s → cstr (write m d l) a s.
Proof. intros Hd [Hb Hs]. split; [|done]. apply bytes_write; [|done]. rewrite length_app. simpl. lia. Qed.

Lemma add_int_run m b n v : buf_ok m b → offset b + Z.of_nat n ≤ bufsize b - sizeof_hdr → (n ≤ 8)%nat →
  add_int n b v m = Ok (set_offset (offset b + Z.of_nat n) b, write m (here b) (le_split n v)).
Proof.
  intros [Hm Hs Ho] Hf Hn. unfold sizeof_hdr in *. unfold add_int. rewrite !u64_small by (unfold sizeof_hdr; lia).
  rewrite (proj2 (Z.leb_le _ _)) by (unfold sizeof_hdr; lia).
  rewrite (bind_run _ _ m () m) by done. rewrite (bind_run _ _ m () (write m (here b) (le_split n v))); [done|]. apply store_le_run.
  intros a Ha. apply Hm. unfold here, sizeof_hdr in Ha. lia.
Qed.
Lemma addstr_run m b p s fuel : buf_ok m b → string_ok m b (FStr p s) → (length s < fuel)%nat → Z.of_nat (length s) < 2 ^ 16 →
  offset b + Z.of_nat (length (encode (FStr p s))) ≤ bufsize b - sizeof_hdr →
  ninep_buf_addstr fuel b p m = Ok (set_offset (offset b + Z.of_nat (length (encode (FStr p s)))) b, write m (here b) (encode (FStr p s))).
Proof.
  intros [Hm Hs Ho] [Hc Hd] Hf Hl Hfit. cbn [encode] in *. rewrite length_app, length_le_split in *. unfold sizeof_hdr in *. unfold ninep_buf_addstr.
  rewrite (bind_run _ _ _ _ _ (strlen_run m p s fuel Hc Hf)). rewrite !u64_small by (unfold sizeof_hdr; lia). rewrite (proj2 (Z.leb_le _ _)) by (unfold sizeof_hdr; lia).
  rewrite (bind_run _ _ m () m) by done. set (w := le_split 2 (Z.of_nat (length s))).
  assert (store_le 2 (here b) (Z.of_nat (length s)) m = Ok ((), write m (here b) w)) as Hst.
  { apply store_le_run. intros a Ha. apply Hm. unfold here, sizeof_hdr in Ha. lia. }
  rewrite (bind_run _ _ _ _ _ Hst), Nat2Z.id. cbn [data bufsize offset set_offset].
  assert (here (set_offset (offset b + 2) b) = here b + 2) as -> by (unfold here; simpl; lia).
  rewrite (bind_run _ _ _ (here b + 2) (write (write m (here b) w) (here b + 2) s)).
  - unfold mret, kern_ret. do 2 f_equal; [unfold set_offset; simpl; f_equal; lia|]. rewrite write_app'. done.
  - destruct Hc as [Hb Hs']. apply bytes_app in Hb as [Hb _]. apply memcpy_run.
    + apply bytes_write; [|done]. unfold w. rewrite length_le_split. unfold here, sizeof_hdr. lia.
    + eapply Forall_impl; [exact Hs'|]. intros c Hc. simpl in Hc. unfold byte. lia.
    + apply mapped_write. intros a Ha. apply Hm. unfold here, sizeof_hdr in Ha. lia.
    + unfold here, sizeof_hdr. lia.
Qed.
Lemma add_field_run m b f fuel : buf_ok m b → string_ok m b f → field_ok f → offset b + Z.of_nat (length (encode f)) ≤ bufsize b - sizeof_hdr →
  (length (encode f) < fuel)%nat →
  add_field fuel b f m = Ok (set_offset (offset b + Z.of_nat (length (encode f))) b, write m (here b) (encode f)).
Proof.
  intros Hb Hs Hf Hfit Hfuel. destruct f as [v|v|v|p s]; cbn [add_field]; [..|apply addstr_run; try done; cbn [encode] in Hfuel; rewrite length_app in Hfuel; lia];
    cbn [encode] in *; rewrite length_le_split in *; apply add_int_run; (done || lia).
Qed.
Lemma add_fields_run m b fs fuel : buf_ok m b → Forall (string_ok m b) fs → Forall field_ok fs → offset b + msg_len fs ≤ bufsize b - sizeof_hdr →
  (Z.to_nat (bufsize b) ≤ fuel)%nat →
  add_fields fuel b fs m = Ok (set_offset (offset b + msg_len fs) b, write m (here b) (concat (encode <$> fs))).
Proof.
  intros Hb Hs Hf Hfit Hfuel. revert m b Hb Hs Hfit Hfuel. induction Hf as [|f fs Hf Hfs IH]; intros m b Hb Hs Hfit Hfuel.
  { cbn. unfold msg_len. cbn. rewrite Z.add_0_r. unfold mret, kern_ret. do 2 f_equal. by destruct b. }
  rewrite msg_len_cons in *. apply Forall_cons in Hs as [Hsf Hs]. assert (0 ≤ msg_len fs) by (unfold msg_len; lia). pose proof Hb as [Hm Hsz Ho].
  cbn [add_fields]. rewrite fmap_cons. cbn [concat]. unfold sizeof_hdr in *. rewrite (bind_run _ _ _ _ _ (add_field_run m b f fuel Hb Hsf Hf ltac:(unfold sizeof_hdr; lia) ltac:(lia))).
  rewrite IH; cbn [set_offset data bufsize offset].
  - do 2 f_equal; [unfold set_offset; simpl; f_equal; lia|]. rewrite write_app'. f_equal. unfold here. simpl. lia.
  - split; simpl; [by apply mapped_write|done|lia].
  - eapply Forall_impl; [exact Hs|]. intros [v|v|v|p s]; cbn [string_ok]; try done. intros [Hc Hd]. split; [|done]. apply cstr_write; [|done].
    unfold here, sizeof_hdr. lia.
  - unfold sizeof_hdr. lia.
  - done.
Qed.

(** ** Getting *)

Lemma bytes_mono m m' a l : m ⊆ m' → bytes m a l → bytes m' a l.
Proof. intros Hm. revert a. induction l as [|c l IH]; intros a; cbn [bytes]; [done|]. intros [Hc Hl]. split; [by eapply lookup_weaken|by apply IH]. Qed.
Lemma cstr_mono m m' a s : m ⊆ m' → cstr m a s → cstr m' a s.
Proof. intros Hm [Hb Hs]. split; [by eapply bytes_mono|done]. Qed.
Lemma got_mono m m' f v : m ⊆ m' → got m f v → got m' f v.
Proof. intros Hm. destruct f, v as [[]|]; cbn [got]; try done. by apply cstr_mono. Qed.
Lemma write_fresh m m' d l : m ⊆ m' → (∀ a, d ≤ a < d + Z.of_nat (length l) → m !! a = None) → m ⊆ write m' d l.
Proof.
  intros Hm Hd. apply map_subseteq_spec. intros a b Hab. rewrite write_lookup, decide_False; [by eapply lookup_weaken|].
  intros Ha. rewrite Hd in Hab by done. done.
Qed.

(** Bytes in memory are apart from a block that is not mapped. *)
Lemma bytes_apart m p l d n : bytes m p l → 0 < n → (0 < length l)%nat → (∀ a, d ≤ a < d + n → m !! a = None) → p + Z.of_nat (length l) ≤ d ∨ d + n ≤ p.
Proof.
  rewrite bytes_lookup. intros Hb Hn Hl Hd. destruct (decide (d < p + Z.of_nat (length l) ∧ p < d + n)) as [[H1 H2]|]; [exfalso|lia].
  destruct (lookup_lt_is_Some_2 l (Z.to_nat (Z.max p d - p))) as [v Hv]; [lia|]. apply Hb in Hv. rewrite Z2Nat.id in Hv by lia.
  replace (p + (Z.max p d - p)) with (Z.max p d) in Hv by lia. rewrite Hd in Hv by lia. done.
Qed.

Section get.
Context `{KL : KmemLaws}.

Lemma get_int_run m b n v : bytes m (here b) (le_split n v) → 0 ≤ v < 2 ^ (8 * Z.of_nat n) →
  get_int n b m = Ok ((v, set_offset (offset b + Z.of_nat n) b), m).
Proof. intros Hb Hv. unfold get_int. by rewrite (bind_run _ _ _ _ _ (load_le_split m (here b) n v Hb Hv)). Qed.
Lemma getstr_ok m b s : bytes m (here b) (le_split 2 (Z.of_nat (length s)) ++ s) → Z.of_nat (length s) < 2 ^ 16 → Forall (λ b, 0 < b < 256) s →
  wp (ninep_buf_getstr b) (λ r m', m ⊆ m' ∧ cstr m' r.1 s ∧ r.2 = set_offset (offset b + 2 + Z.of_nat (length s)) b) m.
Proof.
  intros Hb Hl Hs. apply bytes_app in Hb as [Hb0 Hb]. rewrite length_le_split in Hb. unfold ninep_buf_getstr. rewrite wp_bind.
  apply wp_ok. eexists _, m. split; [by apply load_le_split; [exact Hb0|lia]|]. cbv zeta. rewrite wp_bind.
  eapply wp_mono; [apply (kmem_alloc_fresh (Z.of_nat (length s) + 1)); lia|]. intros p m1 (Hm1 & Hfresh). rewrite Nat2Z.id, wp_bind.
  assert (here (set_offset (offset b + 2) b) = here b + Z.of_nat 2) as -> by (unfold here; simpl; lia).
  assert (memcpy p (here b + Z.of_nat 2) (length s) m1 = Ok (p, write m1 p s)) as Hcp.
  { apply memcpy_run; [by eapply bytes_mono|eapply Forall_impl; [exact Hs|]; intros c Hc; simpl in Hc; unfold byte; lia| |].
    - intros a Ha. destruct (Hfresh a) as (_ & v & Hv & _); [lia|]. eauto.
    - destruct s as [|c s]; [simpl; lia|]. destruct (bytes_apart m _ (c :: s) p (Z.of_nat (length (c :: s)) + 1) Hb) as [?|?]; [lia|simpl; lia| |lia..].
      intros a Ha. by apply Hfresh. }
  apply wp_ok. eexists _, _. split; [exact Hcp|]. rewrite wp_bind. destruct (Hfresh (p + Z.of_nat (length s))) as (_ & v & Hv & _); [lia|].
  apply wp_ok. eexists (), _. split; [apply (store_run _ _ v); rewrite write_lookup, decide_False by lia; done|]. rewrite wp_ret. simpl fst. simpl snd.
  rewrite <-write_insert by lia. split_and!.
  - apply write_fresh; [|intros a Ha; apply Hfresh; lia]. apply insert_subseteq_r; [|done]. apply Hfresh. lia.
  - split; [|done]. apply bytes_app. split; [apply write_bytes|]. simpl. rewrite write_lookup, decide_False by lia. by rewrite lookup_insert_eq.
  - unfold set_offset. simpl. f_equal.
Qed.

Lemma get_field_ok m b f : field_ok f → bytes m (here b) (encode f) → (∀ p s, f = FStr p s → Forall (λ b, 0 < b < 256) s) →
  wp (get_field b f) (λ r m', m ⊆ m' ∧ got m' f r.1 ∧ r.2 = set_offset (offset b + Z.of_nat (length (encode f))) b) m.
Proof.
  intros Hf Hb Hs. destruct f as [v|v|v|p s]; cbn [get_field encode] in *.
  1-3: unfold ninep_buf_getu16, ninep_buf_getu32, ninep_buf_getu64, get_opt; rewrite length_le_split, wp_bind; apply wp_ok.
  - eexists _, m. split; [by apply get_int_run|done].
  - eexists _, m. split; [by rewrite (bind_run _ _ _ _ _ (get_int_run m b 4 v Hb Hf))|done].
  - eexists _, m. split; [by rewrite (bind_run _ _ _ _ _ (get_int_run m b 8 v Hb Hf))|done].
  - rewrite wp_bind. eapply wp_mono; [by apply getstr_ok; [..|eapply Hs]|]. intros [q b'] m' (Hm & Hc & Hb'). simpl in Hb'. subst b'. rewrite wp_ret. simpl fst. simpl snd. split_and!; [done|done|].
    unfold set_offset. f_equal. rewrite length_app, length_le_split. lia.
Qed.
Lemma get_fields_ok m b fs : Forall field_ok fs → bytes m (here b) (concat (encode <$> fs)) → (∀ p s, FStr p s ∈ fs → Forall (λ b, 0 < b < 256) s) →
  wp (get_fields b fs) (λ r m', m ⊆ m' ∧ Forall2 (got m') fs r.1 ∧ r.2 = set_offset (offset b + msg_len fs) b) m.
Proof.
  intros Hf. revert m b. induction Hf as [|f fs Hf Hfs IH]; intros m b Hb Hs; cbn [get_fields].
  { rewrite wp_ret. split_and!; [done|constructor|]. unfold msg_len, set_offset. simpl. rewrite Z.add_0_r. by destruct b. }
  rewrite fmap_cons in Hb. cbn [concat] in Hb. apply bytes_app in Hb as [Hb Hbs]. rewrite wp_bind. eapply wp_mono; [apply get_field_ok; [done|done|set_solver]|].
  intros [v b1] m1 (Hm1 & Hv & Hb1). simpl in Hb1. subst b1. simpl fst in *. rewrite wp_bind. eapply wp_mono; [apply (IH m1)|].
  - replace (here (set_offset (offset b + Z.of_nat (length (encode f))) b)) with (here b + Z.of_nat (length (encode f))) by (unfold here; simpl; lia).
    by eapply bytes_mono.
  - set_solver.
  - intros [vs b2] m2 (Hm2 & Hvs & Hb2). simpl in Hb2. subst b2. simpl fst in *. rewrite wp_ret. simpl fst. simpl snd. split_and!; [by etrans|constructor; [by eapply got_mono|done]|].
    rewrite msg_len_cons. unfold set_offset. simpl. f_equal. lia.
Qed.
End get.

(** ** Formats *)

(** The number whose digits are [ds], read on from [n]. *)
Fixpoint number (n : Z) (ds : list Z) : Z := match ds with [] => n | c :: ds' => number (10 * n + (c - 48)) ds' end.
Definition digit (c : Z) : Prop := 48 ≤ c ≤ 57.
Lemma number_le n ds : 0 ≤ n → Forall digit ds → n ≤ number n ds.
Proof. intros Hn Hd. revert n Hn. induction Hd as [|c ds Hc Hd IH]; intros n Hn; simpl; [lia|]. unfold digit in Hc. specialize (IH (10 * n + (c - 48)) ltac:(lia)). lia. Qed.
Lemma isdigit_digit c : isdigit c = true ↔ digit c.
Proof. unfold isdigit, digit. rewrite andb_true_iff, !Z.leb_le. tauto. Qed.
Lemma char_digit sg c : digit c → char sg c = c.
Proof. unfold digit, char. intros Hc. rewrite (proj2 (Z.leb_gt 128 c)) by lia. by rewrite andb_false_r. Qed.
Lemma char_nodigit sg c : 0 ≤ c < 256 → ¬ digit c → isdigit (char sg c) = false.
Proof.
  intros Hr Hc. apply not_true_is_false. rewrite isdigit_digit. unfold char, digit in *. destruct (sg && (128 <=? c)) eqn:E; [|done].
  apply andb_true_iff in E as [_ E%Z.leb_le]. lia.
Qed.
(** The character after a string of digits: not one. *)
Definition ends (s : list Z) : Prop := ∀ c, head s = Some c → ¬ digit c.
Lemma ends_first m a rest : cstr m a rest → ends rest → ∃ c, m !! a = Some c ∧ 0 ≤ c < 256 ∧ ¬ digit c.
Proof.
  intros Hr He. destruct rest as [|c rest].
  - apply cstr_nil in Hr. exists 0. split_and!; try done. unfold digit. lia.
  - apply cstr_cons in Hr as (Hc & ? & _). exists c. split_and!; [done|lia|lia|by apply He].
Qed.
Lemma atoi_digits_run m a ds rest sg n fuel : cstr m a (ds ++ rest) → ends rest → Forall digit ds → 0 ≤ n → number n ds < 2 ^ 31 → (length ds < fuel)%nat →
  atoi_digits sg fuel a (- n) m = Ok (- number n ds, m).
Proof.
  intros Hs He Hd. revert a n fuel Hs. induction Hd as [|c ds Hc Hd IH]; intros a n [|f] Hs Hn Hb Hf; cbn [length] in Hf; [lia..| |lia|]; cbn [atoi_digits].
  - destruct (ends_first m a rest Hs He) as (c & Hc & Hr & Hn'). rewrite (bind_run _ _ _ _ _ (load_run m a c Hc)). by rewrite char_nodigit.
  - cbn [app] in Hs. apply cstr_cons in Hs as (Hc' & _ & Hs). rewrite (bind_run _ _ _ _ _ (load_run m a c Hc')).
    rewrite char_digit, (proj2 (isdigit_digit c)) by done. unfold digit in Hc. cbn [number] in *. pose proof (number_le (10 * n + (c - 48)) ds ltac:(lia) Hd).
    replace (i32 (10 * - n - (c - 48))) with (- (10 * n + (c - 48))) by (rewrite i32_small; lia). apply IH; [done|lia|done|lia].
Qed.
Lemma atoi_run m a ds rest sg fuel : cstr m a (ds ++ rest) → ends rest → Forall digit ds → ds ≠ [] → number 0 ds < 2 ^ 31 → (length ds < fuel)%nat →
  atoi sg fuel a m = Ok (number 0 ds, m).
Proof.
  intros Hs He Hd Hne Hb Hf. unfold atoi. pose proof Hd as Hd'. destruct ds as [|c ds]; [done|]. apply Forall_cons in Hd' as [Hc _]. pose proof Hs as Hs'. cbn [app] in Hs'.
  apply cstr_cons in Hs' as (Hc' & _ & _). destruct fuel as [|f]; [lia|]. rewrite (bind_run _ _ m a m).
  2: { cbn [skip_space]. rewrite (bind_run _ _ _ _ _ (load_run m a c Hc')). rewrite char_digit by done. unfold digit in Hc. unfold isspace.
       by rewrite !(proj2 (Z.eqb_neq c _)), (proj2 (Z.leb_gt c 9)) by lia. }
  rewrite (bind_run _ _ _ _ _ (load_run m a c Hc')). unfold digit in Hc. rewrite !(proj2 (Z.eqb_neq c _)) by lia. cbv zeta. cbn [orb].
  rewrite (bind_run _ _ _ _ _ (atoi_digits_run m a (c :: ds) rest sg 0 (S f) Hs He Hd ltac:(lia) Hb Hf)). unfold mret, kern_ret.
  pose proof (number_le 0 (c :: ds) ltac:(lia) Hd). rewrite Z.opp_involutive, i32_small by lia. done.
Qed.
Lemma skip_digits_run m a ds rest fuel : cstr m a (ds ++ rest) → ends rest → Forall digit ds → (length ds < fuel)%nat →
  skip_digits fuel a m = Ok (a + Z.of_nat (length ds), m).
Proof.
  intros Hs He Hd. revert a fuel Hs. induction Hd as [|c ds Hc Hd IH]; intros a [|f] Hs Hf; cbn [length] in Hf; [lia| |lia|]; cbn [skip_digits].
  - destruct (ends_first m a rest Hs He) as (c & Hc & _ & Hn'). rewrite (bind_run _ _ _ _ _ (load_run m a c Hc)). rewrite Z.add_0_r.
    by rewrite (not_true_is_false _ (λ E, Hn' (proj1 (isdigit_digit c) E))).
  - cbn [app] in Hs. apply cstr_cons in Hs as (Hc' & _ & Hs). rewrite (bind_run _ _ _ _ _ (load_run m a c Hc')), (proj2 (isdigit_digit c)) by done.
    rewrite IH by (done || lia). do 2 f_equal. cbn [length]. lia.
Qed.

Inductive item := I16 | I32 | IFid | I64 | IQid | IStr (ds : list Z).
Definition item_text (i : item) : list Z :=
  match i with I16 => [104] | I32 => [100] | IFid => [70] | I64 => [108] | IQid => [81] | IStr ds => 83 :: ds end.
Definition item_size (i : item) : Z :=
  match i with I16 => 2 | I32 | IFid => 4 | I64 => 8 | IQid => 13 | IStr ds => 2 + number 0 ds end.
Definition item_ok (i : item) : Prop := match i with IStr ds => Forall digit ds ∧ 0 < number 0 ds < 2 ^ 31 | _ => True end.
Definition format (its : list item) : list Z := concat (item_text <$> its).
Definition capacity (its : list item) : Z := foldr (λ i n, item_size i + n) 0 its.
(** The field has the kind of the item, and a string at most the length it names. *)
Definition suits (i : item) (f : nfield) : Prop :=
  match i, f with
  | I16, FU16 _ | I32, FU32 _ | IFid, FU32 _ | I64, FU64 _ => True
  | IStr ds, FStr _ s => Z.of_nat (length s) ≤ number 0 ds
  | _, _ => False
  end.
Lemma capacity_cons i its : capacity (i :: its) = item_size i + capacity its.
Proof. done. Qed.
Lemma format_ends its : ends (format its).
Proof. intros c. destruct its as [|[| | | | |ds] its]; cbn; intros [= <-]; unfold digit; lia. Qed.
Lemma suits_len i f : item_ok i → suits i f → Z.of_nat (length (encode f)) ≤ item_size i.
Proof. destruct i, f; cbn [suits encode item_size item_ok]; try done; rewrite ?length_app, ?length_le_split; lia. Qed.
Lemma item_size_pos i : item_ok i → 0 ≤ item_size i.
Proof. destruct i; cbn [item_ok item_size]; lia. Qed.
Lemma format_size_run m a its sg fuel n size : cstr m a (format its) → Forall item_ok its → (length (format its) < fuel)%nat → (length (format its) < n)%nat →
  format_size sg fuel n a size m = Ok (size + capacity its, m).
Proof.
  intros Hs Hok. revert a n size Hs. induction Hok as [|i its Hi Hok IH]; intros a n size Hs Hf Hn; (destruct n as [|n]; [lia|]); cbn [format_size].
  { apply cstr_nil in Hs. rewrite (bind_run _ _ _ _ _ (load_run m a 0 Hs)). cbn. by rewrite Z.add_0_r. }
  unfold format in Hs, Hf, Hn. rewrite fmap_cons in Hs, Hf, Hn. cbn [concat] in Hs, Hf, Hn. fold (format its) in Hs, Hf, Hn. rewrite length_app in Hf, Hn.
  pose proof (cstr_app _ _ _ _ Hs) as Hrest. destruct i as [| | | | |ds]; cbn [item_text app length] in *.
  1-5: apply cstr_cons in Hs as (Hc & _ & Hs); rewrite (bind_run _ _ _ _ _ (load_run m a _ Hc)); cbn [Z.eqb Pos.eqb orb]; rewrite IH, capacity_cons by (done || lia); cbn [item_size]; do 2 f_equal; unfold sizeof_qid; lia.
  apply cstr_cons in Hs as (Hc & _ & Hs). rewrite (bind_run _ _ _ _ _ (load_run m a 83 Hc)). cbn [Z.eqb Pos.eqb orb]. destruct Hi as [Hd Hb].
  assert (ds ≠ []) as Hne by (intros ->; simpl in Hb; lia). destruct ds as [|c ds]; [done|]. pose proof Hd as Hd'. apply Forall_cons in Hd' as [Hdc _].
  pose proof Hs as Hs'. cbn [app] in Hs'. apply cstr_cons in Hs' as (Hc' & _ & _). rewrite (bind_run _ _ _ _ _ (load_run m (a + 1) c Hc')).
  rewrite (proj2 (isdigit_digit c) Hdc), (bind_run _ _ m () m) by done. pose proof (format_ends its) as He.
  rewrite (bind_run _ _ _ _ _ (atoi_run m (a + 1) (c :: ds) (format its) sg fuel Hs He Hd Hne ltac:(lia) ltac:(cbn [length] in *; lia))).
  rewrite (proj2 (Z.ltb_lt _ _)), (bind_run _ _ m () m) by (done || lia).
  rewrite (bind_run _ _ _ _ _ (skip_digits_run m (a + 1) (c :: ds) (format its) fuel Hs He Hd ltac:(cbn [length] in *; lia))).
  replace (a + 1 + Z.of_nat (length (c :: ds))) with (a + Z.of_nat (S (S (length ds)))) by (cbn [length]; lia).
  rewrite IH, capacity_cons by (done || (cbn [length] in *; lia)). cbn [item_size]. do 2 f_equal. lia.
Qed.

Lemma capacity_fits its fs : Forall item_ok its → Forall2 suits its fs → msg_len fs ≤ capacity its.
Proof.
  intros Hok Hs. induction Hs as [|i f its fs Hi Hs IH]; [done|]. apply Forall_cons in Hok as [Hok Hoks]. rewrite msg_len_cons, capacity_cons.
  pose proof (suits_len i f Hok Hi). specialize (IH Hoks). lia.
Qed.
Lemma capacity_pos its : Forall item_ok its → 0 ≤ capacity its.
Proof. induction 1 as [|i its Hi Hok IH]; [done|]. rewrite capacity_cons. pose proof (item_size_pos i Hi). lia. Qed.

(** ** The theorems *)

(** C36. What is added to a 9p buffer is got back: with room for the fields, adding them
    succeeds and writes only the fields' bytes, and getting them in the same order
    gives the same integers, and strings equal to those added. *)
Theorem ninep_roundtrip `{KL : KmemLaws} m b fs fuel :
  buf_ok m b → offset b = 0 → Forall (string_ok m b) fs → Forall field_ok fs → msg_len fs ≤ bufsize b - sizeof_hdr → (Z.to_nat (bufsize b) ≤ fuel)%nat →
  ∃ b' m', add_fields fuel b fs m = Ok (b', m') ∧ offset b' = msg_len fs ∧
    (∀ a, a < data b + sizeof_hdr ∨ data b + sizeof_hdr + msg_len fs ≤ a → m' !! a = m !! a) ∧
    wp (get_fields (set_offset 0 b') fs) (λ r m'', m' ⊆ m'' ∧ Forall2 (got m'') fs r.1 ∧ r.2 = b') m'.
Proof.
  intros Hb H0 Hs Hf Hfit Hfuel. eexists _, _. split; [apply add_fields_run; (done || lia)|]. split; [simpl; lia|]. split.
  - intros a Ha. rewrite write_lookup, decide_False; [done|]. unfold here, msg_len in *. lia.
  - eapply wp_mono; [apply get_fields_ok; [done|unfold here; cbn [set_offset data offset]; rewrite H0; apply write_bytes|]|].
    + intros p s Hin. rewrite Forall_forall in Hs. by destruct (Hs _ Hin) as [[_ ?] _].
    + intros [vs b'] m' (Hm & Hvs & Hb'). simpl in *. split_and!; try done. rewrite Hb'. unfold set_offset. simpl. f_equal. lia.
Qed.

(** A buffer allocated for a format is as large as the format says, and so the
    fields that suit the format can be added to it: no addition fails its bounds check
    or leaves the buffer. *)
Theorem ninep_alloc_fits `{KL : KmemLaws} sg m fmt its fs fuel :
  cstr m fmt (format its) → Forall item_ok its → capacity its < 2 ^ 16 → (Z.to_nat (capacity its) + 7 + length (format its) < fuel)%nat →
  Forall2 suits its fs → Forall field_ok fs → (∀ p s, FStr p s ∈ fs → cstr m p s) →
  wp (b ← ninep_buf_alloc sg fuel fmt; add_fields fuel b fs)
    (λ b' m', bufsize b' = capacity its + sizeof_hdr ∧ offset b' = msg_len fs ∧ msg_len fs ≤ bufsize b' - sizeof_hdr ∧ m ⊆ m') m.
Proof.
  intros Hfmt Hok Hcap Hfuel Hsu Hf Hstr. pose proof (capacity_pos its Hok) as Hpos. pose proof (capacity_fits its fs Hok Hsu) as Hfit. rewrite wp_bind. unfold ninep_buf_alloc. rewrite wp_bind.
  apply wp_ok. eexists _, m. split; [apply (format_size_run m fmt its sg fuel fuel 0); (done || lia)|]. unfold ninep_buf_alloc_bytes. rewrite Z.add_0_l, wp_bind.
  eapply wp_mono; [apply (kmem_alloc_fresh 24); lia|]. intros q m1 (Hm1 & _). cbv zeta. unfold sizeof_hdr in *. rewrite wp_bind, u64_small by lia.
  eapply wp_mono; [apply (kmem_alloc_fresh (capacity its + 7)); lia|]. intros d m2 (Hm2 & Hd). rewrite wp_ret.
  assert (m ⊆ m2) as Hm by (by etrans). set (b := Buf (capacity its + 7) 0 d).
  assert (∀ p s, FStr p s ∈ fs → cstr m1 p s) as Hstr1 by (intros p s Hin; eapply cstr_mono; eauto).
  assert (buf_ok m2 b) as Hb.
  { split; simpl; [|unfold sizeof_hdr; lia|lia]. intros a Ha. destruct (Hd a) as (_ & v & Hv & _); [lia|eauto]. }
  apply wp_ok. eexists _, _. split; [apply add_fields_run; [done| |done|simpl; unfold sizeof_hdr; lia|simpl; lia]|].
  - apply Forall_forall. intros [v|v|v|p s] Hin; cbn [string_ok]; try done. pose proof (Hstr1 p s Hin) as Hc. split; [by apply (cstr_mono m1 m2)|]. cbn [data bufsize b].
    destruct (bytes_apart m1 p (s ++ [0]) d (capacity its + 7)) as [?|?]; [apply Hc|lia|rewrite length_app; simpl; lia|intros a Ha; by apply Hd| |by right].
    left. rewrite length_app in *. simpl in *. lia.
  - simpl. split_and!; [lia|lia|lia|]. apply write_fresh; [done|]. intros a Ha. unfold here, sizeof_hdr, msg_len in *. simpl in Ha.
    destruct (Hd a) as [Hn _]; [lia|]. destruct (m !! a) as [v|] eqn:E; [|done]. rewrite (lookup_weaken _ _ _ _ E Hm1) in Hn. done.
Qed.

(** ** A memory allocator, and a message *)

Definition bump : Kmem := {|
  kmem_alloc n := λ m, let p := foldr Z.max 0 (map_to_list m).*1 + 1 in Ok (p, write m p (replicate (Z.to_nat n) 0));
  kmem_free _ _ := mret ()
|}.
Lemma foldr_max_le (l : list Z) x : x ∈ l → x ≤ foldr Z.max 0 l.
Proof. induction l as [|y l IH]; [by intros ?%elem_of_nil|]. intros [->|Hx]%elem_of_cons; simpl; [lia|]. specialize (IH Hx). lia. Qed.
Lemma bump_laws : KmemLaws bump.
Proof.
  split. intros n m Hn. unfold wp. cbn [kmem_alloc bump]. set (p := foldr Z.max 0 (map_to_list m).*1 + 1).
  assert (∀ a v, m !! a = Some v → a < p) as Hp.
  { intros a v Ha. assert (a ∈ (map_to_list m).*1) as Hin by (apply list_elem_of_fmap; exists (a, v); split; [done|by apply elem_of_map_to_list]).
    apply foldr_max_le in Hin. unfold p. lia. }
  assert (∀ a, p ≤ a → m !! a = None) as Hfree by (intros a Ha; destruct (m !! a) as [v|] eqn:E; [apply Hp in E; lia|done]).
  split; [apply write_fresh; [done|]; intros a Ha; apply Hfree; lia|]. intros a Ha. split; [apply Hfree; lia|]. exists 0. split; [|lia].
  rewrite write_lookup, decide_True by (rewrite length_replicate; lia). apply lookup_replicate. split; [done|lia].
Qed.

(** A string at 1, the format "hS8d" at 5, a buffer for 16 bytes at 10. *)
Definition strings : memory := write ∅ 1 [97; 98; 0; 0; 104; 83; 56; 100; 0].
Definition a_buffer : ninep_buf := Buf 23 0 10.
Definition a_message : list nfield := [FU16 258; FStr 1 [97; 98]; FU32 66051].
Lemma strings_apart (m : memory) : m = write strings 10 (replicate 23 0) → buf_ok m a_buffer ∧ Forall (string_ok m a_buffer) a_message.
Proof.
  intros ->. split; [split; [|simpl; unfold sizeof_hdr; lia|done]|].
  - intros a Ha. cbn [data bufsize a_buffer] in Ha. rewrite write_lookup, decide_True by (rewrite length_replicate; lia). apply lookup_lt_is_Some_2. rewrite length_replicate. lia.
  - apply Forall_cons; split; [done|]. apply Forall_cons; split; [|by apply Forall_cons]. split; [|simpl; lia]. split; [vm_compute; tauto|]. repeat constructor; lia.
Qed.
Lemma ninep_roundtrip_witness : ∃ b' m', add_fields 23 a_buffer a_message (write strings 10 (replicate 23 0)) = Ok (b', m') ∧
  wp (get_fields (H := bump) (set_offset 0 b') a_message) (λ r m'', Forall2 (got m'') a_message r.1) m'.
Proof.
  destruct (strings_apart _ eq_refl) as [Hb Hs].
  destruct (ninep_roundtrip (KL := bump_laws) (write strings 10 (replicate 23 0)) a_buffer a_message 23 Hb eq_refl Hs) as (b' & m' & Hrun & _ & _ & Hw).
  - repeat constructor; simpl; lia.
  - vm_compute. discriminate.
  - vm_compute. lia.
  - exists b', m'. split; [exact Hrun|]. eapply wp_mono; [exact Hw|]. intros r m'' (_ & Hg & _). exact Hg.
Defined.
Lemma ninep_alloc_fits_witness :
  wp (b ← ninep_buf_alloc (H := bump) true 32 5; add_fields 32 b a_message) (λ b' _, bufsize b' = 23 ∧ offset b' = 10) strings.
Proof.
  eapply wp_mono; [apply (ninep_alloc_fits (KL := bump_laws) true strings 5 [I16; IStr [56]; I32] a_message 32)|].
  - split; [vm_compute; tauto|]. repeat constructor; lia.
  - repeat constructor; unfold digit; simpl; lia.
  - vm_compute. reflexivity.
  - vm_compute. lia.
  - repeat constructor. simpl. lia.
  - repeat constructor; simpl; lia.
  - intros p s Hin. unfold a_message in Hin. rewrite !elem_of_cons, elem_of_nil in Hin. destruct Hin as [Hin|[[= -> ->]|[Hin|[]]]]; try done.
    split; [vm_compute; tauto|]. repeat constructor; lia.
  - intros b' m' (Hsz & Hoff & _ & _). split; [rewrite Hsz|rewrite Hoff]; vm_compute; reflexivity.
Defined.

(** [ninep_buf_addstr] compares with the size of the buffer plus that of the header,
    not minus: a string of ten characters passes the check for a buffer with two bytes
    of room, and is written past the end of the buffer. *)
Lemma addstr_overrun :
  ninep_buf_addstr 11 (Buf 9 0 100) 1 (write (write ∅ 1 (replicate 10 97 ++ [0])) 100 (replicate 9 0)) = Fatal "load" ∧
  u64 (0 + 2 + 10) <=? u64 (9 + sizeof_hdr) = true.
Proof. split; vm_compute; reflexivity. Qed.
