(* ===== verification/Bits.v ===== *)
(** Bit maps: words of [W] bits, and how testing, setting and clearing a bit act on them. *)
From S2P Require Import Prelude.
Local Open Scope Z_scope.

(** ** Bits *)

Lemma land_pow2_test w k : 0 ≤ k → negb (Z.land w (2 ^ k) =? 0) = Z.testbit w k.
Proof.
  intros Hk. destruct (Z.testbit w k) eqn:E.
  - apply negb_true_iff, Z.eqb_neq. intros H0. assert (Z.testbit (Z.land w (2 ^ k)) k = true) as Ht by (by rewrite Z.land_spec, E, Z.pow2_bits_true).
    rewrite H0, Z.bits_0 in Ht. done.
  - apply negb_false_iff, Z.eqb_eq. apply Z.bits_inj'. intros i Hi. rewrite Z.land_spec, Z.bits_0. destruct (decide (i = k)) as [->|Hne]; [by rewrite E|].
    rewrite Z.pow2_bits_false by done. apply andb_false_r.
Qed.
Lemma set_clear w k : 0 ≤ k → Z.testbit w k = false → Z.land (Z.lor w (2 ^ k)) (Z.lnot (2 ^ k)) = w.
Proof.
  intros Hk E. apply Z.bits_inj'. intros i Hi. rewrite Z.land_spec, Z.lor_spec, Z.lnot_spec by done. destruct (decide (i = k)) as [->|Hne].
  - by rewrite E, Z.pow2_bits_true.
  - by rewrite Z.pow2_bits_false, orb_false_r, andb_true_r by done.
Qed.
Lemma clear_same w k : 0 ≤ k → Z.testbit w k = false → Z.land w (Z.lnot (2 ^ k)) = w.
Proof.
  intros Hk E. apply Z.bits_inj'. intros i Hi. rewrite Z.land_spec, Z.lnot_spec by done. destruct (decide (i = k)) as [->|Hne]; [by rewrite E|].
  by rewrite Z.pow2_bits_false, andb_true_r by done.
Qed.

(** ** Maps of words *)

Section maps.
Context (W : Z) (HW : 0 < W).

(** The bit [i], and a map with it set. *)
Definition word (bm : list Z) (i : Z) : Z := bm !!! Z.to_nat (i / W).
Definition bit (bm : list Z) (i : Z) : bool := Z.testbit (word bm i) (i mod W).
Definition set_bit (bm : list Z) (i : Z) : list Z := <[Z.to_nat (i / W) := Z.lor (word bm i) (2 ^ (i mod W))]> bm.
(** The map has room for [n] bits. *)
Definition roomy (bm : list Z) (n : Z) : Prop := Z.of_nat (length bm) = (n + (W - 1)) / W.

Lemma roomy_lookup bm n i : roomy bm n → 0 ≤ i < n → bm !! Z.to_nat (i / W) = Some (word bm i).
Proof using HW.
  intros Hr Hi. apply list_lookup_lookup_total_lt. unfold roomy in Hr. assert (0 ≤ i / W < (n + (W - 1)) / W); [|lia]. split; [apply Z.div_pos; lia|].
  apply Z.div_lt_upper_bound; [lia|]. pose proof (Z.div_mod (n + (W - 1)) W ltac:(lia)). pose proof (Z.mod_pos_bound (n + (W - 1)) W ltac:(lia)). lia.
Qed.
Lemma bit_test bm i : 0 ≤ i → negb (Z.land (word bm i) (2 ^ (i mod W)) =? 0) = bit bm i.
Proof using HW. intros Hi. apply land_pow2_test. apply Z.mod_pos_bound. lia. Qed.
Lemma roomy_set bm n i : roomy bm n → roomy (set_bit bm i) n.
Proof. unfold roomy, set_bit. by rewrite length_insert. Qed.
Lemma word_set bm n i j : roomy bm n → 0 ≤ i < n → 0 ≤ j → word (set_bit bm i) j = if decide (j / W = i / W) then Z.lor (word bm i) (2 ^ (i mod W)) else word bm j.
Proof using HW.
  intros Hr Hi Hj. pose proof (roomy_lookup bm n i Hr Hi) as Hl. apply lookup_lt_Some in Hl. unfold word at 1, set_bit. case_decide as Hd.
  - rewrite Hd. by apply list_lookup_total_insert_eq.
  - apply list_lookup_total_insert_ne. pose proof (Z.div_pos i W). pose proof (Z.div_pos j W). lia.
Qed.
Lemma bit_set bm n i j : roomy bm n → 0 ≤ i < n → 0 ≤ j → bit (set_bit bm i) j = (if decide (j = i) then true else bit bm j).
Proof using HW.
  intros Hr Hi Hj. unfold bit. rewrite (word_set bm n) by done. pose proof (Z.mod_pos_bound i W ltac:(lia)). pose proof (Z.mod_pos_bound j W ltac:(lia)).
  pose proof (Z.div_mod i W ltac:(lia)). pose proof (Z.div_mod j W ltac:(lia)). destruct (decide (j / W = i / W)) as [Hd|Hd].
  - rewrite Z.lor_spec. unfold word. rewrite Hd. destruct (decide (j = i)) as [->|Hne].
    + rewrite Z.pow2_bits_true by lia. apply orb_true_r.
    + rewrite Z.pow2_bits_false by nia. apply orb_false_r.
  - by rewrite decide_False by congruence.
Qed.
(** Clearing a bit that has been set undoes it; clearing one that is not does nothing. *)
Definition clear_bit (bm : list Z) (i : Z) : list Z := <[Z.to_nat (i / W) := Z.land (word bm i) (Z.lnot (2 ^ (i mod W)))]> bm.
Lemma clear_set bm n i : roomy bm n → 0 ≤ i < n → bit bm i = false → clear_bit (set_bit bm i) i = bm.
Proof using HW.
  intros Hr Hi Hb. unfold clear_bit. rewrite (word_set bm n) by (done || lia).
  rewrite decide_True by done. unfold set_bit. rewrite list_insert_insert_eq, set_clear; [|apply Z.mod_pos_bound; lia|done].
  apply list_insert_id. by apply (roomy_lookup bm n).
Qed.
Lemma clear_unset bm n i : roomy bm n → 0 ≤ i < n → bit bm i = false → clear_bit bm i = bm.
Proof using HW.
  intros Hr Hi Hb. unfold clear_bit. rewrite clear_same; [|apply Z.mod_pos_bound; lia|done].
  apply list_insert_id. by apply (roomy_lookup bm n).
Qed.
Lemma bit_clear bm n i j : roomy bm n → 0 ≤ i < n → 0 ≤ j → bit (clear_bit bm i) j = (if decide (j = i) then false else bit bm j).
Proof using HW.
  intros Hr Hi Hj. pose proof (roomy_lookup bm n i Hr Hi) as Hl. apply lookup_lt_Some in Hl. pose proof (Z.mod_pos_bound i W ltac:(lia)). pose proof (Z.mod_pos_bound j W ltac:(lia)).
  pose proof (Z.div_mod i W ltac:(lia)). pose proof (Z.div_mod j W ltac:(lia)). pose proof (Z.div_pos i W). pose proof (Z.div_pos j W).
  unfold bit at 1, word, clear_bit. destruct (decide (j / W = i / W)) as [Hd|Hd].
  - rewrite Hd, list_lookup_total_insert_eq by done. rewrite Z.land_spec, Z.lnot_spec by lia. destruct (decide (j = i)) as [->|Hne].
    + rewrite Z.pow2_bits_true by lia. apply andb_false_r.
    + rewrite Z.pow2_bits_false, andb_true_r by nia. unfold bit, word. by rewrite Hd.
  - rewrite list_lookup_total_insert_ne by lia. by rewrite decide_False by congruence.
Qed.
Lemma roomy_clear bm n i : roomy bm n → roomy (clear_bit bm i) n.
Proof. unfold roomy, clear_bit. by rewrite length_insert. Qed.
End maps.
