(* ===== verification/Objman.v ===== *)
(** Objects with reference counts, and their types: kernel/executive/objman.c.

    An object is known by its address.  Names and the type mutexes have no effect here.
    A type's free routine is its owner's business: [freed] lists the objects it has
    been called for, the last one first. *)
From S2P Require Import Prelude.
Local Open Scope Z_scope.

Module Objman.

Record object_header := Hdr { class : Z; refcount : Z }.
(** A slot of [types]: its own header, its count of objects, whether it has a free
    routine. *)
Record type_object := Ty { thdr : object_header; count : Z; has_free : bool }.
Record ost := Ost { types : list type_object; objects : gmap Z object_header; freed : list Z }.
Definition set_types x s := Ost x (objects s) (freed s).
Definition set_objects x s := Ost (types s) x (freed s).
Definition set_freed x s := Ost (types s) (objects s) x.

Definition NO_CLASS : Z := 255.
Definition hdr_at (o : Z) : kern ost object_header := s ← get; deref "object_header" (objects s !! o).
Definition hdr_set (o : Z) (h : object_header) : kern ost () := modify (λ s, set_objects (<[o := h]> (objects s)) s).
Definition type_at (i : Z) : kern ost type_object := s ← get; deref "types[i]" (types s !! Z.to_nat i).
Definition type_set (i : Z) (t : type_object) : kern ost () := modify (λ s, set_types (<[Z.to_nat i := t]> (types s)) s).

(** ** References *)

(** The count before a retain. *)
Definition may_retain (c : Z) : bool := negb (c =? 0) && (c <? 0xfffffff0).
Definition obj_retain (o : Z) : kern ost () :=
  h ← hdr_at o;
  hdr_set o (Hdr (class h) (u32 (refcount h + 1)));;
  kassert "count != 0 && count < 0xfffffff0" (may_retain (refcount h)).
Definition type_retain (i : Z) : kern ost () :=
  t ← type_at i;
  type_set i (Ty (Hdr (class (thdr t)) (u32 (refcount (thdr t) + 1))) (count t) (has_free t));;
  kassert "count != 0 && count < 0xfffffff0" (may_retain (refcount (thdr t))).
(** The exchange succeeds at once when nothing interferes. *)
Definition obj_tryretain_rcu (o : Z) : kern ost (option Z) :=
  h ← hdr_at o;
  if refcount h =? 0 then mret None
  else hdr_set o (Hdr (class h) (u32 (refcount h + 1)));; mret (Some o).
Definition obj_release (o : Z) : kern ost () :=
  h ← hdr_at o;
  hdr_set o (Hdr (class h) (u32 (refcount h - 1)));;
  when (refcount h =? 1)
    (t ← type_at (class h);
     kassert "type->free" (has_free t);;
     modify (λ s, set_freed (o :: freed s) s)).

(** ** Types and objects *)

(** The part of [new_common] that concerns the type. *)
Definition new_common (ty : Z) : kern ost () :=
  type_retain ty;;
  t ← type_at ty;
  type_set ty (Ty (thdr t) (u32 (count t + 1)) (has_free t)).

Fixpoint find_unused (i : nat) (l : list type_object) : Z :=
  match l with
  | [] => NO_CLASS
  | t :: l' => if class (thdr t) =? NO_CLASS then Z.of_nat i else find_unused (S i) l'
  end.
Definition obj_new_type (has_free : bool) : kern ost Z :=
  s ← get;
  let i := find_unused 0 (types s) in
  kassert "type_index != (uint8_t)-1" (negb (i =? NO_CLASS));;
  t ← type_at i;
  type_set i (Ty (Hdr 0 1) (count t) (Objman.has_free t));;
  new_common 0;;
  t ← type_at i;
  type_set i (Ty (Hdr (class (thdr t)) 1) (count t) has_free);;
  mret i.

Definition no_types : ost := Ost (replicate 255 (Ty (Hdr NO_CLASS 0) 0 false)) ∅ [].
(** The classes of anonymous objects, processes, threads and files. *)
Definition obj_init : kern ost (Z * Z * Z * Z) :=
  modify (λ s, set_types (replicate 255 (Ty (Hdr NO_CLASS 0) 0 false)) s);;
  _ ← obj_new_type false;
  anon ← obj_new_type false;
  process ← obj_new_type true;
  thread ← obj_new_type true;
  file ← obj_new_type true;
  kassert "process_class == 2" (process =? 2);;
  kassert "thread_class == 3" (thread =? 3);;
  mret (anon, process, thread, file).

(** [o] is the address of the memory that [kmem_alloc] gave for the object. *)
Definition obj_new (o klass : Z) : kern ost Z :=
  type_retain klass;;
  hdr_set o (Hdr klass 0);;
  new_common klass;;
  hdr_set o (Hdr klass 1);;
  mret 0.
End Objman.
