(* ===== verification/Objtab.v ===== *)
(** Descriptor tables: kernel/executive/objtab.c and the bit maps of kdk/misc.h.

    Locks, and the grace periods of RCU, have no effect here: each operation is one
    that holds the lock it takes. *)
From S2P Require Import Prelude Objman.
Import Objman.
Local Open Scope Z_scope.

Module Objtab.

(** ** Bit maps of 32-bit words (kdk/misc.h) *)

Definition bit32_test (bitmap : list Z) (bit : Z) : option bool :=
  w ← bitmap !! Z.to_nat (bit / 32); Some (negb (Z.land w (2 ^ (bit mod 32)) =? 0)).
Definition bit32_set (bitmap : list Z) (bit : Z) : option (list Z) :=
  w ← bitmap !! Z.to_nat (bit / 32); Some (<[Z.to_nat (bit / 32) := Z.lor w (2 ^ (bit mod 32))]> bitmap).
Definition bit32_clear (bitmap : list Z) (bit : Z) : option (list Z) :=
  w ← bitmap !! Z.to_nat (bit / 32); Some (<[Z.to_nat (bit / 32) := Z.land w (Z.lnot (2 ^ (bit mod 32)))]> bitmap).
Definition bit32_nelem (n_bits : Z) : Z := (n_bits + 31) / 32.

(** ** Tables *)

Record objtab_entries := Entries {
  capacity : Z;
  n_open : Z;
  objptrs : list (option Z);
  open : list Z;
  cloexec : list Z
}.
Record ex_object_space := Space { entries : objtab_entries; resize_done : bool }.
(** The objects, and one table. *)
Record tst := Tst { om : ost; tab : ex_object_space }.
Definition set_om x s := Tst x (tab s).
Definition set_tab x s := Tst (om s) x.
Definition in_objects {A} (m : kern ost A) : kern tst A := zoom om set_om m.
Definition entries_at : kern tst objtab_entries := gets (λ s, entries (tab s)).
Definition entries_set (e : objtab_entries) : kern tst () := modify (λ s, set_tab (Space e (resize_done (tab s))) s).
Definition resize_event (b : bool) : kern tst () := modify (λ s, set_tab (Space (entries (tab s)) b) s).
Definition test (bitmap : list Z) (bit : Z) : kern tst bool := deref "bitmap" (bit32_test bitmap bit).

Definition fresh_entries (capacity : Z) : objtab_entries :=
  Entries capacity 0 (replicate (Z.to_nat capacity) None) (replicate (Z.to_nat (bit32_nelem capacity)) 0) (replicate (Z.to_nat (bit32_nelem capacity)) 0).
(** The objects of the entries from [i] on are retained for the new table. *)
Fixpoint fork_entries (n : nat) (i : Z) (src : objtab_entries) (dst : list (option Z)) : kern ost (list (option Z)) :=
  match n with
  | O => mret dst
  | S n' =>
      b ← deref "open" (bit32_test (open src) i);
      if b : bool then
        p ← deref "objptrs" (objptrs src !! Z.to_nat i);
        obj ← deref "obj != NULL" p;
        r ← obj_tryretain_rcu obj;
        obj ← deref "obj != NULL" r;
        fork_entries n' (i + 1) src (<[Z.to_nat i := Some obj]> dst)
      else fork_entries n' (i + 1) src dst
  end.
(** Memory is available; [junk] is what the array of pointers holds when it is
    allocated. *)
Definition ex_object_space_create (fork : option ex_object_space) (junk : list (option Z)) : kern ost ex_object_space :=
  match fork with
  | None => mret (Space (fresh_entries 64) true)
  | Some f =>
      let src := entries f in
      ptrs ← fork_entries (Z.to_nat (capacity src)) 0 src junk;
      mret (Space (Entries (capacity src) 0 ptrs (open src) (cloexec src)) true)
  end.

(** [descnum] is an [int]; compared with the capacity it is unsigned. *)
Fixpoint lookup_loop (fuel : nat) (descnum : Z) : kern tst (option Z) :=
  match fuel with
  | O => spin
  | S fuel' =>
      e ← entries_at;
      b ← (if capacity e <=? u32 descnum then mret false else test (open e) descnum);
      if b : bool then
        p ← deref "objptrs" (objptrs e !! Z.to_nat descnum);
        match p with
        | None => mret None
        | Some o =>
            r ← in_objects (obj_tryretain_rcu o);
            match r with Some o => mret (Some o) | None => lookup_loop fuel' descnum end
        end
      else mret None
  end.
Definition ex_object_space_lookup (fuel : nat) (descnum : Z) : kern tst (option Z) :=
  if descnum <? 0 then mret None else lookup_loop fuel descnum.

(** The new entries are made, filled, and freed again: the code falls through from
    success into failure, and in every case returns NULL. *)
Definition resize_entries (new_capacity : Z) : kern tst (option objtab_entries) :=
  resize_event false;;
  resize_event true;;
  mret None.

(** The first number from [i] on that is not open. *)
Fixpoint first_free (n : nat) (i : Z) (bitmap : list Z) : kern tst Z :=
  match n with
  | O => mret (-1)
  | S n' => b ← test bitmap i; if negb b then mret i else first_free n' (i + 1) bitmap
  end.
Definition claim (e : objtab_entries) (descnum : Z) (coe : bool) : kern tst () :=
  o ← deref "bitmap" (bit32_set (open e) descnum);
  c ← (if coe then deref "bitmap" (bit32_set (cloexec e) descnum) else mret (cloexec e));
  entries_set (Entries (capacity e) (u32 (n_open e + 1)) (objptrs e) o c).
Definition descnum_alloc_locked (coe : bool) : kern tst Z :=
  e ← entries_at;
  descnum ← (if n_open e <? capacity e then first_free (Z.to_nat (capacity e)) 0 (open e) else mret (-1));
  if descnum =? -1 then
    r ← resize_entries (u32 (capacity e * 2));
    match r with
    | None => mret (-1)
    | Some e' => entries_set e';; claim e' (capacity e' / 2) coe;; mret (capacity e' / 2)
    end
  else claim e descnum coe;; mret descnum.
Definition ex_object_space_reserve (coe : bool) : kern tst Z := descnum_alloc_locked coe.

(** No resize is going on when the update lock is held and the event is signalled;
    otherwise the caller waits, and nobody else is here to end the wait. *)
Definition ex_object_space_reserved_insert (descnum o : Z) : kern tst () :=
  s ← get;
  if resize_done (tab s) then
    let e := entries (tab s) in
    _ ← deref "objptrs" (objptrs e !! Z.to_nat descnum);
    entries_set (Entries (capacity e) (n_open e) (<[Z.to_nat descnum := Some o]> (objptrs e)) (open e) (cloexec e))
  else spin.

Definition ex_object_space_free_index (descnum : Z) : kern tst (option Z) :=
  e ← entries_at;
  b ← (if capacity e <=? u32 descnum then mret false else test (open e) descnum);
  kassert "is not open!" b;;
  o ← deref "bitmap" (bit32_clear (open e) descnum);
  c ← deref "bitmap" (bit32_clear (cloexec e) descnum);
  right ← deref "objptrs" (objptrs e !! Z.to_nat descnum);
  entries_set (Entries (capacity e) (u32 (n_open e - 1)) (<[Z.to_nat descnum := None]> (objptrs e)) o c);;
  mret right.
End Objtab.
