(* ===== verification/ObjtabProofs.v ===== *)
(** Descriptor tables: the life of a descriptor, a full table, and a forked table. *)
From S2P Require Import Prelude Bits Objman Objtab.
Import Objman Objtab.
Local Open Scope Z_scope.

(** ** Bit maps of 32-bit words *)

Notation bit := (Bits.bit 32).
Notation set_bit := (Bits.set_bit 32).
Notation roomy := (Bits.roomy 32).
Lemma test_bit bm n i : roomy bm n → 0 ≤ i < n → bit32_test bm i = Some (bit bm i).
Proof. intros Hr Hi. unfold bit32_test. rewrite (roomy_lookup 32 eq_refl bm n i Hr Hi). simpl. f_equal. apply bit_test; lia. Qed.
Lemma set_bit_ok bm n i : roomy bm n → 0 ≤ i < n → bit32_set bm i = Some (set_bit bm i).
Proof. intros Hr Hi. unfold bit32_set. by rewrite (roomy_lookup 32 eq_refl bm n i Hr Hi). Qed.
Lemma clear_bit_ok bm n i : roomy bm n → 0 ≤ i < n → bit32_clear bm i = Some (clear_bit 32 bm i).
Proof. intros Hr Hi. unfold bit32_clear. by rewrite (roomy_lookup 32 eq_refl bm n i Hr Hi). Qed.

(** ** Well-formed tables *)

Definition opened (e : objtab_entries) : list Z := filter (λ i, bit (open e) i = true) (seqZ 0 (capacity e)).
Record tab_ok (e : objtab_entries) : Prop := TabOk {
  to_cap : 0 < capacity e < 2 ^ 31;
  to_ptrs : Z.of_nat (length (objptrs e)) = capacity e;
  to_open : roomy (open e) (capacity e);
  to_cloexec : roomy (cloexec e) (capacity e);
  to_n : n_open e = Z.of_nat (length (opened e));
  to_closed : ∀ i, 0 ≤ i < capacity e → bit (open e) i = false → objptrs e !! Z.to_nat i = Some None ∧ bit (cloexec e) i = false
}.

(** The least number not open. *)
Definition least_free (e : objtab_entries) (d : Z) : Prop :=
  0 ≤ d < capacity e ∧ bit (open e) d = false ∧ ∀ j, 0 ≤ j < d → bit (open e) j = true.
Lemma first_free_run e s n i : tab_ok e → 0 ≤ i → i + Z.of_nat n = capacity e → (∀ j, 0 ≤ j < i → bit (open e) j = true) →
  ∃ d, first_free n i (open e) s = Ok (d, s) ∧ (least_free e d ∨ d = -1 ∧ ∀ j, 0 ≤ j < capacity e → bit (open e) j = true).
Proof.
  intros He. revert i. induction n as [|n IH]; intros i Hi Hn Hlt; cbn [first_free].
  { exists (-1). split; [done|]. right. split; [done|]. intros j Hj. apply Hlt. lia. }
  unfold test. rewrite (test_bit _ _ i (to_open _ He)) by lia. unfold mbind, kern_bind, deref, mret, kern_ret. destruct (bit (open e) i) eqn:E; cbn [negb].
  - apply IH; [lia|lia|]. intros j Hj. destruct (decide (j = i)) as [->|]; [done|]. apply Hlt. lia.
  - exists i. split; [done|]. left. split_and!; [lia|lia|done|done].
Qed.
Lemma all_open e : tab_ok e → (∀ j, 0 ≤ j < capacity e → bit (open e) j = true) ↔ n_open e = capacity e.
Proof.
  intros He. pose proof (to_cap _ He). rewrite (to_n _ He). unfold opened. split.
  - intros Hall. rewrite filter_all; [rewrite length_seqZ; lia|]. intros j Hj%elem_of_seqZ. apply Hall. lia.
  - intros Hn j Hj. destruct (bit (open e) j) eqn:E; [done|]. exfalso.
    assert (length (filter (λ i, bit (open e) i = true) (seqZ 0 (capacity e))) < length (seqZ 0 (capacity e)))%nat; [|rewrite length_seqZ in *; lia].
    apply (length_filter_lt _ _ j); [apply elem_of_seqZ; lia|congruence].
Qed.
Lemma find_free e s : tab_ok e → n_open e < capacity e →
  ∃ d, first_free (Z.to_nat (capacity e)) 0 (open e) s = Ok (d, s) ∧ least_free e d.
Proof.
  intros He Hn. pose proof (to_cap _ He). destruct (first_free_run e s (Z.to_nat (capacity e)) 0 He) as (d & Hd & [Hl|[_ Hall]]); [lia|lia|lia|eauto|].
  apply (all_open e He) in Hall. lia.
Qed.
Lemma n_open_range e : tab_ok e → 0 ≤ n_open e ≤ capacity e.
Proof.
  intros He. pose proof (to_cap _ He). rewrite (to_n _ He). unfold opened.
  pose proof (length_filter (λ i, bit (open e) i = true) (seqZ 0 (capacity e))) as Hl. rewrite length_seqZ in Hl. lia.
Qed.

(** The entries with [d] reserved, and with [o] behind it. *)
Definition reserved (e : objtab_entries) (d : Z) (coe : bool) : objtab_entries :=
  Entries (capacity e) (n_open e + 1) (objptrs e) (set_bit (open e) d) (if coe then set_bit (cloexec e) d else cloexec e).
Definition inserted (e : objtab_entries) (d o : Z) (coe : bool) : objtab_entries :=
  Entries (capacity e) (n_open e + 1) (<[Z.to_nat d := Some o]> (objptrs e)) (set_bit (open e) d) (if coe then set_bit (cloexec e) d else cloexec e).

Lemma bind_ok {S A B} (c : kern S A) (f : A → kern S B) s a s' : c s = Ok (a, s') → (c ≫= f) s = f a s'.
Proof. intros Hc. unfold mbind, kern_bind. by rewrite Hc. Qed.

Lemma reserve_run om e coe : tab_ok e → n_open e < capacity e →
  ∃ d, least_free e d ∧ ex_object_space_reserve coe (Tst om (Space e true)) = Ok (d, Tst om (Space (reserved e d coe) true)).
Proof.
  intros He Hn. pose proof (to_cap _ He) as Hcap. pose proof (n_open_range e He). destruct (find_free e (Tst om (Space e true)) He Hn) as (d & Hd & Hl). exists d. split; [done|].
  destruct Hl as (Hr & Hb & _). unfold ex_object_space_reserve, descnum_alloc_locked. rewrite (bind_ok _ _ _ e (Tst om (Space e true))) by done.
  rewrite (proj2 (Z.ltb_lt _ _)), (bind_ok _ _ _ _ _ Hd), (proj2 (Z.eqb_neq d _)) by lia. unfold claim.
  rewrite (bind_ok _ _ _ () (Tst om (Space (reserved e d coe) true))); [done|].
  rewrite (set_bit_ok _ _ d (to_open _ He)) by done. rewrite (bind_ok _ _ _ (set_bit (open e) d) (Tst om (Space e true))) by done.
  rewrite (bind_ok _ _ _ (if coe then set_bit (cloexec e) d else cloexec e) (Tst om (Space e true))).
  2: { destruct coe; [|done]. by rewrite (set_bit_ok _ _ d (to_cloexec _ He)) by done. }
  unfold entries_set, modify, set_tab, reserved. simpl. rewrite u32_small by lia. done.
Qed.
Lemma insert_run om e d o coe : tab_ok e → 0 ≤ d < capacity e →
  ex_object_space_reserved_insert d o (Tst om (Space (reserved e d coe) true)) = Ok ((), Tst om (Space (inserted e d o coe) true)).
Proof.
  intros He Hd. pose proof (to_ptrs _ He). unfold ex_object_space_reserved_insert. rewrite (bind_ok _ _ _ _ _ eq_refl). cbn [tab resize_done entries objptrs reserved].
  destruct (lookup_lt_is_Some_2 (objptrs e) (Z.to_nat d)) as [p Hp]; [lia|]. rewrite Hp. done.
Qed.
(** With an object behind [d]. *)
Lemma lookup_open om e d o fuel c rc : 0 ≤ d < capacity e → capacity e < 2 ^ 31 → roomy (open e) (capacity e) → bit (open e) d = true →
  objptrs e !! Z.to_nat d = Some (Some o) → objects om !! o = Some (Hdr c rc) → 0 < rc < 2 ^ 32 - 1 →
  ex_object_space_lookup (S fuel) d (Tst om (Space e true)) = Ok (Some o, Tst (set_objects (<[o := Hdr c (rc + 1)]> (objects om)) om) (Space e true)).
Proof.
  intros Hd Hcap Hro Hb Hp Ho Hrc. unfold ex_object_space_lookup. rewrite (proj2 (Z.ltb_ge d 0)) by lia. cbn [lookup_loop].
  rewrite (bind_ok _ _ _ e (Tst om (Space e true))) by done. rewrite (u32_small d), (proj2 (Z.leb_gt _ _)) by lia. unfold test.
  rewrite (test_bit _ (capacity e)), Hb by done. rewrite (bind_ok _ _ _ true (Tst om (Space e true))) by done. rewrite Hp.
  rewrite (bind_ok _ _ _ (Some o) (Tst om (Space e true))) by done.
  rewrite (bind_ok _ _ _ (Some o) (Tst (set_objects (<[o := Hdr c (rc + 1)]> (objects om)) om) (Space e true))); [done|].
  unfold in_objects, zoom, obj_tryretain_rcu, hdr_at, mbind, kern_bind, get, deref. cbn [Objtab.om]. rewrite Ho. cbn [mret kern_ret refcount class].
  rewrite (proj2 (Z.eqb_neq rc 0)) by lia. unfold hdr_set, modify, mret, kern_ret. rewrite u32_small by lia. done.
Qed.
Lemma lookup_run om e d o coe fuel c rc : tab_ok e → 0 ≤ d < capacity e → objects om !! o = Some (Hdr c rc) → 0 < rc < 2 ^ 32 - 1 →
  ex_object_space_lookup (S fuel) d (Tst om (Space (inserted e d o coe) true)) =
    Ok (Some o, Tst (set_objects (<[o := Hdr c (rc + 1)]> (objects om)) om) (Space (inserted e d o coe) true)).
Proof.
  intros He Hd Ho Hrc. pose proof (to_cap _ He). pose proof (to_ptrs _ He). apply lookup_open; try done; cbn [capacity open objptrs inserted].
  - lia.
  - apply roomy_set, He.
  - rewrite (bit_set 32 eq_refl _ (capacity e)) by (lia || apply He). by rewrite decide_True.
  - apply list_lookup_insert_eq. lia.
Qed.
(** Without one, while it is only reserved. *)
Lemma lookup_reserved om e d coe fuel : tab_ok e → least_free e d →
  ex_object_space_lookup (S fuel) d (Tst om (Space (reserved e d coe) true)) = Ok (None, Tst om (Space (reserved e d coe) true)).
Proof.
  intros He (Hd & Hb & _). pose proof (to_cap _ He). destruct (to_closed _ He d Hd Hb) as [Hp _]. unfold ex_object_space_lookup.
  rewrite (proj2 (Z.ltb_ge d 0)) by lia. cbn [lookup_loop]. rewrite (bind_ok _ _ _ (reserved e d coe) (Tst om (Space (reserved e d coe) true))) by done.
  cbn [capacity open objptrs reserved]. rewrite (u32_small d), (proj2 (Z.leb_gt _ _)) by lia. unfold test.
  rewrite (test_bit _ (capacity e)) by (done || apply roomy_set, He). rewrite (bit_set 32 eq_refl _ (capacity e)) by (lia || apply He). rewrite decide_True by done.
  rewrite (bind_ok _ _ _ true (Tst om (Space (reserved e d coe) true))) by done. by rewrite Hp.
Qed.
Lemma free_run om e d o coe : tab_ok e → least_free e d →
  ex_object_space_free_index d (Tst om (Space (inserted e d o coe) true)) = Ok (Some o, Tst om (Space e true)).
Proof.
  intros He (Hd & Hb & _). pose proof (to_cap _ He). pose proof (n_open_range e He). destruct (to_closed _ He d Hd Hb) as [Hp Hc]. unfold ex_object_space_free_index.
  rewrite (bind_ok _ _ _ (inserted e d o coe) (Tst om (Space (inserted e d o coe) true))) by done. cbn [capacity open objptrs inserted cloexec n_open].
  rewrite (u32_small d), (proj2 (Z.leb_gt _ _)) by lia. unfold test. rewrite (test_bit _ (capacity e)) by (done || apply roomy_set, He).
  rewrite (bit_set 32 eq_refl _ (capacity e)) by (lia || apply He). rewrite decide_True by done.
  rewrite (bind_ok _ _ _ true (Tst om (Space (inserted e d o coe) true))) by done. rewrite (bind_ok _ _ _ () (Tst om (Space (inserted e d o coe) true))) by done.
  rewrite (clear_bit_ok (set_bit (open e) d) (capacity e)), (clear_set 32 eq_refl _ (capacity e)) by (done || apply roomy_set, He || apply He). rewrite (bind_ok _ _ _ (open e) (Tst om (Space (inserted e d o coe) true))) by done.
  assert (bit32_clear (if coe then set_bit (cloexec e) d else cloexec e) d = Some (cloexec e)) as ->.
  { pose proof (to_cloexec _ He) as Hrc. destruct coe.
    - rewrite (clear_bit_ok _ (capacity e)), (clear_set 32 eq_refl _ (capacity e)); (done || by apply roomy_set).
    - by rewrite (clear_bit_ok _ (capacity e)), (clear_unset 32 eq_refl _ (capacity e)). }
  rewrite (bind_ok _ _ _ (cloexec e) (Tst om (Space (inserted e d o coe) true))) by done.
  rewrite list_lookup_insert_eq by (pose proof (to_ptrs _ He); lia). rewrite (bind_ok _ _ _ (Some o) (Tst om (Space (inserted e d o coe) true))) by done.
  unfold entries_set, modify, mret, kern_ret, mbind, kern_bind, set_tab. cbn [tab resize_done Objtab.om]. rewrite u32_small by lia. do 4 f_equal.
  rewrite list_insert_insert_eq, list_insert_id by done. destruct e; simpl. f_equal. lia.
Qed.
Lemma release_run s o c rc : objects s !! o = Some (Hdr c rc) → 0 < rc < 2 ^ 32 - 1 →
  obj_release o (set_objects (<[o := Hdr c (rc + 1)]> (objects s)) s) = Ok ((), s).
Proof.
  intros Ho Hrc. unfold obj_release, hdr_at, mbind, kern_bind, get, deref. cbn [objects set_objects]. rewrite lookup_insert_eq. cbn [mret kern_ret refcount class].
  unfold hdr_set, modify, when. rewrite (proj2 (Z.eqb_neq _ 1)) by lia. unfold mret, kern_ret, set_objects. cbn [objects types freed].
  rewrite insert_insert_eq. replace (rc + 1 - 1) with rc by lia. rewrite u32_small, insert_id by (done || lia). by destruct s.
Qed.

(** ** The theorems *)

(** C32. The life of a descriptor.  In a table with room, a reservation gives the least
    number that is not open and touches no other; it looks up as nothing; once an object is put behind it, a
    look-up gives that object and one more reference to it; when the reference has been
    released and the descriptor freed, table and objects are exactly as they were. *)
Theorem descriptor_life om e coe o c rc fuel :
  tab_ok e → n_open e < capacity e → objects om !! o = Some (Hdr c rc) → 0 < rc < 2 ^ 32 - 1 →
  ∃ d e1 e2 om', least_free e d ∧
    ex_object_space_reserve coe (Tst om (Space e true)) = Ok (d, Tst om (Space e1 true)) ∧
    ex_object_space_lookup (S fuel) d (Tst om (Space e1 true)) = Ok (None, Tst om (Space e1 true)) ∧
    ex_object_space_reserved_insert d o (Tst om (Space e1 true)) = Ok ((), Tst om (Space e2 true)) ∧
    ex_object_space_lookup (S fuel) d (Tst om (Space e2 true)) = Ok (Some o, Tst om' (Space e2 true)) ∧
    objects om' !! o = Some (Hdr c (rc + 1)) ∧ obj_release o om' = Ok ((), om) ∧
    ex_object_space_free_index d (Tst om (Space e2 true)) = Ok (Some o, Tst om (Space e true)) ∧
    ∀ i, 0 ≤ i → i ≠ d → bit (open e2) i = bit (open e) i ∧ objptrs e2 !! Z.to_nat i = objptrs e !! Z.to_nat i.
Proof.
  intros He Hn Ho Hrc. destruct (reserve_run om e coe He Hn) as (d & Hl & Hres). pose proof Hl as (Hd & _ & _).
  exists d, (reserved e d coe), (inserted e d o coe), (set_objects (<[o := Hdr c (rc + 1)]> (objects om)) om). split_and!; [done|done|..].
  - by apply lookup_reserved.
  - by apply insert_run.
  - by apply lookup_run.
  - simpl. apply lookup_insert_eq.
  - by apply release_run.
  - by apply free_run.
  - intros i Hi Hne. cbn [inserted open objptrs]. rewrite (bit_set 32 eq_refl _ (capacity e)) by (done || apply He). rewrite decide_False by done. split; [done|].
    apply list_lookup_insert_ne. lia.
Qed.

(** A full table does not grow: a reservation fails and changes nothing, since
    the code that makes a larger table frees it again and reports failure. *)
Theorem full_table_stays om e coe : tab_ok e → n_open e = capacity e →
  ex_object_space_reserve coe (Tst om (Space e true)) = Ok (-1, Tst om (Space e true)).
Proof.
  intros He Hn. unfold ex_object_space_reserve, descnum_alloc_locked. rewrite (bind_ok _ _ _ e (Tst om (Space e true))) by done.
  rewrite (proj2 (Z.ltb_ge _ _)) by lia. done.
Qed.

(** A new table, and one with all 64 descriptors in use. *)
Lemma fresh_tab : tab_ok (fresh_entries 64).
Proof.
  assert (∀ i, 0 ≤ i < 64 → bit (replicate 2 0) i = false) as Hb.
  { intros i Hi. unfold Bits.bit, word. rewrite lookup_total_replicate_2; [apply Z.bits_0|]. pose proof (Z.div_lt_upper_bound i 32 2). lia. }
  split; [done|done|done|done|vm_compute; reflexivity|]. intros i Hi _. cbn [fresh_entries capacity] in Hi. split; [|by apply Hb].
  unfold fresh_entries. cbn [objptrs]. apply lookup_replicate. split; [done|lia].
Qed.
Definition full_entries : objtab_entries := Entries 64 64 (replicate 64 (Some 5)) (replicate 2 (2 ^ 32 - 1)) (replicate 2 0).
Lemma full_tab : tab_ok full_entries.
Proof.
  split; [done|done|done|done|vm_compute; reflexivity|]. intros i Hi Hb. exfalso. cbn [full_entries capacity open] in *. unfold Bits.bit, word in Hb.
  rewrite lookup_total_replicate_2 in Hb by (pose proof (Z.div_lt_upper_bound i 32 2); lia). pose proof (Z.mod_pos_bound i 32 ltac:(lia)).
  replace (2 ^ 32 - 1) with (Z.ones 32) in Hb by done. rewrite Z.ones_spec_low in Hb by lia. done.
Qed.
Definition one_object : ost := Ost [] {[5 := Hdr 4 1]} [].
Lemma descriptor_life_witness : ∃ d, least_free (fresh_entries 64) d ∧
  (d ← ex_object_space_reserve true; ex_object_space_reserved_insert d 5;; ex_object_space_free_index d) (Tst one_object (Space (fresh_entries 64) true)) =
    Ok (Some 5, Tst one_object (Space (fresh_entries 64) true)).
Proof.
  destruct (descriptor_life one_object (fresh_entries 64) true 5 4 1 0 fresh_tab ltac:(vm_compute; reflexivity) eq_refl ltac:(lia))
    as (d & e1 & e2 & om' & Hl & H1 & _ & H2 & _ & _ & _ & H3 & _).
  exists d. split; [exact Hl|]. rewrite (bind_ok _ _ _ _ _ H1), (bind_ok _ _ _ _ _ H2). exact H3.
Defined.
Lemma full_table_stays_witness :
  ex_object_space_reserve false (Tst one_object (Space full_entries true)) = Ok (-1, Tst one_object (Space full_entries true)).
Proof. exact (full_table_stays one_object full_entries false full_tab eq_refl). Defined.

(** ** Forked tables *)

(** The table of a new process with one file open is forked; in the child the descriptor
    is closed, and no descriptor can be opened any more, although all 64 are free. *)
Definition parent : ex_object_space :=
  tab (final (d ← ex_object_space_reserve false; ex_object_space_reserved_insert d 5) (Tst one_object (Space (fresh_entries 64) true))).
Definition close_and_open (s : ost) (child : ex_object_space) : outcome (Z * tst) :=
  (_ ← ex_object_space_free_index 0; ex_object_space_reserve false) (Tst s child).
Lemma fork_loses_count :
  match ex_object_space_create (Some parent) (replicate 64 None) one_object with
  | Ok (child, s) =>
      match close_and_open s child with
      | Ok (r, s') => r = -1 ∧ n_open (entries (tab s')) = 2 ^ 32 - 1 ∧ opened (entries (tab s')) = []
      | _ => False
      end
  | _ => False
  end.
Proof. vm_compute. split_and!; reflexivity. Qed.
(** A descriptor that is reserved, but has no object yet, stops the machine at a fork. *)
Lemma fork_of_reserved_fails : ex_object_space_create (Some (tab (final (ex_object_space_reserve false) (Tst one_object (Space (fresh_entries 64) true)))))
  (replicate 64 None) one_object = Fatal "obj != NULL".
Proof. vm_compute. reflexivity. Qed.
