(* ===== verification/File.v ===== *)
(** File objects and their services: kernel/executive/file.c.  The operations of a vnode
    belong to its file system or driver and are parameters; a negative result is given
    by its error. *)
From S2P Require Import Prelude Bits Objman Objtab ObjtabProofs.
Import Objman Objtab.
Local Open Scope Z_scope.

Module File.

Inductive errno := EBADF | EMFILE | ENOSYS.
Global Instance errno_eq_dec : EqDecision errno.
Proof. solve_decision. Defined.
Inductive ret := Val (r : Z) | Err (e : errno).
Global Instance ret_eq_dec : EqDecision ret.
Proof. solve_decision. Defined.

(** [nc] and [epoll_watches] only matter when the file is freed. *)
Record file := File { vnode : Z; nch : option Z; offset : Z; watched : bool }.
Record fst := Fst { tables : tst; files : gmap Z file }.
Definition in_table {A} (m : kern tst A) : kern fst A := zoom tables (λ t s, Fst t (files s)) m.
Definition file_at (o : Z) : kern fst file := s ← get; deref "file" (files s !! o).
Definition file_set (o : Z) (f : file) : kern fst () := modify (λ s, Fst (tables s) (<[o := f]> (files s))).
Definition with_offset x f := File (vnode f) (nch f) x (watched f).

(** What the free routine of files lets go of: a name cache handle or a vnode. *)
Inductive dropped := DropName (nc : Z) | DropVnode (vp : Z).
Definition ex_file_free (f : file) : bool * dropped :=
  (watched f, match nch f with Some nc => DropName nc | None => DropVnode (vnode f) end).

Inductive whence := SEEK_SET | SEEK_CUR | SEEK_END.

Section services.
(** The class of files, and the operations of vnodes: a read or write gives its result
    and count; a seek its result and the new offset; any of them may be missing. *)
Context (file_class : Z).
Context (cached_read cached_write : Z → option (Z → Z → Z → Z * Z)) (seek : Z → Z → Z → Z * Z) (ioctl : Z → option (Z → Z → Z)).
Context (fuel : nat).

Definition ex_file_new (o : Z) : kern fst () :=
  r ← in_table (in_objects (obj_new o file_class));
  kassert "r == 0" (r =? 0);;
  file_set o (File 0 None 0 false).

(** Opening, once the path has been found to lead to the name [nc] of the vnode [vp];
    [o] is the memory for the file. *)
Definition ex_service_file_open (o nc vp : Z) : kern fst ret :=
  ex_file_new o;;
  f ← file_at o;
  file_set o (File vp (Some nc) (offset f) (watched f));;
  descnum ← in_table (ex_object_space_reserve false);
  if descnum =? -1 then mret (Err EMFILE)
  else in_table (ex_object_space_reserved_insert descnum o);; mret (Val descnum).

Definition ex_service_file_close (handle : Z) : kern fst ret :=
  old ← in_table (ex_object_space_free_index handle);
  o ← deref "obj_release(NULL)" old;
  in_table (in_objects (obj_release o));;
  mret (Val 0).

(** [result] and [count] of an I/O, as the services take them. *)
Definition io_count (op : option (Z → Z → Z → Z * Z)) (ubuf off count : Z) : kern fst Z :=
  match op with
  | Some f =>
      let '(result, n) := f ubuf off count in
      kassert "ret.result == 0" (result =? 0);;
      mret (i32 n)
  | None => mret (-1)
  end.
Definition ex_service_file_read_cached (handle ubuf count : Z) : kern fst ret :=
  r ← in_table (ex_object_space_lookup fuel handle);
  match r with
  | None => mret (Err EBADF)
  | Some o =>
      f ← file_at o;
      n ← io_count (cached_read (vnode f)) ubuf (offset f) count;
      when (bool_decide (is_Some (cached_read (vnode f)))) (file_set o (with_offset (offset f + n) f));;
      kassert "r >= 0" (0 <=? n);;
      in_table (in_objects (obj_release o));;
      mret (Val n)
  end.
Definition ex_service_file_write_cached (handle ubuf count : Z) : kern fst ret :=
  r ← in_table (ex_object_space_lookup fuel handle);
  match r with
  | None => mret (Err EBADF)
  | Some o =>
      f ← file_at o;
      n ← io_count (cached_write (vnode f)) ubuf (offset f) count;
      kassert "r >= 0" (0 <=? n);;
      file_set o (with_offset (offset f + n) f);;
      in_table (in_objects (obj_release o));;
      mret (Val n)
  end.

Definition ex_service_file_seek (handle off : Z) (w : whence) : kern fst ret :=
  r ← in_table (ex_object_space_lookup fuel handle);
  match r with
  | None => mret (Err EBADF)
  | Some o =>
      f ← file_at o;
      new ← match w with SEEK_SET => mret off | SEEK_CUR => mret (offset f + off) | _ => fatal "Unimplemented" end;
      let '(r, new) := seek (vnode f) (offset f) new in
      when (negb (r =? 0)) (file_set o (with_offset new f));;
      in_table (in_objects (obj_release o));;
      mret (Val r)
  end.
Definition ex_service_file_ioctl (handle request arg : Z) : kern fst ret :=
  r ← in_table (ex_object_space_lookup fuel handle);
  match r with
  | None => mret (Err EBADF)
  | Some o =>
      f ← file_at o;
      match ioctl (vnode f) with
      | None => in_table (in_objects (obj_release o));; mret (Err ENOSYS)
      | Some op => let r := op request arg in in_table (in_objects (obj_release o));; mret (Val r)
      end
  end.
End services.
End File.

(** File services on top of objects and descriptor tables. *)
Import Objman Objtab File.

Lemma in_table_run {A} (m : kern tst A) t a t' fs : m t = Ok (a, t') → in_table m (Fst t fs) = Ok (a, Fst t' fs).
Proof. intros Hm. unfold in_table, zoom. simpl. by rewrite Hm. Qed.
Lemma in_objects_run {A} (m : kern ost A) om a om' tab : m om = Ok (a, om') → in_objects m (Tst om tab) = Ok (a, Tst om' tab).
Proof. intros Hm. unfold in_objects, zoom. simpl. by rewrite Hm. Qed.

(** ** Using a descriptor *)

(** The descriptor [d] is open on the file [o]. *)
Record open_on (s : fst) (d o : Z) (f : file) : Prop := OpenOn {
  oo_range : 0 ≤ d < capacity (entries (tab (tables s)));
  oo_cap : capacity (entries (tab (tables s))) < 2 ^ 31;
  oo_room : roomy (open (entries (tab (tables s)))) (capacity (entries (tab (tables s))));
  oo_open : bit (open (entries (tab (tables s)))) d = true;
  oo_ptr : objptrs (entries (tab (tables s))) !! Z.to_nat d = Some (Some o);
  oo_done : resize_done (tab (tables s)) = true;
  oo_refs : ∃ c rc, objects (om (tables s)) !! o = Some (Hdr c rc) ∧ 0 < rc < 2 ^ 32 - 1;
  oo_file : files s !! o = Some f
}.
(** Looking [d] up and, later, releasing the file leaves tables and objects as they were. *)
Lemma looked_up s d o f fuel : open_on s d o f → ∃ t,
  in_table (ex_object_space_lookup (S fuel) d) s = Ok (Some o, Fst t (files s)) ∧
  ∀ fs, in_table (in_objects (obj_release o)) (Fst t fs) = Ok ((), Fst (tables s) fs).
Proof.
  intros [Hd Hcap Hro Hb Hp Hdone (c & rc & Ho & Hrc) Hf]. destruct s as [[om [e dn]] fs]. cbn [tables tab entries Objtab.om resize_done files] in *. subst dn.
  eexists. split; [by apply in_table_run, (lookup_open om e d o fuel c rc)|]. intros fs'. by apply in_table_run, in_objects_run, (release_run om o c rc).
Qed.
Lemma file_at_run t fs o f : fs !! o = Some f → file_at o (Fst t fs) = Ok (f, Fst t fs).
Proof. intros Hf. unfold file_at, mbind, kern_bind, get, deref. simpl. by rewrite Hf. Qed.

Section services.
Context (cached_read cached_write : Z → option (Z → Z → Z → Z * Z)) (seek : Z → Z → Z → Z * Z) (ioctl : Z → option (Z → Z → Z)).

Lemma io_count_run op g ubuf off count n s : op = Some g → g ubuf off count = (0, n) → 0 ≤ n < 2 ^ 31 → io_count op ubuf off count s = Ok (n, s).
Proof. intros -> Hg Hn. unfold io_count. rewrite Hg. cbn. by rewrite i32_small by lia. Qed.

Lemma read_run s d o f fuel ubuf count g n : open_on s d o f → cached_read (vnode f) = Some g → g ubuf (offset f) count = (0, n) → 0 ≤ n < 2 ^ 31 →
  ex_service_file_read_cached cached_read (S fuel) d ubuf count s = Ok (Val n, Fst (tables s) (<[o := with_offset (offset f + n) f]> (files s))).
Proof.
  intros Ho Hop Hg Hn. destruct (looked_up s d o f fuel Ho) as (t & Hlk & Hrel). unfold ex_service_file_read_cached. rewrite (bind_ok _ _ _ _ _ Hlk).
  rewrite (bind_ok _ _ _ _ _ (file_at_run t (files s) o f (oo_file _ _ _ _ Ho))). rewrite (bind_ok _ _ _ _ _ (io_count_run _ g ubuf _ count n _ Hop Hg Hn)).
  rewrite Hop. rewrite (bind_ok _ _ _ () (Fst t (<[o := with_offset (offset f + n) f]> (files s)))) by done.
  rewrite (proj2 (Z.leb_le 0 n)) by lia. rewrite (bind_ok _ _ _ _ _ eq_refl). by rewrite (bind_ok _ _ _ _ _ (Hrel _)).
Qed.
Lemma write_run s d o f fuel ubuf count g n : open_on s d o f → cached_write (vnode f) = Some g → g ubuf (offset f) count = (0, n) → 0 ≤ n < 2 ^ 31 →
  ex_service_file_write_cached cached_write (S fuel) d ubuf count s = Ok (Val n, Fst (tables s) (<[o := with_offset (offset f + n) f]> (files s))).
Proof.
  intros Ho Hop Hg Hn. destruct (looked_up s d o f fuel Ho) as (t & Hlk & Hrel). unfold ex_service_file_write_cached. rewrite (bind_ok _ _ _ _ _ Hlk).
  rewrite (bind_ok _ _ _ _ _ (file_at_run t (files s) o f (oo_file _ _ _ _ Ho))). rewrite (bind_ok _ _ _ _ _ (io_count_run _ g ubuf _ count n _ Hop Hg Hn)).
  rewrite (proj2 (Z.leb_le 0 n)) by lia. rewrite (bind_ok _ _ _ _ _ eq_refl).
  rewrite (bind_ok _ _ _ () (Fst t (<[o := with_offset (offset f + n) f]> (files s)))) by done. by rewrite (bind_ok _ _ _ _ _ (Hrel _)).
Qed.
(** A seek the file system accepts is forgotten; one that it refuses moves the file. *)
Lemma seek_inverted s d o f fuel off r new : open_on s d o f → seek (vnode f) (offset f) off = (r, new) →
  ex_service_file_seek seek (S fuel) d off SEEK_SET s =
    Ok (Val r, if r =? 0 then s else Fst (tables s) (<[o := with_offset new f]> (files s))).
Proof.
  intros Ho Hsk. destruct (looked_up s d o f fuel Ho) as (t & Hlk & Hrel). unfold ex_service_file_seek. rewrite (bind_ok _ _ _ _ _ Hlk).
  rewrite (bind_ok _ _ _ _ _ (file_at_run t (files s) o f (oo_file _ _ _ _ Ho))). rewrite (bind_ok _ _ _ _ _ eq_refl), Hsk. destruct (r =? 0); cbn [negb when].
  - rewrite (bind_ok _ _ _ _ _ eq_refl), (bind_ok _ _ _ _ _ (Hrel _)). by destruct s.
  - rewrite (bind_ok _ _ _ () (Fst t (<[o := with_offset new f]> (files s)))) by done. by rewrite (bind_ok _ _ _ _ _ (Hrel _)).
Qed.
(** A descriptor that is out of range or not open. *)
Lemma lookup_closed s d fuel : tab_ok (entries (tab (tables s))) → d < 0 ∨ capacity (entries (tab (tables s))) ≤ d < 2 ^ 31 ∨
  0 ≤ d < capacity (entries (tab (tables s))) ∧ bit (open (entries (tab (tables s)))) d = false →
  in_table (ex_object_space_lookup (S fuel) d) s = Ok (None, s).
Proof.
  intros He Hd. destruct s as [[om [e dn]] fs]. cbn [tables tab entries] in *. pose proof (to_cap _ He). apply in_table_run. unfold ex_object_space_lookup.
  destruct (Z.ltb_spec d 0); [done|]. cbn [lookup_loop]. rewrite (bind_ok _ _ _ e (Tst om (Space e dn))) by done. rewrite (u32_small d) by lia. destruct (Z.leb_spec (capacity e) d); [done|].
  unfold test. rewrite (test_bit _ (capacity e)) by (lia || apply He). destruct Hd as [?|[?|[_ ->]]]; [lia..|]. done.
Qed.
End services.

(** ** Opening and closing *)

(** A type that has a free routine and can be retained twice. *)
Definition file_type (om : ost) (k : Z) (t : type_object) : Prop :=
  types om !! Z.to_nat k = Some t ∧ has_free t = true ∧ 0 < refcount (thdr t) < 0xffffffe0.
Definition type_after (t : type_object) : type_object :=
  Ty (Hdr (class (thdr t)) (refcount (thdr t) + 2)) (u32 (count t + 1)) (has_free t).
Lemma obj_new_run om k t o : file_type om k t →
  obj_new o k om = Ok (0, Ost (<[Z.to_nat k := type_after t]> (types om)) (<[o := Hdr k 1]> (objects om)) (freed om)).
Proof.
  intros (Ht & _ & Hrc). unfold obj_new, new_common, type_retain, type_at, type_set, hdr_set, may_retain, get, modify, deref, kassert, mbind, kern_bind, mret, kern_ret.
  destruct om as [ts os fr]. cbn [types] in Ht. pose proof (lookup_lt_Some _ _ _ Ht). cbn [types]. rewrite Ht. cbn [thdr refcount class count has_free set_types set_objects types objects freed].
  rewrite (u32_small (refcount (thdr t) + 1)) by lia. rewrite (proj2 (Z.eqb_neq _ 0)), (proj2 (Z.ltb_lt _ 0xfffffff0)) by lia. cbn [negb andb types set_types objects freed set_objects].
  rewrite list_lookup_insert_eq by done. cbn [thdr refcount class count has_free]. rewrite (u32_small (refcount (thdr t) + 1 + 1)) by lia.
  rewrite (proj2 (Z.eqb_neq _ 0)), (proj2 (Z.ltb_lt _ 0xfffffff0)) by lia. cbn [negb andb types set_types objects freed set_objects].
  rewrite !list_insert_insert_eq, list_lookup_insert_eq by done. cbn [thdr refcount class count has_free set_types set_objects types objects freed].
  rewrite list_insert_insert_eq, insert_insert_eq. unfold type_after. replace (refcount (thdr t) + 1 + 1) with (refcount (thdr t) + 2) by lia. done.
Qed.
Lemma release_last om o k t : objects om !! o = Some (Hdr k 1) → types om !! Z.to_nat k = Some t → has_free t = true →
  obj_release o om = Ok ((), Ost (types om) (<[o := Hdr k 0]> (objects om)) (o :: freed om)).
Proof.
  intros Ho Ht Hf. unfold obj_release, hdr_at, type_at, hdr_set, get, modify, deref, kassert, when, mbind, kern_bind, mret, kern_ret.
  rewrite Ho. cbn [refcount class Z.eqb Pos.eqb types set_objects]. rewrite Ht, Hf. done.
Qed.

(** C33. Opening a file gives it the least free descriptor, and a read through that
    descriptor acts at its offset and moves it; closing the descriptor frees exactly
    that file, and the table is what it was before. *)
Theorem file_open_close cached_read om e fs k t o nc vp fuel ubuf count g n :
  tab_ok e → n_open e < capacity e → file_type om k t → 0 ≤ k →
  cached_read vp = Some g → g ubuf 0 count = (0, n) → 0 ≤ n < 2 ^ 31 →
  ∃ d s1 s2 om2, least_free e d ∧
    ex_service_file_open k o nc vp (Fst (Tst om (Space e true)) fs) = Ok (Val d, s1) ∧
    ex_service_file_read_cached cached_read (S fuel) d ubuf count s1 = Ok (Val n, s2) ∧
    files s2 !! o = Some (File vp (Some nc) n false) ∧
    ex_service_file_close d s2 = Ok (Val 0, Fst (Tst om2 (Space e true)) (files s2)) ∧
    freed om2 = o :: freed om ∧ objects om2 !! o = Some (Hdr k 0) ∧ ∀ x, x ≠ o → objects om2 !! x = objects om !! x.
Proof.
  intros He Hn Ht Hk Hop Hg Hnr. set (om1 := Ost (<[Z.to_nat k := type_after t]> (types om)) (<[o := Hdr k 1]> (objects om)) (freed om)).
  destruct (reserve_run om1 e false He Hn) as (d & Hl & Hres). pose proof Hl as (Hd & _ & _). pose proof (to_cap _ He).
  set (f0 := File vp (Some nc) 0 false). set (fs1 := <[o := f0]> fs).
  set (s1 := Fst (Tst om1 (Space (inserted e d o false) true)) fs1). set (s2 := Fst (tables s1) (<[o := with_offset (offset f0 + n) f0]> fs1)).
  exists d, s1, s2, (Ost (types om1) (<[o := Hdr k 0]> (objects om1)) (o :: freed om1)).
  assert (open_on s1 d o f0) as Hoo.
  { split; cbn [s1 tables tab entries Objtab.om files resize_done inserted capacity open objptrs]; try done; [lia|by apply roomy_set, He|..].
    - rewrite (bit_set 32 eq_refl _ (capacity e)) by (lia || apply He). by rewrite decide_True.
    - apply list_lookup_insert_eq. pose proof (to_ptrs _ He). lia.
    - exists k, 1. split; [apply lookup_insert_eq|lia].
    - apply lookup_insert_eq. }
  split; [done|]. split.
  { unfold ex_service_file_open, ex_file_new. rewrite (bind_ok _ _ _ () (Fst (Tst om1 (Space e true)) (<[o := File 0 None 0 false]> fs))).
    2: { by rewrite (bind_ok _ _ _ _ _ (in_table_run _ _ _ _ fs (in_objects_run _ _ _ _ (Space e true) (obj_new_run om k t o Ht)))). }
    rewrite (bind_ok _ _ _ _ _ (file_at_run _ _ o _ (lookup_insert_eq _ _ _))). rewrite (bind_ok _ _ _ () (Fst (Tst om1 (Space e true)) fs1)).
    2: { unfold file_set, modify, fs1. simpl. by rewrite insert_insert_eq. }
    rewrite (bind_ok _ _ _ _ _ (in_table_run _ _ _ _ fs1 Hres)), (proj2 (Z.eqb_neq d (-1))) by lia.
    by rewrite (bind_ok _ _ _ _ _ (in_table_run _ _ _ _ fs1 (insert_run om1 e d o false He Hd))). }
  split; [by apply (read_run _ s1 d o f0 fuel ubuf count g n)|]. split; [apply lookup_insert_eq|]. split.
  { change s2 with (Fst (Tst om1 (Space (inserted e d o false) true)) (files s2)) at 1. unfold ex_service_file_close. rewrite (bind_ok _ _ _ _ _ (in_table_run _ _ _ _ _ (free_run om1 e d o false He Hl))). rewrite (bind_ok _ _ _ _ _ eq_refl).
    assert (obj_release o om1 = Ok ((), Ost (types om1) (<[o := Hdr k 0]> (objects om1)) (o :: freed om1))) as Hrel.
    { apply (release_last om1 o k (type_after t)); [apply lookup_insert_eq| |apply Ht]. apply list_lookup_insert_eq. destruct Ht as (Ht & _). by apply lookup_lt_Some in Ht. }
    by rewrite (bind_ok _ _ _ _ _ (in_table_run _ _ _ _ _ (in_objects_run _ _ _ _ (Space e true) Hrel))). }
  split_and!; [done|apply lookup_insert_eq|]. intros x Hx. cbn [objects om1]. by rewrite !lookup_insert_ne.
Qed.

(** The objects of a machine that has just started, and a file system that reads seven
    bytes. *)
Definition started : ost := final obj_init no_types.
Definition reads_seven (vp : Z) : option (Z → Z → Z → Z * Z) := Some (λ _ _ _, (0, 7)).
Lemma started_files : file_type started 4 (Ty (Hdr 0 1) 0 true).
Proof. split_and!; vm_compute; (reflexivity || done). Qed.
Lemma file_open_close_witness :
  ∃ d s1 s2 om2, least_free (fresh_entries 64) d ∧
    ex_service_file_open 4 100 7 8 (Fst (Tst started (Space (fresh_entries 64) true)) ∅) = Ok (Val d, s1) ∧
    ex_service_file_read_cached reads_seven 1 d 0 10 s1 = Ok (Val 7, s2) ∧
    ex_service_file_close d s2 = Ok (Val 0, Fst (Tst om2 (Space (fresh_entries 64) true)) (files s2)) ∧ freed om2 = [100].
Proof.
  destruct (file_open_close reads_seven started (fresh_entries 64) ∅ 4 (Ty (Hdr 0 1) 0 true) 100 7 8 0 0 10 (λ _ _ _, (0, 7)) 7
    fresh_tab ltac:(vm_compute; reflexivity) started_files ltac:(lia) eq_refl eq_refl ltac:(lia)) as (d & s1 & s2 & om2 & Hl & H1 & H2 & _ & H3 & Hf & _).
  exists d, s1, s2, om2. split_and!; [exact Hl|exact H1|exact H2|exact H3|]. rewrite Hf. vm_compute. reflexivity.
Defined.
