(* ===== verification/Idalloc.v ===== *)
(** Identifiers from a bit map: kernel/executive/idalloc.c.  The search starts after the
    identifier given last. *)
From S2P Require Import Prelude Bits.
Local Open Scope Z_scope.

Module Idalloc.

Record id_allocator := IdAlloc { bitmap : list Z; max : Z; rotor : Z }.

Definition BIT_ISSET (bm : list Z) (i : Z) : kern id_allocator bool :=
  b ← deref "bitmap" (bm !! Z.to_nat (i / 8)); mret (negb (Z.land b (2 ^ (i mod 8)) =? 0)).
Definition BIT_SET (bm : list Z) (i : Z) : kern id_allocator (list Z) :=
  b ← deref "bitmap" (bm !! Z.to_nat (i / 8)); mret (<[Z.to_nat (i / 8) := Z.lor b (2 ^ (i mod 8))]> bm).
Definition BIT_CLEAR (bm : list Z) (i : Z) : kern id_allocator (list Z) :=
  b ← deref "bitmap" (bm !! Z.to_nat (i / 8)); mret (<[Z.to_nat (i / 8) := Z.land b (Z.lnot (2 ^ (i mod 8)))]> bm).

(** The memory for the map is available. *)
Definition idalloc_init (highest : Z) : id_allocator :=
  let size := ROUNDUP highest 8 / 8 in
  IdAlloc (replicate (Z.to_nat size) 0) highest highest.

(** [n] indices are left, the next one is the [i]th after [start]. *)
Fixpoint alloc_from (n : nat) (start i : Z) : kern id_allocator Z :=
  match n with
  | O => mret (-1)
  | S n' =>
      a ← get;
      let index := u32 (start + i) mod (max a + 1) in
      b ← BIT_ISSET (bitmap a) index;
      if negb b then
        bm ← BIT_SET (bitmap a) index;
        put (IdAlloc bm (max a) index);;
        mret index
      else alloc_from n' start (i + 1)
  end.
Definition idalloc_alloc : kern id_allocator Z :=
  a ← get;
  alloc_from (Z.to_nat (max a + 1)) ((rotor a + 1) mod (max a + 1)) 0.
Definition idalloc_free (index : Z) : kern id_allocator () :=
  a ← get;
  kassert "index <= alloc->max" (index <=? max a);;
  bm ← BIT_CLEAR (bitmap a) index;
  put (IdAlloc bm (max a) (rotor a)).
End Idalloc.
Import Idalloc.

(** ** Proofs *)

(** The map has a bit for every identifier up to the highest. *)
Record ids_ok (a : id_allocator) : Prop := IdsOk {
  io_max : 0 ≤ max a < 2 ^ 31;
  io_rotor : 0 ≤ rotor a ≤ max a;
  io_room : max a < 8 * Z.of_nat (length (bitmap a))
}.
Definition taken (a : id_allocator) (i : Z) : bool := Bits.bit 8 (bitmap a) i.
Lemma ids_roomy (a : id_allocator) : Bits.roomy 8 (bitmap a) (8 * Z.of_nat (length (bitmap a))).
Proof. unfold roomy. replace (8 * Z.of_nat (length (bitmap a)) + (8 - 1)) with (7 + Z.of_nat (length (bitmap a)) * 8) by lia. rewrite Z.div_add by lia. done. Qed.
Lemma isset_run a i : ids_ok a → 0 ≤ i ≤ max a → BIT_ISSET (bitmap a) i a = Ok (taken a i, a).
Proof.
  intros Ha Hi. pose proof (io_room _ Ha). unfold BIT_ISSET, mbind, kern_bind. rewrite (roomy_lookup 8 eq_refl _ _ i (ids_roomy a)) by lia. cbn.
  unfold mret, kern_ret. do 2 f_equal. apply bit_test; lia.
Qed.
Lemma set_run a i : ids_ok a → 0 ≤ i ≤ max a → BIT_SET (bitmap a) i a = Ok (set_bit 8 (bitmap a) i, a).
Proof. intros Ha Hi. pose proof (io_room _ Ha). unfold BIT_SET, mbind, kern_bind. by rewrite (roomy_lookup 8 eq_refl _ _ i (ids_roomy a)) by lia. Qed.
Lemma clear_run a i : ids_ok a → 0 ≤ i ≤ max a → BIT_CLEAR (bitmap a) i a = Ok (clear_bit 8 (bitmap a) i, a).
Proof. intros Ha Hi. pose proof (io_room _ Ha). unfold BIT_CLEAR, mbind, kern_bind. by rewrite (roomy_lookup 8 eq_refl _ _ i (ids_roomy a)) by lia. Qed.
Lemma run_bind {S A B} (c : kern S A) (f : A → kern S B) s a s' : c s = Ok (a, s') → (c ≫= f) s = f a s'.
Proof. intros Hc. unfold mbind, kern_bind. by rewrite Hc. Qed.

(** The [k]th identifier of the search. *)
Definition nth_id (a : id_allocator) (k : Z) : Z := (rotor a + 1 + k) mod (max a + 1).
Lemma alloc_from_run a n i : ids_ok a → 0 ≤ i → i + Z.of_nat n = max a + 1 → (∀ k, 0 ≤ k < i → taken a (nth_id a k) = true) →
  (∃ k, i ≤ k ≤ max a ∧ taken a (nth_id a k) = false ∧ (∀ j, 0 ≤ j < k → taken a (nth_id a j) = true) ∧
     alloc_from n ((rotor a + 1) mod (max a + 1)) i a = Ok (nth_id a k, IdAlloc (set_bit 8 (bitmap a) (nth_id a k)) (max a) (nth_id a k))) ∨
  (∀ k, 0 ≤ k ≤ max a → taken a (nth_id a k) = true) ∧ alloc_from n ((rotor a + 1) mod (max a + 1)) i a = Ok (-1, a).
Proof.
  intros Ha. pose proof (io_max _ Ha) as Hm. pose proof (io_rotor _ Ha) as Hr. revert i. induction n as [|n IH]; intros i Hi Hn Hlt; cbn [alloc_from].
  { right. split; [|done]. intros k Hk. apply Hlt. lia. }
  rewrite (run_bind _ _ _ a a) by done. pose proof (Z.mod_pos_bound (rotor a + 1) (max a + 1) ltac:(lia)).
  assert (u32 ((rotor a + 1) mod (max a + 1) + i) mod (max a + 1) = nth_id a i) as ->.
  { rewrite u32_small by lia. unfold nth_id. by rewrite Zplus_mod_idemp_l. }
  assert (0 ≤ nth_id a i ≤ max a) as Hid by (pose proof (Z.mod_pos_bound (rotor a + 1 + i) (max a + 1)); unfold nth_id; lia).
  rewrite (run_bind _ _ _ _ _ (isset_run a _ Ha Hid)). destruct (taken a (nth_id a i)) eqn:E; cbn [negb].
  - destruct (IH (i + 1)) as [(k & Hk & Hf & Hall & Hrun)|Hnone]; [lia|lia| | |].
    + intros k Hk. destruct (decide (k = i)) as [->|]; [done|]. apply Hlt. lia.
    + left. exists k. split_and!; (done || lia).
    + by right.
  - left. exists i. split_and!; [lia|lia|done|done|]. by rewrite (run_bind _ _ _ _ _ (set_run a _ Ha Hid)).
Qed.
(** Every identifier is met. *)
Lemma nth_id_onto a x : ids_ok a → 0 ≤ x ≤ max a → ∃ k, 0 ≤ k ≤ max a ∧ nth_id a k = x.
Proof.
  intros Ha Hx. pose proof (io_max _ Ha). exists ((x - rotor a - 1) mod (max a + 1)). pose proof (Z.mod_pos_bound (x - rotor a - 1) (max a + 1) ltac:(lia)).
  split; [lia|]. unfold nth_id. rewrite Zplus_mod_idemp_r. replace (rotor a + 1 + (x - rotor a - 1)) with x by lia. apply Z.mod_small. lia.
Qed.

(** C35. [idalloc_alloc] never leaves the bit map.  It gives the first identifier, going
    round from the one given last, that is not taken, and takes it and no other; it
    fails, and changes nothing, only when all of them are taken. *)
Theorem idalloc_alloc_correct a : ids_ok a →
  (∃ k a', idalloc_alloc a = Ok (nth_id a k, a') ∧ 0 ≤ k ≤ max a ∧ 0 ≤ nth_id a k ≤ max a ∧ taken a (nth_id a k) = false ∧
     (∀ j, 0 ≤ j < k → taken a (nth_id a j) = true) ∧ ids_ok a' ∧ max a' = max a ∧
     ∀ x, 0 ≤ x ≤ max a → taken a' x = (if decide (x = nth_id a k) then true else taken a x)) ∨
  idalloc_alloc a = Ok (-1, a) ∧ ∀ x, 0 ≤ x ≤ max a → taken a x = true.
Proof.
  intros Ha. pose proof (io_max _ Ha) as Hm. pose proof (io_room _ Ha). unfold idalloc_alloc. rewrite (run_bind _ _ _ a a) by done.
  destruct (alloc_from_run a (Z.to_nat (max a + 1)) 0 Ha) as [(k & Hk & Hf & Hall & Hrun)|[Hall Hrun]]; [lia|lia|lia| |].
  - left. assert (0 ≤ nth_id a k ≤ max a) as Hid by (pose proof (Z.mod_pos_bound (rotor a + 1 + k) (max a + 1)); unfold nth_id; lia).
    exists k, (IdAlloc (set_bit 8 (bitmap a) (nth_id a k)) (max a) (nth_id a k)). split_and!; try (done || lia).
    + split; simpl; [done|done|]. unfold set_bit. by rewrite length_insert.
    + intros x Hx. unfold taken. cbn [bitmap]. apply (bit_set 8 eq_refl _ _ _ _ (ids_roomy a)); lia.
  - right. split; [done|]. intros x Hx. destruct (nth_id_onto a x Ha Hx) as (k & Hk & <-). by apply Hall.
Qed.
Lemma idalloc_alloc_correct_witness : idalloc_alloc (IdAlloc [5] 6 2) = Ok (3, IdAlloc [13] 6 3).
Proof.
  destruct (idalloc_alloc_correct (IdAlloc [5] 6 2)) as [(k & a' & Hrun & _)|[Hrun _]]; [split; simpl; lia|..]; vm_compute; reflexivity.
Defined.

(** With a highest identifier that is a multiple of eight the map made for it is one bit
    too short, and the allocator reads past its end. *)
Lemma idalloc_init_short : BIT_ISSET (bitmap (idalloc_init 8)) (max (idalloc_init 8)) (idalloc_init 8) = Fatal "bitmap".
Proof. vm_compute. reflexivity. Qed.
