(* ===== verification/Iop.v ===== *)
(** I/O packets: kernel/dev/iop.c.  A packet has a stack of frames; it travels down the
    stack through the dispatch routines of the frames' vnodes and up again through their
    completion routines, and may have slave packets that are carried out in place of a
    frame.  The routines belong to drivers, and are parameters; [D] is their state. *)
From S2P Require Import Prelude.
Local Open Scope Z_scope.

Module Iop.

Inductive iop_return := kIOPRetCompleted | kIOPRetContinue | kIOPRetPending | kIOPRetBegin.
Inductive iop_function := kIOPTypeRead | kIOPTypeWrite | kIOPTypeIOCtl | kIOPTypeSCSI | kIOPType9p | kIOPTypeConnect.
Inductive iop_direction := kIOPDown | kIOPUp.
Global Instance iop_return_eq_dec : EqDecision iop_return.
Proof. solve_decision. Defined.
Global Instance iop_direction_eq_dec : EqDecision iop_direction.
Proof. solve_decision. Defined.

(** The data of a frame: bytes and offset, or the two 9p buffers. *)
Record iop_frame := Frame { function : iop_function; has_kbuf : bool; vnode : Z; mdl : Z; arg1 : Z; arg2 : Z }.
Record iop := Iop {
  direction : iop_direction;
  begun : bool;
  stack_count : Z;
  stack_current : Z;
  incomplete_slave_iops_n : Z;
  slave_iops : list Z;
  master_iop : option Z;
  stack : list iop_frame
}.
Definition with_direction x p := Iop x (begun p) (stack_count p) (stack_current p) (incomplete_slave_iops_n p) (slave_iops p) (master_iop p) (stack p).
Definition with_begun x p := Iop (direction p) x (stack_count p) (stack_current p) (incomplete_slave_iops_n p) (slave_iops p) (master_iop p) (stack p).
Definition with_current x p := Iop (direction p) (begun p) (stack_count p) x (incomplete_slave_iops_n p) (slave_iops p) (master_iop p) (stack p).
Definition with_slaves n l p := Iop (direction p) (begun p) (stack_count p) (stack_current p) n l (master_iop p) (stack p).
Definition with_master x p := Iop (direction p) (begun p) (stack_count p) (stack_current p) (incomplete_slave_iops_n p) (slave_iops p) x (stack p).
Definition with_stack x p := Iop (direction p) (begun p) (stack_count p) (stack_current p) (incomplete_slave_iops_n p) (slave_iops p) (master_iop p) x.

(** The packets; those whose event has been signalled, the last one first; the drivers. *)
Record ist (D : Type) := Ist { iops : gmap Z iop; signalled : list Z; drivers : D }.
Global Arguments Ist {D} _ _ _.
Global Arguments iops {D} _.
Global Arguments signalled {D} _.
Global Arguments drivers {D} _.

Section iop.
Context {D : Type}.
Definition iop_at (i : Z) : kern (ist D) iop := s ← get; deref "iop" (iops s !! i).
Definition iop_set (i : Z) (p : iop) : kern (ist D) () := modify (λ s, Ist (<[i := p]> (iops s)) (signalled s) (drivers s)).
Definition iop_upd (i : Z) (f : iop → iop) : kern (ist D) () := p ← iop_at i; iop_set i (f p).
Definition i8 (x : Z) : Z := (x + 128) mod 256 - 128.

(** ** Making packets *)

Definition iop_init (p : iop) : iop := Iop kIOPDown false (stack_count p) (-1) 0 [] None (stack p).
(** [frames] is what the memory for the stack holds, [depth] frames. *)
Definition iop_new (i : Z) (frames : list iop_frame) : kern (ist D) () :=
  iop_set i (iop_init (Iop kIOPDown false (Z.of_nat (length frames) mod 256) 0 0 [] None frames)).
Definition frame_upd (i : Z) (k : nat) (f : iop_frame → iop_frame) : kern (ist D) () :=
  p ← iop_at i; fr ← deref "stack[k]" (stack p !! k); iop_set i (with_stack (<[k := f fr]> (stack p)) p).
Definition iop_new_vnode_rw (fn : iop_function) (i : Z) (frames : list iop_frame) (vn m size off : Z) : kern (ist D) () :=
  iop_new i frames;; frame_upd i 0 (λ fr, Frame fn (has_kbuf fr) vn m size off).
Definition iop_new_vnode_read := iop_new_vnode_rw kIOPTypeRead.
Definition iop_new_vnode_write := iop_new_vnode_rw kIOPTypeWrite.
Definition iop_new_9p := iop_new_vnode_rw kIOPType9p.
Definition iop_append_slave (m i : Z) : kern (ist D) () :=
  p ← iop_at m;
  iop_set m (with_slaves (incomplete_slave_iops_n p) (i :: slave_iops p) p);;
  iop_upd i (with_master (Some m));;
  iop_upd m (λ p, with_slaves (u32 (incomplete_slave_iops_n p + 1)) (slave_iops p) p).
(** [iop_stack_next] gives the frame below, to be set up; [iop_frame_setup_9p] sets it up. *)
Definition iop_stack_next (i : Z) : kern (ist D) nat :=
  p ← iop_at i;
  kassert "iop->stack_count > iop->stack_current + 1" (stack_current p + 1 <? stack_count p);;
  kassert "iop->stack_current >= -1" (-1 <=? stack_current p);;
  mret (Z.to_nat (stack_current p + 1)).
Definition iop_frame_setup_9p (i : Z) (k : nat) (vn inb outb m : Z) : kern (ist D) () :=
  frame_upd i k (λ _, Frame kIOPType9p false vn m inb outb).
Definition iop_stack_current (i : Z) : kern (ist D) iop_frame :=
  p ← iop_at i; deref "stack[stack_current]" (stack p !! Z.to_nat (stack_current p)).

(** ** Processing *)

Context (iop_dispatch : Z → Z → kern (ist D) iop_return) (iop_complete : Z → option (Z → kern (ist D) iop_return)).

(** Where [iop_continue] goes next: round its loop with a packet, or back to its caller. *)
Inductive next := Loop (i : Z) | Return (r : iop_return).

Fixpoint successor (i : Z) (l : list Z) : option Z :=
  match l with
  | [] => None
  | x :: l' => if x =? i then head l' else successor i l'
  end.
(** The next slave of the same master is begun, unless it has been. *)
Definition begin_sibling (i m : Z) (otherwise : iop_return) : kern (ist D) next :=
  p ← iop_at m;
  match successor i (slave_iops p) with
  | None => mret (Return otherwise)
  | Some n =>
      q ← iop_at n;
      if begun q then mret (Return otherwise) else iop_set n (with_begun true q);; mret (Loop n)
  end.
Definition pending (i : Z) : kern (ist D) next :=
  p ← iop_at i;
  match master_iop p with
  | Some m => begin_sibling i m kIOPRetPending
  | None => mret (Return kIOPRetPending)
  end.
(** [continuation_down] *)
Definition dispatched (i : Z) (status : iop_return) : kern (ist D) next :=
  match status with
  | kIOPRetCompleted => iop_upd i (with_direction kIOPUp);; mret (Loop i)
  | kIOPRetContinue => mret (Loop i)
  | kIOPRetPending => pending i
  | kIOPRetBegin => fatal "Illegal return from dispatch"
  end.
(** [continuation_up] *)
Definition completed (i : Z) (status : iop_return) : kern (ist D) next :=
  match status with
  | kIOPRetCompleted => mret (Loop i)
  | kIOPRetContinue => iop_upd i (with_direction kIOPDown);; mret (Loop i)
  | kIOPRetPending => pending i
  | kIOPRetBegin => fatal "Illegal return from completion"
  end.
Definition in_stack (c : Z) (p : iop) : bool := (-1 <=? c) && (c <? stack_count p).

Definition go_down (i : Z) : kern (ist D) next :=
  p ← iop_at i;
  let c := i8 (stack_current p + 1) in
  iop_set i (with_current c p);;
  kassert "iop->stack_current > -1 && iop->stack_current < iop->stack_count" ((-1 <? c) && (c <? stack_count p));;
  match slave_iops p with
  | first :: _ =>
      q ← iop_at first;
      kassert "!iop->begun" (negb (begun q));;
      mret (Loop first)
  | [] =>
      fr ← iop_stack_current i;
      status ← iop_dispatch (vnode fr) i;
      dispatched i status
  end.
Definition do_complete (i : Z) : kern (ist D) () := modify (λ s, Ist (iops s) (i :: signalled s) (drivers s)).
Definition go_up (i : Z) : kern (ist D) next :=
  p ← iop_at i;
  let c := i8 (stack_current p - 1) in
  iop_set i (with_current c p);;
  kassert "iop->stack_current >= -1 && iop->stack_current < iop->stack_count" (in_stack c p);;
  if c =? -1 then
    match master_iop p with
    | Some m =>
        q ← iop_at m;
        iop_set m (with_slaves (u32 (incomplete_slave_iops_n q - 1)) (slave_iops q) q);;
        if incomplete_slave_iops_n q =? 1 then iop_upd m (with_direction kIOPUp);; mret (Loop m)
        else begin_sibling i m kIOPRetCompleted
    | None => do_complete i;; mret (Return kIOPRetCompleted)
    end
  else
    kassert "iop->incomplete_slave_iops_n == 0" (incomplete_slave_iops_n p =? 0);;
    fr ← iop_stack_current i;
    status ← match iop_complete (vnode fr) with None => mret kIOPRetCompleted | Some f => f i end;
    completed i status.

Fixpoint iop_loop (fuel : nat) (i : Z) : kern (ist D) iop_return :=
  match fuel with
  | O => spin
  | S fuel' =>
      p ← iop_at i;
      n ← match direction p with kIOPDown => go_down i | kIOPUp => go_up i end;
      match n with Loop j => iop_loop fuel' j | Return r => mret r end
  end.
Definition iop_continue (fuel : nat) (i : Z) (status : iop_return) : kern (ist D) iop_return :=
  if decide (status = kIOPRetBegin) then iop_loop fuel i
  else
    p ← iop_at i;
    kassert "iop->stack_current < iop->stack_count && iop->stack_current >= -1" (in_stack (stack_current p) p);;
    n ← match direction p with kIOPDown => dispatched i status | kIOPUp => completed i status end;
    match n with Loop j => iop_loop fuel j | Return r => mret r end.
(** What [iop_send_sync] does before it returns or, [true], waits for the event. *)
Definition iop_send_sync (fuel : nat) (i : Z) : kern (ist D) bool :=
  status ← iop_continue fuel i kIOPRetBegin; mret (negb (bool_decide (status = kIOPRetCompleted))).
End iop.
End Iop.
