(* ===== verification/IopProofs.v ===== *)
(** I/O packets: a packet that is alone completes, its event signalled once; and a master
    whose slaves complete out of order is reported complete too early. *)
From S2P Require Import Prelude Iop.
Import Iop.
Local Open Scope Z_scope.

Lemma i8_small x : -128 ≤ x < 128 → i8 x = x.
Proof. intros Hx. unfold i8. rewrite Z.mod_small; lia. Qed.

Section alone.
Context {D : Type} (disp : Z → Z → kern (ist D) iop_return) (comp : Z → option (Z → kern (ist D) iop_return)).
Context (i : Z).

Lemma wp_iop_at j Q (s : ist D) : wp (iop_at j) Q s ↔ ∃ p, iops s !! j = Some p ∧ Q p s.
Proof. unfold iop_at. by wp_simp. Qed.
Lemma wp_iop_set j p (Q : () → ist D → Prop) s : wp (iop_set j p) Q s ↔ Q () (Ist (<[j := p]> (iops s)) (signalled s) (drivers s)).
Proof. done. Qed.
Lemma wp_iop_upd j f (Q : () → ist D → Prop) s :
  wp (iop_upd j f) Q s ↔ ∃ p, iops s !! j = Some p ∧ Q () (Ist (<[j := f p]> (iops s)) (signalled s) (drivers s)).
Proof. unfold iop_upd. by rewrite wp_bind, wp_iop_at. Qed.

(** The packet is at frame [c] of [n], going [d], on its own; its frames are [fr]. *)
Definition at_frame (s : ist D) (d : iop_direction) (n c : Z) (fr : list iop_frame) (sg : list Z) : Prop :=
  signalled s = sg ∧ ∃ b, iops s !! i = Some (Iop d b n c 0 [] None fr).

(** What the drivers are to do: dispatch down to frame [l], which completes (or does so
    later, [async]), and completion back up.  [P k] and [Q k] describe the frames and the
    drivers before frame [k] is dispatched, and before its completion routine is run. *)
Record behaves (n l : Z) (async : bool) (P Q : Z → list iop_frame → D → Prop) : Prop := Behaves {
  bh_range : 0 ≤ l < n ∧ n ≤ 127;
  bh_down : ∀ s k fr sg, 0 ≤ k < l → at_frame s kIOPDown n k fr sg → P k fr (drivers s) → ∃ f, fr !! Z.to_nat k = Some f ∧
    wp (disp (vnode f) i) (λ r s', r = kIOPRetContinue ∧ ∃ fr', at_frame s' kIOPDown n k fr' sg ∧ P (k + 1) fr' (drivers s')) s;
  bh_leaf : ∀ s fr sg, at_frame s kIOPDown n l fr sg → P l fr (drivers s) → ∃ f, fr !! Z.to_nat l = Some f ∧
    wp (disp (vnode f) i) (λ r s', r = (if async then kIOPRetPending else kIOPRetCompleted) ∧ ∃ fr', at_frame s' kIOPDown n l fr' sg ∧ Q (l - 1) fr' (drivers s')) s;
  bh_up : ∀ s k fr sg, 0 ≤ k < l → at_frame s kIOPUp n k fr sg → Q k fr (drivers s) → ∃ f, fr !! Z.to_nat k = Some f ∧
    match comp (vnode f) with
    | None => Q (k - 1) fr (drivers s)
    | Some g => wp (g i) (λ r s', r = kIOPRetCompleted ∧ ∃ fr', at_frame s' kIOPUp n k fr' sg ∧ Q (k - 1) fr' (drivers s')) s
    end
}.

Context (n l : Z) (async : bool) (P Q : Z → list iop_frame → D → Prop).
Hypothesis HB : behaves n l async P Q.

Definition finished (sg : list Z) (r : iop_return) (s : ist D) : Prop :=
  r = kIOPRetCompleted ∧ ∃ fr, at_frame s kIOPUp n (-1) fr (i :: sg) ∧ Q (-1) fr (drivers s).

(** One step up, from frame [k + 1]. *)
Lemma up_loop k fuel s fr sg : -1 ≤ k < l → (Z.to_nat (k + 2) ≤ fuel)%nat → at_frame s kIOPUp n (k + 1) fr sg → Q k fr (drivers s) →
  wp (iop_loop disp comp fuel i) (finished sg) s.
Proof using HB.
  pose proof (bh_range _ _ _ _ _ HB) as Hr. intros Hk. revert k Hk s fr. induction fuel as [|f IH]; intros k Hk s fr Hf (Hsg & b & Hp) HQ; [lia|]. cbn [iop_loop].
  rewrite wp_bind, wp_iop_at. eexists. split; [done|]. cbn [direction]. unfold go_up. rewrite !wp_bind, wp_iop_at. eexists. split; [done|]. cbv zeta. cbn [stack_current].
  rewrite i8_small by lia. replace (k + 1 - 1) with k by lia. rewrite wp_bind, wp_iop_set, wp_bind, wp_kassert. split.
  { unfold in_stack. cbn [stack_count]. apply andb_true_iff. split; [apply Z.leb_le; lia|apply Z.ltb_lt; lia]. }
  destruct (Z.eqb_spec k (-1)) as [->|Hne]; cbn [master_iop].
  - rewrite wp_bind. unfold do_complete. rewrite wp_modify, wp_ret, wp_ret. split; [done|]. exists fr. cbn [drivers]. split; [|done]. split; [simpl; by rewrite Hsg|].
    cbn [iops]. exists b. rewrite lookup_insert_eq. done.
  - rewrite wp_bind, wp_kassert. split; [done|]. rewrite wp_bind. unfold iop_stack_current. rewrite wp_bind, wp_iop_at. eexists. split; [simpl; apply lookup_insert_eq|].
    rewrite wp_deref. cbn [stack with_current stack_current].
    set (s1 := Ist _ _ _). assert (at_frame s1 kIOPUp n k fr sg) as Hat by (split; [done|]; exists b; simpl; by rewrite lookup_insert_eq).
    destruct (bh_up _ _ _ _ _ HB s1 k fr sg ltac:(lia) Hat HQ) as (fm & Hfm & Hc). exists fm. split; [done|]. rewrite wp_bind. destruct (comp (vnode fm)) as [g|].
    + eapply wp_mono; [exact Hc|]. intros r s' (-> & fr' & Hat' & HQ'). cbn [completed]. rewrite wp_ret. apply (IH (k - 1) ltac:(lia) s' fr'); [lia| |done]. by replace (k - 1 + 1) with k by lia.
    + rewrite wp_ret. cbn [completed]. rewrite wp_ret. apply (IH (k - 1) ltac:(lia) s1 fr); [lia| |done]. by replace (k - 1 + 1) with k by lia.
Qed.

(** Waiting for the device of frame [l]. *)
Definition waiting (sg : list Z) (r : iop_return) (s : ist D) : Prop :=
  r = kIOPRetPending ∧ ∃ fr, at_frame s kIOPDown n l fr sg ∧ Q (l - 1) fr (drivers s).
Lemma down_loop k fuel s fr sg : 0 ≤ k ≤ l → (Z.to_nat (2 * l + 2 - k) ≤ fuel)%nat → at_frame s kIOPDown n (k - 1) fr sg → P k fr (drivers s) →
  wp (iop_loop disp comp fuel i) (if async then waiting sg else finished sg) s.
Proof using HB.
  pose proof (bh_range _ _ _ _ _ HB) as Hr. intros Hk. revert k Hk s fr. induction fuel as [|f IH]; intros k Hk s fr Hf (Hsg & b & Hp) HP; [lia|]. cbn [iop_loop].
  rewrite wp_bind, wp_iop_at. eexists. split; [done|]. cbn [direction]. unfold go_down. rewrite !wp_bind, wp_iop_at. eexists. split; [done|]. cbv zeta. cbn [stack_current].
  rewrite i8_small by lia. replace (k - 1 + 1) with k by lia. rewrite wp_bind, wp_iop_set, wp_bind, wp_kassert. split.
  { cbn [stack_count]. apply andb_true_iff. split; apply Z.ltb_lt; lia. }
  cbn [slave_iops]. rewrite wp_bind. unfold iop_stack_current. rewrite wp_bind, wp_iop_at. eexists. split; [simpl; apply lookup_insert_eq|].
  rewrite wp_deref. cbn [stack with_current stack_current].
  set (s1 := Ist _ _ _). assert (at_frame s1 kIOPDown n k fr sg) as Hat by (split; [done|]; exists b; simpl; by rewrite lookup_insert_eq).
  destruct (decide (k = l)) as [->|Hne].
  - destruct (bh_leaf _ _ _ _ _ HB s1 fr sg Hat HP) as (fm & Hfm & Hc). exists fm. split; [done|]. rewrite wp_bind. eapply wp_mono; [exact Hc|].
    intros r s' (-> & fr' & (Hsg' & b' & Hp') & HQ').
    assert (∀ s2, at_frame s2 kIOPUp n (l - 1 + 1) fr' sg → Q (l - 1) fr' (drivers s2) → wp (iop_loop disp comp f i) (finished sg) s2) as Hup
      by (intros; eapply up_loop; [| |done..]; lia).
    destruct async; cbn [dispatched].
    + unfold pending. rewrite wp_bind, wp_iop_at. eexists. split; [done|]. cbn [master_iop]. rewrite wp_ret, wp_ret. split; [done|]. exists fr'. split; [|done]. split; [done|eauto].
    + rewrite wp_bind, wp_iop_upd. eexists. split; [done|]. rewrite wp_ret. apply Hup; [|done].
      replace (l - 1 + 1) with l by lia. split; [done|]. exists b'. simpl. by rewrite lookup_insert_eq.
  - destruct (bh_down _ _ _ _ _ HB s1 k fr sg ltac:(lia) Hat HP) as (fm & Hfm & Hc). exists fm. split; [done|]. rewrite wp_bind. eapply wp_mono; [exact Hc|].
    intros r s' (-> & fr' & Hat' & HP'). cbn [dispatched]. rewrite wp_ret. apply (IH (k + 1) ltac:(lia) s' fr'); [lia| |done]. by replace (k + 1 - 1) with k by lia.
Qed.
(** The device reports that it is done. *)
Lemma resume fuel s fr sg : (Z.to_nat (l + 1) ≤ fuel)%nat → at_frame s kIOPDown n l fr sg → Q (l - 1) fr (drivers s) →
  wp (iop_continue disp comp fuel i kIOPRetCompleted) (finished sg) s.
Proof using HB.
  pose proof (bh_range _ _ _ _ _ HB) as Hr. intros Hf (Hsg & b & Hp) HQ. unfold iop_continue. rewrite decide_False by done. rewrite wp_bind, wp_iop_at. eexists. split; [done|].
  rewrite wp_bind, wp_kassert. split. { unfold in_stack. cbn [stack_count stack_current]. apply andb_true_iff. split; [apply Z.leb_le; lia|apply Z.ltb_lt; lia]. }
  cbn [direction dispatched]. rewrite !wp_bind, wp_iop_upd. eexists. split; [done|]. rewrite wp_ret. apply (up_loop (l - 1) _ _ fr); [lia|lia| |done].
  replace (l - 1 + 1) with l by lia. split; [done|]. exists b. simpl. by rewrite lookup_insert_eq.
Qed.
End alone.

(** Sending a packet; if the device works asynchronously it continues it later. *)
Definition send {D} (disp : Z → Z → kern (ist D) iop_return) (comp : Z → option (Z → kern (ist D) iop_return)) (fuel : nat) (i : Z) : kern (ist D) iop_return :=
  r ← iop_continue disp comp fuel i kIOPRetBegin;
  if decide (r = kIOPRetPending) then iop_continue disp comp fuel i kIOPRetCompleted else mret r.

(** C28. A new packet sent down a stack of at most 127 frames completes, whether the
    device at frame [l] completes at once or later: every frame down to [l] is
    dispatched in order, the completion routines run in the opposite order, the loop
    ends, and the event of the packet is signalled exactly once. *)
Theorem iop_completes {D} disp comp i n l async P Q b fr (s : ist D) fuel :
  behaves disp comp i n l async P Q → iops s !! i = Some (iop_init (Iop kIOPDown b n 0 0 [] None fr)) → P 0 fr (drivers s) →
  (Z.to_nat (2 * l + 2) ≤ fuel)%nat →
  wp (send disp comp fuel i) (λ r s', r = kIOPRetCompleted ∧ signalled s' = i :: signalled s ∧
    ∃ fr', at_frame i s' kIOPUp n (-1) fr' (i :: signalled s) ∧ Q (-1) fr' (drivers s')) s.
Proof.
  intros HB Hp HP Hf. pose proof (bh_range _ _ _ _ _ _ _ _ HB) as Hr. unfold send. rewrite wp_bind.
  assert (at_frame i s kIOPDown n (0 - 1) fr (signalled s)) as Hat by (split; [done|]; eexists; exact Hp).
  unfold iop_continue at 1. rewrite decide_True by done. eapply wp_mono; [eapply (down_loop disp comp i n l async P Q HB 0); [lia|lia|exact Hat|done]|].
  intros r s'. destruct async; intros [-> (fr' & Hat' & HQ)].
  - rewrite decide_True by done. eapply wp_mono; [eapply (resume disp comp i n l true P Q HB); [lia|exact Hat'|done]|].
    intros r s'' [-> (fr'' & Hat'' & HQ')]. split; [done|]. split; [apply Hat''|eauto].
  - rewrite decide_False by done. rewrite wp_ret. split; [done|]. split; [apply Hat'|eauto].
Qed.

(** ** Two frames *)

(** The drivers log what they are called for: the device of vnode 20 works later, and the
    completion routine of vnode 10 is logged as -10. *)
Definition log (v : Z) (r : iop_return) : kern (ist (list Z)) iop_return :=
  modify (λ s, Ist (iops s) (signalled s) (v :: drivers s));; mret r.
Definition two_disp (vp i : Z) : kern (ist (list Z)) iop_return := log vp (if vp =? 10 then kIOPRetContinue else kIOPRetPending).
Definition two_comp (vp : Z) : option (Z → kern (ist (list Z)) iop_return) := Some (λ _, log (- vp) kIOPRetCompleted).
Definition frame_of (vp : Z) : iop_frame := Frame kIOPTypeRead false vp 0 0 0.
Definition two_P (k : Z) (fr : list iop_frame) (d : list Z) : Prop := fr = [frame_of 10; frame_of 20] ∧ d = (if k =? 0 then [] else [10]).
Definition two_Q (k : Z) (fr : list iop_frame) (d : list Z) : Prop := fr = [frame_of 10; frame_of 20] ∧ d = (if k =? 0 then [20; 10] else [-10; 20; 10]).
Lemma two_behaves : behaves two_disp two_comp 1 2 1 true two_P two_Q.
Proof.
  split; [lia|..].
  - intros s k fr sg Hk Hat [-> Hd]. assert (k = 0) as -> by lia. exists (frame_of 10). split; [done|]. cbn in Hd.
    unfold wp. cbn. split; [done|]. eexists. split; [exact Hat|]. split; [done|]. simpl. by rewrite Hd.
  - intros s fr sg Hat [-> Hd]. exists (frame_of 20). split; [done|]. cbn in Hd. unfold wp. cbn. split; [done|]. eexists. split; [exact Hat|]. split; [done|]. simpl. by rewrite Hd.
  - intros s k fr sg Hk Hat [-> Hd]. assert (k = 0) as -> by lia. exists (frame_of 10). split; [done|]. cbn in Hd. cbn.
    unfold wp. cbn. split; [done|]. eexists. split; [exact Hat|]. split; [done|]. simpl. by rewrite Hd.
Qed.
Lemma iop_completes_witness :
  wp (send two_disp two_comp 4 1) (λ r s', r = kIOPRetCompleted ∧ signalled s' = [1] ∧ drivers s' = [-10; 20; 10])
    (Ist {[1 := iop_init (Iop kIOPDown false 2 0 0 [] None [frame_of 10; frame_of 20])]} [] []).
Proof.
  eapply wp_mono; [apply (iop_completes two_disp two_comp 1 2 1 true two_P two_Q false [frame_of 10; frame_of 20] _ 4 two_behaves)|].
  - reflexivity.
  - split; reflexivity.
  - simpl. lia.
  - intros r s' (-> & Hsg & fr' & _ & [_ Hd]). split_and!; [done|exact Hsg|exact Hd].
Defined.

(** ** Slaves *)

(** Packet 1 has two slaves, made by its first driver: 2, whose device works later, and
    3, whose device completes at once. *)
Definition slave_disp (vp i : Z) : kern (ist ()) iop_return :=
  if vp =? 10 then iop_append_slave 1 3;; iop_append_slave 1 2;; mret kIOPRetContinue
  else mret (if vp =? 20 then kIOPRetPending else kIOPRetCompleted).
Definition no_comp (vp : Z) : option (Z → kern (ist ()) iop_return) := None.
Definition new_packet (frames : list iop_frame) : iop := iop_init (Iop kIOPDown false (Z.of_nat (length frames)) 0 0 [] None frames).
Definition packets : ist () :=
  Ist {[1 := new_packet [frame_of 10; frame_of 10]; 2 := new_packet [frame_of 20]; 3 := new_packet [frame_of 30]]} [] ().

(** A master packet can be reported complete while a slave is still at work: when
    the last slave to be begun completes at once and an earlier one is pending,
    [iop_continue] returns "completed".  [iop_send_sync] then returns without waiting,
    before the event of the packet has been signalled; the event, on the stack of
    [iop_send_sync], is signalled when the device is done. *)
Theorem iop_send_sync_too_early :
  match iop_send_sync slave_disp no_comp 10 1 packets with
  | Ok (waits, s) => waits = false ∧ signalled s = [] ∧
      match iop_continue slave_disp no_comp 10 2 kIOPRetCompleted s with
      | Ok (_, s') => signalled s' = [1]
      | _ => False
      end
  | _ => False
  end.
Proof. vm_compute. split_and!; reflexivity. Qed.
