(* ===== verification/Kmem.v ===== *)
(** Kernel memory: kernel/vm/kmem_cache.c.  A cache hands out buffers of one size, carved
    from slabs of pages; per-processor magazines keep freed buffers at hand; and
    [kmem_alloc] picks a cache by size.

    A small slab keeps its description in the structure of its page, a large one in a
    buffer of a cache of its own, with a control structure for every buffer.  The chain
    of free buffers of a slab is a list; the queue of a cache's slabs is kept as the
    pointers it is made of (vendor/include/kdk/queue.h), because the code links a slab
    that is linked already.  What memory holds is [data]. *)
From S2P Require Import Prelude.
Local Open Scope Z_scope.

(** Where the pages come from: an address of the direct map for a single page of a small
    slab (kernel/vm/resident.c; [None] is a failure), and wired kernel memory
    (kernel/vm/kwired.c), which does not fail but panic. *)
Class PageSource (P : Type) := {
  vm_page_alloc : Z → kern P (option Z);
  vm_kalloc : Z → Z → kern P Z;
  vm_kfree : Z → Z → Z → kern P ()
}.

Module Kmem.

Definition PGSIZE : Z := 4096.
Definition SMALL_SLAB_MAX : Z := 512.
Definition u16 (x : Z) : Z := x mod 2 ^ 16.

(** A pointer to a slab: in the structure of the page at this address, or at an address. *)
Inductive slabp := InPage (page : Z) | At (addr : Z).
Global Instance slabp_eq_dec : EqDecision slabp.
Proof. solve_decision. Defined.
Global Instance slabp_countable : Countable slabp.
Proof.
  refine (inj_countable' (λ p, match p with InPage a => inl a | At a => inr a end) (λ x, match x with inl a => InPage a | inr a => At a end) _).
  by intros [].
Defined.

Record kmem_bufctl := Bufctl { bslab : slabp; bbase : Z }.
Record kmem_slab := Slab { sqlink : option slabp; cache : Z; free_n : Z; alloced_n : Z; sfree : list Z }.
(** [stqh_last]: [None] is the address of [stqh_first] itself, [Some p] that of the link in
    [p]. *)
Record slab_queue := Queue { stqh_first : option slabp; stqh_last : option slabp }.
Record kmem_cpu_cache := CpuCache { cc_loaded : Z; cc_prev : Z; cc_rounds : Z; cc_prev_rounds : Z; cc_magsize : Z }.
Record kmem_depot := Depot { kd_full : list Z; kd_empty : list Z; kd_full_count : Z; kd_empty_count : Z; kd_magsize : Z }.
Record kmem_cache := Cache {
  size : Z;
  align : Z;
  slabs : slab_queue;
  alloced : list Z;
  cache_cpu : list kmem_cpu_cache;
  depot : kmem_depot;
  cache_magsize : Z;
  use_magazines : bool
}.
Definition with_slabs x c := Cache (size c) (align c) x (alloced c) (cache_cpu c) (depot c) (cache_magsize c) (use_magazines c).
Definition with_alloced x c := Cache (size c) (align c) (slabs c) x (cache_cpu c) (depot c) (cache_magsize c) (use_magazines c).
Definition with_cpu x c := Cache (size c) (align c) (slabs c) (alloced c) x (depot c) (cache_magsize c) (use_magazines c).
Definition with_depot x c := Cache (size c) (align c) (slabs c) (alloced c) (cache_cpu c) x (cache_magsize c) (use_magazines c).
Definition with_link x s := Slab x (cache s) (free_n s) (alloced_n s) (sfree s).
Definition with_free n a l s := Slab (sqlink s) (cache s) n a l.

(** The caches (the static ones are numbered, see below), the slabs, the control
    structures of large slabs' buffers, the rounds of the magazines. *)
Record kst (P : Type) := Kst {
  pages : P;
  caches : gmap Z kmem_cache;
  all_caches : list Z;
  slabmap : gmap slabp kmem_slab;
  bufctls : gmap Z kmem_bufctl;
  mags : gmap Z (list Z);
  data : Z → Z
}.
Global Arguments Kst {P}.
Global Arguments pages {P}.
Global Arguments caches {P}.
Global Arguments all_caches {P}.
Global Arguments slabmap {P}.
Global Arguments bufctls {P}.
Global Arguments mags {P}.
Global Arguments data {P}.

(** [kmem_alloc_caches[i]] is [i]. *)
Definition kmem_bufctl_cache : Z := 10.
Definition kmem_slab_cache : Z := 11.
Definition kmem_cache_cache : Z := 12.
Definition sizeof_kmem_bufctl : Z := 24.
Definition sizeof_kmem_slab : Z := 32.
Definition sizeof_kmem_cache : Z := 192.
Definition sizeof_kmem_cpu_cache : Z := 40.

Section kmem.
Context {P : Type} `{PageSource P}.

Definition set_pages (x : P) (s : kst P) := Kst x (caches s) (all_caches s) (slabmap s) (bufctls s) (mags s) (data s).
Definition set_caches x (s : kst P) := Kst (pages s) x (all_caches s) (slabmap s) (bufctls s) (mags s) (data s).
Definition set_all_caches x (s : kst P) := Kst (pages s) (caches s) x (slabmap s) (bufctls s) (mags s) (data s).
Definition set_slabmap x (s : kst P) := Kst (pages s) (caches s) (all_caches s) x (bufctls s) (mags s) (data s).
Definition set_bufctls x (s : kst P) := Kst (pages s) (caches s) (all_caches s) (slabmap s) x (mags s) (data s).
Definition set_mags x (s : kst P) := Kst (pages s) (caches s) (all_caches s) (slabmap s) (bufctls s) x (data s).
Definition set_data x (s : kst P) := Kst (pages s) (caches s) (all_caches s) (slabmap s) (bufctls s) (mags s) x.

Definition in_pages {A} (m : kern P A) : kern (kst P) A := zoom pages set_pages m.
Definition cache_at (c : Z) : kern (kst P) kmem_cache := s ← get; deref "cache" (caches s !! c).
Definition cache_set (c : Z) (x : kmem_cache) : kern (kst P) () := modify (λ s, set_caches (<[c := x]> (caches s)) s).
Definition slab_at (p : slabp) : kern (kst P) kmem_slab := s ← get; deref "slab" (slabmap s !! p).
Definition slab_set (p : slabp) (x : kmem_slab) : kern (kst P) () := modify (λ s, set_slabmap (<[p := x]> (slabmap s)) s).
Definition bufctl_at (b : Z) : kern (kst P) kmem_bufctl := s ← get; deref "bufctl" (bufctls s !! b).

(** ** The queue of slabs *)

Definition STAILQ_INSERT_HEAD (c : Z) (p : slabp) : kern (kst P) () :=
  cc ← cache_at c;
  sl ← slab_at p;
  let q := slabs cc in
  slab_set p (with_link (stqh_first q) sl);;
  cache_set c (with_slabs (Queue (Some p) (match stqh_first q with None => Some p | Some _ => stqh_last q end)) cc).
(** [*head->stqh_last = p] *)
Definition store_last (c : Z) (p : slabp) : kern (kst P) () :=
  cc ← cache_at c;
  match stqh_last (slabs cc) with
  | None => cache_set c (with_slabs (Queue (Some p) None) cc)
  | Some l => ls ← slab_at l; slab_set l (with_link (Some p) ls)
  end.
Definition STAILQ_INSERT_TAIL (c : Z) (p : slabp) : kern (kst P) () :=
  sl ← slab_at p;
  slab_set p (with_link None sl);;
  store_last c p;;
  cc ← cache_at c;
  cache_set c (with_slabs (Queue (stqh_first (slabs cc)) (Some p)) cc).
Definition STAILQ_REMOVE_HEAD (c : Z) : kern (kst P) () :=
  cc ← cache_at c;
  p ← deref "STAILQ_FIRST" (stqh_first (slabs cc));
  sl ← slab_at p;
  cache_set c (with_slabs (Queue (sqlink sl) (match sqlink sl with None => None | Some _ => stqh_last (slabs cc) end)) cc).
(** The element before [p], from [cur] on. *)
Fixpoint find_prev (fuel : nat) (cur p : slabp) : kern (kst P) slabp :=
  match fuel with
  | O => spin
  | S fuel' =>
      sl ← slab_at cur;
      n ← deref "curelm" (sqlink sl);
      if decide (n = p) then mret cur else find_prev fuel' n p
  end.
Definition STAILQ_REMOVE_AFTER (c : Z) (p : slabp) : kern (kst P) () :=
  sl ← slab_at p;
  n ← deref "STAILQ_NEXT" (sqlink sl);
  nx ← slab_at n;
  slab_set p (with_link (sqlink nx) sl);;
  cc ← cache_at c;
  when (bool_decide (sqlink nx = None)) (cache_set c (with_slabs (Queue (stqh_first (slabs cc)) (Some p)) cc)).
Definition STAILQ_REMOVE (c : Z) (p : slabp) : kern (kst P) () :=
  cc ← cache_at c;
  if decide (stqh_first (slabs cc) = Some p) then STAILQ_REMOVE_HEAD c
  else
    first ← deref "curelm" (stqh_first (slabs cc));
    s ← get;
    prev ← find_prev (S (base.size (slabmap s))) first p;
    STAILQ_REMOVE_AFTER c prev.

(** ** Sizes *)

Definition ROUNDUP (a b : Z) : Z := u64 (a + b - 1) / b * b.
Definition slab_size (size : Z) : Z := if size <=? SMALL_SLAB_MAX then PGSIZE else ROUNDUP (u64 (size * 16)) PGSIZE.
Definition slab_elems_per (size : Z) : Z := if size <=? SMALL_SLAB_MAX then PGSIZE / size else slab_size size / size.
(** [None] is [(size_t)-1]. *)
Definition zonenum (size : Z) : kern (kst P) (option Z) :=
  kassert "size > 0" (0 <? size);;
  mret (if size <=? 8 then Some 0 else if size <=? 16 then Some 1 else if size <=? 32 then Some 2
    else if size <=? 64 then Some 3 else if size <=? 128 then Some 4 else if size <=? 256 then Some 5
    else if size <=? 512 then Some 6 else if size <=? 1024 then Some 7 else if size <=? 2048 then Some 8 else None).

(** ** Slabs *)

(** [base + i * size] for [i] from [n - 1] down to 0: the order in which the buffers are
    linked, each at the head. *)
Fixpoint grid_down (n : nat) (base size : Z) : list Z :=
  match n with O => [] | S n' => (base + Z.of_nat n' * size) :: grid_down n' base size end.
(** When the allocation fails [page] is not initialised. *)
Definition small_slab_new (c flags : Z) : kern (kst P) slabp :=
  r ← in_pages (vm_page_alloc flags);
  base ← deref "page is not initialised" r;
  cc ← cache_at c;
  let n := PGSIZE / size cc in
  slab_set (InPage base) (Slab None c (u16 n) 0 (grid_down (Z.to_nat (u16 n)) base (size cc)));;
  mret (InPage base).

Section nested.
(** [kmem_cache_alloc], for the caches of control structures. *)
Context (nested : Z → Z → kern (kst P) (option Z)).

Fixpoint new_bufctls (n : nat) (i base size : Z) (p : slabp) (flags : Z) : kern (kst P) () :=
  match n with
  | O => mret ()
  | S n' =>
      r ← nested kmem_bufctl_cache flags;
      b ← deref "bufctl" r;
      modify (λ s, set_bufctls (<[b := Bufctl p (u64 (base + i * size))]> (bufctls s)) s);;
      sl ← slab_at p;
      slab_set p (with_free (free_n sl) (alloced_n sl) (b :: sfree sl) sl);;
      new_bufctls n' (i + 1) base size p flags
  end.
Definition large_slab_new (c flags : Z) : kern (kst P) slabp :=
  cc ← cache_at c;
  base ← in_pages (vm_kalloc (slab_size (size cc) / PGSIZE) flags);
  r ← nested kmem_slab_cache flags;
  addr ← deref "Handle this case" r;
  let n := u16 (slab_elems_per (size cc)) in
  slab_set (At addr) (Slab None c n 0 []);;
  new_bufctls (Z.to_nat n) 0 base (size cc) (At addr) flags;;
  mret (At addr).

(** The slab to allocate from: the first of the queue, or a new one. *)
Definition pick_slab (c flags : Z) : kern (kst P) slabp :=
  cc ← cache_at c;
  full ← match stqh_first (slabs cc) with
    | None => mret true
    | Some p => sl ← slab_at p; mret (free_n sl =? 0)
    end;
  if full : bool then
    p ← (if SMALL_SLAB_MAX <? size cc then large_slab_new c flags else small_slab_new c flags);
    STAILQ_INSERT_HEAD c p;;
    mret p
  else deref "slab" (stqh_first (slabs cc)).
(** Take the first free buffer of slab [p]. *)
Definition take_buf (p : slabp) : kern (kst P) Z :=
  sl ← slab_at p;
  b ← deref "SLIST_FIRST" (head (sfree sl));
  slab_set p (with_free (u16 (free_n sl - 1)) (u16 (alloced_n sl + 1)) (tail (sfree sl)) sl);;
  mret b.
Definition kmem_slablayer_alloc (c flags : Z) : kern (kst P) (option Z) :=
  p ← pick_slab c flags;
  b ← take_buf p;
  sl ← slab_at p;
  when (free_n sl =? 0) (STAILQ_REMOVE c p;; STAILQ_INSERT_TAIL c p);;
  cc ← cache_at c;
  if size cc <=? SMALL_SLAB_MAX then mret (Some b)
  else
    cache_set c (with_alloced (b :: alloced cc) cc);;
    ctl ← bufctl_at b;
    mret (Some (bbase ctl)).

(** ** Magazines *)

Definition cpu_at (c : Z) (cpu : nat) : kern (kst P) kmem_cpu_cache := cc ← cache_at c; deref "cache_cpu" (cache_cpu cc !! cpu).
Definition cpu_set (c : Z) (cpu : nat) (x : kmem_cpu_cache) : kern (kst P) () :=
  cc ← cache_at c; cache_set c (with_cpu (<[cpu := x]> (cache_cpu cc)) cc).
Definition swap_magazines (x : kmem_cpu_cache) : kmem_cpu_cache :=
  CpuCache (cc_prev x) (cc_loaded x) (cc_prev_rounds x) (cc_rounds x) (cc_magsize x).
(** [obj = ccp->cc_loaded->mag_round[--ccp->cc_rounds]] *)
Definition pop_round (c : Z) (cpu : nat) (x : kmem_cpu_cache) : kern (kst P) Z :=
  let r := cc_rounds x - 1 in
  cpu_set c cpu (CpuCache (cc_loaded x) (cc_prev x) r (cc_prev_rounds x) (cc_magsize x));;
  s ← get;
  deref "mag_round" (mags s !! cc_loaded x ≫= (.!! Z.to_nat r)).
(** [ccp->cc_loaded->mag_round[ccp->cc_rounds++] = buf] *)
Definition push_round (c : Z) (cpu : nat) (x : kmem_cpu_cache) (buf : Z) : kern (kst P) () :=
  cpu_set c cpu (CpuCache (cc_loaded x) (cc_prev x) (cc_rounds x + 1) (cc_prev_rounds x) (cc_magsize x));;
  s ← get;
  l ← deref "magazine" (mags s !! cc_loaded x);
  kassert "mag_round" (cc_rounds x <? Z.of_nat (length l));;
  modify (λ s, set_mags (<[cc_loaded x := <[Z.to_nat (cc_rounds x) := buf]> l]> (mags s)) s).
Definition depot_set (c : Z) (d : kmem_depot) : kern (kst P) () := cc ← cache_at c; cache_set c (with_depot d cc).

Definition magazine_depot_alloc (c : Z) (cpu : nat) (flags : Z) : kern (kst P) (option Z) :=
  cc ← cache_at c;
  x ← cpu_at c cpu;
  let d := depot cc in
  match kd_full d with
  | m :: rest =>
      depot_set c (Depot rest (cc_prev x :: kd_empty d) (u64 (kd_full_count d - 1)) (u64 (kd_empty_count d + 1)) (kd_magsize d));;
      obj ← pop_round c cpu (CpuCache m (cc_loaded x) (kd_magsize d) (cc_rounds x) (cc_magsize x));
      mret (Some obj)
  | [] => kmem_slablayer_alloc c flags
  end.
Definition kmem_magazine_alloc (c : Z) (cpu : nat) (flags : Z) : kern (kst P) (option Z) :=
  x ← cpu_at c cpu;
  if 0 <? cc_rounds x then obj ← pop_round c cpu x; mret (Some obj)
  else if 0 <? cc_prev_rounds x then obj ← pop_round c cpu (swap_magazines x); mret (Some obj)
  else magazine_depot_alloc c cpu flags.
Definition cache_alloc_with (cpu : nat) (c flags : Z) : kern (kst P) (option Z) :=
  cc ← cache_at c;
  if use_magazines cc then kmem_magazine_alloc c cpu flags else kmem_slablayer_alloc c flags.
End nested.

(** [depth] bounds how deep allocations nest: a large slab allocates its control
    structures from small caches, which allocate pages only. *)
Fixpoint cache_alloc_at (depth : nat) (cpu : nat) (c flags : Z) : kern (kst P) (option Z) :=
  cache_alloc_with (match depth with O => λ _ _, spin | S d => cache_alloc_at d cpu end) cpu c flags.
Definition kmem_cache_alloc : nat → Z → Z → kern (kst P) (option Z) := cache_alloc_at 1.
Definition kmem_xalloc (cpu : nat) (size flags : Z) : kern (kst P) (option Z) :=
  z ← zonenum size;
  match z with
  | Some c => kmem_cache_alloc cpu c flags
  | None => a ← in_pages (vm_kalloc (ROUNDUP size PGSIZE / PGSIZE) flags); mret (Some a)
  end.

(** ** Freeing *)

Fixpoint find_bufctl (l : list Z) (ptr : Z) : kern (kst P) Z :=
  match l with
  | [] => fatal "SLIST_REMOVE"
  | b :: l' => x ← bufctl_at b; if bbase x =? ptr then mret b else find_bufctl l' ptr
  end.
Definition kmem_slablayer_free (c ptr : Z) : kern (kst P) () :=
  cc ← cache_at c;
  bp ← (if size cc <=? SMALL_SLAB_MAX then mret (ptr, InPage (ptr / PGSIZE * PGSIZE))
    else
      b ← find_bufctl (alloced cc) ptr;
      l ← deref "SLIST_REMOVE" (q_remove b (alloced cc));
      cache_set c (with_alloced l cc);;
      x ← bufctl_at b;
      mret (b, bslab x));
  sl ← slab_at bp.2;
  slab_set bp.2 (with_free (u16 (free_n sl + 1)) (u16 (alloced_n sl - 1)) (bp.1 :: sfree sl) sl);;
  when (u16 (free_n sl + 1) =? 1) (STAILQ_INSERT_HEAD c bp.2).

(** [offsetof(struct kmem_magazine, mag_round[magsize])] *)
Definition magazine_create (cpu : nat) (magsize : Z) : kern (kst P) (option Z) :=
  r ← kmem_xalloc cpu (8 + 8 * magsize) 0;
  match r with
  | None => mret None
  | Some m => modify (λ s, set_mags (<[m := replicate (Z.to_nat magsize) 0]> (mags s)) s);; mret (Some m)
  end.
Definition magazine_depot_free (c : Z) (cpu : nat) (buf : Z) : kern (kst P) () :=
  cc ← cache_at c;
  x ← cpu_at c cpu;
  let d := depot cc in
  match kd_empty d with
  | m :: rest =>
      depot_set c (Depot (cc_prev x :: kd_full d) rest (u64 (kd_full_count d + 1)) (u64 (kd_empty_count d - 1)) (kd_magsize d));;
      push_round c cpu (CpuCache m (cc_loaded x) 0 (cc_rounds x) (cc_magsize x)) buf
  | [] =>
      if kd_empty_count d <? kd_full_count d then
        r ← magazine_create cpu (cache_magsize cc);
        match r with
        | Some m =>
            cc ← cache_at c;
            x ← cpu_at c cpu;
            let d := depot cc in
            depot_set c (Depot (cc_prev x :: kd_full d) (kd_empty d) (u64 (kd_full_count d + 1)) (kd_empty_count d) (kd_magsize d));;
            push_round c cpu (CpuCache m (cc_loaded x) 0 (cc_rounds x) (cc_magsize x)) buf
        | None => kmem_slablayer_free c buf
        end
      else kmem_slablayer_free c buf
  end.
Definition kmem_magazine_free (c : Z) (cpu : nat) (buf : Z) : kern (kst P) () :=
  x ← cpu_at c cpu;
  if cc_rounds x <? cc_magsize x then push_round c cpu x buf
  else if cc_prev_rounds x <? cc_magsize x then push_round c cpu (swap_magazines x) buf
  else magazine_depot_free c cpu buf.
Definition kmem_cache_free (cpu : nat) (c ptr : Z) : kern (kst P) () :=
  cc ← cache_at c;
  if use_magazines cc then kmem_magazine_free c cpu ptr else kmem_slablayer_free c ptr.
Definition kmem_xfree (cpu : nat) (ptr : option Z) (size : Z) : kern (kst P) () :=
  match ptr with
  | None => mret ()
  | Some p =>
      z ← zonenum size;
      match z with
      | Some c => kmem_cache_free cpu c p
      | None => in_pages (vm_kfree p (ROUNDUP size PGSIZE / PGSIZE) 0)
      end
  end.

(** ** Clearing, resizing, and memory that knows its size *)

Definition memset (p c n : Z) : kern (kst P) () :=
  modify (λ s, set_data (λ a, if (p <=? a) && (a <? p + n) then c else data s a) s).
Definition memcpy (d p n : Z) : kern (kst P) () :=
  modify (λ s, set_data (λ a, if (d <=? a) && (a <? d + n) then data s (a - d + p) else data s a) s).
(** A [size_t] in memory, its low byte first. *)
Definition store_size (p v : Z) : kern (kst P) () :=
  modify (λ s, set_data (λ a, if (p <=? a) && (a <? p + 8) then v / 256 ^ (a - p) mod 256 else data s a) s).
Definition load_size (p : Z) : kern (kst P) Z :=
  gets (λ s, foldr (λ i v, data s (p + Z.of_nat i) + 256 * v) 0 (seq 0 8)).

Definition kmem_xzalloc (cpu : nat) (size flags : Z) : kern (kst P) (option Z) :=
  r ← kmem_xalloc cpu size flags;
  match r with Some p => memset p 0 size | None => mret () end;;
  mret r.
Definition kmem_xrealloc (cpu : nat) (ptr : option Z) (old_size size flags : Z) : kern (kst P) (option Z) :=
  match ptr with
  | None => kmem_xalloc cpu size flags
  | Some p =>
      if size =? 0 then kmem_xfree cpu ptr old_size;; mret None
      else if size =? old_size then mret ptr
      else
        old_zone ← zonenum old_size;
        new_zone ← zonenum size;
        if bool_decide (is_Some old_zone) && bool_decide (is_Some new_zone) && bool_decide (old_zone = new_zone) then mret ptr
        else
          r ← kmem_xalloc cpu size flags;
          match r with
          | None => mret None
          | Some new => memcpy new p (Z.min old_size size);; kmem_xfree cpu ptr old_size;; mret (Some new)
          end
  end.

Definition kmem_malloc (cpu : nat) (size : Z) : kern (kst P) (option Z) :=
  r ← kmem_xalloc cpu (u64 (size + 8)) 0;
  match r with Some p => store_size p size;; mret (Some (p + 8)) | None => mret None end.
Definition kmem_mfree (cpu : nat) (ptr : option Z) : kern (kst P) () :=
  match ptr with
  | Some p => size ← load_size (p - 8); kmem_xfree cpu (Some (p - 8)) (u64 (size + 8))
  | None => mret ()
  end.
Definition kmem_mfree_sizeverify (cpu : nat) (ptr : option Z) (size : Z) : kern (kst P) () :=
  match ptr with
  | Some p => real ← load_size (p - 8); kassert "real_size == size" (real =? size);; kmem_xfree cpu (Some (p - 8)) (u64 (size + 8))
  | None => mret ()
  end.
Definition kmem_mrealloc (cpu : nat) (ptr : option Z) (size : Z) : kern (kst P) (option Z) :=
  match ptr with
  | None => kmem_malloc cpu size
  | Some p =>
      if size =? 0 then kmem_mfree cpu ptr;; mret None
      else
        orig ← load_size (p - 8);
        r ← kmem_xrealloc cpu (Some (p - 8)) (u64 (orig + 8)) (u64 (size + 8)) 0;
        match r with Some n => store_size n size;; mret (Some (n + 8)) | None => mret None end
  end.
Definition kmem_mcalloc (cpu : nat) (nmemb size : Z) : kern (kst P) (option Z) :=
  r ← kmem_malloc cpu (u64 (size * nmemb));
  match r with Some p => memset p 0 (u64 (size * nmemb)) | None => mret () end;;
  mret r.

(** ** Making caches *)

Definition kmem_cache_init (c size align : Z) : kern (kst P) () :=
  cache_set c (Cache size align (Queue None None) [] [] (Depot [] [] 0 0 0) 0 false);;
  modify (λ s, set_all_caches (all_caches s ++ [c]) s).
Definition kmem_cache_create (cpu : nat) (size align : Z) : kern (kst P) (option Z) :=
  r ← kmem_xalloc cpu sizeof_kmem_cache 0;
  match r with Some c => kmem_cache_init c size align;; mret (Some c) | None => mret None end.
Fixpoint init_alloc_caches (n : nat) (i : Z) : kern (kst P) () :=
  match n with O => mret () | S n' => kmem_cache_init i (8 * 2 ^ i) (8 * 2 ^ i);; init_alloc_caches n' (i + 1) end.
Definition kmem_init : kern (kst P) () :=
  init_alloc_caches 10 0;;
  kmem_cache_init kmem_bufctl_cache sizeof_kmem_bufctl 8;;
  kmem_cache_init kmem_slab_cache sizeof_kmem_slab 8;;
  kmem_cache_init kmem_cache_cache sizeof_kmem_cache 8.

Fixpoint new_cpu_caches (n : nat) (cpu : nat) (magsize : Z) : kern (kst P) (list kmem_cpu_cache) :=
  match n with
  | O => mret []
  | S n' =>
      r1 ← magazine_create cpu magsize; loaded ← deref "magazine" r1;
      r2 ← magazine_create cpu magsize; prev ← deref "magazine" r2;
      rest ← new_cpu_caches n' cpu magsize;
      mret (CpuCache loaded prev 0 0 magsize :: rest)
  end.
Definition magazine_layer_init (ncpus : nat) (cpu : nat) (c magsize : Z) : kern (kst P) () :=
  depot_set c (Depot [] [] 0 0 magsize);;
  r ← kmem_xalloc cpu (sizeof_kmem_cpu_cache * Z.of_nat ncpus) 0;
  _ ← deref "cache_cpu" r;
  l ← new_cpu_caches ncpus cpu magsize;
  cc ← cache_at c;
  cache_set c (Cache (size cc) (align cc) (slabs cc) (alloced cc) l (depot cc) magsize (use_magazines cc)).
Fixpoint init_magazines (n : nat) (ncpus : nat) (cpu : nat) (i : Z) : kern (kst P) () :=
  match n with O => mret () | S n' => magazine_layer_init ncpus cpu i 32;; init_magazines n' ncpus cpu (i + 1) end.
Fixpoint enable_magazines (n : nat) (i : Z) : kern (kst P) () :=
  match n with
  | O => mret ()
  | S n' =>
      cc ← cache_at i;
      cache_set i (Cache (size cc) (align cc) (slabs cc) (alloced cc) (cache_cpu cc) (depot cc) (cache_magsize cc) true);;
      enable_magazines n' (i + 1)
  end.
Definition kmem_postsmp_init (ncpus : nat) (cpu : nat) : kern (kst P) () := init_magazines 10 ncpus cpu 0;; enable_magazines 10 0.
End kmem.
End Kmem.
