(* ===== verification/KmemInv.v ===== *)
(** Kernel memory: the invariant of slabs (kernel/vm/kmem_cache.c).

    The buffers of a slab lie on a grid within a block of pages of its own; each is on the
    slab's chain of free buffers or outstanding.  Nothing is assumed about the order of
    the queue of slabs, only that its links point at slabs of the cache. *)
From S2P Require Import Prelude Kmem.
Import Kmem.
Local Open Scope Z_scope.

(** * Pages *)

Definition apart (a n b m : Z) : Prop := a + n ≤ b ∨ b + m ≤ a.
(** Blocks of pages, by address, with their number of pages. *)
Definition new_block (B : gmap Z Z) (b n : Z) : Prop :=
  0 < b ∧ 0 < n ∧ b mod PGSIZE = 0 ∧ b + PGSIZE * n < 2 ^ 64 ∧ ∀ b' n', B !! b' = Some n' → apart b (PGSIZE * n) b' (PGSIZE * n').
(** What the sources of pages promise: [holds p B k] says that the blocks [B] are in use
    and that [k] more pages can be had. *)
Class PageLaws (P : Type) `{PageSource P} := {
  holds : P → gmap Z Z → nat → Prop;
  holds_weaken p B k k' : holds p B k → (k' ≤ k)%nat → holds p B k';
  vm_page_alloc_law p B k flags : holds p B (S k) →
    wp (vm_page_alloc flags) (λ r p', ∃ b, r = Some b ∧ new_block B b 1 ∧ holds p' (<[b := 1]> B) k) p;
  vm_kalloc_law p B k n flags : 0 < n → holds p B (Z.to_nat n + k) →
    wp (vm_kalloc n flags) (λ b p', new_block B b n ∧ holds p' (<[b := n]> B) k) p;
  vm_kfree_law p B k b n flags : holds p B k → B !! b = Some n →
    wp (vm_kfree b n flags) (λ _ p', holds p' (delete b B) k) p
}.

Definition blocks_ok (B : gmap Z Z) : Prop := ∀ b n, B !! b = Some n → new_block (delete b B) b n.
Lemma blocks_ok_insert B b n : blocks_ok B → new_block B b n → blocks_ok (<[b := n]> B).
Proof.
  intros HB Hn b' n' Hb'. destruct (decide (b' = b)) as [->|Hne].
  - rewrite lookup_insert_eq in Hb'. injection Hb' as <-. rewrite delete_insert_eq.
    destruct Hn as (? & ? & ? & ? & Hd). split_and!; [done..|]. intros c m Hc. apply lookup_delete_Some in Hc as [_ Hc]. by apply Hd.
  - rewrite lookup_insert_ne in Hb' by done. destruct (HB _ _ Hb') as (? & ? & ? & ? & Hd). split_and!; [done..|]. intros c m Hc.
    apply lookup_delete_Some in Hc as [Hcb Hc]. destruct (decide (c = b)) as [->|Hcb'].
    + rewrite lookup_insert_eq in Hc. injection Hc as <-. destruct Hn as (_ & _ & _ & _ & Hn). destruct (Hn _ _ Hb'); [by right|by left].
    + rewrite lookup_insert_ne in Hc by done. apply Hd. by apply lookup_delete_Some.
Qed.
Lemma new_block_fresh B b n : blocks_ok B → new_block B b n → B !! b = None.
Proof.
  intros HB (_ & Hn & _ & _ & Hd). destruct (B !! b) as [m|] eqn:E; [|done]. destruct (HB _ _ E) as (_ & Hm & _).
  destruct (Hd _ _ E); unfold PGSIZE in *; lia.
Qed.
Lemma blocks_apart B b n b' n' : blocks_ok B → B !! b = Some n → B !! b' = Some n' → b ≠ b' → apart b (PGSIZE * n) b' (PGSIZE * n').
Proof. intros HB Hb Hb' Hne. destruct (HB _ _ Hb) as (_ & _ & _ & _ & Hd). apply Hd, lookup_delete_Some. done. Qed.

(** * Grids *)

Definition nper := slab_elems_per.
Definition grid (z base m o : Z) : Prop := ∃ i, 0 ≤ i < m ∧ o = base + i * z.
Lemma grid_exists z base m o : Exists (λ i : nat, o = base + Z.of_nat i * z) (seq 0 (Z.to_nat m)) ↔ grid z base m o.
Proof.
  rewrite Exists_exists. split.
  - intros (i & Hi%elem_of_seq & ->). exists (Z.of_nat i). split; [lia|done].
  - intros (i & Hi & ->). exists (Z.to_nat i). split; [apply elem_of_seq; lia|by rewrite Z2Nat.id by lia].
Qed.
Global Instance grid_dec z base m o : Decision (grid z base m o).
Proof. refine (cast_if (decide (Exists (λ i : nat, o = base + Z.of_nat i * z) (seq 0 (Z.to_nat m))))); by rewrite <- grid_exists. Defined.
Definition size_ok (z : Z) : Prop := 8 ≤ z < 2 ^ 32.
Lemma small_size z : z ≤ SMALL_SLAB_MAX → slab_size z = PGSIZE.
Proof. intros Hz. unfold slab_size. by rewrite (proj2 (Z.leb_le _ _) Hz). Qed.
Lemma large_size z : size_ok z → SMALL_SLAB_MAX < z → slab_size z = (z * 16 + 4095) / 4096 * 4096.
Proof.
  intros [Hz1 Hz2] Hz. unfold slab_size. rewrite (proj2 (Z.leb_gt _ _) Hz). unfold ROUNDUP, PGSIZE. rewrite !u64_small; [f_equal; f_equal; lia|lia|].
  rewrite u64_small; lia.
Qed.
Lemma slab_size_pages z : size_ok z → PGSIZE * (slab_size z / PGSIZE) = slab_size z ∧ 0 < slab_size z / PGSIZE.
Proof.
  intros Hz. destruct (Z.le_gt_cases z SMALL_SLAB_MAX) as [Hs|Hl]; [by rewrite small_size|]. rewrite large_size by done. unfold PGSIZE, size_ok, SMALL_SLAB_MAX in *.
  rewrite Z.div_mul by lia. split; [lia|]. pose proof (Z.div_le_mono 4096 (z * 16 + 4095) 4096). rewrite Z.div_same in H by lia. lia.
Qed.
Lemma nper_bounds z : size_ok z → 0 < nper z < 1024 ∧ nper z * z ≤ slab_size z.
Proof.
  intros Hz. unfold nper, slab_elems_per. destruct (Z.leb_spec z SMALL_SLAB_MAX) as [Hs|Hl].
  - rewrite small_size by done. unfold PGSIZE, size_ok, SMALL_SLAB_MAX in *. pose proof (Z.mul_div_le 4096 z).
    pose proof (Z.div_le_lower_bound 4096 z 1). pose proof (Z.div_le_upper_bound 4096 z 512). lia.
  - rewrite large_size by done. unfold size_ok, SMALL_SLAB_MAX in *. set (n := (z * 16 + 4095) / 4096 * 4096).
    assert (z * 16 ≤ n < z * 16 + 4096) as Hn by (unfold n; pose proof (Z.mul_div_le (z * 16 + 4095) 4096); pose proof (Z.mul_succ_div_gt (z * 16 + 4095) 4096); lia).
    pose proof (Z.mul_div_le n z). pose proof (Z.div_le_lower_bound n z 16). pose proof (Z.div_lt_upper_bound n z 1024). lia.
Qed.
Lemma grid_within z base m o : size_ok z → m ≤ nper z → grid z base m o → base ≤ o ∧ o + z ≤ base + slab_size z.
Proof. intros Hz Hm (i & Hi & ->). destruct (nper_bounds z Hz) as [_ Hn]. unfold size_ok in Hz. nia. Qed.
Lemma grid_apart z base m o o' : size_ok z → grid z base m o → grid z base m o' → o ≠ o' → apart o z o' z.
Proof. intros Hz (i & Hi & ->) (j & Hj & ->) Hne. unfold size_ok in Hz. unfold apart. assert (i ≠ j) by (intros ->; done). assert (i < j ∨ j < i) as [?|?] by lia; [left|right]; nia. Qed.
Lemma elem_of_grid_down n base z o : o ∈ grid_down n base z ↔ grid z base (Z.of_nat n) o.
Proof.
  induction n as [|n IH]; simpl; [split; [by intros ?%elem_of_nil|intros (i & ? & _); lia]|]. rewrite elem_of_cons, IH. split.
  - intros [->|(i & ? & ->)]; [exists (Z.of_nat n)|exists i]; split; (lia || done).
  - intros (i & Hi & ->). destruct (decide (i = Z.of_nat n)) as [->|]; [by left|right; exists i; split; [lia|done]].
Qed.
Lemma NoDup_grid_down n base z : size_ok z → NoDup (grid_down n base z).
Proof.
  intros Hz. induction n as [|n IH]; simpl; [constructor|]. constructor; [|done]. rewrite elem_of_grid_down. intros (i & Hi & He). unfold size_ok in Hz. nia.
Qed.
Lemma length_grid_down n base z : length (grid_down n base z) = n.
Proof. induction n; simpl; congruence. Qed.

(** * The invariant *)

Section inv.
Context {P : Type} `{PageSource P}.
Implicit Types (s t : kst P) (E : gmap slabp (Z * Z)) (A B : gmap Z Z).

(** A state with the links of the queues of slabs forgotten. *)
Definition strip (sl : kmem_slab) : kmem_slab := with_link None sl.
Definition cstrip (cc : kmem_cache) : kmem_cache := with_slabs (Queue None None) cc.
Definition erase s : kst P := Kst (pages s) (cstrip <$> caches s) (all_caches s) (strip <$> slabmap s) (bufctls s) (mags s) (data s).

(** On its chain the buffer [o] goes by [b]. *)
Definition names t (z : Z) (p : slabp) (b o : Z) : Prop := if z <=? SMALL_SLAB_MAX then b = o else bufctls t !! b = Some (Bufctl p o).

(** [W] is a slab that is being made.  [E] has the address and the number of the buffers
    of every slab, [A] the outstanding buffers with their caches. *)
Record slab_ok (W : option slabp) (E : gmap slabp (Z * Z)) (A : gmap Z Z) t (p : slabp) (sl : kmem_slab) (cc : kmem_cache) (base m : Z) (os : list Z) : Prop := {
  so_cache : caches t !! cache sl = Some cc;
  so_E : E !! p = Some (base, m);
  so_kind : if size cc <=? SMALL_SLAB_MAX then p = InPage base else ∃ a, p = At a;
  so_m : 0 ≤ m ≤ nper (size cc);
  so_names : Forall2 (names t (size cc) p) (sfree sl) os;
  so_nodup : NoDup os;
  so_free o : o ∈ os ↔ grid (size cc) base m o ∧ A !! o = None;
  so_whole : W ≠ Some p → m = nper (size cc) ∧ free_n sl = Z.of_nat (length os) ∧ alloced_n sl = m - Z.of_nat (length os)
}.
Definition a_slab (E : gmap slabp (Z * Z)) t (p : slabp) (c : Z) (cc : kmem_cache) (base m : Z) : Prop :=
  ∃ sl, slabmap t !! p = Some sl ∧ cache sl = c ∧ caches t !! c = Some cc ∧ E !! p = Some (base, m).
(** [b] is the control structure of [o], a buffer of a slab of cache [c]. *)
Definition owned E t (c b o : Z) : Prop := ∃ p cc base m, bufctls t !! b = Some (Bufctl p o) ∧ a_slab E t p c cc base m ∧ grid (size cc) base m o.
Record content_ok (W : option slabp) (E : gmap slabp (Z * Z)) (A B : gmap Z Z) t : Prop := {
  co_slab p sl : slabmap t !! p = Some sl → ∃ cc base m os, slab_ok W E A t p sl cc base m os;
  co_E p x : E !! p = Some x → is_Some (slabmap t !! p);
  co_block p c cc base m : a_slab E t p c cc base m → B !! base = Some (slab_size (size cc) / PGSIZE);
  co_inj p p' base m m' : E !! p = Some (base, m) → E !! p' = Some (base, m') → p = p';
  co_blocks : blocks_ok B;
  co_A o c : A !! o = Some c → ∃ p cc base m, a_slab E t p c cc base m ∧ grid (size cc) base m o;
  co_size c cc : caches t !! c = Some cc → size_ok (size cc);
  co_bufctl_cache : ∃ cc, caches t !! kmem_bufctl_cache = Some cc ∧ size cc = sizeof_kmem_bufctl ∧ use_magazines cc = false;
  co_slab_cache : ∃ cc, caches t !! kmem_slab_cache = Some cc ∧ size cc = sizeof_kmem_slab ∧ use_magazines cc = false;
  co_large c cc : caches t !! c = Some cc → SMALL_SLAB_MAX < size cc → ∃ os,
    Forall2 (owned E t c) (alloced cc) os ∧
    NoDup os ∧ ∀ o, o ∈ os ↔ A !! o = Some c;
  co_slab_meta a sl : slabmap t !! At a = Some sl → A !! a = Some kmem_slab_cache;
  co_bufctl_meta b x : bufctls t !! b = Some x → A !! b = Some kmem_bufctl_cache
}.
Definition link_ok (W : option slabp) s (c : Z) (q : option slabp) : Prop :=
  ∀ p, q = Some p → W ≠ Some p ∧ ∃ sl, slabmap s !! p = Some sl ∧ cache sl = c.
Record links_ok (W : option slabp) s : Prop := {
  lo_cache c cc : caches s !! c = Some cc → link_ok W s c (stqh_first (slabs cc)) ∧ link_ok W s c (stqh_last (slabs cc));
  lo_slab p sl : slabmap s !! p = Some sl → link_ok W s (cache sl) (sqlink sl)
}.

Lemma a_slab_ok W E A B t p c cc base m : content_ok W E A B t → a_slab E t p c cc base m →
  ∃ sl os, slabmap t !! p = Some sl ∧ cache sl = c ∧ slab_ok W E A t p sl cc base m os.
Proof.
  intros Hok (sl & Hsl & Hc & Hcc & HE). destruct (co_slab _ _ _ _ _ Hok p sl Hsl) as (cc' & base' & m' & os & Hso).
  pose proof (so_cache _ _ _ _ _ _ _ _ _ _ Hso) as Hcc'. rewrite Hc, Hcc in Hcc'. injection Hcc' as <-.
  pose proof (so_E _ _ _ _ _ _ _ _ _ _ Hso) as HE'. rewrite HE in HE'. injection HE' as <- <-. eauto.
Qed.
Lemma slab_blocks_apart W E A B t p c cc base m p' c' cc' base' m' : content_ok W E A B t →
  a_slab E t p c cc base m → a_slab E t p' c' cc' base' m' → p ≠ p' → apart base (slab_size (size cc)) base' (slab_size (size cc')).
Proof.
  intros Hok Hp Hp' Hne. pose proof (co_block _ _ _ _ _ Hok _ _ _ _ _ Hp) as HB. pose proof (co_block _ _ _ _ _ Hok _ _ _ _ _ Hp') as HB'.
  destruct Hp as (? & _ & _ & Hcc & HE). destruct Hp' as (? & _ & _ & Hcc' & HE').
  pose proof (co_size _ _ _ _ _ Hok _ _ Hcc) as Hz. pose proof (co_size _ _ _ _ _ Hok _ _ Hcc') as Hz'.
  assert (base ≠ base') as Hb by (intros ->; apply Hne; eapply co_inj; eauto).
  pose proof (blocks_apart _ _ _ _ _ (co_blocks _ _ _ _ _ Hok) HB HB' Hb) as Hap.
  by rewrite (proj1 (slab_size_pages _ Hz)), (proj1 (slab_size_pages _ Hz')) in Hap.
Qed.
(** Buffers of different slabs are apart. *)
Lemma slabs_apart W E A B t p c cc base m p' c' cc' base' m' k k' o o' : content_ok W E A B t →
  a_slab E t p c cc base m → a_slab E t p' c' cc' base' m' → p ≠ p' → k ≤ nper (size cc) → k' ≤ nper (size cc') →
  grid (size cc) base k o → grid (size cc') base' k' o' → apart o (size cc) o' (size cc').
Proof.
  intros Hok Hp Hp' Hne Hk Hk' Ho Ho'. pose proof (slab_blocks_apart _ _ _ _ _ _ _ _ _ _ _ _ _ _ _ Hok Hp Hp' Hne) as Hap.
  destruct Hp as (? & _ & _ & Hcc & _). destruct Hp' as (? & _ & _ & Hcc' & _).
  apply grid_within in Ho; [|by eapply co_size|done]. apply grid_within in Ho'; [|by eapply co_size|done]. unfold apart in *. lia.
Qed.
Lemma a_slab_m W E A B t p c cc base m : content_ok W E A B t → a_slab E t p c cc base m → m ≤ nper (size cc).
Proof. intros Hok Hp. destruct (a_slab_ok _ _ _ _ _ _ _ _ _ _ Hok Hp) as (sl & os & _ & _ & Hso). apply Hso. Qed.
(** Outstanding buffers are apart. *)
Lemma outstanding_apart W E A B t o c cc o' c' cc' : content_ok W E A B t → A !! o = Some c → A !! o' = Some c' → o ≠ o' →
  caches t !! c = Some cc → caches t !! c' = Some cc' → apart o (size cc) o' (size cc').
Proof.
  intros Hok Ho Ho' Hne Hcc Hcc'. destruct (co_A _ _ _ _ _ Hok _ _ Ho) as (p & ? & base & m & Hp & Hg). destruct (co_A _ _ _ _ _ Hok _ _ Ho') as (p' & ? & base' & m' & Hp' & Hg').
  assert (x = cc) as -> by (destruct Hp as (? & _ & _ & Hx & _); congruence). assert (x0 = cc') as -> by (destruct Hp' as (? & _ & _ & Hx & _); congruence).
  destruct (decide (p = p')) as [->|Hpp]; [|eapply slabs_apart; eauto using a_slab_m]. destruct Hp as (sl & Hsl & Hc & _ & HE). destruct Hp' as (sl' & Hsl' & Hc' & _ & HE').
  rewrite Hsl in Hsl'. injection Hsl' as <-. rewrite HE in HE'. injection HE' as <- <-. assert (cc = cc') as <- by congruence.
  eapply grid_apart; eauto. by eapply co_size.
Qed.
(** A buffer that is outstanding and lies in the block of a slab belongs to the slab. *)
Lemma block_owner W E A B t b n o c : content_ok W E A B t → B !! b = Some n → A !! o = Some c → b ≤ o < b + PGSIZE * n →
  ∃ p cc m, a_slab E t p c cc b m ∧ grid (size cc) b m o.
Proof.
  intros Hok Hb Ho Hin. destruct (co_A _ _ _ _ _ Hok _ _ Ho) as (p & cc & base & m & Hp & Hg). destruct (a_slab_ok _ _ _ _ _ _ _ _ _ _ Hok Hp) as (sl & os & _ & _ & Hso).
  assert (size_ok (size cc)) as Hz by (destruct Hp as (? & _ & _ & Hcc & _); by eapply co_size). pose proof (co_block _ _ _ _ _ Hok _ _ _ _ _ Hp) as Hbb.
  destruct (decide (base = b)) as [->|Hne]; [eauto|]. pose proof (blocks_apart _ _ _ _ _ (co_blocks _ _ _ _ _ Hok) Hb Hbb (not_eq_sym Hne)) as Hap.
  rewrite (proj1 (slab_size_pages _ Hz)) in Hap. apply grid_within in Hg; [|done|apply Hso]. unfold apart, size_ok in *. lia.
Qed.
Lemma slab_owner W E A B t p c cc base m o c' : content_ok W E A B t → a_slab E t p c cc base m → A !! o = Some c' →
  base ≤ o < base + slab_size (size cc) → c' = c ∧ grid (size cc) base m o.
Proof.
  intros Hok Hp Ho Hin. pose proof (co_block _ _ _ _ _ Hok _ _ _ _ _ Hp) as Hb. destruct Hp as (sl & Hsl & Hc & Hcc & HE).
  destruct (block_owner _ _ _ _ _ base _ o c' Hok Hb Ho) as (q & ccq & k & (slq & Hq & Hcq & Hccq & HEq) & Hg).
  { by rewrite (proj1 (slab_size_pages _ (co_size _ _ _ _ _ Hok _ _ Hcc))). }
  assert (q = p) as -> by (eapply co_inj; eauto). assert (slq = sl) as -> by congruence. rewrite HE in HEq. injection HEq as <-.
  assert (c' = c) as -> by congruence. by assert (ccq = cc) as -> by congruence.
Qed.
Lemma fresh_block W E A B t b n o : content_ok W E A B t → new_block B b n → b ≤ o < b + PGSIZE * n → A !! o = None.
Proof.
  intros Hok Hb Hin. destruct (A !! o) as [c|] eqn:Ho; [|done]. destruct (co_A _ _ _ _ _ Hok _ _ Ho) as (p & cc & base & m & Hp & Hg).
  destruct (a_slab_ok _ _ _ _ _ _ _ _ _ _ Hok Hp) as (sl & os & _ & _ & Hso).
  assert (size_ok (size cc)) as Hz by (destruct Hp as (? & _ & _ & Hcc & _); by eapply co_size). pose proof (co_block _ _ _ _ _ Hok _ _ _ _ _ Hp) as Hbb.
  destruct Hb as (_ & _ & _ & _ & Hd). specialize (Hd _ _ Hbb). rewrite (proj1 (slab_size_pages _ Hz)) in Hd. apply grid_within in Hg; [|done|apply Hso].
  unfold apart, size_ok in *. lia.
Qed.
(** No slab lies in a block that is not in use. *)
Lemma fresh_base W E A B t b p x m : content_ok W E A B t → B !! b = None → E !! p = Some (x, m) → x ≠ b.
Proof.
  intros Hok Hb HE ->. destruct (co_E _ _ _ _ _ Hok _ _ HE) as [sl Hsl]. destruct (co_slab _ _ _ _ _ Hok _ _ Hsl) as (cc & base & m' & os & Hso).
  pose proof (so_E _ _ _ _ _ _ _ _ _ _ Hso) as HE'. rewrite HE in HE'. injection HE' as <- <-.
  rewrite (co_block _ _ _ _ _ Hok p (cache sl) cc b m) in Hb; [done|]. exists sl. split_and!; [done|done|apply Hso|done].
Qed.

(** ** What keeps a slab as it is *)
Lemma names_mono t t' z p b o : bufctls t ⊆ bufctls t' → names t z p b o → names t' z p b o.
Proof. intros Hsub. unfold names. destruct (z <=? SMALL_SLAB_MAX); [done|]. intros Hb. by eapply lookup_weaken. Qed.
Lemma slab_ok_mono W W' E E' A A' t t' p sl cc cc' base m os :
  slab_ok W E A t p sl cc base m os → caches t' !! cache sl = Some cc' → size cc' = size cc → E' !! p = E !! p → bufctls t ⊆ bufctls t' →
  (∀ o, grid (size cc) base m o → A' !! o = None ↔ A !! o = None) → (W' ≠ Some p → W ≠ Some p) → slab_ok W' E' A' t' p sl cc' base m os.
Proof.
  intros [Hc HE Hk Hm Hn Hnd Hf Hw] Hcc Hsz HE' Hb HA HW. split; rewrite ?Hsz; [done|by rewrite HE'|done..| |done| |].
  - eapply Forall2_impl; [done|]. intros b o. by apply names_mono.
  - intros o. rewrite Hf. split; intros [Hg Ho]; (split; [done|by apply (HA o Hg)]).
  - intros HWp. by apply Hw, HW.
Qed.
Definition slabs_kept E t E' t' : Prop := ∀ p c cc base m, a_slab E t p c cc base m → ∃ cc' m', a_slab E' t' p c cc' base m' ∧ size cc' = size cc ∧ m ≤ m'.
Lemma owned_mono E E' t t' c b o : bufctls t ⊆ bufctls t' → slabs_kept E t E' t' → owned E t c b o → owned E' t' c b o.
Proof.
  intros Hb Hs (p & cc & base & m & Hbo & Ha & Hg). destruct (Hs _ _ _ _ _ Ha) as (cc' & m' & Ha' & Hsz & Hm). exists p, cc', base, m'.
  split_and!; [by eapply lookup_weaken|done|]. rewrite Hsz. destruct Hg as (i & Hi & ->). exists i. split; [lia|done].
Qed.

(** ** A block of pages is allocated *)
Lemma content_block W E A B t b n x : content_ok W E A B t → new_block B b n → content_ok W E A (<[b := n]> B) (set_pages x t).
Proof.
  intros Hok Hb. destruct Hok as [H1 H2 H3 H4 H5 H6 H7 H8 H9 H10 H11 H12]. split; try done.
  - intros p sl Hsl. destruct (H1 p sl Hsl) as (cc & base & m & os & Hso). exists cc, base, m, os. eapply slab_ok_mono; try done; apply Hso.
  - intros p c cc base m Hp. specialize (H3 p c cc base m Hp). rewrite lookup_insert_ne; [done|]. intros ->. by rewrite (new_block_fresh _ _ _ H5 Hb) in H3.
  - by apply blocks_ok_insert.
Qed.

(** ** A slab is added *)
Definition add_slab (p : slabp) (sl : kmem_slab) t : kst P := set_slabmap (<[p := sl]> (slabmap t)) t.
Lemma a_slab_add E t p sl base m q c cc b k : a_slab (<[p := (base, m)]> E) (add_slab p sl t) q c cc b k →
  (q = p ∧ c = cache sl ∧ caches t !! c = Some cc ∧ b = base ∧ k = m) ∨ (q ≠ p ∧ a_slab E t q c cc b k).
Proof.
  intros (sl' & Hsl & Hc & Hcc & HEp). simpl in *. destruct (decide (q = p)) as [->|Hne].
  - rewrite lookup_insert_eq in Hsl. rewrite lookup_insert_eq in HEp. injection HEp as <- <-. injection Hsl as <-. by left.
  - rewrite lookup_insert_ne in Hsl by done. rewrite lookup_insert_ne in HEp by done. right. split; [done|]. by exists sl'.
Qed.
Lemma content_add_slab W W' E A B t p sl cc base m os : content_ok W E A B t → slabmap t !! p = None →
  slab_ok W' (<[p := (base, m)]> E) A (add_slab p sl t) p sl cc base m os → B !! base = Some (slab_size (size cc) / PGSIZE) →
  (∀ q x k, E !! q = Some (x, k) → x ≠ base) → (∀ a, p = At a → A !! a = Some kmem_slab_cache) → (∀ q, q ≠ p → W' ≠ Some q → W ≠ Some q) →
  content_ok W' (<[p := (base, m)]> E) A B (add_slab p sl t).
Proof.
  intros Hok Hfresh Hnew Hbase HE Hmeta HW. pose proof (so_cache _ _ _ _ _ _ _ _ _ _ Hnew) as Hcc.
  assert (∀ q x, slabmap t !! q = Some x → p ≠ q) as Hne by (intros q x Hsl <-; congruence).
  pose proof Hok as [H1 H2 H3 H4 H5 H6 H7 H8 H9 H10 H11 H12]. split; try done.
  - intros q sl' Hsl. simpl in Hsl. destruct (decide (q = p)) as [->|Hqne]; [rewrite lookup_insert_eq in Hsl; injection Hsl as <-; eauto 10|].
    rewrite lookup_insert_ne in Hsl by done. destruct (H1 q sl' Hsl) as (cc' & base' & k & os' & Hso). exists cc', base', k, os'.
    eapply slab_ok_mono; try done; [apply Hso|by rewrite lookup_insert_ne|by apply HW].
  - intros q x HEq. simpl. destruct (decide (q = p)) as [->|Hqne]; [by rewrite lookup_insert_eq; eauto|]. rewrite lookup_insert_ne in HEq by done. rewrite lookup_insert_ne by done. by eapply H2.
  - intros q c cc' b k [(-> & -> & Hcc' & -> & ->)|[_ Hq]]%a_slab_add; [|by eapply H3]. by assert (cc' = cc) as -> by (simpl in Hcc; congruence).
  - intros q q' b k k' Hq Hq'. destruct (decide (q = p)) as [->|Hqne], (decide (q' = p)) as [->|Hqne']; [done|..].
    + rewrite lookup_insert_eq in Hq. rewrite lookup_insert_ne in Hq' by done. injection Hq as <- <-. by destruct (HE _ _ _ Hq').
    + rewrite lookup_insert_eq in Hq'. rewrite lookup_insert_ne in Hq by done. injection Hq' as <- <-. by destruct (HE _ _ _ Hq).
    + rewrite lookup_insert_ne in Hq, Hq' by done. by eapply H4.
  - intros o c Ho. destruct (H6 o c Ho) as (q & cc' & b & k & (sl' & Hsl & Hc & Hcc' & HEq) & Hg). exists q, cc', b, k. split; [|done]. exists sl'.
    pose proof (Hne _ _ Hsl). split_and!; simpl; [by rewrite lookup_insert_ne|done|done|by rewrite lookup_insert_ne].
  - intros c cc' Hc Hl. destruct (H10 c cc' Hc Hl) as (os' & Hos & Hnd & HAo). exists os'. split; [|done]. eapply Forall2_impl; [done|].
    intros b o. apply owned_mono; [done|]. intros q c' cc0 b' k (x & Hsl & Hcx & Hcc0 & HEq). pose proof (Hne _ _ Hsl). exists cc0, k. split; [|done]. exists x. simpl. by rewrite !lookup_insert_ne.
  - intros a x Hsl. simpl in Hsl. destruct (decide (p = At a)) as [->|Hpa]; [by apply Hmeta|]. rewrite lookup_insert_ne in Hsl by done. by eapply H11.
Qed.

(** A slab in a page. *)
Definition small_slab (c z base : Z) : kmem_slab := Slab None c (nper z) 0 (grid_down (Z.to_nat (nper z)) base z).
Lemma content_small W E A B t c cc base : content_ok W E A B t → caches t !! c = Some cc → size cc ≤ SMALL_SLAB_MAX → B !! base = Some 1 →
  (∀ p x m, E !! p = Some (x, m) → x ≠ base) → (∀ o, base ≤ o < base + PGSIZE → A !! o = None) →
  slabmap t !! InPage base = None ∧
  content_ok W (<[InPage base := (base, nper (size cc))]> E) A B (add_slab (InPage base) (small_slab c (size cc) base) t).
Proof.
  intros Hok Hcc Hsz Hbase HE HA. pose proof (co_size _ _ _ _ _ Hok _ _ Hcc) as Hz. destruct (nper_bounds _ Hz) as [Hn Hnz].
  assert (slabmap t !! InPage base = None) as Hfresh.
  { destruct (slabmap t !! InPage base) as [sl|] eqn:Hsl; [|done]. destruct (co_slab _ _ _ _ _ Hok _ _ Hsl) as (cc' & base' & m & os & Hso).
    pose proof (so_kind _ _ _ _ _ _ _ _ _ _ Hso) as Hk. destruct (size cc' <=? SMALL_SLAB_MAX); [injection Hk as <-|by destruct Hk].
    by destruct (HE _ _ _ (so_E _ _ _ _ _ _ _ _ _ _ Hso)). }
  split; [done|]. eapply (content_add_slab W W _ _ _ _ _ _ cc _ _ (grid_down (Z.to_nat (nper (size cc))) base (size cc))); try done; [|by rewrite small_size].
  split; simpl; [done|by rewrite lookup_insert_eq|by rewrite (proj2 (Z.leb_le _ _) Hsz)|lia|..].
  - unfold names. rewrite (proj2 (Z.leb_le _ _) Hsz). by apply Forall_Forall2_diag, Forall_true.
  - by apply NoDup_grid_down.
  - intros o. rewrite elem_of_grid_down, Z2Nat.id by lia. split; [|tauto]. intros Hg. split; [done|]. apply HA.
    apply grid_within in Hg; [|done|lia]. rewrite small_size in Hg by done. unfold size_ok in Hz. lia.
  - intros _. rewrite length_grid_down. lia.
Qed.

(** A large slab, as yet without buffers. *)
Definition large_slab (c z : Z) : kmem_slab := Slab None c (nper z) 0 [].
Lemma content_large E A B t c cc a base : content_ok None E A B t → caches t !! c = Some cc → SMALL_SLAB_MAX < size cc →
  B !! base = Some (slab_size (size cc) / PGSIZE) → (∀ p x m, E !! p = Some (x, m) → x ≠ base) → slabmap t !! At a = None →
  A !! a = Some kmem_slab_cache → content_ok (Some (At a)) (<[At a := (base, 0)]> E) A B (add_slab (At a) (large_slab c (size cc)) t).
Proof.
  intros Hok Hcc Hsz Hbase HE Hfresh HA. pose proof (co_size _ _ _ _ _ Hok _ _ Hcc) as Hz. destruct (nper_bounds _ Hz) as [Hn _].
  eapply (content_add_slab None _ _ _ _ _ _ _ cc _ _ []); try done; [|by intros ? [= ->]].
  split; simpl; [done|by rewrite lookup_insert_eq|rewrite (proj2 (Z.leb_gt _ _) Hsz); eauto|lia|done|constructor| |done].
  intros o. split; [by intros ?%elem_of_nil|]. intros [(i & Hi & _) _]. lia.
Qed.

End inv.

(** ** A slab changes

    Slab [p] of [t] becomes [sl'] with [m'] buffers, its cache becomes [cc'], and the
    outstanding buffers become [A'], with no change outside the slab's grid. *)
Section update.
Context {P : Type} `{PageSource P} (W W' : option slabp) (E : gmap slabp (Z * Z)) (A A' B : gmap Z Z) (t t' : kst P).
Context (p : slabp) (sl sl' : kmem_slab) (cc cc' : kmem_cache) (base m m' : Z) (os' : list Z).
Context (Hok : content_ok W E A B t) (Hsl : slabmap t !! p = Some sl) (HE : E !! p = Some (base, m)) (Hcc : caches t !! cache sl = Some cc).
Context (Hmap : slabmap t' = <[p := sl']> (slabmap t)) (Hcsl : cache sl' = cache sl).
Context (Hcaches : caches t' = <[cache sl := cc']> (caches t)) (Hsz : size cc' = size cc) (Hmg : use_magazines cc' = use_magazines cc).
Context (Hbuf : bufctls t ⊆ bufctls t') (Hnew : slab_ok W' (<[p := (base, m')]> E) A' t' p sl' cc' base m' os').
Context (HA1 : ∀ o, ¬ grid (size cc) base m' o → A' !! o = A !! o) (HA2 : ∀ o c, grid (size cc) base m' o → A' !! o = Some c → c = cache sl).

Lemma upd_slab : a_slab E t p (cache sl) cc base m.
Proof using Hcc HE Hsl. by exists sl. Qed.
Lemma upd_m : m' ≤ nper (size cc).
Proof using Hsz Hnew. rewrite <- Hsz. apply Hnew. Qed.
Lemma upd_fw c cc0 : caches t !! c = Some cc0 → ∃ cc1, caches t' !! c = Some cc1 ∧ size cc1 = size cc0 ∧ use_magazines cc1 = use_magazines cc0.
Proof using Hcaches Hcc Hmg Hsz.
  intros Hc. rewrite Hcaches. destruct (decide (c = cache sl)) as [->|Hne]; [|rewrite lookup_insert_ne by done; eauto].
  rewrite lookup_insert_eq. exists cc'. by assert (cc0 = cc) as -> by congruence.
Qed.
Lemma upd_bw c cc1 : caches t' !! c = Some cc1 → ∃ cc0, caches t !! c = Some cc0 ∧ size cc1 = size cc0.
Proof using Hcaches Hcc Hsz.
  rewrite Hcaches. destruct (decide (c = cache sl)) as [->|Hne]; [|rewrite lookup_insert_ne by done; eauto].
  rewrite lookup_insert_eq. intros [= <-]. eauto.
Qed.
Lemma upd_other q slq : (∀ q, q ≠ p → W' ≠ Some q → W ≠ Some q) → slabmap t' !! q = Some slq → ∃ ccq bq mq osq, slab_ok W' (<[p := (base, m')]> E) A' t' q slq ccq bq mq osq.
Proof using All.
  intros HW Hq. rewrite Hmap in Hq. destruct (decide (q = p)) as [->|Hne].
  { rewrite lookup_insert_eq in Hq. injection Hq as <-. eauto 10. }
  rewrite lookup_insert_ne in Hq by done. destruct (co_slab _ _ _ _ _ Hok q slq Hq) as (ccq & bq & mq & osq & Hso).
  destruct (upd_fw _ _ (so_cache _ _ _ _ _ _ _ _ _ _ Hso)) as (cc1 & Hc1 & Hs1 & _). exists cc1, bq, mq, osq.
  eapply slab_ok_mono; try done; [by rewrite lookup_insert_ne| |by apply HW]. intros o Ho. rewrite HA1; [done|]. intros Hg.
  assert (a_slab E t q (cache slq) ccq bq mq) as Haq by (exists slq; split_and!; [done|done|apply Hso..]).
  pose proof (slabs_apart _ _ _ _ _ _ _ _ _ _ _ _ _ _ _ _ _ _ _ Hok upd_slab Haq (not_eq_sym Hne) upd_m (a_slab_m _ _ _ _ _ _ _ _ _ _ Hok Haq) Hg Ho) as Hap.
  pose proof (co_size _ _ _ _ _ Hok _ _ Hcc) as Hz. pose proof (co_size _ _ _ _ _ Hok _ _ (so_cache _ _ _ _ _ _ _ _ _ _ Hso)) as Hzq. unfold apart, size_ok in *. lia.
Qed.
Lemma upd_A o c : m ≤ m' → A' !! o = Some c → ∃ q cc1 b k, a_slab (<[p := (base, m')]> E) t' q c cc1 b k ∧ grid (size cc1) b k o.
Proof using All.
  intros Hm Ho. assert (a_slab (<[p := (base, m')]> E) t' p (cache sl) cc' base m') as Hp'.
  { exists sl'. rewrite Hmap, Hcaches, !lookup_insert_eq. done. }
  destruct (decide (grid (size cc) base m' o)) as [Hg|Hg].
  { exists p, cc', base, m'. rewrite Hsz. split; [|done]. by rewrite (HA2 _ _ Hg Ho). }
  rewrite HA1 in Ho by done. destruct (co_A _ _ _ _ _ Hok _ _ Ho) as (q & cc0 & b & k & (slq & Hq & Hc & Hcc0 & HEq) & Hgr). destruct (decide (q = p)) as [->|Hne].
  - rewrite HE in HEq. injection HEq as <- <-. destruct Hg. assert (slq = sl) as -> by congruence. assert (cc0 = cc) as -> by congruence.
    destruct Hgr as (i & Hi & ->). exists i. split; [lia|done].
  - destruct (upd_fw _ _ Hcc0) as (cc1 & Hc1 & Hs1 & _). exists q, cc1, b, k. rewrite Hs1. split; [|done]. exists slq. by rewrite Hmap, !lookup_insert_ne.
Qed.
Lemma upd_slabs : m ≤ m' → slabs_kept E t (<[p := (base, m')]> E) t'.
Proof using Hcaches Hcc Hcsl HE Hmap Hmg Hsl Hsz.
  intros Hm q c cc0 b k (slq & Hq & Hc & Hcc0 & HEq). destruct (upd_fw _ _ Hcc0) as (cc1 & Hc1 & Hs1 & _). exists cc1. destruct (decide (q = p)) as [->|Hne].
  - rewrite HE in HEq. injection HEq as <- <-. assert (slq = sl) as -> by congruence. exists m'. split; [|lia]. exists sl'. rewrite Hmap, !lookup_insert_eq, Hcsl. done.
  - exists k. split; [|lia]. exists slq. by rewrite Hmap, !lookup_insert_ne.
Qed.
Lemma upd_owned c b o : m ≤ m' → owned E t c b o → owned (<[p := (base, m')]> E) t' c b o.
Proof using Hbuf Hcaches Hcc Hcsl HE Hmap Hmg Hsl Hsz. intros Hm. by apply owned_mono, upd_slabs. Qed.
Lemma upd_large c cc1 : m ≤ m' → cache sl ≠ c → caches t' !! c = Some cc1 → SMALL_SLAB_MAX < size cc1 → ∃ os,
  Forall2 (owned (<[p := (base, m')]> E) t' c) (alloced cc1) os ∧
  NoDup os ∧ ∀ o, o ∈ os ↔ A' !! o = Some c.
Proof using All.
  intros Hm Hne Hc Hl. rewrite Hcaches, lookup_insert_ne in Hc by done. destruct (co_large _ _ _ _ _ Hok _ _ Hc Hl) as (os & Hos & Hnd & HAo). exists os. split_and!; [|done|].
  - eapply Forall2_impl; [done|]. intros b o. by apply upd_owned.
  - intros o. rewrite HAo. destruct (decide (grid (size cc) base m' o)) as [Hg|Hg]; [|by rewrite HA1]. split; intros Ho; [|by specialize (HA2 _ _ Hg Ho)].
    pose proof (co_size _ _ _ _ _ Hok _ _ Hcc) as Hz. apply grid_within in Hg; [|done|by apply upd_m].
    destruct (slab_owner _ _ _ _ _ _ _ _ _ _ o c Hok upd_slab Ho) as [-> _]; [unfold size_ok in Hz; lia|done].
Qed.
Lemma content_update : m ≤ m' → (∀ q, q ≠ p → W' ≠ Some q → W ≠ Some q) →
  (SMALL_SLAB_MAX < size cc → ∃ os,
    Forall2 (owned (<[p := (base, m')]> E) t' (cache sl)) (alloced cc') os ∧
    NoDup os ∧ ∀ o, o ∈ os ↔ A' !! o = Some (cache sl)) →
  (∀ a sl0, slabmap t !! At a = Some sl0 → A' !! a = Some kmem_slab_cache) → (∀ b x, bufctls t' !! b = Some x → A' !! b = Some kmem_bufctl_cache) →
  content_ok W' (<[p := (base, m')]> E) A' B t'.
Proof using All.
  intros Hm HW Hlarge Hmeta1 Hmeta2. assert (∀ q j b, <[p := (base, m')]> E !! q = Some (b, j) → ∃ j', E !! q = Some (b, j')) as HE'.
  { intros q j b Hq. destruct (decide (q = p)) as [->|Hne]; [rewrite lookup_insert_eq in Hq; injection Hq as <- <-; eauto|rewrite lookup_insert_ne in Hq by done; eauto]. }
  split; try done.
  - intros q slq. by apply upd_other.
  - intros q [b j] Hq. destruct (HE' _ _ _ Hq) as [j' Hj]. rewrite Hmap. destruct (decide (q = p)) as [->|Hne]; [by rewrite lookup_insert_eq; eauto|].
    rewrite lookup_insert_ne by done. by eapply co_E.
  - intros q c cc1 b k (slq & Hq & Hc & Hcc1 & HEq). destruct (upd_bw _ _ Hcc1) as (cc0 & Hcc0 & ->). destruct (HE' _ _ _ HEq) as [j' Hj]. rewrite Hmap in Hq.
    destruct (decide (q = p)) as [->|Hne].
    + rewrite lookup_insert_eq in Hq. injection Hq as <-. eapply (co_block _ _ _ _ _ Hok p (cache sl)). exists sl. split_and!; [done|done|congruence|done].
    + rewrite lookup_insert_ne in Hq by done. eapply (co_block _ _ _ _ _ Hok). by exists slq.
  - intros q q' b k k' Hq Hq'. destruct (HE' _ _ _ Hq) as [j Hj]. destruct (HE' _ _ _ Hq') as [j' Hj']. by eapply co_inj.
  - apply Hok.
  - intros o c. by apply upd_A.
  - intros c cc1 Hc. destruct (upd_bw _ _ Hc) as (cc0 & Hc0 & ->). by eapply co_size.
  - destruct (co_bufctl_cache _ _ _ _ _ Hok) as (cc0 & Hc & Hs & Hu). destruct (upd_fw _ _ Hc) as (cc1 & Hc1 & Hs1 & Hu1). exists cc1. split_and!; congruence.
  - destruct (co_slab_cache _ _ _ _ _ Hok) as (cc0 & Hc & Hs & Hu). destruct (upd_fw _ _ Hc) as (cc1 & Hc1 & Hs1 & Hu1). exists cc1. split_and!; congruence.
  - intros c cc1 Hc Hl. destruct (decide (cache sl = c)) as [<-|Hne]; [|by apply upd_large]. rewrite Hcaches, lookup_insert_eq in Hc. injection Hc as <-. apply Hlarge. lia.
  - intros a sl0 Hsl0. rewrite Hmap in Hsl0. destruct (decide (p = At a)) as [->|Hne]; [by eapply Hmeta1|]. rewrite lookup_insert_ne in Hsl0 by done. by eapply Hmeta1.
Qed.
End update.
