(* ===== verification/KmemSlab.v ===== *)
(** Kernel memory: the slab layer (kernel/vm/kmem_cache.c).  Allocation takes a free buffer
    of a slab, making a slab when there is none; freeing gives a buffer back. *)
From S2P Require Import Prelude Kmem KmemInv.
Import Kmem.
Local Open Scope Z_scope.

Lemma u16_small x : 0 ≤ x < 2 ^ 16 → u16 x = x.
Proof. intros. unfold u16. by rewrite Z.mod_small. Qed.

Section content.
Context {P : Type} `{PageSource P}.
Implicit Types (t : kst P) (E : gmap slabp (Z * Z)) (A B : gmap Z Z).

(** ** The buffers of a large slab are added one by one *)

Definition add_bufctl (p : slabp) (sl : kmem_slab) (b o : Z) t : kst P :=
  add_slab p (with_free (free_n sl) (alloced_n sl) (b :: sfree sl) sl) (set_bufctls (<[b := Bufctl p o]> (bufctls t)) t).
Lemma content_add_bufctl a E A B t sl cc base m os b : content_ok (Some (At a)) E A B t → slabmap t !! At a = Some sl →
  slab_ok (Some (At a)) E A t (At a) sl cc base m os → SMALL_SLAB_MAX < size cc → m < nper (size cc) → bufctls t !! b = None →
  A !! b = Some kmem_bufctl_cache →
  content_ok (Some (At a)) (<[At a := (base, m + 1)]> E) A B (add_bufctl (At a) sl b (base + m * size cc) t) ∧
  slab_ok (Some (At a)) (<[At a := (base, m + 1)]> E) A (add_bufctl (At a) sl b (base + m * size cc) t) (At a)
    (with_free (free_n sl) (alloced_n sl) (b :: sfree sl) sl) cc base (m + 1) ((base + m * size cc) :: os).
Proof.
  intros Hok Hsl Hso Hl Hm Hb HAb. set (o := base + m * size cc). pose proof (so_cache _ _ _ _ _ _ _ _ _ _ Hso) as Hcc. pose proof (so_E _ _ _ _ _ _ _ _ _ _ Hso) as HE.
  pose proof (co_size _ _ _ _ _ Hok _ _ Hcc) as Hz. assert (a_slab E t (At a) (cache sl) cc base m) as Hp by (by exists sl).
  assert (bufctls t ⊆ <[b := Bufctl (At a) o]> (bufctls t)) as Hsub by (by apply insert_subseteq).
  pose proof (so_m _ _ _ _ _ _ _ _ _ _ Hso) as Hm0.
  assert (∀ i, 0 ≤ i < m + 1 → base ≤ base + i * size cc < base + slab_size (size cc)) as Hin.
  { intros i Hi. destruct (grid_within (size cc) base (m + 1) (base + i * size cc)) as [? ?]; [done|lia|by exists i|unfold size_ok in Hz; lia]. }
  assert (¬ grid (size cc) base m o) as Hno by (intros (i & Hi & He); unfold o, size_ok in *; nia).
  assert (A !! o = None) as HAo.
  { destruct (A !! o) as [c|] eqn:Ho; [|done]. destruct (slab_owner _ _ _ _ _ _ _ _ _ _ o c Hok Hp Ho) as [_ ?]; [|done]. apply Hin. lia. }
  assert (slab_ok (Some (At a)) (<[At a := (base, m + 1)]> E) A (add_bufctl (At a) sl b o t) (At a) (with_free (free_n sl) (alloced_n sl) (b :: sfree sl) sl) cc base (m + 1) (o :: os)) as Hnew.
  { split; simpl; [done|by rewrite lookup_insert_eq|apply Hso|lia|..].
    - constructor; [unfold names; rewrite (proj2 (Z.leb_gt _ _) Hl); simpl; by rewrite lookup_insert_eq|].
      eapply Forall2_impl; [apply Hso|]. intros x y. by apply (names_mono t).
    - constructor; [|apply Hso]. rewrite (so_free _ _ _ _ _ _ _ _ _ _ Hso). tauto.
    - intros x. rewrite elem_of_cons, (so_free _ _ _ _ _ _ _ _ _ _ Hso). split.
      + intros [->|[(i & ? & ->) ?]]; (split; [|done]); [exists m; split; [lia|done]|exists i; split; [lia|done]].
      + intros [(i & Hi & ->) HA]. destruct (decide (i = m)) as [->|]; [by left|right]. split; [exists i; split; [lia|done]|done].
    - done. }
  split; [|done]. eapply (content_update (Some (At a)) (Some (At a)) E A A B t); try done; simpl.
  - by rewrite insert_id.
  - intros x c Hg Hx. destruct Hg as (i & Hi & ->). destruct (decide (i = m)) as [->|Hne]; [fold o in Hx; congruence|].
    by apply (slab_owner _ _ _ _ _ _ _ _ _ _ _ c Hok Hp Hx), Hin.
  - lia.
  - intros Hl'. destruct (co_large _ _ _ _ _ Hok _ _ Hcc Hl') as (os' & Hos & Hnd & HAos). exists os'. split_and!; [|done|done]. eapply Forall2_impl; [done|].
    intros x y. eapply (upd_owned _ _ (add_bufctl (At a) sl b o t) (At a) sl); try done; [simpl; by rewrite insert_id|lia].
  - intros a' sl0 Ha'. by eapply co_slab_meta.
  - intros b' x Hb'. destruct (decide (b' = b)) as [->|Hne]; [done|]. rewrite lookup_insert_ne in Hb' by done. by eapply co_bufctl_meta.
Qed.
(** The slab is complete. *)
Lemma content_done a E A B t sl cc base os : content_ok (Some (At a)) E A B t → slabmap t !! At a = Some sl →
  slab_ok (Some (At a)) E A t (At a) sl cc base (nper (size cc)) os → free_n sl = nper (size cc) → alloced_n sl = 0 →
  length os = Z.to_nat (nper (size cc)) → content_ok None E A B t.
Proof.
  intros Hok Hsl Hso Hfn Han Hlen. pose proof (so_m _ _ _ _ _ _ _ _ _ _ Hso) as Hm. destruct Hok as [H1 H2 H3 H4 H5 H6 H7 H8 H9 H10 H11 H12]. split; try done.
  intros q slq Hq. destruct (decide (q = At a)) as [->|Hne].
  - assert (slq = sl) as -> by congruence. exists cc, base, (nper (size cc)), os. destruct Hso as [K1 K2 K3 K4 K5 K6 K7 K8]. split; try done. intros _. rewrite Hlen, Z2Nat.id by lia. lia.
  - destruct (H1 q slq Hq) as (ccq & b & m & osq & Hsq). exists ccq, b, m, osq. destruct Hsq as [K1 K2 K3 K4 K5 K6 K7 K8]. split; try done. intros _. apply K8. congruence.
Qed.

(** ** A buffer is taken, and given back *)

Lemma grid_bound z base m (os : list Z) : 0 ≤ m → NoDup os → (∀ o, o ∈ os → grid z base m o) → Z.of_nat (length os) ≤ m.
Proof.
  intros Hm Hnd Hos. assert (os ⊆+ grid_down (Z.to_nat m) base z) as Hsub%submseteq_length.
  - apply NoDup_submseteq; [done|]. intros x Hx%Hos. by rewrite elem_of_grid_down, Z2Nat.id by lia.
  - rewrite length_grid_down in Hsub. lia.
Qed.
Lemma insert_sub A o c : A !! o = None → ∀ x y, A !! x = Some y → <[o := c]> A !! x = Some y.
Proof. intros Ho x y Hx. rewrite lookup_insert_ne; [done|]. by intros ->; congruence. Qed.
Definition note_alloced (b : Z) (cc : kmem_cache) : kmem_cache := if size cc <=? SMALL_SLAB_MAX then cc else with_alloced (b :: alloced cc) cc.
Lemma note_size b cc : size (note_alloced b cc) = size cc.
Proof. unfold note_alloced. by destruct (size cc <=? SMALL_SLAB_MAX). Qed.
Definition taken (p : slabp) (sl : kmem_slab) (cc : kmem_cache) (b : Z) t : kst P :=
  set_caches (<[cache sl := note_alloced b cc]> (caches t)) (add_slab p (with_free (u16 (free_n sl - 1)) (u16 (alloced_n sl + 1)) (tail (sfree sl)) sl) t).
Lemma taken_slab_ok W E A t p sl cc base m b rest o os : size_ok (size cc) → W ≠ Some p → slab_ok W E A t p sl cc base m (o :: os) → sfree sl = b :: rest →
  slab_ok W (<[p := (base, m)]> E) (<[o := cache sl]> A) (taken p sl cc b t) p (with_free (u16 (free_n sl - 1)) (u16 (alloced_n sl + 1)) (tail (sfree sl)) sl) (note_alloced b cc) base m os.
Proof.
  intros Hz HW Hso Hfr. destruct (nper_bounds _ Hz) as [Hn _].
  assert (Z.of_nat (length (o :: os)) ≤ m) as Hle by (eapply grid_bound; [apply Hso..|]; intros x Hx%Hso; apply Hx). destruct Hso as [Hcc HE Hk Hm Hnm Hnd Hf Hw]. apply NoDup_cons in Hnd as [Hno Hnd]. rewrite Hfr in Hnm |- *. apply Forall2_cons in Hnm as [_ Hnm].
  split; simpl; rewrite ?note_size, ?lookup_insert_eq; try done.
  - intros x. destruct (decide (x = o)) as [->|Hne]; [rewrite lookup_insert_eq; split; [done|by intros [_ ?]]|]. rewrite lookup_insert_ne by done. rewrite <- Hf, elem_of_cons. tauto.
  - intros _. destruct (Hw HW) as (-> & Hfn & Han). simpl in *. rewrite !u16_small by lia. lia.
Qed.
Lemma content_take W E A B t p sl cc base m b rest o os : content_ok W E A B t → slabmap t !! p = Some sl → W ≠ Some p →
  slab_ok W E A t p sl cc base m (o :: os) → sfree sl = b :: rest → content_ok W E (<[o := cache sl]> A) B (taken p sl cc b t).
Proof.
  intros Hok Hsl HW Hso Hfr. pose proof (so_cache _ _ _ _ _ _ _ _ _ _ Hso) as Hcc. pose proof (so_E _ _ _ _ _ _ _ _ _ _ Hso) as HE.
  pose proof (so_names _ _ _ _ _ _ _ _ _ _ Hso) as Hnm. rewrite Hfr in Hnm. apply Forall2_cons in Hnm as [Hnm _].
  destruct (proj1 (so_free _ _ _ _ _ _ _ _ _ _ Hso o)) as [Hg Ho]; [by left|]. pose proof (insert_sub A o (cache sl) Ho) as Hsub. pose proof (co_size _ _ _ _ _ Hok _ _ Hcc) as Hz.
  assert (a_slab E t p (cache sl) cc base m) as Hp by (by exists sl).
  replace E with (<[p := (base, m)]> E) at 1 by (by apply insert_id).
  eapply (content_update W W E A (<[o := cache sl]> A) B t (taken p sl cc b t) p sl _ cc (note_alloced b cc) base m m os); try done.
  - apply note_size.
  - unfold note_alloced. by destruct (size cc <=? SMALL_SLAB_MAX).
  - by eapply taken_slab_ok.
  - intros x Hx. rewrite lookup_insert_ne; [done|]. by intros <-.
  - intros x c Hx. destruct (decide (x = o)) as [->|Hne]; [rewrite lookup_insert_eq; congruence|]. rewrite lookup_insert_ne by done. intros HA.
    apply (slab_owner _ _ _ _ _ _ _ _ _ _ x c Hok Hp HA). apply grid_within in Hx; [|done|apply Hso]. unfold size_ok in Hz. lia.
  - intros Hl. destruct (co_large _ _ _ _ _ Hok _ _ Hcc Hl) as (os' & Hos & Hnd & HAo). exists (o :: os'). unfold note_alloced. rewrite (proj2 (Z.leb_gt _ _) Hl). split_and!.
    + constructor.
      * unfold names in Hnm. rewrite (proj2 (Z.leb_gt _ _) Hl) in Hnm. eapply (upd_owned _ _ (taken p sl cc b t) p sl); try done; [apply note_size|unfold note_alloced; by destruct (size cc <=? SMALL_SLAB_MAX)|].
        by exists p, cc, base, m.
      * eapply Forall2_impl; [done|]. intros x y. eapply (upd_owned _ _ (taken p sl cc b t) p sl); try done; [apply note_size|unfold note_alloced; by destruct (size cc <=? SMALL_SLAB_MAX)].
    + constructor; [|done]. rewrite HAo. congruence.
    + intros x. rewrite elem_of_cons, HAo. destruct (decide (x = o)) as [->|Hne]; [rewrite lookup_insert_eq; tauto|]. rewrite lookup_insert_ne by done. tauto.
  - intros a sl0 Ha. by eapply Hsub, co_slab_meta.
  - intros b' x Hb'. by eapply Hsub, co_bufctl_meta.
Qed.

Definition given (p : slabp) (sl : kmem_slab) (l : list Z) (cc : kmem_cache) (b : Z) t : kst P :=
  set_caches (<[cache sl := with_alloced l cc]> (caches t)) (add_slab p (with_free (u16 (free_n sl + 1)) (u16 (alloced_n sl - 1)) (b :: sfree sl) sl) t).
Lemma given_slab_ok W E A t p sl cc base m b o os l : size_ok (size cc) → W ≠ Some p → slab_ok W E A t p sl cc base m os → grid (size cc) base m o →
  A !! o = Some (cache sl) → names t (size cc) p b o →
  slab_ok W (<[p := (base, m)]> E) (delete o A) (given p sl l cc b t) p (with_free (u16 (free_n sl + 1)) (u16 (alloced_n sl - 1)) (b :: sfree sl) sl) (with_alloced l cc) base m (o :: os).
Proof.
  intros Hz HW Hso Hg HA Hb. destruct (nper_bounds _ Hz) as [Hn _].
  assert (o ∉ os) as Hno by (rewrite (so_free _ _ _ _ _ _ _ _ _ _ Hso); intros [_ ?]; congruence).
  assert (Z.of_nat (length (o :: os)) ≤ m) as Hle.
  { eapply grid_bound; [apply Hso|constructor; [done|apply Hso]|]. intros x [->|Hx%Hso]%elem_of_cons; [done|apply Hx]. }
  destruct Hso as [Hcc HE Hk Hm Hnm Hnd Hf Hw]. split; simpl; rewrite ?lookup_insert_eq; try done.
  - by constructor.
  - by constructor.
  - intros x. rewrite elem_of_cons, Hf. destruct (decide (x = o)) as [->|Hne]; [rewrite lookup_delete_eq; tauto|]. rewrite lookup_delete_ne by done. tauto.
  - intros _. destruct (Hw HW) as (-> & Hfn & Han). simpl in *. rewrite !u16_small by lia. lia.
Qed.
(** [l] is what remains of the list of outstanding large buffers. *)
Lemma content_give W E A B t p sl cc base m b o os l : content_ok W E A B t → slabmap t !! p = Some sl → W ≠ Some p →
  slab_ok W E A t p sl cc base m os → grid (size cc) base m o → A !! o = Some (cache sl) → names t (size cc) p b o →
  cache sl ≠ kmem_slab_cache → cache sl ≠ kmem_bufctl_cache →
  (SMALL_SLAB_MAX < size cc → alloced cc ≡ₚ b :: l) → content_ok W E (delete o A) B (given p sl l cc b t).
Proof.
  intros Hok Hsl HW Hso Hg HA Hb Hns Hnb Hl'. pose proof (so_cache _ _ _ _ _ _ _ _ _ _ Hso) as Hcc. pose proof (so_E _ _ _ _ _ _ _ _ _ _ Hso) as HE.
  pose proof (co_size _ _ _ _ _ Hok _ _ Hcc) as Hz. assert (a_slab E t p (cache sl) cc base m) as Hp by (by exists sl).
  replace E with (<[p := (base, m)]> E) at 1 by (by apply insert_id).
  eapply (content_update W W E A (delete o A) B t (given p sl l cc b t) p sl _ cc (with_alloced l cc) base m m (o :: os)); try done.
  - by apply given_slab_ok.
  - intros x Hx. rewrite lookup_delete_ne; [done|]. by intros <-.
  - intros x c Hx [_ HAx]%lookup_delete_Some.
    apply (slab_owner _ _ _ _ _ _ _ _ _ _ x c Hok Hp HAx). apply grid_within in Hx; [|done|apply Hso]. unfold size_ok in Hz. lia.
  - intros Hl. destruct (co_large _ _ _ _ _ Hok _ _ Hcc Hl) as (os' & Hos & Hnd & HAo). specialize (Hl' Hl).
    destruct (Permutation_Forall2 Hl' Hos) as (os2 & Hperm & Hos2). clear Hos. rename Hos2 into Hos. apply Forall2_cons_inv_l in Hos as (o' & os3 & (q & cc0 & b0 & m0 & Hq & _) & Hos & ->).
    unfold names in Hb. rewrite (proj2 (Z.leb_gt _ _) Hl) in Hb. rewrite Hb in Hq. injection Hq as <- <-. rewrite Hperm in Hnd. apply NoDup_cons in Hnd as [Hno Hnd].
    exists os3. split_and!; [|done|].
    + eapply Forall2_impl; [done|]. intros u v. by eapply (upd_owned _ _ (given p sl l cc b t) p sl).
    + intros x. assert (x ∈ o :: os3 ↔ A !! x = Some (cache sl)) as Hx by (by rewrite <- HAo, Hperm). destruct (decide (x = o)) as [->|Hne].
      * rewrite lookup_delete_eq. split; [|done]. intros ?. done.
      * rewrite lookup_delete_ne, <- Hx, elem_of_cons by done. tauto.
  - intros a sl0 Ha. pose proof (co_slab_meta _ _ _ _ _ Hok _ _ Ha) as Ham. rewrite lookup_delete_ne; [done|]. intros <-. congruence.
  - intros b' x Hb'. pose proof (co_bufctl_meta _ _ _ _ _ Hok _ _ Hb') as Hbm. rewrite lookup_delete_ne; [done|]. intros <-. congruence.
Qed.
End content.
