(* ===== verification/KmemAlloc.v ===== *)
(** Kernel memory: allocation from the slab layer (kernel/vm/kmem_cache.c), and freeing. *)
From S2P Require Import Prelude Kmem KmemInv KmemSlab.
Import Kmem.
Local Open Scope Z_scope.

Section wps.
Context {P : Type} `{PageSource P}.
Implicit Types s : kst P.

Lemma wp_cache_at c (Q : kmem_cache → kst P → Prop) s : wp (cache_at c) Q s ↔ ∃ cc, caches s !! c = Some cc ∧ Q cc s.
Proof. unfold cache_at. by rewrite wp_bind, wp_get, wp_deref. Qed.
Lemma wp_cache_set c x (Q : () → kst P → Prop) s : wp (cache_set c x) Q s ↔ Q () (set_caches (<[c := x]> (caches s)) s).
Proof. done. Qed.
Lemma wp_slab_at p (Q : kmem_slab → kst P → Prop) s : wp (slab_at p) Q s ↔ ∃ sl, slabmap s !! p = Some sl ∧ Q sl s.
Proof. unfold slab_at. by rewrite wp_bind, wp_get, wp_deref. Qed.
Lemma wp_slab_set p x (Q : () → kst P → Prop) s : wp (slab_set p x) Q s ↔ Q () (set_slabmap (<[p := x]> (slabmap s)) s).
Proof. done. Qed.
Lemma wp_bufctl_at b (Q : kmem_bufctl → kst P → Prop) s : wp (bufctl_at b) Q s ↔ ∃ x, bufctls s !! b = Some x ∧ Q x s.
Proof. unfold bufctl_at. by rewrite wp_bind, wp_get, wp_deref. Qed.

(** ** States that differ in the links only *)

Lemma erase_slab s p sl : slabmap s !! p = Some sl → slabmap (erase s) !! p = Some (strip sl).
Proof. intros Hp. simpl. by rewrite lookup_fmap, Hp. Qed.
Lemma erase_slab_inv s p x : slabmap (erase s) !! p = Some x → ∃ sl, slabmap s !! p = Some sl ∧ x = strip sl.
Proof. simpl. rewrite lookup_fmap. intros (sl & -> & ->)%fmap_Some. eauto. Qed.
Lemma erase_cache s c cc : caches s !! c = Some cc → caches (erase s) !! c = Some (cstrip cc).
Proof. intros Hc. simpl. by rewrite lookup_fmap, Hc. Qed.
Lemma erase_cache_inv s c x : caches (erase s) !! c = Some x → ∃ cc, caches s !! c = Some cc ∧ x = cstrip cc.
Proof. simpl. rewrite lookup_fmap. intros (cc & -> & ->)%fmap_Some. eauto. Qed.
Lemma erase_set_slab s p sl sl' : slabmap s !! p = Some sl → strip sl' = strip sl → erase (set_slabmap (<[p := sl']> (slabmap s)) s) = erase s.
Proof. intros Hp He. unfold erase. simpl. rewrite fmap_insert, He. rewrite (insert_id (strip <$> _)); [done|]. by rewrite lookup_fmap, Hp. Qed.
Lemma erase_set_cache s c cc cc' : caches s !! c = Some cc → cstrip cc' = cstrip cc → erase (set_caches (<[c := cc']> (caches s)) s) = erase s.
Proof. intros Hc He. unfold erase. simpl. rewrite fmap_insert, He. rewrite (insert_id (cstrip <$> _)); [done|]. by rewrite lookup_fmap, Hc. Qed.

Definition same_slabs s s' : Prop := ∀ p sl, slabmap s !! p = Some sl → ∃ sl', slabmap s' !! p = Some sl' ∧ cache sl' = cache sl.
Lemma erase_same s s' : erase s' = erase s → same_slabs s s'.
Proof.
  intros He p sl Hp. apply erase_slab in Hp. rewrite <- He in Hp. apply erase_slab_inv in Hp as (sl' & Hp & Hs). exists sl'. split; [done|].
  change (cache (strip sl') = cache (strip sl)). by rewrite Hs.
Qed.
Lemma link_ok_same W s s' c q : same_slabs s s' → link_ok W s c q → link_ok W s' c q.
Proof. intros Hs Hq p Hp. destruct (Hq p Hp) as (HW & sl & Hsl & Hc). split; [done|]. destruct (Hs _ _ Hsl) as (sl' & ? & ?). exists sl'. split; [done|congruence]. Qed.
(** New links, all to slabs of their cache. *)
Lemma relink W s s' : same_slabs s s' →
  (∀ c cc, caches s' !! c = Some cc → link_ok W s' c (stqh_first (slabs cc)) ∧ link_ok W s' c (stqh_last (slabs cc)) ∨
    ∃ cc0, caches s !! c = Some cc0 ∧ slabs cc = slabs cc0) →
  (∀ p sl, slabmap s' !! p = Some sl → link_ok W s' (cache sl) (sqlink sl) ∨ ∃ sl0, slabmap s !! p = Some sl0 ∧ cache sl = cache sl0 ∧ sqlink sl = sqlink sl0) →
  links_ok W s → links_ok W s'.
Proof.
  intros Hs Hcs Hsl [Hlc Hls]. split.
  - intros c cc Hc. destruct (Hcs c cc Hc) as [?|(cc0 & Hc0 & ->)]; [done|]. destruct (Hlc _ _ Hc0). split; by eapply link_ok_same.
  - intros p sl Hp. destruct (Hsl p sl Hp) as [?|(sl0 & Hp0 & -> & ->)]; [done|]. eapply link_ok_same; eauto.
Qed.
Lemma link_some W s c p sl : slabmap s !! p = Some sl → cache sl = c → W ≠ Some p → link_ok W s c (Some p).
Proof. intros Hp Hc HW q [= <-]. eauto. Qed.
Lemma link_none W s c : link_ok W s c None.
Proof. by intros ? [=]. Qed.

Lemma relink_slab W s p sl x : links_ok W s → slabmap s !! p = Some sl → link_ok W s (cache sl) x →
  links_ok W (set_slabmap (<[p := with_link x sl]> (slabmap s)) s).
Proof.
  intros Hl Hp Hx. assert (same_slabs s (set_slabmap (<[p := with_link x sl]> (slabmap s)) s)) as Hs by (by eapply erase_same, erase_set_slab).
  eapply (relink W s); [done| |..|done].
  - intros c cc Hc. right. eauto.
  - intros q slq Hq. simpl in Hq. destruct (decide (q = p)) as [->|Hne]; [|rewrite lookup_insert_ne in Hq by done; right; eauto].
    rewrite lookup_insert_eq in Hq. injection Hq as <-. left. simpl. by eapply link_ok_same.
Qed.
Lemma relink_cache W s c cc a b : links_ok W s → caches s !! c = Some cc → link_ok W s c a → link_ok W s c b →
  links_ok W (set_caches (<[c := with_slabs (Queue a b) cc]> (caches s)) s).
Proof.
  intros Hl Hc Ha Hb. assert (same_slabs s (set_caches (<[c := with_slabs (Queue a b) cc]> (caches s)) s)) as Hs by (by eapply erase_same, erase_set_cache).
  eapply (relink W s); [done| |..|done].
  - intros c' cc' Hc'. simpl in Hc'. destruct (decide (c' = c)) as [->|Hne]; [|rewrite lookup_insert_ne in Hc' by done; right; eauto].
    rewrite lookup_insert_eq in Hc'. injection Hc' as <-. left. simpl. split; by eapply link_ok_same.
  - intros q slq Hq. right. eauto.
Qed.

(** ** The queue operations keep the links and change nothing else *)

Lemma insert_head_ok W s c p sl cc : links_ok W s → slabmap s !! p = Some sl → cache sl = c → W ≠ Some p → caches s !! c = Some cc →
  wp (STAILQ_INSERT_HEAD c p) (λ _ s', links_ok W s' ∧ erase s' = erase s ∧ ∃ cc', caches s' !! c = Some cc' ∧ stqh_first (slabs cc') = Some p) s.
Proof.
  intros Hl Hp Hc HW Hcc. unfold STAILQ_INSERT_HEAD. rewrite wp_bind, wp_cache_at. exists cc. split; [done|]. rewrite wp_bind, wp_slab_at. exists sl. split; [done|].
  rewrite wp_bind, wp_slab_set, wp_cache_set. destruct (lo_cache _ _ Hl _ _ Hcc) as [Hf Hla]. set (s1 := set_slabmap _ s).
  assert (erase s1 = erase s) as He1 by (by eapply erase_set_slab). assert (links_ok W s1) as Hl1 by (apply relink_slab; [done..|by rewrite Hc]).
  pose proof (erase_same _ _ He1) as Hs1. split_and!; [|rewrite <- He1; by eapply erase_set_cache|eexists; simpl; rewrite lookup_insert_eq; done].
  apply relink_cache; [done|done|by eapply link_ok_same, link_some|]. destruct (stqh_first (slabs cc)); [by eapply link_ok_same|]. eapply link_ok_same; [done|by eapply link_some].
Qed.
Lemma insert_tail_ok W s c p sl cc : links_ok W s → slabmap s !! p = Some sl → cache sl = c → W ≠ Some p → caches s !! c = Some cc →
  wp (STAILQ_INSERT_TAIL c p) (λ _ s', links_ok W s' ∧ erase s' = erase s) s.
Proof.
  intros Hl Hp Hc HW Hcc. unfold STAILQ_INSERT_TAIL. rewrite wp_bind, wp_slab_at. exists sl. split; [done|]. rewrite wp_bind, wp_slab_set. set (s1 := set_slabmap _ s).
  assert (erase s1 = erase s) as He1 by (by eapply erase_set_slab). assert (links_ok W s1) as Hl1 by (apply relink_slab; [done..|apply link_none]).
  assert (∀ s2, erase s2 = erase s → links_ok W s2 → wp (cc ← cache_at c; cache_set c (with_slabs (Queue (stqh_first (slabs cc)) (Some p)) cc)) (λ _ s', links_ok W s' ∧ erase s' = erase s) s2) as Hend.
  { intros s2 He2 Hl2. destruct (erase_cache_inv s2 c (cstrip cc)) as (cc2 & Hcc2 & _); [rewrite He2; by apply erase_cache|].
    rewrite wp_bind, wp_cache_at. exists cc2. split; [done|]. rewrite wp_cache_set. split; [|rewrite <- He2; by eapply erase_set_cache].
    apply relink_cache; [done|done|by apply (lo_cache _ _ Hl2 _ _ Hcc2)|]. by eapply link_ok_same, link_some; [eapply erase_same|..]. }
  rewrite wp_bind. unfold store_last. rewrite wp_bind, wp_cache_at. exists cc. split; [done|]. destruct (lo_cache _ _ Hl1 _ _ Hcc) as [Hf Hla].
  destruct (stqh_last (slabs cc)) as [l|].
  - destruct (Hla l eq_refl) as (_ & sll & Hll & Hcl). rewrite wp_bind, wp_slab_at. exists sll. split; [done|]. rewrite wp_slab_set. apply Hend; [rewrite <- He1; by eapply erase_set_slab|].
    apply relink_slab; [done|done|]. rewrite Hcl. by eapply link_ok_same, link_some; [eapply erase_same|..].
  - rewrite wp_cache_set. apply Hend; [rewrite <- He1; by eapply erase_set_cache|]. apply relink_cache; [done|done| |apply link_none].
    by eapply link_ok_same, link_some; [eapply erase_same|..].
Qed.
Lemma remove_first_ok W s c p cc : links_ok W s → caches s !! c = Some cc → stqh_first (slabs cc) = Some p →
  wp (STAILQ_REMOVE c p) (λ _ s', links_ok W s' ∧ erase s' = erase s) s.
Proof.
  intros Hl Hcc Hf. destruct (lo_cache _ _ Hl _ _ Hcc) as [Hfo Hla]. rewrite Hf in Hfo. destruct (Hfo p eq_refl) as (_ & sl & Hp & Hc).
  unfold STAILQ_REMOVE. rewrite wp_bind, wp_cache_at. exists cc. split; [done|]. rewrite decide_True by done. unfold STAILQ_REMOVE_HEAD.
  rewrite wp_bind, wp_cache_at. exists cc. split; [done|]. rewrite wp_bind, wp_deref. exists p. split; [done|]. rewrite wp_bind, wp_slab_at. exists sl. split; [done|].
  rewrite wp_cache_set. pose proof (lo_slab _ _ Hl _ _ Hp) as Hn. rewrite Hc in Hn. split; [|by eapply erase_set_cache].
  apply relink_cache; [done|done|done|]. destruct (sqlink sl); [done|apply link_none].
Qed.
Lemma erase_put_slab s p x : erase (set_slabmap (<[p := x]> (slabmap s)) s) = add_slab p (strip x) (erase s).
Proof. unfold erase, add_slab. simpl. by rewrite fmap_insert. Qed.
Lemma erase_put_cache s c x : erase (set_caches (<[c := x]> (caches s)) s) = set_caches (<[c := cstrip x]> (caches (erase s))) (erase s).
Proof. unfold erase. simpl. by rewrite fmap_insert. Qed.
Lemma set_caches_id s c x : caches s !! c = Some x → set_caches (<[c := x]> (caches s)) s = s.
Proof. intros Hc. destruct s. unfold set_caches. simpl in *. by rewrite insert_id. Qed.
End wps.

Section slab_layer.
Context {P : Type} `{PageLaws P}.
Implicit Types (s : kst P) (E : gmap slabp (Z * Z)) (A B : gmap Z Z).

Record kmem_ok (W : option slabp) E A B (k : nat) s : Prop := {
  ko_content : content_ok W E A B (erase s);
  ko_links : links_ok W s;
  ko_pages : holds (pages s) B k;
  ko_made p : W = Some p → ∃ a, p = At a
}.
(** What allocation from a small cache leaves alone. *)
Record grows E B s E' B' s' : Prop := {
  gr_E : E ⊆ E';
  gr_new p x m : E' !! p = Some (x, m) → E !! p = None → B !! x = None;
  gr_B : B ⊆ B';
  gr_slabs a : slabmap (erase s') !! At a = slabmap (erase s) !! At a;
  gr_caches : caches (erase s') = caches (erase s);
  gr_bufctls : bufctls s' = bufctls s;
  gr_mags : mags s' = mags s;
  gr_data : data s' = data s
}.

(** Taking the first free buffer of the first slab [p]. *)
Lemma take_buf_ok W E A B k s p sl c cc : kmem_ok W E A B k s → slabmap s !! p = Some sl → cache sl = c → W ≠ Some p → free_n sl ≠ 0 → caches s !! c = Some cc →
  stqh_first (slabs cc) = Some p →
  wp (b ← take_buf p;
      sl ← slab_at p;
      when (free_n sl =? 0) (STAILQ_REMOVE c p;; STAILQ_INSERT_TAIL c p);;
      cc ← cache_at c;
      if size cc <=? SMALL_SLAB_MAX then mret (Some b)
      else cache_set c (with_alloced (b :: alloced cc) cc);; ctl ← bufctl_at b; mret (Some (bbase ctl)))
    (λ r s', ∃ o b, r = Some o ∧ A !! o = None ∧ kmem_ok W E (<[o := c]> A) B k s' ∧ erase s' = taken p (strip sl) (cstrip cc) b (erase s)) s.
Proof.
  intros [Hok Hlk Hpg HWA] Hp Hc HW Hfn Hcc Hf. pose proof (erase_slab _ _ _ Hp) as Hpe. destruct (co_slab _ _ _ _ _ Hok _ _ Hpe) as (cce & base & m & os & Hso).
  assert (cce = cstrip cc) as ->. { pose proof (so_cache _ _ _ _ _ _ _ _ _ _ Hso) as Hx. simpl in Hx. rewrite Hc, lookup_fmap, Hcc in Hx. by injection Hx. }
  destruct (so_whole _ _ _ _ _ _ _ _ _ _ Hso HW) as (Hm & Hfl & _). simpl in Hfl. destruct os as [|o os]; [done|].
  pose proof (so_names _ _ _ _ _ _ _ _ _ _ Hso) as Hnm. simpl in Hnm. apply Forall2_cons_inv_r in Hnm as (b & rest & Hb & _ & Hfr).
  pose proof (content_take _ _ _ _ _ _ _ _ _ _ b rest o os Hok Hpe HW Hso Hfr) as Hct. destruct (proj1 (so_free _ _ _ _ _ _ _ _ _ _ Hso o)) as [_ Ho]; [by left|].
  unfold take_buf. rewrite !wp_bind, wp_slab_at. exists sl. split; [done|]. rewrite wp_bind, wp_deref. exists b. split; [by rewrite Hfr|].
  rewrite wp_bind, wp_slab_set, wp_ret. set (sl1 := with_free _ _ _ _). set (s1 := set_slabmap _ s). rewrite wp_bind, wp_slab_at. exists sl1. split; [simpl; by rewrite lookup_insert_eq|].
  assert (links_ok W s1) as Hl1.
  { eapply (relink W s); [|intros c' cc' Hc'; right; eauto| |done].
    - intros q slq Hq. simpl. destruct (decide (q = p)) as [->|Hne]; [|rewrite lookup_insert_ne by done; eauto]. rewrite lookup_insert_eq. eexists. split; [done|]. simpl. congruence.
    - intros q slq Hq. simpl in Hq. destruct (decide (q = p)) as [->|Hne]; [|rewrite lookup_insert_ne in Hq by done; right; eauto].
      rewrite lookup_insert_eq in Hq. injection Hq as <-. right. by exists sl. }
  assert (erase s1 = add_slab p (strip sl1) (erase s)) as He1 by apply erase_put_slab.
  rewrite wp_bind. eapply (wp_mono _ (λ _ s2, links_ok W s2 ∧ erase s2 = erase s1)).
  { rewrite wp_when. destruct (free_n sl1 =? 0); [|done]. rewrite wp_bind. eapply wp_mono; [by eapply (remove_first_ok W s1)|]. intros [] s2 [Hl2 He2].
    destruct (erase_slab_inv s2 p (strip sl1)) as (sl2 & Hp2 & Hs2); [rewrite He2; apply erase_slab; simpl; by rewrite lookup_insert_eq|].
    destruct (erase_cache_inv s2 c (cstrip cc)) as (cc2 & Hcc2 & _); [rewrite He2; by apply erase_cache|]. rewrite <- He2.
    eapply insert_tail_ok; try done. change (cache (strip sl2) = c). by rewrite <- Hs2. }
  intros [] s2 [Hl2 He2]. destruct (erase_cache_inv s2 c (cstrip cc)) as (cc2 & Hcc2 & Hcs); [rewrite He2; by apply erase_cache|].
  assert (size cc2 = size cc) as Hsz by (change (size (cstrip cc2) = size (cstrip cc)); by rewrite Hcs). assert (pages s2 = pages s) as Hpg2 by (change (pages (erase s2) = pages (erase s)); by rewrite He2, He1).
  rewrite wp_bind, wp_cache_at. exists cc2. split; [done|]. rewrite Hsz. unfold names in Hb. simpl in Hb. unfold taken, note_alloced in Hct |- *. simpl in Hct |- *.
  destruct (size cc <=? SMALL_SLAB_MAX).
  - subst b. rewrite wp_ret. exists o, o. assert (erase s2 = set_caches (<[cache sl:=cstrip cc]> (cstrip <$> caches s)) (add_slab p (strip sl1) (erase s))) as He.
    { rewrite He2, He1. rewrite insert_id; [done|]. by rewrite lookup_fmap, Hc, Hcc. }
    split_and!; [done|done| |exact He]. split; [rewrite He, <- Hc; exact Hct|done|by rewrite Hpg2|done].
  - rewrite wp_bind, wp_cache_set, wp_bind, wp_bufctl_at. assert (bufctls s2 = bufctls s) as Hbs by (change (bufctls (erase s2) = bufctls (erase s)); by rewrite He2, He1).
    exists (Bufctl p o). split; [simpl; by rewrite Hbs|]. rewrite wp_ret. exists o, b. set (s3 := set_caches _ s2).
    assert (erase s3 = set_caches (<[cache sl:=with_alloced (b :: alloced (cstrip cc)) (cstrip cc)]> (cstrip <$> caches s)) (add_slab p (strip sl1) (erase s))) as He.
    { unfold s3. rewrite erase_put_cache, He2, He1, Hc, Hcs. done. }
    split_and!; [done|done| |exact He]. split; [rewrite He, <- Hc; exact Hct| |simpl; by rewrite Hpg2|done].
    eapply (relink W s2); [by intros q slq Hq; eauto|intros c' cc' Hc'; right|intros q slq Hq; right; eauto|done].
    simpl in Hc'. destruct (decide (c' = c)) as [->|Hne]; [rewrite lookup_insert_eq in Hc'; injection Hc' as <-; by exists cc2|rewrite lookup_insert_ne in Hc' by done; eauto].
Qed.

Lemma grows_refl E B s : grows E B s E B s.
Proof. split; try done. intros. congruence. Qed.
Lemma grows_trans E1 B1 s1 E2 B2 s2 E3 B3 s3 : grows E1 B1 s1 E2 B2 s2 → grows E2 B2 s2 E3 B3 s3 → grows E1 B1 s1 E3 B3 s3.
Proof.
  intros [] []. split; try congruence; [by etrans| |by etrans].
  intros p x m H3 H1. destruct (E2 !! p) as [[x' m']|] eqn:H2.
  - pose proof (lookup_weaken _ _ _ _ H2 gr_E1) as H3'. rewrite H3 in H3'. injection H3' as <- <-. eauto.
  - specialize (gr_new1 _ _ _ H3 H2). by eapply lookup_weaken_None.
Qed.

(** A queued slab with a free buffer, [p]. *)
Definition picked (W : option slabp) s (c : Z) (p : slabp) : Prop :=
  ∃ sl cc, slabmap s !! p = Some sl ∧ cache sl = c ∧ W ≠ Some p ∧ free_n sl ≠ 0 ∧ caches s !! c = Some cc ∧ stqh_first (slabs cc) = Some p.
Lemma add_slab_links W s p sl : links_ok W s → slabmap s !! p = None → sqlink sl = None → links_ok W (set_slabmap (<[p := sl]> (slabmap s)) s).
Proof.
  intros Hl Hp Hn. eapply (relink W s); [|intros c cc Hc; right; eauto| |done].
  - intros q slq Hq. exists slq. split; [|done]. simpl. rewrite lookup_insert_ne; [done|]. intros <-. congruence.
  - intros q slq Hq. simpl in Hq. destruct (decide (q = p)) as [->|Hne]; [|rewrite lookup_insert_ne in Hq by done; right; eauto].
    rewrite lookup_insert_eq in Hq. injection Hq as <-. left. rewrite Hn. apply link_none.
Qed.
Lemma queue_new W s c p sl cc : links_ok W s → slabmap s !! p = Some sl → cache sl = c → W ≠ Some p → caches s !! c = Some cc → free_n sl ≠ 0 →
  wp (STAILQ_INSERT_HEAD c p;; mret p) (λ q s', q = p ∧ links_ok W s' ∧ erase s' = erase s ∧ picked W s' c p) s.
Proof.
  intros Hl Hp Hc HW Hcc Hfn. rewrite wp_bind. eapply wp_mono; [by eapply insert_head_ok|]. intros [] s1 (Hl1 & He1 & cc1 & Hcc1 & Hf1). rewrite wp_ret.
  split_and!; [done..|]. destruct (erase_slab_inv s1 p (strip sl)) as (sl1 & Hp1 & Hs1); [rewrite He1; by apply erase_slab|].
  exists sl1, cc1. split_and!; [done| |done| |done|done]; [change (cache (strip sl1) = c)|change (free_n (strip sl1) ≠ 0)]; by rewrite <- Hs1.
Qed.
Lemma small_slab_new_ok W E A B k s c cc flags : kmem_ok W E A B (S k) s → caches s !! c = Some cc → size cc ≤ SMALL_SLAB_MAX →
  wp (small_slab_new c flags) (λ p s', ∃ base, p = InPage base ∧ new_block B base 1 ∧ E !! p = None ∧
    kmem_ok W (<[p := (base, nper (size cc))]> E) A (<[base := 1]> B) k s' ∧ slabmap s' !! p = Some (small_slab c (size cc) base) ∧
    erase s' = add_slab p (small_slab c (size cc) base) (set_pages (pages s') (erase s))) s.
Proof.
  intros [Hok Hlk Hpg HWA] Hcc Hsz. unfold small_slab_new. rewrite wp_bind. unfold in_pages. rewrite wp_zoom. eapply wp_mono; [eapply vm_page_alloc_law, Hpg|].
  intros r p' (base & -> & Hnb & Hpg'). rewrite wp_bind, wp_deref. exists base. split; [done|]. rewrite wp_bind, wp_cache_at. exists cc. split; [done|].
  pose proof (erase_cache _ _ _ Hcc) as Hcce. pose proof (co_size _ _ _ _ _ Hok _ _ Hcce) as Hz. destruct (nper_bounds _ Hz) as [Hn _].
  rewrite wp_bind, wp_slab_set, wp_ret. exists base.
  assert (PGSIZE / size cc = nper (size cc)) as -> by (unfold nper, slab_elems_per; by rewrite (proj2 (Z.leb_le _ _) Hsz)).
  rewrite u16_small by (simpl in Hn; lia). fold (small_slab c (size cc) base).
  pose proof (content_block _ _ _ _ _ _ _ p' Hok Hnb) as Hok'. pose proof (new_block_fresh _ _ _ (co_blocks _ _ _ _ _ Hok) Hnb) as HBn.
  assert (∀ q x m, E !! q = Some (x, m) → x ≠ base) as HE by (intros q x m Hq; exact (fresh_base _ _ _ _ _ _ _ _ _ Hok HBn Hq)).
  destruct (content_small _ _ _ _ _ c (cstrip cc) base Hok' Hcce Hsz) as [Hfr Hnew]; [by rewrite lookup_insert_eq|done| |].
  { intros o Ho. apply (fresh_block _ _ _ _ _ base 1 o Hok Hnb). unfold PGSIZE in *. lia. }
  assert (slabmap s !! InPage base = None) as Hfr' by (simpl in Hfr; rewrite lookup_fmap in Hfr; by apply fmap_None in Hfr).
  split_and!; [done|done| |split|simpl; by rewrite lookup_insert_eq|by rewrite erase_put_slab].
  - destruct (E !! InPage base) as [x|] eqn:HEp; [|done]. destruct (co_E _ _ _ _ _ Hok _ _ HEp) as [sl (? & Hx & _)%erase_slab_inv]. congruence.
  - rewrite erase_put_slab. exact Hnew.
  - apply add_slab_links; [|done|done]. by destruct Hlk.
  - done.
  - done.
Qed.
(** [pick_slab] makes a slab, or finds one. *)
Lemma pick_slab_cases W s nested c cc flags (Q : slabp → kst P → Prop) : links_ok W s → caches s !! c = Some cc →
  wp (p ← (if SMALL_SLAB_MAX <? size cc then large_slab_new nested c flags else small_slab_new c flags); STAILQ_INSERT_HEAD c p;; mret p) Q s →
  (∀ p, picked W s c p → Q p s) → wp (pick_slab nested c flags) Q s.
Proof.
  intros Hlk Hcc Hnew Hold. unfold pick_slab. rewrite wp_bind, wp_cache_at. exists cc. split; [done|]. rewrite wp_bind. destruct (lo_cache _ _ Hlk _ _ Hcc) as [Hf _].
  destruct (stqh_first (slabs cc)) as [p|] eqn:Hfc; [|done]. destruct (Hf p eq_refl) as (HW & sl & Hp & Hc).
  rewrite wp_bind, wp_slab_at. exists sl. split; [done|]. rewrite wp_ret. destruct (Z.eqb_spec (free_n sl) 0); [done|]. rewrite wp_deref. exists p. split; [done|].
  apply Hold. by exists sl, cc.
Qed.
Lemma pick_small_ok W E A B k s nested c cc flags : kmem_ok W E A B (S k) s → caches s !! c = Some cc → size cc ≤ SMALL_SLAB_MAX →
  wp (pick_slab nested c flags) (λ p s', ∃ E' B', kmem_ok W E' A B' k s' ∧ grows E B s E' B' s' ∧ picked W s' c p) s.
Proof.
  intros Hok Hcc Hsz. pose proof Hok as [Hco Hlk Hpg HWA]. eapply pick_slab_cases; [done|done| |].
  { rewrite (proj2 (Z.ltb_ge _ _) Hsz), wp_bind. eapply wp_mono; [by eapply small_slab_new_ok|].
    intros p s1 (base & -> & Hnb & HEn & [Hco1 Hlk1 Hpg1 HWA1] & Hp1 & He1).
    assert (W ≠ Some (InPage base)) as HWb by (intros HW; by destruct (HWA _ HW)).
    assert (caches (erase s1) = caches (erase s)) as Hcs by (by rewrite He1). destruct (erase_cache_inv s1 c (cstrip cc)) as (cc1 & Hcc1 & _); [rewrite Hcs; by apply erase_cache|].
    pose proof (co_size _ _ _ _ _ Hco _ _ (erase_cache _ _ _ Hcc)) as Hz. destruct (nper_bounds _ Hz) as [Hn _].
    eapply wp_mono; [eapply (queue_new W s1 c (InPage base)); try done; simpl in *; lia|]. intros p s2 (-> & Hlk2 & He2 & Hpk). eexists _, _. split_and!; [|split|done].
    - split; [by rewrite He2|done| |done]. by replace (pages s2) with (pages s1) by (change (pages (erase s1) = pages (erase s2)); by rewrite He2).
    - by apply insert_subseteq.
    - intros q x m Hq Hqn. destruct (decide (q = InPage base)) as [->|Hne]; [|rewrite lookup_insert_ne in Hq by done; congruence].
      rewrite lookup_insert_eq in Hq. injection Hq as <- <-. by eapply new_block_fresh; [apply Hco|].
    - apply insert_subseteq. by eapply new_block_fresh; [apply Hco|].
    - intros a. rewrite He2, He1. simpl. by rewrite lookup_insert_ne.
    - by rewrite He2.
    - change (bufctls (erase s2) = bufctls (erase s)). by rewrite He2, He1.
    - change (mags (erase s2) = mags (erase s)). by rewrite He2, He1.
    - change (data (erase s2) = data (erase s)). by rewrite He2, He1. }
  intros p Hp. exists E, B. split_and!; [split; [done|done|by eapply holds_weaken; [|apply Nat.le_succ_diag_r]|done]|apply grows_refl|done].
Qed.

(** ** Small caches *)
Lemma small_in_page W E A B s p sl cc : content_ok W E A B (erase s) → slabmap s !! p = Some sl → caches s !! cache sl = Some cc → size cc ≤ SMALL_SLAB_MAX → ∃ base, p = InPage base.
Proof.
  intros Hok Hp Hcc Hsz. destruct (co_slab _ _ _ _ _ Hok _ _ (erase_slab _ _ _ Hp)) as (cce & base & m & os & Hso).
  pose proof (so_cache _ _ _ _ _ _ _ _ _ _ Hso) as Hx. simpl in Hx. rewrite lookup_fmap, Hcc in Hx. injection Hx as <-.
  pose proof (so_kind _ _ _ _ _ _ _ _ _ _ Hso) as Hk. simpl in Hk. rewrite (proj2 (Z.leb_le _ _) Hsz) in Hk. eauto.
Qed.
Lemma alloc_small_ok W E A B k s nested c cc flags : kmem_ok W E A B (S k) s → caches s !! c = Some cc → size cc ≤ SMALL_SLAB_MAX →
  wp (kmem_slablayer_alloc nested c flags) (λ r s', ∃ o E' B', r = Some o ∧ A !! o = None ∧ kmem_ok W E' (<[o := c]> A) B' k s' ∧ grows E B s E' B' s') s.
Proof.
  intros Hok Hcc Hsz. unfold kmem_slablayer_alloc. rewrite wp_bind. eapply wp_mono; [by eapply pick_small_ok|].
  intros p s1 (E1 & B1 & Hok1 & Hgr & (sl & cc1 & Hp & Hc & HW & Hfn & Hcc1 & Hf)).
  assert (cstrip cc1 = cstrip cc) as Hcs. { pose proof (erase_cache _ _ _ Hcc1) as Hx. rewrite (gr_caches _ _ _ _ _ _ Hgr), (erase_cache _ _ _ Hcc) in Hx. congruence. }
  assert (size cc1 ≤ SMALL_SLAB_MAX) as Hsz1 by (change (size (cstrip cc1) ≤ SMALL_SLAB_MAX); by rewrite Hcs).
  destruct (small_in_page _ _ _ _ _ _ _ _ (ko_content _ _ _ _ _ _ Hok1) Hp ltac:(by rewrite Hc) Hsz1) as [base ->].
  eapply wp_mono; [by eapply (take_buf_ok W E1)|]. intros r s2 (o & b & -> & Ho & Hok2 & He2). exists o, E1, B1. split_and!; [done|done|done|].
  eapply grows_trans; [done|]. split; try done.
  - intros; congruence.
  - intros a. rewrite He2. simpl. by rewrite lookup_insert_ne.
  - rewrite He2. unfold taken, note_alloced. simpl. rewrite (proj2 (Z.leb_le _ _) Hsz1). apply insert_id. rewrite lookup_fmap, Hc, Hcc1. done.
  - change (bufctls (erase s2) = bufctls (erase s1)). by rewrite He2.
  - change (mags (erase s2) = mags (erase s1)). by rewrite He2.
  - change (data (erase s2) = data (erase s1)). by rewrite He2.
Qed.
(** The caches of control structures are small, without magazines. *)
Lemma nested_ok W E A B k s d cpu c flags : kmem_ok W E A B (S k) s → c = kmem_bufctl_cache ∨ c = kmem_slab_cache →
  wp (cache_alloc_at d cpu c flags) (λ r s', ∃ o E' B', r = Some o ∧ A !! o = None ∧ kmem_ok W E' (<[o := c]> A) B' k s' ∧ grows E B s E' B' s') s.
Proof.
  intros Hok Hc. assert (∃ cc, caches s !! c = Some cc ∧ size cc ≤ SMALL_SLAB_MAX ∧ use_magazines cc = false) as (cc & Hcc & Hsz & Hu).
  { pose proof (ko_content _ _ _ _ _ _ Hok) as Hco. destruct Hc as [->| ->].
    - destruct (co_bufctl_cache _ _ _ _ _ Hco) as (cce & (cc & Hcc & ->)%erase_cache_inv & Hsz & Hu). exists cc. simpl in *. rewrite Hsz. done.
    - destruct (co_slab_cache _ _ _ _ _ Hco) as (cce & (cc & Hcc & ->)%erase_cache_inv & Hsz & Hu). exists cc. simpl in *. rewrite Hsz. done. }
  destruct d as [|d]; simpl; unfold cache_alloc_with; rewrite wp_bind, wp_cache_at; exists cc; (split; [done|]); rewrite Hu; by eapply alloc_small_ok.
Qed.

(** ** Large caches *)

(** What allocation leaves of a cache; and the buffers it may take besides its result. *)
Definition core (cc : kmem_cache) : kmem_cache := with_alloced [] (cstrip cc).
Record kept s s' : Prop := {
  ke_caches : core <$> caches s' = core <$> caches s;
  ke_mags : mags s' = mags s;
  ke_data : data s' = data s
}.
Definition control (A A' : gmap Z Z) : Prop := A ⊆ A' ∧ ∀ x c, A' !! x = Some c → A !! x = None → c = kmem_bufctl_cache ∨ c = kmem_slab_cache.
Lemma kept_trans s1 s2 s3 : kept s1 s2 → kept s2 s3 → kept s1 s3.
Proof. intros [] []. split; congruence. Qed.
Lemma core_erase s : core <$> caches (erase s) = core <$> caches s.
Proof. simpl. rewrite <- map_fmap_compose. by apply map_fmap_ext. Qed.
Lemma grows_kept E B s E' B' s' : grows E B s E' B' s' → kept s s'.
Proof. intros Hgr. split; [|apply Hgr..]. by rewrite <- (core_erase s'), <- (core_erase s), (gr_caches _ _ _ _ _ _ Hgr). Qed.
Lemma control_trans A1 A2 A3 : control A1 A2 → control A2 A3 → control A1 A3.
Proof.
  intros [H1 K1] [H2 K2]. split; [by etrans|]. intros x c H3 Hn. destruct (A2 !! x) as [c'|] eqn:Hx; [|by eapply K2].
  pose proof (lookup_weaken _ _ _ _ Hx H2) as Hx'. rewrite H3 in Hx'. injection Hx' as <-. by eapply K1.
Qed.
Lemma control_insert A o c : A !! o = None → c = kmem_bufctl_cache ∨ c = kmem_slab_cache → control A (<[o := c]> A).
Proof.
  intros Ho Hc. split; [by apply insert_subseteq|]. intros x c' Hx Hn. destruct (decide (x = o)) as [->|Hne]; [rewrite lookup_insert_eq in Hx; by injection Hx as <-|].
  rewrite lookup_insert_ne in Hx by done. congruence.
Qed.
Lemma kept_refl s : kept s s.
Proof. done. Qed.
Lemma control_refl A : control A A.
Proof. split; [done|]. intros. congruence. Qed.
(** Slabs keep their blocks; new ones lie in new blocks. *)
Definition spread E B E' B' : Prop := B ⊆ B' ∧ ∀ p x m, E' !! p = Some (x, m) → (∃ m', E !! p = Some (x, m')) ∨ B !! x = None.
Lemma spread_refl E B : spread E B E B.
Proof. split; [done|eauto]. Qed.
Lemma spread_trans E1 B1 E2 B2 E3 B3 : spread E1 B1 E2 B2 → spread E2 B2 E3 B3 → spread E1 B1 E3 B3.
Proof.
  intros [H1 K1] [H2 K2]. split; [by etrans|]. intros p x m H3. destruct (K2 _ _ _ H3) as [(m' & H2')|Hn]; [by eapply K1|]. right. by eapply lookup_weaken_None.
Qed.
Lemma grows_spread E B s E' B' s' : grows E B s E' B' s' → spread E B E' B'.
Proof.
  intros Hgr. split; [apply Hgr|]. intros p x m Hp. destruct (E !! p) as [[x' m']|] eqn:HE; [left|right; by eapply gr_new].
  pose proof (lookup_weaken _ _ _ _ HE (gr_E _ _ _ _ _ _ Hgr)) as Hp'. rewrite Hp in Hp'. injection Hp' as <- <-. eauto.
Qed.
Lemma grows_slab W E A B k s E' B' s' a c cc base m sl : kmem_ok W E A B k s → grows E B s E' B' s' → a_slab E (erase s) (At a) c cc base m → slabmap s !! At a = Some sl →
  a_slab E' (erase s') (At a) c cc base m ∧ ∃ sl', slabmap s' !! At a = Some sl' ∧ strip sl' = strip sl.
Proof.
  intros Hok Hgr (sle & Hsle & Hc & Hcc & HE) Hsl. split.
  - exists sle. split_and!; [by rewrite (gr_slabs _ _ _ _ _ _ Hgr)|done|by rewrite (gr_caches _ _ _ _ _ _ Hgr)|]. by eapply lookup_weaken; [|apply Hgr].
  - apply erase_slab in Hsl. rewrite <- (gr_slabs _ _ _ _ _ _ Hgr) in Hsl. apply erase_slab_inv in Hsl as (sl' & ? & ?). eauto.
Qed.
(** A control structure [b] for buffer number [m] of the slab at [a]. *)
Lemma put_bufctl_ok E A B k s a c cc base m sl b : kmem_ok (Some (At a)) E A B k s → a_slab E (erase s) (At a) c cc base m → slabmap s !! At a = Some sl →
  SMALL_SLAB_MAX < size cc → m < nper (size cc) → bufctls s !! b = None → A !! b = Some kmem_bufctl_cache →
  let s1 := set_bufctls (<[b := Bufctl (At a) (base + m * size cc)]> (bufctls s)) s in
  let sl' := with_free (free_n sl) (alloced_n sl) (b :: sfree sl) sl in
  let s2 := set_slabmap (<[At a := sl']> (slabmap s1)) s1 in
  kmem_ok (Some (At a)) (<[At a := (base, m + 1)]> E) A B k s2 ∧ a_slab (<[At a := (base, m + 1)]> E) (erase s2) (At a) c cc base (m + 1) ∧ kept s s2.
Proof.
  intros [Hok Hlk Hpg HWA] Ha Hsl Hsz Hm Hb HAb s1 sl' s2. destruct (a_slab_ok _ _ _ _ _ _ _ _ _ _ Hok Ha) as (sle & os & Hsle & Hc & Hso).
  rewrite (erase_slab _ _ _ Hsl) in Hsle. injection Hsle as <-. destruct (content_add_bufctl a E A B _ _ cc base m os b Hok (erase_slab _ _ _ Hsl) Hso Hsz Hm Hb HAb) as [Hok2 Hso2].
  assert (erase s2 = add_bufctl (At a) (strip sl) b (base + m * size cc) (erase s)) as He by (unfold s2; by rewrite erase_put_slab).
  split_and!; [split; [by rewrite He| |done|done]|rewrite He|done].
  - eapply (relink _ s); [|intros c' cc' Hc'; right; eauto| |done].
    + intros q slq Hq. simpl. destruct (decide (q = At a)) as [->|Hne]; [|rewrite lookup_insert_ne by done; eauto]. rewrite lookup_insert_eq. eexists. split; [done|]. simpl. congruence.
    + intros q slq Hq. simpl in Hq. destruct (decide (q = At a)) as [->|Hne]; [|rewrite lookup_insert_ne in Hq by done; right; eauto].
      rewrite lookup_insert_eq in Hq. injection Hq as <-. right. by exists sl.
  - eexists. simpl. rewrite !lookup_insert_eq. split_and!; [done|done| |done]. destruct Ha as (? & _ & _ & Hcc & _). exact Hcc.
Qed.
Lemma new_bufctls_ok n d cpu flags a c cc base : size_ok (size cc) → SMALL_SLAB_MAX < size cc → 0 < base → base + slab_size (size cc) < 2 ^ 64 → ∀ s E A B k m sl,
  kmem_ok (Some (At a)) E A B (n + k) s → a_slab E (erase s) (At a) c cc base m → slabmap s !! At a = Some sl → 0 ≤ m → m + Z.of_nat n = nper (size cc) →
  wp (new_bufctls (cache_alloc_at d cpu) n m base (size cc) (At a) flags) (λ _ s', ∃ E' A' B' sl', kmem_ok (Some (At a)) E' A' B' k s' ∧
    a_slab E' (erase s') (At a) c cc base (nper (size cc)) ∧ slabmap s' !! At a = Some sl' ∧ length (sfree sl') = (length (sfree sl) + n)%nat ∧
    free_n sl' = free_n sl ∧ alloced_n sl' = alloced_n sl ∧ kept s s' ∧ control A A' ∧ spread E B E' B') s.
Proof.
  intros Hz Hsz Hb0 Hb1. induction n as [|n IH]; intros s E A B k m sl Hok Ha Hsl Hm0 Hm; simpl.
  - rewrite wp_ret. exists E, A, B, sl. replace (nper (size cc)) with m by lia. split_and!; [done..|lia|done|done|done|apply control_refl|apply spread_refl].
  - rewrite wp_bind. eapply wp_mono; [eapply nested_ok; [done|by left]|]. intros r s1 (b & E1 & B1 & -> & HAb & Hok1 & Hgr).
    rewrite wp_bind, wp_deref. exists b. split; [done|]. destruct (grows_slab _ _ _ _ _ _ _ _ _ _ _ _ _ _ _ Hok Hgr Ha Hsl) as (Ha1 & sl1 & Hsl1 & Hst).
    destruct (nper_bounds _ Hz) as [Hn Hnz]. assert (0 ≤ m * size cc < slab_size (size cc)) as Hms by (unfold size_ok in Hz; nia).
    rewrite wp_bind, wp_modify, wp_bind, wp_slab_at. exists sl1. split; [done|]. rewrite wp_bind, wp_slab_set, u64_small by lia.
    assert (bufctls s1 !! b = None) as Hbn.
    { rewrite (gr_bufctls _ _ _ _ _ _ Hgr). destruct (bufctls s !! b) as [x|] eqn:Hx; [|done]. pose proof (co_bufctl_meta _ _ _ _ _ (ko_content _ _ _ _ _ _ Hok) _ _ Hx). congruence. }
    destruct (put_bufctl_ok _ _ _ _ _ _ _ _ _ _ _ b Hok1 Ha1 Hsl1 Hsz ltac:(lia) Hbn ltac:(by rewrite lookup_insert_eq)) as (Hok2 & Ha2 & Hk2).
    eapply wp_mono; [eapply (IH _ _ _ _ k (m + 1) _ Hok2 Ha2); [simpl; by rewrite lookup_insert_eq|lia|lia]|].
    intros [] s3 (E3 & A3 & B3 & sl3 & Hok3 & Ha3 & Hsl3 & Hlen & Hf & Hal & Hk3 & Hc3 & Hsp3). exists E3, A3, B3, sl3. simpl in *.
    assert (sfree sl1 = sfree sl ∧ free_n sl1 = free_n sl ∧ alloced_n sl1 = alloced_n sl) as (Hs1 & Hs2 & Hs3) by (by injection Hst as ? ? ? ?).
    split_and!; [done|done|done|rewrite Hlen, Hs1; lia|congruence|congruence|..].
    + eapply kept_trans; [by eapply grows_kept|]. by eapply kept_trans.
    + eapply control_trans; [|done]. by apply control_insert; [|left].
    + eapply spread_trans; [by eapply grows_spread|]. eapply spread_trans; [|exact Hsp3]. split; [done|]. intros q x j Hq. left. destruct (decide (q = At a)) as [->|Hne].
      * rewrite lookup_insert_eq in Hq. injection Hq as <- <-. destruct Ha1 as (? & _ & _ & _ & ?). eauto.
      * rewrite lookup_insert_ne in Hq by done. eauto.
Qed.
Lemma links_unmark W s : links_ok W s → links_ok None s.
Proof. intros [Hc Hs]. assert (∀ c q, link_ok W s c q → link_ok None s c q) as Hl by (intros c q Hq p Hp; by destruct (Hq p Hp)). split; [intros c cc Hcc; destruct (Hc _ _ Hcc); eauto|eauto]. Qed.
Lemma links_mark s p : links_ok None s → slabmap s !! p = None → links_ok (Some p) s.
Proof.
  intros [Hc Hs] Hp. assert (∀ c q, link_ok None s c q → link_ok (Some p) s c q) as Hl by (intros c q Hq r Hr; destruct (Hq r Hr) as (_ & sl & ? & ?); split; [congruence|eauto]).
  split; [intros c cc Hcc; destruct (Hc _ _ Hcc); eauto|eauto].
Qed.
Lemma large_start_ok E A B B0 k s E0 a c cc base : kmem_ok None E A B k s → caches s !! c = Some cc → SMALL_SLAB_MAX < size cc → slabmap s !! At a = None → A !! a = Some kmem_slab_cache →
  B !! base = Some (slab_size (size cc) / PGSIZE) → B0 !! base = Some (slab_size (size cc) / PGSIZE) →
  (∀ q x m, E0 !! q = Some (x, m) → x ≠ base) → E0 ⊆ E → (∀ q x m, E !! q = Some (x, m) → E0 !! q = None → B0 !! x = None) →
  let s' := set_slabmap (<[At a := large_slab c (size cc)]> (slabmap s)) s in
  kmem_ok (Some (At a)) (<[At a := (base, 0)]> E) A B k s' ∧ a_slab (<[At a := (base, 0)]> E) (erase s') (At a) c (cstrip cc) base 0.
Proof.
  intros [Hok Hlk Hpg _] Hcc Hsz Hfr HA HB HB0 HE0 Hsub Hnew s'. assert (erase s' = add_slab (At a) (large_slab c (size cc)) (erase s)) as He by apply erase_put_slab.
  split; [split|].
  - rewrite He. apply (content_large _ _ _ _ c (cstrip cc)); try done; [by apply erase_cache| |by simpl; rewrite lookup_fmap, Hfr].
    intros q x m Hq. destruct (E0 !! q) as [y|] eqn:Hy.
    + pose proof (lookup_weaken _ _ _ _ Hy Hsub) as Hq'. rewrite Hq in Hq'. injection Hq' as <-. by eapply HE0.
    + specialize (Hnew _ _ _ Hq Hy). intros ->. congruence.
  - apply add_slab_links; [by apply links_mark|done|done].
  - done.
  - intros p [= <-]. eauto.
  - rewrite He. eexists. simpl. rewrite !lookup_insert_eq. split_and!; [done|done|by rewrite lookup_fmap, Hcc|done].
Qed.
Definition slab_pages (z : Z) : nat := Z.to_nat (slab_size z / PGSIZE).
Lemma large_slab_new_ok E A B k s d cpu c cc flags : kmem_ok None E A B (slab_pages (size cc) + S (Z.to_nat (nper (size cc)) + k)) s →
  caches s !! c = Some cc → SMALL_SLAB_MAX < size cc →
  wp (large_slab_new (cache_alloc_at d cpu) c flags) (λ p s', ∃ E' A' B' sl, kmem_ok None E' A' B' k s' ∧ slabmap s' !! p = Some sl ∧ cache sl = c ∧ free_n sl ≠ 0 ∧
    kept s s' ∧ control A A' ∧ spread E B E' B') s.
Proof.
  intros Hok Hcc Hsz. pose proof Hok as [Hco Hlk Hpg HWA]. pose proof (co_size _ _ _ _ _ Hco _ _ (erase_cache _ _ _ Hcc)) as Hz. simpl in Hz.
  destruct (nper_bounds _ Hz) as [Hn Hnz]. destruct (slab_size_pages _ Hz) as [Hpgs Hpg0].
  unfold large_slab_new. rewrite wp_bind, wp_cache_at. exists cc. split; [done|]. rewrite wp_bind. unfold in_pages. rewrite wp_zoom.
  eapply wp_mono; [eapply (vm_kalloc_law _ B (S (Z.to_nat (nper (size cc)) + k))); [done|exact Hpg]|]. intros base p' [Hnb Hpg'].
  pose proof (new_block_fresh _ _ _ (co_blocks _ _ _ _ _ Hco) Hnb) as HBn.
  assert (∀ q x m, E !! q = Some (x, m) → x ≠ base) as HE by (intros q x m Hq; exact (fresh_base _ _ _ _ _ _ _ _ _ Hco HBn Hq)).
  set (s1 := set_pages p' s). assert (kmem_ok None E A (<[base := slab_size (size cc) / PGSIZE]> B) (S (Z.to_nat (nper (size cc)) + k)) s1) as Hok1.
  { split; [exact (content_block _ _ _ _ _ _ _ p' Hco Hnb)|by destruct Hlk|done|done]. }
  rewrite wp_bind. eapply wp_mono; [eapply nested_ok; [exact Hok1|by right]|]. intros r s2 (a & E2 & B2 & -> & HAa & Hok2 & Hgr). rewrite wp_bind, wp_deref. exists a. split; [done|].
  assert (slab_elems_per (size cc) = nper (size cc)) as -> by done. rewrite u16_small by lia. fold (large_slab c (size cc)).
  assert (slabmap s2 !! At a = None) as Hfr.
  { destruct (slabmap s2 !! At a) as [x|] eqn:Hx; [|done]. apply erase_slab in Hx. rewrite (gr_slabs _ _ _ _ _ _ Hgr) in Hx. pose proof (co_slab_meta _ _ _ _ _ Hco _ _ Hx). congruence. }
  destruct (erase_cache_inv s2 c (cstrip cc)) as (cc2 & Hcc2 & Hcs); [rewrite (gr_caches _ _ _ _ _ _ Hgr); by apply erase_cache|].
  assert (size cc = size cc2) as Hszz by (change (size (cstrip cc) = size (cstrip cc2)); by rewrite Hcs). rewrite Hszz in *.
  destruct (large_start_ok _ _ _ (<[base := slab_size (size cc2) / PGSIZE]> B) _ s2 E a c cc2 base Hok2 Hcc2 Hsz Hfr ltac:(by rewrite lookup_insert_eq)) as [Hok3 Ha3];
    [by eapply lookup_weaken; [rewrite lookup_insert_eq|apply Hgr]|by rewrite lookup_insert_eq|done|apply Hgr|apply Hgr|].
  rewrite wp_bind, wp_slab_set, wp_bind. destruct Hnb as (Hb0 & _ & _ & Hb1 & _). rewrite Hpgs in Hb1.
  eapply wp_mono; [eapply (new_bufctls_ok _ d cpu flags a c (cstrip cc2) base Hz Hsz Hb0 Hb1 _ _ _ _ k 0 _ Hok3 Ha3); [simpl; by rewrite lookup_insert_eq|lia|simpl; lia]|].
  intros [] s4 (E4 & A4 & B4 & sl4 & Hok4 & Ha4 & Hsl4 & Hlen & Hf4 & Hal4 & Hk4 & Hc4 & Hsp4). rewrite wp_ret. exists E4, A4, B4, sl4. simpl in Hlen, Hf4, Hal4.
  destruct (a_slab_ok _ _ _ _ _ _ _ _ _ _ (ko_content _ _ _ _ _ _ Hok4) Ha4) as (sle & os & Hsle & Hce & Hso). rewrite (erase_slab _ _ _ Hsl4) in Hsle. injection Hsle as <-.
  split_and!; [split|done|exact Hce|rewrite Hf4; lia|..].
  - eapply content_done; [apply Hok4|by apply erase_slab|exact Hso|done|done|]. rewrite <- (Forall2_length _ _ _ (so_names _ _ _ _ _ _ _ _ _ _ Hso)). simpl. lia.
  - eapply links_unmark, Hok4.
  - apply Hok4.
  - done.
  - eapply kept_trans; [|exact Hk4]. apply grows_kept in Hgr as []. by split.
  - eapply control_trans; [|exact Hc4]. by apply control_insert; [|right].
  - eapply spread_trans; [|exact Hsp4]. destruct (spread_trans E B E (<[base := slab_size (size cc2) / PGSIZE]> B) E2 B2) as [Hs1 Hs2];
      [split; [by apply insert_subseteq|eauto]|by eapply grows_spread|].
    split; [done|]. intros q x j Hq. destruct (decide (q = At a)) as [->|Hne]; [|rewrite lookup_insert_ne in Hq by done; by eapply Hs2].
    rewrite lookup_insert_eq in Hq. injection Hq as <- <-. by right.
Qed.

(** ** The slab layer as a whole *)

(** The pages an allocation may need. *)
Definition need (z : Z) : nat := if z <=? SMALL_SLAB_MAX then 1 else slab_pages z + S (Z.to_nat (nper z)).
Lemma kept_cache s s' c cc : kept s s' → caches s !! c = Some cc → ∃ cc', caches s' !! c = Some cc' ∧ core cc' = core cc.
Proof.
  intros Hk Hc. assert ((core <$> caches s') !! c = Some (core cc)) as Hx by (by rewrite (ke_caches _ _ Hk), lookup_fmap, Hc).
  rewrite lookup_fmap in Hx. apply fmap_Some in Hx as (cc' & Hcc' & ->). eauto.
Qed.
Lemma taken_kept s s' p sl cc b : caches s !! cache sl = Some cc → erase s' = taken p (strip sl) (cstrip cc) b (erase s) → kept s s'.
Proof.
  intros Hcc He. split.
  - rewrite <- (core_erase s'), He. unfold taken. simpl. rewrite fmap_insert, <- (core_erase s). rewrite insert_id; [done|]. simpl. rewrite !lookup_fmap, Hcc. simpl. f_equal.
    unfold note_alloced. by destruct (size (cstrip cc) <=? SMALL_SLAB_MAX).
  - change (mags (erase s') = mags (erase s)). by rewrite He.
  - change (data (erase s') = data (erase s)). by rewrite He.
Qed.
Lemma slab_alloc_ok E A B k s d cpu c cc flags : kmem_ok None E A B (need (size cc) + k) s → caches s !! c = Some cc →
  wp (kmem_slablayer_alloc (cache_alloc_at d cpu) c flags) (λ r s', ∃ o E' A' B', r = Some o ∧ A' !! o = None ∧ control A A' ∧
    kmem_ok None E' (<[o := c]> A') B' k s' ∧ kept s s' ∧ spread E B E' B') s.
Proof.
  intros Hok Hcc. unfold need in Hok. destruct (Z.leb_spec (size cc) SMALL_SLAB_MAX) as [Hsz|Hsz].
  { eapply wp_mono; [by eapply alloc_small_ok|]. intros r s' (o & E' & B' & -> & Ho & Hok' & Hgr). exists o, E', A, B'. split_and!; [done..|apply control_refl|done|by eapply grows_kept|by eapply grows_spread]. }
  assert (wp (pick_slab (cache_alloc_at d cpu) c flags) (λ p s', ∃ E' A' B', kmem_ok None E' A' B' k s' ∧ picked None s' c p ∧ kept s s' ∧ control A A' ∧ spread E B E' B') s) as Hpick.
  - pose proof Hok as [Hco Hlk Hpg HWA]. eapply pick_slab_cases; [done|done| |].
    { rewrite (proj2 (Z.ltb_lt _ _) Hsz), wp_bind. eapply wp_mono; [eapply large_slab_new_ok; [|done..]|].
      { by replace (slab_pages (size cc) + S (Z.to_nat (nper (size cc)) + k))%nat with (slab_pages (size cc) + S (Z.to_nat (nper (size cc))) + k)%nat by lia. }
      intros p s1 (E1 & A1 & B1 & sl & [Hco1 Hlk1 Hpg1 HWA1] & Hsl & Hc & Hfn & Hk1 & Hc1 & Hsp1). destruct (kept_cache _ _ _ _ Hk1 Hcc) as (cc1 & Hcc1 & _).
      eapply wp_mono; [by eapply (queue_new None s1 c p)|]. intros q s2 (-> & Hlk2 & He2 & Hpk). exists E1, A1, B1. split_and!; [split|done|..|done|done].
      - by rewrite He2.
      - done.
      - by replace (pages s2) with (pages s1) by (change (pages (erase s1) = pages (erase s2)); by rewrite He2).
      - done.
      - eapply kept_trans; [done|]. split; [by rewrite <- (core_erase s2), He2, core_erase|change (mags (erase s2) = mags (erase s1)); by rewrite He2|change (data (erase s2) = data (erase s1)); by rewrite He2]. }
    intros p Hp. exists E, A, B. split_and!; [split; [done|done|eapply holds_weaken; [done|lia]|done]|done|done|apply control_refl|apply spread_refl].
  - unfold kmem_slablayer_alloc. rewrite wp_bind. eapply wp_mono; [exact Hpick|]. intros p s1 (E1 & A1 & B1 & Hok1 & (sl & cc1 & Hp & Hc & HW & Hfn & Hcc1 & Hf) & Hk1 & Hc1 & Hsp1).
    eapply wp_mono; [by eapply (take_buf_ok None E1)|]. intros r s2 (o & b & -> & Ho & Hok2 & He2). exists o, E1, A1, B1. split_and!; [done..| |done].
    eapply kept_trans; [done|]. eapply taken_kept; [|done]. by rewrite Hc.
Qed.

(** ** Freeing *)

Lemma find_bufctl_ok s (l : list Z) (os : list Z) o : Forall2 (λ b x, ∃ p, bufctls s !! b = Some (Bufctl p x)) l os → o ∈ os →
  wp (find_bufctl l o) (λ b s', s' = s ∧ b ∈ l ∧ ∃ p, bufctls s !! b = Some (Bufctl p o)) s.
Proof.
  induction 1 as [|b x l os (p & Hb) Hl IH]; [by intros ?%elem_of_nil|]. intros Ho. simpl. rewrite wp_bind, wp_bufctl_at. eexists. split; [done|]. simpl.
  destruct (Z.eqb_spec x o) as [->|Hne]; [rewrite wp_ret; split_and!; [done|by left|eauto]|]. apply elem_of_cons in Ho as [->|Ho]; [done|].
  eapply wp_mono; [by apply IH|]. intros b' s' (-> & Hb' & Hp). split_and!; [done|by right|done].
Qed.
(** Giving buffer [b], which stands for [o], back to slab [p]. *)
Lemma give_ok E A B k s s1 p sl cc b o l : kmem_ok None E A B k s → slabmap s !! p = Some sl → caches s !! cache sl = Some cc → A !! o = Some (cache sl) →
  (∃ base m, a_slab E (erase s) p (cache sl) (cstrip cc) base m ∧ grid (size cc) base m o) → names s (size cc) p b o →
  cache sl ≠ kmem_slab_cache → cache sl ≠ kmem_bufctl_cache → (SMALL_SLAB_MAX < size cc → alloced cc ≡ₚ b :: l) →
  links_ok None s1 → slabmap s1 = slabmap s → erase s1 = set_caches (<[cache sl := with_alloced l (cstrip cc)]> (caches (erase s))) (erase s) →
  wp (x ← slab_at p;
      slab_set p (with_free (u16 (free_n x + 1)) (u16 (alloced_n x - 1)) (b :: sfree x) x);;
      when (u16 (free_n x + 1) =? 1) (STAILQ_INSERT_HEAD (cache sl) p))
    (λ _ s', kmem_ok None E (delete o A) B k s' ∧ kept s s') s1.
Proof.
  intros [Hok Hlk Hpg HWA] Hp Hcc HA (base & m & Ha & Hg) Hb Hn1 Hn2 Hl Hlk1 Hsm He1. destruct (a_slab_ok _ _ _ _ _ _ _ _ _ _ Hok Ha) as (sle & os & Hsle & _ & Hso).
  rewrite (erase_slab _ _ _ Hp) in Hsle. injection Hsle as <-.
  pose proof (content_give None E A B (erase s) p (strip sl) (cstrip cc) base m b o os l Hok (erase_slab _ _ _ Hp) ltac:(done) Hso Hg HA Hb Hn1 Hn2 Hl) as Hok2.
  rewrite wp_bind, wp_slab_at. exists sl. split; [by rewrite Hsm|]. rewrite wp_bind, wp_slab_set. set (sl2 := with_free _ _ _ _). set (s2 := set_slabmap _ s1).
  assert (erase s2 = given p (strip sl) l (cstrip cc) b (erase s)) as He2 by (unfold s2; rewrite erase_put_slab, He1; done).
  assert (links_ok None s2) as Hlk2.
  { eapply (relink None s1); [|intros c' cc' Hc'; right; eauto| |done].
    - intros q slq Hq. simpl. destruct (decide (q = p)) as [->|Hne]; [|rewrite lookup_insert_ne by done; eauto]. rewrite lookup_insert_eq. eexists. split; [done|]. simpl. congruence.
    - intros q slq Hq. simpl in Hq. destruct (decide (q = p)) as [->|Hne]; [|rewrite lookup_insert_ne in Hq by done; right; eauto].
      rewrite lookup_insert_eq in Hq. injection Hq as <-. right. exists sl. by rewrite Hsm. }
  assert (∀ s3, links_ok None s3 → erase s3 = erase s2 → kmem_ok None E (delete o A) B k s3 ∧ kept s s3) as Hend.
  { intros s3 Hlk3 He3. rewrite He2 in He3. split; [split; [by rewrite He3|done| |done]|split].
    - by replace (pages s3) with (pages s) by (change (pages (erase s) = pages (erase s3)); by rewrite He3).
    - rewrite <- (core_erase s3), He3. unfold given. simpl. rewrite fmap_insert, <- (core_erase s). rewrite insert_id; [done|]. simpl. by rewrite !lookup_fmap, Hcc.
    - change (mags (erase s3) = mags (erase s)). by rewrite He3.
    - change (data (erase s3) = data (erase s)). by rewrite He3. }
  rewrite wp_when. destruct (u16 (free_n sl + 1) =? 1); [|by apply Hend].
  destruct (erase_cache_inv s2 (cache sl) (with_alloced l (cstrip cc))) as (cc2 & Hcc2 & _); [rewrite He2; simpl; by rewrite lookup_insert_eq|].
  eapply wp_mono; [eapply (insert_head_ok None s2 (cache sl) p sl2); try done; simpl; by rewrite lookup_insert_eq|]. intros [] s3 (Hlk3 & He3 & _). by apply Hend.
Qed.
Lemma slab_free_ok E A B k s c cc o : kmem_ok None E A B k s → A !! o = Some c → caches s !! c = Some cc → c ≠ kmem_slab_cache → c ≠ kmem_bufctl_cache →
  wp (kmem_slablayer_free c o) (λ _ s', kmem_ok None E (delete o A) B k s' ∧ kept s s') s.
Proof.
  intros Hok HA Hcc Hn1 Hn2. pose proof Hok as [Hco Hlk Hpg HWA]. destruct (co_A _ _ _ _ _ Hco _ _ HA) as (p & cce & base & m & Ha & Hg).
  pose proof Ha as (sle & Hsle & Hc & Hcce & HE). apply erase_slab_inv in Hsle as (sl & Hsl & ->). rewrite (erase_cache _ _ _ Hcc) in Hcce. injection Hcce as <-.
  pose proof (co_size _ _ _ _ _ Hco _ _ (erase_cache _ _ _ Hcc)) as Hz. change (cache sl = c) in Hc. subst c. pose proof (a_slab_m _ _ _ _ _ _ _ _ _ _ Hco Ha) as Hm.
  unfold kmem_slablayer_free. rewrite wp_bind, wp_cache_at. exists cc. split; [done|]. rewrite wp_bind. destruct (Z.leb_spec (size cc) SMALL_SLAB_MAX) as [Hs|Hs].
  - destruct (small_in_page _ _ _ _ _ _ _ _ Hco Hsl Hcc Hs) as [x ->]. rewrite wp_ret. simpl.
    assert (x = base) as ->.
    { destruct (a_slab_ok _ _ _ _ _ _ _ _ _ _ Hco Ha) as (? & os & _ & _ & Hso). pose proof (so_kind _ _ _ _ _ _ _ _ _ _ Hso) as Hk. simpl in Hk.
      rewrite (proj2 (Z.leb_le _ _) Hs) in Hk. by injection Hk. }
    assert (o / PGSIZE * PGSIZE = base) as ->.
    { pose proof (grid_within _ _ _ _ Hz Hm Hg) as Hin. simpl in Hin, Hz. rewrite small_size in Hin by done. unfold size_ok in Hz.
      destruct (co_blocks _ _ _ _ _ Hco _ _ (co_block _ _ _ _ _ Hco _ _ _ _ _ Ha)) as (Hb0 & _ & Hb1 & _). unfold PGSIZE in *.
      apply Z.div_exact in Hb1; [|lia].
      assert (base / 4096 = o / 4096) as <- by (apply (Z.div_unique _ _ _ (o - base)); lia). lia. }
    eapply (give_ok E A B k s s (InPage base) sl cc o o (alloced cc)); try done; [eauto|unfold names; by rewrite (proj2 (Z.leb_le _ _) Hs)|lia|].
    symmetry. apply set_caches_id. exact (erase_cache _ _ _ Hcc).
  - destruct (co_large _ _ _ _ _ Hco _ _ (erase_cache _ _ _ Hcc) Hs) as (os & Hos & Hnd & HAo). rewrite wp_bind.
    eapply wp_mono; [eapply (find_bufctl_ok s (alloced cc) os)|].
    { eapply Forall2_impl; [exact Hos|]. intros b x (q & ? & ? & ? & Hb & _). eauto. }
    { by apply HAo. }
    intros b ? (-> & Hb & q & Hbq). destruct (q_remove_elem b (alloced cc) Hb) as [l Hl]. rewrite wp_bind, wp_deref. exists l. split; [done|]. rewrite wp_bind, wp_cache_set, wp_bind, wp_bufctl_at.
    exists (Bufctl q o). split; [done|]. rewrite wp_ret. cbn [fst snd bslab].
    assert (q = p) as ->.
    { apply list_elem_of_lookup in Hb as [i Hi]. destruct (Forall2_lookup_l _ _ _ _ _ Hos Hi) as (x & _ & (q' & ccq & bq & mq & Hbq' & Haq & Hgq)). simpl in Hbq'. rewrite Hbq in Hbq'. injection Hbq' as <- <-.
      destruct (decide (q = p)) as [->|Hne]; [done|]. pose proof (slabs_apart _ _ _ _ _ _ _ _ _ _ _ _ _ _ _ _ _ _ _ Hco Haq Ha Hne (a_slab_m _ _ _ _ _ _ _ _ _ _ Hco Haq) Hm Hgq Hg) as Hap.
      destruct Haq as (? & _ & _ & Hcq & _). rewrite (erase_cache _ _ _ Hcc) in Hcq. injection Hcq as <-. unfold apart, size_ok in *. lia. }
    eapply (give_ok E A B k s _ p sl cc b o l); try done; [eauto|unfold names; by rewrite (proj2 (Z.leb_gt _ _) Hs)|intros _; by apply q_remove_perm| |by rewrite erase_put_cache].
    eapply (relink None s); [by intros r slr Hr; eauto|intros c' cc' Hc'; right|intros r slr Hr; right; eauto|done].
    simpl in Hc'. destruct (decide (c' = cache sl)) as [->|Hne]; [rewrite lookup_insert_eq in Hc'; injection Hc' as <-; by exists cc|rewrite lookup_insert_ne in Hc' by done; eauto].
Qed.
End slab_layer.
