(* ===== verification/KmemMag.v ===== *)
(** Kernel memory: the magazines (kernel/vm/kmem_cache.c).  The rounds of the magazines are
    buffers that are outstanding from the slab layer and not in use; no buffer is in two
    places. *)
From S2P Require Import Prelude Kmem KmemInv KmemSlab KmemAlloc.
Import Kmem.
Local Open Scope Z_scope.

Section mags.
Context {P : Type} `{PageLaws P}.
Implicit Types (s : kst P) (A L : gmap Z Z).

(** The magazines of a processor, loaded or previous, and their rounds. *)
Definition mag_of (x : kmem_cpu_cache) (b : bool) : Z * Z := if b then (cc_loaded x, cc_rounds x) else (cc_prev x, cc_prev_rounds x).
Notation place := (Z * nat * bool)%type.
Definition mag s (w : place) : option (Z * Z) := cc ← caches s !! w.1.1; x ← cache_cpu cc !! w.1.2; Some (mag_of x w.2).
Definition round s (w : place) (i : nat) : option Z := m ← mag s w; if decide (Z.of_nat i < m.2) then mags s !! m.1 ≫= (.!! i) else None.

Definition of_control (c : Z) : Prop := c = kmem_bufctl_cache ∨ c = kmem_slab_cache.
(** [A]: buffers outstanding from the slab layer; [L]: those in use by clients. *)
Record mags_ok (ncpus : nat) A L s : Prop := {
  mo_cpus c cc : caches s !! c = Some cc → use_magazines cc = true →
    length (cache_cpu cc) = ncpus ∧ kd_full (depot cc) = [] ∧ kd_empty (depot cc) = [] ∧ kd_full_count (depot cc) = 0 ∧ kd_empty_count (depot cc) = 0;
  mo_mag c cc cpu x b : caches s !! c = Some cc → cache_cpu cc !! cpu = Some x →
    ∃ l, mags s !! (mag_of x b).1 = Some l ∧ 0 ≤ (mag_of x b).2 ≤ cc_magsize x ∧ Z.of_nat (length l) = cc_magsize x;
  mo_inj w w' p r r' : mag s w = Some (p, r) → mag s w' = Some (p, r') → w = w';
  mo_round w i o : round s w i = Some o → A !! o = Some w.1.1 ∧ L !! o = None ∧ mags s !! o = None ∧ ¬ of_control w.1.1;
  mo_once w i w' i' o : round s w i = Some o → round s w' i' = Some o → w = w' ∧ i = i';
  mo_live o c : L !! o = Some c → A !! o = Some c ∧ mags s !! o = None ∧ ¬ of_control c;
  mo_meta m l : mags s !! m = Some l → is_Some (A !! m)
}.

(** ** The slab layer does not touch the magazines *)

Lemma core_lookup s c : (core <$> caches s) !! c = core <$> (caches s !! c).
Proof. apply lookup_fmap. Qed.
Lemma kept_lookup s s' c : kept s s' → core <$> (caches s' !! c) = core <$> (caches s !! c).
Proof. intros Hk. by rewrite <- !core_lookup, (ke_caches _ _ Hk). Qed.
Lemma kept_cache_inv s s' c cc' : kept s s' → caches s' !! c = Some cc' → ∃ cc, caches s !! c = Some cc ∧ core cc' = core cc.
Proof. intros Hk Hc. pose proof (kept_lookup _ _ c Hk) as Hx. rewrite Hc in Hx. symmetry in Hx. apply fmap_Some in Hx as (cc & Hcc & Hx). eauto. Qed.
Lemma mag_core s s' w : core <$> caches s' = core <$> caches s → mag s' w = mag s w.
Proof.
  intros Hk. unfold mag. assert (core <$> (caches s' !! w.1.1) = core <$> (caches s !! w.1.1)) as Hx by (by rewrite <- !core_lookup, Hk).
  destruct (caches s' !! w.1.1) as [cc'|], (caches s !! w.1.1) as [cc|]; try done.
  simpl. assert (cache_cpu cc' = cache_cpu cc) as -> by (change (cache_cpu (core cc') = cache_cpu (core cc)); simpl in Hx; congruence). done.
Qed.
Lemma mag_kept s s' w : kept s s' → mag s' w = mag s w.
Proof. intros Hk. apply mag_core, Hk. Qed.
Lemma mag_in_mags ncpus A L s w p r : mags_ok ncpus A L s → mag s w = Some (p, r) → is_Some (mags s !! p).
Proof.
  intros Hok Hw. unfold mag in Hw. destruct (caches s !! w.1.1) as [cc|] eqn:Hcc; [|done]. simpl in Hw. destruct (cache_cpu cc !! w.1.2) as [x|] eqn:Hx; [|done]. simpl in Hw. injection Hw as Hw.
  destruct (mo_mag _ _ _ _ Hok _ _ _ _ w.2 Hcc Hx) as (l & Hl & _). rewrite Hw in Hl. eauto.
Qed.
Lemma round_kept s s' w i : kept s s' → round s' w i = round s w i.
Proof. intros Hk. unfold round. by rewrite (mag_kept _ _ w Hk), (ke_mags _ _ Hk). Qed.
Lemma mags_mono ncpus A A' L L' s s' : mags_ok ncpus A L s → kept s s' → (∀ x c, A !! x = Some c → L !! x = None → A' !! x = Some c) →
  (∀ x c, L' !! x = Some c → A' !! x = Some c ∧ ¬ of_control c ∧ (L !! x = Some c ∨ A !! x = None)) → mags_ok ncpus A' L' s'.
Proof.
  intros [H1 H2 H3 H4 H5 H6 H7] Hk HA HL. assert (∀ m l, mags s !! m = Some l → L !! m = None) as HmL.
  { intros m l Hm. destruct (L !! m) as [c|] eqn:Hc; [|done]. destruct (H6 _ _ Hc) as (_ & ? & _). congruence. }
  assert (∀ x c, L' !! x = Some c → mags s !! x = None) as HLm.
  { intros x c Hx. destruct (mags s !! x) as [l|] eqn:Hm; [|done]. destruct (HL _ _ Hx) as (_ & _ & [Hl|Ha]); [by rewrite (HmL _ _ Hm) in Hl|]. destruct (H7 _ _ Hm). congruence. }
  split.
  - intros c cc' Hc Hu. destruct (kept_cache_inv _ _ _ _ Hk Hc) as (cc & Hcc & Hco).
    assert (cache_cpu cc' = cache_cpu cc ∧ depot cc' = depot cc ∧ use_magazines cc' = use_magazines cc) as (-> & -> & Hu').
    { split_and!; [change (cache_cpu (core cc') = cache_cpu (core cc))|change (depot (core cc') = depot (core cc))|change (use_magazines (core cc') = use_magazines (core cc))]; congruence. }
    apply (H1 c); [done|congruence].
  - intros c cc' cpu x b Hc Hx. destruct (kept_cache_inv _ _ _ _ Hk Hc) as (cc & Hcc & Hco). rewrite (ke_mags _ _ Hk).
    eapply (H2 c cc cpu); [done|]. replace (cache_cpu cc) with (cache_cpu cc') by (change (cache_cpu (core cc') = cache_cpu (core cc)); congruence). done.
  - intros w w' p r r'. rewrite !(mag_kept s s') by done. apply H3.
  - intros w i o. rewrite (round_kept s s'), (ke_mags _ _ Hk) by done. intros Ho. destruct (H4 _ _ _ Ho) as (Ha & Hl & Hm & Hc). split_and!; [by apply HA| |done|done].
    destruct (L' !! o) as [c|] eqn:Hx; [|done]. destruct (HL _ _ Hx) as (_ & _ & [?|?]); congruence.
  - intros w i w' i' o. rewrite !(round_kept s s') by done. apply H5.
  - intros o c Ho. rewrite (ke_mags _ _ Hk). destruct (HL _ _ Ho) as (Ha & Hc & _). split_and!; [done|by eapply HLm|done].
  - intros m l. rewrite (ke_mags _ _ Hk). intros Hm. destruct (H7 _ _ Hm) as [c Hc]. exists c. by apply HA; [|eapply HmL].
Qed.

(** ** Changing the magazines of a processor *)
Definition set_cpu (c : Z) (cc : kmem_cache) (cpu : nat) (x : kmem_cpu_cache) s : kst P := set_caches (<[c := with_cpu (<[cpu := x]> (cache_cpu cc)) cc]> (caches s)) s.
Lemma mag_set_cpu s c cc cpu x y w : caches s !! c = Some cc → cache_cpu cc !! cpu = Some y →
  mag (set_cpu c cc cpu x s) w = if decide (w.1 = (c, cpu)) then Some (mag_of x w.2) else mag s w.
Proof.
  intros Hc Hy. destruct w as [[c' cpu'] b]. unfold mag. simpl. case_decide as Hw.
  - injection Hw as -> ->. rewrite lookup_insert_eq. simpl. rewrite list_lookup_insert_eq by (by eapply lookup_lt_Some). done.
  - destruct (decide (c' = c)) as [->|Hne]; [|by rewrite lookup_insert_ne]. rewrite lookup_insert_eq, Hc. simpl. by rewrite list_lookup_insert_ne by congruence.
Qed.
(** What a step that moves one buffer has to show. *)
Lemma mags_step ncpus A L L' s s' : mags_ok ncpus A L s →
  (∀ c cc, caches s' !! c = Some cc → ∃ cc0, caches s !! c = Some cc0 ∧ length (cache_cpu cc) = length (cache_cpu cc0) ∧ depot cc = depot cc0 ∧ use_magazines cc = use_magazines cc0) →
  (∀ c cc cpu x b, caches s' !! c = Some cc → cache_cpu cc !! cpu = Some x →
    ∃ l, mags s' !! (mag_of x b).1 = Some l ∧ 0 ≤ (mag_of x b).2 ≤ cc_magsize x ∧ Z.of_nat (length l) = cc_magsize x) →
  (∀ w p r, mag s' w = Some (p, r) → ∃ r', mag s w = Some (p, r')) → (∀ m, is_Some (mags s' !! m) → is_Some (mags s !! m)) →
  (∀ x c, L' !! x = Some c → L !! x = Some c ∨ ∃ w i, round s w i = Some x ∧ w.1.1 = c) →
  (∀ w i o, round s' w i = Some o → L' !! o = None ∧ (round s w i = Some o ∨ L !! o = Some w.1.1)) →
  (∀ w i w' i' o, round s' w i = Some o → round s' w' i' = Some o → w = w' ∧ i = i') → mags_ok ncpus A L' s'.
Proof.
  intros [H1 H2 H3 H4 H5 H6 H7] K1 K2 K3 K4 K5 K6 K7. assert (∀ m, mags s !! m = None → mags s' !! m = None) as Hm.
  { intros m Hn. destruct (mags s' !! m) eqn:Hx; [|done]. destruct (K4 m) as [? ?]; [by eauto|congruence]. }
  split.
  - intros c cc Hc Hu. destruct (K1 _ _ Hc) as (cc0 & Hc0 & -> & -> & Hu0). apply (H1 c cc0 Hc0). congruence.
  - done.
  - intros w w' p r r' Hw Hw'. destruct (K3 _ _ _ Hw) as [? ?]. destruct (K3 _ _ _ Hw') as [? ?]. by eapply H3.
  - intros w i o Ho. destruct (K6 _ _ _ Ho) as [HL [Hr|Hl]].
    + destruct (H4 _ _ _ Hr) as (? & ? & ? & ?). split_and!; [done|done|by apply Hm|done].
    + destruct (H6 _ _ Hl) as (? & ? & ?). split_and!; [done|done|by apply Hm|done].
  - done.
  - intros o c Ho. destruct (K5 _ _ Ho) as [Hl|(w & i & Hr & <-)].
    + destruct (H6 _ _ Hl) as (? & ? & ?). split_and!; [done|by apply Hm|done].
    + destruct (H4 _ _ _ Hr) as (? & ? & ? & ?). split_and!; [done|by apply Hm|done].
  - intros m l Hx. destruct (K4 m) as [l' ?]; [by eauto|]. by eapply H7.
Qed.
Lemma set_cpu_cache s c cc cpu x : caches s !! c = Some cc → ∀ c' cc', caches (set_cpu c cc cpu x s) !! c' = Some cc' →
  ∃ cc0, caches s !! c' = Some cc0 ∧ length (cache_cpu cc') = length (cache_cpu cc0) ∧ depot cc' = depot cc0 ∧ use_magazines cc' = use_magazines cc0.
Proof.
  intros Hc c' cc' Hc'. simpl in Hc'. destruct (decide (c' = c)) as [->|Hne]; [|rewrite lookup_insert_ne in Hc' by done; eauto].
  rewrite lookup_insert_eq in Hc'. injection Hc' as <-. exists cc. simpl. by rewrite length_insert.
Qed.
Lemma set_cpu_mag s c cc cpu x y : caches s !! c = Some cc → cache_cpu cc !! cpu = Some y → ∀ c' cc' cpu' z, caches (set_cpu c cc cpu x s) !! c' = Some cc' → cache_cpu cc' !! cpu' = Some z →
  ((c', cpu') = (c, cpu) ∧ z = x) ∨ ∃ cc0, caches s !! c' = Some cc0 ∧ cache_cpu cc0 !! cpu' = Some z ∧ (c', cpu') ≠ (c, cpu).
Proof.
  intros Hc Hy c' cc' cpu' z Hc' Hz. simpl in Hc'. destruct (decide (c' = c)) as [->|Hne]; [|rewrite lookup_insert_ne in Hc' by done; right; exists cc'; split_and!; congruence].
  rewrite lookup_insert_eq in Hc'. injection Hc' as <-. simpl in Hz. destruct (decide (cpu' = cpu)) as [->|Hne].
  - rewrite list_lookup_insert_eq in Hz by (by eapply lookup_lt_Some). injection Hz as <-. by left.
  - rewrite list_lookup_insert_ne in Hz by done. right. exists cc. split_and!; congruence.
Qed.
(** Exchanging the loaded and the previous magazine. *)
Lemma swap_ok ncpus A L s c cc cpu x : mags_ok ncpus A L s → caches s !! c = Some cc → cache_cpu cc !! cpu = Some x →
  mags_ok ncpus A L (set_cpu c cc cpu (swap_magazines x) s).
Proof.
  intros Hok Hc Hx. set (f := λ w : Z * nat * bool, if decide (w.1 = (c, cpu)) then (w.1, negb w.2) else w).
  assert (∀ w, mag (set_cpu c cc cpu (swap_magazines x) s) w = mag s (f w)) as Hmag.
  { intros w. rewrite (mag_set_cpu _ _ _ _ _ x) by done. unfold f. case_decide as Hw; [|done]. destruct w as [[c' cpu'] b]. simpl in Hw. injection Hw as -> ->.
    unfold mag. simpl. rewrite Hc. simpl. rewrite Hx. by destruct b. }
  assert (∀ w i, round (set_cpu c cc cpu (swap_magazines x) s) w i = round s (f w) i) as Hround by (intros w i; unfold round; by rewrite Hmag).
  assert (∀ w w', f w = f w' → w = w') as Hinj.
  { intros [k b] [k' b']. unfold f. simpl. repeat case_decide; intros Hw; simplify_eq/=; try done. by destruct b, b'. }
  assert (∀ w, (f w).1 = w.1) as Hf1 by (intros [k b]; unfold f; simpl; by case_decide).
  pose proof Hok as [H1 H2 H3 H4 H5 H6 H7]. split.
  - intros c' cc' Hc' Hu. destruct (set_cpu_cache _ _ _ _ _ Hc _ _ Hc') as (cc0 & Hc0 & -> & -> & Hu0). apply (H1 c' cc0 Hc0). congruence.
  - intros c' cc' cpu' z b Hc' Hz. destruct (set_cpu_mag _ _ _ _ _ _ Hc Hx _ _ _ _ Hc' Hz) as [(Heq & ->)|(cc0 & Hc0 & Hz0 & _)]; [|by eapply H2].
    destruct (H2 c cc cpu x (negb b) Hc Hx) as (l & Hl). exists l. by destruct b.
  - intros w w' p r r'. rewrite !Hmag. intros Hw Hw'. by eapply Hinj, H3.
  - intros w i o. rewrite Hround. intros Ho. rewrite <- (Hf1 w). by eapply H4.
  - intros w i w' i' o. rewrite !Hround. intros Ho Ho'. destruct (H5 _ _ _ _ _ Ho Ho') as [Hw ->]. split; [by apply Hinj|done].
  - done.
  - done.
Qed.
Definition with_rounds (r : Z) (x : kmem_cpu_cache) : kmem_cpu_cache := CpuCache (cc_loaded x) (cc_prev x) r (cc_prev_rounds x) (cc_magsize x).
Lemma mag_rounds s c cc cpu x r : caches s !! c = Some cc → cache_cpu cc !! cpu = Some x → ∀ w,
  mag (set_cpu c cc cpu (with_rounds r x) s) w = if decide (w = (c, cpu, true)) then Some (cc_loaded x, r) else mag s w.
Proof.
  intros Hc Hx [[c' cpu'] b]. rewrite (mag_set_cpu _ _ _ _ _ x) by done. simpl. destruct (decide ((c', cpu') = (c, cpu))) as [Hw|Hw]; [injection Hw as -> ->|by rewrite decide_False by congruence].
  destruct b; [by rewrite decide_True|]. rewrite decide_False by congruence. unfold mag. simpl. rewrite Hc. simpl. by rewrite Hx.
Qed.
(** Taking a round from the loaded magazine. *)
Lemma pop_ok ncpus A L s c cc cpu x : mags_ok ncpus A L s → caches s !! c = Some cc → cache_cpu cc !! cpu = Some x → 0 < cc_rounds x →
  ∃ o, mags s !! cc_loaded x ≫= (.!! Z.to_nat (cc_rounds x - 1)) = Some o ∧ L !! o = None ∧ A !! o = Some c ∧ mags_ok ncpus A (<[o := c]> L) (set_cpu c cc cpu (with_rounds (cc_rounds x - 1) x) s).
Proof.
  intros Hok Hc Hx Hr. pose proof Hok as [H1 H2 H3 H4 H5 H6 H7]. destruct (H2 c cc cpu x true Hc Hx) as (l & Hl & Hb & Hlen). simpl in *. set (i0 := Z.to_nat (cc_rounds x - 1)).
  destruct (lookup_lt_is_Some_2 l i0) as [o Ho]; [lia|]. exists o. split; [by rewrite Hl|]. set (w0 := (c, cpu, true)).
  assert (mag s w0 = Some (cc_loaded x, cc_rounds x)) as Hm0 by (unfold mag; simpl; rewrite Hc; simpl; by rewrite Hx).
  assert (round s w0 i0 = Some o) as Hr0 by (unfold round; rewrite Hm0; simpl; rewrite decide_True, Hl by lia; done). destruct (H4 _ _ _ Hr0) as (HA & HL & Hmo & Hctl).
  set (x' := with_rounds (cc_rounds x - 1) x). pose proof (mag_rounds s c cc cpu x (cc_rounds x - 1) Hc Hx) as Hmag. fold x' w0 in Hmag.
  assert (∀ w i y, round (set_cpu c cc cpu x' s) w i = Some y → round s w i = Some y ∧ (w, i) ≠ (w0, i0)) as Hround.
  { intros w i y. unfold round. rewrite Hmag. destruct (decide (w = w0)) as [->|Hne]; [|intros Hy; split; [done|congruence]]. rewrite Hm0. simpl. case_decide; [|done]. intros Hy.
    rewrite decide_True by lia. split; [done|]. intros [= ->]. lia. }
  split_and!; [done|done|]. eapply (mags_step ncpus A L _ s); try done.
  - by apply set_cpu_cache.
  - intros c' cc' cpu' z b Hc' Hz. destruct (set_cpu_mag _ _ _ _ _ _ Hc Hx _ _ _ _ Hc' Hz) as [(Heq & ->)|(cc0 & Hc0 & Hz0 & _)]; [|by eapply H2].
    destruct (H2 c cc cpu x b Hc Hx) as (l' & Hl' & Hb' & Hlen'). exists l'. destruct b; simpl in *; split_and!; (done || lia).
  - intros w p r. rewrite Hmag. case_decide as Hw; [|eauto]. intros [= <- <-]. subst w. eauto.
  - intros y c'. destruct (decide (y = o)) as [->|Hne]; [rewrite lookup_insert_eq; intros [= <-]; right; eauto|]. rewrite lookup_insert_ne by done. by left.
  - intros w i y Hy. destruct (Hround _ _ _ Hy) as [Hy' Hne]. split; [|by left]. rewrite lookup_insert_ne; [by eapply H4|]. intros <-. destruct (H5 _ _ _ _ _ Hr0 Hy') as [-> ->]. done.
  - intros w i w' i' y Hy Hy'. eapply H5; by eapply Hround.
Qed.
(** Putting a round into the loaded magazine. *)
Lemma push_ok ncpus A L s c cc cpu x o : mags_ok ncpus A L s → caches s !! c = Some cc → cache_cpu cc !! cpu = Some x → cc_rounds x < cc_magsize x → L !! o = Some c →
  ∃ l, mags s !! cc_loaded x = Some l ∧ 0 ≤ cc_rounds x < Z.of_nat (length l) ∧
  mags_ok ncpus A (delete o L) (set_mags (<[cc_loaded x := <[Z.to_nat (cc_rounds x) := o]> l]> (mags s)) (set_cpu c cc cpu (with_rounds (cc_rounds x + 1) x) s)).
Proof.
  intros Hok Hc Hx Hr HLo. pose proof Hok as [H1 H2 H3 H4 H5 H6 H7]. destruct (H2 c cc cpu x true Hc Hx) as (l & Hl & Hb & Hlen). simpl in Hl, Hb. exists l. split_and!; [done|lia|lia|].
  set (i0 := Z.to_nat (cc_rounds x)). set (w0 := (c, cpu, true)). assert (mag s w0 = Some (cc_loaded x, cc_rounds x)) as Hm0 by (unfold mag; simpl; rewrite Hc; simpl; by rewrite Hx).
  pose proof (mag_rounds s c cc cpu x (cc_rounds x + 1) Hc Hx) as Hmag. fold w0 in Hmag. set (s1 := set_cpu _ _ _ _ _) in *. set (s2 := set_mags _ _).
  assert (∀ w, mag s2 w = mag s1 w) as Hmag2 by done. assert (∀ w p r, mag s w = Some (p, r) → p = cc_loaded x → w = w0) as Hsole by (intros w p r Hw ->; by eapply H3).
  assert (∀ w i y, round s2 w i = Some y → (round s w i = Some y ∧ (w, i) ≠ (w0, i0)) ∨ (w = w0 ∧ i = i0 ∧ y = o)) as Hround.
  { intros w i y. unfold round. rewrite Hmag2, Hmag. destruct (decide (w = w0)) as [->|Hne]; simpl.
    - rewrite Hm0. simpl. case_decide as Hi; [|done]. rewrite lookup_insert_eq. simpl. destruct (decide (i = i0)) as [->|Hi0].
      + rewrite list_lookup_insert_eq by lia. intros [= <-]. by right.
      + rewrite list_lookup_insert_ne by done. intros Hy. left. rewrite decide_True, Hl by lia. split; [done|congruence].
    - destruct (mag s w) as [[p r]|] eqn:Hw; [|done]. simpl. case_decide; [|done]. rewrite lookup_insert_ne by (intros He; apply Hne; by eapply Hsole). left. split; [done|congruence]. }
  eapply (mags_step ncpus A L _ s); try done.
  - intros c' cc' Hc'. exact (set_cpu_cache _ _ _ _ _ Hc _ _ Hc').
  - intros c' cc' cpu' z b Hc' Hz. destruct (set_cpu_mag _ _ _ _ _ _ Hc Hx _ _ _ _ Hc' Hz) as [(Heq & ->)|(cc0 & Hc0 & Hz0 & Hneq)].
    + destruct (H2 c cc cpu x b Hc Hx) as (l' & Hl' & Hb' & Hlen'). destruct b; simpl in *.
      * exists (<[i0 := o]> l). rewrite lookup_insert_eq, length_insert. split_and!; (done || lia).
      * exists l'. rewrite lookup_insert_ne; [done|]. intros He. assert ((c, cpu, false) = w0); [|done]. eapply (Hsole _ _ (cc_prev_rounds x)); [|done]. unfold mag. simpl. rewrite Hc. simpl. by rewrite Hx.
    + destruct (H2 c' cc0 cpu' z b Hc0 Hz0) as (l' & Hl' & Hb' & Hlen'). exists l'. simpl. rewrite lookup_insert_ne; [done|]. intros He.
      assert ((c', cpu', b) = w0) as Hw; [|unfold w0 in Hw; congruence]. eapply (Hsole _ (mag_of z b).1 (mag_of z b).2); [|done]. unfold mag. simpl. rewrite Hc0. simpl. rewrite Hz0. by destruct b.
  - intros w p r. rewrite Hmag2, Hmag. case_decide as Hw; [|eauto]. intros [= <- <-]. subst w. eauto.
  - intros m. simpl. destruct (decide (m = cc_loaded x)) as [->|Hne]; [by rewrite Hl; eauto|by rewrite lookup_insert_ne].
  - intros y c' [_ Hy]%lookup_delete_Some. by left.
  - intros w i y Hy. destruct (Hround _ _ _ Hy) as [[Hy' Hne]|(-> & -> & ->)].
    + destruct (H4 _ _ _ Hy') as (_ & HLy & _). split; [|by left]. by apply lookup_delete_None; right.
    + rewrite lookup_delete_eq. split; [done|by right].
  - intros w i w' i' y Hy Hy'. destruct (Hround _ _ _ Hy) as [[Hy1 Hne]|(-> & -> & ->)], (Hround _ _ _ Hy') as [[Hy1' Hne']|(-> & -> & Hyo)]; try done.
    + by eapply H5.
    + subst y. destruct (H4 _ _ _ Hy1) as (_ & ? & _). congruence.
    + destruct (H4 _ _ _ Hy1') as (_ & ? & _). congruence.
Qed.
End mags.
