(* ===== verification/KmemHeap.v ===== *)
(** Kernel memory: caches with their magazines, and memory by size (kernel/vm/kmem_cache.c).
    What is in use is disjoint, whatever is allocated and freed in whatever order. *)
From S2P Require Import Prelude Kmem KmemInv KmemSlab KmemAlloc KmemMag.
Import Kmem.
Local Open Scope Z_scope.

Section heap.
Context {P : Type} `{PageLaws P}.
Implicit Types (s t : kst P) (A B L V : gmap Z Z).

(** ** The slab layer does not look at the magazines *)
Definition key (cc : kmem_cache) : Z * list Z := (size cc, alloced cc).
Lemma key_lookup t t' c cc : key <$> (caches (P := P) t' !! c) = key <$> (caches t !! c) → caches t !! c = Some cc → ∃ cc', caches t' !! c = Some cc' ∧ size cc' = size cc ∧ alloced cc' = alloced cc.
Proof. intros Hc Hcc. rewrite Hcc in Hc. apply fmap_Some in Hc as (cc' & Hcc' & Hk). unfold key in Hk. exists cc'. split_and!; congruence. Qed.
Lemma content_ext W E A B t t' : slabmap t' = slabmap t → bufctls t' = bufctls t → (∀ c, key <$> (caches t' !! c) = key <$> (caches t !! c)) →
  (∀ c, of_control c → use_magazines <$> (caches t' !! c) = use_magazines <$> (caches t !! c)) → content_ok W E A B t → content_ok W E A B t'.
Proof.
  intros Hsm Hb Hc Hu Hok.
  assert (∀ c cc, caches t !! c = Some cc → ∃ cc', caches t' !! c = Some cc' ∧ size cc' = size cc ∧ alloced cc' = alloced cc) as Hfw by (intros c cc; by apply key_lookup).
  assert (∀ c cc', caches t' !! c = Some cc' → ∃ cc, caches t !! c = Some cc ∧ size cc = size cc' ∧ alloced cc = alloced cc') as Hbw by (intros c cc; by apply key_lookup).
  assert (slabs_kept E t E t') as Hsk. { intros p c cc base m (sl & ? & ? & Hcc & ?). destruct (Hfw _ _ Hcc) as (cc' & ? & ? & _). exists cc', m. split; [|lia]. exists sl. by rewrite Hsm. }
  pose proof Hok as [H1 H2 H3 H4 H5 H6 H7 H8 H9 H10 H11 H12]. split; rewrite ?Hsm, ?Hb; try done.
  - intros p sl Hp. destruct (H1 p sl Hp) as (cc & base & m & os & Hso). destruct (Hfw _ _ (so_cache _ _ _ _ _ _ _ _ _ _ Hso)) as (cc' & Hcc' & Hsz & _).
    exists cc', base, m, os. eapply slab_ok_mono; try done. by rewrite Hb.
  - intros p c cc base m (sl & Hp & Hcs & Hcc & HE). destruct (Hbw _ _ Hcc) as (cc0 & Hcc0 & <- & _). eapply H3. exists sl. by rewrite <- Hsm.
  - intros o c Ho. destruct (H6 o c Ho) as (p & cc & base & m & Ha & Hg). destruct (Hsk _ _ _ _ _ Ha) as (cc' & m' & Ha' & Hsz & Hm). exists p, cc', base, m'. rewrite Hsz. split; [done|].
    destruct Hg as (i & Hi & ->). exists i. split; [lia|done].
  - intros c cc Hcc. destruct (Hbw _ _ Hcc) as (cc0 & Hcc0 & <- & _). by eapply H7.
  - destruct H8 as (cc & Hcc & ? & ?). destruct (Hfw _ _ Hcc) as (cc' & Hcc' & ? & _). exists cc'. specialize (Hu _ (or_introl eq_refl)). rewrite Hcc, Hcc' in Hu. injection Hu as Hu. split_and!; congruence.
  - destruct H9 as (cc & Hcc & ? & ?). destruct (Hfw _ _ Hcc) as (cc' & Hcc' & ? & _). exists cc'. specialize (Hu _ (or_intror eq_refl)). rewrite Hcc, Hcc' in Hu. injection Hu as Hu. split_and!; congruence.
  - intros c cc Hcc Hl. destruct (Hbw _ _ Hcc) as (cc0 & Hcc0 & Hs0 & Ha0). destruct (H10 c cc0 Hcc0) as (os & Hos & Hnd & HA); [lia|]. exists os. split_and!; [|done|done].
    rewrite <- Ha0. eapply Forall2_impl; [done|]. intros b o. apply owned_mono; [by rewrite Hb|done].
Qed.
Lemma kmem_ok_cache W E A B k s c cc cc' : kmem_ok W E A B k s → caches s !! c = Some cc → key cc' = key cc → slabs cc' = slabs cc →
  (of_control c → use_magazines cc' = use_magazines cc) → kmem_ok W E A B k (set_caches (<[c := cc']> (caches s)) s).
Proof.
  intros [Hok Hlk Hpg HW] Hcc Hkey Hsl Hu. split; [|split|done|done].
  - eapply content_ext; [..|exact Hok]; [done|done|intros c'|intros c' Hct]; simpl; rewrite !lookup_fmap; (destruct (decide (c' = c)) as [->|Hne]; [rewrite lookup_insert_eq, Hcc; simpl; f_equal|by rewrite lookup_insert_ne]).
    + exact Hkey.
    + by apply Hu.
  - intros c' cc0 Hc'. simpl in Hc'. destruct (decide (c' = c)) as [->|Hne]; [|rewrite lookup_insert_ne in Hc' by done; by apply (lo_cache _ _ Hlk)].
    rewrite lookup_insert_eq in Hc'. injection Hc' as <-. rewrite Hsl. exact (lo_cache _ _ Hlk _ _ Hcc).
  - intros p sl Hp. exact (lo_slab _ _ Hlk _ _ Hp).
Qed.
Lemma kmem_ok_mags W E A B k s m : kmem_ok W E A B k s → kmem_ok W E A B k (set_mags m s).
Proof. intros [Hok Hlk Hpg HW]. split; [exact (content_ext _ _ _ _ (erase s) (erase (set_mags m s)) eq_refl eq_refl (λ _, eq_refl) (λ _ _, eq_refl) Hok)|by destruct Hlk|done|done]. Qed.
Lemma kmem_ok_cpu W E A B k s c cc cpu x m : kmem_ok W E A B k s → caches s !! c = Some cc → kmem_ok W E A B k (set_mags m (set_cpu c cc cpu x s)).
Proof. intros Hok Hcc. by eapply kmem_ok_mags, kmem_ok_cache. Qed.

(** ** Caches in use *)

(** [L]: the buffers in use, with their caches; [V]: the blocks of pages in use. *)
Definition kmem_inv (ncpus : nat) L V (k : nat) s : Prop := ∃ E A B, kmem_ok None E A B k s ∧ mags_ok ncpus A L s ∧ V ⊆ B ∧
  (∀ p x m, E !! p = Some (x, m) → V !! x = None) ∧ (∀ i, 0 ≤ i ≤ 8 → ∃ cc, caches s !! i = Some cc ∧ size cc = 8 * 2 ^ i).
Lemma set_cpu_twice s c cc cpu x y : set_cpu c (with_cpu (<[cpu := x]> (cache_cpu cc)) cc) cpu y (set_cpu c cc cpu x s) = set_cpu c cc cpu y s.
Proof. unfold set_cpu. simpl. by rewrite list_insert_insert_eq, insert_insert_eq. Qed.
Lemma wp_cpu_cache_at c cpu (Q : kmem_cpu_cache → kst P → Prop) s cc x : caches s !! c = Some cc → cache_cpu cc !! cpu = Some x → Q x s → wp (cpu_at c cpu) Q s.
Proof. intros Hc Hx HQ. unfold cpu_at. rewrite wp_bind, wp_cache_at. exists cc. split; [done|]. rewrite wp_deref. eauto. Qed.
Lemma wp_pop c cpu x (Q : Z → kst P → Prop) s cc o : caches s !! c = Some cc → mags s !! cc_loaded x ≫= (.!! Z.to_nat (cc_rounds x - 1)) = Some o →
  Q o (set_cpu c cc cpu (with_rounds (cc_rounds x - 1) x) s) → wp (pop_round c cpu x) Q s.
Proof.
  intros Hc Ho HQ. unfold pop_round, cpu_set. rewrite !wp_bind, wp_cache_at. exists cc. split; [done|]. rewrite wp_cache_set, wp_bind, wp_get, wp_deref. exists o. split; [exact Ho|exact HQ].
Qed.
Lemma wp_push c cpu x buf (Q : () → kst P → Prop) s cc l : caches s !! c = Some cc → mags s !! cc_loaded x = Some l → cc_rounds x < Z.of_nat (length l) →
  Q () (set_mags (<[cc_loaded x := <[Z.to_nat (cc_rounds x) := buf]> l]> (mags s)) (set_cpu c cc cpu (with_rounds (cc_rounds x + 1) x) s)) → wp (push_round c cpu x buf) Q s.
Proof.
  intros Hc Hl Hr HQ. unfold push_round, cpu_set. rewrite !wp_bind, wp_cache_at. exists cc. split; [done|]. rewrite wp_cache_set, wp_bind, wp_get, wp_bind, wp_deref. exists l. split; [done|].
  rewrite wp_bind, wp_kassert. split; [by apply Z.ltb_lt|]. rewrite wp_modify. exact HQ.
Qed.
(** The sizes of the caches and the contents of memory stay. *)
Definition stays s s' : Prop := data s' = data s ∧ ∀ c cc, caches s !! c = Some cc → ∃ cc', caches s' !! c = Some cc' ∧ size cc' = size cc.
Lemma kept_stays s s' : kept s s' → stays s s'.
Proof.
  intros Hk. split; [apply Hk|]. intros c cc Hc. destruct (kept_cache _ _ _ _ Hk Hc) as (cc' & Hc' & Hco). exists cc'. split; [done|]. change (size (core cc') = size (core cc)). congruence.
Qed.
Lemma set_cpu_stays s c cc cpu x m : caches s !! c = Some cc → stays s (set_mags m (set_cpu c cc cpu x s)).
Proof.
  intros Hc. split; [done|]. intros c' cc' Hc'. simpl. destruct (decide (c' = c)) as [->|Hne]; [|rewrite lookup_insert_ne by done; eauto]. rewrite lookup_insert_eq. eexists. split; [done|].
  simpl. congruence.
Qed.
Lemma zones_stay s s' : stays s s' → (∀ i, 0 ≤ i ≤ 8 → ∃ cc, caches s !! i = Some cc ∧ size cc = 8 * 2 ^ i) → ∀ i, 0 ≤ i ≤ 8 → ∃ cc, caches s' !! i = Some cc ∧ size cc = 8 * 2 ^ i.
Proof. intros [_ Hs] Hz i Hi. destruct (Hz i Hi) as (cc & Hc & Hsz). destruct (Hs _ _ Hc) as (cc' & ? & ?). exists cc'. split; congruence. Qed.

Lemma slab_alloc_inv ncpus L V k s cpu c cc flags : kmem_inv ncpus L V (need (size cc) + k) s → caches s !! c = Some cc → ¬ of_control c →
  wp (kmem_slablayer_alloc (cache_alloc_at 0 cpu) c flags) (λ r s', ∃ o, r = Some o ∧ L !! o = None ∧ kmem_inv ncpus (<[o := c]> L) V k s' ∧ kept s s') s.
Proof.
  intros (E & A & B & Hok & Hmo & HV & HE & Hz) Hcc Hct. eapply wp_mono; [by eapply slab_alloc_ok|].
  intros r s' (o & E' & A' & B' & -> & Ho & [HA Hctl] & Hok' & Hk & [HB HEn]). assert (A !! o = None) as HAo by (by eapply lookup_weaken_None).
  assert (L !! o = None) as HLo by (destruct (L !! o) as [c'|] eqn:Hc; [destruct (mo_live _ _ _ _ Hmo _ _ Hc); congruence|done]).
  exists o. split_and!; [done|done| |done]. exists E', (<[o := c]> A'), B'. split_and!; [done|..].
  - eapply mags_mono; [done|done|..].
    + intros x c' Hx _. rewrite lookup_insert_ne by congruence. by eapply lookup_weaken.
    + intros x c' Hx. destruct (decide (x = o)) as [->|Hne]; [rewrite lookup_insert_eq in Hx; injection Hx as <-; rewrite lookup_insert_eq; tauto|].
      rewrite lookup_insert_ne in Hx by done. rewrite lookup_insert_ne by done. destruct (mo_live _ _ _ _ Hmo _ _ Hx) as (Ha & _ & Hc). split_and!; [by eapply lookup_weaken|done|by left].
  - by etrans.
  - intros p x m Hp. destruct (HEn _ _ _ Hp) as [(m' & Hm)|Hn]; [by eapply HE|]. by eapply lookup_weaken_None.
  - eapply zones_stay; [by apply kept_stays|done].
Qed.
Lemma slab_alloc_stays ncpus L V k s cpu c cc flags : kmem_inv ncpus L V (need (size cc) + k) s → caches s !! c = Some cc → ¬ of_control c →
  wp (kmem_slablayer_alloc (cache_alloc_at 0 cpu) c flags) (λ r s', ∃ o, r = Some o ∧ L !! o = None ∧ kmem_inv ncpus (<[o := c]> L) V k s' ∧ stays s s') s.
Proof. intros Hi Hc Hn. eapply wp_mono; [by eapply slab_alloc_inv|]. intros r s' (o & ? & ? & ? & ?%kept_stays). eauto 6. Qed.
Lemma cache_alloc_inv ncpus L V k s cpu c cc flags : kmem_inv ncpus L V (need (size cc) + k) s → caches s !! c = Some cc → ¬ of_control c → (cpu < ncpus)%nat →
  wp (kmem_cache_alloc cpu c flags) (λ r s', ∃ o, r = Some o ∧ L !! o = None ∧ kmem_inv ncpus (<[o := c]> L) V k s' ∧ stays s s') s.
Proof.
  intros Hinv Hcc Hct Hcpu. unfold kmem_cache_alloc. simpl. unfold cache_alloc_with. rewrite wp_bind, wp_cache_at. exists cc. split; [done|].
  destruct (use_magazines cc) eqn:Hu; [|by eapply slab_alloc_stays]. pose proof Hinv as (E & A & B & Hok & Hmo & HV & HE & Hz).
  destruct (mo_cpus _ _ _ _ Hmo _ _ Hcc Hu) as (Hlen & Hd1 & _). destruct (lookup_lt_is_Some_2 (cache_cpu cc) cpu) as [x Hx]; [lia|].
  assert (∀ s1 o x', (mags_ok ncpus A (<[o := c]> L) (set_cpu c cc cpu x' s)) → s1 = set_cpu c cc cpu x' s → L !! o = None →
    ∃ o', Some o = Some o' ∧ L !! o' = None ∧ kmem_inv ncpus (<[o' := c]> L) V k s1 ∧ stays s s1) as Hend.
  { intros s1 o x' Hm -> HL. exists o. split_and!; [done|done| |by apply (set_cpu_stays s c cc cpu x' (mags s))]. exists E, A, B. split_and!; [|done|done|done|].
    - eapply (kmem_ok_cpu _ _ _ _ k s c cc cpu x' (mags s)); [|done]. destruct Hok as [? ? Hpg ?]. split; [done|done|eapply holds_weaken; [done|lia]|done].
    - eapply zones_stay; [by apply (set_cpu_stays s c cc cpu x' (mags s))|done]. }
  unfold kmem_magazine_alloc. rewrite wp_bind. eapply wp_cpu_cache_at; [done|done|]. destruct (Z.ltb_spec 0 (cc_rounds x)) as [Hr|Hr].
  { destruct (pop_ok _ _ _ _ _ _ _ _ Hmo Hcc Hx Hr) as (o & Ho & HL & _ & Hm). rewrite wp_bind. eapply wp_pop; [done|done|]. rewrite wp_ret. by eapply Hend. }
  destruct (Z.ltb_spec 0 (cc_prev_rounds x)) as [Hp|Hp].
  { pose proof (swap_ok _ _ _ _ _ _ _ _ Hmo Hcc Hx) as Hsw.
    destruct (pop_ok _ _ _ _ c (with_cpu (<[cpu := swap_magazines x]> (cache_cpu cc)) cc) cpu (swap_magazines x) Hsw) as (o & Ho & HL & _ & Hm);
      [simpl; by rewrite lookup_insert_eq|simpl; apply list_lookup_insert_eq; lia|done|]. rewrite set_cpu_twice in Hm.
    rewrite wp_bind. eapply wp_pop; [done|exact Ho|]. rewrite wp_ret. by eapply Hend. }
  unfold magazine_depot_alloc. rewrite wp_bind, wp_cache_at. exists cc. split; [done|]. rewrite wp_bind. eapply wp_cpu_cache_at; [done|done|]. rewrite Hd1. by eapply slab_alloc_stays.
Qed.
Lemma slab_free_inv ncpus L V k s c o : kmem_inv ncpus L V k s → L !! o = Some c → wp (kmem_slablayer_free c o) (λ _ s', kmem_inv ncpus (delete o L) V k s' ∧ stays s s') s.
Proof.
  intros (E & A & B & Hok & Hmo & HV & HE & Hz) HL. destruct (mo_live _ _ _ _ Hmo _ _ HL) as (HA & _ & Hct). pose proof (ko_content _ _ _ _ _ _ Hok) as Hco.
  destruct (co_A _ _ _ _ _ Hco _ _ HA) as (p & cce & base & m & (sl & _ & _ & Hcc & _) & _). apply erase_cache_inv in Hcc as (cc & Hcc & _). unfold of_control in Hct.
  eapply wp_mono; [eapply slab_free_ok; [done|done|done|tauto|tauto]|]. intros [] s' [Hok' Hk]. split; [|by apply kept_stays]. exists E, (delete o A), B. split_and!; [done| |done|done|].
  - eapply mags_mono; [done|done|..].
    + intros x c' Hx HLx. rewrite lookup_delete_ne by congruence. done.
    + intros x c' [Hne Hx]%lookup_delete_Some. rewrite lookup_delete_ne by done. destruct (mo_live _ _ _ _ Hmo _ _ Hx) as (Ha & _ & Hc). split_and!; [done|done|by left].
  - eapply zones_stay; [by apply kept_stays|done].
Qed.
Lemma cache_free_inv ncpus L V k s cpu c o : kmem_inv ncpus L V k s → L !! o = Some c → (cpu < ncpus)%nat →
  wp (kmem_cache_free cpu c o) (λ _ s', kmem_inv ncpus (delete o L) V k s' ∧ stays s s') s.
Proof.
  intros Hinv HL Hcpu. pose proof Hinv as (E & A & B & Hok & Hmo & HV & HE & Hz). destruct (mo_live _ _ _ _ Hmo _ _ HL) as (HA & _ & _).
  destruct (co_A _ _ _ _ _ (ko_content _ _ _ _ _ _ Hok) _ _ HA) as (p & cce & base & m & (sl & _ & _ & Hcce & _) & _). apply erase_cache_inv in Hcce as (cc & Hcc & _).
  unfold kmem_cache_free. rewrite wp_bind, wp_cache_at. exists cc. split; [done|]. destruct (use_magazines cc) eqn:Hu; [|by apply slab_free_inv].
  destruct (mo_cpus _ _ _ _ Hmo _ _ Hcc Hu) as (Hlen & _ & Hd2 & Hd3 & Hd4). destruct (lookup_lt_is_Some_2 (cache_cpu cc) cpu) as [x Hx]; [lia|].
  assert (∀ x' l', mags_ok ncpus A (delete o L) (set_mags l' (set_cpu c cc cpu x' s)) →
    kmem_inv ncpus (delete o L) V k (set_mags l' (set_cpu c cc cpu x' s)) ∧ stays s (set_mags l' (set_cpu c cc cpu x' s))) as Hend.
  { intros x' l' Hm. split; [|by apply set_cpu_stays]. exists E, A, B. split_and!; [by apply kmem_ok_cpu|done|done|done|]. eapply zones_stay; [by apply set_cpu_stays|done]. }
  unfold kmem_magazine_free. rewrite wp_bind. eapply wp_cpu_cache_at; [done|done|]. destruct (Z.ltb_spec (cc_rounds x) (cc_magsize x)) as [Hr|Hr].
  { destruct (push_ok _ _ _ _ _ _ _ _ _ Hmo Hcc Hx Hr HL) as (l & Hl & Hb & Hm). eapply wp_push; [done|done|lia|]. by apply Hend. }
  destruct (Z.ltb_spec (cc_prev_rounds x) (cc_magsize x)) as [Hp|Hp].
  { pose proof (swap_ok _ _ _ _ _ _ _ _ Hmo Hcc Hx) as Hsw.
    destruct (push_ok _ _ _ _ c (with_cpu (<[cpu := swap_magazines x]> (cache_cpu cc)) cc) cpu (swap_magazines x) o Hsw) as (l & Hl & Hb & Hm);
      [simpl; by rewrite lookup_insert_eq|simpl; apply list_lookup_insert_eq; lia|done|done|]. rewrite set_cpu_twice in Hm. eapply wp_push; [done|exact Hl|simpl in *; lia|]. by apply Hend. }
  unfold magazine_depot_free. rewrite wp_bind, wp_cache_at. exists cc. split; [done|]. rewrite wp_bind. eapply wp_cpu_cache_at; [done|done|]. rewrite Hd2, Hd3, Hd4. by apply slab_free_inv.
Qed.

(** ** Disjointness *)
Lemma buffer_block ncpus L V k s o c : kmem_inv ncpus L V k s → L !! o = Some c → ∃ E A B p cc base m, kmem_ok None E A B k s ∧ V ⊆ B ∧ A !! o = Some c ∧
  caches s !! c = Some cc ∧ size_ok (size cc) ∧ B !! base = Some (slab_size (size cc) / PGSIZE) ∧ V !! base = None ∧ base ≤ o ∧ o + size cc ≤ base + slab_size (size cc) ∧ a_slab E (erase s) p c (cstrip cc) base m.
Proof.
  intros (E & A & B & Hok & Hmo & HV & HE & Hz) HL. destruct (mo_live _ _ _ _ Hmo _ _ HL) as (HA & _ & _). pose proof (ko_content _ _ _ _ _ _ Hok) as Hco.
  destruct (co_A _ _ _ _ _ Hco _ _ HA) as (p & cce & base & m & Ha & Hg). pose proof Ha as (sl & _ & _ & Hcce & HEp). pose proof (co_size _ _ _ _ _ Hco _ _ Hcce) as Hsz.
  pose proof (grid_within _ _ _ _ Hsz (a_slab_m _ _ _ _ _ _ _ _ _ _ Hco Ha) Hg) as [Hi1 Hi2]. pose proof (co_block _ _ _ _ _ Hco _ _ _ _ _ Ha) as HB.
  apply erase_cache_inv in Hcce as (cc & Hcc & ->). exists E, A, B, p, cc, base, m. split_and!; try done. by eapply HE.
Qed.
Lemma buffers_apart ncpus L V k s o c cc o' c' cc' : kmem_inv ncpus L V k s → L !! o = Some c → L !! o' = Some c' → o ≠ o' → caches s !! c = Some cc → caches s !! c' = Some cc' →
  apart o (size cc) o' (size cc').
Proof.
  intros (E & A & B & Hok & Hmo & _) HL HL' Hne Hcc Hcc'. destruct (mo_live _ _ _ _ Hmo _ _ HL) as (HA & _). destruct (mo_live _ _ _ _ Hmo _ _ HL') as (HA' & _).
  exact (outstanding_apart _ _ _ _ _ _ _ (cstrip cc) _ _ (cstrip cc') (ko_content _ _ _ _ _ _ Hok) HA HA' Hne (erase_cache _ _ _ Hcc) (erase_cache _ _ _ Hcc')).
Qed.
Lemma buffer_page_apart ncpus L V k s o c cc a n : kmem_inv ncpus L V k s → L !! o = Some c → caches s !! c = Some cc → V !! a = Some n → apart o (size cc) a (PGSIZE * n).
Proof.
  intros Hinv HL Hcc Ha. destruct (buffer_block _ _ _ _ _ _ _ Hinv HL) as (E & A & B & p & cc' & base & m & Hok & HV & HA & Hcc' & Hz & HB & HVb & Hi1 & Hi2 & _). assert (cc' = cc) as -> by congruence.
  assert (base ≠ a) as Hne by (intros ->; congruence). pose proof (blocks_apart _ _ _ _ _ (co_blocks _ _ _ _ _ (ko_content _ _ _ _ _ _ Hok)) HB (lookup_weaken _ _ _ _ Ha HV) Hne) as Hap.
  rewrite (proj1 (slab_size_pages _ Hz)) in Hap. unfold apart in *. lia.
Qed.
Lemma pages_apart ncpus L V k s a n a' n' : kmem_inv ncpus L V k s → V !! a = Some n → V !! a' = Some n' → a ≠ a' → apart a (PGSIZE * n) a' (PGSIZE * n').
Proof.
  intros (E & A & B & Hok & _ & HV & _) Ha Ha' Hne. eapply blocks_apart; [apply (ko_content _ _ _ _ _ _ Hok)|by eapply lookup_weaken..|done].
Qed.
End heap.
