(* ===== verification/KmemSizes.v ===== *)
(** Kernel memory by size (kernel/vm/kmem_cache.c, [kmem_xalloc] and [kmem_xfree]): caches for
    small sizes, pages for large ones, and memory in use that is disjoint. *)
From S2P Require Import Prelude Kmem KmemInv KmemSlab KmemAlloc KmemMag KmemHeap.
Import Kmem.
Local Open Scope Z_scope.

(** ** Size classes *)

Definition zone_of (n : Z) : option Z :=
  if n <=? 8 then Some 0 else if n <=? 16 then Some 1 else if n <=? 32 then Some 2
  else if n <=? 64 then Some 3 else if n <=? 128 then Some 4 else if n <=? 256 then Some 5
  else if n <=? 512 then Some 6 else if n <=? 1024 then Some 7 else if n <=? 2048 then Some 8 else None.
Lemma zone_size n i : zone_of n = Some i → 0 ≤ i ≤ 8 ∧ n ≤ 8 * 2 ^ i.
Proof.
  unfold zone_of. repeat (match goal with |- context [if ?a <=? ?b then _ else _] => destruct (Z.leb_spec a b) end; [intros [= <-]; split; [lia|]; vm_compute (2 ^ _); lia|]). done.
Qed.
Lemma zone_none n : zone_of n = None → 2048 < n.
Proof. unfold zone_of. repeat (match goal with |- context [if ?a <=? ?b then _ else _] => destruct (Z.leb_spec a b) end; [done|]). done. Qed.
Definition npages (n : Z) : Z := ROUNDUP n PGSIZE / PGSIZE.
Lemma npages_bounds n : 0 < n < 2 ^ 60 → 0 < npages n ∧ n ≤ PGSIZE * npages n.
Proof.
  intros Hn. unfold npages, ROUNDUP, PGSIZE. rewrite u64_small by lia. rewrite Z.div_mul by lia. pose proof (Z.mul_succ_div_gt (n + 4096 - 1) 4096). lia.
Qed.

Section heap.
Context {P : Type} `{PageLaws P}.
Implicit Types (s : kst P) (M L V : gmap Z Z).

Lemma wp_zonenum n (Q : option Z → kst P → Prop) s : 0 < n → wp (zonenum n) Q s ↔ Q (zone_of n) s.
Proof. intros Hn. unfold zonenum. rewrite wp_bind, wp_kassert, wp_ret. rewrite (proj2 (Z.ltb_lt _ _) Hn). fold (zone_of n). naive_solver. Qed.

(** The memory in use: addresses, with the sizes asked for. *)
Definition in_use L V (a n : Z) : Prop := 0 < n < 2 ^ 60 ∧ match zone_of n with Some c => L !! a = Some c | None => V !! a = Some (npages n) end.
Definition kmem_heap (ncpus : nat) M (k : nat) s : Prop := ∃ L V, kmem_inv ncpus L V k s ∧ ∀ a n, M !! a = Some n → in_use L V a n.
Definition xneed (n : Z) : nat := match zone_of n with Some i => need (8 * 2 ^ i) | None => Z.to_nat (npages n) end.

Lemma zone_control n c : zone_of n = Some c → ¬ of_control c.
Proof. intros Hz%zone_size [->| ->]; unfold kmem_bufctl_cache, kmem_slab_cache in *; lia. Qed.
Lemma in_use_apart ncpus L V k s a n a' n' : kmem_inv ncpus L V k s → in_use L V a n → in_use L V a' n' → a ≠ a' → apart a n a' n'.
Proof.
  intros Hinv [Hn Ha] [Hn' Ha'] Hne. assert (∀ i n, zone_of n = Some i → ∃ cc, caches s !! i = Some cc ∧ n ≤ size cc) as Hzc.
  { intros i m Hi. destruct (zone_size _ _ Hi) as [Hi1 Hi2]. destruct Hinv as (E & A & B & _ & _ & _ & _ & Hz). destruct (Hz i Hi1) as (cc & ? & Hsz). exists cc. rewrite Hsz. done. }
  destruct (zone_of n) as [c|] eqn:Hz, (zone_of n') as [c'|] eqn:Hz'.
  - destruct (Hzc _ _ Hz) as (cc & Hcc & Hs). destruct (Hzc _ _ Hz') as (cc' & Hcc' & Hs'). destruct (buffers_apart _ _ _ _ _ _ _ _ _ _ _ Hinv Ha Ha' Hne Hcc Hcc'); [left|right]; lia.
  - destruct (Hzc _ _ Hz) as (cc & Hcc & Hs). destruct (npages_bounds _ Hn'). destruct (buffer_page_apart _ _ _ _ _ _ _ _ _ _ Hinv Ha Hcc Ha'); [left|right]; lia.
  - destruct (Hzc _ _ Hz') as (cc & Hcc & Hs). destruct (npages_bounds _ Hn). destruct (buffer_page_apart _ _ _ _ _ _ _ _ _ _ Hinv Ha' Hcc Ha); [right|left]; lia.
  - destruct (npages_bounds _ Hn). destruct (npages_bounds _ Hn'). destruct (pages_apart _ _ _ _ _ _ _ _ _ Hinv Ha Ha' Hne); [left|right]; lia.
Qed.
Lemma heap_insert ncpus M L V L' V' k s a n : kmem_inv ncpus L' V' k s → (∀ a n, M !! a = Some n → in_use L V a n) → L ⊆ L' → V ⊆ V' → in_use L' V' a n → M !! a = None →
  kmem_heap ncpus (<[a := n]> M) k s ∧ ∀ a' n', M !! a' = Some n' → apart a n a' n'.
Proof.
  intros Hinv HM HL HV Hnew Ha. assert (∀ a n, M !! a = Some n → in_use L' V' a n) as HM'.
  { intros x m Hx. destruct (HM _ _ Hx) as [Hm Hi]. split; [done|]. destruct (zone_of m); by eapply lookup_weaken. }
  split.
  - exists L', V'. split; [done|]. intros x m Hx. destruct (decide (x = a)) as [->|Hne]; [rewrite lookup_insert_eq in Hx; by injection Hx as <-|]. rewrite lookup_insert_ne in Hx by done. by apply HM'.
  - intros a' n' Ha'. eapply in_use_apart; [done|done|by apply HM'|congruence].
Qed.

(** ** Allocating and freeing *)
Lemma pages_alloc_inv ncpus L V k s n flags : 0 < n → kmem_inv ncpus L V (Z.to_nat n + k) s →
  wp (in_pages (vm_kalloc n flags)) (λ a s', kmem_inv ncpus L (<[a := n]> V) k s' ∧ V !! a = None ∧ L !! a = None ∧ kept s s') s.
Proof.
  intros Hn (E & A & B & [Hco Hlk Hpg HW] & Hmo & HV & HE & Hz). unfold in_pages. rewrite wp_zoom. eapply wp_mono; [eapply (vm_kalloc_law _ B k); done|]. intros a p' [Hnb Hpg'].
  pose proof (new_block_fresh _ _ _ (co_blocks _ _ _ _ _ Hco) Hnb) as HBn. assert (V !! a = None) as HVa by (by eapply lookup_weaken_None).
  assert (L !! a = None) as HLa.
  { destruct (L !! a) as [c|] eqn:Hc; [|done]. destruct (mo_live _ _ _ _ Hmo _ _ Hc) as (HA & _). rewrite (fresh_block _ _ _ _ _ a n a Hco Hnb) in HA; [done|]. unfold PGSIZE. lia. }
  split_and!; [|done|done|done]. exists E, A, (<[a := n]> B). split_and!; [split|..|done].
  - exact (content_block _ _ _ _ _ _ _ p' Hco Hnb).
  - by destruct Hlk.
  - done.
  - done.
  - by destruct Hmo.
  - by apply insert_mono.
  - intros p x m Hp. rewrite lookup_insert_ne; [by eapply HE|]. pose proof (fresh_base _ _ _ _ _ _ _ _ _ Hco HBn Hp). congruence.
Qed.
Lemma kmem_xalloc_ok ncpus M k s cpu n flags : kmem_heap ncpus M (xneed n + k) s → 0 < n < 2 ^ 60 → (cpu < ncpus)%nat →
  wp (kmem_xalloc cpu n flags) (λ r s', ∃ a, r = Some a ∧ M !! a = None ∧ kmem_heap ncpus (<[a := n]> M) k s' ∧ (∀ a' n', M !! a' = Some n' → apart a n a' n') ∧ stays s s') s.
Proof.
  intros (L & V & Hinv & HM) Hn Hcpu. unfold kmem_xalloc. rewrite wp_bind, wp_zonenum by lia. unfold xneed in Hinv. destruct (zone_of n) as [c|] eqn:Hz.
  - destruct (zone_size _ _ Hz) as [Hc1 Hc2]. assert (∃ cc, caches s !! c = Some cc ∧ size cc = 8 * 2 ^ c) as (cc & Hcc & Hsz) by (destruct Hinv as (E & A & B & _ & _ & _ & _ & Hzs); by apply Hzs).
    rewrite <- Hsz in Hinv. eapply wp_mono; [eapply cache_alloc_inv; [done|done|by eapply zone_control|done]|]. intros r s' (a & -> & HLa & Hinv' & Hst). exists a.
    assert (M !! a = None) as HMa.
    { destruct (M !! a) as [m|] eqn:Hm; [|done]. destruct (HM _ _ Hm) as [Hmb Hu]. destruct (zone_of m) as [c'|]; [congruence|].
      destruct (proj2 Hst _ _ Hcc) as (cc' & Hcc' & Hs'). pose proof (buffer_page_apart _ _ _ _ _ a c cc' a _ Hinv' ltac:(by rewrite lookup_insert_eq) Hcc' Hu) as Hap.
      destruct (npages_bounds _ Hmb). unfold apart, PGSIZE in Hap. lia. }
    destruct (heap_insert ncpus M L V _ _ k s' a n Hinv' HM) as [Hh Hap]; [by apply insert_subseteq|done|split; [done|rewrite Hz; by rewrite lookup_insert_eq]|done|]. done.
  - destruct (npages_bounds _ Hn) as [Hp _]. rewrite wp_bind. eapply wp_mono; [by eapply pages_alloc_inv|]. intros a s' (Hinv' & HVa & HLa & Hst%kept_stays). rewrite wp_ret. exists a.
    assert (M !! a = None) as HMa. { destruct (M !! a) as [m|] eqn:Hm; [|done]. destruct (HM _ _ Hm) as [_ Hu]. destruct (zone_of m); congruence. }
    destruct (heap_insert ncpus M L V _ _ k s' a n Hinv' HM) as [Hh Hap]; [done|by apply insert_subseteq|split; [done|rewrite Hz; by rewrite lookup_insert_eq]|done|]. done.
Qed.
Lemma kmem_xfree_ok ncpus M k s cpu a n : kmem_heap ncpus M k s → M !! a = Some n → (cpu < ncpus)%nat →
  wp (kmem_xfree cpu (Some a) n) (λ _ s', kmem_heap ncpus (delete a M) k s' ∧ stays s s') s.
Proof.
  intros (L & V & Hinv & HM) Ha Hcpu. destruct (HM _ _ Ha) as [Hn Hu]. unfold kmem_xfree. rewrite wp_bind, wp_zonenum by lia.
  assert (∀ L' V', (∀ x c, x ≠ a → L !! x = Some c → L' !! x = Some c) → (∀ x c, x ≠ a → V !! x = Some c → V' !! x = Some c) → ∀ x m, delete a M !! x = Some m → in_use L' V' x m) as Hrest.
  { intros L' V' HL HV x m [Hne Hx]%lookup_delete_Some. destruct (HM _ _ Hx) as [Hm Hux]. split; [done|]. destruct (zone_of m); [by apply HL|by apply HV]. }
  destruct (zone_of n) as [c|] eqn:Hz.
  - eapply wp_mono; [by eapply cache_free_inv|]. intros [] s' [Hinv' Hst]. split; [|done]. exists (delete a L), V. split; [done|]. apply Hrest; [|done]. intros. by rewrite lookup_delete_ne.
  - destruct Hinv as (E & A & B & [Hco Hlk Hpg HW] & Hmo & HV & HE & Hzs). unfold in_pages. rewrite wp_zoom. fold (npages n). pose proof (lookup_weaken _ _ _ _ Hu HV) as HBa.
    eapply wp_mono; [by eapply vm_kfree_law|]. intros [] p' Hpg'. split; [|by split; [done|eauto]]. exists L, (delete a V). split; [|apply Hrest; [done|]; intros; by rewrite lookup_delete_ne].
    exists E, A, (delete a B). split_and!; [split|..|done].
    + destruct Hco as [H1 H2 H3 H4 H5 H6 H7 H8 H9 H10 H11 H12]. split; try done.
      * intros q sl Hq. destruct (H1 q sl Hq) as (cc & base & m & os & Hso). exists cc, base, m, os. eapply slab_ok_mono; try done; apply Hso.
      * intros q c cc base m Hq. rewrite lookup_delete_ne; [by eapply H3|]. intros <-. destruct Hq as (? & _ & _ & _ & Hq). pose proof (HE _ _ _ Hq). congruence.
      * intros b m [Hne Hb]%lookup_delete_Some. destruct (H5 _ _ Hb) as (? & ? & ? & ? & Hd). split_and!; [done..|]. intros b' m' [Hb1 [Hb2 Hb']%lookup_delete_Some]%lookup_delete_Some. apply Hd, lookup_delete_Some. done.
    + by destruct Hlk.
    + done.
    + done.
    + by destruct Hmo.
    + by apply delete_mono.
    + intros q x m Hq. apply lookup_delete_None. right. by eapply HE.
Qed.
End heap.
