(* ===== verification/KmemStart.v ===== *)
(** Kernel memory: start-up (kernel/vm/kmem_cache.c, [kmem_init] and [kmem_postsmp_init]).
    Afterwards the invariant holds and nothing is in use. *)
From S2P Require Import Prelude Kmem KmemInv KmemSlab KmemAlloc KmemMag KmemHeap KmemSizes.
Import Kmem.
Local Open Scope Z_scope.

Section start.
Context {P : Type} `{PageLaws P}.
Implicit Types (s : kst P) (A B L V : gmap Z Z).

(** ** The caches *)
Definition no_mags (x : kmem_cache) : Prop := use_magazines x = false ∧ cache_cpu x = [] ∧ alloced x = [] ∧ slabs x = Queue None None.
Definition blank (p : P) : kst P := Kst p ∅ [] ∅ ∅ ∅ (λ _, 0).
(** What the caches are after [kmem_init]. *)
Record made s (p : P) : Prop := {
  ma_pages : pages s = p;
  ma_slabs : slabmap s = ∅;
  ma_bufctls : bufctls s = ∅;
  ma_mags : mags s = ∅;
  ma_caches c cc : caches s !! c = Some cc → no_mags cc ∧ size_ok (size cc)
}.
Lemma cache_init_ok s p c z a : made s p → size_ok z →
  wp (kmem_cache_init c z a) (λ _ s', made s' p ∧ caches s' = <[c := Cache z a (Queue None None) [] [] (Depot [] [] 0 0 0) 0 false]> (caches s)) s.
Proof.
  intros [H1 H2 H3 H4 H5] Hz. unfold kmem_cache_init. rewrite wp_bind, wp_cache_set, wp_modify. split; [|done]. split; try done. intros c' cc Hc. simpl in Hc.
  destruct (decide (c' = c)) as [->|Hne]; [rewrite lookup_insert_eq in Hc; by injection Hc as <-|]. rewrite lookup_insert_ne in Hc by done. by eapply H5.
Qed.
Lemma init_alloc_ok n : ∀ i s p, made s p → 0 ≤ i → i + Z.of_nat n ≤ 10 →
  wp (init_alloc_caches n i) (λ _ s', made s' p ∧ (∀ j, i ≤ j < i + Z.of_nat n → ∃ cc, caches s' !! j = Some cc ∧ size cc = 8 * 2 ^ j) ∧ ∀ j, j < i → caches s' !! j = caches s !! j) s.
Proof.
  induction n as [|n IH]; intros i s p Hm Hi Hn; cbn [init_alloc_caches]; [rewrite wp_ret; split_and!; [done|intros; lia|done]|].
  assert (size_ok (8 * 2 ^ i)) as Hz. { unfold size_ok. pose proof (Z.pow_le_mono_r 2 0 i). pose proof (Z.pow_le_mono_r 2 i 9). change (2 ^ 9) with 512 in *. change (2 ^ 0) with 1 in *. lia. }
  rewrite wp_bind. eapply wp_mono; [by apply cache_init_ok|]. intros [] s1 [Hm1 Hc1]. eapply wp_mono; [eapply (IH (i + 1)); [done|lia|lia]|]. intros [] s2 (Hm2 & Hz2 & Hlow). split_and!; [done|..].
  - intros j Hj. destruct (decide (j = i)) as [->|Hne]; [|apply Hz2; lia]. rewrite Hlow, Hc1, lookup_insert_eq by lia. eexists. split; [done|]. done.
  - intros j Hj. rewrite Hlow, Hc1, lookup_insert_ne by lia. done.
Qed.
Definition has_control s : Prop := ∀ c, of_control c → ∃ cc, caches s !! c = Some cc ∧ size cc = (if c =? kmem_bufctl_cache then sizeof_kmem_bufctl else sizeof_kmem_slab).
Lemma made_content s p : made s p → has_control s → content_ok None ∅ ∅ ∅ (erase s).
Proof.
  intros [H1 H2 H3 H4 H5] Hc. assert (∀ q, slabmap (erase s) !! q = None) as Hsm by (intros q; simpl; by rewrite H2, fmap_empty, lookup_empty).
  assert (∀ q, bufctls (erase s) !! q = None) as Hbm by (intros q; simpl; by rewrite H3, lookup_empty).
  assert (∀ c, of_control c → ∃ cc, caches (erase s) !! c = Some cc ∧ size cc = (if c =? kmem_bufctl_cache then sizeof_kmem_bufctl else sizeof_kmem_slab) ∧ use_magazines cc = false) as Hctl.
  { intros c Hcc. destruct (Hc c Hcc) as (cc & Hx & Hs). exists (cstrip cc). split_and!; [by apply erase_cache|done|by destruct (H5 _ _ Hx) as [[] _]]. }
  split.
  - intros q sl Hq. congruence.
  - intros q x Hq. by rewrite lookup_empty in Hq.
  - intros q c cc b m (sl & Hq & _). congruence.
  - intros q q' b m m' Hq. by rewrite lookup_empty in Hq.
  - intros b n Hb. by rewrite lookup_empty in Hb.
  - intros o c Ho. by rewrite lookup_empty in Ho.
  - intros c cc (cc0 & Hc0 & ->)%erase_cache_inv. by apply (H5 _ _ Hc0).
  - apply (Hctl kmem_bufctl_cache). by left.
  - apply (Hctl kmem_slab_cache). by right.
  - intros c cc (cc0 & Hc0 & ->)%erase_cache_inv _. exists []. destruct (H5 _ _ Hc0) as [(_ & _ & Ha & _) _]. simpl. rewrite Ha. split_and!; [constructor|constructor|].
    intros o. rewrite elem_of_nil, lookup_empty. done.
  - intros a sl Ha. congruence.
  - intros b x Hb. congruence.
Qed.
Lemma made_mags ncpus s p : made s p → mags_ok ncpus ∅ ∅ s.
Proof.
  intros [H1 H2 H3 H4 H5]. assert (∀ c cc, caches s !! c = Some cc → use_magazines cc = false ∧ cache_cpu cc = []) as Hnc by (intros c cc Hc; destruct (H5 _ _ Hc) as [(? & ? & _) _]; done).
  assert (∀ w, mag s w = None) as Hmag. { intros w. unfold mag. destruct (caches s !! w.1.1) as [cc|] eqn:Hc; [|done]. simpl. destruct (Hnc _ _ Hc) as [_ ->]. done. }
  assert (∀ w i, round s w i = None) as Hround by (intros w i; unfold round; by rewrite Hmag). split.
  - intros c cc Hc Hu. destruct (Hnc _ _ Hc). congruence.
  - intros c cc cpu x b Hc Hx. destruct (Hnc _ _ Hc) as [_ Hn]. rewrite Hn, lookup_nil in Hx. done.
  - intros w w' q r r' Hw. congruence.
  - intros w i o Ho. congruence.
  - intros w i w' i' o Ho. congruence.
  - intros o c Ho. by rewrite lookup_empty in Ho.
  - intros m l Hm. by rewrite H4, lookup_empty in Hm.
Qed.
Lemma kmem_init_ok ncpus p k : holds p ∅ k → wp kmem_init (λ _ s, kmem_inv ncpus ∅ ∅ k s ∧ (∀ c cc, caches s !! c = Some cc → use_magazines cc = false) ∧
  (∀ i, 0 ≤ i ≤ 9 → ∃ cc, caches s !! i = Some cc ∧ cache_cpu cc = [])) (blank p).
Proof.
  intros Hp. unfold kmem_init. rewrite wp_bind. eapply wp_mono; [eapply (init_alloc_ok 10 0 _ p); [by split|lia|lia]|]. intros [] s1 (Hm1 & Hz1 & _).
  rewrite wp_bind. eapply wp_mono; [by apply cache_init_ok|]. intros [] s2 [Hm2 Hc2]. rewrite wp_bind. eapply wp_mono; [by apply cache_init_ok|]. intros [] s3 [Hm3 Hc3].
  eapply wp_mono; [by apply cache_init_ok|]. intros [] s4 [Hm4 Hc4]. pose proof Hm4 as [H1 H2 H3 H4 H5].
  assert (∀ i, 0 ≤ i ≤ 9 → caches s4 !! i = caches s1 !! i) as Hlow.
  { intros i Hi. rewrite Hc4, Hc3, Hc2. unfold kmem_cache_cache, kmem_slab_cache, kmem_bufctl_cache. by rewrite !lookup_insert_ne by lia. }
  assert (has_control s4) as Hctl .
  { intros c [->| ->]; rewrite Hc4, Hc3; [rewrite Hc2, !lookup_insert_ne by done|rewrite lookup_insert_ne by done]; rewrite lookup_insert_eq; by eexists. }
  split_and!; [|intros c cc Hc; by destruct (H5 _ _ Hc) as [[] _]|].
  - exists ∅, ∅, ∅. split_and!; [split; [by eapply made_content|split| |done]|by eapply made_mags|done|intros q x m Hq; by rewrite lookup_empty in Hq|].
    + intros c cc Hc. destruct (H5 _ _ Hc) as [(_ & _ & _ & ->) _]. split; apply link_none.
    + intros q sl Hq. by rewrite H2, lookup_empty in Hq.
    + by rewrite H1.
    + intros i Hi. rewrite Hlow by lia. apply Hz1. lia.
  - intros i Hi. rewrite Hlow by lia. destruct (Hz1 i) as (cc & Hc & _); [lia|]. exists cc. split; [done|]. rewrite <- Hlow in Hc by lia. by destruct (H5 _ _ Hc) as [(_ & ? & _) _].
Qed.

(** ** The magazines *)
Definition quiet s : Prop := ∀ c cc, caches s !! c = Some cc → use_magazines cc = false.
Lemma kept_quiet s s' : kept s s' → quiet s → quiet s'.
Proof. intros Hk Hq c cc' Hc. destruct (kept_cache_inv _ _ _ _ Hk Hc) as (cc & Hcc & Hco). change (use_magazines (core cc') = false). rewrite Hco. exact (Hq _ _ Hcc). Qed.
Lemma xalloc_quiet ncpus L V k s cpu n : kmem_inv ncpus L V (xneed n + k) s → quiet s → 0 < n < 2 ^ 60 →
  wp (kmem_xalloc cpu n 0) (λ r s', ∃ a L' V', r = Some a ∧ kmem_inv ncpus L' V' k s' ∧ kept s s' ∧
    match zone_of n with Some c => L' = <[a := c]> L ∧ V' = V ∧ L !! a = None | None => L' = L ∧ V ⊆ V' end) s.
Proof.
  intros Hinv Hq Hn. unfold kmem_xalloc. rewrite wp_bind, wp_zonenum by lia. unfold xneed in Hinv. destruct (zone_of n) as [c|] eqn:Hz.
  - destruct (zone_size _ _ Hz) as [Hc1 Hc2]. assert (∃ cc, caches s !! c = Some cc ∧ size cc = 8 * 2 ^ c) as (cc & Hcc & Hsz) by (destruct Hinv as (E & A & B & _ & _ & _ & _ & Hzs); by apply Hzs).
    rewrite <- Hsz in Hinv. unfold kmem_cache_alloc. simpl. unfold cache_alloc_with. rewrite wp_bind, wp_cache_at. exists cc. split; [done|]. rewrite (Hq _ _ Hcc).
    eapply wp_mono; [eapply slab_alloc_inv; [done|done|by eapply zone_control]|]. intros r s' (a & -> & HLa & Hinv' & Hk). exists a, (<[a := c]> L), V. done.
  - destruct (npages_bounds _ Hn) as [Hp _]. rewrite wp_bind. eapply wp_mono; [by eapply pages_alloc_inv|]. intros a s' (Hinv' & HVa & HLa & Hst). rewrite wp_ret.
    exists a, L, (<[a := npages n]> V). split_and!; [done|done|done|done|by apply insert_subseteq].
Qed.
(** A buffer becomes a magazine. *)
Lemma mags_add ncpus A L s m c l : mags_ok ncpus A (<[m := c]> L) s → L !! m = None → mags_ok ncpus A L (set_mags (<[m := l]> (mags s)) s).
Proof.
  intros [H1 H2 H3 H4 H5 H6 H7] HL. destruct (H6 m c) as (HA & Hm & Hc); [by rewrite lookup_insert_eq|].
  assert (∀ w p r, mag s w = Some (p, r) → p ≠ m) as Hmag.
  { intros w p r Hw ->. destruct (mag_in_mags ncpus A (<[m := c]> L) s w m r) as [? ?]; [done|done|congruence]. }
  assert (∀ w i, round (set_mags (<[m := l]> (mags s)) s) w i = round s w i) as Hround.
  { intros w i. unfold round. change (mag (set_mags (<[m := l]> (mags s)) s) w) with (mag s w). destruct (mag s w) as [[p r]|] eqn:Hw; [|done]. simpl. case_decide; [|done].
    by rewrite lookup_insert_ne by (apply not_eq_sym; by eapply Hmag). }
  split; [done| |done|..].
  - intros c' cc cpu x b Hcc Hx. destruct (H2 c' cc cpu x b Hcc Hx) as (l' & Hl' & Hr). exists l'. simpl. rewrite lookup_insert_ne; [done|]. intros He. rewrite <- He in Hl'. congruence.
  - intros w i o. rewrite Hround. intros Ho. destruct (H4 _ _ _ Ho) as (? & HLo & ? & ?). apply lookup_insert_None in HLo as [HLo Hne]. split_and!; [done|done| |done]. simpl. by rewrite lookup_insert_ne.
  - intros w i w' i' o. rewrite !Hround. apply H5.
  - intros o c' Ho. assert (m ≠ o) by congruence. destruct (H6 o c') as (? & ? & ?); [by rewrite lookup_insert_ne|]. split_and!; [done| |done]. simpl. by rewrite lookup_insert_ne.
  - intros m' l' Hm'. simpl in Hm'. destruct (decide (m' = m)) as [->|Hne]; [eauto|]. rewrite lookup_insert_ne in Hm' by done. by eapply H7.
Qed.
Definition new_mag : list Z := replicate 32 0.
Lemma magazine_create_ok ncpus L V k s cpu : kmem_inv ncpus L V (S k) s → quiet s →
  wp (magazine_create cpu 32) (λ r s', ∃ m, r = Some m ∧ kmem_inv ncpus L V k s' ∧ quiet s' ∧ core <$> caches s' = core <$> caches s ∧ mags s !! m = None ∧ mags s' = <[m := new_mag]> (mags s)) s.
Proof.
  intros Hinv Hq. unfold magazine_create. rewrite wp_bind. eapply wp_mono; [eapply (xalloc_quiet ncpus L V k); [exact Hinv|done|lia]|].
  intros r s1 (m & L' & V' & -> & Hinv1 & Hk & -> & -> & HLm). rewrite wp_bind, wp_modify, wp_ret. exists m. destruct Hinv1 as (E & A & B & Hok & Hmo & HV & HE & Hz).
  split_and!; [done| |exact (kept_quiet _ _ Hk Hq)|apply Hk|..].
  - exists E, A, B. split_and!; [by apply kmem_ok_mags|by eapply mags_add|done|done|done].
  - rewrite <- (ke_mags _ _ Hk). eapply (mo_live _ _ _ _ Hmo m). by rewrite lookup_insert_eq.
  - simpl. by rewrite (ke_mags _ _ Hk).
Qed.
Definition ptrs (l : list kmem_cpu_cache) : list Z := concat (map (λ x, [cc_loaded x; cc_prev x]) l).
(** New, empty magazines. *)
Definition fresh_mags (m m' : gmap Z (list Z)) (l : list kmem_cpu_cache) : Prop :=
  m ⊆ m' ∧ NoDup (ptrs l) ∧ (∀ p, p ∈ ptrs l → m !! p = None ∧ m' !! p = Some new_mag) ∧ ∀ x, x ∈ l → cc_rounds x = 0 ∧ cc_prev_rounds x = 0 ∧ cc_magsize x = 32.
Lemma new_cpu_caches_ok n cpu ncpus L V k : ∀ s, kmem_inv ncpus L V (2 * n + k) s → quiet s →
  wp (new_cpu_caches n cpu 32) (λ l s', length l = n ∧ kmem_inv ncpus L V k s' ∧ quiet s' ∧ core <$> caches s' = core <$> caches s ∧ fresh_mags (mags s) (mags s') l) s.
Proof.
  induction n as [|n IH]; intros s Hinv Hq; cbn [new_cpu_caches].
  { rewrite wp_ret. split_and!; try done. split_and!; [done|constructor|by intros p ?%elem_of_nil|by intros x ?%elem_of_nil]. }
  replace (2 * S n + k)%nat with (S (S (2 * n + k))) in Hinv by lia.
  rewrite wp_bind. eapply wp_mono; [by apply magazine_create_ok|]. intros r s1 (m1 & -> & Hinv1 & Hq1 & Hc1 & Hn1 & Hm1). rewrite wp_bind, wp_deref. exists m1. split; [done|].
  rewrite wp_bind. eapply wp_mono; [by apply magazine_create_ok|]. intros r s2 (m2 & -> & Hinv2 & Hq2 & Hc2 & Hn2 & Hm2). rewrite wp_bind, wp_deref. exists m2. split; [done|].
  rewrite wp_bind. eapply wp_mono; [by apply IH|]. intros l s3 (Hlen & Hinv3 & Hq3 & Hc3 & Hsub & Hnd & Hfr & Hz). rewrite wp_ret.
  rewrite Hm1 in Hn2. apply lookup_insert_None in Hn2 as [Hn2 Hne].
  assert (mags s2 !! m1 = Some new_mag ∧ mags s2 !! m2 = Some new_mag) as [Ho1 Ho2] by (rewrite Hm2, Hm1, lookup_insert_ne, !lookup_insert_eq by done; done).
  assert (mags s ⊆ mags s2) as Hs2. { rewrite Hm2, Hm1. etrans; [|apply insert_subseteq; by rewrite lookup_insert_ne]. by apply insert_subseteq. }
  split_and!; [simpl; lia|done|done|congruence|]. unfold fresh_mags. change (ptrs (CpuCache m1 m2 0 0 32 :: l)) with (m1 :: m2 :: ptrs l). split_and!; [by etrans| | |].
  - constructor; [|constructor; [|done]].
    + rewrite elem_of_cons. intros [?|Hp]; [done|]. destruct (Hfr _ Hp). congruence.
    + intros Hp. destruct (Hfr _ Hp). congruence.
  - intros p. rewrite !elem_of_cons. intros [->|[->|Hp]]; [split; [done|by eapply lookup_weaken]|split; [done|by eapply lookup_weaken]|].
    destruct (Hfr _ Hp) as [Hx ?]. split; [by eapply lookup_weaken_None|done].
  - intros x [->|Hx]%elem_of_cons; [done|by apply Hz].
Qed.
Lemma ptrs_lookup l i x b : l !! i = Some x → ptrs l !! (2 * i + (if b : bool then 0 else 1))%nat = Some (mag_of x b).1.
Proof.
  revert i. induction l as [|y l IH]; intros [|i] Hi; simplify_eq/=; [by destruct b|]. change (ptrs (y :: l)) with (cc_loaded y :: cc_prev y :: ptrs l).
  replace (i + S (i + 0) + (if b then 0 else 1))%nat with (S (2 * i + (if b then 0 else 1)))%nat by (destruct b; lia). simpl. by apply IH.
Qed.
(** A cache gets its magazines. *)
Lemma install_mags ncpus A L s c cc cc' l : mags_ok ncpus A L s → caches s !! c = Some cc → cache_cpu cc = [] → cache_cpu cc' = l → use_magazines cc' = false →
  (∀ w p r, mag s w = Some (p, r) → p ∉ ptrs l) → NoDup (ptrs l) → (∀ p, p ∈ ptrs l → mags s !! p = Some new_mag) →
  (∀ x, x ∈ l → cc_rounds x = 0 ∧ cc_prev_rounds x = 0 ∧ cc_magsize x = 32) → mags_ok ncpus A L (set_caches (<[c := cc']> (caches s)) s).
Proof.
  intros [H1 H2 H3 H4 H5 H6 H7] Hcc Hnil Hl Hu Hun Hnd Hfr Hz. set (s' := set_caches _ s).
  assert (∀ w, mag s' w = if decide (w.1.1 = c) then x ← l !! w.1.2; Some (mag_of x w.2) else mag s w) as Hmag.
  { intros w. unfold mag. simpl. case_decide as Hw; [rewrite Hw, lookup_insert_eq; simpl; by rewrite Hl|by rewrite lookup_insert_ne]. }
  assert (∀ x b, x ∈ l → (mag_of x b).1 ∈ ptrs l ∧ (mag_of x b).2 = 0) as Hof.
  { intros x b Hx. destruct (Hz _ Hx) as (? & ? & _). split; [|by destruct b]. apply list_elem_of_lookup in Hx as [i Hi]. by eapply list_elem_of_lookup_2, ptrs_lookup. }
  assert (∀ w i o, round s' w i = Some o → round s w i = Some o) as Hround.
  { intros w i o. unfold round. rewrite Hmag. case_decide as Hw; [|done]. destruct (l !! w.1.2) as [x|] eqn:Hx; [|done]. simpl. apply list_elem_of_lookup_2 in Hx. destruct (Hof x w.2 Hx) as [_ ->].
    case_decide; [lia|done]. }
  assert (∀ cpu b cpu' b' x y, l !! cpu = Some x → l !! cpu' = Some y → (mag_of x b).1 = (mag_of y b').1 → cpu = cpu' ∧ b = b') as Hpinj.
  { intros cpu b cpu' b' x y Hx Hy He. pose proof (ptrs_lookup _ _ _ b Hx) as Hp. rewrite He in Hp. pose proof (NoDup_lookup _ _ _ _ Hnd Hp (ptrs_lookup _ _ _ b' Hy)). destruct b, b'; lia || (split; [lia|done]). }
  split; [| | |..].
  - intros c' cc0 Hc0 Hu0. simpl in Hc0. destruct (decide (c' = c)) as [->|Hne]; [rewrite lookup_insert_eq in Hc0; congruence|]. rewrite lookup_insert_ne in Hc0 by done. by eapply H1.
  - intros c' cc0 cpu x b Hc0 Hx. simpl in Hc0. destruct (decide (c' = c)) as [->|Hne]; [|rewrite lookup_insert_ne in Hc0 by done; by eapply H2].
    rewrite lookup_insert_eq in Hc0. injection Hc0 as <-. rewrite Hl in Hx. apply list_elem_of_lookup_2 in Hx. destruct (Hof x b Hx) as [Hp ->]. destruct (Hz _ Hx) as (_ & _ & ->).
    exists new_mag. split; [by apply Hfr|]. by vm_compute.
  - intros w w' p r r'. rewrite !Hmag. destruct w as [[c1 cpu1] b1], w' as [[c2 cpu2] b2]. simpl. destruct (decide (c1 = c)) as [Hc1|Hc1], (decide (c2 = c)) as [Hc2|Hc2].
    + destruct (l !! cpu1) as [x|] eqn:Hx, (l !! cpu2) as [y|] eqn:Hy; try done. simpl. intros [= He1] [= He2]. destruct (Hpinj cpu1 b1 cpu2 b2 x y Hx Hy) as [-> ->]; [by rewrite He1, He2|congruence].
    + destruct (l !! cpu1) as [x|] eqn:Hx; [|done]. simpl. intros [= He1] Hw'. apply list_elem_of_lookup_2 in Hx. destruct (Hof x b1 Hx) as [Hp _]. rewrite He1 in Hp. by destruct (Hun _ _ _ Hw').
    + destruct (l !! cpu2) as [x|] eqn:Hx; [|done]. simpl. intros Hw [= He2]. apply list_elem_of_lookup_2 in Hx. destruct (Hof x b2 Hx) as [Hp _]. rewrite He2 in Hp. by destruct (Hun _ _ _ Hw).
    + by apply H3.
  - intros w i o Ho%Hround. by eapply H4.
  - intros w i w' i' o Ho%Hround Ho'%Hround. by eapply H5.
  - done.
  - done.
Qed.
Definition empty_depot (d : kmem_depot) : Prop := kd_full d = [] ∧ kd_empty d = [] ∧ kd_full_count d = 0 ∧ kd_empty_count d = 0.
Definition ready (ncpus : nat) (cc : kmem_cache) : Prop := length (cache_cpu cc) = ncpus ∧ empty_depot (depot cc).
Lemma install_inv ncpus L V k s c cc cc' : kmem_inv ncpus L V k s → caches s !! c = Some cc → cache_cpu cc = [] → key cc' = key cc → slabs cc' = slabs cc → use_magazines cc' = use_magazines cc → use_magazines cc' = false →
  (∀ w p r, mag s w = Some (p, r) → p ∉ ptrs (cache_cpu cc')) → NoDup (ptrs (cache_cpu cc')) → (∀ p, p ∈ ptrs (cache_cpu cc') → mags s !! p = Some new_mag) →
  (∀ x, x ∈ cache_cpu cc' → cc_rounds x = 0 ∧ cc_prev_rounds x = 0 ∧ cc_magsize x = 32) → kmem_inv ncpus L V k (set_caches (<[c := cc']> (caches s)) s).
Proof.
  intros (E & A & B & Hok & Hmo & HV & HE & Hz) Hcc Hnil Hkey Hsl Hu Hf Hun Hnd Hfr Hr. exists E, A, B. split_and!; [by eapply kmem_ok_cache|by eapply install_mags|done|done|].
  intros i Hi. destruct (Hz i Hi) as (cc0 & Hc0 & Hsz). simpl. destruct (decide (i = c)) as [->|Hne]; [|rewrite lookup_insert_ne by done; eauto]. rewrite lookup_insert_eq. exists cc'. split; [done|].
  unfold key in Hkey. congruence.
Qed.
Lemma quiet_insert s c cc : quiet s → use_magazines cc = false → quiet (set_caches (<[c := cc]> (caches s)) s).
Proof.
  intros Hq Hu c' cc' Hc. simpl in Hc. destruct (decide (c' = c)) as [->|Hne]; [rewrite lookup_insert_eq in Hc; congruence|]. rewrite lookup_insert_ne in Hc by done. by eapply Hq.
Qed.
Definition layer_need (ncpus : nat) : nat := xneed (40 * Z.of_nat ncpus) + 2 * ncpus.
Lemma layer_init_ok ncpus cpu c L V k s cc : kmem_inv ncpus L V (layer_need ncpus + k) s → quiet s → caches s !! c = Some cc → cache_cpu cc = [] → 0 < Z.of_nat ncpus < 2 ^ 32 →
  wp (magazine_layer_init ncpus cpu c 32) (λ _ s', ∃ L' V', kmem_inv ncpus L' V' k s' ∧ quiet s' ∧ (∃ cc', caches s' !! c = Some cc' ∧ ready ncpus cc') ∧
    ∀ c', c' ≠ c → core <$> (caches s' !! c') = core <$> (caches s !! c')) s.
Proof.
  intros Hinv Hq Hcc Hnil Hn. unfold magazine_layer_init, depot_set. rewrite !wp_bind, wp_cache_at. exists cc. split; [done|]. rewrite wp_cache_set, wp_bind.
  set (cc1 := with_depot (Depot [] [] 0 0 32) cc). set (s1 := set_caches _ s).
  assert (kmem_inv ncpus L V (layer_need ncpus + k) s1) as Hinv1.
  { eapply (install_inv ncpus L V _ s c cc cc1); try done; simpl; rewrite ?Hnil; [exact (Hq _ _ Hcc)|by intros w p r _ ?%elem_of_nil|constructor|by intros p ?%elem_of_nil|by intros x ?%elem_of_nil]. }
  assert (quiet s1) as Hq1 by (apply quiet_insert; [done|exact (Hq _ _ Hcc)]).
  assert (∀ c', c' ≠ c → caches s1 !! c' = caches s !! c') as Hs1 by (intros c' Hne; simpl; by rewrite lookup_insert_ne).
  replace (layer_need ncpus + k)%nat with (xneed (sizeof_kmem_cpu_cache * Z.of_nat ncpus) + (2 * ncpus + k))%nat in Hinv1 by (unfold layer_need, sizeof_kmem_cpu_cache; lia).
  eapply wp_mono; [eapply xalloc_quiet; [done|done|unfold sizeof_kmem_cpu_cache; lia]|]. intros r s2 (a & L2 & V2 & -> & Hinv2 & Hk2 & _). rewrite wp_bind, wp_deref. exists a. split; [done|].
  rewrite wp_bind. eapply wp_mono; [eapply new_cpu_caches_ok; [done|by eapply kept_quiet]|]. intros l s3 (Hlen & Hinv3 & Hq3 & Hc3 & Hsub & Hnd & Hfr & Hz).
  assert (core <$> caches s3 = core <$> caches s1) as Hc31 by (rewrite Hc3; apply Hk2).
  assert (∀ c', core <$> (caches s3 !! c') = core <$> (caches s1 !! c')) as Hc31' by (intros c'; by rewrite <- !core_lookup, Hc31).
  destruct (caches s3 !! c) as [cc3|] eqn:Hcc3; [|pose proof (Hc31' c) as Hx; rewrite Hcc3 in Hx; simpl in Hx; by rewrite lookup_insert_eq in Hx].
  assert (core cc3 = core cc1) as Hco by (pose proof (Hc31' c) as Hx; rewrite Hcc3 in Hx; simpl in Hx; rewrite lookup_insert_eq in Hx; simpl in Hx; congruence).
  assert (cache_cpu cc3 = [] ∧ depot cc3 = Depot [] [] 0 0 32) as [Hn3 Hd3].
  { split; [change (cache_cpu (core cc3) = [])|change (depot (core cc3) = Depot [] [] 0 0 32)]; rewrite Hco; simpl; done. }
  rewrite wp_bind, wp_cache_at. exists cc3. split; [done|]. rewrite wp_cache_set. exists L2, V2. split_and!.
  - eapply (install_inv ncpus L2 V2 k s3 c cc3); try done; simpl.
    + exact (Hq3 _ _ Hcc3).
    + intros w p r Hw Hp. destruct (Hfr _ Hp) as [Hno _]. rewrite (mag_core s2) in Hw by done. destruct Hinv2 as (E & A & B & _ & Hmo & _).
      destruct (mag_in_mags _ _ _ _ _ _ _ Hmo Hw). congruence.
    + intros p Hp. by destruct (Hfr _ Hp).
  - apply quiet_insert; [done|]. exact (Hq3 _ _ Hcc3).
  - simpl. rewrite lookup_insert_eq. eexists. split; [done|]. split; [done|]. simpl. by rewrite Hd3.
  - intros c' Hne. simpl. rewrite lookup_insert_ne by done. rewrite Hc31', Hs1 by done. done.
Qed.
Lemma core_some s s' c (R : kmem_cache → Prop) : core <$> (caches s' !! c) = core <$> (caches s !! c) → (∀ cc, R (core cc) ↔ R cc) →
  (∃ cc, caches s !! c = Some cc ∧ R cc) → ∃ cc, caches s' !! c = Some cc ∧ R cc.
Proof.
  intros Hco HR (cc & Hcc & Hr). rewrite Hcc in Hco. apply fmap_Some in Hco as (cc' & Hcc' & Hco). exists cc'. split; [done|]. apply HR. rewrite <- Hco. by apply HR.
Qed.
Lemma init_magazines_ok ncpus cpu k : 0 < Z.of_nat ncpus < 2 ^ 32 → ∀ n i L V s, kmem_inv ncpus L V (n * layer_need ncpus + k) s → quiet s → 0 ≤ i → i + Z.of_nat n = 10 →
  (∀ j, 0 ≤ j < i → ∃ cc, caches s !! j = Some cc ∧ ready ncpus cc) → (∀ j, i ≤ j < 10 → ∃ cc, caches s !! j = Some cc ∧ cache_cpu cc = []) →
  wp (init_magazines n ncpus cpu i) (λ _ s', ∃ L' V', kmem_inv ncpus L' V' k s' ∧ quiet s' ∧ ∀ j, 0 ≤ j < 10 → ∃ cc, caches s' !! j = Some cc ∧ ready ncpus cc) s.
Proof.
  intros Hn. induction n as [|n IH]; intros i L V s Hinv Hq Hi Hin Hlo Hhi; cbn [init_magazines].
  { rewrite wp_ret. exists L, V. split_and!; [done|done|]. intros j Hj. apply Hlo. lia. }
  destruct (Hhi i) as (cc & Hcc & Hnil); [lia|]. replace (S n * layer_need ncpus + k)%nat with (layer_need ncpus + (n * layer_need ncpus + k))%nat in Hinv by lia.
  rewrite wp_bind. eapply wp_mono; [by eapply layer_init_ok|]. intros [] s1 (L1 & V1 & Hinv1 & Hq1 & Hr1 & Hrest).
  apply (IH _ L1 V1); [done|done|lia|lia| |].
  - intros j Hj. destruct (decide (j = i)) as [->|Hne]; [done|]. apply (core_some s); [by apply Hrest|done|]. apply Hlo. lia.
  - intros j Hj. apply (core_some s); [apply Hrest; lia|done|]. apply Hhi. lia.
Qed.
(** A prepared cache starts to use its magazines. *)
Lemma enable_inv ncpus L V k s c cc : kmem_inv ncpus L V k s → caches s !! c = Some cc → ready ncpus cc → ¬ of_control c →
  kmem_inv ncpus L V k (set_caches (<[c := Cache (size cc) (align cc) (slabs cc) (alloced cc) (cache_cpu cc) (depot cc) (cache_magsize cc) true]> (caches s)) s).
Proof.
  intros (E & A & B & Hok & [H1 H2 H3 H4 H5 H6 H7] & HV & HE & Hz) Hcc [Hlen Hdep] Hct. set (cc' := Cache _ _ _ _ _ _ _ _). set (s' := set_caches _ s).
  assert (∀ w, mag s' w = mag s w) as Hmag.
  { intros w. unfold mag. simpl. destruct (decide (w.1.1 = c)) as [->|Hne]; [by rewrite lookup_insert_eq, Hcc|by rewrite lookup_insert_ne]. }
  assert (∀ w i, round s' w i = round s w i) as Hround by (intros w i; unfold round; by rewrite Hmag).
  assert (∀ c0 cc0, caches s' !! c0 = Some cc0 → c0 = c ∧ cc0 = cc' ∨ caches s !! c0 = Some cc0) as Hcs.
  { intros c0 cc0 Hc0. simpl in Hc0. apply lookup_insert_Some in Hc0 as [[<- <-]|[_ ?]]; auto. }
  exists E, A, B. split_and!; [by eapply kmem_ok_cache| |done|done|].
  - split; try done.
    + intros c0 cc0 Hc0 Hu. destruct (Hcs _ _ Hc0) as [[-> ->]|Hc1]; [done|by eapply H1].
    + intros c0 cc0 i x b Hc0. destruct (Hcs _ _ Hc0) as [[-> ->]|Hc1]; [by apply (H2 c cc)|by apply (H2 c0 cc0)].
    + intros w w' p r r'. rewrite !Hmag. apply H3.
    + intros w i o. rewrite Hround. apply H4.
    + intros w i w' i' o. rewrite !Hround. apply H5.
  - intros i Hi. destruct (Hz i Hi) as (cc0 & Hc0 & Hsz). simpl. destruct (decide (i = c)) as [->|Hne]; [|rewrite lookup_insert_ne by done; eauto]. rewrite lookup_insert_eq. exists cc'. split; [done|].
    simpl. congruence.
Qed.
Lemma enable_magazines_ok ncpus L V k n : ∀ i s, kmem_inv ncpus L V k s → 0 ≤ i → i + Z.of_nat n = 10 → (∀ j, 0 ≤ j < 10 → ∃ cc, caches s !! j = Some cc ∧ ready ncpus cc) →
  wp (enable_magazines n i) (λ _ s', kmem_inv ncpus L V k s') s.
Proof.
  induction n as [|n IH]; intros i s Hinv Hi Hin Hr; cbn [enable_magazines]; [by rewrite wp_ret|].
  destruct (Hr i) as (cc & Hcc & Hrd); [lia|]. rewrite wp_bind, wp_cache_at. exists cc. split; [done|]. rewrite wp_bind, wp_cache_set. apply IH; [|lia|lia|].
  - eapply enable_inv; [done|done|done|]. unfold of_control, kmem_bufctl_cache, kmem_slab_cache. lia.
  - intros j Hj. simpl. destruct (decide (j = i)) as [->|Hne]; [rewrite lookup_insert_eq; eauto|rewrite lookup_insert_ne by done; by apply Hr].
Qed.
Definition boot_need (ncpus : nat) : nat := 10 * layer_need ncpus.
Lemma kmem_boot_ok ncpus cpu k p : holds p ∅ (boot_need ncpus + k) → 0 < Z.of_nat ncpus < 2 ^ 32 → wp (kmem_init;; kmem_postsmp_init ncpus cpu) (λ _ s, kmem_heap ncpus ∅ k s) (blank p).
Proof.
  intros Hp Hn. rewrite wp_bind. eapply wp_mono; [by apply kmem_init_ok|]. intros [] s (Hinv & Hq & Hnil). unfold kmem_postsmp_init. rewrite wp_bind.
  eapply wp_mono; [eapply (init_magazines_ok ncpus cpu k Hn 10 0); [exact Hinv|exact Hq|lia|lia|lia|]|].
  { intros j Hj. apply Hnil. lia. }
  intros [] s1 (L & V & Hinv1 & _ & Hr). eapply wp_mono; [eapply enable_magazines_ok; [done|lia|lia|done]|]. intros [] s2 Hinv2. exists L, V. split; [done|]. intros a n Ha. by rewrite lookup_empty in Ha.
Qed.
End start.
