(* ===== verification/KmemTheorems.v ===== *)
(** Kernel memory: the allocator's clients (kernel/vm/kmem_cache.c).

    Resizing, the variants that keep the size in front of the buffer, and any sequence of
    requests after start-up.  [data] is spoken of only within memory in use. *)
From S2P Require Import Prelude Kmem KmemInv KmemAlloc KmemMag KmemHeap KmemSizes KmemStart.
Import Kmem.
Local Open Scope Z_scope.

Section clients.
Context {P : Type} `{PageLaws P}.
Implicit Types (s : kst P) (M L V : gmap Z Z).

(** ** The heap *)

Lemma heap_apart ncpus M k s a n b m : kmem_heap ncpus M k s → M !! a = Some n → M !! b = Some m → a ≠ b → apart a n b m.
Proof. intros (L & V & Hinv & HM) Ha Hb Hne. by eapply in_use_apart; [|apply HM|apply HM|]. Qed.
Lemma heap_size ncpus M k s a n : kmem_heap ncpus M k s → M !! a = Some n → 0 < n < 2 ^ 60.
Proof. intros (L & V & _ & HM) Ha. apply (HM _ _ Ha). Qed.
Lemma heap_weaken ncpus M k k' s : kmem_heap ncpus M k s → (k' ≤ k)%nat → kmem_heap ncpus M k' s.
Proof.
  intros (L & V & (E & A & B & [H1 H2 H3 H4] & Hrest) & HM) Hk. exists L, V. split; [|done]. exists E, A, B. split; [|done]. split; try done. by eapply holds_weaken.
Qed.
Lemma heap_data ncpus M k s d : kmem_heap ncpus M k s → kmem_heap ncpus M k (set_data d s).
Proof.
  intros (L & V & (E & A & B & [H1 H2 H3 H4] & Hmo & Hrest) & HM). exists L, V. split; [|done]. exists E, A, B. split; [|split; [|done]].
  - split; [exact (content_ext _ _ _ _ (erase s) (erase (set_data d s)) eq_refl eq_refl (λ _, eq_refl) (λ _ _, eq_refl) H1)|by destruct H2|done|done].
  - by destruct Hmo.
Qed.
(** Within its zone a buffer changes size for nothing. *)
Lemma heap_resize ncpus M k s a n n' z : kmem_heap ncpus M k s → M !! a = Some n → zone_of n = Some z → zone_of n' = Some z → 0 < n' → kmem_heap ncpus (<[a := n']> (delete a M)) k s.
Proof.
  intros (L & V & Hinv & HM) Ha Hz Hz' Hn. exists L, V. split; [done|]. intros x m Hx. destruct (decide (x = a)) as [->|Hne].
  - rewrite lookup_insert_eq in Hx. injection Hx as <-. destruct (HM _ _ Ha) as [_ Hu]. rewrite Hz in Hu. pose proof (zone_size _ _ Hz') as [Hb1 Hb2]. unfold in_use. rewrite Hz'. split; [|done].
    split; [done|]. pose proof (Z.pow_le_mono_r 2 z 8). lia.
  - rewrite lookup_insert_ne, lookup_delete_ne in Hx by done. by apply HM.
Qed.

(** ** Resizing *)

(** The [n] bytes at [a] are, in [s'], those that were at [b] in [s]. *)
Definition same_bytes s s' (b a n : Z) : Prop := ∀ i, 0 ≤ i < n → data s' (a + i) = data s (b + i).
(** Memory in use other than the object at [a] keeps what it holds. *)
Definition undisturbed M s s' (a : Z) : Prop := ∀ b m, b ≠ a → M !! b = Some m → same_bytes s s' b b m.
Definition resized ncpus M (k : nat) s (a n n' : Z) (r : option Z) s' : Prop :=
  ∃ a', r = Some a' ∧ kmem_heap ncpus (<[a' := n']> (delete a M)) k s' ∧ same_bytes s s' a a' (Z.min n n') ∧ undisturbed M s s' a ∧ (a' = a ∨ M !! a' = None).

Lemma xrealloc_ok ncpus M k s cpu a n n' flags : kmem_heap ncpus M (xneed n' + k) s → M !! a = Some n → 0 < n' < 2 ^ 60 → (cpu < ncpus)%nat →
  wp (kmem_xrealloc cpu (Some a) n n' flags) (resized ncpus M k s a n n') s.
Proof.
  intros Hh Ha Hn Hcpu. pose proof (heap_size _ _ _ _ _ _ Hh Ha) as Hn0. unfold kmem_xrealloc. rewrite (proj2 (Z.eqb_neq n' 0)) by lia.
  assert (kmem_heap ncpus M k s) as Hk by (eapply heap_weaken; [done|lia]).
  assert (∀ t, kmem_heap ncpus (<[a := n']> (delete a M)) k s → t = s → resized ncpus M k s a n n' (Some a) t) as Hsame by (intros t Ht ->; exists a; split_and!; [done|done|done|done|by left]).
  destruct (Z.eqb_spec n' n) as [->|Hne].
  { rewrite wp_ret. apply Hsame; [|done]. by rewrite insert_delete_eq, insert_id. }
  rewrite wp_bind, wp_zonenum, wp_bind, wp_zonenum by lia. destruct (bool_decide (is_Some (zone_of n)) && _ && _) eqn:Hz.
  { apply andb_true_iff in Hz as [[Hz1 Hz2]%andb_true_iff Hz3]. apply bool_decide_eq_true in Hz1 as [z Hz1]. apply bool_decide_eq_true in Hz3.
    rewrite wp_ret. apply Hsame; [|done]. eapply (heap_resize _ _ _ _ _ n n' z); [done|done|done|congruence|lia]. }
  rewrite wp_bind. eapply wp_mono; [by eapply kmem_xalloc_ok|]. intros r s1 (a' & -> & Hfresh & Hh1 & Hap & Hd1 & _). unfold memcpy. rewrite wp_bind, wp_modify. set (s2 := set_data _ s1).
  assert (a' ≠ a) as Haa by congruence.
  rewrite wp_bind. eapply wp_mono; [eapply (kmem_xfree_ok ncpus (<[a' := n']> M)); [by apply heap_data|by rewrite lookup_insert_ne|done]|].
  intros [] s3 [Hh3 [Hd3 _]]. rewrite wp_ret. exists a'. rewrite delete_insert_ne in Hh3 by done. split_and!; [done|done| | |by right].
  - intros i Hi. rewrite Hd3. unfold s2. simpl. rewrite Hd1. rewrite (proj2 (Z.leb_le a' (a' + i))), (proj2 (Z.ltb_lt (a' + i) _)) by lia. simpl. f_equal. lia.
  - intros b m Hb Hm i Hi. rewrite Hd3. unfold s2. simpl. rewrite Hd1. pose proof (Hap _ _ Hm) as Hab.
    destruct (Z.leb_spec a' (b + i)), (Z.ltb_spec (b + i) (a' + Z.min n n')); simpl; try done. unfold apart in Hab. lia.
Qed.

(** ** Memory that knows its size *)

(** The size kept at [p]. *)
Definition header s (p : Z) : Z := foldr (λ i v, data s (p + Z.of_nat i) + 256 * v) 0 (seq 0 8).
Lemma header_bytes s s' p : same_bytes s s' p p 8 → header s' p = header s p.
Proof. intros Hb. unfold header. cbn [seq foldr]. by rewrite !Hb by lia. Qed.
Lemma header_stored s p v : 0 ≤ v < 2 ^ 64 → header (set_data (λ a, if (p <=? a) && (a <? p + 8) then v / 256 ^ (a - p) mod 256 else data s a) s) p = v.
Proof.
  intros Hv. unfold header. cbn [seq foldr data set_data].
  assert (∀ i : nat, (i < 8)%nat → (if (p <=? p + Z.of_nat i) && (p + Z.of_nat i <? p + 8) then v / 256 ^ (p + Z.of_nat i - p) mod 256 else data s (p + Z.of_nat i)) = (v / 256 ^ Z.of_nat i) mod 256) as Hb.
  { intros i Hi. rewrite (proj2 (Z.leb_le _ _)), (proj2 (Z.ltb_lt _ _)) by lia. simpl. by replace (p + Z.of_nat i - p) with (Z.of_nat i) by lia. }
  rewrite !Hb by lia. clear Hb. change (256 ^ Z.of_nat 0) with 1. rewrite Z.div_1_r.
  assert (∀ i : nat, v / 256 ^ Z.of_nat (S i) = v / 256 ^ Z.of_nat i / 256) as Hs by (intros i; rewrite Z.div_div by (apply Z.pow_nonzero || lia; lia); f_equal; rewrite Nat2Z.inj_succ, Z.pow_succ_r by lia; lia).
  rewrite !Hs. change (256 ^ Z.of_nat 0) with 1. rewrite Z.div_1_r.
  assert (v / 256 / 256 / 256 / 256 / 256 / 256 / 256 / 256 = 0) as Hzero by (rewrite !Z.div_div by lia; apply Z.div_small; lia).
  pose proof (Z.div_mod v 256). pose proof (Z.div_mod (v / 256) 256). pose proof (Z.div_mod (v / 256 / 256) 256). pose proof (Z.div_mod (v / 256 / 256 / 256) 256).
  pose proof (Z.div_mod (v / 256 / 256 / 256 / 256) 256). pose proof (Z.div_mod (v / 256 / 256 / 256 / 256 / 256) 256). pose proof (Z.div_mod (v / 256 / 256 / 256 / 256 / 256 / 256) 256).
  pose proof (Z.div_mod (v / 256 / 256 / 256 / 256 / 256 / 256 / 256) 256). lia.
Qed.
(** [p] is memory of [n] bytes from [kmem_malloc]. *)
Definition mobject M s (p n : Z) : Prop := M !! (p - 8) = Some (n + 8) ∧ header s (p - 8) = n.
Lemma wp_load_size p (Q : Z → kst P → Prop) s : wp (load_size p) Q s ↔ Q (header s p) s.
Proof. done. Qed.

Lemma malloc_ok ncpus M k s cpu n : kmem_heap ncpus M (xneed (n + 8) + k) s → 0 ≤ n < 2 ^ 59 → (cpu < ncpus)%nat →
  wp (kmem_malloc cpu n) (λ r s', ∃ p M', r = Some p ∧ M' = <[p - 8 := n + 8]> M ∧ M !! (p - 8) = None ∧ kmem_heap ncpus M' k s' ∧ mobject M' s' p n ∧ ∀ b m, M !! b = Some m → same_bytes s s' b b m) s.
Proof.
  intros Hh Hn Hcpu. unfold kmem_malloc. rewrite u64_small by lia. rewrite wp_bind. eapply wp_mono; [eapply kmem_xalloc_ok; [done|lia|done]|].
  intros r s1 (a & -> & Hfresh & Hh1 & Hap & Hd & _). unfold store_size. rewrite wp_bind, wp_modify, wp_ret. exists (a + 8), (<[a := n + 8]> M). unfold mobject. replace (a + 8 - 8) with a by lia.
  split_and!; [done|done|done|by apply heap_data|by rewrite lookup_insert_eq|by apply header_stored; lia|].
  intros b m Hb i Hi. simpl. rewrite Hd. pose proof (Hap _ _ Hb) as Hab. destruct (Z.leb_spec a (b + i)), (Z.ltb_spec (b + i) (a + 8)); simpl; try done. unfold apart in Hab. lia.
Qed.
Lemma mfree_ok ncpus M k s cpu p n : kmem_heap ncpus M k s → mobject M s p n → (cpu < ncpus)%nat →
  wp (kmem_mfree cpu (Some p)) (λ _ s', kmem_heap ncpus (delete (p - 8) M) k s' ∧ data s' = data s) s.
Proof.
  intros Hh [Ha Hs] Hcpu. pose proof (heap_size _ _ _ _ _ _ Hh Ha). unfold kmem_mfree. rewrite wp_bind, wp_load_size, Hs, u64_small by lia.
  eapply wp_mono; [by eapply kmem_xfree_ok|]. intros [] s' [Hh' [Hd _]]. done.
Qed.
Lemma mfree_verify_ok ncpus M k s cpu p n : kmem_heap ncpus M k s → mobject M s p n → (cpu < ncpus)%nat →
  wp (kmem_mfree_sizeverify cpu (Some p) n) (λ _ s', kmem_heap ncpus (delete (p - 8) M) k s' ∧ data s' = data s) s.
Proof.
  intros Hh [Ha Hs] Hcpu. pose proof (heap_size _ _ _ _ _ _ Hh Ha). unfold kmem_mfree_sizeverify. rewrite wp_bind, wp_load_size, Hs, wp_bind, wp_kassert, u64_small by lia.
  split; [lia|]. eapply wp_mono; [by eapply kmem_xfree_ok|]. intros [] s' [Hh' [Hd _]]. done.
Qed.
Lemma mrealloc_ok ncpus M k s cpu p n n' : kmem_heap ncpus M (xneed (n' + 8) + k) s → mobject M s p n → 0 < n' < 2 ^ 59 → (cpu < ncpus)%nat →
  wp (kmem_mrealloc cpu (Some p) n') (λ r s', ∃ p' M', r = Some p' ∧ M' = <[p' - 8 := n' + 8]> (delete (p - 8) M) ∧ delete (p - 8) M !! (p' - 8) = None ∧ kmem_heap ncpus M' k s' ∧ mobject M' s' p' n' ∧
    same_bytes s s' p p' (Z.min n n') ∧ undisturbed M s s' (p - 8)) s.
Proof.
  intros Hh [Ha Hs] Hn Hcpu. pose proof (heap_size _ _ _ _ _ _ Hh Ha). unfold kmem_mrealloc. rewrite (proj2 (Z.eqb_neq n' 0)) by lia.
  rewrite wp_bind, wp_load_size, Hs, wp_bind, !u64_small by lia. eapply wp_mono; [eapply xrealloc_ok; [done|done|lia|done]|].
  intros r s1 (a & -> & Hh1 & Hsame & Hun & Hfr). unfold store_size. rewrite wp_bind, wp_modify, wp_ret. exists (a + 8), (<[a := n' + 8]> (delete (p - 8) M)). unfold mobject. replace (a + 8 - 8) with a by lia.
  split_and!; [done|done|apply lookup_delete_None; naive_solver|by apply heap_data|by rewrite lookup_insert_eq|by apply header_stored; lia| |].
  - intros i Hi. simpl. rewrite (proj2 (Z.ltb_ge (a + 8 + i) (a + 8))), andb_false_r by lia. pose proof (Hsame (8 + i)) as Hb. replace (a + 8 + i) with (a + (8 + i)) by lia. rewrite Hb by lia. f_equal. lia.
  - intros b m Hne Hb i Hi. simpl. rewrite (Hun b m Hne Hb i Hi).
    assert (a ≠ b) as Hab by (destruct Hfr as [->|]; congruence). assert (apart a (n' + 8) b m) as Hap by (eapply heap_apart; [exact Hh1|by rewrite lookup_insert_eq|by rewrite lookup_insert_ne, lookup_delete_ne|done]).
    destruct (Z.leb_spec a (b + i)), (Z.ltb_spec (b + i) (a + 8)); simpl; try done. unfold apart in Hap. lia.
Qed.
Lemma mcalloc_ok ncpus M k s cpu nmemb n : kmem_heap ncpus M (xneed (u64 (n * nmemb) + 8) + k) s → u64 (n * nmemb) < 2 ^ 59 → (cpu < ncpus)%nat →
  wp (kmem_mcalloc cpu nmemb n) (λ r s', ∃ p M', r = Some p ∧ M' = <[p - 8 := u64 (n * nmemb) + 8]> M ∧ M !! (p - 8) = None ∧ kmem_heap ncpus M' k s' ∧ mobject M' s' p (u64 (n * nmemb)) ∧
    (∀ i, 0 ≤ i < u64 (n * nmemb) → data s' (p + i) = 0) ∧ ∀ b m, M !! b = Some m → same_bytes s s' b b m) s.
Proof.
  intros Hh Hn Hcpu. unfold kmem_mcalloc. set (z := u64 (n * nmemb)) in *. assert (0 ≤ z) by (apply Z.mod_pos_bound; lia).
  rewrite wp_bind. eapply wp_mono; [eapply malloc_ok; [done|lia|done]|]. intros r s1 (p & M' & -> & HM' & Hfr & Hh1 & [Ho1 Ho2] & Hb1).
  unfold memset. rewrite wp_bind, wp_modify, wp_ret. exists p, M'. split_and!; [done|done|done|by apply heap_data|split; [done|]| |].
  - etrans; [|exact Ho2]. apply header_bytes. intros i Hi. simpl. by rewrite (proj2 (Z.leb_gt p (p - 8 + i))) by lia.
  - intros i Hi. simpl. by rewrite (proj2 (Z.leb_le p (p + i))), (proj2 (Z.ltb_lt (p + i) (p + z))) by lia.
  - intros b m Hb i Hi. simpl. assert (p - 8 ≠ b) by congruence. assert (apart (p - 8) (z + 8) b m) as Hap by (eapply heap_apart; [exact Hh1|done|by subst M'; rewrite lookup_insert_ne|done]).
    destruct (Z.leb_spec p (b + i)), (Z.ltb_spec (b + i) (p + z)); simpl; try (by apply (Hb1 _ _ Hb)). unfold apart in Hap. lia.
Qed.

(** ** Requests *)

(** A request for memory, or that what a client holds (the [j]th of all) be freed; each
    is made on some processor. *)
Inductive request := Get (cpu : nat) (n : Z) | Put (cpu : nat) (j : nat).
Fixpoint serve (rs : list request) (held : list (Z * Z)) : kern (kst P) (list (Z * Z)) :=
  match rs with
  | [] => mret held
  | Get cpu n :: rs => r ← kmem_xalloc cpu n 0; a ← deref "no memory" r; serve rs ((a, n) :: held)
  | Put cpu j :: rs =>
      match held !! j with
      | Some (a, n) => kmem_xfree cpu (Some a) n;; serve rs (delete j held)
      | None => serve rs held
      end
  end.
Definition request_ok (ncpus : nat) (r : request) : Prop := match r with Get cpu n => (cpu < ncpus)%nat ∧ 0 < n < 2 ^ 60 | Put cpu _ => (cpu < ncpus)%nat end.
Definition pages_for (r : request) : nat := match r with Get _ n => xneed n | Put _ _ => 0 end.
Definition total (rs : list request) : nat := foldr (λ r t, (pages_for r + t)%nat) 0%nat rs.
(** What is held is memory in use. *)
Definition holding ncpus (k : nat) (held : list (Z * Z)) s : Prop := ∃ M, kmem_heap ncpus M k s ∧ NoDup held.*1 ∧ ∀ x, x ∈ held → M !! x.1 = Some x.2.
Definition all_apart (held : list (Z * Z)) : Prop := ∀ i j x y, held !! i = Some x → held !! j = Some y → i ≠ j → apart x.1 x.2 y.1 y.2.

Lemma holding_apart ncpus k held s : holding ncpus k held s → all_apart held.
Proof.
  intros (M & Hh & Hnd & HM) i j x y Hi Hj Hne. eapply heap_apart; [done|apply HM; by eapply list_elem_of_lookup_2..|]. intros He. apply Hne. eapply NoDup_lookup; [exact Hnd|by rewrite list_lookup_fmap, Hi|].
  rewrite list_lookup_fmap, Hj. simpl. by rewrite He.
Qed.
Lemma serve_ok ncpus k rs : ∀ held s, Forall (request_ok ncpus) rs → holding ncpus (total rs + k) held s → wp (serve rs held) (λ held' s', holding ncpus k held' s') s.
Proof.
  induction rs as [|r rs IH]; intros held s Hok Hh; [done|]. apply Forall_cons in Hok as [Hr Hok]. destruct Hh as (M & Hh & Hnd & HM). destruct r as [cpu n|cpu j]; cbn [serve]; simpl in Hr, Hh.
  - destruct Hr as [Hcpu Hn]. rewrite <- Nat.add_assoc in Hh. rewrite wp_bind. eapply wp_mono; [by eapply kmem_xalloc_ok|]. intros r s1 (a & -> & HMa & Hh1 & _). rewrite wp_bind, wp_deref. exists a. split; [done|].
    apply IH; [done|]. exists (<[a := n]> M). assert (∀ x, x ∈ held → x.1 ≠ a) as Hnew by (intros x Hx He; pose proof (HM x Hx); congruence). split_and!; [done| |].
    + rewrite fmap_cons. constructor; [|done]. intros (x & Hx1 & Hx)%list_elem_of_fmap. by apply (Hnew x).
    + intros x [->|Hx]%elem_of_cons; simpl; [by rewrite lookup_insert_eq|]. rewrite lookup_insert_ne by (apply not_eq_sym; by apply Hnew). by apply HM.
  - destruct (held !! j) as [[a n]|] eqn:Hj; [|apply IH; [done|by exists M]]. rewrite wp_bind. eapply wp_mono; [eapply kmem_xfree_ok; [done|exact (HM (a, n) ltac:(by eapply list_elem_of_lookup_2))|done]|].
    intros [] s1 [Hh1 _]. apply IH; [done|]. exists (delete a M). pose proof (delete_Permutation _ _ _ Hj) as Hp. pose proof Hnd as Hnd'. rewrite Hp, fmap_cons in Hnd'. apply NoDup_cons in Hnd' as [Hni Hnd'].
    split_and!; [done|done|]. intros x Hx. rewrite lookup_delete_ne; [apply HM; rewrite Hp; by right|]. intros He. apply Hni. simpl. rewrite He. by apply list_elem_of_fmap_2.
Qed.
End clients.

(** Kernel memory: what its clients may rely on (kernel/vm/kmem_cache.c), and two ways in
    which the allocator keeps less memory at hand than it means to. *)
Import Kmem.

Section theorems.
Context {P : Type} `{PageLaws P}.
Implicit Types (s : kst P) (M : gmap Z Z).

(** C18. From start-up on, the allocator serves any sequence of requests, on any of the
    processors, through slabs, magazines and whole pages alike, as long as there are pages for
    the requests: no assertion fails, no request is refused, and the pieces of memory
    that clients hold never overlap. *)
Theorem kmem_serves ncpus cpu p rs : holds p ∅ (boot_need ncpus + total rs) → 0 < Z.of_nat ncpus < 2 ^ 32 → Forall (request_ok ncpus) rs →
  wp ((kmem_init;; kmem_postsmp_init ncpus cpu);; serve rs []) (λ held _, all_apart held) (blank p).
Proof.
  intros Hp Hn Hrs. rewrite wp_bind. eapply wp_mono; [by apply kmem_boot_ok|]. intros [] s Hh. eapply wp_mono; [eapply (serve_ok ncpus 0); [done|]|intros held s' Hh'; by eapply holding_apart].
  exists ∅. rewrite Nat.add_0_r. split_and!; [done|constructor|by intros x ?%elem_of_nil].
Qed.

(** [kmem_xrealloc] returns memory of the new size that holds what the old memory held,
    as far as it fits; nothing else in use changes, and the old memory is no longer in use
    unless it is what is returned. *)
Theorem kmem_xrealloc_correct ncpus M k s cpu a n n' flags : kmem_heap ncpus M (xneed n' + k) s → M !! a = Some n → 0 < n' < 2 ^ 60 → (cpu < ncpus)%nat →
  wp (kmem_xrealloc cpu (Some a) n n' flags) (λ r s', ∃ a', r = Some a' ∧ kmem_heap ncpus (<[a' := n']> (delete a M)) k s' ∧
    (∀ i, 0 ≤ i < Z.min n n' → data s' (a' + i) = data s (a + i)) ∧ undisturbed M s s' a ∧ (a' = a ∨ M !! a' = None)) s.
Proof. apply xrealloc_ok. Qed.

(** The client writes [f] over the [n] bytes it was given. *)
Definition fill (p n : Z) (f : Z → Z) : kern (kst P) () := modify (λ s, set_data (λ a, if (p <=? a) && (a <? p + n) then f (a - p) else data s a) s).
(** C19. The size that [kmem_malloc] keeps in front of the memory survives the client's
    use of the memory and a [kmem_mrealloc], which carries the client's bytes over;
    [kmem_mfree_sizeverify] then finds the new size there, and the allocator's memory in use is
    what it was. *)
Theorem kmem_malloc_mfree ncpus M k s cpu n n' f : kmem_heap ncpus M (xneed (n + 8) + (xneed (n' + 8) + k)) s → 0 ≤ n < 2 ^ 59 → 0 < n' < 2 ^ 59 → (cpu < ncpus)%nat →
  wp (r ← kmem_malloc cpu n; p ← deref "no memory" r; fill p n f;;
      r' ← kmem_mrealloc cpu (Some p) n'; p' ← deref "no memory" r';
      t ← gets (λ t, data t); kmem_mfree_sizeverify cpu (Some p') n';; mret (λ i, t (p' + i)))
    (λ g s', (∀ i, 0 ≤ i < Z.min n n' → g i = f i) ∧ kmem_heap ncpus M k s' ∧ ∀ b m, M !! b = Some m → same_bytes s s' b b m) s.
Proof.
  intros Hh Hn Hn' Hcpu. rewrite wp_bind. eapply wp_mono; [by eapply malloc_ok|]. intros r s1 (p & M1 & -> & -> & Hfr & Hh1 & [Ho1 Ho2] & Hb1).
  rewrite wp_bind, wp_deref. exists p. split; [done|]. unfold fill. rewrite wp_bind, wp_modify. set (s2 := set_data _ s1).
  assert (header s2 (p - 8) = n) as Ho3.
  { etrans; [|exact Ho2]. apply header_bytes. intros i Hi. simpl. by rewrite (proj2 (Z.leb_gt p (p - 8 + i))) by lia. }
  rewrite wp_bind. eapply wp_mono; [eapply (mrealloc_ok ncpus _ k s2 cpu p n n'); [by apply heap_data|done|done|done]|].
  intros r s3 (p' & M3 & -> & -> & Hnew & Hh3 & Ho4 & Hsame & Hun). rewrite wp_bind, wp_deref. exists p'. split; [done|]. rewrite wp_bind, wp_gets, wp_bind.
  eapply wp_mono; [by eapply mfree_verify_ok|]. intros [] s4 [Hh4 Hd]. rewrite wp_ret. split_and!.
  - intros i Hi. rewrite Hsame by done. simpl. rewrite (proj2 (Z.leb_le p (p + i))), (proj2 (Z.ltb_lt (p + i) (p + n))) by lia. simpl. f_equal. lia.
  - by rewrite delete_insert_id, delete_insert_id in Hh4.
  - intros b m Hb i Hi. rewrite Hd. assert (b ≠ p - 8) as Hne by congruence. rewrite (Hun b m); [|done|by rewrite lookup_insert_ne|done]. simpl.
    assert (apart (p - 8) (n + 8) b m) as Hap by (eapply heap_apart; [exact Hh1|by rewrite lookup_insert_eq|by rewrite lookup_insert_ne|done]).
    destruct (Z.leb_spec p (b + i)), (Z.ltb_spec (b + i) (p + n)); simpl; try (by apply (Hb1 _ _ Hb)). unfold apart in Hap. lia.
Qed.

(** [kmem_mcalloc] returns memory for the product of its arguments, reduced to 64 bits,
    and every byte of it is zero. *)
Theorem kmem_mcalloc_zeroed ncpus M k s cpu nmemb n : kmem_heap ncpus M (xneed (u64 (n * nmemb) + 8) + k) s → u64 (n * nmemb) < 2 ^ 59 → (cpu < ncpus)%nat →
  wp (kmem_mcalloc cpu nmemb n) (λ r s', ∃ p M', r = Some p ∧ M' = <[p - 8 := u64 (n * nmemb) + 8]> M ∧ M !! (p - 8) = None ∧ kmem_heap ncpus M' k s' ∧
    (∀ i, 0 ≤ i < u64 (n * nmemb) → data s' (p + i) = 0) ∧ ∀ b m, M !! b = Some m → same_bytes s s' b b m) s.
Proof.
  intros Hh Hn Hcpu. eapply wp_mono; [by eapply mcalloc_ok|]. intros r s' (p & M' & ? & ? & ? & ? & _ & ? & ?). exists p, M'. done.
Qed.

(** Whatever is requested, the depots stay empty: no full magazine is ever kept for
    a processor that runs out, and no empty one for a processor whose magazines are
    full. *)
Theorem kmem_depots_stay_empty ncpus cpu p rs : holds p ∅ (boot_need ncpus + total rs) → 0 < Z.of_nat ncpus < 2 ^ 32 → Forall (request_ok ncpus) rs →
  wp ((kmem_init;; kmem_postsmp_init ncpus cpu);; serve rs []) (λ _ s, ∀ c cc, caches s !! c = Some cc → use_magazines cc = true → empty_depot (depot cc)) (blank p).
Proof.
  intros Hp Hn Hrs. rewrite wp_bind. eapply wp_mono; [by apply kmem_boot_ok|]. intros [] s Hh.
  eapply wp_mono; [eapply (serve_ok ncpus 0); [done|]|intros held s' (M & (L & V & (E & A & B & _ & Hmo & _) & _) & _) c cc Hcc Hu].
  - exists ∅. rewrite Nat.add_0_r. split_and!; [done|constructor|by intros x ?%elem_of_nil].
  - by apply (mo_cpus _ _ _ _ Hmo c cc).
Qed.
End theorems.

(** ** Pages from a counter *)

(** Pages in order of address, never used again. *)
Global Instance counter_pages : PageSource Z := {
  vm_page_alloc _ := p ← gets id; modify (λ p, p + PGSIZE);; mret (Some p);
  vm_kalloc n _ := p ← gets id; modify (λ p, p + PGSIZE * n);; mret p;
  vm_kfree _ _ _ := mret ()
}.
Definition counter_holds (p : Z) (B : gmap Z Z) (k : nat) : Prop :=
  0 < p ∧ p mod PGSIZE = 0 ∧ p + PGSIZE * Z.of_nat k < 2 ^ 64 ∧ ∀ b n, B !! b = Some n → b + PGSIZE * n ≤ p.
Lemma counter_next p B k n : 0 < n → counter_holds p B (Z.to_nat n + k) → new_block B p n ∧ counter_holds (p + PGSIZE * n) (<[p := n]> B) k.
Proof.
  intros Hn (Hp & Hm & Hk & HB). assert (0 < PGSIZE) by done. split.
  - split_and!; [done|done|done|nia|]. intros b m Hb. right. by apply HB.
  - split_and!; [nia|by rewrite Z.mul_comm, Z_mod_plus_full|nia|]. intros b m [[<- <-]|[_ Hb]]%lookup_insert_Some; [done|]. specialize (HB _ _ Hb). nia.
Qed.
Global Program Instance counter_laws : PageLaws Z := {| holds := counter_holds |}.
Next Obligation. intros p B k k' (? & ? & Hk & ?) Hle. split_and!; [done|done| |done]. unfold PGSIZE in *. lia. Qed.
Next Obligation. intros p B k flags Hp. destruct (counter_next p B k 1) as [Hb Hp']; [done|done|]. exists p. by rewrite Z.mul_1_r in Hp'. Qed.
Next Obligation. intros p B k n flags Hn Hp. by apply counter_next. Qed.
Next Obligation. intros p B k b n flags (? & ? & ? & HB) Hb. split_and!; [done..|]. intros b' n' [_ Hb']%lookup_delete_Some. by apply HB. Qed.

Definition some_requests : list request := [Get 0 24; Get 1 5000; Get 0 2000; Put 1 0; Get 1 24; Put 0 1].
Lemma counter_start k : PGSIZE * Z.of_nat k < 2 ^ 63 → holds (PGSIZE : Z) ∅ k.
Proof. intros Hk. split_and!; [done|done|unfold PGSIZE in *; lia|]. intros b n Hb. by rewrite lookup_empty in Hb. Qed.
Lemma kmem_serves_witness : wp ((kmem_init;; kmem_postsmp_init 2 0);; serve some_requests []) (λ held _, all_apart held) (blank PGSIZE).
Proof.
  apply (kmem_serves 2 0 PGSIZE some_requests); [apply counter_start; by vm_compute|lia|]. repeat constructor.
Defined.
Lemma kmem_depots_stay_empty_witness : wp ((kmem_init;; kmem_postsmp_init 2 0);; serve some_requests [])
  (λ _ s, ∀ c cc, caches s !! c = Some cc → use_magazines cc = true → empty_depot (depot cc)) (blank PGSIZE).
Proof.
  apply (kmem_depots_stay_empty 2 0 PGSIZE some_requests); [apply counter_start; by vm_compute|lia|]. repeat constructor.
Defined.
Definition booted : kst Z := final (kmem_init;; kmem_postsmp_init 1 0) (blank PGSIZE).
Lemma booted_heap : kmem_heap 1 ∅ 1000 booted.
Proof. edestruct (wp_final (kmem_init;; kmem_postsmp_init 1 0)) as ([] & Hh); [eapply (kmem_boot_ok 1 0 1000); [apply counter_start; by vm_compute|lia]|exact Hh]. Qed.
Lemma kmem_xrealloc_correct_witness : wp (r ← kmem_xalloc 0 24 0; a ← deref "no memory" r; kmem_xrealloc 0 (Some a) 24 3000 0)
  (λ r s', ∃ a', r = Some a' ∧ kmem_heap 1 {[a' := 3000]} 0 s') booted.
Proof.
  rewrite wp_bind. eapply wp_mono; [eapply (kmem_xalloc_ok 1 ∅ (xneed 3000) booted 0 24 0); [eapply heap_weaken; [exact booted_heap|by vm_compute; lia]|lia|lia]|].
  intros r s (a & -> & _ & Hh & _). rewrite wp_bind, wp_deref. exists a. split; [done|].
  eapply wp_mono; [apply (kmem_xrealloc_correct 1 (<[a := 24]> ∅) 0 s 0 a 24 3000 0); [by rewrite Nat.add_0_r|by rewrite lookup_insert_eq|lia|lia]|].
  intros r s' (a' & -> & Hh' & _). exists a'. rewrite delete_insert_id in Hh' by done. done.
Defined.
Lemma kmem_malloc_mfree_witness : wp (r ← kmem_malloc 0 100; p ← deref "no memory" r; fill p 100 id;;
      r' ← kmem_mrealloc 0 (Some p) 3000; p' ← deref "no memory" r';
      t ← gets (λ t, data t); kmem_mfree_sizeverify 0 (Some p') 3000;; mret (λ i, t (p' + i)))
    (λ g s', (∀ i, 0 ≤ i < Z.min 100 3000 → g i = id i) ∧ kmem_heap 1 ∅ 0 s' ∧ ∀ b m, (∅ : gmap Z Z) !! b = Some m → same_bytes booted s' b b m) booted.
Proof. apply (kmem_malloc_mfree 1 ∅ 0 booted 0 100 3000 id); [eapply heap_weaken; [exact booted_heap|by vm_compute; lia]|lia|lia|lia]. Defined.
(** With [2 ^ 32] elements of [2 ^ 32] bytes the product is zero, and so is the size of what
    is returned. *)
Lemma kmem_mcalloc_zeroed_witness : wp (kmem_mcalloc 0 (2 ^ 32) (2 ^ 32)) (λ r s', ∃ p, r = Some p ∧ kmem_heap 1 {[p - 8 := 8]} 0 s') booted.
Proof.
  eapply wp_mono; [apply (kmem_mcalloc_zeroed 1 ∅ 0 booted 0 (2 ^ 32) (2 ^ 32)); [eapply heap_weaken; [exact booted_heap|by vm_compute; lia]|by vm_compute|lia]|].
  intros r s' (p & M & -> & -> & _ & Hh & _). exists p. done.
Defined.

(** ** A slab lost *)

Fixpoint xallocs (n : nat) (z : Z) : kern (kst Z) (list Z) :=
  match n with
  | O => mret []
  | S n => r ← kmem_xalloc 0 z 0; a ← deref "no memory" r; l ← xallocs n z; mret (a :: l)
  end.
(** The slabs a walk of the queue meets, [n] at most. *)
Fixpoint queued (n : nat) (s : kst Z) (p : option slabp) : list slabp :=
  match n, p with
  | S n, Some q => q :: (sl ← option_list (slabmap s !! q); queued n s (sqlink sl))
  | _, _ => []
  end.
Definition losing : kern (kst Z) () :=
  kmem_init;;
  l ← xallocs 17 512;
  kmem_xfree 0 (l !! 8%nat) 512;;
  kmem_xfree 0 (l !! 0%nat) 512;;
  xallocs 2 512;;
  mret ().
Definition lost : kst Z := final losing (blank PGSIZE).
(** A slab with free buffers can drop out of its cache's queue, because a slab that is
    no longer full is linked at the front while it is still linked further back: after
    seventeen allocations, two frees and two allocations of 512 bytes, made before the
    magazines are turned on, the queue consists of the two full slabs, the third, with seven
    free buffers, is in no queue, and the next allocation takes a new page. *)
Theorem kmem_loses_slab : returns losing (blank PGSIZE) = true ∧
  (∃ cc sl, caches lost !! 6 = Some cc ∧ slabmap lost !! InPage (3 * PGSIZE) = Some sl ∧ cache sl = 6 ∧ free_n sl = 7 ∧
    ∀ n, queued (S (S n)) lost (stqh_first (slabs cc)) = [InPage PGSIZE; InPage (2 * PGSIZE)]) ∧
  pages (final (kmem_xalloc 0 512 0) lost) = pages lost + PGSIZE.
Proof.
  split; [by vm_compute|split; [|by vm_compute]].
  destruct (caches lost !! 6) as [cc|] eqn:Hcc; [|vm_compute in Hcc; done]. destruct (slabmap lost !! InPage (3 * PGSIZE)) as [sl|] eqn:Hsl; [|vm_compute in Hsl; done].
  exists cc, sl. split_and!; [done|done|by vm_compute in Hsl; injection Hsl as <-|by vm_compute in Hsl; injection Hsl as <-|].
  intros n. assert (stqh_first (slabs cc) = Some (InPage PGSIZE)) as -> by (vm_compute in Hcc; injection Hcc as <-; done). by destruct n; vm_compute.
Qed.
