(* ===== verification/Vfs.v ===== *)
(** Names, vnodes and file systems: kernel/vfs/namecache.c and vfs.c.

    A red-black tree of names (kdk/tree.h) is a list of its elements, and a search compares
    with all of them.  A name is the list of its bytes.  The operations of file systems on
    vnodes are a class; memory comes from the caller as an address not in use.  Every
    operation runs under the locks of the nodes it changes, and is one step. *)
From S2P Require Import Prelude.
Local Open Scope Z_scope.

Module Vfs.

Inductive vtype := VNON | VREG | VDIR | VCHR | VLNK | VSOCK | VFIFO | VITER_MARKER.
Global Instance vtype_eq_dec : EqDecision vtype.
Proof. solve_decision. Defined.
Record vnode := Vnode { refcount : Z; type : vtype; fs_data : Z; vvfs : option Z; object : option Z }.
Definition with_refcount x v := Vnode x (type v) (fs_data v) (vvfs v) (object v).
(** The part of a vnode's VM object that [vnode_new] sets up. *)
Record vm_object := Object { file_vnode : Z; n_dirty_pages : Z; vpml4 : Z }.

Record namecache := Nc {
  refcnt : Z;
  name_len : Z;
  n_mounts_over : Z;
  vp : option Z;
  vfsp : Z;
  entries : list Z;
  parent : option Z;
  name : option (list Z);
  key : Z
}.
Definition with_refcnt x n := Nc x (name_len n) (n_mounts_over n) (vp n) (vfsp n) (entries n) (parent n) (name n) (key n).
Definition with_entries x n := Nc (refcnt n) (name_len n) (n_mounts_over n) (vp n) (vfsp n) x (parent n) (name n) (key n).
Definition with_vp rc v n := Nc rc (name_len n) (n_mounts_over n) v (vfsp n) (entries n) (parent n) (name n) (key n).

(** [namecache_handle_t] *)
Record nchandle := Handle { nc : option Z; hvfs : option Z }.
Global Instance nchandle_eq_dec : EqDecision nchandle.
Proof. solve_decision. Defined.
Definition nchandle_eq (x y : nchandle) : bool := bool_decide (nc x = nc y) && bool_decide (hvfs x = hvfs y).
Record vfs := MkVfs { file_refcnt : Z; root_ncp : option Z; nchcovered : nchandle; vnode_list : list Z }.
Definition with_file_refcnt x v := MkVfs x (root_ncp v) (nchcovered v) (vnode_list v).
Definition with_vnode_list x v := MkVfs (file_refcnt v) (root_ncp v) (nchcovered v) x.

(** What vnodes do: [vop_lookup dvn name] is the vnode of that name in the directory
    [dvn], retained, if there is one; [vop_inactive vn] says whether the vnode was freed. *)
Class VnodeOps := {
  vop_lookup : Z → list Z → kern (gmap Z vnode) (option Z);
  vop_inactive : Z → kern (gmap Z vnode) bool
}.

Record vst := Vst {
  ncs : gmap Z namecache;
  lru_queue : list Z;
  inactive : Z;
  max_inactive : Z;
  root_nch : nchandle;
  vnodes : gmap Z vnode;
  objects : gmap Z vm_object;
  vfss : gmap Z vfs;
  vfs_hash : list (list Z)
}.
Definition set_ncs x s := Vst x (lru_queue s) (inactive s) (max_inactive s) (root_nch s) (vnodes s) (objects s) (vfss s) (vfs_hash s).
Definition set_lru x s := Vst (ncs s) x (inactive s) (max_inactive s) (root_nch s) (vnodes s) (objects s) (vfss s) (vfs_hash s).
Definition set_inactive x s := Vst (ncs s) (lru_queue s) x (max_inactive s) (root_nch s) (vnodes s) (objects s) (vfss s) (vfs_hash s).
Definition set_root x s := Vst (ncs s) (lru_queue s) (inactive s) (max_inactive s) x (vnodes s) (objects s) (vfss s) (vfs_hash s).
Definition set_vnodes x s := Vst (ncs s) (lru_queue s) (inactive s) (max_inactive s) (root_nch s) x (objects s) (vfss s) (vfs_hash s).
Definition set_objects x s := Vst (ncs s) (lru_queue s) (inactive s) (max_inactive s) (root_nch s) (vnodes s) x (vfss s) (vfs_hash s).
Definition set_vfss x s := Vst (ncs s) (lru_queue s) (inactive s) (max_inactive s) (root_nch s) (vnodes s) (objects s) x (vfs_hash s).

Definition nc_at (p : Z) : kern vst namecache := s ← get; deref "namecache" (ncs s !! p).
Definition nc_set (p : Z) (n : namecache) : kern vst () := modify (λ s, set_ncs (<[p := n]> (ncs s)) s).
Definition vn_at (v : Z) : kern vst vnode := s ← get; deref "vnode" (vnodes s !! v).
Definition vn_set (v : Z) (x : vnode) : kern vst () := modify (λ s, set_vnodes (<[v := x]> (vnodes s)) s).
Definition vfs_at (p : Z) : kern vst vfs := s ← get; deref "vfs" (vfss s !! p).
Definition vfs_set (p : Z) (x : vfs) : kern vst () := modify (λ s, set_vfss (<[p := x]> (vfss s)) s).
Definition in_vnodes {A} (m : kern (gmap Z vnode) A) : kern vst A := zoom vnodes set_vnodes m.

(** ** Vnodes: vfs.c *)

Definition S_IFMT : Z := 0xF000.
Definition mode_to_vtype (mode : Z) : vtype :=
  let m := Z.land mode S_IFMT in
  if m =? 0x4000 then VDIR else if m =? 0x2000 then VCHR else if m =? 0x6000 then VNON
  else if m =? 0x8000 then VREG else if m =? 0x1000 then VNON else if m =? 0xA000 then VLNK
  else if m =? 0xC000 then VSOCK else VNON.
(** [vn], [obj] and [page] are what the allocators return. *)
Definition vnode_new (vn obj page : Z) (vfs : option Z) (ty : vtype) (data : Z) : kern vst Z :=
  vn_set vn (Vnode 1 ty data vfs (if decide (ty = VREG) then Some obj else None));;
  when (bool_decide (ty = VREG)) (modify (λ s, set_objects (<[obj := Object vn 0 page]> (objects s)) s));;
  match vfs with
  | Some f => x ← vfs_at f; vfs_set f (with_vnode_list (vnode_list x ++ [vn]) x)
  | None => mret ()
  end;;
  mret vn.
Definition vn_retain (v : Z) : kern vst () :=
  x ← vn_at v;
  vn_set v (with_refcount (u32 (refcount x + 1)) x);;
  kassert "ref from 0" (negb (refcount x =? 0));;
  kassert "count < 0xfffffff0" (refcount x <? 0xfffffff0).

Section ops.
Context `{VnodeOps}.
Fixpoint vn_release (fuel : nat) (v : Z) : kern vst () :=
  match fuel with
  | O => spin
  | S fuel' =>
      x ← vn_at v;
      if 1 <? refcount x then vn_set v (with_refcount (refcount x - 1) x)
      else if refcount x =? 1 then
        succeeded ← in_vnodes (vop_inactive v);
        if (succeeded : bool) then mret () else vn_release fuel' v
      else vn_release fuel' v
  end.

(** ** Names: namecache.c *)

(** Whether [char] is signed is the compiler's choice; [tries] bounds the retries of
    [vn_release]. *)
Context (char_signed : bool) (tries : nat).
Definition char (b : Z) : Z := if char_signed && (128 <=? b) then b - 256 else b.
Definition fnv_prime : Z := 0x811C9DC5.
Definition fnv_basis : Z := 0x01000193.
Definition nc_hash (str : list Z) (len : Z) : Z :=
  Z.lor (fold_left (λ hash c, Z.lxor (u32 (hash * fnv_prime)) (u32 (char c))) (take (Z.to_nat len) str) fnv_basis) (Z.shiftl len 32).
Fixpoint bytes_cmp (n : nat) (a b : list Z) : Z :=
  match n, a, b with
  | S n, x :: a, y :: b => if x =? y then bytes_cmp n a b else x - y
  | _, _, _ => 0
  end.
(** The key of a search: name, length, hash. *)
Definition nc_cmp (x y : list Z * Z * Z) : kern vst Z :=
  if x.2 <? y.2 then mret (-1)
  else if y.2 <? x.2 then mret 1
  else kassert "x->name_len == y->name_len" (x.1.2 =? y.1.2);; mret (bytes_cmp (Z.to_nat x.1.2) x.1.1 y.1.1).
Definition key_of (n : namecache) : list Z * Z * Z := (default [] (name n), name_len n, key n).
Definition cmp_entry (k : list Z * Z * Z) (p : Z) : kern vst Z := n ← nc_at p; nc_cmp k (key_of n).
Fixpoint RB_FIND (k : list Z * Z * Z) (l : list Z) : kern vst (option Z) :=
  match l with
  | [] => mret None
  | p :: l => c ← cmp_entry k p; if c =? 0 then mret (Some p) else RB_FIND k l
  end.
Definition RB_INSERT (dir new : Z) : kern vst () :=
  n ← nc_at new;
  d ← nc_at dir;
  r ← RB_FIND (key_of n) (entries d);
  match r with Some _ => mret () | None => nc_set dir (with_entries (new :: entries d) d) end.
Definition RB_REMOVE (dir p : Z) : kern vst () := d ← nc_at dir; nc_set dir (with_entries (filter (λ q, q ≠ p) (entries d)) d).

(** [kmem_strfree] reads the name. *)
Definition nc_free (p : Z) : kern vst () :=
  n ← nc_at p;
  kassert "RB_EMPTY" (bool_decide (entries n = []));;
  match vp n with Some v => vn_release (S tries) v | None => mret () end;;
  _ ← deref "name" (name n);
  modify (λ s, set_ncs (delete p (ncs s)) s).
Definition TAILQ_REMOVE_lru (p : Z) : kern vst () :=
  s ← get; kassert "linked" (bool_decide (p ∈ lru_queue s));; modify (λ s, set_lru (filter (λ q, q ≠ p) (lru_queue s)) s).
Definition to_lru (p : Z) : kern vst () := modify (λ s, set_inactive (u64 (inactive s + 1)) (set_lru (lru_queue s ++ [p]) s)).
(** [nc_release_internal], without the trimming at its end: what it does when [nested].
    The result says whether a node went onto the queue. *)
Definition release_node (p : Z) : kern vst bool :=
  n ← nc_at p;
  nc_set p (with_refcnt (u32 (refcnt n - 1)) n);;
  if refcnt n =? 1 then
    match parent n with
    | None => nc_free p;; mret false
    | Some _ => n ← nc_at p; kassert "refcnt == 0" (refcnt n =? 0);; to_lru p;; mret true
    end
  else mret false.
Definition do_trim (p : Z) : kern vst () :=
  n ← nc_at p;
  q ← deref "parent" (parent n);
  kassert "refcnt == 0" (refcnt n =? 0);;
  RB_REMOVE q p;;
  nc_free p;;
  release_node q;;
  modify (λ s, set_inactive (u64 (inactive s - 1)) s).
Fixpoint nc_trim_lru (fuel : nat) : kern vst () :=
  match fuel with
  | O => spin
  | S fuel' =>
      s ← get;
      if inactive s <=? max_inactive s then mret ()
      else
        p ← deref "lru_queue" (head (lru_queue s));
        TAILQ_REMOVE_lru p;;
        do_trim p;;
        nc_trim_lru fuel'
  end.
Definition trim_if_needed : kern vst () :=
  s ← get; when (max_inactive s <? inactive s) (nc_trim_lru (S (size (ncs s)))).
Definition nc_release_internal (p : Z) (nested : bool) : kern vst () :=
  queued ← release_node p;
  when (queued && negb nested) trim_if_needed.
Definition nc_release (p : Z) : kern vst () := nc_release_internal p false.
Definition nc_retain (p : Z) : kern vst () :=
  n ← nc_at p;
  nc_set p (with_refcnt (u32 (refcnt n + 1)) n);;
  when (refcnt n =? 0) (kassert "parent != NULL" (bool_decide (is_Some (parent n)));; TAILQ_REMOVE_lru p).

Inductive errno := ENOENT.
(** [new] is the memory for a node, should one be made. *)
Definition nc_lookup (new dir : Z) (nm : list Z) : kern vst (errno + Z) :=
  let len := Z.of_nat (length nm) mod 256 in
  let k := (nm, len, nc_hash nm len) in
  d ← nc_at dir;
  r ← RB_FIND k (entries d);
  match r with
  | None =>
      nc_retain dir;;
      nc_set new (Nc 0 len 0 None (vfsp d) [] (Some dir) (Some nm) k.2);;
      RB_INSERT dir new;;
      dvn ← deref "vp" (vp d);
      v ← in_vnodes (vop_lookup dvn nm);
      n ← nc_at new;
      match v with
      | None =>
          nc_set new (with_vp 0 None n);;
          to_lru new;;
          trim_if_needed;;
          mret (inl ENOENT)
      | Some v => nc_set new (with_vp 1 (Some v) n);; mret (inr new)
      end
  | Some found =>
      n ← nc_at found;
      match vp n with
      | None => mret (inl ENOENT)
      | Some _ => nc_retain found;; mret (inr found)
      end
  end.
Definition nc_make_root (new fs vn : Z) : kern vst () :=
  nc_set new (Nc 1 0 0 (Some vn) fs [] None None 0);;
  modify (set_root (Handle (Some new) (Some fs))).

(** [TAILQ_NEXT] *)
Fixpoint next_of (p : Z) (l : list Z) : option Z :=
  match l with [] => None | x :: l' => if x =? p then head l' else next_of p l' end.
(** One pass of [nc_remove_vfs] over the queue; the successor is read before a node is
    freed. *)
Fixpoint remove_pass (fuel : nat) (fs : Z) (cur : option Z) (found_one : bool) : kern vst bool :=
  match cur with
  | None => mret found_one
  | Some p =>
      match fuel with
      | O => spin
      | S fuel' =>
          s ← get;
          let tmp := next_of p (lru_queue s) in
          n ← nc_at p;
          if vfsp n =? fs then TAILQ_REMOVE_lru p;; do_trim p;; remove_pass fuel' fs tmp true
          else remove_pass fuel' fs tmp found_one
      end
  end.
Fixpoint remove_loop (fuel : nat) (fs : Z) : kern vst () :=
  match fuel with
  | O => spin
  | S fuel' =>
      s ← get;
      found_one ← remove_pass (S (size (ncs s))) fs (head (lru_queue s)) false;
      if (found_one : bool) then remove_loop fuel' fs else mret ()
  end.
Definition nc_remove_vfs (fs : Z) : kern vst () := s ← get; remove_loop (S (size (ncs s))) fs.

(** ** File systems: vfs.c *)

Definition MNT_HASH_NBUCKETS : Z := 16.
Definition addr (p : option Z) : Z := default 0 p.
Definition nchandle_hash (h : nchandle) : Z :=
  let hash := Z.lxor (u64 (addr (nc h) * 31)) (u64 (addr (hvfs h) * 31)) in
  Z.lxor (Z.shiftr hash 16) (Z.land hash 0xFFFF) mod MNT_HASH_NBUCKETS.
Fixpoint bucket_find (h : nchandle) (l : list Z) : kern vst (option Z) :=
  match l with
  | [] => mret None
  | f :: l => x ← vfs_at f; if nchandle_eq (nchcovered x) h then mret (Some f) else bucket_find h l
  end.
Definition vfs_find (h : nchandle) : kern vst (option Z) :=
  s ← get; b ← deref "vfs_hash" (vfs_hash s !! Z.to_nat (nchandle_hash h)); bucket_find h b.
(** The lowest bit of the count says that an unmount is pending. *)
Definition vfs_try_retain (f : Z) : kern vst bool :=
  x ← vfs_at f;
  if file_refcnt x =? 1 then mret false
  else if Z.odd (file_refcnt x) then fatal "Unexpected value of VFS refcnt"
  else vfs_set f (with_file_refcnt (u32 (file_refcnt x + 2)) x);; mret true.
Definition vfs_release (f : Z) : kern vst () := x ← vfs_at f; vfs_set f (with_file_refcnt (u32 (file_refcnt x - 2)) x).
Definition vfs_vn_remove (v : Z) : kern vst () :=
  x ← vn_at v; f ← deref "vfs" (vvfs x); y ← vfs_at f; vfs_set f (with_vnode_list (filter (λ q, q ≠ v) (vnode_list y)) y).

(** An iterator; its marker is a vnode at an address of its own. *)
Record vnode_iter := Iter { end_marker_vn : Z; next_vn : option Z; ivfs : Z }.
(** [junk] is what the marker, on the caller's stack, has for a count. *)
Definition vfs_vn_iter_init (marker junk f : Z) : kern vst vnode_iter :=
  vn_set marker (Vnode junk VITER_MARKER 0 None None);;
  x ← vfs_at f;
  let l := vnode_list x ++ [marker] in
  vfs_set f (with_vnode_list l x);;
  v ← deref "vnode" (head l);
  vn_retain v;;
  mret (Iter marker (Some v) f).
(** The next element that is not the marker of another iterator. *)
Fixpoint skip_markers (fuel : nat) (marker : Z) (l : list Z) (v : Z) : kern vst Z :=
  match fuel with
  | O => spin
  | S fuel' =>
      n ← deref "next_vn != NULL" (next_of v l);
      x ← vn_at n;
      if bool_decide (type x = VITER_MARKER) && negb (n =? marker) then skip_markers fuel' marker l n else mret n
  end.
Definition vfs_vn_iter_next (it : vnode_iter) : kern vst (option Z * vnode_iter) :=
  match next_vn it with
  | None => mret (None, it)
  | Some vn =>
      x ← vfs_at (ivfs it);
      n ← skip_markers (length (vnode_list x)) (end_marker_vn it) (vnode_list x) vn;
      if n =? end_marker_vn it then mret (Some vn, Iter (end_marker_vn it) None (ivfs it))
      else vn_retain n;; mret (Some vn, Iter (end_marker_vn it) (Some n) (ivfs it))
  end.
Definition vfs_vn_iter_destroy (it : vnode_iter) : kern vst () :=
  x ← vfs_at (ivfs it);
  vfs_set (ivfs it) (with_vnode_list (filter (λ q, q ≠ end_marker_vn it) (vnode_list x)) x);;
  match next_vn it with Some v => vn_release (S tries) v | None => mret () end.
(** The vnodes that [vn_fsync] is called on. *)
Fixpoint fsync_loop (fuel : nat) (it : vnode_iter) : kern vst (list Z * vnode_iter) :=
  match fuel with
  | O => spin
  | S fuel' =>
      r ← vfs_vn_iter_next it;
      match r.1 with
      | None => mret ([], r.2)
      | Some v => vn_release (S tries) v;; l ← fsync_loop fuel' r.2; mret (v :: l.1, l.2)
      end
  end.
Definition vfs_fsync_all (marker junk f : Z) : kern vst (list Z) :=
  it ← vfs_vn_iter_init marker junk f;
  x ← vfs_at f;
  l ← fsync_loop (S (length (vnode_list x))) it;
  vfs_vn_iter_destroy l.2;;
  mret l.1.
End ops.
End Vfs.
