(* ===== verification/VfsInv.v ===== *)
(** The name cache: its invariant, and how releasing a node keeps it
    (kernel/vfs/namecache.c). *)
From S2P Require Import Prelude Vfs.
Import Vfs.
Local Open Scope Z_scope.

(** ** Counting the elements of a map *)

Definition tally {A} (Q : A → Prop) `{∀ x, Decision (Q x)} (m : gmap Z A) : nat := size (filter (λ kv, Q kv.2) m).
Section tally.
Context {A : Type} (Q : A → Prop) `{∀ x, Decision (Q x)}.
Definition one (x : A) : nat := if decide (Q x) then 1 else 0.
Lemma tally_new (m : gmap Z A) k x : m !! k = None → tally Q (<[k := x]> m) = (one x + tally Q m)%nat.
Proof.
  intros Hk. unfold tally, one. destruct (decide (Q x)) as [Hq|Hq].
  - rewrite map_filter_insert_True by done. rewrite map_size_insert_None; [done|]. rewrite map_lookup_filter, Hk. done.
  - rewrite map_filter_insert_False by done. rewrite delete_id by done. done.
Qed.
Lemma tally_delete (m : gmap Z A) k x : m !! k = Some x → tally Q m = (one x + tally Q (delete k m))%nat.
Proof. intros Hk. rewrite <- (insert_delete_id m k x Hk) at 1. apply tally_new, lookup_delete_eq. Qed.
Lemma tally_update (m : gmap Z A) k x y : m !! k = Some x → (one x + tally Q (<[k := y]> m) = one y + tally Q m)%nat.
Proof. intros Hk. rewrite (tally_delete m k x Hk). rewrite <- insert_delete_eq, tally_new by apply lookup_delete_eq. lia. Qed.
Lemma tally_same (m : gmap Z A) k x y : m !! k = Some x → (Q x ↔ Q y) → tally Q (<[k := y]> m) = tally Q m.
Proof.
  intros Hk Hq. pose proof (tally_update m k x y Hk) as Hu. assert (one x = one y) by (unfold one; destruct (decide (Q x)), (decide (Q y)); tauto). lia.
Qed.
Lemma tally_pos (m : gmap Z A) k x : m !! k = Some x → Q x → (0 < tally Q m)%nat.
Proof. intros Hk Hq. rewrite (tally_delete m k x Hk). unfold one. rewrite decide_True by done. lia. Qed.
End tally.

Definition occ (p : Z) (R : list Z) : nat := length (filter (λ q, q = p) R).
Lemma occ_cons p q R : occ p (q :: R) = ((if decide (q = p) then 1 else 0) + occ p R)%nat.
Proof. unfold occ. rewrite filter_cons. by case_decide. Qed.
Lemma occ_perm p R R' : R ≡ₚ R' → occ p R = occ p R'.
Proof. intros Hp. unfold occ. by rewrite Hp. Qed.
Lemma occ_in p R : p ∈ R ↔ (0 < occ p R)%nat.
Proof.
  unfold occ. split.
  - intros Hp. assert (p ∈ filter (λ q, q = p) R) as Hf by (by apply list_elem_of_filter). destruct (filter _ R); [by apply elem_of_nil in Hf|simpl; lia].
  - intros Hl. destruct (filter (λ q, q = p) R) as [|x l] eqn:E; [simpl in Hl; lia|]. assert (x ∈ filter (λ q, q = p) R) as Hx by (rewrite E; by left). apply list_elem_of_filter in Hx as [-> ?]. done.
Qed.

Lemma remove_absent (p : Z) (l : list Z) : p ∉ l → filter (λ x, x ≠ p) l = l.
Proof. induction l as [|x l IH]; [done|]. rewrite not_elem_of_cons. intros [Hx Hl]. rewrite filter_cons, decide_True by done. by rewrite IH. Qed.
Lemma remove_length (p : Z) (l : list Z) : NoDup l → p ∈ l → length l = S (length (filter (λ x, x ≠ p) l)).
Proof.
  intros Hnd Hp. apply list_elem_of_split in Hp as (l1 & l2 & ->). apply NoDup_app in Hnd as (_ & Hd & [Hn2 _]%NoDup_cons).
  assert (p ∉ l1) as Hn1 by (intros Hin; apply (Hd p Hin); by left). rewrite filter_app, filter_cons, decide_False by (intros ?; done).
  rewrite !remove_absent by done. rewrite !length_app. simpl. lia.
Qed.

(** ** File systems *)

Definition rc (vs : gmap Z vnode) (v : Z) : Z := match vs !! v with Some x => refcount x | None => 0 end.
(** A look-up retains the vnode it returns, which may be new and is of the directory's
    file system; a vnode nobody else uses is freed when it becomes inactive.  [fs_ok] is
    what file systems rely on. *)
Definition gives (vs : gmap Z vnode) (d : Z) (r : option Z) (vs' : gmap Z vnode) : Prop :=
  match r with
  | Some v => ∃ x, vs' = <[v := x]> vs ∧ refcount x = rc vs v + 1 ∧ vvfs x = vs !! d ≫= vvfs ∧ ∀ y, vs !! v = Some y → vvfs x = vvfs y
  | None => vs' = vs
  end.
Class VnodeLaws `{VnodeOps} := {
  fs_ok : gmap Z vnode → Prop;
  fs_ok_count vs v x r : fs_ok vs → vs !! v = Some x → fs_ok (<[v := with_refcount r x]> vs);
  fs_ok_delete vs v : fs_ok vs → fs_ok (delete v vs);
  vop_lookup_law vs d nm : fs_ok vs → is_Some (vs !! d) → wp (vop_lookup d nm) (λ r vs', gives vs d r vs' ∧ fs_ok vs') vs;
  vop_inactive_law vs v : rc vs v = 1 → wp (vop_inactive v) (λ b vs', b = true ∧ vs' = delete v vs) vs
}.

Lemma wp_nc_at p Q s : wp (nc_at p) Q s ↔ ∃ n, ncs s !! p = Some n ∧ Q n s.
Proof. unfold nc_at. rewrite wp_bind, wp_get. apply wp_deref. Qed.
Lemma wp_nc_set p n (Q : () → vst → Prop) s : wp (nc_set p n) Q s ↔ Q () (set_ncs (<[p := n]> (ncs s)) s).
Proof. done. Qed.
Lemma wp_vn_at p Q s : wp (vn_at p) Q s ↔ ∃ n, vnodes s !! p = Some n ∧ Q n s.
Proof. unfold vn_at. rewrite wp_bind, wp_get. apply wp_deref. Qed.

Section inv.
Context `{VnodeLaws} (char_signed : bool) (tries : nat).
Implicit Types (s : vst) (R : list Z).

(** ** The invariant *)

Definition kids (m : gmap Z namecache) (q : Z) : nat := tally (λ n, parent n = Some q) m.
Definition vrefs (m : gmap Z namecache) (v : Z) : nat := tally (λ n, vp n = Some v) m.
Definition same_key (a b : list Z * Z * Z) : Prop := a.2 = b.2 ∧ bytes_cmp (Z.to_nat a.1.2) a.1.1 b.1.1 = 0.
(** What [nc_lookup] makes of a name. *)
Definition search_key (nm : list Z) : list Z * Z * Z := let len := Z.of_nat (length nm) mod 256 in (nm, len, nc_hash char_signed nm len).
(** [R]: the references that clients hold; [k]: how many more there may be. *)
Record nc_inv (k : Z) R s : Prop := {
  ni_refs p n : ncs s !! p = Some n → refcnt n = Z.of_nat (occ p R + kids (ncs s) p);
  ni_spare : 0 ≤ k;
  ni_bound p : Z.of_nat (occ p R + kids (ncs s) p) + k < 2 ^ 32;
  ni_held p : p ∈ R → ∃ n, ncs s !! p = Some n ∧ is_Some (vp n);
  ni_root p n : ncs s !! p = Some n → parent n = None → p ∈ R;
  ni_parent p n q : ncs s !! p = Some n → parent n = Some q → ∃ d, ncs s !! q = Some d ∧ p ∈ entries d ∧ is_Some (vp d);
  ni_named p n q : ncs s !! p = Some n → parent n = Some q → ∃ nm, name n = Some nm ∧ key_of n = search_key nm;
  ni_entries q d p : ncs s !! q = Some d → p ∈ entries d → ∃ n, ncs s !! p = Some n ∧ parent n = Some q;
  ni_distinct q p p' n n' : ncs s !! p = Some n → ncs s !! p' = Some n' → parent n = Some q → parent n' = Some q → same_key (key_of n) (key_of n') → p = p';
  ni_lru p : p ∈ lru_queue s ↔ ∃ n, ncs s !! p = Some n ∧ refcnt n = 0;
  ni_nodup : NoDup (lru_queue s);
  ni_vp v : Z.of_nat (vrefs (ncs s) v) ≤ rc (vnodes s) v;
  ni_fsok : fs_ok (vnodes s);
  ni_fs p n v x : ncs s !! p = Some n → vp n = Some v → vnodes s !! v = Some x → vvfs x = Some (vfsp n);
  ni_family p n q d : ncs s !! p = Some n → parent n = Some q → ncs s !! q = Some d → vfsp n = vfsp d;
  ni_mounts p n : ncs s !! p = Some n → n_mounts_over n = 0;
  ni_count : 0 ≤ inactive s - Z.of_nat (length (lru_queue s)) ≤ max_inactive s;
  ni_max : inactive s ≤ max_inactive s + 1 ∧ max_inactive s < 2 ^ 32
}.

(** ** Freeing a node *)

Definition loses (o : option Z) (vs vs' : gmap Z vnode) : Prop :=
  (∀ w, rc vs' w = rc vs w - (if decide (o = Some w) then 1 else 0)) ∧ (fs_ok vs → fs_ok vs') ∧ ∀ w x', vs' !! w = Some x' → ∃ x, vs !! w = Some x ∧ vvfs x' = vvfs x.
Lemma vn_release_ok v s : 1 ≤ rc (vnodes s) v → wp (vn_release (S tries) v) (λ _ s', ∃ vs', s' = set_vnodes vs' s ∧ loses (Some v) (vnodes s) vs') s.
Proof.
  intros Hv. cbn [vn_release]. rewrite wp_bind, wp_vn_at. destruct (vnodes s !! v) as [x|] eqn:Hx; [|unfold rc in Hv; rewrite Hx in Hv; lia].
  exists x. split; [done|]. assert (rc (vnodes s) v = refcount x) as Hr by (unfold rc; by rewrite Hx). rewrite Hr in Hv. destruct (Z.ltb_spec 1 (refcount x)) as [Hgt|Hle].
  - eexists. split; [done|]. split; [|split].
    + intros w. unfold rc. case_decide as Hw; [injection Hw as <-; rewrite lookup_insert_eq, Hx; done|]. rewrite lookup_insert_ne by congruence. lia.
    + intros Hok. by apply fs_ok_count.
    + intros w x' [[<- <-]|[_ ?]]%lookup_insert_Some; eauto.
  - rewrite (proj2 (Z.eqb_eq (refcount x) 1)) by lia. unfold in_vnodes. rewrite wp_bind, wp_zoom. eapply wp_mono; [apply vop_inactive_law; lia|]. intros b vs' [-> ->]. rewrite wp_ret.
    eexists. split; [done|]. split; [|split].
    + intros w. unfold rc. case_decide as Hw; [injection Hw as <-; rewrite lookup_delete_eq, Hx; lia|]. rewrite lookup_delete_ne by congruence. lia.
    + apply fs_ok_delete.
    + intros w x' [_ ?]%lookup_delete_Some. eauto.
Qed.
Lemma nc_free_ok p n nm s : ncs s !! p = Some n → entries n = [] → name n = Some nm → (∀ v, vp n = Some v → 1 ≤ rc (vnodes s) v) →
  wp (nc_free tries p) (λ _ s', ∃ vs', s' = set_ncs (delete p (ncs s)) (set_vnodes vs' s) ∧ loses (vp n) (vnodes s) vs') s.
Proof.
  intros Hp He Hn Hv. unfold nc_free. rewrite wp_bind, wp_nc_at. exists n. split; [done|]. rewrite wp_bind, wp_kassert. split; [by apply bool_decide_eq_true|].
  assert (∀ s', (∃ vs', s' = set_vnodes vs' s ∧ loses (vp n) (vnodes s) vs') → wp (_ ← deref "name" (name n); modify (λ s, set_ncs (delete p (ncs s)) s))
    (λ _ s', ∃ vs', s' = set_ncs (delete p (ncs s)) (set_vnodes vs' s) ∧ loses (vp n) (vnodes s) vs') s') as Hrest.
  { intros s' (vs' & -> & Hl). rewrite wp_bind, wp_deref. exists nm. split; [done|]. rewrite wp_modify. by exists vs'. }
  rewrite wp_bind. destruct (vp n) as [v|] eqn:Evp.
  - eapply wp_mono; [apply vn_release_ok; by apply Hv|]. intros [] s' Hs'. by apply Hrest.
  - rewrite wp_ret. apply Hrest. exists (vnodes s). split; [by destruct s|]. split; [|eauto]. intros w. rewrite decide_False by done. lia.
Qed.

(** What freeing the inactive child [p] of [q] makes of the cache. *)
Definition trimmed p q (d : namecache) vs' s : vst :=
  let last := refcnt d =? 1 in
  set_inactive (if last then inactive s else inactive s - 1)
    (set_lru (filter (λ x, x ≠ p) (lru_queue s) ++ (if last then [q] else []))
      (set_vnodes vs' (set_ncs (<[q := with_refcnt (refcnt d - 1) (with_entries (filter (λ x, x ≠ p) (entries d)) d)]> (delete p (ncs s))) s))).
Lemma nc_inv_vp k R s p n v : nc_inv k R s → ncs s !! p = Some n → vp n = Some v → 1 ≤ rc (vnodes s) v.
Proof. intros Hi Hp Hv. pose proof (ni_vp _ _ _ Hi v). assert (0 < vrefs (ncs s) v)%nat by (by eapply tally_pos). lia. Qed.
Lemma kids_pos k R s p n q : nc_inv k R s → ncs s !! p = Some n → parent n = Some q → (0 < kids (ncs s) q)%nat.
Proof. intros _ Hp Hq. by eapply tally_pos. Qed.
(** An inactive node has no children and a parent. *)
Lemma nc_inv_idle k R s p : nc_inv k R s → p ∈ lru_queue s → ∃ n q d nm, ncs s !! p = Some n ∧ refcnt n = 0 ∧ occ p R = 0%nat ∧ kids (ncs s) p = 0%nat ∧ entries n = [] ∧
  parent n = Some q ∧ q ≠ p ∧ ncs s !! q = Some d ∧ p ∈ entries d ∧ name n = Some nm ∧ 1 ≤ refcnt d.
Proof.
  intros Hi Hp. apply (ni_lru _ _ _ Hi) in Hp as (n & Hn & Hzero). pose proof (ni_refs _ _ _ Hi _ _ Hn) as Hr. assert (occ p R = 0%nat ∧ kids (ncs s) p = 0%nat) as [Ho Hk] by lia.
  destruct (parent n) as [q|] eqn:Hq; [|pose proof (ni_root _ _ _ Hi _ _ Hn Hq) as Hin; apply occ_in in Hin; lia].
  destruct (ni_parent _ _ _ Hi _ _ _ Hn Hq) as (d & Hd & Hpd & _). destruct (ni_named _ _ _ Hi _ _ _ Hn Hq) as (nm & Hnm & _). pose proof (kids_pos _ _ _ _ _ _ Hi Hn Hq).
  exists n, q, d, nm. split_and!; try done.
  - destruct (entries n) as [|c l] eqn:He; [done|]. destruct (ni_entries _ _ _ Hi p n c Hn) as (cn & Hc & Hcp); [rewrite He; by left|]. pose proof (kids_pos _ _ _ _ _ _ Hi Hc Hcp). lia.
  - intros ->. lia.
  - pose proof (ni_refs _ _ _ Hi _ _ Hd). lia.
Qed.
Lemma do_trim_run k R s p n q d : nc_inv k R s → p ∈ lru_queue s → ncs s !! p = Some n → parent n = Some q → ncs s !! q = Some d → 0 ≤ inactive s - 1 →
  wp (TAILQ_REMOVE_lru p;; do_trim tries p) (λ _ s', ∃ vs', s' = trimmed p q d vs' s ∧ loses (vp n) (vnodes s) vs') s.
Proof.
  intros Hi Hp Hn Hq Hd Hin. destruct (nc_inv_idle _ _ _ _ Hi Hp) as (n' & q' & d' & nm & Hn' & Hzero & _ & _ & He & Hq' & Hne & Hd' & Hpd & Hnm & Hrd). simplify_eq.
  unfold TAILQ_REMOVE_lru. rewrite wp_bind, wp_bind, wp_get, wp_bind, wp_kassert. split; [by apply bool_decide_eq_true|]. rewrite wp_modify. unfold do_trim.
  rewrite wp_bind, wp_nc_at. exists n. split; [done|]. rewrite wp_bind, wp_deref. exists q. split; [done|]. rewrite wp_bind, wp_kassert. split; [lia|].
  unfold RB_REMOVE. rewrite wp_bind, wp_bind, wp_nc_at. exists d. split; [done|]. rewrite wp_nc_set, wp_bind.
  eapply wp_mono; [eapply (nc_free_ok p n nm); [simpl; by rewrite lookup_insert_ne|done|done|intros v Hv; exact (nc_inv_vp _ _ _ _ _ _ Hi Hn Hv)]|].
  intros [] s1 (vs' & -> & Hl). simpl in Hl. unfold release_node. rewrite wp_bind, wp_bind, wp_nc_at. eexists. split; [simpl; rewrite lookup_delete_ne, lookup_insert_eq by done; done|].
  rewrite wp_bind, wp_nc_set. simpl. rewrite u32_small by (pose proof (ni_refs _ _ _ Hi _ _ Hd); pose proof (ni_bound _ _ _ Hi q); pose proof (ni_spare _ _ _ Hi); lia).
  rewrite delete_insert_ne, insert_insert_eq by done. pose proof (ni_max _ _ _ Hi) as [Hm1 Hm2].
  destruct (Z.eqb_spec (refcnt d) 1) as [Hl1|Hl1].
  - destruct (parent d) as [g|] eqn:Hg; [|pose proof (ni_root _ _ _ Hi _ _ Hd Hg) as Hin'; apply occ_in in Hin'; pose proof (kids_pos _ _ _ _ _ _ Hi Hn Hq); pose proof (ni_refs _ _ _ Hi _ _ Hd); lia].
    rewrite wp_bind, wp_nc_at. eexists. split; [simpl; by rewrite lookup_insert_eq|]. rewrite wp_bind, wp_kassert. split; [simpl; lia|]. unfold to_lru. rewrite wp_bind, wp_modify, wp_ret, wp_modify.
    exists vs'. split; [|done]. unfold trimmed. rewrite Hl1. simpl. unfold set_inactive. simpl. f_equal. rewrite (u64_small (inactive s + 1)) by lia. rewrite u64_small by lia. lia.
  - rewrite wp_ret, wp_modify. exists vs'. split; [|done]. unfold trimmed. rewrite (proj2 (Z.eqb_neq _ _) Hl1), app_nil_r. unfold set_inactive. simpl. f_equal. rewrite u64_small by lia. done.
Qed.

Section trimmed.
Context (k : Z) (R : list Z) (s : vst) (p q : Z) (n d : namecache) (nm : list Z) (vs' : gmap Z vnode).
Hypotheses (Hi : nc_inv k R s) (Hlru : p ∈ lru_queue s) (Hn : ncs s !! p = Some n) (Hzero : refcnt n = 0) (Ho : occ p R = 0%nat) (Hk : kids (ncs s) p = 0%nat)
  (Hq : parent n = Some q) (Hne : q ≠ p) (Hd : ncs s !! q = Some d) (Hpd : p ∈ entries d) (Hrd : 1 ≤ refcnt d) (Hl : loses (vp n) (vnodes s) vs').
Notation s' := (trimmed p q d vs' s).
Notation d' := (with_refcnt (refcnt d - 1) (with_entries (filter (λ x, x ≠ p) (entries d)) d)).
Lemma trimmed_lookup x n' : ncs s' !! x = Some n' → x = q ∧ n' = d' ∨ x ≠ q ∧ x ≠ p ∧ ncs s !! x = Some n'.
Proof. simpl. rewrite lookup_insert_Some, lookup_delete_Some. naive_solver. Qed.
Lemma trimmed_other x : x ≠ q → x ≠ p → ncs s' !! x = ncs s !! x.
Proof. intros. simpl. by rewrite lookup_insert_ne, lookup_delete_ne. Qed.
Lemma trimmed_q : ncs s' !! q = Some d'.
Proof. simpl. by rewrite lookup_insert_eq. Qed.
Lemma trimmed_p : ncs s' !! p = None.
Proof. simpl. by rewrite lookup_insert_ne, lookup_delete_eq. Qed.
(** Everything but counts and children is as it was. *)
Lemma trimmed_old x n' : ncs s' !! x = Some n' → x ≠ p ∧ ∃ n0, ncs s !! x = Some n0 ∧ parent n' = parent n0 ∧ key_of n' = key_of n0 ∧ name n' = name n0 ∧ vp n' = vp n0 ∧ vfsp n' = vfsp n0 ∧ n_mounts_over n' = n_mounts_over n0.
Proof. intros [[-> ->]|(H1 & H2 & H3)]%trimmed_lookup; (split; [congruence|]); eauto 10. Qed.
Lemma trimmed_new x n0 : ncs s !! x = Some n0 → x ≠ p → ∃ n', ncs s' !! x = Some n' ∧ vp n' = vp n0.
Proof. intros Hx Hxp. destruct (decide (x = q)) as [->|Hxq]; [exists d'; rewrite trimmed_q; simplify_eq; done|]. exists n0. by rewrite trimmed_other. Qed.
Lemma trimmed_kids x : (kids (ncs s') x + (if decide (x = q) then 1 else 0) = kids (ncs s) x)%nat.
Proof.
  unfold kids. rewrite (tally_delete _ (ncs s) p n Hn). simpl. rewrite (tally_same _ _ q d) by (rewrite ?lookup_delete_ne by done; done). unfold one. rewrite Hq.
  destruct (decide (x = q)) as [->|Hx]; [rewrite decide_True by done|rewrite decide_False by congruence]; lia.
Qed.
Lemma trimmed_vrefs v : (vrefs (ncs s') v + (if decide (vp n = Some v) then 1 else 0) = vrefs (ncs s) v)%nat.
Proof.
  unfold vrefs. rewrite (tally_delete _ (ncs s) p n Hn). simpl. rewrite (tally_same _ _ q d) by (rewrite ?lookup_delete_ne by done; done). unfold one. lia.
Qed.
Lemma trimmed_lru x : x ∈ lru_queue s' ↔ ∃ n', ncs s' !! x = Some n' ∧ refcnt n' = 0.
Proof.
  simpl lru_queue. rewrite elem_of_app, list_elem_of_filter, (ni_lru _ _ _ Hi). split.
  - intros [[Hxp (n0 & Hx & Hz0)]|Hx].
    + exists n0. rewrite trimmed_other; [done| |done]. intros ->. simplify_eq. lia.
    + destruct (Z.eqb_spec (refcnt d) 1); [|by apply elem_of_nil in Hx]. apply list_elem_of_singleton in Hx as ->. exists d'. rewrite trimmed_q. split; [done|simpl; lia].
  - intros (n' & Hx & Hz0). apply trimmed_lookup in Hx as [[-> ->]|(H1 & H2 & H3)]; [|left; eauto]. right. simpl in Hz0. rewrite (proj2 (Z.eqb_eq (refcnt d) 1)) by lia. by left.
Qed.
Lemma trimmed_length : Z.of_nat (length (lru_queue s')) - inactive s' = Z.of_nat (length (lru_queue s)) - inactive s.
Proof. simpl. rewrite (remove_length p (lru_queue s)) by (done || apply Hi). rewrite length_app. destruct (refcnt d =? 1); simpl; lia. Qed.
Lemma trimmed_nodup : NoDup (lru_queue s').
Proof.
  simpl. apply NoDup_app. split_and!; [apply NoDup_filter, Hi| |destruct (refcnt d =? 1); repeat constructor; by intros ?%elem_of_nil].
  intros x [_ Hx]%list_elem_of_filter Hin. destruct (refcnt d =? 1) eqn:E; [|by apply elem_of_nil in Hin]. apply list_elem_of_singleton in Hin as ->.
  apply (ni_lru _ _ _ Hi) in Hx as (d0 & Hd0 & ?). simplify_eq. lia.
Qed.
Lemma trimmed_inv : nc_inv k R s'.
Proof.
  split.
  - intros x n' Hx. pose proof (trimmed_kids x) as Hks. apply trimmed_lookup in Hx as [[-> ->]|(H1 & H2 & H3)].
    + rewrite decide_True in Hks by done. pose proof (ni_refs _ _ _ Hi _ _ Hd). simpl refcnt. lia.
    + rewrite decide_False in Hks by done. rewrite (ni_refs _ _ _ Hi _ _ H3). lia.
  - apply Hi.
  - intros x. pose proof (ni_bound _ _ _ Hi x). pose proof (trimmed_kids x). lia.
  - intros x Hx. destruct (ni_held _ _ _ Hi x Hx) as (n0 & Hn0 & Hv). destruct (trimmed_new x n0 Hn0) as (n' & ? & Hvp); [intros ->; apply occ_in in Hx; lia|]. exists n'. by rewrite Hvp.
  - intros x n' Hx Hpar. destruct (trimmed_old _ _ Hx) as (_ & n0 & Hn0 & He & _). eapply ni_root; [done..|congruence].
  - intros x n' g Hx Hpar. destruct (trimmed_old _ _ Hx) as (Hxp & n0 & Hn0 & He & _). rewrite He in Hpar. destruct (ni_parent _ _ _ Hi _ _ _ Hn0 Hpar) as (dg & Hdg & Hin & Hv).
    assert (g ≠ p) by (intros ->; pose proof (kids_pos _ _ _ _ _ _ Hi Hn0 Hpar); lia). destruct (decide (g = q)) as [->|Hg]; [|exists dg; by rewrite trimmed_other].
    simplify_eq. exists d'. rewrite trimmed_q. split_and!; [done| |done]. simpl. apply list_elem_of_filter. done.
  - intros x n' g Hx Hpar. destruct (trimmed_old _ _ Hx) as (_ & n0 & Hn0 & He & Hke & Hna & _). rewrite He in Hpar. rewrite Hke, Hna. by eapply ni_named.
  - intros g dg x Hg Hx. assert (∃ d0, ncs s !! g = Some d0 ∧ x ∈ entries d0 ∧ x ≠ p) as (d0 & Hd0 & Hin & Hxp).
    { apply trimmed_lookup in Hg as [[-> ->]|(H1 & H2 & H3)]; [simpl in Hx; apply list_elem_of_filter in Hx as [? ?]; eauto|]. exists dg. split_and!; [done|done|]. intros ->. destruct (ni_entries _ _ _ Hi _ _ _ H3 Hx) as (? & ? & ?). congruence. }
    destruct (ni_entries _ _ _ Hi _ _ _ Hd0 Hin) as (nx & Hnx & Hpar). destruct (decide (x = q)) as [->|Hxq]; [exists d'; rewrite trimmed_q; simplify_eq; done|exists nx; by rewrite trimmed_other].
  - intros g x x' nx nx' Hx Hx' Hp1 Hp2 Hs. destruct (trimmed_old _ _ Hx) as (_ & n0 & Hn0 & He & Hke & _), (trimmed_old _ _ Hx') as (_ & n0' & Hn0' & He' & Hke' & _).
    rewrite Hke, Hke' in Hs. eapply (ni_distinct _ _ _ Hi g); [exact Hn0|exact Hn0'|congruence..|done].
  - apply trimmed_lru.
  - apply trimmed_nodup.
  - intros v. pose proof (ni_vp _ _ _ Hi v). pose proof (trimmed_vrefs v). change (vnodes s') with vs'. rewrite (proj1 Hl v). destruct (decide (vp n = Some v)); lia.
  - apply Hl, Hi.
  - intros x n' v xv Hx Hv Hxv. destruct (trimmed_old _ _ Hx) as (_ & n0 & Hn0 & _ & _ & _ & E1 & E2 & _). destruct (proj2 (proj2 Hl) _ _ Hxv) as (y & Hy & E3). rewrite E2, E3. apply (ni_fs _ _ _ Hi x n0 v y Hn0); congruence.
  - intros x n' g dg Hx Hp Hg. destruct (trimmed_old _ _ Hx) as (_ & n0 & Hn0 & E1 & _ & _ & _ & E2 & _), (trimmed_old _ _ Hg) as (_ & d0 & Hd0 & _ & _ & _ & _ & E3 & _).
    rewrite E2, E3. apply (ni_family _ _ _ Hi x n0 g d0 Hn0); congruence.
  - intros x n' Hx. destruct (trimmed_old _ _ Hx) as (_ & n0 & Hn0 & _ & _ & _ & _ & _ & E). rewrite E. by eapply ni_mounts.
  - pose proof trimmed_length. pose proof (ni_count _ _ _ Hi). change (max_inactive s') with (max_inactive s). lia.
  - pose proof (ni_max _ _ _ Hi). change (max_inactive s') with (max_inactive s). simpl inactive. destruct (refcnt d =? 1); lia.
Qed.
End trimmed.
End inv.
