(* ===== verification/VfsNames.v ===== *)
(** The name cache: trimming, retaining, releasing and looking up
    (kernel/vfs/namecache.c). *)
From S2P Require Import Prelude Vfs VfsInv.
Import Vfs.
Local Open Scope Z_scope.

Section names.
Context `{VnodeLaws} (char_signed : bool) (tries : nat).
Implicit Types (s : vst) (R : list Z).
Notation nc_inv := (nc_inv char_signed).

(** Nodes may be gone, but those that are left are the same. *)
Record older s s' : Prop := {
  ol_nodes x n' : ncs s' !! x = Some n' → ∃ n, ncs s !! x = Some n ∧ parent n' = parent n ∧ name n' = name n ∧ vp n' = vp n ∧ vfsp n' = vfsp n;
  ol_size : (size (ncs s') ≤ size (ncs s))%nat;
  ol_max : max_inactive s' = max_inactive s;
  ol_vfss : vfss s' = vfss s;
  ol_root : root_nch s' = root_nch s
}.
Lemma older_refl s : older s s.
Proof. split; try done. eauto 8. Qed.
Lemma older_trans s s1 s2 : older s s1 → older s1 s2 → older s s2.
Proof.
  intros [A1 A2 A3 A4 A5] [B1 B2 B3 B4 B5]. split; [|lia|congruence..]. intros x n Hx. destruct (B1 _ _ Hx) as (n1 & H1 & ? & ? & ? & ?). destruct (A1 _ _ H1) as (n0 & ? & ? & ? & ? & ?).
  exists n0. split_and!; congruence.
Qed.

(** ** Trimming *)

Lemma trim_step k R s p (Q : () → vst → Prop) : nc_inv k R s → p ∈ lru_queue s →
  (∀ s', nc_inv k R s' → older s s' → size (ncs s) = S (size (ncs s')) → inactive s' ≤ inactive s → (∃ l, lru_queue s' = filter (λ x, x ≠ p) (lru_queue s) ++ l) → Q () s') →
  wp (TAILQ_REMOVE_lru p) (λ _ s1, wp (do_trim tries p) Q s1) s.
Proof.
  intros Hi Hp HQ. destruct (nc_inv_idle _ _ _ _ _ Hi Hp) as (n & q & d & nm & Hn & Hz & Ho & Hk & He & Hq & Hne & Hd & Hpd & Hnm & Hrd).
  pose proof (ni_count _ _ _ _ Hi) as Hc. pose proof (remove_length _ _ (ni_nodup _ _ _ _ Hi) Hp) as Hlen.
  pose proof (do_trim_run char_signed tries k R s p n q d Hi Hp Hn Hq Hd ltac:(lia)) as Hrun. rewrite wp_bind in Hrun. eapply wp_mono; [exact Hrun|]. intros [] s1 Hw.
  eapply wp_mono; [exact Hw|]. intros [] s' (vs' & -> & Hl).
  assert (size (ncs s) = S (size (ncs (trimmed p q d vs' s)))) as Hsz.
  { simpl. rewrite map_size_insert_Some by (rewrite lookup_delete_ne by done; eauto). rewrite map_size_delete_Some by eauto. assert (0 < size (ncs s))%nat by (apply Nat.neq_0_lt_0; intros E; apply map_size_empty_inv in E; by rewrite E, lookup_empty in Hn). lia. }
  apply HQ; [by eapply trimmed_inv| |done|simpl; destruct (refcnt d =? 1); lia|by eexists].
  split; [|lia|done..]. intros x n' Hx. destruct (trimmed_old s p q n d vs' Hq Hne Hd x n' Hx) as (_ & n0 & Hn0 & ? & _ & ? & ? & ? & _). eauto 8.
Qed.
Lemma nc_trim_ok k R fuel : ∀ s, nc_inv k R s → (size (ncs s) < fuel)%nat →
  wp (nc_trim_lru tries fuel) (λ _ s', nc_inv k R s' ∧ older s s' ∧ inactive s' ≤ max_inactive s') s.
Proof.
  induction fuel as [|fuel IH]; intros s Hi Hf; [lia|]. cbn [nc_trim_lru]. rewrite wp_bind, wp_get. destruct (Z.leb_spec (inactive s) (max_inactive s)) as [Hle|Hgt].
  { rewrite wp_ret. split_and!; [done|apply older_refl|done]. }
  pose proof (ni_count _ _ _ _ Hi). destruct (lru_queue s) as [|p l] eqn:El; [simpl in *; lia|]. rewrite wp_bind, wp_deref. exists p. split; [done|]. rewrite wp_bind.
  eapply wp_mono; [eapply (trim_step k R s p (λ _ s1, wp (nc_trim_lru tries fuel) (λ _ s', nc_inv k R s' ∧ older s s' ∧ inactive s' ≤ max_inactive s') s1)); [done|rewrite El; by left|]|].
  - intros s1 Hi1 Ho1 Hsz _ _. eapply wp_mono; [apply IH; [done|lia]|]. intros [] s2 (Hi2 & Ho2 & Hset). split_and!; [done|by eapply older_trans|done].
  - intros [] s1 Hw. by rewrite wp_bind.
Qed.
Lemma trim_if_needed_ok k R s : nc_inv k R s → wp (trim_if_needed tries) (λ _ s', nc_inv k R s' ∧ older s s' ∧ inactive s' ≤ max_inactive s') s.
Proof.
  intros Hi. unfold trim_if_needed. rewrite wp_bind, wp_get, wp_when. destruct (Z.ltb_spec (max_inactive s) (inactive s)).
  - apply nc_trim_ok; [done|lia].
  - split_and!; [done|apply older_refl|lia].
Qed.

(** ** References *)

Definition recounted p n r l i s : vst := set_inactive i (set_lru l (set_ncs (<[p := with_refcnt r n]> (ncs s)) s)).
Lemma recounted_old p n r l i s x n' : ncs s !! p = Some n → ncs (recounted p n r l i s) !! x = Some n' →
  ∃ n0 r0, ncs s !! x = Some n0 ∧ n' = with_refcnt r0 n0 ∧ (x ≠ p → r0 = refcnt n0) ∧ (x = p → r0 = r).
Proof.
  intros Hn Hx. simpl in Hx. apply lookup_insert_Some in Hx as [[<- <-]|[Hne Hx]]; [exists n, r; by split_and!|exists n', (refcnt n'); split_and!; [done|by destruct n'|done|congruence]].
Qed.
Lemma recounted_new p n r l i s x n0 : ncs s !! p = Some n → ncs s !! x = Some n0 → ∃ r', ncs (recounted p n r l i s) !! x = Some (with_refcnt r' n0).
Proof.
  intros Hn Hx. simpl. destruct (decide (x = p)) as [->|Hne]; [rewrite lookup_insert_eq; simplify_eq; eauto|]. rewrite lookup_insert_ne, Hx by done. exists (refcnt n0). by destruct n0.
Qed.
Lemma recounted_tally (Q : namecache → Prop) `{∀ x, Decision (Q x)} p n r l i s : ncs s !! p = Some n → (∀ r n, Q (with_refcnt r n) ↔ Q n) → tally Q (ncs (recounted p n r l i s)) = tally Q (ncs s).
Proof. intros Hn HQ. simpl. eapply tally_same; [done|]. symmetry. apply HQ. Qed.
Lemma recount_inv k k' R R' s p n r l i : nc_inv k R s → ncs s !! p = Some n → (∀ x, x ≠ p → occ x R' = occ x R) → r = Z.of_nat (occ p R' + kids (ncs s) p) → r + k' < 2 ^ 32 → 0 ≤ k' ≤ k →
  is_Some (vp n) → (parent n = None → p ∈ R') → (∀ x, x ≠ p → x ∈ l ↔ x ∈ lru_queue s) → (p ∈ l ↔ r = 0) → NoDup l →
  0 ≤ i - Z.of_nat (length l) ≤ max_inactive s → i ≤ max_inactive s + 1 → nc_inv k' R' (recounted p n r l i s).
Proof.
  intros Hi Hn Hocc Hr Hb Hk Hv Hroot Hl Hlp Hnd Hc Hm. assert (∀ x, kids (ncs (recounted p n r l i s)) x = kids (ncs s) x) as Hks by (intros x; by apply recounted_tally).
  split.
  - intros x n' Hx. rewrite Hks. destruct (recounted_old _ _ _ _ _ _ _ _ Hn Hx) as (n0 & r0 & Hn0 & -> & Hx1 & Hx2). simpl. destruct (decide (x = p)) as [->|Hne]; [rewrite Hx2 by done; done|].
    rewrite Hx1, Hocc by done. by apply (ni_refs _ _ _ _ Hi).
  - lia.
  - intros x. rewrite Hks. destruct (decide (x = p)) as [->|Hne]; [lia|]. rewrite Hocc by done. pose proof (ni_bound _ _ _ _ Hi x). lia.
  - intros x Hx. destruct (decide (x = p)) as [->|Hne].
    + destruct (recounted_new p n r l i s p n Hn Hn) as (r' & ?). exists (with_refcnt r' n). done.
    + apply occ_in in Hx. rewrite Hocc in Hx by done. apply occ_in in Hx. destruct (ni_held _ _ _ _ Hi _ Hx) as (n0 & Hn0 & ?). destruct (recounted_new p n r l i s x n0 Hn Hn0) as (r' & ?). eexists. done.
  - intros x n' Hx Hp. destruct (recounted_old _ _ _ _ _ _ _ _ Hn Hx) as (n0 & r0 & Hn0 & -> & Hx1 & _). destruct (decide (x = p)) as [->|Hne]; [assert (n0 = n) as -> by congruence; exact (Hroot Hp)|].
    pose proof (ni_root _ _ _ _ Hi _ _ Hn0 Hp) as Hin. apply occ_in. rewrite Hocc by done. by apply occ_in.
  - intros x n' g Hx Hp. destruct (recounted_old _ _ _ _ _ _ _ _ Hn Hx) as (n0 & r0 & Hn0 & -> & _). destruct (ni_parent _ _ _ _ Hi _ _ _ Hn0 Hp) as (d & Hd & ? & ?). destruct (recounted_new p n r l i s g d Hn Hd) as (r' & ?).
    eexists. done.
  - intros x n' g Hx Hp. destruct (recounted_old _ _ _ _ _ _ _ _ Hn Hx) as (n0 & r0 & Hn0 & -> & _). exact (ni_named _ _ _ _ Hi _ _ _ Hn0 Hp).
  - intros g d x Hg Hx. destruct (recounted_old _ _ _ _ _ _ _ _ Hn Hg) as (d0 & r0 & Hd0 & -> & _). destruct (ni_entries _ _ _ _ Hi _ _ _ Hd0 Hx) as (nx & Hnx & ?). destruct (recounted_new p n r l i s x nx Hn Hnx) as (r' & ?). eexists. done.
  - intros g x x' m m' Hx Hx' Hp Hp' Hs. destruct (recounted_old _ _ _ _ _ _ _ _ Hn Hx) as (m0 & r0 & Hm0 & -> & _), (recounted_old _ _ _ _ _ _ _ _ Hn Hx') as (m1 & r1 & Hm1 & -> & _).
    exact (ni_distinct _ _ _ _ Hi _ _ _ _ _ Hm0 Hm1 Hp Hp' Hs).
  - intros x. change (lru_queue (recounted p n r l i s)) with l. destruct (decide (x = p)) as [->|Hne].
    + rewrite Hlp. simpl. rewrite lookup_insert_eq. split; [intros; eexists; done|intros (? & ? & ?); simplify_eq; done].
    + rewrite Hl by done. rewrite (ni_lru _ _ _ _ Hi). simpl. by rewrite lookup_insert_ne.
  - done.
  - intros v. unfold vrefs. rewrite recounted_tally by done. apply Hi.
  - apply Hi.
  - intros x n' v xv Hx Hv0 Hxv. destruct (recounted_old _ _ _ _ _ _ _ _ Hn Hx) as (n0 & r0 & Hn0 & -> & _). exact (ni_fs _ _ _ _ Hi _ _ _ _ Hn0 Hv0 Hxv).
  - intros x n' g dg Hx Hp Hg. destruct (recounted_old _ _ _ _ _ _ _ _ Hn Hx) as (n0 & r0 & Hn0 & -> & _), (recounted_old _ _ _ _ _ _ _ _ Hn Hg) as (d0 & r1 & Hd0 & -> & _). exact (ni_family _ _ _ _ Hi _ _ _ _ Hn0 Hp Hd0).
  - intros x n' Hx. destruct (recounted_old _ _ _ _ _ _ _ _ Hn Hx) as (n0 & r0 & Hn0 & -> & _). exact (ni_mounts _ _ _ _ Hi _ _ Hn0).
  - done.
  - split; [done|apply Hi].
Qed.
Lemma recounted_older p n r l i s : ncs s !! p = Some n → older s (recounted p n r l i s).
Proof.
  intros Hn. split; [|simpl; by rewrite map_size_insert_Some by eauto|done..]. intros x n' Hx. destruct (recounted_old _ _ _ _ _ _ _ _ Hn Hx) as (n0 & r0 & Hn0 & -> & _). eauto 8.
Qed.
Lemma recounted_same s p n r : set_ncs (<[p := with_refcnt r n]> (ncs s)) s = recounted p n r (lru_queue s) (inactive s) s.
Proof. by destruct s. Qed.

(** A node in use, or one that is not in use but has a vnode, is retained. *)
Lemma nc_retain_ok k R s p n : nc_inv (k + 1) R s → inactive s ≤ max_inactive s → 0 ≤ k → ncs s !! p = Some n → is_Some (vp n) →
  wp (nc_retain p) (λ _ s', nc_inv k (p :: R) s' ∧ older s s' ∧ inactive s' ≤ max_inactive s') s.
Proof.
  intros Hi Hset Hk Hn Hv. pose proof (ni_refs _ _ _ _ Hi _ _ Hn) as Hr. pose proof (ni_bound _ _ _ _ Hi p) as Hb. unfold nc_retain. rewrite wp_bind, wp_nc_at. exists n. split; [done|]. rewrite wp_bind, wp_nc_set, wp_when.
  rewrite u32_small by lia. assert (∀ x, x ≠ p → occ x (p :: R) = occ x R) as Ho by (intros x Hx; rewrite occ_cons, decide_False by done; done).
  assert (refcnt n + 1 = Z.of_nat (occ p (p :: R) + kids (ncs s) p)) as Hr' by (rewrite occ_cons, decide_True by done; lia).
  destruct (Z.eqb_spec (refcnt n) 0) as [Hz|Hz].
  - assert (p ∈ lru_queue s) as Hp by (apply (ni_lru _ _ _ _ Hi); eauto). destruct (nc_inv_idle _ _ _ _ _ Hi Hp) as (n' & q & d & nm & Hn' & _ & _ & _ & _ & Hq & _). simplify_eq.
    rewrite wp_bind, wp_kassert. split; [apply bool_decide_eq_true; eauto|]. unfold TAILQ_REMOVE_lru. rewrite wp_bind, wp_get, wp_bind, wp_kassert. split; [by apply bool_decide_eq_true|]. rewrite wp_modify.
    pose proof (remove_length _ _ (ni_nodup _ _ _ _ Hi) Hp) as Hlen. pose proof (ni_count _ _ _ _ Hi).
    change (set_lru _ _) with (recounted p n (refcnt n + 1) (filter (λ q, q ≠ p) (lru_queue s)) (inactive s) s). split_and!; [|apply recounted_older; done|done].
    eapply (recount_inv (k + 1) k R); [done|done|done|done|lia|lia|done|congruence| | |apply NoDup_filter, Hi|lia|lia].
    + intros x Hx. rewrite list_elem_of_filter. tauto.
    + rewrite list_elem_of_filter. split; [tauto|lia].
  - rewrite recounted_same. split_and!; [|apply recounted_older; done|done]. eapply (recount_inv (k + 1) k R); [done|done|done|done|lia|lia|done|by left|done| |apply Hi|apply Hi|apply Hi].
    rewrite (ni_lru _ _ _ _ Hi). split; [intros (? & ? & ?); simplify_eq; lia|lia].
Qed.
Lemma nc_release_ok k R s p : nc_inv k (p :: R) s → inactive s ≤ max_inactive s → (∀ n, ncs s !! p = Some n → parent n = None → p ∈ R) →
  wp (nc_release tries p) (λ _ s', nc_inv k R s' ∧ older s s' ∧ inactive s' ≤ max_inactive s') s.
Proof.
  intros Hi Hset Hroot. destruct (ni_held _ _ _ _ Hi p) as (n & Hn & Hv); [by left|]. pose proof (ni_refs _ _ _ _ Hi _ _ Hn) as Hr. rewrite occ_cons, decide_True in Hr by done.
  pose proof (ni_bound _ _ _ _ Hi p) as Hb. rewrite occ_cons, decide_True in Hb by done. pose proof (ni_spare _ _ _ _ Hi) as Hk. pose proof (ni_count _ _ _ _ Hi) as Hc. pose proof (ni_max _ _ _ _ Hi) as Hm.
  assert (∀ x, x ≠ p → occ x R = occ x (p :: R)) as Ho by (intros x Hx; rewrite occ_cons, decide_False by done; done).
  assert (p ∉ lru_queue s) as Hp by (rewrite (ni_lru _ _ _ _ Hi); intros (n' & ? & ?); simplify_eq; lia).
  unfold nc_release, nc_release_internal, release_node. rewrite wp_bind, wp_bind, wp_nc_at. exists n. split; [done|]. rewrite wp_bind, wp_nc_set, u32_small by lia.
  destruct (Z.eqb_spec (refcnt n) 1) as [H1|H1].
  - destruct (parent n) as [q|] eqn:Hq; [|specialize (Hroot n Hn Hq); apply occ_in in Hroot; lia].
    rewrite wp_bind, wp_nc_at. eexists. split; [simpl; by rewrite lookup_insert_eq|]. rewrite wp_bind, wp_kassert. split; [simpl; lia|]. unfold to_lru. rewrite wp_bind, wp_modify, wp_ret, wp_when. simpl. rewrite u64_small by lia.
    eapply wp_mono; [apply (trim_if_needed_ok k R (recounted p n (refcnt n - 1) (lru_queue s ++ [p]) (inactive s + 1) s))|].
    + eapply (recount_inv k k (p :: R)); [done|done|done|lia|lia|lia|done|congruence| | | |rewrite length_app; simpl; lia|lia].
      * intros x Hx. rewrite elem_of_app, list_elem_of_singleton. tauto.
      * rewrite elem_of_app, list_elem_of_singleton. split; [lia|tauto].
      * apply NoDup_app. split_and!; [apply Hi| |repeat constructor; by intros ?%elem_of_nil]. intros x Hx ->%list_elem_of_singleton. done.
    + intros [] s' (Hi' & Hold & Hset'). split_and!; [done| |done]. eapply older_trans; [by apply recounted_older|done].
  - rewrite wp_ret, wp_when. simpl. rewrite recounted_same. split_and!; [|apply recounted_older; done|done]. eapply (recount_inv k k (p :: R)); [done|done|done|lia|lia|lia|done| |done| |apply Hi|apply Hi|apply Hi].
    + intros Hpn. by eapply Hroot.
    + rewrite (ni_lru _ _ _ _ Hi). split; [intros (? & ? & ?); simplify_eq; lia|lia].
Qed.
End names.
