(* ===== verification/VfsLookup.v ===== *)
(** The name cache: looking a name up (kernel/vfs/namecache.c). *)
From S2P Require Import Prelude Vfs VfsInv VfsNames.
Import Vfs.
Local Open Scope Z_scope.

(** ** Hashes *)

Lemma lxor_u32 a b : 0 ≤ a < 2 ^ 32 → 0 ≤ b < 2 ^ 32 → 0 ≤ Z.lxor a b < 2 ^ 32.
Proof.
  intros Ha Hb. assert (Z.lxor a b = Z.lxor a b mod 2 ^ 32) as ->; [|by apply Z.mod_pos_bound].
  apply Z.bits_inj'. intros i Hi. destruct (Z.lt_ge_cases i 32) as [Hlt|Hge]; [by rewrite Z.mod_pow2_bits_low|].
  rewrite Z.mod_pow2_bits_high by lia. rewrite Z.lxor_spec. rewrite <- (Z.mod_small a (2 ^ 32)), <- (Z.mod_small b (2 ^ 32)) by done. by rewrite !Z.mod_pow2_bits_high by lia.
Qed.
Lemma hash_u32 cs l h : 0 ≤ h < 2 ^ 32 → 0 ≤ fold_left (λ hash c, Z.lxor (u32 (hash * fnv_prime)) (u32 (char cs c))) l h < 2 ^ 32.
Proof. revert h. induction l as [|c l IH]; intros h Hh; [done|]. simpl. apply IH, lxor_u32; by apply Z.mod_pos_bound. Qed.
(** The length can be read back from a key. *)
Lemma nc_hash_len cs str len : 0 ≤ len → nc_hash cs str len / 2 ^ 32 = len.
Proof.
  intros Hl. unfold nc_hash. rewrite <- Z.shiftr_div_pow2 by lia. rewrite Z.shiftr_lor, Z.shiftr_shiftl_l by lia. change (32 - 32) with 0. rewrite Z.shiftl_0_r.
  rewrite Z.shiftr_div_pow2 by lia. rewrite Z.div_small; [by apply Z.lor_0_l|]. by apply hash_u32.
Qed.
Lemma search_key_len cs nm nm' : (search_key cs nm).2 = (search_key cs nm').2 → (search_key cs nm).1.2 = (search_key cs nm').1.2.
Proof.
  intros He. simpl in *. pose proof (Z.mod_pos_bound (Z.of_nat (length nm)) 256). pose proof (Z.mod_pos_bound (Z.of_nat (length nm')) 256).
  apply (f_equal (λ x, x / 2 ^ 32)) in He. rewrite !nc_hash_len in He by lia. done.
Qed.
Lemma bytes_cmp_eq a : ∀ b, length a = length b → bytes_cmp (length a) a b = 0 → a = b.
Proof.
  induction a as [|x a IH]; intros [|y b] Hl He; try done. simpl in *. destruct (Z.eqb_spec x y) as [->|Hne]; [|lia]. f_equal. apply IH; [lia|done].
Qed.
Definition short (nm : list Z) : Prop := (length nm < 256)%nat.
Lemma same_key_name cs nm nm' : short nm → short nm' → same_key (search_key cs nm) (search_key cs nm') → nm = nm'.
Proof.
  intros Hs Hs' [Hk Hb]. pose proof (search_key_len cs nm nm' Hk) as Hl. simpl in Hl, Hb. unfold short in *. rewrite !Z.mod_small in Hl by lia. rewrite Z.mod_small, Nat2Z.id in Hb by lia. apply bytes_cmp_eq; [lia|done].
Qed.
Lemma bytes_cmp_refl n a : bytes_cmp n a a = 0.
Proof. revert a. induction n as [|n IH]; intros [|x a]; try done. simpl. by rewrite Z.eqb_refl. Qed.

Lemma bytes_cmp_sym n : ∀ a b, bytes_cmp n a b = 0 → bytes_cmp n b a = 0.
Proof.
  induction n as [|n IH]; intros [|x a] [|y b]; try done. simpl. rewrite (Z.eqb_sym y x). destruct (Z.eqb_spec x y); [apply IH|lia].
Qed.
Lemma same_key_sym cs nm nm' : same_key (search_key cs nm) (search_key cs nm') → same_key (search_key cs nm') (search_key cs nm).
Proof. intros [Hk Hb]. split; [done|]. rewrite <- (search_key_len cs nm nm' Hk). by apply bytes_cmp_sym. Qed.

Section lookup.
Context `{VnodeLaws} (char_signed : bool) (tries : nat).
Implicit Types (s : vst) (R : list Z).
Notation nc_inv := (nc_inv char_signed).
Notation search_key := (search_key char_signed).

(** ** Searching a directory *)

Lemma wp_cmp_entry nm nm' p n (Q : Z → vst → Prop) s : ncs s !! p = Some n → key_of n = search_key nm' →
  (∀ c, (c = 0 ↔ same_key (search_key nm) (search_key nm')) → Q c s) → wp (cmp_entry (search_key nm) p) Q s.
Proof.
  intros Hn Hk HQ. unfold cmp_entry. rewrite wp_bind, wp_nc_at. exists n. split; [done|]. rewrite Hk. unfold nc_cmp. unfold same_key in HQ.
  destruct (Z.ltb_spec (search_key nm).2 (search_key nm').2); [rewrite wp_ret; apply HQ; lia|].
  destruct (Z.ltb_spec (search_key nm').2 (search_key nm).2); [rewrite wp_ret; apply HQ; lia|]. assert ((search_key nm).2 = (search_key nm').2) as He by lia.
  rewrite wp_bind, wp_kassert. split; [apply Z.eqb_eq; by apply search_key_len|]. rewrite wp_ret. apply HQ. tauto.
Qed.
Definition keyed s (l : list Z) : Prop := ∀ p, p ∈ l → ∃ n nm, ncs s !! p = Some n ∧ key_of n = search_key nm.
Lemma RB_FIND_ok nm s l : keyed s l → wp (RB_FIND (search_key nm) l)
  (λ r s', s' = s ∧ match r with
    | Some p => p ∈ l ∧ ∃ n, ncs s !! p = Some n ∧ same_key (search_key nm) (key_of n)
    | None => ∀ p n, p ∈ l → ncs s !! p = Some n → ¬ same_key (search_key nm) (key_of n) end) s.
Proof.
  induction l as [|p l IH]; intros Hl; cbn [RB_FIND]; [rewrite wp_ret; split; [done|]; by intros p n ?%elem_of_nil|]. destruct (Hl p) as (n & nm' & Hn & Hk); [by left|].
  rewrite wp_bind. eapply wp_cmp_entry; [done|done|]. intros c Hc. rewrite <- Hk in Hc. destruct (Z.eqb_spec c 0) as [Hz|Hz].
  - rewrite wp_ret. split; [done|]. split; [by left|]. exists n. split; [done|]. by apply Hc.
  - eapply wp_mono; [apply IH; intros x Hx; apply Hl; by right|]. intros [q|] s' [-> Hr]; (split; [done|]).
    + destruct Hr as [? ?]. split; [by right|done].
    + intros q nq [->|Hq]%elem_of_cons Hnq; [assert (nq = n) as -> by congruence; by rewrite <- Hc|exact (Hr q nq Hq Hnq)].
Qed.
Lemma dir_keyed k R s dir d : nc_inv k R s → ncs s !! dir = Some d → keyed s (entries d).
Proof.
  intros Hi Hd p Hp. destruct (ni_entries _ _ _ _ Hi _ _ _ Hd Hp) as (n & Hn & Hpar). destruct (ni_named _ _ _ _ Hi _ _ _ Hn Hpar) as (nm & _ & Hk). eauto.
Qed.

(** ** Adding a node *)

(** The directory [dir] gets a child [new], in use ([pos]) or not. *)
Definition new_node (pos : option Z) dir nm (d : namecache) : namecache :=
  let k := search_key nm in Nc (if pos then 1 else 0) k.1.2 0 pos (vfsp d) [] (Some dir) (Some nm) k.2.
Definition added (pos : option Z) new dir nm (d : namecache) vs' s : vst :=
  set_inactive (if pos then inactive s else inactive s + 1) (set_lru (if pos then lru_queue s else lru_queue s ++ [new])
    (set_vnodes vs' (set_ncs (<[new := new_node pos dir nm d]> (<[dir := with_entries (new :: entries d) (with_refcnt (refcnt d + 1) d)]> (ncs s))) s))).

Section added.
Context (k : Z) (R : list Z) (s : vst) (pos : option Z) (new dir : Z) (d : namecache) (nm : list Z) (vs' : gmap Z vnode).
Hypotheses (Hi : nc_inv (k + 1) R s) (Hset : inactive s ≤ max_inactive s) (Hk : 0 ≤ k) (Hnew : ncs s !! new = None) (Hd : ncs s !! dir = Some d) (Hv : is_Some (vp d)) (Hdir : dir ∈ R)
  (Hfresh : ∀ p n, p ∈ entries d → ncs s !! p = Some n → ¬ same_key (search_key nm) (key_of n))
  (Hvs : ∀ w, rc vs' w = rc (vnodes s) w + (if decide (pos = Some w) then 1 else 0))
  (Hfs : ∀ w x y, vs' !! w = Some x → vnodes s !! w = Some y → vvfs x = vvfs y) (Hfs' : ∀ w x, pos = Some w → vs' !! w = Some x → vvfs x = Some (vfsp d)) (Hfsok : fs_ok vs').
Notation s' := (added pos new dir nm d vs' s).
Notation nn := (new_node pos dir nm d).
Notation d' := (with_entries (new :: entries d) (with_refcnt (refcnt d + 1) d)).
Notation R' := (if pos then new :: R else R).
Lemma added_ne : new ≠ dir.
Proof. congruence. Qed.
Lemma added_lookup x n' : ncs s' !! x = Some n' → x = new ∧ n' = nn ∨ x ≠ new ∧ (x = dir ∧ n' = d' ∨ x ≠ dir ∧ ncs s !! x = Some n').
Proof. clear. simpl. rewrite !lookup_insert_Some. naive_solver. Qed.
Lemma added_new : ncs s' !! new = Some nn.
Proof. simpl. by rewrite lookup_insert_eq. Qed.
Lemma added_dir : ncs s' !! dir = Some d'.
Proof. simpl. rewrite lookup_insert_ne by apply added_ne. by rewrite lookup_insert_eq. Qed.
Lemma added_other x : x ≠ new → x ≠ dir → ncs s' !! x = ncs s !! x.
Proof. intros. simpl. by rewrite !lookup_insert_ne. Qed.
(** The nodes there were are there still. *)
Lemma added_old x n0 : ncs s !! x = Some n0 → x ≠ new ∧ ∃ n', ncs s' !! x = Some n' ∧ parent n' = parent n0 ∧ key_of n' = key_of n0 ∧ name n' = name n0 ∧ vp n' = vp n0 ∧ (∀ y, y ∈ entries n0 → y ∈ entries n').
Proof.
  intros Hx. assert (x ≠ new) by congruence. split; [done|]. destruct (decide (x = dir)) as [->|Hne].
  - exists d'. rewrite added_dir. assert (n0 = d) as -> by congruence. split_and!; try done. intros y Hy. by right.
  - exists n0. by rewrite added_other.
Qed.
Lemma added_back x n' : ncs s' !! x = Some n' → x = new ∧ n' = nn ∨ x ≠ new ∧ ∃ n0, ncs s !! x = Some n0 ∧ parent n' = parent n0 ∧ key_of n' = key_of n0 ∧ name n' = name n0 ∧ vp n' = vp n0 ∧ vfsp n' = vfsp n0 ∧ n_mounts_over n' = n_mounts_over n0.
Proof. intros [?|[Hne [[-> ->]|[? ?]]]]%added_lookup; [by left|right; eauto 10..]. Qed.
Lemma added_kids x : kids (ncs s') x = (kids (ncs s) x + (if decide (x = dir) then 1 else 0))%nat.
Proof.
  unfold kids. simpl. rewrite tally_new by (rewrite lookup_insert_ne by (apply not_eq_sym, added_ne); done). rewrite (tally_same _ _ dir d) by done. unfold one. simpl.
  destruct (decide (x = dir)) as [->|Hx]; [rewrite decide_True by done|rewrite decide_False by congruence]; lia.
Qed.
Lemma added_vrefs v : vrefs (ncs s') v = (vrefs (ncs s) v + (if decide (pos = Some v) then 1 else 0))%nat.
Proof.
  unfold vrefs. simpl. rewrite tally_new by (rewrite lookup_insert_ne by (apply not_eq_sym, added_ne); done). rewrite (tally_same _ _ dir d) by done. unfold one. simpl. lia.
Qed.
Lemma new_unused : new ∉ R ∧ kids (ncs s) new = 0%nat ∧ new ∉ lru_queue s ∧ ∀ x n, ncs s !! x = Some n → new ∉ entries n.
Proof.
  split_and!.
  - intros Hin. destruct (ni_held _ _ _ _ Hi _ Hin) as (? & ? & _). congruence.
  - unfold kids. destruct (decide (tally (λ n, parent n = Some new) (ncs s) = 0%nat)) as [|Hne]; [done|]. exfalso. unfold tally in Hne. apply map_size_ne_0_lookup_1 in Hne as (x & n & Hx). apply map_lookup_filter_Some in Hx as [Hx Hp].
    destruct (ni_parent _ _ _ _ Hi _ _ _ Hx Hp) as (? & ? & _). congruence.
  - rewrite (ni_lru _ _ _ _ Hi). intros (? & ? & _). congruence.
  - intros x n Hx Hin. destruct (ni_entries _ _ _ _ Hi _ _ _ Hx Hin) as (? & ? & _). congruence.
Qed.
Lemma added_occ x : occ x R' = (occ x R + (if decide (x = new) then (if pos then 1 else 0) else 0))%nat.
Proof. destruct pos; [rewrite occ_cons; destruct (decide (x = new)) as [->|Hx]; [rewrite decide_True by done|rewrite decide_False by congruence]; lia|]. case_decide; lia. Qed.
Lemma occ_new : occ new R = 0%nat.
Proof. destruct (decide (occ new R = 0%nat)) as [|Hne]; [done|]. destruct new_unused as [Hno _]. destruct Hno. apply occ_in. lia. Qed.
Lemma added_lru x : x ∈ lru_queue s' ↔ ∃ n', ncs s' !! x = Some n' ∧ refcnt n' = 0.
Proof.
  destruct new_unused as (_ & _ & Hnl & _). pose proof (ni_refs _ _ _ _ Hi _ _ Hd) as Hrd. assert (x ∈ lru_queue s' ↔ x ∈ lru_queue s ∧ x ≠ new ∨ x = new ∧ pos = None) as ->.
  { simpl. destruct pos; [|rewrite elem_of_app, list_elem_of_singleton]; (destruct (decide (x = new)) as [->|]; naive_solver). }
  rewrite (ni_lru _ _ _ _ Hi). split.
  - intros [[(n0 & Hx & Hz) Hne]|[-> Hp]]; [|exists nn; rewrite added_new; split; [done|]; simpl; by rewrite Hp].
    destruct (decide (x = dir)) as [->|Hxd]; [|exists n0; by rewrite added_other]. exfalso. assert (n0 = d) as -> by congruence.
    apply occ_in in Hdir. lia.
  - intros (n' & Hx & Hz). apply added_lookup in Hx as [[-> ->]|[Hne [[-> ->]|[? ?]]]].
    + right. split; [done|]. simpl in Hz. by destruct pos.
    + simpl in Hz. lia.
    + left. eauto.
Qed.
Lemma added_inv : nc_inv k R' s'.
Proof.
  destruct new_unused as (HnR & Hkn & Hnl & Hne). pose proof (ni_refs _ _ _ _ Hi _ _ Hd) as Hrd. pose proof occ_new as Hon. pose proof (ni_count _ _ _ _ Hi) as Hc. pose proof (ni_max _ _ _ _ Hi) as Hm.
  assert (∀ x, x ∈ R' → x = new ∧ is_Some pos ∨ x ∈ R) as HR by (intros x; destruct pos; [rewrite elem_of_cons; naive_solver|by right]).
  split.
  - intros x n' Hx. rewrite added_kids, added_occ. apply added_lookup in Hx as [[-> ->]|[Hxn [[-> ->]|[Hxd Hx]]]].
    + rewrite Hon, Hkn, decide_True, decide_False by (done || apply added_ne). simpl refcnt. destruct pos; lia.
    + rewrite decide_False, decide_True by done. simpl refcnt. lia.
    + rewrite !decide_False by done. rewrite (ni_refs _ _ _ _ Hi _ _ Hx). lia.
  - done.
  - intros x. rewrite added_kids, added_occ. pose proof (ni_bound _ _ _ _ Hi x) as Hb. destruct (decide (x = dir)) as [->|]; [rewrite decide_False by (apply not_eq_sym, added_ne); lia|]. destruct (decide (x = new)), pos; lia.
  - intros x [[-> [v Hp]]|Hx]%HR; [exists nn; rewrite added_new; split; [done|]; simpl; rewrite Hp; eauto|].
    destruct (ni_held _ _ _ _ Hi _ Hx) as (n0 & Hn0 & Hv0). destruct (added_old _ _ Hn0) as (_ & n' & Hn' & _ & _ & _ & Hvp & _). exists n'. by rewrite Hvp.
  - intros x n' Hx Hp. apply added_back in Hx as [[-> ->]|(_ & n0 & Hn0 & Hpar & _)]; [done|]. rewrite Hpar in Hp. pose proof (ni_root _ _ _ _ Hi _ _ Hn0 Hp). destruct pos; [by right|done].
  - intros x n' g Hx Hp. apply added_back in Hx as [[-> ->]|(_ & n0 & Hn0 & Hpar & _)].
    + simpl in Hp. injection Hp as <-. exists d'. rewrite added_dir. split_and!; [done|by left|done].
    + rewrite Hpar in Hp. destruct (ni_parent _ _ _ _ Hi _ _ _ Hn0 Hp) as (dg & Hdg & Hin & Hvg). destruct (added_old _ _ Hdg) as (_ & dg' & ? & _ & _ & _ & Hvp & Hent). exists dg'. rewrite Hvp. auto.
  - intros x n' g Hx Hp. apply added_back in Hx as [[-> ->]|(_ & n0 & Hn0 & Hpar & Hke & Hna & _)]; [by exists nm|]. rewrite Hpar in Hp. rewrite Hke, Hna. by eapply ni_named.
  - intros g dg x Hg Hx. assert (x = new ∧ g = dir ∨ ∃ d0, ncs s !! g = Some d0 ∧ x ∈ entries d0) as [[-> ->]|(d0 & Hd0 & Hin)].
    { apply added_lookup in Hg as [[-> ->]|[Hgn [[-> ->]|[? ?]]]]; [by apply elem_of_nil in Hx| |right; eauto]. simpl in Hx. apply elem_of_cons in Hx as [->|Hx]; [by left|right; eauto]. }
    + exists nn. by rewrite added_new.
    + destruct (ni_entries _ _ _ _ Hi _ _ _ Hd0 Hin) as (n0 & Hn0 & Hp0). destruct (added_old _ _ Hn0) as (_ & n' & ? & Hpar & _). exists n'. by rewrite Hpar.
  - assert (∀ x n0, ncs s !! x = Some n0 → parent n0 = Some dir → ¬ same_key (search_key nm) (key_of n0)) as Hfr.
    { intros x n0 Hx Hp. destruct (ni_parent _ _ _ _ Hi _ _ _ Hx Hp) as (dg & Hdg & Hin & _). assert (dg = d) as -> by congruence. by eapply Hfresh. }
    intros g x x' m m' Hx Hx' Hp Hp' Hs. destruct (added_back _ _ Hx) as [[-> ->]|(Hxn & m0 & Hm0 & Hpar & Hke & _)], (added_back _ _ Hx') as [[-> ->]|(Hxn' & m1 & Hm1 & Hpar' & Hke' & _)].
    + done.
    + exfalso. rewrite Hke' in Hs. rewrite Hpar' in Hp'. simpl in Hp. injection Hp as <-. by eapply (Hfr x').
    + exfalso. rewrite Hke in Hs. rewrite Hpar in Hp. simpl in Hp'. injection Hp' as <-. eapply (Hfr x); [done|done|]. destruct (ni_named _ _ _ _ Hi _ _ _ Hm0 Hp) as (nm0 & _ & Hk0). rewrite Hk0 in Hs |- *. by apply same_key_sym.
    + rewrite Hke, Hke' in Hs. eapply (ni_distinct _ _ _ _ Hi g); [exact Hm0|exact Hm1|congruence..|done].
  - apply added_lru.
  - simpl. destruct pos; [apply Hi|]. apply NoDup_app. split_and!; [apply Hi| |repeat constructor; by intros ?%elem_of_nil]. intros x Hx ->%list_elem_of_singleton. done.
  - intros v. rewrite added_vrefs. change (vnodes s') with vs'. rewrite Hvs. pose proof (ni_vp _ _ _ _ Hi v). destruct (decide (pos = Some v)); lia.
  - done.
  - intros x n' v xv Hx Hvx Hxv. change (vnodes s') with vs' in Hxv. apply added_back in Hx as [[-> ->]|(_ & n0 & Hn0 & _ & _ & _ & E1 & E2 & _)]; [by eapply Hfs'|]. rewrite E1 in Hvx. rewrite E2.
    pose proof (nc_inv_vp _ _ _ _ _ _ _ Hi Hn0 Hvx) as Hrc. destruct (vnodes s !! v) as [y|] eqn:Hy; [|unfold rc in Hrc; rewrite Hy in Hrc; lia]. rewrite (Hfs _ _ _ Hxv Hy). by apply (ni_fs _ _ _ _ Hi x n0 v).
  - intros x n' g dg Hx Hp Hg. assert (g ≠ new ∧ ∃ d0, ncs s !! g = Some d0 ∧ vfsp dg = vfsp d0) as (Hgn & d0 & Hd0 & E).
    { destruct (added_back _ _ Hg) as [[-> ->]|(? & d0 & ? & _ & _ & _ & _ & ? & _)]; [|eauto]. exfalso. destruct (added_back _ _ Hx) as [[-> ->]|(_ & n0 & Hn0 & E1 & _)]; [simpl in Hp; pose proof added_ne; congruence|].
      rewrite E1 in Hp. destruct (ni_parent _ _ _ _ Hi _ _ _ Hn0 Hp) as (? & ? & _). congruence. }
    rewrite E. destruct (added_back _ _ Hx) as [[-> ->]|(_ & n0 & Hn0 & E1 & _ & _ & _ & E2 & _)]; [simpl in Hp |- *; congruence|]. rewrite E2. apply (ni_family _ _ _ _ Hi x n0 g d0 Hn0); congruence.
  - intros x n' Hx. destruct (added_back _ _ Hx) as [[-> ->]|(_ & n0 & Hn0 & _ & _ & _ & _ & _ & E)]; [done|]. rewrite E. by eapply ni_mounts.
  - change (max_inactive s') with (max_inactive s). simpl. destruct pos; [|rewrite length_app; simpl]; lia.
  - change (max_inactive s') with (max_inactive s). simpl inactive. destruct pos; lia.
Qed.
End added.

(** ** Looking up *)

Lemma inv_spend k R s : nc_inv (k + 1) R s → 0 ≤ k → nc_inv k R s.
Proof. intros [] Hk. split; try done. intros p. specialize (ni_bound p). lia. Qed.
Lemma inserts_twice {A} (m : gmap Z A) i j a b c e : i ≠ j → <[i := a]> (<[j := b]> (<[i := c]> (<[j := e]> m))) = <[i := a]> (<[j := b]> m).
Proof. intros Hne. rewrite (insert_insert_ne _ j i b c) by done. by rewrite !insert_insert_eq. Qed.
(** The part of a look-up that adds a node. *)
Lemma add_run k R s new dir d dv nm (Q : errno + Z → vst → Prop) : nc_inv (k + 1) R s → inactive s ≤ max_inactive s → 0 ≤ k → ncs s !! new = None → ncs s !! dir = Some d → dir ∈ R → vp d = Some dv →
  (∀ p n, p ∈ entries d → ncs s !! p = Some n → ¬ same_key (search_key nm) (key_of n)) →
  wp (vop_lookup dv nm) (λ v vs', match v with
    | Some _ => Q (inr new) (added v new dir nm d vs' s)
    | None => wp (trim_if_needed tries) (λ _ s', Q (inl ENOENT) s') (added v new dir nm d vs' s) end) (vnodes s) →
  wp (nc_retain dir;;
      nc_set new (Nc 0 (search_key nm).1.2 0 None (vfsp d) [] (Some dir) (Some nm) (search_key nm).2);;
      RB_INSERT dir new;;
      dvn ← deref "vp" (vp d);
      v ← in_vnodes (vop_lookup dvn nm);
      n ← nc_at new;
      match v with
      | None => nc_set new (with_vp 0 None n);; to_lru new;; trim_if_needed tries;; mret (inl ENOENT)
      | Some v => nc_set new (with_vp 1 (Some v) n);; mret (inr new)
      end) Q s.
Proof.
  intros Hi Hset Hk Hnew Hd Hdir Hv Hfresh HQ. assert (new ≠ dir) as Hne by congruence. pose proof (ni_refs _ _ _ _ Hi _ _ Hd) as Hr. pose proof (ni_bound _ _ _ _ Hi dir) as Hb. pose proof (ni_max _ _ _ _ Hi) as Hm.
  pose proof (ni_count _ _ _ _ Hi) as Hc. pose proof Hdir as Ho. apply occ_in in Ho. unfold nc_retain. rewrite wp_bind, wp_bind, wp_nc_at. exists d. split; [done|]. rewrite wp_bind, wp_nc_set, wp_when, (proj2 (Z.eqb_neq (refcnt d) 0)), u32_small by lia.
  rewrite wp_bind, wp_nc_set. set (s2 := set_ncs _ _). unfold RB_INSERT. rewrite wp_bind, wp_bind, wp_nc_at. eexists. split; [simpl; by rewrite lookup_insert_eq|].
  rewrite wp_bind, wp_nc_at. exists (with_refcnt (refcnt d + 1) d). split; [simpl; rewrite lookup_insert_ne, lookup_insert_eq by done; done|].
  assert (∀ p n, p ∈ entries d → ncs s !! p = Some n → ∃ n', ncs s2 !! p = Some n' ∧ key_of n' = key_of n) as Hsame.
  { intros p n Hp Hpn. simpl. rewrite lookup_insert_ne by congruence. destruct (decide (p = dir)) as [->|Hpd]; [rewrite lookup_insert_eq; eexists; split; [done|]; by simplify_eq|rewrite lookup_insert_ne by done; eauto]. }
  rewrite wp_bind. eapply wp_mono; [apply (RB_FIND_ok nm s2)|].
  { intros p Hp. destruct (dir_keyed _ _ _ _ _ Hi Hd p Hp) as (n & nm' & Hn & Hkn). destruct (Hsame _ _ Hp Hn) as (n' & ? & He). exists n', nm'. by rewrite He. }
  intros r s3 [-> Hr3]. destruct r as [p|].
  { destruct Hr3 as [Hp (n' & Hn' & Hs)]. simpl in Hp. destruct (dir_keyed _ _ _ _ _ Hi Hd p Hp) as (n & _ & Hn & _). destruct (Hsame _ _ Hp Hn) as (n2 & Hn2 & He). exfalso. eapply (Hfresh p n); [done|done|]. rewrite <- He. congruence. }
  rewrite wp_nc_set, wp_bind, wp_deref. exists dv. split; [done|]. unfold in_vnodes. rewrite wp_bind, wp_zoom. eapply wp_mono; [exact HQ|]. intros v vs' HQv.
  rewrite wp_bind, wp_nc_at. eexists. split; [simpl; rewrite lookup_insert_ne, lookup_insert_eq by congruence; done|].
  destruct v as [v|]; rewrite wp_bind, wp_nc_set.
  - rewrite wp_ret. unfold s2. simpl. rewrite inserts_twice by done. destruct s. exact HQv.
  - unfold to_lru. rewrite wp_bind, wp_modify. unfold s2. simpl. rewrite inserts_twice by done. rewrite u64_small by lia. rewrite wp_bind.
    eapply wp_mono; [exact HQv|]. intros [] s' Hs'. by rewrite wp_ret.
Qed.

(** ** The cache and the file system *)

(** [dirs d nm]: the vnode of the name [nm] in the directory [d], in a file system that
    does not change. *)
Context (dirs : Z → list Z → option Z).
Definition answers : Prop := ∀ vs d nm, wp (vop_lookup d nm) (λ r _, r = dirs d nm) vs.
(** What is in the cache is what the file system would say. *)
Record agrees s : Prop := {
  ag_vp p n q d nm v : ncs s !! p = Some n → parent n = Some q → ncs s !! q = Some d → vp d = Some v → name n = Some nm → vp n = dirs v nm;
  ag_short p n nm : ncs s !! p = Some n → name n = Some nm → short nm
}.
Lemma older_agrees s s' : older s s' → agrees s → agrees s'.
Proof.
  intros Ho [A1 A2]. split.
  - intros p n q d nm v Hp Hq Hd Hv Hn. destruct (ol_nodes _ _ Ho _ _ Hp) as (n0 & Hp0 & E1 & E2 & E3 & _), (ol_nodes _ _ Ho _ _ Hd) as (d0 & Hd0 & _ & _ & E4 & _). rewrite E3. apply (A1 p n0 q d0 nm v); congruence.
  - intros p n nm Hp Hn. destruct (ol_nodes _ _ Ho _ _ Hp) as (n0 & Hp0 & _ & E2 & _). eapply A2; [exact Hp0|congruence].
Qed.
Lemma added_agrees s v new dir nm d vs' dv : agrees s → ncs s !! new = None → ncs s !! dir = Some d → vp d = Some dv → v = dirs dv nm → short nm →
  (∀ x n, ncs s !! x = Some n → parent n ≠ Some new) → agrees (added v new dir nm d vs' s).
Proof.
  intros [A1 A2] Hnew Hd Hv -> Hs Hno. split.
  - intros p n q g nm0 v0 Hp Hq Hg Hv0 Hn.
    assert (∃ g0, ncs s !! q = Some g0 ∧ vp g0 = vp g) as (g0 & Hg0 & Hgv).
    { destruct (added_back s (dirs dv nm) new dir d nm vs' Hd q g Hg) as [[-> ->]|(_ & g0 & ? & _ & _ & _ & ? & _)]; [|eauto].
      destruct (added_back s (dirs dv nm) new dir d nm vs' Hd p n Hp) as [[-> ->]|(_ & n0 & Hp0 & E1 & _)]; [change (Some dir = Some new) in Hq; congruence|]. rewrite E1 in Hq. by destruct (Hno _ _ Hp0). }
    destruct (added_back s (dirs dv nm) new dir d nm vs' Hd p n Hp) as [[-> ->]|(_ & n0 & Hp0 & E1 & _ & E2 & E3 & _)]; [change (Some dir = Some q) in Hq; change (Some nm = Some nm0) in Hn; change (dirs dv nm = dirs v0 nm0); congruence|]. rewrite E3. apply (A1 p n0 q g0 nm0 v0); congruence.
  - intros p n nm0 Hp Hn. destruct (added_back s (dirs dv nm) new dir d nm vs' Hd p n Hp) as [[-> ->]|(_ & n0 & Hp0 & _ & _ & E2 & _)]; [change (Some nm = Some nm0) in Hn; congruence|]. eapply A2; [exact Hp0|congruence].
Qed.
(** No node has become a root. *)
Definition roots s s' : Prop := ∀ x n', ncs s' !! x = Some n' → parent n' = None → ∃ n, ncs s !! x = Some n ∧ parent n = None.
Lemma older_roots s s' : older s s' → roots s s'.
Proof. intros Ho x n' Hx Hp. destruct (ol_nodes _ _ Ho _ _ Hx) as (n & Hn & E & _). exists n. split; [done|congruence]. Qed.
Lemma roots_trans s s1 s2 : roots s s1 → roots s1 s2 → roots s s2.
Proof. intros H1 H2 x n Hx Hp. destruct (H2 _ _ Hx Hp) as (n1 & Hx1 & Hp1). by eapply H1. Qed.
(** A node that is still there is what it was. *)
Definition steady s s' : Prop := ∀ x n n', ncs s !! x = Some n → ncs s' !! x = Some n' → vp n' = vp n ∧ vfsp n' = vfsp n.
Lemma older_steady s s1 s' : steady s s1 → older s1 s' → steady s s'.
Proof. intros Hs Ho x n n' Hn Hn'. destruct (ol_nodes _ _ Ho _ _ Hn') as (n1 & Hn1 & _ & _ & E1 & E2). destruct (Hs _ _ _ Hn Hn1). split; congruence. Qed.
Lemma steady_refl s : steady s s.
Proof. intros x n n' Hn Hn'. assert (n = n') as -> by congruence. done. Qed.
Lemma nc_inv_perm k R R' s : R ≡ₚ R' → nc_inv k R s → nc_inv k R' s.
Proof.
  intros Hp []. assert (∀ x, occ x R' = occ x R) as Ho by (intros x; by apply occ_perm). split; try done.
  - intros p n Hn. rewrite Ho. by apply ni_refs.
  - intros p. rewrite Ho. apply ni_bound.
  - intros p. rewrite <- Hp. apply ni_held.
  - intros p n Hn Hpar. rewrite <- Hp. by eapply ni_root.
Qed.
(** A result of a look-up in [dir]: a node in use, or none; and what the file system says. *)
Definition looked_up k R s dir dv nm (r : errno + Z) s' : Prop :=
  inactive s' ≤ max_inactive s' ∧ vfss s' = vfss s ∧ root_nch s' = root_nch s ∧ roots s s' ∧ steady s s' ∧
  match r with inr p => nc_inv k (p :: R) s' ∧ ∃ n, ncs s' !! p = Some n ∧ parent n = Some dir | inl _ => nc_inv k R s' end ∧
  (agrees s → answers → short nm → agrees s' ∧ match r with inr p => ∃ n v, ncs s' !! p = Some n ∧ name n = Some nm ∧ vp n = Some v ∧ dirs dv nm = Some v | inl _ => dirs dv nm = None end).
Lemma added_ok k R s v new dir d dv nm vs' : nc_inv (k + 1) R s → inactive s ≤ max_inactive s → 0 ≤ k → ncs s !! new = None → ncs s !! dir = Some d → dir ∈ R → vp d = Some dv →
  (∀ p n, p ∈ entries d → ncs s !! p = Some n → ¬ same_key (search_key nm) (key_of n)) →
  gives (vnodes s) dv v vs' → fs_ok vs' → (answers → v = dirs dv nm) →
  match v with
  | Some _ => looked_up k R s dir dv nm (inr new) (added v new dir nm d vs' s)
  | None => wp (trim_if_needed tries) (λ _ s', looked_up k R s dir dv nm (inl ENOENT) s') (added v new dir nm d vs' s)
  end.
Proof.
  intros Hi Hset Hk Hnew Hd Hdir Hv Hfresh Hvs Hfsok Hans. unfold gives in Hvs.
  assert (∀ w, rc vs' w = rc (vnodes s) w + (if decide (v = Some w) then 1 else 0)) as Hrc.
  { intros w. destruct v as [u|]; [|subst vs'; rewrite decide_False by done; lia]. destruct Hvs as (x & -> & Hx & _). unfold rc at 1. case_decide as Hw; [injection Hw as ->; by rewrite lookup_insert_eq|]. rewrite lookup_insert_ne by congruence. unfold rc. lia. }
  assert (∀ w x y, vs' !! w = Some x → vnodes s !! w = Some y → vvfs x = vvfs y) as Hf1.
  { intros w x y Hx Hy. destruct v as [u|]; [|subst vs'; congruence]. destruct Hvs as (z & -> & _ & _ & Hold). apply lookup_insert_Some in Hx as [[<- <-]|[_ Hx]]; [by apply Hold|congruence]. }
  assert (∀ w x, v = Some w → vs' !! w = Some x → vvfs x = Some (vfsp d)) as Hf2.
  { intros w x -> Hx. destruct Hvs as (z & -> & _ & Hz & _). rewrite lookup_insert_eq in Hx. injection Hx as <-. rewrite Hz. pose proof (nc_inv_vp _ _ _ _ _ _ _ Hi Hd Hv) as Hr1.
    destruct (vnodes s !! dv) as [y|] eqn:Hy; [|unfold rc in Hr1; rewrite Hy in Hr1; lia]. simpl. by apply (ni_fs _ _ _ _ Hi dir d dv). }
  pose proof (added_inv k R s v new dir d nm vs' Hi Hset Hk Hnew Hd ltac:(eauto) Hdir Hfresh Hrc Hf1 Hf2 Hfsok) as Hinv.
  assert (∀ x n, ncs s !! x = Some n → parent n ≠ Some new) as Hno by (intros x n Hx Hp; destruct (ni_parent _ _ _ _ Hi _ _ _ Hx Hp) as (? & ? & _); congruence).
  assert (agrees s → answers → short nm → agrees (added v new dir nm d vs' s)) as Hag by (intros; eapply added_agrees; eauto).
  assert (roots s (added v new dir nm d vs' s)) as Hroots.
  { intros x n' Hx Hp. destruct (added_back s v new dir d nm vs' Hd x n' Hx) as [[-> ->]|(_ & n0 & Hn0 & E & _)]; [done|]. exists n0. split; [done|congruence]. }
  assert (steady s (added v new dir nm d vs' s)) as Hsteady.
  { intros x n n' Hx Hx'. destruct (added_back s v new dir d nm vs' Hd x n' Hx') as [[-> ->]|(_ & n0 & Hn0 & _ & _ & _ & E1 & E2 & _)]; [congruence|]. assert (n0 = n) as -> by congruence. done. }
  pose proof (added_new s v new dir d nm vs') as Hnn. destruct v as [u|].
  - do 5 (split; [done|]). split; [split; [exact Hinv|]; eexists; split; [exact Hnn|done]|]. intros Ha Hw Hs. split; [by apply Hag|]. eexists _, u. split_and!; [exact Hnn|done|done|]. symmetry. by apply Hans.
  - eapply wp_mono; [eapply trim_if_needed_ok, Hinv|]. intros [] s' (Hi' & Ho & Hset'). split; [done|]. split; [apply Ho|]. split; [apply Ho|]. split; [eapply roots_trans; [exact Hroots|by apply older_roots]|]. split; [by eapply older_steady|]. split; [done|]. intros Ha Hw Hs. split; [eapply older_agrees; [done|by apply Hag]|]. symmetry. by apply Hans.
Qed.
Lemma looked_vop dv nm vs : fs_ok vs → is_Some (vs !! dv) →
  wp (vop_lookup dv nm) (λ v vs', (gives vs dv v vs' ∧ fs_ok vs') ∧ (answers → v = dirs dv nm)) vs.
Proof.
  intros Hok Hd. pose proof (vop_lookup_law vs dv nm Hok Hd) as Hl. unfold wp in *. destruct (vop_lookup dv nm vs) as [[r vs']| |] eqn:E; [|done..]. split; [done|]. intros Hans. specialize (Hans vs dv nm). unfold wp in Hans. by rewrite E in Hans.
Qed.
Lemma nc_lookup_ok k R s new dir d dv nm : nc_inv (k + 1) R s → inactive s ≤ max_inactive s → 0 ≤ k → ncs s !! new = None → dir ∈ R → ncs s !! dir = Some d → vp d = Some dv →
  wp (nc_lookup char_signed tries new dir nm) (looked_up k R s dir dv nm) s.
Proof.
  intros Hi Hset Hk Hnew Hdir Hd Hv. unfold nc_lookup. change (nm, _, _) with (search_key nm).
  rewrite wp_bind, wp_nc_at. exists d. split; [done|]. rewrite wp_bind. eapply wp_mono; [apply (RB_FIND_ok nm s), (dir_keyed _ _ _ _ _ Hi Hd)|]. intros [p|] s1 [-> Hr].
  - destruct Hr as [Hp (n & Hn & Hs)]. destruct (ni_entries _ _ _ _ Hi _ _ _ Hd Hp) as (n' & Hn' & Hpar). assert (n' = n) as -> by congruence. destruct (ni_named _ _ _ _ Hi _ _ _ Hn Hpar) as (nm' & Hnm & Hkn).
    assert (agrees s → short nm → nm' = nm ∧ vp n = dirs dv nm) as Hag.
    { intros Ha Hsh. assert (nm' = nm) as -> by (symmetry; apply (same_key_name char_signed); [done|by eapply ag_short|congruence]). split; [done|]. by eapply ag_vp. }
    rewrite wp_bind, wp_nc_at. exists n. split; [done|]. destruct (vp n) as [v|] eqn:Hvn.
    + rewrite wp_bind. eapply wp_mono; [eapply nc_retain_ok; [done|done|done|exact Hn|eauto]|]. intros [] s' (Hi' & Ho & Hset'). rewrite wp_ret.
      destruct (ni_held _ _ _ _ Hi' p) as (n1 & Hn1 & _); [by left|]. destruct (ol_nodes _ _ Ho _ _ Hn1) as (n0 & Hn0 & E1 & E2 & E3 & _). assert (n0 = n) as -> by congruence.
      split; [done|]. split; [apply Ho|]. split; [apply Ho|]. split; [by apply older_roots|]. split; [eapply older_steady; [apply steady_refl|done]|]. split; [split; [done|]; exists n1; split; [done|congruence]|]. intros Ha _ Hsh. destruct (Hag Ha Hsh) as [-> Hdirs]. split; [by eapply older_agrees|]. exists n1, v. split_and!; congruence.
    + rewrite wp_ret. do 3 (split; [done|]). split; [by apply older_roots, older_refl|]. split; [apply steady_refl|]. split; [by apply inv_spend|]. intros Ha _ Hsh. split; [done|]. symmetry. by apply Hag.
  - eapply add_run; try done. assert (is_Some (vnodes s !! dv)) as Hdv by (pose proof (nc_inv_vp _ _ _ _ _ _ _ Hi Hd Hv) as Hrc; unfold rc in Hrc; destruct (vnodes s !! dv); [eauto|lia]).
    eapply wp_mono; [apply looked_vop; [apply Hi|done]|]. intros v vs' [[Hvs Hok] Hans]. by eapply added_ok.
Qed.
End lookup.
