(* ===== verification/VfsVnodes.v ===== *)
(** The name cache: removing the nodes of a file system (kernel/vfs/namecache.c). *)
From S2P Require Import Prelude Vfs VfsInv VfsNames.
Import Vfs.
Local Open Scope Z_scope.

Lemma next_of_mid p (pre rest : list Z) : p ∉ pre → next_of p (pre ++ p :: rest) = head rest.
Proof. induction pre as [|x pre IH]; simpl; [by rewrite Z.eqb_refl|]. rewrite not_elem_of_cons. intros [Hx Hp]. rewrite (proj2 (Z.eqb_neq x p)) by congruence. by apply IH. Qed.
Lemma remove_mid p (pre rest : list Z) : NoDup (pre ++ p :: rest) → filter (λ x, x ≠ p) (pre ++ p :: rest) = pre ++ rest.
Proof.
  intros Hnd. apply NoDup_app in Hnd as (_ & Hd & [Hr _]%NoDup_cons). rewrite filter_app, filter_cons, decide_False by (intros ?; done). rewrite !remove_absent; [done..|]. intros Hin. apply (Hd p Hin). by left.
Qed.

Section remove.
Context `{VnodeLaws} (char_signed : bool) (tries : nat).
Implicit Types (s : vst) (R : list Z).
Notation nc_inv := (nc_inv char_signed).

Lemma lru_size k R s : nc_inv k R s → (length (lru_queue s) ≤ size (ncs s))%nat.
Proof.
  intros Hi. rewrite <- size_dom. rewrite <- (size_list_to_set (C := gset Z)) by apply Hi. apply subseteq_size. intros p Hp%elem_of_list_to_set. apply (ni_lru _ _ _ _ Hi) in Hp as (n & Hn & _). by apply elem_of_dom_2 in Hn.
Qed.
Definition other fs s (l : list Z) : Prop := ∀ p n, p ∈ l → ncs s !! p = Some n → vfsp n ≠ fs.
(** What a pass leaves: nothing has changed and every node is of another file system, or
    some node is gone. *)
Definition passed fs k R s found b s' : Prop :=
  nc_inv k R s' ∧ older s s' ∧ inactive s' ≤ inactive s ∧
  (b = true ∧ (found = true ∨ (size (ncs s') < size (ncs s))%nat) ∨ b = false ∧ found = false ∧ other fs s' (lru_queue s')).
Lemma remove_pass_ok fs k R fuel : ∀ s cur found pre, nc_inv k R s → (size (ncs s) - length pre < fuel)%nat →
  (cur = None ∧ found = true ∨ ∃ rest, lru_queue s = pre ++ rest ∧ cur = head rest) → (found = false → other fs s pre) →
  wp (remove_pass tries fuel fs cur found) (passed fs k R s found) s.
Proof.
  induction fuel as [|fuel IH]; intros s cur found pre Hi Hf Hcur Hpre; [lia|]. destruct cur as [p|]; cbn [remove_pass].
  2:{ rewrite wp_ret. split_and!; [done|apply older_refl|done|]. destruct found; [by left; auto|right]. destruct Hcur as [[_ ?]|(rest & Hl & Hr)]; [done|]. destruct rest; [|done]. rewrite Hl, app_nil_r. auto. }
  destruct Hcur as [[? _]|(rest & Hl & Hr)]; [done|]. destruct rest as [|p' rest]; [done|]. injection Hr as <-. pose proof (ni_nodup _ _ _ _ Hi) as Hnd. rewrite Hl in Hnd.
  assert (p ∈ lru_queue s) as Hp by (rewrite Hl; apply elem_of_app; right; by left). pose proof (lru_size _ _ _ Hi) as Hsz. rewrite Hl, length_app in Hsz. simpl in Hsz.
  assert (p ∉ pre) as Hnp by (apply NoDup_app in Hnd as (_ & Hd & _); intros Hin; apply (Hd p Hin); by left).
  rewrite wp_bind, wp_get, Hl, next_of_mid by done. destruct (nc_inv_idle _ _ _ _ _ Hi Hp) as (n & _ & _ & _ & Hn & _). rewrite wp_bind, wp_nc_at. exists n. split; [done|]. destruct (Z.eqb_spec (vfsp n) fs) as [Hfs|Hfs].
  - rewrite wp_bind. eapply wp_mono; [eapply (trim_step char_signed tries k R s p (λ _ s1, wp (remove_pass tries fuel fs (head rest) true) (passed fs k R s found) s1)); [done|done|]|by intros [] s1; rewrite wp_bind].
    intros s1 Hi1 Ho1 Hs1 Hin1 (l & Hl1). rewrite Hl, remove_mid, <- app_assoc in Hl1 by done.
    eapply wp_mono; [eapply (IH s1 _ true pre); [done|lia| |done]|].
    + destruct rest as [|y rest]; [by left|right]. exists ((y :: rest) ++ l). done.
    + intros b s2 (Hi2 & Ho2 & Hin2 & Hb). split_and!; [done|by eapply older_trans|lia|]. left. destruct Hb as [[-> _]|(_ & ? & _)]; [|done]. split; [done|]. right. pose proof (ol_size _ _ Ho2). lia.
  - eapply (IH s _ found (pre ++ [p])); [done|rewrite length_app; simpl; lia| |].
    + right. exists rest. by rewrite <- app_assoc.
    + intros Hfalse x nx [Hx| ->%list_elem_of_singleton]%elem_of_app Hnx; [by eapply Hpre|congruence].
Qed.
Lemma remove_loop_ok fs k R fuel : ∀ s, nc_inv k R s → (size (ncs s) < fuel)%nat →
  wp (remove_loop tries fuel fs) (λ _ s', nc_inv k R s' ∧ older s s' ∧ inactive s' ≤ inactive s ∧ other fs s' (lru_queue s')) s.
Proof.
  induction fuel as [|fuel IH]; intros s Hi Hf; [lia|]. cbn [remove_loop]. rewrite wp_bind, wp_get, wp_bind.
  eapply wp_mono; [eapply (remove_pass_ok fs k R _ s _ false []); [done|simpl; lia|right; by exists (lru_queue s)|by intros _ p n ?%elem_of_nil]|].
  intros b s1 (Hi1 & Ho1 & Hin1 & [(-> & [?|Hlt])|(-> & _ & Hoth)]); [done| |rewrite wp_ret; done].
  eapply wp_mono; [apply IH; [done|lia]|]. intros [] s2 (Hi2 & Ho2 & Hin2 & Hoth). split_and!; [done|by eapply older_trans|lia|done].
Qed.
End remove.

(** Vnodes: walking the list of a file system's vnodes (kernel/vfs/vfs.c). *)
Import Vfs.

Lemma wp_vfs_at p Q s : wp (vfs_at p) Q s ↔ ∃ x, vfss s !! p = Some x ∧ Q x s.
Proof. unfold vfs_at. rewrite wp_bind, wp_get. apply wp_deref. Qed.
Lemma wp_vfs_set p x (Q : () → vst → Prop) s : wp (vfs_set p x) Q s ↔ Q () (set_vfss (<[p := x]> (vfss s)) s).
Proof. done. Qed.
Lemma wp_vn_set p x (Q : () → vst → Prop) s : wp (vn_set p x) Q s ↔ Q () (set_vnodes (<[p := x]> (vnodes s)) s).
Proof. done. Qed.

Section walk.
Context `{VnodeOps} (tries : nat).
Implicit Types (s : vst) (V : gmap Z vnode).

Definition inc (x : vnode) : vnode := with_refcount (refcount x + 1) x.
Definition counted (x : vnode) : Prop := 1 ≤ refcount x < 0xfffffff0.
Lemma vn_retain_ok v x s : vnodes s !! v = Some x → counted x → wp (vn_retain v) (λ _ s', s' = set_vnodes (<[v := inc x]> (vnodes s)) s) s.
Proof.
  intros Hx [H1 H2]. unfold vn_retain. rewrite wp_bind, wp_vn_at. exists x. split; [done|]. rewrite wp_bind, wp_vn_set, wp_bind, !wp_kassert. split; [|split].
  - by rewrite (proj2 (Z.eqb_neq (refcount x) 0)) by lia.
  - lia.
  - unfold inc. by rewrite u32_small by lia.
Qed.
Lemma vn_release_inc v x s fuel : vnodes s !! v = Some (inc x) → counted x → wp (vn_release (S fuel) v) (λ _ s', s' = set_vnodes (<[v := x]> (vnodes s)) s) s.
Proof.
  intros Hx [H1 H2]. cbn [vn_release]. rewrite wp_bind, wp_vn_at. exists (inc x). split; [done|]. simpl. rewrite (proj2 (Z.ltb_lt 1 (refcount x + 1))) by lia. rewrite wp_vn_set.
  f_equal. f_equal. unfold with_refcount. destruct x. simpl. f_equal. lia.
Qed.

(** Real vnodes, not markers. *)
Definition real V (v : Z) : bool := match V !! v with Some x => bool_decide (type x ≠ VITER_MARKER) | None => false end.
Lemma skip_ok marker pre post : ∀ v s fuel, NoDup (pre ++ v :: post ++ [marker]) → (length post < fuel)%nat → (∀ x, x ∈ post ++ [marker] → is_Some (vnodes s !! x)) →
  wp (skip_markers fuel marker (pre ++ v :: post ++ [marker]) v) (λ n s', s' = s ∧
    ((∀ x, x ∈ post → real (vnodes s) x = false) ∧ n = marker ∨ ∃ skipped post', post = skipped ++ n :: post' ∧ real (vnodes s) n = true ∧ ∀ x, x ∈ skipped → real (vnodes s) x = false)) s.
Proof.
  revert pre. induction post as [|y post IH]; intros pre v s fuel Hnd Hf Hin; (destruct fuel as [|fuel]; [simpl in Hf; lia|]); cbn [skip_markers];
    pose proof Hnd as (_ & Hd & _)%NoDup_app; assert (v ∉ pre) as Hv by (intros Hp; apply (Hd v Hp); by left); rewrite next_of_mid by done; rewrite wp_bind, wp_deref.
  - exists marker. split; [done|]. destruct (Hin marker) as [x Hx]; [by left|]. rewrite wp_bind, wp_vn_at. exists x. split; [done|]. rewrite Z.eqb_refl, andb_false_r, wp_ret. split; [done|]. left. split; [|done]. by intros z ?%elem_of_nil.
  - exists y. split; [done|]. destruct (Hin y) as [x Hx]; [by left|]. rewrite wp_bind, wp_vn_at. exists x. split; [done|].
    assert (y ≠ marker) as Hym. { change (pre ++ v :: (y :: post) ++ [marker]) with (pre ++ [v] ++ y :: (post ++ [marker])) in Hnd. rewrite app_assoc in Hnd. apply NoDup_app in Hnd as (_ & _ & [Hy _]%NoDup_cons). intros ->. apply Hy, elem_of_app. right. by left. }
    rewrite (proj2 (Z.eqb_neq y marker)), andb_true_r by done. case_bool_decide as Hty.
    + assert (pre ++ v :: (y :: post) ++ [marker] = (pre ++ [v]) ++ y :: post ++ [marker]) as Heq by (by rewrite <- app_assoc). rewrite Heq in *.
      eapply wp_mono; [apply IH; [done|simpl in Hf; lia|intros z Hz; apply Hin; by right]|]. intros n s' [-> Hr]. split; [done|].
      assert (real (vnodes s) y = false) as Hry by (unfold real; rewrite Hx; by apply bool_decide_eq_false; intros ?). destruct Hr as [[Hall ->]|(sk & post' & -> & Hn & Hall)].
      * left. split; [|done]. intros z [->|Hz]%elem_of_cons; auto.
      * right. exists (y :: sk), post'. split_and!; [done|done|]. intros z [->|Hz]%elem_of_cons; auto.
    + rewrite wp_ret. split; [done|]. right. exists [], post. split_and!; [done|unfold real; rewrite Hx; by apply bool_decide_eq_true|by intros z ?%elem_of_nil].
Qed.
Lemma real_insert V v x w : V !! v = Some x → real (<[v := inc x]> V) w = real V w.
Proof. intros Hx. unfold real. destruct (decide (w = v)) as [->|Hne]; [by rewrite lookup_insert_eq, Hx|by rewrite lookup_insert_ne]. Qed.
Lemma filter_false V (l : list Z) : (∀ x, x ∈ l → real V x = false) → filter (λ x, real V x = true) l = [].
Proof. induction l as [|x l IH]; [done|]. intros Hl. rewrite filter_cons, decide_False by (rewrite Hl by (by left); done). apply IH. intros y Hy. apply Hl. by right. Qed.
Definition good V (l : list Z) : Prop := ∀ v, v ∈ l → ∃ x, V !! v = Some x ∧ (type x ≠ VITER_MARKER → counted x).
Lemma fsync_loop_ok marker f fuel : ∀ s V pre v post x y, NoDup (pre ++ v :: post ++ [marker]) → (length post < fuel)%nat → vfss s !! f = Some y → vnode_list y = pre ++ v :: post ++ [marker] →
  V !! v = Some x → counted x → vnodes s = <[v := inc x]> V → good V (post ++ [marker]) → real V marker = false →
  wp (fsync_loop tries (S fuel) (Iter marker (Some v) f)) (λ r s', r = (v :: filter (λ w, real V w = true) post, Iter marker None f) ∧ s' = set_vnodes V s) s.
Proof.
  induction fuel as [|fuel IH]; intros s V pre v post x y Hnd Hf Hy Hl Hx Hc Hs Hg Hm; [lia|]. cbn [fsync_loop]. unfold vfs_vn_iter_next. simpl next_vn. cbv iota. rewrite wp_bind, wp_bind, wp_vfs_at. exists y. split; [done|].
  assert (∀ w, real (vnodes s) w = real V w) as Hreal by (intros w; rewrite Hs; by apply real_insert).
  rewrite Hl. simpl end_marker_vn. rewrite wp_bind. eapply wp_mono; [apply (skip_ok marker pre post v s); [done|rewrite length_app; simpl; rewrite length_app; lia|]|].
  { intros w Hw. destruct (Hg w Hw) as (xw & Hxw & _). rewrite Hs. destruct (decide (w = v)) as [->|Hne]; [rewrite lookup_insert_eq; eauto|rewrite lookup_insert_ne by done; eauto]. }
  intros n s' [-> Hn]. destruct Hn as [[Hall ->]|(sk & post' & -> & Hn & Hall)].
  - rewrite Z.eqb_refl, wp_ret. simpl. rewrite wp_bind. eapply wp_mono; [eapply (vn_release_inc v x); [rewrite Hs; by rewrite lookup_insert_eq|done]|].
    intros [] s' ->. cbn [fsync_loop]. unfold vfs_vn_iter_next. simpl next_vn. cbv iota. rewrite wp_bind, wp_bind, wp_ret. simpl. rewrite !wp_ret. split.
    + simpl. rewrite filter_false; [done|]. intros w Hw. rewrite <- Hreal. by apply Hall.
    + simpl. rewrite Hs, insert_insert_eq, insert_id by done. done.
  - rewrite Hreal in Hn. assert (n ≠ marker) as Hne by congruence. rewrite (proj2 (Z.eqb_neq n marker)) by done. destruct (Hg n) as (xn & Hxn & Hcn); [rewrite <- app_assoc; apply elem_of_app; right; by left|].
    assert (n ≠ v) as Hnv. { intros ->. apply NoDup_app in Hnd as (_ & _ & [Hv _]%NoDup_cons). apply Hv. rewrite <- app_assoc. apply elem_of_app. right. by left. }
    assert (counted xn) as Hcn' by (apply Hcn; unfold real in Hn; rewrite Hxn in Hn; by apply bool_decide_eq_true in Hn).
    rewrite wp_bind. eapply wp_mono; [eapply (vn_retain_ok n xn); [by rewrite Hs, lookup_insert_ne|done]|]. intros [] s1 ->. rewrite wp_ret. simpl. rewrite wp_bind.
    eapply wp_mono; [eapply (vn_release_inc v x); [simpl; rewrite Hs, lookup_insert_ne, lookup_insert_eq by done; done|done]|]. intros [] s2 ->. simpl. rewrite wp_bind.
    eapply wp_mono; [eapply (IH _ V (pre ++ v :: sk) n post' xn y)|].
    + rewrite <- app_assoc. simpl. by rewrite <- app_assoc in Hnd.
    + rewrite length_app in Hf. simpl in Hf. lia.
    + exact Hy.
    + rewrite Hl, <- !app_assoc. simpl. done.
    + done.
    + done.
    + simpl. rewrite Hs. rewrite (insert_insert_ne _ n v) by done. rewrite insert_insert_eq, (insert_insert_ne _ v n), (insert_id V v x) by done. done.
    + intros w Hw. apply Hg. rewrite <- app_assoc. apply elem_of_app. right. by right.
    + done.
    + intros r s3 [-> ->]. rewrite wp_ret. split; [|done]. simpl. rewrite filter_app, filter_cons, decide_True by done. by rewrite (filter_false V sk) by (intros w Hw; rewrite <- Hreal; by apply Hall).
Qed.
(** ** All vnodes *)

Lemma filter_real V V' (l : list Z) : (∀ w, w ∈ l → real V w = real V' w) → filter (λ w, real V w = true) l = filter (λ w, real V' w = true) l.
Proof.
  induction l as [|w l IH]; [done|]. intros Hl. rewrite !filter_cons, (Hl w) by (by left). rewrite IH by (intros z Hz; apply Hl; by right). done.
Qed.

Lemma fsync_all_ok marker junk f s y v post : vfss s !! f = Some y → vnode_list y = v :: post → vnodes s !! marker = None → NoDup (vnode_list y) → good (vnodes s) (vnode_list y) → real (vnodes s) v = true →
  wp (vfs_fsync_all tries marker junk f) (λ r s', r = filter (λ w, real (vnodes s) w = true) (vnode_list y) ∧ vfss s' = vfss s ∧ delete marker (vnodes s') = vnodes s) s.
Proof.
  intros Hy Hl Hm Hnd Hg Hv. set (mk := Vnode junk VITER_MARKER 0 None None). set (V := <[marker := mk]> (vnodes s)).
  assert (marker ∉ v :: post) as Hnm by (intros Hin; rewrite <- Hl in Hin; destruct (Hg _ Hin) as (? & ? & _); congruence).
  assert (∀ w, w ∈ v :: post → V !! w = vnodes s !! w) as Hsame by (intros w Hw; unfold V; rewrite lookup_insert_ne; [done|congruence]).
  assert (∀ w, w ∈ v :: post → real V w = real (vnodes s) w) as Hreal by (intros w Hw; unfold real; by rewrite Hsame).
  rewrite Hl in Hnd, Hg. unfold vfs_fsync_all, vfs_vn_iter_init. rewrite wp_bind, wp_bind, wp_vn_set, wp_bind, wp_vfs_at. exists y. split; [done|]. rewrite wp_bind, wp_vfs_set, Hl, wp_bind, wp_deref. exists v. split; [done|].
  destruct (Hg v) as (x & Hx & Hcx); [by left|]. assert (counted x) as Hc by (apply Hcx; unfold real in Hv; rewrite Hx in Hv; by apply bool_decide_eq_true in Hv).
  rewrite wp_bind. eapply wp_mono; [eapply (vn_retain_ok v x); [simpl; fold mk; fold V; rewrite Hsame by (by left); done|done]|]. intros [] s1 ->. rewrite wp_ret. rewrite wp_bind, wp_vfs_at. eexists. split; [simpl; by rewrite lookup_insert_eq|].
  simpl vnode_list. rewrite wp_bind. eapply wp_mono; [eapply (fsync_loop_ok marker f _ _ V [] v post x); [..|exact Hc|done| |]|].
  - simpl. rewrite app_comm_cons. apply NoDup_app. split_and!; [done| |repeat constructor; by intros ?%elem_of_nil]. intros w Hw ->%list_elem_of_singleton. done.
  - simpl. rewrite length_app. simpl. lia.
  - simpl. by rewrite lookup_insert_eq.
  - done.
  - rewrite Hsame by (by left). done.
  - intros w [Hw| ->%list_elem_of_singleton]%elem_of_app; [rewrite Hsame by (by right); apply Hg; by right|]. exists mk. split; [unfold V; by rewrite lookup_insert_eq|done].
  - unfold real, V. by rewrite lookup_insert_eq.
  - intros r s2 [-> ->]. simpl. unfold vfs_vn_iter_destroy. simpl. rewrite wp_bind, wp_bind, wp_vfs_at. eexists. split; [simpl; by rewrite lookup_insert_eq|]. rewrite wp_bind, wp_vfs_set, !wp_ret. simpl.
    assert (filter (λ w, real V w = true) post = filter (λ w, real (vnodes s) w = true) post) as Hfe. { apply filter_real. intros w Hw. apply Hreal. by right. }
    split_and!.
    + rewrite filter_cons, decide_True by done. by rewrite Hfe.
    + rewrite insert_insert_eq. apply insert_id. rewrite Hy. f_equal. rewrite app_comm_cons, filter_app, (remove_absent marker (v :: post)) by done. rewrite filter_cons, decide_False by (intros ?; done). simpl. rewrite app_nil_r. destruct y. simpl in *. by subst.
    + unfold V. by rewrite delete_insert_id.
Qed.
End walk.
