(* ===== verification/Lookup.v ===== *)
(** Path look-up: kernel/vfs/lookup.c, on top of the C library and the name cache.

    The state is memory and the name cache.  Memory for the copy of the path and for a new
    node comes from the caller. *)
From S2P Require Import Prelude Libkern Vfs.
Import Libkern Vfs.
Local Open Scope Z_scope.

Module Lookup.

Definition SLASH : Z := 47.
Definition DOT : Z := 46.
Record namepart := Part { np_name : Z; must_be_dir : bool }.

(** [str] is what [kmem_alloc] returns. *)
Definition strdup (fuel : nat) (str src : Z) : kern memory Z := n ← strlen fuel src; memcpy str src (Z.to_nat (n + 1)).

(** ** Components *)

(** [after] is the place of the component to insert after. *)
Definition part_insert (l : list namepart) (after : option nat) (np : namepart) : list namepart * option nat :=
  match after with
  | None => (l ++ [np], None)
  | Some i => (take (S i) l ++ np :: drop (S i) l, Some (S i))
  end.
Fixpoint split_loop (n fuel : nat) (delim : Z) (l : list namepart) (after : option nat) (r : option Z * Z) : kern memory (list namepart * option nat) :=
  match r.1 with
  | None => mret (l, after)
  | Some component =>
      match n with
      | O => spin
      | S n' =>
          let x := part_insert l after (Part component false) in
          r ← strtok_r fuel None delim r.2;
          split_loop n' fuel delim x.1 x.2 r
      end
  end.
(** [delim] is the string of a slash. *)
Definition split_path (fuel : nat) (delim : Z) (l : list namepart) (path : Z) (after : option nat) : kern memory (list namepart) :=
  r ← strtok_r fuel (Some path) delim 0;
  x ← split_loop fuel fuel delim l after r;
  let after := match x.2 with Some i => Some i | None => match x.1 with [] => None | _ => Some (pred (length x.1)) end end in
  len ← strlen fuel path;
  c ← load (path + len - 1);
  mret (match after with Some i => if c =? SLASH then alter (λ np, Part (np_name np) true) i x.1 else x.1 | None => x.1 end).

(** ** Looking a path up *)

Record lst := Lst { mem : memory; names : vst }.
Definition in_mem {A} (m : kern memory A) : kern lst A := zoom mem (λ x s, Lst x (names s)) m.
Definition in_names {A} (m : kern vst A) : kern lst A := zoom names (λ x s, Lst (mem s) x) m.

(** The bytes of a string, for comparisons and as a name. *)
Fixpoint load_bytes (n : nat) (a : Z) : kern memory (list Z) :=
  match n with O => mret [] | S n' => c ← load a; l ← load_bytes n' (a + 1); mret (c :: l) end.
Definition read_str (fuel : nat) (a : Z) : kern memory (list Z) := n ← strlen fuel a; load_bytes (Z.to_nat n) a.

Definition kLookup2ndLast : Z := 4.
Section lookup.
Context `{VnodeOps} (char_signed : bool) (tries : nat).
(** Where the memory for a new node is. *)
Context (kmem_alloc : gmap Z namecache → Z).
Context (fuel : nat) (delim : Z).

Definition node_at (h : nchandle) : kern vst namecache := p ← deref "nc" (nc h); nc_at p.
(** [nch.nc->vp->vfs] *)
Definition vfs_of (h : nchandle) : kern vst Z := n ← node_at h; v ← deref "vp" (vp n); x ← vn_at v; deref "vfs" (vvfs x).
Definition nchandle_retain_novfs (h : nchandle) : kern vst nchandle := p ← deref "nc" (nc h); nc_retain p;; mret h.
Definition nchandle_release_novfs (h : nchandle) : kern vst () := p ← deref "nc" (nc h); nc_release tries p.
(** Out of the roots of mounted file systems, for a name of two dots. *)
Fixpoint leave_mounts (n : nat) (h : nchandle) : kern vst nchandle :=
  match n with
  | O => spin
  | S n' =>
      f ← deref "vfs" (hvfs h);
      x ← vfs_at f;
      if bool_decide (nc h = root_ncp x) then
        let next := nchcovered x in
        g ← vfs_of next;
        ok ← vfs_try_retain g;
        if negb ok then fatal "Interrupted by unmount?"
        else
          nchandle_retain_novfs next;;
          nchandle_release_novfs h;;
          g ← vfs_of h;
          vfs_release g;;
          leave_mounts n' next
      else mret h
  end.
(** Into what is mounted on [next]; [h] is the directory it was found in. *)
Fixpoint enter_mounts (n : nat) (h next : nchandle) : kern vst nchandle :=
  match n with
  | O => spin
  | S n' =>
      x ← node_at next;
      if 0 <? n_mounts_over x then
        r ← vfs_find h;
        match r with
        | Some f =>
            ok ← vfs_try_retain f;
            if negb ok then enter_mounts n' h next
            else
              y ← vfs_at f;
              root ← deref "root_ncp" (root_ncp y);
              nc_retain root;;
              g ← vfs_of next;
              vfs_release g;;
              nchandle_release_novfs next;;
              enter_mounts n' h (Handle (Some root) (Some f))
        | None => mret next
        end
      else mret next
  end.
(** One component: whether it was found, and the node reached. *)
Definition lookup_step (h : nchandle) (nm : list Z) : kern vst (bool * nchandle) :=
  h ← (if bool_decide (nm = [DOT; DOT]) then leave_mounts fuel h else mret h);
  dir ← deref "nc" (nc h);
  s ← get;
  r ← nc_lookup char_signed tries (kmem_alloc (ncs s)) dir nm;
  match r with
  | inl _ => mret (false, h)
  | inr p =>
      next ← enter_mounts fuel h (Handle (Some p) (hvfs h));
      nchandle_release_novfs h;;
      mret (true, next)
  end.
(** The result says whether all components were found; the node is the last one reached. *)
Fixpoint lookup_loop (flags : Z) (l : list namepart) (h : nchandle) : kern lst (bool * nchandle) :=
  match l with
  | [] => mret (true, h)
  | np :: l' =>
      if bool_decide (l' = []) && negb (Z.land flags kLookup2ndLast =? 0) then mret (true, h)
      else
        nm ← in_mem (read_str fuel (np_name np));
        if bool_decide (nm = [DOT]) then lookup_loop flags l' h
        else
          r ← in_names (lookup_step h nm);
          if (r : bool * nchandle).1 then lookup_loop flags l' r.2 else mret r
  end.
(** [copy] is the memory for the copy of the path. *)
Definition vfs_lookup (copy : Z) (start : nchandle) (path flags : Z) : kern lst (option nchandle) :=
  pathcpy ← in_mem (strdup fuel copy path);
  l ← in_mem (split_path fuel delim [] pathcpy None);
  c ← in_mem (load path);
  s ← get;
  h ← in_names (nchandle_retain_novfs (if c =? SLASH then root_nch (names s) else start));
  f ← in_names (vfs_of h);
  ok ← in_names (vfs_try_retain f);
  kassert "r == 0" ok;;
  r ← lookup_loop flags l h;
  if (r : bool * nchandle).1 then mret (Some r.2)
  else
    f ← in_names (vfs_of r.2);
    in_names (vfs_release f);;
    in_names (nchandle_release_novfs r.2);;
    mret None.
End lookup.
End Lookup.
