(* ===== verification/LookupTheorems.v ===== *)
(** Path look-up: a path is split into its components (kernel/vfs/lookup.c). *)
From S2P Require Import Prelude Libkern LibkernProofs Vfs VfsInv VfsNames VfsLookup VfsVnodes Lookup.
Import Libkern Lookup.
Local Open Scope Z_scope.

(** ** Components *)

(** The runs of other characters between slashes. *)
Fixpoint words (cur s : list Z) : list (list Z) :=
  match s with
  | [] => if cur is [] then [] else [cur]
  | c :: s => if c =? SLASH then (if cur is [] then words [] s else cur :: words [] s) else words (cur ++ [c]) s
  end.
Definition components (s : list Z) : list (list Z) := words [] s.
Lemma words_slashes pre s : Forall (λ c, c = SLASH) pre → words [] (pre ++ s) = words [] s.
Proof. induction 1 as [|c pre -> Hp IH]; [done|]. simpl. done. Qed.
Lemma words_tok tok : ∀ cur rest, Forall (λ c, c ≠ SLASH) tok → (∀ c, head rest = Some c → c = SLASH) → cur ++ tok ≠ [] → words cur (tok ++ rest) = (cur ++ tok) :: words [] (tail rest).
Proof.
  induction tok as [|c tok IH]; intros cur rest Ht Hr Hne; simpl.
  - rewrite app_nil_r in *. destruct rest as [|c rest]; simpl; [by destruct cur|]. rewrite (Hr c eq_refl). simpl. by destruct cur.
  - apply Forall_cons in Ht as [Hc Ht]. rewrite (proj2 (Z.eqb_neq c SLASH)) by done. rewrite IH; [by rewrite <- app_assoc|done|done|]. by destruct cur.
Qed.
Lemma tok_split s : ∃ tok rest, s = tok ++ rest ∧ Forall (λ c, c ≠ SLASH) tok ∧ ∀ c, head rest = Some c → c = SLASH.
Proof.
  induction s as [|c s (tok & rest & -> & Ht & Hr)]; [by exists [], []|]. destruct (decide (c = SLASH)) as [->|Hc].
  - exists [], (SLASH :: tok ++ rest). split_and!; [done|done|]. by intros c [= <-].
  - exists (c :: tok), rest. split_and!; [done|by constructor|done].
Qed.
(** A path is nothing but slashes, or begins with a component after slashes. *)
Lemma path_cases s : Forall (λ c, c = SLASH) s ∨ ∃ pre tok rest, s = pre ++ tok ++ rest ∧ Forall (λ c, c = SLASH) pre ∧ tok ≠ [] ∧ Forall (λ c, c ≠ SLASH) tok ∧ ∀ c, head rest = Some c → c = SLASH.
Proof.
  induction s as [|c s IH]; [by left|]. destruct (decide (c = SLASH)) as [->|Hc].
  - destruct IH as [Hs|(pre & tok & rest & -> & Hp & ?)]; [left; by constructor|]. right. exists (SLASH :: pre), tok, rest. split; [done|]. split; [by constructor|done].
  - right. destruct (tok_split s) as (tok & rest & -> & Ht & Hr). exists [], (c :: tok), rest. split_and!; [done|done|done|by constructor|done].
Qed.
Lemma components_tok pre tok rest : Forall (λ c, c = SLASH) pre → tok ≠ [] → Forall (λ c, c ≠ SLASH) tok → (∀ c, head rest = Some c → c = SLASH) → components (pre ++ tok ++ rest) = tok :: components (tail rest).
Proof. intros Hp Hn Ht Hr. unfold components. rewrite words_slashes by done. by apply words_tok. Qed.
Lemma components_none s : Forall (λ c, c = SLASH) s → components s = [].
Proof. intros Hs. unfold components. rewrite <- (app_nil_r s). by rewrite words_slashes. Qed.
Lemma words_length s : ∀ cur y, y ∈ words cur s → (length y ≤ length cur + length s)%nat.
Proof.
  induction s as [|c s IH]; intros cur y; simpl.
  - destruct cur as [|d cur]; [by intros ?%elem_of_nil|]. intros ->%list_elem_of_singleton. simpl. lia.
  - destruct (c =? SLASH).
    + destruct cur as [|d cur]; [intros Hy%IH; simpl in *; lia|]. intros [->|Hy%IH]%elem_of_cons; simpl in *; lia.
    + intros Hy%IH. rewrite length_app in Hy. simpl in *. lia.
Qed.
Lemma components_length s y : y ∈ components s → (length y ≤ length s)%nat.
Proof. apply (words_length s []). Qed.

(** ** Tokens *)

Lemma strtok_none m a b s nextp fuel : cstr m a s → cstr m b [SLASH] → (length s < fuel)%nat → (1 < fuel)%nat → Forall (λ c, c = SLASH) s →
  strtok_r fuel (Some a) b nextp m = Ok ((None, nextp), m).
Proof.
  intros Hs Ht Hf Hf1 Hsl. unfold strtok_r. cbn [default]. rewrite (bind_run _ _ _ _ _ (strspn_run m a b s [SLASH] fuel fuel Hs Ht Hf1 Hf)).
  rewrite <- (app_nil_r s) at 1. rewrite (prefix_len_app _ s []); [|eapply Forall_impl; [exact Hsl|]; intros c ->; by apply bool_decide_eq_true, list_elem_of_singleton|by left].
  assert (m !! (a + Z.of_nat (length s)) = Some 0) as H0 by (apply cstr_nil, (cstr_app m a s []); by rewrite app_nil_r). by rewrite (bind_run _ _ _ _ _ (load_run m _ 0 H0)).
Qed.
Lemma cstr_frame m m' a s : (∀ x, a ≤ x ≤ a + Z.of_nat (length s) → m' !! x = m !! x) → cstr m a s → cstr m' a s.
Proof.
  intros Hx [Hb Hf]. split; [|done]. apply bytes_lookup. intros i b Hi. rewrite Hx; [by apply (proj1 (bytes_lookup _ _ _) Hb)|]. apply lookup_lt_Some in Hi. rewrite length_app in Hi. simpl in Hi. lia.
Qed.
Definition is_word (m : memory) (np : namepart) (w : list Z) : Prop := must_be_dir np = false ∧ cstr m (np_name np) w.
Section split.
Context (b : Z) (fuel : nat).
(** The tokens of the string [s] at [a]; the first of them now ends the string at [a]. *)
Lemma split_loop_run k : ∀ s a m l nextp n, (length s ≤ k)%nat → (length s < n)%nat → (length s < fuel)%nat → (1 < fuel)%nat → cstr m a s → cstr m b [SLASH] → b + 1 < a ∨ a + Z.of_nat (length s) < b →
  ∃ r m1 parts m', strtok_r fuel (Some a) b nextp m = Ok (r, m1) ∧ split_loop n fuel b l None r m1 = Ok ((l ++ parts, None), m') ∧ Forall2 (is_word m') parts (components s) ∧
    (∀ x, x < a ∨ a + Z.of_nat (length s) ≤ x → m' !! x = m !! x) ∧ (components s ≠ [] → ∃ w c, cstr m' a (w ++ [c]) ∧ c ≠ SLASH ∧ (length w < length s)%nat) ∧ (components s = [] → m' = m).
Proof.
  induction k as [|k IH]; intros s a m l nextp n Hk Hn Hf Hf1 Hs Hb Hab; (destruct (path_cases s) as [Hsl|(pre & tok & rest & -> & Hpre & Htok & Ht & Hr)];
    [exists (None, nextp), m, [], m; rewrite (components_none s), app_nil_r by done; split_and!; [by apply (strtok_none m a b s)|by destruct n|constructor|done|done|done]|]).
  { rewrite !length_app in Hk. destruct tok; [done|simpl in Hk; lia]. }
  rewrite components_tok by done.
  destruct (strtok_run m a b pre tok rest [SLASH] nextp fuel Hs Hb) as (next & m1 & Hrun & Htk & Hnx & Hb1 & Hnext & Hfr1); [simpl; lia|done|done|eapply Forall_impl; [exact Hpre|]; intros c ->; by left|done|
    eapply Forall_impl; [exact Ht|]; intros c Hc; by rewrite list_elem_of_singleton|intros c Hc; rewrite (Hr c Hc); by left|].
  set (p := a + Z.of_nat (length pre)) in *. destruct n as [|n]; [lia|]. assert (0 < length tok)%nat as Hlt by (destruct tok; [done|simpl; lia]). rewrite !length_app in *.
  assert (length (tail rest) ≤ length rest ∧ (rest = [] ∨ length rest = S (length (tail rest))))%nat as [Htl Hrl] by (destruct rest; simpl; [split; [lia|by left]|split; [lia|by right]]).
  destruct (IH (tail rest) next m1 (l ++ [Part p false]) next n) as (r & m2 & parts & m' & Hr2 & Hsp & Hw & Hfr & _ & _); [lia|lia|lia|done|done|done|lia|].
  assert (∀ x, x ≤ a + Z.of_nat (length pre + length tok) → m' !! x = m1 !! x) as Hkeep.
  { intros x Hx. apply Hfr. destruct Hrl as [->|Hrl]; simpl in *; lia. }
  exists (Some p, next), m1, (Part p false :: parts), m'. split_and!.
  - done.
  - cbn [split_loop fst snd part_insert]. change (strtok_r fuel None b next) with (strtok_r fuel (Some next) b next). rewrite (bind_run _ _ _ _ _ Hr2), Hsp. by rewrite <- app_assoc.
  - constructor; [|done]. split; [done|]. eapply cstr_frame; [|exact Htk]. intros x Hx. apply Hkeep. simpl in Hx. unfold p in Hx. lia.
  - intros x Hx. rewrite Hfr by lia. apply Hfr1. destruct Hrl as [->|Hrl]; [by right|left; lia].
  - intros _. destruct tok as [|c0 tok0 _] using rev_ind; [done|]. apply Forall_app in Ht as [_ [Hc _]%Forall_cons]. exists (pre ++ tok0), c0. rewrite !length_app in *. split_and!; [|done|simpl; lia].
    rewrite <- app_assoc. eapply (cstr_frame m1); [intros x Hx; apply Hkeep; rewrite !length_app in *; simpl in *; lia|].
    destruct Htk as [Hbt Hft], Hs as [Hbs Hfs]. split; [|apply Forall_app in Hfs as [? _]; by apply Forall_app]. rewrite <- app_assoc. apply bytes_app. split; [|done].
    rewrite <- app_assoc in Hbs. apply bytes_app in Hbs as [Hbs _]. apply bytes_lookup. intros i c Hi. rewrite Hfr1; [by apply (proj1 (bytes_lookup _ _ _) Hbs)|]. left. apply lookup_lt_Some in Hi. simpl. lia.
  - done.
Qed.
Lemma split_path_run s a m : s ≠ [] → (length s < fuel)%nat → (1 < fuel)%nat → cstr m a s → cstr m b [SLASH] → b + 1 < a ∨ a + Z.of_nat (length s) < b →
  ∃ parts m', split_path fuel b [] a None m = Ok (parts, m') ∧ Forall2 (is_word m') parts (components s) ∧ ∀ x, x < a ∨ a + Z.of_nat (length s) ≤ x → m' !! x = m !! x.
Proof.
  intros Hne Hf Hf1 Hs Hb Hab. destruct (split_loop_run (length s) s a m [] 0 fuel) as (r & m1 & parts & m' & Hr & Hl & Hw & Hfr & Hsome & Hnone); [done..|].
  exists parts, m'. split_and!; [|done|done]. unfold split_path. rewrite (bind_run _ _ _ _ _ Hr), (bind_run _ _ _ _ _ Hl). simpl app. cbv iota beta.
  assert (∃ w c, cstr m' a (w ++ [c]) ∧ (parts = [] ∨ c ≠ SLASH) ∧ (length w < length s)%nat) as (w & c & Hc & Hor & Hlw).
  { destruct (components s) as [|y ys] eqn:E; [|destruct Hsome as (w & c & ? & ? & ?); [done|eauto 7]]. rewrite Hnone by done. destruct s as [|c w _] using rev_ind; [done|].
    exists w, c. split_and!; [done|left; by inversion Hw|rewrite length_app; simpl; lia]. }
  rewrite (bind_run _ _ _ _ _ (strlen_run m' a (w ++ [c]) fuel Hc ltac:(rewrite length_app; simpl; lia))). rewrite length_app. cbn [length].
  assert (m' !! (a + Z.of_nat (length w + 1) - 1) = Some c) as Hlc.
  { destruct Hc as [Hc _]. rewrite <- app_assoc in Hc. apply bytes_app in Hc as [_ [Hc _]]. rewrite <- Hc. f_equal. lia. }
  rewrite (bind_run _ _ _ _ _ (load_run m' _ c Hlc)). unfold mret, kern_ret. do 2 f_equal. destruct Hor as [->|Hcs]; [done|]. rewrite (proj2 (Z.eqb_neq c SLASH)) by done. by destruct parts.
Qed.
End split.

(** Path look-up: a path leads where the file system says (kernel/vfs/lookup.c). *)
Import Libkern Vfs Lookup.

Section paths.
Context `{VnodeLaws} (char_signed : bool) (tries : nat) (kmem_alloc : gmap Z namecache → Z) (fuel : nat) (delim : Z) (dirs : Z → list Z → option Z).
Hypotheses (Halloc : ∀ m, m !! kmem_alloc m = None) (Hans : answers dirs) (Hfuel : (1 < fuel)%nat).
Implicit Types (s : vst) (R : list Z).
Notation nc_inv := (nc_inv char_signed).

(** Where a list of components leads from the vnode [v]. *)
Fixpoint walk (v : Z) (l : list (list Z)) : option Z :=
  match l with
  | [] => Some v
  | nm :: l => if decide (nm = [DOT]) then walk v l else v' ← dirs v nm; walk v' l
  end.

(** The cache is in order, and [p] is a node of the file system [f], in use, with the
    vnode [v]. *)
Record at_node (k : Z) R f p v s : Prop := {
  an_inv : nc_inv k (p :: R) s;
  an_settled : inactive s ≤ max_inactive s;
  an_agrees : agrees dirs s;
  an_roots x n : ncs s !! x = Some n → parent n = None → x ∈ R;
  an_node : ∃ n, ncs s !! p = Some n ∧ vp n = Some v ∧ vfsp n = f;
  an_vfs : ∃ x, vfss s !! f = Some x ∧ root_ncp x = None
}.
Lemma vfs_of_ok k R f p v s (Q : Z → vst → Prop) : at_node k R f p v s → Q f s → wp (vfs_of (Handle (Some p) (Some f))) Q s.
Proof.
  intros [Hi _ _ _ (n & Hn & Hv & Hf) _] HQ. unfold vfs_of, node_at. rewrite wp_bind, wp_bind, wp_deref. exists p. split; [done|]. rewrite wp_nc_at. exists n. split; [done|].
  rewrite wp_bind, wp_deref. exists v. split; [done|]. rewrite wp_bind, wp_vn_at. pose proof (nc_inv_vp _ _ _ _ _ _ _ Hi Hn Hv) as Hr. destruct (vnodes s !! v) as [x|] eqn:Hx; [|unfold rc in Hr; rewrite Hx in Hr; lia].
  exists x. split; [done|]. rewrite wp_deref. exists f. split; [|done]. rewrite (ni_fs _ _ _ _ Hi _ _ _ _ Hn Hv Hx). congruence.
Qed.
Lemma lookup_step_ok k R f p v s nm : at_node (k + 1) R f p v s → 0 ≤ k → short nm →
  wp (lookup_step char_signed tries kmem_alloc fuel (Handle (Some p) (Some f)) nm) (λ r s', vfss s' = vfss s ∧
    match dirs v nm with
    | Some v' => r.1 = true ∧ ∃ p', r.2 = Handle (Some p') (Some f) ∧ at_node k R f p' v' s'
    | None => r = (false, Handle (Some p) (Some f)) ∧ at_node k R f p v s'
    end) s.
Proof.
  intros [Hi Hset Ha Hroots (n & Hn & Hv & Hf) (x & Hx & Hr)] Hk Hs. unfold lookup_step. rewrite wp_bind.
  assert (wp (if bool_decide (nm = [DOT; DOT]) then leave_mounts tries fuel (Handle (Some p) (Some f)) else mret (Handle (Some p) (Some f))) (λ h s', h = Handle (Some p) (Some f) ∧ s' = s) s) as Hleave.
  { case_bool_decide; [|by rewrite wp_ret]. destruct fuel as [|fl]; [lia|]. cbn [leave_mounts]. rewrite wp_bind, wp_deref. exists f. split; [done|]. rewrite wp_bind, wp_vfs_at. exists x. split; [done|].
    rewrite bool_decide_false by (simpl; rewrite Hr; done). by rewrite wp_ret. }
  eapply wp_mono; [exact Hleave|]. intros h s1 [-> ->]. rewrite wp_bind, wp_deref. exists p. split; [done|]. rewrite wp_bind, wp_get, wp_bind.
  eapply wp_mono; [eapply (nc_lookup_ok char_signed tries dirs k (p :: R) s _ p n v nm); [done|done|done|apply Halloc|by left|done|done]|].
  intros r s1 (Hset1 & Hv1 & _ & Hro1 & Hst1 & Hr1 & Hag). destruct (Hag Ha Hans Hs) as [Ha1 Hres].
  assert (∀ y m, ncs s1 !! y = Some m → parent m = None → y ∈ R) as Hroots1 by (intros y m Hy Hp; destruct (Hro1 _ _ Hy Hp) as (m0 & Hm0 & Hp0); by eapply Hroots).
  destruct r as [e|p'].
  - rewrite Hres, wp_ret. split; [done|]. split; [done|]. destruct (ni_held _ _ _ _ Hr1 p) as (n1 & Hn1 & _); [by left|]. destruct (Hst1 _ _ _ Hn Hn1) as [E1 E2].
    split; [done..| |rewrite Hv1; eauto]. exists n1. split_and!; congruence.
  - destruct Hr1 as [Hi1 (n' & Hn' & Hp')], Hres as (n'' & v' & Hn'' & _ & Hv' & ->). assert (n'' = n') as -> by congruence.
    assert (vfsp n' = f) as Hf'. { destruct (ni_held _ _ _ _ Hi1 p) as (n1 & Hn1 & _); [right; by left|]. destruct (Hst1 _ _ _ Hn Hn1) as [_ E2]. rewrite (ni_family _ _ _ _ Hi1 _ _ _ _ Hn' Hp' Hn1). congruence. }
    rewrite wp_bind. assert (wp (enter_mounts tries fuel (Handle (Some p) (Some f)) (Handle (Some p') (Some f))) (λ h s', h = Handle (Some p') (Some f) ∧ s' = s1) s1) as Henter.
    { destruct fuel as [|fl]; [lia|]. cbn [enter_mounts]. unfold node_at. rewrite wp_bind, wp_bind, wp_deref. exists p'. split; [done|]. rewrite wp_nc_at. exists n'. split; [done|]. by rewrite (ni_mounts _ _ _ _ Hi1 _ _ Hn'). }
    eapply wp_mono; [exact Henter|]. intros h s2 [-> ->]. unfold nchandle_release_novfs. rewrite wp_bind, wp_bind, wp_deref. exists p. split; [done|].
    eapply wp_mono; [eapply (nc_release_ok char_signed tries k (p' :: R) s1 p); [eapply nc_inv_perm; [apply perm_swap|exact Hi1]|done|intros m Hm Hpm; right; by eapply Hroots1]|].
    intros [] s2 (Hi2 & Ho2 & Hset2). rewrite wp_ret. split; [rewrite (ol_vfss _ _ Ho2); done|]. split; [done|]. exists p'. split; [done|].
    destruct (ni_held _ _ _ _ Hi2 p') as (n2 & Hn2 & _); [by left|]. destruct (ol_nodes _ _ Ho2 _ _ Hn2) as (n0 & Hn0 & _ & _ & E1 & E2). assert (n0 = n') as -> by congruence.
    split; [done|done|by eapply older_agrees| |exists n2; split_and!; congruence|rewrite (ol_vfss _ _ Ho2), Hv1; eauto].
    intros y m Hy Hpy. destruct (older_roots _ _ Ho2 _ _ Hy Hpy) as (m0 & Hm0 & Hpm). by eapply Hroots1.
Qed.

(** ** All components *)

Lemma load_bytes_run w : ∀ a m, bytes m a w → load_bytes (length w) a m = Ok (w, m).
Proof.
  induction w as [|c w IH]; intros a m Hw; [done|]. destruct Hw as [Hc Hw]. cbn [load_bytes length]. by rewrite (bind_run _ _ _ _ _ (load_run m a c Hc)), (bind_run _ _ _ _ _ (IH _ _ Hw)).
Qed.
Lemma read_str_run w a m : cstr m a w → (length w < fuel)%nat → read_str fuel a m = Ok (w, m).
Proof.
  intros Hw Hf. unfold read_str. rewrite (bind_run _ _ _ _ _ (strlen_run m a w fuel Hw Hf)), Nat2Z.id. apply load_bytes_run. destruct Hw as [Hw _]. by apply bytes_app in Hw as [? _].
Qed.
(** The components that are looked up. *)
Fixpoint wanted (flags : Z) (l : list (list Z)) : list (list Z) :=
  match l with
  | [] => []
  | w :: l' => if bool_decide (l' = []) && negb (Z.land flags kLookup2ndLast =? 0) then [] else w :: wanted flags l'
  end.
Lemma at_node_spend k k' R f p v s : at_node k R f p v s → 0 ≤ k' ≤ k → at_node k' R f p v s.
Proof. intros [[] ? ? ? ? ?] Hk. split; try done. split; try done; [lia|]. intros x. specialize (ni_bound x). lia. Qed.
Lemma wp_in_mem {A} (m : kern memory A) a (Q : A → lst → Prop) st : m (mem st) = Ok (a, mem st) → Q a st → wp (in_mem m) Q st.
Proof. intros Hm HQ. unfold in_mem. rewrite wp_zoom. unfold wp. rewrite Hm. by destruct st. Qed.
Definition reached k R f (o : option Z) (r : bool * nchandle) s : Prop :=
  match o with
  | Some v' => r.1 = true ∧ ∃ p', r.2 = Handle (Some p') (Some f) ∧ at_node k R f p' v' s
  | None => r.1 = false ∧ ∃ p' v', r.2 = Handle (Some p') (Some f) ∧ at_node k R f p' v' s
  end.
Lemma lookup_loop_ok flags R f k parts : 0 ≤ k → ∀ ws p v st, Forall2 (is_word (mem st)) parts ws → Forall (λ w, short w ∧ (length w < fuel)%nat) ws → at_node (k + Z.of_nat (length parts)) R f p v (names st) →
  wp (lookup_loop char_signed tries kmem_alloc fuel flags parts (Handle (Some p) (Some f))) (λ r st', mem st' = mem st ∧ vfss (names st') = vfss (names st) ∧ reached k R f (walk v (wanted flags ws)) r (names st')) st.
Proof.
  intros Hk. induction parts as [|np parts IH]; intros ws p v st Hw Hs Hat; cbn [lookup_loop].
  { inversion Hw; subst. rewrite wp_ret. split; [done|]. split; [done|]. split; [done|]. exists p. split; [done|]. eapply at_node_spend; [done|simpl; lia]. }
  inversion Hw as [|? w ? ws' [_ Hnp] Hw']; subst. apply Forall_cons in Hs as [[Hsh Hlen] Hs]. cbn [wanted]. assert (bool_decide (parts = []) = bool_decide (ws' = [])) as -> by (apply bool_decide_ext; inversion Hw'; done).
  destruct (bool_decide (ws' = []) && _) eqn:Hlast.
  { rewrite wp_ret. split; [done|]. split; [done|]. split; [done|]. exists p. split; [done|]. eapply at_node_spend; [done|simpl; lia]. }
  rewrite wp_bind. eapply wp_in_mem; [by apply read_str_run|]. cbn [walk]. replace (k + Z.of_nat (length (np :: parts))) with ((k + Z.of_nat (length parts)) + 1) in Hat by (simpl; lia).
  destruct (decide (w = [DOT])) as [Hdot|Hdot]; [rewrite bool_decide_true by done; apply IH; [done|done|eapply at_node_spend; [done|lia]]|]. rewrite bool_decide_false by done.
  unfold in_names. rewrite wp_bind, wp_zoom. eapply wp_mono; [eapply lookup_step_ok; [exact Hat|lia|done]|]. intros r s1 [Hv1 Hr]. destruct (dirs v w) as [v'|]; simpl.
  - destruct Hr as (-> & p' & -> & Hat1). eapply wp_mono; [by apply (IH ws' p' v' (Lst (mem st) s1))|]. intros r2 st2 (Hm2 & Hv2 & Hr2). simpl in Hm2, Hv2. rewrite Hm2, Hv2, Hv1. done.
  - destruct Hr as (-> & Hat1). simpl. rewrite wp_ret. split; [done|]. split; [done|]. split; [done|]. exists p, v. split; [done|]. eapply at_node_spend; [done|lia].
Qed.

(** ** Paths *)

Definition off (a n b m : Z) : Prop := a + n ≤ b ∨ b + m ≤ a.
(** The path [w] and the string of a slash are in memory, and there is room for a copy. *)
Record path_mem (m : memory) (path copy : Z) (w : list Z) : Prop := {
  pm_path : cstr m path w;
  pm_slash : cstr m delim [SLASH];
  pm_room : mapped m copy (S (length w));
  pm_off : off copy (Z.of_nat (S (length w))) path (Z.of_nat (S (length w)));
  pm_off' : off copy (Z.of_nat (S (length w))) delim 2
}.
Lemma split_copy m path copy w : path_mem m path copy w → w ≠ [] → (length w < fuel)%nat →
  ∃ parts m' c, head w = Some c ∧ strdup fuel copy path m = Ok (copy, write m copy (w ++ [0])) ∧ split_path fuel delim [] copy None (write m copy (w ++ [0])) = Ok (parts, m') ∧
    Forall2 (is_word m') parts (components w) ∧ load path m' = Ok (c, m').
Proof.
  intros [Hp Hd Hr Ho Ho'] Hne Hf. unfold off in *. destruct w as [|c w0] eqn:Ew; [done|]. rewrite <- Ew in *. set (m1 := write m copy (w ++ [0])).
  assert (∀ x, x < copy ∨ copy + Z.of_nat (S (length w)) ≤ x → m1 !! x = m !! x) as Hm1 by (intros x Hx; unfold m1; rewrite write_lookup, decide_False by (rewrite length_app; simpl; lia); done).
  destruct (split_path_run delim fuel w copy m1) as (parts & m' & Hsp & Hw & Hfr).
  { by rewrite Ew. } { done. } { done. }
  { split; [apply write_bytes|apply Hp]. }
  { eapply cstr_frame; [|exact Hd]. intros x Hx. apply Hm1. simpl in Hx. lia. }
  { lia. }
  exists parts, m', c. split_and!; [by rewrite Ew| |done|done|].
  - unfold strdup. rewrite (bind_run _ _ _ _ _ (strlen_run m path w fuel Hp Hf)). replace (Z.to_nat (Z.of_nat (length w) + 1)) with (length (w ++ [0])) by (rewrite length_app; simpl; lia).
    apply memcpy_run; [apply Hp| |by rewrite length_app, Nat.add_1_r|rewrite length_app; simpl; lia]. apply Forall_app. split; [|repeat constructor; lia]. eapply Forall_impl; [apply Hp|]. unfold byte. intros; simpl in *; lia.
  - apply load_run. rewrite Hfr by lia. rewrite Hm1 by lia. destruct Hp as [Hp _]. rewrite Ew in Hp. by destruct Hp.
Qed.
Lemma nc_inv_vfss k R s x : nc_inv k R s → nc_inv k R (set_vfss x s).
Proof. intros []. by split. Qed.
Lemma agrees_vfss s x : agrees dirs s → agrees dirs (set_vfss x s).
Proof. intros []. by split. Qed.
(** What a look-up promises: on success a new reference to a node with the vnode the path
    leads to, and one to its file system; on failure none. *)
Definition path_result k R f x (o : option Z) st (r : option nchandle) st' : Prop :=
  agrees dirs (names st') ∧ inactive (names st') ≤ max_inactive (names st') ∧
  match o with
  | Some v' => ∃ p' n, r = Some (Handle (Some p') (Some f)) ∧ nc_inv k (p' :: R) (names st') ∧ ncs (names st') !! p' = Some n ∧ vp n = Some v' ∧
      vfss (names st') = <[f := with_file_refcnt (file_refcnt x + 2) x]> (vfss (names st))
  | None => r = None ∧ nc_inv k R (names st') ∧ vfss (names st') = vfss (names st)
  end.
Lemma vfs_lookup_ok k R st path copy w start flags p f n v x : path_mem (mem st) path copy w → w ≠ [] → (length w < fuel)%nat → Forall short (components w) →
  nc_inv (k + 1 + Z.of_nat (length (components w))) R (names st) → 0 ≤ k → inactive (names st) ≤ max_inactive (names st) → agrees dirs (names st) →
  (if decide (head w = Some SLASH) then root_nch (names st) else start) = Handle (Some p) (Some f) → p ∈ R → ncs (names st) !! p = Some n → vp n = Some v → vfsp n = f →
  vfss (names st) !! f = Some x → root_ncp x = None → Z.even (file_refcnt x) = true → 0 ≤ file_refcnt x < 2 ^ 32 - 2 →
  wp (vfs_lookup char_signed tries kmem_alloc fuel delim copy start path flags) (path_result k R f x (walk v (wanted flags (components w))) st) st.
Proof.
  intros Hpm Hne Hf Hsh Hi Hk Hset Ha Hfrom HpR Hn Hv Hfs Hx Hroot Heven Hrc. destruct (split_copy _ _ _ _ Hpm Hne Hf) as (parts & m' & c & Hc & Hdup & Hsp & Hw & Hld).
  unfold vfs_lookup, in_mem. rewrite wp_bind, wp_zoom. unfold wp at 1. rewrite Hdup. rewrite wp_bind, wp_zoom. unfold wp at 1. simpl mem. rewrite Hsp. rewrite wp_bind, wp_zoom. unfold wp at 1. simpl mem. rewrite Hld.
  rewrite wp_bind, wp_get. simpl names. assert ((if c =? SLASH then root_nch (names st) else start) = Handle (Some p) (Some f)) as ->.
  { rewrite <- Hfrom, Hc. destruct (Z.eqb_spec c SLASH) as [->|Hcs]; [by rewrite decide_True|rewrite decide_False; congruence]. }
  unfold in_names, nchandle_retain_novfs. rewrite wp_bind, wp_zoom. simpl names. rewrite wp_bind, wp_deref. exists p. split; [done|]. rewrite wp_bind.
  replace (k + 1 + Z.of_nat (length (components w))) with (k + Z.of_nat (length (components w)) + 1) in Hi by lia.
  eapply wp_mono; [eapply (nc_retain_ok char_signed _ R (names st) p n Hi Hset); [lia|done|eauto]|]. intros [] s1 (Hi1 & Ho1 & Hset1). rewrite wp_ret. simpl mem.
  assert (at_node (k + Z.of_nat (length (components w))) R f p v s1) as Hat.
  { split; [done|done|by eapply older_agrees| | |rewrite (ol_vfss _ _ Ho1); eauto].
    - intros y m Hy Hp. destruct (older_roots _ _ Ho1 _ _ Hy Hp) as (m0 & Hm0 & Hp0). by eapply (ni_root _ _ _ _ Hi).
    - destruct (ni_held _ _ _ _ Hi1 p) as (n1 & Hn1 & _); [by left|]. destruct (ol_nodes _ _ Ho1 _ _ Hn1) as (n0 & Hn0 & _ & _ & E1 & E2). exists n1. split_and!; congruence. }
  rewrite wp_bind, wp_zoom. simpl names. eapply vfs_of_ok; [exact Hat|]. simpl mem.
  rewrite wp_bind, wp_zoom. simpl names. unfold vfs_try_retain. rewrite wp_bind, wp_vfs_at. exists x. split; [by rewrite (ol_vfss _ _ Ho1)|]. rewrite <- Z.negb_even, Heven. simpl negb.
  rewrite (proj2 (Z.eqb_neq (file_refcnt x) 1)) by (intros E; rewrite E in Heven; done). rewrite wp_bind, wp_vfs_set, wp_ret, u32_small by lia. simpl mem. rewrite wp_bind, wp_kassert. split; [done|].
  set (x2 := with_file_refcnt (file_refcnt x + 2) x). set (s2 := set_vfss (<[f := x2]> (vfss s1)) s1). rewrite wp_bind.
  assert (at_node (k + Z.of_nat (length parts)) R f p v s2) as Hat2.
  { rewrite (Forall2_length _ _ _ Hw). destruct Hat as [A1 A2 A3 A4 A5 A6]. split; [by apply nc_inv_vfss|done|by apply agrees_vfss|done|done|]. exists x2. split; [unfold s2; simpl; by rewrite lookup_insert_eq|done]. }
  eapply wp_mono; [eapply (lookup_loop_ok flags R f k parts Hk (components w) p v (Lst m' s2)); [done| |done]|].
  { apply Forall_forall. intros y Hy. split; [by apply (proj1 (Forall_forall _ _) Hsh)|]. pose proof (components_length w y Hy). lia. }
  intros r st3 (_ & Hv3 & Hr). unfold s2 in Hv3. simpl in Hv3. rewrite (ol_vfss _ _ Ho1) in Hv3. destruct (walk v _) as [v'|]; destruct Hr as [-> Hr].
  - destruct Hr as (p' & -> & [A1 A2 A3 A4 (n' & Hn' & Hvn' & _) A6]). simpl. rewrite wp_ret. split; [done|]. split; [done|]. exists p', n'. rewrite Hv3. done.
  - destruct Hr as (p' & v' & -> & Hat3). simpl. rewrite wp_bind, wp_zoom. eapply vfs_of_ok; [exact Hat3|]. unfold vfs_release. rewrite wp_bind, wp_zoom. simpl names. rewrite wp_bind, wp_vfs_at. exists x2. split; [rewrite Hv3; by rewrite lookup_insert_eq|].
    rewrite wp_vfs_set. unfold nchandle_release_novfs. simpl mem. rewrite wp_bind, wp_zoom. simpl names. rewrite wp_bind, wp_deref. exists p'. split; [done|]. destruct Hat3 as [A1 A2 A3 A4 A5 A6].
    eapply wp_mono; [eapply (nc_release_ok char_signed tries k R); [by apply nc_inv_vfss|done|simpl; intros m Hm Hp; by eapply A4]|]. intros [] s4 (Hi4 & Ho4 & Hset4). rewrite wp_ret. simpl names.
    split; [simpl; eapply older_agrees; [exact Ho4|by apply agrees_vfss]|]. split; [done|]. split; [done|]. split; [done|]. simpl. rewrite (ol_vfss _ _ Ho4). simpl. rewrite Hv3, insert_insert_eq. apply insert_id. rewrite Hx. f_equal.
    unfold x2, with_file_refcnt. simpl. rewrite u32_small by lia. destruct x. simpl in *. f_equal. lia.
Qed.
End paths.
