(* ===== verification/VfsTheorems.v ===== *)
(** Names and paths: what clients may rely on (kernel/vfs/namecache.c, lookup.c, vfs.c), and
    where the code falls short. *)
From S2P Require Import Prelude Libkern LibkernProofs Vfs VfsInv VfsNames VfsLookup VfsVnodes Lookup LookupTheorems.
Import Libkern Vfs Lookup.
Local Open Scope Z_scope.

Section theorems.
Context `{VnodeLaws} (char_signed : bool) (tries : nat) (kmem_alloc : gmap Z namecache → Z).
Implicit Types (s : vst).

(** ** Requests *)

(** Look a name up in the [j]th node held, take another reference to it, or drop it. *)
Inductive nc_request := Look (j : nat) (nm : list Z) | Keep (j : nat) | Drop (j : nat).
Fixpoint serve_names (rs : list nc_request) (held : list Z) : kern vst (list Z) :=
  match rs with
  | [] => mret held
  | Look j nm :: rs =>
      match held !! j with
      | Some dir =>
          s ← get;
          r ← nc_lookup char_signed tries (kmem_alloc (ncs s)) dir nm;
          serve_names rs (match r with inr p => p :: held | inl _ => held end)
      | None => serve_names rs held
      end
  | Keep j :: rs => match held !! j with Some p => nc_retain p;; serve_names rs (p :: held) | None => serve_names rs held end
  | Drop j :: rs => match held !! j with Some p => nc_release tries p;; serve_names rs (delete j held) | None => serve_names rs held end
  end.
Record serving (k : Z) root held s : Prop := {
  se_inv : nc_inv char_signed k (root :: held) s;
  se_settled : inactive s ≤ max_inactive s;
  se_root x n : ncs s !! x = Some n → parent n = None → x = root
}.
Lemma serving_roots k root held s s' : serving k root held s → roots s s' → ∀ x n, ncs s' !! x = Some n → parent n = None → x = root.
Proof. intros Hs Hr x n Hx Hp. destruct (Hr _ _ Hx Hp) as (n0 & Hx0 & Hp0). by eapply se_root. Qed.
Lemma serving_spend k root held s : serving (k + 1) root held s → 0 ≤ k → serving k root held s.
Proof. intros [] Hk. split; [by apply inv_spend|done|done]. Qed.
Lemma serve_names_ok (Halloc : ∀ m, m !! kmem_alloc m = None) root rs : ∀ k held s, 0 ≤ k → serving (k + Z.of_nat (length rs)) root held s →
  wp (serve_names rs held) (λ held' s', serving k root held' s') s.
Proof.
  induction rs as [|r rs IH]; intros k held s Hk Hs; [simpl in Hs; by rewrite Z.add_0_r in Hs|].
  replace (k + Z.of_nat (length (r :: rs))) with (k + Z.of_nat (length rs) + 1) in Hs by (simpl; lia). pose proof (serving_spend _ _ _ _ Hs ltac:(lia)) as Hs'. pose proof (se_inv _ _ _ _ Hs) as Hi. pose proof (se_settled _ _ _ _ Hs) as Hset.
  assert (∀ j p, held !! j = Some p → p ∈ root :: held) as Hin by (intros j p Hj; right; by eapply list_elem_of_lookup_2).
  destruct r as [j nm|j|j]; cbn [serve_names]; (destruct (held !! j) as [p|] eqn:Hj; [|by apply IH]); destruct (ni_held _ _ _ _ Hi p (Hin _ _ Hj)) as (n & Hn & [v Hv]); rewrite wp_bind.
  - rewrite wp_get, wp_bind. eapply wp_mono; [eapply (nc_lookup_ok char_signed tries (λ _ _, None) _ (root :: held) s _ p n v nm); [done|done|lia|apply Halloc|by eapply Hin|done|done]|].
    intros r s1 (Hset1 & _ & _ & Hro & _ & Hr1 & _). apply IH; [done|]. split; [|done|by eapply serving_roots]. destruct r as [e|p']; [done|]. destruct Hr1 as [Hi1 _]. eapply nc_inv_perm; [apply perm_swap|done].
  - eapply wp_mono; [eapply nc_retain_ok; [done|done|lia|done|eauto]|]. intros [] s1 (Hi1 & Ho1 & Hset1). apply IH; [done|]. split; [|done|eapply serving_roots; [done|by apply older_roots]]. eapply nc_inv_perm; [apply perm_swap|done].
  - pose proof (delete_Permutation _ _ _ Hj) as Hp. eapply wp_mono; [eapply (nc_release_ok char_signed tries (k + Z.of_nat (length rs)) (root :: delete j held))|].
    + eapply nc_inv_perm; [|apply Hs']. rewrite Hp at 1. apply perm_swap.
    + done.
    + intros m Hm Hpm. rewrite (se_root _ _ _ _ Hs _ _ Hm Hpm). by left.
    + intros [] s1 (Hi1 & Ho1 & Hset1). apply IH; [done|]. split; [done|done|eapply serving_roots; [done|by apply older_roots]].
Qed.
(** The state before the first file system is mounted. *)
Definition no_names (vs : gmap Z vnode) (fss : gmap Z vfs) : vst := Vst ∅ [] 0 1 (Handle None None) vs ∅ fss [].
Lemma make_root_ok k root f v x vs fss : 0 ≤ k < 2 ^ 31 → fs_ok vs → vs !! v = Some x → 1 ≤ refcount x → vvfs x = Some f → (∀ w, 0 ≤ rc vs w) →
  wp (nc_make_root root f v) (λ _ s, nc_inv char_signed k [root] s ∧ inactive s ≤ max_inactive s ∧ (∃ n, ncs s !! root = Some n ∧ vp n = Some v ∧ vfsp n = f ∧ ncs s = {[root := n]} ∧ parent n = None) ∧
    vfss s = fss ∧ root_nch s = Handle (Some root) (Some f)) (no_names vs fss).
Proof.
  intros Hk Hok Hv Hr Hf Hrc. unfold nc_make_root. rewrite wp_bind, wp_nc_set, wp_modify. set (n := Nc 1 0 0 (Some v) f [] None None 0). split; [|split; [done|split; [exists n; simpl; rewrite insert_empty, lookup_singleton_eq; done|done]]].
  assert (∀ (Q : namecache → Prop) `{∀ x, Decision (Q x)}, tally Q ({[root := n]} : gmap Z namecache) = one Q n) as Ht by (intros Q ?; rewrite <- insert_empty, tally_new by done; unfold tally; rewrite map_filter_empty, map_size_empty; lia).
  assert (∀ p, kids {[root := n]} p = 0%nat) as Hkids by (intros p; unfold kids; by rewrite Ht).
  assert (∀ p m, ({[root := n]} : gmap Z namecache) !! p = Some m → p = root ∧ m = n) as Hone by (intros p m [<- <-]%lookup_singleton_Some; done).
  split; simpl; rewrite ?insert_empty.
  - intros p m [-> ->]%Hone. rewrite Hkids, occ_cons, decide_True by done. done.
  - lia.
  - intros p. rewrite Hkids, occ_cons. unfold occ. simpl. destruct (decide (root = p)); lia.
  - intros p ->%list_elem_of_singleton. exists n. rewrite lookup_singleton_eq. eauto.
  - intros p m [-> ->]%Hone _. by left.
  - intros p m q [-> ->]%Hone. done.
  - intros p m q [-> ->]%Hone. done.
  - intros q d p [-> ->]%Hone. by intros ?%elem_of_nil.
  - intros q p p' m m' [-> ->]%Hone [-> ->]%Hone. done.
  - intros p. split; [by intros ?%elem_of_nil|]. intros (m & [-> ->]%Hone & ?). done.
  - constructor.
  - intros w. unfold vrefs. rewrite Ht. unfold one. simpl. case_decide as Hw; [injection Hw as <-|specialize (Hrc w); lia]. unfold rc. rewrite Hv. lia.
  - done.
  - intros p m w y [-> ->]%Hone [= <-] Hy. simpl. congruence.
  - intros p m q d [-> ->]%Hone. done.
  - intros p m [-> ->]%Hone. done.
  - lia.
  - lia.
Qed.

(** C21. The name cache serves any sequence of look-ups, retains and releases by clients that
    use and drop the references they hold, from the mounting of the root on: no
    assertion fails, no freed node is used, every node a client holds has a vnode, and no more
    nodes are kept in reserve than the limit. *)
Theorem namecache_serves (Halloc : ∀ m, m !! kmem_alloc m = None) rs root f v x vs fss : fs_ok vs → vs !! v = Some x → 1 ≤ refcount x → vvfs x = Some f → (∀ w, 0 ≤ rc vs w) → Z.of_nat (length rs) < 2 ^ 30 →
  wp (nc_make_root root f v;; nc_retain root;; serve_names rs [root])
    (λ held s, (∀ p, p ∈ held → ∃ n, ncs s !! p = Some n ∧ is_Some (vp n)) ∧ Z.of_nat (length (lru_queue s)) ≤ max_inactive s) (no_names vs fss).
Proof.
  intros Hok Hv Hr Hf Hrc Hlen. rewrite wp_bind. eapply wp_mono; [apply (make_root_ok (Z.of_nat (length rs) + 1) root f v x vs fss); try done; lia|].
  intros [] s (Hi & Hset & (n & Hn & Hvn & _ & Hns & Hp) & _). rewrite wp_bind. eapply wp_mono; [eapply nc_retain_ok; [exact Hi|done|lia|done|eauto]|]. intros [] s1 (Hi1 & Ho1 & Hset1).
  eapply wp_mono; [apply (serve_names_ok Halloc root rs 0); [done|]|].
  - split; [done|done|]. intros y m Hy Hpy. destruct (ol_nodes _ _ Ho1 _ _ Hy) as (m0 & Hm0 & _). rewrite Hns in Hm0. by apply lookup_singleton_Some in Hm0 as [? _].
  - intros held s2 [Hi2 Hset2 _]. split.
    + intros p Hp2. apply (ni_held _ _ _ _ Hi2). by right.
    + pose proof (ni_count _ _ _ _ Hi2). lia.
Qed.

(** C20. Looking a path up whose components have fewer than 256 bytes each, in a file system
    that is not being unmounted and has no other mounted over its root, gives what following
    its components through the directories gives: the same vnode, with one new reference to
    its node and one to the file system, or nothing and no reference.  The path is copied, cut
    at its slashes and followed through the name cache, in whatever state the cache is.
    Longer components need not be told apart: see [nc_long_names_confused]. *)
Theorem vfs_lookup_correct fuel delim dirs (Halloc : ∀ m, m !! kmem_alloc m = None) (Hans : answers dirs) k R st path copy w start flags p f n v x :
  path_mem delim (mem st) path copy w → w ≠ [] → (1 < fuel)%nat → (length w < fuel)%nat → Forall short (components w) →
  nc_inv char_signed (k + 1 + Z.of_nat (length (components w))) R (names st) → 0 ≤ k → inactive (names st) ≤ max_inactive (names st) → agrees dirs (names st) →
  (if decide (head w = Some SLASH) then root_nch (names st) else start) = Handle (Some p) (Some f) → p ∈ R → ncs (names st) !! p = Some n → vp n = Some v → vfsp n = f →
  vfss (names st) !! f = Some x → root_ncp x = None → Z.even (file_refcnt x) = true → 0 ≤ file_refcnt x < 2 ^ 32 - 2 →
  wp (vfs_lookup char_signed tries kmem_alloc fuel delim copy start path flags) (λ r st', agrees dirs (names st') ∧
    match walk dirs v (wanted flags (components w)) with
    | Some v' => ∃ p' n, r = Some (Handle (Some p') (Some f)) ∧ nc_inv char_signed k (p' :: R) (names st') ∧ ncs (names st') !! p' = Some n ∧ vp n = Some v' ∧
        vfss (names st') = <[f := with_file_refcnt (file_refcnt x + 2) x]> (vfss (names st))
    | None => r = None ∧ nc_inv char_signed k R (names st') ∧ vfss (names st') = vfss (names st)
    end) st.
Proof. intros. eapply wp_mono; [by eapply vfs_lookup_ok|]. intros r st' (? & _ & ?). done. Qed.

(** C34. Removing a file system from the name cache ends, and leaves none of its nodes in
    reserve. *)
Theorem nc_remove_vfs_correct k R s fs : nc_inv char_signed k R s →
  wp (nc_remove_vfs tries fs) (λ _ s', nc_inv char_signed k R s' ∧ ∀ p n, p ∈ lru_queue s' → ncs s' !! p = Some n → vfsp n ≠ fs) s.
Proof.
  intros Hi. unfold nc_remove_vfs. rewrite wp_bind, wp_get. eapply wp_mono; [eapply remove_loop_ok; [done|lia]|]. intros [] s' (Hi' & _ & _ & Ho). done.
Qed.

(** Synchronising a file system visits every vnode on its list once, in order, past the
    markers of other iterators, and leaves every count and the list as they were. *)
Theorem vfs_fsync_all_correct marker junk f s y v post : vfss s !! f = Some y → vnode_list y = v :: post → vnodes s !! marker = None → NoDup (vnode_list y) → good (vnodes s) (vnode_list y) →
  real (vnodes s) v = true →
  wp (vfs_fsync_all tries marker junk f) (λ r s', r = filter (λ w, real (vnodes s) w = true) (vnode_list y) ∧ vfss s' = vfss s ∧ delete marker (vnodes s') = vnodes s) s.
Proof. apply fsync_all_ok. Qed.
(** With no vnodes the iterator's own marker is taken for one, and the walk ends in a failed
    assertion. *)
Theorem vfs_fsync_all_empty marker junk f s y : vfss s !! f = Some y → vnode_list y = [] → ¬ wp (vfs_fsync_all tries marker junk f) (λ _ _, True) s.
Proof.
  intros Hy Hl. unfold vfs_fsync_all, vfs_vn_iter_init. rewrite wp_bind, wp_bind, wp_vn_set, wp_bind, wp_vfs_at. intros (y' & Hy' & Hw). simpl in Hy'. assert (y' = y) as -> by congruence. rewrite Hl in Hw. revert Hw.
  rewrite wp_bind, wp_vfs_set, wp_bind, wp_deref. intros (v & [= <-] & Hw). revert Hw. unfold vn_retain. rewrite wp_bind, wp_bind, wp_vn_at. intros (x & Hx & Hw). revert Hw.
  rewrite wp_bind, wp_vn_set, wp_bind, !wp_kassert. intros (_ & _ & Hw). revert Hw. rewrite wp_ret. rewrite wp_bind, wp_vfs_at. intros (y' & Hy1 & Hw). revert Hw. rewrite wp_bind. cbn [fsync_loop]. unfold vfs_vn_iter_next. simpl next_vn. cbv iota.
  rewrite wp_bind, wp_bind, wp_vfs_at. intros (y2 & Hy2 & Hw). simpl in Hy1, Hy2. rewrite lookup_insert_eq in Hy1, Hy2. injection Hy2 as <-. revert Hw. simpl. rewrite wp_bind. cbn [skip_markers]. simpl. rewrite Z.eqb_refl. intros Hw. exact Hw.
Qed.
(** Releasing a vnode whose count is zero never ends. *)
Theorem vn_release_zero v x fuel s : vnodes s !! v = Some x → refcount x = 0 → vn_release fuel v s = Spin.
Proof. intros Hx Hz. induction fuel as [|fuel IH]; [done|]. cbn [vn_release]. unfold vn_at, mbind, kern_bind, get, deref, mret, kern_ret. rewrite Hx, Hz. exact IH. Qed.
End theorems.

(** ** A file system that is a table *)

Section table.
Context (f0 : Z) (dirs : Z → list Z → option Z).
Definition table_ops : VnodeOps := {|
  vop_lookup d nm := match dirs d nm with
    | Some v => vs ← get; put (<[v := match vs !! v with Some x => with_refcount (refcount x + 1) x | None => Vnode 1 VDIR 0 (Some f0) None end]> vs);; mret (Some v)
    | None => mret None end;
  vop_inactive v := modify (delete v);; mret true
|}.
Program Definition table_laws : @VnodeLaws table_ops := @Build_VnodeLaws table_ops (λ vs, ∀ v x, vs !! v = Some x → vvfs x = Some f0) _ _ _ _.
Next Obligation. intros vs v x r Hok Hx w y [[<- <-]|[_ Hy]]%lookup_insert_Some; [exact (Hok _ _ Hx)|by eapply Hok]. Qed.
Next Obligation. intros vs v Hok w y [_ Hy]%lookup_delete_Some. by eapply Hok. Qed.
Next Obligation.
  intros vs d nm Hok [y Hy]. simpl. destruct (dirs d nm) as [v|]; [|by rewrite wp_ret]. rewrite wp_bind, wp_get, wp_bind. unfold put. split.
  - eexists. split; [done|]. unfold rc. rewrite Hy. simpl. destruct (vs !! v) as [x|] eqn:Hx; simpl; split_and!; try done.
    + rewrite (Hok _ _ Hx). symmetry. by eapply Hok.
    + intros z [= <-]. done.
    + symmetry. by eapply Hok.
  - intros w x [[<- <-]|[_ Hx]]%lookup_insert_Some; [|by eapply Hok]. destruct (vs !! v) as [x|] eqn:Hx; [|done]. exact (Hok _ _ Hx).
Qed.
Next Obligation. intros vs v Hv. simpl. by rewrite wp_bind, wp_modify, wp_ret. Qed.
Lemma table_answers : @answers table_ops dirs.
Proof. intros vs d nm. simpl. by destruct (dirs d nm). Qed.
End table.

(** ** A small file system *)

(** Memory for nodes, above all in use. *)
Definition next_free (m : gmap Z namecache) : Z := 1 + foldr Z.max 0 (map fst (map_to_list m)).
Lemma next_free_ok m : m !! next_free m = None.
Proof.
  destruct (m !! next_free m) as [n|] eqn:E; [|done]. apply elem_of_map_to_list in E. assert (∀ (l : list (Z * namecache)) x, x ∈ l → x.1 ≤ foldr Z.max 0 (map fst l)) as Hmax.
  { induction l as [|y l IH]; intros x; [by intros ?%elem_of_nil|]. intros [->|Hx]%elem_of_cons; simpl; [lia|]. specialize (IH x Hx). lia. }
  specialize (Hmax _ _ E). unfold next_free in Hmax. simpl in Hmax. lia.
Qed.
Definition long1 : list Z := replicate 256 97.
Definition long2 : list Z := replicate 256 98.
(** The directory 10 has a subdirectory and two files with long names. *)
Definition small_dirs (d : Z) (nm : list Z) : option Z :=
  if d =? 10 then (if decide (nm = [97]) then Some 20 else if decide (nm = long1) then Some 40 else if decide (nm = long2) then Some 50 else None)
  else if d =? 20 then (if decide (nm = [98]) then Some 30 else None) else None.
Definition small_vnodes : gmap Z vnode := {[10 := Vnode 1 VDIR 0 (Some 1) None]}.
Definition small_vfss : gmap Z vfs := {[1 := MkVfs 0 None (Handle None None) [10]]}.
Definition small_ops : VnodeOps := table_ops 1 small_dirs.
Definition small_laws : @VnodeLaws small_ops := table_laws 1 small_dirs.
Lemma small_fs_ok : @fs_ok small_ops small_laws small_vnodes.
Proof. intros v x Hx. unfold small_vnodes in Hx. apply lookup_singleton_Some in Hx as [<- <-]. done. Qed.
Lemma small_rc w : 0 ≤ rc small_vnodes w.
Proof. unfold rc, small_vnodes. destruct (decide (w = 10)) as [->|Hne]; [by rewrite lookup_singleton_eq|by rewrite lookup_singleton_ne]. Qed.
Definition rooted : vst := final (nc_make_root 100 1 10) (no_names small_vnodes small_vfss).
Lemma rooted_nodes : ncs rooted = {[100 := Nc 1 0 0 (Some 10) 1 [] None None 0]}.
Proof. done. Qed.
Lemma rooted_ok cs : @nc_inv small_ops small_laws cs 1000 [100] rooted ∧ inactive rooted ≤ max_inactive rooted.
Proof.
  pose proof (@make_root_ok small_ops small_laws cs 1000 100 1 10 (Vnode 1 VDIR 0 (Some 1) None) small_vnodes small_vfss) as Hw.
  destruct (wp_final _ _ _ (Hw ltac:(lia) small_fs_ok eq_refl ltac:(done) eq_refl small_rc)) as ([] & Hi & Hs & _). split; [exact Hi|exact Hs].
Qed.

Lemma namecache_serves_witness : wp (nc_make_root 100 1 10;; nc_retain 100;; @serve_names small_ops true 0 next_free [Look 0 [97]; Look 0 [98]; Keep 0; Drop 1; Drop 0; Look 0 [99]] [100])
  (λ held s, (∀ p, p ∈ held → ∃ n, ncs s !! p = Some n ∧ is_Some (vp n)) ∧ Z.of_nat (length (lru_queue s)) ≤ max_inactive s) (no_names small_vnodes small_vfss).
Proof.
  apply (@namecache_serves small_ops small_laws true 0 next_free next_free_ok) with (Vnode 1 VDIR 0 (Some 1) None); [exact small_fs_ok|done|done|done|exact small_rc|done].
Defined.
Lemma nc_remove_vfs_correct_witness : wp (@nc_remove_vfs small_ops 0 1) (λ _ s', @nc_inv small_ops small_laws true 1000 [100] s' ∧ ∀ p n, p ∈ lru_queue s' → ncs s' !! p = Some n → vfsp n ≠ 1) rooted.
Proof. apply (@nc_remove_vfs_correct small_ops small_laws true 0 1000 [100] rooted 1), rooted_ok. Defined.
Lemma vfs_fsync_all_correct_witness : wp (@vfs_fsync_all small_ops 0 500 7 1) (λ r s', r = [10] ∧ vfss s' = vfss rooted ∧ delete 500 (vnodes s') = vnodes rooted) rooted.
Proof.
  apply (@vfs_fsync_all_correct small_ops 0 500 7 1 rooted (MkVfs 0 None (Handle None None) [10]) 10 []); [done|done|done|repeat constructor; by intros ?%elem_of_nil| |done].
  intros v ->%list_elem_of_singleton. eexists. split; [done|]. intros _. by split.
Defined.
Definition path_bytes : memory := list_to_map (zip [0; 1; 2; 3; 4; 10; 11; 20; 21; 22; 23; 24] [47; 97; 47; 98; 0; 47; 0; 0; 0; 0; 0; 0]).
(** The path [/a/b]. *)
Lemma vfs_lookup_correct_witness : wp (@vfs_lookup small_ops true 0 next_free 10 10 20 (Handle None None) 0 0)
  (λ r st', ∃ p n, r = Some (Handle (Some p) (Some 1)) ∧ ncs (names st') !! p = Some n ∧ vp n = Some 30) (Lst path_bytes rooted).
Proof.
  destruct (rooted_ok true) as [Hi Hs]. eapply wp_mono; [apply (@vfs_lookup_correct small_ops small_laws true 0 next_free 10 10 small_dirs next_free_ok (table_answers 1 small_dirs) 997 [100] (Lst path_bytes rooted) 0 20 [47; 97; 47; 98]
    (Handle None None) 0 100 1 (Nc 1 0 0 (Some 10) 1 [] None None 0) 10 (MkVfs 0 None (Handle None None) [10]))|].
  - split; [split; [vm_compute; tauto|repeat constructor; lia]|split; [vm_compute; tauto|repeat constructor; lia]| |right; simpl; lia|right; simpl; lia].
    intros a Ha. simpl in Ha. assert (a = 20 ∨ a = 21 ∨ a = 22 ∨ a = 23 ∨ a = 24) as [->|[->|[->|[->| ->]]]] by lia; vm_compute; eauto.
  - done.
  - lia.
  - simpl. lia.
  - vm_compute. repeat constructor; lia.
  - exact Hi.
  - done.
  - done.
  - split; intros p n; [intros q d nm v Hp Hq|intros nm Hp Hn]; assert (n = Nc 1 0 0 (Some 10) 1 [] None None 0) as -> by (simpl names in Hp; rewrite rooted_nodes in Hp; by apply lookup_singleton_Some in Hp as [_ <-]); done.
  - done.
  - by left.
  - done.
  - done.
  - done.
  - done.
  - done.
  - done.
  - done.
  - intros r st' [_ Hr]. vm_compute (walk _ _ _) in Hr. destruct Hr as (p & n & -> & _ & Hn & Hv & _). eauto.
Defined.

(** ** Where the code falls short *)

Definition look (cs : bool) (nm : list Z) : kern vst (errno + Z) := s ← get; @nc_lookup small_ops cs 0 (next_free (ncs s)) 100 nm.
Definition found (s : vst) (r : errno + Z) : option Z := match r with inr p => n ← ncs s !! p; vp n | inl _ => None end.
(** Names longer than 255 bytes are confused: the length is kept in eight bits and only
    that many bytes are hashed and compared, so once a name of 256 bytes has been looked up, any
    other name of 256 bytes is taken for it, and leads to its vnode. *)
Theorem nc_long_names_confused cs : long1 ≠ long2 ∧ small_dirs 10 long1 = Some 40 ∧ small_dirs 10 long2 = Some 50 ∧
  wp (r1 ← look cs long1; r2 ← look cs long2; mret (r1, r2)) (λ r s, r.1 = r.2 ∧ found s r.1 = Some 40 ∧ found s r.2 = Some 40) rooted.
Proof. split_and!; [|done|done|destruct cs; vm_compute; done]. intros He. by apply (f_equal head) in He. Qed.

Definition look_and_drop (cs : bool) (nm : list Z) : kern vst () :=
  r ← look cs nm; match r with inr p => @nc_release small_ops 0 p | inl _ => mret () end.
(** Taking a node out of the reserve does not lower the count of nodes in reserve: after
    one node has been used again, the count is at its limit with nothing in reserve, and every
    node is freed as soon as it is released. *)
Theorem nc_reserve_lost cs : wp (look_and_drop cs [97]) (λ _ s, lru_queue s = [101] ∧ inactive s = 1) rooted ∧
  wp (look_and_drop cs [97];; look_and_drop cs [97]) (λ _ s, lru_queue s = [] ∧ inactive s = max_inactive s ∧ ncs s = ncs rooted) rooted ∧
  wp (look_and_drop cs [97];; look_and_drop cs [97];; look_and_drop cs [97]) (λ _ s, lru_queue s = [] ∧ ncs s = ncs rooted) rooted.
Proof. destruct cs; vm_compute; done. Qed.
