(* ===== verification/Epoll.v ===== *)
(** Polling: kernel/executive/epoll.c, with the poll lists of files (file.c) and the
    pollheads that devices signal.

    An entry, an epoll, a file and a pollhead are known by their addresses.  The
    [chpoll] operation belongs to the device behind a vnode: it is the method of a class,
    and may touch the pollheads and the state of the devices only.  Spinlocks make the
    stretches of code between their acquisition and release atomic; the mutexes are
    kept, since a thread that finds one taken waits.  [epoll.deleted] is never read. *)
From S2P Require Import Prelude Objman Objtab.
Import Objman Objtab.
Local Open Scope Z_scope.

Module Epoll.

Inductive errno := EBADF | EINVAL | EEXIST | ENOMEM | EFAULT | EMFILE.
Global Instance errno_eq_dec : EqDecision errno.
Proof. solve_decision. Defined.
Inductive ret := Val (r : Z) | Err (e : errno).

(** The bits of <sys/epoll.h>. *)
Class EpollBits := { EPOLLIN : Z; EPOLLOUT : Z; EPOLLERR : Z; EPOLLHUP : Z; EPOLLPRI : Z }.

Record epoll_event := Event { events : Z; data : Z }.
Record poll_entry := Entry { owner : Z; desc : Z; efile : Z; event : epoll_event }.
(** [locked]: the mutex is taken; [signalled]: the state of the event. *)
Record epoll := Epoll { locked : bool; watches : list Z; ready : list Z; signalled : bool }.
Definition with_locked b x := Epoll b (watches x) (ready x) (signalled x).
Definition with_watches l x := Epoll (locked x) l (ready x) (signalled x).
Definition with_ready l b x := Epoll (locked x) (watches x) l b.
(** What matters of a file here; [named]: it has a name cache handle. *)
Record wfile := WFile { fvnode : Z; named : bool; epoll_watches : list Z }.
Definition with_epoll_watches l f := WFile (fvnode f) (named f) l.

(** ** Pollheads, and the devices behind them *)

Inductive chpoll_mode := kChpollPoll | kChpollRemove.
Global Instance chpoll_mode_eq_dec : EqDecision chpoll_mode.
Proof. solve_decision. Defined.
Record pollstate (D : Type) := Ps { heads : gmap Z (list Z); dev : D }.
Arguments Ps {D} _ _.
Arguments heads {D} _.
Arguments dev {D} _.

Section pollheads.
Context {D : Type}.
Definition head_at (ph : Z) : kern (pollstate D) (list Z) := s ← get; deref "pollhead" (heads s !! ph).
Definition head_set (ph : Z) (l : list Z) : kern (pollstate D) () := modify (λ s, Ps (<[ph := l]> (heads s)) (dev s)).
Definition pollhead_init (ph : Z) : kern (pollstate D) () := head_set ph [].
Definition pollhead_register (ph pe : Z) : kern (pollstate D) () := l ← head_at ph; head_set ph (pe :: l).
Definition pollhead_unregister (ph pe : Z) : kern (pollstate D) () :=
  l ← head_at ph; l' ← deref "LIST_REMOVE" (q_remove pe l); head_set ph l'.
End pollheads.

(** The operations of vnodes, where they have them. *)
Class PollDev (D : Type) := {
  chpoll : Z → option (option Z → chpoll_mode → kern (pollstate D) Z);
  inactive : Z → option bool
}.

(** ** Epolls *)

Record est (D : Type) := Est {
  polls : gmap Z poll_entry;
  epolls : gmap Z epoll;
  files : gmap Z wfile;
  dst : pollstate D;
  teardown : bool
}.
Arguments Est {D} _ _ _ _ _.
Arguments polls {D} _.
Arguments epolls {D} _.
Arguments files {D} _.
Arguments dst {D} _.
Arguments teardown {D} _.

Section epoll.
Context {D : Type} `{EpollBits} `{PollDev D}.

Definition set_polls (x : gmap Z poll_entry) (s : est D) : est D := Est x (epolls s) (files s) (dst s) (teardown s).
Definition set_epolls (x : gmap Z epoll) (s : est D) : est D := Est (polls s) x (files s) (dst s) (teardown s).
Definition set_files (x : gmap Z wfile) (s : est D) : est D := Est (polls s) (epolls s) x (dst s) (teardown s).
Definition set_dst (x : pollstate D) (s : est D) : est D := Est (polls s) (epolls s) (files s) x (teardown s).
Definition set_teardown (x : bool) (s : est D) : est D := Est (polls s) (epolls s) (files s) (dst s) x.

Definition entry_at (e : Z) : kern (est D) poll_entry := s ← get; deref "poll_entry" (polls s !! e).
Definition epoll_at (ep : Z) : kern (est D) epoll := s ← get; deref "epoll" (epolls s !! ep).
Definition epoll_set (ep : Z) (x : epoll) : kern (est D) () := modify (λ s, set_epolls (<[ep := x]> (epolls s)) s).
Definition file_at (o : Z) : kern (est D) wfile := s ← get; deref "file" (files s !! o).
Definition file_set (o : Z) (f : wfile) : kern (est D) () := modify (λ s, set_files (<[o := f]> (files s)) s).
Definition in_dev {A} (m : kern (pollstate D) A) : kern (est D) A := zoom dst set_dst m.

(** The mutexes.  Whoever finds one taken waits for as long as it is. *)
Definition ep_lock (ep : Z) : kern (est D) () :=
  x ← epoll_at ep; if locked x then spin else epoll_set ep (with_locked true x).
Definition ep_unlock (ep : Z) : kern (est D) () := x ← epoll_at ep; epoll_set ep (with_locked false x).
Definition teardown_lock : kern (est D) () :=
  s ← get; if teardown s then spin else modify (set_teardown true).
Definition teardown_unlock : kern (est D) () := modify (set_teardown false).

(** [ops->chpoll] of the vnode of a file. *)
Definition call_chpoll (o : Z) (pe : option Z) (mode : chpoll_mode) : kern (est D) Z :=
  f ← file_at o;
  op ← deref "ops->chpoll" (chpoll (fvnode f));
  in_dev (op pe mode).

(** An entry has become ready: under the ready lock of its epoll. *)
Definition ready_insert (e : Z) (x : epoll) : epoll :=
  with_ready (if bool_decide (e ∈ ready x) then ready x else e :: ready x) true x.
Definition make_ready (e : Z) : kern (est D) () :=
  p ← entry_at e; x ← epoll_at (owner p); epoll_set (owner p) (ready_insert e x).

Fixpoint deliver_loop (l : list Z) (revents : Z) : kern (est D) () :=
  match l with
  | [] => mret ()
  | e :: l =>
      p ← entry_at e;
      when (negb (Z.land (events (event p)) revents =? 0)) (make_ready e);;
      deliver_loop l revents
  end.
Definition pollhead_deliver_events (ph revents : Z) : kern (est D) () :=
  l ← in_dev (head_at ph); deliver_loop l revents.

(** *** Adding a watch *)

Fixpoint watched_already (l : list Z) (file d : Z) : kern (est D) bool :=
  match l with
  | [] => mret false
  | e :: l => p ← entry_at e; if (efile p =? file) && (desc p =? d) then mret true else watched_already l file d
  end.
(** The new entry is filled in and linked to its epoll; ... *)
Definition watch_link (ep d file : Z) (ev : epoll_event) (e : Z) : kern (est D) () :=
  modify (λ s, set_polls (<[e := Entry ep d file ev]> (polls s)) s);;
  x ← epoll_at ep; epoll_set ep (with_watches (e :: watches x) x).
(** ... registered with the device, which says which events are pending; ... *)
Definition watch_register (file e : Z) : kern (est D) Z := call_chpoll file (Some e) kChpollPoll.
(** ... made ready if it cares for one of them; ... *)
Definition watch_publish (e : Z) (ev : epoll_event) (r : Z) : kern (est D) () :=
  when (negb (Z.land r (events ev) =? 0)) (make_ready e).
(** ... and linked to the file. *)
Definition watch_file (file e : Z) : kern (est D) () :=
  f ← file_at file; file_set file (with_epoll_watches (e :: epoll_watches f) f).

(** [uevent]: what copying the event from user space gives; [mem]: what [kmem_alloc]
    gives. *)
Definition watch_add (ep d file : Z) (uevent : option epoll_event) (mem : option Z) : kern (est D) ret :=
  match uevent with
  | None => mret (Err EFAULT)
  | Some ev =>
      ep_lock ep;;
      x ← epoll_at ep;
      dup ← watched_already (watches x) file d;
      if (dup : bool) then ep_unlock ep;; mret (Err EEXIST)
      else
        match mem with
        | None => mret (Err ENOMEM)
        | Some e =>
            watch_link ep d file ev e;;
            r ← watch_register file e;
            watch_publish e ev r;;
            watch_file file e;;
            ep_unlock ep;;
            mret (Val 0)
        end
  end.

(** *** Removing watches *)

Definition watch_del (ep e : Z) : kern (est D) () :=
  p ← entry_at e;
  _ ← call_chpoll (efile p) (Some e) kChpollRemove;
  f ← file_at (efile p);
  fw ← deref "LIST_ELEM_IS_INSERTED(entry, file_list_entry)" (q_remove e (epoll_watches f));
  file_set (efile p) (with_epoll_watches fw f);;
  x ← epoll_at ep;
  epoll_set ep (with_ready (default (ready x) (q_remove e (ready x))) (signalled x) x);;
  x ← epoll_at ep;
  w ← deref "LIST_REMOVE" (q_remove e (watches x));
  epoll_set ep (with_watches w x);;
  modify (λ s, set_polls (delete e (polls s)) s).

(** The body of the loop is, word for word, that of [watch_del]. *)
Fixpoint delete_loop (ep : Z) (l : list Z) : kern (est D) () :=
  match l with [] => mret () | e :: l => watch_del ep e;; delete_loop ep l end.
Definition epoll_delete (ep : Z) : kern (est D) () :=
  teardown_lock;; x ← epoll_at ep; delete_loop ep (watches x);; teardown_unlock.

(** Nothing here releases the teardown mutex. *)
Fixpoint close_loop (fuel : nat) (o : Z) : kern (est D) () :=
  f ← file_at o;
  match epoll_watches f, fuel with
  | [], _ => mret ()
  | e :: _, S fuel =>
      p ← entry_at e;
      ep_lock (owner p);;
      watch_del (owner p) e;;
      ep_unlock (owner p);;
      close_loop fuel o
  | _, O => spin
  end.
(** As many rounds as the file has watches are enough. *)
Definition poll_watched_file_did_close (o : Z) : kern (est D) () :=
  teardown_lock;; f ← file_at o; close_loop (length (epoll_watches f)) o.

(** *** Waiting *)

Definition array_set (revents : list epoll_event) (n : Z) (ev : epoll_event) : kern (est D) (list epoll_event) :=
  _ ← deref "revents[nrevents]" (revents !! Z.to_nat n); mret (<[Z.to_nat n := ev]> revents).
Fixpoint ready_loop (ep : Z) (l : list Z) (maxevents nrevents : Z) (revents : list epoll_event) : kern (est D) (Z * list epoll_event) :=
  match l with
  | [] => mret (nrevents, revents)
  | e :: l =>
      if nrevents =? maxevents then mret (nrevents, revents)
      else
        p ← entry_at e;
        r ← call_chpoll (efile p) None kChpollPoll;
        if negb (Z.land r (events (event p)) =? 0) then
          revents ← array_set revents nrevents (Event (Z.land r (events (event p))) (data (event p)));
          ready_loop ep l maxevents (nrevents + 1) revents
        else
          x ← epoll_at ep;
          q ← deref "LIST_REMOVE" (q_remove e (ready x));
          epoll_set ep (with_ready q (signalled x) x);;
          ready_loop ep l maxevents nrevents revents
  end.
Definition process_ready (ep maxevents : Z) (revents : list epoll_event) : kern (est D) (Z * list epoll_event) :=
  x ← epoll_at ep;
  r ← ready_loop ep (ready x) maxevents 0 revents;
  x ← epoll_at ep;
  (if bool_decide (ready x = []) then epoll_set ep (with_ready (ready x) false x) else mret ());;
  mret r.

(** [ke_wait] on the event of an epoll.  Nothing else happens while it is signalled or
    when the time to wait is nil; otherwise [sleep] stands for what the others do until
    the thread runs again, and says whether it timed out. *)
Inductive kwaitresult := kKernWaitStatusOK | kKernWaitStatusTimedOut.
Definition ke_wait_event (sleep : Z → kern (est D) kwaitresult) (ep timeout : Z) : kern (est D) kwaitresult :=
  x ← epoll_at ep;
  if signalled x then mret kKernWaitStatusOK
  else if timeout =? 0 then mret kKernWaitStatusTimedOut
  else sleep timeout.
(** The product is one of [int]s, and the time is a [uint64_t]. *)
Definition wait_timeout (millisecs : Z) : Z := u64 (if millisecs =? -1 then -1 else i32 (millisecs * 1000000)).

Definition wait_events (sleep : Z → kern (est D) kwaitresult) (ep maxevents millisecs : Z) (stack : list epoll_event) : kern (est D) (ret * list epoll_event) :=
  '(r, revents) ← process_ready ep maxevents stack;
  if negb (r =? 0) then mret (Val r, take (Z.to_nat r) revents)
  else
    w ← ke_wait_event sleep ep (wait_timeout millisecs);
    match w with
    | kKernWaitStatusTimedOut => mret (Val 0, [])
    | kKernWaitStatusOK => '(r, revents) ← process_ready ep maxevents revents; mret (Val r, take (Z.to_nat r) revents)
    end.
End epoll.

(** ** The services *)

(** A vnode: its references, and its epoll when its operations are [epoll_vnops]. *)
Record vnode := Vnode { refs : Z; vepoll : option Z }.
Record sst (D : Type) := Sst { tables : tst; poll : est D; vnodes : gmap Z vnode }.
Arguments Sst {D} _ _ _.
Arguments tables {D} _.
Arguments poll {D} _.
Arguments vnodes {D} _.

Section services.
Context {D : Type} `{EpollBits} `{PollDev D}.
Context (file_class : Z) (fuel : nat).

Definition in_tables {A} (m : kern tst A) : kern (sst D) A := zoom tables (λ t s, Sst t (poll s) (vnodes s)) m.
Definition in_poll {A} (m : kern (est D) A) : kern (sst D) A := zoom poll (λ p s, Sst (tables s) p (vnodes s)) m.
Definition vn_at (v : Z) : kern (sst D) vnode := s ← get; deref "vnode" (vnodes s !! v).
Definition vn_set (v : Z) (x : vnode) : kern (sst D) () := modify (λ s, Sst (tables s) (poll s) (<[v := x]> (vnodes s))).

Definition VTOEP (v : Z) : kern (sst D) Z := x ← vn_at v; deref "vnode->ops == &epoll_vnops" (vepoll x).
Definition epoll_inactive (v : Z) : kern (sst D) bool := ep ← VTOEP v; in_poll (epoll_delete ep);; mret true.
(** [vn_release] (vfs.c) of a vnode with at least one reference; when the operation of the
    last one fails, it is tried again. *)
Definition vn_release (v : Z) : kern (sst D) () :=
  x ← vn_at v;
  if 1 <? refs x then vn_set v (Vnode (refs x - 1) (vepoll x))
  else if refs x =? 1 then
    b ← match vepoll x with Some _ => epoll_inactive v | None => deref "ops->inactive" (inactive v) end;
    if (b : bool) then mret () else spin
  else spin.
(** The name cache handle of a named file is let go of elsewhere. *)
Definition ex_file_free (o : Z) : kern (sst D) () :=
  f ← in_poll (file_at o);
  (if bool_decide (epoll_watches f = []) then mret () else in_poll (poll_watched_file_did_close o));;
  if named f then mret () else vn_release (fvnode f).
(** [obj_release] of a file, whose free routine is [ex_file_free]. *)
Definition file_release (o : Z) : kern (sst D) () :=
  h ← in_tables (in_objects (hdr_at o));
  in_tables (in_objects (obj_release o));;
  when (refcount h =? 1) (ex_file_free o).
Definition file_close (handle : Z) : kern (sst D) () :=
  old ← in_tables (ex_object_space_free_index handle);
  o ← deref "obj_release(NULL)" old;
  file_release o.

Definition desc_to_epoll (epdesc : Z) : kern (sst D) (errno + Z * Z) :=
  r ← in_tables (ex_object_space_lookup fuel epdesc);
  match r with
  | None => mret (inl EBADF)
  | Some o => f ← in_poll (file_at o); ep ← VTOEP (fvnode f); mret (inr (ep, o))
  end.

(** Flags other than the five are fatal.  [flags]: what [event->events] is when it is
    looked at in user space; [uevent]: what is copied from there later on. *)
Definition flags_ok (flags : Z) : bool :=
  Z.land flags (Z.lnot (Z.lor (Z.lor (Z.lor (Z.lor EPOLLIN EPOLLOUT) EPOLLERR) EPOLLHUP) EPOLLPRI)) =? 0.
Inductive ctl_op := EPOLL_CTL_ADD | EPOLL_CTL_MOD | EPOLL_CTL_DEL.
Definition ex_service_epoll_ctl (epdesc : Z) (op : ctl_op) (d flags : Z) (uevent : option epoll_event) (mem : option Z) : kern (sst D) ret :=
  kassert "unexpected epoll flags" (flags_ok flags);;
  r ← desc_to_epoll epdesc;
  match r with
  | inl e => mret (Err e)
  | inr (ep, ep_file) =>
      w ← in_tables (ex_object_space_lookup fuel d);
      match w with
      | None => mret (Err EBADF)
      | Some watch_file =>
          match op with
          | EPOLL_CTL_ADD =>
              r ← in_poll (watch_add ep d watch_file uevent mem);
              file_release watch_file;;
              file_release ep_file;;
              mret r
          | _ => fatal "implement me!"
          end
      end
  end.

(** [sleep] as above; [stack] is what the array of results holds at first. *)
Definition ex_service_epoll_wait (sleep : Z → kern (est D) kwaitresult) (stack : list epoll_event) (epdesc maxevents millisecs : Z) : kern (sst D) (ret * list epoll_event) :=
  if maxevents <? 0 then mret (Err EINVAL, [])
  else
    let max := if 4 <? maxevents then 4 else maxevents in
    kassert "Todo: is this sensible?" (negb (max =? 0));;
    r ← desc_to_epoll epdesc;
    match r with
    | inl e => mret (Err e, [])
    | inr (ep, ep_file) =>
        r ← in_poll (wait_events sleep ep max millisecs stack);
        file_release ep_file;;
        mret r
    end.

(** [ep], [o] and [v] are the memory of the epoll, the file and the vnode; [junk] is the
    vnode, and whether there is a handle, that the memory of the file holds at first. *)
Definition ex_file_new (o : Z) (junk : Z * bool) : kern (sst D) () :=
  r ← in_tables (in_objects (obj_new o file_class));
  kassert "r == 0" (r =? 0);;
  in_poll (file_set o (WFile junk.1 junk.2 [])).
Definition ex_service_epoll_create (ep o v : Z) (junk : Z * bool) : kern (sst D) ret :=
  ex_file_new o junk;;
  vn_set v (Vnode 1 (Some ep));;
  descnum ← in_tables (ex_object_space_reserve false);
  if descnum =? -1 then file_release o;; vn_release v;; mret (Err EMFILE)
  else
    f ← in_poll (file_at o);
    in_poll (file_set o (WFile v false (epoll_watches f)));;
    in_poll (epoll_set ep (Epoll false [] [] false));;
    in_tables (ex_object_space_reserved_insert descnum o);;
    mret (Val descnum).
End services.
End Epoll.
