(* ===== verification/EpollInv.v ===== *)
(** What devices promise to epolls, and the invariant that keeps events from getting
    lost. *)
From S2P Require Import Prelude Epoll.
Import Epoll.
Local Open Scope Z_scope.

(** ** The contract of [chpoll] *)

(** [level]: the events pending on a vnode; [head_of]: its pollhead.  Asked to poll, the
    operation links the entry it is given, if any, and then looks at the pending events. *)
Class PollLaws (D : Type) `{PollDev D} := {
  level : D → Z → Z;
  head_of : Z → Z;
  poll_register v op e (s : pollstate D) : chpoll v = Some op →
    op (Some e) kChpollPoll s = (pollhead_register (head_of v) e;; gets (λ s, level (dev s) v)) s;
  poll_peek v op (s : pollstate D) : chpoll v = Some op → op None kChpollPoll s = Ok (level (dev s) v, s);
  poll_remove v op e (s : pollstate D) : chpoll v = Some op →
    op (Some e) kChpollRemove s = (pollhead_unregister (head_of v) e;; mret 0) s
}.

(** ** Operations under way *)

(** How far [watch_add] has come with an entry: linked to its epoll, registered, told the
    pending events, made ready if need be. *)
Inductive phase := Linked | Registered | Sampled (r : Z) | Published.
Global Instance phase_eq_dec : EqDecision phase.
Proof. solve_decision. Defined.
(** [owed]: the deliveries, by pollhead and events, that devices have yet to make. *)
Record ghost := Ghost { owed : list (Z * Z); adding : gmap Z phase }.
Definition quiet : ghost := Ghost [] ∅.

Definition cares (p : poll_entry) (r : Z) : Prop := Z.land r (events (event p)) ≠ 0.
Global Instance cares_dec p r : Decision (cares p r).
Proof. unfold cares. apply _. Defined.

Section inv.
Context {D : Type} `{PollLaws D}.
Implicit Types (s : est D) (g : ghost) (p : poll_entry) (x : epoll) (f : wfile).

(** Why an entry with pending events may not be ready: a delivery is still to come, or its
    [watch_add] has yet to look. *)
Definition excused g (e : Z) p f : Prop :=
  (∃ ev, (head_of (fvnode f), ev) ∈ owed g ∧ cares p ev) ∨
  match adding g !! e with
  | Some Linked | Some Registered => True
  | Some (Sampled r) => cares p r
  | _ => False
  end.
(** The list of an epoll's entries, and the ready ones among them. *)
Record epoll_wf s g (ep : Z) x : Prop := EpollWf {
  w_nodup : NoDup (watches x);
  w_ready : NoDup (ready x);
  w_signal : ready x ≠ [] → signalled x = true;
  w_watch e : e ∈ watches x ↔ ∃ p, polls s !! e = Some p ∧ owner p = ep;
  w_sub e : e ∈ ready x → e ∈ watches x ∧ adding g !! e ≠ Some Linked
}.
Record epoll_inv s g : Prop := EpollInv {
  i_epoll ep x : epolls s !! ep = Some x → epoll_wf s g ep x;
  i_entry e p : polls s !! e = Some p → is_Some (epolls s !! owner p) ∧
    ∃ f, files s !! efile p = Some f ∧ is_Some (chpoll (fvnode f)) ∧ is_Some (heads (dst s) !! head_of (fvnode f));
  i_file o f : files s !! o = Some f → NoDup (epoll_watches f) ∧
    ∀ e, e ∈ epoll_watches f ↔ (∃ p, polls s !! e = Some p ∧ efile p = o) ∧ adding g !! e = None;
  i_head h l : heads (dst s) !! h = Some l → NoDup l ∧
    ∀ e, e ∈ l ↔ (∃ p f, polls s !! e = Some p ∧ files s !! efile p = Some f ∧ head_of (fvnode f) = h) ∧ adding g !! e ≠ Some Linked;
  i_adding e ph : adding g !! e = Some ph → is_Some (polls s !! e);
  i_lost e p f x : polls s !! e = Some p → files s !! efile p = Some f → epolls s !! owner p = Some x →
    cares p (level (dev (dst s)) (fvnode f)) → e ∈ ready x ∨ excused g e p f
}.

(** ** Running the accessors *)

Lemma wp_entry_at e p Q s : polls s !! e = Some p → (wp (entry_at e) Q s ↔ Q p s).
Proof. intros He. unfold entry_at. by rewrite wp_bind, wp_get, He. Qed.
Lemma wp_epoll_at ep x Q s : epolls s !! ep = Some x → (wp (epoll_at ep) Q s ↔ Q x s).
Proof. intros He. unfold epoll_at. by rewrite wp_bind, wp_get, He. Qed.
Lemma wp_file_at o f Q s : files s !! o = Some f → (wp (file_at o) Q s ↔ Q f s).
Proof. intros He. unfold file_at. by rewrite wp_bind, wp_get, He. Qed.
Lemma wp_head_at h l Q (s : pollstate D) : heads s !! h = Some l → (wp (head_at h) Q s ↔ Q l s).
Proof. intros He. unfold head_at. by rewrite wp_bind, wp_get, He. Qed.
Lemma wp_deref_Some {S A} why (a : A) Q (s : S) : wp (deref why (Some a)) Q s ↔ Q a s.
Proof. done. Qed.
Lemma wp_ext {S A} (m m' : kern S A) Q (s : S) : m s = m' s → (wp m Q s ↔ wp m' Q s).
Proof. intros He. unfold wp. by rewrite He. Qed.

(** ** Readiness *)

(** The epoll [ep] becomes [x']; nothing else changes. *)
Definition upd_epoll (ep : Z) x' s : est D := set_epolls (<[ep := x']> (epolls s)) s.
Lemma wp_epoll_set ep x (Q : () → est D → Prop) s : wp (epoll_set ep x) Q s ↔ Q () (upd_epoll ep x s).
Proof. unfold epoll_set. by rewrite wp_modify. Qed.

Lemma ready_insert_elem e x e' : e' ∈ ready (ready_insert e x) ↔ e' = e ∨ e' ∈ ready x.
Proof. unfold ready_insert. simpl. case_bool_decide; set_solver. Qed.

(** Changing the list of ready entries of one epoll keeps everything as long as no entry
    that must stay is dropped. *)
Lemma inv_upd_ready s g ep x x' : epoll_inv s g → epolls s !! ep = Some x → watches x' = watches x → NoDup (ready x') →
  (ready x' ≠ [] → signalled x' = true) → (∀ e, e ∈ ready x' → e ∈ watches x ∧ adding g !! e ≠ Some Linked) →
  (∀ e p f, e ∈ ready x → e ∉ ready x' → polls s !! e = Some p → files s !! efile p = Some f → ¬ cares p (level (dev (dst s)) (fvnode f))) →
  epoll_inv (upd_epoll ep x' s) g.
Proof.
  intros [I1 I2 I3 I4 I5 I6] Hx Hw Hnd Hsig Hsub Hkeep. split; simpl; [| |done..|].
  - intros ep' y Hy. destruct (decide (ep' = ep)) as [->|Hne].
    + rewrite lookup_insert_eq in Hy. injection Hy as <-. destruct (I1 ep x Hx) as [W1 W2 W3 W4 W5]. split; simpl; rewrite ?Hw; auto.
    + rewrite lookup_insert_ne in Hy by done. by destruct (I1 ep' y Hy).
  - intros e p Hp. destruct (I2 e p Hp) as [Ho Hf]. split; [|done]. destruct (decide (owner p = ep)) as [->|Hne]; [rewrite lookup_insert_eq; eauto|by rewrite lookup_insert_ne].
  - intros e p f y Hp Hf Hy Hc. destruct (decide (owner p = ep)) as [He|Hne].
    + rewrite He, lookup_insert_eq in Hy. injection Hy as <-. rewrite <- He in Hx. destruct (I6 e p f x Hp Hf Hx Hc) as [Hr|]; [|by right].
      destruct (decide (e ∈ ready x')); [by left|]. by destruct (Hkeep e p f Hr n Hp Hf).
    + rewrite lookup_insert_ne in Hy by done. by apply (I6 e p f y).
Qed.
Lemma inv_ready_insert s g e p x : epoll_inv s g → polls s !! e = Some p → epolls s !! owner p = Some x → adding g !! e ≠ Some Linked →
  epoll_inv (upd_epoll (owner p) (ready_insert e x) s) g.
Proof.
  intros Hi Hp Hx Ha. destruct (i_epoll _ _ Hi _ _ Hx) as [W1 W2 W3 W4 W5]. apply (inv_upd_ready s g (owner p) x); try done.
  - unfold ready_insert. simpl. case_bool_decide; [done|]. by constructor.
  - intros e' [->|He']%ready_insert_elem; [|by apply W5]. split; [|done]. apply W4. eauto.
  - intros e' p' f' He' Hn. by rewrite ready_insert_elem in Hn; destruct Hn; right.
Qed.

(** ** Delivering *)

(** Only the lists of ready entries change, and they grow. *)
Record only_readier s s' : Prop := OnlyReadier {
  r_polls : polls s' = polls s;
  r_files : files s' = files s;
  r_dst : dst s' = dst s;
  r_teardown : teardown s' = teardown s;
  r_epolls ep x : epolls s !! ep = Some x → ∃ x', epolls s' !! ep = Some x' ∧ watches x' = watches x ∧ locked x' = locked x ∧ ready x ⊆ ready x'
}.
Lemma only_readier_refl s : only_readier s s.
Proof. split; try done. intros ep x Hx. exists x. done. Qed.
Lemma only_readier_trans s1 s2 s3 : only_readier s1 s2 → only_readier s2 s3 → only_readier s1 s3.
Proof.
  intros [A1 A2 A3 A4 A5] [B1 B2 B3 B4 B5]. split; try congruence. intros ep x Hx. destruct (A5 ep x Hx) as (y & Hy & ? & ? & ?). destruct (B5 ep y Hy) as (z & Hz & ? & ? & ?).
  exists z. split_and!; [done|congruence|congruence|set_solver].
Qed.
Lemma only_readier_insert s e p x : epolls s !! owner p = Some x → only_readier s (upd_epoll (owner p) (ready_insert e x) s).
Proof.
  intros Hx. split; try done. intros ep y Hy. simpl. destruct (decide (ep = owner p)) as [->|Hne].
  - rewrite lookup_insert_eq. eexists. split; [done|]. replace y with x by congruence. split_and!; [done|done|]. intros e' He'. apply ready_insert_elem. by right.
  - rewrite lookup_insert_ne by done. exists y. done.
Qed.
Lemma wp_make_ready s g e p : epoll_inv s g → polls s !! e = Some p → adding g !! e ≠ Some Linked →
  wp (make_ready e) (λ _ s', epoll_inv s' g ∧ only_readier s s' ∧ ∃ x, epolls s' !! owner p = Some x ∧ e ∈ ready x) s.
Proof.
  intros Hi Hp Ha. destruct (i_entry _ _ Hi _ _ Hp) as [[x Hx] _]. unfold make_ready. rewrite wp_bind, (wp_entry_at e p) by done. rewrite wp_bind, (wp_epoll_at _ x), wp_epoll_set by done.
  split; [by apply inv_ready_insert|]. split; [by apply only_readier_insert|]. exists (ready_insert e x). split; [apply lookup_insert_eq|]. apply ready_insert_elem. by left.
Qed.
Lemma wp_deliver_loop l r g s : epoll_inv s g → (∀ e, e ∈ l → is_Some (polls s !! e) ∧ adding g !! e ≠ Some Linked) →
  wp (deliver_loop l r) (λ _ s', epoll_inv s' g ∧ only_readier s s' ∧
    ∀ e p, e ∈ l → polls s !! e = Some p → cares p r → ∃ x, epolls s' !! owner p = Some x ∧ e ∈ ready x) s.
Proof.
  revert s. induction l as [|e l IH]; intros s Hi Hl; simpl.
  { apply wp_ret. split; [done|]. split; [apply only_readier_refl|]. set_solver. }
  destruct (Hl e ltac:(left)) as [[p Hp] Ha]. rewrite wp_bind, (wp_entry_at e p), wp_bind by done.
  assert (wp (when (negb (Z.land (events (event p)) r =? 0)) (make_ready e)) (λ _ s', epoll_inv s' g ∧ only_readier s s' ∧
    (cares p r → ∃ x, epolls s' !! owner p = Some x ∧ e ∈ ready x)) s) as Hw.
  { rewrite wp_when. unfold cares. rewrite (Z.land_comm r). destruct (Z.eqb_spec (Z.land (events (event p)) r) 0) as [Hz|Hz]; simpl.
    - split; [done|]. split; [apply only_readier_refl|done].
    - eapply wp_mono; [by apply wp_make_ready|]. naive_solver. }
  eapply wp_mono; [exact Hw|]. intros _ s1 (Hi1 & Hr1 & Hd1). eapply wp_mono; [apply IH|].
  - done.
  - rewrite (r_polls _ _ Hr1). set_solver.
  - intros _ s2 (Hi2 & Hr2 & Hd2). split; [done|]. split; [by eapply only_readier_trans|]. intros e' p' [->|He']%elem_of_cons Hp' Hc.
    + assert (p' = p) as -> by congruence. destruct (Hd1 Hc) as (x & Hx & Hin). destruct (r_epolls _ _ Hr2 _ _ Hx) as (y & Hy & _ & _ & Hsub). exists y. split; [done|]. by apply Hsub.
    + apply Hd2; [done|by rewrite (r_polls _ _ Hr1)|done].
Qed.
(** A delivery that was owed is made. *)
Lemma wp_deliver h r o1 o2 a l s : epoll_inv s (Ghost (o1 ++ (h, r) :: o2) a) → heads (dst s) !! h = Some l →
  wp (pollhead_deliver_events h r) (λ _ s', epoll_inv s' (Ghost (o1 ++ o2) a) ∧ only_readier s s' ∧
    ∀ e p, e ∈ l → polls s !! e = Some p → cares p r → ∃ x, epolls s' !! owner p = Some x ∧ e ∈ ready x) s.
Proof.
  intros Hi Hl. destruct (i_head _ _ Hi _ _ Hl) as [_ Hmem]. unfold pollhead_deliver_events, in_dev. rewrite wp_bind, wp_zoom, (wp_head_at h l) by done.
  replace (set_dst (dst s) s) with s by (by destruct s). eapply wp_mono; [apply (wp_deliver_loop l r _ s Hi)|].
  { intros e [(p & f & Hp & _) Ha]%Hmem. eauto. }
  intros _ s' (Hi' & Hr & Hd). split_and!; [|done..]. destruct Hi' as [I1 I2 I3 I4 I5 I6]. split; [|done..|].
  - intros ep x Hx. destruct (I1 ep x Hx) as [W1 W2 W3 W4 W5]. by split.
  - intros e p f x Hp Hf Hx Hc. destruct (I6 e p f x Hp Hf Hx Hc) as [Hin|Hex]; [by left|].
    destruct Hex as [(ev & Hev & Hce)|Hadd]; [|by right; right]. cbn [owed] in Hev.
    apply elem_of_app in Hev as [Hev|[Heq|Hev]%elem_of_cons]; [right; left; exists ev; split; [set_solver|done]| |right; left; exists ev; split; [set_solver|done]].
    injection Heq as Hh ->. destruct (decide (adding (Ghost (o1 ++ o2) a) !! e = Some Linked)) as [Hlk|Hlk]; [right; right; by rewrite Hlk|].
    assert (e ∈ l) as Hel. { apply Hmem. split; [|exact Hlk]. exists p, f. by rewrite <- (r_polls _ _ Hr), <- (r_files _ _ Hr). }
    rewrite (r_polls _ _ Hr) in Hp. destruct (Hd e p Hel Hp Hce) as (y & Hy & Hin). left. congruence.
Qed.
End inv.
