(* ===== verification/EpollWatch.v ===== *)
(** Adding and removing watches keeps the invariant of epolls, step by step. *)
From S2P Require Import Prelude Epoll EpollInv.
Import Epoll.
Local Open Scope Z_scope.

Section watch.
Context {D : Type} `{PollLaws D}.
Implicit Types (s : est D) (g : ghost) (p : poll_entry) (x : epoll) (f : wfile).

Lemma q_remove_nodup (e : Z) q q' : NoDup q → q_remove e q = Some q' → NoDup q' ∧ ∀ y, y ∈ q' ↔ y ∈ q ∧ y ≠ e.
Proof.
  intros Hnd Hq%q_remove_perm. rewrite Hq in Hnd. apply NoDup_cons in Hnd as [Hn Hnd]. split; [done|]. intros y. rewrite Hq, elem_of_cons.
  split; [|tauto]. intros Hy. split; [by right|]. by intros ->.
Qed.

Definition set_adding (e : Z) (ph : phase) g : ghost := Ghost (owed g) (<[e := ph]> (adding g)).
Lemma excused_other g e ph e' p f : e' ≠ e → excused (set_adding e ph g) e' p f ↔ excused g e' p f.
Proof. intros Hne. unfold excused. simpl. by rewrite lookup_insert_ne. Qed.

(** ** Adding *)

(** The file [o], with the vnode of its [f], can be watched. *)
Definition watchable s (o : Z) f : Prop :=
  files s !! o = Some f ∧ is_Some (chpoll (fvnode f)) ∧ is_Some (heads (dst s) !! head_of (fvnode f)).
Definition linked_state (ep d o : Z) ev (e : Z) x s : est D :=
  upd_epoll ep (with_watches (e :: watches x) x) (set_polls (<[e := Entry ep d o ev]> (polls s)) s).
Lemma linked_inv ep d o ev e x f s g : epoll_inv s g → polls s !! e = None → epolls s !! ep = Some x → watchable s o f →
  epoll_inv (linked_state ep d o ev e x s) (set_adding e Linked g).
Proof.
  intros [I1 I2 I3 I4 I5 I6] Hn Hx (Hf & Hch & Hhd). assert (adding g !! e = None) as Ha by (destruct (adding g !! e) eqn:E; [destruct (I5 e _ E); congruence|done]).
  assert (∀ e' p, <[e := Entry ep d o ev]> (polls s) !! e' = Some p → e' = e ∧ p = Entry ep d o ev ∨ e' ≠ e ∧ polls s !! e' = Some p) as Hcase.
  { intros e' p. destruct (decide (e' = e)) as [->|Hne]; [rewrite lookup_insert_eq; intros [= <-]; by left|rewrite lookup_insert_ne by done; by right]. }
  assert (∀ e' p, polls s !! e' = Some p → e' ≠ e) as Hold by congruence. split; simpl.
  - intros ep' y Hy. assert (∀ z, epolls s !! ep' = Some z → watches y = (if decide (ep' = ep) then e :: watches z else watches z) → ready y = ready z → signalled y = signalled z →
      epoll_wf (linked_state ep d o ev e x s) (set_adding e Linked g) ep' y) as Hgo.
    { intros z Hz Hwy Hry Hsy. destruct (I1 ep' z Hz) as [W1 W2 W3 W4 W5]. assert (e ∉ watches z) as Hnw by (intros (p & ? & _)%W4; congruence). split; simpl; rewrite ?Hry, ?Hsy; try done.
      - rewrite Hwy. case_decide; [by constructor|done].
      - intros e'. rewrite Hwy. destruct (decide (e' = e)) as [->|Hne].
        + rewrite lookup_insert_eq. case_decide as Hd; [subst; split; [eauto|left]|]. split; [tauto|]. intros (p & [= <-] & Ho). by destruct Hd.
        + rewrite lookup_insert_ne by done. rewrite <- W4. case_decide; [|done]. rewrite elem_of_cons. tauto.
      - intros e' He'. destruct (W5 e' He') as [Hw Hl]. assert (e' ≠ e) by (by intros ->). rewrite lookup_insert_ne by done. split; [|done]. rewrite Hwy. case_decide; [by right|done]. }
    destruct (decide (ep' = ep)) as [->|Hne]; [rewrite lookup_insert_eq in Hy|rewrite lookup_insert_ne in Hy by done].
    + injection Hy as <-. by apply (Hgo x).
    + by apply (Hgo y).
  - intros e' p [(-> & ->)|(Hne & Hp)]%Hcase; simpl.
    + rewrite lookup_insert_eq. eauto.
    + destruct (I2 e' p Hp) as [Ho Hw]. split; [|done]. destruct (decide (owner p = ep)) as [->|?]; [rewrite lookup_insert_eq; eauto|by rewrite lookup_insert_ne].
  - intros o' f' Hf'. destruct (I3 o' f' Hf') as [Hnd Hel]. split; [done|]. intros e'. rewrite Hel. destruct (decide (e' = e)) as [->|Hne].
    + rewrite !lookup_insert_eq, Hn. split; [intros [(p & ? & _) _]; congruence|intros [_ ?]; congruence].
    + by rewrite !lookup_insert_ne.
  - intros h l Hl. destruct (I4 h l Hl) as [Hnd Hel]. split; [done|]. intros e'. rewrite Hel. destruct (decide (e' = e)) as [->|Hne].
    + rewrite !lookup_insert_eq, Hn. split; [intros [(p & f' & ? & _) _]; congruence|intros [_ ?]; congruence].
    + by rewrite !lookup_insert_ne.
  - intros e' ph. destruct (decide (e' = e)) as [->|Hne]; [rewrite !lookup_insert_eq; eauto|rewrite !lookup_insert_ne by done; apply I5].
  - intros e' p f' y [(-> & ->)|(Hne & Hp)]%Hcase Hf' Hy Hc; simpl in *.
    + right. right. simpl. by rewrite lookup_insert_eq.
    + rewrite excused_other by done. destruct (decide (owner p = ep)) as [He|?].
      * rewrite He, lookup_insert_eq in Hy. injection Hy as <-. simpl. apply (I6 e' p f' x); congruence.
      * rewrite lookup_insert_ne in Hy by done. by apply (I6 e' p f' y).
Qed.
Lemma wp_watch_link ep d o ev e x s (Q : () → est D → Prop) : epolls s !! ep = Some x → (wp (watch_link ep d o ev e) Q s ↔ Q () (linked_state ep d o ev e x s)).
Proof. intros Hx. unfold watch_link. by rewrite wp_bind, wp_modify, wp_bind, (wp_epoll_at ep x), wp_epoll_set. Qed.

(** From one phase to the next, when no list changes. *)
Lemma inv_phase s g e ph ph' : epoll_inv s g → adding g !! e = Some ph → ph ≠ Linked → ph' ≠ Linked →
  (∀ p f x, polls s !! e = Some p → files s !! efile p = Some f → epolls s !! owner p = Some x → cares p (level (dev (dst s)) (fvnode f)) →
    e ∈ ready x ∨ excused g e p f → e ∈ ready x ∨ excused (set_adding e ph' g) e p f) → epoll_inv s (set_adding e ph' g).
Proof.
  intros [I1 I2 I3 I4 I5 I6] Ha Hph Hph' Hex. split; simpl; try done.
  - intros ep x Hx. destruct (I1 ep x Hx) as [W1 W2 W3 W4 W5]. split; try done. intros e' He'. destruct (W5 e' He'). split; [done|]. simpl.
    destruct (decide (e' = e)) as [->|?]; [rewrite lookup_insert_eq; congruence|by rewrite lookup_insert_ne].
  - intros o f Hf. destruct (I3 o f Hf) as [Hnd Hel]. split; [done|]. intros e'. rewrite Hel. destruct (decide (e' = e)) as [->|?]; [rewrite lookup_insert_eq, Ha; split; by intros [_ ?]|by rewrite lookup_insert_ne].
  - intros h l Hl. destruct (I4 h l Hl) as [Hnd Hel]. split; [done|]. intros e'. rewrite Hel. destruct (decide (e' = e)) as [->|?]; [|by rewrite lookup_insert_ne].
    rewrite lookup_insert_eq, Ha. split; intros [? _]; (split; [done|congruence]).
  - intros e' ph0. destruct (decide (e' = e)) as [->|?]; [intros _; by apply (I5 e ph)|rewrite lookup_insert_ne by done; apply I5].
  - intros e' p f x Hp Hf Hx Hc. destruct (decide (e' = e)) as [->|?]; [|rewrite excused_other by done; by apply (I6 e' p f x)]. eapply Hex; eauto.
Qed.

Definition registered_state (h e : Z) (l : list Z) s : est D := set_dst (Ps (<[h := e :: l]> (heads (dst s))) (dev (dst s))) s.
Lemma registered_inv s g e p f l : epoll_inv s g → polls s !! e = Some p → files s !! efile p = Some f → heads (dst s) !! head_of (fvnode f) = Some l → adding g !! e = Some Linked →
  epoll_inv (registered_state (head_of (fvnode f)) e l s) (set_adding e Registered g).
Proof.
  intros [I1 I2 I3 I4 I5 I6] Hp Hf Hl Ha. split; simpl.
  - intros ep x Hx. destruct (I1 ep x Hx) as [W1 W2 W3 W4 W5]. split; try done. intros e' He'. destruct (W5 e' He'). split; [done|]. simpl.
    destruct (decide (e' = e)) as [->|?]; [by rewrite lookup_insert_eq|by rewrite lookup_insert_ne].
  - intros e' p' Hp'. destruct (I2 e' p' Hp') as (Ho & f' & Hf' & Hc & Hh). split; [done|]. exists f'. split_and!; [done..|].
    destruct (decide (head_of (fvnode f') = head_of (fvnode f))) as [->|?]; [rewrite lookup_insert_eq; eauto|by rewrite lookup_insert_ne].
  - intros o f' Hf'. destruct (I3 o f' Hf') as [Hnd Hel]. split; [done|]. intros e'. rewrite Hel. destruct (decide (e' = e)) as [->|?]; [rewrite lookup_insert_eq, Ha; split; by intros [_ ?]|by rewrite lookup_insert_ne].
  - intros h l'. destruct (decide (h = head_of (fvnode f))) as [->|Hne]; [rewrite lookup_insert_eq; intros [= <-]|rewrite lookup_insert_ne by done; intros Hl'].
    + destruct (I4 _ l Hl) as [Hnd Hel]. split; [constructor; [rewrite Hel; tauto|done]|]. intros e'. rewrite elem_of_cons, Hel. destruct (decide (e' = e)) as [->|?].
      * rewrite lookup_insert_eq. split; [intros _; split; [eauto|done]|by left].
      * rewrite lookup_insert_ne by done. tauto.
    + destruct (I4 h l' Hl') as [Hnd Hel]. split; [done|]. intros e'. rewrite Hel. destruct (decide (e' = e)) as [->|?]; [|by rewrite lookup_insert_ne].
      rewrite Ha. split; [tauto|]. intros [(p' & f' & Hp' & Hf' & Hh) _]. destruct Hne. congruence.
  - intros e' ph. destruct (decide (e' = e)) as [->|?]; [eauto|rewrite lookup_insert_ne by done; apply I5].
  - intros e' p' f' x Hp' Hf' Hx Hc. destruct (decide (e' = e)) as [->|?]; [right; right; simpl; by rewrite lookup_insert_eq|rewrite excused_other by done; by apply (I6 e' p' f' x)].
Qed.
(** The device registers the entry, and then tells what is pending. *)
Lemma wp_watch_register s o f e l (Q : Z → est D → Prop) : files s !! o = Some f → is_Some (chpoll (fvnode f)) → heads (dst s) !! head_of (fvnode f) = Some l →
  (wp (watch_register o e) Q s ↔ Q (level (dev (dst s)) (fvnode f)) (registered_state (head_of (fvnode f)) e l s)).
Proof.
  intros Hf [op Hop] Hl. unfold watch_register, call_chpoll, in_dev. rewrite wp_bind, (wp_file_at o f), wp_bind, Hop, wp_deref_Some, wp_zoom by done.
  rewrite (wp_ext _ _ _ _ (poll_register _ op e (dst s) Hop)), wp_bind. unfold pollhead_register, head_set. rewrite wp_bind, (wp_head_at _ l), wp_modify, wp_gets by done. done.
Qed.
Lemma sampled_inv s g e p f : epoll_inv s g → polls s !! e = Some p → files s !! efile p = Some f → adding g !! e = Some Registered →
  epoll_inv s (set_adding e (Sampled (level (dev (dst s)) (fvnode f))) g).
Proof.
  intros Hi Hp Hf Ha. apply (inv_phase s g e Registered); try done. intros p' f' x Hp' Hf' Hx Hc _. right. right. simpl. rewrite lookup_insert_eq. congruence.
Qed.
Lemma wp_watch_publish s g e p r : epoll_inv s g → polls s !! e = Some p → adding g !! e = Some (Sampled r) →
  wp (watch_publish e (event p) r) (λ _ s', epoll_inv s' (set_adding e Published g) ∧ only_readier s s') s.
Proof.
  intros Hi Hp Ha. unfold watch_publish. rewrite wp_when. destruct (Z.eqb_spec (Z.land r (events (event p))) 0) as [Hz|Hz]; simpl.
  - split; [|apply only_readier_refl]. apply (inv_phase s g e (Sampled r)); try done. intros p' f x Hp' Hf Hx Hc [Hin|[Ho|Hs]]; [by left|by right; left|].
    rewrite Ha in Hs. unfold cares in Hs. congruence.
  - eapply wp_mono; [apply (wp_make_ready s g e p); [done..|congruence]|]. intros _ s' (Hi' & Hr & y & Hy & Hin). split; [|done]. apply (inv_phase s' g e (Sampled r)); try done.
    intros p' f x Hp' Hf Hx Hc _. left. rewrite (r_polls _ _ Hr) in Hp'. congruence.
Qed.
Definition unset_adding (e : Z) g : ghost := Ghost (owed g) (delete e (adding g)).
Lemma filed_inv s g e p f : epoll_inv s g → polls s !! e = Some p → files s !! efile p = Some f → adding g !! e = Some Published →
  epoll_inv (set_files (<[efile p := with_epoll_watches (e :: epoll_watches f) f]> (files s)) s) (unset_adding e g).
Proof.
  intros [I1 I2 I3 I4 I5 I6] Hp Hf Ha. set (f1 := with_epoll_watches (e :: epoll_watches f) f).
  assert (∀ o f', <[efile p := f1]> (files s) !! o = Some f' → ∃ f0, files s !! o = Some f0 ∧ fvnode f' = fvnode f0 ∧ (o = efile p ∧ f' = f1 ∨ o ≠ efile p ∧ f' = f0)) as Hcase.
  { intros o f'. destruct (decide (o = efile p)) as [->|?]; [rewrite lookup_insert_eq; intros [= <-]; exists f; split_and!; [done|done|by left]|rewrite lookup_insert_ne by done; intros Hn; exists f'; split_and!; [done|done|by right]]. }
  assert (∀ o f0, files s !! o = Some f0 → ∃ f', <[efile p := f1]> (files s) !! o = Some f' ∧ fvnode f' = fvnode f0) as Hback.
  { intros o f0 Hf0. destruct (decide (o = efile p)) as [->|?]; [rewrite lookup_insert_eq; exists f1; split; [done|]; unfold f1; simpl; congruence|rewrite lookup_insert_ne by done; by exists f0]. }
  assert (∀ e', delete e (adding g) !! e' = Some Linked ↔ adding g !! e' = Some Linked) as Hlk.
  { intros e'. destruct (decide (e' = e)) as [->|?]; [rewrite lookup_delete_eq; split; congruence|by rewrite lookup_delete_ne]. }
  split; simpl.
  - intros ep x Hx. destruct (I1 ep x Hx) as [W1 W2 W3 W4 W5]. split; try done. intros e'. simpl. rewrite Hlk. apply W5.
  - intros e' p' Hp'. destruct (I2 e' p' Hp') as (Ho & f0 & Hf0 & Hc & Hh). split; [done|]. destruct (Hback _ _ Hf0) as (f' & Hf' & Hv). exists f'. by rewrite Hv.
  - intros o f' Hf'. destruct (Hcase o f' Hf') as (f0 & Hf0 & _ & [(-> & ->)|(Hne & ->)]).
    + replace f0 with f in * by congruence. destruct (I3 _ f Hf) as [Hnd Hel]. simpl. split; [constructor; [rewrite Hel, Ha; by intros [_ ?]|done]|]. intros e'. rewrite elem_of_cons, Hel.
      destruct (decide (e' = e)) as [->|?]; [rewrite lookup_delete_eq; split; [eauto|by left]|rewrite lookup_delete_ne by done; tauto].
    + destruct (I3 o f0 Hf0) as [Hnd Hel]. split; [done|]. intros e'. rewrite Hel. destruct (decide (e' = e)) as [->|?]; [|by rewrite lookup_delete_ne].
      rewrite Ha. split; [by intros [_ ?]|]. intros [(p' & Hp' & Ho) _]. destruct Hne. congruence.
  - intros h l Hl. destruct (I4 h l Hl) as [Hnd Hel]. split; [done|]. intros e'. rewrite Hel, Hlk. split; intros [(p' & f0 & Hp' & Hf0 & Hh) Hn]; (split; [|done]); exists p'.
    + destruct (Hback _ _ Hf0) as (f' & Hf' & Hv). exists f'. by rewrite Hv.
    + destruct (Hcase _ _ Hf0) as (f' & Hf' & Hv & _). exists f'. by rewrite <- Hv.
  - intros e' ph. destruct (decide (e' = e)) as [->|?]; [eauto|rewrite lookup_delete_ne by done; apply I5].
  - intros e' p' f' x Hp' Hf' Hx Hc. destruct (Hcase _ _ Hf') as (f0 & Hf0 & Hv & _). rewrite Hv in Hc. destruct (I6 e' p' f0 x Hp' Hf0 Hx Hc) as [|Hex]; [by left|]. right.
    unfold excused in *. rewrite Hv. simpl. destruct (decide (e' = e)) as [->|?]; [rewrite Ha in Hex; left; tauto|by rewrite lookup_delete_ne].
Qed.
End watch.

(** Watches added and removed as a whole: [watch_add], [watch_del], the deletion of an
    epoll and the closing of a watched file. *)
Import Epoll.

Section del.
Context {D : Type} `{PollLaws D}.
Implicit Types (s : est D) (g : ghost) (p : poll_entry) (x : epoll) (f : wfile).

(** ** Locks *)

Lemma inv_locked s g ep x b : epoll_inv s g → epolls s !! ep = Some x → epoll_inv (upd_epoll ep (with_locked b x) s) g.
Proof. intros Hi Hx. destruct (i_epoll _ _ Hi ep x Hx) as [W1 W2 W3 W4 W5]. by apply (inv_upd_ready s g ep x). Qed.
Lemma wp_ep_lock ep x (Q : () → est D → Prop) s : epolls s !! ep = Some x → locked x = false → (wp (ep_lock ep) Q s ↔ Q () (upd_epoll ep (with_locked true x) s)).
Proof. intros Hx Hl. unfold ep_lock. rewrite wp_bind, (wp_epoll_at ep x) by done. by rewrite Hl, wp_epoll_set. Qed.
Lemma wp_ep_unlock ep x (Q : () → est D → Prop) s : epolls s !! ep = Some x → (wp (ep_unlock ep) Q s ↔ Q () (upd_epoll ep (with_locked false x) s)).
Proof. intros Hx. unfold ep_unlock. by rewrite wp_bind, (wp_epoll_at ep x), wp_epoll_set by done. Qed.
Lemma wp_teardown_lock (Q : () → est D → Prop) s : teardown s = false → (wp teardown_lock Q s ↔ Q () (set_teardown true s)).
Proof. intros Ht. unfold teardown_lock. rewrite wp_bind, wp_get, Ht. by rewrite wp_modify. Qed.
Lemma inv_teardown s g b : epoll_inv s g → epoll_inv (set_teardown b s) g.
Proof. intros [I1 I2 I3 I4 I5 I6]. split; try done. intros ep x Hx. by destruct (I1 ep x Hx); split. Qed.

(** ** Removing *)

Definition drop_ready (e : Z) x : list Z := default (ready x) (q_remove e (ready x)).
Lemma drop_ready_elem e x y : NoDup (ready x) → NoDup (drop_ready e x) ∧ (y ∈ drop_ready e x ↔ y ∈ ready x ∧ y ≠ e).
Proof.
  intros Hnd. unfold drop_ready. destruct (q_remove e (ready x)) as [q|] eqn:Hq; simpl.
  - destruct (q_remove_nodup e _ _ Hnd Hq) as [? Hel]. by rewrite Hel.
  - apply q_remove_None in Hq. split; [done|]. split; [intros Hy; split; [done|by intros ->]|by intros [? _]].
Qed.
Definition deleted_state (e : Z) p f (fw : list Z) x (w : list Z) (l : list Z) s : est D :=
  Est (delete e (polls s)) (<[owner p := Epoll (locked x) w (drop_ready e x) (signalled x)]> (epolls s))
    (<[efile p := with_epoll_watches fw f]> (files s)) (Ps (<[head_of (fvnode f) := l]> (heads (dst s))) (dev (dst s))) (teardown s).
Lemma deleted_inv s g e p f fw x w l l' : epoll_inv s g → polls s !! e = Some p → adding g !! e = None → files s !! efile p = Some f → epolls s !! owner p = Some x →
  heads (dst s) !! head_of (fvnode f) = Some l → q_remove e l = Some l' → q_remove e (epoll_watches f) = Some fw → q_remove e (watches x) = Some w →
  epoll_inv (deleted_state e p f fw x w l' s) g.
Proof.
  intros [I1 I2 I3 I4 I5 I6] Hp Ha Hf Hx Hl Hl' Hfw Hw. set (f1 := with_epoll_watches fw f).
  assert (∀ o f', <[efile p := f1]> (files s) !! o = Some f' → ∃ f0, files s !! o = Some f0 ∧ fvnode f' = fvnode f0 ∧ (o = efile p ∧ f' = f1 ∨ o ≠ efile p ∧ f' = f0)) as Hcase.
  { intros o f'. destruct (decide (o = efile p)) as [->|?]; [rewrite lookup_insert_eq; intros [= <-]; exists f; split_and!; [done|done|by left]|rewrite lookup_insert_ne by done; intros Hn; exists f'; split_and!; [done|done|by right]]. }
  assert (∀ o f0, files s !! o = Some f0 → ∃ f', <[efile p := f1]> (files s) !! o = Some f' ∧ fvnode f' = fvnode f0) as Hback.
  { intros o f0 Hf0. destruct (decide (o = efile p)) as [->|?]; [rewrite lookup_insert_eq; exists f1; split; [done|]; unfold f1; simpl; congruence|rewrite lookup_insert_ne by done; by exists f0]. }
  assert (∀ e' p', delete e (polls s) !! e' = Some p' ↔ polls s !! e' = Some p' ∧ e' ≠ e) as Hpo.
  { intros e' p'. rewrite lookup_delete_Some. naive_solver. }
  split; cbn [polls epolls files dst heads dev teardown deleted_state]; fold f1.
  - intros ep y. destruct (decide (ep = owner p)) as [->|Hne]; [rewrite lookup_insert_eq; intros [= <-]|rewrite lookup_insert_ne by done; intros Hy].
    + destruct (I1 _ x Hx) as [W1 W2 W3 W4 W5]. destruct (q_remove_nodup e _ _ W1 Hw) as [Hnd Hel]. split; cbn [watches ready signalled polls deleted_state]; [done|by apply (drop_ready_elem e x 0)| | |].
      * intros Hne. apply W3. intros Hr. destruct Hne. unfold drop_ready. by rewrite Hr.
      * intros e'. rewrite Hel, W4. setoid_rewrite Hpo. naive_solver.
      * intros e' [Hin Hne]%drop_ready_elem; [|done]. rewrite Hel. destruct (W5 e' Hin). done.
    + destruct (I1 ep y Hy) as [W1 W2 W3 W4 W5]. split; try done. intros e'. rewrite W4. cbn [polls deleted_state]. setoid_rewrite Hpo. split; [|naive_solver].
      intros (p' & Hp' & Ho). exists p'. split_and!; [done|intros ->; congruence|done].
  - intros e' p' [Hp' Hne]%Hpo. destruct (I2 e' p' Hp') as (Ho & f0 & Hf0 & Hc & Hh). split.
    + destruct (decide (owner p' = owner p)) as [->|?]; [rewrite lookup_insert_eq; eauto|by rewrite lookup_insert_ne].
    + destruct (Hback _ _ Hf0) as (f' & Hf' & Hv). exists f'. rewrite Hv. split_and!; [done..|].
      destruct (decide (head_of (fvnode f0) = head_of (fvnode f))) as [->|?]; [rewrite lookup_insert_eq; eauto|by rewrite lookup_insert_ne].
  - intros o f' Hf'. setoid_rewrite Hpo. destruct (Hcase o f' Hf') as (f0 & Hf0 & _ & [(-> & ->)|(Hne & ->)]).
    + destruct (I3 _ f Hf) as [Hnd Hel]. destruct (q_remove_nodup e _ _ Hnd Hfw) as [Hnd' Hel']. split; [done|]. intros e'. cbn [epoll_watches f1 with_epoll_watches]. rewrite Hel', Hel. naive_solver.
    + destruct (I3 o f0 Hf0) as [Hnd Hel]. split; [done|]. intros e'. rewrite Hel. split; [|naive_solver]. intros [(p' & Hp' & Ho) Hn]. split; [|done]. exists p'. split_and!; [done|intros ->; congruence|done].
  - intros h q. setoid_rewrite Hpo.
    assert (∀ e', (∃ p' f', (polls s !! e' = Some p' ∧ e' ≠ e) ∧ <[efile p := f1]> (files s) !! efile p' = Some f' ∧ head_of (fvnode f') = h) ↔
      (∃ p' f', polls s !! e' = Some p' ∧ files s !! efile p' = Some f' ∧ head_of (fvnode f') = h) ∧ e' ≠ e) as Hiff.
    { intros e'. split.
      - intros (p' & f' & [Hp' Hn] & Hf' & Hh). destruct (Hcase _ _ Hf') as (f0 & Hf0 & Hv & _). split; [|done]. exists p', f0. by rewrite <- Hv.
      - intros [(p' & f0 & Hp' & Hf0 & Hh) Hn]. destruct (Hback _ _ Hf0) as (f' & Hf' & Hv). exists p', f'. by rewrite Hv. }
    setoid_rewrite Hiff. destruct (decide (h = head_of (fvnode f))) as [->|Hne]; [rewrite lookup_insert_eq; intros [= <-]|rewrite lookup_insert_ne by done; intros Hq].
    + destruct (I4 _ l Hl) as [Hnd Hel]. destruct (q_remove_nodup e _ _ Hnd Hl') as [Hnd' Hel']. split; [done|]. intros e'. rewrite Hel', Hel. tauto.
    + destruct (I4 h q Hq) as [Hnd Hel]. split; [done|]. intros e'. rewrite Hel. split; [|tauto]. intros [(p' & f0 & Hp' & Hf0 & Hh) Hn]. split; [|done]. split; [eauto|]. intros ->. destruct Hne. congruence.
  - intros e' ph Hph. destruct (I5 e' ph Hph) as [p' Hp']. exists p'. apply Hpo. split; [done|congruence].
  - intros e' p' f' y [Hp' Hne]%Hpo Hf' Hy Hc. destruct (Hcase _ _ Hf') as (f0 & Hf0 & Hv & _). unfold excused. rewrite Hv in *. destruct (decide (owner p' = owner p)) as [He|?].
    + rewrite He, lookup_insert_eq in Hy. injection Hy as <-. rewrite <- He in Hx. destruct (I6 e' p' f0 x Hp' Hf0 Hx Hc) as [Hin|]; [|by right]. left. cbn [ready].
      rewrite He in Hx. destruct (I1 _ x Hx) as [_ W2 _ _ _]. by apply drop_ready_elem.
    + rewrite lookup_insert_ne in Hy by done. by apply (I6 e' p' f0 y).
Qed.
Lemma wp_watch_del s g e p : epoll_inv s g → polls s !! e = Some p → adding g !! e = None →
  wp (watch_del (owner p) e) (λ _ s', epoll_inv s' g ∧ ∃ f fw x w l, files s !! efile p = Some f ∧ q_remove e (epoll_watches f) = Some fw ∧ epolls s !! owner p = Some x ∧
    q_remove e (watches x) = Some w ∧ s' = deleted_state e p f fw x w l s) s.
Proof.
  intros Hi Hp Ha. destruct (i_entry _ _ Hi e p Hp) as ([x Hx] & f & Hf & [op Hop] & l & Hl). destruct (i_epoll _ _ Hi _ x Hx) as [W1 W2 W3 W4 W5].
  destruct (q_remove_elem e (watches x)) as [w Hw]; [apply W4; eauto|]. destruct (q_remove_elem e (epoll_watches f)) as [fw Hfw]; [apply (i_file _ _ Hi _ f Hf); eauto|].
  destruct (q_remove_elem e l) as [l' Hl']; [apply (i_head _ _ Hi _ l Hl); split; [eauto|congruence]|].
  unfold watch_del. rewrite wp_bind, (wp_entry_at e p) by done. rewrite wp_bind. unfold call_chpoll, in_dev. rewrite wp_bind, (wp_file_at _ f), wp_bind, Hop, wp_deref_Some, wp_zoom by done.
  rewrite (wp_ext _ _ _ _ (poll_remove _ op e (dst s) Hop)), wp_bind. unfold pollhead_unregister, head_set. rewrite wp_bind, (wp_head_at _ l), wp_bind, Hl', wp_deref_Some, wp_modify, wp_ret by done.
  rewrite wp_bind, (wp_file_at _ f), wp_bind, Hfw, wp_deref_Some, wp_bind by done. unfold file_set. rewrite wp_modify, wp_bind, (wp_epoll_at _ x), wp_bind, wp_epoll_set by done.
  rewrite wp_bind. erewrite wp_epoll_at by apply lookup_insert_eq. cbn [watches with_ready]. rewrite wp_bind, Hw, wp_deref_Some, wp_bind, wp_epoll_set, wp_modify.
  match goal with |- _ ?st _ ∧ _ => assert (st = deleted_state e p f fw x w l' s) as -> end.
  { unfold deleted_state, upd_epoll, set_polls, set_epolls, set_files, set_dst. cbn [polls epolls files dst heads dev teardown]. by rewrite insert_insert_eq. }
  split; [by apply (deleted_inv s g e p f fw x w l l')|]. by exists f, fw, x, w, l'.
Qed.
Lemma q_remove_head (e : Z) l : q_remove e (e :: l) = Some l.
Proof. by apply (q_remove_mid e [] l), not_elem_of_nil. Qed.

(** The entries that are left are those with [K]; devices and mutexes are as before. *)
Record leaves (K : poll_entry → Prop) s s' : Prop := Leaves {
  l_polls e p : polls s' !! e = Some p ↔ polls s !! e = Some p ∧ K p;
  l_dev : dev (dst s') = dev (dst s);
  l_locks ep x' : epolls s' !! ep = Some x' → ∃ x, epolls s !! ep = Some x ∧ locked x' = locked x
}.
Lemma deleted_leaves (K : poll_entry → Prop) s s' e p f fw x w l : polls s !! e = Some p → epolls s !! owner p = Some x → ¬ K p →
  leaves K (deleted_state e p f fw x w l s) s' → leaves K s s'.
Proof.
  intros Hp Hx HK [L1 L2 L3]. split; [|done|].
  - intros e' p'. rewrite L1. cbn [polls deleted_state]. rewrite lookup_delete_Some. split; [tauto|]. intros [Hp' HK']. split_and!; [|done..]. intros <-. congruence.
  - intros ep x' Hx'. destruct (L3 ep x' Hx') as (y & Hy & Hl). cbn [epolls deleted_state] in Hy. destruct (decide (ep = owner p)) as [->|?].
    + rewrite lookup_insert_eq in Hy. injection Hy as <-. eauto.
    + rewrite lookup_insert_ne in Hy by done. eauto.
Qed.

Lemma wp_delete_loop ep l : ∀ s x, epoll_inv s quiet → epolls s !! ep = Some x → watches x = l →
  wp (delete_loop ep l) (λ _ s', epoll_inv s' quiet ∧ teardown s' = teardown s ∧ leaves (λ p, owner p ≠ ep) s s' ∧ ∃ x', epolls s' !! ep = Some x' ∧ watches x' = []) s.
Proof.
  induction l as [|e l IH]; intros s x Hi Hx Hl; simpl.
  - apply wp_ret. split_and!; [done|done| |eauto]. split; [|done|eauto]. intros e p. split; [|tauto]. intros Hp. split; [done|]. intros Ho.
    assert (e ∈ watches x) as Hin by (apply (w_watch _ _ _ _ (i_epoll _ _ Hi ep x Hx)); eauto). rewrite Hl in Hin. by apply not_elem_of_nil in Hin.
  - destruct (proj1 (w_watch _ _ _ _ (i_epoll _ _ Hi ep x Hx) e)) as (p & Hp & Ho); [rewrite Hl; left|]. rewrite wp_bind. rewrite <- Ho.
    eapply wp_mono; [by apply (wp_watch_del s quiet e p)|]. intros _ s1 (Hi1 & f & fw & y & w & l' & Hf & Hfw & Hy & Hw & ->).
    rewrite Ho in Hy. assert (y = x) as -> by congruence. rewrite Hl, q_remove_head in Hw. injection Hw as <-. rewrite Ho. eapply wp_mono; [apply (IH _ (Epoll (locked x) l (drop_ready e x) (signalled x))); [done| |done]|].
    { simpl. by rewrite Ho, lookup_insert_eq. }
    intros _ s2 (Hi2 & Ht & HL & Hend). split_and!; [done|done| |done]. eapply (deleted_leaves _ s s2 e p); [done|by rewrite Ho| |exact HL]. tauto.
Qed.
Lemma wp_epoll_delete s ep x : epoll_inv s quiet → epolls s !! ep = Some x → teardown s = false →
  wp (epoll_delete ep) (λ _ s', epoll_inv s' quiet ∧ teardown s' = false ∧ leaves (λ p, owner p ≠ ep) s s' ∧ ∃ x', epolls s' !! ep = Some x' ∧ watches x' = []) s.
Proof.
  intros Hi Hx Ht. unfold epoll_delete. rewrite wp_bind, wp_teardown_lock, wp_bind, (wp_epoll_at ep x), wp_bind by done.
  eapply wp_mono; [apply (wp_delete_loop ep (watches x) _ x); [by apply inv_teardown|done|done]|]. intros _ s' (Hi' & _ & [L1 L2 L3] & Hend). unfold teardown_unlock. rewrite wp_modify.
  split_and!; [by apply inv_teardown|done|by split|done].
Qed.

Lemma wp_close_loop o n : ∀ s f, epoll_inv s quiet → files s !! o = Some f → length (epoll_watches f) = n → (∀ ep x, epolls s !! ep = Some x → locked x = false) →
  wp (close_loop n o) (λ _ s', epoll_inv s' quiet ∧ teardown s' = teardown s ∧ leaves (λ p, efile p ≠ o) s s' ∧ ∃ f', files s' !! o = Some f' ∧ epoll_watches f' = []) s.
Proof.
  induction n as [|n IH]; intros s f Hi Hf Hn Hlk; cbn [close_loop]; rewrite wp_bind, (wp_file_at o f) by done; destruct (epoll_watches f) as [|e l] eqn:Hl; try done.
  - apply wp_ret. split_and!; [done|done| |eauto]. split; [|done|eauto]. intros e p. split; [|tauto]. intros Hp. split; [done|]. intros Ho.
    assert (e ∈ epoll_watches f) as Hin by (apply (i_file _ _ Hi o f Hf); eauto). rewrite Hl in Hin. by apply not_elem_of_nil in Hin.
  - destruct (proj1 (proj2 (i_file _ _ Hi o f Hf) e)) as [(p & Hp & Ho) _]; [rewrite Hl; left|]. destruct (i_entry _ _ Hi e p Hp) as [[x Hx] _].
    rewrite wp_bind, (wp_entry_at e p) by done. rewrite wp_bind, (wp_ep_lock _ x) by eauto. rewrite wp_bind.
    eapply wp_mono; [apply (wp_watch_del _ quiet e p); [by apply inv_locked|done|done]|]. intros _ s1 (Hi1 & f1 & fw & y & w & l' & Hf1 & Hfw & Hy & Hw & ->).
    cbn [files upd_epoll set_epolls] in Hf1. assert (f1 = f) as -> by congruence. rewrite Hl, q_remove_head in Hfw. injection Hfw as <-.
    cbn [epolls upd_epoll set_epolls] in Hy. rewrite lookup_insert_eq in Hy. injection Hy as <-.
    rewrite wp_bind. erewrite wp_ep_unlock by apply lookup_insert_eq. eapply wp_mono; [apply (IH _ (with_epoll_watches l f))|].
    + apply inv_locked; [done|]. apply lookup_insert_eq.
    + simpl. by rewrite Ho, lookup_insert_eq.
    + simpl in *. lia.
    + intros ep z. simpl. rewrite !insert_insert_eq. destruct (decide (ep = owner p)) as [->|?]; [rewrite lookup_insert_eq; by intros [= <-]|rewrite lookup_insert_ne by done; eauto].
    + intros _ s2 (Hi2 & Ht & [L1 L2 L3] & Hend). split_and!; [done|done| |done]. split; [|done|].
      * intros e' p'. rewrite L1. cbn [polls upd_epoll set_epolls deleted_state]. rewrite lookup_delete_Some. split; [tauto|]. intros [? ?]. split_and!; [|done..]. intros <-. congruence.
      * intros ep z Hz. destruct (L3 ep z Hz) as (z' & Hz' & Hlz). cbn [epolls upd_epoll set_epolls deleted_state] in Hz'. rewrite !insert_insert_eq in Hz'.
        destruct (decide (ep = owner p)) as [->|?]; [rewrite lookup_insert_eq in Hz'; injection Hz' as <-; exists x; split; [done|]; rewrite Hlz; symmetry; eauto|].
        rewrite lookup_insert_ne in Hz' by done. eauto.
Qed.
(** Every watch of the file is gone, and the teardown mutex stays taken. *)
Lemma wp_did_close s o f : epoll_inv s quiet → files s !! o = Some f → teardown s = false → (∀ ep x, epolls s !! ep = Some x → locked x = false) →
  wp (poll_watched_file_did_close o) (λ _ s', epoll_inv s' quiet ∧ teardown s' = true ∧ leaves (λ p, efile p ≠ o) s s' ∧ ∃ f', files s' !! o = Some f' ∧ epoll_watches f' = []) s.
Proof.
  intros Hi Hf Ht Hlk. unfold poll_watched_file_did_close. rewrite wp_bind, wp_teardown_lock, wp_bind, (wp_file_at o f) by done.
  eapply wp_mono; [apply (wp_close_loop o _ _ f); [by apply inv_teardown|done..]|]. intros _ s' (Hi' & Ht' & [L1 L2 L3] & Hend). by split_and!.
Qed.

(** ** Adding, as a whole *)

Lemma wp_watched_already l o d s : (∀ e, e ∈ l → is_Some (polls s !! e)) →
  wp (watched_already l o d) (λ b s', s' = s ∧ (b = true ↔ ∃ e p, e ∈ l ∧ polls s !! e = Some p ∧ efile p = o ∧ desc p = d)) s.
Proof.
  induction l as [|e l IH]; intros Hl; simpl; [apply wp_ret; split; [done|]; split; [done|set_solver]|]. destruct (Hl e) as [p Hp]; [left|]. rewrite wp_bind, (wp_entry_at e p) by done.
  destruct ((efile p =? o) && (desc p =? d)) eqn:Hb.
  - apply andb_true_iff in Hb as [Hb1%Z.eqb_eq Hb2%Z.eqb_eq]. apply wp_ret. split; [done|]. split; [|done]. intros _. exists e, p. split_and!; [left|done..].
  - eapply wp_mono; [apply IH; set_solver|]. intros b s' [-> Hiff]. split; [done|]. rewrite Hiff. split; [set_solver|]. intros (e' & p' & [->|Hin]%elem_of_cons & Hp' & Ho & Hd); [|eauto 6].
    replace p' with p in * by congruence. subst o d. by rewrite !Z.eqb_refl in Hb.
Qed.
Lemma unset_set_adding e g ph1 ph2 ph3 ph4 : adding g !! e = None → unset_adding e (set_adding e ph1 (set_adding e ph2 (set_adding e ph3 (set_adding e ph4 g)))) = g.
Proof. intros Ha. destruct g as [o a]. unfold unset_adding, set_adding. simpl in *. by rewrite !insert_insert_eq, delete_insert_id. Qed.
Lemma wp_bind_assoc3 {S A B} (m1 m3 m4 : kern S ()) (m2 : kern S A) (f : A → kern S ()) (k : kern S B) (Q : B → S → Prop) (s : S) :
  wp ((m1;; r ← m2; f r;; m3);; m4;; k) Q s ↔ wp (m1;; r ← m2; f r;; m3;; m4;; k) Q s.
Proof.
  unfold wp, mbind, kern_bind. destruct (m1 s) as [[[] s1]| |]; [|done..]. destruct (m2 s1) as [[a s2]| |]; [|done..]. by destruct (f a s2) as [[[] s3]| |].
Qed.
(** The four steps of a new watch. *)
Lemma wp_watch_new s ep x d o f ev e : epoll_inv s quiet → epolls s !! ep = Some x → watchable s o f → polls s !! e = None →
  wp (watch_link ep d o ev e;; r ← watch_register o e; watch_publish e ev r;; watch_file o e)
    (λ _ s', epoll_inv s' quiet ∧ polls s' = <[e := Entry ep d o ev]> (polls s) ∧ dev (dst s') = dev (dst s) ∧ teardown s' = teardown s ∧
      ∃ x', epolls s' !! ep = Some x' ∧ locked x' = locked x) s.
Proof.
  intros Hi Hx Hwt Hn. pose proof Hwt as (Hf & Hch & l & Hl). set (p := Entry ep d o ev). pose proof (linked_inv ep d o ev e x f s quiet Hi Hn Hx Hwt) as Hi1.
  set (s1 := linked_state ep d o ev e x s) in *. assert (polls s1 !! e = Some p) as Hp1 by apply lookup_insert_eq.
  rewrite wp_bind, (wp_watch_link _ _ _ _ _ x) by done. fold s1. rewrite wp_bind, (wp_watch_register s1 o f e l) by done.
  pose proof (registered_inv s1 _ e p f l Hi1 Hp1 Hf Hl ltac:(apply lookup_insert_eq)) as Hi2. set (s2 := registered_state (head_of (fvnode f)) e l s1) in *.
  pose proof (sampled_inv s2 _ e p f Hi2 Hp1 Hf ltac:(apply lookup_insert_eq)) as Hi3. rewrite wp_bind. eapply wp_mono; [apply (wp_watch_publish s2 _ e p _ Hi3 Hp1), lookup_insert_eq|].
  intros _ s3 [Hi4 Hr]. assert (files s3 !! o = Some f) as Hf3 by (by rewrite (r_files _ _ Hr)). assert (polls s3 !! e = Some p) as Hp3 by (by rewrite (r_polls _ _ Hr)).
  unfold watch_file, file_set. rewrite wp_bind, (wp_file_at o f), wp_modify by done. pose proof (filed_inv s3 _ e p f Hi4 Hp3 Hf3 ltac:(apply lookup_insert_eq)) as Hi5.
  rewrite unset_set_adding in Hi5 by done. split_and!; [done|simpl; by rewrite (r_polls _ _ Hr)|simpl; by rewrite (r_dst _ _ Hr)|simpl; by rewrite (r_teardown _ _ Hr)|].
  destruct (r_epolls _ _ Hr ep (with_watches (e :: watches x) x)) as (x' & Hx' & _ & Hlk & _); [apply lookup_insert_eq|]. by exists x'.
Qed.
(** [watch_add], when the event can be copied and memory is there: the descriptor and file
    are watched already, or the new entry is. *)
Lemma wp_watch_add s ep x d o f ev e : epoll_inv s quiet → epolls s !! ep = Some x → locked x = false → watchable s o f → polls s !! e = None →
  wp (watch_add ep d o (Some ev) (Some e)) (λ r s', epoll_inv s' quiet ∧
    let dup := ∃ e' p', polls s !! e' = Some p' ∧ owner p' = ep ∧ efile p' = o ∧ desc p' = d in
    (dup ∧ r = Err EEXIST ∧ s' = s ∨
     ¬ dup ∧ r = Val 0 ∧ polls s' = <[e := Entry ep d o ev]> (polls s) ∧ dev (dst s') = dev (dst s) ∧ teardown s' = teardown s ∧ ∃ x', epolls s' !! ep = Some x' ∧ locked x' = false)) s.
Proof.
  intros Hi Hx Hlk Hwt Hn. pose proof (inv_locked s quiet ep x true Hi Hx) as Hi1. destruct (i_epoll _ _ Hi ep x Hx) as [W1 W2 W3 W4 W5]. set (s1 := upd_epoll ep (with_locked true x) s) in *.
  assert (epolls s1 !! ep = Some (with_locked true x)) as Hx1 by apply lookup_insert_eq. unfold watch_add. rewrite wp_bind, (wp_ep_lock ep x) by done. fold s1. rewrite wp_bind, (wp_epoll_at ep (with_locked true x)), wp_bind by done.
  eapply wp_mono; [apply wp_watched_already|]. { intros e' (p' & Hp' & _)%W4. eauto. }
  intros b s2 [-> Hb]. cbn [watches with_locked] in Hb. assert (b = true ↔ ∃ e' p', polls s !! e' = Some p' ∧ owner p' = ep ∧ efile p' = o ∧ desc p' = d) as Hdup.
  { rewrite Hb. split; [intros (e' & p' & (p0 & ? & ?)%W4 & Hp' & ? & ?); exists e', p'; replace p' with p0 in * by (cbn in *; congruence); done|].
    intros (e' & p' & ? & ? & ? & ?). exists e', p'. split_and!; [apply W4; eauto|done..]. }
  destruct b; cbn beta iota.
  - rewrite wp_bind, (wp_ep_unlock ep (with_locked true x)), wp_ret by done. assert (upd_epoll ep (with_locked false (with_locked true x)) s1 = s) as ->.
    { unfold s1, upd_epoll, set_epolls. destruct x, s. cbn in *. subst. by rewrite insert_insert_eq, insert_id. }
    split; [done|]. left. split_and!; [by apply Hdup|done..].
  - rewrite <- wp_bind_assoc3. rewrite wp_bind. eapply wp_mono; [by apply (wp_watch_new s1 ep (with_locked true x) d o f ev e)|]. intros [] s2 (Hi2 & Hp2 & Hd2 & Ht2 & y & Hy & Hly).
    rewrite wp_bind, (wp_ep_unlock ep y), wp_ret by done. split; [by apply inv_locked|]. right. split_and!; [by intros ?%Hdup|done..|]. exists (with_locked false y). split; [apply lookup_insert_eq|done].
Qed.
End del.
