(* ===== verification/Kconsole.v ===== *)
(** The kernel console: kernel/executive/kconsole.c.  Its input is a ring of 4096
    characters; the ring is shown to be a bounded queue, and the console to keep the
    contract of pollable devices. *)
From S2P Require Import Prelude Objman Objtab Epoll EpollInv.
Import Epoll.
Local Open Scope Z_scope.

Module Kconsole.

Definition BUFSZ : Z := 4096.
(** [printed]: the characters given to [kputc], the last one first. *)
Record console := Con { in_buf : list Z; in_buf_len : Z; in_read_head : Z; in_write_head : Z; printed : list Z }.
Inductive errno := EAGAIN | ENOMEM | EFAULT | ESPIPE | EINVAL.
(** An [io_result_t]: the error it carries and whether it is negated as the others are,
    or a count with what was read. *)
Inductive io_result := Done (count : Z) (bytes : list Z) | Failed (e : errno) (negated : bool).
(** A character of the buffer, as a byte. *)
Definition char (c : Z) : Z := c mod 256.
Definition wrap (i : Z) : Z := if i =? BUFSZ then 0 else i.

Definition kputc (c : Z) : kern console () := modify (λ s, Con (in_buf s) (in_buf_len s) (in_read_head s) (in_write_head s) (char c :: printed s)).
(** The part of [ex_console_input] under the console lock: whether there was room. *)
Definition input_char (c : Z) : kern console bool :=
  s ← get;
  if in_buf_len s =? BUFSZ then mret false
  else
    _ ← deref "in_buf" (in_buf s !! Z.to_nat (in_write_head s));
    put (Con (<[Z.to_nat (in_write_head s) := char c]> (in_buf s)) (in_buf_len s + 1) (in_read_head s) (wrap (in_write_head s + 1)) (printed s));;
    mret true.
Definition take_char : kern console Z :=
  s ← get;
  c ← deref "in_buf" (in_buf s !! Z.to_nat (in_read_head s));
  put (Con (in_buf s) (in_buf_len s - 1) (wrap (in_read_head s + 1)) (in_write_head s) (printed s));;
  mret c.
Fixpoint read_loop (n : nat) (bytes : list Z) : kern console (list Z) :=
  match n with
  | O => mret bytes
  | S n' => s ← get; if in_buf_len s =? 0 then mret bytes else c ← take_char; read_loop n' (bytes ++ [c])
  end.
Definition console_read (size : Z) : kern console io_result :=
  s ← get;
  if in_buf_len s =? 0 then mret (Failed EAGAIN true)
  else bytes ← read_loop (Z.to_nat size) []; mret (Done (Z.of_nat (length bytes)) bytes).
Fixpoint write_loop (bytes : list Z) : kern console () :=
  match bytes with [] => mret () | c :: bytes => kputc c;; write_loop bytes end.
(** [mem]: the buffer could be allocated; [ubuf]: the bytes copied from user space, if
    that succeeds.  The result of a failed copy is negated once more. *)
Definition console_write (mem : bool) (ubuf : option (list Z)) : kern console io_result :=
  if negb mem then mret (Failed ENOMEM true)
  else
    match ubuf with
    | None => mret (Failed EFAULT false)
    | Some bytes => write_loop bytes;; mret (Done (Z.of_nat (length bytes)) [])
    end.
Definition console_seek : io_result := Failed ESPIPE true.
Inductive ioctl_cmd := TIOCGWINSZ | OtherCmd.
Definition console_ioctl (cmd : ioctl_cmd) : io_result := match cmd with TIOCGWINSZ => Done 0 [] | OtherCmd => Failed EINVAL true end.
Definition fresh_console (junk : list Z) : console := Con junk 0 0 0 [].

(** ** Polling *)

Section poll.
Context `{EpollBits} (kconsole_vnode console_pollhead : Z).

Definition in_console {A} (m : kern console A) : kern (pollstate console) A := zoom dev (λ d s, Ps (heads s) d) m.
Definition console_events (c : console) : Z := Z.lor EPOLLOUT (if in_buf_len c =? 0 then 0 else EPOLLIN).
Definition console_chpoll (pe : option Z) (mode : chpoll_mode) : kern (pollstate console) Z :=
  match mode, pe with
  | kChpollPoll, Some pe => pollhead_register console_pollhead pe;; gets (λ s, console_events (dev s))
  | kChpollRemove, _ => pe ← deref "poll != NULL" pe; pollhead_unregister console_pollhead pe;; mret 0
  | kChpollPoll, None => gets (λ s, console_events (dev s))
  end.
(** The one device there is; it has no [inactive] operation. *)
#[local] Instance console_vnops : PollDev console := {
  chpoll v := if v =? kconsole_vnode then Some console_chpoll else None;
  inactive _ := None
}.
Definition ex_console_input (c : Z) : kern (est console) () :=
  b ← in_dev (in_console (input_char c));
  when b (in_dev (in_console (kputc c));; pollhead_deliver_events console_pollhead EPOLLIN).
Definition ex_console_init : kern (est console) () := in_dev (pollhead_init console_pollhead).

(** A file for the console; its vnode is not retained. *)
Definition ex_console_open (file_class o : Z) (junk : Z * bool) : kern (sst console) ret :=
  ex_file_new file_class o junk;;
  in_poll (file_set o (WFile kconsole_vnode false []));;
  num ← in_tables (Objtab.Objtab.ex_object_space_reserve false);
  if num =? -1 then ex_file_free o;; mret (Err EMFILE)
  else in_tables (Objtab.Objtab.ex_object_space_reserved_insert num o);; mret (Val num).

#[local, refine] Instance console_laws : PollLaws console := {
  level c _ := console_events c;
  head_of _ := console_pollhead;
  poll_register := _; poll_peek := _; poll_remove := _
}.
Proof.
  - intros v op e s. cbn [chpoll console_vnops]. destruct (v =? kconsole_vnode); [|done]. by intros [= <-].
  - intros v op s. cbn [chpoll console_vnops]. destruct (v =? kconsole_vnode); [|done]. by intros [= <-].
  - intros v op e s. cbn [chpoll console_vnops]. destruct (v =? kconsole_vnode); [|done]. by intros [= <-].
Defined.
End poll.
End Kconsole.
Import Kconsole.

(** ** The ring holds a queue *)

Record ring (c : console) (q : list Z) : Prop := Ring {
  k_size : length (in_buf c) = 4096%nat;
  k_len : in_buf_len c = Z.of_nat (length q);
  k_max : (length q ≤ 4096)%nat;
  k_read : 0 ≤ in_read_head c < BUFSZ;
  k_write : in_write_head c = (in_read_head c + in_buf_len c) mod BUFSZ;
  k_at i a : q !! i = Some a → in_buf c !! Z.to_nat ((in_read_head c + Z.of_nat i) mod BUFSZ) = Some a
}.

Lemma wrap_mod i : 0 ≤ i < BUFSZ → wrap (i + 1) = (i + 1) mod BUFSZ.
Proof.
  unfold wrap, BUFSZ. intros Hi. destruct (Z.eqb_spec (i + 1) 4096) as [->|]; [done|]. symmetry. apply Z.mod_small. lia.
Qed.
Lemma ring_fresh junk : length junk = 4096%nat → ring (fresh_console junk) [].
Proof. intros Hj. split; try done; cbn; lia. Qed.
Lemma ring_slots r i j : 0 ≤ r < BUFSZ → 0 ≤ i < BUFSZ → 0 ≤ j < BUFSZ → i ≠ j → Z.to_nat ((r + i) mod BUFSZ) ≠ Z.to_nat ((r + j) mod BUFSZ).
Proof.
  unfold BUFSZ. intros Hr Hi Hj Hne Heq. pose proof (Z.mod_pos_bound (r + i) 4096). pose proof (Z.mod_pos_bound (r + j) 4096).
  assert ((r + i) mod 4096 = (r + j) mod 4096) as Hm by lia. pose proof (Z.div_mod (r + i) 4096). pose proof (Z.div_mod (r + j) 4096). nia.
Qed.
(** Input goes to the end of the queue; when the queue is full it is dropped. *)
Lemma wp_input_char c q ch : ring c q →
  wp (input_char ch) (λ b c', b = bool_decide (length q < 4096)%nat ∧ ring c' (if b then q ++ [char ch] else q) ∧ printed c' = printed c ∧ (b = false → c' = c)) c.
Proof.
  intros [K1 K2 K3 K4 K5 K6]. unfold input_char. rewrite wp_bind, wp_get. destruct (Z.eqb_spec (in_buf_len c) BUFSZ) as [Hf|Hf].
  { apply wp_ret. unfold BUFSZ in *. rewrite bool_decide_false by lia. done. }
  assert (length q < 4096)%nat as Hlt by (unfold BUFSZ in *; lia). rewrite bool_decide_true by done.
  assert (0 ≤ in_write_head c < BUFSZ) as Hw by (rewrite K5; apply Z.mod_pos_bound; done).
  destruct (lookup_lt_is_Some_2 (in_buf c) (Z.to_nat (in_write_head c))) as [old Hold]; [unfold BUFSZ in *; lia|].
  rewrite wp_bind, Hold, wp_deref_Some, wp_bind, wp_put, wp_ret. split; [done|]. split; [|done]. split; cbn [in_buf in_buf_len in_read_head in_write_head].
  - by rewrite length_insert.
  - rewrite length_app. simpl. lia.
  - rewrite length_app. simpl. lia.
  - done.
  - rewrite wrap_mod by done. rewrite K5. unfold BUFSZ. rewrite Zplus_mod_idemp_l. f_equal. lia.
  - intros i a [Hi|[Hi Ha]]%lookup_app_Some.
    + pose proof (lookup_lt_Some _ _ _ Hi). rewrite list_lookup_insert_ne; [by apply K6|]. rewrite K5. apply ring_slots; unfold BUFSZ in *; lia.
    + apply list_lookup_singleton_Some in Ha as [Hz <-]. replace (Z.of_nat i) with (in_buf_len c) by lia. rewrite <- K5. apply list_lookup_insert_eq. unfold BUFSZ in *. lia.
Qed.
Lemma wp_take_char c a q : ring c (a :: q) → wp take_char (λ r c', r = a ∧ ring c' q ∧ printed c' = printed c) c.
Proof.
  intros [K1 K2 K3 K4 K5 K6]. pose proof (K6 O a eq_refl) as Ha. rewrite Z.add_0_r, Z.mod_small in Ha by done. unfold take_char. rewrite wp_bind, wp_get, wp_bind, Ha, wp_deref_Some, wp_bind, wp_put, wp_ret.
  split; [done|]. split; [|done]. assert (wrap (in_read_head c + 1) = (in_read_head c + 1) mod BUFSZ) as Hr by by apply wrap_mod. cbn [length] in *. split; cbn [in_buf in_buf_len in_read_head in_write_head]; rewrite ?Hr; try done; try lia.
  - by apply Z.mod_pos_bound.
  - rewrite K5, Zplus_mod_idemp_l. f_equal. lia.
  - intros i b Hi. rewrite Zplus_mod_idemp_l. rewrite <- (K6 (S i) b Hi). do 3 f_equal. lia.
Qed.
Lemma wp_read_loop n : ∀ c q bytes, ring c q →
  wp (read_loop n bytes) (λ r c', r = bytes ++ take n q ∧ ring c' (drop n q) ∧ printed c' = printed c) c.
Proof.
  induction n as [|n IH]; intros c q bytes Hr; cbn [read_loop]; [apply wp_ret; simpl; by rewrite app_nil_r|]. rewrite wp_bind, wp_get. destruct q as [|a q].
  - rewrite (k_len _ _ Hr). simpl. apply wp_ret. by rewrite app_nil_r.
  - rewrite (k_len _ _ Hr), (proj2 (Z.eqb_neq _ 0)) by (simpl; lia). rewrite wp_bind. eapply wp_mono; [by apply wp_take_char|]. intros r c1 (-> & Hr1 & Hp).
    eapply wp_mono; [by apply IH|]. intros r c2 (-> & Hr2 & Hp2). split_and!; [by rewrite <- app_assoc|done|congruence].
Qed.
Lemma wp_console_read c q size : ring c q → 0 ≤ size →
  wp (console_read size) (λ r c', match q with
    | [] => r = Failed EAGAIN true ∧ c' = c
    | _ => r = Done (Z.min size (Z.of_nat (length q))) (take (Z.to_nat size) q) ∧ ring c' (drop (Z.to_nat size) q) ∧ printed c' = printed c
    end) c.
Proof.
  intros Hr Hs. unfold console_read. rewrite wp_bind, wp_get, (k_len _ _ Hr). destruct q as [|a q]; [by apply wp_ret|]. rewrite (proj2 (Z.eqb_neq _ 0)) by (simpl; lia).
  rewrite wp_bind. eapply wp_mono; [by apply wp_read_loop|]. intros r c' (-> & Hr' & Hp). apply wp_ret. split_and!; [|done..]. rewrite app_nil_l, length_take. f_equal. lia.
Qed.
