(* ===== verification/EpollTheorems.v ===== *)
(** What [process_ready] reports, and what it leaves on the list of ready entries. *)
From S2P Require Import Prelude Bits Objman Objtab ObjtabProofs Epoll EpollInv EpollWatch Kconsole.
Import Epoll.
Local Open Scope Z_scope.

(** ** Looking through a list for at most [m] elements with [P]: those found, and those
    without [P] that were passed on the way. *)
Section scan.
Context {A : Type} (P : A → Prop) `{∀ a, Decision (P a)}.
Fixpoint scan (m : nat) (l : list A) : list A * list A :=
  match l, m with
  | [], _ | _, O => ([], [])
  | a :: l, S m' => if decide (P a) then let r := scan m' l in (a :: r.1, r.2) else let r := scan m l in (r.1, a :: r.2)
  end.
Lemma scan_found m l : (scan m l).1 = take m (filter P l).
Proof.
  revert m. induction l as [|a l IH]; intros [|m]; try done. rewrite filter_cons. simpl. case_decide; simpl; [by rewrite IH|]. by rewrite IH.
Qed.
Lemma scan_passed m l a : a ∈ (scan m l).2 → a ∈ l ∧ ¬ P a.
Proof.
  revert m. induction l as [|b l IH]; intros [|m]; simpl; try by intros ?%not_elem_of_nil. case_decide; simpl.
  - intros [? ?]%IH. split; [by right|done].
  - intros [->|[? ?]%IH]%elem_of_cons; (split; [|done]); [left|by right].
Qed.
(** When fewer were found than looked for, nothing without [P] was left. *)
Lemma scan_all m l a : (length (scan m l).1 < m)%nat → a ∈ l → ¬ P a → a ∈ (scan m l).2.
Proof.
  revert m. induction l as [|b l IH]; intros [|m]; simpl; try lia; [by intros _ ?%not_elem_of_nil|]. case_decide; simpl; intros Hm [->|Ha]%elem_of_cons HP; try done.
  - apply IH; [lia|done..].
  - left.
  - right. by apply IH.
Qed.
End scan.

Lemma take_array_set {A} (l : list A) n a : (n < length l)%nat → take (S n) (<[n := a]> l) = take n l ++ [a].
Proof. intros Hn. rewrite (take_S_r _ n a) by by apply list_lookup_insert_eq. by rewrite take_insert_ge. Qed.

Section ready.
Context {D : Type} `{PollLaws D}.
Implicit Types (s : est D) (g : ghost) (p : poll_entry) (x : epoll) (f : wfile).

(** The events of an entry that are pending now, as they are reported. *)
Definition reported s (e : Z) : option epoll_event :=
  p ← polls s !! e; f ← files s !! efile p;
  Some (Event (Z.land (level (dev (dst s)) (fvnode f)) (events (event p))) (data (event p))).
Definition pending s (e : Z) : Prop := match reported s e with Some ev => events ev ≠ 0 | None => False end.
Global Instance pending_dec s e : Decision (pending s e).
Proof. unfold pending. destruct (reported s e); apply _. Defined.

Lemma wp_peek s o f (Q : Z → est D → Prop) : files s !! o = Some f → is_Some (chpoll (fvnode f)) →
  (wp (call_chpoll o None kChpollPoll) Q s ↔ Q (level (dev (dst s)) (fvnode f)) s).
Proof.
  intros Hf [op Hop]. unfold call_chpoll, in_dev. rewrite wp_bind, (wp_file_at o f), wp_bind, Hop, wp_deref_Some, wp_zoom by done.
  rewrite (wp_ext _ (gets (λ t : pollstate D, level (dev t) (fvnode f))) _ _ (poll_peek _ op (dst s) Hop)), wp_gets. by destruct s.
Qed.

(** Only the list of ready entries of [ep] has changed. *)
Definition with_list (ep : Z) x (q : list Z) s : est D := upd_epoll ep (with_ready q (signalled x) x) s.
Lemma dropped_inv s g ep x e q : epoll_inv s g → epolls s !! ep = Some x → ¬ pending s e → q_remove e (ready x) = Some q → epoll_inv (with_list ep x q s) g.
Proof.
  intros Hi Hx Hn Hq. destruct (i_epoll _ _ Hi ep x Hx) as [W1 W2 W3 W4 W5]. destruct (q_remove_nodup e _ _ W2 Hq) as [Hnd Hel]. apply (inv_upd_ready s g ep x); try done; simpl.
  - intros Hne. apply W3. intros Hr. by rewrite Hr in Hq.
  - intros e' [He' _]%Hel. by apply W5.
  - intros e' p f He' Hnin Hp Hf. rewrite Hel in Hnin. assert (e' = e) as -> by (destruct (decide (e' = e)); [done|by destruct Hnin]).
    intros Hc. apply Hn. unfold pending, reported. by rewrite Hp; simpl; rewrite Hf.
Qed.
Lemma reported_with_list ep x q s e : reported (with_list ep x q s) e = reported s e.
Proof. done. Qed.

Lemma with_list_same ep x s : epolls s !! ep = Some x → with_list ep x (ready x) s = s.
Proof. intros Hx. unfold with_list, upd_epoll, set_epolls. destruct s, x. simpl in *. by rewrite insert_id. Qed.

Lemma wp_ready_loop g ep max l : ∀ s x n rv, epoll_inv s g → epolls s !! ep = Some x → NoDup l → (∀ e, e ∈ l → e ∈ ready x) →
  0 ≤ n ≤ max → max ≤ Z.of_nat (length rv) →
  wp (ready_loop ep l max n rv) (λ r s', let sc := scan (pending s) (Z.to_nat (max - n)) l in
    r.1 = n + Z.of_nat (length sc.1) ∧ length r.2 = length rv ∧ Some <$> take (Z.to_nat r.1) r.2 = (Some <$> take (Z.to_nat n) rv) ++ (reported s <$> sc.1) ∧
    epoll_inv s' g ∧ ∃ q, s' = with_list ep x q s ∧ (∀ e, e ∈ q ↔ e ∈ ready x ∧ e ∉ sc.2)) s.
Proof.
  induction l as [|e l IH]; intros s x n rv Hi Hx Hnd Hsub Hn Hmax; cbn [ready_loop].
  { apply wp_ret. split_and!; try done; [cbn; lia|by rewrite app_nil_r|]. exists (ready x). split; [by rewrite with_list_same|]. intros e'. split; [|by intros [? _]]. intros ?. split; [done|apply not_elem_of_nil]. }
  apply NoDup_cons in Hnd as [Hne Hnd]. destruct (Z.eqb_spec n max) as [->|Hlt].
  { apply wp_ret. rewrite Z.sub_diag. split; [simpl; lia|]. split; [done|]. split; [by rewrite app_nil_r|]. split; [done|]. exists (ready x). split; [by rewrite with_list_same|]. intros e'. split; [|by intros [? _]]. intros ?. split; [done|apply not_elem_of_nil]. }
  destruct (w_sub _ _ _ _ (i_epoll _ _ Hi ep x Hx) e) as [Hw _]; [apply Hsub; left|]. apply (w_watch _ _ _ _ (i_epoll _ _ Hi ep x Hx)) in Hw as (p & Hp & Ho).
  destruct (i_entry _ _ Hi e p Hp) as (_ & f & Hf & Hch & _). rewrite wp_bind, (wp_entry_at e p) by done. rewrite wp_bind, (wp_peek s _ f) by done.
  set (r := level (dev (dst s)) (fvnode f)). assert (reported s e = Some (Event (Z.land r (events (event p))) (data (event p)))) as Hrep by (unfold reported; rewrite Hp; simpl; by rewrite Hf).
  replace (Z.to_nat (max - n)) with (S (Z.to_nat (max - (n + 1)))) by lia. cbn [scan]. destruct (Z.eqb_spec (Z.land r (events (event p))) 0) as [Hz|Hz]; cbn [negb].
  - rewrite decide_False by (unfold pending; rewrite Hrep; simpl; tauto). rewrite wp_bind, (wp_epoll_at ep x) by done. destruct (q_remove_elem e (ready x)) as [q Hq]; [apply Hsub; left|].
    rewrite wp_bind, Hq, wp_deref_Some, wp_bind, wp_epoll_set. assert (¬ pending s e) as Hnp by (unfold pending; rewrite Hrep; simpl; tauto).
    destruct (q_remove_nodup e _ _ (w_ready _ _ _ _ (i_epoll _ _ Hi ep x Hx)) Hq) as [_ Hel]. change (upd_epoll ep _ s) with (with_list ep x q s).
    eapply wp_mono; [apply (IH _ (with_ready q (signalled x) x) n rv); [by apply (dropped_inv s g ep x e)|apply lookup_insert_eq|done| |done|done]|].
    { simpl. intros e' He'. apply Hel. split; [apply Hsub; by right|]. by intros ->. }
    intros [n' rv']. replace (Z.to_nat (max - n)) with (S (Z.to_nat (max - (n + 1)))) by lia. change (pending (with_list ep x q s)) with (pending s). change (reported (with_list ep x q s)) with (reported s).
    cbn [fst snd]. intros s' (Hr1 & Hr2 & Hr3 & Hi' & q' & -> & Hq'). split_and!; try done. exists q'. split; [unfold with_list, upd_epoll, set_epolls; simpl; by rewrite insert_insert_eq|].
    intros e'. rewrite Hq'. simpl. rewrite Hel, elem_of_cons. tauto.
  - rewrite decide_True by (unfold pending; by rewrite Hrep). unfold array_set. destruct (lookup_lt_is_Some_2 rv (Z.to_nat n)) as [old Hold]; [lia|].
    rewrite wp_bind, wp_bind, Hold, wp_deref_Some, wp_ret. eapply wp_mono; [apply (IH s x (n + 1)); [done|done|done|by intros e' ?; apply Hsub; right|lia|rewrite length_insert; lia]|].
    intros [n' rv'] s' (Hr1 & Hr2 & Hr3 & Hi' & q' & -> & Hq'). cbn [fst snd] in *. split_and!; [simpl; lia|by rewrite Hr2, length_insert| |done|exists q'; done].
    rewrite Hr3. replace (Z.to_nat (n + 1)) with (S (Z.to_nat n)) by lia. rewrite take_array_set by lia. rewrite fmap_app, <- app_assoc. simpl. by rewrite Hrep.
Qed.

(** The whole of [process_ready]: the first pending entries of the list are reported, up
    to the limit; the others that were looked at leave the list; the event stays
    signalled unless the list is empty. *)
Lemma wp_process_ready g ep max s x rv : epoll_inv s g → epolls s !! ep = Some x → 0 ≤ max ≤ Z.of_nat (length rv) →
  wp (process_ready ep max rv) (λ r s', let found := take (Z.to_nat max) (filter (pending s) (ready x)) in
    r.1 = Z.of_nat (length found) ∧ length r.2 = length rv ∧ Some <$> take (Z.to_nat r.1) r.2 = reported s <$> found ∧
    epoll_inv s' g ∧ ∃ q, s' = upd_epoll ep (with_ready q (if bool_decide (q = []) then false else signalled x) x) s ∧
      (∀ e, e ∈ q → e ∈ ready x) ∧ (∀ e, e ∈ ready x → pending s e → e ∈ q) ∧ (r.1 < max → ∀ e, e ∈ q → pending s e)) s.
Proof.
  intros Hi Hx Hmax. unfold process_ready. rewrite wp_bind, (wp_epoll_at ep x), wp_bind by done.
  eapply wp_mono; [apply (wp_ready_loop g ep max (ready x) s x 0 rv); [done|done|apply (i_epoll _ _ Hi ep x Hx)|done|lia|lia]|].
  intros [n rv'] s'. cbn [fst snd]. rewrite Z.sub_0_r, scan_found. intros (Hn & Hlen & Htake & Hi' & q & -> & Hq). simpl in Htake.
  rewrite wp_bind. erewrite wp_epoll_at by apply lookup_insert_eq. cbn [ready with_ready].
  assert (∀ e, e ∈ q → e ∈ ready x) as Hq1 by (intros e [? _]%Hq; done).
  assert (∀ e, e ∈ ready x → pending s e → e ∈ q) as Hq2 by (intros e He Hpe; apply Hq; split; [done|]; by intros [_ ?]%scan_passed).
  assert (n < max → ∀ e, e ∈ q → pending s e) as Hq3.
  { intros Hlt e [He Hs]%Hq. destruct (decide (pending s e)) as [|Hnp]; [done|]. destruct Hs. apply scan_all; [|done..]. rewrite scan_found. lia. }
  case_bool_decide as Hqe.
  - rewrite wp_bind, wp_epoll_set, wp_ret. cbn [fst snd]. split_and!; [lia|done|done| |].
    + apply (inv_upd_ready _ _ ep (with_ready q (signalled x) x)); [done|apply lookup_insert_eq|done|apply (i_epoll _ _ Hi' ep (with_ready q (signalled x) x)), lookup_insert_eq|done| |done].
      intros e He. by apply (w_sub _ _ _ _ (i_epoll _ _ Hi ep x Hx)), Hq1.
    + exists q. split; [|done]. rewrite bool_decide_true by done. unfold with_list, upd_epoll, set_epolls. simpl. by rewrite insert_insert_eq.
  - rewrite wp_bind, wp_ret, wp_ret. cbn [fst snd]. split_and!; [lia|done..|]. exists q. rewrite bool_decide_false by done. done.
Qed.
End ready.

(** The theorems about polling and the console. *)
Import Objman Objtab Epoll.

(** ** Threads that interleave *)

Section steps.
Context {D : Type} `{PollLaws D}.
Implicit Types (s : est D) (g : ghost) (p : poll_entry) (x : epoll) (f : wfile).

(** When a device changes, whatever becomes pending is among the events it then owes. *)
Definition raises (d d' : D) (o : list (Z * Z)) : Prop :=
  ∀ v m, Z.land (level d' v) m ≠ 0 → Z.land (level d v) m ≠ 0 ∨ ∃ ev, (head_of v, ev) ∈ o ∧ Z.land ev m ≠ 0.
(** One step of one thread: a stretch of code that holds the locks it needs.  A device
    changes, and some time later delivers; [watch_add] goes through its phases;
    [process_ready] and [watch_del] each run under their locks. *)
Inductive pstep : est D * ghost → est D * ghost → Prop :=
  | step_raise s g d' o : raises (dev (dst s)) d' o →
      pstep (s, g) (set_dst (Ps (heads (dst s)) d') s, Ghost (o ++ owed g) (adding g))
  | step_deliver s g s' h r o1 o2 : owed g = o1 ++ (h, r) :: o2 → pollhead_deliver_events h r s = Ok ((), s') →
      pstep (s, g) (s', Ghost (o1 ++ o2) (adding g))
  | step_link s g s' ep d o f ev e : polls s !! e = None → watchable s o f → watch_link ep d o ev e s = Ok ((), s') →
      pstep (s, g) (s', set_adding e Linked g)
  | step_register s g s' e p f : adding g !! e = Some Linked → polls s !! e = Some p → files s !! efile p = Some f →
      in_dev (pollhead_register (head_of (fvnode f)) e) s = Ok ((), s') → pstep (s, g) (s', set_adding e Registered g)
  | step_sample s g e p f : adding g !! e = Some Registered → polls s !! e = Some p → files s !! efile p = Some f →
      pstep (s, g) (s, set_adding e (Sampled (level (dev (dst s)) (fvnode f))) g)
  | step_publish s g s' e p r : adding g !! e = Some (Sampled r) → polls s !! e = Some p → watch_publish e (event p) r s = Ok ((), s') →
      pstep (s, g) (s', set_adding e Published g)
  | step_file s g s' e p : adding g !! e = Some Published → polls s !! e = Some p → watch_file (efile p) e s = Ok ((), s') →
      pstep (s, g) (s', unset_adding e g)
  | step_wait s g s' ep max rv r : 0 ≤ max ≤ Z.of_nat (length rv) → process_ready ep max rv s = Ok (r, s') → pstep (s, g) (s', g)
  | step_del s g s' e p : adding g !! e = None → polls s !! e = Some p → watch_del (owner p) e s = Ok ((), s') → pstep (s, g) (s', g).

Lemma raised_inv s g d' o : epoll_inv s g → raises (dev (dst s)) d' o → epoll_inv (set_dst (Ps (heads (dst s)) d') s) (Ghost (o ++ owed g) (adding g)).
Proof.
  intros [I1 I2 I3 I4 I5 I6] Hr. split; [|done..|].
  - intros ep x Hx. by destruct (I1 ep x Hx); split.
  - intros e p f x Hp Hf Hx Hc. destruct (Hr (fvnode f) (events (event p)) Hc) as [Hold|(ev & Hev & Hce)].
    + destruct (I6 e p f x Hp Hf Hx Hold) as [|[(ev & Hev & Hce)|Ha]]; [by left|right; left|by right; right]. exists ev. split; [by apply elem_of_app; right|done].
    + right. left. exists ev. split; [by apply elem_of_app; left|done].
Qed.
Lemma pstep_inv a b : pstep a b → epoll_inv a.1 a.2 → epoll_inv b.1 b.2.
Proof.
  destruct 1 as [s g d' o Hr|s g s' h r o1 o2 Ho Hd|s g s' ep d o f ev e Hn Hw Hl|s g s' e p f Ha Hp Hf Hr|s g e p f Ha Hp Hf|s g s' e p r Ha Hp Hr|s g s' e p Ha Hp Hr|s g s' ep max rv r Hm Hr|s g s' e p Ha Hp Hr];
    cbn [fst snd]; intros Hi.
  - by apply raised_inv.
  - destruct (heads (dst s) !! h) as [l|] eqn:Hh; [|unfold pollhead_deliver_events, in_dev, zoom, head_at in Hd; run_unfold Hd; by rewrite Hh in Hd].
    destruct g as [o a]. cbn [owed adding] in *. subst o. by apply (wp_run _ _ _ _ _ (wp_deliver h r o1 o2 a l s Hi Hh) Hd).
  - destruct (epolls s !! ep) as [x|] eqn:Hx; [|unfold watch_link, epoll_at in Hl; run_unfold Hl; simpl in Hl; by rewrite Hx in Hl].
    assert (wp (watch_link ep d o ev e) (λ _ s', s' = linked_state ep d o ev e x s) s) as Hwp by by apply (wp_watch_link _ _ _ _ _ x). rewrite (wp_run _ _ _ _ _ Hwp Hl). by apply (linked_inv ep d o ev e x f).
  - destruct (i_entry _ _ Hi e p Hp) as (_ & f' & Hf' & _ & l & Hl). assert (f' = f) as -> by congruence. assert (s' = registered_state (head_of (fvnode f)) e l s) as ->; [|by apply (registered_inv s g e p f l)].
    unfold in_dev, zoom, pollhead_register, head_at, head_set in Hr. run_unfold Hr. rewrite Hl in Hr. injection Hr as <-. done.
  - by apply (sampled_inv s g e p f).
  - by apply (wp_run _ _ _ _ _ (wp_watch_publish s g e p r Hi Hp Ha) Hr).
  - destruct (i_entry _ _ Hi e p Hp) as (_ & f & Hf & _). unfold watch_file, file_at, file_set in Hr. run_unfold Hr. rewrite Hf in Hr. injection Hr as <-. by apply (filed_inv s g e p f).
  - destruct (epolls s !! ep) as [x|] eqn:Hx; [|unfold process_ready, epoll_at in Hr; run_unfold Hr; by rewrite Hx in Hr].
    by apply (wp_run _ _ _ _ _ (wp_process_ready g ep max s x rv Hi Hx Hm) Hr).
  - by apply (wp_run _ _ _ _ _ (wp_watch_del s g e p Hi Hp Ha) Hr).
Qed.
Lemma psteps_inv a b : rtc pstep a b → epoll_inv a.1 a.2 → epoll_inv b.1 b.2.
Proof. induction 1; eauto using pstep_inv. Qed.

(** Epolls, files and pollheads before anything is watched. *)
Definition unwatched s : Prop :=
  polls s = ∅ ∧ (∀ ep x, epolls s !! ep = Some x → watches x = [] ∧ ready x = []) ∧ (∀ o f, files s !! o = Some f → epoll_watches f = []) ∧ (∀ h l, heads (dst s) !! h = Some l → l = []).
Lemma unwatched_inv s : unwatched s → epoll_inv s quiet.
Proof.
  intros (Hp & He & Hf & Hh). assert (∀ e p, polls s !! e = Some p → False) as Hno by (intros e p; by rewrite Hp, lookup_empty). split.
  - intros ep x Hx. destruct (He ep x Hx) as [Hw Hr]. split; [rewrite Hw; constructor|rewrite Hr; constructor|by rewrite Hr| |].
    + intros e. rewrite Hw. split; [by intros ?%not_elem_of_nil|]. intros (p & ? & _). by destruct (Hno e p).
    + intros e. rewrite Hr. by intros ?%not_elem_of_nil.
  - intros e p Hpe. by destruct (Hno e p).
  - intros o f Hof. rewrite (Hf o f Hof). split; [constructor|]. intros e. split; [by intros ?%not_elem_of_nil|]. intros [(p & ? & _) _]. by destruct (Hno e p).
  - intros h l Hl. rewrite (Hh h l Hl). split; [constructor|]. intros e. split; [by intros ?%not_elem_of_nil|]. intros [(p & f & ? & _) _]. by destruct (Hno e p).
  - intros e ph. cbn. by rewrite lookup_empty.
  - intros e p f x Hpe. by destruct (Hno e p).
Qed.

(** An entry with something pending is ready, unless it is excused. *)
Lemma pending_ready s g ep x e : epoll_inv s g → epolls s !! ep = Some x → e ∈ watches x → adding g !! e = None → owed g = [] → pending s e →
  e ∈ ready x ∧ signalled x = true.
Proof.
  intros Hi Hx He Ha Ho Hp. pose proof (i_epoll _ _ Hi ep x Hx) as [W1 W2 W3 W4 W5]. apply W4 in He as (p & Hpe & Hop). unfold pending, reported in Hp. rewrite Hpe in Hp. simpl in Hp.
  destruct (files s !! efile p) as [f|] eqn:Hf; [|done]. simpl in Hp. rewrite <- Hop in Hx. destruct (i_lost _ _ Hi e p f x Hpe Hf Hx Hp) as [Hin|[(ev & Hev & _)|Hadd]].
  - split; [done|]. apply W3. intros Hn. rewrite Hn in Hin. by apply not_elem_of_nil in Hin.
  - rewrite Ho in Hev. by apply not_elem_of_nil in Hev.
  - by rewrite Ha in Hadd.
Qed.
Lemma found_some (P : Z → Prop) `{∀ e, Decision (P e)} (l : list Z) e (n : nat) : e ∈ l → P e → (0 < n)%nat → (0 < length (take n (filter P l)))%nat.
Proof. intros He HP Hn. assert (e ∈ filter P l) as Hin by by apply list_elem_of_filter. rewrite length_take. destruct (filter P l); [by apply not_elem_of_nil in Hin|simpl; lia]. Qed.

(** C16. No wake-up is lost, however the threads interleave: once every delivery that the
    devices owe has been made, an entry whose [watch_add] is over and that has events
    pending is on the list of ready entries, and the event of its epoll is signalled; and
    [process_ready] then reports at least one pending entry. *)
Theorem epoll_no_lost_wakeup s0 s g ep x e max rv : unwatched s0 → rtc pstep (s0, quiet) (s, g) →
  epolls s !! ep = Some x → e ∈ watches x → adding g !! e = None → owed g = [] → pending s e → 0 < max ≤ Z.of_nat (length rv) →
  e ∈ ready x ∧ signalled x = true ∧ ∃ n rv' s', process_ready ep max rv s = Ok ((n, rv'), s') ∧ 0 < n ≤ max ∧
    ∀ i, 0 ≤ i < n → ∃ e' ev, e' ∈ watches x ∧ rv' !! Z.to_nat i = Some ev ∧ reported s e' = Some ev ∧ events ev ≠ 0.
Proof.
  intros Hu Hs Hx He Ha Ho Hp Hm. pose proof (psteps_inv _ _ Hs (unwatched_inv s0 Hu)) as Hi. cbn [fst snd] in Hi.
  destruct (pending_ready s g ep x e Hi Hx He Ha Ho Hp) as [Hin Hsig]. split_and!; [done..|].
  pose proof (wp_process_ready g ep max s x rv Hi Hx ltac:(lia)) as Hw. apply wp_ok in Hw as ([n rv'] & s' & Hrun & Hn & Hlen & Htake & _). cbn [fst snd] in *.
  exists n, rv', s'. split; [done|]. pose proof (found_some (pending s) (ready x) e (Z.to_nat max) Hin Hp ltac:(lia)) as Hpos. set (found := take (Z.to_nat max) (filter (pending s) (ready x))) in *.
  assert (length found ≤ Z.to_nat max)%nat by apply firstn_le_length. split; [lia|]. intros i Hir. destruct (lookup_lt_is_Some_2 found (Z.to_nat i)) as [e' He']; [lia|].
  assert (pending s e' ∧ e' ∈ ready x) as [Hpe Hre] by (apply (list_elem_of_filter (pending s)), (subseteq_take (Z.to_nat max)), (list_elem_of_lookup_2 _ _ _ He')).
  assert ((Some <$> take (Z.to_nat n) rv') !! Z.to_nat i = Some (reported s e')) as Hl by (by rewrite Htake, list_lookup_fmap, He').
  rewrite list_lookup_fmap, lookup_take_lt in Hl by lia. destruct (rv' !! Z.to_nat i) as [ev|]; [|done]. injection Hl as Hl. exists e', ev. split_and!; [|done|done|].
  - by apply (w_sub _ _ _ _ (i_epoll _ _ Hi ep x Hx)).
  - unfold pending in Hpe. by rewrite <- Hl in Hpe.
Qed.
End steps.

(** ** The services *)

(** The descriptor [d] is open on the object [o]. *)
Record opened_on (t : tst) (d o : Z) : Prop := OpenedOn {
  oe_range : 0 ≤ d < capacity (entries (tab t));
  oe_cap : capacity (entries (tab t)) < 2 ^ 31;
  oe_room : roomy (open (entries (tab t))) (capacity (entries (tab t)));
  oe_open : bit (open (entries (tab t))) d = true;
  oe_ptr : objptrs (entries (tab t)) !! Z.to_nat d = Some (Some o);
  oe_done : resize_done (tab t) = true;
  oe_refs : ∃ c rc, objects (om t) !! o = Some (Hdr c rc) ∧ 0 < rc < 2 ^ 32 - 1
}.
Section services.
Context {D : Type} `{PollLaws D} `{EpollBits}.
Implicit Types (s : est D) (t : tst) (vn : gmap Z vnode) (x : epoll) (f : wfile).

(** A look-up, and the release of the reference it gave. *)
Lemma looked_up_file t d o fuel : opened_on t d o → ∃ t', ex_object_space_lookup (S fuel) d t = Ok (Some o, t') ∧
  ∀ s vn, file_release o (Sst t' s vn) = Ok ((), Sst t s vn).
Proof.
  intros [Hd Hcap Hro Hb Hp Hdone (c & rc & Ho & Hrc)]. destruct t as [om [e dn]]. cbn [tab entries Objtab.om resize_done] in *. subst dn. eexists. split; [by apply (lookup_open om e d o fuel c rc)|].
  intros s vn. unfold file_release. assert (∀ A (m : kern ost A) (a : A) om1 om2, m om1 = Ok (a, om2) → in_tables (in_objects m) (Sst (Tst om1 (Space e true)) s vn) = Ok (a, Sst (Tst om2 (Space e true)) s vn)) as Hrun.
  { intros A m a om1 om2 Hm. unfold in_tables, in_objects, zoom. simpl. by rewrite Hm. }
  rewrite (bind_ok _ _ _ (Hdr c (rc + 1)) (Sst (Tst (set_objects (<[o := Hdr c (rc + 1)]> (objects om)) om) (Space e true)) s vn)).
  - rewrite (bind_ok _ _ _ () (Sst (Tst om (Space e true)) s vn)) by by apply Hrun, (release_run om o c rc). cbn [refcount]. by rewrite (proj2 (Z.eqb_neq _ 1)) by lia.
  - apply Hrun. unfold Objman.hdr_at, mbind, kern_bind, get, deref. cbn [objects set_objects]. by rewrite lookup_insert_eq.
Qed.
(** The descriptor [d] is that of the epoll [ep]. *)
Definition epoll_desc t s vn (d ep : Z) : Prop :=
  ∃ o f rc, opened_on t d o ∧ files s !! o = Some f ∧ vnodes (Sst t s vn) !! fvnode f = Some (Vnode rc (Some ep)).
Lemma desc_to_epoll_run t s vn d ep fuel : epoll_desc t s vn d ep → ∃ o t', desc_to_epoll (S fuel) d (Sst t s vn) = Ok (inr (ep, o), Sst t' s vn) ∧
  ∀ s' vn', file_release o (Sst t' s' vn') = Ok ((), Sst t s' vn').
Proof.
  intros (o & f & rc & Ho & Hf & Hv). destruct (looked_up_file t d o fuel Ho) as (t' & Hlk & Hrel). exists o, t'. split; [|done]. unfold desc_to_epoll.
  rewrite (bind_ok _ _ _ (Some o) (Sst t' s vn)) by (unfold in_tables, zoom; simpl; by rewrite Hlk).
  rewrite (bind_ok _ _ _ f (Sst t' s vn)) by (unfold in_poll, zoom, Epoll.file_at, mbind, kern_bind, get, deref; simpl; by rewrite Hf).
  rewrite (bind_ok _ _ _ ep (Sst t' s vn)); [done|]. unfold VTOEP, vn_at, mbind, kern_bind, get, deref. cbn [vnodes] in *. by rewrite Hv.
Qed.

(** With something pending, [epoll_wait] never gets to sleep, whatever [sleep] may be. *)
Lemma wait_prompt t s vn d ep x e fuel sleep stack max ms : epoll_inv s quiet → epoll_desc t s vn d ep → epolls s !! ep = Some x → e ∈ watches x → pending s e →
  0 < max → length stack = 4%nat →
  ∃ n evs s', ex_service_epoll_wait (S fuel) sleep stack d max ms (Sst t s vn) = Ok ((Val n, evs), Sst t s' vn) ∧
    let found := take (Z.to_nat (Z.min max 4)) (filter (pending s) (ready x)) in
    n = Z.of_nat (length found) ∧ 0 < n ∧ Some <$> evs = reported s <$> found ∧ epoll_inv s' quiet.
Proof.
  intros Hi Hd Hx He Hp Hmax Hst. destruct (pending_ready s quiet ep x e Hi Hx He eq_refl eq_refl Hp) as [Hin Hsig].
  destruct (desc_to_epoll_run t s vn d ep fuel Hd) as (o & t' & Hlk & Hrel). unfold ex_service_epoll_wait. rewrite (proj2 (Z.ltb_ge _ 0)) by lia.
  replace (if 4 <? max then 4 else max) with (Z.min max 4) by (destruct (Z.ltb_spec 4 max); lia). rewrite (proj2 (Z.eqb_neq (Z.min max 4) 0)) by lia.
  rewrite (bind_ok _ _ _ () (Sst t s vn)) by done. rewrite (bind_ok _ _ _ _ _ Hlk). pose proof (wp_process_ready quiet ep (Z.min max 4) s x stack Hi Hx ltac:(lia)) as Hw.
  apply wp_ok in Hw as ([n rv'] & s' & Hrun & Hn & Hlen & Htake & Hi' & _). cbn [fst snd] in *. exists n, (take (Z.to_nat n) rv'), s'.
  pose proof (found_some (pending s) (ready x) e (Z.to_nat (Z.min max 4)) Hin Hp ltac:(lia)) as Hpos.
  assert (wait_events sleep ep (Z.min max 4) ms stack s = Ok ((Val n, take (Z.to_nat n) rv'), s')) as Hwe.
  { unfold wait_events. rewrite (bind_ok _ _ _ _ _ Hrun). by rewrite (proj2 (Z.eqb_neq n 0)) by lia. }
  rewrite (bind_ok _ _ _ (Val n, take (Z.to_nat n) rv') (Sst t' s' vn)) by (unfold in_poll, zoom; simpl; by rewrite Hwe). rewrite (bind_ok _ _ _ _ _ (Hrel s' vn)).
  split; [done|]. split_and!; [done|lia|done|done].
Qed.

(** C39. After a watched file has been closed the teardown mutex stays taken for good:
    neither can an epoll be deleted any more, nor can another watched file be closed. *)
Theorem epoll_teardown_stuck s o f : epoll_inv s quiet → files s !! o = Some f → teardown s = false → (∀ ep x, epolls s !! ep = Some x → locked x = false) →
  ∃ s', poll_watched_file_did_close o s = Ok ((), s') ∧ (∀ e p, polls s' !! e = Some p → efile p ≠ o) ∧ teardown s' = true ∧
    (∀ ep, epoll_delete ep s' = Spin) ∧ ∀ o', poll_watched_file_did_close o' s' = Spin.
Proof.
  intros Hi Hf Ht Hl. destruct (proj1 (wp_ok _ _ _) (wp_did_close s o f Hi Hf Ht Hl)) as ([] & s' & Hrun & _ & Ht' & [L1 _ _] & _). exists s'. split_and!; [done| |done|..].
  - intros e p Hp. by apply L1 in Hp as [_ ?].
  - intros ep. unfold epoll_delete, teardown_lock, mbind, kern_bind, get. by rewrite Ht'.
  - intros o'. unfold poll_watched_file_did_close, teardown_lock, mbind, kern_bind, get. by rewrite Ht'.
Qed.
End services.
