(* ===== verification/ConsoleTheorems.v ===== *)
(** The console as a bounded queue, its input as it reaches a waiting epoll, and the
    concrete runs that the theorems are applied to. *)
From S2P Require Import Prelude Objman Objtab Bits ObjtabProofs Epoll EpollInv EpollWatch EpollTheorems Kconsole.
Import Objman Objtab Epoll Kconsole.
Local Open Scope Z_scope.

(** ** The console is a queue *)

Inductive con_op := Type_ (c : Z) | Read (size : Z).
(** What the kernel does, and what is asked of it: a queue of 4096 characters. *)
Definition con_step (op : con_op) : kern console io_result :=
  match op with
  | Type_ c => b ← input_char c; mret (Done (Z.b2z b) [])
  | Read size => console_read size
  end.
Definition queue_step (op : con_op) (q : list Z) : io_result * list Z :=
  match op with
  | Type_ c => if decide (length q < 4096)%nat then (Done 1 [], q ++ [char c]) else (Done 0 [], q)
  | Read size =>
      match q with
      | [] => (Failed EAGAIN true, [])
      | _ => (Done (Z.min size (Z.of_nat (length q))) (take (Z.to_nat size) q), drop (Z.to_nat size) q)
      end
  end.
Fixpoint con_run (ops : list con_op) : kern console (list io_result) :=
  match ops with [] => mret [] | op :: ops => r ← con_step op; rs ← con_run ops; mret (r :: rs) end.
Fixpoint queue_run (ops : list con_op) (q : list Z) : list io_result * list Z :=
  match ops with [] => ([], q) | op :: ops => let '(r, q1) := queue_step op q in let '(rs, q2) := queue_run ops q1 in (r :: rs, q2) end.
Definition sane (op : con_op) : Prop := match op with Read size => 0 ≤ size | _ => True end.

Lemma con_step_ok op c q : ring c q → sane op → wp (con_step op) (λ r c', r = (queue_step op q).1 ∧ ring c' (queue_step op q).2) c.
Proof.
  intros Hr Hs. destruct op as [ch|size]; cbn [con_step queue_step].
  - rewrite wp_bind. eapply wp_mono; [by apply wp_input_char|]. intros b c' (-> & Hr' & _). apply wp_ret. case_bool_decide; case_decide; try done.
  - eapply wp_mono; [by apply wp_console_read|]. intros r c'. destruct q; [intros [-> ->]|intros (-> & ? & _)]; done.
Qed.
(** C30. The ring buffer of the console is a queue of 4096 characters: on every sequence of
    characters typed and reads made, from the empty buffer on, the results are those of
    the queue.  In particular characters come out in the order in which they went in,
    none twice, and only those typed while the buffer was full are missing. *)
Theorem console_queue junk ops : length junk = 4096%nat → Forall sane ops →
  ∃ c, con_run ops (fresh_console junk) = Ok ((queue_run ops []).1, c) ∧ ring c (queue_run ops []).2.
Proof.
  intros Hj Hops. assert (∀ c q, ring c q → wp (con_run ops) (λ rs c', rs = (queue_run ops q).1 ∧ ring c' (queue_run ops q).2) c) as Hgo.
  { induction Hops as [|op ops Hop Hops IH]; intros c q Hr; cbn [con_run queue_run]; [by apply wp_ret|]. rewrite wp_bind. eapply wp_mono; [by apply con_step_ok|].
    intros r c1 [-> Hr1]. rewrite wp_bind. destruct (queue_step op q) as [r q1]. eapply wp_mono; [by apply IH|]. intros rs c2 [-> Hr2]. apply wp_ret. cbn [fst snd] in *. by destruct (queue_run ops q1). }
  destruct (proj1 (wp_ok _ _ _) (Hgo _ [] (ring_fresh junk Hj))) as (rs & c & Hrun & -> & Hr). eauto.
Qed.

(** ** Input reaches who waits for it *)

Section wake.
Context `{EpollBits} (kconsole_vnode console_pollhead : Z).
#[local] Instance the_console : PollDev console := console_vnops kconsole_vnode console_pollhead.
#[local] Instance the_laws : PollLaws console := console_laws kconsole_vnode console_pollhead.
Implicit Types s : est console.

(** Typing a character owes EPOLLIN to the pollhead, and nothing else does. *)
Lemma input_raises c q ch b c' : ring c q → input_char ch c = Ok (b, c') → raises c c' (if b then [(console_pollhead, EPOLLIN)] else []).
Proof.
  intros Hr Hrun. destruct (wp_run _ _ _ _ _ (wp_input_char c q ch Hr) Hrun) as (-> & Hr' & _ & Hsame). intros v m. cbn [level head_of the_laws console_laws]. case_bool_decide; [|rewrite Hsame by done; auto].
  unfold console_events. rewrite !Z.land_lor_distr_l. intros Hne. destruct (Z.eq_dec (Z.land EPOLLOUT m) 0) as [Hz|Hnz].
  - right. exists EPOLLIN. split; [left|]. rewrite Hz, Z.lor_0_l in Hne. destruct (in_buf_len c' =? 0); [by rewrite Z.land_0_l in Hne|done].
  - left. intros Hor. by apply Z.lor_eq_0_iff in Hor as [? _].
Qed.
Lemma take_raises c a q r c' : ring c (a :: q) → take_char c = Ok (r, c') → raises c c' [].
Proof.
  intros Hr Hrun. destruct (wp_run _ _ _ _ _ (wp_take_char c a q Hr) Hrun) as (_ & Hr' & _). intros v m. cbn [level the_laws console_laws]. unfold console_events.
  rewrite !Z.land_lor_distr_l. intros Hne. left. intros [Ho Hi]%Z.lor_eq_0_iff. rewrite (k_len _ _ Hr), (proj2 (Z.eqb_neq _ 0)) in Hi by (simpl; lia).
  rewrite Ho, Z.lor_0_l in Hne. destruct (in_buf_len c' =? 0); [by rewrite Z.land_0_l in Hne|done].
Qed.

Lemma wp_console_input s q l ch : epoll_inv s quiet → ring (dev (dst s)) q → (length q < 4096)%nat → heads (dst s) !! console_pollhead = Some l →
  wp (ex_console_input console_pollhead ch) (λ _ s', epoll_inv s' quiet ∧ ring (dev (dst s')) (q ++ [char ch]) ∧ polls s' = polls s ∧ files s' = files s ∧
    ∀ ep x, epolls s !! ep = Some x → ∃ x', epolls s' !! ep = Some x' ∧ watches x' = watches x) s.
Proof.
  intros Hi Hr Hq Hl. unfold ex_console_input, in_dev, in_console. rewrite wp_bind, wp_zoom, wp_zoom.
  destruct (proj1 (wp_ok _ _ _) (wp_input_char _ q ch Hr)) as (b & c1 & Hrun & -> & Hr1 & _). rewrite bool_decide_true in * by done. unfold wp at 1. rewrite Hrun. cbn [when].
  rewrite wp_bind, wp_zoom, wp_zoom. unfold kputc. rewrite wp_modify. set (c2 := Con _ _ _ _ _). assert (ring c2 (q ++ [char ch])) as Hr2 by (destruct Hr1; by split).
  assert (raises (dev (dst s)) c2 [(console_pollhead, EPOLLIN)]) as Hra by exact (input_raises _ q ch true c1 Hr Hrun).
  pose proof (raised_inv s quiet c2 _ Hi Hra) as Hi2. match goal with |- wp _ _ ?st => change st with (set_dst (Ps (heads (dst s)) c2) s) end.
  eapply wp_mono; [apply (wp_deliver console_pollhead EPOLLIN [] [] ∅ l); [exact Hi2|exact Hl]|]. intros _ s' (Hi' & [R1 R2 R3 R4 R5] & _). split_and!; [done|by rewrite R3|done|done|].
  intros ep x Hx. destruct (R5 ep x Hx) as (x' & ? & ? & _). eauto.
Qed.

(** C29. A key typed on the console reaches the program that waits for it.  When an epoll
    watches the console for input, a character for which there is room makes the next
    [epoll_wait] return at once, whatever a sleep would do, with at most four events,
    each of which is pending; and a read then gives the characters typed so far, in
    order, the new one included. *)
Theorem console_input_wakes s q l ch ep x e p f t vn d fuel sleep stack max ms size :
  epoll_inv s quiet → ring (dev (dst s)) q → (length q < 4096)%nat → heads (dst s) !! console_pollhead = Some l →
  epolls s !! ep = Some x → polls s !! e = Some p → owner p = ep → files s !! efile p = Some f → Z.land EPOLLIN (events (event p)) ≠ 0 →
  epoll_desc t s vn d ep → 0 < max → length stack = 4%nat → 0 ≤ size →
  ∃ s1 n evs s2, ex_console_input console_pollhead ch s = Ok ((), s1) ∧
    ex_service_epoll_wait (S fuel) sleep stack d max ms (Sst t s1 vn) = Ok ((Val n, evs), Sst t s2 vn) ∧ 0 < n ≤ 4 ∧ n = Z.of_nat (length evs) ∧
    (∀ ev, ev ∈ evs → events ev ≠ 0) ∧
    ∃ c, console_read size (dev (dst s1)) = Ok (Done (Z.min size (Z.of_nat (S (length q)))) (take (Z.to_nat size) (q ++ [char ch])), c).
Proof.
  intros Hi Hr Hq Hl Hx Hp Ho Hf Hc Hd Hmax Hst Hsz. destruct (proj1 (wp_ok _ _ _) (wp_console_input s q l ch Hi Hr Hq Hl)) as ([] & s1 & Hrun & Hi1 & Hr1 & Hp1 & Hf1 & He1).
  destruct (He1 ep x Hx) as (x1 & Hx1 & Hw1). assert (pending s1 e) as Hpe.
  { unfold pending, reported. rewrite Hp1, Hp. simpl. rewrite Hf1, Hf. cbn [mbind option_bind events level the_laws console_laws]. unfold console_events. rewrite (k_len _ _ Hr1), (proj2 (Z.eqb_neq _ 0)) by (rewrite length_app; simpl; lia).
    rewrite Z.land_lor_distr_l. by intros [_ ?]%Z.lor_eq_0_iff. }
  assert (e ∈ watches x1) as Hin by (apply (w_watch _ _ _ _ (i_epoll _ _ Hi1 ep x1 Hx1)); exists p; by rewrite Hp1).
  assert (epoll_desc t s1 vn d ep) as Hd1 by (destruct Hd as (o & fo & rc & ? & ? & ?); exists o, fo, rc; by rewrite Hf1).
  destruct (wait_prompt t s1 vn d ep x1 e fuel sleep stack max ms Hi1 Hd1 Hx1 Hin Hpe Hmax Hst) as (n & evs & s2 & Hwait & Hn & Hpos & Hevs & _).
  exists s1, n, evs, s2. assert (length evs = length (take (Z.to_nat (Z.min max 4)) (filter (pending s1) (ready x1)))) as Hlen by (by rewrite <- (length_fmap Some), Hevs, length_fmap).
  pose proof (firstn_le_length (Z.to_nat (Z.min max 4)) (filter (pending s1) (ready x1))). split_and!; [done|done|lia|lia|lia| |].
  - intros ev Hev. assert (Some ev ∈ Some <$> evs) as Hs by by apply list_elem_of_fmap_2. rewrite Hevs in Hs. apply list_elem_of_fmap in Hs as (e' & Hrep & Hin').
    apply (subseteq_take (Z.to_nat (Z.min max 4))), list_elem_of_filter in Hin' as [Hpe' _]. unfold pending in Hpe'. by rewrite <- Hrep in Hpe'.
  - destruct (proj1 (wp_ok _ _ _) (wp_console_read _ _ size Hr1 Hsz)) as (r & c & Hread & Hres). exists c. rewrite Hread. destruct (q ++ [char ch]) eqn:Hqe; [by apply app_eq_nil in Hqe as [_ ?]|].
    destruct Hres as [-> _]. rewrite <- Hqe, length_app, Nat.add_comm. done.
Qed.
End wake.

(** ** A machine with a console *)

Definition linux_bits : EpollBits := {| EPOLLIN := 1; EPOLLOUT := 4; EPOLLERR := 8; EPOLLHUP := 16; EPOLLPRI := 2 |}.
#[local] Existing Instance linux_bits.
#[local] Instance tty : PollDev console := console_vnops 10 20.
#[local] Instance tty_laws : PollLaws console := console_laws 10 20.
(** The console is the vnode 10 with the pollhead 20, open as the file 100; the file 101 is
    the epoll 200, and has the descriptor 0. *)
Definition idle : est console :=
  Est ∅ {[200 := Epoll.Epoll false [] [] false]} (<[100 := WFile 10 false []]> {[101 := WFile 300 false []]}) (Ps {[20 := []]} (fresh_console (replicate 4096 0))) false.
Definition wants_input : epoll_event := Event 1 42.
(** The epoll watches the console for input. *)
Definition watching : est console := final (watch_add 200 1 100 (Some wants_input) (Some 400)) idle.
Definition one_desc : tst := Tst (Ost [] {[101 := Hdr 4 1]} []) (Space (inserted (fresh_entries 64) 0 101 false) true).
Definition tty_vnodes : gmap Z vnode := <[10 := Vnode 1 None]> {[300 := Vnode 1 (Some 200)]}.

Lemma idle_unwatched : unwatched idle.
Proof.
  unfold unwatched, idle. cbn [polls epolls files dst heads]. split_and!; [done|..].
  - intros ep x [_ <-]%lookup_singleton_Some. done.
  - intros o f [[_ <-]|[_ [_ <-]%lookup_singleton_Some]]%lookup_insert_Some; done.
  - intros h l [_ <-]%lookup_singleton_Some. done.
Qed.
Lemma watching_inv : epoll_inv watching quiet.
Proof.
  assert (watchable idle 100 (WFile 10 false [])) as Hw by (split_and!; [done|by eexists|by eexists]).
  destruct (wp_final _ _ _ (wp_watch_add idle 200 _ 1 100 _ wants_input 400 (unwatched_inv _ idle_unwatched) eq_refl eq_refl Hw eq_refl)) as (r & Hi & _). exact Hi.
Qed.
Lemma one_desc_open : opened_on one_desc 0 101.
Proof.
  pose proof fresh_tab as Ht. split; cbn [one_desc tab entries capacity inserted fresh_entries open objptrs resize_done].
  - lia.
  - lia.
  - apply roomy_set, Ht.
  - rewrite (bit_set 32 eq_refl _ 64) by (lia || apply Ht). by rewrite decide_True.
  - done.
  - done.
  - exists 4, 1. split; [done|lia].
Qed.
Lemma console_queue_witness : ∃ c, con_run [Type_ 104; Type_ 105; Read 1; Read 9; Read 1] (fresh_console (replicate 4096 0)) =
  Ok ([Done 1 []; Done 1 []; Done 1 [104]; Done 1 [105]; Failed EAGAIN true], c).
Proof.
  destruct (console_queue (replicate 4096 0) [Type_ 104; Type_ 105; Read 1; Read 9; Read 1]) as (c & Hc & _); [by rewrite length_replicate|rewrite !Forall_cons, Forall_nil; cbn; lia|]. exists c. exact Hc.
Defined.
Lemma console_input_wakes_witness : ∃ s1 n evs s2, ex_console_input 20 120 watching = Ok ((), s1) ∧
  ex_service_epoll_wait 1 (λ _, spin) (replicate 4 wants_input) 0 1 (-1) (Sst one_desc s1 tty_vnodes) = Ok ((Val n, evs), Sst one_desc s2 tty_vnodes) ∧ 0 < n ≤ 4 ∧
  ∃ c, console_read 16 (dev (dst s1)) = Ok (Done 1 [120], c).
Proof.
  destruct (console_input_wakes 10 20 watching [] [400] 120 200 (Epoll.Epoll false [400] [] false) 400 (Entry 200 1 100 wants_input) (WFile 10 false [400]) one_desc tty_vnodes 0 0 (λ _, spin)
    (replicate 4 wants_input) 1 (-1) 16 watching_inv (ring_fresh (replicate 4096 0) ltac:(by rewrite length_replicate)) ltac:(cbn; lia) ltac:(vm_compute; reflexivity) ltac:(vm_compute; reflexivity) ltac:(vm_compute; reflexivity)
    eq_refl ltac:(vm_compute; reflexivity) ltac:(done)) as (s1 & n & evs & s2 & H1 & H2 & H3 & _ & _ & c & H4); [|lia|by rewrite length_replicate|lia|].
  - exists 101, (WFile 300 false []), 1. split_and!; [apply one_desc_open|vm_compute; reflexivity|vm_compute; reflexivity].
  - exists s1, n, evs, s2. split_and!; [exact H1|exact H2|lia|lia|]. exists c. exact H4.
Defined.
Lemma epoll_teardown_stuck_witness : ∃ s', poll_watched_file_did_close 100 watching = Ok ((), s') ∧ teardown s' = true ∧ epoll_delete 200 s' = Spin.
Proof.
  destruct (epoll_teardown_stuck watching 100 (WFile 10 false [400]) watching_inv ltac:(vm_compute; reflexivity) ltac:(vm_compute; reflexivity)) as (s' & H1 & _ & H2 & H3 & _).
  - intros ep x Hx. change (({[200 := Epoll.Epoll false [400] [] false]} : gmap Z epoll) !! ep = Some x) in Hx. by apply lookup_singleton_Some in Hx as [_ <-].
  - exists s'. split_and!; [exact H1|exact H2|apply H3].
Defined.

(** A watch being added while a key is typed: the device is asked what is pending before the
    key, and the delivery comes before the answer is acted on. *)
Definition typed : console := final (input_char 120) (fresh_console (replicate 4096 0)).
Definition linked : est console := final (watch_link 200 1 100 wants_input 400) idle.
Definition registered : est console := final (in_dev (pollhead_register 20 400)) linked.
Definition raised : est console := set_dst (Ps (heads (dst registered)) typed) registered.
Definition delivered : est console := final (pollhead_deliver_events 20 1) raised.
Definition published : est console := final (watch_publish 400 wants_input 4) delivered.
Definition filed : est console := final (watch_file 100 400) published.
Lemma filed_reached : rtc pstep (idle, quiet) (filed, unset_adding 400 (set_adding 400 Published (Ghost [] (<[400 := Sampled 4]> (<[400 := Registered]> {[400 := Linked]}))))).
Proof.
  apply (rtc_l _ _ (linked, set_adding 400 Linked quiet)).
  { apply (step_link _ _ _ 200 1 100 (WFile 10 false []) wants_input 400); [reflexivity|split_and!; [done|by eexists|by eexists]|vm_compute; reflexivity]. }
  apply (rtc_l _ _ (registered, set_adding 400 Registered (set_adding 400 Linked quiet))).
  { apply (step_register _ _ _ 400 (Entry 200 1 100 wants_input) (WFile 10 false [])); vm_compute; reflexivity. }
  apply (rtc_l _ _ (registered, set_adding 400 (Sampled 4) (set_adding 400 Registered (set_adding 400 Linked quiet)))).
  { replace 4 with (level (dev (dst registered)) 10) at 1 by (vm_compute; reflexivity). apply (step_sample registered (set_adding 400 Registered (set_adding 400 Linked quiet)) 400 (Entry 200 1 100 wants_input) (WFile 10 false [])); vm_compute; reflexivity. }
  apply (rtc_l _ _ (raised, Ghost [(20, 1)] (<[400 := Sampled 4]> (<[400 := Registered]> {[400 := Linked]})))).
  { apply (step_raise registered (set_adding 400 (Sampled 4) (set_adding 400 Registered (set_adding 400 Linked quiet))) typed [(20, 1)]).
    apply (input_raises 10 20 _ [] 120 true typed (ring_fresh (replicate 4096 0) ltac:(by rewrite length_replicate))). vm_compute. reflexivity. }
  apply (rtc_l _ _ (delivered, Ghost [] (<[400 := Sampled 4]> (<[400 := Registered]> {[400 := Linked]})))).
  { refine (step_deliver raised (Ghost [(20, 1)] (<[400 := Sampled 4]> (<[400 := Registered]> {[400 := Linked]}))) delivered 20 1 [] [] _ _); vm_compute; reflexivity. }
  apply (rtc_l _ _ (published, set_adding 400 Published (Ghost [] (<[400 := Sampled 4]> (<[400 := Registered]> {[400 := Linked]}))))).
  { apply (step_publish _ _ _ 400 (Entry 200 1 100 wants_input) 4); vm_compute; reflexivity. }
  apply rtc_once, (step_file _ _ _ 400 (Entry 200 1 100 wants_input)); vm_compute; reflexivity.
Qed.
Lemma epoll_no_lost_wakeup_witness : ∃ n rv' s', process_ready 200 1 (replicate 4 wants_input) filed = Ok ((n, rv'), s') ∧ 0 < n ≤ 1.
Proof.
  destruct (epoll_no_lost_wakeup idle filed _ 200 (Epoll.Epoll false [400] [400] true) 400 1 (replicate 4 wants_input) idle_unwatched filed_reached ltac:(vm_compute; reflexivity)
    ltac:(left) ltac:(vm_compute; reflexivity) eq_refl ltac:(vm_compute; done) ltac:(cbn; lia)) as (_ & _ & n & rv' & s' & H1 & H2 & _).
  exists n, rv', s'. split; [exact H1|exact H2].
Defined.

(** ** Time-outs, and paths that do not return *)

(** Times of up to 2147 ms are converted to nanoseconds; from 2148 to 4294 ms the product
    does not fit an [int], and the wait is one of centuries. *)
Lemma wait_timeout_range ms : (0 ≤ ms ≤ 2147 → wait_timeout ms = ms * 1000000) ∧ (2148 ≤ ms ≤ 4294 → 2 ^ 63 ≤ wait_timeout ms).
Proof.
  split; intros Hms; unfold wait_timeout; rewrite (proj2 (Z.eqb_neq ms (-1))) by lia.
  - rewrite i32_small, u64_small by lia. done.
  - unfold i32, u64. rewrite <- (Z.mod_unique (ms * 1000000 + 2 ^ 31) (2 ^ 32) 1 (ms * 1000000 - 2 ^ 31)) by lia.
    rewrite <- (Z.mod_unique _ (2 ^ 64) (-1) (ms * 1000000 - 2 ^ 32 + 2 ^ 64)) by lia. lia.
Qed.
