(* ===== verification/Aspace.v ===== *)
(** The state that address spaces share: per process its arena of addresses, the tree of
    its mappings, its working set and its locks (vm/vmp.h); the mappings and the mappable
    objects; and, behind them, the pages of Resident.v.

    A thread that releases a mutex it does not hold fails the assertion of
    [ke_mutex_release]; one that acquires a lock it holds already waits for ever. *)
From S2P Require Import Prelude Vmem Pte Resident Tables PageAlloc Walk Wsl.
Import Resident Tables PageAlloc Walk Wsl.
Local Open Scope Z_scope.

Module Aspace.

(** [vm_protection_t] *)
Definition kVMRead : Z := 1.
Definition kVMWrite : Z := 2.
Definition kVMExecute : Z := 4.
Definition kVMAll : Z := 7.

Record vm_map_entry := MapEntry {
  protection : Z;
  max_protection : Z;
  inherit_shared : bool;
  cow : bool;
  offset : Z;                   (* in pages, 36 bits and signed *)
  object : option Z;
  start : Z;
  end_ : Z
}.
Definition i36 (x : Z) : Z := (x + 2 ^ 35) mod 2 ^ 36 - 2 ^ 35.

Inductive vm_object_kind := kFile | kAnon.
Global Instance vm_object_kind_eq_dec : EqDecision vm_object_kind.
Proof. solve_decision. Defined.
(** [backing]: the vnode of a file, or the memory object. *)
Record vm_object := Obj { okind : vm_object_kind; vpml4 : Z; backing : Z; n_dirty_pages : Z; map_entry_list : list Z }.
Definition with_list l o := Obj (okind o) (vpml4 o) (backing o) (n_dirty_pages o) l.
Definition with_n_dirty n o := Obj (okind o) (vpml4 o) (backing o) n (map_entry_list o).

(** [ws_held] and [map_held]: the thread has the working set mutex, the map lock. *)
Record vm_procstate := Vps {
  vmem : Vmem.vmem ();
  vad_queue : list Z;
  pwsl : vmp_wsl;
  n_anonymous : Z;
  md_table : Z;
  ws_held : bool;
  map_held : bool
}.
Definition set_vmem x v := Vps x (vad_queue v) (pwsl v) (n_anonymous v) (md_table v) (ws_held v) (map_held v).
Definition set_vads x v := Vps (vmem v) x (pwsl v) (n_anonymous v) (md_table v) (ws_held v) (map_held v).
Definition set_pwsl x v := Vps (vmem v) (vad_queue v) x (n_anonymous v) (md_table v) (ws_held v) (map_held v).
Definition set_n_anonymous x v := Vps (vmem v) (vad_queue v) (pwsl v) x (md_table v) (ws_held v) (map_held v).
Definition set_ws_held x v := Vps (vmem v) (vad_queue v) (pwsl v) (n_anonymous v) (md_table v) x (map_held v).
Definition set_map_held x v := Vps (vmem v) (vad_queue v) (pwsl v) (n_anonymous v) (md_table v) (ws_held v) x.

(** A page-in under way. *)
Record pager := Pager { pg_refcnt : Z; pg_done : bool }.

(** A window of the file cache (vm/ubc.h), its offset in units of [UBC_WINDOW_SIZE]. *)
Record ubc_window := Window { w_offset : Z; w_refcnt : Z; w_vnode : Z }.

(** [refs]: the references to the vnodes and memory objects behind mappings.  [page_offset],
    [pager_request] and [wsi_hint] are fields of pages that Resident.v leaves out;
    [vnode_object] is [vnode->object]. *)
Record ast := Ast {
  procs : gmap Z vm_procstate;
  map_entries : gmap Z vm_map_entry;
  vm_objects : gmap Z vm_object;
  refs : gmap Z Z;
  pg : pst;
  pfn_held : bool;
  page_offset : gmap Z Z;
  pager_request : gmap Z Z;
  wsi_hint : gmap Z Z;
  pagers : gmap Z pager;
  window_array : list ubc_window;
  vnode_object : gmap Z Z
}.
Definition set_procs x s := Ast x (map_entries s) (vm_objects s) (refs s) (pg s) (pfn_held s) (page_offset s) (pager_request s) (wsi_hint s) (pagers s) (window_array s) (vnode_object s).
Definition set_map_entries x s := Ast (procs s) x (vm_objects s) (refs s) (pg s) (pfn_held s) (page_offset s) (pager_request s) (wsi_hint s) (pagers s) (window_array s) (vnode_object s).
Definition set_vm_objects x s := Ast (procs s) (map_entries s) x (refs s) (pg s) (pfn_held s) (page_offset s) (pager_request s) (wsi_hint s) (pagers s) (window_array s) (vnode_object s).
Definition set_refs x s := Ast (procs s) (map_entries s) (vm_objects s) x (pg s) (pfn_held s) (page_offset s) (pager_request s) (wsi_hint s) (pagers s) (window_array s) (vnode_object s).
Definition set_pg x s := Ast (procs s) (map_entries s) (vm_objects s) (refs s) x (pfn_held s) (page_offset s) (pager_request s) (wsi_hint s) (pagers s) (window_array s) (vnode_object s).
Definition set_pfn_held x s := Ast (procs s) (map_entries s) (vm_objects s) (refs s) (pg s) x (page_offset s) (pager_request s) (wsi_hint s) (pagers s) (window_array s) (vnode_object s).
Definition set_page_offset x s := Ast (procs s) (map_entries s) (vm_objects s) (refs s) (pg s) (pfn_held s) x (pager_request s) (wsi_hint s) (pagers s) (window_array s) (vnode_object s).
Definition set_pager_request x s := Ast (procs s) (map_entries s) (vm_objects s) (refs s) (pg s) (pfn_held s) (page_offset s) x (wsi_hint s) (pagers s) (window_array s) (vnode_object s).
Definition set_wsi_hint x s := Ast (procs s) (map_entries s) (vm_objects s) (refs s) (pg s) (pfn_held s) (page_offset s) (pager_request s) x (pagers s) (window_array s) (vnode_object s).
Definition set_pagers x s := Ast (procs s) (map_entries s) (vm_objects s) (refs s) (pg s) (pfn_held s) (page_offset s) (pager_request s) (wsi_hint s) x (window_array s) (vnode_object s).
Definition set_window_array x s := Ast (procs s) (map_entries s) (vm_objects s) (refs s) (pg s) (pfn_held s) (page_offset s) (pager_request s) (wsi_hint s) (pagers s) x (vnode_object s).
Definition set_vnode_object x s := Ast (procs s) (map_entries s) (vm_objects s) (refs s) (pg s) (pfn_held s) (page_offset s) (pager_request s) (wsi_hint s) (pagers s) (window_array s) x.

(** ** Access *)

Definition proc_at (p : Z) : kern ast vm_procstate := s ← get; deref "vm_procstate" (procs s !! p).
Definition proc_upd (p : Z) (f : vm_procstate → vm_procstate) : kern ast () :=
  v ← proc_at p; modify (λ s, set_procs (<[p := f v]> (procs s)) s).
Definition map_entry_at (e : Z) : kern ast vm_map_entry := s ← get; deref "vm_map_entry" (map_entries s !! e).
Definition map_entry_set (e : Z) (x : vm_map_entry) : kern ast () := modify (λ s, set_map_entries (<[e := x]> (map_entries s)) s).
Definition object_at (o : Z) : kern ast vm_object := s ← get; deref "vm_object" (vm_objects s !! o).
Definition object_set (o : Z) (x : vm_object) : kern ast () := modify (λ s, set_vm_objects (<[o := x]> (vm_objects s)) s).
Definition in_pg {A} (m : kern pst A) : kern ast A := zoom pg set_pg m.
(** An operation on the arena, and on the working set, of a process. *)
Definition in_vmem {A} (p : Z) (m : kern (Vmem.vmem ()) A) : kern ast A :=
  v ← proc_at p;
  r ← zoom (λ _, vmem v) (λ x s, set_procs (<[p := set_vmem x v]> (procs s)) s) m;
  mret r.
Definition in_wsl {A} (p : Z) (m : kern wst A) : kern ast A :=
  v ← proc_at p;
  zoom (λ s, Wst (pwsl v) (pg s)) (λ w s, set_pg (pages w) (set_procs (<[p := set_pwsl (wsl w) v]> (procs s)) s)) m.

(** ** Locks *)

Definition map_acquire (p : Z) : kern ast () :=
  v ← proc_at p; if map_held v then spin else proc_upd p (set_map_held true).
Definition map_release (p : Z) : kern ast () :=
  v ← proc_at p; kassert "mtx->owner == curthread()" (map_held v);; proc_upd p (set_map_held false).
Definition ws_acquire (p : Z) : kern ast () :=
  v ← proc_at p; if ws_held v then spin else proc_upd p (set_ws_held true).
Definition ws_release (p : Z) : kern ast () :=
  v ← proc_at p; kassert "mtx->owner == curthread()" (ws_held v);; proc_upd p (set_ws_held false).
Definition vmp_acquire_pfn_lock : kern ast () := s ← get; if pfn_held s then spin else modify (set_pfn_held true).
Definition vmp_release_pfn_lock : kern ast () := modify (set_pfn_held false).

(** ** The rest of the system

    What other threads do to the state while this one waits, for the event of a page-in
    ([sleep_on]), for a page to be read from a file ([read_in]: the vnode, the page and the
    offset in bytes) or for free pages. *)
Class VmEnv := {
  kernel_process : Z;
  pagefile_vnode : Z;
  sleep_on : Z → kern ast ();
  read_in : Z → Z → Z → kern ast ();
  sleep_for_pages : kern ast ()
}.

(** ** Page-ins *)

Definition pager_at (g : Z) : kern ast pager := s ← get; deref "vmp_pager_state" (pagers s !! g).
Definition vmp_pager_state_retain (g : Z) : kern ast () :=
  x ← pager_at g;
  kassert "state->refcnt >= 0 && state->refcnt <= 5" ((0 <=? pg_refcnt x) && (pg_refcnt x <=? 5));;
  modify (λ s, set_pagers (<[g := Pager (pg_refcnt x + 1) (pg_done x)]> (pagers s)) s).
Definition vmp_pager_state_release (g : Z) : kern ast () :=
  x ← pager_at g;
  kassert "state->refcnt >= 0 && state->refcnt <= 5" ((0 <=? pg_refcnt x) && (pg_refcnt x <=? 5));;
  modify (λ s, set_pagers (if pg_refcnt x =? 1 then delete g (pagers s)
    else <[g := Pager (u32 (pg_refcnt x - 1)) (pg_done x)]> (pagers s)) s).
(** A new page-in of [page]. *)
Definition pager_start (page : Z) : kern ast Z :=
  s ← get;
  let g := fresh (dom (pagers s)) in
  modify (λ s, set_pager_request (<[page := g]> (pager_request s)) (set_pagers (<[g := Pager 1 false]> (pagers s)) s));;
  mret g.
(** [ke_event_signal(&pgstate->event)], and our reference goes. *)
Definition pager_finish (g : Z) : kern ast () :=
  x ← pager_at g;
  modify (λ s, set_pagers (<[g := Pager (pg_refcnt x) true]> (pagers s)) s);;
  vmp_pager_state_release g.
Definition page_pager (page : Z) : kern ast Z := s ← get; deref "page->pager_request" (pager_request s !! page).

(** ** Wired entries *)

(** What [vmp_wire_pte] returns: 0 or, when it released its locks, 1, with the entry and the
    tables, the leaf first; or the level at which there is no table. *)
Inductive wired := WiredPte (r pte : Z) (pages : list Z) | NoTable (level : nat).

Section wire.
Context `{PteFormat} `{VmEnv}.

(** The waits of a walk; [fuel] bounds their number. *)
Fixpoint wire_waits (fuel : nat) (a : walk_args) (released : bool) (w : wire_result) : kern ast wired :=
  match w with
  | Wired pte pages => mret (WiredPte (if released then 1 else 0) pte pages)
  | Missing level => mret (NoTable level)
  | WaitBusy level table pages page =>
      match fuel with
      | O => spin
      | S fuel' =>
          g ← page_pager page;
          vmp_pager_state_retain g;;
          vmp_release_pfn_lock;;
          ws_release (wa_ps a);;
          sleep_on g;;
          vmp_pager_state_release g;;
          ws_acquire (wa_ps a);;
          vmp_acquire_pfn_lock;;
          w ← in_pg (wire_walk level a table pages);
          wire_waits fuel' a true w
      end
  | WaitPageIn level pages pte page drumslot =>
      match fuel with
      | O => spin
      | S fuel' =>
          pager_start page;;
          vmp_release_pfn_lock;;
          ws_release (wa_ps a);;
          read_in pagefile_vnode page (u64 (drumslot * PGSIZE));;
          ws_acquire (wa_ps a);;
          vmp_acquire_pfn_lock;;
          w ← in_pg (wire_pagein_done level a pages pte page);
          wire_waits fuel' a true w
      end
  end.
Definition WAITS : nat := 64.
Definition wire (p vaddr : Z) (obj : option Z) (create : bool) : kern ast wired :=
  root ← match obj with
         | None => v ← proc_at p; mret (md_table v)
         | Some o => x ← object_at o; mret (vpml4 x)
         end;
  let a := WalkArgs p vaddr obj create in
  w ← in_pg (vmp_wire_pte a root);
  wire_waits WAITS a false w.
Definition unwire (pages : list Z) (prototype : bool) : kern ast () :=
  in_pg (vmp_pte_wire_state_release (map Some pages) prototype).
End wire.

(** References to a vnode or a memory object. *)
Definition ref_add (o d : Z) : kern ast () :=
  s ← get; n ← deref "refcount" (refs s !! o); modify (set_refs (<[o := n + d]> (refs s))).
End Aspace.
