(* ===== verification/VmMap.v ===== *)
(** Mappings of address spaces: kernel/vm/map.c, and [vmp_unmap_range] of
    kernel/vm/tables.c.

    The tree of a process's mappings, whose order is [vmp_vad_cmp], is the list of its
    elements in that order. *)
From S2P Require Import Prelude Vmem Pte Resident Tables PageAlloc Walk Wsl Aspace.
Import Resident Tables PageAlloc Walk Wsl Aspace.
Local Open Scope Z_scope.

Module VmMap.

(** ** The tree of mappings *)

(** [vmp_vad_cmp] of an entry that starts at [x] and of [y]. *)
Definition vmp_vad_cmp (x : Z) (y : vm_map_entry) : comparison :=
  if x <? start y then Lt else if end_ y <=? x then Gt else Eq.

(** [RB_FIND] and [RB_INSERT]: an element equal to one that is there is not inserted. *)
Fixpoint vad_find (l : list Z) (x : Z) : kern ast (option Z) :=
  match l with
  | [] => mret None
  | e :: l' =>
      y ← map_entry_at e;
      match vmp_vad_cmp x y with
      | Lt => mret None
      | Eq => mret (Some e)
      | Gt => vad_find l' x
      end
  end.
Fixpoint vad_insert (l : list Z) (x e : Z) : kern ast (list Z) :=
  match l with
  | [] => mret [e]
  | f :: l' =>
      y ← map_entry_at f;
      match vmp_vad_cmp x y with
      | Lt => mret (e :: l)
      | Eq => mret l
      | Gt => r ← vad_insert l' x e; mret (f :: r)
      end
  end.
Definition vmp_ps_vad_find (p vaddr : Z) : kern ast (option Z) :=
  v ← proc_at p; vad_find (vad_queue v) vaddr.
Definition vad_tree_insert (p e : Z) : kern ast () :=
  v ← proc_at p;
  x ← map_entry_at e;
  l ← vad_insert (vad_queue v) (start x) e;
  proc_upd p (set_vads l).
Definition vad_tree_remove (p e : Z) : kern ast () :=
  v ← proc_at p;
  l ← deref "RB_REMOVE" (q_remove e (vad_queue v));
  proc_upd p (set_vads l).

(** ** The mappings of an object *)

Definition object_map_list_insert (o e : Z) : kern ast () :=
  x ← object_at o; object_set o (with_list (e :: map_entry_list x) x).
(** [o] may be NULL; its lock is taken first. *)
Definition object_map_list_remove (o : option Z) (e : Z) : kern ast () :=
  o ← deref "object->map_entry_list_lock" o;
  x ← object_at o;
  l ← deref "LIST_REMOVE" (q_remove e (map_entry_list x));
  object_set o (with_list l x).

(** ** Mapping *)

Definition alloc_range (p size addr : Z) (exact : bool) : kern ast Z :=
  r ← in_vmem p (Vmem.vmem_xalloc Vmem.no_alloc Vmem.no_free size 0 0 0 addr 0 (if exact then Vmem.kVMemExact else 0));
  match r with
  | inl _ => fatal "vm_ps_map_object_view failed at vmem_xalloc"
  | inr addr => mret addr
  end.
Definition map_entry_new (x : vm_map_entry) : kern ast Z :=
  s ← get;
  let e := fresh (dom (map_entries s)) in
  map_entry_set e x;; mret e.

(** The result is what is stored to [*vaddrp]. *)
Definition vm_ps_map_object_view (p : Z) (obj : option Z) (vaddr size off initial_protection max_protection : Z)
    (inherit_shared cow exact : bool) : kern ast Z :=
  kassert "size % PGSIZE == 0" (size mod PGSIZE =? 0);;
  kassert "offset % PGSIZE == 0" (off mod PGSIZE =? 0);;
  map_acquire p;;
  addr ← alloc_range p size (if exact then vaddr else 0) exact;
  e ← map_entry_new (MapEntry (Z.land initial_protection kVMAll) (Z.land max_protection kVMAll) inherit_shared cow
        (i36 (off / PGSIZE)) obj addr (u64 (addr + size)));
  match obj with
  | None => mret ()
  | Some o => object_map_list_insert o e;; x ← object_at o; ref_add (backing x) 1
  end;;
  vad_tree_insert p e;;
  map_release p;;
  mret addr.
Definition vm_ps_allocate (p vaddr size : Z) (exact : bool) : kern ast Z :=
  vm_ps_map_object_view p None vaddr size 0 kVMAll kVMAll false false exact.

Section map.
Context `{PteFormat} `{VmEnv}.

(** The loop of [vm_ps_map_physical_view] ([n] pages are left): the next entry of the table
    that is wired, or the first of the next table. *)
Definition next_entry (cur : option (Z * list Z)) : option (Z * list Z) :=
  '(pte, pages) ← cur;
  if Z.land (pte + 8) (PGSIZE - 1) =? 0 then None else Some (pte + 8, pages).
Fixpoint map_pages (n : nat) (p addr pfn : Z) (cur : option (Z * list Z)) : kern ast () :=
  match n with
  | O => mret ()
  | S n' =>
      w ← match next_entry cur with
          | Some w => mret w
          | None =>
              match cur with Some (_, pages) => unwire pages false | None => mret () end;;
              w ← wire kernel_process addr None true;
              match w with
              | WiredPte 0 pte pages => mret (pte, pages)
              | _ => fatal "r == 0"
              end
          end;
      in_pg (
        word_set w.1 (vmp_md_pte_create_hw pfn true false true false);;
        leaf ← deref "pgtable_pages[0]" (hd_error w.2);
        vmp_pagetable_page_noswap_pte_created leaf true);;
      map_pages n' p (u64 (addr + PGSIZE)) (pfn + 1) (Some w)
  end.
(** The last table stays wired. *)
Definition vm_ps_map_physical_view (p vaddr size phys initial_protection max_protection : Z) (exact : bool) : kern ast Z :=
  kassert "size % PGSIZE == 0" (size mod PGSIZE =? 0);;
  kassert "phys % PGSIZE == 0" (phys mod PGSIZE =? 0);;
  map_acquire p;;
  addr ← alloc_range p size (if exact then vaddr else 0) exact;
  e ← map_entry_new (MapEntry (Z.land initial_protection kVMAll) (Z.land max_protection kVMAll) false false
        (i36 (phys / PGSIZE)) None addr (u64 (addr + size)));
  vmp_acquire_pfn_lock;;
  map_pages (Z.to_nat (size / PGSIZE)) p addr (Z.shiftr phys VMP_PAGE_SHIFT) None;;
  vmp_release_pfn_lock;;
  vad_tree_insert p e;;
  map_release p;;
  mret addr.

(** ** Unmapping *)

(** One entry of [vmp_unmap_range]. *)
Definition unmap_pte (p addr pte : Z) : kern ast () :=
  w ← in_pg (word_at pte);
  let pte_page := vm_paddr_to_page (ROUNDDOWN pte PGSIZE) in
  match vmp_pte_characterise w with
  | kPTEKindValid =>
      let page := vm_paddr_to_page (vmp_pte_hw_paddr w) in
      s ← get;
      in_wsl p (vmp_wsl_remove addr (default 0 (wsi_hint s !! page)));;
      in_pg (word_set pte 0;; pte_deleted pte_page false);;
      x ← in_pg (page_at page);
      when (bool_decide (use x = kPageUseAnonPrivate))
        (proc_upd p (λ v, set_n_anonymous (u64 (n_anonymous v - 1)) v);; in_pg (vmp_page_delete_locked page));;
      in_pg (vmp_page_release_locked page)
  | kPTEKindTrans =>
      page ← deref "vmp_md_soft_pte_pfn" (vmp_md_soft_pte_pfn w);
      in_pg (word_set pte 0;; pte_deleted pte_page false);;
      x ← in_pg (page_at page);
      kassert "page->use == kPageUseAnonPrivate" (bool_decide (use x = kPageUseAnonPrivate));;
      proc_upd p (λ v, set_n_anonymous (u64 (n_anonymous v - 1)) v);;
      in_pg (vmp_page_delete_locked page)
  | kPTEKindBusy => fatal "Not handled yet"
  | kPTEKindSwap =>
      in_pg (word_set pte 0;; pte_deleted pte_page true);;
      proc_upd p (λ v, set_n_anonymous (u64 (n_anonymous v - 1)) v)
  | kPTEKindFork => fatal "Not handled yet"
  | kPTEKindZero => mret ()
  end.
(** The bytes an entry at [level] maps. *)
Definition level_align (level : nat) : option Z :=
  match level with
  | 2%nat => Some (PGSIZE * 512)
  | 3%nat => Some (PGSIZE * 512 * 512)
  | 4%nat => Some (PGSIZE * 512 * 512 * 512)
  | _ => None
  end.
(** Every round advances by a page at least.  Tables are looked for in [q], the entries'
    pages are [p]'s; the result is what is still wired. *)
Fixpoint unmap_loop (fuel : nat) (q p addr stop : Z) (cur : option (Z * list Z)) : kern ast (option (list Z)) :=
  if addr <? stop then
    match fuel with
    | O => spin
    | S fuel' =>
        match next_entry cur with
        | Some w => unmap_pte p addr w.1;; unmap_loop fuel' q p (u64 (addr + PGSIZE)) stop (Some w)
        | None =>
            match cur with Some (_, pages) => unwire pages false | None => mret () end;;
            w ← wire q addr None false;
            match w with
            | WiredPte _ pte pages =>
                unmap_pte p addr pte;; unmap_loop fuel' q p (u64 (addr + PGSIZE)) stop (Some (pte, pages))
            | NoTable level =>
                align ← deref "Unexpected offset" (level_align level);
                let addr := ROUNDUP (u64 (addr + 1)) align in
                if stop <=? addr then mret None else unmap_loop fuel' q p addr stop None
            end
        end
    end
  else mret (snd <$> cur).
Definition vmp_unmap_range (p first stop : Z) : kern ast () :=
  ws_acquire p;;
  vmp_acquire_pfn_lock;;
  r ← unmap_loop (Z.to_nat ((stop - first) / PGSIZE + 1)) kernel_process p first stop None;
  match r with Some pages => unwire pages false | None => mret () end;;
  vmp_release_pfn_lock;;
  ws_release p.

(** [int r = vmem_xfree(..); kassert(r == entry->end - entry->start)]: the [int] is
    converted to 64 bits. *)
Definition free_range (p : Z) (x : vm_map_entry) : kern ast () :=
  r ← in_vmem p (Vmem.vmem_xfree Vmem.no_free (start x) (u64 (end_ x - start x)) 0);
  kassert "r == entry->end - entry->start" (u64 r =? u64 (end_ x - start x)).
(** [vmem_xalloc(.., 0, ~0, 0, &..)], which gives an address; the result is an [int]. *)
Definition realloc_range (p size : Z) : kern ast Z :=
  r ← in_vmem p (Vmem.vmem_xalloc Vmem.no_alloc Vmem.no_free size 0 0 0 0 (2 ^ 64 - 1) 0);
  match r with inr a => mret a | inl _ => fatal "r == 0" end.
(** [VN_RELEASE(entry->object->file.vnode)]; a memory object is not a vnode. *)
Definition release_object (o : Z) : kern ast () :=
  x ← object_at o;
  match okind x with
  | kFile => ref_add (backing x) (-1)
  | kAnon => fatal "VN_RELEASE of a memory object"
  end.

Definition with_start a x := MapEntry (protection x) (max_protection x) (inherit_shared x) (cow x) (offset x) (object x) a (end_ x).
Definition with_end a x := MapEntry (protection x) (max_protection x) (inherit_shared x) (cow x) (offset x) (object x) (start x) a.
Definition map_entry_free (e : Z) : kern ast () := modify (λ s, set_map_entries (delete e (map_entries s)) s).

(** The whole mapping goes. *)
Definition dealloc_whole (p e : Z) (x : vm_map_entry) : kern ast () :=
  free_range p x;;
  vad_tree_remove p e;;
  object_map_list_remove (object x) e;;
  vmp_unmap_range p (start x) (end_ x);;
  match object x with Some o => release_object o | None => mret () end;;
  map_entry_free e.
(** One round of the loop of [vm_ps_deallocate]. *)
Definition dealloc_entry (p first stop e : Z) : kern ast () :=
  x ← map_entry_at e;
  if ((start x <? first) && (end_ x <=? first)) || (stop <=? start x) then mret ()
  else if (first <=? start x) && (end_ x <=? stop) then dealloc_whole p e x
  else if (start x <? first) && (first <? end_ x) && (end_ x <=? stop) then
    free_range p x;;
    deref "entry->object->map_entry_list_lock" (object x);;
    map_entry_set e (with_end first x);;
    vmp_unmap_range p first first;;
    realloc_range p (u64 (first - start x));;
    mret ()
  else if (first <=? start x) && (start x <? stop) && (stop <? end_ x) then
    free_range p x;;
    deref "entry->object->map_entry_list_lock" (object x);;
    map_entry_set e (with_start stop x);;
    vmp_unmap_range p stop stop;;
    a ← realloc_range p (u64 (end_ x - stop));
    map_entry_set e (with_start a x)
  else if (start x <? first) && (stop <? end_ x) then
    free_range p x;;
    vmp_unmap_range p first stop;;
    fatal "Implement me"
  else mret ().
Fixpoint dealloc_entries (l : list Z) (p first stop : Z) : kern ast () :=
  match l with
  | [] => mret ()
  | e :: l' => dealloc_entry p first stop e;; dealloc_entries l' p first stop
  end.
Definition vm_ps_deallocate (p first size : Z) : kern ast () :=
  map_acquire p;;
  v ← proc_at p;
  dealloc_entries (vad_queue v) p first (u64 (first + size));;
  map_release p.

(** ** Address spaces *)

Definition KVM_DYNAMIC_BASE : Z := 0xffff810000000000.
Definition KVM_DYNAMIC_SIZE : Z := 0x10000000000.
Definition LOWER_HALF : Z := 0x10000.
Definition LOWER_HALF_SIZE : Z := 0x0000800000000000 - LOWER_HALF.

(** The root table comes from [vmp_md_ps_init]; the process joins the balance set. *)
Definition vm_ps_init (p root : Z) : kern ast () :=
  v ← proc_at p;
  in_vmem p (if p =? kernel_process
    then Vmem.vmem_init KVM_DYNAMIC_BASE KVM_DYNAMIC_SIZE PGSIZE Vmem.kVMemBootstrap false
    else Vmem.vmem_init LOWER_HALF LOWER_HALF_SIZE PGSIZE Vmem.kVMemBootstrap false);;
  proc_upd p (λ v, Vps (vmem v) [] vmp_wsl_init 0 root false false).
End map.
End VmMap.
