(* ===== verification/VmMapProofs.v ===== *)
(** Well-formed address spaces: every process's mappings are in order and disjoint, and are
    exactly the ranges its arena has handed out; every object lists its mappings, and each
    of them holds a reference to what is behind the object.  The operations of
    kernel/vm/map.c keep this. *)
From S2P Require Import Prelude Vmem VmemSpec VmemProofs VmemAlloc VmemFree VmemTheorems.
From S2P Require Import Pte Resident Tables PageAlloc Walk Wsl Aspace VmMap.
Import Resident Tables PageAlloc Walk Wsl Aspace VmMap.
Local Open Scope Z_scope.

(** ** The arena, to its client *)

Lemma live_range top vm b sz : arena_inv top vm → (b, sz) ∈ live (segments vm) → 0 ≤ b ∧ 0 < sz ∧ b + sz ≤ top.
Proof.
  intros ((L & Hok) & _ & _) (g & Hg & Ha & <- & <-)%live_elem. apply list_elem_of_split in Hg as (V1 & V2 & HV).
  pose proof (ok_top _ _ _ Hok). pose proof (ok_layout _ _ _ Hok) as Hl. rewrite HV in Hl.
  apply layout_seg_range in Hl; [lia|lia].
Qed.
Lemma arena_take top vm sz min flags : arena_inv top vm → request_ok top sz 0 min →
  (min = 0 ∨ Vmem.has_flag flags Vmem.kVMemExact = true) → supply_ok flags vm →
  wp (Vmem.vmem_xalloc Vmem.no_alloc Vmem.no_free sz 0 0 0 min 0 flags) (λ r vm',
    match r with
    | inr a => arena_inv top vm' ∧ live (segments vm') ≡ₚ (a, sz) :: live (segments vm) ∧
        disjoint_from a sz (live (segments vm)) ∧ (Vmem.has_flag flags Vmem.kVMemExact = true → a = min)
    | inl _ => arena_inv top vm' ∧ nothing_fits sz 0 min flags (segments vm)
    end) vm.
Proof.
  intros ((L & Hok) & Hu & Hn) Hreq Hex Hs.
  eapply wp_mono; [by eapply (xalloc_ok top L Vmem.no_alloc)|]. simpl. intros [e|a] vm'; simpl.
  - intros (_ & Hno & Hseg & Hu' & (l & r & Hok') & _). split; [|done]. unfold arena_inv, used_ok in *. rewrite Hseg.
    split_and!; [by eexists|congruence|done].
  - intros (Hok' & Hu' & [[Hstep _]|(_ & _ & alloc & _ & Hx & _)]); [|done].
    pose proof (ok_top _ _ _ Hok). split_and!.
    + split_and!; [by exists L| |by eapply not_imported_alloc]. eapply used_grows; [done..|]. by eapply live_alloc_step.
    + by eapply live_alloc_step.
    + eapply alloc_step_disjoint; [done|apply (ok_layout _ _ _ Hok')|lia].
    + intros Hf. destruct Hstep as [V1 g V2 _ (_ & _ & _ & He)]. by apply He.
Qed.
Lemma arena_give top vm a sz flags : arena_inv top vm → (a, sz) ∈ live (segments vm) →
  wp (Vmem.vmem_xfree Vmem.no_free a sz flags) (λ r vm', r = i32 sz ∧ arena_inv top vm' ∧
    live (segments vm) ≡ₚ (a, sz) :: live (segments vm')) vm.
Proof.
  intros ((L & Hok) & Hu & Hn) (g & Hg & Ha & Hb & Hsz)%live_elem. eapply wp_mono.
  { eapply (xfree_ok top L vm Vmem.no_free a sz flags g Hok (not_imported_uniform _ Hn)); [done..|]. by right. }
  simpl. intros r vm' (-> & Hok' & Hu' & Hfreed). rewrite Hsz in *. split; [done|].
  assert (live (segments vm) ≡ₚ (a, sz) :: live (segments vm')) as Hlive.
  { destruct (live_freed _ _ _ _ _ _ _ Hfreed) as (g' & Hg' & Ha' & Hb' & Hp).
    assert (g' = g) as -> by (apply (arena_alloc_unique top L vm); try done; congruence). by rewrite Hsz in Hp. }
  split; [|done]. split_and!; [by exists L|by eapply used_shrinks|by eapply not_imported_freed].
Qed.

(** ** Mappings in order *)

Fixpoint ordered (lo : Z) (X : list vm_map_entry) : Prop :=
  match X with
  | [] => True
  | x :: X' => lo ≤ start x ∧ start x < end_ x ∧ ordered (end_ x) X'
  end.
Definition range (x : vm_map_entry) : Z * Z := (start x, end_ x - start x).
Definition covers (x : vm_map_entry) (a : Z) : Prop := start x ≤ a < end_ x.

Lemma ordered_app lo X Y : ordered lo (X ++ Y) ↔ ordered lo X ∧ ordered (default lo (end_ <$> last X)) Y.
Proof.
  revert lo. induction X as [|x X IH]; intros lo; [naive_solver|]. simpl. rewrite IH. rewrite last_cons.
  destruct (last X) as [z|]; simpl; tauto.
Qed.
Lemma ordered_lo lo lo' X : lo' ≤ lo → ordered lo X → ordered lo' X.
Proof. destruct X; simpl; [done|]. intros ? (? & ? & ?). split_and!; try done. lia. Qed.
Lemma ordered_elem lo X x : ordered lo X → x ∈ X → lo ≤ start x ∧ start x < end_ x.
Proof.
  revert lo. induction X as [|y X IH]; intros lo Ho Hx; [by apply not_elem_of_nil in Hx|]. destruct Ho as (H1 & H2 & H3).
  apply elem_of_cons in Hx as [->|Hx]; [done|]. destruct (IH _ H3 Hx). lia.
Qed.
(** An address is in one mapping at most. *)
Lemma ordered_unique lo X1 x X2 y a : ordered lo (X1 ++ x :: X2) → y ∈ X1 ++ X2 → covers x a → ¬ covers y a.
Proof.
  rewrite ordered_app. intros [H1 (H2 & H3 & H4)] [Hy|Hy]%elem_of_app [Ha1 Ha2] [Hb1 Hb2].
  - apply list_elem_of_split in Hy as (Y1 & Y2 & ->). apply ordered_app in H1 as [_ (_ & _ & H1)].
    assert (end_ y ≤ default lo (end_ <$> last (Y1 ++ y :: Y2))); [|lia]. clear -H1. rewrite last_app_cons.
    revert H1. generalize (y). clear y. induction Y2 as [|z Y2 IH]; intros y H; [simpl; lia|].
    rewrite last_cons_cons. destruct H as (? & ? & H). specialize (IH z H). lia.
  - destruct (ordered_elem _ _ _ H4 Hy). lia.
Qed.

Section find.
Context (M : gmap Z vm_map_entry).
Notation entries := (Forall2 (λ e x, M !! e = Some x)).

Lemma vad_find_ok s l X lo a : map_entries s = M → entries l X → ordered lo X →
  wp (vad_find l a) (λ r s', s' = s ∧ match r with
    | Some e => ∃ x, e ∈ l ∧ M !! e = Some x ∧ covers x a
    | None => ∀ x, x ∈ X → ¬ covers x a end) s.
Proof.
  intros HM Hl. revert lo. induction Hl as [|e x l X He Hl IH]; intros lo Ho; simpl.
  { rewrite wp_ret. split; [done|]. intros x Hx. by apply not_elem_of_nil in Hx. }
  destruct Ho as (H1 & H2 & H3). rewrite wp_bind. unfold map_entry_at. rewrite wp_bind, wp_get, wp_deref, HM. exists x. split; [done|].
  unfold vmp_vad_cmp. destruct (Z.ltb_spec a (start x)); [|destruct (Z.leb_spec (end_ x) a)].
  - rewrite wp_ret. split; [done|]. intros y [->|Hy]%elem_of_cons [??]; [lia|]. destruct (ordered_elem _ _ _ H3 Hy). lia.
  - eapply wp_mono; [by eapply IH|]. intros [f|] s' [-> Hr]; split; try done.
    + destruct Hr as (y & Hy & ? & ?). exists y. rewrite elem_of_cons. auto.
    + intros y [->|Hy]%elem_of_cons; [unfold covers; lia|by apply Hr].
  - rewrite wp_ret. split; [done|]. exists x. rewrite elem_of_cons. unfold covers. split_and!; [by left|done|lia..].
Qed.
Lemma vad_insert_ok s l X lo e x : map_entries s = M → entries l X → ordered lo X → M !! e = Some x →
  lo ≤ start x → start x < end_ x → (∀ y, y ∈ X → end_ y ≤ start x ∨ end_ x ≤ start y) →
  wp (vad_insert l (start x) e) (λ r s', s' = s ∧ ∃ l1 l2 X1 X2, l = l1 ++ l2 ∧ r = l1 ++ e :: l2 ∧ X = X1 ++ X2 ∧
    entries l1 X1 ∧ entries l2 X2 ∧ ordered lo (X1 ++ x :: X2)) s.
Proof.
  intros HM Hl Ho He Hlo Hx. revert lo Ho Hlo. induction Hl as [|f y l X Hf Hl IH]; intros lo Ho Hlo Hd; simpl.
  { rewrite wp_ret. split; [done|]. exists [], [], [], []. split_and!; try done; by constructor. }
  destruct Ho as (H1 & H2 & H3). rewrite wp_bind. unfold map_entry_at. rewrite wp_bind, wp_get, wp_deref, HM. exists y. split; [done|].
  destruct (Hd y) as [Hc|Hc]; [by apply elem_of_cons; left|..].
  - unfold vmp_vad_cmp. rewrite (proj2 (Z.ltb_ge _ _)) by lia. rewrite (proj2 (Z.leb_le _ _)) by lia.
    rewrite wp_bind. eapply wp_mono; [apply (IH (end_ y)); [done|lia|]|].
    { intros z Hz. apply Hd, elem_of_cons. by right. }
    intros r s' (-> & l1 & l2 & X1 & X2 & -> & -> & -> & Hl1 & Hl2 & Ho). rewrite wp_ret. split; [done|].
    exists (f :: l1), l2, (y :: X1), X2. split_and!; try done. by constructor.
  - unfold vmp_vad_cmp. rewrite (proj2 (Z.ltb_lt _ _)) by lia. rewrite wp_ret. split; [done|].
    exists [], (f :: l), [], (y :: X). split_and!; try done; try by constructor.
Qed.
End find.

(** ** Well-formed address spaces *)

(** Every arena ends here or below. *)
Definition TOP : Z := KVM_DYNAMIC_BASE + KVM_DYNAMIC_SIZE.

(** [H] gives the process each mapping belongs to, also while it is in no tree. *)
Notation homes := (gmap Z Z).
Definition entries_of (s : ast) : list Z → list vm_map_entry → Prop := Forall2 (λ e x, map_entries s !! e = Some x).
Record proc_wf (H : homes) (s : ast) (p : Z) (v : vm_procstate) (X : list vm_map_entry) : Prop := ProcWf {
  pw_entries : entries_of s (vad_queue v) X;
  pw_ordered : ordered 0 X;
  pw_arena : arena_inv TOP (vmem v);
  pw_live : live (segments (vmem v)) ≡ₚ map range X;
  pw_home : ∀ e, e ∈ vad_queue v → H !! e = Some p
}.
(** The mappings of [o]. *)
Definition views (M : gmap Z vm_map_entry) (o : Z) : gmap Z vm_map_entry := filter (λ ex, object ex.2 = Some o) M.
Definition in_tree (s : ast) (e : Z) : Prop := ∃ p v, procs s !! p = Some v ∧ e ∈ vad_queue v.
Record wf (H : homes) (s : ast) : Prop := Wf {
  wf_proc : ∀ p v, procs s !! p = Some v → ∃ X, proc_wf H s p v X;
  wf_home : ∀ e, is_Some (H !! e) ↔ is_Some (map_entries s !! e);
  wf_list : ∀ o y, vm_objects s !! o = Some y → NoDup (map_entry_list y) ∧
    ∀ e, e ∈ map_entry_list y ↔ in_tree s e ∧ is_Some (views (map_entries s) o !! e);
  wf_refs : ∀ o y, vm_objects s !! o = Some y →
    ∃ n, refs s !! backing y = Some n ∧ Z.of_nat (base.size (views (map_entries s) o)) ≤ n;
  wf_backing : ∀ o o' y y', vm_objects s !! o = Some y → vm_objects s !! o' = Some y' → backing y = backing y' → o = o'
}.

(** ** What does not concern mappings *)

Definition maps_of (v : vm_procstate) := (vmem v, vad_queue v, map_held v).
Record maps_eq (s s' : ast) : Prop := MapsEq {
  me_procs : maps_of <$> procs s' = maps_of <$> procs s;
  me_entries : map_entries s' = map_entries s;
  me_objects : vm_objects s' = vm_objects s;
  me_refs : refs s' = refs s
}.
Lemma maps_eq_refl s : maps_eq s s.
Proof. by split. Qed.
Lemma maps_eq_sym s s' : maps_eq s s' → maps_eq s' s.
Proof. intros [? ? ? ?]. by split. Qed.
Lemma maps_eq_trans s1 s2 s3 : maps_eq s1 s2 → maps_eq s2 s3 → maps_eq s1 s3.
Proof. intros [? ? ? ?] [? ? ? ?]. split; congruence. Qed.
Lemma maps_eq_proc s s' p v : maps_eq s s' → procs s !! p = Some v → ∃ v', procs s' !! p = Some v' ∧ maps_of v' = maps_of v.
Proof.
  intros [Hp _ _ _] Hv. apply (f_equal (.!! p)) in Hp. rewrite !lookup_fmap, Hv in Hp. simpl in Hp.
  apply fmap_Some in Hp as (v' & ? & ?). eauto.
Qed.
Lemma maps_eq_upd s p v v' : procs s !! p = Some v → maps_of v' = maps_of v → maps_eq s (set_procs (<[p := v']> (procs s)) s).
Proof.
  intros Hv Hm. split; try done. simpl. rewrite fmap_insert, Hm. apply insert_id. by rewrite lookup_fmap, Hv.
Qed.
(** Only the arenas and trees of processes count. *)
Definition trees_in (s s' : ast) : Prop := ∀ p v, procs s !! p = Some v →
  ∃ v', procs s' !! p = Some v' ∧ vmem v' = vmem v ∧ vad_queue v' = vad_queue v.
Lemma in_tree_same s s' e : trees_in s s' → in_tree s e → in_tree s' e.
Proof. intros Ht (p & v & Hv & Hin). destruct (Ht p v Hv) as (v' & Hv' & _ & Hl). exists p, v'. by rewrite Hl. Qed.
Lemma wf_same H s s' : trees_in s s' → trees_in s' s → map_entries s' = map_entries s → vm_objects s' = vm_objects s → refs s' = refs s →
  wf H s → wf H s'.
Proof.
  intros Ht1 Ht2 He Ho Hf [Hp Hh Hl Hr Hb]. split; rewrite ?He, ?Ho, ?Hf; try done.
  - intros p v' Hv'. destruct (Ht2 p v' Hv') as (v & Hv & Hm1 & Hm2). destruct (Hp p v Hv) as (X & [H1 H2 H3 H4 H5]). exists X.
    rewrite Hm1 in *. rewrite Hm2 in *. split; try done. unfold entries_of. by rewrite He.
  - intros o y Hy. destruct (Hl o y Hy) as [Hnd Hin]. split; [done|]. intros e. rewrite Hin. split; intros [? ?]; (split; [by eapply in_tree_same|done]).
Qed.
Lemma wf_maps_eq H s s' : maps_eq s s' → wf H s → wf H s'.
Proof.
  intros Heq. assert (∀ s s', maps_eq s s' → trees_in s s') as Ht.
  { intros s1 s2 H12 p v Hv. destruct (maps_eq_proc _ _ _ _ H12 Hv) as (v' & Hv' & Hm). injection Hm as ? ? _. eauto. }
  pose proof Heq as [_ He Ho Hf]. apply wf_same; try done; apply Ht; [done|by apply maps_eq_sym].
Qed.
Lemma wf_map_held H s p v b : procs s !! p = Some v → wf H s → wf H (set_procs (<[p := set_map_held b v]> (procs s)) s).
Proof.
  intros Hv. apply wf_same; try done; intros q w Hw; simpl in *; (destruct (decide (q = p)) as [->|Hq]; [|rewrite lookup_insert_ne in * by done; eauto]).
  - rewrite lookup_insert_eq. assert (w = v) as -> by congruence. eauto.
  - rewrite lookup_insert_eq in Hw. injection Hw as <-. eauto.
Qed.

(** Code that keeps [J], a property of mappings. *)
Section keeps.
Context (J : ast → Prop).
Definition keeps {A} (m : kern ast A) : Prop := ∀ s, J s → wlp m (λ _ s', J s') s.
Lemma keeps_ret {A} (a : A) : keeps (mret a).
Proof. by intros s. Qed.
Lemma keeps_fatal {A} why : keeps (@fatal _ A why).
Proof. by intros s. Qed.
Lemma keeps_spin {A} : keeps (@spin _ A).
Proof. by intros s. Qed.
Lemma keeps_get : keeps get.
Proof. by intros s. Qed.
Lemma keeps_kassert why b : keeps (kassert why b).
Proof. by destruct b; intros s. Qed.
Lemma keeps_deref {A} why (o : option A) : keeps (deref why o).
Proof. by destruct o; intros s. Qed.
Lemma keeps_bind {A B} (m : kern ast A) (f : A → kern ast B) : keeps m → (∀ a, keeps (f a)) → keeps (m ≫= f).
Proof. intros Hm Hf s Hs. rewrite wlp_bind. eapply wlp_mono; [by apply Hm|]. intros a s' Hs'. by apply Hf. Qed.
Lemma keeps_when b m : keeps m → keeps (when b m).
Proof. intros Hm s Hs. rewrite wlp_when. destruct b; [by apply Hm|done]. Qed.
Context (Hpages : ∀ s s', J s → maps_eq s s' → J s').
Lemma keeps_eq {A} (m : kern ast A) : (∀ s, wlp m (λ _ s', maps_eq s s') s) → keeps m.
Proof. intros Hm s Hs. eapply wlp_mono; [apply Hm|]. intros a s' Heq. by eapply Hpages. Qed.
Lemma keeps_modify f : (∀ s, maps_eq s (f s)) → keeps (modify f).
Proof. intros Hf. apply keeps_eq. intros s. apply Hf. Qed.
Lemma keeps_in_pg {A} (m : kern pst A) : keeps (in_pg m).
Proof. apply keeps_eq. intros s. unfold wlp, in_pg, zoom. by destruct (m (pg s)) as [[a t]| |]. Qed.
Lemma proc_at_run p s : proc_at p s = match procs s !! p with Some v => Ok (v, s) | None => Fatal "vm_procstate" end.
Proof. unfold proc_at, mbind, kern_bind, get, deref. by destruct (procs s !! p). Qed.
Lemma keeps_in_wsl {A} p (m : kern wst A) : keeps (in_wsl p m).
Proof.
  apply keeps_eq. intros s. unfold in_wsl. rewrite wlp_bind. unfold wlp at 1. rewrite proc_at_run. destruct (procs s !! p) as [v|] eqn:Hv; [|done].
  unfold wlp, zoom. destruct (m _) as [[a t]| |]; [|done..]. eapply maps_eq_trans; [by eapply (maps_eq_upd s p v (set_pwsl (wsl t) v))|]. by split.
Qed.
Lemma keeps_proc_at p : keeps (proc_at p).
Proof. intros s Hs. unfold wlp. rewrite proc_at_run. by destruct (procs s !! p). Qed.
Lemma keeps_proc_upd p f : (∀ v, maps_of (f v) = maps_of v) → keeps (proc_upd p f).
Proof.
  intros Hf. apply keeps_eq. intros s. unfold proc_upd. rewrite wlp_bind. unfold wlp at 1. rewrite proc_at_run.
  destruct (procs s !! p) as [v|] eqn:Hv; [|done]. rewrite wlp_modify. by eapply maps_eq_upd.
Qed.
End keeps.

Create HintDb keeps discriminated.
#[export] Hint Resolve keeps_ret keeps_fatal keeps_spin keeps_get keeps_kassert keeps_deref keeps_proc_at : keeps.
(** Goes through straight-line code and its branches. *)
Ltac keeps_step := first
  [ solve [auto with keeps nocore]
  | apply keeps_proc_upd; [assumption|by intros []]
  | apply keeps_in_pg; assumption
  | apply keeps_in_wsl; assumption
  | apply keeps_bind; [|intros ?]
  | apply keeps_when
  | apply keeps_modify; [assumption|by intros ?; repeat case_match]
  | match goal with |- keeps _ (match ?x with _ => _ end) => destruct x end
  | match goal with |- keeps _ (if ?x then _ else _) => destruct x end ].

Section unmap.
Context `{F : PteFormat} `{E : VmEnv} (J : ast → Prop).
Context (Hpages : ∀ s s', J s → maps_eq s s' → J s').
Context (Hsleep : ∀ g, keeps J (sleep_on g)) (Hread : ∀ v p o, keeps J (read_in v p o)).

Lemma keeps_retain g : keeps J (vmp_pager_state_retain g).
Proof using Hpages. unfold vmp_pager_state_retain, pager_at. repeat keeps_step. Qed.
Lemma keeps_release g : keeps J (vmp_pager_state_release g).
Proof using Hpages. unfold vmp_pager_state_release, pager_at. repeat keeps_step. Qed.
Lemma keeps_pager_start page : keeps J (pager_start page).
Proof using Hpages. unfold pager_start. repeat keeps_step. Qed.
Lemma keeps_ws_acquire p : keeps J (ws_acquire p).
Proof using Hpages. unfold ws_acquire. repeat keeps_step. Qed.
Lemma keeps_ws_release p : keeps J (ws_release p).
Proof using Hpages. unfold ws_release. repeat keeps_step. Qed.
Lemma keeps_pfn_acquire : keeps J vmp_acquire_pfn_lock.
Proof using Hpages. unfold vmp_acquire_pfn_lock. repeat keeps_step. Qed.
Lemma keeps_pfn_release : keeps J vmp_release_pfn_lock.
Proof using Hpages. unfold vmp_release_pfn_lock. repeat keeps_step. Qed.
Lemma keeps_page_pager page : keeps J (page_pager page).
Proof using Hpages. unfold page_pager. repeat keeps_step. Qed.
Local Hint Resolve keeps_retain keeps_release keeps_pager_start keeps_ws_acquire keeps_ws_release keeps_pfn_acquire
  keeps_pfn_release keeps_page_pager Hsleep Hread : keeps.
Lemma keeps_waits fuel a b w : keeps J (wire_waits fuel a b w).
Proof using Hpages Hsleep Hread. revert b w. induction fuel as [|fuel IH]; intros b w; destruct w; simpl; repeat keeps_step; apply IH. Qed.
Lemma keeps_object_at o : keeps J (object_at o).
Proof using Hpages. unfold object_at. repeat keeps_step. Qed.
Local Hint Resolve keeps_waits keeps_object_at : keeps.
Lemma keeps_wire p a obj c : keeps J (wire p a obj c).
Proof using Hpages Hsleep Hread. unfold wire. repeat keeps_step. Qed.
Lemma keeps_unwire pages b : keeps J (unwire pages b).
Proof using Hpages. unfold unwire. repeat keeps_step. Qed.
Lemma keeps_unmap_pte p a pte : keeps J (unmap_pte p a pte).
Proof using Hpages. unfold unmap_pte. repeat keeps_step. Qed.
Local Hint Resolve keeps_wire keeps_unwire keeps_unmap_pte : keeps.
Lemma keeps_unmap_loop fuel q p a stop cur : keeps J (unmap_loop fuel q p a stop cur).
Proof using Hpages Hsleep Hread.
  revert a cur. induction fuel as [|fuel IH]; intros a cur; simpl; repeat first [apply IH|keeps_step].
Qed.
Local Hint Resolve keeps_unmap_loop : keeps.
Lemma keeps_unmap_range p a b : keeps J (vmp_unmap_range p a b).
Proof using Hpages Hsleep Hread. unfold vmp_unmap_range. repeat keeps_step. Qed.
Lemma keeps_map_pages n p a pfn cur : keeps J (map_pages n p a pfn cur).
Proof using Hpages Hsleep Hread.
  revert a pfn cur. induction n as [|n IH]; intros a pfn cur; simpl; repeat first [apply IH|keeps_step].
Qed.
End unmap.

(** ** A mapping comes *)

(** The mapping [e], which is [x], has come to [p]; where in its tree is [l1] and [l2]. *)
Record mapped (p e : Z) (x : vm_map_entry) (s s' : ast) : Prop := Mapped {
  mp_fresh : map_entries s !! e = None;
  mp_entries : map_entries s' = <[e := x]> (map_entries s);
  mp_others : ∀ q, q ≠ p → procs s' !! q = procs s !! q;
  mp_tree : ∀ v X, procs s !! p = Some v → entries_of s (vad_queue v) X → ordered 0 X →
    live (segments (vmem v)) ≡ₚ map range X →
    ∃ v' l1 l2 X1 X2, procs s' !! p = Some v' ∧ vad_queue v = l1 ++ l2 ∧ vad_queue v' = l1 ++ e :: l2 ∧ X = X1 ++ X2 ∧
      entries_of s l1 X1 ∧ entries_of s l2 X2 ∧ ordered 0 (X1 ++ x :: X2) ∧
      arena_inv TOP (vmem v') ∧ live (segments (vmem v')) ≡ₚ range x :: live (segments (vmem v));
  mp_object : match object x with
    | None => vm_objects s' = vm_objects s ∧ refs s' = refs s
    | Some o => ∃ y n, vm_objects s !! o = Some y ∧ vm_objects s' = <[o := with_list (e :: map_entry_list y) y]> (vm_objects s) ∧
        refs s !! backing y = Some n ∧ refs s' = <[backing y := n + 1]> (refs s)
    end
}.

Lemma views_insert M o e x : M !! e = None → views (<[e := x]> M) o = if decide (object x = Some o) then <[e := x]> (views M o) else views M o.
Proof.
  intros He. unfold views. case_decide as Ho.
  - by rewrite map_filter_insert_True.
  - rewrite map_filter_insert_False by done. by rewrite delete_id.
Qed.
Lemma views_None M o e : M !! e = None → views M o !! e = None.
Proof. intros He. apply map_lookup_filter_None. by left. Qed.

Lemma wf_fresh H s e p v : wf H s → map_entries s !! e = None → procs s !! p = Some v → e ∉ vad_queue v.
Proof.
  intros Hwf He Hv Hin. destruct (wf_proc _ _ Hwf p v Hv) as (X & Hpw). pose proof (pw_home _ _ _ _ _ Hpw e Hin) as Hh.
  assert (is_Some (H !! e)) as Hs by eauto. apply (wf_home _ _ Hwf) in Hs as [y Hy]. congruence.
Qed.
Lemma entries_weaken s s' l X : map_entries s ⊆ map_entries s' → entries_of s l X → entries_of s' l X.
Proof. intros Hs Hl. eapply Forall2_impl; [exact Hl|]. intros e x Hx. exact (lookup_weaken _ _ _ _ Hx Hs). Qed.
Lemma entries_delete s e l X : (∀ f, f ∈ l → f ≠ e) → entries_of s l X → entries_of (set_map_entries (delete e (map_entries s)) s) l X.
Proof.
  unfold entries_of. simpl. intros Hne Hl. induction Hl as [|f z l X Hf Hl IH]; constructor.
  - rewrite lookup_delete_ne; [done|]. apply not_eq_sym, Hne. by apply elem_of_cons; left.
  - apply IH. intros g Hg. apply Hne. by apply elem_of_cons; right.
Qed.

Lemma entries_unique s l X Y : entries_of s l X → entries_of s l Y → X = Y.
Proof.
  intros HX. revert Y. induction HX as [|e x l X He HX IH]; intros Y HY; inversion HY as [|? y ? Y' Hy HY']; subst; [done|].
  assert (x = y) as -> by congruence. f_equal. by apply IH.
Qed.

Lemma entry_in s l X e x : entries_of s l X → e ∈ l → map_entries s !! e = Some x → x ∈ X.
Proof.
  intros HX (i & Hi)%list_elem_of_lookup Hx. destruct (Forall2_lookup_l _ _ _ _ _ HX Hi) as (x' & Hx' & He).
  assert (x = x') as -> by congruence. by eapply list_elem_of_lookup_2.
Qed.
Lemma vad_nonempty H s p v X e x : proc_wf H s p v X → e ∈ vad_queue v → map_entries s !! e = Some x → start x < end_ x.
Proof. intros [HX Ho _ _ _] He Hx. eapply (ordered_elem 0 X); [done|]. by eapply entry_in. Qed.

Lemma in_tree_mapped H p e x s s' f : wf H s → is_Some (procs s !! p) → mapped p e x s s' → in_tree s' f ↔ f = e ∨ in_tree s f.
Proof.
  intros Hwf [v Hv] Hm. destruct (wf_proc _ _ Hwf p v Hv) as (X & [H1 H2 H3 H4 H5]).
  destruct (mp_tree _ _ _ _ _ Hm v X Hv H1 H2 H4) as (v' & l1 & l2 & X1 & X2 & Hv' & Hl & Hl' & _). split.
  - intros (q & w & Hw & Hf). destruct (decide (q = p)) as [->|Hq].
    + rewrite Hv' in Hw. injection Hw as <-. rewrite Hl', elem_of_app, elem_of_cons in Hf.
      destruct Hf as [Hf|[->|Hf]]; [right|by left|right]; exists p, v; rewrite Hl, elem_of_app; auto.
    + rewrite (mp_others _ _ _ _ _ Hm) in Hw by done. right. by exists q, w.
  - intros [->|(q & w & Hw & Hf)].
    + exists p, v'. split; [done|]. rewrite Hl', elem_of_app, elem_of_cons. auto.
    + destruct (decide (q = p)) as [->|Hq].
      * rewrite Hv in Hw. injection Hw as <-. exists p, v'. split; [done|]. rewrite Hl, elem_of_app in Hf. rewrite Hl', elem_of_app, elem_of_cons. tauto.
      * exists q, w. by rewrite (mp_others _ _ _ _ _ Hm).
Qed.

Lemma wf_mapped H p e x s s' : wf H s → is_Some (procs s !! p) → mapped p e x s s' → wf (<[e := p]> H) s'.
Proof.
  intros Hwf Hp Hm. pose proof Hm as [Hfr He Hoth Htree Hobj]. pose proof Hwf as [Hproc Hhome Hlist Hrefs Hback].
  assert (map_entries s ⊆ map_entries s') as Hsub by (rewrite He; by apply insert_subseteq).
  split.
  - intros q w Hw. destruct (decide (q = p)) as [->|Hq].
    + destruct Hp as [v Hv]. destruct (Hproc p v Hv) as (X & [H1 H2 H3 H4 H5]).
      destruct (Htree v X Hv H1 H2 H4) as (v' & l1 & l2 & X1 & X2 & Hv' & Hl & Hl' & -> & Hl1 & Hl2 & Ho & Ha & Hlive).
      rewrite Hv' in Hw. injection Hw as <-. exists (X1 ++ x :: X2). split; try done.
      * rewrite Hl'. apply Forall2_app; [by eapply entries_weaken|]. constructor; [by rewrite He, lookup_insert_eq|by eapply entries_weaken].
      * rewrite Hlive, H4, !map_app. simpl. by rewrite Permutation_middle.
      * intros f Hf. rewrite Hl', elem_of_app, elem_of_cons in Hf. destruct (decide (f = e)) as [->|Hne]; [by rewrite lookup_insert_eq|].
        rewrite lookup_insert_ne by done. apply H5. rewrite Hl, elem_of_app. tauto.
    + rewrite Hoth in Hw by done. destruct (Hproc q w Hw) as (X & [H1 H2 H3 H4 H5]). exists X. split; try done; [by eapply entries_weaken|].
      intros f Hf. rewrite lookup_insert_ne; [by apply H5|]. intros ->. by eapply wf_fresh in Hf.
  - intros f. rewrite He. destruct (decide (f = e)) as [->|Hne]; [by rewrite !lookup_insert_eq|]. rewrite !lookup_insert_ne by done. apply Hhome.
  - intros o y Hy. rewrite He, views_insert by done. setoid_rewrite (in_tree_mapped H p e x s s' _ Hwf Hp Hm).
    assert (∀ f, is_Some (views (map_entries s) o !! f) → f ≠ e) as Hvne by (intros f [z Hz] ->; by rewrite views_None in Hz).
    destruct (object x) as [o'|] eqn:Eo; [destruct Hobj as (y' & n & Hy' & Hys & _); rewrite Hys in Hy; destruct (decide (o' = o)) as [->|Hno]|destruct Hobj as [Hobj _]].
    + rewrite lookup_insert_eq in Hy. injection Hy as <-. destruct (Hlist o y' Hy') as [Hnd Hin]. simpl. rewrite decide_True by done. split.
      * constructor; [|done]. rewrite Hin. intros [_ Hv]. by apply Hvne in Hv.
      * intros f. rewrite elem_of_cons, Hin. destruct (decide (f = e)) as [->|Hne]; [rewrite lookup_insert_eq; naive_solver|].
        rewrite lookup_insert_ne by done. naive_solver.
    + rewrite lookup_insert_ne in Hy by done. rewrite decide_False by congruence. destruct (Hlist o y Hy) as [Hnd Hin]. split; [done|].
      intros f. rewrite Hin. naive_solver.
    + rewrite Hobj in Hy. rewrite decide_False by done. destruct (Hlist o y Hy) as [Hnd Hin]. split; [done|]. intros f. rewrite Hin. naive_solver.
  - intros o y Hy. rewrite He, views_insert by done.
    destruct (object x) as [o'|] eqn:Eo; [destruct Hobj as (y' & n & Hy' & Hys & Hn & ->)|destruct Hobj as [Hobj ->]; rewrite Hobj in Hy; rewrite decide_False by done; by apply Hrefs].
    destruct (Hrefs o' y' Hy') as (n' & Hn' & Hle). rewrite Hys in Hy. destruct (decide (o' = o)) as [->|Hno].
    + rewrite lookup_insert_eq in Hy. injection Hy as <-. rewrite decide_True by done. simpl. rewrite lookup_insert_eq. exists (n + 1). split; [done|].
      rewrite map_size_insert_None by by apply views_None. assert (n = n') as -> by congruence. lia.
    + rewrite lookup_insert_ne in Hy by done. rewrite decide_False by congruence. rewrite lookup_insert_ne; [by apply Hrefs|].
      intros Hb. apply Hno. by eapply Hback.
  - assert (∀ o y, vm_objects s' !! o = Some y → ∃ y0, vm_objects s !! o = Some y0 ∧ backing y = backing y0) as Hold.
    { intros o y Hy. destruct (object x) as [o'|]; [destruct Hobj as (y' & n & Hy' & Hys & _)|destruct Hobj as [Hobj _]; rewrite Hobj in Hy; eauto].
      rewrite Hys in Hy. apply lookup_insert_Some in Hy as [[<- <-]|[_ Hy]]; eauto. }
    intros o o' y y' Hy Hy' Hb. destruct (Hold _ _ Hy) as (? & ? & ?), (Hold _ _ Hy') as (? & ? & ?). eapply Hback; [done..|congruence].
Qed.

(** ** A mapping goes *)

(** First from its tree and the list of its object. *)
Record unlinked (p e o : Z) (x : vm_map_entry) (s s' : ast) : Prop := Unlinked {
  ul_entry : map_entries s !! e = Some x ∧ object x = Some o;
  ul_entries : map_entries s' = map_entries s;
  ul_refs : refs s' = refs s;
  ul_others : ∀ q, q ≠ p → procs s' !! q = procs s !! q;
  ul_tree : ∃ v v' l1 l2, procs s !! p = Some v ∧ procs s' !! p = Some v' ∧
      vad_queue v = l1 ++ e :: l2 ∧ vad_queue v' = l1 ++ l2 ∧ arena_inv TOP (vmem v') ∧
      live (segments (vmem v)) ≡ₚ range x :: live (segments (vmem v'));
  ul_object : ∃ y l, vm_objects s !! o = Some y ∧ vm_objects s' = <[o := with_list l y]> (vm_objects s) ∧ map_entry_list y ≡ₚ e :: l
}.

Lemma ordered_drop lo X1 x X2 : ordered lo (X1 ++ x :: X2) → ordered lo (X1 ++ X2).
Proof.
  rewrite !ordered_app. intros [H1 (H2 & H3 & H4)]. split; [done|]. eapply ordered_lo; [|done]. lia.
Qed.
(** A mapping is once in a tree. *)
Lemma tree_once H s p v X l1 e l2 : proc_wf H s p v X → vad_queue v = l1 ++ e :: l2 → e ∉ l1 ++ l2.
Proof.
  intros [H1 H2 _ _ _] Hl Hin. unfold entries_of in H1. rewrite Hl in H1. apply Forall2_app_inv_l in H1 as (X1 & X2 & HX1 & HX2 & ->).
  inversion HX2 as [|? x ? X2' He HX2']; subst. assert (x ∈ X1 ++ X2') as Hx by (eapply entry_in; [by apply Forall2_app|done..]).
  assert (start x < end_ x) as Hlt by (apply (ordered_elem 0 (X1 ++ x :: X2')); [done|rewrite elem_of_app, elem_of_cons; auto]).
  eapply (ordered_unique 0 X1 x X2' x (start x)); try done; unfold covers; lia.
Qed.
Lemma home_tree H s p v e : wf H s → procs s !! p = Some v → H !! e = Some p → in_tree s e → e ∈ vad_queue v.
Proof.
  intros Hwf Hv Hh (q & w & Hw & Hin). destruct (wf_proc _ _ Hwf q w Hw) as (X & Hpw). pose proof (pw_home _ _ _ _ _ Hpw e Hin).
  assert (q = p) as -> by congruence. congruence.
Qed.

Lemma in_tree_unlinked H p e o x s s' f : wf H s → unlinked p e o x s s' → in_tree s' f ↔ f ≠ e ∧ in_tree s f.
Proof.
  intros Hwf [_ _ _ Hoth (v & v' & l1 & l2 & Hv & Hv' & Hl & Hl' & _) _]. destruct (wf_proc _ _ Hwf p v Hv) as (X & Hpw).
  pose proof (tree_once _ _ _ _ _ _ _ _ Hpw Hl) as Hno. split.
  - intros (q & w & Hw & Hf). destruct (decide (q = p)) as [->|Hq].
    + rewrite Hv' in Hw. injection Hw as <-. rewrite Hl' in Hf. split; [by intros ->|]. exists p, v. split; [done|].
      rewrite Hl, elem_of_app, elem_of_cons. rewrite elem_of_app in Hf. tauto.
    + rewrite Hoth in Hw by done. split; [|by exists q, w]. intros ->. apply Hq.
      destruct (wf_proc _ _ Hwf q w Hw) as (Y & Hqw). pose proof (pw_home _ _ _ _ _ Hqw e Hf).
      assert (H !! e = Some p); [|congruence]. apply (pw_home _ _ _ _ _ Hpw). rewrite Hl, elem_of_app, elem_of_cons. auto.
  - intros [Hne (q & w & Hw & Hf)]. destruct (decide (q = p)) as [->|Hq].
    + rewrite Hv in Hw. injection Hw as <-. exists p, v'. split; [done|]. rewrite Hl, elem_of_app, elem_of_cons in Hf. rewrite Hl', elem_of_app. naive_solver.
    + exists q, w. by rewrite Hoth.
Qed.
Lemma wf_unlinked H p e o x s s' : wf H s → unlinked p e o x s s' → wf H s'.
Proof.
  intros Hwf Hu. pose proof Hu as [[He Ho] Hes Hrs Hoth (v & v' & l1 & l2 & Hv & Hv' & Hl & Hl' & Ha & Hlive) (y & l & Hy & Hys & Hp)].
  pose proof Hwf as [Hproc Hhome Hlist Hrefs Hback]. split; rewrite ?Hes, ?Hrs, ?Hys; try done.
  - intros q w Hw. destruct (decide (q = p)) as [->|Hq].
    + rewrite Hv' in Hw. injection Hw as <-. destruct (Hproc p v Hv) as (X & [H1 H2 H3 H4 H5]). unfold entries_of in H1. rewrite Hl in H1.
      apply Forall2_app_inv_l in H1 as (X1 & X2 & HX1 & HX2 & ->). inversion HX2 as [|? x' ? X2' He' HX2']; subst.
      assert (x' = x) as -> by congruence. exists (X1 ++ X2'). split; try done.
      * unfold entries_of. rewrite Hl', Hes. by apply Forall2_app.
      * by eapply ordered_drop.
      * rewrite Hlive, !map_app in H4. simpl in H4. rewrite <-Permutation_middle in H4. apply Permutation_cons_inv in H4. by rewrite map_app.
      * intros f Hf. apply H5. rewrite Hl' in Hf. rewrite Hl. rewrite elem_of_app in *. rewrite elem_of_cons. tauto.
    + rewrite Hoth in Hw by done. destruct (Hproc q w Hw) as (X & [H1 H2 H3 H4 H5]). exists X. split; try done. unfold entries_of. by rewrite Hes.
  - intros o' y' Hy'. setoid_rewrite (in_tree_unlinked H p e o x s s' _ Hwf Hu). apply lookup_insert_Some in Hy' as [[<- <-]|[Hne Hy']].
    + simpl. destruct (Hlist o y Hy) as [Hnd Hin]. rewrite Hp in Hnd. apply NoDup_cons in Hnd as [Hel Hnd]. split; [done|].
      intros f. specialize (Hin f). rewrite Hp, elem_of_cons in Hin. destruct (decide (f = e)) as [->|Hfe]; naive_solver.
    + destruct (Hlist o' y' Hy') as [Hnd Hin]. split; [done|]. intros f. rewrite Hin. split; [|tauto]. intros [Ht Hvw]. split; [split; [|done]|done].
      intros ->. apply Hne. destruct Hvw as [z Hz]. apply map_lookup_filter_Some in Hz as [Hz Hz']. simpl in Hz'. congruence.
  - intros o' y' Hy'. apply lookup_insert_Some in Hy' as [[<- <-]|[Hne Hy']]; [|by apply Hrefs]. apply (Hrefs o y Hy).
  - assert (∀ o' y', <[o := with_list l y]> (vm_objects s) !! o' = Some y' → ∃ y0, vm_objects s !! o' = Some y0 ∧ backing y' = backing y0) as Hold.
    { intros o' y' [[<- <-]|[_ Hy']]%lookup_insert_Some; eauto. }
    intros o1 o2 y1 y2 Hy1 Hy2 Hb. destruct (Hold _ _ Hy1) as (? & ? & ?), (Hold _ _ Hy2) as (? & ? & ?). eapply Hback; [done..|congruence].
Qed.

(** Then its reference and the structure itself. *)
Lemma wf_dropped H e o x y n s : wf H s → map_entries s !! e = Some x → object x = Some o → ¬ in_tree s e →
  vm_objects s !! o = Some y → refs s !! backing y = Some n →
  wf (delete e H) (set_map_entries (delete e (map_entries s)) (set_refs (<[backing y := n + -1]> (refs s)) s)).
Proof.
  intros Hwf He Ho Hnt Hy Hn. pose proof Hwf as [Hproc Hhome Hlist Hrefs Hback].
  assert (∀ o', views (delete e (map_entries s)) o' = delete e (views (map_entries s) o')) as Hvd by (intros o'; apply map_filter_delete).
  split; simpl.
  - intros p v Hv. destruct (Hproc p v Hv) as (X & [H1 H2 H3 H4 H5]). exists X.
    assert (∀ f, f ∈ vad_queue v → f ≠ e) as Hne by (intros f Hf ->; apply Hnt; by exists p, v). split; try done; simpl.
    + by apply (entries_delete s).
    + intros f Hf. rewrite lookup_delete_ne; [by apply H5|]. by apply not_eq_sym, Hne.
  - intros f. destruct (decide (f = e)) as [->|Hfe]; [by rewrite !lookup_delete_eq|]. rewrite !lookup_delete_ne by done. apply Hhome.
  - intros o' y' Hy'. destruct (Hlist o' y' Hy') as [Hnd Hin]. split; [done|]. intros f. rewrite Hin, Hvd.
    change (in_tree (set_map_entries _ _) f) with (in_tree s f). destruct (decide (f = e)) as [->|Hfe]; [tauto|]. by rewrite lookup_delete_ne.
  - intros o' y' Hy'. rewrite Hvd. destruct (Hrefs o' y' Hy') as (n' & Hn' & Hle). destruct (decide (o' = o)) as [->|Hoo].
    + assert (y' = y) as -> by congruence. rewrite lookup_insert_eq. exists (n + -1). split; [done|]. assert (n' = n) as -> by congruence.
      assert (views (map_entries s) o !! e = Some x) as Hvx by (by apply map_lookup_filter_Some).
      rewrite map_size_delete_Some by eauto.
      assert (base.size (views (map_entries s) o) ≠ 0%nat); [|lia]. intros Hz%map_size_empty_inv. by rewrite Hz, lookup_empty in Hvx.
    + rewrite lookup_insert_ne by (intros Hb; apply Hoo; symmetry; by eapply Hback). exists n'. split; [done|].
      rewrite delete_id; [done|]. apply map_lookup_filter_None. right. intros z Hz. simpl. congruence.
  - done.
Qed.

(** ** The operations *)

Lemma wp_proc_at p Q s : wp (proc_at p) Q s ↔ ∃ v, procs s !! p = Some v ∧ Q v s.
Proof. unfold proc_at. by rewrite wp_bind, wp_get, wp_deref. Qed.
Lemma wp_proc_upd p f Q s : wp (proc_upd p f) Q s ↔ ∃ v, procs s !! p = Some v ∧ Q () (set_procs (<[p := f v]> (procs s)) s).
Proof. unfold proc_upd. by rewrite wp_bind, wp_proc_at. Qed.
Lemma wp_map_entry_at e Q s : wp (map_entry_at e) Q s ↔ ∃ x, map_entries s !! e = Some x ∧ Q x s.
Proof. unfold map_entry_at. by rewrite wp_bind, wp_get, wp_deref. Qed.
Lemma wp_object_at o Q s : wp (object_at o) Q s ↔ ∃ y, vm_objects s !! o = Some y ∧ Q y s.
Proof. unfold object_at. by rewrite wp_bind, wp_get, wp_deref. Qed.
Lemma wp_ref_add o d Q s : wp (ref_add o d) Q s ↔ ∃ n, refs s !! o = Some n ∧ Q () (set_refs (<[o := n + d]> (refs s)) s).
Proof. unfold ref_add. by rewrite wp_bind, wp_get, wp_bind, wp_deref. Qed.
Lemma wp_map_acquire p v Q s : procs s !! p = Some v → map_held v = false →
  wp (map_acquire p) Q s ↔ Q () (set_procs (<[p := set_map_held true v]> (procs s)) s).
Proof.
  intros Hv Hh. unfold map_acquire. rewrite wp_bind, wp_proc_at. split.
  - intros (v' & Hv' & Hw). assert (v' = v) as -> by congruence. rewrite Hh, wp_proc_upd in Hw. destruct Hw as (v' & Hv2 & Hw).
    assert (v' = v) as -> by congruence. done.
  - intros Hq. exists v. split; [done|]. rewrite Hh, wp_proc_upd. eauto.
Qed.
Lemma wp_map_release p v Q s : procs s !! p = Some v → map_held v = true →
  wp (map_release p) Q s ↔ Q () (set_procs (<[p := set_map_held false v]> (procs s)) s).
Proof.
  intros Hv Hh. unfold map_release. rewrite wp_bind, wp_proc_at. split.
  - intros (v' & Hv' & Hw). assert (v' = v) as -> by congruence. rewrite wp_bind, wp_kassert, wp_proc_upd in Hw. destruct Hw as (_ & v' & Hv2 & Hw).
    assert (v' = v) as -> by congruence. done.
  - intros Hq. exists v. split; [done|]. rewrite wp_bind, wp_kassert, wp_proc_upd. eauto.
Qed.

Lemma wlp_wp {S A} (m : kern S A) (Q : A → S → Prop) s : wp m Q s → wlp m Q s.
Proof. unfold wp, wlp. by destruct (m s) as [[? ?]| |]. Qed.

(** What may be asked for: [flags] as [alloc_range] passes them. *)
Definition exact_flag (exact : bool) : Z := if exact then Vmem.kVMemExact else 0.
Record map_request (v : vm_procstate) (vaddr sz off : Z) (exact : bool) : Prop := MapRequest {
  mr_size : 0 < sz < 2 ^ 46 ∧ sz mod PGSIZE = 0;
  mr_addr : 0 ≤ vaddr < 2 ^ 64 - 2 ^ 46;
  mr_off : off mod PGSIZE = 0;
  mr_supply : can_refill (vmem v)
}.
Lemma request_arena v vaddr sz off exact : map_request v vaddr sz off exact →
  request_ok TOP sz 0 (if exact then vaddr else 0) ∧ supply_ok (exact_flag exact) (vmem v) ∧
  ((if exact then vaddr else 0) = 0 ∨ Vmem.has_flag (exact_flag exact) Vmem.kVMemExact = true).
Proof.
  intros [[[Hs1 Hs2] _] Ha _ Hs]. split_and!; [|by destruct exact|destruct exact; [by right|by left]].
  unfold request_ok, align_ok, TOP, KVM_DYNAMIC_BASE, KVM_DYNAMIC_SIZE. destruct exact; split_and!; try lia; by left.
Qed.

(** The range of a new mapping. *)
Lemma in_vmem_run {A} p v (m : kern (Vmem.vmem ()) A) Q s : procs s !! p = Some v →
  wp m (λ a vm, Q a (set_procs (<[p := set_vmem vm v]> (procs s)) s)) (vmem v) → wp (in_vmem p m) Q s.
Proof.
  intros Hv Hw. unfold in_vmem. rewrite wp_bind, wp_proc_at. exists v. split; [done|]. rewrite wp_bind, wp_zoom. simpl.
  eapply wp_mono; [exact Hw|]. intros a vm Hq. by rewrite wp_ret.
Qed.
Definition fits_somewhere (vm : Vmem.vmem ()) (sz vaddr : Z) (exact : bool) : Prop :=
  ¬ nothing_fits sz 0 (if exact then vaddr else 0) (exact_flag exact) (segments vm).
(** A range has been found. *)
Record range_taken (v : vm_procstate) (vm : Vmem.vmem ()) (a sz : Z) : Prop := RangeTaken {
  rt_arena : arena_inv TOP vm;
  rt_live : live (segments vm) ≡ₚ (a, sz) :: live (segments (vmem v));
  rt_disjoint : disjoint_from a sz (live (segments (vmem v)))
}.
Lemma alloc_range_partial p v s vaddr sz off exact : procs s !! p = Some v → arena_inv TOP (vmem v) → map_request v vaddr sz off exact →
  wlp (alloc_range p sz (if exact then vaddr else 0) exact) (λ a s', ∃ vm, s' = set_procs (<[p := set_vmem vm v]> (procs s)) s ∧
    range_taken v vm a sz ∧ (exact = true → a = vaddr)) s.
Proof.
  intros Hv Ha Hr. destruct (request_arena _ _ _ _ _ Hr) as (Hq & Hs & Hx). unfold alloc_range. rewrite wlp_bind. apply wlp_wp.
  eapply in_vmem_run; [done|]. eapply wp_mono; [by eapply arena_take|]. intros [e|a] vm; simpl; [done|].
  intros (Ha' & Hl & Hd & He). rewrite wlp_ret. exists vm. split_and!; try done. intros ->. by apply He.
Qed.
Lemma alloc_range_ok p v s vaddr sz off exact : procs s !! p = Some v → arena_inv TOP (vmem v) → map_request v vaddr sz off exact →
  fits_somewhere (vmem v) sz vaddr exact →
  wp (alloc_range p sz (if exact then vaddr else 0) exact) (λ a s', ∃ vm, s' = set_procs (<[p := set_vmem vm v]> (procs s)) s ∧
    range_taken v vm a sz ∧ (exact = true → a = vaddr)) s.
Proof.
  intros Hv Ha Hr Hf. destruct (request_arena _ _ _ _ _ Hr) as (Hq & Hs & Hx). unfold alloc_range. rewrite wp_bind.
  eapply in_vmem_run; [done|]. eapply wp_mono; [by eapply arena_take|]. intros [e|a] vm; simpl; [by intros [_ Hno]|].
  intros (Ha' & Hl & Hd & He). rewrite wp_ret. exists vm. split_and!; try done. intros ->. by apply He.
Qed.

Lemma vad_tree_insert_ok p s v X e x : procs s !! p = Some v → entries_of s (vad_queue v) X → ordered 0 X → map_entries s !! e = Some x →
  0 ≤ start x < end_ x → disjoint_from (start x) (end_ x - start x) (map range X) →
  wp (vad_tree_insert p e) (λ _ s', ∃ l1 l2 X1 X2, vad_queue v = l1 ++ l2 ∧ X = X1 ++ X2 ∧ entries_of s l1 X1 ∧ entries_of s l2 X2 ∧
    ordered 0 (X1 ++ x :: X2) ∧ s' = set_procs (<[p := set_vads (l1 ++ e :: l2) v]> (procs s)) s) s.
Proof.
  intros Hv HX Ho He Hx Hd. unfold vad_tree_insert. rewrite wp_bind, wp_proc_at. exists v. split; [done|].
  rewrite wp_bind, wp_map_entry_at. exists x. split; [done|]. rewrite wp_bind.
  eapply wp_mono; [apply (vad_insert_ok (map_entries s) s (vad_queue v) X 0 e x); try done; try lia|].
  - intros y Hy. destruct (Hd (start y) (end_ y - start y)) as [?|?]; [|lia..]. apply list_elem_of_fmap. by exists y.
  - intros r s' (-> & l1 & l2 & X1 & X2 & Hl & -> & -> & H1 & H2 & Ho'). rewrite wp_proc_upd. exists v. split; [done|].
    by exists l1, l2, X1, X2.
Qed.

Definition new_entry (obj : option Z) (sz off initial max : Z) (inherit cow : bool) (a : Z) : vm_map_entry :=
  MapEntry (Z.land initial kVMAll) (Z.land max kVMAll) inherit cow (i36 (off / PGSIZE)) obj a (a + sz).
(** The object of a new mapping. *)
Lemma link_object_ok obj e H s : wf H s → (∀ o, obj = Some o → is_Some (vm_objects s !! o)) → ∀ s0, refs s0 = refs s → vm_objects s0 = vm_objects s →
  wp (match obj with None => mret () | Some o => object_map_list_insert o e;; x ← object_at o; ref_add (backing x) 1 end) (λ _ s',
    procs s' = procs s0 ∧ map_entries s' = map_entries s0 ∧ pg s' = pg s0 ∧ match obj with
    | None => vm_objects s' = vm_objects s ∧ refs s' = refs s
    | Some o => ∃ y n, vm_objects s !! o = Some y ∧ vm_objects s' = <[o := with_list (e :: map_entry_list y) y]> (vm_objects s) ∧
        refs s !! backing y = Some n ∧ refs s' = <[backing y := n + 1]> (refs s) end) s0.
Proof.
  intros Hwf Hob s0 Hr Hob0. destruct obj as [o|]; [|done]. destruct (Hob o eq_refl) as [y Hy]. destruct (wf_refs _ _ Hwf o y Hy) as (n & Hn & _).
  rewrite wp_bind. unfold object_map_list_insert. rewrite wp_bind, wp_object_at. exists y. rewrite Hob0. split; [done|].
  unfold object_set. rewrite wp_modify, wp_bind, wp_object_at. simpl. rewrite Hob0. eexists. split; [by rewrite lookup_insert_eq|].
  rewrite wp_ref_add. simpl. rewrite Hr. exists n. split; [done|]. split_and!; try done. by exists y, n.
Qed.

(** The rest of [vm_ps_map_object_view]. *)
Definition map_view_tail p obj sz off initial max inherit cow a : kern ast Z :=
  e ← map_entry_new (MapEntry (Z.land initial kVMAll) (Z.land max kVMAll) inherit cow (i36 (off / PGSIZE)) obj a (u64 (a + sz)));
  match obj with
  | None => mret ()
  | Some o => object_map_list_insert o e;; x ← object_at o; ref_add (backing x) 1
  end;;
  vad_tree_insert p e;;
  map_release p;;
  mret a.
Lemma map_view_tail_ok H s p v vm obj sz off initial max inherit cow a :
  wf H s → procs s !! p = Some v → range_taken v vm a sz → (∀ o, obj = Some o → is_Some (vm_objects s !! o)) →
  wp (map_view_tail p obj sz off initial max inherit cow a) (λ r s', r = a ∧ ∃ e,
    mapped p e (new_entry obj sz off initial max inherit cow a) s s' ∧
    (∃ v', procs s' !! p = Some v' ∧ map_held v' = false) ∧ pg s' = pg s)
    (set_procs (<[p := set_vmem vm (set_map_held true v)]> (procs s)) s).
Proof.
  intros Hwf Hv [Har' Hlive Hdis] Hob. destruct (wf_proc _ _ Hwf p v Hv) as (X & [HX Hord Har Hlv _]).
  destruct (live_range TOP vm a sz) as (Ha0 & Hsz0 & HaT); [done|rewrite Hlive; apply elem_of_cons; by left|]. unfold map_view_tail.
  assert (u64 (a + sz) = a + sz) as -> by (apply u64_small; unfold TOP, KVM_DYNAMIC_BASE, KVM_DYNAMIC_SIZE in HaT; lia).
  fold (new_entry obj sz off initial max inherit cow a). set (x := new_entry obj sz off initial max inherit cow a).
  rewrite wp_bind. unfold map_entry_new. rewrite wp_bind, wp_get. unfold map_entry_set. rewrite wp_bind, wp_modify, wp_ret. simpl.
  set (e := fresh (dom (map_entries s))). assert (map_entries s !! e = None) as He by (apply not_elem_of_dom, is_fresh).
  rewrite wp_bind. eapply wp_mono; [eapply (link_object_ok obj e H s); done|]. simpl. intros [] s4 (Hp4 & He4 & Hpg4 & Hob4).
  set (v2 := set_vmem vm (set_map_held true v)) in *. rewrite wp_bind.
  eapply wp_mono; [apply (vad_tree_insert_ok p s4 v2 X e x); [by rewrite Hp4, lookup_insert_eq| |done|by rewrite He4, lookup_insert_eq|simpl; lia|]|].
  { eapply Forall2_impl; [exact HX|]. intros f z Hf. rewrite He4. rewrite lookup_insert_ne; [done|]. intros <-. cbv beta in Hf. congruence. }
  { simpl. replace (a + sz - a) with sz by lia. intros b z Hb. apply Hdis. by setoid_rewrite Hlv. }
  intros [] s5 (l1 & l2 & X1 & X2 & Hl & -> & HX1 & HX2 & Ho' & ->). rewrite wp_bind.
  rewrite (wp_map_release p (set_vads (l1 ++ e :: l2) v2)) by (simpl; rewrite ?lookup_insert_eq; done). rewrite wp_ret. simpl. rewrite Hp4, !insert_insert_eq.
  split; [done|]. exists e. split_and!; [|eexists; by rewrite lookup_insert_eq|done]. split; simpl; try done.
  - intros q Hq. by rewrite lookup_insert_ne.
  - intros w Y Hw HY HoY HlY. assert (w = v) as -> by congruence. assert (Y = X1 ++ X2) as -> by by eapply entries_unique.
    assert (entries_of s l1 X1 ∧ entries_of s l2 X2) as [HX1' HX2'].
    { apply Forall2_app_inv; [by eapply Forall2_length|]. simpl in Hl. by rewrite <-Hl. }
    eexists _, l1, l2, X1, X2. rewrite lookup_insert_eq. split_and!; try done. simpl. unfold range. simpl.
    by replace (a + sz - a) with sz by lia.
Qed.

Lemma map_object_view_ok H s p v obj vaddr sz off initial max inherit cow exact :
  wf H s → procs s !! p = Some v → map_held v = false → map_request v vaddr sz off exact → fits_somewhere (vmem v) sz vaddr exact →
  (∀ o, obj = Some o → is_Some (vm_objects s !! o)) →
  wp (vm_ps_map_object_view p obj vaddr sz off initial max inherit cow exact) (λ a s', ∃ e,
    mapped p e (new_entry obj sz off initial max inherit cow a) s s' ∧ (exact = true → a = vaddr) ∧
    (∃ v', procs s' !! p = Some v' ∧ map_held v' = false) ∧ pg s' = pg s) s.
Proof.
  intros Hwf Hv Hh Hr Hfit Hob. destruct (wf_proc _ _ Hwf p v Hv) as (X & [_ _ Har _ _]). pose proof Hr as [[_ Hsz] _ Hoff _].
  unfold vm_ps_map_object_view. rewrite wp_bind, wp_kassert. split; [by apply Z.eqb_eq|]. rewrite wp_bind, wp_kassert. split; [by apply Z.eqb_eq|].
  rewrite wp_bind, (wp_map_acquire p v) by done. rewrite wp_bind.
  eapply wp_mono; [apply (alloc_range_ok p (set_map_held true v) _ vaddr sz off exact)|]; [simpl; by rewrite lookup_insert_eq|done|by destruct Hr|done|].
  intros a s2 (vm & -> & Ht & Hex). simpl. rewrite insert_insert_eq. eapply wp_mono; [eapply (map_view_tail_ok H s p v vm); [done|done|by destruct Ht|done]|].
  intros r s' (-> & e & ? & ? & ?). eauto.
Qed.
Lemma map_object_view_partial H s p v obj vaddr sz off initial max inherit cow exact :
  wf H s → procs s !! p = Some v → map_request v vaddr sz off exact → (∀ o, obj = Some o → is_Some (vm_objects s !! o)) →
  wlp (vm_ps_map_object_view p obj vaddr sz off initial max inherit cow exact) (λ _ s', ∃ H', wf H' s') s.
Proof.
  intros Hwf Hv Hr Hob. destruct (wf_proc _ _ Hwf p v Hv) as (X & [_ _ Har _ _]). unfold vm_ps_map_object_view, map_acquire.
  rewrite wlp_bind, wlp_kassert. intros _. rewrite wlp_bind, wlp_kassert. intros _. rewrite wlp_bind, wlp_bind. unfold wlp at 1. rewrite proc_at_run, Hv.
  destruct (map_held v); [done|]. unfold proc_upd. rewrite wlp_bind. unfold wlp at 1. rewrite proc_at_run, Hv, wlp_modify, wlp_bind.
  eapply wlp_mono; [apply (alloc_range_partial p (set_map_held true v) _ vaddr sz off exact)|]; [simpl; by rewrite lookup_insert_eq|done|by destruct Hr|].
  intros a s2 (vm & -> & Ht & Hex). simpl. rewrite insert_insert_eq. apply wlp_wp. eapply wp_mono; [eapply (map_view_tail_ok H s p v vm); [done|done|by destruct Ht|done]|].
  intros r s' (-> & e & Hm & _). eexists. eapply wf_mapped; [done|by eexists|done].
Qed.

(** ** What others do while a thread waits

    They keep address spaces well-formed, and leave alone the mappings of a process whose map
    lock the thread holds.  That thread may have taken a range from the arena for a mapping
    which is not in the tree yet: [as_if (Some (p, vm))] is the state with the arena [vm], from
    before, in [p]. *)
Definition as_if (o : option (Z * Vmem.vmem ())) (s : ast) : ast :=
  match o with
  | None => s
  | Some (p, vm) => set_procs (alter (set_vmem vm) p (procs s)) s
  end.
Definition may_change (o : option (Z * Vmem.vmem ())) (s : ast) : Prop :=
  ∀ p vm, o = Some (p, vm) → ∃ v, procs s !! p = Some v ∧ map_held v = true.
Record calm (o : option (Z * Vmem.vmem ())) (H : homes) (s s' : ast) : Prop := Calm {
  cm_wf : ∃ H', wf H' (as_if o s') ∧ ∀ p v e, procs s !! p = Some v → map_held v = true → H !! e = Some p →
    H' !! e = Some p ∧ map_entries s' !! e = map_entries s !! e;
  cm_proc : ∀ p v, procs s !! p = Some v → map_held v = true →
    ∃ v', procs s' !! p = Some v' ∧ maps_of v' = maps_of v
}.
Definition waits_calm (m : kern ast ()) : Prop :=
  ∀ o H s, may_change o s → wf H (as_if o s) → wlp m (λ _ s', calm o H s s') s.
Class VmEnvOk (E : VmEnv) : Prop := {
  env_sleep : ∀ g, waits_calm (sleep_on g);
  env_read : ∀ vn page off, waits_calm (read_in vn page off);
  env_pages : waits_calm sleep_for_pages
}.
Lemma wait_none H s m : waits_calm m → wf H s → wlp m (λ _ s', calm None H s s') s.
Proof. intros Hm Hwf. by apply Hm. Qed.

Section dealloc.
Context `{F : PteFormat} `{E : VmEnv} {EO : VmEnvOk E}.

(** [p]'s map lock is held, and its mappings are [l], as in [M]. *)
Definition holds (M : gmap Z vm_map_entry) (p : Z) (l : list Z) (H : homes) (s : ast) : Prop :=
  wf H s ∧ (∃ v, procs s !! p = Some v ∧ map_held v = true ∧ vad_queue v = l) ∧ ∀ f, f ∈ l → map_entries s !! f = M !! f.
Lemma holds_pages M p l H s s' : holds M p l H s → maps_eq s s' → holds M p l H s'.
Proof.
  intros (Hwf & (v & Hv & Hh & Hl) & Hm) Heq. destruct (maps_eq_proc _ _ _ _ Heq Hv) as (v' & Hv' & Hq). injection Hq as _ Hq1 Hq2.
  split; [by eapply wf_maps_eq|]. split; [exists v'; split_and!; congruence|]. by rewrite (me_entries _ _ Heq).
Qed.
Lemma holds_calm M p l H s s' : holds M p l H s → calm None H s s' →
  ∃ H', holds M p l H' s' ∧ ∀ e, H !! e = Some p → H' !! e = Some p ∧ map_entries s' !! e = map_entries s !! e.
Proof.
  intros (Hwf & (v & Hv & Hh & Hl) & Hm) [(H' & Hwf' & Hent) Hproc]. destruct (Hproc p v Hv Hh) as (v' & Hv' & Hq). injection Hq as _ Hq1 Hq2.
  exists H'. split; [|intros e; by apply (Hent p v e)]. split; [done|]. split; [exists v'; split_and!; congruence|]. intros f Hf.
  destruct (wf_proc _ _ Hwf p v Hv) as (X & Hpw). rewrite <-Hl in Hf. destruct (Hent p v f Hv Hh (pw_home _ _ _ _ _ Hpw f Hf)) as [_ ->].
  apply Hm. by rewrite <-Hl.
Qed.
(** The mapping [e] of [p] is in no tree. *)
Definition limbo (M : gmap Z vm_map_entry) (p e : Z) (x : vm_map_entry) (l : list Z) (s : ast) : Prop :=
  ∃ H, holds M p l H s ∧ e ∉ l ∧ H !! e = Some p ∧ map_entries s !! e = Some x.
Lemma limbo_pages M p e x l s s' : limbo M p e x l s → maps_eq s s' → limbo M p e x l s'.
Proof.
  intros (H & Hh & He & Hhe & Hx) Heq. exists H. split; [by eapply holds_pages|]. by rewrite (me_entries _ _ Heq).
Qed.
Lemma limbo_calm M p e x l s (m : kern ast ()) : waits_calm m →
  limbo M p e x l s → wlp m (λ _ s', limbo M p e x l s') s.
Proof.
  intros Hm (H & Hh & He & Hhe & Hx). eapply wlp_mono; [apply wait_none; [done|by destruct Hh]|]. intros [] s' Hc.
  destruct (holds_calm _ _ _ _ _ _ Hh Hc) as (H' & Hh' & Hent). destruct (Hent e Hhe) as [? Hx']. exists H'. by rewrite Hx'.
Qed.
Lemma unmap_limbo M p e x l a b s : limbo M p e x l s → wlp (vmp_unmap_range p a b) (λ _ s', limbo M p e x l s') s.
Proof using EO.
  intros Hs. apply (keeps_unmap_range (limbo M p e x l)); [by apply limbo_pages|..|done].
  - intros g s0. apply limbo_calm, env_sleep.
  - intros vn pg off s0. apply limbo_calm, env_read.
Qed.

Lemma wlp_proc_at p Q s : wlp (proc_at p) Q s ↔ ∀ v, procs s !! p = Some v → Q v s.
Proof. unfold proc_at. by rewrite wlp_bind, wlp_get, wlp_deref. Qed.
Lemma wlp_object_at o Q s : wlp (object_at o) Q s ↔ ∀ y, vm_objects s !! o = Some y → Q y s.
Proof. unfold object_at. by rewrite wlp_bind, wlp_get, wlp_deref. Qed.

Lemma free_range_ok p v x s : procs s !! p = Some v → arena_inv TOP (vmem v) → range x ∈ live (segments (vmem v)) →
  wlp (free_range p x) (λ _ s', ∃ vm, s' = set_procs (<[p := set_vmem vm v]> (procs s)) s ∧ arena_inv TOP vm ∧
    live (segments (vmem v)) ≡ₚ range x :: live (segments vm)) s.
Proof.
  intros Hv Ha Hx. unfold free_range. destruct (live_range _ _ _ _ Ha Hx) as (H1 & H2 & H3). unfold TOP, KVM_DYNAMIC_BASE, KVM_DYNAMIC_SIZE in H3.
  rewrite (u64_small (end_ x - start x)) by lia. rewrite wlp_bind.
  apply (wlp_mono _ (λ _ s', ∃ vm, s' = set_procs (<[p := set_vmem vm v]> (procs s)) s ∧ arena_inv TOP vm ∧
    live (segments (vmem v)) ≡ₚ range x :: live (segments vm))).
  { apply wlp_wp. eapply in_vmem_run; [done|]. eapply wp_mono; [by apply arena_give|]. intros r vm (_ & ? & ?). by exists vm. }
  intros r s' (vm & -> & Ha' & Hl). rewrite wlp_kassert. intros _. by exists vm.
Qed.
(** The mapping leaves its tree, the arena and its object. *)
Lemma unlink_ok M p l1 e l2 x H s : holds M p (l1 ++ e :: l2) H s → map_entries s !! e = Some x →
  wlp (free_range p x;; vad_tree_remove p e;; object_map_list_remove (object x) e) (λ _ s', limbo M p e x (l1 ++ l2) s' ∧ is_Some (object x)) s.
Proof.
  intros (Hwf & (v & Hv & Hh & Hl) & Hm) Hx. destruct (wf_proc _ _ Hwf p v Hv) as (X & Hpw). pose proof Hpw as [HX _ Har Hlv Hho].
  pose proof (tree_once _ _ _ _ _ _ _ _ Hpw Hl) as Hone. assert (e ∈ vad_queue v) as Hin by (rewrite Hl, elem_of_app, elem_of_cons; auto).
  rewrite wlp_bind. eapply wlp_mono; [apply (free_range_ok p v x s Hv Har)|].
  { rewrite Hlv. apply list_elem_of_fmap. exists x. split; [done|]. by eapply entry_in. }
  intros [] s1 (vm & -> & Har' & Hlive). rewrite wlp_bind. unfold vad_tree_remove. rewrite wlp_bind, wlp_proc_at. simpl. intros v1 Hv1.
  rewrite lookup_insert_eq in Hv1. injection Hv1 as <-. rewrite wlp_bind, wlp_deref. simpl. rewrite Hl, q_remove_mid by (intros ?; apply Hone, elem_of_app; by left).
  intros ? [= <-]. unfold proc_upd. rewrite wlp_bind, wlp_proc_at. simpl. intros v1 Hv1. rewrite lookup_insert_eq in Hv1. injection Hv1 as <-.
  rewrite wlp_modify. simpl. rewrite insert_insert_eq. unfold object_map_list_remove. rewrite wlp_bind, wlp_deref. intros o Ho.
  rewrite wlp_bind, wlp_object_at. simpl. intros y Hy. rewrite wlp_bind, wlp_deref. intros l Hq%q_remove_perm. unfold object_set. rewrite wlp_modify. simpl.
  set (s' := set_vm_objects _ _). split; [|by rewrite Ho]. assert (unlinked p e o x s s') as Hul.
  { split; try done; simpl.
    - intros q Hne. by rewrite lookup_insert_ne.
    - exists v, (set_vads (l1 ++ l2) (set_vmem vm v)), l1, l2. rewrite lookup_insert_eq. done.
    - by exists y, l. }
  exists H. split; [|split_and!; [done|by apply Hho|done]]. split; [by eapply wf_unlinked|]. split.
  - eexists. simpl. rewrite lookup_insert_eq. done.
  - intros f Hf. apply Hm. rewrite elem_of_app in *. rewrite elem_of_cons. tauto.
Qed.
End dealloc.
