(* ===== verification/Fault.v ===== *)
(** Page faults: kernel/vm/fault.c.

    Threads drop their locks to read a page in or to wait for one that is being read in; what
    others do meanwhile is [VmEnv].  Functions return the C result and whether the map lock is
    still held, which the source keeps in [struct fault_info]. *)
From S2P Require Import Prelude Vmem Pte Resident Tables PageAlloc Walk Wsl Aspace VmMap.
Import Resident Tables PageAlloc Walk Wsl Aspace VmMap.
Local Open Scope Z_scope.

Module Fault.

(** [vm_fault_return_t] *)
Definition kVMFaultRetOK : Z := 0.
Definition kVMFaultRetFailure : Z := -1.
Definition kVMFaultRetPageShortage : Z := -2.
Definition kVMFaultRetRetry : Z := -3.

Definition HHDM_BASE : Z := 0xffff800000000000.
Definition HIGHER_HALF : Z := 0xffff800000000000.
Definition KVM_UBC_BASE : Z := 0xffff830000000000.
Definition KVM_UBC_SIZE : Z := 0x10000000000.
Definition UBC_WINDOW_SIZE : Z := 256 * 1024.

Record fault_info := Info {
  fi_object : option Z;
  fi_start : Z;
  fi_offset : Z;
  fi_copy : bool;
  fi_writeable : bool;
  fi_executable : bool;
  map_lock_held : bool
}.

Definition ubc_addr_to_window (addr : Z) : Z := (addr - KVM_UBC_BASE) / UBC_WINDOW_SIZE.
Definition ubc_window_addr (window : Z) : Z := KVM_UBC_BASE + window * UBC_WINDOW_SIZE.

(** [memcpy] of a page. *)
Definition page_copy (dst src : Z) : kern pst () :=
  modify (λ s, set_mem (λ b, if (dst * PGSIZE <=? b) && (b <? (dst + 1) * PGSIZE) then mem s (b - dst * PGSIZE + src * PGSIZE) else mem s b) s).

(** A page table entry found, with the tables that are wired, the leaf first. *)
Record wire_state := WireState { ws_pte : Z; ws_pages : list Z }.
Definition leaf (w : wire_state) : kern ast Z := deref "pgtable_pages[0]" (hd_error (ws_pages w)).

Section fault.
Context `{PteFormat} `{VmEnv}.

Definition pte_kind (pte : Z) : kern ast vmp_pte_kind := w ← in_pg (word_at pte); mret (vmp_pte_characterise w).
Definition soft_pfn (pte : Z) : kern ast Z := w ← in_pg (word_at pte); deref "vmp_md_soft_pte_pfn" (vmp_md_soft_pte_pfn w).
Definition hw_page (pte : Z) : kern ast Z := w ← in_pg (word_at pte); mret (vm_paddr_to_page (vmp_pte_hw_paddr w)).
(** [vmp_md_pte_create_hw] of an entry of the process at [vaddr]. *)
Definition enter_page (pte page : Z) (write executable : bool) (vaddr : Z) : kern ast () :=
  in_pg (word_set pte (vmp_md_pte_create_hw page write executable true (vaddr <=? HIGHER_HALF))).
Definition wsl_insert (p vaddr : Z) (sh : bool) : kern ast Z :=
  v ← proc_at p;
  r ← in_wsl p (vmp_wsl_insert (md_table v) vaddr sh);
  if r =? NIL_WSE then fatal "Working set insertion failed - evict!!" else mret r.
(** [page->wsi_hint = vmp_wsl_insert(..)] *)
Definition wsl_insert_private (p vaddr page : Z) : kern ast () :=
  r ← wsl_insert p vaddr false; modify (λ s, set_wsi_hint (<[page := r]> (wsi_hint s)) s).
Definition page_offset_set (page off : Z) : kern ast () := modify (λ s, set_page_offset (<[page := off]> (page_offset s)) s).
Definition unlock_map (p : Z) (held : bool) : kern ast () := when held (map_release p).

(** A page of private memory of [p]: [page->process], [referent_pte] and [offset]. *)
Definition own_page (p page pte vaddr : Z) : kern ast () :=
  in_pg (page_upd page (λ x, with_referent pte (with_owner p x)));;
  page_offset_set page (vaddr / PGSIZE).

(** ** Reading a page of an object *)

Definition object_byteoffset (area : fault_info) (vaddr : Z) : Z := u64 (fi_offset area * PGSIZE + (vaddr - fi_start area)).

(** The entries say busy, and are kept while the locks are dropped. *)
Definition start_read (p o drumslot vaddr : Z) (area : fault_info) (st ost : wire_state) (page : Z) : kern ast Z :=
  g ← pager_start page;
  page_offset_set page (object_byteoffset area vaddr / PGSIZE);;
  in_pg (page_upd page (λ x, with_referent (ws_pte ost) (with_dirty false (with_owner o x))));;
  when (negb (drumslot =? 0)) (in_pg (page_upd page (with_drumslot drumslot)));;
  oleaf ← leaf ost;
  pleaf ← leaf st;
  in_pg (
    word_set (ws_pte ost) (vmp_md_pte_create_busy page);;
    vmp_pagetable_page_noswap_pte_created oleaf (drumslot =? 0);;
    word_set (ws_pte st) (vmp_md_pte_create_busy page);;
    vmp_pagetable_page_noswap_pte_created pleaf (drumslot =? 0);;
    vmp_page_retain_locked oleaf;;
    vmp_page_retain_locked pleaf);;
  unwire (ws_pages ost) true;;
  unwire (ws_pages st) false;;
  vmp_release_pfn_lock;;
  mret g.
Definition finish_read (vaddr : Z) (area : fault_info) (st ost : wire_state) (page g : Z) : kern ast () :=
  k ← pte_kind (ws_pte ost);
  match k with
  | kPTEKindZero => fatal "Not working yet"
  | kPTEKindBusy => mret ()
  | _ => fatal "Impossible"
  end;;
  pfn ← soft_pfn (ws_pte st);
  kassert "vm_pfn_to_page(vmp_md_soft_pte_pfn(state->pte)) == page" (pfn =? page);;
  in_pg (word_set (ws_pte ost) (vmp_md_pte_create_hw page true true true true));;
  k ← pte_kind (ws_pte st);
  kassert "vmp_pte_characterise(state->pte) == kPTEKindBusy" (bool_decide (k = kPTEKindBusy));;
  enter_page (ws_pte st) page false (fi_executable area) vaddr;;
  oleaf ← leaf ost;
  pleaf ← leaf st;
  in_pg (vmp_page_release_locked oleaf;; vmp_page_release_locked pleaf);;
  vmp_release_pfn_lock;;
  pager_finish g.
Definition do_file_read (p o vaddr : Z) (area : fault_info) (st ost : wire_state) : kern ast (Z * bool) :=
  x ← object_at o;
  drumslot ← match okind x with kFile => mret 0 | kAnon => soft_pfn (ws_pte ost) end;
  let vnode := match okind x with kFile => backing x | kAnon => pagefile_vnode end in
  let file_byteoffset := match okind x with kFile => object_byteoffset area vaddr | kAnon => u64 (drumslot * PGSIZE) end in
  r ← in_pg (vmp_page_alloc_locked (if drumslot =? 0 then kPageUseFileShared else kPageUseAnonShared) false);
  match r with
  | None =>
      unwire (ws_pages ost) true;;
      unwire (ws_pages st) false;;
      vmp_release_pfn_lock;;
      mret (- kVMFaultRetPageShortage, map_lock_held area)
  | Some page =>
      g ← start_read p o drumslot vaddr area st ost page;
      unlock_map p (map_lock_held area);;
      ws_release p;;
      read_in vnode page file_byteoffset;;
      ws_acquire p;;
      vmp_acquire_pfn_lock;;
      finish_read vaddr area st ost page g;;
      mret (0, false)
  end.

(** ** Faults on objects *)

(** A page of the object is there already. *)
Definition map_object_page (p vaddr : Z) (area : fault_info) (st ost : wire_state) : kern ast () :=
  page ← hw_page (ws_pte ost);
  pml1_page ← leaf st;
  in_pg (vmp_page_retain_locked page);;
  enter_page (ws_pte st) page false (fi_executable area) vaddr;;
  in_pg (vmp_pagetable_page_noswap_pte_created pml1_page true);;
  unwire (ws_pages ost) true;;
  unwire (ws_pages st) false;;
  vmp_release_pfn_lock;;
  wsl_insert p vaddr true;;
  mret ().
(** A new page of a memory object. *)
Definition new_object_page (p vaddr : Z) (area : fault_info) (st ost : wire_state) : kern ast (Z * bool) :=
  pml1_page ← leaf st;
  oleaf ← leaf ost;
  r ← in_pg (vmp_page_alloc_locked kPageUseAnonShared false);
  match r with
  | None =>
      unwire (ws_pages ost) true;;
      unwire (ws_pages st) false;;
      vmp_release_pfn_lock;;
      mret (- kVMFaultRetPageShortage, map_lock_held area)
  | Some page =>
      enter_page (ws_pte st) page false (fi_executable area) vaddr;;
      in_pg (
        vmp_pagetable_page_noswap_pte_created pml1_page true;;
        vmp_pagetable_page_noswap_pte_created oleaf true);;
      unwire (ws_pages ost) true;;
      unwire (ws_pages st) false;;
      vmp_release_pfn_lock;;
      wsl_insert p vaddr true;;
      mret (0, map_lock_held area)
  end.
(** Reading a page in, and entering it into the working set. *)
Definition read_object_page (p o vaddr : Z) (area : fault_info) (st ost : wire_state) : kern ast (Z * bool) :=
  r ← do_file_read p o vaddr area st ost;
  if negb (r.1 =? 0) then mret r else wsl_insert p vaddr true;; mret r.
Definition vmp_do_obj_fault (p o vaddr : Z) (area : fault_info) (st : wire_state) : kern ast (Z * bool) :=
  w ← wire p (object_byteoffset area vaddr) (Some o) true;
  ost ← match w with WiredPte 0 pte pages => mret (WireState pte pages) | _ => fatal "r == 0" end;
  k ← pte_kind (ws_pte ost);
  match k with
  | kPTEKindValid => map_object_page p vaddr area st ost;; mret (kVMFaultRetOK, map_lock_held area)
  | kPTEKindBusy =>
      page ← soft_pfn (ws_pte st);
      g ← page_pager page;
      vmp_pager_state_retain g;;
      unwire (ws_pages ost) true;;
      unwire (ws_pages st) false;;
      vmp_release_pfn_lock;;
      unlock_map p (map_lock_held area);;
      ws_release p;;
      sleep_on g;;
      vmp_pager_state_release g;;
      mret (kVMFaultRetRetry, false)
  | kPTEKindSwap => read_object_page p o vaddr area st ost
  | kPTEKindFork | kPTEKindTrans => fatal "impossible"
  | kPTEKindZero =>
      x ← object_at o;
      match okind x with
      | kFile => read_object_page p o vaddr area st ost
      | kAnon => new_object_page p vaddr area st ost
      end
  end.

(** ** Forked pages *)

(** A [struct vmp_forkpage] is its physical address; the entry is at it, the count after. *)
Definition forkpage_refcount (anon : Z) : Z := anon + 8.
(** [kmem_free] of the forkpage is not modelled. *)
Definition vmp_do_fork_dirty_fault (p vaddr : Z) (area : fault_info) (st : wire_state) : kern ast Z :=
  page ← hw_page (ws_pte st);
  x ← in_pg (page_at page);
  let anon := owner x in
  n ← in_pg (word_at (forkpage_refcount anon));
  priv ← (if n =? 1 then
            enter_page (ws_pte st) page true (fi_executable area) vaddr;;
            in_pg (page_upd page (with_use kPageUseAnonPrivate);; stat_add nanonprivate 1);;
            mret (Some page)
          else
            r ← in_pg (vmp_page_alloc_locked kPageUseAnonPrivate false);
            match r with
            | None => mret None
            | Some priv_page =>
                in_pg (page_copy priv_page page);;
                enter_page (ws_pte st) priv_page true (fi_executable area) vaddr;;
                mret (Some priv_page)
            end);
  match priv with
  | None => unwire (ws_pages st) false;; vmp_release_pfn_lock;; mret kVMFaultRetPageShortage
  | Some priv_page =>
      own_page p priv_page (ws_pte st) vaddr;;
      proc_upd p (λ v, set_n_anonymous (u64 (n_anonymous v + 1)) v);;
      in_pg (word_set (forkpage_refcount anon) (u64 (n - 1));; when (n =? 1) (stat_add nanonfork (-1)));;
      unwire (ws_pages st) false;;
      vmp_release_pfn_lock;;
      mret 0
  end.

(** A forked page that is swapped out is read in. *)
Definition read_fork_page (p vaddr anon : Z) (area : fault_info) (st : wire_state) : kern ast (Z * bool) :=
  drumslot ← soft_pfn anon;
  r ← in_pg (vmp_page_alloc_locked kPageUseAnonFork false);
  match r with
  | None => unwire (ws_pages st) false;; vmp_release_pfn_lock;; mret (kVMFaultRetPageShortage, map_lock_held area)
  | Some page =>
      g ← pager_start page;
      page_offset_set page (-1);;
      pml1_page ← leaf st;
      in_pg (
        page_upd page (λ x, with_drumslot drumslot (with_referent anon (with_dirty false (with_owner anon x))));;
        word_set anon (vmp_md_pte_create_busy page);;
        word_set (ws_pte st) (vmp_md_pte_create_busy page);;
        vmp_pagetable_page_noswap_pte_created pml1_page false;;
        vmp_page_retain_locked pml1_page);;
      unwire (ws_pages st) false;;
      vmp_release_pfn_lock;;
      map_release p;;
      ws_release p;;
      read_in pagefile_vnode page (u64 (drumslot * PGSIZE));;
      ws_acquire p;;
      vmp_acquire_pfn_lock;;
      pfn ← soft_pfn (ws_pte st);
      kassert "vm_pfn_to_page(vmp_md_soft_pte_pfn(state->pte)) == page" (pfn =? page);;
      in_pg (word_set anon (vmp_md_pte_create_hw page true true true true));;
      k ← pte_kind (ws_pte st);
      kassert "vmp_pte_characterise(state->pte) == kPTEKindBusy" (bool_decide (k = kPTEKindBusy));;
      enter_page (ws_pte st) page false (fi_executable area) vaddr;;
      in_pg (vmp_page_release_locked pml1_page);;
      vmp_release_pfn_lock;;
      pager_finish g;;
      wsl_insert p vaddr true;;
      mret (0, false)
  end.
Definition vmp_do_fork_fault (p vaddr : Z) (area : fault_info) (st : wire_state) : kern ast (Z * bool) :=
  w ← in_pg (word_at (ws_pte st));
  anon ← deref "vmp_md_soft_pte_forkpage" (vmp_md_soft_pte_forkpage w);
  k ← pte_kind anon;
  match k with
  | kPTEKindValid =>
      page ← hw_page anon;
      pml1_page ← leaf st;
      in_pg (vmp_page_retain_locked page);;
      enter_page (ws_pte st) page false (fi_executable area) vaddr;;
      in_pg (vmp_pagetable_page_noswap_pte_created pml1_page false);;
      unwire (ws_pages st) false;;
      vmp_release_pfn_lock;;
      wsl_insert p vaddr true;;
      mret (0, map_lock_held area)
  | kPTEKindSwap => read_fork_page p vaddr anon area st
  | _ => fatal "Impossible"
  end.

(** ** The fault handler *)

(** How a branch of [vmp_do_fault] ends: by [return], or at the end of the function, where
    the locks that are still held are released. *)
Inductive branch := Return (r : Z) | Finish (r : Z) (held : bool).
Definition to_finish (x : Z * bool) : branch := Finish x.1 x.2.

(** No page: all is undone. *)
Definition shortage (p : Z) (st : wire_state) : kern ast branch :=
  unwire (ws_pages st) false;;
  vmp_release_pfn_lock;;
  ws_release p;;
  map_release p;;
  mret (Return kVMFaultRetPageShortage).
Definition release_wired (st : wire_state) : kern ast () := unwire (ws_pages st) false;; vmp_release_pfn_lock.

(** A write to a page that is there and may not be written yet. *)
Definition make_writeable (vaddr : Z) (area : fault_info) (st : wire_state) : kern ast () :=
  w ← in_pg (word_at (ws_pte st));
  enter_page (ws_pte st) (vmp_md_pte_hw_pfn w) true (fi_executable area) vaddr;;
  release_wired st.
Definition cow_fault (p vaddr : Z) (write : bool) (area : fault_info) (st : wire_state) (old_page : Z) : kern ast branch :=
  pml1_page ← leaf st;
  r ← in_pg (vmp_page_alloc_locked kPageUseAnonPrivate false);
  match r with
  | None => shortage p st
  | Some new_page =>
      own_page p new_page (ws_pte st) vaddr;;
      in_pg (page_copy new_page old_page;; vmp_page_evict (ws_pte st) pml1_page);;
      enter_page (ws_pte st) new_page write (fi_executable area) vaddr;;
      in_pg (vmp_pagetable_page_noswap_pte_created pml1_page true);;
      proc_upd p (λ v, set_n_anonymous (u64 (n_anonymous v + 1)) v);;
      release_wired st;;
      mret (Finish 0 (map_lock_held area))
  end.
(** The first write to a page of a file keeps the vnode until the page is clean. *)
Definition mark_dirty (area : fault_info) (page : Z) (x : vm_page) : kern ast () :=
  kassert "old_page->use == kPageUseFileShared" (bool_decide (use x = kPageUseFileShared));;
  when (negb (dirty x))
    (in_pg (page_set page (with_dirty true x));;
     o ← deref "area_info.object" (fi_object area);
     y ← object_at o;
     object_set o (with_n_dirty (u64 (n_dirty_pages y + 1)) y);;
     when (n_dirty_pages y =? 0) (ref_add (backing y) 1)).
Definition dirty_fault (p vaddr : Z) (write : bool) (area : fault_info) (st : wire_state) (r : Z) : kern ast branch :=
  old_page ← hw_page (ws_pte st);
  x ← in_pg (page_at old_page);
  if bool_decide (use x = kPageUseAnonFork) then
    r ← vmp_do_fork_dirty_fault p vaddr area st; mret (Finish r (map_lock_held area))
  else if bool_decide (use x = kPageUseAnonPrivate) then
    make_writeable vaddr area st;; mret (Finish r (map_lock_held area))
  else if fi_copy area then cow_fault p vaddr write area st old_page
  else mark_dirty area old_page x;; make_writeable vaddr area st;; mret (Finish r (map_lock_held area)).

(** The first touch of a page of anonymous memory. *)
Definition anon_fault (p vaddr : Z) (write : bool) (area : fault_info) (st : wire_state) : kern ast branch :=
  pml1_page ← leaf st;
  r ← in_pg (vmp_page_alloc_locked kPageUseAnonPrivate false);
  match r with
  | None => shortage p st
  | Some page =>
      own_page p page (ws_pte st) vaddr;;
      enter_page (ws_pte st) page write (fi_executable area) vaddr;;
      in_pg (vmp_pagetable_page_noswap_pte_created pml1_page true);;
      proc_upd p (λ v, set_n_anonymous (u64 (n_anonymous v + 1)) v);;
      release_wired st;;
      wsl_insert_private p vaddr page;;
      mret (Finish 0 (map_lock_held area))
  end.
Definition trans_fault (p vaddr : Z) (write : bool) (area : fault_info) (st : wire_state) : kern ast branch :=
  page ← soft_pfn (ws_pte st);
  x ← in_pg (page_at page);
  kassert "page->use == kPageUseAnonPrivate" (bool_decide (use x = kPageUseAnonPrivate));;
  in_pg (vmp_page_retain_locked page);;
  enter_page (ws_pte st) page write (fi_executable area) vaddr;;
  release_wired st;;
  wsl_insert_private p vaddr page;;
  mret (Finish 0 (map_lock_held area)).
Definition swap_fault (p vaddr : Z) (write : bool) (area : fault_info) (st : wire_state) : kern ast branch :=
  drumslot ← soft_pfn (ws_pte st);
  r ← in_pg (vmp_page_alloc_locked kPageUseAnonPrivate false);
  match r with
  | None => shortage p st
  | Some page =>
      g ← pager_start page;
      own_page p page (ws_pte st) vaddr;;
      pml1_page ← leaf st;
      in_pg (
        page_upd page (λ x, with_drumslot drumslot (with_dirty false x));;
        word_set (ws_pte st) (vmp_md_pte_create_busy page);;
        vmp_pagetable_page_noswap_pte_created pml1_page false;;
        vmp_page_retain_locked pml1_page);;
      release_wired st;;
      ws_release p;;
      map_release p;;
      read_in pagefile_vnode page (u64 (drumslot * PGSIZE));;
      ws_acquire p;;
      vmp_acquire_pfn_lock;;
      k ← pte_kind (ws_pte st);
      match k with kPTEKindBusy => mret () | _ => fatal "Complete this codepath" end;;
      pfn ← soft_pfn (ws_pte st);
      kassert "vm_pfn_to_page(vmp_md_soft_pte_pfn(state.pte)) == page" (pfn =? page);;
      enter_page (ws_pte st) page write (fi_executable area) vaddr;;
      in_pg (vmp_page_release_locked pml1_page);;
      vmp_release_pfn_lock;;
      pager_finish g;;
      wsl_insert_private p vaddr page;;
      mret (Finish 0 false)
  end.
Definition busy_fault (p : Z) (st : wire_state) : kern ast branch :=
  page ← soft_pfn (ws_pte st);
  g ← page_pager page;
  vmp_pager_state_retain g;;
  release_wired st;;
  ws_release p;;
  map_release p;;
  sleep_on g;;
  vmp_pager_state_release g;;
  mret (Return kVMFaultRetRetry).

(** What the address is part of; the map lock is taken for mappings.  [None]: nothing. *)
Definition find_area (p vaddr : Z) : kern ast (option fault_info) :=
  if (vaddr <? HHDM_BASE) || ((KVM_DYNAMIC_BASE <=? vaddr) && (vaddr <? KVM_DYNAMIC_BASE + KVM_DYNAMIC_SIZE)) then
    map_acquire p;;
    e ← vmp_ps_vad_find p vaddr;
    match e with
    | None => map_release p;; mret None
    | Some e =>
        x ← map_entry_at e;
        mret (Some (Info (object x) (start x) (offset x) (cow x) (negb (Z.land (protection x) kVMWrite =? 0))
          (negb (Z.land (protection x) kVMExecute =? 0)) true))
    end
  else if (KVM_UBC_BASE <=? vaddr) && (vaddr <? KVM_UBC_BASE + KVM_UBC_SIZE) then
    s ← get;
    let i := ubc_addr_to_window vaddr in
    w ← deref "window_array" (window_array s !! Z.to_nat i);
    o ← deref "window->vnode->object" (vnode_object s !! w_vnode w);
    mret (Some (Info (Some o) (ubc_window_addr i) (w_offset w * (UBC_WINDOW_SIZE / PGSIZE)) false true false false))
  else mret None.

(** By what the entry says. *)
Definition fault_branch (p vaddr : Z) (write : bool) (area : fault_info) (r : Z) (st : wire_state) : kern ast branch :=
  w ← in_pg (word_at (ws_pte st));
  match vmp_pte_characterise w with
  | kPTEKindValid =>
      if negb write || vmp_md_hw_pte_is_writeable w then release_wired st;; mret (Finish r (map_lock_held area))
      else dirty_fault p vaddr write area st r
  | kPTEKindZero =>
      match fi_object area with
      | None => anon_fault p vaddr write area st
      | Some o => x ← vmp_do_obj_fault p o vaddr area st; mret (to_finish x)
      end
  | kPTEKindTrans => trans_fault p vaddr write area st
  | kPTEKindSwap => swap_fault p vaddr write area st
  | kPTEKindBusy => busy_fault p st
  | kPTEKindFork => x ← vmp_do_fork_fault p vaddr area st; mret (to_finish x)
  end.

(** [curproc] is the process of the thread. *)
Definition vmp_do_fault (curproc vaddr : Z) (write execute user : bool) : kern ast Z :=
  let vaddr := ROUNDDOWN vaddr PGSIZE in
  p ← (if HHDM_BASE <=? vaddr then (if user then fatal "User fault in kernel area" else mret kernel_process) else mret curproc);
  area ← find_area p vaddr;
  match area with
  | None => mret kVMFaultRetFailure
  | Some area =>
      (if write && negb (fi_writeable area) then fatal "Write fault in nonwriteable vad" else mret ());;
      ws_acquire p;;
      vmp_acquire_pfn_lock;;
      w ← wire p vaddr None true;
      match w with
      | NoTable _ => fatal "Failed to wire PTE"
      | WiredPte r pte pages =>
          b ← fault_branch p vaddr write area r (WireState pte pages);
          match b with
          | Return r => mret r
          | Finish r held => unlock_map p held;; ws_release p;; mret r
          end
      end
  end.

(** [recoverable] is [curthread()->in_trap_recoverable]; [fuel] bounds the retries. *)
Fixpoint vmp_fault (fuel : nat) (curproc vaddr : Z) (write execute user recoverable : bool) : kern ast Z :=
  ret ← vmp_do_fault curproc vaddr write execute user;
  if ret =? kVMFaultRetOK then mret ret
  else if ret =? kVMFaultRetRetry then
    match fuel with O => spin | S fuel' => vmp_fault fuel' curproc vaddr write execute user recoverable end
  else if ret =? kVMFaultRetPageShortage then
    sleep_for_pages;;
    match fuel with O => spin | S fuel' => vmp_fault fuel' curproc vaddr write execute user recoverable end
  else if ret =? kVMFaultRetFailure then (if recoverable then mret ret else fatal "Stopping.")
  else fatal "Unexpected fault return code".
End fault.
End Fault.
