(* ===== verification/FaultMaps.v ===== *)
(** What page faults and mappings of physical memory do to the mappings of processes
    (kernel/vm/fault.c, kernel/vm/map.c): address spaces stay well-formed. *)
From S2P Require Import Prelude Vmem VmemSpec VmemProofs VmemAlloc VmemFree VmemTheorems.
From S2P Require Import Pte Resident Tables PageAlloc Walk Wsl Aspace VmMap VmMapProofs Fault.
Import Resident Tables PageAlloc Walk Wsl Aspace VmMap Fault.
Local Open Scope Z_scope.

(** ** Page faults *)

Section fault.
Context `{F : PteFormat} `{E : VmEnv} {EO : VmEnvOk E}.

Definition sane (s : ast) : Prop := ∃ H, wf H s.
Lemma sane_pages s s' : sane s → maps_eq s s' → sane s'.
Proof. intros [H Hwf] Heq. exists H. by eapply wf_maps_eq. Qed.
Lemma sane_wait m : waits_calm m → keeps sane m.
Proof.
  intros Hm s [H Hwf]. eapply wlp_mono; [by apply wait_none|]. intros _ s' [(H' & Hwf' & _) _]. by exists H'.
Qed.
Lemma sane_sleep g : keeps sane (sleep_on g).
Proof using EO. apply sane_wait, env_sleep. Qed.
Lemma sane_read vn page off : keeps sane (read_in vn page off).
Proof using EO. apply sane_wait, env_read. Qed.
Lemma sane_short : keeps sane sleep_for_pages.
Proof using EO. apply sane_wait, env_pages. Qed.

Lemma sane_lock p b : keeps sane (proc_upd p (set_map_held b)).
Proof.
  intros s [H Hwf]. unfold proc_upd. rewrite wlp_bind, wlp_proc_at. intros v Hv. rewrite wlp_modify. exists H. by apply wf_map_held.
Qed.
Lemma sane_object_set o x y s : sane s → vm_objects s !! o = Some y → map_entry_list x = map_entry_list y → backing x = backing y →
  sane (set_vm_objects (<[o := x]> (vm_objects s)) s).
Proof.
  intros [H [Hp Hh Hl Hr Hb]] Hy Hxl Hxb.
  assert (∀ o' z, <[o := x]> (vm_objects s) !! o' = Some z →
    ∃ z', vm_objects s !! o' = Some z' ∧ map_entry_list z = map_entry_list z' ∧ backing z = backing z') as Hold.
  { intros o' z [[<- <-]|[_ Hz]]%lookup_insert_Some; eauto. }
  exists H. split; simpl; try done.
  - intros p v Hv. destruct (Hp p v Hv) as (X & []). exists X. by split.
  - intros o' z (z' & Hz & -> & _)%Hold. by apply Hl.
  - intros o' z (z' & Hz & _ & ->)%Hold. by apply Hr.
  - intros o1 o2 z1 z2 (z1' & Hz1 & _ & ->)%Hold (z2' & Hz2 & _ & ->)%Hold. by apply Hb.
Qed.
Lemma sane_ref o : keeps sane (ref_add o 1).
Proof.
  intros s [H [Hp Hh Hl Hr Hb]]. unfold ref_add. rewrite wlp_bind, wlp_get, wlp_bind, wlp_deref. intros n Hn. rewrite wlp_modify.
  exists H. split; simpl; try done.
  { intros p v Hv. destruct (Hp p v Hv) as (X & []). exists X. by split. }
  intros o' y Hy. destruct (Hr o' y Hy) as (m & Hm & Hle).
  destruct (decide (o = backing y)) as [->|Hne]; [rewrite lookup_insert_eq|rewrite lookup_insert_ne by done; eauto].
  assert (m = n) as -> by congruence. exists (n + 1). split; [done|lia].
Qed.

#[local] Hint Resolve sane_sleep sane_read sane_short sane_lock sane_ref : keeps.

Lemma sane_map_acquire p : keeps sane (map_acquire p).
Proof. unfold map_acquire. repeat keeps_step. Qed.
Lemma sane_map_release p : keeps sane (map_release p).
Proof. unfold map_release. repeat keeps_step. Qed.
Lemma sane_unlock p b : keeps sane (unlock_map p b).
Proof. unfold unlock_map, map_release. repeat keeps_step. Qed.
Lemma sane_mark_dirty area page x : keeps sane (mark_dirty area page x).
Proof.
  unfold mark_dirty. pose proof sane_pages. do 4 keeps_step; [keeps_step|].
  intros s Hs. rewrite wlp_bind, wlp_object_at. intros y Hy. rewrite wlp_bind. unfold object_set. rewrite wlp_modify.
  apply keeps_when; [apply sane_ref|]. by eapply sane_object_set.
Qed.
#[local] Hint Resolve sane_map_acquire sane_map_release sane_unlock sane_mark_dirty : keeps.

(** The functions of [Fault], in its order. *)
Ltac sane_step := first
  [ solve [auto with keeps nocore]
  | apply (keeps_retain sane sane_pages) | apply (keeps_release sane sane_pages) | apply (keeps_pager_start sane sane_pages)
  | apply (keeps_ws_acquire sane sane_pages) | apply (keeps_ws_release sane sane_pages) | apply (keeps_pfn_acquire sane sane_pages)
  | apply (keeps_pfn_release sane sane_pages) | apply (keeps_page_pager sane sane_pages) | apply (keeps_object_at sane sane_pages)
  | apply (keeps_unwire sane sane_pages) | apply (keeps_wire sane sane_pages sane_sleep sane_read)
  | apply (keeps_in_pg sane sane_pages) | apply (keeps_in_wsl sane sane_pages)
  | apply (keeps_proc_upd sane sane_pages); by intros []
  | apply (keeps_modify sane sane_pages); by intros ?; repeat case_match
  | apply keeps_bind; [|intros ?]
  | apply keeps_when
  | match goal with |- keeps _ (match ?x with _ => _ end) => destruct x end
  | match goal with |- keeps _ (if ?x then _ else _) => destruct x end ].
Ltac sane_solve := repeat sane_step.

Lemma sane_pager_finish g : keeps sane (pager_finish g).
Proof. unfold pager_finish, pager_at. sane_solve. Qed.
Lemma sane_leaf w : keeps sane (leaf w).
Proof. unfold leaf. sane_solve. Qed.
Lemma sane_pte_kind pte : keeps sane (pte_kind pte).
Proof. unfold pte_kind. sane_solve. Qed.
Lemma sane_soft_pfn pte : keeps sane (soft_pfn pte).
Proof. unfold soft_pfn. sane_solve. Qed.
Lemma sane_hw_page pte : keeps sane (hw_page pte).
Proof. unfold hw_page. sane_solve. Qed.
Lemma sane_enter pte page w x a : keeps sane (enter_page pte page w x a).
Proof. unfold enter_page. sane_solve. Qed.
Lemma sane_wsl_insert p a sh : keeps sane (wsl_insert p a sh).
Proof. unfold wsl_insert. sane_solve. Qed.
#[local] Hint Resolve sane_pager_finish sane_leaf sane_pte_kind sane_soft_pfn sane_hw_page sane_enter sane_wsl_insert : keeps.
Lemma sane_wsl_private p a page : keeps sane (wsl_insert_private p a page).
Proof. unfold wsl_insert_private. sane_solve. Qed.
Lemma sane_offset page off : keeps sane (page_offset_set page off).
Proof. unfold page_offset_set. sane_solve. Qed.
#[local] Hint Resolve sane_wsl_private sane_offset : keeps.
Lemma sane_own p page pte a : keeps sane (own_page p page pte a).
Proof. unfold own_page. sane_solve. Qed.
Lemma sane_start_read p o d a area st ost page : keeps sane (start_read p o d a area st ost page).
Proof. unfold start_read. sane_solve. Qed.
Lemma sane_finish_read a area st ost page g : keeps sane (finish_read a area st ost page g).
Proof. unfold finish_read. sane_solve. Qed.
#[local] Hint Resolve sane_own sane_start_read sane_finish_read : keeps.
Lemma sane_file_read p o a area st ost : keeps sane (do_file_read p o a area st ost).
Proof using EO. unfold do_file_read. sane_solve. Qed.
Lemma sane_map_object_page p a area st ost : keeps sane (map_object_page p a area st ost).
Proof. unfold map_object_page. sane_solve. Qed.
Lemma sane_new_object_page p a area st ost : keeps sane (new_object_page p a area st ost).
Proof. unfold new_object_page. sane_solve. Qed.
#[local] Hint Resolve sane_file_read sane_map_object_page sane_new_object_page : keeps.
Lemma sane_read_object_page p o a area st ost : keeps sane (read_object_page p o a area st ost).
Proof using EO. unfold read_object_page. sane_solve. Qed.
#[local] Hint Resolve sane_read_object_page : keeps.
Lemma sane_obj_fault p o a area st : keeps sane (vmp_do_obj_fault p o a area st).
Proof using EO. unfold vmp_do_obj_fault. sane_solve. Qed.
Lemma sane_fork_dirty p a area st : keeps sane (vmp_do_fork_dirty_fault p a area st).
Proof. unfold vmp_do_fork_dirty_fault. sane_solve. Qed.
Lemma sane_read_fork p a anon area st : keeps sane (read_fork_page p a anon area st).
Proof using EO. unfold read_fork_page. sane_solve. Qed.
#[local] Hint Resolve sane_obj_fault sane_fork_dirty sane_read_fork : keeps.
Lemma sane_fork_fault p a area st : keeps sane (vmp_do_fork_fault p a area st).
Proof using EO. unfold vmp_do_fork_fault. sane_solve. Qed.
Lemma sane_shortage p st : keeps sane (shortage p st).
Proof. unfold shortage. sane_solve. Qed.
Lemma sane_release_wired st : keeps sane (release_wired st).
Proof. unfold release_wired. sane_solve. Qed.
#[local] Hint Resolve sane_fork_fault sane_shortage sane_release_wired : keeps.
Lemma sane_make_writeable a area st : keeps sane (make_writeable a area st).
Proof. unfold make_writeable. sane_solve. Qed.
Lemma sane_cow p a w area st old : keeps sane (cow_fault p a w area st old).
Proof. unfold cow_fault. sane_solve. Qed.
#[local] Hint Resolve sane_make_writeable sane_cow : keeps.
Lemma sane_dirty p a w area st r : keeps sane (dirty_fault p a w area st r).
Proof. unfold dirty_fault. sane_solve. Qed.
Lemma sane_anon p a w area st : keeps sane (anon_fault p a w area st).
Proof. unfold anon_fault. sane_solve. Qed.
Lemma sane_trans p a w area st : keeps sane (trans_fault p a w area st).
Proof. unfold trans_fault. sane_solve. Qed.
Lemma sane_swap p a w area st : keeps sane (swap_fault p a w area st).
Proof using EO. unfold swap_fault. sane_solve. Qed.
Lemma sane_busy p st : keeps sane (busy_fault p st).
Proof using EO. unfold busy_fault. sane_solve. Qed.
#[local] Hint Resolve sane_dirty sane_anon sane_trans sane_swap sane_busy : keeps.
Lemma sane_vad_find l a : keeps sane (vad_find l a).
Proof. induction l as [|e l IH]; simpl; unfold map_entry_at; sane_solve. Qed.
#[local] Hint Resolve sane_vad_find : keeps.
Lemma sane_find_area p a : keeps sane (find_area p a).
Proof. unfold find_area, vmp_ps_vad_find, map_entry_at. sane_solve. Qed.
Lemma sane_branch p a w area r st : keeps sane (fault_branch p a w area r st).
Proof using EO. unfold fault_branch. sane_solve. Qed.
#[local] Hint Resolve sane_find_area sane_branch : keeps.
Lemma sane_do_fault cp a w x u : keeps sane (vmp_do_fault cp a w x u).
Proof using EO. unfold vmp_do_fault. sane_solve. Qed.
#[local] Hint Resolve sane_do_fault : keeps.
Lemma sane_fault fuel cp a w x u r : keeps sane (vmp_fault fuel cp a w x u r).
Proof using EO. induction fuel as [|fuel IH]; simpl; sane_solve. Qed.
End fault.

(** ** Mappings of physical memory *)

(** A mapping of no object that is in no tree. *)
Lemma in_tree_entries M s e : in_tree (set_map_entries M s) e ↔ in_tree s e.
Proof. done. Qed.
Lemma wf_loose H s p e x : wf H s → map_entries s !! e = None → object x = None →
  wf (<[e := p]> H) (set_map_entries (<[e := x]> (map_entries s)) s).
Proof.
  intros Hwf He Ho. pose proof Hwf as [Hproc Hhome Hlist Hrefs Hback].
  assert (∀ o, views (<[e := x]> (map_entries s)) o = views (map_entries s) o) as Hvs.
  { intros o. rewrite views_insert by done. by rewrite decide_False by congruence. }
  split; simpl; try done.
  - intros q v Hv. destruct (Hproc q v Hv) as (X & [H1 H2 H3 H4 H5]). exists X. split; try done.
    + eapply entries_weaken; [|exact H1]. by apply insert_subseteq.
    + intros f Hf. rewrite lookup_insert_ne; [by apply H5|]. intros <-. by eapply wf_fresh in Hf.
  - intros f. destruct (decide (f = e)) as [->|Hne]; [by rewrite !lookup_insert_eq|]. rewrite !lookup_insert_ne by done. apply Hhome.
  - intros o y Hy. rewrite Hvs. setoid_rewrite in_tree_entries. by apply Hlist.
  - intros o y Hy. rewrite Hvs. by apply Hrefs.
Qed.
Lemma wf_unloose H s e x : wf H s → map_entries s !! e = Some x → object x = None → ¬ in_tree s e →
  wf (delete e H) (set_map_entries (delete e (map_entries s)) s).
Proof.
  intros Hwf He Ho Hnt. pose proof Hwf as [Hproc Hhome Hlist Hrefs Hback].
  assert (∀ o, views (delete e (map_entries s)) o = views (map_entries s) o) as Hvs.
  { intros o. unfold views. rewrite map_filter_delete. apply delete_id, map_lookup_filter_None. right. intros z Hz. simpl. congruence. }
  split; simpl; try done.
  - intros q v Hv. destruct (Hproc q v Hv) as (X & [H1 H2 H3 H4 H5]). exists X.
    assert (∀ f, f ∈ vad_queue v → f ≠ e) as Hne by (intros f Hf ->; apply Hnt; by exists q, v). split; try done.
    + by apply entries_delete.
    + intros f Hf. rewrite lookup_delete_ne; [by apply H5|]. by apply not_eq_sym, Hne.
  - intros f. destruct (decide (f = e)) as [->|Hne]; [by rewrite !lookup_delete_eq|]. rewrite !lookup_delete_ne by done. apply Hhome.
  - intros o y Hy. rewrite Hvs. setoid_rewrite in_tree_entries. by apply Hlist.
  - intros o y Hy. rewrite Hvs. by apply Hrefs.
Qed.

Section physical.
Context `{F : PteFormat} `{E : VmEnv} {EO : VmEnvOk E}.
Context (p e : Z) (x : vm_map_entry) (v : vm_procstate) (vm : Vmem.vmem ()).

(** The range of the mapping [x] of [p] is taken, but it is not in the tree yet. *)
Definition entering (s : ast) : Prop := ∃ H w, procs s !! p = Some w ∧ maps_of w = (vm, vad_queue v, true) ∧
  wf H (as_if (Some (p, vmem v)) s) ∧ H !! e = Some p ∧ map_entries s !! e = Some x.
Lemma as_if_pages o s s' : maps_eq s s' → maps_eq (as_if o s) (as_if o s').
Proof.
  intros Heq. destruct o as [[q vm']|]; [|done]. destruct Heq as [Hp He Ho Hr]. split; try done. simpl. apply map_eq. intros i.
  apply (f_equal (.!! i)) in Hp. rewrite !lookup_fmap in *. destruct (decide (i = q)) as [->|Hne]; [|by rewrite !lookup_alter_ne].
  rewrite !lookup_alter_eq. destruct (procs s' !! q), (procs s !! q); try done. injection Hp as _ Hq Hh. simpl. unfold maps_of. simpl. congruence.
Qed.
Lemma entering_pages s s' : entering s → maps_eq s s' → entering s'.
Proof.
  intros (H & w & Hw & Hm & Hwf & He & Hx) Heq. destruct (maps_eq_proc _ _ _ _ Heq Hw) as (w' & Hw' & Hm'). exists H, w'.
  split_and!; [done|congruence|eapply wf_maps_eq; [by apply as_if_pages|done]|done|by rewrite (me_entries _ _ Heq)].
Qed.
Lemma entering_wait m : waits_calm m → keeps entering m.
Proof.
  intros Hm s (H & w & Hw & Hmw & Hwf & He & Hx). injection Hmw as Hvm Hq Hh. eapply wlp_mono; [eapply (Hm (Some (p, vmem v))); [|exact Hwf]|].
  - intros ? ? [= <- <-]. eauto.
  - intros _ s' [(H' & Hwf' & Hent) Hproc]. destruct (Hproc p w Hw Hh) as (w' & Hw' & Hmw'). destruct (Hent p w e Hw Hh He) as [He' Hx'].
    exists H', w'. split_and!; try done; [by rewrite Hmw'; unfold maps_of; rewrite Hvm, Hq, Hh|congruence].
Qed.
Lemma entering_map_pages n q a pfn cur : keeps entering (map_pages n q a pfn cur).
Proof using EO.
  apply keeps_map_pages; [apply entering_pages|intros; apply entering_wait, env_sleep|intros; apply entering_wait, env_read].
Qed.

(** It enters the tree. *)
Lemma enter_tree_ok s a sz : entering s → e ∉ vad_queue v → range_taken v vm a sz → range x = (a, sz) → object x = None →
  wlp (vad_tree_insert p e;; map_release p) (λ _ s', ∃ H', wf H' s') s.
Proof.
  intros (H & w & Hw & Hm & Hwf & He & Hx) Hnq [Har Hlv Hdis] Hrx Hox. injection Hm as Hvm Hq Hh. injection Hrx as Ha Hsz.
  set (s0 := as_if (Some (p, vmem v)) s) in *. assert (procs s0 !! p = Some (set_vmem (vmem v) w)) as Hp0 by (simpl; by rewrite lookup_alter_eq, Hw).
  destruct (wf_proc _ _ Hwf _ _ Hp0) as (X & [H1 H2 H3 H4 H5]). simpl in H1, H3, H4, H5.
  destruct (live_range TOP vm a sz) as (Ha0 & Hsz0 & _); [done|rewrite Hlv; apply elem_of_cons; by left|].
  assert (¬ in_tree s0 e) as Hnt.
  { intros (q & u & Hu & Hin). destruct (wf_proc _ _ Hwf q u Hu) as (Y & [_ _ _ _ H5']). pose proof (H5' e Hin). assert (q = p) as -> by congruence.
    rewrite Hp0 in Hu. injection Hu as <-. simpl in Hin. by rewrite Hq in Hin. }
  pose proof (wf_unloose H s0 e x Hwf Hx Hox Hnt) as Hwf0. apply wlp_wp. rewrite wp_bind.
  eapply wp_mono; [apply (vad_tree_insert_ok p s w X e x); try done; [lia|]|].
  { rewrite Hsz, Ha. intros b z Hb. apply Hdis. by setoid_rewrite H4. }
  intros [] s1 (l1 & l2 & X1 & X2 & Hl & -> & HX1 & HX2 & Ho' & ->).
  rewrite (wp_map_release p (set_vads (l1 ++ e :: l2) w)) by (simpl; rewrite ?lookup_insert_eq; done). simpl. rewrite insert_insert_eq.
  exists (<[e := p]> (delete e H)). eapply wf_mapped; [exact Hwf0|by eexists|]. split; simpl.
  - by rewrite lookup_delete_eq.
  - by rewrite insert_delete_eq, insert_id.
  - intros q Hne. by rewrite lookup_insert_ne, lookup_alter_ne.
  - intros u Y Hu HY HoY HlY. change (procs s0 !! p = Some u) in Hu. rewrite Hp0 in Hu. injection Hu as <-. simpl in HY, HlY.
    assert (∀ f, f ∈ vad_queue w → f ≠ e) as Hne by (rewrite Hq; by intros f Hf ->).
    assert (Y = X1 ++ X2) as -> by (eapply entries_unique; [exact HY|by apply (entries_delete s0)]).
    assert (∀ l Z, (∀ f, f ∈ l → f ∈ vad_queue w) → entries_of s l Z → entries_of (set_map_entries (delete e (map_entries s0)) s0) l Z) as Hsub.
    { intros l Z Hl' HZ. apply (entries_delete s0); [by intros f ?%Hl'%Hne|done]. }
    eexists _, l1, l2, X1, X2. rewrite lookup_insert_eq. split_and!; try done.
    + apply Hsub; [|done]. intros f Hf. rewrite Hl, elem_of_app. by left.
    + apply Hsub; [|done]. intros f Hf. rewrite Hl, elem_of_app. by right.
    + simpl. by rewrite Hvm.
    + simpl. rewrite Hvm, Hlv. unfold range. by rewrite Hsz, Ha.
  - by rewrite Hox.
Qed.
End physical.

Lemma physical_view_partial `{F : PteFormat} `{E : VmEnv} {EO : VmEnvOk E} H s p v vaddr sz phys initial max exact :
  wf H s → procs s !! p = Some v → map_request v vaddr sz phys exact →
  wlp (vm_ps_map_physical_view p vaddr sz phys initial max exact) (λ _ s', ∃ H', wf H' s') s.
Proof.
  intros Hwf Hv Hr. destruct (wf_proc _ _ Hwf p v Hv) as (X & [_ _ Har _ Hho]). unfold vm_ps_map_physical_view, map_acquire.
  rewrite wlp_bind, wlp_kassert. intros _. rewrite wlp_bind, wlp_kassert. intros _. rewrite wlp_bind, wlp_bind, wlp_proc_at. intros v0 Hv0.
  assert (v0 = v) as -> by congruence. destruct (map_held v); [done|]. unfold proc_upd. rewrite wlp_bind, wlp_proc_at. intros v0 Hv1.
  assert (v0 = v) as -> by congruence. rewrite wlp_modify, wlp_bind.
  eapply wlp_mono; [apply (alloc_range_partial p (set_map_held true v) _ vaddr sz phys exact)|]; [simpl; by rewrite lookup_insert_eq|done|by destruct Hr|].
  intros a s2 (vm & -> & [Har' Hlv Hdis] & _). simpl in Hlv, Hdis. simpl. rewrite insert_insert_eq.
  destruct (live_range TOP vm a sz) as (Ha0 & Hsz0 & HaT); [done|rewrite Hlv; apply elem_of_cons; by left|].
  assert (u64 (a + sz) = a + sz) as -> by (apply u64_small; unfold TOP, KVM_DYNAMIC_BASE, KVM_DYNAMIC_SIZE in HaT; lia).
  fold (new_entry None sz phys initial max false false a). set (x := new_entry None sz phys initial max false false a).
  rewrite wlp_bind. unfold map_entry_new. rewrite wlp_bind, wlp_get. unfold map_entry_set. rewrite wlp_bind, wlp_modify, wlp_ret. simpl.
  set (e := fresh (dom (map_entries s))). assert (map_entries s !! e = None) as He by (apply not_elem_of_dom, is_fresh).
  assert (e ∉ vad_queue v) as Hnq by by eapply wf_fresh.
  set (s3 := set_map_entries _ _). assert (entering p e x v vm s3) as H3.
  { assert (as_if (Some (p, vmem v)) s3 = set_map_entries (<[e := x]> (map_entries s)) (set_procs (<[p := set_map_held true v]> (procs s)) s)) as Has.
    { unfold as_if, s3. simpl. by rewrite alter_insert_eq. }
    exists (<[e := p]> H), (set_vmem vm (set_map_held true v)). rewrite Has. split_and!; [apply lookup_insert_eq|done| |apply lookup_insert_eq..].
    by apply (wf_loose H (set_procs (<[p := set_map_held true v]> (procs s)) s)); [apply wf_map_held|..]. }
  clearbody s3. rewrite wlp_bind. eapply wlp_mono; [by apply (keeps_pfn_acquire _ (entering_pages p e x v vm))|]. intros [] s4 H4.
  rewrite wlp_bind. eapply wlp_mono; [by apply entering_map_pages|]. intros [] s5 H5.
  rewrite wlp_bind. eapply wlp_mono; [by apply (keeps_pfn_release _ (entering_pages p e x v vm))|]. intros [] s6 H6.
  assert (∀ Q, wlp (vad_tree_insert p e;; map_release p) (λ _, Q) s6 → wlp (vad_tree_insert p e;; map_release p;; mret a) (λ _, Q) s6) as Hseq.
  { intros Q. unfold wlp, mbind, kern_bind. destruct (vad_tree_insert p e s6) as [[[] s7]| |]; [|done..]. by destruct (map_release p s7) as [[[] s8]| |]. }
  apply Hseq. eapply enter_tree_ok; [exact H6|done|by split|unfold range; simpl; f_equal; lia|done].
Qed.
