(* ===== verification/VmMapTheorems.v ===== *)
(** Address spaces (kernel/vm/map.c): what deallocation leaves, and the results: in every
    reachable state the mappings of a process are disjoint, are found by address, and are
    exactly what its arena has handed out; and how deallocation fails. *)
From S2P Require Import Prelude Vmem VmemSpec VmemProofs VmemAlloc VmemFree VmemTheorems.
From S2P Require Import PteAmd64 Pte Resident Tables PageAlloc BuddyProofs Walk PageTree WalkTheorems Wsl Aspace VmMap VmMapProofs Fault FaultMaps.
Import Resident Tables PageAlloc Walk Wsl Aspace VmMap Fault.
Local Open Scope Z_scope.

Lemma wlp_seq3 {S A} (m1 m2 m3 : kern S ()) (k : kern S A) Q s :
  wlp (m1;; m2;; m3) (λ _ s', wlp k Q s') s → wlp (m1;; m2;; m3;; k) Q s.
Proof.
  unfold wlp, mbind, kern_bind. destruct (m1 s) as [[[] s1]| |]; [|done..].
  destruct (m2 s1) as [[[] s2]| |]; [|done..]. by destruct (m3 s2) as [[[] s3]| |].
Qed.

Section dealloc.
Context `{F : PteFormat} `{E : VmEnv} {EO : VmEnvOk E}.

Definition held (M : gmap Z vm_map_entry) (p : Z) (l : list Z) (s : ast) : Prop := ∃ H, holds M p l H s.

Lemma dealloc_whole_ok M p l1 e l2 x s : held M p (l1 ++ e :: l2) s → map_entries s !! e = Some x →
  wlp (dealloc_whole p e x) (λ _ s', held M p (l1 ++ l2) s') s.
Proof using EO.
  intros (H & Hh) Hx. unfold dealloc_whole. apply wlp_seq3. eapply wlp_mono; [by eapply unlink_ok|]. intros [] s1 [Hl [o Ho]].
  rewrite wlp_bind. eapply wlp_mono; [by apply unmap_limbo|]. intros [] s2 Hl2. rewrite wlp_bind, Ho. unfold release_object.
  rewrite wlp_bind, wlp_object_at. intros y Hy. destruct (okind y); [|done]. unfold ref_add. rewrite wlp_bind, wlp_get, wlp_bind, wlp_deref.
  intros n Hn. rewrite wlp_modify. unfold map_entry_free. rewrite wlp_modify.
  destruct Hl2 as (H2 & (Hwf & (v & Hv & Hhe & Hvl) & Hm) & He & Hho & Hx2). exists (delete e H2). split; [|split].
  - apply (wf_dropped H2 e o x y n s2); try done. intros Ht. apply He. rewrite <-Hvl. by eapply home_tree.
  - by exists v.
  - intros f Hf. simpl. rewrite lookup_delete_ne by (by intros ->). by apply Hm.
Qed.
(** A mapping that only overlaps the range ends the kernel. *)
Lemma realloc_never p sz (Q : Z → ast → Prop) s : wlp (realloc_range p sz) Q s.
Proof.
  unfold realloc_range, in_vmem. rewrite wlp_bind, wlp_bind, wlp_proc_at. intros v Hv. rewrite wlp_bind. unfold wlp, zoom.
  assert (∃ why, Vmem.vmem_xalloc Vmem.no_alloc Vmem.no_free sz 0 0 0 0 (2 ^ 64 - 1) 0 (vmem v) = Fatal why) as [why ->]; [|done].
  unfold Vmem.vmem_xalloc, mbind, kern_bind, kassert. simpl. eauto.
Qed.
Lemma wlp_true {S A} (m : kern S A) s : wlp m (λ _ _, True) s.
Proof. unfold wlp. by destruct (m s) as [[? ?]| |]. Qed.

(** Whether a mapping is clear of the range from [first] to [stop]. *)
Definition clear (first stop : Z) (x : vm_map_entry) : bool := (end_ x <=? first) || (stop <=? start x).
Definition kept (M : gmap Z vm_map_entry) (first stop e : Z) : bool := from_option (clear first stop) true (M !! e).

Lemma dealloc_entry_ok M p first stop l1 e l2 s : held M p (l1 ++ e :: l2) s →
  wlp (dealloc_entry p first stop e) (λ _ s', held M p (l1 ++ (if kept M first stop e then [e] else []) ++ l2) s') s.
Proof using EO.
  intros Hh. pose proof Hh as (H & Hwf & (v & Hv & _ & Hl) & Hm). destruct (wf_proc _ _ Hwf p v Hv) as (X & Hpw).
  assert (e ∈ l1 ++ e :: l2) as Hin by (rewrite elem_of_app, elem_of_cons; auto). unfold dealloc_entry, kept, clear. rewrite <-(Hm e Hin).
  unfold map_entry_at. rewrite wlp_bind, wlp_bind, wlp_get, wlp_deref. intros x Hx. rewrite Hx. simpl.
  assert (start x < end_ x) as Hlt by (eapply vad_nonempty; [done|by rewrite Hl|done]).
  assert (((start x <? first) && (end_ x <=? first)) || (stop <=? start x) = (end_ x <=? first) || (stop <=? start x)) as -> by lia.
  destruct ((end_ x <=? first) || (stop <=? start x)) eqn:E1; [by rewrite wlp_ret|].
  destruct ((first <=? start x) && (end_ x <=? stop)) eqn:E2; [by apply dealloc_whole_ok|].
  destruct ((start x <? first) && (first <? end_ x) && (end_ x <=? stop)) eqn:E3; [|destruct ((first <=? start x) && (start x <? stop) && (stop <? end_ x)) eqn:E4].
  1,2: do 4 (rewrite wlp_bind; eapply wlp_mono; [apply wlp_true|intros ? ? _]); rewrite wlp_bind; apply realloc_never.
  destruct ((start x <? first) && (stop <? end_ x)) eqn:E5; [|lia].
  repeat (rewrite wlp_bind; eapply wlp_mono; [apply wlp_true|intros ? ? _]). by rewrite wlp_fatal.
Qed.
Lemma dealloc_entries_ok M p first stop l l2 : ∀ l1 s, held M p (l1 ++ l ++ l2) s →
  wlp (dealloc_entries l p first stop) (λ _ s', held M p (l1 ++ filter (λ e, kept M first stop e = true) l ++ l2) s') s.
Proof using EO.
  induction l as [|e l IH]; intros l1 s Hh; simpl; [by rewrite wlp_ret|].
  rewrite wlp_bind. eapply wlp_mono; [by apply (dealloc_entry_ok M p first stop l1 e (l ++ l2))|]. intros [] s1.
  destruct (kept M first stop e) eqn:Ek; simpl.
  - intros Hh1. rewrite filter_cons_True by done. change (l1 ++ e :: l ++ l2) with (l1 ++ [e] ++ l ++ l2) in Hh1. rewrite app_assoc in Hh1.
    eapply wlp_mono; [by apply IH|]. intros ? s2. by rewrite <-app_assoc.
  - intros Hh1. rewrite filter_cons_False by by rewrite Ek. by apply IH.
Qed.
Lemma deallocate_ok H p v first sz s : wf H s → procs s !! p = Some v →
  wlp (vm_ps_deallocate p first sz) (λ _ s', ∃ H' v', wf H' s' ∧ procs s' !! p = Some v' ∧ map_held v' = false ∧
    vad_queue v' = filter (λ e, kept (map_entries s) first (u64 (first + sz)) e = true) (vad_queue v) ∧
    ∀ e, e ∈ vad_queue v' → map_entries s' !! e = map_entries s !! e) s.
Proof using EO.
  intros Hwf Hv. unfold vm_ps_deallocate, map_acquire. rewrite wlp_bind, wlp_bind, wlp_proc_at. intros v0 Hv0. assert (v0 = v) as -> by congruence.
  destruct (map_held v) eqn:Eh; [done|]. unfold proc_upd. rewrite wlp_bind, wlp_proc_at. intros v0 Hv1. assert (v0 = v) as -> by congruence.
  rewrite wlp_modify, wlp_bind, wlp_proc_at. simpl. intros v0 Hv2. rewrite lookup_insert_eq in Hv2. injection Hv2 as <-. simpl. rewrite wlp_bind.
  eapply wlp_mono; [apply (dealloc_entries_ok (map_entries s) p first (u64 (first + sz)) (vad_queue v) [] [])|].
  { rewrite app_nil_r. exists H. split; [by apply wf_map_held|]. split; [eexists; simpl; by rewrite lookup_insert_eq|done]. }
  rewrite app_nil_r. intros [] s1 (H1 & Hwf1 & (v1 & Hv1' & Hh1 & Hl1) & Hm1). simpl in Hl1. unfold map_release. rewrite wlp_bind, wlp_proc_at. intros v2 Hv2.
  assert (v2 = v1) as -> by congruence. rewrite wlp_bind, wlp_kassert. intros _. unfold proc_upd. rewrite wlp_bind, wlp_proc_at. intros v2 Hv3.
  assert (v2 = v1) as -> by congruence. rewrite wlp_modify. exists H1, (set_map_held false v1). simpl. rewrite lookup_insert_eq.
  split_and!; try done.
  - by apply wf_map_held.
  - intros e He. apply Hm1. simpl. by rewrite <-Hl1.
Qed.

(** ** Reachable states *)

Inductive maps_reach : ast → Prop :=
  | reach_start s : procs s = ∅ → map_entries s = ∅ →
      (∀ o y, vm_objects s !! o = Some y → map_entry_list y = [] ∧ ∃ n, refs s !! backing y = Some n ∧ 0 ≤ n) →
      (∀ o o' y y', vm_objects s !! o = Some y → vm_objects s !! o' = Some y' → backing y = backing y' → o = o') → maps_reach s
  | reach_process s p v root s' : maps_reach s → procs s !! p = None → pool_ok (vmem v) → 2 ≤ Vmem.nfreesegs (vmem v) →
      vm_ps_init p root (set_procs (<[p := v]> (procs s)) s) = Ok ((), s') → maps_reach s'
  | reach_map s p v obj vaddr sz off initial max inherit cow exact a s' : maps_reach s → procs s !! p = Some v →
      map_request v vaddr sz off exact → (∀ o, obj = Some o → is_Some (vm_objects s !! o)) →
      vm_ps_map_object_view p obj vaddr sz off initial max inherit cow exact s = Ok (a, s') → maps_reach s'
  | reach_deallocate s p first sz s' : maps_reach s → is_Some (procs s !! p) →
      vm_ps_deallocate p first sz s = Ok ((), s') → maps_reach s'
  | reach_physical s p v vaddr sz phys initial max exact a s' : maps_reach s → procs s !! p = Some v →
      map_request v vaddr sz phys exact → vm_ps_map_physical_view p vaddr sz phys initial max exact s = Ok (a, s') → maps_reach s'
  | reach_fault s fuel curproc vaddr write execute user recoverable r s' : maps_reach s →
      vmp_fault fuel curproc vaddr write execute user recoverable s = Ok (r, s') → maps_reach s'.

Lemma wf_start s : procs s = ∅ → map_entries s = ∅ →
  (∀ o y, vm_objects s !! o = Some y → map_entry_list y = [] ∧ ∃ n, refs s !! backing y = Some n ∧ 0 ≤ n) →
  (∀ o o' y y', vm_objects s !! o = Some y → vm_objects s !! o' = Some y' → backing y = backing y' → o = o') → wf ∅ s.
Proof.
  intros Hp He Hob Hb. split; rewrite ?He; try done.
  - intros p v Hv. by rewrite Hp, lookup_empty in Hv.
  - intros e. rewrite !lookup_empty. split; by intros [? ?].
  - intros o y Hy. destruct (Hob o y Hy) as [-> _]. split; [constructor|]. intros e. split; [by intros ?%not_elem_of_nil|].
    intros [(p & v & Hv & _) _]. by rewrite Hp, lookup_empty in Hv.
  - intros o y Hy. destruct (Hob o y Hy) as [_ (n & Hn & Hle)]. exists n. split; [done|]. unfold views. by rewrite map_filter_empty, map_size_empty.
Qed.
Lemma wf_process H s p v root : wf H s → procs s !! p = None → pool_ok (vmem v) → 2 ≤ Vmem.nfreesegs (vmem v) →
  wp (vm_ps_init p root) (λ _ s', wf H s') (set_procs (<[p := v]> (procs s)) s).
Proof.
  intros Hwf Hp Hpool Hn. unfold vm_ps_init. rewrite wp_bind, wp_proc_at. simpl. exists v. rewrite lookup_insert_eq. split; [done|]. rewrite wp_bind.
  eapply in_vmem_run; [simpl; by rewrite lookup_insert_eq|].
  eapply (wp_mono _ (λ _ vm, arena_inv TOP vm ∧ live (segments vm) = [])).
  { assert (∀ b sz, 0 ≤ b → 0 < sz → b + sz ≤ TOP → wp (Vmem.vmem_init b sz PGSIZE Vmem.kVMemBootstrap false) (λ _ vm, arena_inv TOP vm ∧ live (segments vm) = []) (vmem v)) as Hgo.
    { intros b sz Hb Hsz Hle. eapply wp_mono; [apply (vmem_init_ok TOP b sz); try done; unfold TOP, KVM_DYNAMIC_BASE, KVM_DYNAMIC_SIZE; lia|].
      intros _ vm (Hok & Hu & Hseg). unfold arena_inv, used_ok. rewrite Hseg. split_and!; [by eexists|by rewrite Hu|set_solver|done]. }
    destruct (p =? kernel_process); apply Hgo; unfold TOP, KVM_DYNAMIC_BASE, KVM_DYNAMIC_SIZE, LOWER_HALF_SIZE, LOWER_HALF; lia. }
  intros _ vm [Har Hlv]. rewrite wp_proc_upd. simpl. rewrite insert_insert_eq. eexists. rewrite lookup_insert_eq. split; [done|]. rewrite insert_insert_eq.
  destruct Hwf as [Hpr Hh Hl Hr Hb]. split; simpl; try done.
  - intros q w Hw. apply lookup_insert_Some in Hw as [[<- <-]|[_ Hw]].
    + exists []. split; simpl; try done; [by constructor|by rewrite Hlv|by intros e ?%not_elem_of_nil].
    + destruct (Hpr q w Hw) as (X & [? ? ? ? ?]). exists X. by split.
  - intros o y Hy. destruct (Hl o y Hy) as [Hnd Hin]. split; [done|]. intros e. rewrite Hin. split; intros [(q & w & Hw & He) Hs]; (split; [|done]); simpl in *.
    + exists q, w. simpl. rewrite lookup_insert_ne by congruence. done.
    + apply lookup_insert_Some in Hw as [[<- <-]|[_ Hw]]; [by apply not_elem_of_nil in He|by exists q, w].
Qed.
Lemma reach_wf s : maps_reach s → ∃ H, wf H s.
Proof using EO.
  induction 1 as [s Hp He Hob Hb|s p v root s' _ [H IH] Hp Hpool Hn Hrun|s p v obj vaddr sz off initial max inherit cow exact a s' _ [H IH] Hv Hr Hob Hrun
    |s p first sz s' _ [H IH] [v Hv] Hrun
    |s p v vaddr sz phys initial max exact a s' _ [H IH] Hv Hr Hrun|s fuel cp vaddr w x u rec r s' _ IH Hrun].
  - exists ∅. by apply wf_start.
  - exists H. exact (wp_run _ _ _ _ _ (wf_process H s p v root IH Hp Hpool Hn) Hrun).
  - exact (proj1 (wlp_run _ _ _) (map_object_view_partial H s p v obj vaddr sz off initial max inherit cow exact IH Hv Hr Hob) a s' Hrun).
  - destruct (proj1 (wlp_run _ _ _) (deallocate_ok H p v first sz s IH Hv) () s' Hrun) as (H' & v' & ? & _). eauto.
  - exact (proj1 (wlp_run _ _ _) (physical_view_partial H s p v vaddr sz phys initial max exact IH Hv Hr) a s' Hrun).
  - exact (proj1 (wlp_run _ _ _) (sane_fault fuel cp vaddr w x u rec s IH) r s' Hrun).
Qed.

Lemma vad_find_total H s p v X a : wf H s → procs s !! p = Some v → proc_wf H s p v X →
  wp (vmp_ps_vad_find p a) (λ r s', s' = s ∧ match r with
    | Some e => ∃ x, e ∈ vad_queue v ∧ map_entries s !! e = Some x ∧ covers x a
    | None => ∀ x, x ∈ X → ¬ covers x a end) s.
Proof.
  intros Hwf Hv [HX Ho _ _ _]. unfold vmp_ps_vad_find. rewrite wp_bind, wp_proc_at. exists v. split; [done|]. by eapply vad_find_ok.
Qed.

(** C11. In every state that creating processes, mapping objects, anonymous and physical
    memory, unmapping and page faults ([vmp_fault], all of its branches) lead to, address
    spaces are well-formed: the mappings of a process are disjoint, they are exactly
    the ranges its VMem arena has handed out, and looking an address up finds the one that
    covers it, if any; every object lists exactly the mappings of it, and what is behind the
    object is referenced at least as often.  [VmEnvOk] is what the map lock is for: while a
    thread waits, others keep this and leave the mappings of the processes it has locked. *)
Theorem aspace_wellformed s : maps_reach s →
  (∀ p v, procs s !! p = Some v → ∃ X, entries_of s (vad_queue v) X ∧
    (∀ i j x y, X !! i = Some x → X !! j = Some y → (i < j)%nat → start x < end_ x ∧ end_ x ≤ start y) ∧
    live (segments (vmem v)) ≡ₚ map range X ∧
    ∀ a, wp (vmp_ps_vad_find p a) (λ r s', s' = s ∧ match r with
      | Some e => ∃ x, e ∈ vad_queue v ∧ map_entries s !! e = Some x ∧ start x ≤ a < end_ x
      | None => ∀ x, x ∈ X → ¬ start x ≤ a < end_ x end) s) ∧
  (∀ o y, vm_objects s !! o = Some y → NoDup (map_entry_list y) ∧
    (∀ e, e ∈ map_entry_list y ↔ in_tree s e ∧ ∃ x, map_entries s !! e = Some x ∧ object x = Some o) ∧
    ∃ n, refs s !! backing y = Some n ∧ Z.of_nat (length (map_entry_list y)) ≤ n).
Proof using EO.
  intros [H Hwf]%reach_wf. split.
  - intros p v Hv. destruct (wf_proc _ _ Hwf p v Hv) as (X & Hpw). exists X. split; [apply Hpw|]. split; [|split; [apply Hpw|]].
    + intros i j x y Hi Hj Hij. pose proof (pw_ordered _ _ _ _ _ Hpw) as Ho. rewrite <-(take_drop_middle X i x Hi) in Ho.
      apply ordered_app in Ho as [_ (_ & Hlt & Ho)]. split; [done|]. apply (ordered_elem _ _ y Ho).
      apply (list_elem_of_lookup_2 _ (j - S i)). rewrite lookup_drop. by replace (S i + (j - S i))%nat with j by lia.
    + intros a. exact (vad_find_total H s p v X a Hwf Hv Hpw).
  - intros o y Hy. destruct (wf_list _ _ Hwf o y Hy) as [Hnd Hin]. split; [done|]. split.
    + intros e. rewrite Hin. unfold views. split; intros [Ht Hx]; (split; [done|]).
      * destruct Hx as [x Hx]. apply map_lookup_filter_Some in Hx as [? ?]. eauto.
      * destruct Hx as (x & ? & ?). exists x. by apply map_lookup_filter_Some.
    + destruct (wf_refs _ _ Hwf o y Hy) as (n & Hn & Hle). exists n. split; [done|]. etrans; [|exact Hle]. apply Nat2Z.inj_le.
      rewrite <-(size_list_to_set (C := gset Z) _ Hnd), <-(size_dom (D := gset Z)). apply subseteq_size. intros e He.
      apply elem_of_list_to_set, Hin in He as [_ He]. by apply elem_of_dom.
Qed.
End dealloc.

(** ** Mapping *)

Lemma find_is H s p v X a r : wf H s → procs s !! p = Some v → proc_wf H s p v X →
  match r with
  | Some e => ∃ x, e ∈ vad_queue v ∧ map_entries s !! e = Some x ∧ covers x a
  | None => ∀ x, x ∈ X → ¬ covers x a
  end → vmp_ps_vad_find p a s = Ok (r, s).
Proof.
  intros Hwf Hv Hpw Hr. destruct (proj1 (wp_ok _ _ _) (vad_find_total H s p v X a Hwf Hv Hpw)) as (r' & s' & -> & -> & Hr'). do 2 f_equal.
  assert (∀ e x, e ∈ vad_queue v → map_entries s !! e = Some x → x ∈ X) as Hin by (intros e x; apply entry_in; apply Hpw).
  destruct r as [e|], r' as [e'|]; try done.
  - destruct Hr as (x & He & Hx & Hc), Hr' as (x' & He' & Hx' & Hc'). f_equal. destruct (decide (e' = e)) as [->|Hne]; [done|exfalso].
    apply list_elem_of_split in He as (l1 & l2 & Hl). destruct Hpw as [HX Ho _ _ _]. unfold entries_of in HX. rewrite Hl in HX, He'.
    apply Forall2_app_inv_l in HX as (X1 & X2 & HX1 & HX2 & ->). inversion HX2 as [|? x0 ? X2' Hx0 HX2']; subst.
    assert (x0 = x) as -> by congruence. eapply (ordered_unique 0 X1 x X2' x' a); [done| |done|done].
    eapply entry_in; [exact (Forall2_app HX1 HX2')| |done]. rewrite elem_of_app, elem_of_cons in He'. rewrite elem_of_app. naive_solver.
  - destruct Hr as (x & He & Hx & Hc). by destruct (Hr' x); [eapply Hin|].
  - destruct Hr' as (x & He & Hx & Hc). by destruct (Hr x); [eapply Hin|].
Qed.

(** C12. [vm_ps_map_object_view], asked for a whole number of pages, with some free range of
    the arena large enough (and, where the address is given, at that address), does not panic.
    It returns the address it stores, which is the one asked for when that is given; looking
    up any address of the new range finds the new mapping, with the protection, offset and
    object asked for; looking up any other address finds what it found before, in this and
    every other process; the map lock is free again, the object lists the new mapping, and the
    address spaces stay well-formed. *)
Theorem vm_ps_map_object_view_correct H s p v obj vaddr sz off initial max inherit cow exact :
  wf H s → procs s !! p = Some v → map_held v = false → map_request v vaddr sz off exact → fits_somewhere (vmem v) sz vaddr exact →
  (∀ o, obj = Some o → is_Some (vm_objects s !! o)) →
  wp (vm_ps_map_object_view p obj vaddr sz off initial max inherit cow exact) (λ a s', ∃ e,
    (exact = true → a = vaddr) ∧
    map_entries s' !! e = Some (MapEntry (Z.land initial kVMAll) (Z.land max kVMAll) inherit cow (i36 (off / PGSIZE)) obj a (a + sz)) ∧
    (∀ b, a ≤ b < a + sz → vmp_ps_vad_find p b s = Ok (None, s) ∧ vmp_ps_vad_find p b s' = Ok (Some e, s')) ∧
    (∀ q w b r, procs s !! q = Some w → q ≠ p ∨ ¬ a ≤ b < a + sz → vmp_ps_vad_find q b s = Ok (r, s) → vmp_ps_vad_find q b s' = Ok (r, s')) ∧
    (∃ v', procs s' !! p = Some v' ∧ map_held v' = false) ∧
    (∀ o, obj = Some o → ∃ y', vm_objects s' !! o = Some y' ∧ e ∈ map_entry_list y') ∧
    ∃ H', wf H' s') s.
Proof.
  intros Hwf Hv Hh Hr Hf Hob. eapply wp_mono; [by eapply map_object_view_ok|]. intros a s' (e & Hm & Hex & Hlock & _). exists e.
  set (x := new_entry obj sz off initial max inherit cow a) in *. pose proof (wf_mapped H p e x s s' Hwf ltac:(by eexists) Hm) as Hwf'.
  assert (map_entries s' !! e = Some x) as Hx by (rewrite (mp_entries _ _ _ _ _ Hm); apply lookup_insert_eq).
  destruct (wf_proc _ _ Hwf p v Hv) as (X & Hpw). destruct (mp_tree _ _ _ _ _ Hm v X Hv (pw_entries _ _ _ _ _ Hpw) (pw_ordered _ _ _ _ _ Hpw) (pw_live _ _ _ _ _ Hpw))
    as (v' & l1 & l2 & X1 & X2 & Hv' & Hl & Hl' & -> & HX1 & HX2 & Ho' & _ & _).
  destruct (wf_proc _ _ Hwf' p v' Hv') as (X' & Hpw').
  assert (X' = X1 ++ x :: X2) as ->.
  { eapply entries_unique; [apply Hpw'|]. rewrite Hl'. assert (map_entries s ⊆ map_entries s') as Hsub by (rewrite (mp_entries _ _ _ _ _ Hm); by apply insert_subseteq, Hm).
    apply Forall2_app; [by eapply entries_weaken|]. constructor; [done|by eapply entries_weaken]. }
  split_and!; [done|done| | |done| |by eexists].
  - intros b Hb. split.
    + eapply find_is; [done..|]. intros y Hy. by eapply (ordered_unique 0 X1 x X2 y b).
    + eapply find_is; [done..|]. exists x. split; [|done]. rewrite Hl', elem_of_app, elem_of_cons. auto.
  - intros q w b r Hw Hqb Hrun. destruct (wf_proc _ _ Hwf q w Hw) as (Y & Hqw).
    destruct (wp_run _ _ _ _ _ (vad_find_total H s q w Y b Hwf Hw Hqw) Hrun) as [_ Hr'].
    destruct (decide (q = p)) as [->|Hq].
    + assert (w = v) as -> by congruence. assert (Y = X1 ++ X2) as -> by (eapply entries_unique; [apply Hqw|apply Hpw]). destruct Hqb as [?|Hb]; [done|].
      eapply find_is; [done..|]. destruct r as [f|].
      * destruct Hr' as (y & Hf' & Hy & Hc). exists y. split_and!; [|by rewrite (mp_entries _ _ _ _ _ Hm), lookup_insert_ne by (intros ->; by rewrite (mp_fresh _ _ _ _ _ Hm) in Hy)|done].
        rewrite Hl, elem_of_app in Hf'. rewrite Hl', elem_of_app, elem_of_cons. tauto.
      * intros y [Hy|[->|Hy]%elem_of_cons]%elem_of_app; [|done|]; apply Hr', elem_of_app; auto.
    + assert (procs s' !! q = Some w) as Hw' by by rewrite (mp_others _ _ _ _ _ Hm). destruct (wf_proc _ _ Hwf' q w Hw') as (Y' & Hqw').
      assert (Y' = Y) as ->.
      { eapply entries_unique; [apply Hqw'|]. eapply entries_weaken; [|apply Hqw]. rewrite (mp_entries _ _ _ _ _ Hm). by apply insert_subseteq, Hm. }
      eapply find_is; [done..|]. destruct r as [f|]; [|done]. destruct Hr' as (y & Hf' & Hy & Hc). exists y. split_and!; [done| |done].
      rewrite (mp_entries _ _ _ _ _ Hm), lookup_insert_ne; [done|]. intros ->. by rewrite (mp_fresh _ _ _ _ _ Hm) in Hy.
  - intros o ->. pose proof (mp_object _ _ _ _ _ Hm) as (y & n & Hy & Hys & _). rewrite Hys. eexists. rewrite lookup_insert_eq. split; [done|]. simpl. by apply elem_of_cons; left.
Qed.

(** ** Where unmapping fails *)

Section failures.
Context `{F : PteFormat} `{E : VmEnv} {EO : VmEnvOk E}.

Lemma dealloc_entries_app l1 l2 p first stop s Q : wlp (dealloc_entries l1 p first stop) (λ _ s', wlp (dealloc_entries l2 p first stop) Q s') s →
  wlp (dealloc_entries (l1 ++ l2) p first stop) Q s.
Proof.
  revert s. induction l1 as [|e l1 IH]; intros s Hw; simpl in *; [done|]. rewrite wlp_bind in *. eapply wlp_mono; [exact Hw|]. intros [] s'. apply IH.
Qed.
(** C37. Unmapping anonymous memory never succeeds: [vm_ps_deallocate] of a range that has a
    whole anonymous mapping in it does not return, since it takes the lock of the mapping's
    object, and there is none. *)
Theorem vm_ps_deallocate_anonymous H p v first sz e x s : wf H s → procs s !! p = Some v → e ∈ vad_queue v →
  map_entries s !! e = Some x → object x = None → first ≤ start x → end_ x ≤ u64 (first + sz) →
  ∀ s', vm_ps_deallocate p first sz s ≠ Ok ((), s').
Proof using EO.
  intros Hwf Hv (l1 & l2 & Hl)%list_elem_of_split Hx Ho Hf Hs s' Hrun. assert (wlp (vm_ps_deallocate p first sz) (λ _ _, False) s) as Hw; [|exact (proj1 (wlp_run _ _ _) Hw () s' Hrun)].
  unfold vm_ps_deallocate, map_acquire. rewrite wlp_bind, wlp_bind, wlp_proc_at. intros v0 Hv0. assert (v0 = v) as -> by congruence.
  destruct (map_held v) eqn:Eh; [done|]. unfold proc_upd. rewrite wlp_bind, wlp_proc_at. intros v0 Hv1. assert (v0 = v) as -> by congruence.
  rewrite wlp_modify, wlp_bind, wlp_proc_at. simpl. intros v0 Hv2. rewrite lookup_insert_eq in Hv2. injection Hv2 as <-. simpl. rewrite wlp_bind, Hl.
  apply dealloc_entries_app. eapply wlp_mono; [apply (dealloc_entries_ok (map_entries s) p first (u64 (first + sz)) l1 (e :: l2) [])|].
  { exists H. split; [by apply wf_map_held|]. split; [eexists; simpl; by rewrite lookup_insert_eq|done]. }
  intros [] s1 (H1 & Hh1). simpl. rewrite wlp_bind. unfold dealloc_entry, map_entry_at. rewrite wlp_bind, wlp_bind, wlp_get, wlp_deref.
  pose proof Hh1 as (_ & _ & Hm1). intros x1 Hx1. rewrite (Hm1 e), Hx in Hx1 by (simpl; rewrite elem_of_app, elem_of_cons; auto). injection Hx1 as <-.
  destruct (wf_proc _ _ Hwf p v Hv) as (X & Hpw).
  assert (start x < end_ x) as Hlt by (eapply vad_nonempty; [done| |done]; rewrite Hl, elem_of_app, elem_of_cons; auto).
  assert (((start x <? first) && (end_ x <=? first)) || (u64 (first + sz) <=? start x) = false) as -> by lia.
  assert ((first <=? start x) && (end_ x <=? u64 (first + sz)) = true) as -> by lia.
  unfold dealloc_whole. apply wlp_seq3. eapply wlp_mono; [eapply unlink_ok; [exact Hh1|]|].
  - rewrite Hm1; [done|]. simpl. rewrite elem_of_app, elem_of_cons. auto.
  - intros [] s2 [_ [o Ho']]. congruence.
Qed.

(** *** Pages stay *)

(** The page of a root table: counts in range, and it belongs to a process. *)
Record root_page (x : vm_page) : Prop := RootPage {
  rp_use : use x = kPageUsePML4;
  rp_owner : owner x ≠ 0;
  rp_refcnt : 1 ≤ refcnt x < 30000;
  rp_noswap : 0 ≤ noswap_ptes x ≤ refcnt x;
  rp_nonzero : 0 ≤ nonzero_ptes x < 30000
}.
(** Looking for a table that is not there pins the root and lets it go again. *)
Lemma wire_missing a r x t : pfndb t !! r = Some x → root_page x → wa_create a = false → wa_obj a = None →
  vmp_pte_characterise (mem t (entry (r * PGSIZE) (wa_vaddr a) 4)) = kPTEKindZero →
  wp (vmp_wire_pte a (r * PGSIZE)) (λ w t', w = Missing 4 ∧ ∃ x', t' = set_pfndb (<[r := x']> (pfndb t)) t) t.
Proof.
  intros Hx [Hu Ho Hr Hns Hnz] Hc Hob Hz. unfold vmp_wire_pte. rewrite page_of, wp_bind. unfold vmp_pagetable_page_noswap_pte_created, check_page_consistency.
  rewrite wp_bind, wp_page_at. exists x. split; [done|]. rewrite (proj2 (Z.ltb_ge (refcnt x) _)) by lia. rewrite andb_false_r, wp_bind, wp_ret, wp_bind.
  unfold vmp_page_retain_locked. rewrite wp_bind, wp_page_at. exists x. split; [done|]. rewrite wp_bind, wp_page_set, wp_when.
  rewrite (proj2 (Z.eqb_neq _ 0)) by lia. rewrite wp_page_upd. eexists. split; [simpl; by rewrite lookup_insert_eq|]. simpl. rewrite insert_insert_eq.
  change (wire_walk 4 a (r * PGSIZE) [r]) with (wire_level (wire_walk 3 a) 4 a (r * PGSIZE) [r]). unfold wire_level. rewrite wp_bind, wp_deref. exists r. split; [done|].
  unfold word_at. rewrite wp_bind, wp_gets. simpl. rewrite Hz, Hc. simpl. assert (is_proto a = false) as -> by (unfold is_proto; by rewrite Hob).
  rewrite wp_bind. unfold vmp_pte_wire_state_release. simpl. unfold u16. rewrite wp_bind, wp_bind, wp_page_at. eexists. split; [simpl; by rewrite lookup_insert_eq|].
  rewrite wp_kassert. simpl. split; [by apply negb_true_iff, Z.eqb_neq|]. unfold pte_deleted, VMP_TABLE_LEVELS. simpl. unfold check_page_consistency.
  rewrite wp_bind, wp_bind, wp_page_at. eexists. split; [simpl; by rewrite lookup_insert_eq|]. simpl. rewrite !i16_small by lia. rewrite Z.mod_small by lia.
  rewrite (proj2 (Z.ltb_ge (refcnt x + 1) _)) by lia. rewrite andb_false_r, wp_bind, wp_ret, wp_bind, wp_page_upd. eexists. split; [simpl; by rewrite lookup_insert_eq|].
  unfold page_is_root_table. simpl. rewrite Hu, bool_decide_true by by left. simpl. rewrite !andb_false_r. rewrite wp_bind, wp_page_upd.
  eexists. split; [simpl; by rewrite lookup_insert_eq|]. rewrite wp_bind, wp_when, wp_bind, wp_page_upd. eexists. split; [simpl; by rewrite lookup_insert_eq|].
  unfold vmp_page_release_locked. rewrite wp_bind, wp_page_at. eexists. split; [simpl; by rewrite lookup_insert_eq|]. simpl. rewrite wp_bind, wp_kassert.
  split; [lia|]. rewrite wp_bind, wp_page_set, wp_when, (proj2 (Z.eqb_neq _ 1)) by lia. rewrite !wp_ret. simpl. rewrite !insert_insert_eq. split; [done|]. eauto.
Qed.

(** Nothing of the kernel's is mapped from [first] to [stop]. *)
Record kernel_unmapped (first stop : Z) (s : ast) : Prop := KernelUnmapped {
  ku_root : ∃ vk r x, procs s !! kernel_process = Some vk ∧ md_table vk = r * PGSIZE ∧ pfndb (pg s) !! r = Some x ∧ root_page x ∧
    vmp_pte_characterise (mem (pg s) (entry (r * PGSIZE) first 4)) = kPTEKindZero;
  ku_range : 0 ≤ first < stop ∧ stop < 2 ^ 64 ∧ stop ≤ ROUNDUP (first + 1) (PGSIZE * 512 * 512 * 512)
}.
(** No page of the process is touched. *)
Record pages_stay (p : Z) (s s' : ast) : Prop := PagesStay {
  ps_mem : mem (pg s') = mem (pg s);
  ps_proc : ∀ v, procs s !! p = Some v → ∃ v', procs s' !! p = Some v' ∧ maps_of v' = maps_of v ∧ md_table v' = md_table v ∧ ws_held v' = ws_held v;
  ps_objects : map_entries s' = map_entries s ∧ vm_objects s' = vm_objects s ∧ refs s' = refs s ∧ pfn_held s' = pfn_held s
}.
Lemma waits_missing fuel a b level : wire_waits fuel a b (Missing level) = mret (NoTable level).
Proof. by destruct fuel. Qed.
Lemma unmap_loop_first fuel q p addr stop : addr < stop → unmap_loop (S fuel) q p addr stop None =
  (w ← wire q addr None false;
   match w with
   | WiredPte _ pte pages => unmap_pte p addr pte;; unmap_loop fuel q p (u64 (addr + PGSIZE)) stop (Some (pte, pages))
   | NoTable level =>
       align ← deref "Unexpected offset" (level_align level);
       let addr := ROUNDUP (u64 (addr + 1)) align in
       if stop <=? addr then mret None else unmap_loop fuel q p addr stop None
   end).
Proof. intros Hlt. cbn [unmap_loop]. by rewrite (proj2 (Z.ltb_lt _ _) Hlt). Qed.
Lemma unmap_nothing p v first stop s : procs s !! p = Some v → ws_held v = false → pfn_held s = false → kernel_unmapped first stop s →
  wp (vmp_unmap_range p first stop) (λ _ s', pages_stay p s s') s.
Proof.
  intros Hv Hws Hpfn [(vk & r & x & Hvk & Hroot & Hx & Hrp & Hz) ([Hf Hlt] & Hst & Hle)]. unfold vmp_unmap_range, ws_acquire.
  rewrite wp_bind, wp_bind, wp_proc_at. exists v. split; [done|]. rewrite Hws, wp_proc_upd. exists v. split; [done|].
  unfold vmp_acquire_pfn_lock. rewrite wp_bind, wp_bind, wp_get. simpl. rewrite Hpfn, wp_modify. rewrite wp_bind.
  assert (∃ fuel, Z.to_nat ((stop - first) / PGSIZE + 1) = S fuel) as [fuel ->].
  { exists (Z.to_nat ((stop - first) / PGSIZE)). rewrite Z.add_1_r, Z2Nat.inj_succ; [done|]. apply Z.div_pos; [lia|done]. }
  rewrite unmap_loop_first by done. unfold wire. rewrite wp_bind, wp_bind, wp_bind, wp_proc_at. cbn [procs set_pfn_held set_procs].
  assert (∃ vk', <[p := set_ws_held true v]> (procs s) !! kernel_process = Some vk' ∧ md_table vk' = r * PGSIZE) as (vk' & Hvk' & Hr').
  { destruct (decide (p = kernel_process)) as [->|Hne]; [rewrite lookup_insert_eq|rewrite lookup_insert_ne by done; by eexists].
    eexists. split; [done|]. simpl. congruence. }
  exists vk'. split; [done|]. rewrite wp_ret, wp_bind. unfold in_pg. rewrite wp_zoom, Hr'.
  eapply wp_mono; [eapply (wire_missing _ r x); [exact Hx|done..]|]. intros w t' (-> & x' & ->).
  rewrite waits_missing, wp_ret, wp_bind, wp_deref. eexists. split; [done|]. cbv zeta. rewrite (u64_small (first + 1)) by lia.
  rewrite (proj2 (Z.leb_le stop _) Hle). rewrite wp_ret, wp_bind, wp_ret. unfold vmp_release_pfn_lock. rewrite wp_bind, wp_modify. unfold ws_release.
  rewrite wp_bind, wp_proc_at. simpl. eexists. rewrite lookup_insert_eq. split; [done|]. rewrite wp_bind, wp_kassert. split; [done|].
  rewrite wp_proc_upd. simpl. eexists. rewrite lookup_insert_eq. split; [done|]. split; simpl; try done.
  intros v0 Hv0. assert (v0 = v) as -> by congruence. eexists. rewrite lookup_insert_eq. done.
Qed.

Lemma wp_and_wlp {S A} (m : kern S A) (Q R : A → S → Prop) s : wp m Q s → wlp m R s → wp m (λ a s', Q a s' ∧ R a s') s.
Proof. unfold wp, wlp. by destruct (m s) as [[? ?]| |]. Qed.

(** A file mapping of [p] that is to go. *)
Record file_view (p e o : Z) (v : vm_procstate) (x : vm_map_entry) (y : vm_object) (s : ast) : Prop := FileView {
  fv_proc : procs s !! p = Some v ∧ ws_held v = false ∧ pfn_held s = false;
  fv_arena : arena_inv TOP (vmem v) ∧ range x ∈ live (segments (vmem v)) ∧ end_ x - start x < 2 ^ 31;
  fv_tree : e ∈ vad_queue v;
  fv_object : object x = Some o ∧ vm_objects s !! o = Some y ∧ okind y = kFile ∧ e ∈ map_entry_list y ∧ is_Some (refs s !! backing y)
}.
Lemma dealloc_file p e o v x y s : file_view p e o v x y s → kernel_unmapped (start x) (end_ x) s →
  wp (dealloc_whole p e x) (λ _ s', mem (pg s') = mem (pg s) ∧ map_entries s' = delete e (map_entries s) ∧
    ∃ v', procs s' !! p = Some v' ∧ md_table v' = md_table v ∧ map_held v' = map_held v) s.
Proof.
  intros [(Hv & Hws & Hpfn) (Har & Hlv & Hsz) Hin (Ho & Hy & Hk & Hl & [n Hn])] Hku. unfold dealloc_whole, free_range.
  destruct (live_range _ _ _ _ Har Hlv) as (H1 & H2 & H3). assert (u64 (end_ x - start x) = end_ x - start x) as Hu by (apply u64_small; lia).
  rewrite wp_bind, wp_bind, Hu. eapply in_vmem_run; [done|]. eapply wp_mono; [by apply arena_give|]. intros r vm (-> & _ & _).
  rewrite wp_kassert. split; [apply Z.eqb_eq; rewrite i32_small by lia; apply u64_small; lia|].
  rewrite wp_bind. unfold vad_tree_remove. rewrite wp_bind, wp_proc_at. simpl. eexists. rewrite lookup_insert_eq. split; [done|]. rewrite wp_bind, wp_deref. simpl.
  destruct (q_remove_elem e (vad_queue v) Hin) as [l Hq]. exists l. split; [done|]. rewrite wp_proc_upd. simpl. eexists. rewrite lookup_insert_eq. split; [done|].
  rewrite insert_insert_eq, Ho. rewrite wp_bind. unfold object_map_list_remove. rewrite wp_bind, wp_deref. exists o. split; [done|]. rewrite wp_bind, wp_object_at.
  exists y. split; [done|]. rewrite wp_bind, wp_deref. destruct (q_remove_elem e (map_entry_list y) Hl) as [l' Hq']. exists l'. split; [done|].
  unfold object_set. rewrite wp_modify, wp_bind. set (v1 := set_vads l (set_vmem vm v)).
  match goal with |- wp _ _ ?s => set (s1 := s) end.
  assert (procs s1 !! p = Some v1) as Hv1 by (simpl; apply lookup_insert_eq).
  eapply wp_mono; [apply (unmap_nothing p v1 (start x) (end_ x) s1 Hv1 Hws Hpfn)|].
  { destruct Hku as [(vk & rr & z & Hvk & Hrt & Hz & Hrp & Hzero) Hrange]. split; [|done]. destruct (decide (p = kernel_process)) as [->|Hne].
    - exists v1, rr, z. split; [done|]. split; [|done]. simpl. congruence.
    - exists vk, rr, z. split; [|done]. simpl. by rewrite lookup_insert_ne. }
  intros [] s2 [Hmem Hproc (He2 & Hob2 & Hr2 & _)]. destruct (Hproc v1 Hv1) as (v2 & Hv2 & Hm2 & Hmd2 & _). injection Hm2 as _ _ Hh2.
  rewrite wp_bind. unfold release_object. rewrite wp_bind, wp_object_at, Hob2. simpl. eexists. rewrite lookup_insert_eq. split; [done|]. simpl. rewrite Hk.
  rewrite wp_ref_add, Hr2. exists n. split; [done|]. unfold map_entry_free. rewrite wp_modify. simpl. rewrite He2. split_and!; [done|done|]. by exists v2.
Qed.
Lemma dealloc_clear l p first stop s (Q : () → ast → Prop) :
  (∀ e, e ∈ l → ∃ x, map_entries s !! e = Some x ∧ start x < end_ x ∧ clear first stop x = true) → Q () s → wp (dealloc_entries l p first stop) Q s.
Proof.
  intros Hl HQ. induction l as [|e l IH]; simpl; [done|]. destruct (Hl e) as (x & Hx & Hlt & Hc); [by apply elem_of_cons; left|].
  rewrite wp_bind. unfold dealloc_entry. rewrite wp_bind, wp_map_entry_at. exists x. split; [done|]. unfold clear in Hc.
  assert (((start x <? first) && (end_ x <=? first)) || (stop <=? start x) = true) as -> by lia. rewrite wp_ret. apply IH.
  intros f Hf. apply Hl, elem_of_cons. by right.
Qed.
Lemma wp_dealloc_app l1 l2 p first stop s Q : wp (dealloc_entries l1 p first stop) (λ _ s', wp (dealloc_entries l2 p first stop) Q s') s →
  wp (dealloc_entries (l1 ++ l2) p first stop) Q s.
Proof.
  revert s. induction l1 as [|e l1 IH]; intros s Hw; simpl in *; [done|]. rewrite wp_bind in *. eapply wp_mono; [exact Hw|]. intros [] s'. apply IH.
Qed.

Lemma others_clear H s p v X l1 e l2 x : proc_wf H s p v X → vad_queue v = l1 ++ e :: l2 → map_entries s !! e = Some x →
  ∀ f, f ∈ l1 ++ l2 → ∃ z, map_entries s !! f = Some z ∧ start z < end_ z ∧ clear (start x) (end_ x) z = true.
Proof.
  intros [HX Ho _ _ _] Hl Hx f Hf. unfold entries_of in HX. rewrite Hl in HX. apply Forall2_app_inv_l in HX as (X1 & X2 & HX1 & HX2 & ->).
  inversion HX2 as [|? x0 ? X2' Hx0 HX2']; subst. assert (x0 = x) as -> by congruence.
  apply list_elem_of_lookup in Hf as (i & Hi). destruct (Forall2_lookup_l _ _ _ _ _ (Forall2_app HX1 HX2') Hi) as (z & Hz & Hfz).
  apply list_elem_of_lookup_2 in Hz. exists z. split; [done|].
  assert (start z < end_ z) as Hlt by (apply (ordered_elem 0 (X1 ++ X2')); [by eapply ordered_drop|done]). split; [done|].
  assert (start x < end_ x) as Hltx by (apply (ordered_elem 0 (X1 ++ x :: X2')); [done|rewrite elem_of_app, elem_of_cons; auto]).
  unfold clear. apply orb_true_iff. rewrite !Z.leb_le. destruct (decide (end_ z ≤ start x)) as [|H1]; [by left|]. destruct (decide (end_ x ≤ start z)) as [|H2]; [by right|].
  exfalso. apply (ordered_unique 0 X1 x X2' z (Z.max (start x) (start z)) Ho Hz); unfold covers; lia.
Qed.

(** C38. Unmapping a file in a process other than the kernel takes the mapping away and leaves
    the pages: [vm_ps_deallocate] of exactly the range of a file mapping returns, the addresses
    are in no mapping any more, and every address that had a page table entry in the process
    still has it, with the same contents.  [vmp_unmap_range] walks the tables of the kernel's
    process, which have nothing at such addresses. *)
Theorem vm_ps_deallocate_keeps_pages H p v e x o y s : wf H s → procs s !! p = Some v →
  map_held v = false → ws_held v = false → pfn_held s = false →
  e ∈ vad_queue v → map_entries s !! e = Some x → object x = Some o → vm_objects s !! o = Some y → okind y = kFile →
  end_ x - start x < 2 ^ 31 → kernel_unmapped (start x) (end_ x) s →
  wp (vm_ps_deallocate p (start x) (end_ x - start x)) (λ _ s', ∃ v', procs s' !! p = Some v' ∧
    (∀ a, start x ≤ a < end_ x → vmp_ps_vad_find p a s' = Ok (None, s')) ∧
    (∀ a pte, vmp_fetch_pte (md_table v) a (pg s) = Ok (Some pte, pg s) →
      vmp_fetch_pte (md_table v') a (pg s') = Ok (Some pte, pg s') ∧ mem (pg s') pte = mem (pg s) pte)) s.
Proof using EO.
  intros Hwf Hv Hh Hws Hpfn Hin Hx Ho Hy Hk Hsz Hku. destruct (wf_proc _ _ Hwf p v Hv) as (X & Hpw).
  pose proof (ku_range _ _ _ Hku) as ([H0 Hlt] & H64 & _). assert (u64 (start x + (end_ x - start x)) = end_ x) as Hend by (rewrite u64_small; lia).
  eapply wp_mono; [apply (wp_and_wlp _ (λ _ s', mem (pg s') = mem (pg s) ∧ ∃ v', procs s' !! p = Some v' ∧ md_table v' = md_table v)); [|by eapply deallocate_ok]|].
  - unfold vm_ps_deallocate. rewrite wp_bind, (wp_map_acquire p v) by done. rewrite wp_bind, wp_proc_at. simpl. eexists. rewrite lookup_insert_eq. split; [done|].
    rewrite wp_bind, Hend. simpl. destruct (list_elem_of_split _ _ Hin) as (l1 & l2 & Hl). pose proof (others_clear _ _ _ _ _ _ _ _ _ Hpw Hl Hx) as Hcl.
    rewrite Hl. apply wp_dealloc_app. apply dealloc_clear; [intros f Hf; apply Hcl, elem_of_app; by left|]. simpl. rewrite wp_bind.
    unfold dealloc_entry. rewrite wp_bind, wp_map_entry_at. exists x. split; [done|].
    rewrite (proj2 (Z.ltb_ge (start x) (start x))), (proj2 (Z.leb_gt (end_ x) (start x))), !Z.leb_refl by lia. simpl.
    eapply wp_mono; [eapply (dealloc_file p e o (set_map_held true v) x y)|].
    + split; simpl; [by rewrite lookup_insert_eq| |done|].
      * split_and!; [apply Hpw| |done]. rewrite (pw_live _ _ _ _ _ Hpw). apply list_elem_of_fmap. exists x. split; [done|]. by eapply entry_in; [apply Hpw|..].
      * split_and!; try done; [|by destruct (wf_refs _ _ Hwf o y Hy) as (n & -> & _)]. apply (wf_list _ _ Hwf o y Hy). split; [by exists p, v|].
        exists x. by apply map_lookup_filter_Some.
    + destruct Hku as [(vk & r & z & Hvk & ?) ?]. split; [|done]. simpl. destruct (decide (p = kernel_process)) as [->|Hne].
      * eexists _, r, z. rewrite lookup_insert_eq. split; [done|]. simpl. replace (md_table v) with (md_table vk) by congruence. done.
      * exists vk, r, z. by rewrite lookup_insert_ne.
    + intros [] s1 (Hm1 & He1 & v1 & Hv1 & Hmd1 & Hh1). apply dealloc_clear.
      * intros f Hf. rewrite He1. simpl. assert (f ≠ e) as Hfe by (intros ->; eapply tree_once; [exact Hpw|exact Hl|]; apply elem_of_app; by right).
        rewrite lookup_delete_ne by done. apply Hcl, elem_of_app. by right.
      * rewrite (wp_map_release p v1) by done. simpl. split; [done|]. eexists. rewrite lookup_insert_eq. done.
  - intros [] s1 ((Hm & v1 & Hv1 & Hmd) & H1 & v2 & Hwf1 & Hv2 & Hh2 & Hl2 & He2). assert (v2 = v1) as -> by congruence. exists v1. split; [done|]. split.
    + intros a Ha. destruct (wf_proc _ _ Hwf1 p v1 Hv1) as (Y & Hpw1). eapply find_is; [done..|]. intros z Hz Hc.
      destruct (proj1 (list_elem_of_lookup _ _) Hz) as (i & Hi). destruct (Forall2_lookup_r _ _ _ _ _ (pw_entries _ _ _ _ _ Hpw1) Hi) as (f & Hf & Hfz).
      apply list_elem_of_lookup_2 in Hf. rewrite (He2 f Hf) in Hfz. rewrite Hl2, Hend in Hf. apply list_elem_of_filter in Hf as [Hkept _].
      unfold kept in Hkept. rewrite Hfz in Hkept. unfold covers in Hc. unfold clear in Hkept. simpl in Hkept. lia.
    + intros a pte Hf. rewrite Hmd. unfold vmp_fetch_pte, VMP_TABLE_LEVELS in *. rewrite fetch_walk in Hf |- * by lia.
      assert (walk (mem (pg s)) 4 (md_table v) a = Some pte) as Hw by congruence. by rewrite Hm, Hw.
Qed.
End failures.

(** ** Two processes *)

(** Nothing happens while a thread waits. *)
Definition quiet : VmEnv := {|
  kernel_process := 1; pagefile_vnode := 99; sleep_on := λ _, mret (); read_in := λ _ _ _, mret (); sleep_for_pages := mret ()
|}.
Lemma calm_refl o H s : wf H (as_if o s) → calm o H s s.
Proof. intros Hwf. split; [by exists H|]. intros p v Hv _. by exists v. Qed.
#[local] Existing Instance quiet.
#[local] Instance quiet_ok : VmEnvOk quiet.
Proof. split; intros; intros o H s _ Hwf; simpl; rewrite wlp_ret; by apply calm_refl. Qed.

(** The kernel's process 1 and the process 2 have roots 256 and 257; the page 261 of a file is
    mapped at [0x10000] in process 2. *)
Definition root_table (p : Z) : vm_page := Page 0 0 false kPageUsePML4 false false 0 0 1 0 p 0.
Definition file_tables (a : Z) : Z :=
  if a =? entry (257 * 4096) 0x10000 4 then vmp_md_pte_create_table 258
  else if a =? entry (258 * 4096) 0x10000 3 then vmp_md_pte_create_table 259
  else if a =? entry (259 * 4096) 0x10000 2 then vmp_md_pte_create_table 260
  else if a =? entry (260 * 4096) 0x10000 1 then vmp_md_pte_create_hw 261 false false true true
  else 0.
Definition no_processes : ast :=
  Ast ∅ ∅ {[7 := Obj kFile 0 9 0 []]} {[9 := 1]}
    (Pst {[256 := root_table 1; 257 := root_table 2]} [] [] [] [] (λ _, 0) false false file_tables) false ∅ ∅ ∅ ∅ [] {[9 := 7]}.
Definition new_process : vm_procstate := Vps (final Vmem.vmem_earlyinit (Vmem.pool0 4 ())) [] vmp_wsl_init 0 0 false false.
Definition add_process (p root : Z) (s : ast) : ast := final (vm_ps_init p root) (set_procs (<[p := new_process]> (procs s)) s).
Definition two_processes : ast := add_process 2 (257 * 4096) (add_process 1 (256 * 4096) no_processes).
Definition file_mapped : ast := final (vm_ps_map_object_view 2 (Some 7) 0x10000 8192 4096 5 7 false false true) two_processes.
Definition both_mapped : ast := final (vm_ps_allocate 2 0x40000 4096 true) file_mapped.

Lemma new_process_pool : pool_ok (vmem new_process) ∧ 2 ≤ Vmem.nfreesegs (vmem new_process).
Proof.
  assert (pool_ok (Vmem.pool0 4 ())) as H0 by (split_and!; simpl; [constructor|set_solver|done]).
  destruct (wp_final _ _ _ (seg_block_free_pool 128 _ H0)) as [[] [Hp Hn]]. split; [exact Hp|].
  change (Vmem.nfreesegs (vmem new_process)) with (Vmem.nfreesegs (final (Vmem.seg_block_free 128) (Vmem.pool0 4 ()))). by rewrite Hn.
Qed.
Lemma add_process_reach p root s : maps_reach s → procs s !! p = None →
  returns (vm_ps_init p root) (set_procs (<[p := new_process]> (procs s)) s) = true → maps_reach (add_process p root s).
Proof. intros Hr Hp Hret. destruct new_process_pool. eapply reach_process; [done..|]. by apply final_run. Qed.
Lemma two_processes_reach : maps_reach two_processes.
Proof.
  apply add_process_reach; [apply add_process_reach; [apply reach_start|..]|..]; try (vm_compute; reflexivity); simpl.
  - intros o y [<- <-]%lookup_singleton_Some. split; [done|]. exists 1. by rewrite lookup_singleton_eq.
  - intros o o' y y' [<- <-]%lookup_singleton_Some [<- <-]%lookup_singleton_Some. done.
Qed.
Definition proc2 (s : ast) : vm_procstate := default new_process (procs s !! 2).
Lemma file_request : map_request (proc2 two_processes) 0x10000 8192 4096 true.
Proof. split; [split; [lia|done]|lia|done|]. right. vm_compute. lia. Qed.
Lemma fits_by g a (vm : Vmem.vmem ()) sz vaddr (exact : bool) : g ∈ segments vm → is_free g = true → fits g sz 0 (if exact then vaddr else 0) (exact_flag exact) a →
  fits_somewhere vm sz vaddr exact.
Proof. intros Hg Hf Hfit Hno. by eapply (Hno g). Qed.
Lemma file_fits : fits_somewhere (vmem (proc2 two_processes)) 8192 0x10000 true.
Proof.
  apply (fits_by (Vmem.Seg Vmem.kVMemSegFree LOWER_HALF LOWER_HALF_SIZE) 0x10000); [|done|].
  - replace (segments (vmem (proc2 two_processes))) with
      [Vmem.Seg Vmem.kVMemSegSpan LOWER_HALF LOWER_HALF_SIZE; Vmem.Seg Vmem.kVMemSegFree LOWER_HALF LOWER_HALF_SIZE] by (vm_compute; reflexivity).
    apply elem_of_cons. right. by apply elem_of_cons; left.
  - split_and!; simpl; unfold LOWER_HALF, LOWER_HALF_SIZE; try done; lia.
Qed.

Lemma two_processes_wf : ∃ H, wf H two_processes.
Proof. apply reach_wf, two_processes_reach. Qed.
Lemma user_process : procs two_processes !! 2 = Some (proc2 two_processes).
Proof. vm_compute. reflexivity. Qed.
Lemma vm_ps_map_object_view_correct_witness : ∃ s' e,
  vm_ps_map_object_view 2 (Some 7) 0x10000 8192 4096 5 7 false false true two_processes = Ok (0x10000, s') ∧
  vmp_ps_vad_find 2 0x11234 s' = Ok (Some e, s').
Proof.
  destruct two_processes_wf as [H Hwf].
  pose proof (vm_ps_map_object_view_correct H two_processes 2 (proc2 two_processes) (Some 7) 0x10000 8192 4096 5 7 false false true
    Hwf user_process eq_refl file_request file_fits ltac:(intros o [= <-]; eexists; vm_compute; reflexivity)) as Hw.
  destruct (proj1 (wp_ok _ _ _) Hw) as (a & s' & Hrun & e & Ha & _ & Hin & _). rewrite Ha in Hrun, Hin by done. exists s', e. split; [exact Hrun|].
  apply Hin. lia.
Defined.

Lemma run_final {S A} (m : kern S A) (s : S) a : match m s with Ok (b, _) => b = a | _ => False end → m s = Ok (a, final m s).
Proof. unfold final. by destruct (m s) as [[b s']| |]; [intros ->|..]. Qed.
Lemma file_mapped_reach : maps_reach file_mapped.
Proof.
  eapply (reach_map two_processes 2 (proc2 two_processes) (Some 7) 0x10000 8192 4096 5 7 false false true 0x10000);
    [apply two_processes_reach|apply user_process|apply file_request|intros o [= <-]; eexists; vm_compute; reflexivity|].
  unfold file_mapped. refine (run_final _ _ _ _). vm_compute. reflexivity.
Qed.
Lemma both_mapped_reach : maps_reach both_mapped.
Proof.
  eapply (reach_map file_mapped 2 (proc2 file_mapped) None 0x40000 4096 0 kVMAll kVMAll false false true 0x40000);
    [apply file_mapped_reach|vm_compute; reflexivity| |intros o Ho; discriminate Ho|].
  - split; [split; [lia|done]|lia|done|]. right. vm_compute. lia.
  - unfold both_mapped. refine (run_final _ _ _ _). vm_compute. reflexivity.
Qed.
(** ** Memory of 512 pages *)

(** The kernel's process 1 and process 2 start; memory is mapped in process 2 and written to,
    and two pages of a device are mapped in process 1. *)
Definition ram : pst := final (vm_region_add (512 * PGSIZE) (1024 * PGSIZE)) (Pst ∅ (replicate BUDDY_ORDERS []) (replicate BUDDY_ORDERS 0) [] [] (λ _, 0) false false (λ _, 0)).
Definition result_of {S} (m : kern S Z) (s : S) : Z := match m s with Ok (a, _) => a | _ => 0 end.
Definition kernel_root : kern pst Z := vmp_md_ps_init true 1 0.
Definition user_root : kern pst Z := vmp_md_ps_init false 2 (result_of kernel_root ram).
Definition roots : pst := final user_root (final kernel_root ram).
Definition booted : ast := add_process 2 (result_of user_root (final kernel_root ram)) (add_process 1 (result_of kernel_root ram)
  (Ast ∅ ∅ ∅ ∅ roots false ∅ ∅ ∅ ∅ [] ∅)).
Definition grown : ast := final (vm_ps_allocate 2 0x40000 8192 true) booted.
Definition touched : ast := final (vmp_fault 0 2 0x40123 true false true false) grown.
Definition device : ast := final (vm_ps_map_physical_view 1 0 8192 0xfe000000 3 3 false) touched.

Lemma booted_reach : maps_reach booted.
Proof.
  apply add_process_reach; [apply add_process_reach; [apply reach_start|..]|..]; try (vm_compute; reflexivity); simpl.
  - intros o y Hy. rewrite lookup_empty in Hy. discriminate Hy.
  - intros o o' y y' Hy. rewrite lookup_empty in Hy. discriminate Hy.
Qed.
Lemma touched_reach : maps_reach touched.
Proof.
  assert (maps_reach grown) as Hg.
  { eapply (reach_map booted 2 (proc2 booted) None 0x40000 8192 0 kVMAll kVMAll false false true 0x40000);
      [apply booted_reach|vm_compute; reflexivity| |intros o Ho; discriminate Ho|].
    - split; [split; [lia|done]|lia|done|]. right. vm_compute. lia.
    - unfold grown. refine (run_final _ _ _ _). vm_compute. reflexivity. }
  eapply (reach_fault grown 0 2 0x40123 true false true false 0); [exact Hg|]. unfold touched. refine (run_final _ _ _ _). vm_compute. reflexivity.
Qed.
Lemma device_reach : maps_reach device.
Proof.
  eapply (reach_physical touched 1 (default new_process (procs touched !! 1)) 0 8192 0xfe000000 3 3 false KVM_DYNAMIC_BASE);
    [apply touched_reach|vm_compute; reflexivity| |].
  - split; [split; [lia|done]|lia|done|]. right. vm_compute. lia.
  - unfold device. refine (run_final _ _ _ _). vm_compute. reflexivity.
Qed.
(** The memory of process 2 is found, and there is nothing after it; the device is found in
    process 1. *)
Lemma aspace_wellformed_witness :
  (∃ e x s', vmp_ps_vad_find 2 0x41fff device = Ok (Some e, s') ∧ map_entries device !! e = Some x ∧ start x ≤ 0x41fff < end_ x) ∧
  vmp_ps_vad_find 2 0x42000 device = Ok (None, device) ∧
  live (segments (vmem (default new_process (procs device !! 1)))) = [(KVM_DYNAMIC_BASE, 8192)].
Proof.
  destruct (aspace_wellformed device device_reach) as [Hp _].
  destruct (Hp 2 (proc2 device)) as (X & _ & _ & _ & Hf); [vm_compute; reflexivity|]. split; [|split].
  - destruct (proj1 (wp_ok _ _ _) (Hf 0x41fff)) as (r & s' & Hrun & -> & Hr).
    assert (match vmp_ps_vad_find 2 0x41fff device with Ok (Some _, _) => true | _ => false end = true) as Hs by (vm_compute; reflexivity).
    rewrite Hrun in Hs. destruct r as [e|]; [|done]. destruct Hr as (x & _ & Hx & Hr).
    exists e, x, device. split; [exact Hrun|]. split; [exact Hx|exact Hr].
  - destruct (proj1 (wp_ok _ _ _) (Hf 0x42000)) as (r & s' & Hrun & -> & Hr).
    assert (match vmp_ps_vad_find 2 0x42000 device with Ok (Some _, _) => true | _ => false end = false) as Hs by (vm_compute; reflexivity).
    rewrite Hrun in Hs |- *. destruct r; [discriminate Hs|reflexivity].
  - vm_compute. reflexivity.
Defined.
Lemma vm_ps_deallocate_anonymous_witness : returns (vm_ps_deallocate 2 0x40000 4096) both_mapped = false.
Proof.
  destruct (reach_wf both_mapped both_mapped_reach) as [H Hwf]. unfold returns.
  destruct (vm_ps_deallocate 2 0x40000 4096 both_mapped) as [[[] s']| |] eqn:E; [|reflexivity|reflexivity]. exfalso. revert s' E.
  apply (vm_ps_deallocate_anonymous H 2 (proc2 both_mapped) 0x40000 4096 1 (new_entry None 4096 0 kVMAll kVMAll false false 0x40000) both_mapped Hwf);
    [vm_compute; reflexivity|apply (list_elem_of_lookup_2 _ 1); vm_compute; reflexivity|vm_compute; reflexivity|reflexivity|vm_compute; discriminate..].
Defined.
Lemma both_unmapped : kernel_unmapped 0x10000 0x12000 both_mapped.
Proof.
  split; [|split_and!; vm_compute; (reflexivity || discriminate)]. exists (default new_process (procs both_mapped !! 1)), 256, (root_table 1).
  split; [vm_compute; reflexivity|]. split; [vm_compute; reflexivity|]. split; [vm_compute; reflexivity|]. split; [|vm_compute; reflexivity].
  split; simpl; (done || lia).
Qed.
Lemma both_entry : vmp_fetch_pte (md_table (proc2 both_mapped)) 0x10000 (pg both_mapped) = Ok (Some (entry (260 * 4096) 0x10000 1), pg both_mapped).
Proof.
  unfold vmp_fetch_pte, VMP_TABLE_LEVELS. rewrite fetch_walk by lia.
  assert (walk (mem (pg both_mapped)) 4 (md_table (proc2 both_mapped)) 0x10000 = Some (entry (260 * 4096) 0x10000 1)) as -> by (vm_compute; reflexivity). reflexivity.
Qed.
(** The file is unmapped at [0x10000], and its page is still there. *)
Lemma vm_ps_deallocate_keeps_pages_witness : ∃ s' v' pte, vm_ps_deallocate 2 0x10000 8192 both_mapped = Ok ((), s') ∧ procs s' !! 2 = Some v' ∧
  vmp_ps_vad_find 2 0x10000 s' = Ok (None, s') ∧ vmp_fetch_pte (md_table v') 0x10000 (pg s') = Ok (Some pte, pg s') ∧
  vmp_pte_characterise (mem (pg s') pte) = kPTEKindValid.
Proof.
  destruct (reach_wf both_mapped both_mapped_reach) as [H Hwf].
  pose proof (vm_ps_deallocate_keeps_pages H 2 (proc2 both_mapped) 0 (new_entry (Some 7) 8192 4096 5 7 false false 0x10000) 7 (Obj kFile 0 9 0 [0])
    both_mapped Hwf ltac:(vm_compute; reflexivity) ltac:(vm_compute; reflexivity) ltac:(vm_compute; reflexivity) ltac:(vm_compute; reflexivity)
    ltac:(apply (list_elem_of_lookup_2 _ 0); vm_compute; reflexivity) ltac:(vm_compute; reflexivity) eq_refl ltac:(vm_compute; reflexivity) eq_refl) as Hw.
  destruct (proj1 (wp_ok _ _ _) (Hw ltac:(simpl; lia) both_unmapped)) as ([] & s' & Hrun & v' & Hv' & Hno & Hkeep).
  destruct (Hkeep 0x10000 (entry (260 * 4096) 0x10000 1) both_entry) as [Hf Hm].
  exists s', v', (entry (260 * 4096) 0x10000 1). split; [exact Hrun|]. split; [exact Hv'|]. split; [apply Hno; simpl; lia|]. split; [exact Hf|].
  rewrite Hm. vm_compute. reflexivity.
Defined.
