(* ===== verification/FaultTheorems.v ===== *)
(** Page faults on private memory: [vmp_do_fault] brings the page in, whatever the state of
    its entry, and the process cannot tell: no word of its memory changes. *)
From S2P Require Import Prelude PteAmd64 Pte Resident Tables PageAlloc BuddyProofs BuddyAlloc BuddyFree BuddyTheorems Walk PageTree WalkTheorems Wsl WslProofs WslOps WslTheorems PrivateMem Aspace VmMap VmMapProofs Fault VmMapTheorems.
Import Resident Tables PageAlloc Walk Wsl Aspace VmMap Fault.
Local Open Scope Z_scope.

Section fault.
Context `{F : PteFormat} {L : PteLaws F} {E : VmEnv}.
Notation tables := (gmap Z table).
Notation kind := vmp_pte_characterise.
Notation index := vmp_addr_unpack.

(** ** The state around the pages *)

Lemma wp_in_pg {A} (m : kern pst A) Q s : wp (in_pg m) Q s ↔ wp m (λ a x, Q a (set_pg x s)) (pg s).
Proof. unfold in_pg. by rewrite wp_zoom. Qed.
Lemma set_pg_id s : set_pg (pg s) s = s.
Proof. by destruct s. Qed.
Lemma wp_pte_word a Q s : wp (in_pg (word_at a)) Q s ↔ Q (mem (pg s) a) s.
Proof. unfold word_at. by rewrite wp_in_pg, wp_gets, set_pg_id. Qed.
Lemma wp_pg_page q Q s : wp (in_pg (page_at q)) Q s ↔ ∃ x, pfndb (pg s) !! q = Some x ∧ Q x s.
Proof. rewrite wp_in_pg, wp_page_at. by rewrite set_pg_id. Qed.
Lemma wp_ws_acquire p v Q s : procs s !! p = Some v → ws_held v = false → Q () (set_procs (<[p := set_ws_held true v]> (procs s)) s) → wp (ws_acquire p) Q s.
Proof. intros Hv Hh HQ. unfold ws_acquire. rewrite wp_bind, wp_proc_at. exists v. split; [done|]. rewrite Hh, wp_proc_upd. eauto. Qed.
Lemma wp_ws_release p v Q s : procs s !! p = Some v → ws_held v = true → Q () (set_procs (<[p := set_ws_held false v]> (procs s)) s) → wp (ws_release p) Q s.
Proof. intros Hv Hh HQ. unfold ws_release. rewrite wp_bind, wp_proc_at. exists v. split; [done|]. rewrite Hh, wp_bind, wp_kassert, wp_proc_upd. eauto. Qed.
Lemma wire_waits_wired fuel a r pte pages : wire_waits fuel a r (Wired pte pages) = mret (WiredPte (if r then 1 else 0) pte pages).
Proof. by destruct fuel. Qed.

(** The rest of the system is as it was: other processes, mappings, objects. *)
Record rest_same (p : Z) (s s' : ast) : Prop := RestSame {
  rs_procs : ∀ p', p' ≠ p → procs s' !! p' = procs s !! p';
  rs_maps : map_entries s' = map_entries s;
  rs_objects : vm_objects s' = vm_objects s ∧ refs s' = refs s;
  rs_pagers : pagers s' = pagers s ∧ pager_request s' = pager_request s
}.
Lemma rest_refl p s : rest_same p s s.
Proof. by split. Qed.
Lemma rest_trans p s1 s2 s3 : rest_same p s1 s2 → rest_same p s2 s3 → rest_same p s1 s3.
Proof. intros [A1 A2 [A3 A4] [A5 A6]] [B1 B2 [B3 B4] [B5 B6]]. split; try (split; congruence); [|congruence]. intros p' Hp. by rewrite B1, A1. Qed.
Lemma rest_pg p x s : rest_same p s (set_pg x s).
Proof. by split. Qed.
Lemma rest_proc p v s : rest_same p s (set_procs (<[p := v]> (procs s)) s).
Proof. split; try done. intros p' Hp. simpl. by rewrite lookup_insert_ne. Qed.
Definition proc_kept (v v' : vm_procstate) : Prop := vmem v' = vmem v ∧ vad_queue v' = vad_queue v ∧ md_table v' = md_table v ∧ ws_held v' = ws_held v ∧ map_held v' = map_held v.

(** ** The branches *)

(** The thread has its locks and the tables for the page are wired. *)
Record faulting (p root : Z) (ri : table) (pins : Z → Z) (n : nat) (k c : Z) (pages : list Z) (T : tables) (B : blocks) (v : vm_procstate) (fl : list Z) (s : ast) : Prop := Faulting {
  fg_proc : procs s !! p = Some v;
  fg_table : md_table v = root * PGSIZE;
  fg_root : T !! root = Some ri ∧ t_level ri = 4%nat ∧ t_proto ri = false;
  fg_ws : wstate (add_pins pages pins) n T B (pg s);
  fg_pins : ∀ y, 0 ≤ pins y ≤ 10000;
  fg_pages : hd_error pages = Some c ∧ (length pages ≤ 4)%nat ∧ ∀ t, t ∈ pages → ∃ ti, T !! t = Some ti ∧ t_proto ti = false;
  fg_leaf : leaf_of (mem (pg s)) 4 root (k * PGSIZE) = Some c;
  fg_user : user ri k;
  fg_list : list_ok (pwsl v) fl ∧ hash_ok (pwsl v) ∧ 0 < limit (pwsl v);
  fg_private : private p root ri (resident (pwsl v)) T B (pg s)
}.
(** What a branch ends with: the page is mapped, and writeable when that was asked for; a page
    that was not there is zero. *)
Record served (p root : Z) (ri : table) (pins : Z → Z) (n : nat) (k : Z) (write : bool) (T : tables) (B : blocks) (v : vm_procstate) (s s' : ast)
  (T' : tables) (B' : blocks) (v' : vm_procstate) (fl' : list Z) : Prop := Served {
  sv_proc : procs s' !! p = Some v' ∧ proc_kept v v';
  sv_lock : pfn_held s' = false;
  sv_ws : wstate pins n T' B' (pg s');
  sv_list : list_ok (pwsl v') fl' ∧ hash_ok (pwsl v') ∧ 0 < limit (pwsl v');
  sv_private : private p root ri (resident (pwsl v')) T' B' (pg s');
  sv_moves : moves p root ri k T B (pg s) T' B' (pg s');
  sv_rest : rest_same p s s';
  sv_mapped : ∃ a w, xlate (mem (pg s')) 4 root (k * PGSIZE) = Some (a, w) ∧ kind w = kPTEKindValid ∧ (write = true → vmp_md_hw_pte_is_writeable w = true);
  sv_zero : view (mem (pg s)) root k = None → ∀ q o, view (mem (pg s')) root k = Some q → 0 ≤ o < PGSIZE → mem (pg s') (q * PGSIZE + o) = 0
}.

Lemma leaf_pinned pages pins c : hd_error pages = Some c → 0 ≤ pins c → 1 ≤ add_pins pages pins c.
Proof. intros Hc Hp. pose proof (add_pins_in pages pins c). destruct pages as [|t pages]; [done|]. injection Hc as <-. specialize (H ltac:(set_solver)). lia. Qed.
Lemma release_wired_ok pins n T B s pte pages c : wstate (add_pins pages pins) n T B (pg s) → (∀ y, 0 ≤ pins y ≤ 10000) →
  hd_error pages = Some c ∧ (length pages ≤ 4)%nat ∧ (∀ t, t ∈ pages → ∃ ti, T !! t = Some ti ∧ t_proto ti = false) →
  wp (release_wired (WireState pte pages)) (λ _ s', ∃ x T' B', s' = set_pfn_held false (set_pg x s) ∧ wstate pins n T' B' x ∧ step T B (pg s) T' B' x) s.
Proof.
  intros Hws Hpins (_ & Hlen & Htab). unfold release_wired, unwire, vmp_release_pfn_lock. rewrite wp_bind, wp_in_pg, release_take by done.
  eapply wp_mono; [eapply (unwire_ok pages pins n T B (pg s) Hws Htab); [intros y; apply Hpins|]|].
  - intros y. pose proof (add_pins_bound pages pins y 10000 (proj2 (Hpins y))). unfold PINS. lia.
  - intros [] x (T' & B' & Hws' & Hst & _). rewrite wp_modify. by exists x, T', B'.
Qed.
Lemma enter_word q write x u : 0 ≤ q < 2 ^ pfn_bits → let w := vmp_md_pte_create_hw q write x true u in
  kind w = kPTEKindValid ∧ child w = Some q ∧ vmp_md_hw_pte_is_writeable w = write.
Proof. intros Hq w. destruct (law_hw q write x true u Hq) as (Hk & Hp & Hw). fold w in Hk, Hp, Hw. split_and!; try done. unfold child. by rewrite Hk, Hp. Qed.
(** The entry is written, the tables are still wired; [res] is the working set with the page. *)
Record entered (p root : Z) (ri : table) (pins : Z → Z) (n : nat) (k : Z) (write : bool) (c : Z) (pages : list Z) (T0 : tables) (B0 : blocks) (v : vm_procstate) (s : ast)
  (res : Z → Prop) (T : tables) (B : blocks) (v1 : vm_procstate) (fl : list Z) (s1 : ast) (q : Z) : Prop := Entered {
  en_proc : procs s1 !! p = Some v1 ∧ proc_kept v v1 ∧ pwsl v1 = pwsl v;
  en_ws : wstate (add_pins pages pins) n T B (pg s1);
  en_tab : ∀ t, t ∈ pages → ∃ ti, T !! t = Some ti ∧ t_proto ti = false;
  en_list : list_ok (pwsl v) fl ∧ hash_ok (pwsl v) ∧ 0 < limit (pwsl v);
  en_private : private p root ri res T B (pg s1);
  en_moves : moves p root ri k T0 B0 (pg s) T B (pg s1);
  en_rest : rest_same p s s1;
  en_mapped : ∃ a w, xlate (mem (pg s1)) 4 root (k * PGSIZE) = Some (a, w) ∧ child w = Some q ∧ kind w = kPTEKindValid ∧ (write = true → vmp_md_hw_pte_is_writeable w = true);
  en_zero : view (mem (pg s)) root k = None → ∀ o, 0 ≤ o < PGSIZE → mem (pg s1) (q * PGSIZE + o) = 0
}.
Lemma page_word q o : 0 ≤ o < PGSIZE → (q * PGSIZE + o) / PGSIZE = q.
Proof. intros Ho. rewrite Z.add_comm, Z.div_add by (unfold PGSIZE, VMP_PAGE_SHIFT; lia). by rewrite Z.div_small. Qed.
Section branches.
Context (p root : Z) (ri : table) (pins : Z → Z) (n : nat) (k c : Z) (pages : list Z) (T : tables) (B : blocks) (v : vm_procstate) (fl : list Z) (s : ast).
Context (Hf : faulting p root ri pins n k c pages T B v fl s).
Notation entered' write := (entered p root ri pins n k write c pages T B v s).

Lemma page_out T' B' q o : T' !! q = None → allocated B' q 0 → 0 ≤ o < PGSIZE → out T' B' ((q * PGSIZE + o) / PGSIZE).
Proof. intros HT Hq Ho. rewrite page_word by done. by apply head_out. Qed.
(** Releasing the tables. *)
Lemma entered_release write pte res T1 B1 v1 fl1 s1 q : entered' write res T1 B1 v1 fl1 s1 q →
  wp (release_wired (WireState pte pages)) (λ _ s', ∃ T2 B2, pfn_held s' = false ∧ wstate pins n T2 B2 (pg s') ∧ T2 !! root = Some ri ∧ procs s' !! p = Some v1 ∧ private p root ri res T2 B2 (pg s') ∧
    moves p root ri k T B (pg s) T2 B2 (pg s') ∧ rest_same p s s' ∧ xlate (mem (pg s')) 4 root (k * PGSIZE) = xlate (mem (pg s1)) 4 root (k * PGSIZE) ∧
    (view (mem (pg s)) root k = None → ∀ o, 0 ≤ o < PGSIZE → mem (pg s') (q * PGSIZE + o) = 0)) s1.
Proof.
  intros [(Hv1 & Hkept & Hwsl) Hws Htab Hlist Hpv Hmv Hrest (a & w & Hx & Hcw & Hval & Hwr) Hz]. pose proof (fg_pages _ _ _ _ _ _ _ _ _ _ _ _ _ Hf) as (Hhd & Hlen & _).
  destruct (fg_root _ _ _ _ _ _ _ _ _ _ _ _ _ Hf) as (Hr & Hl & _). pose proof (fg_user _ _ _ _ _ _ _ _ _ _ _ _ _ Hf) as Hk.
  assert (T1 !! root = Some ri) as Hr1 by (by apply (mv_root _ _ _ _ _ _ _ _ _ _ Hmv)).
  eapply wp_mono; [apply (release_wired_ok pins n T1 B1 s1 pte pages c Hws (fg_pins _ _ _ _ _ _ _ _ _ _ _ _ _ Hf)); done|].
  intros [] s2 (x & T2 & B2 & -> & Hws2 & Hst). exists T2, B2. simpl. pose proof (step_moves p root ri k _ _ _ _ _ _ Hr1 Hl Hst) as Hmv2. split_and!; try done.
  - by apply (mv_root _ _ _ _ _ _ _ _ _ _ Hmv2).
  - by eapply private_step.
  - by eapply moves_trans.
  - destruct Hrest as [? ? ? ?]. by split.
  - apply (sp_root _ _ _ _ _ _ Hst root ri Hr1 Hl). apply Hk.
  - intros Hn o Ho. destruct (pv_page _ _ _ _ _ _ _ Hpv k a w Hk Hx) as (q' & y & [Hc' [HT Hal] _ _ _]). assert (q' = q) as -> by congruence.
    rewrite (sp_mem _ _ _ _ _ _ Hst); [by apply Hz|]. by apply page_out.
Qed.
Lemma release_served write pte T1 B1 v1 s1 q : entered' write (resident (pwsl v)) T1 B1 v1 fl s1 q →
  wp (release_wired (WireState pte pages)) (λ _ s', ∃ T' B' v' fl', served p root ri pins n k write T B v s s' T' B' v' fl') s1.
Proof.
  intros He. eapply wp_mono; [by eapply entered_release|]. intros [] s2 (T2 & B2 & Hlk & Hws2 & _ & Hv2 & Hpv2 & Hmv2 & Hrs2 & Hx2 & Hz2).
  pose proof He as [(Hv1 & Hkept & Hwsl) _ _ Hlist _ _ _ (a & w & Hx & Hcw & Hval & Hwr) _]. exists T2, B2, v1, fl. split; try done; rewrite ?Hwsl; try done.
  - exists a, w. by rewrite Hx2.
  - intros Hn q' o Hq'. unfold view in Hq'. rewrite Hx2, Hx in Hq'. simpl in Hq'. assert (q' = q) as -> by congruence. by apply Hz2.
Qed.
Lemma insert_served write pte T1 B1 v1 s1 q : entered' write (λ x, resident (pwsl v) x ∨ x = k) T1 B1 v1 fl s1 q → ¬ resident (pwsl v) k →
  wp (release_wired (WireState pte pages);; wsl_insert_private p (k * PGSIZE) q) (λ _ s', ∃ T' B' v' fl', served p root ri pins n k write T B v s s' T' B' v' fl') s1.
Proof.
  intros He Hnr. rewrite wp_bind. eapply wp_mono; [by eapply entered_release|]. intros [] s2 (T2 & B2 & Hlk & Hws2 & Hr2 & Hv2 & Hpv2 & Hmv2 & Hrs2 & Hx2 & Hz2).
  pose proof He as [(Hv1 & Hkept & Hwsl) _ _ (Hlo & Hho & Hlim) _ _ _ (a & w & Hx & Hcw & Hval & Hwr) _]. destruct (fg_root _ _ _ _ _ _ _ _ _ _ _ _ _ Hf) as (_ & Hl & _).
  unfold wsl_insert_private, wsl_insert. rewrite wp_bind, wp_bind, wp_proc_at. exists v1. split; [done|]. rewrite wp_bind. unfold in_wsl. rewrite wp_bind, wp_proc_at.
  exists v1. split; [done|]. rewrite wp_zoom. destruct Hkept as (K1 & K2 & K3 & K4 & K5). rewrite K3, (fg_table _ _ _ _ _ _ _ _ _ _ _ _ _ Hf), Hwsl.
  eapply wp_mono; [by eapply (wsl_insert_private_ok pins n T2 B2 (pg s2) p root ri (pwsl v) fl k)|].
  intros r y (-> & w' & fl' & pg' & -> & Hlo' & Hho' & Hlim' & Hws' & Hpv' & Hmv' & Hx'). simpl. rewrite wp_ret, wp_modify. exists T2, B2, (set_pwsl w' v1), fl'. split; simpl; try done.
  - split; [by rewrite lookup_insert_eq|]. unfold proc_kept. simpl. done.
  - by eapply moves_trans.
  - eapply rest_trans; [exact Hrs2|]. split; try done. intros p' Hp'. simpl. by rewrite lookup_insert_ne.
  - exists a, w. by rewrite Hx', Hx2.
  - intros Hn q' o Hq' Ho. unfold view in Hq'. rewrite Hx', Hx2, Hx in Hq'. simpl in Hq'. assert (q' = q) as -> by congruence.
    rewrite (mv_mem _ _ _ _ _ _ _ _ _ _ Hmv'); [by apply Hz2|]. destruct (pv_page _ _ _ _ _ _ _ Hpv2 k a w) as (q' & z & [Hc' [HT Hal] _ _ _]); [apply Hf|by rewrite Hx2|].
    assert (q' = q) as -> by congruence. by apply page_out.
Qed.
End branches.

Lemma faulting_le p root ri pins n m k c pages T B v fl s : (m ≤ n)%nat → faulting p root ri pins n k c pages T B v fl s → faulting p root ri pins m k c pages T B v fl s.
Proof. intros Hm [? ? ? Hws ? ? ? ? ? ?]. split; try done. by eapply wstate_le. Qed.
Notation finishes p root ri pins n k write T B v s := (λ b s', b = Finish 0 true ∧ ∃ T' B' v' fl', served p root ri pins n k write T B v s s' T' B' v' fl').

(** The page is there. *)
Lemma valid_ok p root ri pins n k c pages T B v fl s write pte a w : faulting p root ri pins n k c pages T B v fl s →
  xlate (mem (pg s)) 4 root (k * PGSIZE) = Some (a, w) → kind w = kPTEKindValid → (write = true → vmp_md_hw_pte_is_writeable w = true) →
  wp (release_wired (WireState pte pages);; mret (Finish 0 true)) (finishes p root ri pins n k write T B v s) s.
Proof.
  intros Hf Hx Hval Hwr. destruct (pv_page _ _ _ _ _ _ _ (fg_private _ _ _ _ _ _ _ _ _ _ _ _ _ Hf) k a w (fg_user _ _ _ _ _ _ _ _ _ _ _ _ _ Hf) Hx) as (q & x & Hpp).
  rewrite wp_bind. eapply wp_mono; [eapply (release_served p root ri pins n k c pages T B v fl s Hf write pte T B v s q)|intros [] s' Hsv; rewrite wp_ret; done].
  pose proof Hf as [F1 F2 F3 F4 F5 (_ & _ & F6) F7 F8 F9 F10]. split; try done; [apply moves_refl| |].
  - exists a, w. split_and!; try done. apply Hpp.
  - intros Hv. unfold view in Hv. rewrite Hx in Hv. simpl in Hv. by rewrite (pp_child _ _ _ _ _ _ _ _ _ Hpp) in Hv.
Qed.
(** Storing an entry for page [q], which is the process's. *)
Lemma enter_entered p root ri pins n k c pages T B v fl s x1 q x x' write ex u : faulting p root ri pins n k c pages T B v fl s →
  wstate (add_pins pages pins) n T B x1 → T !! q = None → allocated B q 0 → pfndb (pg s) !! q = Some x → owner x = p →
  pfndb x1 = <[q := x']> (pfndb (pg s)) → mem x1 = mem (pg s) →
  (∀ y, y ≠ q → (y ∈ modified (pg s) → y ∈ modified x1) ∧ (y ∈ standby (pg s) → y ∈ standby x1)) → let a := cell c (index (k * PGSIZE) 1) in
  use x' = kPageUseAnonPrivate → owner x' = p → referent_pte x' = a → refcnt x' = 1 →
  (∃ w0, xlate (mem (pg s)) 4 root (k * PGSIZE) = Some (a, w0) ∧ child w0 = Some q) →
  entered p root ri pins n k write c pages T B v s (λ x, resident (pwsl v) x ∨ x = k) T B v fl (set_pg (set_mem (store (mem x1) a (vmp_md_pte_create_hw q write ex true u)) x1) s) q.
Proof.
  intros Hf Hws1 HT Hq Hx Hown Hpf Hm Hqu a Hu' Hown' Href' Hr' Hx0. pose proof Hf as [F1 F2 (F3 & F3' & F3'') F4 F5 (F6 & F6' & F6'') F7 F8 F9 F10].
  destruct (block_frame _ n T B (pg s) q F4 Hq) as (Hqr & _). destruct (enter_word q write ex u Hqr) as (Hk & Hc & Hw). set (w := vmp_md_pte_create_hw q write ex true u) in *.
  destruct (enter_ok (add_pins pages pins) n T B (pg s) x1 p root ri (resident (pwsl v)) k k c q x x' w 0 F4 Hws1 F3 F3' F10 F8 F7 HT Hq Hx Hown Hpf Hm Hqu Hu' Hown' Href' Hr' Hc Hk) as (W1 & W2 & W3 & W4).
  { by left. }
  { pose proof (add_pins_le pages pins c). specialize (F5 c). lia. }
  split; try done.
  - eapply wstate_ext; [|exact W1]. intros y. unfold add_pin. case_decide as Hy; [rewrite Hy; lia|done].
  - exists a, w. split_and!; try done. by rewrite Hw.
  - destruct Hx0 as (w0 & Hx0 & Hc0). unfold view. rewrite Hx0. simpl. by rewrite Hc0.
Qed.
Lemma make_writeable_ok p root ri pins n k c pages T B v fl s area a w : faulting p root ri pins n k c pages T B v fl s →
  xlate (mem (pg s)) 4 root (k * PGSIZE) = Some (a, w) → kind w = kPTEKindValid → map_lock_held area = true →
  wp (dirty_fault p (k * PGSIZE) true area (WireState a pages) 0) (finishes p root ri pins n k true T B v s) s.
Proof.
  intros Hf Hx Hval Hheld. pose proof Hf as [F1 F2 (F3 & F3' & F3'') F4 F5 (F6 & F6' & F6'') F7 F8 F9 F10].
  destruct (pv_page _ _ _ _ _ _ _ F10 k a w F8 Hx) as (q & x & [Hc [HT Hq] Hxq (Hu & Hown & Href) Hst]). rewrite decide_True in Hst by done. destruct Hst as [Hr1 Hres].
  destruct (block_frame _ n T B (pg s) q F4 Hq) as (Hqr & _). pose proof Hx as (c' & Hlc & Ha & Hw & _)%xlate_some. assert (c' = c) as -> by congruence.
  unfold dirty_fault, hw_page. cbn [ws_pte]. rewrite !wp_bind, wp_pte_word, <-Hw, wp_ret, (paddr_of w q (child_valid w q Hc Hval) Hqr), page_of.
  rewrite wp_bind, wp_pg_page. exists x. split; [done|]. rewrite Hu, bool_decide_false, bool_decide_true by done. rewrite wp_bind. unfold make_writeable, enter_page. cbn [ws_pte].
  rewrite wp_bind, wp_pte_word, <-Hw, (child_valid w q Hc Hval), wp_bind, wp_in_pg. unfold word_set. rewrite wp_modify, Hheld.
  pose proof (enter_entered p root ri pins n k c pages T B v fl s (pg s) q x x true (fi_executable area) (k * PGSIZE <=? HIGHER_HALF) Hf F4 HT Hq Hxq Hown) as He.
  rewrite <-Ha in He. specialize (He ltac:(by rewrite insert_id) eq_refl ltac:(done) Hu Hown Href Hr1 ltac:(by exists w)).
  eapply wp_mono; [eapply (release_served p root ri pins n k c pages T B v fl s Hf true a)|intros [] s' Hsv; rewrite wp_ret; done].
  destruct He as [E1 E2 E3 E4 E5 E6 E7 E8 E9]. split; try done. eapply private_ext; [|exact E5]. intros y. split; [intros [?| ->]; done|by left].
Qed.
(** The page is in transition: it is taken off its queue. *)
Lemma trans_ok p root ri pins n k c pages T B v fl s area write a w : faulting p root ri pins n k c pages T B v fl s →
  xlate (mem (pg s)) 4 root (k * PGSIZE) = Some (a, w) → kind w = kPTEKindTrans → map_lock_held area = true →
  wp (trans_fault p (k * PGSIZE) write area (WireState a pages)) (finishes p root ri pins n k write T B v s) s.
Proof.
  intros Hf Hx Htrans Hheld. pose proof Hf as [F1 F2 (F3 & F3' & F3'') F4 F5 (F6 & F6' & F6'') F7 F8 F9 F10].
  destruct (pv_page _ _ _ _ _ _ _ F10 k a w F8 Hx) as (q & x & [Hc [HT Hq] Hxq (Hu & Hown & Href) Hst]). rewrite decide_False in Hst by (by rewrite Htrans). destruct Hst as (Hr0 & Hidle & Hnres).
  destruct (block_frame _ n T B (pg s) q F4 Hq) as (Hqr & _ & Hord). pose proof Hx as (c' & Hlc & Ha & Hw & _)%xlate_some. assert (c' = c) as -> by congruence.
  unfold trans_fault, soft_pfn. cbn [ws_pte]. rewrite !wp_bind, wp_pte_word, <-Hw, wp_deref. exists q. split; [unfold child in Hc; by rewrite Htrans in Hc|].
  rewrite wp_bind, wp_pg_page. exists x. split; [done|]. rewrite wp_bind, wp_kassert, Hu, bool_decide_true by done. split; [done|]. rewrite wp_bind, wp_in_pg.
  eapply wp_mono; [eapply (retain_idle n B (pg s) q x); try done; [apply F4|apply F4|by apply Hord|by rewrite Hu]|]. intros [] x1 (Hpf & Hqm & Hroom).
  assert (wstate (add_pins pages pins) n T B x1) as Hws1 by (by eapply (wstate_out _ n T B (pg s) x1 q x (with_refcnt 1 x))).
  unfold enter_page. rewrite wp_bind, wp_in_pg. unfold word_set. rewrite wp_modify. cbn [ws_pte]. change (pg (set_pg x1 s)) with x1.
  pose proof (enter_entered p root ri pins n k c pages T B v fl s x1 q x (with_refcnt 1 x) write (fi_executable area) (k * PGSIZE <=? HIGHER_HALF) Hf Hws1 HT Hq Hxq Hown Hpf (qm_mem _ _ _ Hqm) (qm_other _ _ _ Hqm)) as He.
  rewrite <-Ha in He. specialize (He Hu Hown Href eq_refl ltac:(by exists w)). rewrite Hheld.
  pose proof (insert_served p root ri pins n k c pages T B v fl s Hf write a T B v _ q He Hnres) as Hwp. rewrite wp_bind in Hwp. rewrite wp_bind. eapply wp_mono; [exact Hwp|].
  cbv beta. intros [] s2 Hwp2. rewrite wp_bind. eapply wp_mono; [exact Hwp2|]. intros [] s3 Hsv. rewrite wp_ret. done.
Qed.
(** The first touch: a new page [q], of zeroes, is entered ([s1] is the memory after the
    allocation). *)
Lemma fresh_entered p root ri pins n k c pages T B v fl s B1 s1 q x w : faulting p root ri pins (S n) k c pages T B v fl s →
  xlate (mem (pg s)) 4 root (k * PGSIZE) = None → wstate (add_pins pages pins) n T B1 s1 → step T B (pg s) T B1 s1 →
  T !! q = None → free_at B q → allocated B1 q 0 → pfndb s1 !! q = Some (alloc_page kPageUseAnonPrivate x) →
  (∀ y, mem s1 y = if in_page q y then 0 else mem (pg s) y) → child w = Some q → kind w = kPTEKindValid →
  let a := cell c (index (k * PGSIZE) 1) in let x2 := with_referent a (with_owner p (alloc_page kPageUseAnonPrivate x)) in
  let s2 := set_pfndb (<[q := x2]> (pfndb s1)) s1 in let s3 := set_mem (store (mem s2) a w) s2 in
  wstate (add_pin c (-1) (add_pins pages pins)) n T B1 s3 ∧ private p root ri (λ x, resident (pwsl v) x ∨ x = k) T B1 s3 ∧
  moves p root ri k T B (pg s) T B1 s3 ∧ xlate (mem s3) 4 root (k * PGSIZE) = Some (a, w) ∧ T !! c ≠ None ∧ noswap (mem s3 a) = true.
Proof.
  intros Hf Hx Hws1 Hst1 HTq Hfree Hq Hxq Hmem Hc Hk a x2 s2 s3. pose proof Hf as [F1 F2 (F3 & F3' & F3'') F4 F5 (F6 & F6' & F6'') F7 F8 F9 F10].
  assert (¬ out T B q) as Hnout by (intros Ho; by eapply out_free in Ho; [|apply F4]).
  assert (step T B (pg s) T B1 s2) as Hst2 by (by apply step_fresh).
  assert (wstate (add_pins pages pins) n T B1 s2) as Hws2.
  { eapply (wstate_out _ n T B1 s1 s2 q (alloc_page kPageUseAnonPrivate x) x2); try done. eapply (room_upd n B1 s1); try done; [apply Hws1|].
    eapply standby_ref; [apply Hws1|done|by left]. }
  assert (pfndb s2 !! q = Some x2) as Hx2 by (simpl; by rewrite lookup_insert_eq). destruct (sp_root _ _ _ _ _ _ Hst2 root ri F3 F3') as [_ Hxl].
  assert (leaf_of (mem s2) 4 root (k * PGSIZE) = Some c) as Hleaf2.
  { rewrite <-F7. eapply (leaf_same _ T (pg s)); [apply F4| |done|done|apply F8]. intros t ti i Ht _ Hi. simpl.
    rewrite Hmem, in_page_cell by done. rewrite bool_decide_false; [done|congruence]. }
  pose proof (leaf_pinned pages pins c F6 ltac:(apply F5)) as Hpin.
  destruct (enter_ok (add_pins pages pins) n T B1 s2 s2 p root ri (resident (pwsl v)) k k c q x2 x2 w 1 Hws2 Hws2 F3 F3'
    (private_step _ _ _ _ _ _ _ _ _ _ F10 F3 F3' Hst2) F8 Hleaf2 HTq Hq Hx2 eq_refl) as (W1 & W2 & W3 & W4); try done.
  { by rewrite insert_id. }
  { right. rewrite Hxl by apply F8. split_and!; try done. intros k' a' w' Hk' Hx' Hc'. rewrite Hxl in Hx' by apply Hk'.
    destruct (pv_page _ _ _ _ _ _ _ F10 k' a' w' Hk' Hx') as (q' & y & [Hcq [HT' Hq'] _ _ _]). assert (q' = q) as -> by congruence. apply Hnout. by apply head_out. }
  destruct (leaf_level _ T s2 (ws_tree _ _ _ _ _ Hws2) 4 root ri (k * PGSIZE) c F3 F3' (proj2 F8) Hleaf2) as (ci & Hci & _).
  split_and!; [exact W1|exact W2| |exact W4|by rewrite Hci|].
  - eapply moves_trans; [by apply (step_moves p root ri k T B (pg s) T B1 s2)|exact W3].
  - assert (mem s3 a = w) as -> by (simpl; apply store_eq). by eapply child_noswap.
Qed.
Lemma anon_ok p root ri pins n k c pages T B v fl s area write : faulting p root ri pins (S n) k c pages T B v fl s →
  xlate (mem (pg s)) 4 root (k * PGSIZE) = None → map_lock_held area = true →
  wp (anon_fault p (k * PGSIZE) write area (WireState (cell c (index (k * PGSIZE) 1)) pages)) (finishes p root ri pins n k write T B v s) s.
Proof.
  intros Hf Hx Hheld. pose proof Hf as [F1 F2 (F3 & F3' & F3'') F4 F5 (F6 & F6' & F6'') F7 F8 F9 F10]. set (a := cell c (index (k * PGSIZE) 1)).
  unfold anon_fault, leaf. cbn [ws_pte ws_pages]. rewrite wp_bind, wp_deref. exists c. split; [done|]. rewrite wp_bind, wp_in_pg.
  eapply wp_mono; [by eapply (alloc_ok (add_pins pages pins) n T B (pg s) kPageUseAnonPrivate nanonprivate false F4)|].
  intros r s1 (q & B1 & x & -> & Hws1 & Hst1 & HTq & Hfree & Hq & _ & Hqr & Hxq & Hmem). unfold own_page. rewrite wp_bind, wp_bind, wp_in_pg, wp_page_upd.
  eexists. split; [done|]. unfold page_offset_set. rewrite wp_modify. set (x2 := with_referent a (with_owner p (alloc_page kPageUseAnonPrivate x))).
  set (s2 := set_pfndb (<[q := x2]> (pfndb s1)) s1). unfold enter_page. rewrite wp_bind, wp_in_pg. unfold word_set. rewrite wp_modify.
  cbn [pg set_pg set_page_offset]. set (w := vmp_md_pte_create_hw q write _ true _). fold (store (mem s2) a w).
  destruct (enter_word q write (fi_executable area) (k * PGSIZE <=? HIGHER_HALF) ltac:(lia)) as (Hk & Hc & Hw). fold w in Hk, Hc, Hw.
  destruct (fresh_entered p root ri pins n k c pages T B v fl s B1 s1 q x w Hf Hx Hws1 Hst1 HTq Hfree Hq Hxq Hmem Hc Hk) as (W1 & W2 & W3 & W4 & Hcn & Hns).
  fold a in W1, W2, W3, W4, Hns. fold x2 s2 in W1, W2, W3, W4, Hns. set (s3 := set_mem _ s2) in *. rewrite wp_bind, wp_in_pg. cbn [pg set_pg set_page_offset].
  destruct (T !! c) as [ci|] eqn:Hci; [|done]. destruct (leaf_level _ T (pg s) (ws_tree _ _ _ _ _ F4) 4 root ri (k * PGSIZE) c F3 F3' (proj2 F8) F7) as (ci' & Hci' & Hci1 & _).
  assert (ci' = ci) as -> by congruence. destruct (tr_slots _ _ _ (ws_tree _ _ _ _ _ W1) c ci Hci) as [_ Hcs]. specialize (Hcs ltac:(lia)).
  destruct (table_live _ T s3 c ci (index (k * PGSIZE) 1) (ws_tree _ _ _ _ _ W1) Hci ltac:(rewrite Hcs; apply law_index) Hns) as (xc & Hxc & Hrc).
  pose proof (add_pins_bound pages pins c 10000 (proj2 (F5 c))) as Hpb.
  eapply wp_mono; [eapply (pin_ok _ n T B1 s3 c ci xc W1 Hci); [rewrite add_pin_eq; unfold PINS; lia|done|done]|]. intros [] s4 (Hws4 & Hst4 & Hm4).
  rewrite wp_bind, wp_proc_upd. exists v. split; [done|]. cbn [procs set_pg set_page_offset set_procs]. set (s5 := set_procs _ _). rewrite Hheld.
  assert (entered p root ri pins n k write c pages T B v s (λ x, resident (pwsl v) x ∨ x = k) T B1 (set_n_anonymous (u64 (n_anonymous v + 1)) v) fl s5 q) as He.
  { split; simpl; try done.
    - by rewrite lookup_insert_eq.
    - eapply wstate_ext; [|exact Hws4]. intros y. unfold add_pin. case_decide as Hy; [|done]. rewrite Hy, decide_True by done. lia.
    - by eapply private_step.
    - eapply moves_trans; [exact W3|]. by apply step_moves.
    - split; try done. intros p' Hp'. simpl. by rewrite lookup_insert_ne.
    - exists a, w. rewrite Hm4. split_and!; try done. by rewrite Hw.
    - intros _ o Ho. rewrite Hm4. simpl. rewrite store_ne; [by rewrite Hmem, in_page_div, bool_decide_true by by apply page_word|].
      intros Heq. assert (a / PGSIZE = c) as Hac by (apply cell_page, law_index). rewrite <-Heq, page_word in Hac by done. subst c. congruence. }
  pose proof (insert_served p root ri pins n k c pages T B v fl s (faulting_le _ _ _ _ (S n) n _ _ _ _ _ _ _ _ ltac:(lia) Hf) write a T B1 _ _ q He) as Hwp.
  rewrite wp_bind in Hwp. rewrite wp_bind. eapply wp_mono; [apply Hwp|].
  - intros Hres. destruct (pv_res _ _ _ _ _ _ _ F10 k Hres) as (_ & a' & w' & ? & _). congruence.
  - cbv beta. intros [] s6 Hwp2. rewrite wp_bind. eapply wp_mono; [exact Hwp2|]. intros [] s7 Hsv. rewrite wp_ret. done.
Qed.
(** By the state of the entry. *)
Lemma fault_branch_ok p root ri pins n k c pages T B v fl s area write : faulting p root ri pins (S n) k c pages T B v fl s →
  fi_object area = None → map_lock_held area = true →
  wp (fault_branch p (k * PGSIZE) write area 0 (WireState (cell c (index (k * PGSIZE) 1)) pages)) (finishes p root ri pins n k write T B v s) s.
Proof.
  intros Hf Ho Hh. pose proof Hf as [F1 F2 F3 F4 F5 F6 F7 F8 F9 F10]. pose proof (faulting_le _ _ _ _ (S n) n _ _ _ _ _ _ _ _ ltac:(lia) Hf) as Hf'.
  unfold fault_branch. cbn [ws_pte]. rewrite wp_bind, wp_pte_word. set (a := cell c (index (k * PGSIZE) 1)).
  destruct (decide (kind (mem (pg s) a) = kPTEKindZero)) as [Hz|Hnz].
  { rewrite Hz, Ho. eapply anon_ok; [done| |done]. unfold xlate. rewrite F7. simpl. fold a. by rewrite present_zero. }
  assert (xlate (mem (pg s)) 4 root (k * PGSIZE) = Some (a, mem (pg s) a)) as Hx by (apply xlate_some; by exists c).
  destruct (pv_page _ _ _ _ _ _ _ F10 k _ _ F8 Hx) as (q & x & [Hc _ _ _ _]). unfold child in Hc.
  destruct (kind (mem (pg s) a)) eqn:Ek; try done.
  - by eapply trans_ok.
  - destruct (negb write || vmp_md_hw_pte_is_writeable (mem (pg s) a)) eqn:Ew.
    + rewrite Hh. eapply valid_ok; [done..|]. intros ->. by destruct (vmp_md_hw_pte_is_writeable _).
    + apply orb_false_iff in Ew as [Ew%negb_false_iff _]. subst write. by eapply make_writeable_ok.
Qed.

(** ** A process and its memory *)

(** The process [p], no thread of which has a lock: its mapped memory is private, and its
    page tables, its working set and the pages are as they should be; [n] pages are free. *)
Record process_ok (p root : Z) (ri : table) (pins : Z → Z) (n : nat) (T : tables) (B : blocks) (v : vm_procstate) (s : ast) : Prop := ProcessOk {
  po_proc : procs s !! p = Some v ∧ md_table v = root * PGSIZE;
  po_locks : map_held v = false ∧ ws_held v = false ∧ pfn_held s = false;
  po_root : T !! root = Some ri ∧ t_level ri = 4%nat ∧ t_proto ri = false ∧ t_owner ri = p ∧ t_slots ri ≤ 256;
  po_pages : wstate pins n T B (pg s);
  po_pins : ∀ y, 0 ≤ pins y ≤ 10000;
  po_wsl : (∃ fl, list_ok (pwsl v) fl) ∧ hash_ok (pwsl v) ∧ 0 < limit (pwsl v);
  po_private : private p root ri (resident (pwsl v)) T B (pg s)
}.

Lemma wire_faulting p root ri pins n k T B v fl s : procs s !! p = Some v → md_table v = root * PGSIZE →
  T !! root = Some ri ∧ t_level ri = 4%nat ∧ t_proto ri = false ∧ t_owner ri = p → wstate pins (3 + n) T B (pg s) → (∀ y, 0 ≤ pins y ≤ 10000) →
  list_ok (pwsl v) fl ∧ hash_ok (pwsl v) ∧ 0 < limit (pwsl v) → private p root ri (resident (pwsl v)) T B (pg s) → user ri k →
  wp (wire p (k * PGSIZE) None true) (λ r s', ∃ c pages T' B', r = WiredPte 0 (cell c (index (k * PGSIZE) 1)) pages ∧
    faulting p root ri pins n k c pages T' B' v fl s' ∧ step T B (pg s) T' B' (pg s') ∧ rest_same p s s' ∧ pfn_held s' = pfn_held s) s.
Proof.
  intros Hv Hmd (Hr & Hl & Hpr & Hown) Hws Hpins Hwsl Hpv Hk. unfold wire. rewrite wp_bind, wp_bind, wp_proc_at. exists v. split; [done|].
  rewrite wp_ret, Hmd, wp_bind, wp_in_pg.
  eapply wp_mono; [apply (wire_ok n pins T B (pg s) (WalkArgs p (k * PGSIZE) None true) root ri); try done; [exact (proj2 Hk)|apply Hpins]|].
  intros r x (c & pages & T' & B' & -> & Hhd & Hlen & [W1 W2 _ _ W4 _ W6]). cbn [wa_vaddr] in *. rewrite wire_waits_wired, wp_ret. rewrite Hl in W4.
  exists c, pages, T', B'. split; [done|]. split; [|split_and!; [done|apply rest_pg|done]]. split; try done; simpl.
  - split_and!; try done. by apply (sp_root _ _ _ _ _ _ W2).
  - split; [by destruct pages|]. split; [lia|]. intros t Ht. destruct (W6 t Ht) as (ti & Hti & _ & Hpt). exists ti. split; [done|congruence].
  - by eapply private_step.
Qed.

Lemma vad_find_same l a r s s' : map_entries s' = map_entries s → vad_find l a s = Ok (r, s) → vad_find l a s' = Ok (r, s').
Proof.
  intros Hm. induction l as [|e l IH]; simpl; [by intros [= <-]|]. unfold mbind, kern_bind, map_entry_at, mbind, kern_bind, get, deref. rewrite Hm.
  destruct (map_entries s !! e) as [y|]; [|done]. simpl. destruct (vmp_vad_cmp a y); try done; by intros [= <-].
Qed.
Definition area_of (x : vm_map_entry) : fault_info :=
  Info (object x) (start x) (offset x) (cow x) (negb (Z.land (protection x) kVMWrite =? 0)) (negb (Z.land (protection x) kVMExecute =? 0)) true.
Lemma find_area_ok p v a e x s : procs s !! p = Some v → map_held v = false → a < HHDM_BASE → vmp_ps_vad_find p a s = Ok (Some e, s) →
  map_entries s !! e = Some x →
  wp (find_area p a) (λ r s', r = Some (area_of x) ∧ s' = set_procs (<[p := set_map_held true v]> (procs s)) s) s.
Proof.
  intros Hv Hh Ha Hfind Hx. unfold find_area. rewrite (proj2 (Z.ltb_lt _ _) Ha). cbn [orb]. rewrite wp_bind, (wp_map_acquire p v) by done.
  rewrite wp_bind. unfold vmp_ps_vad_find in *. unfold mbind, kern_bind in Hfind. rewrite proc_at_run, Hv in Hfind.
  rewrite wp_bind, wp_proc_at. eexists. split; [simpl; by rewrite lookup_insert_eq|]. cbn [vad_queue set_map_held].
  unfold wp at 1. erewrite (vad_find_same _ a (Some e) s); [|done|exact Hfind]. rewrite wp_bind, wp_map_entry_at. exists x. split; [done|].
  rewrite wp_ret. done.
Qed.

(** Tables with an entry that is in memory are themselves: the hardware finds the entry. *)
Lemma xlate_walk pins T s v : tree pins T s → ∀ l t ti a w, T !! t = Some ti → t_level ti = l → index v l < t_slots ti →
  xlate (mem s) l t v = Some (a, w) → noswap w = true → walk (mem s) l (t * PGSIZE) v = Some a ∧ noswap (mem s (cell t (index v l))) = true.
Proof.
  intros Htr l. induction l as [|l IH]; intros t ti a w Ht Hl Hs Hx Hn; [done|]. pose proof (law_index v (S l)) as Hix. destruct l as [|l].
  - rewrite xlate_leaf in Hx. unfold present in Hx. case_decide; [done|]. injection Hx as <- <-. simpl. by rewrite cell_entry.
  - rewrite xlate_step in Hx. destruct (child (mem s (cell t _))) as [c|] eqn:Ec; [|done].
    destruct (child_state pins T s t ti _ c Htr Ht ltac:(lia) ltac:(split; [apply Hix|done]) Ec) as (x & HT & Hxc & _ & Hr & Hk).
    destruct (IH c (down ti) a w HT ltac:(simpl; lia) (proj2 (law_index v _)) Hx Hn) as [Hw Hnc].
    destruct (table_live pins T s c (down ti) (index v (S l)) Htr HT) as (y & Hy & Hpos); [simpl; apply law_index|done|].
    assert (y = x) as -> by congruence. rewrite decide_False in Hk by lia. rewrite (walk_step _ t l v c) by done. split; [done|]. by eapply child_noswap.
Qed.

(** No word of the process's memory changes. *)
Lemma served_content p root ri pins n k write T B v s s' T' B' v' fl' : private p root ri (resident (pwsl v)) T B (pg s) →
  served p root ri pins n k write T B v s s' T' B' v' fl' →
  ∀ a, user ri (a / PGSIZE) → content (mem (pg s')) root a = content (mem (pg s)) root a.
Proof.
  intros Hpv Hsv a Ha. pose proof (sv_moves _ _ _ _ _ _ _ _ _ _ _ _ _ _ _ _ Hsv) as Hmv. unfold content.
  destruct (view (mem (pg s)) root (a / PGSIZE)) as [q|] eqn:Ev.
  - rewrite (mv_view _ _ _ _ _ _ _ _ _ _ Hmv _ Ha), Ev by (left; by rewrite Ev). apply (mv_mem _ _ _ _ _ _ _ _ _ _ Hmv). rewrite page_off.
    unfold view in Ev. destruct (xlate (mem (pg s)) 4 root _) as [[b w]|] eqn:Ex; [|done]. simpl in Ev.
    destruct (pv_page _ _ _ _ _ _ _ Hpv _ b w Ha Ex) as (q' & x & [Hc [HT Hq] _ _ _]). assert (q' = q) as -> by congruence. by apply head_out.
  - destruct (decide (a / PGSIZE = k)) as [Hk|Hk].
    + destruct (view (mem (pg s')) root (a / PGSIZE)) as [q|] eqn:Ev'; [|done]. rewrite Hk in Ev, Ev'.
      apply (sv_zero _ _ _ _ _ _ _ _ _ _ _ _ _ _ _ _ Hsv Ev q _ Ev'). by apply Z.mod_pos_bound.
    + by rewrite (mv_view _ _ _ _ _ _ _ _ _ _ Hmv _ Ha), Ev by by right.
Qed.
Lemma served_before p root ri pins n k write T0 B0 v s0 T B s s' T' B' v' fl' : T0 !! root = Some ri → t_level ri = 4%nat → user ri k →
  step T0 B0 (pg s0) T B (pg s) → rest_same p s0 s → served p root ri pins n k write T B v s s' T' B' v' fl' →
  served p root ri pins n k write T0 B0 v s0 s' T' B' v' fl'.
Proof.
  intros Hr Hl Hk Hst Hrs [S1 S2 S3 S4 S5 S6 S7 S8 S9]. split; try done.
  - eapply moves_trans; [by apply step_moves|done].
  - by eapply rest_trans.
  - intros Hn. apply S9. unfold view. destruct (sp_root _ _ _ _ _ _ Hst root ri Hr Hl) as [_ Hx]. by rewrite Hx by apply Hk.
Qed.

(** With the locks taken. *)
Lemma locked_fault_ok p root ri pins n k T B v fl s x write : procs s !! p = Some v → md_table v = root * PGSIZE → pfn_held s = false →
  T !! root = Some ri ∧ t_level ri = 4%nat ∧ t_proto ri = false ∧ t_owner ri = p → wstate pins (4 + n) T B (pg s) → (∀ y, 0 ≤ pins y ≤ 10000) →
  list_ok (pwsl v) fl ∧ hash_ok (pwsl v) ∧ 0 < limit (pwsl v) → private p root ri (resident (pwsl v)) T B (pg s) → user ri k → object x = None →
  wp (vmp_acquire_pfn_lock;; w ← wire p (k * PGSIZE) None true;
      match w with NoTable _ => fatal "Failed to wire PTE" | WiredPte r pte pages => fault_branch p (k * PGSIZE) write (area_of x) r (WireState pte pages) end)
    (finishes p root ri pins n k write T B v s) s.
Proof.
  intros Hv Hmd Hlk Hroot Hws Hpins Hwsl Hpv Hk Hox. rewrite wp_bind. unfold vmp_acquire_pfn_lock. rewrite wp_bind, wp_get, Hlk, wp_modify, wp_bind.
  eapply wp_mono; [apply (wire_faulting p root ri pins (S n) k T B v fl); done|]. intros r s1 (c & pages & T1 & B1 & -> & Hf & Hst & Hrs & _).
  eapply wp_mono; [by apply (fault_branch_ok p root ri pins n k c pages T1 B1 v fl)|]. intros b s2 (-> & T2 & B2 & v2 & fl2 & Hsv). split; [done|].
  exists T2, B2, v2, fl2. eapply (served_before p root ri pins n k write T B v s T1 B1 s1); [apply Hroot|apply Hroot|done|exact Hst| |exact Hsv]. by destruct Hrs.
Qed.

(** The process, its memory and the rest of the system after a fault on page [k]. *)
Record faulted (p root : Z) (ri : table) (pins : Z → Z) (n : nat) (k : Z) (write : bool) (T : tables) (B : blocks) (v : vm_procstate) (s s' : ast)
  (T' : tables) (B' : blocks) (v' : vm_procstate) : Prop := Faulted {
  fd_process : process_ok p root ri pins n T' B' v' s';
  fd_maps : vmem v' = vmem v ∧ vad_queue v' = vad_queue v;
  fd_mapped : ∃ pte, vmp_fetch_pte (md_table v') (k * PGSIZE) (pg s') = Ok (Some pte, pg s') ∧ kind (mem (pg s') pte) = kPTEKindValid ∧
    (write = true → vmp_md_hw_pte_is_writeable (mem (pg s') pte) = true);
  fd_content : ∀ a, user ri (a / PGSIZE) → content (mem (pg s')) root a = content (mem (pg s)) root a;
  fd_others : ∀ p' root' ri' res, p' ≠ p → root' ≠ root → T !! root' = Some ri' → t_level ri' = 4%nat → private p' root' ri' res T B (pg s) →
    private p' root' ri' res T' B' (pg s') ∧ ∀ a, user ri' (a / PGSIZE) → content (mem (pg s')) root' a = content (mem (pg s)) root' a;
  fd_rest : rest_same p s s'
}.
Lemma served_faulted p root ri pins n m k write T B v s s1 s2 T' B' v2 fl : process_ok p root ri pins m T B v s → user ri k →
  s1 = set_procs (<[p := set_ws_held true (set_map_held true v)]> (procs s)) s →
  served p root ri pins n k write T B (set_ws_held true (set_map_held true v)) s1 s2 T' B' v2 fl →
  let v' := set_ws_held false (set_map_held false v2) in
  faulted p root ri pins n k write T B v s (set_procs (<[p := v']> (procs s2)) s2) T' B' v'.
Proof.
  intros [[Hv Hmd] Hlk (Hr & Hl & Hpr & Hown & Hsl) Hws Hpins Hwsl Hpv] Hk -> Hsv v'.
  pose proof Hsv as [[Hv2 (K1 & K2 & K3 & K4 & K5)] Hpf Hws2 (Hlo & Hho & Hlim) Hpv2 Hmv Hrs (a & w & Hx & Hval & Hwr) Hz]. simpl in *.
  pose proof (mv_root _ _ _ _ _ _ _ _ _ _ Hmv root ri Hr Hl) as Hr2. split.
  - split; simpl; rewrite ?lookup_insert_eq; try done; [by rewrite K3|eauto].
  - done.
  - exists a. simpl. unfold vmp_fetch_pte, VMP_TABLE_LEVELS. rewrite K3, Hmd, fetch_walk by lia.
    destruct (xlate_walk pins T' (pg s2) (k * PGSIZE) (ws_tree _ _ _ _ _ Hws2) 4 root ri a w Hr2 Hl (proj2 Hk) Hx) as [-> _]; [unfold noswap; by rewrite Hval|].
    pose proof Hx as (c & _ & _ & <- & _)%xlate_some. done.
  - exact (served_content p root ri pins n k write T B (set_ws_held true (set_map_held true v)) (set_procs (<[p := set_ws_held true (set_map_held true v)]> (procs s)) s) s2 T' B' v2 fl Hpv Hsv).
  - intros p' root' ri' res Hp' Hr' Ht' Hl' Hpv'. by eapply private_others.
  - destruct Hrs as [R1 R2 R3 R4]. split; try done. intros q Hq. simpl. rewrite lookup_insert_ne by done. rewrite R1 by done. simpl. by rewrite lookup_insert_ne.
Qed.
Lemma wp_locked {A} (m1 : kern ast ()) (m2 : kern ast wired) (f : Z → Z → list Z → kern ast branch) (g : branch → kern ast A) why Q s :
  wp (m1;; w ← m2; match w with NoTable _ => fatal why | WiredPte r pte pages => f r pte pages end) (λ b s', wp (g b) Q s') s →
  wp (m1;; w ← m2; match w with NoTable _ => fatal why | WiredPte r pte pages => b ← f r pte pages; g b end) Q s.
Proof.
  intros Hw. rewrite wp_bind in Hw. rewrite wp_bind. eapply wp_mono; [exact Hw|]. cbv beta. intros _ s1 Hw1. rewrite wp_bind in Hw1. rewrite wp_bind. eapply wp_mono; [exact Hw1|].
  cbv beta. intros [r pte pages|l] s2 Hw2; [by rewrite wp_bind|done].
Qed.
Lemma user_low ri k : user ri k → t_slots ri ≤ 256 → k * PGSIZE < HHDM_BASE.
Proof.
  intros [Hk Hix] Hs. rewrite (index_digit k 4) in Hix by lia. change (512 ^ Z.of_nat (4 - 1)) with 134217728 in Hix.
  unfold PGSIZE, VMP_PAGE_SHIFT, HHDM_BASE. change (2 ^ 12) with 4096. revert Hix. Z.div_mod_to_equations. lia.
Qed.
Lemma rounddown_page a : 0 ≤ a / PGSIZE < 2 ^ 36 → ROUNDDOWN a PGSIZE = a / PGSIZE * PGSIZE.
Proof.
  unfold PGSIZE, VMP_PAGE_SHIFT, ROUNDDOWN. intros Ha. rewrite u64_small by (change (2 ^ 12) with 4096 in Ha; revert Ha; Z.div_mod_to_equations; lia).
  change (2 ^ 12 - 1) with (Z.ones 12). rewrite <-Z.ldiff_land, Z.ldiff_ones_r by lia. by rewrite Z.shiftl_mul_pow2, Z.shiftr_div_pow2 by lia.
Qed.
Lemma do_fault_ok p root ri pins n T B v s vaddr write execute us e x :
  process_ok p root ri pins (4 + n) T B v s → user ri (vaddr / PGSIZE) →
  vmp_ps_vad_find p (vaddr / PGSIZE * PGSIZE) s = Ok (Some e, s) → map_entries s !! e = Some x → object x = None →
  (write = true → Z.land (protection x) kVMWrite ≠ 0) →
  wp (vmp_do_fault p vaddr write execute us) (λ r s', r = kVMFaultRetOK ∧ ∃ T' B' v', faulted p root ri pins n (vaddr / PGSIZE) write T B v s s' T' B' v') s.
Proof.
  intros Hpo Hk Hfind Hx Hox Hwr. pose proof Hpo as [[Hv Hmd] (Hmh & Hwh & Hpf) (Hr & Hl & Hpr & Hown & Hsl) Hws Hpins ((fl & Hlo) & Hho & Hlim) Hpv].
  unfold vmp_do_fault. set (k := vaddr / PGSIZE) in *. rewrite (rounddown_page vaddr) by apply Hk. fold k.
  assert (k * PGSIZE < HHDM_BASE) as Ha by (by eapply user_low).
  rewrite (proj2 (Z.leb_gt _ _) Ha), wp_bind, wp_ret, wp_bind. eapply wp_mono; [by eapply find_area_ok|]. intros r s0 [-> ->].
  assert (write && negb (fi_writeable (area_of x)) = false) as ->.
  { destruct write; [|done]. simpl. specialize (Hwr eq_refl). by rewrite (proj2 (Z.eqb_neq _ _) Hwr). }
  rewrite wp_bind, wp_ret, wp_bind. eapply wp_ws_acquire; [simpl; by rewrite lookup_insert_eq|done|]. simpl. rewrite insert_insert_eq.
  set (s1 := set_procs _ _).
  apply (wp_locked vmp_acquire_pfn_lock (wire p (k * PGSIZE) None true) (λ r pte pages, fault_branch p (k * PGSIZE) write (area_of x) r (WireState pte pages))).
  eapply wp_mono; [apply (locked_fault_ok p root ri pins n k T B (set_ws_held true (set_map_held true v)) fl s1 x write); try done; simpl; by rewrite ?lookup_insert_eq|].
  intros b s2 (-> & T2 & B2 & v2 & fl2 & Hsv). pose proof (sv_proc _ _ _ _ _ _ _ _ _ _ _ _ _ _ _ _ Hsv) as [Hv2 (K1 & K2 & K3 & K4 & K5)].
  unfold unlock_map, when. rewrite wp_bind, (wp_map_release p v2) by done. rewrite wp_bind. eapply wp_ws_release; [simpl; by rewrite lookup_insert_eq|done|].
  rewrite wp_ret. split; [done|]. simpl. rewrite insert_insert_eq. exists T2, B2, (set_ws_held false (set_map_held false v2)).
  exact (served_faulted p root ri pins n (4 + n) k write T B v s s1 s2 T2 B2 v2 fl2 Hpo Hk eq_refl Hsv).
Qed.
End fault.


(** ** A process that touches its memory *)

(** Process 2, whose root table is at [root], has two pages of memory. *)
Definition lone (root : Z) (g : pst) : ast := final (vm_ps_allocate 2 0x40000 8192 true) (add_process 2 root (Ast ∅ ∅ ∅ ∅ g false ∅ ∅ ∅ ∅ [] ∅)).
#[local] Existing Instance quiet.

Lemma lone_state root g : let s := lone root g in let v := proc2 s in pg s = g ∧ procs s !! 2 = Some v ∧ md_table v = root ∧ pwsl v = vmp_wsl_init ∧
  map_held v = false ∧ ws_held v = false ∧ pfn_held s = false.
Proof. vm_compute. repeat split. Qed.
Lemma lone_tables pins s root ri : tree pins {[root := ri]} s → t_level ri = 4%nat → ∀ k, user ri k → xlate (mem s) 4 root (k * PGSIZE) = None.
Proof.
  intros Htr Hl k Hk. rewrite xlate_step. destruct (child _) as [c|] eqn:Ec; [|done].
  destruct (child_state pins _ s root ri (vmp_addr_unpack (k * PGSIZE) 4) c Htr (lookup_singleton_eq _ _)) as (x & HT & _);
    [lia|split; [apply law_index|apply Hk]|done|].
  apply lookup_singleton_Some in HT as [_ HT]. apply (f_equal t_level) in HT. simpl in HT. lia.
Qed.
Lemma lone_ok : ∃ root g B, process_ok 2 root (Table 4 2 false 256) (λ _, 0) 31 {[root := Table 4 2 false 256]} B (proc2 (lone (root * PGSIZE) g)) (lone (root * PGSIZE) g).
Proof.
  destruct demo_wstate as [B HB]. destruct (proj1 (wp_ok _ _ _) (ps_init_ok (λ _, 0) 31 ∅ B demo 2 0 HB ltac:(done))) as (r & g & _ & root & B' & Hr & Hws & _).
  rewrite insert_empty in Hws. exists root, g, B'. destruct (lone_state (root * PGSIZE) g) as (Hpg & Hv & Hmd & Hwsl & Hl1 & Hl2 & Hl3). destruct init_ok as [Hlo Hho].
  split; rewrite ?Hpg, ?Hwsl.
  - split; [exact Hv|exact Hmd].
  - split_and!; [exact Hl1|exact Hl2|exact Hl3].
  - split_and!; [apply lookup_singleton_eq|reflexivity..|simpl; lia].
  - exact Hws.
  - intros y. lia.
  - split; [exists (seqZ 0 512); exact Hlo|]. split; [exact Hho|]. vm_compute. reflexivity.
  - split; [|intros k Hk; destruct (init_empty k Hk)]. intros k a w Hk Hx.
    rewrite (lone_tables _ _ _ _ (ws_tree _ _ _ _ _ Hws) eq_refl k Hk) in Hx. discriminate Hx.
Qed.
